(* ===== verification/_CoqProject ===== *)
-Q . S2P
Prelude.v
Utf8.v
Strings.v
Domain.v
Legal.v
TextDiff.v
Patch.v
PatchFacts.v
Paging.v
PagingFacts.v
DiffService.v
DiffFacts.v
DiffProperties.v
PatchChars.v
Compute.v
ComputePatch.v
ComputeFacts.v
ComputeHighlights.v
Protocol.v
ProtocolFacts.v
SearchQuery.v
SearchQueryFacts.v
CacheStore.v
Cache.v
CacheFacts.v
Upstream.v
UpstreamFacts.v
DurableStore.v
Retrieval.v
RetrievalFacts.v
RetrievalSteps.v
RetrievalProperties.v
Citation.v
CitationFacts.v
CitationTexts.v
InForce.v
InForceFacts.v
Slices.v
KrNames.v
KrArticles.v
KrScan.v
KrLocators.v
KrOutline.v
KrLookup.v
KrCitations.v
KrCitationsFacts.v
KrExamples.v
Profile.v
CorpusTitles.v
CorpusTitlesFacts.v
CitationCheck.v
CitationCheckFacts.v
CitationCheckProperties.v
InForceTool.v
ArticleRead.v
ArticleReadFacts.v
Citator.v
LawWatch.v
Lineage.v
Impact.v
Document.v
Catalogue.v
ProviderTree.v
Projection.v
ProjectionFacts.v
Requests.v
HttpUpstream.v
ProviderResponse.v
Redaction.v
RedactionFacts.v
Attachments.v
AttachmentsFacts.v
ProviderFetch.v
ProviderFetchFacts.v
ProviderDetail.v
ProviderDetailFacts.v
Supplements.v
SupplementsFacts.v
RateLimit.v
Framing.v
