(* ===== verification/Prelude.v ===== *)
(** * A verification library for openlegal4everyoneMCP

    The repository is a Rust server that retrieves legal texts from upstream
    sources, keeps captures of them, and answers requests about them: search,
    citations, date-based selection, comparison of texts and application of patches.
    This library models its decision-making code, the pure crates [domain] and
    [normalization], the services of [crates/application] and the adapters that carry
    logic of their own, and proves what makes them correct.  This file holds the
    notations, arithmetic and generic lemmas that the others share.

    ** How the program is modelled

    A Rust function is a Rocq function with its name.  [Result] is [result E A] and
    [?] is [let?]; code that can panic or whose loop needs fuel returns
    [result (stop E) A], so a panic is a value and a theorem says that it does not
    occur.  A [str] is the list of its Unicode scalar values with the byte lengths
    and offsets of its UTF-8 encoding: a slice off a character boundary panics
    ([Utf8], [Strings], [Slices]).  [usize] and [u64] are integers of 64 bits with
    their wrapping, checked and saturating operations; a subtraction below zero
    panics.

    A component that locks a state is a record and one function per locked operation;
    theorems about it quantify over every interleaving of these operations, a step
    relation with its reachable states.  What tokio does between them (scheduling,
    select, channels, cancellation tokens) appears as the choice of the next step and
    as arguments.  Code that is not in the repository is a parameter, a class of
    operations with a class of laws that state its documentation, and sample instances
    show that the laws can hold: the crate [similar] ([Similar], [SimilarLaws]), the
    form encoding of the crate [url] ([FormUrlencoded], [FormLaws]), its URLs
    ([LegalCodecs], [ProviderUrls], [LinkUrls] and the section variables [set_https],
    [with_query], [request_link], [url_text]), [serde_json] ([LegalCodecs],
    [DocumentJson], [InventoryJson], [DetailJson], [ProcessorJson],
    [CollectingJson]), SHA-256, the Unicode tables ([Unicode], [CharTables]), the
    time zones of [jiff] ([TimeZones], [TimeZoneLaws]), the HTTP client and the
    resolver ([HttpWorld], the answers of a [FetchAttempt]).
    Clocks and random numbers are readings of an environment, numbered by the call.
    The iteration order of a hash map is a parameter.

    ** Files and the code they model

    - Retrieval contracts: [Domain] is [crates/domain/src/lib.rs] and [history.rs];
      [Legal] is [domain/src/legal.rs] and [rights.rs].
    - Text comparison: [TextDiff] holds the contracts of [domain/src/text_diff.rs];
      [Patch] is [normalization/src/patch.rs], [Paging] is
      [application/src/text_diff/paging.rs], [DiffService] the locked operations of
      [application/src/text_diff.rs] and [text_diff/attachments.rs], [Compute] the
      engine [adapters/src/text_diff/compute.rs], [Protocol] the exchange with its
      worker process, [adapters/src/text_diff.rs] and [text_diff/protocol.rs].
      The service publishes what the engine returns only after [Paging.changes] has
      validated it; the engine runs [Compute] or [Patch] in the worker.
    - Search queries: [SearchQuery] is [normalization/src/search_query.rs].
    - Retrieval: [CacheStore] is the port of the cache with its laws, [Cache] the
      adapter [adapters/src/cache.rs] that implements it, [Upstream] the refresh of
      [application/src/service.rs] with [upstream_policy.rs], [DurableStore] the
      identities and evidence checks of [persistence.rs] and [persistence/identity.rs]
      with the lookups and publications of [adapters/src/postgres/data.rs] and
      [publication.rs], [Retrieval] the state and operations of the service with
      [service/persistent.rs].  The service is proved against the port of the cache,
      for every cache that satisfies its laws, and for arbitrary answers of the
      database and of the blob store.
    - Citations: [Citation] is [domain/src/citation.rs] and the projections of
      [application/src/citation.rs].
    - Legal references: [InForce] is [application/src/legal_reference.rs];
      [KrNames], [KrArticles] and [KrCitations] are the Korean profile,
      [normalization/src/kr_legal_reference.rs] with [legal_reference.rs]: law
      names, article locators and outlines, and the extraction of citations.
      [Profile] is the trait of a profile with its laws, which that code implements.
    - Documents: [Document] is the port of the document worker,
      [application/src/document.rs].
    - The provider, [adapters/src/law_go_kr.rs]: [Catalogue] is the registry
      [law_go_kr/catalog.rs]; [ProviderTree] reads listings, [Projection] turns a
      processed document into a record, [Requests] forms the requests,
      [ProviderResponse] recognises errors and article numbers, [Redaction] takes the
      credential out of a response, [Attachments] holds their links and rights,
      [ProviderFetch] one fetch, [ProviderDetail] the detail of a record with its
      attachments, [Supplements] the views of [law_go_kr/supplements.rs].  A detail is
      a fetch whose check projects the document; each attachment is a fetch with the
      bytes that are left.  [HttpUpstream] is the other client, [adapters/src/lib.rs].
    - Tools over references: [CorpusTitles], [CitationCheck] and [InForceTool] are
      [apps/server/src/legal_reference.rs], the lookup of titles, the check of the
      citations in a text and the selection by date; [ArticleRead], [Citator],
      [LawWatch], [Lineage] and [Impact] are [apps/server/src/legal_analysis.rs], reads
      of articles and annexes, the decisions that cite a case, the watch over laws, the
      history of a law's titles and the references of an article.
      They are computations that count
      their calls of the search and the database, whose answers are a [Corpus]; they
      are proved against the trait of a profile and instantiated with Korea.

    - Serving: [RateLimit] is [apps/server/src/rate_limit.rs] with the limits of
      [config.rs], [Framing] is [framing.rs], a reader whose calls may be dropped at
      any time and whose permits come from a budget shared with other connections.

    ** What the theorems show

    - [PatchFacts]: a patch is applied exactly when its hunks fit, with the result
      that they denote; a conflict, an undo, and that parsing always answers.
    - [PagingFacts]: accepted engine output is an edit script between the two texts,
      and the pages present exactly it, within their limits.
    - [ComputePatch], [ComputeFacts], [ComputeHighlights]: the patch that the engine
      prints is read back and turns the old text into the new one; highlights lie in
      their lines and leave only common text unmarked.
    - [ProtocolFacts]: whatever happens to a worker, a returned result is the one the
      engine computes; an undisturbed exchange loses nothing.
    - [DiffFacts], [DiffProperties]: exact ledgers and limits in every reachable
      state, the upload protocol and its round trip, leases, published comparisons.
    - [SearchQueryFacts]: parsing answers, trees are bounded and well formed, errors
      are located inside the source.
    - [CacheFacts]: the cache refines a least-recently-used list.
    - [UpstreamFacts]: attempts, back-off, daily budget, validation of payloads.
    - [DurableStore]: what a lookup or a publication answers belongs under the key
      that was asked for.  [RetrievalFacts], [RetrievalSteps], [RetrievalProperties]:
      accounting, no waiter without an answer also when a job panics, genuine and
      fresh answers, a final shutdown.
    - [CitationFacts], [CitationTexts]: identities and their paths determine each
      other; passages cover a section; a hit is cited by text that contains it.
    - [InForceFacts]: the selected revision is the latest in force; lookups end and
      report completeness truthfully.
    - [KrNames]: law names are resolved by an unambiguous table; similarity is a
      rounded percentage.  [KrScan], [KrLocators], [KrOutline], [KrLookup]: scanners
      by byte offset compute reference parsers over characters, so they never panic;
      locators are printed and read back; mentions and outlines are complete; lookups
      return the first match.  [KrCitationsFacts]: extraction always answers and lists
      bounded, ordered spans that read as they say.  [KrExamples] evaluates the unit
      tests of the source.
    - [CorpusTitlesFacts], [CitationCheckFacts], [CitationCheckProperties]: an index of
      titles is well formed, laws are looked up before they are reported missing, every
      verdict is what a read of the corpus shows, every citation is reported and
      counted.  [InForceTool]: the selection of a date, its texts and its
      comparison are those of the inventory.
    - [ArticleReadFacts]: the headings above an article are those still open in front of
      it, a chapter is what stands under its heading, a read stays within its budget and
      is complete unless it is marked.  [Citator]: every citing line is accounted
      for, a phrase is shown with its line, and the one way in which a phrase is missed
      ([phrase_missed]).  [LawWatch]: every law has an entry, a repeal is what the
      latest revision records, and a change is reported once.  [Lineage]: title
      periods partition the revisions.  [Impact]: objects are counted once,
      references are texts of the article, and no text can break the diagram.
    - [Document]: the check of a worker's answer ends and accepts exactly the well-formed
      ones. [Catalogue]: the registry is closed. [ProviderTree]: a page that is not
      marked lost no row, conflicts are exact. [ProjectionFacts]: a record is the
      one that was asked for, holds every text of its family once and in order, and
      no annex. [Requests], [ProviderResponse]: requests name the revision or the
      term of a listed item; article numbers are exact; what conceals an error
      envelope ([comment_conceals]).
    - [RedactionFacts]: no form of the credential passes, and nothing else is
      rewritten.  [AttachmentsFacts]: no attachment is left out and none inherits a
      licence.  [ProviderFetchFacts], [ProviderDetailFacts]: what is handed on,
      archived and requested; the client is suspended exactly behind a refusal and behind
      a pause of more than seven days or one that is not recorded; an attachment is evidence
      or missing, and what a failed one had added is gone.  [SupplementsFacts]:
      requests are documented and determined by their work, a traversal that ends has
      read every row, coverage has no gap.  [HttpUpstream]: only public addresses are
      asked, bodies are whole and bounded.

    - [RateLimit]: a call is admitted exactly when it fits the allowance of every
      window of calls.  [Framing]: framing loses and invents nothing, permits are
      exact, and messages that are written are read back however their bytes are cut.

    ** Fuel and bounds

    Every fuel is shown to be enough, so no theorem speaks only of runs that return.
    [SearchQuery.parse_fuel] is linear in the length of the query; the eviction loop
    of the cache has one unit for every entry; [InForce.find_pages] has one for each
    of the at most 20 pages; [Strings.align_down] and [align_up] need three steps, a
    character has at most four bytes; [Citation.passages] one for every byte of a
    section; [Compute.annotate_blocks] one for every edit operation;
    [KrCitations.extract_citations] one for every character, since each turn of its
    loop moves on.  The scans of [Redaction] have one unit for every character, the
    walks over a document tree recurse on the tree, [Document.tree_loop] has one unit
    for each node it may visit; an attachment is asked for at most three times.
    Generations of flights are counted below [2 ^ 64] steps.

    ** Not modelled

    - The document worker [apps/document-worker] with its vendored converter, the
      vendored morphology in [vendor], the widgets and scripts: third-party code,
      wrappers of it, or other languages.
    - PostgreSQL beyond the checks of what it answers, blob storage, replication, the
      corpus tables and their search ([crates/adapters/src/postgres/maintenance.rs],
      [provider_admin.rs], [request_budget.rs], [blob*], [corpus*], [replication.rs],
      [storage_binding.rs], [runtime_guard.rs], [document_jobs.rs]): their behaviour is
      that of SQL statements and of a file system.
    - The gate of the provider client ([law_go_kr/admission.rs], the tickets,
      reservations and pauses of [law_go_kr.rs]) and the collection on demand: rows of
      PostgreSQL under advisory locks.  A fetch takes their answers as given.
    - The other transports, handlers and configuration of [apps/server]: glue
      around libraries for HTTP, WebTransport and MCP, except where listed above.
    - In the modelled components: the [Display] texts of errors, wire forms produced
      by derive macros, metrics; the token bucket of the upstream client, which
      computes with floating-point numbers and is an input of an attempt; collection
      notices; the listing of snapshots; a lock that a panic poisoned. *)

From Stdlib Require Export List ZArith Lia.
From stdpp Require Export base list gmap numbers strings.

#[export] Set Default Goal Selector "!".
#[export] Set Warnings "-clear-no-such-hyp".

(** * Results

    [result E A] is Rust's [Result<A, E>]; [let? x := m in k] is the [?]
    operator.  Code that may also panic or run out of fuel returns
    [result (stop E) A], so both outcomes are visible in the statement. *)

Inductive result (E A : Type) : Type :=
| Ok (a : A)
| Err (e : E).
Arguments Ok {E A} a.
Arguments Err {E A} e.

Inductive stop (E : Type) : Type :=
| Error (e : E)
| Panic
| OutOfFuel.
Arguments Error {E} e.
Arguments Panic {E}.
Arguments OutOfFuel {E}.

Declare Scope result_scope.
Open Scope result_scope.
Open Scope Z_scope.

Notation "'let?' x ':=' m 'in' k" :=
  (match m with Ok x => k | Err err_ => Err err_ end)
  (at level 10, x pattern, m at level 100, k at level 200) : result_scope.

Definition ok_or {E A} (o : option A) (e : E) : result E A :=
  match o with Some a => Ok a | None => Err e end.

Definition is_ok {E A} (r : result E A) : bool :=
  match r with Ok _ => true | Err _ => false end.

Definition is_some {A} (o : option A) : bool :=
  match o with Some _ => true | None => false end.

(** The answers a caller of the Rust function can observe: a value or an
    error, never a panic and never an exhausted fuel. *)
Definition answers {E A} (r : result (stop E) A) : Prop :=
  match r with
  | Ok _ | Err (Error _) => True
  | Err Panic | Err OutOfFuel => False
  end.

Lemma is_ok_value {E A} (r : result E A) : is_ok r = true -> { a | r = Ok a }.
Proof. destruct r as [a|]; [by exists a|done]. Defined.

#[export] Instance result_eq_dec `{EqDecision E, EqDecision A} :
  EqDecision (result E A).
Proof. solve_decision. Defined.

(** * Machine integers: [usize] and [u64] are 64 bits wide. *)

Definition usize_max : Z := 2 ^ 64 - 1.
Definition u64_max : Z := 2 ^ 64 - 1.
Definition saturating_add (a b : Z) : Z := Z.min (a + b) usize_max.
Definition saturating_sub (a b : Z) : Z := Z.max (a - b) 0.
Definition checked_add (a b : Z) : option Z :=
  if a + b <=? usize_max then Some (a + b) else None.
Definition checked_mul (a b : Z) : option Z :=
  if a * b <=? usize_max then Some (a * b) else None.
Definition checked_sub (a b : Z) : option Z :=
  if b <=? a then Some (a - b) else None.
Definition wrapping_add (a b : Z) : Z := (a + b) mod 2 ^ 64.
(** [n as u32] *)
Definition as_u32 (n : Z) : Z := n mod 2 ^ 32.
Definition saturating_mul (a b : Z) : Z := Z.min (a * b) u64_max.

Definition zlen {A} (l : list A) : Z := Z.of_nat (length l).

Lemma checked_sub_Some a b c : checked_sub a b = Some c -> b <= a /\ c = a - b.
Proof.
  unfold checked_sub. destruct (Z.leb_spec b a); [|discriminate]. intros [= <-]. by split.
Qed.

Lemma checked_add_Some a b c : checked_add a b = Some c -> a + b <= usize_max /\ c = a + b.
Proof.
  unfold checked_add. destruct (Z.leb_spec (a + b) usize_max); [|discriminate].
  intros [= <-]. by split.
Qed.

(** * Automation *)

(** Split the boolean connectives of a hypothesis. *)
Ltac bool_hyps :=
  repeat match goal with
  | H : _ && _ = true |- _ => apply andb_true_iff in H as [? ?]
  | H : _ || _ = false |- _ => apply orb_false_iff in H as [? ?]
  | H : negb _ = true |- _ => apply negb_true_iff in H
  | H : negb _ = false |- _ => apply negb_false_iff in H
  | H : (_ <=? _) = true |- _ => apply Z.leb_le in H
  | H : (_ <=? _) = false |- _ => apply Z.leb_gt in H
  | H : (_ <? _) = true |- _ => apply Z.ltb_lt in H
  | H : (_ <? _) = false |- _ => apply Z.ltb_ge in H
  | H : (_ =? _) = true |- _ => apply Z.eqb_eq in H
  | H : (_ =? _) = false |- _ => apply Z.eqb_neq in H
  | H : bool_decide _ = true |- _ => apply bool_decide_eq_true in H
  | H : bool_decide _ = false |- _ => apply bool_decide_eq_false in H
  end.

(** Follow a computation that returned [Ok] (or [Err]) through its [let?],
    [if] and [match] steps. *)
Ltac res_step :=
  match goal with
  | H : Ok _ = Ok _ |- _ => injection H as H; try subst
  | H : Err _ = Err _ |- _ => injection H as H; try subst
  | H : Some _ = Some _ |- _ => injection H as H; try subst
  | H : Ok _ = Err _ |- _ => discriminate H
  | H : Err _ = Ok _ |- _ => discriminate H
  | H : (match ?m with _ => _ end) = Ok _ |- _ =>
      let E := fresh "E" in destruct m eqn:E; try discriminate H
  end.
Ltac res_inv := repeat (res_step; simpl in *; try discriminate).

(** [lia] for goals with division and remainder by constants. *)
Ltac dlia := Z.to_euclidean_division_equations; lia.

(** * Generic list facts *)

Section list_facts.
Context {A : Type}.
Implicit Types (l k : list A).

Lemma zlen_nil : zlen (@nil A) = 0.
Proof. reflexivity. Qed.

Lemma zlen_cons x l : zlen (x :: l) = 1 + zlen l.
Proof. unfold zlen; simpl; lia. Qed.

Lemma zlen_app l k : zlen (l ++ k) = zlen l + zlen k.
Proof. unfold zlen; rewrite length_app; lia. Qed.

Lemma zlen_nonneg l : 0 <= zlen l.
Proof. unfold zlen; lia. Qed.

Lemma zlen_zero l : zlen l = 0 -> l = [].
Proof. destruct l; [done|rewrite zlen_cons; pose proof (zlen_nonneg l); lia]. Qed.

Lemma forallb_app' (p : A -> bool) l k :
  forallb p (l ++ k) = forallb p l && forallb p k.
Proof. induction l; simpl; [done|by rewrite IHl, andb_assoc]. Qed.

Lemma forallb_Forall (p : A -> bool) l :
  forallb p l = true <-> Forall (fun x => p x = true) l.
Proof.
  induction l; simpl; [done|].
  rewrite andb_true_iff, Forall_cons; tauto.
Qed.
End list_facts.

#[export] Instance zlen_permutation A : Proper (Permutation ==> eq) (@zlen A).
Proof. intros l k Hp. unfold zlen. by rewrite Hp. Qed.

Create HintDb zlen.
Create Rewrite HintDb zlen_rw.
#[export] Hint Rewrite @zlen_nil @zlen_cons @zlen_app : zlen_rw.
#[export] Hint Resolve zlen_nonneg : zlen.
Ltac zlen_simpl := autorewrite with zlen_rw in *.

Fixpoint sum_Z (l : list Z) : Z :=
  match l with [] => 0 | x :: l => x + sum_Z l end.

Lemma sum_Z_app l k : sum_Z (l ++ k) = sum_Z l + sum_Z k.
Proof. induction l; simpl; lia. Qed.

Lemma sum_Z_nonneg l : Forall (Z.le 0) l -> 0 <= sum_Z l.
Proof. induction 1; simpl; lia. Qed.

#[export] Instance sum_Z_permutation : Proper (Permutation ==> eq) sum_Z.
Proof. intros l k H. induction H; simpl; lia. Qed.

(** Sum of a measure over the values of a finite map. *)
Definition map_sum `{Countable K} {V} (f : V -> Z) (m : gmap K V) : Z :=
  sum_Z ((fun kv => f kv.2) <$> map_to_list m).

Section map_sum.
Context `{Countable K} {V : Type} (f : V -> Z).
Implicit Types m : gmap K V.

Lemma map_sum_empty : map_sum f (∅ : gmap K V) = 0.
Proof. unfold map_sum. by rewrite map_to_list_empty. Qed.

Lemma map_sum_insert m k v :
  m !! k = None -> map_sum f (<[k:=v]> m) = f v + map_sum f m.
Proof. intros Hk. unfold map_sum. by rewrite map_to_list_insert. Qed.

Lemma map_sum_delete m k v :
  m !! k = Some v -> map_sum f (delete k m) = map_sum f m - f v.
Proof.
  intros Hk. rewrite <- (insert_delete_id m k v Hk) at 2.
  rewrite map_sum_insert; [lia|apply lookup_delete_eq].
Qed.

Lemma map_sum_replace m k v v' :
  m !! k = Some v -> map_sum f (<[k:=v']> m) = map_sum f m - f v + f v'.
Proof.
  intros Hk. rewrite <- insert_delete_eq, map_sum_insert;
    [|apply lookup_delete_eq].
  rewrite (map_sum_delete _ _ v) by done. lia.
Qed.

Lemma map_sum_nonneg m : (forall k v, m !! k = Some v -> 0 <= f v) -> 0 <= map_sum f m.
Proof.
  intros Hm. apply sum_Z_nonneg, Forall_fmap, Forall_forall.
  intros [k v] Hin. simpl. apply (Hm k). by apply elem_of_map_to_list.
Qed.

Lemma map_sum_lookup_le m k v :
  (forall k v, m !! k = Some v -> 0 <= f v) ->
  m !! k = Some v -> f v <= map_sum f m.
Proof.
  intros Hm Hk. pose proof (map_sum_delete m k v Hk) as Hd.
  assert (0 <= map_sum f (delete k m)); [|lia].
  apply map_sum_nonneg. intros k' v' [_ Hk']%lookup_delete_Some. eauto.
Qed.

Lemma map_sum_filter_split m (P : K * V -> Prop) `{!forall kv, Decision (P kv)} :
  map_sum f m = map_sum f (filter P m) + map_sum f (filter (fun kv => ~ P kv) m).
Proof.
  induction m as [|k v m Hk IH] using map_ind; [by rewrite !map_filter_empty|].
  rewrite map_sum_insert, IH by done. destruct (decide (P (k, v))).
  - rewrite (map_filter_insert_True P), (map_filter_insert_not' (fun kv => ~ P kv)), map_sum_insert;
      [lia|apply map_lookup_filter_None; auto|tauto| |done].
    intros ? Heq. congruence.
  - rewrite (map_filter_insert_not' P), (map_filter_insert_True (fun kv => ~ P kv)), map_sum_insert;
      [lia|apply map_lookup_filter_None; auto|done|done|].
    intros ? Heq. congruence.
Qed.

Lemma map_sum_filter_le m (P : K * V -> Prop) `{!forall kv, Decision (P kv)} :
  (forall k v, m !! k = Some v -> 0 <= f v) -> map_sum f (filter P m) <= map_sum f m.
Proof.
  intros Hm. rewrite (map_sum_filter_split m P).
  assert (0 <= map_sum f (filter (fun kv => ~ P kv) m)); [|lia].
  apply map_sum_nonneg. intros k v [Hk _]%map_lookup_filter_Some. eauto.
Qed.

Lemma map_sum_subseteq_le m m' :
  (forall k v, m' !! k = Some v -> 0 <= f v) -> m ⊆ m' -> map_sum f m <= map_sum f m'.
Proof.
  intros Hm Hsub.
  assert (m = filter (fun kv => is_Some (m !! kv.1)) m') as ->; [|by apply map_sum_filter_le].
  apply map_eq. intros k. apply option_eq. intros v.
  rewrite map_lookup_filter_Some. simpl. split.
  - intros Hk. split; [by eapply lookup_weaken|eauto].
  - intros [Hk [v' Hv']]. assert (m' !! k = Some v') by (by eapply lookup_weaken). congruence.
Qed.
End map_sum.

Lemma map_sum_le `{Countable K} {V} (f g : V -> Z) (m : gmap K V) :
  (forall k v, m !! k = Some v -> f v <= g v) -> map_sum f m <= map_sum g m.
Proof.
  induction m as [|k v m Hk IH] using map_ind; intros Hm; [by rewrite !map_sum_empty|].
  rewrite !map_sum_insert by done.
  assert (f v <= g v) by (apply (Hm k), lookup_insert_eq).
  assert (map_sum f m <= map_sum g m); [|lia].
  apply IH. intros k' v' Hk'. apply (Hm k'). rewrite lookup_insert_ne; congruence.
Qed.

Lemma map_sum_size `{Countable K} {V} (m : gmap K V) :
  map_sum (fun _ => 1) m = Z.of_nat (size m).
Proof.
  induction m as [|k v m Hk IH] using map_ind; [done|].
  rewrite map_size_insert_None, map_sum_insert by done. lia.
Qed.

(** The test [collect::<BTreeSet>().len() == len()]. *)
Definition all_distinct `{Countable A} (l : list A) : bool :=
  Z.of_nat (size (list_to_set l : gset A)) =? zlen l.

Section all_distinct.
Context `{Countable A}.
Implicit Types l : list A.

Lemma size_list_to_set_le l : (size (list_to_set l : gset A) <= length l)%nat.
Proof.
  induction l as [|x l IH]; [by rewrite list_to_set_nil, size_empty|].
  rewrite list_to_set_cons, size_union_alt, size_singleton. simpl.
  pose proof (subseteq_size (list_to_set l ∖ {[x]} : gset A) (list_to_set l)
    ltac:(set_solver)). lia.
Qed.

Lemma all_distinct_NoDup l : all_distinct l = true <-> NoDup l.
Proof.
  unfold all_distinct, zlen. rewrite Z.eqb_eq, Nat2Z.inj_iff. split.
  - induction l as [|x l IH]; [constructor|]. rewrite list_to_set_cons. simpl. intros Hs.
    pose proof (size_list_to_set_le l).
    destruct (decide (x ∈ (list_to_set l : gset A))) as [Hin|Hin].
    + rewrite (subseteq_union_1_L {[x]}) in Hs by set_solver. lia.
    + rewrite size_union, size_singleton in Hs by set_solver.
      constructor; [by rewrite elem_of_list_to_set in Hin|apply IH; lia].
  - intros Hnd. by rewrite size_list_to_set.
Qed.
End all_distinct.

(** * Counting the elements of a list that pass a test *)

Fixpoint countb {A} (p : A -> bool) (l : list A) : Z :=
  match l with [] => 0 | x :: l => Z.b2z (p x) + countb p l end.

Section countb.
Context {A : Type}.
Implicit Types (p q r : A -> bool) (l : list A).

Lemma countb_nonneg p l : 0 <= countb p l.
Proof. induction l as [|x l IH]; simpl; [done|]. destruct (p x); simpl; lia. Qed.

Lemma countb_app p l k : countb p (l ++ k) = countb p l + countb p k.
Proof. induction l; simpl; lia. Qed.

Lemma countb_ext p q l : (forall x, x ∈ l -> p x = q x) -> countb p l = countb q l.
Proof.
  induction l as [|x l IH]; intros Hpq; simpl; [done|].
  rewrite (Hpq x) by apply list_elem_of_here. rewrite IH; [done|]. intros y Hy. apply Hpq. by right.
Qed.

Lemma countb_delete p l i x : l !! i = Some x -> countb p (delete i l) = countb p l - Z.b2z (p x).
Proof.
  revert i. induction l as [|y l IH]; intros [|i] Hi; simplify_eq/=; [lia|]. rewrite (IH i) by done. lia.
Qed.

Lemma countb_insert p l i x y :
  l !! i = Some x -> countb p (<[i:=y]> l) = countb p l - Z.b2z (p x) + Z.b2z (p y).
Proof.
  revert i. induction l as [|z l IH]; intros [|i] Hi; simplify_eq/=; [lia|]. rewrite (IH i) by done. lia.
Qed.

(** The test [p] is the disjoint union of [q] and [r]. *)
Lemma countb_split p q r l :
  (forall x, x ∈ l -> Z.b2z (p x) = Z.b2z (q x) + Z.b2z (r x)) -> countb p l = countb q l + countb r l.
Proof.
  induction l as [|x l IH]; intros Hp; simpl; [done|].
  rewrite (Hp x) by apply list_elem_of_here. rewrite IH; [lia|]. intros y Hy. apply Hp. by right.
Qed.

Lemma countb_zero p l : countb p l = 0 -> forall x, x ∈ l -> p x = false.
Proof.
  induction l as [|y l IH]; intros Hz x Hx; [by apply not_elem_of_nil in Hx|]. simpl in Hz.
  pose proof (countb_nonneg p l). apply elem_of_cons in Hx as [->|Hx].
  - destruct (p y); [simpl in Hz; lia|done].
  - apply IH; [|done]. destruct (p y); simpl in Hz; lia.
Qed.

Lemma countb_none p l : (forall x, x ∈ l -> p x = false) -> countb p l = 0.
Proof.
  induction l as [|y l IH]; intros Hp; simpl; [done|].
  rewrite (Hp y) by apply list_elem_of_here. rewrite IH; [done|]. intros x Hx. apply Hp. by right.
Qed.

Lemma countb_pos p l x : x ∈ l -> p x = true -> 1 <= countb p l.
Proof.
  intros Hx Hp. destruct (Z.eq_dec (countb p l) 0) as [Hz|Hz].
  - by rewrite (countb_zero p l Hz x Hx) in Hp.
  - pose proof (countb_nonneg p l). lia.
Qed.
End countb.

Lemma countb_two {A} (p : A -> bool) (l : list A) i j x y :
  i <> j -> l !! i = Some x -> l !! j = Some y -> p x = true -> p y = true -> 1 < countb p l.
Proof.
  intros Hij Hi Hj Hx Hy. pose proof (countb_delete p l i x Hi) as Hd. rewrite Hx in Hd. simpl in Hd.
  assert (exists k, delete i l !! k = Some y) as (k & Hk).
  { destruct (decide (j < i)%nat).
    - exists j. by rewrite list_lookup_delete_lt.
    - exists (j - 1)%nat. rewrite list_lookup_delete_ge by lia. by replace (S (j - 1)) with j by lia. }
  pose proof (countb_delete p _ _ _ Hk) as Hd'. rewrite Hy in Hd'. simpl in Hd'.
  pose proof (countb_nonneg p (delete k (delete i l))). lia.
Qed.
