(* ===== verification/Utf8.v ===== *)
(** Rust strings.  A [str] is the list of its Unicode scalar values; byte
    lengths, byte offsets and slices are those of its UTF-8 encoding.  The
    character classes given by an ASCII range or a short list (white space,
    control characters) are written out; the two that need the Unicode
    database ([char::is_alphanumeric], [str::to_lowercase]) are the operations
    of the class [Unicode]. *)

From S2P Require Import Prelude.

Abbreviation char := Z.
Abbreviation byte := Z.
Abbreviation str := (list Z).

(** * Encoding *)

Definition len_utf8 (c : char) : Z :=
  if c <? 0x80 then 1 else if c <? 0x800 then 2 else if c <? 0x10000 then 3 else 4.

Definition encode_char (c : char) : list byte :=
  if c <? 0x80 then [c]
  else if c <? 0x800 then [0xC0 + c / 64; 0x80 + c mod 64]
  else if c <? 0x10000 then
    [0xE0 + c / 4096; 0x80 + (c / 64) mod 64; 0x80 + c mod 64]
  else
    [0xF0 + c / 262144; 0x80 + (c / 4096) mod 64; 0x80 + (c / 64) mod 64;
     0x80 + c mod 64].

Fixpoint bytes (s : str) : list byte :=
  match s with [] => [] | c :: s => encode_char c ++ bytes s end.

(** [str::len] *)
Fixpoint slen (s : str) : Z :=
  match s with [] => 0 | c :: s => len_utf8 c + slen s end.

(** A literal of the source, written as a Rocq string (bytes in UTF-8). *)
Fixpoint decode_bytes (fuel : nat) (l : list byte) : str :=
  match fuel with
  | O => []
  | S fuel =>
    match l with
    | [] => []
    | a :: l1 =>
      if a <? 0x80 then a :: decode_bytes fuel l1
      else match l1 with
      | [] => []
      | b :: l2 =>
        if a <? 0xE0 then ((a - 0xC0) * 64 + (b - 0x80)) :: decode_bytes fuel l2
        else match l2 with
        | [] => []
        | c :: l3 =>
          if a <? 0xF0 then
            ((a - 0xE0) * 4096 + (b - 0x80) * 64 + (c - 0x80)) :: decode_bytes fuel l3
          else match l3 with
          | [] => []
          | d :: l4 =>
            ((a - 0xF0) * 262144 + (b - 0x80) * 4096 + (c - 0x80) * 64 + (d - 0x80))
              :: decode_bytes fuel l4
          end
        end
      end
    end
  end.

Definition string_bytes (s : string) : list byte :=
  (fun a => Z.of_N (Ascii.N_of_ascii a)) <$> String.list_ascii_of_string s.

Definition u (s : string) : str :=
  let l := string_bytes s in decode_bytes (length l) l.

Definition hex_digit (n : Z) : char := if n <? 10 then 48 + n else 97 + (n - 10).
(** [format!("{b:02x}")] over the bytes *)
Definition hex (l : list byte) : str := l ≫= (fun b => [hex_digit (b / 16); hex_digit (b mod 16)]).

(** A character literal: the only character of the literal string. *)
Definition ch (s : string) : char := hd 0 (u s).

(** * Character classes *)

Definition in_range (lo hi c : Z) : bool := (lo <=? c) && (c <=? hi).

Definition is_ascii_digit (c : char) : bool := in_range 48 57 c.
Definition is_ascii_lowercase (c : char) : bool := in_range 97 122 c.
Definition is_ascii_uppercase (c : char) : bool := in_range 65 90 c.
Definition is_ascii_alphanumeric (c : char) : bool :=
  is_ascii_digit c || is_ascii_lowercase c || is_ascii_uppercase c.
Definition to_ascii_lowercase (c : char) : char :=
  if is_ascii_uppercase c then c + 32 else c.
Definition to_ascii_uppercase (c : char) : char :=
  if is_ascii_lowercase c then c - 32 else c.

(** General category Cc. *)
Definition is_control (c : char) : bool := in_range 0 31 c || in_range 127 159 c.

(** The property White_Space. *)
Definition is_whitespace (c : char) : bool :=
  in_range 9 13 c || (c =? 32) || (c =? 133) || (c =? 160) || (c =? 0x1680)
  || in_range 0x2000 0x200A c || (c =? 0x2028) || (c =? 0x2029) || (c =? 0x202F)
  || (c =? 0x205F) || (c =? 0x3000).

Class Unicode := {
  is_alphanumeric : char -> bool;
  to_lowercase : str -> str;
  (** the Unicode properties agree with the ASCII tests on ASCII *)
  alphanumeric_ascii c : 0 <= c < 128 -> is_alphanumeric c = is_ascii_alphanumeric c;
}.

(** ASCII letters and digits and Hangul syllables: enough of the tables for
    concrete inputs. *)
#[export] Program Instance sample_unicode : Unicode := {|
  is_alphanumeric c := is_ascii_alphanumeric c || in_range 0xAC00 0xD7A3 c;
  to_lowercase s := to_ascii_lowercase <$> s;
|}.
Next Obligation.
  intros c [? ?]. unfold in_range.
  rewrite (proj2 (Z.leb_gt 0xAC00 c)) by lia. by rewrite andb_false_l, orb_false_r.
Qed.

(** * Slices at byte offsets *)

(** [split_at off s]: the characters before and after byte [off]; [None] when
    [off] is not a character boundary of [s] or lies past its end. *)
Fixpoint split_at (off : Z) (s : str) : option (str * str) :=
  if off =? 0 then Some ([], s)
  else if off <? 0 then None
  else match s with
  | [] => None
  | c :: s =>
    match split_at (off - len_utf8 c) s with
    | Some (a, b) => Some (c :: a, b)
    | None => None
    end
  end.

Definition is_char_boundary (s : str) (off : Z) : bool :=
  match split_at off s with Some _ => true | None => false end.

(** [s.get(off..)], [s.get(..off)] and [s.get(a..b)] *)
Definition str_from (s : str) (off : Z) : option str := snd <$> split_at off s.
Definition str_upto (s : str) (off : Z) : option str := fst <$> split_at off s.
Definition str_range (s : str) (a b : Z) : option str :=
  if a <=? b then str_from s a ≫= fun t => str_upto t (b - a) else None.

(** * Searching and splitting *)

Fixpoint strip_prefix (p s : str) : option str :=
  match p, s with
  | [], _ => Some s
  | a :: p, b :: s => if a =? b then strip_prefix p s else None
  | _ :: _, [] => None
  end.

Definition starts_with (p s : str) : bool :=
  match strip_prefix p s with Some _ => true | None => false end.

Definition strip_suffix (p s : str) : option str :=
  reverse <$> strip_prefix (reverse p) (reverse s).

Definition ends_with (p s : str) : bool :=
  match strip_suffix p s with Some _ => true | None => false end.

Definition contains_char (c : char) (s : str) : bool := existsb (Z.eqb c) s.

(** [str::split_once]: around the first occurrence of the pattern *)
Fixpoint split_once (p s : str) : option (str * str) :=
  match strip_prefix p s with
  | Some rest => Some ([], rest)
  | None =>
    match s with
    | [] => None
    | c :: s =>
      match split_once p s with
      | Some (a, b) => Some (c :: a, b)
      | None => None
      end
    end
  end.

(** [str::split(c)] *)
Fixpoint split_char (d : char) (s : str) : list str :=
  match s with
  | [] => [[]]
  | c :: s =>
    if c =? d then [] :: split_char d s
    else match split_char d s with
         | [] => [[c]]
         | w :: ws => (c :: w) :: ws
         end
  end.

Fixpoint drop_while (p : char -> bool) (s : str) : str :=
  match s with [] => [] | c :: s' => if p c then drop_while p s' else s end.

Definition trim_start_by (p : char -> bool) (s : str) : str := drop_while p s.
Definition trim_end_by (p : char -> bool) (s : str) : str :=
  reverse (drop_while p (reverse s)).
Definition trim_by (p : char -> bool) (s : str) : str :=
  trim_end_by p (trim_start_by p s).
Definition trim (s : str) : str := trim_by is_whitespace s.
Definition trim_start (s : str) : str := trim_start_by is_whitespace s.
Definition trim_end (s : str) : str := trim_end_by is_whitespace s.

Definition str_eqb (a b : str) : bool := bool_decide (a = b).

(** Maximal runs of characters outside [p], as [split_whitespace] and
    [split_ascii_whitespace] return them. *)
Fixpoint split_runs (p : char -> bool) (cur : str) (s : str) : list str :=
  match s with
  | [] => match cur with [] => [] | _ => [reverse cur] end
  | c :: s =>
    if p c then
      match cur with
      | [] => split_runs p [] s
      | _ => reverse cur :: split_runs p [] s
      end
    else split_runs p (c :: cur) s
  end.
Definition split_whitespace (s : str) : list str := split_runs is_whitespace [] s.
Definition is_ascii_whitespace (c : char) : bool :=
  (c =? 32) || (c =? 9) || (c =? 10) || (c =? 12) || (c =? 13).
Definition split_ascii_whitespace (s : str) : list str :=
  split_runs is_ascii_whitespace [] s.

(** * Decimal numbers *)

Definition digit_value (c : char) : Z := c - 48.

Fixpoint parse_digits (acc : Z) (s : str) : option Z :=
  match s with
  | [] => Some acc
  | c :: s => if is_ascii_digit c then parse_digits (acc * 10 + digit_value c) s else None
  end.

(** [str::parse] at an unsigned type with maximum [max]: an optional [+],
    at least one digit, and a value that fits. *)
Definition parse_unsigned (max : Z) (s : str) : option Z :=
  let digits := match s with
                | c :: t => if c =? 43 then t else s
                | [] => []
                end in
  match digits with
  | [] => None
  | _ => match parse_digits 0 digits with
         | Some n => if n <=? max then Some n else None
         | None => None
         end
  end.
Definition parse_usize : str -> option Z := parse_unsigned usize_max.
Definition parse_u32 : str -> option Z := parse_unsigned (2 ^ 32 - 1).

(** [format!("{n}")] for an unsigned integer *)
Fixpoint decimal_digits (fuel : nat) (n : Z) (acc : str) : str :=
  match fuel with
  | O => acc
  | S fuel =>
    let acc := (48 + n mod 10) :: acc in
    if n <? 10 then acc else decimal_digits fuel (n / 10) acc
  end.
Definition show_Z (n : Z) : str := decimal_digits 20 n [].

(** * Lemmas *)

Lemma len_utf8_bounds c : 1 <= len_utf8 c <= 4.
Proof. unfold len_utf8. repeat case_match; lia. Qed.
#[export] Hint Resolve len_utf8_bounds : zlen.

Lemma slen_nonneg s : 0 <= slen s.
Proof. induction s as [|c s]; simpl; [lia|pose proof (len_utf8_bounds c); lia]. Qed.
#[export] Hint Resolve slen_nonneg : zlen.

Lemma slen_app s t : slen (s ++ t) = slen s + slen t.
Proof. induction s; simpl; lia. Qed.

Lemma slen_zero s : slen s = 0 -> s = [].
Proof.
  destruct s as [|c s]; [done|]. simpl.
  pose proof (len_utf8_bounds c). pose proof (slen_nonneg s). lia.
Qed.

Lemma slen_cons_pos c s : 0 < slen (c :: s).
Proof. simpl. pose proof (len_utf8_bounds c). pose proof (slen_nonneg s). lia. Qed.

Lemma slen_ge_length s : zlen s <= slen s.
Proof.
  induction s as [|c s]; [done|]. rewrite zlen_cons. simpl.
  pose proof (len_utf8_bounds c). lia.
Qed.

Lemma length_encode_char c : zlen (encode_char c) = len_utf8 c.
Proof. unfold encode_char, len_utf8. repeat case_match; reflexivity. Qed.

(** The modelled [len] is the length of the encoding. *)
Lemma slen_bytes s : slen s = zlen (bytes s).
Proof. induction s; simpl; [done|]. rewrite zlen_app, length_encode_char. lia. Qed.

Lemma split_at_zero s : split_at 0 s = Some ([], s).
Proof. by destruct s. Qed.

Lemma split_at_app s t : split_at (slen s) (s ++ t) = Some (s, t).
Proof.
  induction s as [|c s IH]; [apply split_at_zero|].
  pose proof (slen_cons_pos c s). cbn [app split_at].
  rewrite (proj2 (Z.eqb_neq _ _)), (proj2 (Z.ltb_ge _ _)) by lia.
  replace (slen (c :: s) - len_utf8 c) with (slen s) by (simpl; lia).
  by rewrite IH.
Qed.

Lemma split_at_Some off s a b :
  split_at off s = Some (a, b) -> s = a ++ b /\ off = slen a.
Proof.
  revert off a b. induction s as [|c s IH]; intros off a b; simpl;
    (destruct (Z.eqb_spec off 0) as [->|?]; [intros [= <- <-]; done|]);
    (destruct (Z.ltb_spec off 0); [done|]); [done|].
  destruct (split_at _ s) as [[a' b']|] eqn:E; [|done].
  intros [= <- <-]. apply IH in E as [-> ?]. split; [done|simpl; lia].
Qed.

Lemma split_at_iff off s a b :
  split_at off s = Some (a, b) <-> s = a ++ b /\ off = slen a.
Proof. split; [apply split_at_Some|intros [-> ->]; apply split_at_app]. Qed.

Lemma str_from_app s t : str_from (s ++ t) (slen s) = Some t.
Proof. unfold str_from. by rewrite split_at_app. Qed.

Lemma str_upto_app s t : str_upto (s ++ t) (slen s) = Some s.
Proof. unfold str_upto. by rewrite split_at_app. Qed.

Lemma str_range_app a m b :
  str_range (a ++ m ++ b) (slen a) (slen a + slen m) = Some m.
Proof.
  unfold str_range. pose proof (slen_nonneg m).
  rewrite (proj2 (Z.leb_le _ _)) by lia. rewrite str_from_app. simpl.
  replace (slen a + slen m - slen a) with (slen m) by lia. apply str_upto_app.
Qed.

Lemma str_range_Some s x y m :
  str_range s x y = Some m ->
  exists a b, s = a ++ m ++ b /\ x = slen a /\ y = x + slen m.
Proof.
  unfold str_range, str_from, str_upto. destruct (Z.leb_spec x y); [|done].
  destruct (split_at x s) as [[a t]|] eqn:E; [|done]. simpl.
  destruct (split_at (y - x) t) as [[m' b]|] eqn:E'; [|done]. simpl.
  intros [= ->]. apply split_at_Some in E as [-> ->], E' as [-> ?].
  exists a, b. repeat split; lia.
Qed.

Lemma strip_prefix_Some p s t : strip_prefix p s = Some t <-> s = p ++ t.
Proof.
  revert s. induction p as [|a p IH]; intros s; simpl; [split; congruence|].
  destruct s as [|b s]; [split; congruence|].
  destruct (Z.eqb_spec a b); [|split; congruence]. subst. rewrite IH. split; congruence.
Qed.

Lemma strip_prefix_app p t : strip_prefix p (p ++ t) = Some t.
Proof. by apply strip_prefix_Some. Qed.

Lemma starts_with_iff p s : starts_with p s = true <-> exists t, s = p ++ t.
Proof.
  unfold starts_with. destruct (strip_prefix p s) as [t|] eqn:E.
  - apply strip_prefix_Some in E. naive_solver.
  - split; [done|]. intros [t ->]. by rewrite strip_prefix_app in E.
Qed.

Lemma strip_suffix_Some p s t : strip_suffix p s = Some t <-> s = t ++ p.
Proof.
  unfold strip_suffix. destruct (strip_prefix (reverse p) (reverse s)) as [r|] eqn:E.
  - apply strip_prefix_Some in E. simpl.
    assert (s = reverse r ++ p) as ->
      by (rewrite <- (reverse_involutive s), E, reverse_app, reverse_involutive; done).
    split; [intros [= <-]; done|]. intros Hs.
    by apply app_inv_tail in Hs as ->.
  - split; [done|]. intros ->. rewrite reverse_app, strip_prefix_app in E. done.
Qed.

Lemma ends_with_iff p s : ends_with p s = true <-> exists t, s = t ++ p.
Proof.
  unfold ends_with. destruct (strip_suffix p s) as [t|] eqn:E.
  - apply strip_suffix_Some in E. naive_solver.
  - split; [done|]. intros [t ->].
    assert (strip_suffix p (t ++ p) = Some t) by (by apply strip_suffix_Some).
    congruence.
Qed.

Lemma str_eqb_eq a b : str_eqb a b = true <-> a = b.
Proof. apply bool_decide_eq_true. Qed.

Lemma str_eqb_refl a : str_eqb a a = true.
Proof. by apply str_eqb_eq. Qed.

Lemma in_range_iff lo hi c : in_range lo hi c = true <-> lo <= c <= hi.
Proof. unfold in_range. lia. Qed.

Lemma ascii_alphanumeric_ascii c : is_ascii_alphanumeric c = true -> 0 <= c < 128.
Proof.
  unfold is_ascii_alphanumeric, is_ascii_digit, is_ascii_lowercase,
    is_ascii_uppercase, in_range. lia.
Qed.

(** A byte test that only ASCII passes can be read off the characters. *)
Lemma forallb_bytes_ascii (p : Z -> bool) s :
  (forall c, p c = true -> c < 128) ->
  forallb p (bytes s) = forallb p s.
Proof.
  intros Hp. induction s as [|c s IH]; [done|].
  cbn [bytes forallb]. rewrite forallb_app', IH. f_equal.
  unfold encode_char. destruct (Z.ltb_spec c 0x80); [simpl; by rewrite andb_true_r|].
  assert (Hn : forall b, 0x80 <= b -> p b = false).
  { intros b Hb. destruct (p b) eqn:E; [apply Hp in E; lia|done]. }
  rewrite (Hn c) by lia.
  destruct (Z.ltb_spec c 0x800); [|destruct (Z.ltb_spec c 0x10000)]; simpl.
  - rewrite Hn; [done|]. pose proof (Z.div_pos c 64); lia.
  - rewrite Hn; [done|]. pose proof (Z.div_pos c 4096); lia.
  - rewrite Hn; [done|]. pose proof (Z.div_pos c 262144); lia.
Qed.

Lemma contains_char_iff c s : contains_char c s = true <-> c ∈ s.
Proof.
  unfold contains_char. rewrite existsb_exists. split.
  - intros (x & Hx & ->%Z.eqb_eq). by apply list_elem_of_In.
  - intros Hx. exists c. split; [by apply list_elem_of_In|apply Z.eqb_refl].
Qed.

Lemma ascii_digit_bounds c : is_ascii_digit c = true <-> 48 <= c <= 57.
Proof. apply in_range_iff. Qed.

Lemma len_utf8_ascii c : c < 128 -> len_utf8 c = 1.
Proof. intros. unfold len_utf8. by rewrite (proj2 (Z.ltb_lt _ _)). Qed.

Lemma slen_ascii s : Forall (fun c => c < 128) s -> slen s = zlen s.
Proof.
  induction 1; [done|]. rewrite zlen_cons. simpl. rewrite len_utf8_ascii by done. lia.
Qed.

Lemma digits_ascii s : forallb is_ascii_digit s = true -> Forall (fun c => c < 128) s.
Proof.
  rewrite forallb_Forall. intros H. eapply Forall_impl; [exact H|].
  intros c ?%ascii_digit_bounds. lia.
Qed.

Lemma forallb_digit_bytes s :
  forallb is_ascii_digit (bytes s) = forallb is_ascii_digit s.
Proof. apply forallb_bytes_ascii. intros c ?%ascii_digit_bounds. lia. Qed.

(** The value of a digit string, most significant first. *)
Definition digits_value (acc : Z) (s : str) : Z :=
  fold_left (fun acc c => acc * 10 + digit_value c) s acc.

Lemma parse_digits_value acc s :
  forallb is_ascii_digit s = true -> parse_digits acc s = Some (digits_value acc s).
Proof.
  revert acc. induction s as [|c s IH]; intros acc; simpl; [done|].
  intros [-> Hs]%andb_true_iff. by apply IH.
Qed.

Lemma parse_unsigned_digits max s :
  s <> [] -> forallb is_ascii_digit s = true -> digits_value 0 s <= max ->
  parse_unsigned max s = Some (digits_value 0 s).
Proof.
  intros Hne Hd Hm. unfold parse_unsigned. destruct s as [|c s]; [done|].
  assert ((c =? 43) = false) as ->.
  { simpl in Hd. apply andb_true_iff in Hd as [?%ascii_digit_bounds _]. lia. }
  rewrite parse_digits_value by done. by rewrite (proj2 (Z.leb_le _ _)).
Qed.

Lemma parse_digits_nonneg acc s n : 0 <= acc -> parse_digits acc s = Some n -> 0 <= n.
Proof.
  revert acc. induction s as [|c s IH]; intros acc Ha; simpl; [by intros [= <-]|].
  destruct (is_ascii_digit c) eqn:E; [|done]. apply ascii_digit_bounds in E.
  apply IH. unfold digit_value. lia.
Qed.

Lemma parse_unsigned_bounds max s n : parse_unsigned max s = Some n -> 0 <= n <= max.
Proof.
  unfold parse_unsigned. set (digits := match s with [] => [] | c :: t => _ end).
  destruct digits; [done|]. destruct (parse_digits _ _) as [m|] eqn:E; [|done].
  destruct (Z.leb_spec m max); [|done]. intros [= <-].
  split; [|done]. by eapply parse_digits_nonneg.
Qed.

Lemma contains_char_false c s : contains_char c s = false <-> c ∉ s.
Proof. by rewrite <- contains_char_iff, not_true_iff_false. Qed.
