(* ===== verification/Strings.v ===== *)
(** Facts about strings that several components share: character boundaries
    and the loops that look for one, pieces of a bounded number of bytes,
    splitting at a separator, decimal numerals, and the strict decoder
    [String::from_utf8]. *)

From S2P Require Import Prelude Utf8.

(** * Looking for a character boundary *)

(** [while !text.is_char_boundary(end) { end -= 1; }] *)
Fixpoint align_down {E} (fuel : nat) (text : str) (e : Z) : result (stop E) Z :=
  if is_char_boundary text e then Ok e
  else match fuel with O => Err OutOfFuel | S fuel => align_down fuel text (e - 1) end.

(** [while !text.is_char_boundary(start) { start += 1; }] *)
Fixpoint align_up {E} (fuel : nat) (text : str) (e : Z) : result (stop E) Z :=
  if is_char_boundary text e then Ok e
  else match fuel with O => Err OutOfFuel | S fuel => align_up fuel text (e + 1) end.

Lemma boundary_near text e :
  0 <= e <= slen text -> exists a b, text = a ++ b /\ e - 3 <= slen a <= e.
Proof.
  revert e. induction text as [|c text IH]; intros e He; simpl in He.
  - exists [], []. simpl. split; [done|lia].
  - pose proof (len_utf8_bounds c). destruct (Z_lt_le_dec e (len_utf8 c)).
    + exists [], (c :: text). simpl. split; [done|lia].
    + destruct (IH (e - len_utf8 c)) as (a & b & -> & Ha); [lia|].
      exists (c :: a), b. simpl. split; [done|lia].
Qed.

Lemma boundary_above text e :
  0 <= e <= slen text -> exists a b, text = a ++ b /\ e <= slen a <= e + 3.
Proof.
  revert e. induction text as [|c text IH]; intros e He; simpl in He.
  - exists [], []. simpl. split; [done|lia].
  - pose proof (len_utf8_bounds c). destruct (Z.eq_dec e 0) as [->|].
    { exists [], (c :: text). simpl. split; [done|lia]. }
    destruct (Z_lt_le_dec e (len_utf8 c)).
    + exists [c], text. simpl. split; [done|lia].
    + destruct (IH (e - len_utf8 c)) as (a & b & -> & Ha); [lia|].
      exists (c :: a), b. simpl. split; [done|lia].
Qed.

Lemma char_boundary_iff text e :
  is_char_boundary text e = true <-> exists a b, text = a ++ b /\ slen a = e.
Proof.
  unfold is_char_boundary. destruct (split_at e text) as [[a b]|] eqn:E.
  - split; [|done]. intros _. exists a, b. by apply split_at_iff in E as [-> ->].
  - split; [done|]. intros (a & b & Ht & Ha).
    assert (split_at e text = Some (a, b)) by (by apply split_at_iff). congruence.
Qed.

Lemma char_boundary_app a b : is_char_boundary (a ++ b) (slen a) = true.
Proof. apply char_boundary_iff. by exists a, b. Qed.

Lemma align_down_spec {E} fuel text e a0 b0 :
  text = a0 ++ b0 -> e - Z.of_nat fuel <= slen a0 <= e ->
  exists a b, align_down fuel text e = @Ok (stop E) _ (slen a) /\ text = a ++ b
    /\ slen a0 <= slen a <= e.
Proof.
  revert e. induction fuel as [|fuel IH]; intros e Ht Ha; simpl;
    destruct (is_char_boundary text e) eqn:E'.
  1,3: apply char_boundary_iff in E' as (a & b & Hab & <-); exists a, b;
    split_and!; [done|done|lia|lia].
  - assert (is_char_boundary text e = true); [|congruence].
    apply char_boundary_iff. exists a0, b0. split; [done|lia].
  - destruct (IH (e - 1)) as (a & b & ? & ? & ?); [done| |exists a, b; split_and!; done || lia].
    destruct (decide (slen a0 = e)) as [<-|]; [|lia].
    subst text. by rewrite char_boundary_app in E'.
Qed.

Lemma align_up_spec {E} fuel text e a0 b0 :
  text = a0 ++ b0 -> e <= slen a0 <= e + Z.of_nat fuel ->
  exists a b, align_up fuel text e = @Ok (stop E) _ (slen a) /\ text = a ++ b
    /\ e <= slen a <= slen a0.
Proof.
  revert e. induction fuel as [|fuel IH]; intros e Ht Ha; simpl;
    destruct (is_char_boundary text e) eqn:E'.
  1,3: apply char_boundary_iff in E' as (a & b & Hab & <-); exists a, b;
    split_and!; [done|done|lia|lia].
  - assert (is_char_boundary text e = true); [|congruence].
    apply char_boundary_iff. exists a0, b0. split; [done|lia].
  - destruct (IH (e + 1)) as (a & b & ? & ? & ?); [done| |exists a, b; split_and!; done || lia].
    destruct (decide (slen a0 = e)) as [<-|]; [|lia].
    subst text. by rewrite char_boundary_app in E'.
Qed.

Lemma app_eq_prefix (pre a x y : str) :
  pre ++ x = a ++ y -> slen pre <= slen a -> exists m, a = pre ++ m /\ x = m ++ y.
Proof.
  revert a. induction pre as [|c pre IH]; intros a He Hl; [by exists a|].
  destruct a as [|c' a]; simpl in *.
  - pose proof (len_utf8_bounds c). pose proof (slen_nonneg pre). lia.
  - injection He as -> He. destruct (IH a He) as (m & -> & ->); [lia|]. by exists m.
Qed.

(** The next piece of at most [n] bytes of a text, cut at a boundary. *)
Lemma align_piece {E} n pre rest :
  4 <= n ->
  exists m b, rest = m ++ b /\ (rest <> [] -> m <> []) /\ slen m <= n
    /\ (b <> [] -> n - 3 <= slen m)
    /\ align_down 3 (pre ++ rest) (Z.min (slen pre + n) (slen (pre ++ rest)))
       = @Ok (stop E) _ (slen pre + slen m)
    /\ str_range (pre ++ rest) (slen pre) (slen pre + slen m) = Some m.
Proof.
  intros Hn4. set (e := Z.min (slen pre + n) (slen (pre ++ rest))).
  pose proof (slen_nonneg pre). pose proof (slen_nonneg rest).
  assert (Hsum : slen (pre ++ rest) = slen pre + slen rest) by apply slen_app.
  assert (exists a0 b0, pre ++ rest = a0 ++ b0 /\ e - Z.of_nat 3 <= slen a0 <= e
    /\ Z.min (slen pre + n - 3) (slen pre + slen rest) <= slen a0) as (a0 & b0 & Ha0 & Hlo & Hmin).
  { destruct (Z_le_gt_dec (slen rest) n).
    - exists (pre ++ rest), []. rewrite app_nil_r. split; [done|]. unfold e. lia.
    - destruct (boundary_near (pre ++ rest) e) as (a & b & ? & ?); [unfold e in *; lia|].
      exists a, b. split; [done|]. unfold e in *. lia. }
  destruct (align_down_spec (E:=E) 3 (pre ++ rest) e a0 b0 Ha0 Hlo) as (a & b & Hal & Ha & Hb).
  destruct (app_eq_prefix pre a rest b Ha) as (m & -> & ->); [lia|].
  rewrite slen_app in *. exists m, b. rewrite Hal, str_range_app.
  split_and!; try done.
  - intros Hne ->. simpl in *. destruct b; [done|]. pose proof (slen_cons_pos z b). lia.
  - unfold e in *. lia.
  - intros Hne. destruct b; [done|]. pose proof (slen_cons_pos z b). rewrite slen_app in *. lia.
Qed.

(** * ASCII *)

Lemma bytes_ascii s : Forall (fun c => 0 <= c < 128) s -> bytes s = s.
Proof.
  induction 1 as [|c s Hc _ IH]; [done|]. cbn [bytes]. rewrite IH. unfold encode_char.
  by rewrite (proj2 (Z.ltb_lt c 0x80)) by lia.
Qed.

(** * Splitting at a separator *)

Lemma split_char_no_sep d s : d ∉ s -> split_char d s = [s].
Proof.
  induction s as [|c s IH]; intros Hn; simpl; [done|].
  apply not_elem_of_cons in Hn as [Hc Hn]. rewrite (proj2 (Z.eqb_neq c d)) by congruence.
  by rewrite IH.
Qed.

Lemma split_char_sep d s t : d ∉ s -> split_char d (s ++ d :: t) = s :: split_char d t.
Proof.
  induction s as [|c s IH]; intros Hn; simpl; [by rewrite Z.eqb_refl|].
  apply not_elem_of_cons in Hn as [Hc Hn]. rewrite (proj2 (Z.eqb_neq c d)) by congruence.
  by rewrite IH.
Qed.

(** Words joined by a separator that none of them contains. *)
Fixpoint intercalate (d : char) (ws : list str) : str :=
  match ws with [] => [] | [w] => w | w :: ws => w ++ d :: intercalate d ws end.

Lemma split_char_join d ws :
  ws <> [] -> Forall (fun w => d ∉ w) ws -> split_char d (intercalate d ws) = ws.
Proof.
  intros Hne Hws. induction Hws as [|w ws Hw Hws IH]; [done|]. destruct ws as [|w' ws].
  - by apply split_char_no_sep.
  - change (intercalate d (w :: w' :: ws)) with (w ++ d :: intercalate d (w' :: ws)).
    by rewrite split_char_sep, IH.
Qed.

Lemma slen_join d ws :
  slen (intercalate d ws) <= sum_Z (slen <$> ws) + len_utf8 d * zlen ws.
Proof.
  pose proof (len_utf8_bounds d). induction ws as [|w ws IH]; [change (0 <= 0 + len_utf8 d * 0); lia|].
  rewrite fmap_cons, zlen_cons. cbn [sum_Z].
  destruct ws as [|w' ws]; [change (zlen (@nil str)) with 0; cbn [intercalate]; change (sum_Z (slen <$> [])) with 0; lia|].
  change (intercalate d (w :: w' :: ws)) with (w ++ d :: intercalate d (w' :: ws)).
  rewrite slen_app. cbn [slen]. lia.
Qed.

(** * Decimal numerals *)

Lemma digits_value_app acc s t : digits_value acc (s ++ t) = digits_value (digits_value acc s) t.
Proof. apply fold_left_app. Qed.

Lemma decimal_digits_app fuel n acc : decimal_digits fuel n acc = decimal_digits fuel n [] ++ acc.
Proof.
  revert n acc. induction fuel as [|fuel IH]; intros n acc; simpl; [done|].
  case_match; [done|]. rewrite IH, (IH _ [_]), <- app_assoc. done.
Qed.

(** The numeral of a number below [10 ^ 20]: digits, read back as the number. *)
Lemma decimal_digits_spec fuel n :
  0 <= n < 10 ^ Z.of_nat fuel -> (0 < fuel)%nat ->
  let s := decimal_digits fuel n [] in
  s <> [] /\ forallb is_ascii_digit s = true /\ digits_value 0 s = n.
Proof.
  revert n. induction fuel as [|fuel IH]; intros n Hn Hf; [lia|]. cbn [decimal_digits].
  assert (Hd : is_ascii_digit (48 + n mod 10) = true) by (apply ascii_digit_bounds; dlia).
  destruct (Z.ltb_spec n 10) as [Hlt|Hge].
  - simpl. unfold digit_value. rewrite Hd. split_and!; [done..|]. rewrite Z.mod_small by lia. lia.
  - rewrite decimal_digits_app. rewrite Nat2Z.inj_succ, Z.pow_succ_r in Hn by lia.
    destruct (IH (n / 10)) as (Hne & Hall & Hv); [dlia|destruct fuel; simpl in *; lia|].
    simpl. split_and!.
    + by destruct (decimal_digits fuel (n / 10) []).
    + rewrite forallb_app'. simpl. by rewrite Hall, Hd.
    + rewrite digits_value_app, Hv. simpl. unfold digit_value. dlia.
Qed.

Lemma show_Z_spec n :
  0 <= n <= usize_max ->
  show_Z n <> [] /\ forallb is_ascii_digit (show_Z n) = true /\ digits_value 0 (show_Z n) = n.
Proof. intros Hn. apply decimal_digits_spec; [unfold usize_max in Hn; lia|lia]. Qed.

Lemma parse_show_Z max n : 0 <= n <= max -> max <= usize_max -> parse_unsigned max (show_Z n) = Some n.
Proof.
  intros Hn Hm. destruct (show_Z_spec n) as (Hne & Hd & Hv); [lia|].
  rewrite parse_unsigned_digits; [by rewrite Hv|done|done|lia].
Qed.

Lemma show_Z_digit n c : 0 <= n <= usize_max -> c ∈ show_Z n -> 48 <= c <= 57.
Proof.
  intros Hn Hc. destruct (show_Z_spec n Hn) as (_ & Hd & _).
  rewrite forallb_Forall, Forall_forall in Hd. by apply ascii_digit_bounds, Hd.
Qed.

Lemma decimal_digits_length fuel n acc : (length (decimal_digits fuel n acc) <= fuel + length acc)%nat.
Proof.
  revert n acc. induction fuel as [|fuel IH]; intros n acc; simpl; [lia|].
  case_match; simpl; [lia|]. specialize (IH (n / 10) ((48 + n mod 10) :: acc)). simpl in IH. lia.
Qed.

Lemma slen_show_Z n : 0 <= n <= usize_max -> slen (show_Z n) <= 20.
Proof.
  intros Hn. rewrite slen_ascii.
  - pose proof (decimal_digits_length 20 n []). unfold zlen, show_Z in *. simpl in *. lia.
  - apply Forall_forall. intros c Hc%show_Z_digit; lia.
Qed.

(** * Splitting once, and the digits of a number *)

Lemma split_once_char d a b : d ∉ a -> split_once [d] (a ++ d :: b) = Some (a, b).
Proof.
  induction a as [|c a IH]; intros Hd.
  - cbn. by rewrite Z.eqb_refl.
  - apply not_elem_of_cons in Hd as [Hc Hd]. cbn. rewrite (proj2 (Z.eqb_neq d c)) by congruence.
    by rewrite IH.
Qed.

Lemma split_once_none d a : d ∉ a -> split_once [d] a = None.
Proof.
  induction a as [|c a IH]; intros Hd; [done|].
  apply not_elem_of_cons in Hd as [Hc Hd]. cbn. rewrite (proj2 (Z.eqb_neq d c)) by congruence.
  by rewrite IH.
Qed.

Lemma split_once_Some p s a b : split_once p s = Some (a, b) -> s = a ++ p ++ b.
Proof.
  revert a b. induction s as [|c s IH]; intros a b; cbn [split_once].
  - destruct (strip_prefix p []) as [r|] eqn:E; [|done]. intros [= <- <-]. by apply strip_prefix_Some in E.
  - destruct (strip_prefix p (c :: s)) as [r|] eqn:E.
    + intros [= <- <-]. by apply strip_prefix_Some in E.
    + destruct (split_once p s) as [[a' b']|]; [|done]. intros [= <- <-]. cbn. f_equal. by apply IH.
Qed.

Lemma decimal_last fuel n acc : n < 10 -> decimal_digits (S fuel) n acc = (48 + n mod 10) :: acc.
Proof. intros Hn. cbn [decimal_digits]. by rewrite (proj2 (Z.ltb_lt n 10) Hn). Qed.

Lemma decimal_next fuel n acc : 10 <= n ->
  decimal_digits (S fuel) n acc = decimal_digits fuel (n / 10) ((48 + n mod 10) :: acc).
Proof. intros Hn. cbn [decimal_digits]. by rewrite (proj2 (Z.ltb_ge n 10) Hn). Qed.

(** Two short lists of digits are equal digit by digit. *)
Ltac same_digits :=
  cbn [app]; repeat match goal with |- _ :: _ = _ :: _ => apply (f_equal2 cons) end; first [reflexivity | dlia].

Lemma show_Z_inj n m : 0 <= n <= usize_max -> 0 <= m <= usize_max -> show_Z n = show_Z m -> n = m.
Proof.
  intros Hn Hm E. pose proof (parse_show_Z usize_max n ltac:(lia) ltac:(lia)) as Pn.
  rewrite E, (parse_show_Z usize_max m) in Pn by lia. congruence.
Qed.

(** * Decoding *)

(** A Unicode scalar value. *)
Definition scalar (c : char) : Prop := 0 <= c < 0xD800 \/ 0xE000 <= c <= 0x10FFFF.

Definition continuation (b : byte) : bool := in_range 0x80 0xBF b.

(** [String::from_utf8]: overlong forms and surrogates are refused. *)
Fixpoint from_utf8 (l : list byte) : option str :=
  match l with
  | [] => Some []
  | a :: l =>
    if in_range 0 0x7F a then cons a <$> from_utf8 l
    else if in_range 0xC2 0xDF a then
      match l with
      | b :: l =>
        if continuation b then cons ((a - 0xC0) * 64 + (b - 0x80)) <$> from_utf8 l else None
      | _ => None
      end
    else if in_range 0xE0 0xEF a then
      match l with
      | b :: c :: l =>
        if in_range (if a =? 0xE0 then 0xA0 else 0x80) (if a =? 0xED then 0x9F else 0xBF) b
          && continuation c
        then cons ((a - 0xE0) * 4096 + (b - 0x80) * 64 + (c - 0x80)) <$> from_utf8 l
        else None
      | _ => None
      end
    else if in_range 0xF0 0xF4 a then
      match l with
      | b :: c :: d :: l =>
        if in_range (if a =? 0xF0 then 0x90 else 0x80) (if a =? 0xF4 then 0x8F else 0xBF) b
          && continuation c && continuation d
        then cons ((a - 0xF0) * 262144 + (b - 0x80) * 4096 + (c - 0x80) * 64 + (d - 0x80))
               <$> from_utf8 l
        else None
      | _ => None
      end
    else None
  end.

Lemma in_range_spec lo hi c : in_range lo hi c = bool_decide (lo <= c <= hi).
Proof. apply eq_true_iff_eq. by rewrite in_range_iff, bool_decide_eq_true. Qed.

(** Decide the range tests of the goal whose outcome arithmetic forces. *)
Ltac decide_ranges :=
  repeat match goal with
  | |- context [in_range ?lo ?hi ?c] =>
    first [ replace (in_range lo hi c) with true
              by (symmetry; apply in_range_iff; repeat case_match; bool_hyps; dlia)
          | replace (in_range lo hi c) with false
              by (symmetry; rewrite in_range_spec; apply bool_decide_eq_false; dlia) ]
  end.

Lemma from_utf8_char c l : scalar c -> from_utf8 (encode_char c ++ l) = cons c <$> from_utf8 l.
Proof.
  intros Hc. unfold scalar in Hc. unfold encode_char.
  destruct (Z.ltb_spec c 0x80); [|destruct (Z.ltb_spec c 0x800); [|destruct (Z.ltb_spec c 0x10000)]];
    cbn [app from_utf8]; unfold continuation; decide_ranges; cbn [andb];
    f_equal; f_equal; dlia.
Qed.

Lemma from_utf8_bytes s : Forall scalar s -> from_utf8 (bytes s) = Some s.
Proof.
  induction 1 as [|c s Hc Hs IH]; [done|]. cbn [bytes]. by rewrite from_utf8_char, IH.
Qed.

(** One character is decoded, strictly. *)
Lemma from_utf8_step a l s :
  from_utf8 (a :: l) = Some s ->
  exists c l' s', a :: l = encode_char c ++ l' /\ scalar c /\ from_utf8 l' = Some s'
    /\ s = c :: s' /\ (length l' <= length l)%nat.
Proof.
  intros Hd. cbn [from_utf8] in Hd. unfold continuation, scalar in *.
  destruct (in_range 0 0x7F a) eqn:E1; [|destruct (in_range 0xC2 0xDF a) eqn:E2;
    [|destruct (in_range 0xE0 0xEF a) eqn:E3; [|destruct (in_range 0xF0 0xF4 a) eqn:E4; [|done]]]].
  all: repeat match type of Hd with
    | match ?l with [] => _ | _ :: _ => _ end = _ => destruct l; [done|]
    | (if ?b then _ else _) = _ => destruct b eqn:?; [|done]
    end; bool_hyps.
  all: apply fmap_Some in Hd as (s' & Hs' & ->).
  all: repeat match goal with
    | H : in_range _ _ _ = true |- _ => apply in_range_iff in H
    | H : in_range _ _ _ = false |- _ => rewrite in_range_spec in H; apply bool_decide_eq_false in H
    end.
  all: eexists _, _, _; split_and!; [|  |exact Hs'|reflexivity|simpl; lia].
  all: try (repeat case_match; bool_hyps; lia).
  all: unfold encode_char; repeat case_match; bool_hyps; try (exfalso; lia); simpl; repeat f_equal; dlia.
Qed.

(** [from_utf8] accepts exactly the encodings of strings of scalar values. *)
Lemma from_utf8_iff l s : from_utf8 l = Some s <-> bytes s = l /\ Forall scalar s.
Proof.
  split; [|intros [<- ?]; by apply from_utf8_bytes].
  remember (length l) as n eqn:Hn. assert (Hle : (length l <= n)%nat) by lia. clear Hn.
  revert l s Hle. induction n as [|n IH]; intros [|a l] s Hle Hd;
    try (simpl in Hle; lia); try (injection Hd as <-; by split).
  apply from_utf8_step in Hd as (c & l' & s' & Hal & Hc & Hs' & -> & Hl').
  destruct (IH l' s') as [Hb Hall]; [simpl in Hle; lia|done|].
  split; [|by constructor]. cbn [bytes]. by rewrite Hb.
Qed.
