(* ===== verification/Domain.v ===== *)
(** The retrieval contracts of [crates/domain/src/lib.rs] and
    [history.rs]: queries and their validation, records, provenance,
    freshness, progress stages and the sanitized errors. *)

From S2P Require Import Prelude Utf8.

(** * Identifiers *)

Definition valid_identifier (value : str) (max : Z) : bool :=
  negb (bool_decide (value = [])) && (slen value <=? max)
  && forallb (fun b => is_ascii_alphanumeric b || contains_char b (u "_-"))
       (bytes value).

Definition is_lower_hex (b : byte) : bool := is_ascii_digit b || in_range 97 102 b.

Definition valid_snapshot_id (value : str) : bool :=
  (slen value =? 64) && forallb is_lower_hex (bytes value).

(** * Errors *)

Inductive RetrievalError :=
| StorageUnavailable | StorageCorrupt | StorageCapacity | SnapshotUnavailable
| InvalidInput | UnknownSource | NotFound | Ambiguous | Busy | Unavailable
| FreshnessUnavailable | NormalizationFailed | InvalidPayload | ResourceLimit
| Cancelled | Shutdown | Internal
| Throttled (retry_after_secs : option Z).

#[export] Instance RetrievalError_eq_dec : EqDecision RetrievalError.
Proof. solve_decision. Defined.

Definition is_transient (e : RetrievalError) : bool :=
  match e with Unavailable | Throttled _ => true | _ => false end.

(** * Queries *)

Inductive Query :=
| Search (source query : str) (page page_size : Z)
| Get (source id : str).

#[export] Instance Query_eq_dec : EqDecision Query.
Proof. solve_decision. Defined.

#[export] Program Instance Query_countable : Countable Query :=
  inj_countable'
    (fun q => match q with
              | Search s q p n => inl (s, q, p, n)
              | Get s i => inr (s, i)
              end)
    (fun x => match x with
              | inl (s, q, p, n) => Search s q p n
              | inr (s, i) => Get s i
              end) _.
Next Obligation. by intros []. Qed.

Definition query_source (q : Query) : str :=
  match q with Search source _ _ _ | Get source _ => source end.

Definition query_validate (q : Query) : result RetrievalError unit :=
  if negb (valid_identifier (query_source q) 64) then Err InvalidInput
  else match q with
  | Search _ query page page_size =>
    if (256 <? slen query) || existsb is_control query || (1000 <? page)
       || negb (in_range 1 20 page_size)
    then Err InvalidInput else Ok tt
  | Get _ id => if negb (valid_identifier id 128) then Err InvalidInput else Ok tt
  end.

(** * Records and envelopes *)

Inductive FreshnessRequirement := AllowStale | FreshOnly.
Inductive FreshnessState := Fresh | Stale.
Inductive ProgressStage := Accepted | Refreshing | Validating | Complete.

#[export] Instance FreshnessRequirement_eq_dec : EqDecision FreshnessRequirement.
Proof. solve_decision. Defined.

Record Record_ := {
  rec_source : str; rec_id : str; rec_title : str; rec_body : str;
  rec_synthetic : bool;
}.

Record SearchPage := {
  sp_records : list Record_; sp_page : Z; sp_page_size : Z; sp_total : Z;
}.

Inductive RetrievalData :=
| DataSearch (p : SearchPage)
| DataGet (r : Record_).

#[export] Instance RetrievalData_eq_dec : EqDecision RetrievalData.
Proof.
  assert (EqDecision Record_) by solve_decision. assert (EqDecision SearchPage) by solve_decision.
  solve_decision.
Defined.

Record Provenance := {
  pv_provider : str; pv_dataset : str; pv_source_reference : str;
  pv_payload_sha256 : str; pv_processor_version : str;
  pv_retrieved_at : Z; pv_validated_at : Z;
}.

Record SnapshotReference := { snapshot_id : str; captured_at : Z }.

Record RetrievalEnvelope := {
  env_data : RetrievalData; env_provenance : Provenance;
  env_state : FreshnessState; env_age_seconds : Z; env_synthetic : bool;
  env_snapshot : option SnapshotReference;
}.

(** * Lemmas *)

Lemma valid_identifier_chars value max :
  valid_identifier value max = true ->
  value <> [] /\ slen value <= max
  /\ Forall (fun c => is_ascii_alphanumeric c = true \/ c = 95 \/ c = 45) value.
Proof.
  unfold valid_identifier. intros H.
  rewrite forallb_bytes_ascii in H.
  - rewrite !andb_true_iff, negb_true_iff, bool_decide_eq_false, forallb_Forall in H.
    destruct H as [[? ?] Hf]. repeat split; [done|lia|].
    eapply Forall_impl; [exact Hf|].
    intros c [?|Hc%contains_char_iff]%orb_true_iff; [by left|].
    change (u "_-") with [95; 45] in Hc. rewrite !elem_of_cons in Hc.
    pose proof (not_elem_of_nil c). tauto.
  - intros c [Hc|Hc%contains_char_iff]%orb_true_iff;
      [apply ascii_alphanumeric_ascii in Hc; lia|].
    change (u "_-") with [95; 45] in Hc.
    rewrite !elem_of_cons in Hc. destruct Hc as [?|[?|?%elem_of_nil]]; [lia..|done].
Qed.
