(* ===== verification/Legal.v ===== *)
(** Legal identities and records: [crates/domain/src/legal.rs] and
    [rights.rs].  The [url] crate's parser and [serde_json]'s reading of the
    retained-resource list are operations of the class [LegalCodecs]. *)

From S2P Require Import Prelude Utf8 Domain.

(** * Errors *)

Inductive DatabaseError :=
| SourceRejected | SourceUnavailable | SourceDataInvalid | SourceDownloadFailed
| SourceUnauthorized | SourceTransient | InvalidInput | InvalidFieldShorthand
| InvalidRegex | NotFound | NotObserved | CollectionIncomplete
| RevisionUnavailable | AmbiguousRevision | AmbiguousCollection
| SourceInventoryIncomplete | HistoryIncomplete | UnsupportedHistory
| ProcessingPending | FreshnessUnavailable | Withdrawn | StorageUnavailable
| StorageContended | StorageCorrupt | Capacity | BudgetExhausted | Conflict
| Cancelled | SessionExpired | SnapshotInvalidated.

#[export] Instance DatabaseError_eq_dec : EqDecision DatabaseError.
Proof. solve_decision. Defined.

(** * Data families *)

Inductive Dataset :=
| NationalStatute | AdministrativeRule | Ordinance | Treaty | Precedent
| ConstitutionalDecision | LegalInterpretation | AdministrativeAppeal
| EnglishStatute | SchoolRule | LocalPublicCorporationRule | PublicInstitutionRule
| LegalTerm | PpcDecision | EiacDecision | FtcDecision | AcrDecision | FscDecision
| NlrcDecision | KccDecision | IaciacDecision | OcltDecision | EccDecision
| SfcDecision | NhrckDecision | MoelInterpretation | MolitInterpretation
| MoefInterpretation | MofInterpretation | MoisInterpretation | MeInterpretation
| KcsInterpretation | NtsInterpretation | MoeInterpretation | MsitInterpretation
| MpvaInterpretation | MndInterpretation | MafraInterpretation | McstInterpretation
| MojInterpretation | MohwInterpretation | MotieInterpretation
| MogefInterpretation | MofaInterpretation | MssInterpretation | MouInterpretation
| MolegInterpretation | MfdsInterpretation | MpmInterpretation | KmaInterpretation
| KhsInterpretation | RdaInterpretation | NpaInterpretation | DapaInterpretation
| MmaInterpretation | KfsInterpretation | NfaInterpretation | OkaInterpretation
| PpsInterpretation | KdcaInterpretation | KostatInterpretation
| KipoInterpretation | KcgInterpretation | NaaccInterpretation | TtSpecialAppeal
| KmstSpecialAppeal | AcrSpecialAppeal | AdapSpecialAppeal | AuditConsultation.

#[export] Instance Dataset_eq_dec : EqDecision Dataset.
Proof. solve_decision. Defined.

Definition Dataset_ALL : list Dataset :=
  [NationalStatute; AdministrativeRule; Ordinance; Treaty; Precedent;
   ConstitutionalDecision; LegalInterpretation; AdministrativeAppeal;
   EnglishStatute; SchoolRule; LocalPublicCorporationRule; PublicInstitutionRule;
   LegalTerm; PpcDecision; EiacDecision; FtcDecision; AcrDecision; FscDecision;
   NlrcDecision; KccDecision; IaciacDecision; OcltDecision; EccDecision;
   SfcDecision; NhrckDecision; MoelInterpretation; MolitInterpretation;
   MoefInterpretation; MofInterpretation; MoisInterpretation; MeInterpretation;
   KcsInterpretation; NtsInterpretation; MoeInterpretation; MsitInterpretation;
   MpvaInterpretation; MndInterpretation; MafraInterpretation; McstInterpretation;
   MojInterpretation; MohwInterpretation; MotieInterpretation; MogefInterpretation;
   MofaInterpretation; MssInterpretation; MouInterpretation; MolegInterpretation;
   MfdsInterpretation; MpmInterpretation; KmaInterpretation; KhsInterpretation;
   RdaInterpretation; NpaInterpretation; DapaInterpretation; MmaInterpretation;
   KfsInterpretation; NfaInterpretation; OkaInterpretation; PpsInterpretation;
   KdcaInterpretation; KostatInterpretation; KipoInterpretation; KcgInterpretation;
   NaaccInterpretation; TtSpecialAppeal; KmstSpecialAppeal; AcrSpecialAppeal;
   AdapSpecialAppeal; AuditConsultation].

Definition as_str (d : Dataset) : str :=
  match d with
  | NationalStatute => u "national_statute"
  | AdministrativeRule => u "administrative_rule"
  | Ordinance => u "ordinance"
  | Treaty => u "treaty"
  | Precedent => u "precedent"
  | ConstitutionalDecision => u "constitutional_decision"
  | LegalInterpretation => u "legal_interpretation"
  | AdministrativeAppeal => u "administrative_appeal"
  | EnglishStatute => u "english_statute"
  | SchoolRule => u "school_rule"
  | LocalPublicCorporationRule => u "local_public_corporation_rule"
  | PublicInstitutionRule => u "public_institution_rule"
  | LegalTerm => u "legal_term"
  | PpcDecision => u "ppc_decision"
  | EiacDecision => u "eiac_decision"
  | FtcDecision => u "ftc_decision"
  | AcrDecision => u "acr_decision"
  | FscDecision => u "fsc_decision"
  | NlrcDecision => u "nlrc_decision"
  | KccDecision => u "kcc_decision"
  | IaciacDecision => u "iaciac_decision"
  | OcltDecision => u "oclt_decision"
  | EccDecision => u "ecc_decision"
  | SfcDecision => u "sfc_decision"
  | NhrckDecision => u "nhrck_decision"
  | MoelInterpretation => u "moel_interpretation"
  | MolitInterpretation => u "molit_interpretation"
  | MoefInterpretation => u "moef_interpretation"
  | MofInterpretation => u "mof_interpretation"
  | MoisInterpretation => u "mois_interpretation"
  | MeInterpretation => u "me_interpretation"
  | KcsInterpretation => u "kcs_interpretation"
  | NtsInterpretation => u "nts_interpretation"
  | MoeInterpretation => u "moe_interpretation"
  | MsitInterpretation => u "msit_interpretation"
  | MpvaInterpretation => u "mpva_interpretation"
  | MndInterpretation => u "mnd_interpretation"
  | MafraInterpretation => u "mafra_interpretation"
  | McstInterpretation => u "mcst_interpretation"
  | MojInterpretation => u "moj_interpretation"
  | MohwInterpretation => u "mohw_interpretation"
  | MotieInterpretation => u "motie_interpretation"
  | MogefInterpretation => u "mogef_interpretation"
  | MofaInterpretation => u "mofa_interpretation"
  | MssInterpretation => u "mss_interpretation"
  | MouInterpretation => u "mou_interpretation"
  | MolegInterpretation => u "moleg_interpretation"
  | MfdsInterpretation => u "mfds_interpretation"
  | MpmInterpretation => u "mpm_interpretation"
  | KmaInterpretation => u "kma_interpretation"
  | KhsInterpretation => u "khs_interpretation"
  | RdaInterpretation => u "rda_interpretation"
  | NpaInterpretation => u "npa_interpretation"
  | DapaInterpretation => u "dapa_interpretation"
  | MmaInterpretation => u "mma_interpretation"
  | KfsInterpretation => u "kfs_interpretation"
  | NfaInterpretation => u "nfa_interpretation"
  | OkaInterpretation => u "oka_interpretation"
  | PpsInterpretation => u "pps_interpretation"
  | KdcaInterpretation => u "kdca_interpretation"
  | KostatInterpretation => u "kostat_interpretation"
  | KipoInterpretation => u "kipo_interpretation"
  | KcgInterpretation => u "kcg_interpretation"
  | NaaccInterpretation => u "naacc_interpretation"
  | TtSpecialAppeal => u "tt_special_appeal"
  | KmstSpecialAppeal => u "kmst_special_appeal"
  | AcrSpecialAppeal => u "acr_special_appeal"
  | AdapSpecialAppeal => u "adap_special_appeal"
  | AuditConsultation => u "audit_consultation"
  end.

Definition from_name (name : str) : option Dataset :=
  find (fun dataset => str_eqb (as_str dataset) name) Dataset_ALL.

Definition has_provider_revisions (d : Dataset) : bool :=
  match d with
  | NationalStatute | AdministrativeRule | Ordinance | EnglishStatute | SchoolRule
  | LocalPublicCorporationRule | PublicInstitutionRule => true
  | _ => false
  end.

(** * Identities and selectors *)

Record ObjectId := {
  oid_jurisdiction : str; oid_provider : str; oid_dataset : Dataset; oid_id : str;
}.

#[export] Instance ObjectId_eq_dec : EqDecision ObjectId.
Proof. solve_decision. Defined.

Definition object_validate (o : ObjectId) : result DatabaseError unit :=
  if negb (valid_identifier (oid_jurisdiction o) 32)
     || negb (valid_identifier (oid_provider o) 64)
     || negb (valid_identifier (oid_id o) 128)
  then Err InvalidInput else Ok tt.

(** [valid_date]: the slices are taken of eight ASCII digits. *)
Definition month_days (year month : Z) : Z :=
  if (month =? 1) || (month =? 3) || (month =? 5) || (month =? 7) || (month =? 8)
     || (month =? 10) || (month =? 12) then 31
  else if (month =? 4) || (month =? 6) || (month =? 9) || (month =? 11) then 30
  else if (month =? 2) && (year mod 4 =? 0)
          && (negb (year mod 100 =? 0) || (year mod 400 =? 0)) then 29
  else if month =? 2 then 28
  else 0.

Definition valid_date (value : str) : bool :=
  if negb (slen value =? 8) || negb (forallb is_ascii_digit (bytes value)) then false
  else
    match str_range value 0 4 ≫= parse_u32 with
    | None => false
    | Some year =>
      match str_range value 4 6 ≫= parse_u32 with
      | None => false
      | Some month =>
        match str_from value 6 ≫= parse_u32 with
        | None => false
        | Some day => (0 <? year) && (0 <? day) && (day <=? month_days year month)
        end
      end
    end.

Inductive RevisionSelector :=
| Head
| Revision (id : str)
| PublicationDate (date : str)
| EffectiveDate (date : str)
| CaptureSelector (id : str).

#[export] Instance RevisionSelector_eq_dec : EqDecision RevisionSelector.
Proof. solve_decision. Defined.

Definition selector_validate (s : RevisionSelector) : result DatabaseError unit :=
  let valid := match s with
    | Head => true
    | Revision id =>
      negb (bool_decide (id = [])) && (slen id <=? 256) && negb (existsb is_control id)
    | CaptureSelector id => valid_snapshot_id id
    | PublicationDate date | EffectiveDate date => valid_date date
    end in
  if valid then Ok tt else Err InvalidInput.

(** * Reuse rights ([rights.rs]) *)

Record Url := {
  url_scheme : str; url_host : option str; url_username : str;
  url_password : option str; url_path : str; url_query : option str;
  url_fragment : option str; url_query_pairs : list (str * str);
}.

Record SourceRights := {
  basis : str; evidence_url : str; attribution : str;
  commercial_use : option bool; derivatives : option bool; redistribution : option bool;
}.

Record OriginalResource := {
  res_ordinal : Z; res_title : str; res_media_type : str; res_source_url : str;
  res_retained : bool; res_rights : SourceRights;
}.

Class LegalCodecs := {
  (** [url::Url::parse] *)
  url_parse : str -> option Url;
  (** [serde_json::from_str::<Vec<OriginalResource>>] *)
  parse_resources : str -> option (list OriginalResource);
}.

Definition credential_keys : list str :=
  u <$> ["oc"; "key"; "apikey"; "api_key"; "token"; "servicekey"; "password"]%string.

Definition has_credential_pair (url : Url) : bool :=
  existsb (fun kv => existsb (str_eqb (to_ascii_lowercase <$> kv.1)) credential_keys)
    (url_query_pairs url).

Section rights.
Context `{LegalCodecs}.

Definition public_source_url (value : str) : bool :=
  match url_parse value with
  | None => false
  | Some url =>
    str_eqb (url_scheme url) (u "https") && is_some (url_host url)
      && str_eqb (url_username url) [] && negb (is_some (url_password url))
      && negb (is_some (url_fragment url)) && negb (has_credential_pair url)
  end.

Definition rights_default : SourceRights :=
  {| basis := []; evidence_url := []; attribution := [];
    commercial_use := None; derivatives := None; redistribution := None |}.

Definition kogl (kind : Z) (evidence attribution_ : str) : SourceRights :=
  if negb (in_range 0 4 kind) then rights_default
  else {| basis := u "KOGL-" ++ show_Z kind; evidence_url := evidence;
    attribution := attribution_;
    commercial_use := Some ((kind =? 0) || (kind =? 1) || (kind =? 3));
    derivatives := Some (in_range 0 2 kind);
    redistribution := Some true |}.

Definition can_store (r : SourceRights) : bool :=
  bool_decide (redistribution r = Some true)
    && negb (str_eqb (trim (basis r)) []) && negb (str_eqb (trim (attribution r)) [])
    && public_source_url (evidence_url r)
    && is_some (commercial_use r) && is_some (derivatives r).

Definition can_process (r : SourceRights) : bool :=
  can_store r && bool_decide (derivatives r = Some true).

Definition rights_warnings (r : SourceRights) : list str :=
  (if can_store r then [] else [u "rights_unverified"])
    ++ (if bool_decide (commercial_use r = Some false) then [u "noncommercial_only"] else [])
    ++ (if bool_decide (derivatives r = Some false)
        then [u "no_derivatives_original_only"] else []).
End rights.

(** * Records *)

Inductive SectionKind := ProviderText | Extracted | Ocr.

#[export] Instance SectionKind_eq_dec : EqDecision SectionKind.
Proof. solve_decision. Defined.

Record LegalSection := {
  sec_id : str; sec_title : str; sec_text : str; sec_kind : SectionKind;
  sec_source_document_sha256 : option str; sec_page : option Z;
}.

Record LegalRecord := {
  lr_object : ObjectId; lr_revision_id : str; lr_title : str; lr_body : str;
  lr_metadata : gmap str str;
  lr_publication_date : option str; lr_effective_date : option str;
  lr_source_url : str; lr_representation : str; lr_sections : list LegalSection;
}.

Definition MiB : Z := 1024 * 1024.
Definition metadata_bytes (m : gmap str str) : Z :=
  sum_Z ((fun kv => slen kv.1 + slen kv.2) <$> map_to_list m).
Definition opt_test {A} (p : A -> bool) (o : option A) : bool :=
  match o with Some a => p a | None => false end.

Section record_validate.
Context `{LegalCodecs}.

Definition resource_prefix (r : OriginalResource) : str :=
  u "attachment:" ++ show_Z (res_ordinal r) ++ u ":".

(** The body of the loop over retained resources. *)
Definition resource_check (rec : LegalRecord) (r : OriginalResource)
  : result DatabaseError unit :=
  if negb (public_source_url (res_source_url r))
    || (negb (str_eqb (evidence_url (res_rights r)) [])
        && negb (public_source_url (evidence_url (res_rights r))))
  then Err InvalidInput
  else if negb (can_process (res_rights r)) then
    if (res_ordinal r =? 0)
      && (negb (str_eqb (lr_body rec) [])
          || negb (bool_decide (length (lr_sections rec) = 0%nat)))
    then Err InvalidInput
    else if (0 <? res_ordinal r)
      && existsb (fun s => starts_with (resource_prefix r) (sec_id s)) (lr_sections rec)
    then Err InvalidInput
    else Ok tt
  else Ok tt.

Fixpoint resources_check (rec : LegalRecord) (rs : list OriginalResource)
  : result DatabaseError unit :=
  match rs with
  | [] => Ok tt
  | r :: rs => let? _ := resource_check rec r in resources_check rec rs
  end.

Definition check_original_resources (rec : LegalRecord) : result DatabaseError unit :=
  match lr_metadata rec !! u "original_resources" with
  | None => Ok tt
  | Some text =>
    let? resources := ok_or (parse_resources text) InvalidInput in
    if (65 <? zlen resources) || negb (all_distinct (res_ordinal <$> resources))
      then Err InvalidInput
      else resources_check rec resources
  end.

Definition section_invalid (s : LegalSection) : bool :=
  str_eqb (sec_id s) (u "body") || str_eqb (sec_id s) (u "title")
    || str_eqb (sec_id s) [] || (256 <? slen (sec_id s))
    || (16384 <? slen (sec_title s)) || (16 * MiB <? slen (sec_text s))
    || opt_test (fun d => negb (valid_snapshot_id d)) (sec_source_document_sha256 s).

Definition record_validate (rec : LegalRecord) : result DatabaseError unit :=
  let? _ := object_validate (lr_object rec) in
  let? _ := selector_validate (Revision (lr_revision_id rec)) in
  let? _ := check_original_resources rec in
  let aggregate :=
    saturating_add (saturating_add (saturating_add
      (slen (lr_title rec)) (slen (lr_body rec)))
      (metadata_bytes (lr_metadata rec)))
    (sum_Z ((fun s => slen (sec_id s) + slen (sec_title s) + slen (sec_text s))
      <$> lr_sections rec)) in
  if 64 * MiB <? aggregate then Err InvalidInput else
  let? url := ok_or (url_parse (lr_source_url rec)) InvalidInput in
  if negb (str_eqb (url_scheme url) (u "https"))
    || negb (is_some (url_host url))
    || negb (str_eqb (url_username url) [])
    || is_some (url_password url)
    || has_credential_pair url
    || negb (all_distinct (sec_id <$> lr_sections rec))
    || (10000 <? zlen (lr_sections rec))
    || existsb section_invalid (lr_sections rec)
    || (64 * MiB <? sum_Z ((fun s => slen (sec_text s)) <$> lr_sections rec))
  then Err InvalidInput
  else if (16384 <? slen (lr_title rec))
    || (16 * MiB <? slen (lr_body rec))
    || (2048 <? slen (lr_source_url rec))
    || negb (starts_with (u "https://") (lr_source_url rec))
    || str_eqb (lr_representation rec) []
    || (128 <? slen (lr_representation rec))
    || (128 <? zlen (map_to_list (lr_metadata rec)))
    || existsb (fun kv => (128 <? slen kv.1) || (65536 <? slen kv.2))
         (map_to_list (lr_metadata rec))
    || (65536 <? metadata_bytes (lr_metadata rec))
    || opt_test (fun d => negb (valid_date d)) (lr_publication_date rec)
    || opt_test (fun d => negb (valid_date d)) (lr_effective_date rec)
  then Err InvalidInput
  else Ok tt.
End record_validate.

(** * Theorems *)

Definition leap_year (y : Z) : Prop := y mod 4 = 0 /\ (y mod 100 <> 0 \/ y mod 400 = 0).

(** The Gregorian month lengths, from January. *)
Definition gregorian_days (y : Z) (m : nat) : Z :=
  nth m [31; if (y mod 4 =? 0) && (negb (y mod 100 =? 0) || (y mod 400 =? 0)) then 29
             else 28; 31; 30; 31; 30; 31; 31; 30; 31; 30; 31] 0.

Definition two_digits (n : Z) : str := [48 + n / 10; 48 + n mod 10].
Definition four_digits (n : Z) : str := two_digits (n / 100) ++ two_digits (n mod 100).
Definition date_string (y m d : Z) : str := four_digits y ++ two_digits m ++ two_digits d.

Lemma find_as_str_ALL d : from_name (as_str d) = Some d.
Proof. destruct d; vm_compute; reflexivity. Qed.

(** The wire name of a data family determines it: [from_name] finds exactly
    the family whose [as_str] is the name, so no two families share a name. *)
Theorem dataset_name_roundtrip name d : from_name name = Some d <-> name = as_str d.
Proof.
  split.
  - intros Hf. unfold from_name in Hf. apply find_some in Hf as [_ Hf].
    by apply str_eqb_eq in Hf.
  - intros ->. apply find_as_str_ALL.
Qed.

Lemma two_digits_parse n :
  0 <= n < 100 ->
  parse_u32 (two_digits n) = Some n /\ forallb is_ascii_digit (two_digits n) = true.
Proof.
  intros Hn. assert (Hd : forallb is_ascii_digit (two_digits n) = true).
  { unfold two_digits, is_ascii_digit, in_range. cbn [forallb]. dlia. }
  assert (Hv : digits_value 0 (two_digits n) = n).
  { unfold digits_value, digit_value, two_digits. cbn [fold_left]. dlia. }
  split; [|done]. unfold parse_u32. rewrite parse_unsigned_digits; rewrite ?Hv; [done..|lia].
Qed.

Lemma two_digits_inv a b :
  is_ascii_digit a = true -> is_ascii_digit b = true ->
  exists n, 0 <= n < 100 /\ [a; b] = two_digits n.
Proof.
  intros Ha%ascii_digit_bounds Hb%ascii_digit_bounds.
  exists ((a - 48) * 10 + (b - 48)). split; [lia|].
  unfold two_digits. f_equal; [dlia|f_equal; dlia].
Qed.

Lemma four_digits_parse n :
  0 <= n < 10000 ->
  parse_u32 (four_digits n) = Some n /\ forallb is_ascii_digit (four_digits n) = true.
Proof.
  intros Hn.
  destruct (two_digits_parse (n / 100)) as [_ Hd1]; [dlia|].
  destruct (two_digits_parse (n mod 100)) as [_ Hd2]; [dlia|].
  assert (Hd : forallb is_ascii_digit (four_digits n) = true)
    by (unfold four_digits; rewrite forallb_app', Hd1, Hd2; done).
  assert (Hv : digits_value 0 (four_digits n) = n).
  { unfold four_digits, digits_value, digit_value, two_digits. cbn [app fold_left]. dlia. }
  split; [|done]. unfold parse_u32. rewrite parse_unsigned_digits; rewrite ?Hv; [done..|lia].
Qed.

Lemma slen_digits s : forallb is_ascii_digit s = true -> slen s = zlen s.
Proof. intros. by apply slen_ascii, digits_ascii. Qed.

(** Eight digits are a year, a month and a day of the month. *)
Lemma eight_digits_inv s :
  slen s = 8 -> forallb is_ascii_digit s = true ->
  exists y m d, 0 <= y < 10000 /\ 0 <= m < 100 /\ 0 <= d < 100 /\ s = date_string y m d.
Proof.
  intros Hl Hd. rewrite slen_digits in Hl by done.
  do 8 (destruct s as [|? s]; [done|]).
  destruct s as [|? s]; [|unfold zlen in Hl; simpl in Hl; lia].
  cbn [forallb] in Hd. bool_hyps.
  destruct (two_digits_inv z z0) as (a & ? & Ea); [done..|].
  destruct (two_digits_inv z1 z2) as (b & ? & Eb); [done..|].
  destruct (two_digits_inv z3 z4) as (m & ? & Em); [done..|].
  destruct (two_digits_inv z5 z6) as (d & ? & Ed); [done..|].
  exists (a * 100 + b), m, d. repeat split; [lia..|].
  unfold date_string, four_digits.
  replace ((a * 100 + b) / 100) with a by dlia.
  replace ((a * 100 + b) mod 100) with b by dlia.
  rewrite <- Ea, <- Eb, <- Em, <- Ed. reflexivity.
Qed.

Lemma valid_date_fields y m d :
  0 <= y < 10000 -> 0 <= m < 100 -> 0 <= d < 100 ->
  valid_date (date_string y m d) = (0 <? y) && (0 <? d) && (d <=? month_days y m).
Proof.
  intros Hy Hm Hd.
  destruct (four_digits_parse y Hy) as [Py Dy].
  destruct (two_digits_parse m Hm) as [Pm Dm].
  destruct (two_digits_parse d Hd) as [Pd Dd].
  assert (Hl4 : slen (four_digits y) = 4) by (rewrite slen_digits by done; done).
  assert (Hl2 : forall n, forallb is_ascii_digit (two_digits n) = true ->
                          slen (two_digits n) = 2)
    by (intros; rewrite slen_digits by done; done).
  pose proof (Hl2 m Dm) as Hlm. pose proof (Hl2 d Dd) as Hld. clear Hl2.
  unfold valid_date, date_string.
  generalize dependent (four_digits y). intros Y Py Dy Hl4.
  generalize dependent (two_digits m). intros M Pm Dm Hlm.
  generalize dependent (two_digits d). intros D Pd Dd Hld.
  rewrite forallb_digit_bytes, !forallb_app', Dy, Dm, Dd, !slen_app, Hl4, Hlm, Hld.
  pose proof (str_range_app [] Y (M ++ D)) as R1.
  pose proof (str_range_app Y M D) as R2.
  pose proof (str_from_app (Y ++ M) D) as R3.
  rewrite slen_app, <- app_assoc in R3. rewrite Hl4, ?Hlm in *.
  change (slen [] + 4) with 4 in R1. change (slen [] ) with 0 in R1.
  change (4 + 2) with 6 in *. rewrite app_nil_l in R1.
  change (negb (4 + (2 + 2) =? 8) || negb (true && (true && true))) with false.
  cbv iota. rewrite R1, R2, R3. cbn [mbind option_bind].
  rewrite Py. cbn [mbind option_bind]. by rewrite Pm, Pd.
Qed.

Lemma month_days_gregorian y m :
  1 <= m <= 12 -> month_days y m = gregorian_days y (Z.to_nat (m - 1)).
Proof.
  intros Hm. assert (m = 1 \/ m = 2 \/ m = 3 \/ m = 4 \/ m = 5 \/ m = 6 \/ m = 7
    \/ m = 8 \/ m = 9 \/ m = 10 \/ m = 11 \/ m = 12) as Hc by lia.
  unfold month_days, gregorian_days.
  repeat destruct Hc as [->|Hc]; subst; reflexivity.
Qed.

Lemma month_days_other y m : ~ 1 <= m <= 12 -> month_days y m = 0.
Proof.
  intros Hm. unfold month_days.
  repeat match goal with |- context [m =? ?k] => rewrite (proj2 (Z.eqb_neq m k)) by lia end.
  done.
Qed.

(** [valid_date] accepts exactly the eight digits of a date of the
    Gregorian calendar between the years 1 and 9999. *)
Theorem valid_date_gregorian value :
  valid_date value = true <->
  exists y m d,
    1 <= y <= 9999 /\ 1 <= m <= 12 /\ 1 <= d <= gregorian_days y (Z.to_nat (m - 1)) /\
    value = date_string y m d.
Proof.
  split.
  - intros Hv. pose proof Hv as Hv'. unfold valid_date in Hv'.
    destruct (negb (slen value =? 8) || _) eqn:E; [done|]. clear Hv'. bool_hyps.
    rewrite forallb_digit_bytes in *.
    destruct (eight_digits_inv value) as (y & m & d & Hy & Hm & Hd & ->); [lia|done|].
    rewrite valid_date_fields in Hv by done. bool_hyps.
    assert (1 <= m <= 12).
    { destruct (decide (1 <= m <= 12)); [done|]. rewrite month_days_other in * by done. lia. }
    exists y, m, d. rewrite <- month_days_gregorian by done. repeat split; [lia..].
  - intros (y & m & d & Hy & Hm & Hd & ->). rewrite <- month_days_gregorian in Hd by done.
    assert (month_days y m <= 31) by (unfold month_days; repeat case_match; lia).
    rewrite valid_date_fields by lia. lia.
Qed.

(** * Material without processing rights is not exposed *)

Section withheld.
Context `{LegalCodecs}.

(** What the record may show of a resource that must not be processed. *)
Definition withheld (rec : LegalRecord) (r : OriginalResource) : Prop :=
  (res_ordinal r = 0 -> lr_body rec = [] /\ lr_sections rec = []) /\
  (0 < res_ordinal r ->
    Forall (fun s => ~ exists t, sec_id s = resource_prefix r ++ t) (lr_sections rec)).

Lemma resource_check_ok rec r :
  resource_check rec r = Ok tt ->
  public_source_url (res_source_url r) = true
    /\ (can_process (res_rights r) = false -> withheld rec r).
Proof.
  unfold resource_check. destruct (negb _ || _) eqn:E1; [done|]. bool_hyps.
  intros Hc. split; [done|]. intros Hp. rewrite Hp in Hc. cbn [negb] in Hc.
  destruct ((res_ordinal r =? 0) && _) eqn:E2; [done|].
  destruct ((0 <? res_ordinal r) && _) eqn:E3; [done|]. clear Hc. split; intros Ho.
  - rewrite (proj2 (Z.eqb_eq _ _) Ho) in E2. cbn [andb] in E2. bool_hyps.
    split; [by apply str_eqb_eq|by apply length_zero_iff_nil].
  - rewrite (proj2 (Z.ltb_lt _ _) Ho) in E3. cbn [andb] in E3.
    apply Forall_forall. intros s Hs [t Ht].
    assert (existsb (fun s => starts_with (resource_prefix r) (sec_id s))
      (lr_sections rec) = true); [|congruence].
    apply existsb_exists. exists s. split; [by apply list_elem_of_In|].
    apply starts_with_iff. eauto.
Qed.

Lemma resources_check_ok rec rs :
  resources_check rec rs = Ok tt -> Forall (fun r => resource_check rec r = Ok tt) rs.
Proof.
  induction rs as [|r rs IH]; simpl; [constructor|].
  destruct (resource_check rec r) as [[]|] eqn:E; [|done]. intros. constructor; auto.
Qed.

(** A record that validates shows nothing of a retained resource whose
    rights do not allow processing: neither body nor sections when the resource
    is the provider response, no section of it when it is an attachment; every
    resource's address is public and free of credentials, and their ordinals
    are distinct. *)
Theorem record_validate_withholds rec text resources :
  record_validate rec = Ok tt ->
  lr_metadata rec !! u "original_resources" = Some text ->
  parse_resources text = Some resources ->
  NoDup (res_ordinal <$> resources) /\
  Forall (fun r => public_source_url (res_source_url r) = true
      /\ (can_process (res_rights r) = false -> withheld rec r)) resources.
Proof.
  intros Hv Hm Hp. unfold record_validate in Hv.
  destruct (object_validate _); [|done].
  destruct (selector_validate _); [|done].
  destruct (check_original_resources rec) as [[]|] eqn:E; [|done]. clear Hv.
  unfold check_original_resources in E. rewrite Hm, Hp in E. simpl in E.
  destruct (_ || negb _) eqn:Ed; [done|]. bool_hyps. split.
  - by apply all_distinct_NoDup.
  - apply resources_check_ok in E. eapply Forall_impl; [exact E|].
    intros r Hr. by apply resource_check_ok.
Qed.
End withheld.

Definition sample_url : Url :=
  {| url_scheme := u "https"; url_host := Some (u "example.test"); url_username := [];
     url_password := None; url_path := u "/"; url_query := None; url_fragment := None;
     url_query_pairs := [] |}.

Definition sample_resource : OriginalResource :=
  {| res_ordinal := 0; res_title := []; res_media_type := u "text/html";
     res_source_url := u "https://example.test/1"; res_retained := false;
     res_rights := rights_default |}.

Definition sample_codecs : LegalCodecs :=
  {| url_parse _ := Some sample_url; parse_resources _ := Some [sample_resource] |}.

Definition sample_record : LegalRecord :=
  {| lr_object := {| oid_jurisdiction := u "kr"; oid_provider := u "fictional";
                     oid_dataset := NationalStatute; oid_id := u "1" |};
     lr_revision_id := u "1"; lr_title := u "Fictional"; lr_body := [];
     lr_metadata := {[u "original_resources" := u "[]"]};
     lr_publication_date := Some (u "20240229"); lr_effective_date := None;
     lr_source_url := u "https://example.test/fictional";
     lr_representation := u "provider"; lr_sections := [] |}.

Lemma record_validate_withholds_witness :
  can_process (H:=sample_codecs) (res_rights sample_resource) = false /\
  withheld sample_record sample_resource.
Proof.
  destruct (record_validate_withholds (H:=sample_codecs) sample_record (u "[]")
    [sample_resource] ltac:(vm_compute; reflexivity) ltac:(vm_compute; reflexivity)
    ltac:(reflexivity)) as [_ Hf].
  apply Forall_singleton in Hf as [_ Hw].
  split; [vm_compute; reflexivity|apply Hw; vm_compute; reflexivity].
Defined.
