(* ===== verification/TextDiff.v ===== *)
(** The supplied-text comparison contracts of
    [crates/domain/src/text_diff.rs]: limits, errors, attachment and page
    types, and the LF-inclusive lines that the patch, paging and comparison
    code share. *)

From S2P Require Import Prelude Utf8.

(** * Limits *)

Definition MAX_TEXT_BYTES : Z := 1024 * 1024.
Definition MAX_LINE_BYTES : Z := 16 * 1024.
Definition MAX_LINES : Z := 100000.
Definition MAX_INLINE_RANGES : Z := 65536.
Definition MAX_PAGE_INLINE_RANGES : Z := 4096.
Definition MAX_PATCH_INPUT_BYTES : Z := 8 * 1024 * 1024.
Definition MAX_ATTACHMENT_CHUNK_BYTES : Z := 32 * 1024.

(** * Errors *)

Inductive TextDiffError :=
| InvalidInput
| InvalidUtf8Boundary (offset : Z)
| PatchConflict
| AttachmentKindMismatch
| NotFound
| Busy
| ResourceLimit
| Unavailable
| Cancelled
| Internal.

#[export] Instance TextDiffError_eq_dec : EqDecision TextDiffError.
Proof. solve_decision. Defined.

(** * Attachments *)

Inductive AttachmentKind := Text | Patch.

#[export] Instance AttachmentKind_eq_dec : EqDecision AttachmentKind.
Proof. solve_decision. Defined.

Record AttachmentSummary := {
  as_attachment_id : str; as_kind : AttachmentKind; as_total_bytes : Z;
  as_committed_bytes : Z; as_sealed : bool; as_expires_at : Z;
}.

Inductive AttachmentReference :=
| Handle (attachment_id : str)
| Summary (summary : AttachmentSummary).

Definition attachment_id (r : AttachmentReference) : str :=
  match r with Handle id => id | Summary s => as_attachment_id s end.
Definition declared_kind (r : AttachmentReference) : option AttachmentKind :=
  match r with Handle _ => None | Summary s => Some (as_kind s) end.

Inductive TextSource :=
| Inline (text : str)
| Attachment (r : AttachmentReference).

Record AttachmentUpload := {
  up_attachment_id : option str; up_kind : option AttachmentKind;
  up_total_bytes : option Z; up_offset : Z; up_chunk : str; up_complete : bool;
}.

Record AttachmentPage := {
  ap_attachment : AttachmentSummary; ap_offset : Z; ap_next_offset : Z;
  ap_complete : bool; ap_text : str;
}.

(** * Comparisons *)

Definition ScalarRange : Type := Z * Z.

Record InlineChange := { ic_row_index : Z; ic_ranges : list ScalarRange }.

Record TextInfo := {
  ti_label : str; ti_bytes : Z; ti_lines : Z; ti_crlf : Z; ti_lf : Z;
  ti_bare_cr : Z; ti_bom : bool; ti_final_newline : bool;
}.

Record ComparisonSummary := {
  cs_comparison_id : str; cs_expires_at : Z; cs_before : TextInfo; cs_after : TextInfo;
  cs_additions : Z; cs_deletions : Z; cs_equal : bool; cs_change_pages : Z;
}.

Inductive PageView := Changes | Before | After.

Record DiffFragment := {
  df_patch : str; df_before_start : Z; df_before_count : Z;
  df_after_start : Z; df_after_count : Z; df_inline_changes : list InlineChange;
}.

Record PageResponse := {
  pr_comparison_id : str; pr_view : PageView; pr_page : Z; pr_total_pages : Z;
  pr_text : option str; pr_fragments : list DiffFragment;
}.

(** * Lines *)

Definition LF : char := 10.
Definition CR : char := 13.

(** [str::split_inclusive('\n')] *)
Fixpoint split_inclusive (s : str) : list str :=
  match s with
  | [] => []
  | c :: s =>
    if c =? LF then [c] :: split_inclusive s
    else match split_inclusive s with
         | [] => [[c]]
         | l :: ls => (c :: l) :: ls
         end
  end.

(** [line.strip_suffix('\n').unwrap_or(line)] *)
Definition strip_newline (line : str) : str :=
  match strip_suffix [LF] line with Some l => l | None => line end.

Definition ends_lf (s : str) : bool := ends_with [LF] s.

(** [l.get(a..b)] on a slice of lines *)
Definition slice_get {A} (l : list A) (a b : Z) : option (list A) :=
  if (0 <=? a) && (a <=? b) && (b <=? zlen l)
  then Some (take (Z.to_nat (b - a)) (drop (Z.to_nat a) l)) else None.
Definition index_get {A} (l : list A) (i : Z) : option A :=
  if 0 <=? i then l !! Z.to_nat i else None.

(** * Line lemmas *)

(** Lists of lines that some text splits into. *)
Inductive proper_lines : list str -> Prop :=
| proper_nil : proper_lines []
| proper_last l : l <> [] -> LF ∉ l -> proper_lines [l]
| proper_cons t ls : LF ∉ t -> proper_lines ls -> proper_lines ((t ++ [LF]) :: ls).

Lemma ends_lf_iff s : ends_lf s = true <-> exists t, s = t ++ [LF].
Proof. apply ends_with_iff. Qed.

Lemma ends_lf_app s t : t <> [] -> ends_lf (s ++ t) = ends_lf t.
Proof.
  intros Ht. apply eq_true_iff_eq. rewrite !ends_lf_iff.
  destruct t as [|c t _] using rev_ind; [done|]. split.
  - intros [r Hr]. rewrite app_assoc in Hr. apply app_inj_tail in Hr as [_ ->]. eauto.
  - intros [r Hr]. apply app_inj_tail in Hr as [-> ->]. rewrite app_assoc. eauto.
Qed.

Lemma split_inclusive_cons c s :
  c <> LF -> split_inclusive (c :: s) =
  match split_inclusive s with [] => [[c]] | l :: ls => (c :: l) :: ls end.
Proof. intros. simpl. by rewrite (proj2 (Z.eqb_neq _ _)). Qed.

Lemma concat_split_inclusive s : concat (split_inclusive s) = s.
Proof.
  induction s as [|c s IH]; [done|]. simpl.
  destruct (c =? LF); simpl; [by rewrite IH|].
  destruct (split_inclusive s); simpl in *; by rewrite <- IH.
Qed.

Lemma split_inclusive_proper s : proper_lines (split_inclusive s).
Proof.
  induction s as [|c s IH]; [constructor|]. simpl.
  destruct (Z.eqb_spec c LF) as [->|Hc].
  - by apply (proper_cons []); [apply not_elem_of_nil|].
  - destruct IH as [|l ? Hl|t ls Ht Hls].
    + constructor; [done|]. by apply not_elem_of_cons; split; [|apply not_elem_of_nil].
    + constructor; [done|]. by apply not_elem_of_cons.
    + by apply (proper_cons (c :: t)); [apply not_elem_of_cons|].
Qed.

Lemma split_inclusive_line t s :
  LF ∉ t -> split_inclusive (t ++ LF :: s) = (t ++ [LF]) :: split_inclusive s.
Proof.
  induction t as [|c t IH]; intros Ht; [done|].
  apply not_elem_of_cons in Ht as [Hc Ht]. cbn [app].
  rewrite split_inclusive_cons by done. by rewrite IH.
Qed.

Lemma split_inclusive_last l : l <> [] -> LF ∉ l -> split_inclusive l = [l].
Proof.
  induction l as [|c l IH]; [done|]. intros _ [Hc Hl]%not_elem_of_cons.
  rewrite split_inclusive_cons by done. destruct l; [done|]. by rewrite IH.
Qed.

(** Splitting is the only way to cut a text into proper lines. *)
Lemma split_inclusive_concat ls :
  proper_lines ls -> split_inclusive (concat ls) = ls.
Proof.
  induction 1 as [|l Hne Hl|t ls Ht Hls IH]; [done|..].
  - simpl. rewrite app_nil_r. by apply split_inclusive_last.
  - simpl. rewrite <- app_assoc. simpl. by rewrite split_inclusive_line, IH.
Qed.

Lemma proper_lines_inv l ls :
  proper_lines (l :: ls) ->
  l <> [] /\ proper_lines ls /\ (ls <> [] -> ends_lf l = true).
Proof.
  inversion 1 as [|? ? ?|t ? Ht Hls]; subst.
  - repeat split; [done|constructor|done].
  - repeat split; [by destruct t|done|]. intros _. apply ends_lf_iff. eauto.
Qed.

Lemma proper_lines_app ls ks :
  proper_lines (ls ++ ks) ->
  proper_lines ls /\ proper_lines ks /\ (ks <> [] -> Forall (fun l => ends_lf l = true) ls).
Proof.
  induction ls as [|l ls IH]; simpl; intros H; [by repeat constructor|].
  pose proof (proper_lines_inv _ _ H) as (Hl & Hp & He).
  destruct (IH Hp) as (H1 & H2 & H3). split; [|split; [done|]].
  - destruct ls as [|l' ls].
    + inversion H; subst; [by apply proper_last|by apply proper_cons; [|constructor]].
    + inversion H; subst; by constructor.
  - intros Hks. constructor; [|auto]. apply He. by destruct ls, ks.
Qed.

Lemma ends_lf_concat ls :
  proper_lines ls -> ls <> [] ->
  ends_lf (concat ls) = true <-> Forall (fun l => ends_lf l = true) ls.
Proof.
  intros Hp Hne. induction ls as [|l ls _] using rev_ind; [done|].
  rewrite concat_app. simpl. rewrite app_nil_r, Forall_app, Forall_singleton.
  destruct (proper_lines_app _ _ Hp) as (_ & Hl & He).
  apply proper_lines_inv in Hl as (Hl & _ & _). rewrite ends_lf_app by done.
  split; [|tauto]. intros. split; [by apply He|done].
Qed.

Lemma proper_lines_join ls ks :
  proper_lines ls -> proper_lines ks ->
  (ks <> [] -> Forall (fun l => ends_lf l = true) ls) -> proper_lines (ls ++ ks).
Proof.
  intros Hls Hks Hf. destruct ks as [|k ks]; [by rewrite app_nil_r|].
  specialize (Hf ltac:(done)). induction Hls as [|x Hne Hx|t ls Ht Hls IH]; [done|..].
  - apply Forall_singleton, ends_lf_iff in Hf as [t ->]. exfalso. apply Hx.
    apply elem_of_app. right. by apply list_elem_of_singleton.
  - simpl. constructor; [done|]. apply IH. by apply Forall_cons in Hf as [_ ?].
Qed.

Lemma proper_lines_app_iff ls ks :
  proper_lines (ls ++ ks) <->
  proper_lines ls /\ proper_lines ks /\ (ks <> [] -> Forall (fun l => ends_lf l = true) ls).
Proof.
  split; [apply proper_lines_app|]. intros (? & ? & ?). by apply proper_lines_join.
Qed.

Lemma proper_line_full t : LF ∉ t -> proper_lines [t ++ [LF]].
Proof. intros. apply proper_cons; [done|constructor]. Qed.

Lemma proper_lines_single ls : proper_lines ls -> Forall (fun l => proper_lines [l]) ls.
Proof.
  induction 1; [constructor|constructor; [by apply proper_last|constructor]|].
  constructor; [by apply proper_line_full|done].
Qed.

Lemma proper_lines_no_empty ls : proper_lines ls -> Forall (fun l => l <> []) ls.
Proof. induction 1; repeat constructor; [done|by destruct t|done]. Qed.

Lemma slen_concat ls : slen (concat ls) = sum_Z (slen <$> ls).
Proof.
  induction ls as [|l ls IH]; [done|]. rewrite fmap_cons. cbn [concat sum_Z].
  by rewrite slen_app, IH.
Qed.
