(* ===== verification/Patch.v ===== *)
(** Strict, atomic patch application: [crates/normalization/src/patch.rs].

    [parse_patch] reads the optional git preamble, the two file headers and
    the hunks; [apply_patch] replays the hunks at their declared positions.
    A patch iterator over lines is the list of the lines still to come, so
    [next] is the head and [peek] the head without removing it. *)

From S2P Require Import Prelude Utf8 TextDiff.

Definition MAX_PATCH : Z := 8 * 1024 * 1024.
Definition MAX_PATCH_ROWS : Z := 2 * MAX_LINES.
Definition MARKER : str := u "\ No newline at end of file" ++ [LF].
Definition NUL : char := 0.

Definition append (out text : str) : result TextDiffError str :=
  if MAX_TEXT_BYTES <? saturating_add (slen out) (slen text) then Err ResourceLimit
  else Ok (out ++ text).

Definition validate_text (text : str) : result TextDiffError unit :=
  if (MAX_TEXT_BYTES <? slen text) || contains_char NUL text
     || (MAX_LINES <? zlen (split_inclusive text))
     || existsb (fun line => MAX_LINE_BYTES <? slen (strip_newline line))
          (split_inclusive text)
  then Err InvalidInput else Ok tt.

Definition coordinate (token : str) (prefix : char) : result TextDiffError (Z * Z) :=
  let? token := ok_or (strip_prefix [prefix] token) InvalidInput in
  let '(start, count) :=
    match split_once (u ",") token with Some p => p | None => (token, u "1") end in
  if str_eqb start [] || str_eqb count []
     || negb (forallb is_ascii_digit (bytes start))
     || negb (forallb is_ascii_digit (bytes count))
  then Err InvalidInput
  else
    let? start := ok_or (parse_usize start) InvalidInput in
    let? count := ok_or (parse_usize count) InvalidInput in
    if (MAX_LINES <? count) || (MAX_LINES <? start)
       || (negb (count =? 0) && (start =? 0))
    then Err InvalidInput
    else Ok (if count =? 0 then start else start - 1, count).

(** [prefix] is the first byte of the row, one of the three ASCII signs. *)
Record PatchRow := { pr_prefix : char; pr_text : str }.
Record PatchHunk := { ph_old_start : Z; ph_rows : list PatchRow }.

Definition SPACE : char := ch " ".
Definition MINUS : char := ch "-".
Definition PLUS : char := ch "+".

(** The mutable variables of the row loop. *)
Record row_state := {
  consumed : Z; produced : Z; changed : bool; rows : list PatchRow;
  unterminated_output : bool; total_rows : Z;
}.

(** One iteration of the row loop, [marked] when the next line is the marker. *)
Definition row_step (old_count new_count : Z) (row : str) (marked : bool)
  (st : row_state) : result TextDiffError row_state :=
  match row with
  | [] => Err InvalidInput
  | prefix :: text =>
    if negb ((prefix =? SPACE) || (prefix =? MINUS) || (prefix =? PLUS))
       || negb (ends_lf row)
    then Err InvalidInput
    else
      let? text :=
        if marked then
          let? text := ok_or (strip_suffix [LF] text) InvalidInput in
          if str_eqb text [] then Err InvalidInput else Ok text
        else Ok text in
      if negb (prefix =? PLUS) && (old_count <=? consumed st) then Err InvalidInput
      else if negb (prefix =? MINUS)
              && ((new_count <=? produced st) || unterminated_output st)
      then Err InvalidInput
      else Ok {|
        consumed := if negb (prefix =? PLUS) then consumed st + 1 else consumed st;
        produced := if negb (prefix =? MINUS) then produced st + 1 else produced st;
        changed := changed st || negb (prefix =? SPACE);
        rows := rows st ++ [{| pr_prefix := prefix; pr_text := text |}];
        unterminated_output :=
          if negb (prefix =? MINUS) then negb (ends_lf text) else unterminated_output st;
        total_rows := total_rows st + 1 |}
  end.

Fixpoint rows_loop (old_count new_count : Z) (lines : list str) (st : row_state)
  : result TextDiffError (row_state * list str) :=
  if (consumed st <? old_count) || (produced st <? new_count) then
    if MAX_PATCH_ROWS <=? total_rows st then Err ResourceLimit
    else match lines with
    | [] => Err InvalidInput
    | row :: rest =>
      match rest with
      | next :: rest' =>
        if str_eqb next MARKER then
          let? st := row_step old_count new_count row true st in
          rows_loop old_count new_count rest' st
        else
          let? st := row_step old_count new_count row false st in
          rows_loop old_count new_count rest st
      | [] =>
        let? st := row_step old_count new_count row false st in
        rows_loop old_count new_count rest st
      end
    end
  else Ok (st, lines).

(** The variables of the hunk loop. *)
Record hunk_state := {
  hunks : list PatchHunk; old_cursor : Z; new_cursor : Z;
  hs_unterminated : bool; hs_total_rows : Z;
}.

(** The hunk header: the four coordinates. *)
Definition parse_header (header : str) : result TextDiffError (Z * Z * (Z * Z)) :=
  if negb (ends_lf header) then Err InvalidInput else
  let? inner := ok_or (strip_prefix (u "@@ ") header) InvalidInput in
  let? (coordinates, suffix) := ok_or (split_once (u " @@") inner) InvalidInput in
  if negb (str_eqb suffix [LF]) && negb (starts_with [SPACE] suffix)
  then Err InvalidInput else
  let? (old, new) := ok_or (split_once (u " ") coordinates) InvalidInput in
  let? old := coordinate old MINUS in
  let? new := coordinate new PLUS in
  Ok (old, new).

Definition hunk_step (header : str) (lines : list str) (st : hunk_state)
  : result TextDiffError (hunk_state * list str) :=
  if MAX_LINES <=? zlen (hunks st) then Err InvalidInput else
  let? ((old_start, old_count), (new_start, new_count)) := parse_header header in
  if old_start <? old_cursor st then Err InvalidInput else
  let gap := old_start - old_cursor st in
  if negb (bool_decide (checked_add (new_cursor st) gap = Some new_start))
     || ((0 <? gap) && hs_unterminated st)
  then Err InvalidInput else
  let? (rs, lines) := rows_loop old_count new_count lines
    {| consumed := 0; produced := 0; changed := false; rows := [];
       unterminated_output := hs_unterminated st; total_rows := hs_total_rows st |} in
  if negb (changed rs) then Err InvalidInput
  else Ok ({| hunks := hunks st ++ [{| ph_old_start := old_start; ph_rows := rows rs |}];
              old_cursor := old_start + old_count; new_cursor := new_start + new_count;
              hs_unterminated := unterminated_output rs;
              hs_total_rows := total_rows rs |}, lines).

(** Each iteration takes at least the header off the lines. *)
Fixpoint hunks_loop (fuel : nat) (lines : list str) (st : hunk_state)
  : result (stop TextDiffError) hunk_state :=
  match fuel with
  | O => Err OutOfFuel
  | S fuel =>
    match lines with
    | [] => Ok st
    | header :: lines =>
      match hunk_step header lines st with
      | Err e => Err (Error e)
      | Ok (st, lines) => hunks_loop fuel lines st
      end
    end
  end.

Definition file_header (prefix : str) (lines : list str)
  : result TextDiffError (list str) :=
  match lines with
  | [] => Err InvalidInput
  | header :: lines =>
    if negb (starts_with prefix header) || negb (ends_lf header)
       || (slen header <=? slen prefix + 1) || (4096 <? slen header)
    then Err InvalidInput else Ok lines
  end.

(** The optional [diff --git] and [index] lines. *)
Definition skip_preamble (lines : list str) : result TextDiffError (list str) :=
  match lines with
  | header :: rest =>
    if starts_with (u "diff --git ") header then
      if negb (ends_lf header) then Err InvalidInput
      else match rest with
           | line :: rest' =>
             if starts_with (u "index ") line then Ok rest' else Ok rest
           | [] => Ok rest
           end
    else Ok lines
  | [] => Ok lines
  end.

Definition initial_hunk_state : hunk_state :=
  {| hunks := []; old_cursor := 0; new_cursor := 0; hs_unterminated := false;
     hs_total_rows := 0 |}.

Definition parse_lines (lines : list str)
  : result (stop TextDiffError) (list PatchHunk) :=
  match
    (let? lines := skip_preamble lines in
     let? lines := file_header (u "--- ") lines in
     file_header (u "+++ ") lines)
  with
  | Err e => Err (Error e)
  | Ok lines =>
    let? st := hunks_loop (S (length lines)) lines initial_hunk_state in
    if bool_decide (hunks st = []) then Err (Error InvalidInput) else Ok (hunks st)
  end.

Definition parse_patch (patch : str) : result (stop TextDiffError) (list PatchHunk) :=
  parse_lines (split_inclusive patch).

Definition lift_error {E A} (r : result E A) : result (stop E) A :=
  match r with Ok a => Ok a | Err e => Err (Error e) end.

(** [out] is not empty and its last line is not terminated. *)
Definition open_line (out : str) : bool := negb (str_eqb out []) && negb (ends_lf out).

Fixpoint append_lines (out : str) (lines : list str) : result TextDiffError str :=
  match lines with
  | [] => Ok out
  | text :: lines => let? out := append out text in append_lines out lines
  end.

(** One row of the replay: [out] and the position in the source. *)
Definition apply_row (source : list str) (row : PatchRow) (out : str) (cursor : Z)
  : result TextDiffError (str * Z) :=
  let? cursor :=
    if negb (pr_prefix row =? PLUS) then
      if bool_decide (index_get source cursor = Some (pr_text row))
      then Ok (cursor + 1) else Err PatchConflict
      else Ok cursor in
  if negb (pr_prefix row =? MINUS) then
    if open_line out then Err PatchConflict
    else let? out := append out (pr_text row) in Ok (out, cursor)
  else Ok (out, cursor).

Fixpoint apply_rows (source : list str) (rs : list PatchRow) (out : str) (cursor : Z)
  : result TextDiffError (str * Z) :=
  match rs with
  | [] => Ok (out, cursor)
  | row :: rs =>
    let? (out, cursor) := apply_row source row out cursor in
    apply_rows source rs out cursor
  end.

Definition apply_hunk (source : list str) (hunk : PatchHunk) (out : str) (cursor : Z)
  : result TextDiffError (str * Z) :=
  let? gap := ok_or (slice_get source cursor (ph_old_start hunk)) PatchConflict in
  if negb (bool_decide (gap = [])) && open_line out then Err PatchConflict else
  let? out := append_lines out gap in
  apply_rows source (ph_rows hunk) out (ph_old_start hunk).

Fixpoint apply_hunks (source : list str) (hs : list PatchHunk) (out : str) (cursor : Z)
  : result TextDiffError (str * Z) :=
  match hs with
  | [] => Ok (out, cursor)
  | hunk :: hs =>
    let? (out, cursor) := apply_hunk source hunk out cursor in
    apply_hunks source hs out cursor
  end.

(** The part of [apply_patch] after the patch is parsed; the last slice of the
    source panics when the position is out of range. *)
Definition apply_parsed (target : str) (hs : list PatchHunk)
  : result (stop TextDiffError) str :=
  let source := split_inclusive target in
  let? (out, cursor) := lift_error (apply_hunks source hs [] 0) in
  if (cursor <? zlen source) && open_line out then Err (Error PatchConflict) else
  match slice_get source cursor (zlen source) with
  | None => Err Panic
  | Some tail =>
    let? out := lift_error (append_lines out tail) in
    let? _ := lift_error (validate_text out) in
    Ok out
  end.

Definition apply_patch (target patch : str) : result (stop TextDiffError) str :=
  let? _ := lift_error (validate_text target) in
  if (MAX_PATCH <? slen patch) || contains_char NUL patch then Err (Error InvalidInput)
  else if bool_decide (patch = []) then Ok target
  else
    let? hs := parse_patch patch in
    apply_parsed target hs.
