(* ===== verification/PatchFacts.v ===== *)
(** Correctness of patch parsing and application: what a successful
    application produced, when it succeeds, that it can be undone, and that
    the parser always answers. *)

From S2P Require Import Prelude Utf8 TextDiff Patch.

(** * Edit scripts: the abstract meaning of a patch *)

Inductive edit :=
| Keep (line : str)
| Del (line : str)
| Ins (line : str).

Definition old_line (e : edit) : list str :=
  match e with Keep l | Del l => [l] | Ins _ => [] end.
Definition new_line (e : edit) : list str :=
  match e with Keep l | Ins l => [l] | Del _ => [] end.
Definition old_side (script : list edit) : list str := script ≫= old_line.
Definition new_side (script : list edit) : list str := script ≫= new_line.

Definition row_edit (r : PatchRow) : edit :=
  if pr_prefix r =? PLUS then Ins (pr_text r)
  else if pr_prefix r =? MINUS then Del (pr_text r) else Keep (pr_text r).
Definition hunk_edits (h : PatchHunk) : list edit := row_edit <$> ph_rows h.

(** [replays c hs script c']: from source line [c], the hunks [hs] at their
    declared positions, with the lines between them kept, are [script] and end
    at source line [c']. *)
Inductive replays : Z -> list PatchHunk -> list edit -> Z -> Prop :=
| replays_nil c : replays c [] [] c
| replays_cons c h hs gap script c' :
    ph_old_start h = c + zlen gap ->
    replays (ph_old_start h + zlen (old_side (hunk_edits h))) hs script c' ->
    replays c (h :: hs) ((Keep <$> gap) ++ hunk_edits h ++ script) c'.

(** What the parser guarantees of a row. *)
Definition row_wf (r : PatchRow) : Prop :=
  (pr_prefix r = SPACE \/ pr_prefix r = MINUS \/ pr_prefix r = PLUS)
  /\ proper_lines [pr_text r].
Definition hunk_wf (h : PatchHunk) : Prop := Forall row_wf (ph_rows h).

(** ** Sides of scripts *)

Lemma old_side_app s t : old_side (s ++ t) = old_side s ++ old_side t.
Proof. apply bind_app. Qed.
Lemma new_side_app s t : new_side (s ++ t) = new_side s ++ new_side t.
Proof. apply bind_app. Qed.
Lemma old_side_keep ls : old_side (Keep <$> ls) = ls.
Proof. induction ls as [|l ls IH]; [done|]. by rewrite fmap_cons; cbn; f_equal. Qed.
Lemma new_side_keep ls : new_side (Keep <$> ls) = ls.
Proof. induction ls as [|l ls IH]; [done|]. by rewrite fmap_cons; cbn; f_equal. Qed.

Create Rewrite HintDb sides.
#[export] Hint Rewrite old_side_app new_side_app old_side_keep new_side_keep : sides.

Lemma replays_end c hs script c' :
  replays c hs script c' -> c' = c + zlen (old_side script).
Proof.
  induction 1 as [|c h hs gap script c' Hs _ IH].
  - unfold old_side. simpl. rewrite zlen_nil. lia.
  - autorewrite with sides. rewrite !zlen_app. lia.
Qed.

(** * Helper lemmas on the replay *)

Lemma index_get_app {A} (pre rest : list A) :
  index_get (pre ++ rest) (zlen pre) = head rest.
Proof.
  unfold index_get, zlen. rewrite (proj2 (Z.leb_le _ _)) by lia.
  rewrite Nat2Z.id, lookup_app_r, Nat.sub_diag by lia. by destruct rest.
Qed.

Lemma slice_get_app {A} (pre rest gap : list A) b :
  slice_get (pre ++ rest) (zlen pre) b = Some gap <->
  b = zlen pre + zlen gap /\ exists rest', rest = gap ++ rest'.
Proof.
  unfold slice_get, zlen. rewrite length_app. split.
  - destruct (_ && _) eqn:E; [|done]. bool_hyps. intros [= <-].
    rewrite Nat2Z.id, drop_app_length, length_take. split; [lia|].
    eexists. symmetry. apply take_drop.
  - intros [-> [rest' ->]]. rewrite length_app.
    rewrite !(proj2 (Z.leb_le _ _)) by lia. simpl. f_equal.
    rewrite Nat2Z.id, drop_app_length, Z.add_simpl_l, Nat2Z.id. apply take_app_length.
Qed.

Lemma append_iff out text out' :
  append out text = Ok out' <->
  out' = out ++ text /\ slen out' <= MAX_TEXT_BYTES.
Proof.
  unfold append, saturating_add. rewrite Z.ltb_antisym.
  assert (MAX_TEXT_BYTES < usize_max) by reflexivity.
  destruct (Z.leb_spec (Z.min (slen out + slen text) usize_max) MAX_TEXT_BYTES); simpl.
  - split; [intros [= <-]|intros [-> _]; done]. rewrite slen_app. split; [done|lia].
  - split; [done|]. intros [-> Hl]. rewrite slen_app in Hl. lia.
Qed.

Lemma append_lines_iff out ls out' :
  slen out <= MAX_TEXT_BYTES ->
  append_lines out ls = Ok out' <->
  out' = out ++ concat ls /\ slen out' <= MAX_TEXT_BYTES.
Proof.
  revert out. induction ls as [|l ls IH]; intros out Ho; simpl.
  - rewrite app_nil_r. split; [by intros [= <-]|by intros [-> _]].
  - destruct (append out l) as [o|e] eqn:E.
    + apply append_iff in E as [-> ?]. rewrite IH by done. by rewrite app_assoc.
    + split; [done|]. intros [-> Hl]. exfalso.
      assert (append out l = Ok (out ++ l)); [|congruence].
      apply append_iff. split; [done|]. rewrite !slen_app in *.
      pose proof (slen_nonneg (concat ls)). lia.
Qed.

Lemma open_line_false ls :
  proper_lines ls -> open_line (concat ls) = false <-> Forall (fun l => ends_lf l = true) ls.
Proof.
  intros Hp. unfold open_line. destruct ls as [|l ls].
  - split; [constructor|done].
  - assert (concat (l :: ls) <> []).
    { apply proper_lines_inv in Hp as (Hl & _). simpl. by destruct l. }
    rewrite andb_false_iff, !negb_false_iff, str_eqb_eq, ends_lf_concat by done. tauto.
Qed.

(** * The replay computes the sides of a script *)

Lemma row_wf_cases r :
  row_wf r ->
  proper_lines [pr_text r] /\
  ((pr_prefix r = SPACE /\ row_edit r = Keep (pr_text r)) \/
   (pr_prefix r = MINUS /\ row_edit r = Del (pr_text r)) \/
   (pr_prefix r = PLUS /\ row_edit r = Ins (pr_text r))).
Proof.
  intros [Hp Ht]. split; [done|]. unfold row_edit. by destruct Hp as [-> | [-> | ->]]; eauto.
Qed.

(** The text written so far is that of the proper lines [acc]. *)
Definition written (acc : list str) (out : str) : Prop :=
  proper_lines acc /\ out = concat acc /\ slen out <= MAX_TEXT_BYTES.

(** Appending a well-formed line succeeds exactly when the result is again the
    text of proper lines within the limit. *)
Lemma append_row_iff acc out text out' :
  written acc out -> proper_lines [text] ->
  (if open_line out then Err PatchConflict else append out text) = Ok out' <->
  written (acc ++ [text]) out' .
Proof.
  intros (Hacc & -> & Ho) Ht. unfold written. rewrite concat_app. simpl. rewrite app_nil_r.
  rewrite proper_lines_app_iff.
  destruct (open_line (concat acc)) eqn:E.
  - split; [done|]. intros [(_ & _ & Hf) _]. specialize (Hf ltac:(done)).
    apply open_line_false in Hf; [congruence|done].
  - apply open_line_false in E; [|done]. rewrite append_iff. naive_solver.
Qed.

Lemma apply_row_iff r acc pre rest out out' cursor' :
  row_wf r -> written acc out ->
  apply_row (pre ++ rest) r out (zlen pre) = Ok (out', cursor') <->
  written (acc ++ new_line (row_edit r)) out' /\
  exists rest', rest = old_line (row_edit r) ++ rest' /\
                cursor' = zlen (pre ++ old_line (row_edit r)).
Proof.
  intros Hr Hw. apply row_wf_cases in Hr as [Ht Hr].
  pose proof (append_row_iff acc out (pr_text r) out' Hw Ht) as Ha.
  unfold apply_row. rewrite index_get_app.
  destruct Hr as [[-> ->]|[[-> ->]|[-> ->]]]; simpl; rewrite ?app_nil_r.
  - destruct (bool_decide_reflect (head rest = Some (pr_text r))) as [Hh|Hh].
    + destruct rest as [|x rest]; [done|]. injection Hh as ->.
      rewrite zlen_app, zlen_cons, zlen_nil.
      destruct (open_line out); [naive_solver|].
      destruct (append out (pr_text r)); [|naive_solver].
      rewrite <- Ha. naive_solver lia.
    + split; [done|]. intros (_ & rest' & -> & _). done.
  - destruct (bool_decide_reflect (head rest = Some (pr_text r))) as [Hh|Hh].
    + destruct rest as [|x rest]; [done|]. injection Hh as ->.
      rewrite zlen_app, zlen_cons, zlen_nil. unfold written in *. naive_solver lia.
    + split; [done|]. intros (_ & rest' & -> & _). done.
  - destruct (open_line out); [naive_solver|].
    destruct (append out (pr_text r)); [|naive_solver].
    rewrite <- Ha. naive_solver.
Qed.

Lemma apply_rows_iff rs acc pre rest out out' cursor' :
  Forall row_wf rs -> written acc out ->
  apply_rows (pre ++ rest) rs out (zlen pre) = Ok (out', cursor') <->
  written (acc ++ new_side (row_edit <$> rs)) out' /\
  exists rest', rest = old_side (row_edit <$> rs) ++ rest' /\
                cursor' = zlen (pre ++ old_side (row_edit <$> rs)).
Proof.
  revert acc pre rest out. induction rs as [|r rs IH]; intros acc pre rest out Hrs Hw.
  - cbn. rewrite !app_nil_r. unfold written in *. naive_solver.
  - apply Forall_cons in Hrs as [Hr Hrs]. rewrite fmap_cons. cbn [apply_rows].
    change (new_side (row_edit r :: ?l)) with (new_line (row_edit r) ++ new_side l).
    change (old_side (row_edit r :: ?l)) with (old_line (row_edit r) ++ old_side l).
    rewrite !app_assoc. split.
    + destruct (apply_row _ r out _) as [[o c]|] eqn:E; [|done].
      apply (apply_row_iff r acc) in E as (Hw' & rest1 & -> & ->); [|done..].
      rewrite app_assoc. intros Ha.
      apply (IH (acc ++ new_line (row_edit r))) in Ha as (? & rest' & -> & ->); [|done..].
      split; [done|]. exists rest'. by rewrite <- !app_assoc.
    + intros (Hw' & rest' & -> & ->).
      assert (Hw1 : written (acc ++ new_line (row_edit r))
                      (concat (acc ++ new_line (row_edit r)))).
      { destruct Hw' as (Hp & -> & Hl). split; [by apply proper_lines_app in Hp as [? _]|].
        split; [done|]. rewrite concat_app, slen_app in Hl.
        pose proof (slen_nonneg (concat (new_side (row_edit <$> rs)))). lia. }
      rewrite <- app_assoc.
      rewrite (proj2 (apply_row_iff r acc pre _ out _ (zlen (pre ++ old_line (row_edit r))) Hr Hw)
        (conj Hw1 (ex_intro _ _ (conj eq_refl eq_refl)))).
      rewrite app_assoc. apply (IH (acc ++ new_line (row_edit r))); [done..|].
      split; [done|]. eauto.
Qed.

Lemma written_app_l acc more out :
  written (acc ++ more) out -> written acc (concat acc).
Proof.
  intros (Hp & -> & Hl). split; [by apply proper_lines_app in Hp as [? _]|].
  split; [done|]. rewrite concat_app, slen_app in Hl.
  pose proof (slen_nonneg (concat more)). lia.
Qed.

(** Copying a run of source lines. *)
Lemma append_gap_iff acc out gap out' :
  written acc out -> proper_lines gap ->
  (if negb (bool_decide (gap = [])) && open_line out then Err PatchConflict
   else append_lines out gap) = Ok out' <->
  written (acc ++ gap) out'.
Proof.
  intros (Hacc & -> & Ho) Hg. unfold written. rewrite concat_app, proper_lines_app_iff.
  case_bool_decide as Hd; simpl.
  - subst. simpl. rewrite !app_nil_r. naive_solver.
  - destruct (open_line (concat acc)) eqn:E.
    + split; [done|]. intros [(_ & _ & Hf) _].
      apply open_line_false in Hf; [congruence|done..].
    + apply open_line_false in E; [|done]. rewrite append_lines_iff by done. naive_solver.
Qed.

Lemma apply_hunk_iff h acc pre rest out out' cursor' :
  hunk_wf h -> written acc out -> proper_lines rest ->
  apply_hunk (pre ++ rest) h out (zlen pre) = Ok (out', cursor') <->
  exists gap rest',
    ph_old_start h = zlen pre + zlen gap /\
    rest = gap ++ old_side (hunk_edits h) ++ rest' /\
    written (acc ++ gap ++ new_side (hunk_edits h)) out' /\
    cursor' = zlen (pre ++ gap ++ old_side (hunk_edits h)).
Proof.
  intros Hh Hw Hp. unfold apply_hunk.
  destruct (slice_get (pre ++ rest) (zlen pre) (ph_old_start h)) as [gap|] eqn:Eg; simpl.
  - apply slice_get_app in Eg as (Hs & rest1 & ->).
    apply proper_lines_app in Hp as (Hg & _ & _).
    pose proof (fun o => append_gap_iff acc out gap o Hw Hg) as Ha.
    replace (ph_old_start h) with (zlen (pre ++ gap)) by (rewrite zlen_app; lia).
    rewrite app_assoc. split.
    + intros H.
      assert (exists o, written (acc ++ gap) o /\
        apply_rows ((pre ++ gap) ++ rest1) (ph_rows h) o (zlen (pre ++ gap)) = Ok (out', cursor'))
        as (o & Hwo & Hrows).
      { destruct (negb _ && _); [done|]. destruct (append_lines out gap) as [o|]; [|done].
        exists o. by split; [apply Ha|]. }
      apply (apply_rows_iff _ (acc ++ gap)) in Hrows as (? & rest' & -> & ->); [|done..].
      exists gap, rest'. rewrite !app_assoc in *. by rewrite (zlen_app pre).
    + intros (gap' & rest' & Hs' & Heq & Hw' & ->).
      rewrite zlen_app in Hs'.
      apply app_inj_1 in Heq as [<- ->]; [|unfold zlen in *; lia].
      rewrite app_assoc in Hw'. pose proof (written_app_l _ _ _ Hw') as Hwg.
      apply Ha in Hwg. destruct (negb _ && _); [done|]. rewrite Hwg.
      apply (apply_rows_iff _ (acc ++ gap)); [done|by apply Ha in Hwg|].
      split; [done|]. exists rest'. by rewrite app_assoc.
  - split; [done|]. intros (gap & rest' & Hs & -> & _).
    assert (slice_get (pre ++ gap ++ old_side (hunk_edits h) ++ rest') (zlen pre)
              (ph_old_start h) = Some gap); [|congruence].
    apply slice_get_app. eauto.
Qed.

Lemma apply_hunks_iff hs acc pre rest out out' cursor' :
  Forall hunk_wf hs -> written acc out -> proper_lines rest ->
  apply_hunks (pre ++ rest) hs out (zlen pre) = Ok (out', cursor') <->
  exists script rest',
    replays (zlen pre) hs script cursor' /\
    rest = old_side script ++ rest' /\
    written (acc ++ new_side script) out'.
Proof.
  revert acc pre rest out. induction hs as [|h hs IH]; intros acc pre rest out Hhs Hw Hp.
  - cbn [apply_hunks]. split.
    + intros [= <- <-]. exists [], rest. rewrite app_nil_r. by split; [constructor|].
    + intros (script & rest' & Hr & -> & Hw'). inversion Hr; subst.
      rewrite app_nil_r in Hw'. unfold written in *. f_equal. naive_solver.
  - apply Forall_cons in Hhs as [Hh Hhs]. cbn [apply_hunks]. split.
    + destruct (apply_hunk _ h out _) as [[o c]|] eqn:E; [|done].
      apply (apply_hunk_iff h acc) in E as (gap & rest1 & Hs & -> & Hwo & ->); [|done..].
      rewrite !app_assoc in Hp. apply proper_lines_app in Hp as (_ & Hp1 & _).
      intros Ha. rewrite !app_assoc in Ha. rewrite <- (app_assoc pre) in Ha.
      apply (IH (acc ++ gap ++ new_side (hunk_edits h))) in Ha
        as (script & rest' & Hr & -> & Hw'); [|done..].
      exists ((Keep <$> gap) ++ hunk_edits h ++ script), rest'.
      autorewrite with sides. rewrite <- !app_assoc in *. split; [|done].
      constructor; [done|]. rewrite Hs.
      rewrite !zlen_app, Z.add_assoc in Hr. done.
    + intros (script & rest' & Hr & -> & Hw').
      inversion Hr as [|? ? ? gap script' ? Hs Hr']; subst.
      autorewrite with sides in *. rewrite <- !app_assoc in *.
      assert (Hwo : written (acc ++ gap ++ new_side (hunk_edits h))
                      (concat (acc ++ gap ++ new_side (hunk_edits h)))).
      { eapply (written_app_l _ (new_side script')). by rewrite <- !app_assoc. }
      rewrite (proj2 (apply_hunk_iff h acc pre _ out _ _ Hh Hw Hp)
        (ex_intro _ gap (ex_intro _ (old_side script' ++ rest')
          (conj Hs (conj eq_refl (conj Hwo eq_refl)))))).
      assert (Hp' : proper_lines (old_side script' ++ rest')).
      { rewrite !app_assoc, <- (app_assoc _ (old_side script')) in Hp.
        by apply proper_lines_app in Hp as (_ & Hp & _). }
      replace (pre ++ gap ++ old_side (hunk_edits h) ++ old_side script' ++ rest')
        with ((pre ++ gap ++ old_side (hunk_edits h)) ++ old_side script' ++ rest')
        by (by rewrite <- !app_assoc).
      apply (IH (acc ++ gap ++ new_side (hunk_edits h))); [done..|].
      exists script', rest'. rewrite <- !app_assoc. split; [|done].
      by rewrite !zlen_app, Z.add_assoc, <- Hs.
Qed.

(** * Functional correctness of application *)

Lemma validate_text_ok text :
  validate_text text = Ok tt <->
  slen text <= MAX_TEXT_BYTES /\ (NUL ∉ text) /\ zlen (split_inclusive text) <= MAX_LINES /\
  Forall (fun line => slen (strip_newline line) <= MAX_LINE_BYTES) (split_inclusive text).
Proof.
  unfold validate_text. destruct (_ || _) eqn:E.
  - split; [done|]. intros (H1 & H2 & H3 & H4). exfalso.
    assert (existsb (fun line => MAX_LINE_BYTES <? slen (strip_newline line))
              (split_inclusive text) = false).
    { apply not_true_iff_false. rewrite existsb_exists. intros (x & Hx & Hlt).
      apply list_elem_of_In in Hx. rewrite Forall_forall in H4. specialize (H4 x Hx). lia. }
    assert (contains_char NUL text = false).
    { apply not_true_iff_false. by rewrite contains_char_iff. }
    rewrite !orb_true_iff in E. destruct E as [[[E|E]|E]|E]; congruence || lia.
  - split; [|done]. intros _. bool_hyps. repeat split; [done| |done|].
    + by apply contains_char_false.
    + apply Forall_forall. intros x Hx.
      destruct (decide (slen (strip_newline x) <= MAX_LINE_BYTES)) as [|Hn]; [done|].
      assert (existsb (fun line => MAX_LINE_BYTES <? slen (strip_newline line))
                (split_inclusive text) = true); [|congruence].
      apply existsb_exists. exists x. split; [by apply list_elem_of_In|lia].
Qed.

Lemma written_nil : written [] [].
Proof. by split; [constructor|]. Qed.

Lemma apply_parsed_iff target hs out :
  Forall hunk_wf hs ->
  apply_parsed target hs = Ok out <->
  exists script tail c,
    replays 0 hs script c /\
    split_inclusive target = old_side script ++ tail /\
    split_inclusive out = new_side script ++ tail /\
    validate_text out = Ok tt.
Proof.
  intros Hhs. unfold apply_parsed.
  pose proof (split_inclusive_proper target) as Hp.
  pose proof (fun o c => apply_hunks_iff hs [] [] (split_inclusive target) [] o c Hhs
                written_nil Hp) as Hh. cbn [app] in Hh. rewrite zlen_nil in Hh.
  split.
  - destruct (apply_hunks _ hs [] 0) as [[o c]|] eqn:E; [|done]. simpl.
    destruct (proj1 (Hh o c) eq_refl) as (script & tail & Hr & Hst & Hw). clear Hh.
    pose proof (replays_end _ _ _ _ Hr) as Hc. rewrite Z.add_0_l in Hc. subst c.
    rewrite Hst in *. rewrite zlen_app.
    destruct ((_ <? _) && open_line o) eqn:Eo; [done|].
    rewrite (proj2 (slice_get_app (old_side script) tail tail _)); [|split].
    2: done. 2: by exists []; rewrite app_nil_r.
    destruct (append_lines o tail) as [o'|] eqn:Ea; [|done]. simpl.
    destruct (validate_text o') as [[]|] eqn:Ev; [|done]. simpl. intros [= <-].
    exists script, tail, (zlen (old_side script)).
    split; [done|]. split; [done|]. split; [|done].
    assert (Hw' : written (new_side script ++ tail) o').
    { apply proper_lines_app in Hp as (_ & Ht & _).
      apply (append_gap_iff _ o tail o' Hw Ht). case_bool_decide as Hd; simpl; [done|].
      assert (0 < zlen tail).
      { destruct tail; [done|]. rewrite zlen_cons. pose proof (zlen_nonneg tail). lia. }
      rewrite (proj2 (Z.ltb_lt _ _)) in Eo by lia. simpl in Eo. by rewrite Eo. }
    destruct Hw' as (Hpn & -> & _). by apply split_inclusive_concat.
  - intros (script & tail & c & Hr & Hst & Hsn & Hv).
    pose proof (replays_end _ _ _ _ Hr) as Hc. rewrite Z.add_0_l in Hc. subst c.
    assert (Hw' : written (new_side script ++ tail) out).
    { split; [|split].
      - rewrite <- Hsn. apply split_inclusive_proper.
      - by rewrite <- Hsn, concat_split_inclusive.
      - by apply validate_text_ok in Hv as [? _]. }
    pose proof (written_app_l _ _ _ Hw') as Hw.
    rewrite (proj2 (Hh _ _) (ex_intro _ script (ex_intro _ tail
      (conj Hr (conj Hst Hw))))). simpl. rewrite Hst in *. rewrite zlen_app.
    apply proper_lines_app in Hp as (_ & Ht & _).
    apply (append_gap_iff _ _ tail out Hw Ht) in Hw'.
    rewrite (proj2 (slice_get_app (old_side script) tail tail _)); [|split].
    2: done. 2: by exists []; rewrite app_nil_r.
    destruct (bool_decide_reflect (tail = [])) as [->|Hne]; simpl in Hw'.
    + rewrite zlen_nil, (proj2 (Z.ltb_ge _ _)) by lia. simpl in *.
      injection Hw' as ->. by rewrite Hv.
    + destruct (open_line _); [done|]. rewrite andb_false_r, Hw'. simpl. by rewrite Hv.
Qed.

(** * What the parser guarantees *)

Definition has_change (h : PatchHunk) : Prop :=
  exists r, r ∈ ph_rows h /\ pr_prefix r <> SPACE.

(** The hunks lie one after the other in the source. *)
Inductive hunk_chain : Z -> list PatchHunk -> Z -> Prop :=
| chain_nil c : hunk_chain c [] c
| chain_cons c h hs c' :
    c <= ph_old_start h ->
    hunk_chain (ph_old_start h + zlen (old_side (hunk_edits h))) hs c' ->
    hunk_chain c (h :: hs) c'.

Lemma hunk_chain_snoc c hs c' h :
  hunk_chain c hs c' -> c' <= ph_old_start h ->
  hunk_chain c (hs ++ [h]) (ph_old_start h + zlen (old_side (hunk_edits h))).
Proof.
  induction 1 as [c|c h' hs c' Hle _ IH]; intros Hh; simpl.
  - by repeat constructor.
  - constructor; auto.
Qed.

Definition hunk_rows (hs : list PatchHunk) : Z := sum_Z ((fun h => zlen (ph_rows h)) <$> hs).

Record row_inv (old_count new_count : Z) (st : row_state) : Prop := {
  ri_wf : Forall row_wf (rows st);
  ri_consumed : consumed st = zlen (old_side (row_edit <$> rows st));
  ri_produced : produced st = zlen (new_side (row_edit <$> rows st));
  ri_old : consumed st <= old_count;
  ri_new : produced st <= new_count;
  ri_changed : changed st = true <-> exists r, r ∈ rows st /\ pr_prefix r <> SPACE;
}.

Lemma row_step_inv old_count new_count row marked st st' :
  proper_lines [row] -> row_inv old_count new_count st ->
  row_step old_count new_count row marked st = Ok st' ->
  row_inv old_count new_count st' /\ total_rows st' - zlen (rows st') = total_rows st - zlen (rows st).
Proof.
  intros Hrow Hi Hst. unfold row_step in Hst. destruct row as [|p text]; [done|].
  destruct (negb _ || _) eqn:Ep; [done|]. bool_hyps.
  match goal with H : ends_lf _ = true |- _ => apply ends_lf_iff in H as [t Ht] end.
  assert (Hsign : p = SPACE \/ p = MINUS \/ p = PLUS).
  { repeat match goal with H : _ || _ = true |- _ => apply orb_true_iff in H as [H|H] end;
      bool_hyps; auto. }
  assert (Hlf : exists t', text = t' ++ [LF] /\ LF ∉ t').
  { assert (p <> LF) by (destruct Hsign as [-> | [-> | ->]]; done).
    destruct t as [|p' t']; [injection Ht; congruence|]. injection Ht as <- ->.
    exists t'. split; [done|].
    inversion Hrow as [|? ? Hn Heq|t2 ? Ht2 ? Heq]; subst.
    - apply not_elem_of_cons in Hn as [_ Hn]. rewrite elem_of_app, list_elem_of_singleton in Hn.
      tauto.
    - change (p :: t' ++ [LF]) with ((p :: t') ++ [LF]) in Heq.
      apply app_inj_tail in Heq as [-> _]. by apply not_elem_of_cons in Ht2 as [_ ?]. }
  clear Hrow Ht. destruct Hlf as (t' & -> & Ht').
  assert (Htext : exists text', (if marked then
          match ok_or (strip_suffix [LF] (t' ++ [LF])) InvalidInput with
          | Ok text => if str_eqb text [] then Err InvalidInput else Ok text
          | Err e => Err e end else Ok (t' ++ [LF])) = Ok text' /\ proper_lines [text']
       \/ marked = true /\ t' = []).
  { destruct marked.
    - exists t'. assert (strip_suffix [LF] (t' ++ [LF]) = Some t') as ->
        by (by apply strip_suffix_Some). simpl.
      destruct (str_eqb t' []) eqn:E; [right; by apply str_eqb_eq in E|left].
      split; [done|]. apply proper_last; [|done]. intros ->. done.
    - exists (t' ++ [LF]). left. split; [done|by apply proper_line_full]. }
  destruct Htext as [text' [[Heq Hp]|[-> ->]]]; [|done].
  rewrite Heq in Hst. clear Heq.
  assert (Hr : row_wf {| pr_prefix := p; pr_text := text' |}) by (by split).
  pose proof (row_wf_cases _ Hr) as [_ Hc]. simpl in Hc.
  destruct Hi as [I1 I2 I3 I4 I5 I6].
  destruct (negb (p =? PLUS) && _) eqn:E1; [done|].
  destruct (negb (p =? MINUS) && _) eqn:E2; [done|]. injection Hst as <-.
  split; [|simpl; rewrite zlen_app, zlen_cons, zlen_nil; lia].
  assert (Hch : changed st || negb (p =? SPACE) = true <->
    exists r, r ∈ rows st ++ [{| pr_prefix := p; pr_text := text' |}] /\ pr_prefix r <> SPACE).
  { rewrite orb_true_iff, I6, negb_true_iff, Z.eqb_neq. setoid_rewrite elem_of_app.
    setoid_rewrite list_elem_of_singleton. naive_solver. }
  destruct Hc as [[-> He]|[[-> He]|[-> He]]]; simpl in E1, E2; constructor; simpl;
    rewrite ?fmap_app, ?old_side_app, ?new_side_app, ?zlen_app;
    rewrite ?Forall_app, ?Forall_singleton; cbn -[Z.add];
    rewrite ?He; cbn -[Z.add]; try done; bool_hyps;
    rewrite ?zlen_cons, ?zlen_nil; lia.
Qed.

Abbreviation single_lines := (Forall (fun l => proper_lines [l])).

Lemma rows_loop_inv old_count new_count lines st st' lines' :
  single_lines lines -> row_inv old_count new_count st ->
  rows_loop old_count new_count lines st = Ok (st', lines') ->
  row_inv old_count new_count st' /\ consumed st' = old_count /\ produced st' = new_count /\
  single_lines lines' /\ (length lines' <= length lines)%nat /\
  total_rows st' - zlen (rows st') = total_rows st - zlen (rows st) /\
  (total_rows st <= MAX_PATCH_ROWS -> total_rows st' <= MAX_PATCH_ROWS).
Proof.
  remember (length lines) as n eqn:Hn. revert lines st Hn.
  induction n as [n IH] using (well_founded_induction lt_wf).
  intros lines st -> Hl Hi.
  assert (Hstep : forall row marked rest, single_lines (row :: rest) ->
    (length rest < length lines)%nat -> total_rows st < MAX_PATCH_ROWS ->
    (let? st := row_step old_count new_count row marked st in
     rows_loop old_count new_count rest st) = Ok (st', lines') ->
    row_inv old_count new_count st' /\ consumed st' = old_count /\ produced st' = new_count /\
    single_lines lines' /\ (length lines' <= length lines)%nat /\
    total_rows st' - zlen (rows st') = total_rows st - zlen (rows st) /\
    (total_rows st <= MAX_PATCH_ROWS -> total_rows st' <= MAX_PATCH_ROWS)).
  { intros row marked rest [Hrow Hrest]%Forall_cons Hlt Ht.
    destruct (row_step _ _ row marked st) as [st1|] eqn:E; [|done].
    assert (total_rows st1 = total_rows st + 1).
    { unfold row_step in E. by res_inv. }
    apply row_step_inv in E as [Hi1 Ht1]; [|done..]. intros Hloop.
    eapply IH in Hloop as (? & ? & ? & ? & ? & ? & ?); [|done|reflexivity|done|done].
    split_and!; try done; lia. }
  destruct lines as [|row lines]; cbn [rows_loop];
    destruct (_ || _) eqn:Ec; try (destruct (MAX_PATCH_ROWS <=? _) eqn:Em; [done|]); [done| | |].
  - intros [= <- <-]. bool_hyps. destruct Hi. split_and!; try done; lia.
  - bool_hyps. destruct lines as [|next rest].
    + intros Hs. apply (Hstep row false []); [done|simpl; lia|lia|done].
    + destruct (str_eqb next MARKER) eqn:Ek; intros Hs.
      * apply (Hstep row true rest); [|simpl; lia|lia|done].
        apply Forall_cons in Hl as [? [? ?]%Forall_cons]. by constructor.
      * apply (Hstep row false (next :: rest)); [done|simpl; lia|lia|done].
  - intros [= <- <-]. bool_hyps. destruct Hi. split_and!; try done; lia.
Qed.

Record hunk_inv (st : hunk_state) : Prop := {
  hi_wf : Forall hunk_wf (hunks st);
  hi_chain : hunk_chain 0 (hunks st) (old_cursor st);
  hi_change : Forall has_change (hunks st);
  hi_rows : hs_total_rows st = hunk_rows (hunks st);
  hi_bound : hs_total_rows st <= MAX_PATCH_ROWS;
}.

Lemma coordinate_bounds token prefix s c :
  coordinate token prefix = Ok (s, c) -> 0 <= s <= MAX_LINES /\ 0 <= c <= MAX_LINES.
Proof.
  unfold coordinate. destruct (strip_prefix _ _); simpl; [|done].
  destruct (match split_once _ _ with Some p => p | None => _ end) as [a b].
  destruct (_ || _); [done|].
  destruct (parse_usize a) as [x|] eqn:Ex; simpl; [|done].
  destruct (parse_usize b) as [y|] eqn:Ey; simpl; [|done].
  destruct (_ || _) eqn:Eb; [done|]. intros [= <- <-].
  apply parse_unsigned_bounds in Ex, Ey. bool_hyps.
  destruct (Z.eqb_spec y 0); simpl in *; bool_hyps; lia.
Qed.

Lemma parse_header_bounds header os oc ns nc :
  parse_header header = Ok ((os, oc), (ns, nc)) -> 0 <= os /\ 0 <= oc /\ 0 <= ns /\ 0 <= nc.
Proof.
  unfold parse_header. destruct (negb (ends_lf header)); [done|].
  destruct (strip_prefix _ _); simpl; [|done].
  destruct (split_once _ _) as [[co su]|]; simpl; [|done].
  destruct (negb _ && _); [done|]. destruct (split_once _ co) as [[a b]|]; simpl; [|done].
  destruct (coordinate a _) as [[? ?]|] eqn:Ea; [|done].
  destruct (coordinate b _) as [[? ?]|] eqn:Eb; [|done]. intros [= <- <- <- <-].
  apply coordinate_bounds in Ea, Eb. lia.
Qed.

Lemma row_inv_initial oc nc u t :
  0 <= oc -> 0 <= nc ->
  row_inv oc nc {| consumed := 0; produced := 0; changed := false; rows := [];
                   unterminated_output := u; total_rows := t |}.
Proof.
  intros. constructor; simpl; [constructor|done..|]. split; [done|].
  intros (r & ?%elem_of_nil & _). done.
Qed.

Lemma hunk_step_inv header lines st st' lines' :
  single_lines lines -> hunk_inv st ->
  hunk_step header lines st = Ok (st', lines') ->
  hunk_inv st' /\ single_lines lines' /\ (length lines' <= length lines)%nat.
Proof.
  intros Hl [I1 I2 I3 I4 I5] Hs. unfold hunk_step in Hs.
  destruct (MAX_LINES <=? _); [done|].
  destruct (parse_header header) as [[[os oc] [ns nc]]|] eqn:Eh; [|done].
  apply parse_header_bounds in Eh as (_ & Hoc & _ & Hnc).
  destruct (os <? old_cursor st) eqn:Eo; [done|].
  destruct (negb _ || _); [done|].
  destruct (rows_loop oc nc lines _) as [[rs l']|] eqn:E; [|done].
  destruct (negb (changed rs)) eqn:Ec; [done|]. injection Hs as <- <-. bool_hyps.
  apply rows_loop_inv in E as ([J1 J2 J3 J4 J5 J6] & <- & <- & Hl' & Hlen & Ht & Hb);
    [|done|by apply row_inv_initial].
  simpl in Ht, Hb. rewrite zlen_nil in Ht. split; [|done]. constructor; simpl.
  - by rewrite Forall_app, Forall_singleton.
  - rewrite J2. by apply (hunk_chain_snoc _ _ (old_cursor st)
                            {| ph_old_start := os; ph_rows := rows rs |}).
  - rewrite Forall_app, Forall_singleton. split; [done|]. by apply J6.
  - unfold hunk_rows in *. rewrite fmap_app, sum_Z_app. simpl. lia.
  - by apply Hb.
Qed.

Lemma hunks_loop_inv fuel lines st :
  single_lines lines -> hunk_inv st -> (length lines < fuel)%nat ->
  match hunks_loop fuel lines st with
  | Ok st' => hunk_inv st'
  | Err stopped => exists e, stopped = Error e
  end.
Proof.
  revert lines st. induction fuel as [|fuel IH]; intros lines st Hl Hi Hf; [lia|].
  cbn [hunks_loop]. destruct lines as [|header lines]; [done|].
  apply Forall_cons in Hl as [_ Hl].
  destruct (hunk_step header lines st) as [[st1 l1]|e] eqn:E; [|eauto].
  apply hunk_step_inv in E as (? & ? & ?); [|done..]. apply IH; [done..|simpl in *; lia].
Qed.

Lemma file_header_sub prefix lines lines' :
  file_header prefix lines = Ok lines' -> exists header, lines = header :: lines'.
Proof.
  unfold file_header. destruct lines as [|h lines]; [done|].
  destruct (_ || _); [done|]. intros [= <-]. eauto.
Qed.

Lemma skip_preamble_sub lines lines' :
  skip_preamble lines = Ok lines' -> exists pre, lines = pre ++ lines'.
Proof.
  unfold skip_preamble. destruct lines as [|h rest]; [by intros [= <-]; exists []|].
  destruct (starts_with _ h); [|by intros [= <-]; exists []].
  destruct (negb (ends_lf h)); [done|].
  destruct rest as [|l rest']; [by intros [= <-]; exists [h]|].
  destruct (starts_with _ l); intros [= <-]; [by exists [h; l]|by exists [h]].
Qed.

Lemma headers_sub lines lines' :
  (let? lines := skip_preamble lines in
   let? lines := file_header (u "--- ") lines in
   file_header (u "+++ ") lines) = Ok lines' ->
  exists pre, lines = pre ++ lines'.
Proof.
  destruct (skip_preamble lines) as [l1|] eqn:E1; [|done].
  destruct (file_header _ l1) as [l2|] eqn:E2; [|done]. intros E3.
  apply skip_preamble_sub in E1 as [p1 ->].
  apply file_header_sub in E2 as [h1 ->], E3 as [h2 ->].
  exists (p1 ++ [h1; h2]). by rewrite <- app_assoc.
Qed.

Lemma hunk_inv_initial : hunk_inv initial_hunk_state.
Proof. repeat constructor. done. Qed.

(** The parser always answers, and what it accepts is well formed. *)
Lemma parse_patch_spec patch :
  match parse_patch patch with
  | Ok hs => hs <> [] /\ Forall hunk_wf hs /\ Forall has_change hs /\
             (exists c, hunk_chain 0 hs c) /\ hunk_rows hs <= MAX_PATCH_ROWS
  | Err stopped => exists e, stopped = Error e
  end.
Proof.
  unfold parse_patch, parse_lines.
  pose proof (proper_lines_single _ (split_inclusive_proper patch)) as Hl.
  destruct (match skip_preamble _ with Ok x => _ | Err err_ => _ end) as [lines|e] eqn:E;
    [|eauto].
  apply headers_sub in E as [pre Epre]. rewrite Epre in Hl.
  apply Forall_app in Hl as [_ Hl].
  pose proof (hunks_loop_inv (S (length lines)) lines _ Hl hunk_inv_initial
                ltac:(lia)) as Hh.
  destruct (hunks_loop _ lines _) as [st|stopped]; [|done].
  destruct Hh as [I1 I2 I3 I4 I5]. case_bool_decide; [eauto|].
  rewrite I4 in I5. eauto 10.
Qed.


(** * Errors of the parser *)

Definition syntax_error (e : TextDiffError) : Prop := e = InvalidInput \/ e = ResourceLimit.

(** Follow a computation that returned [Err]. *)
Ltac err_inv :=
  repeat match goal with
  | H : Ok _ = Err _ |- _ => discriminate H
  | H : Err _ = Err _ |- _ => injection H as H; subst
  | H : (match ?m with _ => _ end) = Err _ |- _ =>
      let E := fresh "E" in destruct m eqn:E
  end.

Lemma ok_or_err {A} (o : option A) (e e' : TextDiffError) : ok_or o e = Err e' -> e' = e.
Proof. destruct o; [done|]. by intros [= <-]. Qed.

Lemma coordinate_error token prefix e : coordinate token prefix = Err e -> e = InvalidInput.
Proof. unfold coordinate. intros H. err_inv; eauto using ok_or_err. Qed.

Lemma parse_header_error header e : parse_header header = Err e -> e = InvalidInput.
Proof. unfold parse_header. intros H. err_inv; eauto using ok_or_err, coordinate_error. Qed.

Lemma row_step_error oc nc row marked st e : row_step oc nc row marked st = Err e -> e = InvalidInput.
Proof. unfold row_step. intros H. err_inv; eauto using ok_or_err. Qed.

Lemma rows_loop_error oc nc lines st e : rows_loop oc nc lines st = Err e -> syntax_error e.
Proof.
  remember (length lines) as n eqn:Hn. revert lines st Hn.
  induction n as [n IH] using (well_founded_induction lt_wf). intros lines st -> H.
  destruct lines as [|row lines]; cbn [rows_loop] in H;
    [err_inv; solve [by left|by right]|].
  destruct lines as [|next rest]; err_inv;
    try (left; by eapply row_step_error); try (by right);
    (eapply IH; [|reflexivity|eassumption]); simpl; lia.
Qed.

Lemma hunk_step_error header lines st e : hunk_step header lines st = Err e -> syntax_error e.
Proof.
  unfold hunk_step. intros H.
  err_inv; solve [by left|by right|left; by eapply parse_header_error|by eapply rows_loop_error].
Qed.

Lemma parse_patch_error patch e : parse_patch patch = Err (Error e) -> syntax_error e.
Proof.
  unfold parse_patch, parse_lines.
  destruct (match skip_preamble _ with Ok x => _ | Err err_ => _ end) as [lines|e'] eqn:E.
  - clear E. generalize (S (length lines)) initial_hunk_state. intros fuel st H.
    assert (Hh : forall fuel lines st, hunks_loop fuel lines st = Err (Error e) -> syntax_error e).
    { clear. induction fuel as [|fuel IH]; [done|]. intros [|h l] st; simpl; [done|].
      destruct (hunk_step h l st) as [[st1 l1]|] eqn:Es; [apply IH|].
      intros [= <-]. by eapply hunk_step_error. }
    err_inv; [by left|]. eapply Hh; eassumption.
  - intros [= <-]. left. unfold skip_preamble, file_header in E. by err_inv.
Qed.

(** * Main theorems *)

Lemma apply_patch_parsed target patch :
  patch <> [] -> slen patch <= MAX_PATCH -> (NUL ∉ patch) ->
  validate_text target = Ok tt ->
  apply_patch target patch = let? hs := parse_patch patch in apply_parsed target hs.
Proof.
  intros Hne Hl Hn Hv. unfold apply_patch. rewrite Hv. simpl.
  rewrite (proj2 (Z.ltb_ge _ _)) by done.
  destruct (contains_char NUL patch) eqn:E; [by apply contains_char_iff in E|]. simpl.
  by rewrite bool_decide_eq_false_2.
Qed.

Lemma apply_patch_ok_inv target patch out :
  patch <> [] -> apply_patch target patch = Ok out ->
  validate_text target = Ok tt /\ slen patch <= MAX_PATCH /\ (NUL ∉ patch) /\
  exists hs, parse_patch patch = Ok hs /\ Forall hunk_wf hs /\ apply_parsed target hs = Ok out.
Proof.
  intros Hne Ha. unfold apply_patch in Ha.
  destruct (validate_text target) as [[]|] eqn:Hv; [|done]. simpl in Ha.
  destruct (_ || _) eqn:E; [done|]. rewrite bool_decide_eq_false_2 in Ha by done.
  destruct (parse_patch patch) as [hs|] eqn:Ep; [|done]. bool_hyps.
  pose proof (parse_patch_spec patch) as Hp. rewrite Ep in Hp.
  destruct Hp as (_ & Hp & _).
  split_and!; [done|done|by apply contains_char_false|exists hs; by split_and!].
Qed.

(** C1. Applying a non-empty patch succeeds with [out] exactly when target and
    patch pass the size checks and the parsed hunks, replayed at their declared
    positions over the unchanged lines between them, form an edit script whose
    old side is the target and whose new side is [out], line for line. *)
Theorem apply_patch_refines target patch out :
  patch <> [] ->
  apply_patch target patch = Ok out <->
  validate_text target = Ok tt /\ slen patch <= MAX_PATCH /\ (NUL ∉ patch) /\
  exists hs script tail c,
    parse_patch patch = Ok hs /\
    replays 0 hs script c /\
    split_inclusive target = old_side script ++ tail /\
    split_inclusive out = new_side script ++ tail /\
    validate_text out = Ok tt.
Proof.
  intros Hne. split.
  - intros (Hv & Hl & Hn & hs & Hp & Hwf & Ha)%apply_patch_ok_inv; [|done].
    apply apply_parsed_iff in Ha as (script & tail & c & ?); [|done].
    split_and!; [done..|]. exists hs, script, tail, c. by split.
  - intros (Hv & Hl & Hn & hs & script & tail & c & Hp & ?).
    rewrite apply_patch_parsed, Hp by done.
    pose proof (parse_patch_spec patch) as Hw. rewrite Hp in Hw. destruct Hw as (_ & Hw & _).
    apply apply_parsed_iff; [done|eauto].
Qed.

Definition example_patch : str := u "--- a
+++ b
@@ -1,2 +1,2 @@
 x
-y
\ No newline at end of file
+z
\ No newline at end of file
".
Definition example_before : str := u "x
y".
Definition example_after : str := u "x
z".

Lemma apply_patch_refines_witness :
  exists hs script tail c,
    parse_patch example_patch = Ok hs /\ replays 0 hs script c /\
    split_inclusive example_before = old_side script ++ tail /\
    split_inclusive example_after = new_side script ++ tail /\
    validate_text example_after = Ok tt.
Proof.
  destruct (proj1 (apply_patch_refines example_before example_patch example_after
    ltac:(vm_compute; discriminate)) ltac:(vm_compute; reflexivity)) as (_ & _ & _ & H).
  exact H.
Defined.

Lemma apply_patch_total target patch : answers (apply_patch target patch).
Proof.
  unfold apply_patch. destruct (validate_text target) as [[]|]; [|done]. simpl.
  destruct (_ || _); [done|]. case_bool_decide; [done|].
  pose proof (parse_patch_spec patch) as Hp.
  destruct (parse_patch patch) as [hs|s]; [|by destruct Hp as [e ->]].
  destruct Hp as (_ & Hwf & _). unfold apply_parsed.
  pose proof (split_inclusive_proper target) as Hs.
  destruct (apply_hunks _ hs [] 0) as [[o c]|] eqn:E; [|done]. simpl.
  pose proof (apply_hunks_iff hs [] [] (split_inclusive target) [] o c Hwf written_nil Hs) as Hh.
  apply Hh in E as (script & tail & Hr & Hst & _). apply replays_end in Hr.
  rewrite zlen_nil, Z.add_0_l in Hr. subst c.
  destruct ((_ <? _) && _); [done|]. rewrite Hst, zlen_app.
  rewrite (proj2 (slice_get_app (old_side script) tail tail _)); [|split].
  2: done. 2: by exists []; rewrite app_nil_r.
  destruct (append_lines o tail) as [o'|]; [|done]. simpl. by destruct (validate_text o') as [[]|].
Qed.

(** Applying a patch always answers: no slice of the source is out of range
    and no loop runs out of fuel, whatever the target and the patch. *)
Theorem apply_patch_answers target patch : answers (apply_patch target patch).
Proof. apply apply_patch_total. Qed.

(** ** Undoing a patch *)

Definition invert_row (r : PatchRow) : PatchRow :=
  {| pr_prefix := if pr_prefix r =? PLUS then MINUS
                  else if pr_prefix r =? MINUS then PLUS else pr_prefix r;
     pr_text := pr_text r |}.

(** The inverse hunks sit at the positions of the new text. *)
Fixpoint invert_hunks (delta : Z) (hs : list PatchHunk) : list PatchHunk :=
  match hs with
  | [] => []
  | h :: hs =>
    {| ph_old_start := ph_old_start h + delta; ph_rows := invert_row <$> ph_rows h |}
    :: invert_hunks (delta + zlen (new_side (hunk_edits h)) - zlen (old_side (hunk_edits h))) hs
  end.

Definition invert_edit (e : edit) : edit :=
  match e with Keep l => Keep l | Del l => Ins l | Ins l => Del l end.

Lemma old_side_invert script : old_side (invert_edit <$> script) = new_side script.
Proof.
  induction script as [|e script IH]; [done|]. rewrite fmap_cons.
  unfold old_side, new_side in *. cbn. rewrite IH. by destruct e.
Qed.

Lemma new_side_invert script : new_side (invert_edit <$> script) = old_side script.
Proof.
  induction script as [|e script IH]; [done|]. rewrite fmap_cons.
  unfold old_side, new_side in *. cbn. rewrite IH. by destruct e.
Qed.

Lemma row_edit_invert r : row_wf r -> row_edit (invert_row r) = invert_edit (row_edit r).
Proof.
  intros [[Hp|[Hp|Hp]] _]; unfold row_edit, invert_row; simpl; by rewrite Hp.
Qed.

Lemma hunk_edits_invert h s :
  hunk_wf h ->
  hunk_edits {| ph_old_start := s; ph_rows := invert_row <$> ph_rows h |}
  = invert_edit <$> hunk_edits h.
Proof.
  intros Hh. unfold hunk_edits. simpl. rewrite <- !list_fmap_compose.
  apply list_fmap_ext. intros i r Hr. simpl. apply row_edit_invert.
  by eapply (Forall_lookup_1 _ _ _ _ Hh).
Qed.

Lemma invert_hunks_wf delta hs : Forall hunk_wf hs -> Forall hunk_wf (invert_hunks delta hs).
Proof.
  intros Hhs. revert delta. induction Hhs as [|h hs Hh _ IH]; intros delta; simpl;
    constructor; [|done].
  apply Forall_fmap. eapply Forall_impl; [exact Hh|]. intros r [Hp Ht]. split; [|done]. simpl.
  destruct Hp as [-> | [-> | ->]]; simpl; auto.
Qed.

Lemma replays_invert c hs script c' delta :
  Forall hunk_wf hs -> replays c hs script c' ->
  replays (c + delta) (invert_hunks delta hs) (invert_edit <$> script)
    (c' + delta + zlen (new_side script) - zlen (old_side script)).
Proof.
  intros Hwf Hr. revert delta. induction Hr as [c|c h hs gap script c' Hs _ IH]; intros delta.
  - unfold new_side, old_side. simpl. rewrite zlen_nil.
    replace (c + delta + 0 - 0) with (c + delta) by lia. constructor.
  - apply Forall_cons in Hwf as [Hh Hhs]. simpl. rewrite !fmap_app.
    rewrite <- (hunk_edits_invert h (ph_old_start h + delta)) by done.
    replace (invert_edit <$> (Keep <$> gap)) with (Keep <$> gap)
      by (rewrite <- list_fmap_compose; done).
    constructor; simpl; [lia|].
    rewrite hunk_edits_invert, old_side_invert by done.
    autorewrite with sides. rewrite !zlen_app.
    specialize (IH Hhs (delta + zlen (new_side (hunk_edits h)) - zlen (old_side (hunk_edits h)))).
    match goal with |- replays ?a _ _ ?b => match type of IH with replays ?a' _ _ ?b' =>
      replace a with a' by lia; replace b with b' by lia end end.
    done.
Qed.

(** A successful application can be undone: the parsed hunks with added and
    deleted rows exchanged, placed at the positions of the new text, turn the
    result back into the target. *)
Theorem apply_patch_undo target patch hs out :
  patch <> [] -> parse_patch patch = Ok hs -> apply_patch target patch = Ok out ->
  apply_parsed out (invert_hunks 0 hs) = Ok target.
Proof.
  intros Hne Hp (Hv & _ & _ & hs' & Hp' & Hwf & Ha)%apply_patch_ok_inv; [|done].
  assert (hs' = hs) as -> by congruence.
  apply apply_parsed_iff in Ha as (script & tail & c & Hr & Hst & Hsn & Hvo); [|done].
  apply apply_parsed_iff; [by apply invert_hunks_wf|].
  apply (replays_invert _ _ _ _ 0) in Hr; [|done].
  exists (invert_edit <$> script), tail. eexists. split; [exact Hr|].
  by rewrite old_side_invert, new_side_invert.
Qed.

Lemma apply_patch_undo_witness :
  exists hs, parse_patch example_patch = Ok hs /\
             apply_parsed example_after (invert_hunks 0 hs) = Ok example_before.
Proof.
  eexists. split; [vm_compute; reflexivity|].
  apply (apply_patch_undo example_before example_patch);
    [vm_compute; discriminate|vm_compute; reflexivity|vm_compute; reflexivity].
Defined.

(** A conflict is reported only for a patch that parses and that no edit
    script can place on the target within the limits: syntax errors of any hunk
    take precedence over mismatches with the target. *)
Theorem apply_patch_conflict target patch :
  apply_patch target patch = Err (Error PatchConflict) ->
  exists hs, parse_patch patch = Ok hs /\
    ~ exists script tail c out,
        replays 0 hs script c /\
        split_inclusive target = old_side script ++ tail /\
        split_inclusive out = new_side script ++ tail /\
        validate_text out = Ok tt.
Proof.
  intros Ha. pose proof Ha as Ha'. unfold apply_patch in Ha.
  destruct (validate_text target) as [[]|e] eqn:Hv; simpl in Ha.
  2: { unfold validate_text in Hv. by destruct (_ || _); simplify_eq. }
  destruct (_ || _) eqn:E; [done|]. case_bool_decide; [done|].
  destruct (parse_patch patch) as [hs|s] eqn:Ep.
  - exists hs. split; [done|]. intros (script & tail & c & out & Hs).
    pose proof (parse_patch_spec patch) as Hw. rewrite Ep in Hw. destruct Hw as (_ & Hw & _).
    assert (apply_parsed target hs = Ok out); [|congruence].
    apply apply_parsed_iff; [done|eauto].
  - injection Ha as ->. apply parse_patch_error in Ep as [|]; done.
Qed.

Lemma apply_patch_conflict_witness :
  exists hs, parse_patch example_patch = Ok hs /\
    ~ exists script tail c out,
        replays 0 hs script c /\
        split_inclusive (u "wrong") = old_side script ++ tail /\
        split_inclusive out = new_side script ++ tail /\
        validate_text out = Ok tt.
Proof. apply (apply_patch_conflict (u "wrong") example_patch). vm_compute. reflexivity. Defined.

(** What the parser accepts: a non-empty list of hunks in source order, each
    with a changed row, whose rows carry one proper line each, at most
    [MAX_PATCH_ROWS] in all. *)
Theorem parse_patch_well_formed patch hs :
  parse_patch patch = Ok hs ->
  hs <> [] /\ Forall hunk_wf hs /\ Forall has_change hs /\
  (exists c, hunk_chain 0 hs c) /\ hunk_rows hs <= MAX_PATCH_ROWS.
Proof. intros Hp. pose proof (parse_patch_spec patch) as Hs. by rewrite Hp in Hs. Qed.

Lemma parse_patch_well_formed_witness :
  exists hs, parse_patch example_patch = Ok hs /\ hunk_rows hs <= MAX_PATCH_ROWS.
Proof.
  eexists. split; [vm_compute; reflexivity|].
  eapply (parse_patch_well_formed example_patch). vm_compute. reflexivity.
Defined.
