(* ===== verification/Paging.v ===== *)
(** Validation and paging of the comparison engine's output:
    [crates/application/src/text_diff/paging.rs].

    [changes] walks the patch once; its local variables are the fields of
    [walk_state], those captured by the closure [finish] are [page_state].
    The lengths of JSON encodings ([serde_json]) are operations of the class
    [JsonSizes]. *)

From S2P Require Import Prelude Utf8 Strings TextDiff.

Definition PAGE_BYTES : Z := 240 * 1024.
Definition CHUNK_BYTES : Z := 32 * 1024.
Definition NO_NEWLINE : str := u "\ No newline at end of file" ++ [LF].

Class JsonSizes := {
  (** [serde_json::to_vec(&fragment).map(len)] *)
  json_fragment_len : DiffFragment -> option Z;
  (** [serde_json::to_string(line).map(len)] *)
  json_string_len : str -> option Z;
}.

(** * Chunks of the original texts *)

Fixpoint chunks_loop (fuel : nat) (text : str) (offset : Z)
  : result (stop TextDiffError) (list str) :=
  if offset <? slen text then
    match fuel with
    | O => Err OutOfFuel
    | S fuel =>
      let? e := align_down 3 text (Z.min (offset + CHUNK_BYTES) (slen text)) in
      match str_range text offset e with
      | None => Err Panic
      | Some piece => let? rest := chunks_loop fuel text e in Ok (piece :: rest)
      end
    end
  else Ok [].

Definition chunks (text : str) : result (stop TextDiffError) (list str) :=
  if bool_decide (text = []) then Ok [[]] else chunks_loop (length text) text 0.

(** * Engine output *)

Inductive DiffSide := SideBefore | SideAfter.
#[export] Instance DiffSide_eq_dec : EqDecision DiffSide.
Proof. solve_decision. Defined.
#[export] Program Instance DiffSide_countable : Countable DiffSide :=
  inj_countable' (fun s => match s with SideBefore => false | SideAfter => true end)
    (fun b : bool => if b then SideAfter else SideBefore) _.
Next Obligation. by intros []. Qed.

Record SourceLineHighlights := {
  hl_side : DiffSide; hl_line_index : Z; hl_ranges : list ScalarRange;
}.
Record ComputedDiff := { cd_patch : str; cd_inline_changes : list SourceLineHighlights }.

Abbreviation annotations_map := (gmap (DiffSide * Z) (list ScalarRange)).

(** The scalar ranges of one line: increasing, non-empty, inside the line. *)
Fixpoint check_ranges (scalar_count e : Z) (ranges : list ScalarRange)
  : result TextDiffError unit :=
  match ranges with
  | [] => Ok tt
  | (start, next) :: ranges =>
    if (start <? e) || (next <=? start) || (scalar_count <? next) then Err Internal
    else check_ranges scalar_count next ranges
  end.

(** One iteration of the annotation loop: total ranges and the map. *)
Definition annotate (old_lines new_lines : list str) (change : SourceLineHighlights)
  (st : Z * annotations_map) : result TextDiffError (Z * annotations_map) :=
  let '(total_ranges, annotations) := st in
  let? total_ranges := ok_or (checked_add total_ranges (zlen (hl_ranges change))) ResourceLimit in
  if (MAX_INLINE_RANGES <? total_ranges) || (MAX_PAGE_INLINE_RANGES <? zlen (hl_ranges change))
  then Err ResourceLimit else
  let source := match hl_side change with SideBefore => old_lines | SideAfter => new_lines end in
  let? line := ok_or (index_get source (hl_line_index change)) Internal in
  let? _ := check_ranges (zlen line) 0 (hl_ranges change) in
  match annotations !! (hl_side change, hl_line_index change) with
  | Some _ => Err Internal
  | None => Ok (total_ranges,
                <[(hl_side change, hl_line_index change) := hl_ranges change]> annotations)
  end.

Fixpoint annotate_all (old_lines new_lines : list str) (l : list SourceLineHighlights)
  (st : Z * annotations_map) : result TextDiffError (Z * annotations_map) :=
  match l with
  | [] => Ok st
  | c :: l => let? st := annotate old_lines new_lines c st in
              annotate_all old_lines new_lines l st
  end.

(** * Parts and pages *)

Record Part := {
  pt_before : Z; pt_after : Z; pt_before_count : Z; pt_after_count : Z; pt_body : str;
  pt_rows : Z; pt_encoded : Z; pt_range_count : Z; pt_inline_changes : list InlineChange;
}.

Definition part_new (before after : Z) : Part :=
  {| pt_before := before; pt_after := after; pt_before_count := 0; pt_after_count := 0;
     pt_body := []; pt_rows := 0; pt_encoded := 0; pt_range_count := 0;
     pt_inline_changes := [] |}.

Definition part_finish (p : Part) : DiffFragment :=
  let before_start := if pt_before_count p =? 0 then saturating_sub (pt_before p) 1
                      else pt_before p in
  let after_start := if pt_after_count p =? 0 then saturating_sub (pt_after p) 1
                     else pt_after p in
  {| df_patch := u "--- before" ++ [LF] ++ u "+++ after" ++ [LF]
       ++ u "@@ -" ++ show_Z before_start ++ u "," ++ show_Z (pt_before_count p)
       ++ u " +" ++ show_Z after_start ++ u "," ++ show_Z (pt_after_count p)
       ++ u " @@" ++ [LF] ++ pt_body p;
     df_before_start := before_start; df_after_start := after_start;
     df_before_count := pt_before_count p; df_after_count := pt_after_count p;
     df_inline_changes := pt_inline_changes p |}.

Record page_state := {
  ps_pages : list (list DiffFragment); ps_page : list DiffFragment;
  ps_rows : Z; ps_bytes : Z; ps_ranges : Z;
}.

Section changes.
Context `{JsonSizes}.

(** The closure [finish]. *)
Definition finish (part : Part) (ps : page_state) : result TextDiffError page_state :=
  if pt_rows part =? 0 then Err Internal else
  let fragment := part_finish part in
  let? bytes := ok_or (json_fragment_len fragment) Internal in
  if (PAGE_BYTES <? bytes) || (MAX_PAGE_INLINE_RANGES <? pt_range_count part)
    then Err ResourceLimit else
  let ps :=
    if negb (bool_decide (ps_page ps = []))
      && ((400 <? ps_rows ps + pt_rows part) || (PAGE_BYTES <? ps_bytes ps + bytes)
          || (MAX_PAGE_INLINE_RANGES <? ps_ranges ps + pt_range_count part))
      then {| ps_pages := ps_pages ps ++ [ps_page ps]; ps_page := [];
        ps_rows := 0; ps_bytes := 0; ps_ranges := 0 |}
    else ps in
  Ok {| ps_pages := ps_pages ps; ps_page := ps_page ps ++ [fragment];
    ps_rows := ps_rows ps + pt_rows part; ps_bytes := ps_bytes ps + bytes;
    ps_ranges := ps_ranges ps + pt_range_count part |}.

Definition finish_option (part : option Part) (ps : page_state)
  : result TextDiffError page_state :=
  match part with Some part => finish part ps | None => Ok ps end.

(** A coordinate of a hunk header. *)
Definition range (token : option str) (prefix : char) : result TextDiffError (Z * Z) :=
  let? token := ok_or (token ≫= strip_prefix [prefix]) Internal in
  let '(start, count) :=
    match split_once (u ",") token with Some p => p | None => (token, u "1") end in
  let? start := ok_or (parse_usize start) Internal in
  let? count := ok_or (parse_usize count) Internal in
  if (MAX_LINES + 1 <? start) || (MAX_LINES <? count) then Err Internal
  else Ok (start, count).

Record walk_state := {
  w_ps : page_state; w_part : option Part; w_annotations : annotations_map;
  w_before : Z; w_after : Z; w_old_remaining : Z; w_new_remaining : Z;
  w_old_cursor : Z; w_new_cursor : Z; w_additions : Z; w_deletions : Z;
  w_saw_hunk : bool; w_hunk_changed : bool;
}.

Section walk.
Context (old_lines new_lines : list str).

(** A line that starts with [@@ ]. *)
Definition header_step (line : str) (w : walk_state) : result TextDiffError walk_state :=
  if (w_saw_hunk w && negb (w_hunk_changed w))
    || negb (w_old_remaining w =? 0) || negb (w_new_remaining w =? 0)
    then Err Internal else
  let? ps := finish_option (w_part w) (w_ps w) in
  let tokens := split_ascii_whitespace line in
  if negb (bool_decide (tokens !! 0%nat = Some (u "@@"))) then Err Internal else
  let? (old, old_count) := range (tokens !! 1%nat) (ch "-") in
  let? (new, new_count) := range (tokens !! 2%nat) (ch "+") in
  if negb (bool_decide (tokens !! 3%nat = Some (u "@@")))
    || negb (bool_decide (tokens !! 4%nat = None))
    then Err Internal else
  let before := old + (if old_count =? 0 then 1 else 0) in
  let after := new + (if new_count =? 0 then 1 else 0) in
  let? old_offset := ok_or (checked_sub before 1) Internal in
  let? new_offset := ok_or (checked_sub after 1) Internal in
  let? old_gap := ok_or (slice_get old_lines (w_old_cursor w) old_offset) Internal in
  let? new_gap := ok_or (slice_get new_lines (w_new_cursor w) new_offset) Internal in
  if negb (bool_decide (old_gap = new_gap)) then Err Internal
  else Ok {| w_ps := ps; w_part := Some (part_new before after);
    w_annotations := w_annotations w; w_before := before; w_after := after;
    w_old_remaining := old_count; w_new_remaining := new_count;
    w_old_cursor := old_offset; w_new_cursor := new_offset;
    w_additions := w_additions w; w_deletions := w_deletions w;
    w_saw_hunk := true; w_hunk_changed := false |}.

Definition serialized_highlight_size (ranges : list ScalarRange) : Z :=
  64 + zlen ranges * 24.

(** The annotation a changed row consumes. *)
Definition take_annotation (prefix : char) (w : walk_state)
  : result TextDiffError (option (list ScalarRange) * annotations_map) :=
  let take key :=
    match w_annotations w !! key with
    | Some ranges => Ok (Some ranges, delete key (w_annotations w))
    | None => Err Internal
    end in
  if prefix =? ch "-" then take (SideBefore, w_old_cursor w)
  else if prefix =? ch "+" then take (SideAfter, w_new_cursor w)
  else Ok (None, w_annotations w).

(** The row's effect on the part it is added to. *)
Definition part_add (p : Part) (prefix : char) (line : str) (no_newline : bool)
  (ranges : option (list ScalarRange)) (encoded range_count : Z) : Part :=
  {| pt_before := pt_before p; pt_after := pt_after p;
    pt_before_count := pt_before_count p + (if prefix =? ch "+" then 0 else 1);
    pt_after_count := pt_after_count p + (if prefix =? ch "-" then 0 else 1);
    pt_body := pt_body p ++ line ++ (if no_newline then NO_NEWLINE else []);
    pt_rows := pt_rows p + 1;
    pt_encoded := pt_encoded p + encoded;
    pt_range_count := pt_range_count p + range_count;
    pt_inline_changes := pt_inline_changes p ++
    match ranges with
    | Some ranges => [{| ic_row_index := pt_rows p mod 2 ^ 32; ic_ranges := ranges |}]
    | None => []
    end |}.

(** Any other line; [no_newline] when the next line is the marker. *)
Definition row_step (line : str) (no_newline : bool) (w : walk_state)
  : result TextDiffError walk_state :=
  match w_part w, line with
  | None, _ => Err Internal
  | _, [] => Err Internal
  | Some part, prefix :: text =>
    if negb ((prefix =? ch " ") || (prefix =? ch "+") || (prefix =? ch "-"))
      || negb (ends_lf line)
      then Err Internal else
    let source_line := if no_newline then strip_newline text else text in
    if negb (prefix =? ch "+")
      && negb (bool_decide (index_get old_lines (w_old_cursor w) = Some source_line))
      then Err Internal else
    if negb (prefix =? ch "-")
      && negb (bool_decide (index_get new_lines (w_new_cursor w) = Some source_line))
      then Err Internal else
    let? (ranges, annotations) := take_annotation prefix w in
    let range_count := match ranges with Some r => zlen r | None => 0 end in
    let? line_len := ok_or (json_string_len line) Internal in
    let encoded := line_len
      + match ranges with Some r => serialized_highlight_size r | None => 0 end
      + (if no_newline then 40 else 0) in
    let? (part, ps) :=
      if (400 <=? pt_rows part) || (PAGE_BYTES <? pt_encoded part + encoded + 1024)
        || (MAX_PAGE_INLINE_RANGES <? pt_range_count part + range_count)
        then let? ps := finish part (w_ps w) in
          Ok (part_new (w_before w) (w_after w), ps)
      else Ok (part, w_ps w) in
    let? old_remaining :=
      if negb (prefix =? ch "+") then ok_or (checked_sub (w_old_remaining w) 1) Internal
      else Ok (w_old_remaining w) in
    let? new_remaining :=
      if negb (prefix =? ch "-") then ok_or (checked_sub (w_new_remaining w) 1) Internal
      else Ok (w_new_remaining w) in
    let old_step := if prefix =? ch "+" then 0 else 1 in
    let new_step := if prefix =? ch "-" then 0 else 1 in
    Ok {| w_ps := ps;
      w_part := Some (part_add part prefix line no_newline ranges encoded range_count);
      w_annotations := annotations;
      w_before := w_before w + old_step; w_after := w_after w + new_step;
      w_old_remaining := old_remaining; w_new_remaining := new_remaining;
      w_old_cursor := w_old_cursor w + old_step;
      w_new_cursor := w_new_cursor w + new_step;
      w_additions := w_additions w + (if prefix =? ch "+" then 1 else 0);
      w_deletions := w_deletions w + (if prefix =? ch "-" then 1 else 0);
      w_saw_hunk := w_saw_hunk w;
      w_hunk_changed := w_hunk_changed w || negb (prefix =? ch " ") |}
  end.

Fixpoint walk (lines : list str) (w : walk_state) : result TextDiffError walk_state :=
  match lines with
  | [] => Ok w
  | line :: rest =>
    if starts_with (u "@@ ") line then
      let? w := header_step line w in walk rest w
    else
    match rest with
    | next :: rest' =>
      if str_eqb next NO_NEWLINE then
        let? w := row_step line true w in walk rest' w
      else let? w := row_step line false w in walk rest w
    | [] => let? w := row_step line false w in walk rest w
    end
  end.
End walk.

Definition initial_walk (annotations : annotations_map) : walk_state :=
  {| w_ps := {| ps_pages := []; ps_page := []; ps_rows := 0; ps_bytes := 0; ps_ranges := 0 |};
    w_part := None; w_annotations := annotations; w_before := 0; w_after := 0;
    w_old_remaining := 0; w_new_remaining := 0; w_old_cursor := 0; w_new_cursor := 0;
    w_additions := 0; w_deletions := 0; w_saw_hunk := false; w_hunk_changed := false |}.

Definition changes (computed : ComputedDiff) (old_text new_text : str)
  : result TextDiffError (list (list DiffFragment) * Z * Z) :=
  if str_eqb old_text new_text then
    if bool_decide (cd_patch computed = [])
      && bool_decide (length (cd_inline_changes computed) = 0%nat)
      then Ok ([], 0, 0) else Err Internal
  else
  let old_lines := split_inclusive old_text in
  let new_lines := split_inclusive new_text in
  if MAX_LINES * 2 <? zlen (cd_inline_changes computed) then Err ResourceLimit else
  let? (_, annotations) := annotate_all old_lines new_lines (cd_inline_changes computed) (0, ∅) in
  match split_inclusive (cd_patch computed) with
  | first :: second :: lines =>
    if negb (str_eqb first (u "--- before" ++ [LF]))
      || negb (str_eqb second (u "+++ after" ++ [LF]))
      then Err Internal else
    let? w := walk old_lines new_lines lines (initial_walk annotations) in
    if negb (w_saw_hunk w) || negb (w_hunk_changed w)
      || negb (w_old_remaining w =? 0) || negb (w_new_remaining w =? 0)
      || negb (bool_decide (w_annotations w = ∅))
      then Err Internal else
    let? old_rest := ok_or (slice_get old_lines (w_old_cursor w) (zlen old_lines)) Internal in
    let? new_rest := ok_or (slice_get new_lines (w_new_cursor w) (zlen new_lines)) Internal in
    if negb (bool_decide (old_rest = new_rest)) then Err Internal else
    let? ps := finish_option (w_part w) (w_ps w) in
    let pages := if bool_decide (ps_page ps = []) then ps_pages ps
    else ps_pages ps ++ [ps_page ps] in
    Ok (pages, w_additions w, w_deletions w)
  | _ => Err Internal
  end.
End changes.

(** Sizes for concrete inputs: two quotes and no escapes, and a constant bound
    on the other fields of a fragment. *)
Definition sample_sizes : JsonSizes :=
  {| json_fragment_len f := Some (slen (df_patch f) + 256);
     json_string_len s := Some (slen s + 2) |}.
