(* ===== verification/PagingFacts.v ===== *)
(** Correctness of comparison paging: the chunks of the original texts, and
    what the pages that [changes] publishes say about both texts. *)

From S2P Require Import Prelude Utf8 Strings TextDiff Patch PatchFacts Paging.

(** * Chunks *)

(** The pieces of [rest], the part of the text from [offset] on. *)
Definition piece_list (rest : str) (ps : list str) : Prop :=
  concat ps = rest /\ Forall (fun p => p <> [] /\ slen p <= CHUNK_BYTES) ps
  /\ (zlen ps - 1) * (CHUNK_BYTES - 3) <= slen rest.

Lemma chunks_loop_spec fuel pre rest :
  (length rest <= fuel)%nat ->
  exists ps, chunks_loop fuel (pre ++ rest) (slen pre) = Ok ps /\ piece_list rest ps.
Proof.
  revert pre rest. induction fuel as [|fuel IH]; intros pre rest Hf; cbn [chunks_loop];
    rewrite slen_app; destruct (Z.ltb_spec (slen pre) (slen pre + slen rest)) as [Hlt|Hge].
  1,2: destruct rest; simpl in *; try lia; exists []; by repeat split.
  2: { exists []. assert (rest = []) as -> by (apply slen_zero; pose proof (slen_nonneg rest); lia).
       by repeat split. }
  destruct (align_piece (E:=TextDiffError) CHUNK_BYTES pre rest ltac:(done)) as (m & b & -> & Hm & Hlen & Hb & Hal & Hr).
  rewrite <- slen_app, Hal, Hr. specialize (Hm ltac:(intros Hn; rewrite Hn in Hlt; simpl in Hlt; lia)).
  destruct (IH (pre ++ m) b) as (ps & Hps & Hc & Hall & Hn).
  { rewrite length_app in Hf. destruct m; simpl in *; [done|lia]. }
  rewrite <- slen_app, app_assoc, Hps. exists (m :: ps). split; [done|]. split_and!.
  - simpl. by rewrite Hc.
  - by constructor.
  - rewrite zlen_cons, slen_app. pose proof (slen_nonneg m). pose proof (slen_nonneg b).
    destruct (decide (ps = [])) as [->|Hne]; [change (zlen (@nil str)) with 0; lia|].
    assert (b <> []); [|specialize (Hb ltac:(done)); lia].
    intros ->. destruct ps as [|p ps]; [done|]. apply Forall_cons in Hall as [[Hp _] _].
    simpl in Hc. by apply app_nil in Hc as [].
Qed.

(** [chunks] always answers: the chunks of a text are at least one, together
    are the text, each has at most 32 KiB and none is empty unless the text is;
    there are no more than the text needs at 32765 bytes each. *)
Theorem chunks_partition text :
  exists ps, chunks text = Ok ps /\ ps <> [] /\ concat ps = text
    /\ Forall (fun p => slen p <= CHUNK_BYTES /\ (text <> [] -> p <> [])) ps
    /\ (zlen ps - 1) * (CHUNK_BYTES - 3) <= slen text.
Proof.
  unfold chunks. case_bool_decide as Hd; [subst; exists [[]]; split_and!; try done|].
  { by repeat constructor. }
  destruct (chunks_loop_spec (length text) [] text) as (ps & Hps & Hc & Hall & Hn); [lia|].
  exists ps. split_and!; [done| |done| |done].
  - intros ->. by simpl in Hc.
  - eapply Forall_impl; [exact Hall|]. simpl. tauto.
Qed.

(** * What pages say: fragments of an edit script *)

Definition edit_text (e : edit) : str :=
  match e with Keep l | Del l | Ins l => l end.
Definition edit_sign (e : edit) : char :=
  match e with Keep _ => SPACE | Del _ => MINUS | Ins _ => PLUS end.

(** The row of a unified patch that shows an edit. *)
Definition render (e : edit) : str :=
  edit_sign e :: edit_text e ++ (if ends_lf (edit_text e) then [] else LF :: NO_NEWLINE).

(** The line an edit changes, when the next lines are [i] and [j]. *)
Definition edit_key (i j : Z) (e : edit) : option (DiffSide * Z) :=
  match e with Keep _ => None | Del _ => Some (SideBefore, i) | Ins _ => Some (SideAfter, j) end.

(** The changed lines of a script from lines [i] and [j] on, each with the row
    of the script that changes it. *)
Fixpoint changed_rows (i j row : Z) (es : list edit) : list (Z * (DiffSide * Z)) :=
  match es with
  | [] => []
  | e :: es =>
    option_list ((fun k => (row, k)) <$> edit_key i j e)
    ++ changed_rows (i + zlen (old_line e)) (j + zlen (new_line e)) (row + 1) es
  end.

Definition changed_keys (script : list edit) : list (DiffSide * Z) :=
  (changed_rows 0 0 0 script).*2.

Definition additions (script : list edit) : Z :=
  sum_Z ((fun e => match e with Ins _ => 1 | _ => 0 end) <$> script).
Definition deletions (script : list edit) : Z :=
  sum_Z ((fun e => match e with Del _ => 1 | _ => 0 end) <$> script).

Section placed.
Context (annotations : annotations_map).

(** The highlights of the rows [es] that follow the script [pre]. *)
Definition highlights (pre es : list edit) : list InlineChange :=
  (fun '(row, k) => {| ic_row_index := row; ic_ranges := default [] (annotations !! k) |})
  <$> changed_rows (zlen (old_side pre)) (zlen (new_side pre)) 0 es.

(** A start line: the first line of the fragment, or the line before it when
    the fragment has none. *)
Definition start_line (pre side : list str) : Z :=
  zlen pre + (if zlen side =? 0 then 0 else 1).

(** The fragment [f] shows the edits [es], which follow the script [pre]. *)
Record fragment_at (pre es : list edit) (f : DiffFragment) : Prop := {
  fa_rows : es <> [] /\ zlen es <= 400;
  fa_before_start : df_before_start f = start_line (old_side pre) (old_side es);
  fa_before_count : df_before_count f = zlen (old_side es);
  fa_after_start : df_after_start f = start_line (new_side pre) (new_side es);
  fa_after_count : df_after_count f = zlen (new_side es);
  fa_highlights : df_inline_changes f = highlights pre es;
  fa_patch : df_patch f =
  u "--- before" ++ [LF] ++ u "+++ after" ++ [LF]
    ++ u "@@ -" ++ show_Z (df_before_start f) ++ u "," ++ show_Z (df_before_count f)
    ++ u " +" ++ show_Z (df_after_start f) ++ u "," ++ show_Z (df_after_count f)
    ++ u " @@" ++ [LF] ++ concat (render <$> es);
}.

(** The fragments, in order, with kept lines between them, are the script. *)
Inductive placed : list DiffFragment -> list edit -> Prop :=
| placed_nil : placed [] []
| placed_gap fs script gap : placed fs script -> placed fs (script ++ (Keep <$> gap))
| placed_fragment fs script es f :
  placed fs script -> fragment_at script es f -> placed (fs ++ [f]) (script ++ es).

Record part_at (pre es : list edit) (p : Part) : Prop := {
  pa_before : pt_before p = zlen (old_side pre) + 1;
  pa_after : pt_after p = zlen (new_side pre) + 1;
  pa_before_count : pt_before_count p = zlen (old_side es);
  pa_after_count : pt_after_count p = zlen (new_side es);
  pa_body : pt_body p = concat (render <$> es);
  pa_rows : pt_rows p = zlen es;
  pa_rows_bound : pt_rows p <= 400;
  pa_changes : pt_inline_changes p = highlights pre es;
  pa_ranges : pt_range_count p = sum_Z ((fun c => zlen (ic_ranges c)) <$> pt_inline_changes p);
}.

Lemma part_at_new pre :
  part_at pre [] (part_new (zlen (old_side pre) + 1) (zlen (new_side pre) + 1)).
Proof. by constructor. Qed.

Lemma part_finish_at pre es p :
  part_at pre es p -> pt_rows p <> 0 -> fragment_at pre es (part_finish p).
Proof.
  intros [] Hr. unfold part_finish.
  assert (Hs : forall a b (side : list str) c, a = zlen side + 1 -> b = c ->
    (if b =? 0 then saturating_sub a 1 else a) = zlen side + (if c =? 0 then 0 else 1)).
  { intros a b side c -> ->. unfold saturating_sub. pose proof (zlen_nonneg side).
    destruct (c =? 0); lia. }
  constructor; simpl; try done.
  - split; [intros ->; rewrite pa_rows0 in Hr; done|lia].
  - unfold start_line. by apply Hs.
  - unfold start_line. by apply Hs.
  - by rewrite pa_body0.
Qed.

Lemma changed_rows_app i j row es es' :
  changed_rows i j row (es ++ es') =
  changed_rows i j row es
    ++ changed_rows (i + zlen (old_side es)) (j + zlen (new_side es)) (row + zlen es) es'.
Proof.
  revert i j row. induction es as [|e es IH]; intros i j row; simpl.
  - f_equal; unfold zlen; simpl; lia.
  - rewrite IH, <- app_assoc. do 3 f_equal;
      unfold old_side, new_side; simpl; rewrite ?zlen_app, ?zlen_cons; lia.
Qed.

Lemma highlights_snoc pre es e :
  highlights pre (es ++ [e]) = highlights pre es ++
  option_list ((fun k => {| ic_row_index := zlen es;
    ic_ranges := default [] (annotations !! k) |})
    <$> edit_key (zlen (old_side (pre ++ es))) (zlen (new_side (pre ++ es))) e).
Proof.
  unfold highlights. rewrite changed_rows_app, fmap_app. f_equal.
  autorewrite with sides. rewrite !zlen_app. simpl. rewrite app_nil_r.
  by destruct (edit_key _ _ e).
Qed.

Lemma changed_keys_snoc script e :
  changed_keys (script ++ [e]) = changed_keys script ++
  option_list (edit_key (zlen (old_side script)) (zlen (new_side script)) e).
Proof.
  unfold changed_keys. rewrite changed_rows_app, fmap_app. f_equal. simpl.
  rewrite app_nil_r. by destruct (edit_key _ _ e).
Qed.

Lemma changed_rows_keep i j row gap : changed_rows i j row (Keep <$> gap) = [].
Proof. revert i j row. induction gap as [|l gap IH]; intros; [done|]. simpl. apply IH. Qed.

Lemma changed_keys_gap script gap : changed_keys (script ++ (Keep <$> gap)) = changed_keys script.
Proof.
  unfold changed_keys. by rewrite changed_rows_app, changed_rows_keep, app_nil_r.
Qed.
End placed.

(** * Bounds of pages *)

Definition fragment_ranges (f : DiffFragment) : Z :=
  sum_Z ((fun c => zlen (ic_ranges c)) <$> df_inline_changes f).
Definition total (f : DiffFragment -> Z) (page : list DiffFragment) : Z := sum_Z (f <$> page).

Section pages.
Context `{JsonSizes}.

Definition fragment_bytes (f : DiffFragment) : Z := default 0 (json_fragment_len f).

Record page_bounded (page : list DiffFragment) : Prop := {
  pb_sized : Forall (fun f => is_Some (json_fragment_len f)) page;
  pb_bytes : total fragment_bytes page <= PAGE_BYTES;
  pb_ranges : total fragment_ranges page <= MAX_PAGE_INLINE_RANGES;
  pb_before : total df_before_count page <= 400;
  pb_after : total df_after_count page <= 400;
}.

Definition fragments (ps : page_state) : list DiffFragment :=
  concat (ps_pages ps) ++ ps_page ps.

Record pages_inv (ps : page_state) : Prop := {
  pi_done : Forall (fun page => page <> [] /\ page_bounded page) (ps_pages ps);
  pi_page : page_bounded (ps_page ps);
  pi_bytes : ps_bytes ps = total fragment_bytes (ps_page ps);
  pi_ranges : ps_ranges ps = total fragment_ranges (ps_page ps);
  pi_before : total df_before_count (ps_page ps) <= ps_rows ps;
  pi_after : total df_after_count (ps_page ps) <= ps_rows ps;
  pi_rows : ps_page ps = [] -> ps_rows ps = 0;
}.

Lemma total_snoc g page f : total g (page ++ [f]) = total g page + g f.
Proof. unfold total. rewrite fmap_app, sum_Z_app. simpl. lia. Qed.

Lemma finish_fragments part ps ps' :
  finish part ps = Ok ps' ->
  pt_rows part <> 0 /\ fragments ps' = fragments ps ++ [part_finish part].
Proof.
  unfold finish, fragments. destruct (Z.eqb_spec (pt_rows part) 0); [done|].
  destruct (json_fragment_len _); [|done]. simpl. destruct (_ || _); [done|].
  intros [= <-]. simpl. split; [done|].
  destruct (negb _ && _); simpl; [|by rewrite app_assoc].
  rewrite concat_app. simpl. by rewrite app_nil_r.
Qed.

Lemma page_bounded_nil : page_bounded [].
Proof. by constructor; unfold total; simpl. Qed.

Lemma page_bounded_snoc page f n b :
  page_bounded page -> json_fragment_len f = Some b ->
  total fragment_bytes page + b <= PAGE_BYTES ->
  total fragment_ranges page + fragment_ranges f <= MAX_PAGE_INLINE_RANGES ->
  total df_before_count page <= n -> total df_after_count page <= n ->
  n + df_before_count f <= 400 -> n + df_after_count f <= 400 ->
  page_bounded (page ++ [f]).
Proof.
  intros [] Hb ? ? ? ? ? ?.
  assert (fragment_bytes f = b) by (unfold fragment_bytes; by rewrite Hb).
  constructor; rewrite ?total_snoc; [|lia..].
  rewrite Forall_app, Forall_singleton. eauto.
Qed.

Lemma sides_le es : zlen (old_side es) <= zlen es /\ zlen (new_side es) <= zlen es.
Proof.
  induction es as [|e es IH]; [done|].
  change (e :: es) with ([e] ++ es). autorewrite with sides. rewrite !zlen_app.
  assert (zlen (old_side [e]) <= zlen [e] /\ zlen (new_side [e]) <= zlen [e]); [|lia].
  by destruct e.
Qed.

Lemma finish_pages ann pre es part ps ps' :
  part_at ann pre es part -> pages_inv ps -> finish part ps = Ok ps' -> pages_inv ps'.
Proof.
  intros [] []. unfold finish. destruct (Z.eqb_spec (pt_rows part) 0); [done|].
  destruct (json_fragment_len _) as [b|] eqn:Eb; [|done]. simpl.
  destruct (_ || _) eqn:Eo; [done|]. bool_hyps. intros [= <-].
  pose proof (sides_le es).
  assert (Hf : fragment_ranges (part_finish part) = pt_range_count part) by done.
  assert (Hb : fragment_bytes (part_finish part) = b)
    by (unfold fragment_bytes; by rewrite Eb).
  destruct (negb _ && _) eqn:Ec; simpl.
  - bool_hyps. constructor; simpl; try (unfold total; simpl; lia); try done.
    + apply Forall_app. split; [done|]. by constructor.
    + apply (page_bounded_snoc [] _ 0 b page_bounded_nil Eb); unfold total; simpl; lia.
  - assert (Hpage : page_bounded (ps_page ps ++ [part_finish part])).
    { apply andb_false_iff in Ec as [Ec|Ec]; bool_hyps.
      - rewrite Ec. apply (page_bounded_snoc [] _ 0 b page_bounded_nil Eb); unfold total; simpl; lia.
      - apply (page_bounded_snoc _ _ (ps_rows ps) b); simpl; try done; lia. }
    constructor; simpl; rewrite ?total_snoc; simpl; try done; try lia.
    intros Hn. by apply app_nil in Hn as [].
Qed.
End pages.

(** * The walk over the patch *)

Section walk_facts.
Context `{JsonSizes} (old_lines new_lines : list str) (ann : annotations_map).

(** What [row_step] does, the edit [e] it read being given. *)
Record row_stepped (line : str) (no_newline : bool) (w w' : walk_state)
  (e : edit) (part part1 : Part) (ranges : option (list ScalarRange)) : Prop := {
    rs_part : w_part w = Some part;
    rs_render : render e = line ++ (if no_newline then NO_NEWLINE else []);
    rs_old : forall l, l ∈ old_line e -> index_get old_lines (w_old_cursor w) = Some l;
    rs_new : forall l, l ∈ new_line e -> index_get new_lines (w_new_cursor w) = Some l;
    rs_take : match edit_key (w_old_cursor w) (w_new_cursor w) e with
    | None => ranges = None /\ w_annotations w' = w_annotations w
    | Some k => exists r, ranges = Some r /\ w_annotations w !! k = Some r
        /\ w_annotations w' = delete k (w_annotations w)
    end;
    rs_flush : part1 = part /\ w_ps w' = w_ps w /\ pt_rows part < 400
    \/ finish part (w_ps w) = Ok (w_ps w')
      /\ part1 = part_new (w_before w) (w_after w);
    rs_part' : exists encoded, w_part w' = Some (part_add part1 (edit_sign e) line no_newline
      ranges encoded (match ranges with Some r => zlen r | None => 0 end));
    rs_before : w_before w' = w_before w + zlen (old_line e);
    rs_after : w_after w' = w_after w + zlen (new_line e);
    rs_old_cursor : w_old_cursor w' = w_old_cursor w + zlen (old_line e);
    rs_new_cursor : w_new_cursor w' = w_new_cursor w + zlen (new_line e);
    rs_additions : w_additions w' = w_additions w + additions [e];
    rs_deletions : w_deletions w' = w_deletions w + deletions [e];
    rs_saw : w_saw_hunk w' = w_saw_hunk w;
    rs_changed : w_hunk_changed w' = w_hunk_changed w || negb (edit_sign e =? SPACE);
  }.

(** The text of a row, with and without the end marker. *)
Lemma row_text prefix text (no_newline : bool) :
  proper_lines [prefix :: text] -> ends_lf (prefix :: text) = true -> prefix <> LF ->
  let source := if no_newline then strip_newline text else text in
  source ++ (if ends_lf source then [] else LF :: NO_NEWLINE)
  = text ++ (if no_newline then NO_NEWLINE else []).
Proof.
  intros Hp He Hlf. assert (exists t, text = t ++ [LF] /\ LF ∉ t) as (t & -> & Ht).
  { apply ends_lf_iff in He as [t Ht]. destruct t as [|p t]; [injection Ht; congruence|].
    injection Ht as <- ->. exists t. split; [done|].
    inversion Hp as [|? ? Hn Heq|t2 ? Ht2 ? Heq]; subst.
    - apply not_elem_of_cons in Hn as [_ Hn]. rewrite elem_of_app, list_elem_of_singleton in Hn.
      tauto.
    - change (prefix :: t ++ [LF]) with ((prefix :: t) ++ [LF]) in Heq.
      apply app_inj_tail in Heq as [-> _]. by apply not_elem_of_cons in Ht2 as [_ ?]. }
  assert (Hl : ends_lf (t ++ [LF]) = true) by (apply ends_lf_iff; eauto).
  destruct no_newline; simpl; [|by rewrite Hl].
  unfold strip_newline. assert (strip_suffix [LF] (t ++ [LF]) = Some t) as ->
    by (by apply strip_suffix_Some).
  destruct (ends_lf t) eqn:E; [|by rewrite <- app_assoc].
  apply ends_lf_iff in E as [t' ->]. exfalso. apply Ht, elem_of_app. right.
  by apply list_elem_of_singleton.
Qed.

Lemma unless_guard a b P `{Decision P} :
  negb (a =? b) && negb (bool_decide P) = false -> a <> b -> P.
Proof.
  intros Hg Hab. rewrite (proj2 (Z.eqb_neq _ _) Hab) in Hg. simpl in Hg. by bool_hyps.
Qed.

Lemma row_step_spec line no_newline w w' :
  proper_lines [line] -> row_step old_lines new_lines line no_newline w = Ok w' ->
  exists e part part1 ranges, row_stepped line no_newline w w' e part part1 ranges.
Proof.
  intros Hp. unfold row_step. destruct (w_part w) as [part|] eqn:Epart; [|done].
  destruct line as [|prefix text]; [done|].
  destruct (negb _ || _) eqn:Ep; [done|]. bool_hyps.
  set (source := if no_newline then strip_newline text else text).
  assert (Hsign : exists e, edit_sign e = prefix /\ edit_text e = source /\ prefix <> LF).
  { repeat match goal with H : _ || _ = true |- _ => apply orb_true_iff in H as [H|H] end;
      bool_hyps; subst prefix; [exists (Keep source)|exists (Ins source)|exists (Del source)]; done. }
  destruct Hsign as (e & Hs & Ht & Hlf).
  assert (Hr : render e = (prefix :: text) ++ (if no_newline then NO_NEWLINE else [])).
  { unfold render. rewrite Hs, Ht. simpl. f_equal. by apply (row_text prefix). }
  destruct (negb (prefix =? ch "+") && _) eqn:Eo; [done|].
  destruct (negb (prefix =? ch "-") && _) eqn:En; [done|].
  destruct (take_annotation prefix w) as [[ranges anns]|] eqn:Et; [|done].
  destruct (json_string_len _) as [len|]; [|done]. cbn [ok_or].
  set (encoded := len + _ + _).
  match goal with |- match ?m with _ => _ end = _ -> _ =>
    destruct m as [[part1 ps]|] eqn:Ef; [|done] end.
  assert (Hflush : part1 = part /\ ps = w_ps w /\ pt_rows part < 400
    \/ finish part (w_ps w) = Ok ps /\ part1 = part_new (w_before w) (w_after w)).
  { destruct (_ || _) eqn:Eb in Ef.
    - destruct (finish part (w_ps w)) as [ps'|]; [|done]. injection Ef as <- <-. by right.
    - injection Ef as <- <-. bool_hyps. by left. }
  do 2 match goal with |- match ?m with _ => _ end = _ -> _ => destruct m; [|done] end.
  intros [= <-]. exists e, part, part1, ranges.
  unfold take_annotation in Et.
  change (ch "-") with MINUS in *. change (ch "+") with PLUS in *.
  pose proof (unless_guard _ _ _ Eo) as Ho. pose proof (unless_guard _ _ _ En) as Hn.
  clear Eo En. fold source in Ho, Hn. clearbody source.
  destruct e as [l|l|l]; simpl in Hs, Ht; subst prefix source;
    change (SPACE =? MINUS) with false in Et; change (SPACE =? PLUS) with false in Et;
    change (MINUS =? MINUS) with true in Et; change (PLUS =? MINUS) with false in Et;
    change (PLUS =? PLUS) with true in Et; cbv iota in Et.
  2,3: destruct (w_annotations w !! _) as [r|] eqn:Er; [|done].
  all: injection Et as <- <-.
  all: constructor; simpl; try done; try (intros l' ->%list_elem_of_singleton; auto);
    try (intros l' Hl'; by apply not_elem_of_nil in Hl');
    try (unfold zlen, additions, deletions; simpl; lia); eauto.
Qed.
(** The walk has read the edits [script]. *)
Record walk_inv (script : list edit) (w : walk_state) : Prop := {
  wi_old : exists rest, old_lines = old_side script ++ rest;
  wi_new : exists rest, new_lines = new_side script ++ rest;
  wi_old_cursor : w_old_cursor w = zlen (old_side script);
  wi_new_cursor : w_new_cursor w = zlen (new_side script);
  wi_additions : w_additions w = additions script;
  wi_deletions : w_deletions w = deletions script;
  wi_changed : w_hunk_changed w = true -> 0 < additions script + deletions script;
  wi_sub : w_annotations w ⊆ ann;
  wi_dom : dom ann = dom (w_annotations w) ∪ list_to_set (changed_keys script);
  wi_pages : pages_inv (w_ps w);
  wi_part : match w_part w with
  | None => placed ann (fragments (w_ps w)) script
  | Some p => exists pre es, script = pre ++ es
      /\ placed ann (fragments (w_ps w)) pre /\ part_at ann pre es p
      /\ w_before w = w_old_cursor w + 1 /\ w_after w = w_new_cursor w + 1
  end;
}.

Lemma walk_inv_initial : walk_inv [] (initial_walk ann).
Proof.
  constructor; simpl; try done; eauto.
  - change (changed_keys []) with (@nil (DiffSide * Z)). set_solver.
  - apply placed_nil.
Qed.

Lemma index_get_next (lines pre : list str) l :
  (exists rest, lines = pre ++ rest) -> index_get lines (zlen pre) = Some l ->
  exists rest, lines = (pre ++ [l]) ++ rest.
Proof.
  intros [rest ->]. rewrite index_get_app. destruct rest as [|l' rest]; [done|].
  intros [= ->]. exists rest. by rewrite <- app_assoc.
Qed.

Lemma side_next (lines pre side : list str) :
  (exists rest, lines = pre ++ rest) -> (length side <= 1)%nat ->
  (forall l, l ∈ side -> index_get lines (zlen pre) = Some l) ->
  exists rest, lines = (pre ++ side) ++ rest.
Proof.
  intros Hr Hl Hs. destruct side as [|l [|]]; simpl in Hl; [by rewrite app_nil_r| |lia].
  apply index_get_next; [done|]. apply Hs. by apply list_elem_of_singleton.
Qed.

Lemma edit_sides e : (length (old_line e) <= 1)%nat /\ (length (new_line e) <= 1)%nat.
Proof. destruct e; simpl; lia. Qed.

Lemma old_side_single e : old_side [e] = old_line e.
Proof. apply app_nil_r. Qed.
Lemma new_side_single e : new_side [e] = new_line e.
Proof. apply app_nil_r. Qed.

Lemma additions_app s t : additions (s ++ t) = additions s + additions t.
Proof. unfold additions. by rewrite fmap_app, sum_Z_app. Qed.
Lemma deletions_app s t : deletions (s ++ t) = deletions s + deletions t.
Proof. unfold deletions. by rewrite fmap_app, sum_Z_app. Qed.
Lemma counts_nonneg s : 0 <= additions s /\ 0 <= deletions s.
Proof.
  split; apply sum_Z_nonneg, Forall_fmap, Forall_true; intros []; simpl; lia.
Qed.
Lemma counts_keep gap : additions (Keep <$> gap) = 0 /\ deletions (Keep <$> gap) = 0.
Proof.
  induction gap as [|l gap [IH1 IH2]]; [done|].
  change (Keep <$> l :: gap) with ([Keep l] ++ (Keep <$> gap)).
  by rewrite additions_app, deletions_app, IH1, IH2.
Qed.

(** The annotations after a row. *)
Lemma take_inv script w w' e ranges :
  w_annotations w ⊆ ann ->
  dom ann = dom (w_annotations w) ∪ list_to_set (changed_keys script) ->
  match edit_key (zlen (old_side script)) (zlen (new_side script)) e with
  | None => ranges = None /\ w_annotations w' = w_annotations w
  | Some k => exists r, ranges = Some r /\ w_annotations w !! k = Some r
      /\ w_annotations w' = delete k (w_annotations w)
  end ->
  w_annotations w' ⊆ ann
    /\ dom ann = dom (w_annotations w') ∪ list_to_set (changed_keys (script ++ [e]))
    /\ ranges = (fun k => default [] (ann !! k))
  <$> edit_key (zlen (old_side script)) (zlen (new_side script)) e.
Proof.
  intros Hs Hd. rewrite changed_keys_snoc, list_to_set_app_L.
  destruct (edit_key _ _ e) as [k|].
  - intros (r & -> & Hr & ->). split_and!.
    + etrans; [apply delete_subseteq|done].
    + rewrite Hd, dom_delete_L. simpl. assert (k ∈ dom (w_annotations w)) by (by eapply elem_of_dom_2).
      apply set_eq. intros x. destruct (decide (x = k)); set_solver.
    + simpl. by rewrite (lookup_weaken _ _ _ _ Hr Hs).
  - intros [-> ->]. split_and!; [done| |done]. rewrite Hd. simpl. set_solver.
Qed.

Lemma part_add_at pre es p e line (no_newline : bool) ranges encoded :
  part_at ann pre es p -> pt_rows p < 400 ->
  render e = line ++ (if no_newline then NO_NEWLINE else []) ->
  ranges = (fun k => default [] (ann !! k))
  <$> edit_key (zlen (old_side (pre ++ es))) (zlen (new_side (pre ++ es))) e ->
  part_at ann pre (es ++ [e])
  (part_add p (edit_sign e) line no_newline ranges encoded
    (match ranges with Some r => zlen r | None => 0 end)).
Proof.
  intros [] Hb Hr Hk. pose proof (zlen_nonneg es).
  assert (Hrow : pt_rows p mod 2 ^ 32 = zlen es) by (rewrite pa_rows0, Z.mod_small; lia).
  constructor; simpl; try done; try lia.
  - autorewrite with sides. rewrite zlen_app, old_side_single, pa_before_count0. by destruct e.
  - autorewrite with sides. rewrite zlen_app, new_side_single, pa_after_count0. by destruct e.
  - rewrite fmap_app, concat_app, pa_body0, list_fmap_singleton. cbn [concat].
    by rewrite app_nil_r, Hr.
  - rewrite zlen_app, pa_rows0. done.
  - rewrite highlights_snoc, <- pa_changes0, Hrow, Hk. by destruct (edit_key _ _ e).
  - rewrite fmap_app, sum_Z_app, pa_ranges0. f_equal. destruct ranges; simpl; lia.
Qed.
Lemma finish_placed pre es p ps ps' :
  placed ann (fragments ps) pre -> part_at ann pre es p -> finish p ps = Ok ps' ->
  placed ann (fragments ps') (pre ++ es).
Proof.
  intros Hp Ha [Hn ->]%finish_fragments. apply placed_fragment; [done|].
  by apply part_finish_at.
Qed.

Lemma walk_row_inv script line no_newline w w' :
  proper_lines [line] -> walk_inv script w ->
  row_step old_lines new_lines line no_newline w = Ok w' ->
  exists e, walk_inv (script ++ [e]) w'.
Proof.
  intros Hp [] (e & part & part1 & ranges & [])%row_step_spec; [|done].
  exists e. rewrite wi_old_cursor0, wi_new_cursor0 in *. rewrite rs_part0 in wi_part0.
  destruct wi_part0 as (pre & es & Hscript & Hpl & Hpa & Hb & Ha).
  destruct (take_inv script w w' e ranges) as (Hs' & Hd' & Hr'); [done..|].
  destruct (edit_sides e) as [Ho Hn].
  assert (Hpart : pages_inv (w_ps w') /\ exists pre' es', script = pre' ++ es'
    /\ placed ann (fragments (w_ps w')) pre' /\ part_at ann pre' es' part1 /\ pt_rows part1 < 400).
  { destruct rs_flush0 as [(-> & -> & ?)|[Hf ->]].
    - split; [done|]. by exists pre, es.
    - split; [by eapply finish_pages|]. exists script, []. rewrite app_nil_r, Hb, Ha.
      split_and!; [done| |apply part_at_new|done].
      rewrite Hscript. by eapply finish_placed. }
  destruct Hpart as (Hpages & pre' & es' & Heq & Hpl' & Hpa' & Hrows).
  destruct rs_part'0 as [encoded Hw].
  constructor; autorewrite with sides; rewrite ?old_side_single, ?new_side_single; try done;
    try (rewrite zlen_app; lia).
  - by apply side_next.
  - by apply side_next.
  - rewrite additions_app. lia.
  - rewrite deletions_app. lia.
  - rewrite rs_changed0, orb_true_iff, additions_app, deletions_app.
    pose proof (counts_nonneg script). pose proof (counts_nonneg [e]).
    intros [Hc|Hc]; [apply wi_changed0 in Hc; lia|].
    assert (0 < additions [e] + deletions [e]) by (by destruct e). lia.
  - rewrite Hw. exists pre', (es' ++ [e]).
    split_and!; [by rewrite Heq, app_assoc|done| |lia..].
    apply part_add_at; [done|done|done|]. by rewrite <- Heq.
Qed.

Lemma slice_gap (lines pre : list str) b gap :
  (exists rest, lines = pre ++ rest) -> slice_get lines (zlen pre) b = Some gap ->
  b = zlen pre + zlen gap /\ exists rest, lines = (pre ++ gap) ++ rest.
Proof.
  intros [rest ->] [Hb [rest' ->]]%slice_get_app. split; [done|]. exists rest'.
  by rewrite app_assoc.
Qed.

Lemma header_step_inv script line w w' :
  walk_inv script w -> header_step old_lines new_lines line w = Ok w' ->
  exists gap, walk_inv (script ++ (Keep <$> gap)) w'.
Proof.
  intros [] Hs. unfold header_step in Hs. destruct (_ || _); [done|].
  destruct (finish_option _ _) as [ps|] eqn:Ef; [|done]. destruct (negb _); [done|].
  destruct (range _ _) as [[old oc]|]; [|done]. destruct (range _ _) as [[new nc]|]; [|done].
  destruct (_ || _); [done|].
  destruct (checked_sub _ 1) as [oo|] eqn:Eo in Hs; [|done].
  destruct (checked_sub _ 1) as [no|] eqn:En in Hs; [|done]. cbn [ok_or] in Hs.
  destruct (slice_get old_lines _ _) as [gap|] eqn:Eg; [|done].
  destruct (slice_get new_lines _ _) as [gap'|] eqn:Eg'; [|done]. cbn [ok_or] in Hs.
  destruct (negb _) eqn:Eq; [done|]. bool_hyps. subst gap'.
  rewrite wi_old_cursor0 in Eg. rewrite wi_new_cursor0 in Eg'.
  apply slice_gap in Eg as [Hoo Hold]; [|done]. apply slice_gap in Eg' as [Hno Hnew]; [|done].
  apply checked_sub_Some in Eo as [_ Eo]. apply checked_sub_Some in En as [_ En].
  assert (Hpages : pages_inv ps /\ placed ann (fragments ps) script).
  { destruct (w_part w) as [p|]; simpl in Ef; [|by injection Ef as <-].
    destruct wi_part0 as (pre & es & -> & ? & ? & _). split; [by eapply finish_pages|].
    by eapply finish_placed. }
  destruct Hpages as [Hpages Hpl]. injection Hs as <-. exists gap.
  pose proof (counts_keep gap) as [Ha Hd].
  constructor; simpl; autorewrite with sides; rewrite ?zlen_app, ?additions_app, ?deletions_app;
    try done; try lia.
  - by rewrite changed_keys_gap.
  - exists (script ++ (Keep <$> gap)), []. rewrite app_nil_r.
    split_and!; [done|by apply placed_gap| |lia..].
    replace (old + _) with (zlen (old_side (script ++ (Keep <$> gap))) + 1)
      by (autorewrite with sides; rewrite zlen_app; lia).
    replace (new + _) with (zlen (new_side (script ++ (Keep <$> gap))) + 1)
      by (autorewrite with sides; rewrite zlen_app; lia).
    apply part_at_new.
Qed.

Lemma walk_keeps_inv script lines w w' :
  single_lines lines -> walk_inv script w -> walk old_lines new_lines lines w = Ok w' ->
  exists script', walk_inv script' w'.
Proof.
  remember (length lines) as n eqn:Hn. revert script lines w Hn.
  induction n as [n IH] using (well_founded_induction lt_wf).
  intros script lines w -> Hl Hi.
  destruct lines as [|line rest]; cbn [walk]; [intros [= <-]; eauto|].
  apply Forall_cons in Hl as [Hline Hrest].
  assert (Hrow : forall nn rest', single_lines rest' -> (length rest' <= length rest)%nat ->
    (let? w := row_step old_lines new_lines line nn w in
    walk old_lines new_lines rest' w) = Ok w' -> exists script', walk_inv script' w').
  { intros nn rest' Hr' Hlen Hs. destruct (row_step _ _ line nn w) as [w1|] eqn:E; [|done].
    eapply walk_row_inv in E as [e He]; [|done..].
    eapply (IH (length rest')); [simpl; lia|done|done|exact He|done]. }
  destruct (starts_with _ line).
  - intros Hs. destruct (header_step _ _ line w) as [w1|] eqn:E; [|done].
    eapply header_step_inv in E as [gap Hg]; [|done].
    eapply (IH (length rest)); [simpl; lia|done|done|exact Hg|done].
  - destruct rest as [|next rest']; [by apply Hrow|].
    destruct (str_eqb _ _); apply Hrow; try done; [|simpl; lia].
    by apply Forall_cons in Hrest as [_ ?].
Qed.
End walk_facts.

(** * The annotations *)

(** Non-empty ranges of scalars, increasing from [e], within [n] scalars. *)
Fixpoint ranges_in (n e : Z) (ranges : list ScalarRange) : Prop :=
  match ranges with
  | [] => True
  | (start, next) :: ranges => e <= start /\ start < next /\ next <= n /\ ranges_in n next ranges
  end.

Lemma check_ranges_ok n e ranges : check_ranges n e ranges = Ok tt <-> ranges_in n e ranges.
Proof.
  revert e. induction ranges as [|[a b] ranges IH]; intros e; simpl; [done|].
  destruct (_ || _) eqn:E.
  - split; [done|]. intros (? & ? & ? & _). exfalso.
    repeat (apply orb_true_iff in E as [E|E]; bool_hyps); lia.
  - bool_hyps. rewrite IH. intuition lia.
Qed.

Definition side_lines (old_lines new_lines : list str) (s : DiffSide) : list str :=
  match s with SideBefore => old_lines | SideAfter => new_lines end.

Definition hl_key (c : SourceLineHighlights) : DiffSide * Z := (hl_side c, hl_line_index c).

Section annotate_facts.
Context (old_lines new_lines : list str).

(** Ranges that lie inside the line they annotate. *)
Definition annotation_valid (k : DiffSide * Z) (ranges : list ScalarRange) : Prop :=
  exists line, index_get (side_lines old_lines new_lines k.1) k.2 = Some line
    /\ ranges_in (zlen line) 0 ranges.

Lemma annotate_spec c total m total' m' :
  annotate old_lines new_lines c (total, m) = Ok (total', m') ->
  m' = <[hl_key c := hl_ranges c]> m /\ m !! hl_key c = None
    /\ annotation_valid (hl_key c) (hl_ranges c)
    /\ total' = total + zlen (hl_ranges c) /\ total' <= MAX_INLINE_RANGES.
Proof.
  intros Ha. unfold annotate in Ha.
  destruct (checked_add _ _) as [t|] eqn:Et in Ha; [|done]. cbn [ok_or] in Ha.
  destruct (_ || _) eqn:Eb in Ha; [done|]. bool_hyps.
  destruct (index_get _ _) as [line|] eqn:El in Ha; [|done]. cbn [ok_or] in Ha.
  destruct (check_ranges _ _ _) as [[]|] eqn:Ec in Ha; [|done].
  destruct (m !! _) eqn:Em; [done|]. injection Ha as <- <-.
  apply checked_add_Some in Et as [_ ->]. split_and!; try done.
  exists line. split; [by destruct c as [[]]|]. by apply check_ranges_ok.
Qed.

Lemma annotate_all_spec l total m total' m' :
  annotate_all old_lines new_lines l (total, m) = Ok (total', m') ->
  (forall k r, m' !! k = Some r <->
    m !! k = Some r \/ exists c, c ∈ l /\ hl_key c = k /\ hl_ranges c = r)
    /\ Forall (fun c => annotation_valid (hl_key c) (hl_ranges c)) l
    /\ total' = total + sum_Z ((fun c => zlen (hl_ranges c)) <$> l)
    /\ (total <= MAX_INLINE_RANGES -> total' <= MAX_INLINE_RANGES).
Proof.
  revert total m. induction l as [|c l IH]; intros total m; cbn [annotate_all].
  - cbn. intros [= <- <-]. split_and!; [|constructor|lia|done].
    intros k r. split; [auto|]. intros [?|(c & Hc & _)]; [done|]. by apply not_elem_of_nil in Hc.
  - destruct (annotate _ _ _ _) as [[t1 m1]|] eqn:E; [|done].
    apply annotate_spec in E as (-> & Hn & Hv & -> & Hm). intros Hl.
    apply IH in Hl as (Hk & Hf & -> & Hb). split_and!; [|by constructor|cbn; lia|auto].
    intros k r. rewrite Hk, lookup_insert_Some. setoid_rewrite elem_of_cons.
    split; [naive_solver|]. intros [Hr|(c' & [->|Hc] & Hkey & Hrr)]; [|naive_solver..].
    left. right. split; [congruence|done].
Qed.
End annotate_facts.

(** * The fragments of a placed script *)

Lemma placed_split ann fs script f :
  placed ann fs script -> f ∈ fs ->
  exists pre es post, script = pre ++ es ++ post /\ fragment_at ann pre es f.
Proof.
  intros Hp Hf. induction Hp as [|fs script gap _ IH|fs script es f' _ IH Hat].
  - by apply not_elem_of_nil in Hf.
  - destruct (IH Hf) as (pre & es & post & -> & ?). exists pre, es, (post ++ (Keep <$> gap)).
    by rewrite <- !app_assoc.
  - apply elem_of_app in Hf as [Hf | ->%list_elem_of_singleton].
    + destruct (IH Hf) as (pre & es' & post & -> & ?). exists pre, es', (post ++ es).
      by rewrite <- !app_assoc.
    + exists script, es, []. by rewrite app_nil_r.
Qed.

Lemma changed_rows_elem i j row es r k :
  (r, k) ∈ changed_rows i j row es ->
  exists es1 e es2, es = es1 ++ e :: es2 /\ r = row + zlen es1
    /\ edit_key (i + zlen (old_side es1)) (j + zlen (new_side es1)) e = Some k.
Proof.
  revert i j row. induction es as [|e es IH]; intros i j row; simpl.
  { intros Hk. by apply not_elem_of_nil in Hk. }
  intros [He|Hk]%elem_of_app.
  - exists [], e, es. unfold zlen. simpl. rewrite !Z.add_0_r.
    destruct (edit_key i j e); simpl in He; [|by apply not_elem_of_nil in He].
    apply list_elem_of_singleton in He. by injection He as <- <-.
  - apply IH in Hk as (es1 & e' & es2 & -> & -> & Hk). exists (e :: es1), e', es2.
    split_and!; [done|rewrite zlen_cons; lia|].
    change (e :: es1) with ([e] ++ es1). autorewrite with sides.
    by rewrite !zlen_app, old_side_single, new_side_single, !Z.add_assoc.
Qed.

Lemma changed_rows_keys i j row row' es :
  (changed_rows i j row es).*2 = (changed_rows i j row' es).*2.
Proof.
  revert i j row row'. induction es as [|e es IH]; intros i j row row'; [done|]. simpl.
  rewrite !fmap_app. f_equal; [by destruct (edit_key i j e)|apply IH].
Qed.

(** The line that the key of an edit names is the line the edit shows. *)
Lemma edit_key_line pre e post k :
  edit_key (zlen (old_side pre)) (zlen (new_side pre)) e = Some k ->
  index_get (side_lines (old_side (pre ++ e :: post)) (new_side (pre ++ e :: post)) k.1) k.2
  = Some (edit_text e).
Proof.
  change (e :: post) with ([e] ++ post). autorewrite with sides.
  destruct e; simpl; [done|intros [= <-]; simpl; by rewrite index_get_app..].
Qed.

(** * The pages *)

Section changes_facts.
Context `{JsonSizes}.

(** What the validation of an engine result established. *)
Record validated (computed : ComputedDiff) (old_text new_text : str)
  (annotations : annotations_map) (script : list edit) (pages : list (list DiffFragment)) : Prop := {
    va_old : split_inclusive old_text = old_side script;
    va_new : split_inclusive new_text = new_side script;
    va_equal : old_text = new_text <-> additions script = 0 /\ deletions script = 0;
    va_placed : placed annotations (concat pages) script;
    va_annotations : forall k r, annotations !! k = Some r <->
    exists c, c ∈ cd_inline_changes computed /\ hl_key c = k /\ hl_ranges c = r;
    va_valid : forall k r, annotations !! k = Some r ->
    annotation_valid (split_inclusive old_text) (split_inclusive new_text) k r;
    va_dom : dom annotations = list_to_set (changed_keys script);
    va_total : sum_Z ((fun c => zlen (hl_ranges c)) <$> cd_inline_changes computed)
    <= MAX_INLINE_RANGES;
    va_pages : Forall (fun page => page <> [] /\ page_bounded page) pages;
  }.

Lemma rest_same (old new : list str) script c c' gap :
  (exists rest, old = old_side script ++ rest) -> (exists rest, new = new_side script ++ rest) ->
  c = zlen (old_side script) -> c' = zlen (new_side script) ->
  slice_get old c (zlen old) = Some gap -> slice_get new c' (zlen new) = Some gap ->
  old = old_side (script ++ (Keep <$> gap)) /\ new = new_side (script ++ (Keep <$> gap)).
Proof.
  intros Ho Hn -> -> Hso Hsn.
  apply (slice_gap old) in Hso as [Hl [ro Hro]]; [|done].
  apply (slice_gap new) in Hsn as [Hl' [rn Hrn]]; [|done].
  autorewrite with sides. rewrite Hro, !zlen_app in Hl. rewrite Hrn, !zlen_app in Hl'.
  assert (ro = []) as -> by (apply zlen_zero; lia).
  assert (rn = []) as -> by (apply zlen_zero; lia).
  rewrite app_nil_r in *. done.
Qed.

Lemma changes_validated computed old_text new_text pages adds dels :
  changes computed old_text new_text = Ok (pages, adds, dels) ->
  exists annotations script,
  validated computed old_text new_text annotations script pages
    /\ adds = additions script /\ dels = deletions script.
Proof.
  unfold changes. destruct (str_eqb old_text new_text) eqn:Eeq.
  - apply str_eqb_eq in Eeq as ->. destruct (_ && _) eqn:Ec; [|done]. bool_hyps.
    intros [= <- <- <-]. exists ∅, (Keep <$> split_inclusive new_text).
    assert (Hl : cd_inline_changes computed = []) by (by apply length_zero_iff_nil).
    pose proof (counts_keep (split_inclusive new_text)) as [Ha Hd].
    split; [|by rewrite Ha, Hd]. constructor; try done.
    + by autorewrite with sides.
    + by autorewrite with sides.
    + apply (placed_gap _ [] []), placed_nil.
    + rewrite Hl. intros k r. rewrite lookup_empty. split; [done|].
      intros (c & Hc & _). by apply not_elem_of_nil in Hc.
    + unfold changed_keys. by rewrite changed_rows_keep.
    + by rewrite Hl.
  - assert (Hne : old_text <> new_text)
      by (intros He; apply str_eqb_eq in He; congruence). clear Eeq.
    set (old_lines := split_inclusive old_text). set (new_lines := split_inclusive new_text).
    destruct (MAX_LINES * 2 <? _); [done|].
    destruct (annotate_all _ _ _ _) as [[t ann]|] eqn:Ea; [|done].
    apply annotate_all_spec in Ea as (Hk & Hf & Ht & Hm).
    pose proof (proper_lines_single _ (split_inclusive_proper (cd_patch computed))) as Hpl.
    destruct (split_inclusive (cd_patch computed)) as [|first [|second lines]]; [done..|].
    apply Forall_cons in Hpl as [_ [_ Hpl]%Forall_cons].
    destruct (_ || _); [done|].
    destruct (walk _ _ lines _) as [w|] eqn:Ew; [|done].
    apply (walk_keeps_inv old_lines new_lines ann []) in Ew as [script Hw];
      [|done|apply walk_inv_initial].
    destruct Hw. destruct (_ || _) eqn:Eb; [done|]. bool_hyps.
    destruct (slice_get old_lines _ _) as [gap|] eqn:Eg; [|done].
    destruct (slice_get new_lines _ _) as [gap'|] eqn:Eg'; [|done]. cbn [ok_or].
    destruct (negb _) eqn:Eq; [done|]. bool_hyps. subst gap'.
    destruct (finish_option _ _) as [ps|] eqn:Ef; [|done]. intros [= <- <- <-].
    destruct (rest_same old_lines new_lines script _ _ gap wi_old0 wi_new0
      wi_old_cursor0 wi_new_cursor0 Eg Eg') as [Ho Hn].
    assert (Hp : pages_inv ps /\ placed ann (fragments ps) script).
    { destruct (w_part w) as [p|]; simpl in Ef; [|by injection Ef as <-].
      destruct wi_part0 as (pre & es & -> & ? & ? & _). split; [by eapply finish_pages|].
      by eapply finish_placed. }
    destruct Hp as [[] Hp]. exists ann, (script ++ (Keep <$> gap)).
    pose proof (counts_keep gap) as [Ga Gd].
    pose proof (counts_nonneg script).
    assert (Hpos : 0 < additions script + deletions script) by (by apply wi_changed0).
    rewrite additions_app, deletions_app, Ga, Gd, !Z.add_0_r.
    split; [|done]. constructor; try done.
    + rewrite additions_app, deletions_app. split; [done|lia].
    + apply placed_gap. unfold fragments in Hp.
      case_bool_decide as Hd; [by rewrite Hd, app_nil_r in Hp|].
      rewrite concat_app. simpl. by rewrite app_nil_r.
    + intros k r. rewrite Hk, lookup_empty. naive_solver.
    + intros k r Hkr. apply Hk in Hkr as [Hkr|(c & Hc & <- & <-)]; [by rewrite lookup_empty in Hkr|].
      rewrite Forall_forall in Hf. by apply Hf.
    + rewrite changed_keys_gap, wi_dom0.
      match goal with Hann : w_annotations w = ∅ |- _ => rewrite Hann end.
      rewrite dom_empty_L. set_solver.
    + rewrite Z.add_0_l in Ht. rewrite <- Ht. by apply Hm.
    + case_bool_decide; [done|]. apply Forall_app. split; [done|]. by constructor.
Qed.

(** C2. When [changes] accepts the engine's output, the pages it returns are an
    edit script from the old text to the new one: the fragments, in page order,
    with unchanged lines between them, are the script; each fragment states the
    absolute position and the counts of its rows and carries their text and the
    highlights of its changed lines; the totals count the script's insertions
    and deletions, and are both zero exactly when the texts are equal. *)
Theorem changes_sound computed old_text new_text pages adds dels :
  changes computed old_text new_text = Ok (pages, adds, dels) ->
  exists annotations script,
  split_inclusive old_text = old_side script /\
  split_inclusive new_text = new_side script /\
  placed annotations (concat pages) script /\
  adds = additions script /\ dels = deletions script /\
  (old_text = new_text <-> adds = 0 /\ dels = 0).
Proof.
  intros (ann & script & [] & -> & ->)%changes_validated. by exists ann, script.
Qed.

(** Every page that [changes] returns is non-empty and within the limits:
    its encoded fragments together have at most [PAGE_BYTES] bytes, at most 4096
    highlighted ranges and at most 400 lines of either text. *)
Theorem changes_pages_bounded computed old_text new_text pages adds dels :
  changes computed old_text new_text = Ok (pages, adds, dels) ->
  Forall (fun page => page <> [] /\ page_bounded page) pages.
Proof. by intros (ann & script & [] & _)%changes_validated. Qed.

(** The engine's annotations are used exactly once each and nothing else is
    highlighted: the annotated lines are exactly the lines that the pages change,
    and a fragment's highlight belongs to a changed row of that fragment, carries
    the ranges the engine gave for that line, and lies within the line. *)
Theorem changes_highlights computed old_text new_text pages adds dels :
  changes computed old_text new_text = Ok (pages, adds, dels) ->
  exists script,
  split_inclusive old_text = old_side script /\
  split_inclusive new_text = new_side script /\
  (forall k, k ∈ changed_keys script <-> exists c, c ∈ cd_inline_changes computed /\ hl_key c = k) /\
  forall f c, f ∈ concat pages -> c ∈ df_inline_changes f ->
  exists pre es post e h,
  script = pre ++ es ++ post /\
  (exists header, df_patch f = header ++ concat (render <$> es)) /\
  index_get es (ic_row_index c) = Some e /\
  h ∈ cd_inline_changes computed /\ hl_ranges h = ic_ranges c /\
  edit_key (zlen (old_side pre) + zlen (old_side (take (Z.to_nat (ic_row_index c)) es)))
  (zlen (new_side pre) + zlen (new_side (take (Z.to_nat (ic_row_index c)) es)))
  e = Some (hl_key h) /\
  ranges_in (zlen (edit_text e)) 0 (ic_ranges c).
Proof.
  intros (ann & script & [] & _)%changes_validated. exists script. split_and!; try done.
  { intros k. rewrite <- (elem_of_list_to_set (C := gset _)), <- va_dom0, elem_of_dom.
    split; [intros [r Hr]; apply va_annotations0 in Hr; naive_solver|].
    intros (c & Hc & Hk). exists (hl_ranges c). apply va_annotations0. eauto. }
  intros f c Hf Hc. destruct (placed_split _ _ _ _ va_placed0 Hf) as (pre & es & post & Hs & []).
  rewrite fa_highlights0 in Hc. unfold highlights in Hc.
  apply list_elem_of_fmap in Hc as ([r k] & -> & Hc). cbn [ic_row_index ic_ranges].
  assert (Hdom : k ∈ dom ann).
  { rewrite va_dom0, elem_of_list_to_set, Hs. unfold changed_keys.
    rewrite changed_rows_app, fmap_app, changed_rows_app, !fmap_app, !elem_of_app. right. left.
    rewrite (changed_rows_keys _ _ _ 0). apply list_elem_of_fmap. by exists (r, k). }
  apply elem_of_dom in Hdom as [ranges Hr]. rewrite Hr. simpl.
  destruct (proj1 (va_annotations0 _ _) Hr) as (h & Hh & Hkey & Hrh).
  destruct (va_valid0 _ _ Hr) as (line & Hline & Hin).
  apply changed_rows_elem in Hc as (es1 & e & es2 & -> & -> & Hk). rewrite Z.add_0_l.
  exists pre, (es1 ++ e :: es2), post, e, h.
  assert (Htake : take (Z.to_nat (zlen es1)) (es1 ++ e :: es2) = es1)
    by (unfold zlen; by rewrite Nat2Z.id, take_app_length).
  rewrite Htake, Hkey. split_and!; try done.
  - eexists. rewrite fa_patch0. by rewrite !app_assoc.
  - by rewrite index_get_app.
  - assert (Hs' : script = (pre ++ es1) ++ e :: (es2 ++ post))
      by (rewrite Hs; by rewrite <- !app_assoc).
    rewrite <- !zlen_app, <- old_side_app, <- new_side_app in Hk.
    rewrite va_old0, va_new0, Hs' in Hline.
    rewrite (edit_key_line _ _ _ _ Hk) in Hline. by injection Hline as ->.
Qed.
End changes_facts.

(** ** A concrete engine result *)

Definition example_old : str := u "a
b".
Definition example_new : str := u "a
c
".
Definition example_diff : ComputedDiff :=
  {| cd_patch := u "--- before
+++ after
@@ -1,2 +1,2 @@
 a
-b
\ No newline at end of file
+c
";
     cd_inline_changes :=
       [{| hl_side := SideBefore; hl_line_index := 1; hl_ranges := [(0, 1)] |};
        {| hl_side := SideAfter; hl_line_index := 1; hl_ranges := [(0, 2)] |}] |}.

Lemma example_changes :
  is_ok (changes (H := sample_sizes) example_diff example_old example_new) = true.
Proof. vm_compute. reflexivity. Qed.

Lemma changes_sound_witness :
  exists pages annotations script,
    changes (H := sample_sizes) example_diff example_old example_new = Ok (pages, 1, 1) /\
    split_inclusive example_old = old_side script /\
    split_inclusive example_new = new_side script /\
    placed annotations (concat pages) script.
Proof.
  destruct (changes (H := sample_sizes) example_diff example_old example_new)
    as [[[pages adds] dels]|] eqn:E; [|vm_compute in E; discriminate].
  destruct (changes_sound (H := sample_sizes) _ _ _ _ _ _ E) as (ann & script & ? & ? & ? & _).
  exists pages, ann, script. split; [|by repeat split].
  vm_compute in E. injection E as <- <- <-. reflexivity.
Defined.

Lemma changes_pages_bounded_witness :
  exists pages, changes (H := sample_sizes) example_diff example_old example_new = Ok (pages, 1, 1)
    /\ length pages = 1%nat /\ Forall (fun page => page <> [] /\ page_bounded (H := sample_sizes) page) pages.
Proof.
  destruct (changes (H := sample_sizes) example_diff example_old example_new)
    as [[[pages adds] dels]|] eqn:E; [|vm_compute in E; discriminate].
  pose proof (changes_pages_bounded (H := sample_sizes) _ _ _ _ _ _ E) as Hp.
  exists pages. split_and!; [..|exact Hp]; clear Hp; vm_compute in E; injection E as <- <- <-; reflexivity.
Defined.

Lemma changes_highlights_witness :
  exists script,
    split_inclusive example_old = old_side script /\
    split_inclusive example_new = new_side script /\
    (SideAfter, 1) ∈ changed_keys script.
Proof.
  destruct (changes (H := sample_sizes) example_diff example_old example_new)
    as [[[pages adds] dels]|] eqn:E; [|vm_compute in E; discriminate].
  destruct (changes_highlights (H := sample_sizes) _ _ _ _ _ _ E) as (script & Ho & Hn & Hk & _).
  exists script. split_and!; [exact Ho|exact Hn|]. apply Hk.
  exists {| hl_side := SideAfter; hl_line_index := 1; hl_ranges := [(0, 2)] |}.
  split; [|reflexivity]. apply elem_of_cons. right. by apply list_elem_of_singleton.
Defined.
