(* ===== verification/DiffService.v ===== *)
(** The comparison service: [crates/application/src/text_diff.rs] and
    [text_diff/attachments.rs].

    The mutex-guarded [State] is a record; an operation that locks it is a
    function of the state in the monad [M], so that what an early return leaves
    behind is visible.  [Arc<AttachmentData>] values live in [heap]: a stored
    attachment and a resolved input hold a location, [strong_count] counts the
    holders, and [sweep] drops the data nobody holds, which takes its charge off
    the ledger [attachment_bytes].  Time, random handles, allocation and the
    engine's answer are arguments. *)

From S2P Require Import Prelude Utf8 Strings TextDiff Paging.

Definition MAX_PATCH_BYTES : Z := 8 * 1024 * 1024.
Definition RETENTION : Z := 600.
Definition MAX_ENTRIES : Z := 32.
Definition MAX_STORE_BYTES : Z := 128 * 1024 * 1024.
Definition JOB_RESERVATION : Z := 32 * 1024 * 1024.
Definition MAX_ATTACHMENTS : Z := 64.
Definition ENTRY_OVERHEAD : Z := 1024.
Definition PERMITS : Z := 2.

(** What the allocator gives: capacities of strings and vectors. *)
Class Allocation := {
  (** the capacity after [try_reserve_exact], if the allocation succeeds *)
  reserve_exact : Z -> option Z;
  string_capacity : str -> Z;
  vec_capacity : forall {A}, list A -> Z;
  (** [serde_json::to_vec(&response).map(len)] of a page response *)
  json_response_len : PageResponse -> option Z;
}.

(** A capacity holds at least the contents. *)
Class AllocationLaws `{Allocation} := {
  reserve_exact_ge n c : reserve_exact n = Some c -> n <= c;
  string_capacity_ge s : slen s <= string_capacity s;
  vec_capacity_ge A (l : list A) : zlen l <= vec_capacity l;
}.

(** * State *)

Record AttachmentData := { ad_text : str; ad_charge : Z }.

Record StoredAttachment := {
  sa_data : nat; sa_summary : AttachmentSummary; sa_expires : Z;
}.

Inductive ResolvedText :=
| RInline (text : str)
| RAttachment (data : nat).

Record Stored := {
  sd_patch : str; sd_summary : ComparisonSummary; sd_before : str; sd_after : str;
  sd_changes : list (list DiffFragment); sd_expires : Z; sd_caller : nat; sd_bytes : Z;
}.

(** A job from its permit on: it waits for its reservation, it has one, its
    result is in the store while the reservation is still charged, or the
    reservation is dropped and the permit not yet. *)
Inductive Phase := Admitting | Running | Published | Released.

(** The fields of [State], then the data shared with requests and jobs: live
    attachment data, locations that resolved inputs hold, cancelled caller
    tokens, the permits left in the [admission] semaphore and the jobs that hold
    the others. *)
Record State := {
  attachments : gmap str StoredAttachment;
  attachment_bytes : Z;
  entries : gmap str Stored;
  reserved : Z;
  reserved_slots : Z;
  stopping : bool;
  heap : gmap nat AttachmentData;
  leases : list nat;
  cancelled : gset nat;
  permits : Z;
  tasks : gmap nat Phase;
}.

Definition initial_state : State :=
  {| attachments := ∅; attachment_bytes := 0; entries := ∅; reserved := 0;
     reserved_slots := 0; stopping := false; heap := ∅; leases := [];
     cancelled := ∅; permits := PERMITS; tasks := ∅ |}.

Definition set_attachments a (s : State) : State :=
  {| attachments := a; attachment_bytes := attachment_bytes s; entries := entries s;
     reserved := reserved s; reserved_slots := reserved_slots s; stopping := stopping s;
     heap := heap s; leases := leases s; cancelled := cancelled s; permits := permits s; tasks := tasks s |}.
Definition set_entries e (s : State) : State :=
  {| attachments := attachments s; attachment_bytes := attachment_bytes s; entries := e;
     reserved := reserved s; reserved_slots := reserved_slots s; stopping := stopping s;
     heap := heap s; leases := leases s; cancelled := cancelled s; permits := permits s; tasks := tasks s |}.
Definition set_heap h bytes (s : State) : State :=
  {| attachments := attachments s; attachment_bytes := bytes; entries := entries s;
     reserved := reserved s; reserved_slots := reserved_slots s; stopping := stopping s;
     heap := h; leases := leases s; cancelled := cancelled s; permits := permits s; tasks := tasks s |}.
Definition set_leases l (s : State) : State :=
  {| attachments := attachments s; attachment_bytes := attachment_bytes s; entries := entries s;
     reserved := reserved s; reserved_slots := reserved_slots s; stopping := stopping s;
     heap := heap s; leases := l; cancelled := cancelled s; permits := permits s; tasks := tasks s |}.
Definition set_jobs r n p t (s : State) : State :=
  {| attachments := attachments s; attachment_bytes := attachment_bytes s; entries := entries s;
     reserved := r; reserved_slots := n; stopping := stopping s;
     heap := heap s; leases := leases s; cancelled := cancelled s; permits := p; tasks := t |}.
Definition set_stopping b (s : State) : State :=
  {| attachments := attachments s; attachment_bytes := attachment_bytes s; entries := entries s;
     reserved := reserved s; reserved_slots := reserved_slots s; stopping := b;
     heap := heap s; leases := leases s; cancelled := cancelled s; permits := permits s; tasks := tasks s |}.
Definition set_cancelled c (s : State) : State :=
  {| attachments := attachments s; attachment_bytes := attachment_bytes s; entries := entries s;
     reserved := reserved s; reserved_slots := reserved_slots s; stopping := stopping s;
     heap := heap s; leases := leases s; cancelled := c; permits := permits s; tasks := tasks s |}.

(** * The monad of locked operations *)

Definition M (A : Type) : Type := State -> result TextDiffError A * State.

Definition ret {A} (a : A) : M A := fun s => (Ok a, s).
Definition fail {A} (e : TextDiffError) : M A := fun s => (Err e, s).
Definition bind {A B} (m : M A) (k : A -> M B) : M B :=
  fun s => match m s with
           | (Ok a, s) => k a s
           | (Err e, s) => (Err e, s)
           end.
Definition lift {A} (r : result TextDiffError A) : M A := fun s => (r, s).
Definition gets {A} (f : State -> A) : M A := fun s => (Ok (f s), s).
Definition modify (f : State -> State) : M unit := fun s => (Ok tt, f s).
(** [if b { return Err(e); }] *)
Definition reject_if (b : bool) (e : TextDiffError) : M unit :=
  if b then fail e else ret tt.

Notation "'let!' x ':=' m 'in' k" := (bind m (fun x => k))
  (at level 10, x pattern, m at level 100, k at level 200) : result_scope.
Notation "m ';!' k" := (bind m (fun _ => k)) (at level 60, right associativity) : result_scope.

(** * Shared data *)

Definition attachment_refs (s : State) (loc : nat) : list (str * StoredAttachment) :=
  filter (fun kv => sa_data kv.2 = loc) (map_to_list (attachments s)).
Definition lease_refs (s : State) (loc : nat) : list nat := filter (eq loc) (leases s).

(** [Arc::strong_count] of the data at a location. *)
Definition strong_count (s : State) (loc : nat) : Z :=
  zlen (attachment_refs s loc) + zlen (lease_refs s loc).

(** The data whose last holder is gone is dropped: [AttachmentData::drop]. *)
Definition sweep (s : State) : State :=
  let live := filter (fun kv => 0 < strong_count s kv.1) (heap s) in
  let dropped := filter (fun kv => ~ 0 < strong_count s kv.1) (heap s) in
  set_heap live (attachment_bytes s - map_sum ad_charge dropped) s.

Definition fresh_location (s : State) : nat := fresh (dom (heap s)).

(** [used(state)] *)
Definition used (s : State) : Z :=
  map_sum sd_bytes (entries s) + reserved s + attachment_bytes s.

Definition expire (now : Z) : M unit :=
  modify (fun s =>
    let s := sweep (set_attachments
               (filter (fun kv => now < sa_expires kv.2) (attachments s)) s) in
    set_entries
      (filter (fun kv => now < sd_expires kv.2 /\ sd_caller kv.2 ∉ cancelled s) (entries s)) s).

Definition valid_handle (id : str) : result TextDiffError unit :=
  if (slen id =? 64) && forallb (fun b => is_ascii_digit b || in_range 97 102 b) (bytes id)
  then Ok tt else Err InvalidInput.

(** * Texts *)

(** Non-overlapping occurrences of [\r\n]. *)
Fixpoint crlf_count (s : str) : Z :=
  match s with
  | c :: rest =>
    match rest with
    | d :: rest' => if (c =? CR) && (d =? LF) then 1 + crlf_count rest' else crlf_count rest
    | [] => 0
    end
  | [] => 0
  end.

Definition count_byte (b : byte) (s : str) : Z := zlen (List.filter (Z.eqb b) (bytes s)).
Definition BOM : char := 65279.

Definition text_info (text label : str) : result TextDiffError TextInfo :=
  if (MAX_TEXT_BYTES <? slen text) || contains_char 0 text
     || str_eqb label [] || (128 <? slen label) || existsb is_control label
  then Err InvalidInput else
  let lines := zlen (split_inclusive text) in
  if (MAX_LINES <? lines)
     || existsb (fun line => MAX_LINE_BYTES <? slen (strip_newline line)) (split_inclusive text)
  then Err InvalidInput else
  let crlf := crlf_count text in
  Ok {| ti_label := label; ti_bytes := slen text; ti_lines := lines; ti_crlf := crlf;
        ti_lf := count_byte LF text - crlf; ti_bare_cr := count_byte CR text - crlf;
        ti_bom := starts_with [BOM] text; ti_final_newline := ends_lf text |}.

Definition maximum (kind : AttachmentKind) : Z :=
  match kind with Text => MAX_TEXT_BYTES | Patch => MAX_PATCH_INPUT_BYTES end.

Definition validate (kind : AttachmentKind) (text : str) : result TextDiffError unit :=
  if (maximum kind <? slen text) || contains_char 0 text then Err InvalidInput else
  match kind with
  | Text => let? _ := text_info text (u "Text") in Ok tt
  | Patch => Ok tt
  end.

Definition check_declared_kind (declared : option AttachmentKind) (actual : AttachmentKind)
  : result TextDiffError unit :=
  match declared with
  | Some kind => if bool_decide (kind = actual) then Ok tt else Err AttachmentKindMismatch
  | None => Ok tt
  end.

(** * Handles *)

(** Draws of the [HandleGenerator]: the answer of each call in turn. *)
Definition Draws : Type := nat -> result TextDiffError (list byte).

(** At most [n] draws, until an identifier that is not taken. *)
Fixpoint draw_id (n i : nat) (generate : Draws) (taken : str -> bool) : result TextDiffError str :=
  match n with
  | O => Err Internal
  | S n =>
    let? bytes := generate i in
    let id := hex bytes in
    if taken id then draw_id n (S i) generate taken else Ok id
  end.

Definition has_entry (s : State) (id : str) : bool := bool_decide (is_Some (entries s !! id)).
Definition has_attachment (s : State) (id : str) : bool :=
  bool_decide (is_Some (attachments s !! id)).

Definition fresh_attachment_id (generate : Draws) : M str :=
  fun s => (draw_id 4 0 generate (fun id => has_attachment s id || has_entry s id), s).

(** * Attachments *)

(** A new shared value and its charge on the ledger. *)
Definition insert_attachment (id : str) (data : AttachmentData) (summary : AttachmentSummary)
  (expires : Z) (s : State) : State :=
  let loc := fresh_location s in
  set_attachments
    (<[id := {| sa_data := loc; sa_summary := summary; sa_expires := expires |}]> (attachments s))
    (set_heap (<[loc := data]> (heap s)) (attachment_bytes s + ad_charge data) s).

Definition stored_text (s : State) (entry : StoredAttachment) : str :=
  match heap s !! sa_data entry with Some d => ad_text d | None => [] end.

(** [Arc::get_mut]: the only holder may write the text. *)
Definition write_text (loc : nat) (text : str) : M unit := fun s =>
  match heap s !! loc with
  | Some d =>
    if strong_count s loc =? 1
    then (Ok tt, set_heap (<[loc := {| ad_text := text; ad_charge := ad_charge d |}]> (heap s))
                   (attachment_bytes s) s)
    else (Err Internal, s)
  | None => (Err Internal, s)
  end.

Definition commit (summary : AttachmentSummary) (end_ : Z) (complete : bool) : AttachmentSummary :=
  {| as_attachment_id := as_attachment_id summary; as_kind := as_kind summary;
     as_total_bytes := as_total_bytes summary; as_committed_bytes := end_;
     as_sealed := complete; as_expires_at := as_expires_at summary |}.

(** The branch of an upload that names an attachment. *)
Definition upload_continue (id : str) (request : AttachmentUpload)
  (declared : option AttachmentKind) : M AttachmentSummary :=
  lift (valid_handle id);!
  reject_if (is_some (up_kind request) || is_some (up_total_bytes request)) InvalidInput;!
  let! found := gets (fun s => attachments s !! id) in
  let! entry := lift (ok_or found NotFound) in
  let summary := sa_summary entry in
  lift (check_declared_kind declared (as_kind summary));!
  let! text := gets (fun s => stored_text s entry) in
  let offset := up_offset request in
  let chunk := up_chunk request in
  reject_if ((offset <? slen text) && negb (is_char_boundary text offset))
    (InvalidUtf8Boundary offset);!
  let! end_ := lift (ok_or (checked_add offset (slen chunk)) InvalidInput) in
  reject_if ((as_total_bytes summary <? end_)
             || (up_complete request && negb (end_ =? as_total_bytes summary))) InvalidInput;!
  if (offset <? slen text) || as_sealed summary then
    reject_if (negb (bool_decide (str_range text offset end_ = Some chunk))
               || (up_complete request && negb (as_sealed summary))) InvalidInput;!
    ret summary
  else
    reject_if (negb (offset =? slen text)
               || (str_eqb chunk [] && negb (up_complete request))) InvalidInput;!
    write_text (sa_data entry) (text ++ chunk);!
    match (if up_complete request then validate (as_kind summary) (text ++ chunk) else Ok tt) with
    | Err error => write_text (sa_data entry) text;! fail error
    | Ok _ =>
      let summary := commit summary end_ (up_complete request) in
      modify (fun s => set_attachments
        (<[id := {| sa_data := sa_data entry; sa_summary := summary;
                    sa_expires := sa_expires entry |}]> (attachments s)) s);!
      ret summary
    end.

Section operations.
Context `{JsonSizes} `{Allocation}.

Definition new_summary (id : str) (kind : AttachmentKind) (total committed : Z)
  (sealed : bool) (expires_at : Z) : AttachmentSummary :=
  {| as_attachment_id := id; as_kind := kind; as_total_bytes := total;
    as_committed_bytes := committed; as_sealed := sealed; as_expires_at := expires_at |}.

Definition full_attachments (s : State) : bool := MAX_ATTACHMENTS <=? Z.of_nat (size (attachments s)).

(** The branch of an upload that opens an attachment. *)
Definition upload_create (generate : Draws) (clock now : Z) (request : AttachmentUpload)
  (declared : option AttachmentKind) : M AttachmentSummary :=
  reject_if (is_some declared) InvalidInput;!
  let! kind := lift (ok_or (up_kind request) InvalidInput) in
  let! total := lift (ok_or (up_total_bytes request) InvalidInput) in
  let chunk := up_chunk request in
  reject_if (negb (up_offset request =? 0) || (maximum kind <? total) || (total <? slen chunk)
      || (up_complete request && negb (slen chunk =? total))
      || (negb (up_complete request) && str_eqb chunk [])) InvalidInput;!
  (if up_complete request then lift (validate kind chunk) else ret tt);!
  let! s := gets id in
  reject_if (full_attachments s
      || (MAX_STORE_BYTES <? saturating_add (used s) (total + ENTRY_OVERHEAD))) Busy;!
  let! id := fresh_attachment_id generate in
  let! capacity := lift (ok_or (reserve_exact total) ResourceLimit) in
  let charge := capacity + ENTRY_OVERHEAD in
  reject_if (MAX_STORE_BYTES <? saturating_add (used s) charge) Busy;!
  let summary := new_summary id kind total (slen chunk) (up_complete request)
  (saturating_add clock 600) in
  modify (insert_attachment id {| ad_text := chunk; ad_charge := charge |} summary
    (now + RETENTION));!
  ret summary.

Definition upload_attachment_with_kind (generate : Draws) (clock now : Z)
  (request : AttachmentUpload) (declared : option AttachmentKind) : M AttachmentSummary :=
  reject_if ((MAX_ATTACHMENT_CHUNK_BYTES <? slen (up_chunk request))
      || contains_char 0 (up_chunk request)) InvalidInput;!
  expire now;!
  let! stop := gets stopping in
  reject_if stop Unavailable;!
  match up_attachment_id request with
  | Some id => upload_continue id request declared
  | None => upload_create generate clock now request declared
  end.

Definition upload_attachment (generate : Draws) (clock now : Z) (request : AttachmentUpload)
  : M AttachmentSummary :=
  upload_attachment_with_kind generate clock now request None.

(** [AttachmentRead]: the handle and the offset. *)
Definition read_attachment_with_kind (now : Z) (id : str) (offset : Z)
  (declared : option AttachmentKind) : M AttachmentPage :=
  lift (valid_handle id);!
  expire now;!
  let! found := gets (fun s => attachments s !! id) in
  let! entry := lift (ok_or found NotFound) in
  lift (check_declared_kind declared (as_kind (sa_summary entry)));!
  let! text := gets (fun s => stored_text s entry) in
  reject_if (negb (as_sealed (sa_summary entry)) || (slen text <? offset)) InvalidInput;!
  reject_if (negb (is_char_boundary text offset)) (InvalidUtf8Boundary offset);!
  let start_end := Z.min (saturating_add offset MAX_ATTACHMENT_CHUNK_BYTES) (slen text) in
  match align_down (E:=TextDiffError) 3 text start_end with
  | Err _ => fail Internal
  | Ok end_ =>
    match str_range text offset end_ with
    | None => fail Internal
    | Some piece =>
      ret {| ap_attachment := sa_summary entry; ap_offset := offset; ap_next_offset := end_;
        ap_complete := end_ =? slen text; ap_text := piece |}
    end
  end.

Definition read_attachment (now : Z) (id : str) (offset : Z) : M AttachmentPage :=
  read_attachment_with_kind now id offset None.

Definition delete_attachment_with_kind (now : Z) (id : str) (declared : option AttachmentKind)
  : M unit :=
  lift (valid_handle id);!
  expire now;!
  let! found := gets (fun s => attachments s !! id) in
  (match found with
  | Some entry => lift (check_declared_kind declared (as_kind (sa_summary entry)))
  | None => ret tt
  end);!
  modify (fun s => sweep (set_attachments (delete id (attachments s)) s)).

Definition delete_attachment (now : Z) (id : str) : M unit :=
  delete_attachment_with_kind now id None.

Definition publish_attachment (generate : Draws) (clock now : Z) (text : str)
  (kind : AttachmentKind) : M AttachmentSummary :=
  lift (validate kind text);!
  expire now;!
  let charge := string_capacity text + ENTRY_OVERHEAD in
  let! s := gets id in
  reject_if (stopping s) Unavailable;!
  reject_if (full_attachments s || (MAX_STORE_BYTES <? saturating_add (used s) charge)) Busy;!
  let! id := fresh_attachment_id generate in
  let summary := new_summary id kind (slen text) (slen text) true (saturating_add clock 600) in
  modify (insert_attachment id {| ad_text := text; ad_charge := charge |} summary
    (now + RETENTION));!
  ret summary.

(** A source text: inline, or a sealed attachment of the right kind. *)
Definition resolve (now : Z) (input : TextSource) (kind : AttachmentKind) : M ResolvedText :=
  match input with
  | Inline text => lift (validate kind text);! ret (RInline text)
  | Attachment handle =>
    lift (valid_handle (attachment_id handle));!
    expire now;!
    let! found := gets (fun s => attachments s !! attachment_id handle) in
    let! entry := lift (ok_or found NotFound) in
    lift (check_declared_kind (declared_kind handle) (as_kind (sa_summary entry)));!
    reject_if (negb (bool_decide (as_kind (sa_summary entry) = kind))) AttachmentKindMismatch;!
    reject_if (negb (as_sealed (sa_summary entry))) InvalidInput;!
    let! text := gets (fun s => stored_text s entry) in
    (** the clone of the [Arc] is dropped again when the text is not valid *)
    lift (validate kind text);!
    modify (fun s => set_leases (sa_data entry :: leases s) s);!
    ret (RAttachment (sa_data entry))
  end.

Definition resolved_text (s : State) (r : ResolvedText) : str :=
  match r with
  | RInline text => text
  | RAttachment loc => match heap s !! loc with Some d => ad_text d | None => [] end
  end.

Fixpoint remove_one (loc : nat) (l : list nat) : list nat :=
  match l with
  | [] => []
  | x :: l => if Nat.eqb x loc then l else x :: remove_one loc l
  end.

(** Dropping a resolved input. *)
Definition drop_resolved (r : ResolvedText) (s : State) : State :=
  match r with
  | RInline _ => s
  | RAttachment loc => sweep (set_leases (remove_one loc (leases s)) s)
  end.
(** * Comparisons *)

(** [bytes.checked_add(count.checked_mul(size)?)?] over the terms *)
Fixpoint add_terms (bytes : Z) (terms : list (Z * Z)) : result TextDiffError Z :=
  match terms with
  | [] => Ok bytes
  | (count, size) :: terms =>
    let? product := ok_or (checked_mul count size) ResourceLimit in
    let? bytes := ok_or (checked_add bytes product) ResourceLimit in
    add_terms bytes terms
  end.

Definition size_of_Vec : Z := 24.
Definition size_of_InlineChange : Z := 32.
Definition size_of_ScalarRange : Z := 8.
Definition size_of_DiffFragment : Z := 80.

Definition fragment_terms (f : DiffFragment) : list (Z * Z) :=
  (string_capacity (df_patch f), 1)
  :: (vec_capacity (df_inline_changes f), size_of_InlineChange)
  :: ((fun c => (vec_capacity (ic_ranges c), size_of_ScalarRange)) <$> df_inline_changes f).

Definition retained_bytes (before after : str) (pages : list (list DiffFragment))
  (page_capacity : Z) : result TextDiffError Z :=
  add_terms 4096
  ((slen before, 1) :: (slen after, 1) :: (page_capacity, size_of_Vec)
    :: (pages ≫= (fun page => (vec_capacity page, size_of_DiffFragment) :: (page ≫= fragment_terms)))).

(** [try_acquire_owned] of the semaphore: a new job. *)
Definition take_permit : M nat := fun s =>
  if permits s <=? 0 then (Err Busy, s)
  else
    let task := fresh (dom (tasks s)) in
    (Ok task, set_jobs (reserved s) (reserved_slots s) (permits s - 1) (<[task := Admitting]> (tasks s)) s).

(** Room for the reservation of a job, under the lock; [apply] jobs also need
    room for one more attachment. *)
Definition reserve (task : nat) (now : Z) (shutdown apply : bool) : M unit := fun s =>
  let s := (expire now s).2 in
  if stopping s || shutdown then (Err Unavailable, s)
  else if (MAX_ENTRIES <=? Z.of_nat (size (entries s)) + reserved_slots s)
    || (apply && full_attachments s)
    || (MAX_STORE_BYTES <? (if apply then saturating_add (used s) JOB_RESERVATION
      else used s + JOB_RESERVATION))
    then (Err Busy, s)
    else (Ok tt, set_jobs (reserved s + JOB_RESERVATION) (reserved_slots s + 1) (permits s)
                   (<[task := Running]> (tasks s)) s).

(** [Reservation::drop], under the lock. *)
Definition drop_reservation (task : nat) (s : State) : State :=
  set_jobs (saturating_sub (reserved s) JOB_RESERVATION) (saturating_sub (reserved_slots s) 1)
    (permits s) (<[task := Released]> (tasks s)) s.

(** The permit goes back to the semaphore; the job is over. *)
Definition drop_permit (task : nat) (s : State) : State :=
  set_jobs (reserved s) (reserved_slots s) (permits s + 1) (delete task (tasks s)) s.

(** Admission of a job; a refused one returns its permit. *)
Definition admit_job (now : Z) (shutdown apply : bool) : M nat := fun s =>
  match take_permit s with
  | (Err e, s) => (Err e, s)
  | (Ok task, s) =>
    match reserve task now shutdown apply s with
    | (Err e, s) => (Err e, drop_permit task s)
    | (Ok _, s) => (Ok task, s)
    end
  end.

(** The end of a job: both are dropped. *)
Definition end_job (task : nat) (s : State) : State := drop_permit task (drop_reservation task s).

Definition start_comparison (now : Z) (shutdown gave_up : bool) (before after : str)
  (before_label after_label : option str) : M ((TextInfo * TextInfo) * nat) :=
  let! before_info := lift (text_info before (default (u "Before") before_label)) in
  let! after_info := lift (text_info after (default (u "After") after_label)) in
  reject_if gave_up Cancelled;!
  let! task := admit_job now shutdown false in
  ret ((before_info, after_info), task).

(** Two inputs; when the second fails, [?] drops the first. *)
Definition resolve_pair (now now' : Z) (first : TextSource) (kind : AttachmentKind)
  (second : TextSource) (kind' : AttachmentKind) : M (ResolvedText * ResolvedText) := fun s =>
  match resolve now first kind s with
  | (Err e, s) => (Err e, s)
  | (Ok first, s) =>
    match resolve now' second kind' s with
    | (Err e, s) => (Err e, drop_resolved first s)
    | (Ok second, s) => (Ok (first, second), s)
    end
  end.

(** The start of [compare_sources]: both texts, held until the request ends. *)
Definition start_compare_sources (now now' now'' : Z) (shutdown gave_up : bool)
  (before after : TextSource) (before_label after_label : option str)
  : M ((ResolvedText * ResolvedText) * ((TextInfo * TextInfo) * nat)) := fun s =>
  match resolve_pair now now' before Text after Text s with
  | (Err e, s) => (Err e, s)
  | (Ok (before, after), s) =>
    match start_comparison now'' shutdown gave_up (resolved_text s before)
      (resolved_text s after) before_label after_label s with
    | (Err e, s) => (Err e, drop_resolved after (drop_resolved before s))
    | (Ok infos, s) => (Ok ((before, after), infos), s)
    end
  end.

(** The start of [apply_patch]: both inputs, moved into the admitted job. *)
Definition start_apply (now now' now'' : Z) (shutdown gave_up : bool) (target patch : TextSource)
  : M ((ResolvedText * ResolvedText) * nat) := fun s =>
  match resolve_pair now now' target Text patch Patch s with
  | (Err e, s) => (Err e, s)
  | (Ok (target, patch), s) =>
    match (reject_if gave_up Cancelled;! admit_job now'' shutdown true) s with
    | (Err e, s) => (Err e, drop_resolved patch (drop_resolved target s))
    | (Ok task, s) => (Ok ((target, patch), task), s)
    end
  end.

(** The entry that the comparison of [task] publishes: the [and_then] closure.
    [late] and [late'] say that the caller, the service or the deadline gave up
    before the result was checked, and before it was published. *)
Definition publish_comparison (task : nat) (generate : Draws) (clock now : Z) (late late' : bool) (token : nat)
  (before after : str) (before_info after_info : TextInfo) (origin_len : option Z)
  (patch : result TextDiffError ComputedDiff) : M ComparisonSummary :=
  let! patch := lift patch in
  reject_if late Cancelled;!
  reject_if (MAX_PATCH_BYTES <? slen (cd_patch patch)) ResourceLimit;!
  let! (changes, additions, deletions) := lift (changes patch before after) in
  let! s := gets id in
  reject_if (stopping s || late') Cancelled;!
  let! id := lift (draw_id 4 0 generate (has_entry s)) in
  let equal := str_eqb before after in
  reject_if (negb (eqb equal ((additions =? 0) && (deletions =? 0)))) Internal;!
  let summary :=
    {| cs_comparison_id := id; cs_expires_at := saturating_add clock 600;
      cs_before := before_info; cs_after := after_info; cs_additions := additions;
      cs_deletions := deletions; cs_equal := equal; cs_change_pages := zlen changes |} in
  let! origin_bytes := lift (ok_or origin_len Internal) in
  let! retained := lift (retained_bytes before after changes (vec_capacity changes)) in
  let bytes := retained + origin_bytes + string_capacity (cd_patch patch) in
  reject_if (JOB_RESERVATION <? bytes) ResourceLimit;!
  modify (fun s => set_entries
    (<[id := {| sd_patch := cd_patch patch; sd_summary := summary; sd_before := before;
      sd_after := after; sd_changes := changes; sd_expires := now + RETENTION;
      sd_caller := token; sd_bytes := bytes |}]> (entries s))
    (set_jobs (reserved s) (reserved_slots s) (permits s) (<[task := Published]> (tasks s)) s));!
  ret summary.

Definition delete_comparison (id : str) : M unit :=
  lift (valid_handle id);!
  modify (fun s => set_entries (delete id (entries s)) s).

(** The spawned task of a comparison after the engine's answer: the result is
    published, the reservation dropped, a result that nobody receives deleted,
    and the permit returned.  Other requests may run between these steps. *)
Definition finish_comparison (task : nat) (generate : Draws) (clock now : Z) (late late' received : bool)
  (token : nat) (before after : str) (before_info after_info : TextInfo)
  (origin_len : option Z) (patch : result TextDiffError ComputedDiff) : M ComparisonSummary :=
  fun s =>
  let '(r, s) := publish_comparison task generate clock now late late' token before after
    before_info after_info origin_len patch s in
  let s := drop_reservation task s in
  let s :=
    match r with
    | Ok summary => if received then s else (delete_comparison (cs_comparison_id summary) s).2
    | Err _ => s
    end in
  (r, drop_permit task s).

Definition comparison_summary (now : Z) (id : str) : M ComparisonSummary :=
  lift (valid_handle id);!
  expire now;!
  let! found := gets (fun s => entries s !! id) in
  lift (ok_or (sd_summary <$> found) NotFound).

(** [PageRequest]: the handle, the view and the page. *)
Definition comparison_page (now : Z) (id : str) (view : PageView) (page : Z) : M PageResponse :=
  lift (valid_handle id);!
  expire now;!
  let! found := gets (fun s => entries s !! id) in
  let! entry := lift (ok_or found NotFound) in
  let! (total_pages, text, fragments) :=
    match view with
    | Changes =>
      let! fragments := lift (ok_or (index_get (sd_changes entry) page) InvalidInput) in
      ret (zlen (sd_changes entry), None, fragments)
    | _ =>
      let source := match view with Before => sd_before entry | _ => sd_after entry end in
      match chunks source with
      | Err _ => fail Internal
      | Ok pieces =>
        let! piece := lift (ok_or (index_get pieces page) InvalidInput) in
        ret (zlen pieces, Some piece, [])
      end
    end in
  let response :=
    {| pr_comparison_id := id; pr_view := view; pr_page := page; pr_total_pages := total_pages;
      pr_text := text; pr_fragments := fragments |} in
  let! len := lift (ok_or (json_response_len response) Internal) in
  reject_if (256 * 1024 <? len) ResourceLimit;!
  ret response.

(** The exported patch of [compare_sources]. *)
Definition export_patch (generate : Draws) (now : Z) (comparison : ComparisonSummary)
  : M AttachmentSummary :=
  expire now;!
  let! found := gets (fun s => entries s !! cs_comparison_id comparison) in
  let! stored := lift (ok_or found NotFound) in
  let text := sd_patch stored in
  let charge := slen text + ENTRY_OVERHEAD in
  let! s := gets id in
  reject_if (full_attachments s || (MAX_STORE_BYTES <? saturating_add (used s) charge)) Busy;!
  let! id := fresh_attachment_id generate in
  let summary := new_summary id Patch (slen text) (slen text) true (cs_expires_at comparison) in
  modify (insert_attachment id {| ad_text := text; ad_charge := charge |} summary
    (sd_expires stored));!
  ret summary.

Definition finish_export (generate : Draws) (now : Z) (comparison : ComparisonSummary)
  : M AttachmentSummary := fun s =>
  match export_patch generate now comparison s with
  | (Ok patch, s) => (Ok patch, s)
  | (Err error, s) =>
    match delete_comparison (cs_comparison_id comparison) s with
    | (Ok _, s) => (Err error, s)
    | (Err e, s) => (Err e, s)
    end
  end.

(** The spawned task of [apply_patch] after the engine's answer: publication, the
    removal of a result nobody receives ([AttachmentDelivery::drop]), then the end
    of the job and of the inputs it owns. *)
Definition finish_apply (task : nat) (generate : Draws) (clock now now' : Z) (late received : bool)
  (target patch : ResolvedText) (text : result TextDiffError str)
  : M (AttachmentSummary * TextInfo) := fun s =>
  let '(r, s) :=
    (let! text := lift text in
      reject_if late Cancelled;!
      let! info := lift (text_info text (u "Patched text")) in
      let! summary := publish_attachment generate clock now text Text in
      ret (summary, info)) s in
  let s :=
    match r with
    | Ok (summary, _) =>
      if received then s else (delete_attachment now' (as_attachment_id summary) s).2
    | Err _ => s
    end in
  (r, drop_resolved patch (drop_resolved target (end_job task s))).

(** The end of [run], the jobs joined: one store is cleared, then the other. *)
Definition clear_entries (s : State) : State := set_entries ∅ s.
Definition clear_attachments (s : State) : State := sweep (set_attachments ∅ s).
Definition shutdown_stores (s : State) : State := clear_attachments (clear_entries s).
End operations.
