(* ===== verification/DiffFacts.v ===== *)
(** Correctness of the comparison service: the accounting invariant of the
    stores over every interleaving of locked operations, the upload protocol,
    sequential reads, leases and published comparisons. *)

From S2P Require Import Prelude Utf8 Strings TextDiff PatchFacts Paging PagingFacts DiffService.

(** * Weakest preconditions of locked operations *)

Definition wp {A} (m : M A) (Φ : result TextDiffError A -> State -> Prop) (s : State) : Prop :=
  let '(r, s') := m s in Φ r s'.

Section wp.
Context {A : Type}.
Implicit Types Φ : result TextDiffError A -> State -> Prop.

Lemma wp_ret a Φ s : Φ (Ok a) s -> wp (ret a) Φ s.
Proof. done. Qed.

Lemma wp_fail e Φ s : Φ (Err e) s -> wp (fail e) Φ s.
Proof. done. Qed.

Lemma wp_bind {B} (m : M B) (k : B -> M A) Φ s :
  wp m (fun r s' => match r with Ok b => wp (k b) Φ s' | Err e => Φ (Err e) s' end) s ->
  wp (bind m k) Φ s.
Proof. unfold wp, bind. by destruct (m s) as [[b|e] s']. Qed.

Lemma wp_lift r Φ s : (forall e, r = Err e -> Φ (Err e) s) -> (forall a, r = Ok a -> Φ (Ok a) s) ->
  wp (lift r) Φ s.
Proof. unfold wp, lift. destruct r; auto. Qed.

Lemma wp_gets (f : State -> A) Φ s : Φ (Ok (f s)) s -> wp (gets f) Φ s.
Proof. done. Qed.

Lemma wp_mono (m : M A) Φ Ψ s : wp m Φ s -> (forall r s', Φ r s' -> Ψ r s') -> wp m Ψ s.
Proof. unfold wp. destruct (m s). auto. Qed.

Lemma wp_run (m : M A) Φ s r s' : wp m Φ s -> m s = (r, s') -> Φ r s'.
Proof. unfold wp. intros Hm Hr. by rewrite Hr in Hm. Qed.
End wp.

Lemma wp_modify f (Φ : result TextDiffError unit -> State -> Prop) s :
  Φ (Ok tt) (f s) -> wp (modify f) Φ s.
Proof. done. Qed.

Lemma wp_reject_if b e (Φ : result TextDiffError unit -> State -> Prop) s :
  (b = true -> Φ (Err e) s) -> (b = false -> Φ (Ok tt) s) -> wp (reject_if b e) Φ s.
Proof. intros Ht Hf. destruct b; [by apply Ht|by apply Hf]. Qed.

Lemma wp_ok_or {A} (o : option A) e (Φ : result TextDiffError A -> State -> Prop) s :
  (o = None -> Φ (Err e) s) -> (forall a, o = Some a -> Φ (Ok a) s) -> wp (lift (ok_or o e)) Φ s.
Proof. destruct o; intros Hn Hs; [by apply Hs|by apply Hn]. Qed.

Ltac wp_step :=
  match goal with
  | |- wp (bind _ _) _ _ => apply wp_bind
  | |- wp (ret _) _ _ => apply wp_ret
  | |- wp (fail _) _ _ => apply wp_fail
  | |- wp (gets _) _ _ => apply wp_gets
  | |- wp (modify _) _ _ => apply wp_modify
  | |- wp (expire _) _ _ => apply wp_modify
  end; cbv beta iota.
(** The steps that branch leave the error to the first goal. *)
Tactic Notation "wp_guard" "as" ident(H) :=
  repeat wp_step; apply wp_reject_if; intros H; cbv beta iota.
Tactic Notation "wp_try" "as" simple_intropattern(x) ident(H) :=
  repeat wp_step; apply wp_lift; [intros ? H; cbv beta iota|intros x H; cbv beta iota].
Tactic Notation "wp_some" "as" ident(x) ident(H) :=
  repeat wp_step; apply wp_ok_or; [intros H|intros x H]; cbv beta iota.

(** * The invariant *)

(** Some attachment or resolved input holds the data at [loc]. *)
Definition held (s : State) (loc : nat) : Prop :=
  (exists id a, attachments s !! id = Some a /\ sa_data a = loc) \/ loc ∈ leases s.

Definition attachment_ok (id : str) (a : StoredAttachment) (d : AttachmentData) : Prop :=
  let sum := sa_summary a in
  valid_handle id = Ok tt /\ as_attachment_id sum = id
  /\ as_committed_bytes sum = slen (ad_text d)
  /\ slen (ad_text d) <= as_total_bytes sum <= maximum (as_kind sum)
  /\ as_total_bytes sum + ENTRY_OVERHEAD <= ad_charge d
  /\ (as_sealed sum = true -> as_committed_bytes sum = as_total_bytes sum
      /\ (as_kind sum = Text -> validate Text (ad_text d) = Ok tt)).

(** A job whose reservation is charged, and one whose reservation still stands for
    a result that is not in the store. *)
Definition charged (p : Phase) : Z := match p with Running | Published => 1 | _ => 0 end.
Definition runs (p : Phase) : Z := match p with Running => 1 | _ => 0 end.
Definition running (s : State) : Z := map_sum runs (tasks s).

(** The bytes in the stores, without the reservations. *)
Definition stored_bytes (s : State) : Z := map_sum sd_bytes (entries s) + attachment_bytes s.

(** The invariant, except that data nobody holds may still await its drop. *)
Record accounted (s : State) : Prop := {
  ac_ledger : attachment_bytes s = map_sum ad_charge (heap s);
  ac_charge : forall loc d, heap s !! loc = Some d -> 0 <= ad_charge d;
  ac_store : stored_bytes s + JOB_RESERVATION * running s <= MAX_STORE_BYTES;
  ac_reserved : reserved s = JOB_RESERVATION * reserved_slots s;
  ac_slots : reserved_slots s = map_sum charged (tasks s);
  ac_permits : 0 <= permits s /\ permits s + Z.of_nat (size (tasks s)) = PERMITS;
  ac_entries : Z.of_nat (size (entries s)) + running s <= MAX_ENTRIES;
  ac_bytes : forall id e, entries s !! id = Some e -> 0 <= sd_bytes e <= JOB_RESERVATION;
  ac_patch : forall id e, entries s !! id = Some e -> slen (sd_patch e) <= MAX_PATCH_BYTES;
  ac_attachments : Z.of_nat (size (attachments s)) <= MAX_ATTACHMENTS;
  ac_live : forall loc, held s loc -> is_Some (heap s !! loc);
  ac_unique : forall id id' a a', attachments s !! id = Some a -> attachments s !! id' = Some a' ->
    sa_data a = sa_data a' -> id = id';
  ac_unsealed : forall id a, attachments s !! id = Some a -> as_sealed (sa_summary a) = false ->
    sa_data a ∉ leases s;
  ac_stored : forall id a d, attachments s !! id = Some a -> heap s !! sa_data a = Some d ->
    attachment_ok id a d;
}.

Record inv (s : State) : Prop := {
  inv_accounted : accounted s;
  inv_tight : forall loc, is_Some (heap s !! loc) -> held s loc;
}.

Lemma strong_count_held s loc : 0 < strong_count s loc <-> held s loc.
Proof.
  unfold strong_count, held, attachment_refs, lease_refs.
  assert (Hpos : forall {A} (l : list A), 0 < zlen l <-> exists x, x ∈ l).
  { intros A [|x l].
    - split; [done|]. intros [x Hx]. by apply not_elem_of_nil in Hx.
    - split; [|intros; rewrite zlen_cons; pose proof (zlen_nonneg l); lia].
      intros. exists x. apply list_elem_of_here. }
  set (l := filter _ (map_to_list _)). set (k := filter _ (leases s)).
  transitivity (0 < zlen l \/ 0 < zlen k); [pose proof (zlen_nonneg l); pose proof (zlen_nonneg k); lia|].
  rewrite !Hpos. unfold l, k. setoid_rewrite list_elem_of_filter. split.
  - intros [[[id a] [Ha Hin]]|[x [-> Hx]]]; [left|by right].
    exists id, a. split; [by apply elem_of_map_to_list|done].
  - intros [(id & a & Ha & Hl)|Hin]; [left|right; eauto].
    exists (id, a). split; [done|by apply elem_of_map_to_list].
Qed.

Lemma sweep_lookup s loc d : heap (sweep s) !! loc = Some d <-> heap s !! loc = Some d /\ held s loc.
Proof.
  unfold sweep. simpl. rewrite map_lookup_filter_Some. cbn [fst]. by rewrite strong_count_held.
Qed.

Lemma map_sum_entries_nonneg s : accounted s -> 0 <= map_sum sd_bytes (entries s).
Proof. intros []. apply map_sum_nonneg. intros k v Hk. by destruct (ac_bytes0 _ _ Hk). Qed.

Lemma ledger_nonneg s : accounted s -> 0 <= attachment_bytes s.
Proof. intros []. rewrite ac_ledger0. apply map_sum_nonneg. eauto. Qed.

Lemma runs_charged s : 0 <= running s <= map_sum charged (tasks s).
Proof.
  split; [apply map_sum_nonneg|apply map_sum_le]; intros k [] _; simpl; lia.
Qed.

(** The checks of the code count every reservation that is charged. *)
Lemma used_store s : accounted s -> stored_bytes s + JOB_RESERVATION * running s <= used s.
Proof.
  intros []. unfold used, stored_bytes. rewrite ac_reserved0, ac_slots0.
  pose proof (runs_charged s). unfold JOB_RESERVATION. lia.
Qed.

Lemma slots_bounds s : accounted s -> 0 <= reserved_slots s <= PERMITS.
Proof.
  intros []. rewrite ac_slots0. pose proof (runs_charged s).
  assert (map_sum charged (tasks s) <= Z.of_nat (size (tasks s))); [|lia].
  rewrite <- map_sum_size. apply map_sum_le. intros k [] _; simpl; lia.
Qed.

Lemma sweep_ledger s : accounted s ->
  attachment_bytes (sweep s) = map_sum ad_charge (heap (sweep s))
  /\ attachment_bytes (sweep s) <= attachment_bytes s.
Proof.
  intros []. unfold sweep. simpl. rewrite ac_ledger0.
  rewrite (map_sum_filter_split ad_charge (heap s) (fun kv => 0 < strong_count s kv.1)).
  assert (0 <= map_sum ad_charge (filter (fun kv => ~ 0 < strong_count s kv.1) (heap s))); [|lia].
  apply map_sum_nonneg. intros k v [Hk _]%map_lookup_filter_Some. eauto.
Qed.

Lemma sweep_inv s : accounted s -> inv (sweep s).
Proof.
  intros Ha. pose proof (sweep_ledger s Ha) as [Hl Hle]. destruct Ha.
  assert (Hheld : forall loc, held (sweep s) loc <-> held s loc) by done.
  split; [constructor; try done|].
  - intros loc d [? _]%sweep_lookup. eauto.
  - unfold stored_bytes, running in *. simpl in *. lia.
  - intros loc Hloc. destruct (ac_live0 loc Hloc) as [d Hd]. exists d. by apply sweep_lookup.
  - intros id a d Hid [Hd _]%sweep_lookup. eauto.
  - intros loc [d [_ Hd]%sweep_lookup]. done.
Qed.

(** ** Steps that preserve it *)

Lemma shrink_attachments s m :
  accounted s -> m ⊆ attachments s -> accounted (set_attachments m s).
Proof.
  intros [] Hm.
  assert (Hlook : forall id a, m !! id = Some a -> attachments s !! id = Some a)
    by (intros; by eapply lookup_weaken).
  constructor; simpl; try done; eauto.
  - pose proof (map_subseteq_size _ _ Hm). lia.
  - intros loc [(id & a & Ha & <-)|Hl]; apply ac_live0; [left; eauto|by right].
Qed.

Lemma shrink_entries s m : inv s -> m ⊆ entries s -> inv (set_entries m s).
Proof.
  intros [[] Ht] Hm.
  assert (Hlook : forall id e, m !! id = Some e -> entries s !! id = Some e)
    by (intros; by eapply lookup_weaken).
  pose proof (map_subseteq_size _ _ Hm).
  assert (map_sum sd_bytes m <= map_sum sd_bytes (entries s)).
  { apply map_sum_subseteq_le; [|done]. intros id e He. by destruct (ac_bytes0 _ _ He). }
  split; [|done]. constructor; simpl; try done; eauto;
    unfold stored_bytes, running in *; simpl in *; lia.
Qed.

Definition expired (now : Z) (s : State) : State := (expire now s).2.

Lemma expired_attachments now s id a :
  attachments (expired now s) !! id = Some a <-> attachments s !! id = Some a /\ now < sa_expires a.
Proof. unfold expired, expire. simpl. by rewrite map_lookup_filter_Some. Qed.

Lemma expired_entries now s id e :
  entries (expired now s) !! id = Some e <->
  entries s !! id = Some e /\ now < sd_expires e /\ sd_caller e ∉ cancelled s.
Proof. unfold expired, expire. simpl. by rewrite map_lookup_filter_Some. Qed.

Lemma expire_inv now s : inv s -> inv (expired now s).
Proof.
  intros [Ha _]. unfold expired, expire. simpl. apply shrink_entries.
  - apply sweep_inv, shrink_attachments; [done|apply map_filter_subseteq].
  - apply map_filter_subseteq.
Qed.

Lemma insert_attachment_inv s id d sum expires :
  inv s -> attachments s !! id = None -> full_attachments s = false ->
  used s + ad_charge d <= MAX_STORE_BYTES ->
  attachment_ok id {| sa_data := fresh_location s; sa_summary := sum; sa_expires := expires |} d ->
  inv (insert_attachment id d sum expires s).
Proof.
  intros [Hacc Ht] Hid Hfull Hused Hok. pose proof (ledger_nonneg s Hacc) as Hl.
  pose proof (used_store s Hacc) as Hstore. destruct Hacc.
  set (loc := fresh_location s) in *.
  assert (Hfresh : heap s !! loc = None) by (apply not_elem_of_dom; unfold loc, fresh_location; apply is_fresh).
  assert (Hunheld : ~ held s loc).
  { intros Hh. apply ac_live0 in Hh as [? ?]. congruence. }
  assert (Hcharge : 0 <= ad_charge d).
  { destruct Hok as (_ & _ & _ & Hb & Hc & _). pose proof (slen_nonneg (ad_text d)).
    unfold ENTRY_OVERHEAD in Hc. lia. }
  unfold full_attachments in Hfull. bool_hyps.
  unfold insert_attachment. fold loc.
  assert (Hheld : forall l, held (insert_attachment id d sum expires s) l <-> l = loc \/ held s l).
  { intros l. unfold held. simpl. fold loc. setoid_rewrite lookup_insert_Some. split.
    - intros [(id' & a & [[<- <-]|[Hne Ha]] & <-)|Hin]; [by left|right; left; eauto|by right; right].
    - intros [->|[(id' & a & Ha & <-)|Hin]]; [|left|by right].
      + left. eexists id, _. split; [by left|done].
      + exists id', a. split; [right; split; [congruence|done]|done]. }
  split; [constructor; simpl|].
  - rewrite map_sum_insert by done. lia.
  - intros l d' [[_ <-]|[_ Hd]]%lookup_insert_Some; eauto.
  - unfold stored_bytes, running in *. simpl. lia.
  - done.
  - done.
  - done.
  - done.
  - done.
  - done.
  - rewrite map_size_insert_None by done. lia.
  - intros l Hl'. apply Hheld in Hl' as [->|Hl'].
    + rewrite lookup_insert_eq. eauto.
    + rewrite lookup_insert_ne; [by apply ac_live0|]. by intros <-.
  - intros i i' a a' [[<- <-]|[Hi Ha]]%lookup_insert_Some [[<- <-]|[Hi' Ha']]%lookup_insert_Some Heq;
      simpl in *; try done; eauto.
    + exfalso. apply Hunheld. left. exists i', a'. eauto.
    + exfalso. apply Hunheld. left. exists i, a. eauto.
  - intros i a [[<- <-]|[Hi Ha]]%lookup_insert_Some Hs; simpl in *; [|eauto].
    intros Hin. apply Hunheld. by right.
  - intros i a d' [[<- <-]|[Hi Ha]]%lookup_insert_Some Hd; simpl in *.
    + rewrite lookup_insert_eq in Hd. by injection Hd as <-.
    + rewrite lookup_insert_ne in Hd; [eauto|]. intros Heq. apply Hunheld. left. eauto.
  - intros l [d' Hd]. apply Hheld. simpl in Hd. fold loc in Hd.
    apply lookup_insert_Some in Hd as [[<- _]|[_ Hd]]; [by left|right; eauto].
Qed.

Lemma lookup_data s id a :
  inv s -> attachments s !! id = Some a ->
  exists d, heap s !! sa_data a = Some d /\ stored_text s a = ad_text d /\ attachment_ok id a d.
Proof.
  intros [[] _] Ha. destruct (ac_live0 (sa_data a)) as [d Hd]; [left; eauto|].
  exists d. unfold stored_text. rewrite Hd. eauto.
Qed.

(** The text of an open attachment has one holder, so [Arc::get_mut] succeeds. *)
Lemma unsealed_unique s id a :
  inv s -> attachments s !! id = Some a -> as_sealed (sa_summary a) = false ->
  strong_count s (sa_data a) = 1.
Proof.
  intros [[] _] Ha Hs. unfold strong_count.
  assert (lease_refs s (sa_data a) = []) as ->.
  { destruct (lease_refs s (sa_data a)) as [|x l] eqn:E; [done|]. exfalso.
    assert (x ∈ lease_refs s (sa_data a)) as Hx by (rewrite E; apply list_elem_of_here).
    apply list_elem_of_filter in Hx as [<- Hx]. by eapply ac_unsealed0. }
  assert (Hperm : attachment_refs s (sa_data a) ≡ₚ [(id, a)]); [|rewrite Hperm; done].
  apply NoDup_Permutation; [apply NoDup_filter, NoDup_map_to_list|apply NoDup_singleton|].
  intros [id' a']. unfold attachment_refs.
  rewrite list_elem_of_filter, elem_of_map_to_list, list_elem_of_singleton. simpl. split.
  - intros [Heq Ha']. assert (id' = id) as -> by eauto. congruence.
  - intros [= -> ->]. done.
Qed.

(** The state after a chunk is appended to the attachment [id]. *)
Definition appended (id : str) (a : StoredAttachment) (d : AttachmentData) (chunk : str)
  (complete : bool) (s : State) : State :=
  set_attachments
    (<[id := {| sa_data := sa_data a;
                sa_summary := commit (sa_summary a) (slen (ad_text d) + slen chunk) complete;
                sa_expires := sa_expires a |}]> (attachments s))
    (set_heap (<[sa_data a := {| ad_text := ad_text d ++ chunk; ad_charge := ad_charge d |}]> (heap s))
       (attachment_bytes s) s).

Lemma appended_inv id a d chunk complete s :
  inv s -> attachments s !! id = Some a -> heap s !! sa_data a = Some d ->
  as_sealed (sa_summary a) = false ->
  slen (ad_text d) + slen chunk <= as_total_bytes (sa_summary a) ->
  (complete = true -> slen (ad_text d) + slen chunk = as_total_bytes (sa_summary a)
     /\ validate (as_kind (sa_summary a)) (ad_text d ++ chunk) = Ok tt) ->
  inv (appended id a d chunk complete s).
Proof.
  intros [[] Ht] Ha Hd Hs Hlen Hc.
  pose proof (slen_nonneg chunk). pose proof (slen_nonneg (ad_text d)).
  destruct (ac_stored0 _ _ _ Ha Hd) as (K1 & K2 & K3 & K4 & K5 & _).
  assert (Hheld : forall l, held (appended id a d chunk complete s) l <-> held s l).
  { intros l. unfold held, appended. simpl. setoid_rewrite lookup_insert_Some.
    split; (intros [(i & a' & Hi & <-)|Hl]; [|by right]); left.
    - destruct Hi as [[<- <-]|[_ Hi]]; eauto.
    - destruct (decide (id = i)) as [<-|Hne]; [|by exists i, a'; auto].
      assert (a' = a) as -> by congruence. eexists id, _. split; [by left|done]. }
  split; [constructor; simpl; try done|].
  - by rewrite (map_sum_replace ad_charge _ _ d), Z.sub_add by done.
  - intros l d' [[_ <-]|[_ Hd']]%lookup_insert_Some; simpl; eauto.
  - assert (size (<[id:=_]> (attachments s)) = size (attachments s)) as ->; [|done].
    by apply map_size_insert_Some.
  - intros l Hl. apply Hheld, ac_live0 in Hl as [d' Hd'].
    destruct (decide (sa_data a = l)) as [<-|]; [rewrite lookup_insert_eq|rewrite lookup_insert_ne]; eauto.
  - intros i i' b b' [[<- <-]|[Hi Hb]]%lookup_insert_Some [[<- <-]|[Hi' Hb']]%lookup_insert_Some Heq;
      simpl in *; eauto.
  - intros i b [[<- <-]|[Hi Hb]]%lookup_insert_Some Hb'; simpl in *; eauto.
  - intros i b d' [[<- <-]|[Hi Hb]]%lookup_insert_Some; simpl.
    + rewrite lookup_insert_eq. intros [= <-]. unfold attachment_ok. simpl.
      rewrite slen_app. split_and!; try done; try lia.
      intros Hcomp. destruct (Hc Hcomp) as [Hn Hv]. split; [done|].
      intros Hk. by rewrite <- Hk.
    + rewrite lookup_insert_ne by eauto. eauto.
  - intros l [d' Hd']. apply Hheld. simpl in Hd'.
    apply lookup_insert_Some in Hd' as [[<- _]|[_ Hd']]; eauto.
Qed.

(** * Uploads *)

Lemma wp_write_text loc text d (Φ : result TextDiffError unit -> State -> Prop) s :
  heap s !! loc = Some d -> strong_count s loc = 1 ->
  Φ (Ok tt) (set_heap (<[loc := {| ad_text := text; ad_charge := ad_charge d |}]> (heap s))
               (attachment_bytes s) s) ->
  wp (write_text loc text) Φ s.
Proof. intros Hd Hc Hk. unfold wp, write_text. by rewrite Hd, Hc. Qed.

Lemma write_back loc d d' s :
  heap s !! loc = Some d ->
  let s' := set_heap (<[loc := d']> (heap s)) (attachment_bytes s) s in
  set_heap (<[loc := d]> (heap s')) (attachment_bytes s') s' = s.
Proof.
  intros Hd. simpl. rewrite insert_insert_eq, insert_id by done. by destruct s.
Qed.

Lemma checked_add_ok a b : a + b <= usize_max -> checked_add a b = Some (a + b).
Proof. intros Hl. unfold checked_add. by rewrite (proj2 (Z.leb_le _ _)) by done. Qed.

(** What a request that names the attachment [id] may do to the state [s]. *)
Inductive upload_outcome (id : str) (request : AttachmentUpload) (s : State)
  : result TextDiffError AttachmentSummary -> State -> Prop :=
| upload_rejected e : e <> Internal -> upload_outcome id request s (Err e) s
| upload_replayed a :
    attachments s !! id = Some a ->
    str_range (stored_text s a) (up_offset request)
      (up_offset request + slen (up_chunk request)) = Some (up_chunk request) ->
    upload_outcome id request s (Ok (sa_summary a)) s
| upload_appended a d :
    attachments s !! id = Some a -> heap s !! sa_data a = Some d ->
    as_sealed (sa_summary a) = false -> up_offset request = slen (ad_text d) ->
    let total := as_total_bytes (sa_summary a) in
    let end_ := slen (ad_text d) + slen (up_chunk request) in
    end_ <= total ->
    (up_complete request = true ->
       end_ = total /\ validate (as_kind (sa_summary a)) (ad_text d ++ up_chunk request) = Ok tt) ->
    upload_outcome id request s
      (Ok (commit (sa_summary a) end_ (up_complete request)))
      (appended id a d (up_chunk request) (up_complete request) s).

Lemma outcome_inv id request s r s' : inv s -> upload_outcome id request s r s' -> inv s'.
Proof. intros Hi []; try done. by apply appended_inv. Qed.

Lemma appended_leased id a d chunk complete s loc :
  inv s -> attachments s !! id = Some a -> as_sealed (sa_summary a) = false ->
  loc ∈ leases s -> heap (appended id a d chunk complete s) !! loc = heap s !! loc.
Proof.
  intros [[] _] Ha Hs Hl. simpl. apply lookup_insert_ne. intros <-. by eapply ac_unsealed0.
Qed.

Lemma text_info_error text label e : text_info text label = Err e -> e = InvalidInput.
Proof. unfold text_info. repeat case_match; congruence. Qed.

Lemma validate_error kind text e : validate kind text = Err e -> e = InvalidInput.
Proof.
  unfold validate. case_match; [congruence|]. destruct kind; [|done].
  destruct (text_info text (u "Text")) eqn:E; [done|]. intros [= <-]. by apply text_info_error in E.
Qed.

Lemma valid_handle_error id e : valid_handle id = Err e -> e = InvalidInput.
Proof. unfold valid_handle. case_match; congruence. Qed.

Lemma check_declared_kind_error d k e :
  check_declared_kind d k = Err e -> e = AttachmentKindMismatch.
Proof. unfold check_declared_kind. repeat case_match; congruence. Qed.

Lemma upload_continue_outcome id request declared s :
  inv s -> wp (upload_continue id request declared) (upload_outcome id request s) s.
Proof.
  intros Hi. unfold upload_continue.
  wp_try as [] Eh; [apply upload_rejected; by apply valid_handle_error in Eh as ->|].
  wp_guard as Ek; [by apply upload_rejected|].
  wp_some as a Ha; [by apply upload_rejected|].
  destruct (lookup_data s id a Hi Ha) as (d & Hd & Ht & Hok).
  wp_try as [] Ed; [apply upload_rejected; by apply check_declared_kind_error in Ed as ->|].
  repeat wp_step. rewrite Ht.
  wp_guard as Eu; [by apply upload_rejected|].
  wp_some as end_ Eend; [by apply upload_rejected|].
  apply checked_add_Some in Eend as [_ Hend].
  wp_guard as Et; [by apply upload_rejected|]. cbv beta zeta.
  destruct ((up_offset request <? slen (ad_text d)) || as_sealed (sa_summary a)) eqn:Eb.
  - wp_guard as Er; [by apply upload_rejected|]. bool_hyps. wp_step.
    apply upload_replayed; [done|]. rewrite Ht. by subst end_.
  - wp_guard as Er; [by apply upload_rejected|]. bool_hyps.
    pose proof (unsealed_unique s id a Hi Ha ltac:(done)) as Hu.
    wp_step. apply (wp_write_text _ _ d); [done|done|].
    destruct (if up_complete request then _ else Ok tt) as [[]|error] eqn:Ev.
    + repeat wp_step.
      assert (end_ = slen (ad_text d) + slen (up_chunk request)) as -> by lia.
      apply (upload_appended id request s a d); [done|done|done|done|lia|].
      intros Hc. rewrite Hc in *. cbn in *. bool_hyps. by split.
    + wp_step. apply (wp_write_text _ _ {| ad_text := ad_text d ++ up_chunk request;
        ad_charge := ad_charge d |}); [apply lookup_insert_eq|done|].
      wp_step. destruct d as [t c]. cbn [ad_text ad_charge].
      rewrite (write_back (sa_data a) {| ad_text := t; ad_charge := c |} _ s) by done.
      apply upload_rejected. destruct (up_complete request); [|done].
      by apply validate_error in Ev as ->.
Qed.

(** * New attachments *)

(** What the type [[u8; 32]] of a draw guarantees. *)
Definition draws_ok (generate : Draws) : Prop :=
  forall i l, generate i = Ok l -> length l = 32%nat /\ Forall (fun b => 0 <= b < 256) l.

Lemma hex_digit_ok n : 0 <= n < 16 ->
  0 <= hex_digit n < 128 /\ is_ascii_digit (hex_digit n) || in_range 97 102 (hex_digit n) = true.
Proof.
  intros Hn. unfold hex_digit, is_ascii_digit, in_range.
  destruct (Z.ltb_spec n 10); lia.
Qed.

Lemma hex_valid l : length l = 32%nat -> Forall (fun b => 0 <= b < 256) l ->
  valid_handle (hex l) = Ok tt.
Proof.
  intros Hlen Hl.
  assert (Hd : Forall (fun c => 0 <= c < 128 /\ is_ascii_digit c || in_range 97 102 c = true) (hex l)).
  { unfold hex. apply Forall_bind. eapply Forall_impl; [exact Hl|]. intros b Hb. cbv beta in Hb.
    apply Forall_cons. split; [apply hex_digit_ok; dlia|].
    apply Forall_singleton, hex_digit_ok. dlia. }
  assert (Hz : zlen (hex l) = 2 * zlen l).
  { clear. unfold hex. induction l as [|b l IH]; [done|].
    rewrite bind_cons, zlen_app, IH, !zlen_cons, zlen_nil. lia. }
  unfold valid_handle. rewrite slen_ascii.
  2: { eapply Forall_impl; [exact Hd|]. simpl. lia. }
  rewrite Hz. unfold zlen. rewrite Hlen. simpl.
  rewrite forallb_bytes_ascii.
  - assert (forallb (fun b => is_ascii_digit b || in_range 97 102 b) (hex l) = true) as ->; [|done].
    apply forallb_Forall. eapply Forall_impl; [exact Hd|]. simpl. tauto.
  - intros c Hc. apply orb_true_iff in Hc as [Hc|Hc]; apply in_range_iff in Hc; lia.
Qed.

Lemma draw_id_ok n i generate taken id :
  draws_ok generate -> draw_id n i generate taken = Ok id ->
  valid_handle id = Ok tt /\ taken id = false.
Proof.
  intros Hg. revert i. induction n as [|n IH]; intros i; simpl; [done|].
  destruct (generate i) as [l|] eqn:E; [|done]. destruct (taken (hex l)) eqn:Et; [eauto|].
  intros [= <-]. apply Hg in E as [? ?]. split; [by apply hex_valid|done].
Qed.

Lemma not_taken s id :
  has_attachment s id || has_entry s id = false -> attachments s !! id = None /\ entries s !! id = None.
Proof.
  intros Ht. unfold has_attachment, has_entry in Ht. bool_hyps.
  by rewrite <- !eq_None_not_Some in *.
Qed.

(** What an operation on the stores leaves alone: the leases, the data under
    lease and the jobs. *)
Record frame (s0 s : State) : Prop := {
  fr_leases : leases s = leases s0;
  fr_data : forall loc, loc ∈ leases s0 -> heap s !! loc = heap s0 !! loc;
  fr_tasks : tasks s = tasks s0;
}.

Definition good (s0 s : State) : Prop := inv s /\ frame s0 s.

Definition keeps {A} (m : M A) : Prop :=
  forall s0 s, good s0 s -> wp m (fun _ s' => good s0 s') s.

Lemma good_refl s : inv s -> good s s.
Proof. by split. Qed.

Lemma sweep_leased s loc : loc ∈ leases s -> heap (sweep s) !! loc = heap s !! loc.
Proof.
  intros Hl. apply option_eq. intros d. rewrite sweep_lookup. split; [tauto|].
  intros Hd. split; [done|by right].
Qed.

Lemma good_step s0 s s' :
  good s0 s -> inv s' -> leases s' = leases s -> tasks s' = tasks s ->
  (forall loc, loc ∈ leases s -> heap s' !! loc = heap s !! loc) -> good s0 s'.
Proof.
  intros [Hi [Hl Hd Hs]] Hi' Hl' Hs' Hd'. split; [done|]. constructor; [congruence| |congruence].
  intros loc Hloc. rewrite Hd'; [by apply Hd|by rewrite Hl].
Qed.

Lemma good_expire s0 now s : good s0 s -> good s0 (expired now s).
Proof.
  intros Hg. eapply good_step; [exact Hg|apply expire_inv, Hg|done|done|].
  intros loc Hl. unfold expired, expire. simpl. exact (sweep_leased (set_attachments _ s) loc Hl).
Qed.

Lemma wp_expire_keep s0 now (Φ : result TextDiffError unit -> State -> Prop) s :
  good s0 s -> (good s0 (expired now s) -> Φ (Ok tt) (expired now s)) -> wp (expire now) Φ s.
Proof. intros Hi Hk. by apply Hk, good_expire. Qed.

Lemma good_insert s0 s id d sum expires :
  good s0 s -> attachments s !! id = None -> full_attachments s = false ->
  used s + ad_charge d <= MAX_STORE_BYTES ->
  attachment_ok id {| sa_data := fresh_location s; sa_summary := sum; sa_expires := expires |} d ->
  good s0 (insert_attachment id d sum expires s).
Proof.
  intros Hg Hid Hf Hu Hok. eapply good_step; [exact Hg|apply insert_attachment_inv; [apply Hg|done..]|done|done|].
  intros loc Hl. unfold insert_attachment. simpl. apply lookup_insert_ne. intros <-.
  destruct Hg as [[[] _] _]. destruct (ac_live0 (fresh_location s)) as [d' Hd']; [by right|].
  apply (is_fresh (dom (heap s))), elem_of_dom. by exists d'.
Qed.

Lemma good_remove s0 s id :
  good s0 s -> good s0 (sweep (set_attachments (delete id (attachments s)) s)).
Proof.
  intros Hg. eapply good_step; [exact Hg| |done|done|].
  - apply sweep_inv, shrink_attachments; [apply Hg|apply delete_subseteq].
  - intros loc Hl. exact (sweep_leased (set_attachments _ s) loc Hl).
Qed.

Lemma good_entries s0 s m : good s0 s -> m ⊆ entries s -> good s0 (set_entries m s).
Proof. intros Hg Hm. eapply good_step; [exact Hg|apply shrink_entries; [apply Hg|done]|done..]. Qed.

Lemma saturating_add_le a b : saturating_add a b <= MAX_STORE_BYTES -> a + b <= MAX_STORE_BYTES.
Proof. unfold saturating_add, usize_max, MAX_STORE_BYTES. lia. Qed.

Lemma outcome_good id request s0 s r s' :
  good s0 s -> upload_outcome id request s r s' -> good s0 s'.
Proof.
  intros Hg Ho. pose proof (outcome_inv _ _ _ _ _ (proj1 Hg) Ho) as Hi'.
  destruct Ho; [done|done|]. eapply good_step; [exact Hg|exact Hi'|done|done|].
  intros loc Hl. by apply appended_leased; [apply Hg|..].
Qed.

Section preservation.
Context `{JsonSizes} `{AllocationLaws}.

Lemma upload_continue_keeps id request declared : keeps (upload_continue id request declared).
Proof.
  intros s0 s Hi. eapply wp_mono; [by apply upload_continue_outcome, Hi|].
  intros r s' Ho. by eapply outcome_good.
Qed.

Lemma upload_create_keeps generate clock now request declared :
  draws_ok generate -> keeps (upload_create generate clock now request declared).
Proof.
  intros Hg s0 s Hi. unfold upload_create.
  wp_guard as E1; [done|]. wp_some as kind Ek; [done|]. wp_some as total Et; [done|].
  cbv beta zeta. wp_guard as E2; [done|]. repeat wp_step.
  assert (Hrest : up_complete request = true -> validate kind (up_chunk request) = Ok tt ->
    slen (up_chunk request) = total) by (intros Hc; rewrite Hc in E2; cbn in E2; bool_hyps; lia).
  apply wp_mono with (fun r s' => s' = s /\ (r = Ok tt -> up_complete request = true ->
    validate kind (up_chunk request) = Ok tt)).
  { destruct (up_complete request); [|done]. wp_try as [] Ev; done. }
  intros [[]|e] s' [-> Hv]; [|done]. specialize (Hv eq_refl).
  wp_guard as E3; [done|]. wp_step. unfold fresh_attachment_id, wp at 1.
  destruct (draw_id _ _ _ _) as [id|] eqn:Ed; [|done].
  apply draw_id_ok in Ed as [Hid Ht]; [|done]. apply not_taken in Ht as [Hfree _].
  wp_some as capacity Ec; [done|]. cbv zeta. wp_guard as E4; [done|]. repeat wp_step.
  apply reserve_exact_ge in Ec. bool_hyps.
  apply good_insert; [done|done|done|by apply saturating_add_le|].
  unfold attachment_ok. simpl. split_and!; try done; try lia.
  intros Hc. specialize (Hv Hc). split; [by apply Hrest|]. by intros ->.
Qed.

Lemma upload_keeps generate clock now request declared :
  draws_ok generate -> keeps (upload_attachment_with_kind generate clock now request declared).
Proof.
  intros Hg s0 s Hi. unfold upload_attachment_with_kind.
  wp_guard as E1; [done|]. apply wp_bind. eapply wp_expire_keep; [exact Hi|]. intros Hi'.
  wp_guard as E2; [done|]. destruct (up_attachment_id request).
  - by apply upload_continue_keeps.
  - by apply upload_create_keeps.
Qed.

Lemma read_keeps now id offset declared : keeps (read_attachment_with_kind now id offset declared).
Proof.
  intros s0 s Hi. unfold read_attachment_with_kind. wp_try as [] E1; [done|].
  wp_step. eapply wp_expire_keep; [exact Hi|]. intros Hi'.
  wp_some as a Ha; [done|]. wp_try as [] E2; [done|]. wp_guard as E3; [done|].
  wp_guard as E4; [done|]. cbv zeta. destruct (align_down _ _ _); [|by wp_step].
  by destruct (str_range _ _ _); wp_step.
Qed.

Lemma delete_keeps now id declared : keeps (delete_attachment_with_kind now id declared).
Proof.
  intros s0 s Hi. unfold delete_attachment_with_kind. wp_try as [] E1; [done|].
  wp_step. eapply wp_expire_keep; [exact Hi|]. intros Hi'. repeat wp_step.
  destruct (attachments (expired now s) !! id).
  - wp_try as [] E2; [done|]. repeat wp_step. by apply good_remove.
  - repeat wp_step. by apply good_remove.
Qed.

Lemma publish_keeps generate clock now text kind :
  draws_ok generate -> keeps (publish_attachment generate clock now text kind).
Proof.
  intros Hg s0 s Hi. unfold publish_attachment. wp_try as [] Ev; [done|].
  wp_step. eapply wp_expire_keep; [exact Hi|]. intros Hi'. cbv zeta. set (s1 := expired now s) in *.
  wp_guard as E1; [done|]. wp_guard as E2; [done|]. wp_step. unfold fresh_attachment_id, wp at 1.
  destruct (draw_id _ _ _ _) as [id|] eqn:Ed; [|done].
  apply draw_id_ok in Ed as [Hid Ht]; [|done]. apply not_taken in Ht as [Hfree _].
  repeat wp_step. bool_hyps. pose proof (string_capacity_ge text).
  apply good_insert; [done|done|done|by apply saturating_add_le|].
  assert (slen text <= maximum kind) by (unfold validate in Ev; destruct (_ || _) eqn:E; [done|]; bool_hyps; lia).
  unfold attachment_ok. simpl. split_and!; try done; try lia.
  intros _. split; [done|]. by intros ->.
Qed.
(** ** Leases *)

Lemma add_lease_inv s id a :
  inv s -> attachments s !! id = Some a -> as_sealed (sa_summary a) = true ->
  inv (set_leases (sa_data a :: leases s) s).
Proof.
  intros [[] Ht] Ha Hs.
  assert (Hheld : forall l, held (set_leases (sa_data a :: leases s) s) l <-> held s l).
  { intros l. unfold held. simpl. rewrite elem_of_cons. split; [|naive_solver].
    intros [?|[->|?]]; [by left|left; eauto|by right]. }
  split; [constructor; simpl; try done|].
  - intros l Hl. by apply ac_live0, Hheld.
  - intros i b Hb Hsb. rewrite elem_of_cons. intros [Heq|Hin]; [|by eapply ac_unsealed0].
    assert (i = id) as -> by eauto. congruence.
  - intros l Hl. by apply Hheld, Ht.
Qed.

Lemma remove_one_elem loc l x : x ∈ remove_one loc l -> x ∈ l.
Proof.
  induction l as [|y l IH]; simpl; [done|]. rewrite elem_of_cons.
  destruct (Nat.eqb y loc); [auto|]. rewrite elem_of_cons. tauto.
Qed.

Lemma drop_resolved_inv r s : inv s -> inv (drop_resolved r s).
Proof.
  destruct r as [t|loc]; [done|]. intros [[] _]. apply sweep_inv.
  constructor; simpl; try done.
  - intros l [Hl|Hl]; apply ac_live0; [by left|right; exact (remove_one_elem _ _ _ Hl)].
  - intros i a Ha Hs Hin. apply remove_one_elem in Hin. by eapply ac_unsealed0.
Qed.

(** What [resolve] promises of an answer. *)
Definition resolved_ok (input : TextSource) (kind : AttachmentKind) (s : State) (r : ResolvedText) : Prop :=
  validate kind (resolved_text s r) = Ok tt /\
  match input, r with
  | Inline text, RInline text' => text' = text
  | Attachment h, RAttachment loc => loc ∈ leases s /\ exists a,
    attachments s !! attachment_id h = Some a /\ sa_data a = loc
      /\ as_sealed (sa_summary a) = true /\ as_kind (sa_summary a) = kind
  | _, _ => False
  end.

Lemma resolve_spec s0 now input kind s :
  good s0 s -> wp (resolve now input kind)
  (fun r s' => match r with
  | Ok (RInline _ as r) => good s0 s' /\ resolved_ok input kind s' r
  | Ok (RAttachment loc as r) => exists s1, good s0 s1 /\ s' = set_leases (loc :: leases s1) s1
      /\ inv s' /\ resolved_ok input kind s' r
  | Err _ => good s0 s'
  end) s.
Proof.
  intros Hi. destruct input as [text|h]; cbn [resolve].
  - wp_try as [] Ev; [done|]. wp_step. by split.
  - wp_try as [] Eh; [done|]. wp_step. eapply wp_expire_keep; [exact Hi|]. intros Hi'.
    wp_some as a Ha; [done|]. wp_try as [] E1; [done|]. wp_guard as E2; [done|].
    wp_guard as E3; [done|]. wp_try as [] Ev; [done|]. bool_hyps. repeat wp_step.
    eexists. split; [exact Hi'|]. split; [done|]. split; [by eapply add_lease_inv; [apply Hi'|..]|].
    split; simpl; [done|]. split; [apply list_elem_of_here|]. by exists a.
Qed.

(** ** Jobs *)

Lemma jobs_inv s r n p t :
  inv s -> r = JOB_RESERVATION * n -> n = map_sum charged t -> 0 <= p ->
  p + Z.of_nat (size t) = PERMITS ->
  stored_bytes s + JOB_RESERVATION * map_sum runs t <= MAX_STORE_BYTES ->
  Z.of_nat (size (entries s)) + map_sum runs t <= MAX_ENTRIES ->
  inv (set_jobs r n p t s).
Proof. intros [[] Ht] ???? Hs He. split; [by constructor|done]. Qed.

Lemma take_permit_spec s : inv s ->
  wp take_permit (fun r s' => inv s' /\ match r with
  | Err _ => s' = s
  | Ok task => tasks s' !! task = Some Admitting
      /\ s' = set_jobs (reserved s) (reserved_slots s) (permits s - 1) (<[task:=Admitting]> (tasks s)) s
  end) s.
Proof.
  intros Hi. unfold wp, take_permit. destruct (permits s <=? 0) eqn:Ep; [done|]. bool_hyps.
  set (task := fresh _).
  assert (Hn : tasks s !! task = None) by (apply not_elem_of_dom; unfold task; apply is_fresh).
  split; [|split; [apply lookup_insert_eq|done]].
  pose proof Hi as [[] _].
  apply jobs_inv; rewrite ?map_sum_insert, ?map_size_insert_None by done; simpl; try done; try lia;
    unfold running in *; lia.
Qed.

Lemma reserve_inv task now shutdown apply s :
  inv s -> tasks s !! task = Some Admitting ->
  wp (reserve task now shutdown apply) (fun r s' => inv s' /\ (r <> Ok tt -> s' = expired now s)) s.
Proof.
  intros Hi Ht. unfold wp, reserve. fold (expired now s).
  pose proof (expire_inv now s Hi) as Hi'.
  assert (Ht' : tasks (expired now s) !! task = Some Admitting) by done.
  set (s1 := expired now s) in *. clearbody s1.
  destruct (_ || shutdown); [done|]. destruct (_ || _) eqn:Eb; [done|]. bool_hyps.
  pose proof (used_store s1 (inv_accounted _ Hi')). pose proof (runs_charged s1).
  assert (used s1 + JOB_RESERVATION <= MAX_STORE_BYTES)
    by (destruct apply; [by apply saturating_add_le|done]).
  split; [|done]. pose proof Hi' as [[] _].
  apply jobs_inv; rewrite ?(map_sum_replace _ _ _ Admitting), ?map_size_insert_Some by eauto;
    simpl; unfold running, JOB_RESERVATION in *; try done; try lia.
Qed.

Lemma drop_reservation_inv task p s :
  inv s -> tasks s !! task = Some p -> charged p = 1 -> inv (drop_reservation task s).
Proof.
  intros Hi Ht Hp. pose proof Hi as [[] _]. pose proof (runs_charged s).
  assert (charged p <= map_sum charged (tasks s)).
  { apply (map_sum_lookup_le charged (tasks s) task); [|done]. intros k [] _; simpl; lia. }
  assert (0 <= runs p) by (destruct p; done). unfold drop_reservation, saturating_sub.
  apply jobs_inv; rewrite ?(map_sum_replace _ _ _ p), ?map_size_insert_Some by eauto;
    simpl; unfold running, JOB_RESERVATION in *; try done; try lia.
Qed.

Lemma drop_permit_inv task p s :
  inv s -> tasks s !! task = Some p -> charged p = 0 -> inv (drop_permit task s).
Proof.
  intros Hi Ht Hp. pose proof Hi as [[] _]. unfold drop_permit.
  assert (Hn : size (delete task (tasks s)) = pred (size (tasks s)))
    by (apply map_size_delete_Some; eauto).
  assert (size (tasks s) <> 0%nat).
  { intros Hz%map_size_empty_inv. by rewrite Hz, lookup_empty in Ht. }
  assert (runs p = 0) by (destruct p; done).
  apply jobs_inv; rewrite ?(map_sum_delete _ _ _ p) by done; try done;
    simpl; unfold running in *; lia.
Qed.

(** A published result takes its room from its own job's reservation, which is
    charged until the reservation is dropped. *)
Lemma publish_entry_inv s task id e :
  inv s -> tasks s !! task = Some Running -> entries s !! id = None ->
  0 <= sd_bytes e <= JOB_RESERVATION -> slen (sd_patch e) <= MAX_PATCH_BYTES ->
  inv (set_entries (<[id := e]> (entries s))
    (set_jobs (reserved s) (reserved_slots s) (permits s) (<[task := Published]> (tasks s)) s)).
Proof.
  intros [[] Ht] Htask Hid Hb Hp. split; [|done].
  constructor; simpl; try done.
  - unfold stored_bytes, running in *. simpl. rewrite map_sum_insert, (map_sum_replace _ _ _ Running) by done.
    simpl. lia.
  - rewrite (map_sum_replace _ _ _ Running) by done. simpl. lia.
  - by rewrite map_size_insert_Some by eauto.
  - unfold running in *. simpl. rewrite map_size_insert_None, (map_sum_replace _ _ _ Running) by done.
    simpl. lia.
  - intros i e' [[<- <-]|[_ He]]%lookup_insert_Some; eauto.
  - intros i e' [[<- <-]|[_ He]]%lookup_insert_Some; eauto.
Qed.

Lemma add_terms_ge bytes terms r :
  Forall (fun t => 0 <= t.1 /\ 0 <= t.2) terms -> add_terms bytes terms = Ok r -> bytes <= r.
Proof.
  revert bytes. induction terms as [|[c z] terms IH]; intros bytes; simpl; [intros _ [= ->]; lia|].
  intros [[Hc Hz] Ht]%Forall_cons. simpl in *.
  unfold checked_mul. destruct (_ <=? _); [|done]. simpl.
  destruct (checked_add _ _) as [b|] eqn:E; [|done]. apply checked_add_Some in E as [_ ->].
  simpl. intros Hr. apply IH in Hr; [|done]. nia.
Qed.

Lemma vec_capacity_nonneg {A} (l : list A) : 0 <= vec_capacity l.
Proof. pose proof (vec_capacity_ge A l). pose proof (zlen_nonneg l). lia. Qed.

Lemma string_capacity_nonneg s : 0 <= string_capacity s.
Proof. pose proof (string_capacity_ge s). pose proof (slen_nonneg s). lia. Qed.

Lemma retained_bytes_ge before after pages c r :
  0 <= c -> retained_bytes before after pages c = Ok r -> 4096 <= r.
Proof.
  intros Hc. apply add_terms_ge.
  pose proof (slen_nonneg before). pose proof (slen_nonneg after).
  do 3 (apply Forall_cons; split; [done|]). apply Forall_bind, Forall_true. intros page.
  apply Forall_cons. split; [split; [apply vec_capacity_nonneg|done]|].
  apply Forall_bind, Forall_true. intros f. unfold fragment_terms.
  apply Forall_cons. split; [split; [apply string_capacity_nonneg|done]|].
  apply Forall_cons. split; [split; [apply vec_capacity_nonneg|done]|].
  apply Forall_fmap, Forall_true. intros ch. split; [apply vec_capacity_nonneg|done].
Qed.

(** ** Publication *)

(** The entry that a comparison stores for its result. *)
Record entry_ok (patch : ComputedDiff) (before after : str) (before_info after_info : TextInfo)
  (summary : ComparisonSummary) (e : Stored) : Prop := {
    eo_changes : changes patch before after
    = Ok (sd_changes e, cs_additions summary, cs_deletions summary);
    eo_texts : sd_before e = before /\ sd_after e = after /\ sd_patch e = cd_patch patch;
    eo_summary : sd_summary e = summary;
    eo_infos : cs_before summary = before_info /\ cs_after summary = after_info;
    eo_equal : cs_equal summary = true <-> before = after;
    eo_pages : cs_change_pages summary = zlen (sd_changes e);
    eo_handle : valid_handle (cs_comparison_id summary) = Ok tt;
    eo_bytes : 0 <= sd_bytes e <= JOB_RESERVATION;
    eo_patch : slen (sd_patch e) <= MAX_PATCH_BYTES;
  }.

Lemma equal_check patch before after pages adds dels :
  changes patch before after = Ok (pages, adds, dels) ->
  negb (eqb (str_eqb before after) ((adds =? 0) && (dels =? 0))) = false.
Proof.
  intros (ann & script & [] & -> & ->)%changes_validated.
  apply negb_false_iff, eqb_true_iff, eq_true_iff_eq.
  rewrite str_eqb_eq, andb_true_iff, !Z.eqb_eq. done.
Qed.

Lemma publish_comparison_outcome task generate clock now late late' token before after bi ai origin patch s :
  draws_ok generate -> (forall n, origin = Some n -> 0 <= n) ->
  wp (publish_comparison task generate clock now late late' token before after bi ai origin patch)
  (fun r s' => match r with
  | Err _ => s' = s
  | Ok summary => exists computed e,
    patch = Ok computed /\ entry_ok computed before after bi ai summary e /\
    late = false /\ late' = false /\ sd_caller e = token /\ sd_expires e = now + RETENTION /\
    entries s !! cs_comparison_id summary = None /\
    s' = set_entries (<[cs_comparison_id summary := e]> (entries s))
      (set_jobs (reserved s) (reserved_slots s) (permits s) (<[task := Published]> (tasks s)) s)
  end) s.
Proof.
  intros Hg Ho. unfold publish_comparison. wp_try as computed Ep; [done|].
  wp_guard as E1; [done|]. wp_guard as E2; [done|].
  wp_try as [[pages adds] dels] Ec; [done|]. wp_guard as E3; [done|].
  wp_try as id Ed; [done|]. cbv zeta. wp_guard as E4; [done|].
  wp_some as ob Eo; [done|]. wp_try as retained Er; [done|]. wp_guard as E5; [done|].
  repeat wp_step. bool_hyps.
  apply draw_id_ok in Ed as [Hid Ht]; [|done]. unfold has_entry in Ht. bool_hyps.
  apply retained_bytes_ge in Er; [|apply vec_capacity_nonneg].
  pose proof (string_capacity_nonneg (cd_patch computed)). specialize (Ho ob Eo).
  eexists computed, _. split; [done|]. split; [|split_and!; try done; by apply eq_None_not_Some in Ht].
  constructor; simpl; try done; [|lia]. apply str_eqb_eq.
Qed.

Lemma delete_comparison_keeps id : keeps (delete_comparison id).
Proof.
  intros s0 s Hi. unfold delete_comparison. wp_try as [] E; [done|]. wp_step.
  apply good_entries; [done|apply delete_subseteq].
Qed.

Lemma summary_keeps now id : keeps (comparison_summary now id).
Proof.
  intros s0 s Hi. unfold comparison_summary. wp_try as [] E; [done|]. wp_step.
  eapply wp_expire_keep; [exact Hi|]. intros Hi'. by wp_some as x Ex.
Qed.

Lemma page_keeps now id view page : keeps (comparison_page now id view page).
Proof.
  intros s0 s Hi. unfold comparison_page. wp_try as [] E; [done|]. wp_step.
  eapply wp_expire_keep; [exact Hi|]. intros Hi'. wp_some as e Ee; [done|]. wp_step.
  apply wp_mono with (fun _ s' => good s0 s').
  - destruct view; [wp_some as x Ex; by repeat wp_step|..];
      (destruct (chunks _); [wp_some as x Ex; by repeat wp_step|by wp_step]).
  - intros [[[n t] f]|e'] s' Hs'; [|done]. cbv beta iota zeta. wp_some as len El; [done|].
    wp_guard as E2; [done|]. by wp_step.
Qed.

Lemma export_keeps generate now comparison :
  draws_ok generate -> keeps (export_patch generate now comparison).
Proof.
  intros Hg s0 s Hi. unfold export_patch. wp_step. eapply wp_expire_keep; [exact Hi|]. intros Hi'.
  wp_some as e Ee; [done|]. cbv zeta. wp_guard as E1; [done|]. bool_hyps.
  wp_step. unfold fresh_attachment_id, wp at 1.
  destruct (draw_id _ _ _ _) as [id|] eqn:Ed; [|done].
  apply draw_id_ok in Ed as [Hid Ht]; [|done]. apply not_taken in Ht as [Hfree _].
  repeat wp_step.
  pose proof (ac_patch _ (inv_accounted _ (proj1 Hi')) _ _ Ee) as Hp.
  apply good_insert; [done|done|done|by apply saturating_add_le|].
  unfold attachment_ok. simpl. split_and!; try done; lia.
Qed.

Lemma finish_export_keeps generate now comparison :
  draws_ok generate -> keeps (finish_export generate now comparison).
Proof.
  intros Hg s0 s Hi. pose proof (export_keeps generate now comparison Hg s0 s Hi) as He.
  unfold wp, finish_export in *. destruct (export_patch _ _ _ s) as [[p|e] s']; [done|].
  pose proof (delete_comparison_keeps (cs_comparison_id comparison) s0 s' He) as Hd.
  unfold wp in Hd. by destruct (delete_comparison _ s') as [[] ?].
Qed.

(** ** Requests that hold inputs *)

Definition data_of (r : ResolvedText) : list nat :=
  match r with RInline _ => [] | RAttachment loc => [loc] end.

(** Since [s0], the leases [added] were taken and no other; the data that was
    under lease is unchanged. *)
Record holding (added : list nat) (s0 s : State) : Prop := {
  ho_inv : inv s;
  ho_leases : leases s ≡ₚ added ++ leases s0;
  ho_data : forall loc, loc ∈ leases s0 -> heap s !! loc = heap s0 !! loc;
}.

Lemma holding_refl s : inv s -> holding [] s s.
Proof. by constructor. Qed.

Lemma holding_good added s0 s s' : holding added s0 s -> good s s' -> holding added s0 s'.
Proof.
  intros [Hi Hl Hd] [Hi' [Hl' Hd' _]]. constructor; [done|by rewrite Hl'|].
  intros loc Hloc. rewrite Hd'; [by apply Hd|]. rewrite Hl. apply elem_of_app. by right.
Qed.

Lemma remove_one_head loc l l' : l ≡ₚ loc :: l' -> remove_one loc l ≡ₚ l'.
Proof.
  revert l'. induction l as [|x l IH]; intros l' Hp.
  { by apply Permutation_nil in Hp. }
  simpl. destruct (Nat.eqb_spec x loc) as [->|Hne]; [by apply Permutation_cons_inv in Hp|].
  assert (loc ∈ l) as Hin.
  { assert (loc ∈ x :: l) as [?|?]%elem_of_cons by (rewrite Hp; apply list_elem_of_here); congruence. }
  apply elem_of_Permutation in Hin as [l2 Hl2]. rewrite (IH l2 Hl2).
  apply (Permutation_cons_inv (a := loc)). rewrite <- Hp, Hl2. constructor.
Qed.

Lemma holding_drop added added' s0 s r :
  holding added s0 s -> added ≡ₚ data_of r ++ added' -> holding added' s0 (drop_resolved r s).
Proof.
  intros [Hi Hl Hd] Hp. destruct r as [t|loc]; simpl in *.
  - constructor; [done|by rewrite Hl, Hp|done].
  - assert (Hrest : remove_one loc (leases s) ≡ₚ added' ++ leases s0).
    { apply remove_one_head. by rewrite Hl, Hp. }
    constructor; [by apply (drop_resolved_inv (RAttachment loc))|done|].
    intros l Hin. rewrite <- Hd by done.
    apply (sweep_leased (set_leases _ s)). simpl. rewrite Hrest. apply elem_of_app. by right.
Qed.

Lemma resolve_holding added s0 now input kind s :
  holding added s0 s -> wp (resolve now input kind)
  (fun r s' => match r with
  | Ok r => holding (data_of r ++ added) s0 s' /\ resolved_ok input kind s' r
  | Err _ => holding added s0 s'
  end) s.
Proof.
  intros Hh. eapply wp_mono; [apply (resolve_spec s), good_refl, Hh|].
  intros [[t|loc]|e] s'.
  - intros [Hg Hr]. split; [by eapply holding_good|done].
  - intros (s1 & Hg & -> & Hi & Hr). split; [|done].
    destruct (holding_good _ _ _ _ Hh Hg) as [_ Hl Hd]. constructor; [done| |done].
    simpl. by rewrite Hl.
  - intros Hg. by eapply holding_good.
Qed.

Lemma resolve_pair_holding now now' a ka b kb s :
  inv s -> wp (resolve_pair now now' a ka b kb)
  (fun r s' => match r with
  | Ok (ra, rb) => holding (data_of rb ++ data_of ra) s s'
  | Err _ => holding [] s s'
  end) s.
Proof.
  intros Hi. unfold resolve_pair, wp.
  pose proof (resolve_holding [] s now a ka s (holding_refl s Hi)) as R1. unfold wp in R1.
  destruct (resolve now a ka s) as [[ra|e] s1]; [|done]. destruct R1 as [R1 _].
  pose proof (resolve_holding _ s now' b kb s1 R1) as R2. unfold wp in R2.
  destruct (resolve now' b kb s1) as [[rb|e] s2].
  - destruct R2 as [R2 _]. by rewrite app_nil_r in R2.
  - by eapply holding_drop.
Qed.

(** Only the jobs of a state change. *)
Lemma holding_jobs added s0 r n p t s :
  holding added s0 s -> inv (set_jobs r n p t s) -> holding added s0 (set_jobs r n p t s).
Proof. intros [] ?. by constructor. Qed.

Lemma holding_expired added s0 now s : holding added s0 s -> holding added s0 (expired now s).
Proof. intros Hh. eapply holding_good; [exact Hh|apply good_expire, good_refl, Hh]. Qed.

Lemma holding_take_permit added s0 s :
  holding added s0 s -> wp take_permit (fun r s' => holding added s0 s'
    /\ forall task, r = Ok task -> tasks s' !! task = Some Admitting) s.
Proof.
  intros Hh. eapply wp_mono; [apply take_permit_spec, Hh|].
  intros [task|e] s' [Hi Hs]; [|by subst s'].
  destruct Hs as [Ht ->]. split; [by apply holding_jobs|]. by intros task' [= <-].
Qed.

Lemma holding_reserve added s0 task now shutdown ap s :
  holding added s0 s -> tasks s !! task = Some Admitting ->
  wp (reserve task now shutdown ap) (fun r s' => holding added s0 s'
    /\ tasks s' !! task = Some (if is_ok r then Running else Admitting)) s.
Proof.
  intros Hh Ht. pose proof (reserve_inv task now shutdown ap s (ho_inv _ _ _ Hh) Ht) as Hi.
  pose proof (holding_expired added s0 now s Hh) as He.
  unfold wp, reserve in *. fold (expired now s) in *.
  destruct (_ || shutdown); [by split|]. destruct (_ || _); [by split|].
  split; [apply holding_jobs; [done|apply Hi]|apply lookup_insert_eq].
Qed.

Lemma holding_admit added s0 now shutdown ap s :
  holding added s0 s -> wp (admit_job now shutdown ap) (fun r s' => holding added s0 s'
    /\ forall task, r = Ok task -> tasks s' !! task = Some Running) s.
Proof.
  intros Hh. unfold wp, admit_job.
  pose proof (holding_take_permit added s0 s Hh) as H1'. unfold wp in H1'.
  destruct (take_permit s) as [[task|e] s1]; [|by destruct H1']. destruct H1' as [Hh1 Ht].
  specialize (Ht task eq_refl).
  pose proof (holding_reserve added s0 task now shutdown ap s1 Hh1 Ht) as H2'. unfold wp in H2'.
  destruct (reserve task now shutdown ap s1) as [[[]|e] s2]; destruct H2' as [Hh2 Ht2].
  - split; [done|]. by intros task' [= <-].
  - split; [|done]. apply holding_jobs; [done|].
    by apply (drop_permit_inv task Admitting); [apply Hh2|..].
Qed.

Lemma start_comparison_holding added s0 now shutdown gave_up before after bl al s :
  holding added s0 s ->
  wp (start_comparison now shutdown gave_up before after bl al) (fun r s' => holding added s0 s'
    /\ forall infos task, r = Ok (infos, task) -> tasks s' !! task = Some Running) s.
Proof.
  intros Hh. unfold start_comparison. wp_try as bi E1; [done|]. wp_try as ai E2; [done|].
  wp_guard as E3; [done|]. wp_step. eapply wp_mono; [by apply holding_admit|].
  intros [task|e] s' [H' Ht]; [wp_step|done]. split; [done|]. intros infos task' [= _ <-]. by apply Ht.
Qed.

Lemma start_compare_sources_holding now now' now'' shutdown gave_up b a bl al s :
  inv s -> wp (start_compare_sources now now' now'' shutdown gave_up b a bl al)
  (fun r s' => match r with
  | Ok ((rb, ra), (_, task)) => holding (data_of ra ++ data_of rb) s s' /\ tasks s' !! task = Some Running
  | Err _ => holding [] s s'
  end) s.
Proof.
  intros Hi. unfold start_compare_sources, wp.
  pose proof (resolve_pair_holding now now' b Text a Text s Hi) as R1. unfold wp in R1.
  destruct (resolve_pair _ _ _ _ _ _ s) as [[[rb ra]|e] s1]; [|done].
  pose proof (start_comparison_holding _ s now'' shutdown gave_up (resolved_text s1 rb)
    (resolved_text s1 ra) bl al s1 R1) as R2. unfold wp in R2.
  destruct (start_comparison _ _ _ _ _ _ _ s1) as [[[infos task]|e] s2]; destruct R2 as [R2 Ht].
  { split; [done|]. by eapply Ht. }
  eapply (holding_drop (data_of ra)); [|by rewrite app_nil_r].
  eapply holding_drop; [exact R2|]. apply Permutation_app_comm.
Qed.

Lemma start_apply_holding now now' now'' shutdown gave_up t p s :
  inv s -> wp (start_apply now now' now'' shutdown gave_up t p)
  (fun r s' => match r with
  | Ok ((rt, rp), task) => holding (data_of rp ++ data_of rt) s s' /\ tasks s' !! task = Some Running
  | Err _ => holding [] s s'
  end) s.
Proof.
  intros Hi. unfold start_apply, wp.
  pose proof (resolve_pair_holding now now' t Text p Patch s Hi) as R1. unfold wp in R1.
  destruct (resolve_pair _ _ _ _ _ _ s) as [[[rt rp]|e] s1]; [|done].
  assert (R2 : wp (reject_if gave_up Cancelled;! admit_job now'' shutdown true)
    (fun r s' => holding (data_of rp ++ data_of rt) s s'
      /\ forall task, r = Ok task -> tasks s' !! task = Some Running) s1).
  { wp_guard as E; [done|]. by apply holding_admit. }
  unfold wp in R2. destruct ((reject_if gave_up Cancelled;! admit_job now'' shutdown true) s1)
    as [[task|e] s2]; destruct R2 as [R2 Ht]; [by auto|].
  eapply (holding_drop (data_of rp)); [|by rewrite app_nil_r].
  eapply holding_drop; [exact R2|]. apply Permutation_app_comm.
Qed.
End preservation.
