(* ===== verification/DiffProperties.v ===== *)
(** Properties of the comparison service over every sequence of its locked
    operations, and of the protocols its clients follow. *)

From S2P Require Import Prelude Utf8 Strings TextDiff Paging PagingFacts DiffService DiffFacts.

(** * Interleavings *)

Section steps.
Context `{JsonSizes} `{AllocationLaws}.

Definition after {A} (m : M A) (s : State) : State := (m s).2.

(** One operation under the lock, on the semaphore, or the death of a caller's
    token.  Requests and jobs run concurrently, so a job is a sequence of these
    steps with others in between; one that fails or panics skips the publication
    and drops its reservation and its permit. *)
Inductive step (s : State) : State -> Prop :=
| step_upload generate clock now request declared :
  draws_ok generate ->
  step s (after (upload_attachment_with_kind generate clock now request declared) s)
| step_read now id offset declared : step s (after (read_attachment_with_kind now id offset declared) s)
| step_delete now id declared : step s (after (delete_attachment_with_kind now id declared) s)
| step_resolve now input kind : step s (after (resolve now input kind) s)
| step_drop r : step s (drop_resolved r s)
| step_take_permit : step s (after take_permit s)
| step_reserve task now shutdown apply :
  tasks s !! task = Some Admitting -> step s (after (reserve task now shutdown apply) s)
| step_publish task generate clock now late late' token b a bi ai origin patch :
  draws_ok generate -> (forall n, origin = Some n -> 0 <= n) -> tasks s !! task = Some Running ->
  step s (after (publish_comparison task generate clock now late late' token b a bi ai origin patch) s)
| step_publish_attachment generate clock now text kind :
  draws_ok generate -> step s (after (publish_attachment generate clock now text kind) s)
| step_drop_reservation task p :
  tasks s !! task = Some p -> charged p = 1 -> step s (drop_reservation task s)
| step_drop_permit task p : tasks s !! task = Some p -> charged p = 0 -> step s (drop_permit task s)
| step_export generate now comparison :
  draws_ok generate -> step s (after (export_patch generate now comparison) s)
| step_summary now id : step s (after (comparison_summary now id) s)
| step_page now id view page : step s (after (comparison_page now id view page) s)
| step_delete_comparison id : step s (after (delete_comparison id) s)
| step_expire now : step s (after (expire now) s)
| step_cancel token : step s (set_cancelled ({[token]} ∪ cancelled s) s)
| step_stop : step s (set_stopping true s)
| step_clear_entries : step s (clear_entries s)
| step_clear_attachments : step s (clear_attachments s).

Inductive reachable : State -> Prop :=
| reachable_initial : reachable initial_state
| reachable_step s s' : reachable s -> step s s' -> reachable s'.

Lemma initial_inv : inv initial_state.
Proof.
  assert (He : forall {V} (k : str) (v : V), (∅ : gmap str V) !! k = Some v -> False)
    by (intros V k v Hk; by rewrite lookup_empty in Hk).
  assert (Hh : forall loc d, (∅ : gmap nat AttachmentData) !! loc = Some d -> False)
    by (intros loc d Hk; by rewrite lookup_empty in Hk).
  assert (Hn : forall loc, held initial_state loc -> False).
  { intros loc [(id & a & Ha & _)|Hl]; [by apply He in Ha|by apply not_elem_of_nil in Hl]. }
  split; [constructor|]; try done.
  all: intros; exfalso; repeat match goal with H : is_Some _ |- _ => destruct H end; eauto.
Qed.

(** A step keeps the invariant and the data that stays under lease. *)
Definition step_ok (s s' : State) : Prop :=
  inv s' /\ forall loc, loc ∈ leases s -> loc ∈ leases s' -> heap s' !! loc = heap s !! loc.

Lemma good_ok s s' : good s s' -> step_ok s s'.
Proof. intros [Hi [_ Hd _]]. split; auto. Qed.

Lemma holding_ok added s s' : holding added s s' -> step_ok s s'.
Proof. intros []. split; auto. Qed.

Lemma keeps_ok {A} (m : M A) s : keeps m -> inv s -> step_ok s (after m s).
Proof.
  intros Hm Hi. apply good_ok. pose proof (Hm s s (good_refl s Hi)) as Hw.
  unfold wp, after in *. by destruct (m s).
Qed.

Lemma drop_ok r s : inv s -> step_ok s (drop_resolved r s).
Proof.
  intros Hi. split; [by apply drop_resolved_inv|]. intros loc _ Hl.
  destruct r as [t|l]; [done|]. exact (sweep_leased (set_leases _ s) loc Hl).
Qed.

Lemma jobs_ok s r n p t : inv (set_jobs r n p t s) -> step_ok s (set_jobs r n p t s).
Proof. by split. Qed.

Lemma publish_comparison_ok task generate clock now late late' token b a bi ai origin patch s :
  draws_ok generate -> (forall n, origin = Some n -> 0 <= n) -> inv s -> tasks s !! task = Some Running ->
  step_ok s (after (publish_comparison task generate clock now late late' token b a bi ai
    origin patch) s).
Proof.
  intros Hg Ho Hi Ht.
  pose proof (publish_comparison_outcome task generate clock now late late' token b a bi ai
    origin patch s Hg Ho) as Hp.
  unfold wp, after in *. destruct (publish_comparison _ _ _ _ _ _ _ _ _ _ _ _ _ s) as [[summary|e] s1].
  - destruct Hp as (computed & e & _ & [] & _ & _ & _ & _ & Hfree & ->).
    split; [by apply publish_entry_inv|done].
  - subst s1. by split.
Qed.

Lemma step_preserves s s' : inv s -> step s s' -> step_ok s s'.
Proof.
  intros Hi [].
  - by apply keeps_ok, Hi; apply upload_keeps.
  - apply keeps_ok, Hi. apply read_keeps.
  - apply keeps_ok, Hi. apply delete_keeps.
  - pose proof (resolve_holding [] s now input kind s (holding_refl s Hi)) as Hr.
    unfold wp, after in *. destruct (resolve now input kind s) as [[r|e] s1];
      [destruct Hr as [Hr _]|]; by eapply holding_ok.
  - by apply drop_ok.
  - pose proof (holding_take_permit [] s s (holding_refl s Hi)) as Hr.
    unfold wp, after in *. destruct (take_permit s). by eapply holding_ok, Hr.
  - pose proof (holding_reserve [] s task now shutdown apply s (holding_refl s Hi) ltac:(done)) as Hr.
    unfold wp, after in *. destruct (reserve _ _ _ _ s). by eapply holding_ok, Hr.
  - by apply publish_comparison_ok.
  - by apply keeps_ok, Hi; apply publish_keeps.
  - by apply jobs_ok, (drop_reservation_inv task p).
  - by apply jobs_ok, (drop_permit_inv task p).
  - by apply keeps_ok, Hi; apply export_keeps.
  - apply keeps_ok, Hi. apply summary_keeps.
  - apply keeps_ok, Hi. apply page_keeps.
  - apply keeps_ok, Hi. apply delete_comparison_keeps.
  - apply good_ok, good_expire, good_refl, Hi.
  - split; [|done]. destruct Hi as [[] Ht]. by split.
  - split; [|done]. destruct Hi as [[] Ht]. by split.
  - apply good_ok, good_entries; [by apply good_refl|apply map_empty_subseteq].
  - apply good_ok. eapply good_step; [by apply good_refl| |done|done|].
    + apply sweep_inv, shrink_attachments; [apply Hi|apply map_empty_subseteq].
    + intros loc Hl. exact (sweep_leased (set_attachments _ s) loc Hl).
Qed.

(** ** The composed operations are sequences of steps *)

Lemma admit_steps now shutdown apply s : rtc step s (after (admit_job now shutdown apply) s).
Proof.
  unfold after, admit_job. pose proof (step_take_permit s) as Ht. unfold after in Ht.
  assert (Hp : forall task s1, take_permit s = (Ok task, s1) -> tasks s1 !! task = Some Admitting).
  { unfold take_permit. intros task s1. destruct (permits s <=? 0); [done|]. intros [= <- <-].
    apply lookup_insert_eq. }
  destruct (take_permit s) as [[task|e] s1]; [|by apply rtc_once].
  specialize (Hp task s1 eq_refl). eapply rtc_l; [exact Ht|].
  pose proof (step_reserve s1 task now shutdown apply Hp) as Hr. unfold after in Hr.
  assert (Hf : forall e s2, reserve task now shutdown apply s1 = (Err e, s2) ->
    tasks s2 !! task = Some Admitting).
  { unfold reserve. intros e s2. destruct (_ || shutdown); [by intros [= _ <-]|].
    destruct (_ || _); [by intros [= _ <-]|done]. }
  destruct (reserve task now shutdown apply s1) as [[[]|e] s2]; [by apply rtc_once|].
  eapply rtc_l; [exact Hr|]. apply rtc_once.
  apply (step_drop_permit _ task Admitting); [by eapply Hf|done].
Qed.

Lemma delete_comparison_tasks id s : tasks (after (delete_comparison id) s) = tasks s.
Proof. unfold after, delete_comparison, bind, lift. by destruct (valid_handle id). Qed.

Lemma finish_comparison_steps task generate clock now late late' received token b a bi ai origin patch s :
  draws_ok generate -> (forall n, origin = Some n -> 0 <= n) -> tasks s !! task = Some Running ->
  rtc step s (after (finish_comparison task generate clock now late late' received token b a bi ai
    origin patch) s).
Proof.
  intros Hg Ho Ht.
  pose proof (step_publish s task generate clock now late late' token b a bi ai origin patch Hg Ho Ht) as Hs.
  pose proof (publish_comparison_outcome task generate clock now late late' token b a bi ai
    origin patch s Hg Ho) as Hp.
  unfold after, finish_comparison, wp in *.
  destruct (publish_comparison _ _ _ _ _ _ _ _ _ _ _ _ _ s) as [r s1].
  assert (Hphase : exists p, tasks s1 !! task = Some p /\ charged p = 1).
  { destruct r as [summary|e]; [|subst s1; eauto].
    destruct Hp as (computed & e & _ & _ & _ & _ & _ & _ & _ & ->).
    exists Published. split; [apply lookup_insert_eq|done]. }
  destruct Hphase as (p & Hp1 & Hc). eapply rtc_l; [exact Hs|].
  eapply rtc_l; [by apply (step_drop_reservation s1 task p)|].
  assert (Ht2 : tasks (drop_reservation task s1) !! task = Some Released) by apply lookup_insert_eq.
  set (s2 := drop_reservation task s1) in *. clearbody s2. simpl.
  destruct r as [summary|e]; [destruct received|];
    try (apply rtc_once; by apply (step_drop_permit s2 task Released)).
  eapply rtc_l; [apply step_delete_comparison|]. apply rtc_once.
  apply (step_drop_permit _ task Released); [|done]. by rewrite delete_comparison_tasks.
Qed.

Lemma finish_export_steps generate now comparison s :
  draws_ok generate -> rtc step s (after (finish_export generate now comparison) s).
Proof.
  intros Hg. unfold after, finish_export.
  pose proof (step_export s generate now comparison Hg) as Hs. unfold after in Hs.
  destruct (export_patch _ _ _ s) as [[p|e] s1]; [by apply rtc_once|]. eapply rtc_l; [exact Hs|].
  pose proof (step_delete_comparison s1 (cs_comparison_id comparison)) as Hd. unfold after in Hd.
  destruct (delete_comparison _ s1) as [[]]; by apply rtc_once.
Qed.

Lemma end_job_steps task s : tasks s !! task = Some Running -> rtc step s (end_job task s).
Proof.
  intros Ht. eapply rtc_l; [by apply (step_drop_reservation s task Running)|]. apply rtc_once.
  apply (step_drop_permit _ task Released); [apply lookup_insert_eq|done].
Qed.

Lemma finish_apply_steps task generate clock now now' late received target patch text s :
  draws_ok generate -> inv s -> tasks s !! task = Some Running ->
  rtc step s (after (finish_apply task generate clock now now' late received target patch text) s).
Proof.
  intros Hg Hi Ht. unfold after, finish_apply. set (m := let! text := lift text in _).
  assert (Hrefl : rtc step s s /\ good s s) by (split; [apply rtc_refl|by apply good_refl]).
  assert (Hm : rtc step s (m s).2 /\ good s (m s).2).
  { unfold m, bind, lift, reject_if, ret, fail. destruct text as [t|e]; [|done].
    destruct late; [done|]. destruct (text_info t _) as [info|e]; [|done].
    pose proof (step_publish_attachment s generate clock now t Text Hg) as Hp. unfold after in Hp.
    pose proof (publish_keeps generate clock now t Text Hg s s (good_refl s Hi)) as Hk. unfold wp in Hk.
    destruct (publish_attachment _ _ _ _ _ s) as [[sum|e] s1]; (split; [by apply rtc_once|exact Hk]). }
  destruct (m s) as [r s1]. destruct Hm as [Hm Hg1]. simpl in Hm, Hg1.
  match goal with |- context [drop_resolved target (end_job task ?x)] => set (s2 := x) end.
  assert (H2' : rtc step s s2 /\ good s s2).
  { unfold s2. destruct r as [[sum info]|e]; [|done]. destruct received; [done|].
    unfold delete_attachment. split.
    - eapply rtc_r; [exact Hm|]. apply (step_delete s1).
    - pose proof (delete_keeps now' (as_attachment_id sum) None s s1 Hg1) as Hd.
      unfold wp in Hd. by destruct (delete_attachment_with_kind _ _ _ s1). }
  destruct H2' as [Hr [_ [_ _ Hts]]]. simpl. etrans; [exact Hr|].
  etrans; [apply end_job_steps; by rewrite Hts|].
  eapply rtc_l; [apply step_drop|]. apply rtc_once, step_drop.
Qed.

Lemma shutdown_steps s : rtc step s (shutdown_stores s).
Proof.
  eapply rtc_l; [apply step_clear_entries|]. apply rtc_once, step_clear_attachments.
Qed.

Lemma reachable_rtc s s' : reachable s -> rtc step s s' -> reachable s'.
Proof. intros Hr Hs. induction Hs as [|s s1 s2 H1' _ IH]; [done|]. apply IH. by eapply reachable_step. Qed.

Lemma reachable_inv s : reachable s -> inv s.
Proof.
  induction 1 as [|s s' _ IH Hs]; [apply initial_inv|]. by destruct (step_preserves s s' IH Hs).
Qed.
End steps.

(** * Clients of attachments *)

Section clients.
Context `{JsonSizes} `{AllocationLaws}.

Lemma bind_ok {A B} (m : M A) (k : A -> M B) s a s' :
  m s = (Ok a, s') -> bind m k s = k a s'.
Proof. intros Hm. unfold bind. by rewrite Hm. Qed.

(** An attachment that is present and does not expire before [now]. *)
Record live (now : Z) (s : State) (id : str) (a : StoredAttachment) (d : AttachmentData) : Prop := {
  lv_inv : inv s;
  lv_entry : attachments s !! id = Some a;
  lv_fresh : now < sa_expires a;
  lv_data : heap s !! sa_data a = Some d;
}.

Lemma live_expired now s id a d : live now s id a d -> live now (expired now s) id a d.
Proof.
  intros [Hi Ha Hn Hd]. constructor; [by apply expire_inv|by apply expired_attachments|done|].
  unfold expired, expire. simpl.
  apply (sweep_lookup (set_attachments _ s)). split; [done|]. left. exists id, a.
  split; [|done]. simpl. by apply map_lookup_filter_Some.
Qed.

Lemma live_text now s id a d : live now s id a d -> stored_text s a = ad_text d.
Proof. intros []. unfold stored_text. by rewrite lv_data0. Qed.

Lemma live_ok now s id a d : live now s id a d -> attachment_ok id a d.
Proof. intros []. by eapply ac_stored; [apply lv_inv0|..]. Qed.

Definition chunk_request (id chunk : str) (offset : Z) (complete : bool) : AttachmentUpload :=
  {| up_attachment_id := Some id; up_kind := None; up_total_bytes := None; up_offset := offset;
    up_chunk := chunk; up_complete := complete |}.

Lemma maximum_le kind : maximum kind <= MAX_PATCH_INPUT_BYTES.
Proof. by destruct kind. Qed.

(** The next chunk of an open attachment is accepted. *)
Lemma upload_chunk generate clock now id chunk complete s a d :
  live now s id a d -> stopping s = false -> as_sealed (sa_summary a) = false ->
  chunk <> [] -> slen chunk <= MAX_ATTACHMENT_CHUNK_BYTES -> contains_char 0 chunk = false ->
  slen (ad_text d ++ chunk) <= as_total_bytes (sa_summary a) ->
  (complete = true -> slen (ad_text d ++ chunk) = as_total_bytes (sa_summary a)
      /\ validate (as_kind (sa_summary a)) (ad_text d ++ chunk) = Ok tt) ->
  upload_attachment generate clock now (chunk_request id chunk (slen (ad_text d)) complete) s
  = (Ok (commit (sa_summary a) (slen (ad_text d ++ chunk)) complete),
    appended id a d chunk complete (expired now s)).
Proof.
  intros Hl Hst Hs Hne Hlen Hnul Htot Hc. pose proof (live_ok _ _ _ _ _ Hl) as (Hid & _ & _ & Ht & _).
  pose proof (maximum_le (as_kind (sa_summary a))) as Hm.
  apply live_expired in Hl. pose proof (live_text _ _ _ _ _ Hl) as Htext. destruct Hl.
  unfold upload_attachment, upload_attachment_with_kind, chunk_request. cbn [up_chunk up_attachment_id].
  rewrite Hnul, orb_false_r, (proj2 (Z.ltb_ge _ _)) by done.
  rewrite (bind_ok _ _ s tt s), (bind_ok _ _ s tt (expired now s)) by done.
  rewrite (bind_ok _ _ _ false (expired now s)) by (unfold gets; f_equal; by rewrite <- Hst).
  rewrite (bind_ok _ _ _ tt (expired now s)) by done.
  unfold upload_continue. cbn [up_kind up_total_bytes up_offset up_chunk up_complete is_some orb].
  rewrite (bind_ok _ _ _ tt (expired now s)) by (unfold lift; by rewrite Hid).
  rewrite (bind_ok _ _ _ tt (expired now s)) by done.
  rewrite (bind_ok _ _ _ (Some a) (expired now s)) by (unfold gets; by rewrite lv_entry0).
  rewrite (bind_ok _ _ _ a (expired now s)) by done. cbv zeta.
  rewrite (bind_ok _ _ _ tt (expired now s)) by done.
  rewrite (bind_ok _ _ _ (ad_text d) (expired now s)) by (unfold gets; by rewrite Htext).
  rewrite (bind_ok _ _ _ tt (expired now s)) by (by rewrite Z.ltb_irrefl).
  rewrite slen_app in *.
  rewrite (bind_ok _ _ _ (slen (ad_text d) + slen chunk) (expired now s)).
  2: { rewrite checked_add_ok; [done|].
  unfold MAX_PATCH_INPUT_BYTES, usize_max in *. lia. }
  rewrite (bind_ok _ _ _ tt (expired now s)).
  2: { rewrite (proj2 (Z.ltb_ge _ _)) by lia. destruct complete; [|done].
  destruct Hc as [Hc _]; [done|]. by rewrite (proj2 (Z.eqb_eq _ _)). }
  rewrite Z.ltb_irrefl, Hs. cbn [orb].
  rewrite (bind_ok _ _ _ tt (expired now s)).
  2: { rewrite Z.eqb_refl. destruct (str_eqb chunk []) eqn:E; [by apply str_eqb_eq in E|done]. }
  pose proof (unsealed_unique _ _ _ lv_inv0 lv_entry0 Hs) as Hu.
  rewrite (bind_ok _ _ _ tt (set_heap (<[sa_data a := {| ad_text := ad_text d ++ chunk;
    ad_charge := ad_charge d |}]> (heap (expired now s))) (attachment_bytes (expired now s))
    (expired now s))) by (unfold write_text; by rewrite lv_data0, Hu).
  destruct complete; [|done]. destruct Hc as [_ Hv]; [done|]. by rewrite Hv.
Qed.

Lemma appended_live now s id a d chunk complete :
  live now s id a d -> as_sealed (sa_summary a) = false ->
  slen (ad_text d ++ chunk) <= as_total_bytes (sa_summary a) ->
  (complete = true -> slen (ad_text d ++ chunk) = as_total_bytes (sa_summary a)
      /\ validate (as_kind (sa_summary a)) (ad_text d ++ chunk) = Ok tt) ->
  live now (appended id a d chunk complete (expired now s)) id
  {| sa_data := sa_data a;
    sa_summary := commit (sa_summary a) (slen (ad_text d) + slen chunk) complete;
    sa_expires := sa_expires a |}
  {| ad_text := ad_text d ++ chunk; ad_charge := ad_charge d |}.
Proof.
  rewrite slen_app. intros Hl Hs Ht Hc. apply live_expired in Hl. destruct Hl.
  constructor; [by apply appended_inv|apply lookup_insert_eq|done|apply lookup_insert_eq].
Qed.

(** A client that sends the rest of a text, the last chunk as complete; the
    next offset is the committed count of the answer. *)
Fixpoint upload_rest (generate : Draws) (clock now : Z) (id : str) (offset : Z) (chunks : list str)
  : M AttachmentSummary :=
  match chunks with
  | [] => fail InvalidInput
  | chunk :: chunks =>
    let complete := bool_decide (chunks = []) in
    let! summary := upload_attachment generate clock now (chunk_request id chunk offset complete) in
    if complete then ret summary
    else upload_rest generate clock now id (as_committed_bytes summary) chunks
  end.

(** A client that reads from [offset] on until the answer is complete. *)
Fixpoint read_rest (fuel : nat) (now : Z) (id : str) (offset : Z) : M (list str) :=
  match fuel with
  | O => fail Cancelled
  | S fuel =>
    let! page := read_attachment now id offset in
    if ap_complete page then ret [ap_text page]
    else let! rest := read_rest fuel now id (ap_next_offset page) in ret (ap_text page :: rest)
  end.

Definition chunk_ok (chunk : str) : Prop :=
  chunk <> [] /\ slen chunk <= MAX_ATTACHMENT_CHUNK_BYTES.

Lemma validate_nul kind text : validate kind text = Ok tt -> contains_char 0 text = false.
Proof. unfold validate. destruct (_ || _) eqn:E; [done|]. by bool_hyps. Qed.

Lemma nul_app s t : contains_char 0 (s ++ t) = false <->
  contains_char 0 s = false /\ contains_char 0 t = false.
Proof. unfold contains_char. by rewrite existsb_app, orb_false_iff. Qed.

Lemma upload_rest_ok generate clock now id chunks s a d :
  chunks <> [] -> Forall chunk_ok chunks ->
  live now s id a d -> stopping s = false -> as_sealed (sa_summary a) = false ->
  slen (ad_text d ++ concat chunks) = as_total_bytes (sa_summary a) ->
  validate (as_kind (sa_summary a)) (ad_text d ++ concat chunks) = Ok tt ->
  exists a' d' s',
  upload_rest generate clock now id (slen (ad_text d)) chunks s = (Ok (sa_summary a'), s')
    /\ live now s' id a' d' /\ as_sealed (sa_summary a') = true
    /\ ad_text d' = ad_text d ++ concat chunks.
Proof.
  revert s a d. induction chunks as [|chunk chunks IH]; intros s a d; [done|].
  intros _ [[Hne Hlen] Hall]%Forall_cons Hl Hst Hs Htot Hv. simpl in Htot, Hv.
  pose proof (validate_nul _ _ Hv) as [_ [Hnul _]%nul_app]%nul_app.
  pose proof (slen_nonneg (concat chunks)) as Hpos.
  assert (Hle : slen (ad_text d ++ chunk) <= as_total_bytes (sa_summary a))
    by (rewrite <- Htot, app_assoc, (slen_app (ad_text d ++ chunk)); lia).
  assert (Hc : bool_decide (chunks = []) = true -> slen (ad_text d ++ chunk) = as_total_bytes (sa_summary a)
    /\ validate (as_kind (sa_summary a)) (ad_text d ++ chunk) = Ok tt).
  { intros ->%bool_decide_eq_true. simpl in *. by rewrite app_nil_r in *. }
  pose proof (upload_chunk generate clock now id chunk _ s a d Hl Hst Hs Hne Hlen Hnul Hle Hc) as Hup.
  pose proof (appended_live now s id a d chunk _ Hl Hs Hle Hc) as Hl'.
  cbn [upload_rest]. rewrite (bind_ok _ _ _ _ _ Hup).
  case_bool_decide as Hd.
  - subst chunks. eexists _, _, _. split; [|split; [exact Hl'|]].
    + simpl. by rewrite slen_app.
    + simpl. by rewrite app_nil_r.
  - destruct (IH (appended id a d chunk false (expired now s)) _ _ Hd Hall Hl' Hst eq_refl)
      as (a' & d' & s' & Hr & Hl2 & Hs2 & Ht2).
    { simpl. by rewrite <- app_assoc. }
    { simpl. by rewrite <- app_assoc. }
    exists a', d', s'. split_and!; [done|done|done|]. simpl in Ht2 |- *.
    by rewrite Ht2, <- app_assoc.
Qed.
Lemma read_piece now s id a d pre rest :
  live now s id a d -> as_sealed (sa_summary a) = true -> ad_text d = pre ++ rest ->
  exists m b, rest = m ++ b /\ (rest <> [] -> m <> []) /\ slen m <= MAX_ATTACHMENT_CHUNK_BYTES /\
  read_attachment now id (slen pre) s =
  (Ok {| ap_attachment := sa_summary a; ap_offset := slen pre;
    ap_next_offset := slen (pre ++ m); ap_complete := bool_decide (b = []);
    ap_text := m |}, expired now s).
Proof.
  intros Hl Hs Ht. pose proof (live_ok _ _ _ _ _ Hl) as (Hid & _ & _ & Hb & _).
  pose proof (maximum_le (as_kind (sa_summary a))) as Hm.
  destruct (align_piece (E:=TextDiffError) CHUNK_BYTES pre rest ltac:(done)) as (m & b & -> & Hmne & Hmlen & _ & Hal & Hr).
  exists m, b. split_and!; [done|done|done|].
  apply live_expired in Hl. pose proof (live_text _ _ _ _ _ Hl) as Htext. destruct Hl.
  rewrite Ht in Hb, Htext. unfold read_attachment, read_attachment_with_kind.
  pose proof (slen_nonneg pre). pose proof (slen_nonneg (m ++ b)). rewrite slen_app in Hb.
  rewrite (bind_ok _ _ s tt s) by (unfold lift; by rewrite Hid).
  rewrite (bind_ok _ _ s tt (expired now s)) by done.
  rewrite (bind_ok _ _ _ (Some a) (expired now s)) by (unfold gets; by rewrite lv_entry0).
  rewrite (bind_ok _ _ _ a (expired now s)) by done.
  rewrite (bind_ok _ _ _ tt (expired now s)) by done.
  rewrite (bind_ok _ _ _ (pre ++ m ++ b) (expired now s)) by (unfold gets; by rewrite Htext).
  rewrite (bind_ok _ _ _ tt (expired now s)).
  2: { rewrite Hs, slen_app, (proj2 (Z.ltb_ge _ _)) by lia. done. }
  rewrite (bind_ok _ _ _ tt (expired now s)).
  2: { assert (is_char_boundary (pre ++ m ++ b) (slen pre) = true) as ->; [|done].
  apply char_boundary_iff. by exists pre, (m ++ b). }
  assert (saturating_add (slen pre) MAX_ATTACHMENT_CHUNK_BYTES = slen pre + CHUNK_BYTES) as ->.
  { unfold saturating_add, usize_max, MAX_PATCH_INPUT_BYTES, MAX_ATTACHMENT_CHUNK_BYTES, CHUNK_BYTES in *.
    lia. }
  cbv zeta. rewrite Hal, Hr. unfold ret. do 3 f_equal; rewrite ?slen_app; [done|].
  apply eq_true_iff_eq. rewrite Z.eqb_eq, bool_decide_eq_true. split; [|intros ->; simpl; lia].
  intros Heq. apply slen_zero. lia.
Qed.

Lemma read_rest_ok fuel now s id a d pre rest :
  (length rest < fuel)%nat ->
  live now s id a d -> as_sealed (sa_summary a) = true -> ad_text d = pre ++ rest ->
  exists pieces s', read_rest fuel now id (slen pre) s = (Ok pieces, s')
    /\ concat pieces = rest /\ Forall (fun p => slen p <= MAX_ATTACHMENT_CHUNK_BYTES) pieces.
Proof.
  revert pre rest s. induction fuel as [|fuel IH]; intros pre rest s Hf Hl Hs Ht; [lia|].
  destruct (read_piece now s id a d pre rest Hl Hs Ht) as (m & b & -> & Hm & Hlen & Hr).
  cbn [read_rest]. rewrite (bind_ok _ _ _ _ _ Hr). cbn [ap_complete ap_text ap_next_offset].
  case_bool_decide as Hd.
  - subst b. exists [m], (expired now s). split_and!; [done|done|by repeat constructor].
  - destruct (IH (pre ++ m) b (expired now s)) as (ps & s' & Hps & Hc & Hall).
    + rewrite length_app in Hf. destruct m; [|simpl in *; lia]. destruct b; [done|]. by destruct Hm.
    + by apply live_expired.
    + done.
    + by rewrite <- app_assoc.
    + exists (m :: ps), s'. rewrite (bind_ok _ _ _ _ _ Hps). simpl. rewrite Hc. by repeat constructor.
Qed.

(** A client that uploads a text of [kind] in the given chunks. *)
Definition upload_text (generate : Draws) (clock now : Z) (kind : AttachmentKind) (total : Z)
  (chunks : list str) : M AttachmentSummary :=
  match chunks with
  | [] => fail InvalidInput
  | chunk :: chunks =>
    let complete := bool_decide (chunks = []) in
    let! summary := upload_attachment generate clock now
    {| up_attachment_id := None; up_kind := Some kind; up_total_bytes := Some total;
      up_offset := 0; up_chunk := chunk; up_complete := complete |} in
    if complete then ret summary
    else upload_rest generate clock now (as_attachment_id summary)
    (as_committed_bytes summary) chunks
  end.

(** The store takes a new attachment of [total] bytes now, under the handle [id]. *)
Record room (generate : Draws) (now total : Z) (id : str) (s : State) : Prop := {
  ro_stopping : stopping s = false;
  ro_count : full_attachments (expired now s) = false;
  ro_id : fresh_attachment_id generate (expired now s) = (Ok id, expired now s);
  ro_bytes : exists c, reserve_exact total = Some c
    /\ used (expired now s) + c + ENTRY_OVERHEAD <= MAX_STORE_BYTES;
}.

Lemma used_nonneg s : inv s -> 0 <= used s.
Proof.
  intros [Ha _]. pose proof (map_sum_entries_nonneg s Ha). pose proof (ledger_nonneg s Ha).
  pose proof (slots_bounds s Ha). destruct Ha. unfold used, JOB_RESERVATION in *. lia.
Qed.

Lemma upload_first generate clock now kind total chunk complete id s :
  draws_ok generate -> inv s -> room generate now total id s ->
  chunk <> [] -> slen chunk <= MAX_ATTACHMENT_CHUNK_BYTES -> contains_char 0 chunk = false ->
  slen chunk <= total -> total <= maximum kind ->
  (complete = true -> slen chunk = total /\ validate kind chunk = Ok tt) ->
  exists a d s', upload_attachment generate clock now
  {| up_attachment_id := None; up_kind := Some kind; up_total_bytes := Some total;
    up_offset := 0; up_chunk := chunk; up_complete := complete |} s = (Ok (sa_summary a), s')
    /\ live now s' id a d /\ stopping s' = false /\ ad_text d = chunk
    /\ as_attachment_id (sa_summary a) = id /\ as_committed_bytes (sa_summary a) = slen chunk
    /\ as_sealed (sa_summary a) = complete /\ as_total_bytes (sa_summary a) = total
    /\ as_kind (sa_summary a) = kind.
Proof.
  intros Hg Hi [Hst Hfull Hid (c & Hc & Hu)] Hne Hlen Hnul Hle Htot Hcomp.
  pose proof (expire_inv now s Hi) as Hi'. pose proof (used_nonneg _ Hi') as Hun.
  pose proof (reserve_exact_ge total c Hc) as Hge. pose proof (slen_nonneg chunk).
  set (d := {| ad_text := chunk; ad_charge := c + ENTRY_OVERHEAD |}).
  set (sum := new_summary id kind total (slen chunk) complete (saturating_add clock 600)).
  set (a := {| sa_data := fresh_location (expired now s); sa_summary := sum;
    sa_expires := now + RETENTION |}).
  set (s' := insert_attachment id d sum (now + RETENTION) (expired now s)).
  assert (Hdraw : valid_handle id = Ok tt /\ attachments (expired now s) !! id = None).
  { apply (f_equal fst) in Hid. unfold fresh_attachment_id in Hid. cbn [fst] in Hid.
    apply draw_id_ok in Hid as [? Ht]; [|done]. by apply not_taken in Ht as [? _]. }
  destruct Hdraw as [Hvalid Hfree].
  assert (Hok : attachment_ok id a d).
  { unfold attachment_ok. simpl. split_and!; try done; try lia.
    intros Hcm. destruct (Hcomp Hcm). split; [done|]. by intros ->. }
  assert (Hinv : inv s') by (apply insert_attachment_inv; [done|done|done|simpl; lia|done]).
  exists a, d, s'. split; [|split_and!; try done].
  2: { constructor; [done|apply lookup_insert_eq|simpl; unfold RETENTION; lia|apply lookup_insert_eq]. }
  assert (Hsat : forall x, 0 <= x -> used (expired now s) + x <= MAX_STORE_BYTES ->
    (MAX_STORE_BYTES <? saturating_add (used (expired now s)) x) = false).
  { intros x Hx Hux. apply Z.ltb_ge. unfold saturating_add. lia. }
  unfold upload_attachment, upload_attachment_with_kind. cbn [up_chunk up_attachment_id].
  rewrite Hnul, orb_false_r, (proj2 (Z.ltb_ge _ _)) by done.
  rewrite (bind_ok _ _ s tt s), (bind_ok _ _ s tt (expired now s)) by done.
  rewrite (bind_ok _ _ _ false (expired now s)) by (unfold gets; f_equal; by rewrite <- Hst).
  rewrite (bind_ok _ _ _ tt (expired now s)) by done.
  unfold upload_create. cbn [up_kind up_total_bytes up_offset up_chunk up_complete is_some].
  rewrite (bind_ok _ _ _ tt (expired now s)), (bind_ok _ _ _ kind (expired now s)),
    (bind_ok _ _ _ total (expired now s)) by done. cbv zeta.
  rewrite (bind_ok _ _ _ tt (expired now s)).
  2: { rewrite (proj2 (Z.ltb_ge _ _)), (proj2 (Z.ltb_ge _ _)) by lia. destruct complete; cbn.
  - destruct Hcomp as [-> _]; [done|]. by rewrite Z.eqb_refl.
  - destruct (str_eqb chunk []) eqn:E; [by apply str_eqb_eq in E|done]. }
  rewrite (bind_ok _ _ _ tt (expired now s)).
  2: { destruct complete; [|done]. destruct Hcomp as [_ Hv]; [done|]. unfold lift. by rewrite Hv. }
  rewrite (bind_ok _ _ _ (expired now s) (expired now s)) by done.
  rewrite (bind_ok _ _ _ tt (expired now s)).
  2: { rewrite Hfull, Hsat; [done|unfold ENTRY_OVERHEAD; lia|unfold ENTRY_OVERHEAD in *; lia]. }
  rewrite (bind_ok _ _ _ id (expired now s)) by done.
  rewrite (bind_ok _ _ _ c (expired now s)) by (unfold lift; by rewrite Hc).
  cbv zeta. rewrite (bind_ok _ _ _ tt (expired now s)).
  2: { rewrite Hsat; [done|unfold ENTRY_OVERHEAD; lia|lia]. }
  by rewrite (bind_ok _ _ _ tt s').
Qed.
Lemma upload_text_ok generate clock now kind chunks id s :
  draws_ok generate -> inv s -> room generate now (slen (concat chunks)) id s ->
  chunks <> [] -> Forall chunk_ok chunks -> validate kind (concat chunks) = Ok tt ->
  exists a d s', upload_text generate clock now kind (slen (concat chunks)) chunks s
  = (Ok (sa_summary a), s')
    /\ live now s' id a d /\ as_sealed (sa_summary a) = true /\ ad_text d = concat chunks.
Proof.
  intros Hg Hi Hroom Hne Hall Hv. destruct chunks as [|chunk chunks]; [done|].
  apply Forall_cons in Hall as [[Hcne Hclen] Hall]. cbn [concat] in *.
  pose proof (validate_nul _ _ Hv) as [Hnul _]%nul_app.
  assert (Hmax : slen (chunk ++ concat chunks) <= maximum kind).
  { unfold validate in Hv. destruct (_ || _) eqn:E; [done|]. by bool_hyps. }
  pose proof (slen_nonneg (concat chunks)).
  assert (Hle : slen chunk <= slen (chunk ++ concat chunks)) by (rewrite slen_app; lia).
  assert (Hc : bool_decide (chunks = []) = true ->
    slen chunk = slen (chunk ++ concat chunks) /\ validate kind chunk = Ok tt).
  { intros ->%bool_decide_eq_true. simpl in *. by rewrite app_nil_r in *. }
  destruct (upload_first generate clock now kind _ chunk _ id s Hg Hi Hroom Hcne Hclen Hnul Hle Hmax Hc)
    as (a & d & s' & Hup & Hl & Hst & Ht & Hid & Hcom & Hs & Htot & Hk).
  cbn [upload_text]. rewrite (bind_ok _ _ _ _ _ Hup). case_bool_decide as Hd.
  - exists a, d, s'. subst chunks. simpl. rewrite app_nil_r. done.
  - rewrite Hid, Hcom, <- Ht.
    assert (Htot' : slen (ad_text d ++ concat chunks) = as_total_bytes (sa_summary a))
      by (rewrite Ht; congruence).
    assert (Hv' : validate (as_kind (sa_summary a)) (ad_text d ++ concat chunks) = Ok tt)
      by (rewrite Ht; congruence).
    destruct (upload_rest_ok generate clock now id chunks s' a d Hd Hall Hl Hst Hs Htot' Hv')
      as (a' & d' & s2 & Hr & ? & ? & Ht2).
    exists a', d', s2. split_and!; [done..|]. congruence.
Qed.

(** C6. Upload and read are inverse: a client that uploads a valid text in
    non-empty chunks of at most 32 KiB, where the store has room, gets every
    chunk accepted and a sealed attachment; a client that then reads page after
    page until [complete] gets bounded pieces that are together the text. *)
Theorem upload_read_roundtrip generate clock now kind chunks id s :
  draws_ok generate -> reachable s -> room generate now (slen (concat chunks)) id s ->
  chunks <> [] -> Forall chunk_ok chunks -> validate kind (concat chunks) = Ok tt ->
  exists summary s' pieces s'',
  upload_text generate clock now kind (slen (concat chunks)) chunks s = (Ok summary, s')
    /\ as_sealed summary = true
    /\ read_rest (S (length (concat chunks))) now id 0 s' = (Ok pieces, s'')
    /\ concat pieces = concat chunks
    /\ Forall (fun p => slen p <= MAX_ATTACHMENT_CHUNK_BYTES) pieces.
Proof.
  intros Hg Hr Hroom Hne Hall Hv. apply reachable_inv in Hr.
  destruct (upload_text_ok generate clock now kind chunks id s Hg Hr Hroom Hne Hall Hv)
    as (a & d & s' & Hup & Hl & Hs & Ht).
  destruct (read_rest_ok (S (length (concat chunks))) now s' id a d [] (concat chunks))
    as (pieces & s'' & Hread & Hc & Hb); [lia|done|done|done|].
  by exists (sa_summary a), s', pieces, s''.
Qed.

(** Jobs whose result is stored while their reservation is still charged. *)
Definition published (s : State) : Z :=
  map_sum (fun p => match p with Published => 1 | _ => 0 end) (tasks s).

Lemma slots_split s : map_sum charged (tasks s) = running s + published s.
Proof.
  unfold running, published. induction (tasks s) as [|k p m Hk IH] using map_ind; [done|].
  rewrite !map_sum_insert, IH by done. destruct p; simpl; lia.
Qed.

(** C5. In every reachable state, between any two locked operations of concurrent
    requests and jobs, the stores are within their limits and the ledgers are
    exact: the attachment ledger is the sum of the charges of the live data, and
    data is live exactly while an attachment or a resolved input holds it; what is
    stored, with 32 MiB for each job that may still publish, is within the 128 MiB
    store, the entries with those jobs are at most 32, the attachments at most 64;
    the reservations charged are those of the jobs that run and of the jobs that
    have published and not yet dropped theirs, so the accounted use exceeds the
    store at most by the latter; every permit is free or held by one job. *)
Theorem store_accounting s :
  reachable s ->
  attachment_bytes s = map_sum ad_charge (heap s)
    /\ (forall loc, is_Some (heap s !! loc) <-> 0 < strong_count s loc)
    /\ 0 <= stored_bytes s /\ stored_bytes s + JOB_RESERVATION * running s <= MAX_STORE_BYTES
    /\ 0 <= used s <= MAX_STORE_BYTES + JOB_RESERVATION * published s
    /\ Z.of_nat (size (entries s)) + running s <= MAX_ENTRIES
    /\ Z.of_nat (size (attachments s)) <= MAX_ATTACHMENTS
    /\ reserved s = JOB_RESERVATION * reserved_slots s
    /\ reserved_slots s = running s + published s
    /\ 0 <= permits s /\ permits s + Z.of_nat (size (tasks s)) = PERMITS.
Proof.
  intros Hr%reachable_inv. pose proof (map_sum_entries_nonneg s (inv_accounted _ Hr)) as Hn.
  pose proof (ledger_nonneg s (inv_accounted _ Hr)). pose proof (slots_split s) as Hs.
  pose proof (runs_charged s). pose proof (slots_bounds s (inv_accounted _ Hr)).
  rewrite <- (ac_slots _ (inv_accounted _ Hr)) in Hs.
  destruct Hr as [[] Ht]. unfold stored_bytes, used, JOB_RESERVATION in *.
  split_and!; try done; try lia. intros loc. rewrite strong_count_held. split; auto.
Qed.

(** A request that continues an upload does one of three things, whatever
    the state: it is rejected and changes nothing but the expiry sweep; it
    replays bytes already committed and gets the unchanged summary; or it appends
    its chunk at the committed end of an open attachment.  It never fails
    internally: an open attachment's text has no other holder. *)
Theorem upload_protocol generate clock now id request declared s r s' :
  reachable s -> up_attachment_id request = Some id ->
  upload_attachment_with_kind generate clock now request declared s = (r, s') ->
  (r = Err InvalidInput /\ s' = s) \/ (r = Err Unavailable /\ s' = expired now s)
  \/ upload_outcome id request (expired now s) r s'.
Proof.
  intros Hr%reachable_inv Hid Hu. unfold upload_attachment_with_kind in Hu. rewrite Hid in Hu.
  match type of Hu with ?m s = _ =>
    apply (wp_run m (fun r s' => (r = Err InvalidInput /\ s' = s)
    \/ (r = Err Unavailable /\ s' = expired now s) \/ upload_outcome id request (expired now s) r s') s r s');
    [|done] end.
  wp_guard as E1; [by left|]. wp_step. eapply (wp_expire_keep s); [by apply good_refl|]. intros [Hi _].
  wp_guard as E2; [by right; left|].
  eapply wp_mono; [by apply upload_continue_outcome|]. auto.
Qed.

(** The data of a resolved input is immutable while the input is held: no
    operation of the service changes it, not even the deletion or expiry of the
    attachment it came from. *)
Theorem lease_stable s s' loc :
  reachable s -> step s s' -> loc ∈ leases s -> loc ∈ leases s' ->
  is_Some (heap s !! loc) /\ heap s' !! loc = heap s !! loc.
Proof.
  intros Hr%reachable_inv Hs Hl Hl'. destruct (step_preserves s s' Hr Hs) as [_ Hd].
  split; [|by apply Hd]. apply (ac_live _ (inv_accounted _ Hr)). by right.
Qed.

(** Starting to apply a patch takes exactly the leases of its two inputs
    when it succeeds and leaves none behind when it fails. *)
Theorem start_apply_leases now now' now'' shutdown gave_up target patch s r s' :
  reachable s -> start_apply now now' now'' shutdown gave_up target patch s = (r, s') ->
  leases s' ≡ₚ match r with Ok ((t, p), _) => data_of p ++ data_of t | Err _ => [] end ++ leases s.
Proof.
  intros Hr%reachable_inv Hs.
  pose proof (start_apply_holding now now' now'' shutdown gave_up target patch s Hr) as Hh.
  unfold wp in Hh. rewrite Hs in Hh. destruct r as [[[t p] task]|e]; apply Hh.
Qed.

(** A comparison that is published stores the texts it was given, the pages
    that the engine's output was validated into and their counts; [equal] says
    whether the texts are equal; a failed one stores nothing.  The job's
    reservation, slot and permit are returned either way. *)
Theorem comparison_published task generate clock now late late' token before after_ bi ai origin patch s r s' :
  draws_ok generate -> (forall n, origin = Some n -> 0 <= n) -> reachable s ->
  tasks s !! task = Some Running ->
  finish_comparison task generate clock now late late' true token before after_ bi ai origin patch s = (r, s') ->
  reserved_slots s' = reserved_slots s - 1 /\ reserved s' = reserved s - JOB_RESERVATION /\
  permits s' = permits s + 1 /\ tasks s' = delete task (tasks s) /\
  match r with
  | Err _ => entries s' = entries s
  | Ok summary => exists computed e,
    patch = Ok computed /\ entry_ok computed before after_ bi ai summary e
      /\ entries s !! cs_comparison_id summary = None
      /\ entries s' = <[cs_comparison_id summary := e]> (entries s)
  end.
Proof.
  intros Hg Ho Hr%reachable_inv Ht Hf.
  assert (reserved s = JOB_RESERVATION * reserved_slots s) as Hres by apply Hr.
  assert (Hpos : 1 <= reserved_slots s).
  { rewrite (ac_slots _ (inv_accounted _ Hr)). apply (map_sum_lookup_le charged _ task Running); [|done].
    intros k [] _; simpl; lia. }
  pose proof (publish_comparison_outcome task generate clock now late late' token before after_ bi ai
    origin patch s Hg Ho) as Hp.
  unfold wp, finish_comparison in *.
  destruct (publish_comparison _ _ _ _ _ _ _ _ _ _ _ _ _ s) as [[summary|e] s1]; injection Hf as <- <-.
  - destruct Hp as (computed & e & -> & Hok & _ & _ & _ & _ & Hfree & ->).
    unfold drop_permit, drop_reservation, saturating_sub, JOB_RESERVATION in *. simpl.
    split_and!; [lia|lia|done|by rewrite !delete_insert_eq|]. by exists computed, e.
  - subst s1. unfold drop_permit, drop_reservation, saturating_sub, JOB_RESERVATION in *. simpl.
    split_and!; [lia|lia|done|by rewrite delete_insert_eq|done].
Qed.
End clients.

(** * Concrete runs *)

Definition sample_allocation : Allocation :=
  {| reserve_exact n := Some n; string_capacity s := slen s; vec_capacity A l := zlen l;
     json_response_len r := Some 512 |}.
#[local] Existing Instance sample_sizes.
#[local] Existing Instance sample_allocation.

#[local] Instance sample_allocation_laws : AllocationLaws.
Proof. constructor; [intros n c [= ->]; lia|intros; simpl; lia|intros; simpl; lia]. Qed.

Definition sample_draws : Draws := fun i => Ok (repeat (Z.of_nat i mod 256) 32).
Lemma sample_draws_ok : draws_ok sample_draws.
Proof.
  intros i l [= <-]. split; [done|]. repeat constructor; dlia.
Qed.

Definition sample_id : str := hex (repeat 0 32).
Definition sample_upload : AttachmentUpload :=
  {| up_attachment_id := None; up_kind := Some Text; up_total_bytes := Some 4; up_offset := 0;
     up_chunk := u "abcd"; up_complete := true |}.

Definition sample_info : TextInfo :=
  {| ti_label := u "Before"; ti_bytes := 1; ti_lines := 1; ti_crlf := 0; ti_lf := 0;
     ti_bare_cr := 0; ti_bom := false; ti_final_newline := false |}.

(** An attachment, then its resolution, then its deletion. *)
Definition state1 : State :=
  after (upload_attachment_with_kind sample_draws 0 0 sample_upload None) initial_state.
Definition state2 : State := after (resolve 1 (Attachment (Handle sample_id)) Text) state1.
Definition state3 : State := after (delete_attachment_with_kind 2 sample_id None) state2.
(** A comparison in flight. *)
Definition state4 : State :=
  after (start_comparison 0 false false (u "x") (u "x") None None) initial_state.
(** Its result in the store, its reservation still charged. *)
Definition sample_publish : M ComparisonSummary :=
  publish_comparison 0 sample_draws 0 1 false false 7 (u "x") (u "x") sample_info sample_info
    (Some 4) (Ok {| cd_patch := []; cd_inline_changes := [] |}).
Definition state5 : State := after sample_publish state4.

Lemma state1_reachable : reachable state1.
Proof.
  eapply reachable_step; [apply reachable_initial|]. apply step_upload, sample_draws_ok.
Qed.
Lemma state2_reachable : reachable state2.
Proof. eapply reachable_step; [apply state1_reachable|]. apply step_resolve. Qed.
Lemma state4_reachable : reachable state4.
Proof.
  eapply reachable_rtc; [apply reachable_initial|]. exact (admit_steps 0 false false initial_state).
Qed.
Lemma state4_running : tasks state4 !! 0%nat = Some Running.
Proof. vm_compute. reflexivity. Qed.
Lemma state5_reachable : reachable state5.
Proof.
  eapply reachable_step; [apply state4_reachable|]. apply step_publish; [apply sample_draws_ok| |].
  - intros n [= <-]. lia.
  - apply state4_running.
Qed.

Lemma upload_read_roundtrip_witness :
  exists summary s' pieces s'',
    upload_text sample_draws 0 0 Text 4 [u "ab"; u "cd"] initial_state = (Ok summary, s')
    /\ as_sealed summary = true
    /\ read_rest 5 0 sample_id 0 s' = (Ok pieces, s'') /\ concat pieces = u "abcd".
Proof.
  destruct (upload_read_roundtrip sample_draws 0 0 Text [u "ab"; u "cd"] sample_id initial_state)
    as (sum & s' & pieces & s'' & H1 & H2 & H3 & H4 & _).
  - exact sample_draws_ok.
  - apply reachable_initial.
  - constructor; [reflexivity|vm_compute; reflexivity| |].
    + vm_compute. reflexivity.
    + exists 4. split; [vm_compute; reflexivity|]. vm_compute. discriminate.
  - discriminate.
  - repeat constructor; try discriminate; vm_compute; discriminate.
  - vm_compute. reflexivity.
  - exists sum, s', pieces, s''. split_and!; [exact H1|exact H2|exact H3|].
    rewrite H4. reflexivity.
Defined.

Lemma store_accounting_witness :
  (attachment_bytes state1 = 1028 /\ 0 <= used state1 <= MAX_STORE_BYTES)
  /\ (published state5 = 1 /\ reserved_slots state5 = 1 /\ Z.of_nat (size (entries state5)) = 1
      /\ stored_bytes state5 <= MAX_STORE_BYTES).
Proof.
  destruct (store_accounting state1 state1_reachable) as (_ & _ & _ & _ & Hu & _).
  destruct (store_accounting state5 state5_reachable) as (_ & _ & _ & Hs & _ & _ & _ & _ & Hc & _).
  assert (running state5 = 0) as Hr by (vm_compute; reflexivity).
  assert (published state5 = 1) as Hp by (vm_compute; reflexivity).
  assert (published state1 = 0) as Hp1 by (vm_compute; reflexivity).
  rewrite Hp1, Z.mul_0_r, Z.add_0_r in Hu. rewrite Hr, Z.mul_0_r, Z.add_0_r in Hs. rewrite Hr, Hp in Hc.
  split; [split; [vm_compute; reflexivity|exact Hu]|].
  split_and!; [exact Hp|exact Hc|vm_compute; reflexivity|exact Hs].
Defined.

Definition sample_replay : AttachmentUpload := chunk_request sample_id (u "cd") 2 true.

Lemma upload_protocol_witness :
  exists r s', upload_attachment_with_kind sample_draws 0 1 sample_replay None state1 = (r, s')
    /\ is_ok r = true /\ upload_outcome sample_id sample_replay (expired 1 state1) r s'.
Proof.
  destruct (upload_attachment_with_kind sample_draws 0 1 sample_replay None state1) as [r s'] eqn:E.
  exists r, s'. split; [reflexivity|].
  assert (Hok : is_ok r = true) by (apply (f_equal fst) in E; vm_compute in E; by rewrite <- E).
  split; [exact Hok|].
  assert (Hid : up_attachment_id sample_replay = Some sample_id) by reflexivity.
  pose proof (upload_protocol sample_draws 0 1 sample_id sample_replay None state1 r s'
    state1_reachable Hid E) as Ho. clear E.
  destruct Ho as [[Hr _]|[[Hr _]|Ho]]; [| |exact Ho]; rewrite Hr in Hok; discriminate.
Defined.

Lemma lease_stable_witness :
  attachments state3 !! sample_id = None /\ heap state3 !! 0%nat = heap state2 !! 0%nat.
Proof.
  split; [vm_compute; reflexivity|].
  assert (Hs : step state2 state3) by exact (step_delete _ 2 sample_id None).
  assert (Hl2 : 0%nat ∈ leases state2) by (vm_compute; apply list_elem_of_here).
  assert (Hl3 : 0%nat ∈ leases state3) by (vm_compute; apply list_elem_of_here).
  destruct (lease_stable state2 state3 0 state2_reachable Hs Hl2 Hl3) as [_ Hd]. exact Hd.
Defined.

Lemma start_apply_leases_witness :
  leases (after (start_apply 1 1 1 false false (Attachment (Handle sample_id)) (Inline (u "p"))) state1)
  ≡ₚ [0%nat].
Proof.
  unfold after.
  destruct (start_apply 1 1 1 false false (Attachment (Handle sample_id)) (Inline (u "p")) state1)
    as [r s'] eqn:E.
  pose proof (start_apply_leases 1 1 1 false false _ _ state1 r s' state1_reachable E) as Hl.
  apply (f_equal fst) in E. vm_compute in E. rewrite <- E in Hl. exact Hl.
Defined.

Definition sample_finish : M ComparisonSummary :=
  finish_comparison 0 sample_draws 0 1 false false true 7 (u "x") (u "x") sample_info sample_info
    (Some 4) (Ok {| cd_patch := []; cd_inline_changes := [] |}).

Lemma comparison_published_witness :
  exists summary s', sample_finish state4 = (Ok summary, s') /\ cs_equal summary = true
    /\ reserved_slots s' = 0 /\ is_Some (entries s' !! cs_comparison_id summary).
Proof.
  destruct (sample_finish state4) as [r s'] eqn:E.
  destruct (comparison_published 0 sample_draws 0 1 false false 7 (u "x") (u "x") sample_info
    sample_info (Some 4) (Ok {| cd_patch := []; cd_inline_changes := [] |}) state4 r s'
    sample_draws_ok ltac:(intros n [= <-]; lia) state4_reachable state4_running E) as (Hn & _ & _ & _ & Hr).
  destruct r as [summary|e]; [|apply (f_equal fst) in E; vm_compute in E; discriminate].
  destruct Hr as (computed & en & _ & Heok & _ & He).
  exists summary, s'. split_and!; [reflexivity|by apply (eo_equal _ _ _ _ _ _ _ Heok)| |].
  - rewrite Hn. vm_compute. reflexivity.
  - rewrite He. exists en. apply lookup_insert_eq.
Defined.
