(* ===== verification/PatchChars.v ===== *)
(** A patched text has no characters of its own: every one is in the target or
    in the patch. *)

From S2P Require Import Prelude Utf8 TextDiff Patch PatchFacts.

Section chars.
Context (P : char -> Prop).

Definition row_chars (r : PatchRow) : Prop := Forall P (pr_text r).
Definition line_chars (lines : list str) : Prop := Forall (Forall P) lines.

Lemma row_step_chars oc nc row marked st st' :
  Forall P row -> Forall row_chars (rows st) -> row_step oc nc row marked st = Ok st' ->
  Forall row_chars (rows st').
Proof.
  intros Hrow Hst Hs. unfold row_step in Hs. destruct row as [|p text]; [done|].
  apply Forall_cons in Hrow as [_ Ht].
  destruct (negb _ || _); [done|].
  destruct (if marked then _ else Ok text) as [t|] eqn:Em; [|done].
  assert (Forall P t).
  { destruct marked; [|by injection Em as <-].
    destruct (strip_suffix [LF] text) as [t'|] eqn:E; [|done]. cbn in Em.
    destruct (str_eqb t' []); [done|]. injection Em as <-.
    apply strip_suffix_Some in E as ->. by apply Forall_app in Ht as [? _]. }
  destruct (negb (p =? PLUS) && _); [done|]. destruct (negb (p =? MINUS) && _); [done|].
  injection Hs as <-. cbn. apply Forall_app. split; [done|]. by constructor.
Qed.

Lemma rows_loop_chars oc nc lines st st' lines' :
  line_chars lines -> Forall row_chars (rows st) -> rows_loop oc nc lines st = Ok (st', lines') ->
  Forall row_chars (rows st') /\ line_chars lines'.
Proof.
  remember (length lines) as n eqn:Hn. revert lines st Hn.
  induction n as [n IH] using (well_founded_induction lt_wf). intros lines st -> Hl Hst Hs.
  destruct lines as [|row rest]; cbn [rows_loop] in Hs.
  - destruct (_ || _); [by destruct (_ <=? _)|]. by injection Hs as <- <-.
  - apply Forall_cons in Hl as [Hrow Hl].
    destruct (_ || _); [|injection Hs as <- <-; split; [done|by constructor]].
    destruct (_ <=? _); [done|].
    destruct rest as [|next rest].
    + destruct (row_step _ _ _ _ _) as [s1|] eqn:E; [|done]. eapply row_step_chars in E; [|done..].
      apply (IH 0%nat ltac:(simpl; lia) [] s1 eq_refl); done.
    + destruct (str_eqb next MARKER); destruct (row_step _ _ _ _ _) as [s1|] eqn:E; try done;
        (eapply row_step_chars in E; [|done..]).
      * apply Forall_cons in Hl as [_ Hl]. eapply IH; [|reflexivity|done|exact E|exact Hs]. simpl. lia.
      * eapply IH; [|reflexivity|done|exact E|exact Hs]. simpl. lia.
Qed.

Definition hunk_chars (h : PatchHunk) : Prop := Forall row_chars (ph_rows h).

Lemma hunk_step_chars header lines st st' lines' :
  line_chars lines -> Forall hunk_chars (hunks st) -> hunk_step header lines st = Ok (st', lines') ->
  Forall hunk_chars (hunks st') /\ line_chars lines'.
Proof.
  intros Hl Hst Hs. unfold hunk_step in Hs. destruct (_ <=? _) in Hs; [done|].
  destruct (parse_header header) as [[[os oc] [ns nc]]|]; [|done].
  destruct (_ <? _) in Hs; [done|]. destruct (_ || _) in Hs; [done|].
  destruct (rows_loop _ _ _ _) as [[rs l1]|] eqn:E; [|done].
  apply rows_loop_chars in E as [E1 E2]; [|done|constructor].
  destruct (negb _); [done|]. injection Hs as <- <-. cbn. split; [|done].
  apply Forall_app. split; [done|]. by constructor.
Qed.

Lemma hunks_loop_chars fuel lines st st' :
  line_chars lines -> Forall hunk_chars (hunks st) -> hunks_loop fuel lines st = Ok st' ->
  Forall hunk_chars (hunks st').
Proof.
  revert lines st. induction fuel as [|fuel IH]; intros [|h lines] st Hl Hst Hs; cbn in Hs; try done;
    [by injection Hs as <-|].
  destruct (hunk_step h lines st) as [[s1 l1]|] eqn:E; [|done].
  apply Forall_cons in Hl as [_ Hl]. apply hunk_step_chars in E as [E1 E2]; [|done..]. by eapply IH.
Qed.

Lemma parse_patch_chars patch hs : Forall P patch -> parse_patch patch = Ok hs -> Forall hunk_chars hs.
Proof.
  intros Hp Hs. unfold parse_patch, parse_lines in Hs.
  destruct (match skip_preamble _ with Ok x => _ | Err err_ => _ end) as [lines|e] eqn:E; [|done].
  apply headers_sub in E as [pre Epre].
  destruct (hunks_loop _ lines _) as [st|] eqn:El; [|done].
  apply hunks_loop_chars in El; [case_bool_decide; congruence| |constructor].
  apply Forall_forall. intros l Hl. apply Forall_forall. intros c Hc. rewrite Forall_forall in Hp. apply Hp.
  rewrite <- (concat_split_inclusive patch), Epre, concat_app. apply elem_of_app. right.
  apply list_elem_of_In, in_concat. exists l. by rewrite <- !list_elem_of_In.
Qed.

Lemma new_side_chars script : Forall (fun e => line_chars (new_line e)) script -> line_chars (new_side script).
Proof. intros Hs. apply Forall_bind. exact Hs. Qed.

Lemma replays_chars c hs script c' :
  replays c hs script c' -> Forall hunk_chars hs -> line_chars (old_side script) -> line_chars (new_side script).
Proof.
  induction 1 as [|c h hs gap script c' _ _ IH]; intros Hh Ho; [constructor|].
  apply Forall_cons in Hh as [Hh Hhs]. rewrite !old_side_app, old_side_keep in Ho.
  rewrite !new_side_app, new_side_keep. unfold line_chars in *. rewrite !Forall_app in Ho |- *.
  destruct Ho as (Hg & _ & Ho). split_and!; [done| |by apply IH].
  apply new_side_chars. unfold hunk_edits. apply Forall_fmap. eapply Forall_impl; [exact Hh|].
  intros r Hr. cbn. unfold row_edit, line_chars. repeat case_match; cbn; by repeat constructor.
Qed.

Lemma concat_chars lines : line_chars lines -> Forall P (concat lines).
Proof. induction 1; cbn; [constructor|by apply Forall_app]. Qed.

Lemma split_chars text : Forall P text -> line_chars (split_inclusive text).
Proof.
  intros Ht. apply Forall_forall. intros l Hl. apply Forall_forall. intros c Hc.
  rewrite Forall_forall in Ht. apply Ht. rewrite <- (concat_split_inclusive text).
  apply list_elem_of_In, in_concat. exists l. by rewrite <- !list_elem_of_In.
Qed.

Lemma apply_patch_chars target patch out :
  Forall P target -> Forall P patch -> apply_patch target patch = Ok out -> Forall P out.
Proof.
  intros Ht Hp Ha. destruct (decide (patch = [])) as [->|Hne].
  - unfold apply_patch in Ha. destruct (validate_text target) as [[]|]; [|done].
    assert (out = target) as ->; [|done].
    change (@Ok (stop TextDiffError) _ target = Ok out) in Ha. congruence.
  - apply apply_patch_ok_inv in Ha as (_ & _ & _ & hs & Hps & Hwf & Ha); [|done].
    apply apply_parsed_iff in Ha as (script & tail & c & Hr & Ho & Hn & _); [|done].
    apply parse_patch_chars in Hps; [|done].
    rewrite <- (concat_split_inclusive out), Hn. apply concat_chars.
    apply split_chars in Ht. rewrite Ho in Ht. apply Forall_app in Ht as [Ht1 Ht2].
    apply Forall_app. split; [by eapply replays_chars|done].
Qed.
End chars.
