(* ===== verification/Compute.v ===== *)
(** The comparison engine: [crates/adapters/src/text_diff/compute.rs].

    The edit operations come from the crate [similar]; the class [Similar] has
    what the engine calls of it and [SimilarLaws] what its documentation says of
    the results.  The engine prints the grouped operations as a unified patch
    and turns the character operations of each replaced block into highlights.
    Slices out of range and subtractions below zero are panics. *)

From S2P Require Import Prelude Utf8 Strings TextDiff Patch Paging DiffService.

(** * The crate [similar] *)

Inductive DiffTag := DEqual | DDelete | DInsert | DReplace.
Inductive ChangeTag := CEqual | CDelete | CInsert.
#[export] Instance DiffTag_eq_dec : EqDecision DiffTag.
Proof. solve_decision. Defined.

(** [DiffOp]: its tag, [old_range] and [new_range]. *)
Record DiffOp := {
  op_tag : DiffTag; old_start : Z; old_end : Z; new_start : Z; new_end : Z;
}.

Class Similar := {
  (** [TextDiff::diff_slices(old, new)]: [ops], [grouped_ops(n)], [iter_changes(op)] *)
  line_ops : list str -> list str -> list DiffOp;
  grouped_ops : list str -> list str -> Z -> list (list DiffOp);
  iter_changes : list str -> list str -> DiffOp -> list (ChangeTag * str);
  (** [TextDiff::diff_chars(old, new).ops()] *)
  char_ops : str -> str -> list DiffOp;
}.

(** An operation states what it does to its two ranges. *)
Definition op_valid {A} (old new : list A) (op : DiffOp) : Prop :=
  exists os ns,
    slice_get old (old_start op) (old_end op) = Some os /\
    slice_get new (new_start op) (new_end op) = Some ns /\
    match op_tag op with
    | DEqual => os = ns
    | DDelete => os <> [] /\ ns = []
    | DInsert => os = [] /\ ns <> []
    | DReplace => os <> [] /\ ns <> []
    end.

(** Operations without a gap from [(i, j)] to [(i', j')]. *)
Fixpoint chained (i j : Z) (ops : list DiffOp) (i' j' : Z) : Prop :=
  match ops with
  | [] => i = i' /\ j = j'
  | op :: ops => old_start op = i /\ new_start op = j /\ chained (old_end op) (new_end op) ops i' j'
  end.

Definition edit_ops {A} (old new : list A) (ops : list DiffOp) : Prop :=
  Forall (op_valid old new) ops /\ chained 0 0 ops (zlen old) (zlen new).

(** Groups with a change each, between them the same lines of both sides. *)
Inductive clusters (old new : list str) : bool -> Z -> Z -> list (list DiffOp) -> Prop :=
| clusters_nil first i j rest :
    slice_get old i (zlen old) = Some rest -> slice_get new j (zlen new) = Some rest ->
    clusters old new first i j []
| clusters_cons (first : bool) i j gap i1 j1 group i2 j2 groups :
    slice_get old i i1 = Some gap -> slice_get new j j1 = Some gap ->
    (first = true \/ gap <> []) ->
    chained i1 j1 group i2 j2 -> Forall (op_valid old new) group ->
    Exists (fun op => op_tag op <> DEqual) group ->
    clusters old new false i2 j2 groups ->
    clusters old new first i j (group :: groups).

Class SimilarLaws `{Similar} := {
  line_ops_edit old new : edit_ops old new (line_ops old new);
  char_ops_edit old new : edit_ops old new (char_ops old new);
  grouped_ops_clusters old new n : 1 <= n -> clusters old new true 0 0 (grouped_ops old new n);
  iter_changes_valid old new op os ns :
    op_valid old new op ->
    slice_get old (old_start op) (old_end op) = Some os ->
    slice_get new (new_start op) (new_end op) = Some ns ->
    iter_changes old new op =
      if bool_decide (op_tag op = DEqual) then pair CEqual <$> os
      else (pair CDelete <$> os) ++ (pair CInsert <$> ns);
}.

(** * The patch *)

Definition append (output value : str) : result TextDiffError str :=
  if MAX_PATCH_BYTES <? saturating_add (slen output) (slen value) then Err ResourceLimit
  else Ok (output ++ value).

Definition coordinates (start len : Z) : str :=
  let start := if len =? 0 then start else start + 1 in
  if len =? 1 then show_Z start else show_Z start ++ u "," ++ show_Z len.

Definition change_prefix (tag : ChangeTag) : str :=
  match tag with CEqual => u " " | CDelete => u "-" | CInsert => u "+" end.

Fixpoint append_changes (patch : str) (changes : list (ChangeTag * str))
  : result TextDiffError str :=
  match changes with
  | [] => Ok patch
  | (tag, value) :: changes =>
    let? patch := append patch (change_prefix tag) in
    let? patch := append patch value in
    let? patch :=
      if negb (ends_lf value)
      then append patch ([LF] ++ MARKER) else Ok patch in
    append_changes patch changes
  end.

(** [a - b] on [usize] *)
Definition usize_sub {E} (a b : Z) : result (stop E) Z :=
  match checked_sub a b with Some c => Ok c | None => Err Panic end.

Section compare.
Context `{Similar} (before_lines after_lines : list str).

Definition append_group (patch : str) (group : list DiffOp) : result (stop TextDiffError) str :=
  match head group, last group with
  | Some first, Some last =>
    let? old_len := usize_sub (old_end last) (old_start first) in
    let? new_len := usize_sub (new_end last) (new_start first) in
    let? patch := lift_error (append patch
      (u "@@ -" ++ coordinates (old_start first) old_len ++ u " +"
        ++ coordinates (new_start first) new_len ++ u " @@" ++ [LF])) in
    lift_error (append_changes patch (group ≫= iter_changes before_lines after_lines))
  | _, _ => Err (Error Internal)
  end.

Fixpoint append_groups (patch : str) (groups : list (list DiffOp))
  : result (stop TextDiffError) str :=
  match groups with
  | [] => Ok patch
  | group :: groups => let? patch := append_group patch group in append_groups patch groups
  end.

(** * The highlights *)

(** The loop over the changes that reach into the line [offset..e]. *)
Fixpoint line_ranges (offset e : Z) (changes : list (Z * Z)) (ranges : list ScalarRange)
  (count : Z) : result (stop TextDiffError) (list ScalarRange * Z) :=
  match changes with
  | [] => Ok (ranges, count)
  | (change_start, change_end) :: changes =>
    if e <=? change_start then Ok (ranges, count) else
    let? a := usize_sub (Z.max change_start offset) offset in
    let? b := usize_sub (Z.min change_end e) offset in
    if a <? b then
      match last ranges with
      | Some (x, y) =>
        if y =? as_u32 a
        then line_ranges offset e changes (removelast ranges ++ [(x, as_u32 b)]) count
        else if MAX_INLINE_RANGES <? count + 1 then Err (Error ResourceLimit)
        else line_ranges offset e changes (ranges ++ [(as_u32 a, as_u32 b)]) (count + 1)
      | None =>
        if MAX_INLINE_RANGES <? count + 1 then Err (Error ResourceLimit)
        else line_ranges offset e changes (ranges ++ [(as_u32 a, as_u32 b)]) (count + 1)
      end
    else line_ranges offset e changes ranges count
  end.

(** [while range_index < changes.len() && changes[range_index].end <= offset] *)
Fixpoint skip_changes (offset : Z) (changes : list (Z * Z)) : list (Z * Z) :=
  match changes with
  | [] => []
  | (s, t) :: rest => if t <=? offset then skip_changes offset rest else changes
  end.

Fixpoint annotate (output : list SourceLineHighlights) (side : DiffSide) (start line_index : Z)
  (lines : list str) (offset : Z) (changes : list (Z * Z)) (count : Z)
  : result (stop TextDiffError) (list SourceLineHighlights * Z) :=
  match lines with
  | [] => Ok (output, count)
  | line :: lines =>
    let e := offset + zlen line in
    let changes := skip_changes offset changes in
    let? (ranges, count) := line_ranges offset e changes [] count in
    annotate
      (output ++ [{| hl_side := side; hl_line_index := as_u32 (start + line_index);
                     hl_ranges := ranges |}])
      side start (line_index + 1) lines e changes count
  end.

(** The ranges of the character operations that are not [Equal]. *)
Definition changed_ranges (start e : DiffOp -> Z) (ops : list DiffOp) : list (Z * Z) :=
  (fun op => (start op, e op)) <$>
    List.filter (fun op => negb (bool_decide (op_tag op = DEqual)) && negb (e op <=? start op)) ops.

(** [while index < ops.len() && ops[index].tag() != DiffTag::Equal] *)
Fixpoint take_block (old_end_ new_end_ : Z) (ops : list DiffOp) : Z * Z * list DiffOp :=
  match ops with
  | [] => (old_end_, new_end_, [])
  | op :: rest =>
    if bool_decide (op_tag op = DEqual) then (old_end_, new_end_, ops)
    else take_block (old_end op) (new_end op) rest
  end.

Definition annotate_block (output : list SourceLineHighlights) (count old_start_ old_end_ new_start_ new_end_ : Z)
  : result (stop TextDiffError) (list SourceLineHighlights * Z) :=
  match slice_get before_lines old_start_ old_end_, slice_get after_lines new_start_ new_end_ with
  | Some old_lines, Some new_lines =>
    let chars := char_ops (concat old_lines) (concat new_lines) in
    let? (output, count) :=
      annotate output SideBefore old_start_ 0 old_lines 0 (changed_ranges old_start old_end chars)
        count in
    annotate output SideAfter new_start_ 0 new_lines 0 (changed_ranges new_start new_end chars)
      count
  | _, _ => Err Panic
  end.

(** Each iteration takes at least one operation off [ops]. *)
Fixpoint annotate_blocks (fuel : nat) (ops : list DiffOp) (output : list SourceLineHighlights)
  (count : Z) : result (stop TextDiffError) (list SourceLineHighlights) :=
  match ops with
  | [] => Ok output
  | op :: rest =>
    match fuel with
    | O => Err OutOfFuel
    | S fuel =>
      if bool_decide (op_tag op = DEqual) then annotate_blocks fuel rest output count
      else
        let '(old_end_, new_end_, rest) := take_block (old_start op) (new_start op) ops in
        let? (output, count) :=
          annotate_block output count (old_start op) old_end_ (new_start op) new_end_ in
        annotate_blocks fuel rest output count
    end
  end.
End compare.

Definition compare `{Similar} (before after : str) : result (stop TextDiffError) ComputedDiff :=
  let? _ := lift_error (text_info before (u "Before")) in
  let? _ := lift_error (text_info after (u "After")) in
  let before_lines := split_inclusive before in
  let after_lines := split_inclusive after in
  let groups := grouped_ops before_lines after_lines 3 in
  match groups with
  | [] => Ok {| cd_patch := []; cd_inline_changes := [] |}
  | _ =>
    let? patch := lift_error (append [] (u "--- before" ++ [LF] ++ u "+++ after" ++ [LF])) in
    let? patch := append_groups before_lines after_lines patch groups in
    let ops := line_ops before_lines after_lines in
    let? inline_changes := annotate_blocks before_lines after_lines (length ops) ops [] 0 in
    Ok {| cd_patch := patch; cd_inline_changes := inline_changes |}
  end.
