(* ===== verification/ComputePatch.v ===== *)
(** The patch that the comparison engine prints: the parser of
    [crates/normalization/src/patch.rs] reads it back hunk by hunk, and applied
    to the old text it gives the new one. *)

From S2P Require Import Prelude Utf8 Strings TextDiff Paging DiffService DiffFacts Compute Patch PatchFacts.

(** * Printing hunks *)

Definition row_lines (r : PatchRow) : list str :=
  if ends_lf (pr_text r) then [pr_prefix r :: pr_text r]
  else [pr_prefix r :: pr_text r ++ [LF]; MARKER].

Definition header_line (old_start old_len new_start new_len : Z) : str :=
  u "@@ -" ++ coordinates old_start old_len ++ u " +" ++ coordinates new_start new_len
    ++ u " @@" ++ [LF].

Definition hunk_lines (new_start : Z) (h : PatchHunk) : list str :=
  header_line (ph_old_start h) (zlen (old_side (hunk_edits h)))
    new_start (zlen (new_side (hunk_edits h)))
  :: (ph_rows h ≫= row_lines).

(** No row is put out after an unterminated one. *)
Fixpoint output_ordered (unterminated : bool) (rs : list PatchRow) : Prop :=
  match rs with
  | [] => True
  | r :: rs =>
    if pr_prefix r =? MINUS then output_ordered unterminated rs
    else unterminated = false /\ output_ordered (negb (ends_lf (pr_text r))) rs
  end.

Fixpoint output_end (unterminated : bool) (rs : list PatchRow) : bool :=
  match rs with
  | [] => unterminated
  | r :: rs => output_end (if pr_prefix r =? MINUS then unterminated else negb (ends_lf (pr_text r))) rs
  end.

(** * Rows *)

Definition with_row (r : PatchRow) (st : row_state) : row_state :=
  {| consumed := consumed st + (if pr_prefix r =? PLUS then 0 else 1);
     produced := produced st + (if pr_prefix r =? MINUS then 0 else 1);
     changed := changed st || negb (pr_prefix r =? SPACE);
     rows := rows st ++ [r];
     unterminated_output :=
       if pr_prefix r =? MINUS then unterminated_output st else negb (ends_lf (pr_text r));
     total_rows := total_rows st + 1 |}.

Lemma signs : SPACE = 32 /\ MINUS = 45 /\ PLUS = 43.
Proof. by vm_compute. Qed.

Lemma ends_lf_cons c s : s <> [] -> ends_lf (c :: s) = ends_lf s.
Proof. intros. by apply (ends_lf_app [c]). Qed.

Lemma row_step_print oc nc r st :
  row_wf r ->
  (pr_prefix r <> PLUS -> consumed st < oc) ->
  (pr_prefix r <> MINUS -> produced st < nc /\ unterminated_output st = false) ->
  row_step oc nc (pr_prefix r :: if ends_lf (pr_text r) then pr_text r else pr_text r ++ [LF])
    (negb (ends_lf (pr_text r))) st = Ok (with_row r st).
Proof.
  intros Hwf Ho Hn. destruct (row_wf_cases r Hwf) as [Hp Hc]. destruct r as [p text]. simpl in *.
  assert (Hne : text <> []) by (by apply proper_lines_inv in Hp as (? & _)).
  assert (He : ends_lf (p :: if ends_lf text then text else text ++ [LF]) = true).
  { destruct (ends_lf text) eqn:E.
    - rewrite ends_lf_cons by done. done.
    - apply ends_lf_iff. by exists (p :: text). }
  unfold row_step. rewrite He.
  assert (Ht : (if negb (ends_lf text) then
     let? t := ok_or (strip_suffix [LF] (if ends_lf text then text else text ++ [LF])) InvalidInput in
     if str_eqb t [] then Err InvalidInput else Ok t
     else Ok (if ends_lf text then text else text ++ [LF])) = Ok text).
  { destruct (ends_lf text) eqn:E; [done|]. cbn [negb].
    assert (strip_suffix [LF] (text ++ [LF]) = Some text) as -> by (by apply strip_suffix_Some).
    cbn [ok_or]. destruct (str_eqb text []) eqn:E2; [by apply str_eqb_eq in E2|done]. }
  destruct signs as (S1 & S2 & S3). unfold with_row. cbn [pr_prefix pr_text].
  destruct Hc as [[-> _]|[[-> _]|[-> _]]]; rewrite ?S1, ?S2, ?S3 in *; cbn [Z.eqb Pos.eqb negb orb];
    rewrite Ht; cbn [negb andb].
  - destruct Hn as [Hn ->]; [done|]. rewrite (proj2 (Z.leb_gt _ _)) by auto.
    rewrite (proj2 (Z.leb_gt _ _)) by auto. cbn [orb]. done.
  - rewrite (proj2 (Z.leb_gt _ _)) by auto. by rewrite Z.add_0_r.
  - destruct Hn as [Hn ->]; [done|]. rewrite (proj2 (Z.leb_gt _ _)) by auto. cbn [orb].
    by rewrite Z.add_0_r.
Qed.

Lemma row_head_not_marker p s t : p = SPACE \/ p = MINUS \/ p = PLUS -> str_eqb (p :: s) (ch "\" :: t) = false.
Proof.
  intros Hp. apply not_true_iff_false. rewrite str_eqb_eq. intros [= Heq _].
  by destruct Hp as [-> | [-> | ->]].
Qed.

Lemma marker_head : exists t, MARKER = ch "\" :: t.
Proof. eexists. vm_compute. reflexivity. Qed.

Definition with_rows (rs : list PatchRow) (st : row_state) : row_state := fold_left (fun st r => with_row r st) rs st.

Lemma edits_count (rs : list PatchRow) (r : PatchRow) :
  row_wf r ->
  zlen (old_side (row_edit <$> r :: rs)) = (if pr_prefix r =? PLUS then 0 else 1) + zlen (old_side (row_edit <$> rs)) /\
  zlen (new_side (row_edit <$> r :: rs)) = (if pr_prefix r =? MINUS then 0 else 1) + zlen (new_side (row_edit <$> rs)).
Proof.
  intros Hwf. rewrite fmap_cons.
  change (row_edit r :: ?l) with ([row_edit r] ++ l). rewrite old_side_app, new_side_app, !zlen_app.
  unfold old_side, new_side. cbn [mbind list_bind]. rewrite !app_nil_r.
  destruct signs as (S1 & S2 & S3).
  destruct (row_wf_cases r Hwf) as [_ [[-> ->]|[[-> ->]|[-> ->]]]]; rewrite ?S1, ?S2, ?S3; by split.
Qed.

Lemma rows_loop_done oc nc lines st :
  oc <= consumed st -> nc <= produced st -> rows_loop oc nc lines st = Ok (st, lines).
Proof.
  intros Ho Hn. destruct lines; cbn [rows_loop];
    by rewrite (proj2 (Z.ltb_ge _ _)), (proj2 (Z.ltb_ge _ _)) by done.
Qed.

(** One iteration, whatever follows the row. *)
Lemma rows_loop_row oc nc r rest st :
  row_wf r -> consumed st < oc \/ produced st < nc -> total_rows st < MAX_PATCH_ROWS ->
  (pr_prefix r <> PLUS -> consumed st < oc) ->
  (pr_prefix r <> MINUS -> produced st < nc /\ unterminated_output st = false) ->
  head rest <> Some MARKER ->
  rows_loop oc nc (row_lines r ++ rest) st = rows_loop oc nc rest (with_row r st).
Proof.
  intros Hwf Hgo Ht Ho Hn Hr. pose proof (row_step_print oc nc r st Hwf Ho Hn) as Hstep.
  unfold row_lines. destruct (ends_lf (pr_text r)); cbn [negb] in Hstep; cbn [app rows_loop];
    (replace ((consumed st <? oc) || (produced st <? nc)) with true
       by (symmetry; apply orb_true_iff; rewrite !Z.ltb_lt; done));
    rewrite (proj2 (Z.leb_gt _ _)) by done.
  - destruct rest as [|next rest]; [by rewrite Hstep|].
    destruct (str_eqb next MARKER) eqn:E; [|by rewrite Hstep].
    apply str_eqb_eq in E as ->. done.
  - rewrite (proj2 (str_eqb_eq MARKER MARKER)) by done. by rewrite Hstep.
Qed.

Lemma rows_head_not_marker rs rest :
  Forall row_wf rs -> head rest <> Some MARKER -> head ((rs ≫= row_lines) ++ rest) <> Some MARKER.
Proof.
  intros Hrs Hr. destruct Hrs as [|r rs [Hp _] _]; [done|]. cbn [mbind list_bind].
  destruct marker_head as [t Ht]. rewrite Ht.
  unfold row_lines. destruct (ends_lf _); cbn; intros [= Heq _];
    by destruct Hp as [Hp | [Hp | Hp]]; rewrite Hp in Heq.
Qed.

Lemma rows_loop_print oc nc rs rest st :
  Forall row_wf rs ->
  oc = consumed st + zlen (old_side (row_edit <$> rs)) ->
  nc = produced st + zlen (new_side (row_edit <$> rs)) ->
  total_rows st + zlen rs <= MAX_PATCH_ROWS ->
  output_ordered (unterminated_output st) rs ->
  head rest <> Some MARKER ->
  rows_loop oc nc ((rs ≫= row_lines) ++ rest) st = Ok (with_rows rs st, rest).
Proof.
  intros Hrs. revert st. induction Hrs as [|r rs Hr Hrs IH]; intros st Ho Hn Ht Hord Hm.
  - unfold old_side in Ho. unfold new_side in Hn. simpl in Ho, Hn. rewrite zlen_nil in Ho, Hn.
    change (with_rows [] st) with st. apply rows_loop_done; lia.
  - destruct (edits_count rs r Hr) as [Hc1 Hc2]. rewrite Hc1 in Ho. rewrite Hc2 in Hn.
    pose proof (zlen_nonneg (old_side (row_edit <$> rs))).
    pose proof (zlen_nonneg (new_side (row_edit <$> rs))).
    rewrite zlen_cons in Ht. pose proof (zlen_nonneg rs). destruct signs as (S1 & S2 & S3).
    cbn [output_ordered] in Hord.
    cbn [mbind list_bind]. rewrite <- app_assoc.
    change (with_rows (r :: rs) st) with (with_rows rs (with_row r st)).
    rewrite rows_loop_row; [|done| |lia|..|by apply rows_head_not_marker].
    + apply IH; cbn [with_row consumed produced total_rows unterminated_output]; try done; try lia.
      by destruct (pr_prefix r =? MINUS); [|destruct Hord].
    + destruct (Z.eqb_spec (pr_prefix r) PLUS), (Z.eqb_spec (pr_prefix r) MINUS); lia.
    + intros Hp. rewrite (proj2 (Z.eqb_neq _ _) Hp) in Ho. lia.
    + intros Hp. rewrite (proj2 (Z.eqb_neq _ _) Hp) in Hn, Hord. split; [lia|apply Hord].
Qed.

Lemma with_rows_fields rs st :
  rows (with_rows rs st) = rows st ++ rs /\
  changed (with_rows rs st) = changed st || existsb (fun r => negb (pr_prefix r =? SPACE)) rs /\
  total_rows (with_rows rs st) = total_rows st + zlen rs /\
  unterminated_output (with_rows rs st) = output_end (unterminated_output st) rs.
Proof.
  revert st. induction rs as [|r rs IH]; intros st.
  - cbn. rewrite app_nil_r, orb_false_r, zlen_nil. split_and!; [done|done|lia|done].
  - change (with_rows (r :: rs) st) with (with_rows rs (with_row r st)).
    destruct (IH (with_row r st)) as (-> & -> & -> & ->). cbn.
    rewrite <- app_assoc, orb_assoc, zlen_cons. split_and!; [done|done|lia|].
    by destruct (pr_prefix r =? MINUS).
Qed.

(** * Headers *)

(** The first two characters of the separator are not found together before it. *)
Lemma split_once_sep c d p a b : d ∉ a -> c <> d -> split_once (c :: d :: p) (a ++ c :: d :: p ++ b) = Some (a, b).
Proof.
  intros Hd Hcd. induction a as [|x a IH].
  - cbn [app split_once]. change (c :: d :: p ++ b) with ((c :: d :: p) ++ b).
    rewrite strip_prefix_app. done.
  - apply not_elem_of_cons in Hd as [Hx Hd]. specialize (IH Hd). cbn [app split_once].
    destruct (strip_prefix (c :: d :: p) (x :: a ++ c :: d :: p ++ b)) as [t|] eqn:E; [|by rewrite IH].
    apply strip_prefix_Some in E. cbn in E. injection E as -> E.
    destruct a as [|y a]; cbn in E; injection E as E1 E2; [done|].
    exfalso. apply Hd. rewrite E1. apply elem_of_cons. by left.
Qed.

(** A number and its decimal digits *)
Lemma show_Z_no n d : 0 <= n <= usize_max -> ~ 48 <= d <= 57 -> d ∉ show_Z n.
Proof. intros Hn Hd Hin. by apply Hd, (show_Z_digit n). Qed.

Lemma show_Z_bytes n : 0 <= n <= usize_max ->
  str_eqb (show_Z n) [] = false /\ forallb is_ascii_digit (bytes (show_Z n)) = true
  /\ parse_usize (show_Z n) = Some n.
Proof.
  intros Hn. destruct (show_Z_spec n Hn) as (Hne & Hd & _). split_and!.
  - apply not_true_iff_false. by rewrite str_eqb_eq.
  - rewrite bytes_ascii; [done|]. apply Forall_forall. intros c Hc%show_Z_digit; lia.
  - by apply parse_show_Z.
Qed.

Lemma coordinates_chars start len d :
  0 <= start <= MAX_LINES -> 0 <= len <= MAX_LINES -> ~ 48 <= d <= 57 -> d <> ch "," ->
  d ∉ coordinates start len.
Proof.
  intros Hs Hl Hd Hc. assert (MAX_LINES + 1 <= usize_max) by done.
  unfold coordinates. case_match; case_match; rewrite ?elem_of_app;
    repeat match goal with |- context [show_Z ?n] =>
      lazymatch goal with H : d ∉ show_Z n |- _ => fail | _ =>
        assert (d ∉ show_Z n) by (apply show_Z_no; [lia|done]) end end; try done.
  all: change (u ",") with [ch ","]; rewrite list_elem_of_singleton; tauto.
Qed.

(** A coordinate that the engine prints is read back as the position. *)
Lemma coordinate_print p start len :
  0 <= start -> 0 <= len -> start + len <= MAX_LINES ->
  coordinate (p :: coordinates start len) p = Ok (start, len).
Proof.
  intros Hs Hl Hm. unfold coordinate. change (p :: ?s) with ([p] ++ s).
  rewrite strip_prefix_app. cbn [ok_or]. unfold coordinates.
  assert (Hmax : MAX_LINES + 1 <= usize_max) by done.
  set (start' := if len =? 0 then start else start + 1).
  assert (Hs' : 0 <= start' <= MAX_LINES) by (unfold start'; case_match; bool_hyps; lia).
  destruct (show_Z_bytes start') as (S1 & S2 & S3); [lia|].
  destruct (show_Z_bytes len) as (L1 & L2 & L3); [lia|].
  assert (Hres : forall count, count = len ->
    (if (MAX_LINES <? count) || (MAX_LINES <? start') || negb (count =? 0) && (start' =? 0)
     then Err InvalidInput else Ok (if count =? 0 then start' else start' - 1, count))
    = @Ok TextDiffError _ (start, len)).
  { intros count ->. rewrite (proj2 (Z.ltb_ge _ _)), (proj2 (Z.ltb_ge _ _)) by lia. cbn [orb].
    unfold start'. destruct (len =? 0) eqn:El; cbn [negb andb]; [done|].
    rewrite (proj2 (Z.eqb_neq _ _)) by lia. f_equal. f_equal. lia. }
  destruct (len =? 1) eqn:E1.
  - change (u ",") with [ch ","]. rewrite split_once_none by (apply show_Z_no; [lia|by vm_compute; intuition]).
    rewrite S1, S2. cbn [orb negb]. rewrite S3. cbn [ok_or].
    change (parse_usize (u "1")) with (Some 1). cbn [ok_or].
    change (str_eqb (u "1") []) with false. change (forallb is_ascii_digit (bytes (u "1"))) with true.
    cbn [orb negb]. apply Hres. by bool_hyps.
  - change (u ",") with [ch ","]. cbn [app].
    rewrite split_once_char by (apply show_Z_no; [lia|by vm_compute; intuition]).
    rewrite S1, S2, L1, L2. cbn [orb negb]. rewrite S3, L3. cbn [ok_or]. by apply Hres.
Qed.

Lemma coordinates_no_at start len :
  0 <= start <= MAX_LINES -> 0 <= len <= MAX_LINES ->
  (ch "@" ∉ coordinates start len) /\ (ch " " ∉ coordinates start len)
  /\ (LF ∉ coordinates start len).
Proof. intros. split_and!; (apply coordinates_chars; [done|done| |by vm_compute]); by vm_compute; intuition. Qed.

Lemma parse_header_print os ol ns nl :
  0 <= os -> 0 <= ol -> os + ol <= MAX_LINES -> 0 <= ns -> 0 <= nl -> ns + nl <= MAX_LINES ->
  parse_header (header_line os ol ns nl) = Ok ((os, ol), (ns, nl)).
Proof.
  intros. destruct (coordinates_no_at os ol) as (A1 & B1 & _); [lia|lia|].
  destruct (coordinates_no_at ns nl) as (A2 & B2 & _); [lia|lia|].
  unfold parse_header, header_line.
  assert (He : ends_lf (u "@@ -" ++ coordinates os ol ++ u " +" ++ coordinates ns nl ++ u " @@" ++ [LF]) = true).
  { apply ends_lf_iff. exists (u "@@ -" ++ coordinates os ol ++ u " +" ++ coordinates ns nl ++ u " @@").
    by rewrite <- !app_assoc. }
  rewrite He. cbn [negb].
  change (u "@@ -") with (u "@@ " ++ [MINUS]). rewrite <- app_assoc, strip_prefix_app. cbn [ok_or].
  change (u " @@") with (ch " " :: ch "@" :: u "@"). change (u " +") with [ch " "; PLUS].
  replace ([MINUS] ++ coordinates os ol ++ [ch " "; PLUS] ++ coordinates ns nl
      ++ (ch " " :: ch "@" :: u "@") ++ [LF])
    with (((MINUS :: coordinates os ol) ++ ch " " :: PLUS :: coordinates ns nl)
      ++ ch " " :: ch "@" :: u "@" ++ [LF]) by (cbn; by rewrite <- !app_assoc).
  rewrite split_once_sep; [| |done].
  2: { rewrite elem_of_app, !elem_of_cons. intros [[Hc|Hc]|[Hc|[Hc|Hc]]]; try done; by vm_compute in Hc. }
  cbn [ok_or]. rewrite (proj2 (str_eqb_eq [LF] [LF])) by done. cbn [negb andb].
  change (u " ") with [ch " "].
  rewrite split_once_char by (rewrite elem_of_cons; intros [Hc|Hc]; [by vm_compute in Hc|done]).
  cbn [ok_or]. by rewrite !coordinate_print.
Qed.

(** * Hunks *)

Definition after_hunk (new_start : Z) (h : PatchHunk) (st : hunk_state) : hunk_state :=
  {| hunks := hunks st ++ [h];
     old_cursor := ph_old_start h + zlen (old_side (hunk_edits h));
     new_cursor := new_start + zlen (new_side (hunk_edits h));
     hs_unterminated := output_end (hs_unterminated st) (ph_rows h);
     hs_total_rows := hs_total_rows st + zlen (ph_rows h) |}.

(** A hunk that the parser's state admits. *)
Record hunk_fits (new_start : Z) (h : PatchHunk) (st : hunk_state) : Prop := {
  hf_rows : hunk_wf h;
  hf_changed : existsb (fun r => negb (pr_prefix r =? SPACE)) (ph_rows h) = true;
  hf_ordered : output_ordered (hs_unterminated st) (ph_rows h);
  hf_count : zlen (hunks st) < MAX_LINES;
  hf_cursors : 0 <= old_cursor st <= ph_old_start h /\ 0 <= new_cursor st;
  hf_new_start : new_start = new_cursor st + (ph_old_start h - old_cursor st);
  hf_gap : old_cursor st = ph_old_start h \/ hs_unterminated st = false;
  hf_old : ph_old_start h + zlen (old_side (hunk_edits h)) <= MAX_LINES;
  hf_new : new_start + zlen (new_side (hunk_edits h)) <= MAX_LINES;
  hf_total : hs_total_rows st + zlen (ph_rows h) <= MAX_PATCH_ROWS;
}.

Lemma hunk_step_print new_start h st rest :
  hunk_fits new_start h st -> head rest <> Some MARKER ->
  exists header rows, hunk_lines new_start h = header :: rows /\
    hunk_step header (rows ++ rest) st = Ok (after_hunk new_start h st, rest).
Proof.
  intros [Hwf Hch Hord Hcnt [Hcur Hcur'] Hns Hgap Hold Hnew Htot] Hrest.
  eexists _, _. split; [reflexivity|]. unfold hunk_step.
  pose proof (zlen_nonneg (old_side (hunk_edits h))). pose proof (zlen_nonneg (new_side (hunk_edits h))).
  rewrite (proj2 (Z.leb_gt _ _)) by done. rewrite parse_header_print by lia.
  rewrite (proj2 (Z.ltb_ge _ _)) by lia.
  assert (checked_add (new_cursor st) (ph_old_start h - old_cursor st) = Some new_start) as ->.
  { unfold checked_add. assert (MAX_LINES <= usize_max) by done.
    rewrite (proj2 (Z.leb_le _ _)) by lia. by rewrite Hns. }
  rewrite bool_decide_eq_true_2 by done. cbn [negb orb].
  replace ((0 <? ph_old_start h - old_cursor st) && hs_unterminated st) with false.
  2: { destruct Hgap as [-> | ->]; [by rewrite Z.sub_diag|by rewrite andb_false_r]. }
  set (st0 := {| consumed := 0; produced := 0; changed := false; rows := [];
                 unterminated_output := hs_unterminated st; total_rows := hs_total_rows st |}).
  rewrite (rows_loop_print _ _ (ph_rows h) rest st0) by done.
  destruct (with_rows_fields (ph_rows h) st0) as (F1 & F2 & F3 & F4).
  rewrite F1, F2, F3, F4, Hch. cbn [st0 rows changed total_rows unterminated_output app orb negb].
  unfold after_hunk. by destruct h.
Qed.

(** The state after a list of hunks, each with its position in the new text. *)
Definition after_hunks (hs : list (Z * PatchHunk)) (st : hunk_state) : hunk_state :=
  fold_left (fun st p => after_hunk p.1 p.2 st) hs st.

Fixpoint hunks_fit (hs : list (Z * PatchHunk)) (st : hunk_state) : Prop :=
  match hs with
  | [] => True
  | (ns, h) :: hs => hunk_fits ns h st /\ hunks_fit hs (after_hunk ns h st)
  end.

Definition print_hunks (hs : list (Z * PatchHunk)) : list str := hs ≫= (fun p => hunk_lines p.1 p.2).

Lemma header_line_head os ol ns nl : exists t, header_line os ol ns nl = ch "@" :: t.
Proof. unfold header_line. change (u "@@ -") with (ch "@" :: u "@ -"). by eexists. Qed.

Lemma print_hunks_head hs : head (print_hunks hs) <> Some MARKER.
Proof.
  destruct hs as [|[ns h] hs]; [discriminate|]. unfold print_hunks. cbn [mbind list_bind fst snd hunk_lines app head].
  destruct (header_line_head (ph_old_start h) (zlen (old_side (hunk_edits h))) ns
    (zlen (new_side (hunk_edits h)))) as [t ->].
  destruct marker_head as [t' ->]. discriminate.
Qed.

Lemma hunks_loop_print hs st fuel :
  hunks_fit hs st -> (length hs < fuel)%nat ->
  hunks_loop fuel (print_hunks hs) st = Ok (after_hunks hs st).
Proof.
  revert st fuel. induction hs as [|[ns h] hs IH]; intros st [|fuel] Hfit Hf; try (simpl in Hf; lia).
  - done.
  - destruct Hfit as [Hh Hhs].
    destruct (hunk_step_print ns h st (print_hunks hs) Hh (print_hunks_head hs)) as (hd & rs & Hl & Hstep).
    unfold print_hunks at 1. cbn [mbind list_bind]. cbn [fst snd]. rewrite Hl. cbn [app hunks_loop].
    fold (print_hunks hs). change (hs ≫= ?f) with (print_hunks hs). rewrite Hstep.
    apply IH; [done|simpl in Hf; lia].
Qed.

(** * The whole patch *)

Definition BEFORE_LINE : str := u "--- before" ++ [LF].
Definition AFTER_LINE : str := u "+++ after" ++ [LF].

Definition print_patch (hs : list (Z * PatchHunk)) : str :=
  concat (BEFORE_LINE :: AFTER_LINE :: print_hunks hs).

Definition full_line (l : str) : Prop := exists t, l = t ++ [LF] /\ LF ∉ t.

Lemma full_lines_proper ls : Forall full_line ls -> proper_lines ls.
Proof. induction 1 as [|l ls (t & -> & Ht) _ IH]; [constructor|by apply proper_cons]. Qed.

Lemma full_line_dec l : ends_lf l = true -> forallb (fun c => negb (c =? LF)) (removelast l) = true -> full_line l.
Proof.
  intros [t ->]%ends_lf_iff Hf. exists t. split; [done|]. rewrite removelast_last in Hf.
  intros Hin. rewrite forallb_Forall, Forall_forall in Hf. by specialize (Hf _ Hin).
Qed.

Lemma row_lines_full r : row_wf r -> Forall full_line (row_lines r).
Proof.
  intros [Hp Ht]. unfold row_lines. destruct signs as (S1 & S2 & S3).
  assert (Hpn : pr_prefix r <> LF) by (unfold LF; destruct Hp as [Hp | [Hp | Hp]]; rewrite Hp; lia).
  assert (Hcons : forall t, LF ∉ t -> full_line (pr_prefix r :: t ++ [LF])).
  { intros t Hn. exists (pr_prefix r :: t). split; [done|]. apply not_elem_of_cons. by split. }
  inversion Ht as [|l Hne Hn|t ls Hn]; subst.
  - assert (ends_lf (pr_text r) = false) as ->.
    { apply not_true_iff_false. intros [t Hl]%ends_lf_iff. apply Hn. rewrite Hl.
      apply elem_of_app. right. by apply list_elem_of_singleton. }
    constructor; [by apply Hcons|]. constructor; [|constructor].
    by apply full_line_dec; vm_compute.
  - assert (ends_lf (t ++ [LF]) = true) as -> by (apply ends_lf_iff; eauto).
    constructor; [|constructor]. by apply Hcons.
Qed.

Lemma header_line_full os ol ns nl :
  0 <= os <= MAX_LINES -> 0 <= ol <= MAX_LINES -> 0 <= ns <= MAX_LINES -> 0 <= nl <= MAX_LINES ->
  full_line (header_line os ol ns nl).
Proof.
  intros. destruct (coordinates_no_at os ol) as (_ & _ & A); [done|done|].
  destruct (coordinates_no_at ns nl) as (_ & _ & B); [done|done|]. unfold header_line.
  exists (u "@@ -" ++ coordinates os ol ++ u " +" ++ coordinates ns nl ++ u " @@").
  split; [by rewrite <- !app_assoc|]. change (u "@@ -") with [64; 64; 32; 45].
  change (u " +") with [32; 43]. change (u " @@") with [32; 64; 64]. unfold LF in *.
  rewrite !elem_of_app, !elem_of_cons, !elem_of_nil. intuition lia.
Qed.

Lemma coordinates_ascii start len d :
  0 <= start <= MAX_LINES -> 0 <= len <= MAX_LINES -> d ∈ coordinates start len -> 1 <= d < 128.
Proof.
  intros Hs Hl Hd. destruct (decide (48 <= d <= 57)); [lia|].
  destruct (decide (d = ch ",")) as [->|]; [by vm_compute|]. by apply coordinates_chars in Hd.
Qed.

Lemma header_line_chars os ol ns nl d :
  0 <= os <= MAX_LINES -> 0 <= ol <= MAX_LINES -> 0 <= ns <= MAX_LINES -> 0 <= nl <= MAX_LINES ->
  d ∈ header_line os ol ns nl -> 1 <= d < 128.
Proof.
  intros ? ? ? ?. unfold header_line. change (u "@@ -") with [64; 64; 32; 45].
  change (u " +") with [32; 43]. change (u " @@") with [32; 64; 64]. unfold LF.
  rewrite !elem_of_app, !elem_of_cons, !elem_of_nil. intros Hd.
  pose proof (coordinates_ascii os ol d). pose proof (coordinates_ascii ns nl d).
  intuition lia.
Qed.

Lemma hunk_fits_header ns h st : hunk_fits ns h st ->
  let hl := header_line (ph_old_start h) (zlen (old_side (hunk_edits h))) ns (zlen (new_side (hunk_edits h))) in
  full_line hl /\ (forall d, d ∈ hl -> 1 <= d < 128).
Proof.
  intros [? ? ? ? [? ?] ? ? ? ? ?]. pose proof (zlen_nonneg (old_side (hunk_edits h))).
  pose proof (zlen_nonneg (new_side (hunk_edits h))).
  split; [apply header_line_full; lia|intros d; apply header_line_chars; lia].
Qed.

Lemma print_hunks_full hs st : hunks_fit hs st -> Forall full_line (print_hunks hs).
Proof.
  revert st. induction hs as [|[ns h] hs IH]; intros st; [constructor|]. intros [Hh Hhs].
  unfold print_hunks. cbn [mbind list_bind fst snd hunk_lines]. apply Forall_app. split; [|by eapply IH].
  constructor; [by apply (hunk_fits_header ns h st)|].
  apply Forall_bind. eapply Forall_impl; [apply (hf_rows _ _ _ Hh)|apply row_lines_full].
Qed.

Lemma after_hunks_hunks hs st : hunks (after_hunks hs st) = hunks st ++ hs.*2.
Proof.
  revert st. induction hs as [|[ns h] hs IH]; intros st; [by rewrite app_nil_r|].
  change (after_hunks ((ns, h) :: hs) st) with (after_hunks hs (after_hunk ns h st)).
  rewrite IH. cbn. by rewrite <- app_assoc.
Qed.

Lemma skip_preamble_print rest : skip_preamble (BEFORE_LINE :: rest) = Ok (BEFORE_LINE :: rest).
Proof. reflexivity. Qed.
Lemma file_header_before rest : file_header (u "--- ") (BEFORE_LINE :: rest) = Ok rest.
Proof. reflexivity. Qed.
Lemma file_header_after rest : file_header (u "+++ ") (AFTER_LINE :: rest) = Ok rest.
Proof. reflexivity. Qed.

(** The parser reads back the hunks that were printed. *)
Lemma parse_print_patch hs :
  hs <> [] -> hunks_fit hs initial_hunk_state -> parse_patch (print_patch hs) = Ok (hs.*2).
Proof.
  intros Hne Hfit. unfold parse_patch, print_patch.
  rewrite split_inclusive_concat.
  2: { apply full_lines_proper. constructor; [by apply full_line_dec; vm_compute|].
    constructor; [by apply full_line_dec; vm_compute|]. by eapply print_hunks_full. }
  unfold parse_lines. rewrite skip_preamble_print, file_header_before, file_header_after.
  rewrite hunks_loop_print; [|done|].
  - rewrite after_hunks_hunks. cbn [initial_hunk_state hunks app].
    rewrite bool_decide_eq_false_2; [done|]. by destruct hs.
  - assert (Hl : forall l, (length l <= length (print_hunks l))%nat); [|specialize (Hl hs); lia].
    clear. induction l as [|[ns h] l IH]; [simpl; lia|].
    change (print_hunks ((ns, h) :: l)) with (hunk_lines ns h ++ print_hunks l).
    rewrite length_app. cbn [length hunk_lines]. lia.
Qed.

(** A character of the printed hunks is ASCII or comes from a row. *)
Lemma row_lines_chars r d :
  row_wf r -> d ∈ concat (row_lines r) -> 1 <= d < 128 \/ d ∈ pr_text r.
Proof.
  intros [Hp _]. assert (Hpd : d = pr_prefix r -> 1 <= d < 128)
    by (intros ->; destruct Hp as [-> | [-> | ->]]; by vm_compute).
  assert (HM : Forall (fun d => 1 <= d < 128) MARKER) by (by vm_compute; repeat constructor).
  rewrite Forall_forall in HM. unfold row_lines. destruct (ends_lf (pr_text r)); cbn [concat].
  - rewrite app_nil_r, elem_of_cons. tauto.
  - rewrite app_nil_r, elem_of_app, elem_of_cons, elem_of_app, list_elem_of_singleton. unfold LF.
    intros [[?|[?|?]]|Hd]; [tauto|tauto|lia|left; by apply HM].
Qed.

Lemma print_hunks_chars hs st d :
  hunks_fit hs st -> d ∈ concat (print_hunks hs) ->
  1 <= d < 128 \/ exists p r, p ∈ hs /\ r ∈ ph_rows p.2 /\ d ∈ pr_text r.
Proof.
  revert st. induction hs as [|[ns h] hs IH]; intros st Hfit Hd; [by apply not_elem_of_nil in Hd|].
  destruct Hfit as [Hh Hfit]. change (print_hunks ((ns, h) :: hs)) with (hunk_lines ns h ++ print_hunks hs) in Hd.
  rewrite concat_app, elem_of_app in Hd. setoid_rewrite elem_of_cons.
  destruct Hd as [Hd|Hd]; [|destruct (IH _ Hfit Hd) as [|(p & r & ? & ? & ?)]; eauto 8].
  unfold hunk_lines in Hd. cbn [concat] in Hd. apply elem_of_app in Hd as [Hd|Hd].
  { left. by apply (hunk_fits_header _ _ _ Hh). }
  apply list_elem_of_In, in_concat in Hd as (l & Hl & Hd). apply list_elem_of_In in Hl, Hd.
  apply list_elem_of_bind in Hl as (r & Hl & Hr).
  pose proof (hf_rows _ _ _ Hh) as Hrows. unfold hunk_wf in Hrows. rewrite Forall_forall in Hrows.
  destruct (row_lines_chars r d (Hrows r Hr)) as [?|?]; [|by left|right; exists (ns, h), r; auto].
  apply list_elem_of_In, in_concat. exists l. by rewrite <- !list_elem_of_In.
Qed.

(** * A library [similar] for concrete inputs: it keeps the common prefix and
    replaces the rest.  It satisfies [SimilarLaws] on all inputs. *)

Section sample.
Context {A : Type} `{EqDecision A}.

Fixpoint common_prefix (old new : list A) : list A :=
  match old, new with
  | x :: old, y :: new => if decide (x = y) then x :: common_prefix old new else []
  | _, _ => []
  end.

Definition sample_op (tag : DiffTag) (i k j l : Z) : DiffOp :=
  {| op_tag := tag; old_start := i; old_end := k; new_start := j; new_end := l |}.

(** The rest behind a prefix of [p] elements. *)
Definition rest_ops (p : Z) (old new : list A) : list DiffOp :=
  match bool_decide (zlen old = p), bool_decide (zlen new = p) with
  | true, true => []
  | true, false => [sample_op DInsert p p p (zlen new)]
  | false, true => [sample_op DDelete p (zlen old) p p]
  | false, false => [sample_op DReplace p (zlen old) p (zlen new)]
  end.

Definition sample_ops (old new : list A) : list DiffOp :=
  let p := zlen (common_prefix old new) in
  (if p =? 0 then [] else [sample_op DEqual 0 p 0 p]) ++ rest_ops p old new.

Lemma common_prefix_split old new :
  exists os ns, old = common_prefix old new ++ os /\ new = common_prefix old new ++ ns.
Proof.
  revert new. induction old as [|x old IH]; intros [|y new]; cbn; eauto.
  destruct (decide (x = y)) as [<-|]; cbn; [|eauto].
  destruct (IH new) as (os & ns & Ho & Hn). exists os, ns. split; f_equal; done.
Qed.

Lemma slice_get_all (pre l : list A) i k :
  i = zlen pre -> k = zlen (pre ++ l) -> slice_get (pre ++ l) i k = Some l.
Proof.
  intros -> ->. apply slice_get_app. rewrite zlen_app. split; [done|]. exists []. by rewrite app_nil_r.
Qed.

Lemma slice_get_none (pre l : list A) i k :
  i = zlen pre -> k = zlen pre -> slice_get (pre ++ l) i k = Some [].
Proof. intros -> ->. apply slice_get_app. rewrite zlen_nil. split; [lia|]. by exists l. Qed.

Lemma slice_end (l : list A) : slice_get l (zlen l) (zlen l) = Some [].
Proof. rewrite <- (app_nil_r l) at 1. by apply slice_get_none. Qed.

Lemma rest_ops_spec pre os ns :
  let old := pre ++ os in let new := pre ++ ns in
  Forall (op_valid old new) (rest_ops (zlen pre) old new) /\
  chained (zlen pre) (zlen pre) (rest_ops (zlen pre) old new) (zlen old) (zlen new) /\
  Forall (fun op => op_tag op <> DEqual) (rest_ops (zlen pre) old new) /\
  (rest_ops (zlen pre) old new = [] -> os = [] /\ ns = []).
Proof.
  cbn zeta. unfold rest_ops.
  assert (Hz : forall l : list A, zlen (pre ++ l) = zlen pre <-> l = []).
  { intros l. rewrite zlen_app. split; [intros; apply zlen_zero; lia|intros ->; rewrite zlen_nil; lia]. }
  assert (Hs : forall l : list A, slice_get (pre ++ l) (zlen pre) (zlen (pre ++ l)) = Some l)
    by (intros; by apply slice_get_all).
  assert (H0 : forall l : list A, slice_get (pre ++ l) (zlen pre) (zlen pre) = Some [])
    by (intros; by apply slice_get_none).
  destruct (bool_decide_reflect (zlen (pre ++ os) = zlen pre)) as [Ho|Ho];
    destruct (bool_decide_reflect (zlen (pre ++ ns) = zlen pre)) as [Hn|Hn]; rewrite Hz in Ho, Hn;
    split_and!; cbn; try done; try (by rewrite ?Ho, ?Hn, ?app_nil_r); try (by constructor).
  - constructor; [|constructor]. exists [], ns. cbn. by rewrite H0, Hs.
  - constructor; [|constructor]. exists os, []. cbn. by rewrite H0, Hs.
  - constructor; [|constructor]. exists os, ns. cbn. by rewrite !Hs.
Qed.

Lemma sample_ops_edit old new : edit_ops old new (sample_ops old new).
Proof.
  destruct (common_prefix_split old new) as (os & ns & Ho & Hn). unfold sample_ops.
  set (p := common_prefix old new) in *. clearbody p. subst old new.
  destruct (rest_ops_spec p os ns) as (R1 & R2 & _). split.
  - destruct (Z.eqb_spec (zlen p) 0) as [Hp|Hp]; [done|]. constructor; [|done].
    exists p, p. cbn. assert (forall l, slice_get (p ++ l) 0 (zlen p) = Some p) as Hp0; [|by rewrite !Hp0].
    intros l. change 0 with (zlen (@nil A)). change (p ++ l) with ([] ++ (p ++ l)).
    apply slice_get_app. rewrite zlen_nil. split; [lia|by exists l].
  - destruct (Z.eqb_spec (zlen p) 0) as [Hp|Hp]; cbn; [by rewrite Hp in R2 |- *|by split_and!].
Qed.
End sample.

#[export] Instance sample_similar : Similar :=
  {| line_ops old new := sample_ops old new;
     grouped_ops old new _ :=
       match rest_ops (zlen (common_prefix old new)) old new with [] => [] | g => [g] end;
     iter_changes old new op :=
       let os := default [] (slice_get old (old_start op) (old_end op)) in
       let ns := default [] (slice_get new (new_start op) (new_end op)) in
       if bool_decide (op_tag op = DEqual) then pair CEqual <$> os
       else (pair CDelete <$> os) ++ (pair CInsert <$> ns);
     char_ops old new := sample_ops old new |}.

#[export] Instance sample_similar_laws : SimilarLaws.
Proof.
  constructor.
  - intros. apply sample_ops_edit.
  - intros. apply sample_ops_edit.
  - intros old new n _. cbn. destruct (common_prefix_split old new) as (os & ns & Ho & Hn).
    set (p := common_prefix old new) in *. clearbody p. subst old new.
    destruct (rest_ops_spec p os ns) as (R1 & R2 & R3 & R4).
    assert (Hgap : forall l, slice_get (p ++ l) 0 (zlen p) = Some p).
    { intros l. change 0 with (zlen (@nil str)). change (p ++ l) with ([] ++ (p ++ l)).
      apply slice_get_app. rewrite zlen_nil. split; [lia|by exists l]. }
    destruct (rest_ops _ _ _) as [|g gs] eqn:E.
    + destruct R4 as [-> ->]; [done|]. apply (clusters_nil _ _ _ _ _ (p ++ [])); by apply (slice_get_all []).
    + eapply (clusters_cons _ _ true 0 0 p (zlen p) (zlen p) (g :: gs)); [done..|by left|done|done| |].
      * constructor. by apply Forall_cons in R3 as [? _].
      * apply (clusters_nil _ _ _ _ _ []).
        -- apply slice_end.
        -- apply slice_end.
  - intros old new op os ns _ Ho Hn. cbn. by rewrite Ho, Hn.
Qed.
