(* ===== verification/ComputeFacts.v ===== *)
(** From the edit operations to the printed patch: every group of operations is
    a hunk that the parser admits, and the hunks with the lines between them are
    an edit script from the old text to the new one. *)

From S2P Require Import Prelude Utf8 Strings TextDiff Paging DiffService DiffFacts Compute Patch PatchFacts ComputePatch.

(** * Rows of changes *)

Definition change_row (c : ChangeTag * str) : PatchRow :=
  {| pr_prefix := hd SPACE (change_prefix c.1); pr_text := c.2 |}.

Definition change_edit (c : ChangeTag * str) : edit :=
  match c.1 with CEqual => Keep c.2 | CDelete => Del c.2 | CInsert => Ins c.2 end.

Lemma row_edit_change c : row_edit (change_row c) = change_edit c.
Proof. by destruct c as [[] l]. Qed.

Lemma change_row_wf c : proper_lines [c.2] -> row_wf (change_row c).
Proof.
  intros Hp. split; [|done]. destruct c as [[] l];
    [by left; vm_compute|by right; left; vm_compute|by right; right; vm_compute].
Qed.

Lemma change_prefix_head t : change_prefix t = [hd SPACE (change_prefix t)].
Proof. by destruct t. Qed.

(** An operation's changes have its two ranges as their sides. *)
Definition tagged (t : ChangeTag) (ls : list str) : list (ChangeTag * str) := pair t <$> ls.

Lemma tagged_sides t ls :
  old_side (change_edit <$> tagged t ls) = match t with CInsert => [] | _ => ls end /\
  new_side (change_edit <$> tagged t ls) = match t with CDelete => [] | _ => ls end.
Proof.
  unfold tagged. induction ls as [|l ls [IH1 IH2]]; [by destruct t|]. rewrite !fmap_cons.
  unfold old_side, new_side in *. destruct t; cbn in *; by rewrite ?IH1, ?IH2.
Qed.

Lemma tagged_replace_sides os ns :
  old_side (change_edit <$> tagged CDelete os ++ tagged CInsert ns) = os /\
  new_side (change_edit <$> tagged CDelete os ++ tagged CInsert ns) = ns.
Proof.
  rewrite fmap_app, old_side_app, new_side_app.
  destruct (tagged_sides CDelete os) as [-> ->], (tagged_sides CInsert ns) as [-> ->].
  by rewrite app_nil_r.
Qed.

(** * Order of the output rows *)

Definition unterminated (ls : list str) : bool := existsb (fun l => negb (ends_lf l)) ls.

Lemma unterminated_app ls ks : unterminated (ls ++ ks) = unterminated ls || unterminated ks.
Proof. apply existsb_app. Qed.

Lemma unterminated_false ls : Forall (fun l => ends_lf l = true) ls -> unterminated ls = false.
Proof. induction 1 as [|l ls Hl _ IH]; [done|]. cbn. rewrite Hl. exact IH. Qed.

Lemma unterminated_last ls ks : proper_lines (ls ++ ks) -> unterminated ls = true -> ks = [].
Proof.
  intros (_ & _ & Hf)%proper_lines_app Hu. destruct ks; [done|].
  specialize (Hf ltac:(done)). apply unterminated_false in Hf. congruence.
Qed.

Lemma new_side_cons r rs : row_wf r ->
  new_side (row_edit <$> r :: rs)
  = (if pr_prefix r =? MINUS then [] else [pr_text r]) ++ new_side (row_edit <$> rs).
Proof.
  intros Hwf. rewrite fmap_cons. change (row_edit r :: ?l) with ([row_edit r] ++ l).
  rewrite new_side_app. f_equal. destruct signs as (S1 & S2 & S3).
  destruct (row_wf_cases r Hwf) as [_ [[-> ->]|[[-> ->]|[-> ->]]]]; by rewrite ?S1, ?S2, ?S3.
Qed.

Lemma output_ordered_sides pn rs :
  Forall row_wf rs -> proper_lines (pn ++ new_side (row_edit <$> rs)) ->
  output_ordered (unterminated pn) rs /\
  output_end (unterminated pn) rs = unterminated (pn ++ new_side (row_edit <$> rs)).
Proof.
  intros Hrs. revert pn. induction Hrs as [|r rs Hr Hrs IH]; intros pn Hp.
  - unfold new_side. cbn. by rewrite app_nil_r.
  - rewrite new_side_cons in * by done. cbn [output_ordered output_end].
    destruct (pr_prefix r =? MINUS); [by apply IH|].
    assert (Hu : unterminated pn = false).
    { apply not_true_iff_false. intros Hu. by apply (unterminated_last _ _ Hp) in Hu. }
    rewrite app_assoc in *. destruct (IH _ Hp) as [H1 H2]. rewrite unterminated_app, Hu in *.
    cbn in H1, H2. rewrite orb_false_r in *. by rewrite unterminated_app, unterminated_app, Hu in *.
Qed.

(** * Groups *)

Section groups.
Context `{SimilarLaws} (old new : list str).

Definition group_changes (group : list DiffOp) : list (ChangeTag * str) :=
  group ≫= iter_changes old new.

Definition group_hunk (group : list DiffOp) : Z * PatchHunk :=
  (default 0 (new_start <$> head group),
   {| ph_old_start := default 0 (old_start <$> head group);
      ph_rows := change_row <$> group_changes group |}).

Lemma hunk_edits_group group : hunk_edits (group_hunk group).2 = change_edit <$> group_changes group.
Proof.
  unfold hunk_edits. cbn. rewrite <- list_fmap_compose. apply list_fmap_ext.
  intros i c _. apply row_edit_change.
Qed.

(** What an operation at the given position consumes. *)
Lemma op_changes po ro pn rn op :
  old = po ++ ro -> new = pn ++ rn -> old_start op = zlen po -> new_start op = zlen pn ->
  op_valid old new op ->
  exists os ns ro' rn', ro = os ++ ro' /\ rn = ns ++ rn' /\
    old_end op = zlen (po ++ os) /\ new_end op = zlen (pn ++ ns) /\
    old_side (change_edit <$> iter_changes old new op) = os /\
    new_side (change_edit <$> iter_changes old new op) = ns /\
    Forall (fun c => c.2 ∈ os ++ ns) (iter_changes old new op) /\
    zlen (iter_changes old new op) <= zlen os + zlen ns /\
    (op_tag op <> DEqual -> Exists (fun c => c.1 <> CEqual) (iter_changes old new op) /\ 0 < zlen os + zlen ns).
Proof.
  intros Ho Hn Hos Hns Hv. pose proof Hv as (os & ns & Eo & En & Htag).
  rewrite (iter_changes_valid _ _ _ _ _ Hv Eo En). clear Hv.
  rewrite Ho, Hos in Eo. apply slice_get_app in Eo as [Eo [ro' ->]].
  rewrite Hn, Hns in En. apply slice_get_app in En as [En [rn' ->]].
  exists os, ns, ro', rn'. rewrite !zlen_app. fold (tagged CEqual os) (tagged CDelete os) (tagged CInsert ns).
  destruct (bool_decide_reflect (op_tag op = DEqual)) as [Ht|Ht].
  - destruct (tagged_sides CEqual os) as [-> ->]. rewrite Ht in Htag. subst ns. split_and!; try done.
    + unfold tagged. apply Forall_fmap, Forall_forall. intros l Hl. cbn. apply elem_of_app. by left.
    + unfold tagged, zlen. rewrite length_fmap. lia.
  - destruct (tagged_replace_sides os ns) as [-> ->]. split_and!; try done.
    + unfold tagged. apply Forall_app. split; apply Forall_fmap, Forall_forall; intros l Hl; cbn;
        apply elem_of_app; [by left|by right].
    + unfold tagged, zlen. rewrite length_app, !length_fmap. lia.
    + intros _. pose proof (zlen_nonneg os). pose proof (zlen_nonneg ns).
      destruct os as [|o os], ns as [|n ns], (op_tag op);
        try (exfalso; clear -Htag Ht; naive_solver);
        rewrite ?zlen_cons, ?zlen_nil in *; unfold tagged;
        (split; [by apply Exists_cons_hd|try pose proof (zlen_nonneg os); try pose proof (zlen_nonneg ns); lia]).
Qed.

(** What a chain of operations consumes. *)
Lemma group_sides group po ro pn rn i' j' :
  old = po ++ ro -> new = pn ++ rn -> chained (zlen po) (zlen pn) group i' j' ->
  Forall (op_valid old new) group ->
  exists os ns ro' rn', ro = os ++ ro' /\ rn = ns ++ rn' /\ i' = zlen (po ++ os) /\ j' = zlen (pn ++ ns) /\
    old_side (change_edit <$> group_changes group) = os /\
    new_side (change_edit <$> group_changes group) = ns /\
    Forall (fun c => c.2 ∈ os ++ ns) (group_changes group) /\
    zlen (group_changes group) <= zlen os + zlen ns /\
    (Exists (fun op => op_tag op <> DEqual) group ->
      Exists (fun c => c.1 <> CEqual) (group_changes group) /\ 0 < zlen os + zlen ns).
Proof.
  intros Ho Hn Hch Hv. revert po ro pn rn Ho Hn Hch.
  induction Hv as [|op group Hop _ IH]; intros po ro pn rn Ho Hn Hch.
  - destruct Hch as [<- <-]. exists [], [], ro, rn. rewrite !app_nil_r. split_and!; try done.
    by intros ?%Exists_nil.
  - destruct Hch as (Hs1 & Hs2 & Hch).
    destruct (op_changes po ro pn rn op Ho Hn Hs1 Hs2 Hop)
      as (os & ns & ro' & rn' & -> & -> & He1 & He2 & O1 & N1 & I1 & L1 & C1).
    rewrite He1, He2 in Hch. rewrite app_assoc in Ho, Hn.
    destruct (IH _ _ _ _ Ho Hn Hch) as (os' & ns' & ro'' & rn'' & -> & -> & -> & -> & O2 & N2 & I2 & L2 & C2).
    exists (os ++ os'), (ns ++ ns'), ro'', rn''.
    change (group_changes (op :: group)) with (iter_changes old new op ++ group_changes group).
    rewrite fmap_app, old_side_app, new_side_app, O1, N1, O2, N2, !app_assoc, !zlen_app.
    split_and!; try done; try lia.
    + apply Forall_app. split; (eapply Forall_impl; [eassumption|]); cbn; intros c;
        rewrite !elem_of_app; tauto.
    + pose proof (zlen_nonneg os'). pose proof (zlen_nonneg ns').
      pose proof (zlen_nonneg os). pose proof (zlen_nonneg ns).
      intros [Hh|Ht]%Exists_cons; rewrite Exists_app.
      * destruct (C1 Hh). split; [by left|lia].
      * destruct (C2 Ht). split; [by right|lia].
Qed.

(** ** The hunks of the groups *)

Lemma proper_line_in ls l : proper_lines ls -> l ∈ ls -> proper_lines [l].
Proof.
  intros Hp Hl. apply proper_lines_single in Hp. rewrite Forall_forall in Hp. by apply Hp.
Qed.

(** The hunk of a group that consumes [os] and [ns]. *)
Lemma group_hunk_shape group i j i' j' :
  chained i j group i' j' -> group <> [] ->
  group_hunk group = (j, {| ph_old_start := i; ph_rows := change_row <$> group_changes group |}).
Proof. destruct group as [|op group]; [done|]. intros (H1 & H2 & _) _. unfold group_hunk. cbn. by rewrite H1, H2. Qed.

Context (Hold : proper_lines old) (Hnew : proper_lines new).
Context (Hmax : zlen old <= MAX_LINES /\ zlen new <= MAX_LINES).

Record at_lines (first : bool) (po pn : list str) (st : hunk_state) : Prop := {
  al_old : old_cursor st = zlen po;
  al_new : new_cursor st = zlen pn;
  al_unterminated : hs_unterminated st = unterminated pn;
  al_total : hs_total_rows st <= zlen po + zlen pn;
  al_count : 3 * zlen (hunks st) <= zlen po + zlen pn + 2;
  al_first : first = true -> hunks st = [];
}.

(** A group after a gap is a hunk the parser admits. *)
Lemma group_fits first po pn gap os ns ro rn group i2 j2 st :
  old = po ++ gap ++ os ++ ro -> new = pn ++ gap ++ ns ++ rn ->
  first = true \/ gap <> [] ->
  chained (zlen (po ++ gap)) (zlen (pn ++ gap)) group i2 j2 ->
  old_side (change_edit <$> group_changes group) = os ->
  new_side (change_edit <$> group_changes group) = ns ->
  Forall (fun c => c.2 ∈ os ++ ns) (group_changes group) ->
  zlen (group_changes group) <= zlen os + zlen ns ->
  Exists (fun c => c.1 <> CEqual) (group_changes group) -> group <> [] -> 0 < zlen os + zlen ns ->
  at_lines first po pn st ->
  hunk_fits (group_hunk group).1 (group_hunk group).2 st /\
  at_lines false (po ++ gap ++ os) (pn ++ gap ++ ns) (after_hunk (group_hunk group).1 (group_hunk group).2 st).
Proof.
  intros Ho Hn Hgap Hch Hos Hns Hin Hlen Hex Hne Hpos [A1 A2 A3 A4 A5 A6].
  destruct Hmax as [Hm1 Hm2]. rewrite Ho in Hm1. rewrite Hn in Hm2. rewrite !zlen_app in Hm1, Hm2.
  pose proof (zlen_nonneg po). pose proof (zlen_nonneg pn). pose proof (zlen_nonneg gap).
  pose proof (zlen_nonneg os). pose proof (zlen_nonneg ns). pose proof (zlen_nonneg ro). pose proof (zlen_nonneg rn).
  assert (Hsides : old_side (hunk_edits (group_hunk group).2) = os /\ new_side (hunk_edits (group_hunk group).2) = ns)
    by (rewrite hunk_edits_group; done).
  assert (Hpn : proper_lines (pn ++ gap)).
  { rewrite Hn, app_assoc in Hnew. by apply proper_lines_app in Hnew as [? _]. }
  assert (Hpns : proper_lines ((pn ++ gap) ++ ns)).
  { rewrite Hn, !app_assoc in Hnew. by apply proper_lines_app in Hnew as [? _]. }
  assert (Hugap : gap <> [] -> unterminated pn = false).
  { intros Hg. apply not_true_iff_false. intros Hu. by apply (unterminated_last _ _ Hpn) in Hu. }
  assert (Hug : unterminated (pn ++ gap) = unterminated pn).
  { rewrite unterminated_app. destruct (unterminated gap) eqn:E; [exfalso|by rewrite orb_false_r].
    assert (Hpo : proper_lines ((po ++ gap) ++ os)).
    { rewrite Ho, !app_assoc in Hold. by apply proper_lines_app in Hold as [? _]. }
    apply unterminated_last in Hpo as ->; [|by rewrite unterminated_app, E, orb_true_r].
    apply unterminated_last in Hpns as ->; [|by rewrite unterminated_app, E, orb_true_r].
    by vm_compute in Hpos. }
  assert (Hwf : Forall row_wf (change_row <$> group_changes group)).
  { apply Forall_fmap. eapply Forall_impl; [exact Hin|]. intros c Hc. apply change_row_wf.
    apply elem_of_app in Hc as [Hc|Hc]; [apply (proper_line_in old)|apply (proper_line_in new)];
      try done; [rewrite Ho|rewrite Hn]; rewrite !elem_of_app; tauto. }
  assert (Hns' : new_side (row_edit <$> (change_row <$> group_changes group)) = ns)
    by (by rewrite <- Hns, <- hunk_edits_group).
  destruct (output_ordered_sides (pn ++ gap) _ Hwf) as [O1 O2]; [by rewrite Hns'|].
  rewrite Hns', Hug in O2. rewrite Hug in O1.
  rewrite (group_hunk_shape _ _ _ _ _ Hch Hne) in *. cbn [fst snd ph_old_start ph_rows] in *.
  assert (Hrows : zlen (change_row <$> group_changes group) <= zlen os + zlen ns)
    by (unfold zlen in *; by rewrite length_fmap).
  destruct Hsides as [E1 E2]. split.
  - constructor; cbn [ph_old_start ph_rows]; rewrite ?E1, ?E2, ?A1, ?A2, ?A3, ?zlen_app;
      try done; try lia.
    + apply existsb_exists. apply Exists_exists in Hex as (c & Hc & Hne').
      exists (change_row c). split; [by apply list_elem_of_In, list_elem_of_fmap_2|].
      destruct c as [[] l]; [done|by vm_compute..].
    + unfold MAX_LINES in *. lia.
    + destruct gap; [left; by rewrite zlen_nil, Z.add_0_r|right; by apply Hugap].
    + unfold MAX_PATCH_ROWS. lia.
  - constructor; cbn [after_hunk old_cursor new_cursor hs_unterminated hs_total_rows hunks ph_old_start ph_rows];
      rewrite ?E1, ?E2, ?A3, ?zlen_app; try done; try lia.
    + by rewrite O2, <- app_assoc.
    + rewrite zlen_cons, zlen_nil. destruct Hgap as [Hf|Hg].
      * rewrite A6, zlen_nil by done. lia.
      * destruct gap; [done|]. rewrite zlen_cons in *. pose proof (zlen_nonneg gap). lia.
Qed.

(** ** The script of all groups *)

Lemma clusters_script first po ro pn rn groups :
  clusters old new first (zlen po) (zlen pn) groups -> old = po ++ ro -> new = pn ++ rn ->
  exists script tail c,
    replays (zlen po) ((group_hunk <$> groups).*2) script c /\
    ro = old_side script ++ tail /\ rn = new_side script ++ tail /\
    (forall st, at_lines first po pn st -> hunks_fit (group_hunk <$> groups) st) /\
    (forall p r, p ∈ group_hunk <$> groups -> r ∈ ph_rows p.2 -> pr_text r ∈ old ++ new).
Proof.
  remember (zlen po) as i eqn:Hi. remember (zlen pn) as j eqn:Hj. intros Hc.
  revert po ro pn rn Hi Hj.
  induction Hc as [first i j rest Eo En|first i j gap i1 j1 group i2 j2 groups Eo En Hgap Hch Hv Hex _ IH];
    intros po ro pn rn -> -> Ho Hn; rewrite Ho in Eo; rewrite Hn in En.
  - exists [], rest, (zlen po). rewrite zlen_app in Eo, En.
    apply slice_get_app in Eo as [Eo [xo ->]]. apply slice_get_app in En as [En [xn ->]].
    rewrite zlen_app in Eo, En.
    assert (xo = []) as -> by (apply zlen_zero; lia). assert (xn = []) as -> by (apply zlen_zero; lia).
    split_and!; [constructor|by rewrite app_nil_r..|done|].
    intros p r Hp. by apply not_elem_of_nil in Hp.
  - apply slice_get_app in Eo as [-> [ro1 ->]]. apply slice_get_app in En as [-> [rn1 ->]].
    rewrite <- !zlen_app in Hch. rewrite app_assoc in Ho, Hn.
    destruct (group_sides group _ _ _ _ _ _ Ho Hn Hch Hv)
      as (os & ns & ro' & rn' & -> & -> & -> & -> & Hos & Hns & Hin & Hlen & Hchange).
    destruct (Hchange Hex) as [Hexc Hpos].
    assert (Hne : group <> []) by (intros ->; by apply Exists_nil in Hex).
    assert (Ho' := Ho). assert (Hn' := Hn). rewrite app_assoc in Ho', Hn'.
    destruct (IH _ _ _ _ eq_refl eq_refl Ho' Hn') as (script & tail & c & Hr & Hro & Hrn & Hfit & Htexts).
    exists ((Keep <$> gap) ++ (change_edit <$> group_changes group) ++ script), tail, c.
    split_and!.
    + rewrite fmap_cons, fmap_cons. rewrite <- hunk_edits_group.
      assert (Hst : ph_old_start (group_hunk group).2 = zlen (po ++ gap))
        by (by rewrite (group_hunk_shape _ _ _ _ _ Hch Hne)).
      apply replays_cons; rewrite Hst; [by rewrite zlen_app|].
      rewrite hunk_edits_group, Hos, <- zlen_app. done.
    + rewrite !old_side_app, old_side_keep, Hos, Hro, <- !app_assoc. done.
    + rewrite !new_side_app, new_side_keep, Hns, Hrn, <- !app_assoc. done.
    + intros st Hst. rewrite fmap_cons. cbn [hunks_fit].
      destruct (group_fits first po pn gap os ns ro' rn' group (zlen ((po ++ gap) ++ os)) (zlen ((pn ++ gap) ++ ns)) st)
        as [Hf Hat]; try done; [by rewrite Ho, <- app_assoc|by rewrite Hn, <- app_assoc|].
      rewrite (surjective_pairing (group_hunk group)). split; [done|].
      apply Hfit. by rewrite <- !app_assoc.
    + intros p r Hp Hr'. apply elem_of_cons in Hp as [->|Hp]; [|by eapply Htexts].
      cbn in Hr'. apply list_elem_of_fmap in Hr' as (c' & -> & Hc').
      rewrite Forall_forall in Hin. specialize (Hin _ Hc'). cbn [change_row pr_text].
      rewrite Ho, Hn, !elem_of_app in *. tauto.
Qed.
End groups.

(** * The text of the patch *)

Lemma append_patch_spec output value :
  match Compute.append output value with
  | Ok out => out = output ++ value /\ slen out <= MAX_PATCH_BYTES
  | Err e => e = ResourceLimit
  end.
Proof.
  unfold Compute.append, saturating_add. assert (MAX_PATCH_BYTES < usize_max) by reflexivity.
  destruct (Z.ltb_spec MAX_PATCH_BYTES (Z.min (slen output + slen value) usize_max)); [done|].
  split; [done|]. rewrite slen_app. lia.
Qed.

Lemma row_text_lines c :
  concat (row_lines (change_row c)) = change_prefix c.1 ++ c.2 ++ (if ends_lf c.2 then [] else [LF] ++ MARKER).
Proof.
  unfold row_lines. rewrite (change_prefix_head c.1). cbn [pr_text change_row pr_prefix].
  destruct (ends_lf c.2); cbn [concat app]; rewrite ?app_nil_r; [done|].
  by rewrite <- app_assoc.
Qed.

Lemma append_changes_spec patch changes :
  match append_changes patch changes with
  | Ok out => out = patch ++ concat ((change_row <$> changes) ≫= row_lines)
      /\ (slen patch <= MAX_PATCH_BYTES -> slen out <= MAX_PATCH_BYTES)
  | Err e => e = ResourceLimit
  end.
Proof.
  revert patch. induction changes as [|[tag value] changes IH]; intros patch; cbn [append_changes].
  - by rewrite app_nil_r.
  - pose proof (append_patch_spec patch (change_prefix tag)) as H1.
    destruct (Compute.append patch _) as [p1|e]; [destruct H1 as [-> _]|done].
    pose proof (append_patch_spec (patch ++ change_prefix tag) value) as H2.
    destruct (Compute.append _ value) as [p2|e]; [destruct H2 as [-> L2]|done].
    pose proof (row_text_lines (tag, value)) as Hrow. cbn [fst snd] in Hrow.
    rewrite fmap_cons. change ((change_row (tag, value) :: ?l) ≫= row_lines)
      with (row_lines (change_row (tag, value)) ++ (l ≫= row_lines)).
    rewrite concat_app, Hrow.
    destruct (ends_lf value); cbn [negb].
    + specialize (IH ((patch ++ change_prefix tag) ++ value)). destruct (append_changes _ _) as [p3|]; [|done].
      destruct IH as [-> L3]. split; [by rewrite app_nil_r, <- !app_assoc|auto].
    + pose proof (append_patch_spec ((patch ++ change_prefix tag) ++ value) ([LF] ++ MARKER)) as H4.
      destruct (Compute.append _ ([LF] ++ _)) as [p3|e]; [destruct H4 as [-> L4]|done].
      specialize (IH (((patch ++ change_prefix tag) ++ value) ++ [LF] ++ MARKER)).
      destruct (append_changes _ _) as [p4|]; [|done].
      destruct IH as [-> L3]. split; [by rewrite <- !app_assoc|auto].
Qed.

Lemma chained_last i j ops i' j' op :
  chained i j ops i' j' -> last ops = Some op -> old_end op = i' /\ new_end op = j'.
Proof.
  revert i j. induction ops as [|o ops IH]; intros i j Hc Hl; [done|].
  destruct Hc as (_ & _ & Hc). destruct ops as [|o' ops].
  - injection Hl as ->. by destruct Hc.
  - by apply (IH _ _ Hc).
Qed.

Section text.
Context `{SimilarLaws} (old new : list str).

Lemma append_group_spec po ro pn rn i' j' patch group :
  old = po ++ ro -> new = pn ++ rn -> chained (zlen po) (zlen pn) group i' j' ->
  Forall (op_valid old new) group -> group <> [] ->
  match append_group old new patch group with
  | Ok out => out = patch ++ concat (hunk_lines (group_hunk old new group).1 (group_hunk old new group).2)
      /\ (slen patch <= MAX_PATCH_BYTES -> slen out <= MAX_PATCH_BYTES)
  | Err e => e = Error ResourceLimit
  end.
Proof.
  intros Ho Hn Hch Hv Hne.
  destruct (group_sides old new group _ _ _ _ _ _ Ho Hn Hch Hv)
    as (os & ns & ro' & rn' & -> & -> & -> & -> & Hos & Hns & _).
  unfold append_group, hunk_lines. rewrite hunk_edits_group, Hos, Hns.
  rewrite (group_hunk_shape old new _ _ _ _ _ Hch Hne). cbn [fst snd ph_old_start ph_rows].
  destruct (last group) as [lst|] eqn:El; [|by apply last_None in El].
  destruct (chained_last _ _ _ _ _ _ Hch El) as [-> ->].
  destruct group as [|fst0 group]; [done|]. cbn [head]. destruct Hch as (-> & -> & _).
  unfold usize_sub, checked_sub. rewrite !zlen_app.
  pose proof (zlen_nonneg os). pose proof (zlen_nonneg ns).
  rewrite !(proj2 (Z.leb_le _ _)) by lia. rewrite !Z.add_simpl_l.
  fold (header_line (zlen po) (zlen os) (zlen pn) (zlen ns)).
  pose proof (append_patch_spec patch (header_line (zlen po) (zlen os) (zlen pn) (zlen ns))) as Q1.
  destruct (Compute.append _ _) as [p1|e]; [destruct Q1 as [-> L1]|by subst e]. cbn [lift_error].
  fold (group_changes old new (fst0 :: group)).
  pose proof (append_changes_spec (patch ++ header_line (zlen po) (zlen os) (zlen pn) (zlen ns))
    (group_changes old new (fst0 :: group))) as Q2.
  destruct (append_changes _ _) as [p2|e]; [destruct Q2 as [-> L2]|by subst e]. cbn [lift_error].
  split; [by cbn [concat]; rewrite <- app_assoc|auto].
Qed.

Lemma append_groups_spec first po ro pn rn groups patch :
  clusters old new first (zlen po) (zlen pn) groups -> old = po ++ ro -> new = pn ++ rn ->
  match append_groups old new patch groups with
  | Ok out => out = patch ++ concat (print_hunks (group_hunk old new <$> groups))
      /\ (slen patch <= MAX_PATCH_BYTES -> slen out <= MAX_PATCH_BYTES)
  | Err e => e = Error ResourceLimit
  end.
Proof.
  remember (zlen po) as i eqn:Hi. remember (zlen pn) as j eqn:Hj. intros Hc.
  revert po ro pn rn patch Hi Hj.
  induction Hc as [|first i j gap i1 j1 group i2 j2 groups Eo En _ Hch Hv Hex _ IH];
    intros po ro pn rn patch -> -> Ho Hn; [split; [by rewrite app_nil_r|done]|].
  rewrite Ho in Eo. rewrite Hn in En.
  apply slice_get_app in Eo as [-> [ro1 ->]]. apply slice_get_app in En as [-> [rn1 ->]].
  rewrite <- !zlen_app in Hch. rewrite app_assoc in Ho, Hn.
  assert (Hne : group <> []) by (intros ->; by apply Exists_nil in Hex).
  destruct (group_sides old new group _ _ _ _ _ _ Ho Hn Hch Hv)
    as (os & ns & ro' & rn' & -> & -> & -> & -> & _).
  cbn [append_groups].
  pose proof (append_group_spec _ _ _ _ _ _ patch group Ho Hn Hch Hv Hne) as Q1.
  destruct (append_group old new patch group) as [p1|]; [destruct Q1 as [-> L1]|done].
  rewrite app_assoc in Ho, Hn.
  specialize (IH _ _ _ _ (patch ++ concat (hunk_lines (group_hunk old new group).1 (group_hunk old new group).2))
    eq_refl eq_refl Ho Hn).
  destruct (append_groups _ _ _ groups) as [p2|]; [destruct IH as [-> L2]|done].
  split; [|auto]. rewrite fmap_cons.
  change (print_hunks (?p :: ?l)) with (hunk_lines p.1 p.2 ++ print_hunks l).
  by rewrite concat_app, <- app_assoc.
Qed.
End text.

Lemma text_info_validate text label info : text_info text label = Ok info -> validate_text text = Ok tt.
Proof.
  unfold text_info. intros Ht.
  match type of Ht with (if ?b then _ else _) = _ => destruct b eqn:E1 end; [done|].
  cbv zeta in Ht. match type of Ht with (if ?b then _ else _) = _ => destruct b eqn:E2 end; [done|].
  clear Ht. apply orb_false_iff in E1 as [E1 _]. apply orb_false_iff in E1 as [E1 _].
  apply orb_false_iff in E1 as [E1 _]. apply orb_false_iff in E2 as [E2 E3].
  unfold validate_text, NUL. by rewrite E1, E2, E3.
Qed.

(** * The engine's patch *)

(** What an answer of the engine is made of. *)
Lemma compare_ok `{SimilarLaws} before after d :
  compare before after = Ok d ->
  validate_text before = Ok tt /\ validate_text after = Ok tt /\
  let old := split_inclusive before in
  let new := split_inclusive after in
  let groups := grouped_ops old new 3 in
  (groups = [] /\ d = {| cd_patch := []; cd_inline_changes := [] |} \/
   groups <> [] /\ cd_patch d = print_patch (group_hunk old new <$> groups) /\
   slen (cd_patch d) <= MAX_PATCH_BYTES /\
   annotate_blocks old new (length (line_ops old new)) (line_ops old new) [] 0
     = Ok (cd_inline_changes d)).
Proof.
  unfold compare. intros Hc.
  destruct (text_info before _) as [bi|] eqn:Eb; [|done]. destruct (text_info after _) as [ai|] eqn:Ea; [|done].
  cbn [lift_error] in Hc. apply text_info_validate in Eb, Ea. split; [done|]. split; [done|]. cbn zeta.
  pose proof (grouped_ops_clusters (split_inclusive before) (split_inclusive after) 3 ltac:(lia)) as Hcl.
  destruct (grouped_ops _ _ 3) as [|g gs]; [left; split; [done|congruence]|right]. split; [done|].
  pose proof (append_patch_spec [] (u "--- before" ++ [LF] ++ u "+++ after" ++ [LF])) as Q0.
  destruct (Compute.append _ _) as [p0|]; [|done]. cbn [lift_error] in Hc. destruct Q0 as [Ep0 L0].
  pose proof (append_groups_spec (split_inclusive before) (split_inclusive after) true []
    (split_inclusive before) [] (split_inclusive after) (g :: gs) p0 Hcl eq_refl eq_refl) as Q1.
  destruct (append_groups _ _ _ _) as [p1|]; [|done]. destruct Q1 as [E1 L1].
  destruct (annotate_blocks _ _ _ _ _ _) as [an|] eqn:Ean; [|done].
  assert (d = {| cd_patch := p1; cd_inline_changes := an |}) as -> by congruence.
  cbn [cd_patch cd_inline_changes]. split_and!; [|auto|done].
  rewrite E1, Ep0. unfold print_patch, BEFORE_LINE, AFTER_LINE.
  generalize (print_hunks (group_hunk (split_inclusive before) (split_inclusive after) <$> g :: gs)).
  intros l. cbn [concat].
  by rewrite <- !app_assoc.
Qed.

(** The hunks of an answer and the edit script they stand for *)
Lemma compare_hunks `{SimilarLaws} before after d :
  compare before after = Ok d ->
  exists hs script tail c,
    replays 0 (hs.*2) script c /\
    split_inclusive before = old_side script ++ tail /\
    split_inclusive after = new_side script ++ tail /\
    hunks_fit hs initial_hunk_state /\
    (forall p r, p ∈ hs -> r ∈ ph_rows p.2 -> pr_text r ∈ split_inclusive before ++ split_inclusive after) /\
    (hs = [] /\ cd_patch d = [] \/
     hs <> [] /\ cd_patch d = print_patch hs /\ slen (cd_patch d) <= MAX_PATCH_BYTES).
Proof.
  intros (Hvb & Hva & Hd)%compare_ok. cbn zeta in Hd.
  set (old := split_inclusive before) in *. set (new := split_inclusive after) in *.
  pose proof (split_inclusive_proper before) as Hpo. pose proof (split_inclusive_proper after) as Hpn.
  fold old in Hpo. fold new in Hpn.
  assert (Hmax : zlen old <= MAX_LINES /\ zlen new <= MAX_LINES)
    by (apply validate_text_ok in Hvb, Hva; tauto).
  pose proof (grouped_ops_clusters old new 3 ltac:(lia)) as Hcl.
  destruct (clusters_script old new Hpo Hpn Hmax true [] old [] new _ Hcl eq_refl eq_refl)
    as (script & tail & c & Hr & Ho & Hn & Hfit & Htexts).
  exists (group_hunk old new <$> grouped_ops old new 3), script, tail, c.
  split_and!; try done; [apply Hfit; by constructor|].
  destruct Hd as [[Hg ->]|(Hg & Hp & Hlen & _)]; [left; by rewrite Hg|right].
  split; [|done]. intros E. apply Hg. by apply fmap_nil_inv in E.
Qed.

(** The patch has no characters of its own but ASCII ones. *)
Lemma compare_patch_chars `{SimilarLaws} (P : char -> Prop) before after d :
  (forall c, 1 <= c < 128 -> P c) -> Forall P before -> Forall P after ->
  compare before after = Ok d -> Forall P (cd_patch d).
Proof.
  intros HP Hb Ha (hs & script & tail & c & _ & _ & _ & Hfit & Htexts & Hd)%compare_hunks.
  destruct Hd as [[_ ->]|(_ & -> & _)]; [constructor|]. unfold print_patch. cbn [concat].
  assert (Hline : forall l, forallb (in_range 1 127) l = true -> Forall P l).
  { intros l Hl. rewrite forallb_Forall in Hl. eapply Forall_impl; [exact Hl|]. cbn.
    intros x Hx%in_range_iff. apply HP. lia. }
  rewrite !Forall_app. split_and!; [by apply Hline; vm_compute..|].
  apply Forall_forall. intros x Hx.
  apply (print_hunks_chars _ _ _ Hfit) in Hx as [?|(p & r & Hp1 & Hr1 & Hx)]; [by apply HP|].
  specialize (Htexts _ _ Hp1 Hr1). rewrite Forall_forall in Hb, Ha.
  apply elem_of_app in Htexts as [Ht|Ht]; [apply Hb|apply Ha];
    [rewrite <- (concat_split_inclusive before)|rewrite <- (concat_split_inclusive after)];
    apply list_elem_of_In, in_concat; eexists; (split; apply list_elem_of_In; [exact Ht|exact Hx]).
Qed.

(** C3. The patch that the engine returns, applied to the old text, gives the new
    one: whatever edit operations the library found, the patch is accepted by the
    parser, fits the old text, and nothing but the new text comes out. *)
Theorem compare_then_apply `{SimilarLaws} before after d :
  compare before after = Ok d -> apply_patch before (cd_patch d) = Ok after.
Proof.
  intros Hc. pose proof Hc as (Hvb & Hva & _)%compare_ok.
  pose proof Hc as (hs & script & tail & c & Hr & Ho & Hn & Hfit & _ & Hd)%compare_hunks.
  assert (Hnul : NUL ∉ cd_patch d).
  { assert (Hf : Forall (fun x => x <> NUL) (cd_patch d)).
    { apply (compare_patch_chars _ before after); [unfold NUL; lia| | |done].
      - apply validate_text_ok in Hvb as (_ & Hb & _). apply Forall_forall. by intros x Hx ->.
      - apply validate_text_ok in Hva as (_ & Ha & _). apply Forall_forall. by intros x Hx ->. }
    rewrite Forall_forall in Hf. intros Hin. by apply (Hf NUL). }
  destruct Hd as [[-> Hp]|(Hne & Hp & Hlen)].
  - inversion Hr; subst. cbn in Ho, Hn.
    assert (before = after) as <-
      by (rewrite <- (concat_split_inclusive before), <- (concat_split_inclusive after); congruence).
    unfold apply_patch. rewrite Hp, Hvb. done.
  - rewrite apply_patch_parsed; [| |done..].
    2: { rewrite Hp. unfold print_patch. cbn [concat]. intros [E _]%app_nil. discriminate. }
    pose proof (parse_patch_spec (cd_patch d)) as Hw. rewrite Hp, parse_print_patch in * by done.
    destruct Hw as (_ & Hw & _). apply apply_parsed_iff; [done|]. by exists script, tail, c.
Qed.

Definition sample_before : str := u "a
b
c
".
Definition sample_after : str := u "a
B
c".

Lemma compare_then_apply_witness :
  exists d, compare sample_before sample_after = Ok d /\ cd_patch d <> []
    /\ apply_patch sample_before (cd_patch d) = Ok sample_after.
Proof.
  destruct (compare sample_before sample_after) as [d|] eqn:E; [|vm_compute in E; discriminate].
  exists d. split; [reflexivity|]. split; [|exact (compare_then_apply _ _ _ E)].
  intros Hd. vm_compute in E. assert (Hc : length (cd_patch d) = 0%nat) by (rewrite Hd; reflexivity).
  injection E as <-. vm_compute in Hc. discriminate.
Defined.
