(* ===== verification/ComputeHighlights.v ===== *)
(** The highlights of the comparison engine: they lie inside the lines they
    annotate, and the characters that they do not mark are the same in both
    texts. *)

From S2P Require Import Prelude Utf8 Strings TextDiff Patch PatchFacts Paging PagingFacts DiffService DiffFacts Compute ComputePatch ComputeFacts.

(** * Unmarked characters *)

Definition in_ranges (ranges : list (Z * Z)) (k : Z) : bool :=
  existsb (fun r => (r.1 <=? k) && (k <? r.2)) ranges.

(** The characters of [text] outside the ranges, the first one being number [k]. *)
Fixpoint unmarked (k : Z) (ranges : list (Z * Z)) (text : str) : str :=
  match text with
  | [] => []
  | c :: text => (if in_ranges ranges k then [] else [c]) ++ unmarked (k + 1) ranges text
  end.

(** Non-empty ranges in order, from [lo] on. *)
Fixpoint ordered (lo : Z) (ranges : list (Z * Z)) : Prop :=
  match ranges with
  | [] => True
  | (s, t) :: ranges => lo <= s /\ s < t /\ ordered t ranges
  end.

Lemma unmarked_app k ranges s t :
  unmarked k ranges (s ++ t) = unmarked k ranges s ++ unmarked (k + zlen s) ranges t.
Proof.
  revert k. induction s as [|c s IH]; intros k; cbn [app unmarked].
  - by rewrite zlen_nil, Z.add_0_r.
  - rewrite IH, zlen_cons, <- app_assoc. do 2 f_equal. f_equal. lia.
Qed.

(** Only membership at the text's own positions counts. *)
Lemma unmarked_ext k k' ranges ranges' text :
  (forall x, 0 <= x < zlen text -> in_ranges ranges (k + x) = in_ranges ranges' (k' + x)) ->
  unmarked k ranges text = unmarked k' ranges' text.
Proof.
  revert k k'. induction text as [|c text IH]; intros k k' Hx; [done|]. cbn [unmarked].
  rewrite zlen_cons in Hx. pose proof (zlen_nonneg text).
  pose proof (Hx 0 ltac:(lia)) as H0. rewrite !Z.add_0_r in H0. rewrite H0. f_equal. apply IH.
  intros x Hb. rewrite <- !Z.add_assoc. apply Hx. lia.
Qed.

Lemma in_ranges_below lo ranges k : ordered lo ranges -> k < lo -> in_ranges ranges k = false.
Proof.
  revert lo. induction ranges as [|[s t] ranges IH]; intros lo Ho Hk; [done|]. destruct Ho as (? & ? & Ho).
  cbn. rewrite (proj2 (Z.leb_gt _ _)) by lia. cbn. apply (IH t); [done|lia].
Qed.

Lemma unmarked_none k ranges text :
  (forall x, 0 <= x < zlen text -> in_ranges ranges (k + x) = false) -> unmarked k ranges text = text.
Proof.
  revert k. induction text as [|c text IH]; intros k Hx; [done|]. cbn [unmarked].
  rewrite zlen_cons in Hx. pose proof (zlen_nonneg text).
  pose proof (Hx 0 ltac:(lia)) as H0. rewrite Z.add_0_r in H0. rewrite H0. cbn [app]. f_equal.
  apply IH. intros x Hb. rewrite <- Z.add_assoc. apply Hx. lia.
Qed.

Lemma unmarked_below lo k ranges text :
  ordered lo ranges -> k + zlen text <= lo -> unmarked k ranges text = text.
Proof. intros Ho Hk. apply unmarked_none. intros x Hx. apply (in_ranges_below lo); [done|lia]. Qed.

Lemma unmarked_all k ranges text :
  (forall x, 0 <= x < zlen text -> in_ranges ranges (k + x) = true) -> unmarked k ranges text = [].
Proof.
  revert k. induction text as [|c text IH]; intros k Hx; [done|]. cbn [unmarked].
  rewrite zlen_cons in Hx. pose proof (zlen_nonneg text).
  pose proof (Hx 0 ltac:(lia)) as H0. rewrite Z.add_0_r in H0. rewrite H0. cbn [app].
  apply IH. intros x Hb. rewrite <- Z.add_assoc. apply Hx. lia.
Qed.

(** * The ranges of one line *)

Definition range_end (e : Z) (ranges : list ScalarRange) : Z :=
  match last ranges with Some (_, y) => y | None => e end.

Lemma range_end_cons e s t ranges : range_end e ((s, t) :: ranges) = range_end t ranges.
Proof.
  unfold range_end. destruct ranges as [|r ranges _] using rev_ind; [done|].
  by rewrite app_comm_cons, !last_snoc.
Qed.

Lemma ranges_in_snoc n e ranges a b :
  ranges_in n e (ranges ++ [(a, b)]) <-> ranges_in n e ranges /\ range_end e ranges <= a /\ a < b /\ b <= n.
Proof.
  revert e. induction ranges as [|[s t] ranges IH]; intros e; cbn [app ranges_in].
  - unfold range_end. cbn. tauto.
  - rewrite IH, range_end_cons. tauto.
Qed.

Lemma in_ranges_app r r' k : in_ranges (r ++ r') k = in_ranges r k || in_ranges r' k.
Proof. apply existsb_app. Qed.

Lemma ranges_in_end n e ranges : ranges_in n e ranges -> e <= n -> e <= range_end e ranges <= n.
Proof.
  revert e. induction ranges as [|[s t] ranges IH]; intros e Hr He; [unfold range_end; cbn; lia|].
  destruct Hr as (? & ? & ? & Hr). specialize (IH t Hr ltac:(lia)).
  rewrite range_end_cons. lia.
Qed.

Lemma bool_eq_iff a b : (a = true <-> b = true) -> a = b.
Proof. destruct a, b; intuition congruence. Qed.

(** A range added to a line, merged with the last one when they touch. *)
Definition add_range (ranges : list ScalarRange) (a b : Z) : list ScalarRange :=
  match last ranges with
  | Some (x, y) => if y =? a then removelast ranges ++ [(x, b)] else ranges ++ [(a, b)]
  | None => ranges ++ [(a, b)]
  end.

Lemma add_range_spec n ranges a b :
  ranges_in n 0 ranges -> range_end 0 ranges <= a -> 0 <= a -> a < b -> b <= n ->
  ranges_in n 0 (add_range ranges a b) /\ range_end 0 (add_range ranges a b) = b /\
  forall k, in_ranges (add_range ranges a b) k = in_ranges ranges k || ((a <=? k) && (k <? b)).
Proof.
  intros Hr He Ha Hab Hb. unfold add_range.
  assert (Hplain : ranges_in n 0 (ranges ++ [(a, b)]) /\ range_end 0 (ranges ++ [(a, b)]) = b /\
    forall k, in_ranges (ranges ++ [(a, b)]) k = in_ranges ranges k || ((a <=? k) && (k <? b))).
  { split_and!; [by apply ranges_in_snoc|unfold range_end; by rewrite last_snoc|].
    intros k. rewrite in_ranges_app. cbn. by rewrite orb_false_r. }
  destruct (last ranges) as [[x y]|] eqn:El; [|done].
  destruct (Z.eqb_spec y a) as [->|_]; [|exact Hplain].
  apply last_Some in El as [l ->]. rewrite removelast_last.
  apply ranges_in_snoc in Hr as (Hr & H1 & H2 & H3). split_and!.
  - apply ranges_in_snoc. split_and!; [done|done|lia|lia].
  - unfold range_end. by rewrite last_snoc.
  - intros k. rewrite !in_ranges_app. cbn. rewrite !orb_false_r. apply bool_eq_iff.
    rewrite !orb_true_iff, !andb_true_iff, !Z.leb_le, !Z.ltb_lt. split; [|intuition lia].
    intros [|[? ?]]; [tauto|]. destruct (Z_lt_le_dec k a); [left; right; lia|right; lia].
Qed.

Lemma add_range_length ranges a b :
  zlen ranges <= zlen (add_range ranges a b) <= zlen ranges + 1.
Proof.
  unfold add_range, ScalarRange in *. destruct (last ranges) as [[x y]|] eqn:El.
  - apply last_Some in El as [l ->]. rewrite removelast_last.
    destruct (_ =? _); rewrite !zlen_app, !zlen_cons, !zlen_nil; lia.
  - rewrite zlen_app, zlen_cons, zlen_nil. lia.
Qed.

(** What the loop over the changes of the line [offset..e] does. *)
Lemma line_ranges_spec offset e changes ranges count :
  0 <= offset < e -> e - offset < 2 ^ 32 ->
  ranges_in (e - offset) 0 ranges -> ordered (offset + range_end 0 ranges) changes \/
    (ranges = [] /\ exists s t rest, changes = (s, t) :: rest /\ s < t /\ offset < t /\ ordered t rest) ->
  match line_ranges offset e changes ranges count with
  | Ok (ranges', count') =>
    ranges_in (e - offset) 0 ranges' /\
    (forall k, 0 <= k < e - offset ->
      in_ranges ranges' k = in_ranges ranges k || in_ranges changes (offset + k)) /\
    zlen ranges' - zlen ranges <= count' - count /\
    (count <= MAX_INLINE_RANGES -> count' <= MAX_INLINE_RANGES)
  | Err err => err = Error ResourceLimit
  end.
Proof.
  intros Hoff Hbig. revert ranges count.
  induction changes as [|[s t] changes IH]; intros ranges count Hr Hord; cbn [line_ranges].
  { split_and!; [done| |lia|done]. intros k _. cbn. by rewrite orb_false_r. }
  assert (Hst : s < t /\ offset < t /\ ordered t changes /\ range_end 0 ranges <= Z.max s offset - offset).
  { pose proof (ranges_in_end _ _ _ Hr ltac:(lia)). destruct Hord as [(? & ? & ?)|(-> & s' & t' & rest & Heq & ? & ? & ?)].
    - split_and!; try done; lia.
    - injection Heq as -> -> ->. unfold range_end. cbn. split_and!; try done; lia. }
  destruct Hst as (Hst & Hot & Ho & Hre). pose proof (ranges_in_end _ _ _ Hr ltac:(lia)) as Hend.
  destruct (Z.leb_spec e s) as [Hes|Hes].
  { split_and!; [done| |lia|done]. intros k Hk. rewrite (in_ranges_below s ((s, t) :: changes)); [by rewrite orb_false_r| |lia].
    cbn. split_and!; [lia|done|done]. }
  unfold usize_sub, checked_sub. rewrite !(proj2 (Z.leb_le _ _)) by lia.
  set (a := Z.max s offset - offset) in *. set (b := Z.min t e - offset) in *.
  assert (Ha : 0 <= a < e - offset) by (unfold a; lia). assert (Hab : a < b <= e - offset) by (unfold a, b; lia).
  rewrite (proj2 (Z.ltb_lt a b)) by lia.
  assert (as_u32 a = a) as -> by (unfold as_u32; rewrite Z.mod_small; lia).
  assert (as_u32 b = b) as -> by (unfold as_u32; rewrite Z.mod_small; lia).
  destruct (add_range_spec _ _ a b Hr Hre ltac:(lia) ltac:(lia) ltac:(lia)) as (A1 & A2 & A3).
  pose proof (add_range_length ranges a b) as Hlen.
  assert (Hgo : forall count', (count <= MAX_INLINE_RANGES -> count' <= MAX_INLINE_RANGES) ->
    zlen (add_range ranges a b) - zlen ranges <= count' - count ->
    match line_ranges offset e changes (add_range ranges a b) count' with
    | Ok (ranges', count') =>
      ranges_in (e - offset) 0 ranges' /\
      (forall k, 0 <= k < e - offset ->
        in_ranges ranges' k = in_ranges ranges k || in_ranges ((s, t) :: changes) (offset + k)) /\
      zlen ranges' - zlen ranges <= count' - count /\
      (count <= MAX_INLINE_RANGES -> count' <= MAX_INLINE_RANGES)
    | Err err => err = Error ResourceLimit
    end).
  { intros count' Hc' Hl'. specialize (IH (add_range ranges a b) count' A1).
    assert (Hnext : ordered (offset + range_end 0 (add_range ranges a b)) changes).
    { rewrite A2. replace (offset + b) with (Z.min t e) by (unfold b; lia).
      destruct changes as [|[s' t'] changes]; [done|]. destruct Ho as (? & ? & ?). split_and!; try done; lia. }
    specialize (IH (or_introl Hnext)).
    destruct (line_ranges offset e changes (add_range ranges a b) count') as [[ranges' c']|]; [|exact IH].
    destruct IH as (I1 & I2 & I3 & I4).
    split_and!; [done| |lia|auto]. intros k Hk. rewrite I2, A3 by done. cbn [in_ranges existsb fst snd].
    rewrite <- orb_assoc. f_equal. change (existsb ?f changes) with (in_ranges changes (offset + k)). f_equal.
      apply bool_eq_iff. rewrite !andb_true_iff, !Z.leb_le, !Z.ltb_lt. unfold a, b. lia. }
  unfold add_range in Hgo. destruct (last ranges) as [[x y]|] eqn:El.
  - destruct (Z.eqb_spec y a).
    + apply Hgo; [done|]. rewrite Z.sub_diag. apply last_Some in El as [l ->].
      rewrite removelast_last. unfold zlen. rewrite !length_app. simpl. lia.
    + destruct (Z.ltb_spec MAX_INLINE_RANGES (count + 1)); [done|]. apply Hgo; [lia|].
      unfold zlen. rewrite !length_app. simpl. lia.
  - destruct (Z.ltb_spec MAX_INLINE_RANGES (count + 1)); [done|]. apply Hgo; [lia|].
    unfold zlen. rewrite !length_app. simpl. lia.
Qed.

(** * The annotations of a block *)

Lemma skip_changes_spec offset lo changes :
  ordered lo changes ->
  (skip_changes offset changes = [] \/
   exists s t rest, skip_changes offset changes = (s, t) :: rest /\ s < t /\ offset < t /\ ordered t rest) /\
  (exists lo', ordered lo' (skip_changes offset changes)) /\
  forall k, offset <= k -> in_ranges (skip_changes offset changes) k = in_ranges changes k.
Proof.
  revert lo. induction changes as [|[s t] changes IH]; intros lo Ho; cbn [skip_changes].
  - split_and!; [by left|by exists lo|done].
  - pose proof Ho as (H1 & H2 & H3). destruct (Z.leb_spec t offset).
    + destruct (IH t H3) as (A & B & C). split_and!; [done|done|].
      intros k Hk. rewrite C by done. cbn. by rewrite (proj2 (Z.ltb_ge _ _)), andb_false_r by lia.
    + split_and!; [right; by exists s, t, changes|by exists lo|done].
Qed.

(** One annotation per line, in the order of the lines. *)
Fixpoint annotated (side : DiffSide) (i : Z) (lines : list str) (hls : list SourceLineHighlights) : Prop :=
  match lines, hls with
  | [], [] => True
  | line :: lines, h :: hls =>
    hl_side h = side /\ hl_line_index h = i /\ ranges_in (zlen line) 0 (hl_ranges h)
    /\ annotated side (i + 1) lines hls
  | _, _ => False
  end.

Fixpoint marked_text (lines : list str) (hls : list SourceLineHighlights) : str :=
  match lines, hls with
  | line :: lines, h :: hls => unmarked 0 (hl_ranges h) line ++ marked_text lines hls
  | _, _ => []
  end.

Definition total_ranges (hls : list SourceLineHighlights) : Z :=
  sum_Z ((fun h => zlen (hl_ranges h)) <$> hls).

Lemma total_ranges_app a b : total_ranges (a ++ b) = total_ranges a + total_ranges b.
Proof. unfold total_ranges. by rewrite fmap_app, sum_Z_app. Qed.

Lemma annotate_lines_spec output side start li lines offset lo changes count :
  Forall (fun l => l <> []) lines -> 0 <= offset -> offset + zlen (concat lines) < 2 ^ 32 ->
  0 <= start + li -> start + li + zlen lines <= 2 ^ 32 -> ordered lo changes ->
  match Compute.annotate output side start li lines offset changes count with
  | Ok (output', count') => exists hls, output' = output ++ hls /\
      annotated side (start + li) lines hls /\
      marked_text lines hls = unmarked offset changes (concat lines) /\
      total_ranges hls <= count' - count /\
      (count <= MAX_INLINE_RANGES -> count' <= MAX_INLINE_RANGES)
  | Err e => e = Error ResourceLimit
  end.
Proof.
  intros Hne. revert output li offset lo changes count.
  induction Hne as [|line lines Hl Hne IH]; intros output li offset lo changes count H0 H1 H2 H3 Ho;
    cbn [Compute.annotate].
  { exists []. rewrite app_nil_r. split_and!; done || (change (total_ranges []) with 0; lia). }
  cbn [concat] in H1. rewrite zlen_app in H1. rewrite zlen_cons in H3.
  pose proof (zlen_nonneg line). pose proof (zlen_nonneg (concat lines)). pose proof (zlen_nonneg lines).
  assert (0 < zlen line) by (destruct line; [done|rewrite zlen_cons; pose proof (zlen_nonneg line); lia]).
  destruct (skip_changes_spec offset lo changes Ho) as (S1 & [lo' S2] & S3).
  pose proof (line_ranges_spec offset (offset + zlen line) (skip_changes offset changes) [] count
    ltac:(lia) ltac:(lia) I) as Hr.
  destruct (line_ranges _ _ _ _ _) as [[ranges c1]|err].
  2: { apply Hr. destruct S1 as [S1|(s & t & rest & S1 & ?)]; [left; by rewrite S1|right; eauto 10]. }
  destruct Hr as (R1 & R2 & R3 & R4).
  { destruct S1 as [S1|(s & t & rest & S1 & ?)]; [left; by rewrite S1|right; eauto 10]. }
  rewrite Z.add_simpl_l in R1, R2. rewrite zlen_nil in R3.
  specialize (IH (output ++ [{| hl_side := side; hl_line_index := as_u32 (start + li); hl_ranges := ranges |}])
    (li + 1) (offset + zlen line) lo' (skip_changes offset changes) c1 ltac:(lia) ltac:(lia) ltac:(lia) ltac:(lia) S2).
  destruct (Compute.annotate _ _ _ _ _ _ _ _) as [[output' c']|]; [|done].
  destruct IH as (hls & -> & I1 & I2 & I3 & I4).
  exists ({| hl_side := side; hl_line_index := as_u32 (start + li); hl_ranges := ranges |} :: hls).
  split_and!.
  - by rewrite <- app_assoc.
  - cbn. split_and!; [done|unfold as_u32; rewrite Z.mod_small; lia|done|].
    by replace (start + li + 1) with (start + (li + 1)) by lia.
  - cbn [marked_text hl_ranges concat]. rewrite I2, unmarked_app. f_equal; apply unmarked_ext.
    + intros x Hx. rewrite Z.add_0_l, R2, S3 by lia. done.
    + intros x Hx. apply S3. lia.
  - change (total_ranges (?h :: hls)) with (total_ranges ([h] ++ hls)). rewrite total_ranges_app.
    unfold total_ranges at 1. cbn. lia.
  - auto.
Qed.

(** ** The character operations *)

Lemma ordered_weaken lo lo' l : ordered lo l -> lo' <= lo -> ordered lo' l.
Proof. destruct l as [|[s t] l]; [done|]. intros (? & ? & ?) ?. cbn. split_and!; try done; lia. Qed.

(** The range of one side of an operation. *)
Definition side_ranges (p n : Z) : list (Z * Z) := if n <=? p then [] else [(p, n)].

Lemma changed_ranges_cons (start e : DiffOp -> Z) op ops :
  changed_ranges start e (op :: ops)
  = (if bool_decide (op_tag op = DEqual) then [] else side_ranges (start op) (e op))
    ++ changed_ranges start e ops.
Proof.
  unfold changed_ranges, side_ranges. cbn [List.filter].
  by destruct (bool_decide _), (_ <=? _).
Qed.

Lemma changed_side p xs r cs :
  ordered (p + zlen xs) cs ->
  ordered p (side_ranges p (p + zlen xs) ++ cs) /\
  unmarked p (side_ranges p (p + zlen xs) ++ cs) (xs ++ r) = unmarked (p + zlen xs) cs r.
Proof.
  intros Ho. unfold side_ranges. destruct (Z.leb_spec (p + zlen xs) p).
  - assert (xs = []) as -> by (apply zlen_zero; pose proof (zlen_nonneg xs); lia).
    rewrite zlen_nil, Z.add_0_r in *. done.
  - split; [cbn; split_and!; [lia|lia|done]|]. rewrite unmarked_app, unmarked_all.
    + apply unmarked_ext. intros x Hx. cbn. by rewrite (proj2 (Z.ltb_ge _ _)), andb_false_r by lia.
    + intros x Hx. cbn. rewrite (proj2 (Z.leb_le _ _)), (proj2 (Z.ltb_lt _ _)) by lia. done.
Qed.

Lemma char_changes ops po ro pn rn old new :
  old = po ++ ro -> new = pn ++ rn -> chained (zlen po) (zlen pn) ops (zlen old) (zlen new) ->
  Forall (op_valid old new) ops ->
  ordered (zlen po) (changed_ranges old_start old_end ops) /\
  ordered (zlen pn) (changed_ranges new_start new_end ops) /\
  unmarked (zlen po) (changed_ranges old_start old_end ops) ro
  = unmarked (zlen pn) (changed_ranges new_start new_end ops) rn.
Proof.
  intros Ho Hn Hch Hv. revert po ro pn rn Ho Hn Hch.
  induction Hv as [|op ops (os & ns & Eo & En & Htag) _ IH]; intros po ro pn rn Ho Hn Hch.
  - destruct Hch as [Hlo Hln]. rewrite Ho, zlen_app in Hlo. rewrite Hn, zlen_app in Hln.
    assert (ro = []) as -> by (apply zlen_zero; lia). assert (rn = []) as -> by (apply zlen_zero; lia). done.
  - destruct Hch as (Hs1 & Hs2 & Hch). rewrite Ho, Hs1 in Eo. rewrite Hn, Hs2 in En.
    apply slice_get_app in Eo as [Eo [ro' ->]]. apply slice_get_app in En as [En [rn' ->]].
    rewrite <- zlen_app in Eo, En. rewrite Eo, En in Hch. rewrite app_assoc in Ho, Hn.
    destruct (IH _ _ _ _ Ho Hn Hch) as (O1 & O2 & O3).
    rewrite zlen_app in Eo, En, O1, O2, O3. rewrite zlen_app in O3.
    pose proof (zlen_nonneg os). pose proof (zlen_nonneg ns).
    rewrite (changed_ranges_cons old_start), (changed_ranges_cons new_start), Hs1, Hs2, Eo, En.
    destruct (bool_decide_reflect (op_tag op = DEqual)) as [Ht|Ht].
    + rewrite Ht in Htag. subst ns. cbn [app]. split_and!; [eapply ordered_weaken; [eassumption|lia]..|].
      rewrite !unmarked_app, O3. f_equal.
      by rewrite (unmarked_below _ _ _ _ O1), (unmarked_below _ _ _ _ O2) by lia.
    + destruct (changed_side (zlen po) os ro' _ O1) as [A1 A2], (changed_side (zlen pn) ns rn' _ O2) as [B1 B2].
      split_and!; [done|done|]. by rewrite A2, B2, O3.
Qed.

(** * The text that no highlight marks *)

Definition ranges_of (hls : list SourceLineHighlights) (side : DiffSide) (i : Z) : list ScalarRange :=
  hls ≫= (fun h => if bool_decide (hl_key h = (side, i)) then hl_ranges h else []).

(** The unmarked characters of lines [i], [i + 1], ... of one side. *)
Fixpoint plain (hls : list SourceLineHighlights) (side : DiffSide) (i : Z) (lines : list str) : str :=
  match lines with
  | [] => []
  | line :: lines => unmarked 0 (ranges_of hls side i) line ++ plain hls side (i + 1) lines
  end.

Lemma plain_app hls side i ls ks :
  plain hls side i (ls ++ ks) = plain hls side i ls ++ plain hls side (i + zlen ls) ks.
Proof.
  revert i. induction ls as [|l ls IH]; intros i; cbn [app plain].
  - by rewrite zlen_nil, Z.add_0_r.
  - rewrite IH, zlen_cons, <- app_assoc. do 2 f_equal. f_equal. lia.
Qed.

Lemma plain_ext hls hls' side i lines :
  (forall x, i <= x < i + zlen lines -> ranges_of hls side x = ranges_of hls' side x) ->
  plain hls side i lines = plain hls' side i lines.
Proof.
  revert i. induction lines as [|l lines IH]; intros i Hx; [done|]. cbn [plain].
  rewrite zlen_cons in Hx. pose proof (zlen_nonneg lines). rewrite Hx by lia. f_equal.
  apply IH. intros x ?. apply Hx. lia.
Qed.

Lemma ranges_of_app hls hls' side i : ranges_of (hls ++ hls') side i = ranges_of hls side i ++ ranges_of hls' side i.
Proof. apply bind_app. Qed.

Lemma ranges_of_none hls side i : (forall h, h ∈ hls -> hl_key h <> (side, i)) -> ranges_of hls side i = [].
Proof.
  induction hls as [|h hls IH]; intros Hn; [done|]. unfold ranges_of. cbn [mbind list_bind].
  rewrite bool_decide_eq_false_2 by (apply Hn; by apply elem_of_cons; left).
  apply IH. intros h' Hh'. apply Hn. apply elem_of_cons. by right.
Qed.

Lemma plain_none hls side i lines :
  (forall h x, h ∈ hls -> i <= x < i + zlen lines -> hl_key h <> (side, x)) -> plain hls side i lines = concat lines.
Proof.
  revert i. induction lines as [|l lines IH]; intros i Hn; [done|]. cbn [plain concat].
  rewrite zlen_cons in Hn. pose proof (zlen_nonneg lines).
  rewrite ranges_of_none by (intros h Hh; apply Hn; [done|lia]).
  rewrite unmarked_none by done. f_equal.
  apply IH. intros h x Hh Hx. apply Hn; [done|lia].
Qed.

(** Annotations of consecutive lines *)
Lemma annotated_keys side i lines hls :
  annotated side i lines hls ->
  (forall h, h ∈ hls -> hl_side h = side /\ i <= hl_line_index h < i + zlen lines) /\
  NoDup (hl_key <$> hls).
Proof.
  revert i hls. induction lines as [|l lines IH]; intros i [|h hls] Ha; try done.
  - split; [intros h Hh; by apply not_elem_of_nil in Hh|constructor].
  - destruct Ha as (<- & <- & _ & Ha). destruct (IH _ _ Ha) as [I1 I2].
    rewrite zlen_cons. pose proof (zlen_nonneg lines). split.
    + intros h' [->|Hh']%elem_of_cons; [split; [done|lia]|]. destruct (I1 _ Hh'). split; [done|lia].
    + rewrite fmap_cons. constructor; [|done]. intros (h' & Hk & Hh')%list_elem_of_fmap.
      destruct (I1 _ Hh') as [_ ?]. unfold hl_key in Hk. injection Hk as _ Hk. lia.
Qed.

Lemma annotated_valid old new side pre lines post hls :
  side_lines old new side = pre ++ lines ++ post -> annotated side (zlen pre) lines hls ->
  Forall (fun h => annotation_valid old new (hl_key h) (hl_ranges h)) hls.
Proof.
  revert pre hls. induction lines as [|l lines IH]; intros pre [|h hls] Hs Ha; try done.
  destruct Ha as (Hside & Hi & Hr & Ha). constructor.
  - exists l. unfold hl_key. cbn [fst snd]. rewrite Hside, Hs, Hi. split; [by rewrite index_get_app|done].
  - apply (IH (pre ++ [l])); [by rewrite Hs, <- app_assoc|].
    by rewrite zlen_app, zlen_cons, zlen_nil, Z.add_0_r.
Qed.

Lemma annotated_plain side i lines hls :
  annotated side i lines hls -> plain hls side i lines = marked_text lines hls.
Proof.
  revert i hls. induction lines as [|l lines IH]; intros i [|h hls] Ha; try done.
  pose proof Ha as (Hs & Hi & _ & Ha'). destruct (annotated_keys _ _ _ _ Ha') as [Hk _].
  cbn [plain marked_text]. change (h :: hls) with ([h] ++ hls). rewrite ranges_of_app.
  rewrite (ranges_of_none hls), app_nil_r.
  2: { intros h' Hh' E. destruct (Hk _ Hh') as [_ ?]. unfold hl_key in E. injection E as _ E. lia. }
  unfold ranges_of at 1. cbn [mbind list_bind].
  rewrite bool_decide_eq_true_2, app_nil_r by (unfold hl_key; by rewrite Hs, Hi). f_equal.
  rewrite <- (IH _ _ Ha'). apply plain_ext. intros x Hx. rewrite ranges_of_app.
  rewrite (ranges_of_none [h]); [done|]. intros h' ->%list_elem_of_singleton E.
  unfold hl_key in E. injection E as _ E. lia.
Qed.

(** * All blocks *)

Section blocks.
Context `{SimilarLaws} (old new : list str).
Context (Hne : Forall (fun l => l <> []) old /\ Forall (fun l => l <> []) new).
Context (Hlines : zlen old <= MAX_LINES /\ zlen new <= MAX_LINES).
Context (Hchars : zlen (concat old) <= MAX_TEXT_BYTES /\ zlen (concat new) <= MAX_TEXT_BYTES).

(** Highlights of the lines from the ends of [po] and [pn] on. *)
Record covers (po ro pn rn : list str) (hls : list SourceLineHighlights) : Prop := {
  cv_valid : Forall (fun h => annotation_valid old new (hl_key h) (hl_ranges h)) hls;
  cv_keys : NoDup (hl_key <$> hls);
  cv_from : forall h, h ∈ hls ->
    match hl_side h with SideBefore => zlen po | SideAfter => zlen pn end <= hl_line_index h;
  cv_plain : plain hls SideBefore (zlen po) ro = plain hls SideAfter (zlen pn) rn;
}.

Lemma covers_nil po pn : covers po [] pn [] [].
Proof. constructor; [constructor|constructor|intros h Hh; by apply not_elem_of_nil in Hh|done]. Qed.

Lemma from_key (po pn : list str) (hls : list SourceLineHighlights) h side x :
  (forall h, h ∈ hls -> match hl_side h with SideBefore => zlen po | SideAfter => zlen pn end <= hl_line_index h) ->
  h ∈ hls -> x < match side with SideBefore => zlen po | SideAfter => zlen pn end -> hl_key h <> (side, x).
Proof. intros Hf Hh Hx E. specialize (Hf _ Hh). unfold hl_key in E. injection E as Es Ex. rewrite Es in Hf. destruct side; lia. Qed.

Lemma covers_equal po ro pn rn os hls :
  covers (po ++ os) ro (pn ++ os) rn hls -> covers po (os ++ ro) pn (os ++ rn) hls.
Proof.
  intros [C1 C2 C3 C4]. rewrite !zlen_app in C4. pose proof (zlen_nonneg os). constructor; try done.
  - intros h Hh. specialize (C3 h Hh). rewrite !zlen_app in C3. destruct (hl_side h); lia.
  - rewrite !plain_app, C4. f_equal.
    rewrite !plain_none; [done|..]; intros h x Hh Hx;
      (eapply from_key; [exact C3|done|]); cbn; rewrite zlen_app; lia.
Qed.

Lemma covers_block po ro pn rn os ns before after hls :
  old = po ++ os ++ ro -> new = pn ++ ns ++ rn ->
  annotated SideBefore (zlen po) os before -> annotated SideAfter (zlen pn) ns after ->
  marked_text os before = marked_text ns after ->
  covers (po ++ os) ro (pn ++ ns) rn hls ->
  covers po (os ++ ro) pn (ns ++ rn) (before ++ after ++ hls).
Proof.
  intros Ho Hn Hb Ha Hm [C1 C2 C3 C4].
  pose proof (annotated_keys _ _ _ _ Hb) as [B1 B2]. pose proof (annotated_keys _ _ _ _ Ha) as [A1 A2].
  pose proof (zlen_nonneg os). pose proof (zlen_nonneg ns).
  assert (Hbs : forall h i, h ∈ before -> hl_key h <> (SideAfter, i))
    by (intros h i Hh E; destruct (B1 h Hh); unfold hl_key in E; congruence).
  assert (Has : forall h i, h ∈ after -> hl_key h <> (SideBefore, i))
    by (intros h i Hh E; destruct (A1 h Hh); unfold hl_key in E; congruence).
  constructor.
  - rewrite !Forall_app. split_and!; [|by eapply (annotated_valid old new SideAfter)|done].
    by eapply (annotated_valid old new SideBefore).
  - rewrite !fmap_app, !NoDup_app. split_and!; try done.
    + intros k (h & -> & Hh)%list_elem_of_fmap [(h' & E & Hh')%list_elem_of_fmap|(h' & E & Hh')%list_elem_of_fmap]%elem_of_app.
      * destruct (A1 _ Hh') as [Es _]. unfold hl_key in E. injection E as E _.
        destruct (B1 _ Hh) as [Eb _]. congruence.
      * destruct (B1 _ Hh) as [Eb Ei]. specialize (C3 _ Hh'). unfold hl_key in E. injection E as E1 E2.
        rewrite <- E1, Eb, zlen_app in C3. lia.
    + intros k (h & -> & Hh)%list_elem_of_fmap (h' & E & Hh')%list_elem_of_fmap.
      destruct (A1 _ Hh) as [Eb Ei]. specialize (C3 _ Hh'). unfold hl_key in E. injection E as E1 E2.
      rewrite <- E1, Eb, zlen_app in C3. lia.
  - intros h Hh. apply elem_of_app in Hh as [Hh|[Hh|Hh]%elem_of_app].
    + destruct (B1 _ Hh) as [-> ?]. lia.
    + destruct (A1 _ Hh) as [-> ?]. lia.
    + specialize (C3 _ Hh). rewrite !zlen_app in C3. destruct (hl_side h); lia.
  - rewrite !plain_app. rewrite zlen_app in C4. rewrite zlen_app in C4. f_equal.
    + rewrite (plain_ext _ before), (plain_ext _ after SideAfter), (annotated_plain _ _ _ _ Hb),
        (annotated_plain _ _ _ _ Ha); [done|..]; intros x Hx; rewrite !ranges_of_app.
      * rewrite (ranges_of_none before) by auto. rewrite (ranges_of_none hls); [by rewrite app_nil_r|].
        intros h Hh. eapply from_key; [exact C3|done|]. cbn. rewrite zlen_app. lia.
      * rewrite (ranges_of_none after) by auto. rewrite (ranges_of_none hls); [by rewrite !app_nil_r|].
        intros h Hh. eapply from_key; [exact C3|done|]. cbn. rewrite zlen_app. lia.
    + rewrite (plain_ext _ hls), (plain_ext _ hls SideAfter); [done|..]; intros x Hx; rewrite !ranges_of_app.
      * rewrite (ranges_of_none before) by auto. rewrite (ranges_of_none after); [done|].
        intros h Hh E. destruct (A1 _ Hh) as [_ ?]. unfold hl_key in E. injection E as _ E. lia.
      * rewrite (ranges_of_none after) by auto. rewrite (ranges_of_none before); [done|].
        intros h Hh E. destruct (B1 _ Hh) as [_ ?]. unfold hl_key in E. injection E as _ E. lia.
Qed.

(** The block of operations up to the next [Equal] one *)
Lemma take_block_spec po ro pn rn ops :
  old = po ++ ro -> new = pn ++ rn -> chained (zlen po) (zlen pn) ops (zlen old) (zlen new) ->
  Forall (op_valid old new) ops ->
  exists os ns ro' rn' rest, ro = os ++ ro' /\ rn = ns ++ rn' /\
    take_block (zlen po) (zlen pn) ops = (zlen (po ++ os), zlen (pn ++ ns), rest) /\
    chained (zlen (po ++ os)) (zlen (pn ++ ns)) rest (zlen old) (zlen new) /\
    Forall (op_valid old new) rest /\ (length rest <= length ops)%nat /\
    (forall op l, ops = op :: l -> op_tag op <> DEqual -> (length rest < length ops)%nat).
Proof.
  intros Ho Hn Hch Hv. revert po ro pn rn Ho Hn Hch.
  induction Hv as [|op ops Hop Hv IH]; intros po ro pn rn Ho Hn Hch; cbn [take_block].
  - exists [], [], ro, rn, []. rewrite !app_nil_r. split_and!; try done.
  - destruct (bool_decide_reflect (op_tag op = DEqual)) as [Ht|Ht].
    + exists [], [], ro, rn, (op :: ops). rewrite !app_nil_r. split_and!; try done; [by constructor|].
      intros ? ? [= <- _]. done.
    + destruct Hch as (Hs1 & Hs2 & Hch). destruct Hop as (os & ns & Eo & En & _).
      rewrite Ho, Hs1 in Eo. rewrite Hn, Hs2 in En.
      apply slice_get_app in Eo as [Eo [ro' ->]]. apply slice_get_app in En as [En [rn' ->]].
      rewrite <- zlen_app in Eo, En. rewrite Eo, En in *. rewrite app_assoc in Ho, Hn.
      destruct (IH _ _ _ _ Ho Hn Hch) as (os' & ns' & ro'' & rn'' & rest & -> & -> & -> & ? & ? & ? & _).
      exists (os ++ os'), (ns ++ ns'), ro'', rn'', rest. rewrite !app_assoc.
      split_and!; try done; [simpl; lia|intros; simpl; lia].
Qed.

Lemma piece_bounds (whole pre mid post : list str) :
  whole = pre ++ mid ++ post -> Forall (fun l => l <> []) whole -> zlen whole <= MAX_LINES ->
  zlen (concat whole) <= MAX_TEXT_BYTES ->
  Forall (fun l => l <> []) mid /\ 0 + zlen (concat mid) < 2 ^ 32 /\ 0 <= zlen pre + 0 /\
  zlen pre + 0 + zlen mid <= 2 ^ 32.
Proof.
  intros -> Hf Hl Hc. rewrite !Forall_app in Hf. rewrite !zlen_app in Hl.
  rewrite !concat_app, !zlen_app in Hc. unfold MAX_LINES, MAX_TEXT_BYTES in *.
  pose proof (zlen_nonneg pre). pose proof (zlen_nonneg mid). pose proof (zlen_nonneg post).
  pose proof (zlen_nonneg (concat pre)). pose proof (zlen_nonneg (concat mid)). pose proof (zlen_nonneg (concat post)).
  split_and!; [tauto|lia..].
Qed.

Lemma annotate_block_spec po os ro pn ns rn output count :
  old = po ++ os ++ ro -> new = pn ++ ns ++ rn ->
  match annotate_block old new output count (zlen po) (zlen (po ++ os)) (zlen pn) (zlen (pn ++ ns)) with
  | Ok (output', count') => exists before after, output' = output ++ before ++ after /\
      annotated SideBefore (zlen po) os before /\ annotated SideAfter (zlen pn) ns after /\
      marked_text os before = marked_text ns after /\
      total_ranges (before ++ after) <= count' - count /\
      (count <= MAX_INLINE_RANGES -> count' <= MAX_INLINE_RANGES)
  | Err e => e = Error ResourceLimit
  end.
Proof.
  intros Ho Hn. unfold annotate_block.
  assert (slice_get old (zlen po) (zlen (po ++ os)) = Some os) as ->
    by (rewrite Ho; apply slice_get_app; rewrite zlen_app; split; [done|by eexists]).
  assert (slice_get new (zlen pn) (zlen (pn ++ ns)) = Some ns) as ->
    by (rewrite Hn; apply slice_get_app; rewrite zlen_app; split; [done|by eexists]).
  destruct Hne, Hlines, Hchars.
  destruct (piece_bounds old po os ro) as (P1 & P2 & P3 & P4); [done..|].
  destruct (piece_bounds new pn ns rn) as (Q1 & Q2 & Q3 & Q4); [done..|].
  destruct (char_ops_edit (concat os) (concat ns)) as [Cv Cc].
  destruct (char_changes (char_ops (concat os) (concat ns)) [] (concat os) [] (concat ns)
    (concat os) (concat ns) eq_refl eq_refl Cc Cv) as (O1 & O2 & O3).
  pose proof (annotate_lines_spec output SideBefore (zlen po) 0 os 0 _ _ count P1 ltac:(lia) P2 P3 P4 O1) as R1.
  destruct (Compute.annotate _ _ _ _ _ _ _ _) as [[o1 c1]|]; [|done].
  destruct R1 as (before & -> & B1 & B2 & B3 & B4). cbn zeta.
  pose proof (annotate_lines_spec (output ++ before) SideAfter (zlen pn) 0 ns 0 _ _ c1 Q1 ltac:(lia) Q2 Q3 Q4 O2) as R2.
  destruct (Compute.annotate _ _ _ _ _ _ _ _) as [[o2 c2]|]; [|done].
  destruct R2 as (after & -> & A1 & A2 & A3 & A4). rewrite Z.add_0_r in *.
  exists before, after. rewrite total_ranges_app. split_and!; try done.
  - by rewrite app_assoc.
  - rewrite A2, B2. done.
  - lia.
  - auto.
Qed.

Lemma annotate_blocks_spec fuel po ro pn rn ops output count :
  old = po ++ ro -> new = pn ++ rn -> chained (zlen po) (zlen pn) ops (zlen old) (zlen new) ->
  Forall (op_valid old new) ops -> (length ops <= fuel)%nat -> count <= MAX_INLINE_RANGES ->
  match annotate_blocks old new fuel ops output count with
  | Ok output' => exists hls, output' = output ++ hls /\ covers po ro pn rn hls /\
      total_ranges hls <= MAX_INLINE_RANGES - count
  | Err e => e = Error ResourceLimit
  end.
Proof.
  revert po ro pn rn ops output count. induction fuel as [|fuel IH];
    intros po ro pn rn ops output count Ho Hn Hch Hv Hf Hc; (destruct ops as [|op ops]; [|]).
  1,3: destruct Hch as [Hlo Hln]; rewrite Ho, zlen_app in Hlo; rewrite Hn, zlen_app in Hln;
    assert (ro = []) as -> by (apply zlen_zero; lia); assert (rn = []) as -> by (apply zlen_zero; lia);
    exists []; rewrite app_nil_r; split_and!; [done|apply covers_nil|change (total_ranges []) with 0; lia].
  { simpl in Hf. lia. }
  cbn [annotate_blocks]. destruct (bool_decide_reflect (op_tag op = DEqual)) as [Ht|Ht].
  - apply Forall_cons in Hv as [(os & ns & Eo & En & Htag) Hv]. destruct Hch as (Hs1 & Hs2 & Hch).
    rewrite Ht in Htag. subst ns. rewrite Ho, Hs1 in Eo. rewrite Hn, Hs2 in En.
    apply slice_get_app in Eo as [Eo [ro' ->]]. apply slice_get_app in En as [En [rn' ->]].
    rewrite <- zlen_app in Eo, En. rewrite Eo, En in Hch. rewrite app_assoc in Ho, Hn.
    specialize (IH _ _ _ _ ops output count Ho Hn Hch Hv ltac:(simpl in Hf; lia) Hc).
    destruct (annotate_blocks _ _ fuel ops output count) as [o|]; [|done].
    destruct IH as (hls & ? & ? & ?). exists hls. split_and!; try done. by apply covers_equal.
  - destruct (take_block_spec po ro pn rn (op :: ops) Ho Hn Hch Hv)
      as (os & ns & ro' & rn' & rest & -> & -> & Htb & Hch' & Hv' & _ & Hlt).
    specialize (Hlt _ _ eq_refl Ht). destruct Hch as (Hs1 & Hs2 & _). rewrite Hs1, Hs2, Htb.
    pose proof (annotate_block_spec po os ro' pn ns rn' output count Ho Hn) as R.
    destruct (annotate_block _ _ _ _ _ _ _ _) as [[o1 c1]|]; [|done].
    destruct R as (before & after & -> & B & A & M & T & Cn).
    assert (Ho' := Ho). assert (Hn' := Hn). rewrite app_assoc in Ho', Hn'.
    specialize (IH _ _ _ _ rest (output ++ before ++ after) c1 Ho' Hn' Hch' Hv' ltac:(simpl in *; lia) (Cn Hc)).
    destruct (annotate_blocks _ _ fuel rest _ c1) as [o|]; [|done].
    destruct IH as (hls & -> & Hcov & Htot). exists (before ++ after ++ hls). split_and!.
    + by rewrite <- !app_assoc.
    + by apply covers_block.
    + rewrite app_assoc, total_ranges_app. lia.
Qed.
End blocks.

Lemma slice_get_whole {A} (l r : list A) : slice_get l 0 (zlen l) = Some r -> r = l.
Proof.
  intros Hs. change l with ([] ++ l) in Hs at 1. change 0 with (zlen (@nil A)) in Hs.
  apply slice_get_app in Hs as [Hl [r' ->]]. rewrite zlen_app, zlen_nil in Hl.
  assert (r' = []) as -> by (apply zlen_zero; lia). by rewrite app_nil_r.
Qed.

Lemma valid_text_bounds text : validate_text text = Ok tt ->
  Forall (fun l => l <> []) (split_inclusive text) /\ zlen (split_inclusive text) <= MAX_LINES /\
  zlen (concat (split_inclusive text)) <= MAX_TEXT_BYTES.
Proof.
  intros (H1 & _ & H3 & _)%validate_text_ok. rewrite concat_split_inclusive.
  pose proof (slen_ge_length text). split_and!; [|done|lia].
  by apply proper_lines_no_empty, split_inclusive_proper.
Qed.

(** Every answer of the engine *)
Lemma compare_answer `{SimilarLaws} before after :
  match compare before after with
  | Ok d =>
    let old := split_inclusive before in
    let new := split_inclusive after in
    Forall (fun h => annotation_valid old new (hl_key h) (hl_ranges h)) (cd_inline_changes d) /\
    NoDup (hl_key <$> cd_inline_changes d) /\
    total_ranges (cd_inline_changes d) <= MAX_INLINE_RANGES /\
    plain (cd_inline_changes d) SideBefore 0 old = plain (cd_inline_changes d) SideAfter 0 new
  | Err e => e = Error InvalidInput \/ e = Error ResourceLimit
  end.
Proof.
  destruct (compare before after) as [d|e] eqn:E.
  - apply compare_ok in E as (Hvb & Hva & Hd). cbn zeta in Hd |- *.
    apply valid_text_bounds in Hvb as (B1 & B2 & B3), Hva as (A1 & A2 & A3).
    destruct Hd as [[Hg ->]|(_ & _ & _ & Han)].
    + pose proof (grouped_ops_clusters (split_inclusive before) (split_inclusive after) 3 ltac:(lia)) as Hcl.
      rewrite Hg in Hcl. inversion Hcl as [? ? ? rest Eo En|]; subst.
      apply slice_get_whole in Eo, En. cbn [cd_inline_changes].
      split_and!; [constructor|constructor|done|]. rewrite !plain_none.
      * congruence.
      * intros h x Hh. by apply not_elem_of_nil in Hh.
      * intros h x Hh. by apply not_elem_of_nil in Hh.
    + destruct (line_ops_edit (split_inclusive before) (split_inclusive after)) as [Lv Lc].
      pose proof (annotate_blocks_spec _ _ (conj B1 A1) (conj B2 A2) (conj B3 A3)
        (length (line_ops (split_inclusive before) (split_inclusive after))) [] _ [] _
        (line_ops (split_inclusive before) (split_inclusive after)) [] 0 eq_refl eq_refl Lc Lv
        ltac:(lia) ltac:(done)) as R.
      rewrite Han in R. destruct R as (hls & -> & [C1 C2 _ C4] & T). cbn [app] in *.
      split_and!; [done|done|lia|done].
  - unfold compare in E.
    destruct (text_info before _) as [bi|] eqn:Eb; [|apply text_info_error in Eb; cbn in E; left; congruence].
    destruct (text_info after _) as [ai|] eqn:Ea; [|apply text_info_error in Ea; cbn in E; left; congruence].
    cbn [lift_error] in E. apply text_info_validate, valid_text_bounds in Eb as (B1 & B2 & B3), Ea as (A1 & A2 & A3).
    pose proof (grouped_ops_clusters (split_inclusive before) (split_inclusive after) 3 ltac:(lia)) as Hcl.
    destruct (grouped_ops _ _ 3) as [|g gs]; [done|].
    pose proof (append_patch_spec [] (u "--- before" ++ [LF] ++ u "+++ after" ++ [LF])) as Q0.
    destruct (Compute.append _ _) as [p0|]; [|cbn in E; right; congruence]. cbn [lift_error] in E.
    pose proof (append_groups_spec (split_inclusive before) (split_inclusive after) true []
      (split_inclusive before) [] (split_inclusive after) (g :: gs) p0 Hcl eq_refl eq_refl) as Q1.
    destruct (append_groups _ _ _ _) as [p1|]; [|right; congruence].
    destruct (line_ops_edit (split_inclusive before) (split_inclusive after)) as [Lv Lc].
    pose proof (annotate_blocks_spec _ _ (conj B1 A1) (conj B2 A2) (conj B3 A3)
      (length (line_ops (split_inclusive before) (split_inclusive after))) [] _ [] _
      (line_ops (split_inclusive before) (split_inclusive after)) [] 0 eq_refl eq_refl Lc Lv
      ltac:(lia) ltac:(done)) as R.
    destruct (annotate_blocks _ _ _ _ _ _); [done|right; congruence].
Qed.

(** C7. The engine always answers.  Its highlights annotate each line at most
    once, are increasing non-empty ranges inside the line they annotate and at
    most [MAX_INLINE_RANGES] together, and what they leave unmarked is common:
    the unmarked characters of the old text, line by line, are those of the new
    text.  An error means that a text is outside the limits or that a limit of
    the result was reached. *)
Theorem compare_highlights `{SimilarLaws} before after :
  match compare before after with
  | Ok d =>
    let old := split_inclusive before in
    let new := split_inclusive after in
    Forall (fun h => annotation_valid old new (hl_key h) (hl_ranges h)) (cd_inline_changes d) /\
    NoDup (hl_key <$> cd_inline_changes d) /\
    total_ranges (cd_inline_changes d) <= MAX_INLINE_RANGES /\
    plain (cd_inline_changes d) SideBefore 0 old = plain (cd_inline_changes d) SideAfter 0 new
  | Err e => e = Error InvalidInput \/ e = Error ResourceLimit
  end.
Proof. apply compare_answer. Qed.

Lemma compare_highlights_witness :
  exists d, compare sample_before sample_after = Ok d
    /\ length (cd_inline_changes d) = 4%nat
    /\ plain (cd_inline_changes d) SideBefore 0 (split_inclusive sample_before)
       = plain (cd_inline_changes d) SideAfter 0 (split_inclusive sample_after)
    /\ NoDup (hl_key <$> cd_inline_changes d).
Proof.
  pose proof (compare_highlights sample_before sample_after) as Hh.
  destruct (compare sample_before sample_after) as [d|] eqn:E; [|vm_compute in E; discriminate].
  destruct Hh as (_ & Hk & _ & Hp). exists d. split_and!; [reflexivity| |exact Hp|exact Hk].
  clear Hk Hp. vm_compute in E. injection E as <-. reflexivity.
Defined.
