(* ===== verification/Protocol.v ===== *)
(** The private exchange with a comparison worker:
    [crates/adapters/src/text_diff/protocol.rs].  A request and a response are
    one frame each: a magic that includes the version, big-endian lengths, then
    the raw payloads.

    The JSON encoding of the annotations is [serde_json]'s, with its round trip
    as the law of [JsonLaws].  The second part is the parent's side,
    [crates/adapters/src/text_diff.rs]: what a worker process did is a record,
    and [executed] relates it to the results that [execute] may return. *)

From S2P Require Import Prelude Utf8 Strings TextDiff Patch Paging DiffService Compute.

Definition REQUEST_MAGIC : list byte := bytes (u "OLDIFF01").
Definition PATCH_MAGIC : list byte := bytes (u "OLPATC01").
Definition RESPONSE_MAGIC : list byte := bytes (u "OLDIFR01").
Definition MAX_METADATA_BYTES : Z := 8 * 1024 * 1024.

(** [u32::to_be_bytes] and [u32::from_be_bytes] *)
Definition be32 (n : Z) : list byte :=
  [n / 16777216 mod 256; n / 65536 mod 256; n / 256 mod 256; n mod 256].
Definition from_be32 (l : list byte) : Z :=
  match l with [a; b; c; d] => ((a * 256 + b) * 256 + c) * 256 + d | _ => 0 end.

(** [Read::read_exact]: the bytes and what is behind them. *)
Definition read_exact (n : Z) (l : list byte) : option (list byte * list byte) :=
  if zlen l <? n then None else Some (take (Z.to_nat n) l, drop (Z.to_nat n) l).

(** * Requests *)

Definition request_header (before after : Z) : result TextDiffError (list byte) :=
  if (MAX_TEXT_BYTES <? before) || (MAX_TEXT_BYTES <? after) then Err InvalidInput
  else Ok (REQUEST_MAGIC ++ be32 (as_u32 before) ++ be32 (as_u32 after)).

Definition patch_request_header (target patch : Z) : result TextDiffError (list byte) :=
  if (MAX_TEXT_BYTES <? target) || (MAX_PATCH_BYTES <? patch) then Err InvalidInput
  else Ok (PATCH_MAGIC ++ be32 (as_u32 target) ++ be32 (as_u32 patch)).

Definition read_u32 (l : list byte) : result TextDiffError (Z * list byte) :=
  match read_exact 4 l with
  | None => Err InvalidInput
  | Some (b, l) => Ok (from_be32 b, l)
  end.

(** A worker's request: whether it is a patch, and its two texts. *)
Definition request (l : list byte) : result TextDiffError (bool * str * str) :=
  let? (magic, l) := ok_or (read_exact 8 l) InvalidInput in
  if negb (bool_decide (magic = REQUEST_MAGIC)) && negb (bool_decide (magic = PATCH_MAGIC))
  then Err InvalidInput else
  let? (before_len, l) := read_u32 l in
  let? (after_len, l) := read_u32 l in
  if (MAX_TEXT_BYTES <? before_len)
    || ((if bool_decide (magic = PATCH_MAGIC) then MAX_PATCH_BYTES else MAX_TEXT_BYTES) <? after_len)
  then Err InvalidInput else
  let? (before, l) := ok_or (read_exact before_len l) InvalidInput in
  let? (after, l) := ok_or (read_exact after_len l) InvalidInput in
  if negb (bool_decide (l = [])) then Err InvalidInput else
  let? before := ok_or (from_utf8 before) InvalidInput in
  let? after := ok_or (from_utf8 after) InvalidInput in
  Ok (bool_decide (magic = PATCH_MAGIC), before, after).

(** * Responses *)

Class Json := {
  (** the writes of [serde_json::to_writer], in their order *)
  json_writes : list SourceLineHighlights -> list (list byte);
  (** [serde_json::from_slice] *)
  json_read : list byte -> option (list SourceLineHighlights);
}.

(** The fields are [u32]. *)
Definition u32 (n : Z) : Prop := 0 <= n < 2 ^ 32.
Definition highlight_u32 (h : SourceLineHighlights) : Prop :=
  u32 (hl_line_index h) /\ Forall (fun r => u32 r.1 /\ u32 r.2) (hl_ranges h).

Class JsonLaws `{Json} := {
  json_roundtrip x : Forall highlight_u32 x -> json_read (concat (json_writes x)) = Some x;
  json_empty : concat (json_writes []) = bytes (u "[]");
}.

(** [CappedMetadata::write] over the writes: one that does not fit fails. *)
Fixpoint capped (stored : list byte) (writes : list (list byte)) : option (list byte) :=
  match writes with
  | [] => Some stored
  | b :: writes =>
    if MAX_METADATA_BYTES <? saturating_add (zlen stored) (zlen b) then None
    else capped (stored ++ b) writes
  end.

Definition status_of (e : TextDiffError) : Z :=
  match e with InvalidInput => 1 | ResourceLimit => 2 | PatchConflict => 4 | _ => 3 end.

Section protocol.
Context `{Json} `{Similar}.

(** The frame that [write_response] writes. *)
Definition response_frame (status : Z) (patch metadata : list byte) : list byte :=
  RESPONSE_MAGIC ++ be32 status ++ be32 (as_u32 (zlen patch)) ++ be32 (as_u32 (zlen metadata))
    ++ patch ++ metadata.

Definition write_response (r : result TextDiffError ComputedDiff) : list byte :=
  let r :=
    match r with
    | Err e => Err e
    | Ok diff =>
      let? metadata := ok_or (capped [] (json_writes (cd_inline_changes diff))) ResourceLimit in
      Ok (bytes (cd_patch diff), metadata)
    end in
  match r with
  | Ok (patch, metadata) => response_frame 0 patch metadata
  | Err e => response_frame (status_of e) [] []
  end.

(** What the worker computes: a comparison, or a patch applied to a text. *)
Definition work (patch : bool) (before after : str) : result (stop TextDiffError) ComputedDiff :=
  if patch then
    let? text := apply_patch before after in
    Ok {| cd_patch := text; cd_inline_changes := [] |}
  else compare before after.

(** [run]: the response to the bytes of a request; a panic leaves none. *)
Definition run (l : list byte) : result (stop TextDiffError) (list byte) :=
  match request l with
  | Err e => Ok (write_response (Err e))
  | Ok (patch, before, after) =>
    match work patch before after with
    | Ok diff => Ok (write_response (Ok diff))
    | Err (Error e) => Ok (write_response (Err e))
    | Err Panic => Err Panic
    | Err OutOfFuel => Err OutOfFuel
    end
  end.

Definition read_response (l : list byte) : result TextDiffError ComputedDiff :=
  let? (header, l) := ok_or (read_exact 20 l) Unavailable in
  if negb (bool_decide (take 8 header = RESPONSE_MAGIC)) then Err Unavailable else
  let status := from_be32 (take 4 (drop 8 header)) in
  let patch_len := from_be32 (take 4 (drop 12 header)) in
  let metadata_len := from_be32 (take 4 (drop 16 header)) in
  if (MAX_PATCH_BYTES <? patch_len) || (MAX_METADATA_BYTES <? metadata_len) then Err ResourceLimit
  else if (4 <? status)
    || (negb (status =? 0) && (negb (patch_len =? 0) || negb (metadata_len =? 0)))
  then Err Unavailable else
  let? (patch, l) := ok_or (read_exact patch_len l) Unavailable in
  let? (metadata, l) := ok_or (read_exact metadata_len l) Unavailable in
  if negb (bool_decide (l = [])) then Err Unavailable
  else if status =? 0 then
    let? patch := ok_or (from_utf8 patch) Unavailable in
    let? inline_changes := ok_or (json_read metadata) Unavailable in
    Ok {| cd_patch := patch; cd_inline_changes := inline_changes |}
  else if status =? 1 then Err InvalidInput
  else if status =? 2 then Err ResourceLimit
  else if status =? 4 then Err PatchConflict
  else Err Internal.

(** * The parent's side *)

Definition MAX_STDERR_BYTES : Z := 8 * 1024.

(** What happened to one worker process. *)
Record Worker := {
  (** the command could be spawned *)
  wk_spawned : bool;
  (** the request was written to its standard input and closed *)
  wk_writes : bool;
  (** what it put out, and the bytes on its standard error, unless reading fails *)
  wk_stdout : list byte;
  wk_stderr : option Z;
  (** [child.wait]: a status, and whether it is success *)
  wk_exit : option bool;
  (** the cancellation or the deadline came before the exchange ended *)
  wk_stopped : bool;
  (** waiting for a killed child succeeds *)
  wk_reaped : bool;
}.

Definition request_bytes (patch : bool) (before after : str) : result TextDiffError (list byte) :=
  let? header := if patch then patch_request_header (slen before) (slen after)
                 else request_header (slen before) (slen after) in
  Ok (header ++ bytes before ++ bytes after).

(** [capped_read] *)
Definition capped_read (read : option Z) (cap : Z) : result TextDiffError Z :=
  let? n := ok_or read Unavailable in if cap <? n then Err ResourceLimit else Ok n.

Definition error_of {A} (r : result TextDiffError A) : list TextDiffError :=
  match r with Ok _ => [] | Err e => [e] end.

(** The errors of the four futures of [try_join!]. *)
Definition failures (w : Worker) (patch : bool) (before after : str) : list TextDiffError :=
  error_of (let? _ := request_bytes patch before after in
            if wk_writes w then Ok tt else Err Unavailable)
  ++ error_of (read_response (wk_stdout w))
  ++ error_of (capped_read (wk_stderr w) MAX_STDERR_BYTES)
  ++ error_of (ok_or (wk_exit w) Unavailable).

(** Any of several errors may be the first that [try_join!] sees; a child that
    is not reaped after an error is [Internal]. *)
Inductive executed (w : Worker) (patch : bool) (before after : str)
  : result TextDiffError ComputedDiff -> Prop :=
| executed_unspawned :
    wk_spawned w = false -> executed w patch before after (Err Unavailable)
| executed_stopped :
    wk_spawned w = true -> wk_stopped w = true ->
    executed w patch before after (Err (if wk_reaped w then Cancelled else Internal))
| executed_failed e :
    wk_spawned w = true -> wk_stopped w = false -> e ∈ failures w patch before after ->
    executed w patch before after (Err (if wk_reaped w then e else Internal))
| executed_unsuccessful d :
    wk_spawned w = true -> wk_stopped w = false -> failures w patch before after = [] ->
    read_response (wk_stdout w) = Ok d -> wk_exit w = Some false ->
    executed w patch before after (Err (if wk_reaped w then Unavailable else Internal))
| executed_done d :
    wk_spawned w = true -> wk_stopped w = false -> failures w patch before after = [] ->
    read_response (wk_stdout w) = Ok d -> wk_exit w = Some true ->
    executed w patch before after (Ok d).

(** [SimilarDiffEngine::diff], [late] when the caller cancelled or the deadline
    has passed before the start. *)
Inductive engine_diff (w : Worker) (late : bool) (before after : str)
  : result TextDiffError ComputedDiff -> Prop :=
| diff_late : late = true -> engine_diff w late before after (Err Cancelled)
| diff_invalid e :
    late = false ->
    (let? _ := text_info before (u "Before") in text_info after (u "After")) = Err e ->
    engine_diff w late before after (Err e)
| diff_executed i r :
    late = false ->
    (let? _ := text_info before (u "Before") in text_info after (u "After")) = Ok i ->
    executed w false before after r -> engine_diff w late before after r.

(** [SimilarDiffEngine::apply_patch]: the checks before and after the exchange *)
Definition apply_admitted (target patch : str) : result TextDiffError unit :=
  let? _ := text_info target (u "Target") in
  if (MAX_PATCH_BYTES <? slen patch) || contains_char 0 patch then Err InvalidInput else Ok tt.

Definition apply_result (d : ComputedDiff) : result TextDiffError str :=
  if negb (bool_decide (length (cd_inline_changes d) = 0%nat)) then Err Unavailable else
  let? _ := text_info (cd_patch d) (u "Result") in Ok (cd_patch d).

Inductive engine_apply (w : Worker) (late : bool) (target patch : str)
  : result TextDiffError str -> Prop :=
| apply_late : late = true -> engine_apply w late target patch (Err Cancelled)
| apply_invalid e :
    late = false -> apply_admitted target patch = Err e -> engine_apply w late target patch (Err e)
| apply_executed r :
    late = false -> apply_admitted target patch = Ok tt -> executed w true target patch r ->
    engine_apply w late target patch (let? d := r in apply_result d).
End protocol.
