(* ===== verification/ProtocolFacts.v ===== *)
(** The exchange with a comparison worker: what the parent reads is what the
    worker computed, and nothing that the transport does to the bytes makes a
    wrong answer of it. *)

From S2P Require Import Prelude Utf8 Strings TextDiff Patch PatchFacts PatchChars Paging PagingFacts DiffService DiffFacts Compute ComputePatch ComputeFacts ComputeHighlights Protocol.

(** * Bytes *)

Lemma be32_length n : zlen (be32 n) = 4.
Proof. done. Qed.

Lemma from_be32_be32 n : u32 n -> from_be32 (be32 n) = n.
Proof. unfold u32, from_be32, be32. intros Hn. dlia. Qed.

Lemma as_u32_small n : u32 n -> as_u32 n = n.
Proof. unfold u32, as_u32. intros. by apply Z.mod_small. Qed.

Lemma read_exact_app n l r : zlen l = n -> read_exact n (l ++ r) = Some (l, r).
Proof.
  intros <-. unfold read_exact. rewrite zlen_app. pose proof (zlen_nonneg r).
  rewrite (proj2 (Z.ltb_ge _ _)) by lia. unfold zlen. rewrite Nat2Z.id.
  by rewrite take_app_length, drop_app_length.
Qed.

Lemma read_exact_all l : read_exact (zlen l) l = Some (l, []).
Proof. rewrite <- (app_nil_r l) at 2. by apply read_exact_app. Qed.

Lemma read_exact_Some n l a r : read_exact n l = Some (a, r) -> 0 <= n -> l = a ++ r /\ zlen a = n.
Proof.
  unfold read_exact. destruct (Z.ltb_spec (zlen l) n); [done|]. intros [= <- <-] Hn.
  split; [by rewrite take_drop|]. unfold zlen in *. rewrite length_take. lia.
Qed.

Lemma read_exact_short n l : zlen l < n -> read_exact n l = None.
Proof. intros Hl. unfold read_exact. by rewrite (proj2 (Z.ltb_lt _ _)). Qed.

(** * Responses *)

Section responses.
Context `{JsonLaws}.

Lemma capped_spec stored writes :
  zlen stored <= MAX_METADATA_BYTES ->
  capped stored writes =
    if zlen (stored ++ concat writes) <=? MAX_METADATA_BYTES then Some (stored ++ concat writes) else None.
Proof.
  revert stored. induction writes as [|b writes IH]; intros stored Hs; cbn [capped concat].
  - by rewrite app_nil_r, (proj2 (Z.leb_le _ _)).
  - assert (MAX_METADATA_BYTES < usize_max) by done. unfold saturating_add.
    pose proof (zlen_nonneg (concat writes)).
    destruct (Z.ltb_spec MAX_METADATA_BYTES (Z.min (zlen stored + zlen b) usize_max)).
    + rewrite (proj2 (Z.leb_gt _ _)); [done|]. rewrite !zlen_app. lia.
    + rewrite IH by (rewrite zlen_app; lia). by rewrite <- app_assoc.
Qed.

(** What the parent makes of the worker's result. *)
Definition client_view (r : result TextDiffError ComputedDiff) : result TextDiffError ComputedDiff :=
  match r with
  | Ok d =>
    if zlen (concat (json_writes (cd_inline_changes d))) <=? MAX_METADATA_BYTES then Ok d
    else Err ResourceLimit
  | Err InvalidInput => Err InvalidInput
  | Err ResourceLimit => Err ResourceLimit
  | Err PatchConflict => Err PatchConflict
  | Err _ => Err Internal
  end.

(** A result that [write_response] can frame. *)
Definition framable (d : ComputedDiff) : Prop :=
  Forall scalar (cd_patch d) /\ slen (cd_patch d) <= MAX_PATCH_BYTES /\
  Forall highlight_u32 (cd_inline_changes d).

Lemma frame_fields status patch metadata :
  let frame := response_frame status patch metadata in
  exists header, frame = header ++ patch ++ metadata /\ zlen header = 20 /\
    take 8 header = RESPONSE_MAGIC /\ take 4 (drop 8 header) = be32 status /\
    take 4 (drop 12 header) = be32 (as_u32 (zlen patch)) /\
    take 4 (drop 16 header) = be32 (as_u32 (zlen metadata)).
Proof.
  cbn zeta. exists (RESPONSE_MAGIC ++ be32 status ++ be32 (as_u32 (zlen patch)) ++ be32 (as_u32 (zlen metadata))).
  unfold response_frame. split; [by rewrite <- !app_assoc|].
  assert (exists a b c d e f g h, RESPONSE_MAGIC = [a; b; c; d; e; f; g; h]) as (a & b & c & d & e & f & g & h & ->)
    by (vm_compute; repeat eexists).
  unfold be32. by split_and!.
Qed.

(** What follows the header of a frame *)
Definition read_body (status patch_len metadata_len : Z) (l : list byte) : result TextDiffError ComputedDiff :=
  let? (patch, l) := ok_or (read_exact patch_len l) Unavailable in
  let? (metadata, l) := ok_or (read_exact metadata_len l) Unavailable in
  if negb (bool_decide (l = [])) then Err Unavailable
  else if status =? 0 then
    let? patch := ok_or (from_utf8 patch) Unavailable in
    let? inline_changes := ok_or (json_read metadata) Unavailable in
    Ok {| cd_patch := patch; cd_inline_changes := inline_changes |}
  else if status =? 1 then Err InvalidInput
  else if status =? 2 then Err ResourceLimit
  else if status =? 4 then Err PatchConflict
  else Err Internal.

Lemma read_header (header : list byte) status (patch metadata l : list byte) :
  zlen header = 20 -> take 8 header = RESPONSE_MAGIC -> take 4 (drop 8 header) = be32 status ->
  take 4 (drop 12 header) = be32 (as_u32 (zlen patch)) ->
  take 4 (drop 16 header) = be32 (as_u32 (zlen metadata)) ->
  0 <= status <= 4 -> zlen patch <= MAX_PATCH_BYTES -> zlen metadata <= MAX_METADATA_BYTES ->
  (status <> 0 -> patch = [] /\ metadata = []) ->
  read_response (header ++ l) = read_body status (zlen patch) (zlen metadata) l.
Proof.
  intros Hlen Hm Hs Hp Hd Hst Hpl Hml Herr. unfold read_response.
  rewrite read_exact_app by done. cbn [ok_or].
  rewrite Hm, Hs, Hp, Hd, bool_decide_eq_true_2 by done. cbn [negb].
  pose proof (zlen_nonneg patch). pose proof (zlen_nonneg metadata).
  assert (u32 status) by (unfold u32; lia).
  assert (u32 (zlen patch)) by (unfold u32, MAX_PATCH_BYTES in *; lia).
  assert (u32 (zlen metadata)) by (unfold u32, MAX_METADATA_BYTES in *; lia).
  rewrite (as_u32_small (zlen patch)), (as_u32_small (zlen metadata)), !from_be32_be32 by done.
  rewrite (proj2 (Z.ltb_ge MAX_PATCH_BYTES _)), (proj2 (Z.ltb_ge MAX_METADATA_BYTES _)) by done. cbn [orb].
  rewrite (proj2 (Z.ltb_ge 4 _)) by lia. cbn [orb].
  destruct (Z.eqb_spec status 0) as [->|Hn]; [done|]. destruct (Herr Hn) as [-> ->].
  unfold read_body. rewrite (proj2 (Z.eqb_neq _ _) Hn). reflexivity.
Qed.

Section frame.
Context (status : Z) (patch metadata : list byte).
Context (Hst : 0 <= status <= 4) (Hp : zlen patch <= MAX_PATCH_BYTES) (Hm : zlen metadata <= MAX_METADATA_BYTES).
Context (Herr : status <> 0 -> patch = [] /\ metadata = []).

(** A complete frame is read back. *)
Lemma read_frame :
  read_response (response_frame status patch metadata) =
    if status =? 0 then
      let? patch := ok_or (from_utf8 patch) Unavailable in
      let? inline_changes := ok_or (json_read metadata) Unavailable in
      Ok {| cd_patch := patch; cd_inline_changes := inline_changes |}
    else if status =? 1 then Err InvalidInput
    else if status =? 2 then Err ResourceLimit
    else if status =? 4 then Err PatchConflict
    else Err Internal.
Proof.
  destruct (frame_fields status patch metadata) as (header & -> & H20 & F1 & F2 & F3 & F4).
  rewrite (read_header header status patch metadata) by done. unfold read_body.
  rewrite read_exact_app by done. cbn [ok_or].
  rewrite read_exact_all. done.
Qed.

(** A frame cut short is refused. *)
Lemma read_truncated l :
  l `prefix_of` response_frame status patch metadata -> l <> response_frame status patch metadata ->
  exists e, read_response l = Err e.
Proof.
  destruct (frame_fields status patch metadata) as (header & -> & H20 & F1 & F2 & F3 & F4).
  intros [k Hk] Hne. assert (Hkn : k <> []) by (intros ->; apply Hne; by rewrite app_nil_r in Hk).
  assert (Hpos : 0 < zlen k) by (destruct k; [done|rewrite zlen_cons; pose proof (zlen_nonneg k); lia]).
  destruct (Z_lt_le_dec (zlen l) 20) as [Hl|Hl].
  { exists Unavailable. unfold read_response. by rewrite read_exact_short. }
  assert (exists l', l = header ++ l' /\ patch ++ metadata = l' ++ k) as (l' & -> & Hrest).
  { exists (drop (length header) l). assert (Hle : (length header <= length l)%nat) by (unfold zlen in *; lia).
    assert (take (length header) l = header) as Ht.
    { apply (f_equal (take (length header))) in Hk. rewrite take_app_length, take_app_le in Hk by done. done. }
    split; [by rewrite <- Ht at 1; rewrite take_drop|].
    apply (f_equal (drop (length header))) in Hk. by rewrite drop_app_length, drop_app_le in Hk. }
  rewrite (read_header header status patch metadata) by done. unfold read_body.
  apply (f_equal zlen) in Hrest. rewrite !zlen_app in Hrest.
  destruct (read_exact (zlen patch) l') as [[a r]|] eqn:E; cbn [ok_or]; [|by exists Unavailable].
  apply read_exact_Some in E as [-> Ha]; [|apply zlen_nonneg]. rewrite zlen_app in Hrest.
  rewrite read_exact_short; [by exists Unavailable|lia].
Qed.
End frame.

Lemma bytes_scalar s : Forall scalar s -> from_utf8 (bytes s) = Some s.
Proof. apply from_utf8_bytes. Qed.

(** The worker's answer, whole and cut short. *)
Lemma response_read r :
  match r with Ok d => framable d | Err _ => True end ->
  read_response (write_response r) = client_view r /\
  (forall l, l `prefix_of` write_response r -> l <> write_response r -> exists e, read_response l = Err e).
Proof.
  intros Hr. assert (Herror : forall e,
    read_response (response_frame (status_of e) [] []) = client_view (Err e) /\
    (forall l, l `prefix_of` response_frame (status_of e) [] [] -> l <> response_frame (status_of e) [] [] ->
      exists e, read_response l = Err e)).
  { intros e. assert (0 <= status_of e <= 4 /\ status_of e <> 0) as [Hs Hn] by (by destruct e).
    split; [|intros l; by apply read_truncated].
    rewrite read_frame by done. by destruct e. }
  destruct r as [d|e]; [|apply Herror]. destruct Hr as (Hs & Hp & Hu). unfold write_response.
  rewrite capped_spec by done. cbn [app client_view].
  destruct (Z.leb_spec (zlen (concat (json_writes (cd_inline_changes d)))) MAX_METADATA_BYTES);
    cbn [ok_or]; [|apply (Herror ResourceLimit)].
  rewrite slen_bytes in Hp. split; [|intros l; by apply read_truncated].
  rewrite read_frame by done. rewrite bytes_scalar, json_roundtrip by done. by destruct d.
Qed.
End responses.

(** * Requests *)

Definition request_magic (patch : bool) : list byte := if patch then PATCH_MAGIC else REQUEST_MAGIC.

Lemma request_magic_facts patch :
  zlen (request_magic patch) = 8 /\
  negb (bool_decide (request_magic patch = REQUEST_MAGIC)) && negb (bool_decide (request_magic patch = PATCH_MAGIC)) = false /\
  bool_decide (request_magic patch = PATCH_MAGIC) = patch.
Proof. by destruct patch. Qed.

Lemma Ok_inj {E A} (a b : A) : @Ok E A a = Ok b -> a = b.
Proof. congruence. Qed.

Lemma request_bytes_ok patch before after input :
  request_bytes patch before after = Ok input ->
  input = request_magic patch ++ be32 (slen before) ++ be32 (slen after) ++ bytes before ++ bytes after /\
  u32 (slen before) /\ u32 (slen after) /\ slen before <= MAX_TEXT_BYTES /\
  slen after <= (if patch then MAX_PATCH_BYTES else MAX_TEXT_BYTES).
Proof.
  unfold request_bytes, patch_request_header, request_header, u32.
  pose proof (slen_nonneg before). pose proof (slen_nonneg after). intros Hi.
  destruct patch; cbn [request_magic];
    (destruct (_ || _) eqn:E; [done|]); bool_hyps; apply Ok_inj in Hi as <-; rewrite <- !app_assoc;
    rewrite !as_u32_small by (unfold u32, MAX_TEXT_BYTES, MAX_PATCH_BYTES in *; lia);
    unfold MAX_TEXT_BYTES, MAX_PATCH_BYTES in *; split_and!; done || lia.
Qed.

Lemma request_roundtrip patch before after input :
  Forall scalar before -> Forall scalar after -> request_bytes patch before after = Ok input ->
  request input = Ok (patch, before, after).
Proof.
  intros Hb Ha (-> & Ub & Ua & Lb & La)%request_bytes_ok.
  destruct (request_magic_facts patch) as (M1 & M2 & M3). unfold request, read_u32.
  rewrite read_exact_app by done. cbn [ok_or]. rewrite M2, M3.
  rewrite !read_exact_app by done. rewrite !from_be32_be32 by done.
  rewrite (proj2 (Z.ltb_ge MAX_TEXT_BYTES _)) by done.
  rewrite (proj2 (Z.ltb_ge (if patch then _ else _) _)) by done. cbn [orb].
  rewrite (slen_bytes before), (slen_bytes after).
  rewrite read_exact_app by done. cbn [ok_or]. rewrite read_exact_all. cbn [ok_or].
  rewrite bool_decide_eq_true_2 by done. cbn [negb].
  by rewrite !from_utf8_bytes.
Qed.

(** A request cut short is refused. *)
Lemma request_truncated patch before after input l :
  request_bytes patch before after = Ok input -> l `prefix_of` input -> l <> input ->
  exists e, request l = Err e.
Proof.
  intros (-> & Ub & Ua & _)%request_bytes_ok [k Hk] Hne.
  assert (Hkn : k <> []) by (intros ->; apply Hne; by rewrite app_nil_r in Hk).
  destruct (request_magic_facts patch) as (M1 & _).
  destruct (request l) as [[[p b] a]|e] eqn:E; [exfalso|by exists e].
  unfold request, read_u32 in E.
  destruct (read_exact 8 l) as [[magic l1]|] eqn:E1; [|done]. cbn [ok_or] in E.
  destruct (_ && _) in E; [done|].
  destruct (read_exact 4 l1) as [[lb l2]|] eqn:E2; [|done].
  destruct (read_exact 4 l2) as [[la l3]|] eqn:E3; [|done].
  apply read_exact_Some in E1 as [-> H8]; [|done]. apply read_exact_Some in E2 as [-> H4]; [|done].
  apply read_exact_Some in E3 as [-> H4']; [|done].
  rewrite <- !app_assoc in Hk.
  apply app_inj_1 in Hk as [<- Hk]; [|unfold zlen in *; lia].
  apply app_inj_1 in Hk as [<- Hk]; [|apply Nat2Z.inj; unfold zlen in *; by rewrite H4].
  apply app_inj_1 in Hk as [<- Hk]; [|apply Nat2Z.inj; unfold zlen in *; by rewrite H4'].
  rewrite !from_be32_be32 in E by done. destruct (_ || _) in E; [done|].
  destruct (read_exact (slen before) l3) as [[x l4]|] eqn:E4; [|done]. cbn [ok_or] in E.
  destruct (read_exact (slen after) l4) as [[y l5]|] eqn:E5; [|done]. cbn [ok_or] in E.
  apply read_exact_Some in E4 as [-> Hx]; [|apply slen_nonneg].
  apply read_exact_Some in E5 as [-> Hy]; [|apply slen_nonneg].
  apply (f_equal zlen) in Hk. rewrite !zlen_app, <- !slen_bytes in Hk.
  pose proof (zlen_nonneg l5). destruct k; [done|]. rewrite zlen_cons in Hk. pose proof (zlen_nonneg k). lia.
Qed.

(** * The worker's computation *)

Section engine.
Context `{JsonLaws} `{SimilarLaws}.

Lemma index_get_bounds (lines : list str) i line :
  index_get lines i = Some line -> 0 <= i < zlen lines /\ zlen line <= zlen (concat lines).
Proof.
  unfold index_get. destruct (Z.leb_spec 0 i); [|done]. intros Hi.
  pose proof (lookup_lt_Some _ _ _ Hi). split; [unfold zlen; lia|].
  apply list_elem_of_split_length in Hi as (l1 & l2 & -> & _).
  rewrite concat_app. cbn [concat]. rewrite !zlen_app.
  pose proof (zlen_nonneg (concat l1)). pose proof (zlen_nonneg (concat l2)). lia.
Qed.

Lemma apply_patch_valid target patch out : apply_patch target patch = Ok out -> validate_text out = Ok tt.
Proof.
  intros E. destruct (decide (patch = [])) as [->|Hne].
  - unfold apply_patch in E. destruct (validate_text target) as [[]|] eqn:Ev; [|done].
    change (@Ok (stop TextDiffError) _ target = Ok out) in E. apply Ok_inj in E as <-. done.
  - apply apply_patch_ok_inv in E as (_ & _ & _ & hs & _ & Hwf & E); [|done].
    by apply apply_parsed_iff in E as (_ & _ & _ & _ & _ & _ & Ev).
Qed.

Lemma work_framable patch before after d :
  Forall scalar before -> Forall scalar after -> work patch before after = Ok d -> framable d.
Proof.
  intros Hb Ha Hw. unfold work in Hw. destruct patch.
  - destruct (apply_patch before after) as [text|] eqn:E; [|done]. injection Hw as <-.
    unfold framable. cbn [cd_patch cd_inline_changes]. split_and!; [exact (apply_patch_chars scalar _ _ _ Hb Ha E)| |constructor].
    assert (slen text <= MAX_TEXT_BYTES); [|unfold MAX_TEXT_BYTES, MAX_PATCH_BYTES in *; lia].
    by apply apply_patch_valid, validate_text_ok in E as [? _].
  - unfold framable. split_and!.
    + eapply compare_patch_chars; [|exact Hb|exact Ha|exact Hw]. intros c Hc. unfold scalar. lia.
    + apply compare_hunks in Hw as (hs & _ & _ & _ & _ & _ & _ & _ & _ & [[_ ->]|(_ & _ & ?)]); [done|done].
    + pose proof (compare_answer before after) as Hc. rewrite Hw in Hc. destruct Hc as (Hv & _).
      apply compare_ok in Hw as (Eb & Ea & _).
      apply valid_text_bounds in Eb as (_ & Lb & Cb), Ea as (_ & La & Ca).
      eapply Forall_impl; [exact Hv|]. intros h (line & Hi & Hr).
      assert (Hin : zlen line <= MAX_TEXT_BYTES /\ 0 <= (hl_key h).2 < MAX_LINES).
      { apply index_get_bounds in Hi as [? ?]. destruct (hl_key h).1; cbn [side_lines] in *; lia. }
      destruct Hin as [Hline Hidx]. split; [unfold u32, MAX_LINES in *; cbn in Hidx; lia|].
      assert (Hall : forall e ranges, 0 <= e -> ranges_in (zlen line) e ranges ->
        Forall (fun r => u32 r.1 /\ u32 r.2) ranges); [|by apply (Hall 0)].
      intros e ranges. revert e. induction ranges as [|[s t] ranges IH]; intros e He Hrs; [constructor|].
      destruct Hrs as (? & ? & ? & Hrs). constructor; [|apply (IH t); [lia|done]].
      cbn. unfold u32, MAX_TEXT_BYTES in *. lia.
Qed.

(** The result of [work] as an ordinary result: a worker that panics has none. *)
Definition work_result (patch : bool) (before after : str) : option (result TextDiffError ComputedDiff) :=
  match work patch before after with
  | Ok d => Some (Ok d)
  | Err (Error e) => Some (Err e)
  | Err _ => None
  end.

Lemma result_framable patch before after r :
  Forall scalar before -> Forall scalar after -> work_result patch before after = Some r ->
  match r with Ok d => framable d | Err _ => True end.
Proof.
  intros Hb Ha Hr. destruct r as [d|]; [|done]. unfold work_result in Hr.
  destruct (work patch before after) as [d'|[]] eqn:E; try done. assert (d' = d) as -> by congruence.
  exact (work_framable _ _ _ _ Hb Ha E).
Qed.

Lemma work_answers patch before after : exists r, work_result patch before after = Some r.
Proof.
  unfold work_result, work. destruct patch.
  - pose proof (apply_patch_total before after) as Ht. destruct (apply_patch before after) as [t|[]]; [eauto..|done|done].
  - pose proof (compare_answer before after) as Hc. destruct (compare before after) as [d|e]; [eauto|].
    destruct Hc as [-> | ->]; eauto.
Qed.

(** What a worker puts out for an input that arrived as far as [input]. *)
Lemma run_whole patch before after input r :
  Forall scalar before -> Forall scalar after -> request_bytes patch before after = Ok input ->
  work_result patch before after = Some r -> run input = Ok (write_response r).
Proof.
  intros Hb Ha Hi Hw. unfold run. rewrite (request_roundtrip _ _ _ _ Hb Ha Hi).
  unfold work_result in Hw. destruct (work patch before after) as [d|[]]; congruence.
Qed.

Lemma run_truncated patch before after input l :
  request_bytes patch before after = Ok input -> l `prefix_of` input -> l <> input ->
  exists e, run l = Ok (write_response (Err e)).
Proof.
  intros Hi Hl Hne. destruct (request_truncated _ _ _ _ _ Hi Hl Hne) as [e He].
  exists e. unfold run. by rewrite He.
Qed.

(** A worker that runs this program: what it puts out is the response, or the
    head of it, to the request as far as the parent wrote it. *)
Definition genuine_worker (w : Worker) (patch : bool) (before after : str) : Prop :=
  exists input sent out,
    request_bytes patch before after = Ok input /\ sent `prefix_of` input /\
    (wk_writes w = true -> sent = input) /\
    run sent = Ok out /\ wk_stdout w `prefix_of` out.

(** Nothing disturbed the exchange. *)
Definition undisturbed (w : Worker) (patch : bool) (before after : str) : Prop :=
  wk_spawned w = true /\ wk_writes w = true /\ wk_stopped w = false /\ wk_reaped w = true /\
  wk_exit w = Some true /\ (exists n, wk_stderr w = Some n /\ n <= MAX_STDERR_BYTES) /\
  exists input, request_bytes patch before after = Ok input /\ run input = Ok (wk_stdout w).

Lemma executed_genuine w patch before after d :
  Forall scalar before -> Forall scalar after -> genuine_worker w patch before after ->
  executed w patch before after (Ok d) -> work patch before after = Ok d.
Proof.
  intros Hb Ha (input & sent & out & Hi & Hs & Hw & Hrun & Hout) Hex.
  inversion Hex as [| | | |d' _ _ Hf Hread _]; subst.
  assert (Hwr : wk_writes w = true).
  { destruct (wk_writes w) eqn:E; [done|]. exfalso. unfold failures in Hf. rewrite Hi, E in Hf. done. }
  rewrite (Hw Hwr) in Hrun. destruct (work_answers patch before after) as [r Hr].
  rewrite (run_whole _ _ _ _ _ Hb Ha Hi Hr) in Hrun. apply Ok_inj in Hrun as <-.
  pose proof (result_framable _ _ _ _ Hb Ha Hr) as Hfr.
  destruct (response_read r Hfr) as [Hfull Hcut].
  destruct (decide (wk_stdout w = write_response r)) as [Heq|Hneq].
  2: { destruct (Hcut _ Hout Hneq) as [e He]. congruence. }
  rewrite Heq, Hfull in Hread. unfold work_result in Hr.
  destruct (work patch before after) as [d1|[]] eqn:E; try done;
    (destruct r as [d0|e0]; [|by destruct e0]); [|done].
  cbn [client_view] in Hread. destruct (_ <=? _) in Hread; congruence.
Qed.

Lemma executed_undisturbed w patch before after r :
  Forall scalar before -> Forall scalar after -> undisturbed w patch before after ->
  work_result patch before after = Some r ->
  forall answer, executed w patch before after answer <-> answer = client_view r.
Proof.
  intros Hb Ha (W1 & W2 & W3 & W4 & W5 & (n & W6 & Hn) & input & Hi & Hrun) Hr answer.
  rewrite (run_whole _ _ _ _ _ Hb Ha Hi Hr) in Hrun. apply Ok_inj in Hrun.
  pose proof (result_framable _ _ _ _ Hb Ha Hr) as Hfr.
  destruct (response_read r Hfr) as [Hfull _]. rewrite Hrun in Hfull.
  assert (Hf : failures w patch before after = error_of (client_view r)).
  { unfold failures. rewrite Hi, W2, W5, W6, Hfull. cbn [error_of app ok_or capped_read].
    rewrite (proj2 (Z.ltb_ge _ _)) by done. cbn. by rewrite app_nil_r. }
  split.
  - intros Hex. inversion Hex as [|? Hs|e ? ? He|d ? ? Hnil Hrd Hex'|d ? ? Hnil Hrd Hex']; subst; try congruence.
    rewrite Hf in He. rewrite W4. destruct (client_view r); [by apply not_elem_of_nil in He|].
    by apply list_elem_of_singleton in He as ->.
  - intros ->. destruct (client_view r) as [d|e] eqn:E.
    + apply executed_done; try done; by rewrite Hf.
    + pose proof (executed_failed w patch before after e W1 W3) as He. rewrite W4 in He. apply He.
      rewrite Hf. by apply list_elem_of_singleton.
Qed.

(** C4. The parent never takes a wrong answer for a right one: whatever part of
    the request reached a worker that runs this program, whatever part of its
    output came back, and whatever the exit status, the standard error, the
    deadline or a cancellation did, a comparison that [diff] returns is the one
    that the engine computes for the two texts, and a text that [apply_patch]
    returns is the result of applying the patch to the target. *)
Theorem engine_genuine w late before after :
  Forall scalar before -> Forall scalar after ->
  (genuine_worker w false before after ->
   forall d, engine_diff w late before after (Ok d) -> compare before after = Ok d) /\
  (genuine_worker w true before after ->
   forall text, engine_apply w late before after (Ok text) -> apply_patch before after = Ok text).
Proof.
  intros Hb Ha. split; intros Hw.
  - intros d Hd. inversion Hd as [| |i r _ _ Hex]; subst.
    exact (executed_genuine w false before after d Hb Ha Hw Hex).
  - intros text Hd. inversion Hd as [| |r _ _ Hex Heq]; subst.
    destruct r as [d|]; [|done]. apply (executed_genuine w true before after d Hb Ha Hw) in Hex.
    unfold work in Hex. destruct (apply_patch before after) as [t|]; [|done]. apply Ok_inj in Hex as <-.
    unfold apply_result in Heq. cbn [cd_patch cd_inline_changes] in Heq.
    destruct (negb _); [done|]. destruct (text_info _ _); [|done]. congruence.
Qed.

Lemma validate_text_info text label i :
  validate_text text = Ok tt -> text_info [] label = Ok i -> exists i', text_info text label = Ok i'.
Proof.
  unfold text_info. intros Hv Hl.
  match type of Hl with (if ?b then _ else _) = _ => destruct b eqn:E1 end; [done|]. clear Hl.
  unfold validate_text in Hv. change NUL with 0 in Hv.
  destruct (_ || _) eqn:E in Hv; [done|]. apply orb_false_iff in E as [E V4].
  apply orb_false_iff in E as [E V3]. apply orb_false_iff in E as [V1 V2].
  apply orb_false_iff in E1 as [E1 L3]. apply orb_false_iff in E1 as [E1 L2]. apply orb_false_iff in E1 as [_ L1].
  rewrite V1, V2, V3, V4, L1, L2, L3. cbn. by eexists.
Qed.

(** An undisturbed exchange hands the worker's result over unchanged: the
    request frame is read back as the two texts and the response frame as the
    result, so that [diff] returns exactly the engine's comparison (refused when
    its annotations need more than [MAX_METADATA_BYTES]) and [apply_patch]
    exactly the patched text, both with the engine's error otherwise. *)
Theorem engine_roundtrip w before after :
  Forall scalar before -> Forall scalar after ->
  (undisturbed w false before after ->
   (exists i, (let? _ := text_info before (u "Before") in text_info after (u "After")) = Ok i) ->
   exists r, work_result false before after = Some r /\
     forall answer, engine_diff w false before after answer <-> answer = client_view r) /\
  (undisturbed w true before after -> apply_admitted before after = Ok tt ->
   forall answer, engine_apply w false before after answer <->
     match apply_patch before after with
     | Ok text => answer = Ok text
     | Err (Error e) => answer = Err (match client_view (Err e) with Err e => e | Ok _ => Internal end)
     | Err _ => False
     end).
Proof.
  intros Hb Ha. split; intros Hw.
  - intros [i Hi]. destruct (work_answers false before after) as [r Hr]. exists r. split; [done|].
    intros answer. rewrite <- (executed_undisturbed w false before after r Hb Ha Hw Hr). split.
    + intros Hd. inversion Hd; subst; [done|congruence|done].
    + intros Hd. by eapply diff_executed.
  - intros Hadm answer. destruct (work_answers true before after) as [r Hr].
    assert (Hrr := Hr). unfold work_result, work in Hr.
    assert (Hlink : engine_apply w false before after answer <-> answer = let? d := client_view r in apply_result d).
    { split.
      - intros Hd. inversion Hd as [|e _ He|r' _ _ Hex Heq]; subst; [done|congruence|].
        apply (executed_undisturbed w true before after r Hb Ha Hw Hrr) in Hex as ->. done.
      - intros ->. apply apply_executed; [done|done|].
        by apply (executed_undisturbed w true before after r Hb Ha Hw Hrr). }
    rewrite Hlink. clear Hlink Hrr.
    destruct (apply_patch before after) as [text|[e| |]] eqn:E; try done.
    + assert (r = Ok {| cd_patch := text; cd_inline_changes := [] |}) as -> by congruence.
      cbn [client_view cd_inline_changes]. rewrite json_empty.
      rewrite (proj2 (Z.leb_le _ _)) by done. unfold apply_result. cbn [cd_patch cd_inline_changes length].
      rewrite bool_decide_eq_true_2 by done. cbn [negb].
      destruct (validate_text_info text (u "Result") {| ti_label := u "Result"; ti_bytes := 0; ti_lines := 0;
        ti_crlf := 0; ti_lf := 0; ti_bare_cr := 0; ti_bom := false; ti_final_newline := false |}) as [i Hi];
        [by eapply apply_patch_valid|by vm_compute|]. by rewrite Hi.
    + assert (r = Err e) as -> by congruence. by destruct e.
Qed.
End engine.

(** ** A concrete exchange *)

(** An encoding with the laws: the bits of the standard code of a value. *)
Fixpoint bits (p : positive) : list byte :=
  match p with xH => [1] | xO p => 0 :: bits p | xI p => 1 :: bits p end.
Fixpoint unbits (l : list byte) : option positive :=
  match l with
  | [] => None
  | [b] => if b =? 1 then Some xH else None
  | b :: l => (if b =? 1 then xI else xO) <$> unbits l
  end.

Lemma unbits_bits p : unbits (bits p) = Some p.
Proof.
  assert (Hne : forall q, bits q <> []) by (by intros []).
  induction p as [p IH|p IH|]; cbn [bits unbits]; [..|done];
    (destruct (bits p) eqn:E; [by apply Hne in E|]); by rewrite IH.
Qed.

Definition sample_code (x : list SourceLineHighlights) : positive :=
  encode ((fun h => (hl_side h, hl_line_index h, hl_ranges h)) <$> x : list (DiffSide * Z * list (Z * Z))).
Definition sample_decode (p : positive) : option (list SourceLineHighlights) :=
  match (decode p : option (list (DiffSide * Z * list (Z * Z)))) with
  | Some x => Some ((fun h => {| hl_side := h.1.1; hl_line_index := h.1.2; hl_ranges := h.2 |}) <$> x)
  | None => None
  end.

#[export] Instance sample_json : Json :=
  {| json_writes x := match x with [] => [bytes (u "[]")] | _ => [bits (sample_code x)] end;
     json_read l := if bool_decide (l = bytes (u "[]")) then Some [] else unbits l ≫= sample_decode |}.

#[export] Instance sample_json_laws : JsonLaws.
Proof.
  constructor; [|done]. intros x _. destruct x as [|h x]; [done|].
  cbn [json_writes sample_json concat json_read]. rewrite app_nil_r.
  rewrite bool_decide_eq_false_2.
  - rewrite unbits_bits. cbn [mbind option_bind]. unfold sample_decode, sample_code. rewrite decode_encode.
    f_equal. rewrite <- list_fmap_compose.
    rewrite <- (list_fmap_id (h :: x)) at 2. apply list_fmap_ext. intros i [] _. done.
  - destruct (sample_code (h :: x)); discriminate.
Qed.

Definition sample_worker (patch : bool) (before after : str) : Worker :=
  {| wk_spawned := true; wk_writes := true;
     wk_stdout := match request_bytes patch before after with
                  | Ok input => match run input with Ok out => out | Err _ => [] end
                  | Err _ => []
                  end;
     wk_stderr := Some 0; wk_exit := Some true; wk_stopped := false; wk_reaped := true |}.

Definition sample_patch : str := u "--- a
+++ b
@@ -2 +2 @@
-b
+B
".

Lemma sample_exchange :
  is_ok (compare sample_before sample_after) = true /\
  is_ok (apply_patch sample_before sample_patch) = true /\
  is_ok (request_bytes false sample_before sample_after) = true /\
  is_ok (request_bytes true sample_before sample_patch) = true /\
  is_ok (run (match request_bytes false sample_before sample_after with Ok i => i | _ => [] end)) = true.
Proof. vm_compute. by split_and!. Qed.

Lemma all_ascii_scalar s : forallb (in_range 0 127) s = true -> Forall scalar s.
Proof.
  rewrite forallb_Forall. intros Hs. eapply Forall_impl; [exact Hs|]. cbn.
  intros c Hc%in_range_iff. unfold scalar. lia.
Qed.

Lemma sample_undisturbed patch before after :
  is_ok (request_bytes patch before after) = true ->
  is_ok (run (match request_bytes patch before after with Ok i => i | _ => [] end)) = true ->
  undisturbed (sample_worker patch before after) patch before after /\
  genuine_worker (sample_worker patch before after) patch before after.
Proof.
  unfold undisturbed, genuine_worker, sample_worker.
  cbn [wk_spawned wk_writes wk_stopped wk_reaped wk_exit wk_stderr wk_stdout].
  destruct (request_bytes patch before after) as [input|]; [|done]. intros _.
  destruct (run input) as [out|] eqn:E; [|done]. intros _. split.
  - split_and!; try done; [by exists 0|by exists input].
  - exists input, input, out. by split_and!.
Qed.

Lemma engine_genuine_witness :
  exists d, engine_diff (sample_worker false sample_before sample_after) false sample_before sample_after (Ok d)
    /\ compare sample_before sample_after = Ok d.
Proof.
  pose proof sample_exchange as (Hc & _ & Hr & _ & Hrun).
  destruct (sample_undisturbed false sample_before sample_after Hr Hrun) as [Hu Hg].
  assert (Hb : Forall scalar sample_before) by (apply all_ascii_scalar; vm_compute; reflexivity).
  assert (Ha : Forall scalar sample_after) by (apply all_ascii_scalar; vm_compute; reflexivity).
  destruct (compare sample_before sample_after) as [d|] eqn:E; [|discriminate].
  assert (Hd : engine_diff (sample_worker false sample_before sample_after) false sample_before sample_after (Ok d)).
  { destruct (let? _ := text_info sample_before (u "Before") in text_info sample_after (u "After"))
      as [i|] eqn:Ei; [|vm_compute in Ei; discriminate].
    apply (diff_executed _ _ _ _ i); [reflexivity|exact Ei|].
    apply (executed_undisturbed _ false sample_before sample_after (Ok d) Hb Ha Hu).
    - unfold work_result, work. rewrite E. reflexivity.
    - clear Hu Hg. vm_compute in E. injection E as <-. vm_compute. reflexivity. }
  exists d. split; [exact Hd|].
  pose proof (proj1 (engine_genuine _ false _ _ Hb Ha) Hg d Hd) as He. rewrite E in He. exact He.
Defined.

Lemma engine_roundtrip_witness :
  exists text, engine_apply (sample_worker true sample_before sample_patch) false sample_before sample_patch (Ok text)
    /\ apply_patch sample_before sample_patch = Ok text.
Proof.
  pose proof sample_exchange as (_ & Hc & _ & Hr & _).
  assert (Hrun : is_ok (run (match request_bytes true sample_before sample_patch with Ok i => i | _ => [] end)) = true)
    by (vm_compute; reflexivity).
  destruct (sample_undisturbed true sample_before sample_patch Hr Hrun) as [Hu _].
  assert (Hb : Forall scalar sample_before) by (apply all_ascii_scalar; vm_compute; reflexivity).
  assert (Ha : Forall scalar sample_patch) by (apply all_ascii_scalar; vm_compute; reflexivity).
  assert (Hadm : apply_admitted sample_before sample_patch = Ok tt) by (vm_compute; reflexivity).
  pose proof (proj2 (engine_roundtrip _ _ _ Hb Ha) Hu Hadm) as He.
  destruct (apply_patch sample_before sample_patch) as [text|] eqn:E; [|discriminate].
  exists text. split; [apply He; reflexivity|reflexivity].
Defined.
