(* ===== verification/SearchQuery.v ===== *)
(** Search-query parsing: [crates/normalization/src/search_query.rs] over the
    syntax of [crates/domain/src/search_query.rs].

    The scanner is a byte offset into the input; a slice at an offset that is
    not a character boundary is [Panic].  The parser's mutable fields are the
    record [parser], threaded through the recursive descent, whose fuel bounds
    the recursion. *)

From S2P Require Import Prelude Utf8.

Definition MAX_QUERY_BYTES : Z := 4096.
Definition MAX_QUERY_NODES : Z := 256.
Definition MAX_QUERY_NESTING : Z := 32.
Definition MAX_QUERY_FIELDS : Z := 64.
Definition MAX_QUERY_FIELD_BYTES : Z := 64.

Record ByteSpan := { start : Z; end_ : Z }.

Inductive GroupOrigin := Parentheses | SingleQuotes.

(** [Expr] is a kind with a span; the kinds hold expressions. *)
Inductive Expr := mkExpr (kind : ExprKind) (sp : ByteSpan)
with ExprKind :=
| MatchAll
| KTerm (value : str)
| KExact (value : str)
| KPrefix (value : str)
| KNot (e : Expr)
| KAnd (es : list Expr)
| KOr (es : list Expr)
| KField (name : str) (e : Expr)
| KGroup (origin : GroupOrigin) (e : Expr).

Definition expr_kind (e : Expr) : ExprKind := match e with mkExpr k _ => k end.
Definition expr_span (e : Expr) : ByteSpan := match e with mkExpr _ s => s end.

Inductive ParseErrorKind :=
| InputTooLong | TooManyNodes | NestingTooDeep | ForbiddenControl | ExpectedOperand
| UnexpectedToken | MissingSeparator | UnclosedParenthesis | UnclosedQuote | EmptyGroup
| EmptyPhrase | TrailingEscape | InvalidWildcard | InvalidFieldSyntax | FieldShorthand
| UnknownField | NestedField.

Record ParseError := { pe_kind : ParseErrorKind; pe_span : ByteSpan }.

Inductive QueryConfigError := TooManyFields | InvalidFieldName | DuplicateField.

Record ParsedQuery := { source : str; expression : Expr }.

Definition span (s e : Z) : ByteSpan := {| start := s; end_ := e |}.
Definition error (k : ParseErrorKind) (s : ByteSpan) : ParseError :=
  {| pe_kind := k; pe_span := s |}.
Definition raise {A} (k : ParseErrorKind) (s : ByteSpan) : result (stop ParseError) A :=
  Err (Error (error k s)).

Definition valid_field (name : str) : bool :=
  match name with
  | [] => false
  | c :: _ =>
    (slen name <=? MAX_QUERY_FIELD_BYTES) && in_range 97 122 (hd 0 (bytes name))
    && forallb (fun b => in_range 97 122 b || is_ascii_digit b || (b =? ch "_")) (bytes name)
  end.

(** [SearchQueryProcessor::new]: the vocabulary of field names. *)
Fixpoint add_fields (names fields : list str) : result QueryConfigError (list str) :=
  match names with
  | [] => Ok fields
  | name :: names =>
    if negb (valid_field name) then Err InvalidFieldName
    else if existsb (str_eqb name) fields then Err DuplicateField
    else add_fields names (fields ++ [name])
  end.

Definition new_processor (allowed : list str) : result QueryConfigError (list str) :=
  if MAX_QUERY_FIELDS <? zlen allowed then Err TooManyFields else add_fields allowed [].

(** * Tokens *)

Inductive TokenKind :=
| TTerm (value : str)
| TExact (value : str)
| TWords (words : list (str * ByteSpan))
| TPrefix (value : str)
| TField (name : str)
| TAnd | TOr | TNot | TMinus | TOpen | TClose | TEnd.

Definition starts_operand (k : TokenKind) : bool :=
  match k with
  | TTerm _ | TExact _ | TWords _ | TPrefix _ | TField _ | TNot | TMinus | TOpen => true
  | TAnd | TOr | TClose | TEnd => false
  end.

Record Token := { tk_kind : TokenKind; tk_span : ByteSpan }.

Definition QUOTE : char := 34.
Definition APOSTROPHE : char := 39.
Definition BACKSLASH : char := 92.
Definition STAR : char := 42.

Section scanner.
Context `{Unicode} (input : str).

Definition current (off : Z) : result (stop ParseError) (option char) :=
  match str_from input off with
  | Some rest => Ok (head rest)
  | None => Err Panic
  end.

(** A quote between alphanumeric characters of the source. *)
Definition apostrophe (off : Z) : result (stop ParseError) bool :=
  match str_upto input off with
  | None => Err Panic
  | Some before =>
    match last before with
    | Some c =>
      if is_alphanumeric c then
        match str_from input (off + 1) with
        | None => Err Panic
        | Some (c :: _) => Ok (is_alphanumeric c)
        | Some [] => Ok false
        end
      else Ok false
    | None => Ok false
    end
  end.

(** The character after a backslash, and the offset behind it. *)
Definition escaped (off : Z) : result (stop ParseError) (char * Z) :=
  let? c := current (off + 1) in
  match c with
  | None => raise TrailingEscape (span off (off + 1))
  | Some c => Ok (c, off + 1 + len_utf8 c)
  end.

Fixpoint skip_whitespace (fuel : nat) (off : Z) : result (stop ParseError) Z :=
  let? c := current off in
  match c with
  | Some c =>
    if is_whitespace c then
      match fuel with O => Err OutOfFuel | S fuel => skip_whitespace fuel (off + len_utf8 c) end
    else Ok off
  | None => Ok off
  end.

Fixpoint field_name_end (fuel : nat) (off : Z) : result (stop ParseError) Z :=
  let? c := current off in
  match c with
  | Some c =>
    if negb (is_ascii_alphanumeric c || (c =? ch "_")) then Ok off
    else match fuel with O => Err OutOfFuel | S fuel => field_name_end fuel (off + len_utf8 c) end
  | None => Ok off
  end.

Definition scan_field (fuel : nat) (off : Z) : result (stop ParseError) (TokenKind * Z) :=
  let name_start := off + 3 in
  let? name_end := field_name_end fuel name_start in
  match str_range input name_start name_end with
  | None => Err Panic
  | Some name =>
    let? c := current name_end in
    if negb (bool_decide (c = Some (ch ":"))) || negb (valid_field name)
      then raise InvalidFieldSyntax (span off name_end)
      else Ok (TField name, name_end + 1)
  end.

(** The characters of a word: its decoded value, whether a backslash was seen
    and the positions in the value of the unescaped stars. *)
Record word_state := {
  ws_offset : Z; ws_value : str; ws_escaped : bool; ws_stars : list Z;
}.

Fixpoint word_loop (fuel : nat) (w : word_state) : result (stop ParseError) word_state :=
  let off := ws_offset w in
  let? c := current off in
  match c with
  | None => Ok w
  | Some c =>
    let? ends :=
      if is_whitespace c || (c =? ch "(") || (c =? ch ")") || (c =? QUOTE) then Ok true
      else if c =? APOSTROPHE then let? a := apostrophe off in Ok (negb a)
      else Ok false in
    if ends : bool then Ok w
    else match fuel with
    | O => Err OutOfFuel
    | S fuel =>
      if c =? BACKSLASH then
        let? (c, off) := escaped off in
        word_loop fuel {| ws_offset := off; ws_value := ws_value w ++ [c];
          ws_escaped := true; ws_stars := ws_stars w |}
      else
      word_loop fuel {| ws_offset := off + len_utf8 c; ws_value := ws_value w ++ [c];
        ws_escaped := ws_escaped w;
        ws_stars := if c =? STAR then ws_stars w ++ [slen (ws_value w)]
                    else ws_stars w |}
    end
  end.

Definition scan_word (fuel : nat) (off : Z) : result (stop ParseError) (TokenKind * Z) :=
  let? w := word_loop fuel {| ws_offset := off; ws_value := []; ws_escaped := false;
    ws_stars := [] |} in
  let value := ws_value w in
  match ws_stars w with
  | [] =>
    Ok (if negb (ws_escaped w) && str_eqb value (u "AND") then TAnd
        else if negb (ws_escaped w) && str_eqb value (u "OR") then TOr
        else if negb (ws_escaped w) && str_eqb value (u "NOT") then TNot
        else TTerm value, ws_offset w)
  | star :: stars =>
    if negb (bool_decide (length stars = 0%nat)) || (star =? 0) || negb (star + 1 =? slen value)
      then raise InvalidWildcard (span off (ws_offset w))
      else Ok (TPrefix (removelast value), ws_offset w)
  end.

(** The variables of the loop in [quoted]. *)
Record quote_state := {
  qs_offset : Z; qs_value : str; qs_words : list (str * ByteSpan); qs_word_start : Z;
}.

Fixpoint quote_loop (fuel : nat) (single : bool) (begin : Z) (q : quote_state)
  : result (stop ParseError) (TokenKind * Z) :=
  let off := qs_offset q in
  let delimiter := if single then APOSTROPHE else QUOTE in
  let? c := current off in
  match c with
  | None => raise UnclosedQuote (span begin off)
  | Some c =>
    let? closes :=
      if c =? delimiter then
        if single then let? a := apostrophe off in Ok (negb a) else Ok true
      else Ok false in
    if closes : bool then
      let words :=
        if single && negb (str_eqb (qs_value q) [])
        then qs_words q ++ [(qs_value q, span (qs_word_start q) off)]
        else qs_words q in
      let off := off + len_utf8 c in
      if single then
        if bool_decide (length words = 0%nat) then raise EmptyGroup (span begin off)
        else Ok (TWords words, off)
      else if str_eqb (qs_value q) [] then raise EmptyPhrase (span begin off)
      else Ok (TExact (qs_value q), off)
    else match fuel with
    | O => Err OutOfFuel
    | S fuel =>
      if single && is_whitespace c then
        quote_loop fuel single begin
        {| qs_offset := off + len_utf8 c; qs_value := [];
          qs_words := if str_eqb (qs_value q) [] then qs_words q
                      else qs_words q ++ [(qs_value q, span (qs_word_start q) off)];
          qs_word_start := off + len_utf8 c |}
      else
      let word_start := if str_eqb (qs_value q) [] then off else qs_word_start q in
      let? (c, off) :=
        if c =? BACKSLASH then escaped off else Ok (c, off + len_utf8 c) in
      quote_loop fuel single begin
      {| qs_offset := off; qs_value := qs_value q ++ [c]; qs_words := qs_words q;
        qs_word_start := word_start |}
    end
  end.

Definition scan_quoted (fuel : nat) (single : bool) (off : Z)
  : result (stop ParseError) (TokenKind * Z) :=
  quote_loop fuel single off
  {| qs_offset := off + 1; qs_value := []; qs_words := []; qs_word_start := off + 1 |}.

(** No scanner loop takes more steps than the input has characters. *)
Definition scan_fuel : nat := length input.

(** [Scanner::next] *)
Definition next (off : Z) : result (stop ParseError) (Token * Z) :=
  let? begin := skip_whitespace scan_fuel off in
  let? c := current begin in
  let? (kind, off) :=
    match c with
    | None => Ok (TEnd, begin)
    | Some c =>
      if c =? ch "(" then Ok (TOpen, begin + 1)
      else if c =? ch ")" then Ok (TClose, begin + 1)
      else if c =? ch "-" then Ok (TMinus, begin + 1)
      else if c =? QUOTE then scan_quoted scan_fuel false begin
      else if c =? APOSTROPHE then scan_quoted scan_fuel true begin
      else match str_from input begin with
      | None => Err Panic
      | Some rest => if starts_with (u "in:") rest then scan_field scan_fuel begin
        else scan_word scan_fuel begin
      end
    end in
  Ok ({| tk_kind := kind; tk_span := span begin off |}, off).
End scanner.

(** * The parser *)

Record parser := { p_offset : Z; p_lookahead : option Token; p_nodes : Z }.

Definition P (A : Type) : Type := parser -> result (stop ParseError) (A * parser).

Definition pure {A} (a : A) : P A := fun p => Ok (a, p).
Definition pbind {A B} (m : P A) (k : A -> P B) : P B :=
  fun p => let? (a, p) := m p in k a p.
Definition praise {A} (kind : ParseErrorKind) (s : ByteSpan) : P A := fun _ => raise kind s.

Notation "'let*' x ':=' m 'in' k" := (pbind m (fun x => k))
  (at level 10, x pattern, m at level 100, k at level 200) : result_scope.

Definition is_or (k : TokenKind) : bool := match k with TOr => true | _ => false end.
Definition is_and (k : TokenKind) : bool := match k with TAnd => true | _ => false end.
Definition is_end (k : TokenKind) : bool := match k with TEnd => true | _ => false end.
Definition is_close (k : TokenKind) : bool := match k with TClose => true | _ => false end.

Section parser.
Context `{Unicode} (fields : list str) (input : str).

Definition take_token : P Token := fun p =>
  match p_lookahead p with
  | Some token =>
    Ok (token, {| p_offset := p_offset p; p_lookahead := None; p_nodes := p_nodes p |})
  | None =>
    let? (token, off) := next input (p_offset p) in
    Ok (token, {| p_offset := off; p_lookahead := None; p_nodes := p_nodes p |})
  end.

Definition peek : P Token := fun p =>
  let? (token, p) := take_token p in
  Ok (token, {| p_offset := p_offset p; p_lookahead := Some token; p_nodes := p_nodes p |}).

Definition node (kind : ExprKind) (s : ByteSpan) : P Expr := fun p =>
  if MAX_QUERY_NODES <=? p_nodes p then raise TooManyNodes s
  else Ok (mkExpr kind s, {| p_offset := p_offset p; p_lookahead := p_lookahead p;
    p_nodes := p_nodes p + 1 |}).

Definition reject_shorthand (range : ByteSpan) : P unit := fun p =>
  match str_range input (start range) (end_ range) with
  | None => Err Panic
  | Some source =>
    if existsb (fun field => match strip_prefix field source with
    | Some rest => starts_with (u ":") rest
    | None => false
    end) fields
      then raise FieldShorthand range
      else Ok (tt, p)
  end.

Definition nested (depth : Z) (s : ByteSpan) : P Z :=
  if MAX_QUERY_NESTING <=? depth then praise NestingTooDeep s else pure (depth + 1).

Definition chain (expressions : list Expr) (and : bool) (s : ByteSpan) : P Expr :=
  match expressions with
  | [e] => pure e
  | _ => node (if and then KAnd expressions else KOr expressions) s
  end.

(** The terms of a single-quoted group. *)
Fixpoint word_nodes (words : list (str * ByteSpan)) : P (list Expr) :=
  match words with
  | [] => pure []
  | (value, range) :: words =>
    let* e := node (KTerm value) range in
    let* es := word_nodes words in
    pure (e :: es)
  end.

Definition words_span (token : ByteSpan) (words : list (str * ByteSpan)) : ByteSpan :=
  span (match words with (_, r) :: _ => start r | [] => start token end)
  (match last words with Some (_, r) => end_ r | None => end_ token end).

Definition out_of_fuel {A} : P A := fun _ => Err OutOfFuel.

Definition range_to (a b : ByteSpan) : ByteSpan := span (start a) (end_ b).

Fixpoint or_ (fuel : nat) (depth : Z) (scoped : bool) : P Expr :=
  match fuel with
  | O => out_of_fuel
  | S fuel =>
    let* first := and_ fuel depth scoped in
    or_loop fuel depth scoped (start (expr_span first)) (end_ (expr_span first)) [first]
  end
with or_loop (fuel : nat) (depth : Z) (scoped : bool) (s e : Z) (expressions : list Expr) : P Expr :=
  match fuel with
  | O => out_of_fuel
  | S fuel =>
    let* token := peek in
    if is_or (tk_kind token) then
      let* _ := take_token in
      let* next := and_ fuel depth scoped in
      or_loop fuel depth scoped s (end_ (expr_span next)) (expressions ++ [next])
    else chain expressions false (span s e)
  end
with and_ (fuel : nat) (depth : Z) (scoped : bool) : P Expr :=
  match fuel with
  | O => out_of_fuel
  | S fuel =>
    let* first := operand fuel depth scoped in
    and_loop fuel depth scoped (start (expr_span first)) (end_ (expr_span first)) [first]
  end
with and_loop (fuel : nat) (depth : Z) (scoped : bool) (s e : Z) (expressions : list Expr) : P Expr :=
  match fuel with
  | O => out_of_fuel
  | S fuel =>
    let continue :=
      let* next := operand fuel depth scoped in
      and_loop fuel depth scoped s (end_ (expr_span next)) (expressions ++ [next]) in
    let* token := peek in
    if is_and (tk_kind token) then let* _ := take_token in continue
    else if starts_operand (tk_kind token) then
      if start (tk_span token) =? e then praise MissingSeparator (tk_span token) else continue
    else chain expressions true (span s e)
  end
with operand (fuel : nat) (depth : Z) (scoped : bool) : P Expr :=
  match fuel with
  | O => out_of_fuel
  | S fuel =>
    let* token := take_token in
    let sp := tk_span token in
    match tk_kind token with
    | TTerm value => let* _ := reject_shorthand sp in node (KTerm value) sp
    | TPrefix value => let* _ := reject_shorthand sp in node (KPrefix value) sp
    | TExact value => node (KExact value) sp
    | TNot | TMinus =>
      let* inner_depth := nested depth sp in
      let* inner := operand fuel inner_depth scoped in
      node (KNot inner) (range_to sp (expr_span inner))
    | TField name =>
      if scoped then praise NestedField sp
      else if negb (existsb (str_eqb name) fields) then praise UnknownField sp
      else
      let* inner_depth := nested depth sp in
      let* next := peek in
      if negb (start (tk_span next) =? end_ sp) || negb (starts_operand (tk_kind next))
        then praise InvalidFieldSyntax (tk_span next)
      else
      let* inner := operand fuel inner_depth true in
      node (KField name inner) (range_to sp (expr_span inner))
    | TOpen =>
      let* inner_depth := nested depth sp in
      let* next := peek in
      if is_close (tk_kind next) then
        let* close := take_token in
        praise EmptyGroup (range_to sp (tk_span close))
      else
      let* inner := or_ fuel inner_depth scoped in
      let* close := take_token in
      if negb (is_close (tk_kind close)) then praise UnclosedParenthesis sp
      else node (KGroup Parentheses inner) (range_to sp (tk_span close))
    | TWords words =>
      let* _ := nested depth sp in
      let* expressions := word_nodes words in
      let* inner := chain expressions true (words_span sp words) in
      node (KGroup SingleQuotes inner) sp
    | TAnd | TOr | TClose | TEnd => praise ExpectedOperand sp
    end
  end.

Definition parse_fuel : nat := 3 * length input + 8.

(** [input.char_indices().find(|(_, ch)| ch.is_control())] *)
Fixpoint find_control (off : Z) (s : str) : option (Z * char) :=
  match s with
  | [] => None
  | c :: s => if is_control c then Some (off, c) else find_control (off + len_utf8 c) s
  end.

Definition initial_parser : parser := {| p_offset := 0; p_lookahead := None; p_nodes := 0 |}.

Definition parse_expression : P Expr :=
  let* first := peek in
  if is_end (tk_kind first) then node MatchAll (span 0 (slen input))
  else
  let* expression := or_ parse_fuel 0 false in
  let* next := peek in
  if negb (is_end (tk_kind next)) then praise UnexpectedToken (tk_span next)
  else pure expression.

Definition parse : result (stop ParseError) ParsedQuery :=
  if MAX_QUERY_BYTES <? slen input then raise InputTooLong (span 0 (slen input)) else
  match find_control 0 input with
  | Some (off, c) => raise ForbiddenControl (span off (off + len_utf8 c))
  | None =>
    let? (expression, _) := parse_expression initial_parser in
    Ok {| source := input; expression := expression |}
  end.
End parser.
