(* ===== verification/SearchQueryFacts.v ===== *)
(** Correctness of search-query parsing: the scanner and the parser always
    answer, spans are character boundaries of the source, and the syntax trees
    are well formed and bounded. *)

From S2P Require Import Prelude Utf8 Strings PagingFacts SearchQuery.

#[local] Set Warnings "-register-all".

Section scanner_facts.
Context `{Unicode} (input : str).

Definition boundary (off : Z) : Prop := is_char_boundary input off = true.

Definition span_ok (s : ByteSpan) : Prop :=
  boundary (start s) /\ boundary (end_ s) /\ start s <= end_ s.

(** The outcome of a scan of [rest], which follows [pre] in the input: it reads
    a prefix [m] of [rest], or fails with a span of the input. *)
Definition scans {A} (pre rest : str) (Q : A -> str -> str -> Prop)
  (r : result (stop ParseError) (A * Z)) : Prop :=
  match r with
  | Ok (a, off) => exists m rest', rest = m ++ rest' /\ off = slen (pre ++ m) /\ Q a m rest'
  | Err (Error e) => span_ok (pe_span e)
  | Err Panic | Err OutOfFuel => False
  end.

Lemma boundary_app pre rest : input = pre ++ rest -> boundary (slen pre).
Proof. intros Hi. apply char_boundary_iff. by exists pre, rest. Qed.

Lemma span_ok_app pre m rest : input = pre ++ m ++ rest -> span_ok (span (slen pre) (slen (pre ++ m))).
Proof.
  intros Hi. pose proof (slen_nonneg m). split_and!; simpl.
  - by eapply boundary_app.
  - eapply boundary_app. by rewrite <- app_assoc.
  - rewrite slen_app. lia.
Qed.

Lemma current_at pre rest : input = pre ++ rest -> current input (slen pre) = Ok (head rest).
Proof. intros ->. unfold current. by rewrite str_from_app. Qed.

Lemma snoc_app (pre : str) c rest : pre ++ c :: rest = (pre ++ [c]) ++ rest.
Proof. by rewrite <- app_assoc. Qed.

Lemma slen_snoc pre c : slen (pre ++ [c]) = slen pre + len_utf8 c.
Proof. rewrite slen_app. simpl. lia. Qed.

Lemma apostrophe_at pre rest :
  input = pre ++ APOSTROPHE :: rest -> exists b, apostrophe input (slen pre) = Ok b.
Proof.
  intros ->. unfold apostrophe. rewrite str_upto_app.
  destruct (last pre) as [c|]; [|eauto]. destruct (is_alphanumeric c); [|eauto].
  change (slen pre + 1) with (slen pre + len_utf8 APOSTROPHE). rewrite <- slen_snoc, snoc_app, str_from_app.
  destruct rest; eauto.
Qed.

Lemma escaped_at pre rest :
  input = pre ++ BACKSLASH :: rest ->
  match rest with
  | [] => escaped input (slen pre) = raise TrailingEscape (span (slen pre) (slen (pre ++ [BACKSLASH])))
  | c :: _ => escaped input (slen pre) = Ok (c, slen (pre ++ [BACKSLASH; c]))
  end.
Proof.
  intros Hi. unfold escaped.
  change (slen pre + 1) with (slen pre + len_utf8 BACKSLASH). rewrite <- slen_snoc.
  rewrite (current_at (pre ++ [BACKSLASH]) rest) by (by rewrite <- snoc_app).
  destruct rest as [|c rest]; [done|]. simpl.
  change [BACKSLASH; c] with ([BACKSLASH] ++ [c]). by rewrite app_assoc, (slen_snoc (pre ++ [BACKSLASH])).
Qed.

Lemma scans_later {A} pre m0 rest (Q Q' : A -> str -> str -> Prop) r :
  scans (pre ++ m0) rest Q r ->
  (forall a m rest', Q a m rest' -> Q' a (m0 ++ m) rest') ->
  scans pre (m0 ++ rest) Q' r.
Proof.
  intros Hs Hq. destruct r as [[a off]|[e| |]]; [|done..].
  destruct Hs as (m & rest' & -> & -> & Ha). exists (m0 ++ m), rest'.
  rewrite !app_assoc. split_and!; [done..|auto].
Qed.

Lemma scans_cons {A} pre c rest (Q Q' : A -> str -> str -> Prop) r :
  scans (pre ++ [c]) rest Q r ->
  (forall a m rest', Q a m rest' -> Q' a (c :: m) rest') ->
  scans pre (c :: rest) Q' r.
Proof. apply (scans_later pre [c]). Qed.

Lemma skip_whitespace_scans fuel pre rest :
  input = pre ++ rest -> (length rest <= fuel)%nat ->
  exists m rest', rest = m ++ rest' /\ skip_whitespace input fuel (slen pre) = Ok (slen (pre ++ m))
    /\ match rest' with c :: _ => is_whitespace c = false | [] => True end.
Proof.
  revert pre rest. induction fuel as [|fuel IH]; intros pre rest Hi Hf; cbn [skip_whitespace];
    rewrite (current_at pre rest Hi); destruct rest as [|c rest]; cbn [head].
  - exists [], []. by rewrite (app_nil_r pre).
  - simpl in Hf. lia.
  - exists [], []. by rewrite (app_nil_r pre).
  - destruct (is_whitespace c) eqn:Ew.
    + rewrite <- slen_snoc. destruct (IH (pre ++ [c]) rest) as (m & rest' & -> & -> & ?);
        [by rewrite <- snoc_app|simpl in Hf; lia|].
      exists (c :: m), rest'. by rewrite <- app_assoc.
    + exists [], (c :: rest). by rewrite (app_nil_r pre).
Qed.

Lemma field_name_scans fuel pre rest :
  input = pre ++ rest -> (length rest <= fuel)%nat ->
  exists m rest', rest = m ++ rest' /\ field_name_end input fuel (slen pre) = Ok (slen (pre ++ m)).
Proof.
  revert pre rest. induction fuel as [|fuel IH]; intros pre rest Hi Hf; cbn [field_name_end];
    rewrite (current_at pre rest Hi); destruct rest as [|c rest]; cbn [head].
  - exists [], []. by rewrite (app_nil_r pre).
  - simpl in Hf. lia.
  - exists [], []. by rewrite (app_nil_r pre).
  - destruct (negb _).
    + exists [], (c :: rest). by rewrite (app_nil_r pre).
    + rewrite <- slen_snoc. destruct (IH (pre ++ [c]) rest) as (m & rest' & -> & ->);
        [by rewrite <- snoc_app|simpl in Hf; lia|].
      exists (c :: m), rest'. by rewrite <- app_assoc.
Qed.

(** Words that follow one another between the offsets [lo] and [hi]. *)
Fixpoint words_from (lo : Z) (ws : list (str * ByteSpan)) (hi : Z) : Prop :=
  match ws with
  | [] => lo <= hi
  | (v, r) :: ws => v <> [] /\ span_ok r /\ lo <= start r /\ words_from (end_ r) ws hi
  end.

Lemma words_from_later lo ws mid hi : words_from lo ws mid -> mid <= hi -> words_from lo ws hi.
Proof.
  revert lo. induction ws as [|[v r] ws IH]; simpl; [lia|]. intros lo (? & ? & ? & ?) ?.
  split_and!; auto.
Qed.

Lemma words_from_snoc lo ws mid v r hi :
  words_from lo ws mid -> v <> [] -> span_ok r -> mid <= start r -> end_ r <= hi ->
  words_from lo (ws ++ [(v, r)]) hi.
Proof.
  revert lo. induction ws as [|[v' r'] ws IH]; simpl.
  - intros lo ?????. split_and!; [done|done|lia|done].
  - intros lo (? & ? & ? & ?) ????. split_and!; auto.
Qed.

(** What the kind of a token promises of a token with the span [s]. *)
Definition kind_ok (s : ByteSpan) (k : TokenKind) : Prop :=
  match k with
  | TTerm v | TExact v | TPrefix v => v <> []
  | TWords ws => ws <> [] /\ words_from (start s) ws (end_ s)
  | TField name => valid_field name = true
  | _ => True
  end.

(** A token other than the end, read from the offset [begin] on: its last
    characters are [m], behind [pre]. *)
Definition token_scan (begin : Z) (pre : str) (k : TokenKind) (m rest : str) : Prop :=
  kind_ok (span begin (slen (pre ++ m))) k /\ k <> TEnd /\ m <> [].

Lemma token_scan_later begin pre m0 k m rest :
  token_scan begin (pre ++ m0) k m rest -> token_scan begin pre k (m0 ++ m) rest.
Proof.
  intros (Hk & Hne & Hm). unfold token_scan. rewrite app_assoc. split_and!; [done|done|].
  by destruct m0.
Qed.

Lemma scan_field_scans fuel pre rest :
  input = pre ++ u "in:" ++ rest -> (length rest <= fuel)%nat ->
  scans pre (u "in:" ++ rest) (token_scan (slen pre) pre) (scan_field input fuel (slen pre)).
Proof.
  intros Hi Hf. unfold scan_field.
  change (slen pre + 3) with (slen pre + slen (u "in:")). rewrite <- slen_app.
  destruct (field_name_scans fuel (pre ++ u "in:") rest) as (name & rest' & -> & ->);
    [by rewrite <- app_assoc|done|].
  assert (Hi' : input = ((pre ++ u "in:") ++ name) ++ rest') by (by rewrite Hi, <- !app_assoc).
  rewrite Hi' at 1. rewrite <- (app_assoc _ name rest'), (slen_app (pre ++ u "in:") name).
  rewrite str_range_app, <- slen_app, (current_at _ rest' Hi').
  destruct (negb _ || _) eqn:E.
  - simpl. rewrite <- app_assoc. eapply (span_ok_app pre (u "in:" ++ name) rest').
    by rewrite Hi, <- !app_assoc.
  - bool_hyps. destruct rest' as [|c rest']; [done|]. match goal with H : head _ = _ |- _ => injection H as -> end.
    exists (u "in:" ++ name ++ u ":"), rest'. split_and!.
    + by rewrite <- !app_assoc.
    + rewrite !slen_app. change (slen (u ":")) with 1. lia.
    + by split_and!.
Qed.
(** Every recorded star is an unescaped star of the value. *)
Definition stars_ok (w : word_state) : Prop :=
  forall s, s ∈ ws_stars w -> exists v1 v2, ws_value w = v1 ++ STAR :: v2 /\ s = slen v1.

Definition word_scans (pre rest : str) (w : word_state) (r : result (stop ParseError) word_state) : Prop :=
  match r with
  | Ok w' => exists m rest', rest = m ++ rest' /\ ws_offset w' = slen (pre ++ m) /\ stars_ok w'
      /\ (m = [] /\ w' = w \/ m <> [] /\ ws_value w' <> [])
  | Err (Error e) => span_ok (pe_span e)
  | Err Panic | Err OutOfFuel => False
  end.

Lemma stars_ok_push w off c esc :
  stars_ok w ->
  stars_ok {| ws_offset := off; ws_value := ws_value w ++ [c]; ws_escaped := esc;
    ws_stars := ws_stars w |}.
Proof.
  intros Hw s Hs. destruct (Hw s Hs) as (v1 & v2 & Hv & ->). exists v1, (v2 ++ [c]).
  simpl. by rewrite Hv, <- app_assoc.
Qed.

Lemma stars_ok_star w off c :
  stars_ok w ->
  stars_ok {| ws_offset := off; ws_value := ws_value w ++ [c]; ws_escaped := ws_escaped w;
    ws_stars := if c =? STAR then ws_stars w ++ [slen (ws_value w)] else ws_stars w |}.
Proof.
  intros Hw. destruct (Z.eqb_spec c STAR) as [->|]; [|by apply (stars_ok_push w)].
  intros s. cbn [ws_stars ws_value]. rewrite elem_of_app, list_elem_of_singleton.
  intros [Hs| ->]; [by apply (stars_ok_push w off STAR false Hw)|].
  by exists (ws_value w), [].
Qed.

Lemma word_scans_push pre m0 rest w w1 r :
  m0 <> [] -> ws_value w1 <> [] -> word_scans (pre ++ m0) rest w1 r -> word_scans pre (m0 ++ rest) w r.
Proof.
  intros Hm0 Hv. destruct r as [w'|[e| |]]; [|done..].
  intros (m & rest' & -> & Ho & Hs & Hm). exists (m0 ++ m), rest'. rewrite !app_assoc.
  split_and!; [done..|]. right. split; [by destruct m0|]. by destruct Hm as [[-> ->]|[_ ?]].
Qed.

Lemma word_loop_scans fuel pre rest w :
  input = pre ++ rest -> (length rest <= fuel)%nat -> ws_offset w = slen pre -> stars_ok w ->
  word_scans pre rest w (word_loop input fuel w).
Proof.
  revert pre rest w. induction fuel as [|fuel IH]; intros pre rest w Hi Hf Ho Hs; cbn [word_loop];
    rewrite Ho, (current_at pre rest Hi); destruct rest as [|c rest]; cbn [head].
  1,3: exists [], []; rewrite (app_nil_r pre); split_and!; auto.
  { simpl in Hf. lia. }
  match goal with |- context [if ?b then Ok true else _] => destruct b end.
  { exists [], (c :: rest). rewrite (app_nil_r pre). split_and!; auto. }
  assert (He : exists b, (if c =? APOSTROPHE then let? a := apostrophe input (slen pre) in Ok (negb a)
    else Ok false) = Ok b :> result (stop ParseError) bool).
  { destruct (Z.eqb_spec c APOSTROPHE) as [->|]; [|eauto].
    destruct (apostrophe_at pre rest Hi) as [b ->]. eauto. }
  destruct He as [b ->]. destruct b.
  { exists [], (c :: rest). rewrite (app_nil_r pre). split_and!; auto. }
  destruct (Z.eqb_spec c BACKSLASH) as [->|Hb].
  - pose proof (escaped_at pre rest Hi) as He. destruct rest as [|c rest].
    + rewrite He. by apply (span_ok_app pre [BACKSLASH] []).
    + rewrite He. apply (word_scans_push pre [BACKSLASH; c] rest w
        {| ws_offset := slen (pre ++ [BACKSLASH; c]); ws_value := ws_value w ++ [c];
        ws_escaped := true; ws_stars := ws_stars w |}); [done|by destruct (ws_value w)|].
      apply IH; [by rewrite Hi, <- app_assoc|simpl in Hf; lia|done|by apply stars_ok_push].
  - rewrite <- slen_snoc. eapply (word_scans_push pre [c] rest w);
      [done| |apply IH; [by rewrite <- snoc_app|simpl in Hf; lia|done|by apply stars_ok_star]].
    simpl. by destruct (ws_value w).
Qed.

(** A character at which a word may start. *)
Definition word_start_char (c : char) : Prop :=
  is_whitespace c = false /\ c <> ch "(" /\ c <> ch ")" /\ c <> QUOTE /\ c <> APOSTROPHE.

Lemma word_loop_starts fuel pre c rest w :
  input = pre ++ c :: rest -> ws_offset w = slen pre -> word_start_char c ->
  word_loop input fuel w <> Ok w.
Proof.
  intros Hi Ho (Hw & H1 & H2 & H3 & H4). destruct fuel as [|fuel]; cbn [word_loop];
    rewrite Ho, (current_at _ _ Hi); cbn [head];
    rewrite Hw, !(proj2 (Z.eqb_neq _ _)) by done; cbn [orb]; [done|].
  assert (Hgrow : forall fuel v, (length (ws_value w) < length (ws_value v))%nat ->
    word_loop input fuel v <> Ok w).
  { clear -w. intros fuel. induction fuel as [|fuel IH]; intros v Hv; cbn [word_loop];
      (destruct (current input (ws_offset v)) as [[c|]|]; [|intros [= ->]; lia|done]);
      (match goal with |- context [if ?b then Ok true else ?x] =>
      destruct (if b then Ok true else x) as [[]|] end); try (intros [= ->]; lia); try done.
    destruct (c =? BACKSLASH); [|apply IH; simpl; rewrite length_app; simpl; lia].
    destruct (escaped input (ws_offset v)) as [[c' off']|]; [|done].
    apply IH. simpl. rewrite length_app. simpl. lia. }
  destruct (c =? BACKSLASH); [|apply Hgrow; simpl; rewrite length_app; simpl; lia].
  destruct (escaped input (slen pre)) as [[c' off']|]; [|done].
  apply Hgrow. simpl. rewrite length_app. simpl. lia.
Qed.

Lemma scan_word_scans fuel pre c rest :
  input = pre ++ c :: rest -> (length (c :: rest) <= fuel)%nat -> word_start_char c ->
  scans pre (c :: rest) (token_scan (slen pre) pre) (scan_word input fuel (slen pre)).
Proof.
  intros Hi Hf Hc. unfold scan_word.
  set (w0 := {| ws_offset := slen pre; ws_value := []; ws_escaped := false; ws_stars := [] |}).
  pose proof (word_loop_scans fuel pre (c :: rest) w0 Hi Hf eq_refl
    ltac:(intros s Hs; by apply not_elem_of_nil in Hs)) as Hw.
  pose proof (word_loop_starts fuel pre c rest w0 Hi eq_refl Hc) as Hne.
  destruct (word_loop input fuel w0) as [w|[e| |]]; [|done..].
  destruct Hw as (m & rest' & Hm & Ho & Hs & [[_ ->]|[Hmne Hv]]); [done|].
  assert (Hspan : span_ok (span (slen pre) (ws_offset w)))
    by (rewrite Ho; apply (span_ok_app pre m rest'); by rewrite Hi, Hm).
  destruct (ws_stars w) as [|star stars] eqn:Est.
  - exists m, rest'. rewrite <- Ho. split_and!; [done..|].
    split_and!; [|repeat case_match; done|done]. by repeat case_match.
  - destruct (_ || _) eqn:E; [done|]. bool_hyps. exists m, rest'. rewrite <- Ho.
    split_and!; [done..|]. split_and!; [|done|done].
    destruct (Hs star) as (v1 & v2 & Hv12 & ->); [rewrite Est; apply list_elem_of_here|].
    simpl. rewrite Hv12 in *. rewrite slen_app in *. simpl in *.
    assert (v2 = []) as -> by (apply slen_zero; change (len_utf8 STAR) with 1 in *; pose proof (slen_nonneg v2); lia).
    rewrite removelast_app by done. simpl. rewrite app_nil_r. by intros ->.
Qed.
(** The end of the words read so far, and of the blanks before the next one. *)
Definition words_end (q : quote_state) : Z :=
  if str_eqb (qs_value q) [] then qs_offset q else qs_word_start q.

Record quote_ok (begin : Z) (q : quote_state) : Prop := {
  qo_words : words_from begin (qs_words q) (words_end q);
  qo_start : qs_value q <> [] -> boundary (qs_word_start q) /\ qs_word_start q <= qs_offset q;
}.

Lemma words_end_le begin q : quote_ok begin q -> words_end q <= qs_offset q.
Proof.
  intros [_ Hs]. unfold words_end. destruct (str_eqb (qs_value q) []) eqn:E; [lia|].
  apply Hs. intros Hn. apply str_eqb_eq in Hn. congruence.
Qed.

Lemma push_word begin q :
  quote_ok begin q -> boundary (qs_offset q) ->
  words_from begin
  (if str_eqb (qs_value q) [] then qs_words q
    else qs_words q ++ [(qs_value q, span (qs_word_start q) (qs_offset q))]) (qs_offset q).
Proof.
  intros [Hw Hs] Hb. unfold words_end in Hw. destruct (str_eqb (qs_value q) []) eqn:E; [done|].
  assert (qs_value q <> []) as Hne by (intros Hn; apply str_eqb_eq in Hn; congruence).
  destruct (Hs Hne) as [? ?]. by eapply words_from_snoc.
Qed.

Lemma quote_loop_scans fuel single begin_ pre rest q :
  input = pre ++ rest -> (length rest <= fuel)%nat -> qs_offset q = slen pre -> quote_ok begin_ q ->
  boundary begin_ -> begin_ <= slen pre ->
  scans pre rest (token_scan begin_ pre) (quote_loop input fuel single begin_ q).
Proof.
  revert pre rest q. induction fuel as [|fuel IH]; intros pre rest q Hi Hf Ho Hq Hb Hle;
    pose proof (boundary_app _ _ Hi) as Hpre; cbn [quote_loop];
    rewrite Ho, (current_at pre rest Hi); destruct rest as [|c rest]; cbn [head].
  1,3: by split_and!.
  { simpl in Hf. lia. }
  assert (He : exists b, (if c =? (if single then APOSTROPHE else QUOTE) then
    if single then let? a := apostrophe input (slen pre) in Ok (negb a) else Ok true
    else Ok false) = Ok b :> result (stop ParseError) bool).
  { destruct single; [|destruct (c =? QUOTE); eauto].
    destruct (Z.eqb_spec c APOSTROPHE) as [->|]; [|eauto].
    destruct (apostrophe_at pre rest Hi) as [b ->]. eauto. }
  destruct He as [b ->]. pose proof (len_utf8_bounds c) as Hlen.
  assert (Hpre' : boundary (slen (pre ++ [c]))) by (eapply boundary_app; by rewrite <- snoc_app).
  assert (Hspan : span_ok (span begin_ (slen (pre ++ [c]))))
    by (rewrite slen_snoc in *; split_and!; simpl; [done|done|lia]).
  rewrite <- slen_snoc. destruct b.
  - assert (Hscan : forall k, kind_ok (span begin_ (slen (pre ++ [c]))) k -> k <> TEnd ->
      scans pre (c :: rest) (token_scan begin_ pre) (Ok (k, slen (pre ++ [c])))).
    { intros k Hk Hne. exists [c], rest. by split_and!. }
    destruct single.
    + pose proof (push_word begin_ q Hq ltac:(by rewrite Ho)) as Hw. rewrite Ho in Hw.
      apply (words_from_later _ _ _ (slen (pre ++ [c]))) in Hw; [|rewrite slen_snoc; lia].
      cbn [andb]. destruct (str_eqb (qs_value q) []); cbn [negb];
        (case_bool_decide as Hd; [done|]); apply Hscan; try done;
        (split; [by intros Hn; rewrite Hn in Hd|done]).
    + cbn [andb]. destruct (str_eqb (qs_value q) []) eqn:E; [done|].
      apply Hscan; [|done]. intros Hn. apply str_eqb_eq in Hn. simpl in Hn. congruence.
  - assert (Hf' : (length rest <= fuel)%nat) by (simpl in Hf; lia).
    assert (Hnext : forall q', qs_offset q' = slen (pre ++ [c]) -> quote_ok begin_ q' ->
      scans pre (c :: rest) (token_scan begin_ pre) (quote_loop input fuel single begin_ q')).
    { intros q' Ho' Hq'. eapply scans_cons; [apply IH; try done;
        [by rewrite <- snoc_app|rewrite slen_snoc; lia]|].
      intros k m rest' Hk. by apply (token_scan_later begin_ pre [c]). }
    destruct (single && is_whitespace c).
    + apply Hnext; [done|]. split; [|done]. cbn [qs_words qs_value words_end qs_offset].
      apply (words_from_later _ _ (qs_offset q)); [rewrite <- Ho; apply push_word; [done|by rewrite Ho]|].
      unfold words_end. simpl. rewrite slen_snoc. lia.
    + assert (Hstart : forall off v, v <> [] -> slen pre <= off -> quote_ok begin_
        {| qs_offset := off; qs_value := v; qs_words := qs_words q;
        qs_word_start := if str_eqb (qs_value q) [] then slen pre else qs_word_start q |}).
      { intros off v Hv Hoff. destruct Hq as [Hw Hs]. split.
        { unfold words_end in *. simpl. rewrite Ho in Hw.
          destruct (str_eqb v []) eqn:Ev; [by apply str_eqb_eq in Ev|done]. }
        simpl. intros _.
        destruct (str_eqb (qs_value q) []) eqn:E; [by split|].
        destruct Hs as [? ?]; [intros Hn; apply str_eqb_eq in Hn; congruence|]. split; [done|lia]. }
      destruct (Z.eqb_spec c BACKSLASH) as [->|Hnb].
      * pose proof (escaped_at pre rest Hi) as He. destruct rest as [|c rest].
        -- rewrite He. by apply (span_ok_app pre [BACKSLASH] []).
        -- rewrite He. eapply (scans_later pre [BACKSLASH; c]); [apply IH; try done|].
          ++ by rewrite Hi, <- app_assoc.
          ++ simpl in Hf. lia.
          ++ apply Hstart; [by destruct (qs_value q)|]. rewrite slen_app. pose proof (slen_nonneg [BACKSLASH; c]). lia.
          ++ rewrite slen_app. pose proof (slen_nonneg [BACKSLASH; c]). lia.
          ++ intros k m rest'. apply token_scan_later.
      * apply Hnext; [done|]. apply Hstart; [by destruct (qs_value q)|]. rewrite slen_snoc. lia.
Qed.

(** A token lies where it was read. *)
Definition token_ok (t : Token) : Prop := kind_ok (tk_span t) (tk_kind t) /\ span_ok (tk_span t).

Lemma next_scans pre rest :
  input = pre ++ rest ->
  match next input (slen pre) with
  | Ok (t, off) => exists ws m rest', rest = ws ++ m ++ rest' /\ off = slen (pre ++ ws ++ m)
      /\ tk_span t = span (slen (pre ++ ws)) off /\ token_ok t
      /\ (tk_kind t = TEnd /\ m = [] /\ rest' = [] \/ tk_kind t <> TEnd /\ m <> [])
  | Err (Error e) => span_ok (pe_span e)
  | Err Panic | Err OutOfFuel => False
  end.
Proof.
  intros Hi. unfold next.
  assert (Hfuel : (length rest <= scan_fuel input)%nat)
    by (unfold scan_fuel; rewrite Hi, length_app; lia).
  destruct (skip_whitespace_scans (scan_fuel input) pre rest Hi Hfuel) as (ws & rest1 & -> & -> & Hws).
  assert (Hi1 : input = (pre ++ ws) ++ rest1) by (by rewrite Hi, <- app_assoc).
  rewrite length_app in Hfuel. rewrite (current_at _ _ Hi1). destruct rest1 as [|c rest1]; cbn [head].
  { exists ws, [], []. rewrite !app_nil_r. split_and!; [done|done|done| |by left].
    pose proof (span_ok_app (pre ++ ws) [] []) as Hs. rewrite !app_nil_r in *.
    split; [done|]. by apply Hs. }
  assert (Hgen : forall r, scans (pre ++ ws) (c :: rest1) (token_scan (slen (pre ++ ws)) (pre ++ ws)) r ->
    match (let? (kind, off) := r in
    Ok ({| tk_kind := kind; tk_span := span (slen (pre ++ ws)) off |}, off)) with
    | Ok (t, off) => exists ws' m rest', ws ++ c :: rest1 = ws' ++ m ++ rest' /\ off = slen (pre ++ ws' ++ m)
    /\ tk_span t = span (slen (pre ++ ws')) off /\ token_ok t
    /\ (tk_kind t = TEnd /\ m = [] /\ rest' = [] \/ tk_kind t <> TEnd /\ m <> [])
    | Err (Error e) => span_ok (pe_span e)
    | Err Panic | Err OutOfFuel => False
    end).
  { intros [[k off]|[e| |]]; [|done..]. intros (m & rest' & Hm & -> & Hk & Hne & Hmne).
    exists ws, m, rest'. rewrite Hm. split_and!; [done|by rewrite app_assoc|done| |by right].
    split; [done|]. apply (span_ok_app (pre ++ ws) m rest'). by rewrite Hi1, Hm. }
  assert (Hone : forall k, kind_ok (span (slen (pre ++ ws)) (slen ((pre ++ ws) ++ [c]))) k -> k <> TEnd ->
    scans (pre ++ ws) (c :: rest1) (token_scan (slen (pre ++ ws)) (pre ++ ws)) (Ok (k, slen (pre ++ ws) + len_utf8 c))).
  { intros k Hk Hne. exists [c], rest1. rewrite <- slen_snoc. by split_and!. }
  pose proof (boundary_app _ _ Hi1) as Hb1.
  assert (Hquote : forall single, len_utf8 c = 1 -> scans (pre ++ ws) (c :: rest1) (token_scan (slen (pre ++ ws)) (pre ++ ws))
    (scan_quoted input (scan_fuel input) single (slen (pre ++ ws)))).
  { intros single Hl. unfold scan_quoted. rewrite <- Hl, <- slen_snoc.
    eapply scans_cons; [apply quote_loop_scans; try done|intros k m r; apply (token_scan_later _ (pre ++ ws) [c])].
    - by rewrite <- snoc_app.
    - simpl in Hfuel. lia.
    - split; [|done]. unfold words_end. simpl. rewrite slen_snoc. lia.
    - rewrite slen_snoc. lia. }
  apply Hgen.
  destruct (Z.eqb_spec c (ch "(")) as [->|H1]; [by apply (Hone TOpen)|].
  destruct (Z.eqb_spec c (ch ")")) as [->|H2]; [by apply (Hone TClose)|].
  destruct (Z.eqb_spec c (ch "-")) as [->|H3]; [by apply (Hone TMinus)|].
  destruct (Z.eqb_spec c QUOTE) as [->|H4]; [by apply Hquote|].
  destruct (Z.eqb_spec c APOSTROPHE) as [->|H5]; [by apply Hquote|].
  rewrite Hi1 at 1. rewrite str_from_app.
  destruct (starts_with (u "in:") (c :: rest1)) eqn:Ein.
  - apply starts_with_iff in Ein as [r Hr]. rewrite Hr in *. apply scan_field_scans; [done|].
    rewrite length_app in Hfuel. lia.
  - by apply scan_word_scans; [|simpl in *; lia|].
Qed.
End scanner_facts.

(** * Syntax trees *)

Fixpoint count (e : Expr) : Z :=
  match e with
  | mkExpr k _ =>
    match k with
    | KNot e | KField _ e | KGroup _ e => 1 + count e
    | KAnd es | KOr es => 1 + sum_Z (List.map count es)
    | MatchAll | KTerm _ | KExact _ | KPrefix _ => 1
    end
  end.

Definition inside (outer inner : ByteSpan) : Prop :=
  start outer <= start inner /\ end_ inner <= end_ outer.

Section parser_facts.
Context `{Unicode} (fields : list str) (input : str).

(** [expr_wf d scoped l e]: [e] is a well-formed expression at nesting depth
    [d], inside a field or not, of level 0 (an operand), 1 (a conjunction) or 2
    (a disjunction); every span is a span of the input that contains those of
    its parts. *)
Inductive expr_wf : Z -> bool -> Z -> Expr -> Prop :=
| wf_term d sc l v s : v <> [] -> span_ok input s -> expr_wf d sc l (mkExpr (KTerm v) s)
| wf_prefix d sc l v s : v <> [] -> span_ok input s -> expr_wf d sc l (mkExpr (KPrefix v) s)
| wf_exact d sc l v s : v <> [] -> span_ok input s -> expr_wf d sc l (mkExpr (KExact v) s)
| wf_not d sc l e s :
  d < MAX_QUERY_NESTING -> expr_wf (d + 1) sc 0 e -> span_ok input s -> inside s (expr_span e) ->
  expr_wf d sc l (mkExpr (KNot e) s)
| wf_field d l name e s :
  d < MAX_QUERY_NESTING -> name ∈ fields -> expr_wf (d + 1) true 0 e ->
  span_ok input s -> inside s (expr_span e) ->
  expr_wf d false l (mkExpr (KField name e) s)
| wf_parens d sc l e s :
  d < MAX_QUERY_NESTING -> expr_wf (d + 1) sc 2 e -> span_ok input s -> inside s (expr_span e) ->
  expr_wf d sc l (mkExpr (KGroup Parentheses e) s)
| wf_quotes d sc l e s :
  d < MAX_QUERY_NESTING -> expr_wf (d + 1) sc 1 e -> span_ok input s -> inside s (expr_span e) ->
  expr_wf d sc l (mkExpr (KGroup SingleQuotes e) s)
| wf_and d sc l es s :
  1 <= l -> (2 <= length es)%nat -> Forall (expr_wf d sc 0) es -> span_ok input s ->
  Forall (fun e => inside s (expr_span e)) es ->
  expr_wf d sc l (mkExpr (KAnd es) s)
| wf_or d sc l es s :
  2 <= l -> (2 <= length es)%nat -> Forall (expr_wf d sc 1) es -> span_ok input s ->
  Forall (fun e => inside s (expr_span e)) es ->
  expr_wf d sc l (mkExpr (KOr es) s).

Lemma expr_wf_span d sc l e : expr_wf d sc l e -> span_ok input (expr_span e).
Proof. by destruct 1. Qed.

Lemma expr_wf_level d sc l l' e : expr_wf d sc l e -> l <= l' -> expr_wf d sc l' e.
Proof. destruct 1; intros; constructor; try done; lia. Qed.

(** ** The parser's state *)

Definition rest_of (off : Z) : str := default [] (str_from input off).

Definition frontier (p : parser) : Z :=
  match p_lookahead p with Some t => start (tk_span t) | None => p_offset p end.

Definition pending (p : parser) : nat :=
  match p_lookahead p with Some t => if is_end (tk_kind t) then 0 else 1 | None => 0 end.

(** Characters and tokens still to be read. *)
Definition measure (p : parser) : nat := length (rest_of (p_offset p)) + pending p.

Record parser_ok (p : parser) : Prop := {
  po_boundary : boundary input (p_offset p);
  po_lookahead : forall t, p_lookahead p = Some t ->
  token_ok input t /\ end_ (tk_span t) = p_offset p;
  po_nodes : 0 <= p_nodes p <= MAX_QUERY_NODES;
}.

(** [m] answers from [p]: an error has a span of the input. *)
Definition pwp {A} (m : P A) (Q : A -> parser -> Prop) (p : parser) : Prop :=
  match m p with
  | Ok (a, p') => Q a p'
  | Err (Error e) => span_ok input (pe_span e)
  | Err Panic | Err OutOfFuel => False
  end.

Lemma pwp_bind {A B} (m : P A) (k : A -> P B) Q p :
  pwp m (fun a p' => pwp (k a) Q p') p -> pwp (pbind m k) Q p.
Proof. unfold pwp, pbind. by destruct (m p) as [[a p']|[e| |]]. Qed.

Lemma pwp_mono {A} (m : P A) (Q Q' : A -> parser -> Prop) p :
  pwp m Q p -> (forall a p', Q a p' -> Q' a p') -> pwp m Q' p.
Proof. unfold pwp. destruct (m p) as [[a p']|[e| |]]; auto. Qed.

Lemma pwp_raise {A} k s (Q : A -> parser -> Prop) p : span_ok input s -> pwp (praise k s) Q p.
Proof. done. Qed.

Lemma pwp_pure {A} (a : A) (Q : A -> parser -> Prop) p : Q a p -> pwp (pure a) Q p.
Proof. done. Qed.

Lemma boundary_split off : boundary input off -> exists pre rest, input = pre ++ rest /\ off = slen pre.
Proof. intros (a & b & -> & <-)%char_boundary_iff. by exists a, b. Qed.

Lemma rest_of_app pre rest : input = pre ++ rest -> rest_of (slen pre) = rest.
Proof. intros Hi. unfold rest_of. by rewrite Hi, str_from_app. Qed.

Lemma frontier_le p : parser_ok p -> frontier p <= p_offset p.
Proof.
  intros [_ Hl _]. unfold frontier. destruct (p_lookahead p) as [t|]; [|done].
  destruct (Hl t eq_refl) as [[_ (_ & _ & Hs)] <-]. done.
Qed.

(** What reading a token does. *)
Record taken (p : parser) (t : Token) (p' : parser) : Prop := {
  ta_ok : parser_ok p';
  ta_none : p_lookahead p' = None;
  ta_token : token_ok input t;
  ta_end : end_ (tk_span t) = p_offset p';
  ta_start : frontier p <= start (tk_span t);
  ta_nodes : p_nodes p' = p_nodes p;
  ta_measure : (measure p' + (if is_end (tk_kind t) then 0 else 1) <= measure p)%nat;
}.

Lemma take_token_spec p :
  parser_ok p ->
  pwp (take_token input) (fun t p' => taken p t p' /\ (forall t', p_lookahead p = Some t' -> t = t')) p.
Proof.
  intros Hp. pose proof Hp as [Hb Hl Hn]. unfold pwp, take_token.
  destruct (p_lookahead p) as [t|] eqn:El.
  - destruct (Hl t eq_refl) as [Ht He]. split; [|by intros t' [= ->]]. constructor; try done.
    + unfold frontier. by rewrite El.
    + unfold measure, pending. rewrite El. simpl. lia.
  - apply boundary_split in Hb as (pre & rest & Hi & Ho). rewrite Ho.
    pose proof (next_scans input pre rest Hi) as Hnext.
    destruct (next input (slen pre)) as [[t off]|[e| |]]; [|done..].
    destruct Hnext as (ws & m & rest' & Hrest & -> & Hs & Ht & Hm). split; [|done].
    assert (Hi' : input = (pre ++ ws ++ m) ++ rest') by (by rewrite Hi, Hrest, <- !app_assoc).
    constructor; try done.
    + constructor; [by eapply boundary_app|done|done].
    + by rewrite Hs.
    + unfold frontier. rewrite El, Ho, Hs. simpl. rewrite slen_app. pose proof (slen_nonneg ws). lia.
    + unfold measure, pending. rewrite El. simpl. rewrite Ho, (rest_of_app _ _ Hi), (rest_of_app _ _ Hi').
      rewrite Hrest, !length_app. destruct Hm as [(-> & -> & ->)|[Hne Hm]]; [simpl; lia|].
      destruct m; [done|]. simpl. destruct (tk_kind t); simpl; lia.
Qed.

(** What looking at the next token does. *)
Record peeked (p : parser) (t : Token) (p' : parser) : Prop := {
  pk_ok : parser_ok p';
  pk_token : p_lookahead p' = Some t;
  pk_frontier : frontier p <= start (tk_span t);
  pk_nodes : p_nodes p' = p_nodes p;
  pk_measure : (measure p' <= measure p)%nat;
}.

Lemma peek_spec p : parser_ok p -> pwp (peek input) (fun t p' => peeked p t p') p.
Proof.
  intros Hp. pose proof (take_token_spec p Hp) as Ht. unfold pwp, peek in *.
  destruct (take_token input p) as [[t p']|[e| |]]; [|done..]. destruct Ht as [[] _].
  constructor; simpl; try done.
  - destruct ta_ok0. constructor; simpl; [done| |done]. intros t' [= <-]. by split.
  - unfold measure, pending in *. rewrite ta_none0 in *. simpl in *.
    destruct (is_end (tk_kind t)); lia.
Qed.

Lemma node_spec kind s p :
  parser_ok p -> span_ok input s ->
  pwp (node kind s) (fun e p' => e = mkExpr kind s /\ parser_ok p' /\ p_nodes p' = p_nodes p + 1
      /\ frontier p' = frontier p /\ measure p' = measure p /\ p_lookahead p' = p_lookahead p
      /\ p_offset p' = p_offset p) p.
Proof.
  intros [Hb Hl Hn] Hs. unfold pwp, node. destruct (Z.leb_spec MAX_QUERY_NODES (p_nodes p)); [done|].
  split_and!; try done. constructor; simpl; [done|done|lia].
Qed.
(** ** Results of the descent *)

Record parsed (d : Z) (sc : bool) (l : Z) (p : parser) (e : Expr) (p' : parser) : Prop := {
  pd_ok : parser_ok p';
  pd_wf : expr_wf d sc l e;
  pd_measure : (measure p' < measure p)%nat;
  pd_from : frontier p <= start (expr_span e);
  pd_to : end_ (expr_span e) <= frontier p';
  pd_count : p_nodes p' = p_nodes p + count e;
}.

(** The operands collected so far, from [s] to [e]. *)
Record collected (d : Z) (sc : bool) (l s e : Z) (es : list Expr) : Prop := {
  co_wf : Forall (expr_wf d sc l) es;
  co_inside : Forall (fun x => inside (span s e) (expr_span x)) es;
  co_span : span_ok input (span s e);
  co_single : forall x, es = [x] -> expr_span x = span s e;
  co_some : es <> [];
}.

Lemma collected_single d sc l x :
  expr_wf d sc l x -> collected d sc l (start (expr_span x)) (end_ (expr_span x)) [x].
Proof.
  intros Hx. pose proof (expr_wf_span _ _ _ _ Hx). assert (expr_span x = span (start (expr_span x)) (end_ (expr_span x)))
    as Hs by (by destruct (expr_span x)).
  constructor; [by constructor| |by rewrite <- Hs|by intros ? [= <-]|done].
  constructor; [|done]. by split.
Qed.

Lemma collected_snoc d sc l s e es x :
  collected d sc l s e es -> expr_wf d sc l x -> e <= start (expr_span x) ->
  collected d sc l s (end_ (expr_span x)) (es ++ [x]).
Proof.
  intros [Hw Hi (Hs & He & Hse) _ Hne] Hx Hle. simpl in *.
  pose proof (expr_wf_span _ _ _ _ Hx) as (Hxs & Hxe & Hxse).
  constructor.
  - apply Forall_app. by split; [|constructor].
  - apply Forall_app. split; [|constructor; [|done]].
    + eapply Forall_impl; [exact Hi|]. intros y [? ?]. split; simpl in *; lia.
    + split; simpl; lia.
  - split_and!; simpl; [done|done|lia].
  - intros y Hy. destruct es as [|z [|]]; done.
  - by destruct es.
Qed.

(** What follows an operand list collected up to [p]. *)
Record looped (d : Z) (sc : bool) (l s : Z) (es : list Expr) (p : parser) (x : Expr) (p' : parser)
  : Prop := {
    lo_ok : parser_ok p';
    lo_wf : expr_wf d sc l x;
    lo_measure : (measure p' <= measure p)%nat;
    lo_start : start (expr_span x) = s;
    lo_to : end_ (expr_span x) <= frontier p';
    lo_count : p_nodes p' + sum_Z (List.map count es) = p_nodes p + count x;
  }.

Lemma chain_spec d sc l s e es (and : bool) p :
  collected d sc l s e es -> l = (if and then 0 else 1) -> parser_ok p -> e <= frontier p ->
  pwp (chain es and (span s e)) (fun x p' => looped d sc (l + 1) s es p x p' /\
    expr_span x = span s e /\ frontier p' = frontier p) p.
Proof.
  intros [Hw Hi Hs H1 Hne] Hl Hp He. destruct es as [|x [|y es]]; [done|..]; cbn [chain].
  - apply pwp_pure. specialize (H1 x eq_refl). apply Forall_cons in Hw as [Hw _].
    split; [|done]. constructor; [done| |done|by rewrite H1|by rewrite H1|simpl; lia].
    apply (expr_wf_level d sc l); [exact Hw|lia].
  - eapply pwp_mono; [by apply node_spec|]. intros r p' (-> & Hp' & Hn & Hf & Hm & _ & _).
    set (l0 := x :: y :: es) in *.
    assert (Hlen : (2 <= length l0)%nat) by (simpl; lia).
    assert (Hc : count (mkExpr (if and then KAnd l0 else KOr l0) (span s e)) = 1 + sum_Z (List.map count l0))
      by (by destruct and).
    split; [|done]. constructor; [done| |lia|done|simpl; lia|rewrite Hc; lia].
    destruct and; subst l; by constructor.
Qed.

Definition fuel_for (rank : nat) (p : parser) : nat := 3 * measure p + rank.

(** The operand that a loop reads next, and the rest of the loop. *)
Lemma loop_next d sc l s e es p p1 (parse_one : P Expr) (continue : Expr -> P Expr) lf :
  collected d sc l s e es -> e <= frontier p -> frontier p <= frontier p1 -> p_nodes p1 = p_nodes p ->
  (measure p1 <= measure p)%nat ->
  pwp parse_one (parsed d sc l p1) p1 ->
  (forall x p2, parser_ok p2 -> (measure p2 < measure p)%nat ->
    collected d sc l s (end_ (expr_span x)) (es ++ [x]) -> end_ (expr_span x) <= frontier p2 ->
    pwp (continue x) (looped d sc lf s (es ++ [x]) p2) p2) ->
  pwp (pbind parse_one continue) (looped d sc lf s es p) p1.
Proof.
  intros Hc He Hf Hn Hm Hone Hcont. apply pwp_bind. eapply pwp_mono; [exact Hone|].
  intros x p2 [Ho Hw Hm2 Hfrom Hto Hcount].
  eapply pwp_mono; [apply Hcont; [done|lia| |done]|].
  - eapply collected_snoc; [done|done|lia].
  - intros r p3 [? ? ? ? ? Hcr]. constructor; try done; [lia|].
    rewrite map_app, sum_Z_app in Hcr. simpl in Hcr. lia.
Qed.

Definition term_node (w : str * ByteSpan) : Expr := mkExpr (KTerm w.1) w.2.

Lemma word_nodes_spec words p lo hi :
  parser_ok p -> words_from input lo words hi ->
  pwp (word_nodes words) (fun es p' => es = List.map term_node words /\ parser_ok p'
      /\ frontier p' = frontier p /\ measure p' = measure p
      /\ p_nodes p' = p_nodes p + sum_Z (List.map count es)) p.
Proof.
  revert p lo. induction words as [|[v r] words IH]; intros p lo Hp; cbn [word_nodes].
  { intros _. apply pwp_pure. split_and!; try done. simpl. lia. }
  intros (Hv & Hr & _ & Hw).
  apply pwp_bind. eapply pwp_mono; [by apply node_spec|].
  intros e p1 (-> & Hp1 & Hn1 & Hf1 & Hm1 & Hl1 & Ho1). apply pwp_bind.
  eapply pwp_mono; [by eapply IH|]. intros es p2 (-> & Hp2 & Hf2 & Hm2 & Hn2).
  apply pwp_pure. split_and!; try done; try congruence. simpl in *. lia.
Qed.

(** The terms of a quoted group follow one another. *)
Lemma collected_words d sc s e es words hi :
  collected d sc 0 s e es -> words_from input e words hi ->
  let e' := match last words with Some (_, r) => end_ r | None => e end in
  collected d sc 0 s e' (es ++ List.map term_node words) /\ e' <= hi.
Proof.
  revert e es. induction words as [|[v r] words IH]; intros e es Hc; simpl.
  { rewrite app_nil_r. done. }
  intros (Hv & Hr & Hle & Hw).
  destruct (IH (end_ r) (es ++ [term_node (v, r)])) as [Hc' He']; [|done|].
  - apply (collected_snoc _ _ _ _ _ _ (term_node (v, r)) Hc); [by apply wf_term|done].
  - rewrite <- app_assoc in Hc'. destruct words as [|w words]; [exact (conj Hc' He')|].
    destruct (last (w :: words)) as [[? ?]|] eqn:El; [|by apply last_None in El].
    change (last ((v, r) :: w :: words)) with (last (w :: words)). rewrite El in *. exact (conj Hc' He').
Qed.

Lemma span_range s : span_ok input s -> exists m, str_range input (start s) (end_ s) = Some m.
Proof.
  intros ((a & t & Hi & Ha)%boundary_split & (b & t' & Hi' & Hb)%boundary_split & Hle).
  rewrite Ha, Hb in *. rewrite Hi in Hi'. apply app_eq_inv in Hi' as [(k & -> & ->)|(k & -> & ->)].
  - rewrite slen_app in Hle. assert (k = []) as -> by (apply slen_zero; pose proof (slen_nonneg k); lia).
    exists []. rewrite app_nil_r in *. rewrite Hi.
    replace (slen b) with (slen b + slen []) at 2 by (simpl; lia).
    apply (str_range_app b [] _).
  - exists k. rewrite Hi, slen_app. apply str_range_app.
Qed.

Lemma reject_shorthand_spec s p :
  span_ok input s -> pwp (reject_shorthand fields input s) (fun _ p' => p' = p) p.
Proof.
  intros Hs. unfold pwp, reject_shorthand. destruct (span_range s Hs) as [m ->].
  by destruct (existsb _ _).
Qed.

Lemma nested_spec d s p :
  span_ok input s -> pwp (nested d s) (fun d' p' => p' = p /\ d' = d + 1 /\ d < MAX_QUERY_NESTING) p.
Proof. intros Hs. unfold pwp, nested. by destruct (Z.leb_spec MAX_QUERY_NESTING d). Qed.

(** A node around what was parsed between a token and the parser's state. *)
Lemma span_ok_to s s' : span_ok input s -> span_ok input s' -> end_ s <= start s' ->
  span_ok input (range_to s s') /\ inside (range_to s s') s' /\ inside (range_to s s') s.
Proof. intros (? & ? & ?) (? & ? & ?) ?. unfold span_ok, inside. simpl. split_and!; try done; lia. Qed.

(** ** The mutual recursion: each function answers when its fuel covers what
    remains to be read. *)

Definition or_spec (f : nat) : Prop := forall d sc p,
  parser_ok p -> (3 * measure p + 3 <= f)%nat -> pwp (or_ fields input f d sc) (parsed d sc 2 p) p.
Definition and_spec (f : nat) : Prop := forall d sc p,
  parser_ok p -> (3 * measure p + 2 <= f)%nat -> pwp (and_ fields input f d sc) (parsed d sc 1 p) p.
Definition operand_spec (f : nat) : Prop := forall d sc p,
  parser_ok p -> (3 * measure p + 1 <= f)%nat -> pwp (operand fields input f d sc) (parsed d sc 0 p) p.
Definition or_loop_spec (f : nat) : Prop := forall d sc s e es p,
  collected d sc 1 s e es -> e <= frontier p -> parser_ok p -> (3 * measure p + 3 <= f)%nat ->
  pwp (or_loop fields input f d sc s e es) (looped d sc 2 s es p) p.
Definition and_loop_spec (f : nat) : Prop := forall d sc s e es p,
  collected d sc 0 s e es -> e <= frontier p -> parser_ok p -> (3 * measure p + 2 <= f)%nat ->
  pwp (and_loop fields input f d sc s e es) (looped d sc 1 s es p) p.

(** The first operand, then the loop. *)
Lemma first_then d sc l p (one : P Expr) (loop : Z -> Z -> list Expr -> P Expr) :
  pwp one (parsed d sc l p) p ->
  (forall s e es p1, collected d sc l s e es -> e <= frontier p1 -> parser_ok p1 ->
    (measure p1 < measure p)%nat -> pwp (loop s e es) (looped d sc (l + 1) s es p1) p1) ->
  pwp (let* first := one in loop (start (expr_span first)) (end_ (expr_span first)) [first])
  (parsed d sc (l + 1) p) p.
Proof.
  intros Hone Hloop. apply pwp_bind. eapply pwp_mono; [exact Hone|].
  intros x p1 [Ho Hw Hm Hfrom Hto Hcount].
  eapply pwp_mono; [apply Hloop; [by apply collected_single|done..]|].
  intros r p2 [? ? ? Hs ? Hc]. constructor; try done; [lia|by rewrite Hs|].
  simpl in Hc. lia.
Qed.

(** The token under [peek] is then taken. *)
Lemma retake t p : parser_ok p -> p_lookahead p = Some t -> tk_kind t <> TEnd ->
  pwp (take_token input) (fun _ p' => parser_ok p' /\ frontier p <= frontier p' /\
    p_nodes p' = p_nodes p /\ (measure p' < measure p)%nat) p.
Proof.
  intros Hp Hl Hne. eapply pwp_mono; [by apply take_token_spec|].
  intros t' p' [[Ho Hn [_ (_ & _ & Hle)] He Hs Hno Hm] Heq]. rewrite <- (Heq t Hl) in *.
  split_and!; [done| |done|destruct (tk_kind t'); simpl in *; try done; lia].
  unfold frontier at 2. rewrite Hn. lia.
Qed.

Lemma chain_peeked d sc l s e es (and : bool) p t p1 :
  collected d sc l s e es -> l = (if and then 0 else 1) -> e <= frontier p -> peeked p t p1 ->
  pwp (chain es and (span s e)) (looped d sc (l + 1) s es p) p1.
Proof.
  intros Hc Hl He [Ho Ht Hf Hn Hm].
  assert (frontier p1 = start (tk_span t)) as Hf1 by (unfold frontier; by rewrite Ht).
  eapply pwp_mono; [apply chain_spec; [done|done|done|lia]|].
  intros x p2 [[] _]. constructor; try done; lia.
Qed.

Lemma peeked_frontier p t p1 : peeked p t p1 -> frontier p1 = start (tk_span t).
Proof. intros []. unfold frontier. by rewrite pk_token0. Qed.

Lemma or_step f : and_spec f -> or_loop_spec f -> or_spec (S f).
Proof.
  intros Hand Hloop d sc p Hp Hf. cbn [or_]. apply (first_then d sc 1); [apply Hand; [done|lia]|].
  intros s e es p1 Hc He Hp1 Hm. apply Hloop; [done..|lia].
Qed.

Lemma and_step f : operand_spec f -> and_loop_spec f -> and_spec (S f).
Proof.
  intros Hone Hloop d sc p Hp Hf. cbn [and_]. apply (first_then d sc 0); [apply Hone; [done|lia]|].
  intros s e es p1 Hc He Hp1 Hm. apply Hloop; [done..|lia].
Qed.

Lemma or_loop_step f : and_spec f -> or_loop_spec f -> or_loop_spec (S f).
Proof.
  intros Hand Hloop d sc s e es p Hc He Hp Hf. cbn [or_loop].
  apply pwp_bind. eapply pwp_mono; [by apply peek_spec|]. intros t p1 Hpk.
  pose proof (peeked_frontier _ _ _ Hpk) as Hfr. pose proof Hpk as [Ho Ht Hle Hn Hm].
  destruct (is_or (tk_kind t)) eqn:Ek; [|by apply (chain_peeked d sc 1 s e es false p t p1)].
  apply pwp_bind. eapply pwp_mono; [apply (retake t); [done|done|by destruct (tk_kind t)]|].
  intros t' p2 (Ho2 & Hf2 & Hn2 & Hm2).
  eapply (loop_next d sc 1 s e es p p2); [done|done|lia|lia|lia|apply Hand; [done|lia]|].
  intros x p3 Hp3 Hm3 Hc3 He3. apply Hloop; [done|done|done|lia].
Qed.

Lemma and_loop_step f : operand_spec f -> and_loop_spec f -> and_loop_spec (S f).
Proof.
  intros Hone Hloop d sc s e es p Hc He Hp Hf. cbn [and_loop].
  apply pwp_bind. eapply pwp_mono; [by apply peek_spec|]. intros t p1 Hpk.
  pose proof (peeked_frontier _ _ _ Hpk) as Hfr. pose proof Hpk as [Ho Ht Hle Hn Hm].
  assert (Hcont : forall p2, parser_ok p2 -> frontier p1 <= frontier p2 -> p_nodes p2 = p_nodes p1 ->
    (measure p2 <= measure p1)%nat ->
    pwp (let* next := operand fields input f d sc in
    and_loop fields input f d sc s (end_ (expr_span next)) (es ++ [next]))
    (looped d sc 1 s es p) p2).
  { intros p2 Ho2 Hf2 Hn2 Hm2.
    eapply (loop_next d sc 0 s e es p p2); [done|done|lia|lia|lia|apply Hone; [done|lia]|].
    intros x p3 Hp3 Hm3 Hc3 He3. apply Hloop; [done|done|done|lia]. }
  destruct (is_and (tk_kind t)) eqn:Ek.
  { apply pwp_bind. eapply pwp_mono; [apply (retake t); [done|done|by destruct (tk_kind t)]|].
    intros t' p2 (Ho2 & Hf2 & Hn2 & Hm2). apply Hcont; [done|lia|lia|lia]. }
  destruct (starts_operand (tk_kind t)); [|by apply (chain_peeked d sc 0 s e es true p t p1)].
  destruct (_ =? _); [|by apply Hcont].
  apply pwp_raise. destruct Ho as [_ Hl _]. apply (Hl t Ht).
Qed.

(** An operand that is one node over the token just taken. *)
Lemma leaf_spec d sc p t p1 kind :
  taken p t p1 -> tk_kind t <> TEnd -> expr_wf d sc 0 (mkExpr kind (tk_span t)) ->
  count (mkExpr kind (tk_span t)) = 1 ->
  pwp (node kind (tk_span t)) (parsed d sc 0 p) p1.
Proof.
  intros [Ho Hnone [_ Ht] He Hs Hn Hm] Hne Hw Hc. eapply pwp_mono; [by apply node_spec|].
  intros e p2 (-> & Hp2 & Hn2 & Hf2 & Hm2 & _). constructor; [done|done| |done| |lia].
  - destruct (tk_kind t); simpl in *; try done; lia.
  - rewrite Hf2. simpl. unfold frontier. rewrite Hnone. lia.
Qed.

(** A node around an operand parsed behind a token. *)
Lemma wrap_spec d d' sc sc' l (p p1 p2 p3 : parser) t inner kind s :
  taken p t p1 -> frontier p1 <= frontier p2 -> p_nodes p2 = p_nodes p1 ->
  (measure p2 <= measure p1)%nat -> parsed d' sc' l p2 inner p3 ->
  span_ok input s -> start s = start (tk_span t) -> end_ s <= frontier p3 ->
  expr_wf d sc 0 (mkExpr kind s) -> count (mkExpr kind s) = 1 + count inner ->
  pwp (node kind s) (parsed d sc 0 p) p3.
Proof.
  intros [Ho Hnone _ He Hs Hn Hm] Hf2 Hn2 Hm2 [Hp3 Hw Hm3 Hfrom Hto Hc] Hsp Hss Hse Hwf Hcount.
  eapply pwp_mono; [by apply node_spec|]. intros e p4 (-> & Hp4 & Hn4 & Hf4 & Hm4 & _).
  constructor; [done|done|lia|simpl; lia|simpl; lia|lia].
Qed.

Lemma parsed_taken d sc l p e p1 t p2 : parsed d sc l p e p1 -> taken p1 t p2 -> parsed d sc l p e p2.
Proof.
  intros [? ? ? ? ? ?] [? Hnone [_ (_ & _ & Hle)] ? ? ? Hm].
  assert (frontier p2 = end_ (tk_span t)) by (unfold frontier; by rewrite Hnone).
  constructor; try done; lia.
Qed.

Lemma taken_frontier p t p1 : taken p t p1 -> frontier p1 = end_ (tk_span t).
Proof. intros []. unfold frontier. by rewrite ta_none0. Qed.

Lemma operand_not f d sc p t p1 :
  operand_spec f -> (3 * measure p <= f)%nat -> taken p t p1 -> tk_kind t <> TEnd ->
  pwp (let* inner_depth := nested d (tk_span t) in
    let* inner := operand fields input f inner_depth sc in
    node (KNot inner) (range_to (tk_span t) (expr_span inner))) (parsed d sc 0 p) p1.
Proof.
  intros Hop Hf Ht Hne. pose proof (taken_frontier _ _ _ Ht) as Hfr. pose proof Ht as [Ho _ [_ Hs] _ _ _ Hm].
  assert (measure p1 < measure p)%nat by (destruct (tk_kind t); simpl in *; try done; lia).
  apply pwp_bind. eapply pwp_mono; [by apply nested_spec|]. intros d' p1' (-> & -> & Hd).
  apply pwp_bind. eapply pwp_mono; [apply Hop; [done|lia]|]. intros e p2 Hp2.
  pose proof Hp2 as [_ Hw _ Hfrom Hto _].
  destruct (span_ok_to (tk_span t) (expr_span e) Hs (expr_wf_span _ _ _ _ Hw)) as (Hr & Hi & _); [lia|].
  eapply (wrap_spec d (d + 1) sc sc 0 p p1 p1 p2 t e); try done. by apply wf_not.
Qed.

Lemma operand_field f d sc p t p1 name :
  operand_spec f -> (3 * measure p <= f)%nat -> taken p t p1 -> tk_kind t = TField name ->
  pwp (if sc : bool then praise NestedField (tk_span t)
    else if negb (existsb (str_eqb name) fields) then praise UnknownField (tk_span t)
    else
    let* inner_depth := nested d (tk_span t) in
    let* next := peek input in
    if negb (start (tk_span next) =? end_ (tk_span t)) || negb (starts_operand (tk_kind next))
      then praise InvalidFieldSyntax (tk_span next)
    else
    let* inner := operand fields input f inner_depth true in
    node (KField name inner) (range_to (tk_span t) (expr_span inner))) (parsed d sc 0 p) p1.
Proof.
  intros Hop Hf Ht Hk. pose proof (taken_frontier _ _ _ Ht) as Hfr. pose proof Ht as [Ho _ [_ Hs] _ _ _ Hm].
  assert (measure p1 < measure p)%nat by (rewrite Hk in *; simpl in *; lia).
  destruct sc; [done|]. destruct (existsb (str_eqb name) fields) eqn:Ef; [|done]. cbn [negb].
  apply pwp_bind. eapply pwp_mono; [by apply nested_spec|]. intros d' p1' (-> & -> & Hd).
  apply pwp_bind. eapply pwp_mono; [by apply peek_spec|]. intros t2 p2 Hpk.
  pose proof (peeked_frontier _ _ _ Hpk) as Hfr2. destruct Hpk as [Ho2 Ht2 Hle2 Hn2 Hm2].
  destruct (_ || _). { apply pwp_raise. destruct Ho2 as [_ Hl _]. apply (Hl t2 Ht2). }
  apply pwp_bind. eapply pwp_mono; [apply Hop; [done|lia]|]. intros e p3 Hp3.
  pose proof Hp3 as [_ Hw _ Hfrom Hto _].
  destruct (span_ok_to (tk_span t) (expr_span e) Hs (expr_wf_span _ _ _ _ Hw)) as (Hr & Hi & _); [lia|].
  eapply (wrap_spec d (d + 1) false true 0 p p1 p2 p3 t e); try done; [lia|].
  apply wf_field; try done. apply existsb_exists in Ef as (n & Hin & Heq).
  apply str_eqb_eq in Heq as ->. by apply list_elem_of_In.
Qed.

Lemma operand_open f d sc p t p1 :
  or_spec f -> (3 * measure p <= f)%nat -> taken p t p1 -> tk_kind t = TOpen ->
  pwp (let* inner_depth := nested d (tk_span t) in
    let* next := peek input in
    if is_close (tk_kind next) then
      let* close := take_token input in
      praise EmptyGroup (range_to (tk_span t) (tk_span close))
    else
    let* inner := or_ fields input f inner_depth sc in
    let* close := take_token input in
    if negb (is_close (tk_kind close)) then praise UnclosedParenthesis (tk_span t)
    else node (KGroup Parentheses inner) (range_to (tk_span t) (tk_span close)))
  (parsed d sc 0 p) p1.
Proof.
  intros Hor Hf Ht Hk. pose proof (taken_frontier _ _ _ Ht) as Hfr. pose proof Ht as [Ho _ [_ Hs] _ _ _ Hm].
  assert (measure p1 < measure p)%nat by (rewrite Hk in *; simpl in *; lia).
  apply pwp_bind. eapply pwp_mono; [by apply nested_spec|]. intros d' p1' (-> & -> & Hd).
  apply pwp_bind. eapply pwp_mono; [by apply peek_spec|]. intros t2 p2 Hpk.
  pose proof (peeked_frontier _ _ _ Hpk) as Hfr2. destruct Hpk as [Ho2 Ht2 Hle2 Hn2 Hm2].
  destruct (is_close (tk_kind t2)).
  { apply pwp_bind. eapply pwp_mono; [by apply take_token_spec|].
    intros c p3 [[_ _ [_ Hc] _ Hfc _ _] _]. apply pwp_raise.
    apply (span_ok_to (tk_span t) (tk_span c) Hs Hc). lia. }
  apply pwp_bind. eapply pwp_mono; [apply Hor; [done|lia]|]. intros e p3 Hp3.
  apply pwp_bind. eapply pwp_mono; [apply take_token_spec, Hp3|]. intros c p4 [Hc4 _].
  destruct (is_close (tk_kind c)); [|done]. cbn [negb].
  pose proof (parsed_taken _ _ _ _ _ _ _ _ Hp3 Hc4) as Hp4.
  pose proof (taken_frontier _ _ _ Hc4) as Hfr4.
  pose proof Hp3 as [_ Hw _ Hfrom Hto _]. destruct Hc4 as [_ _ [_ Hc] _ Hfc _ _].
  pose proof (expr_wf_span _ _ _ _ Hw) as (_ & _ & Hle).
  destruct (span_ok_to (tk_span t) (tk_span c) Hs Hc) as (Hr & _ & _); [lia|].
  eapply (wrap_spec d (d + 1) sc sc 2 p p1 p2 p4 t e); try done; [lia|simpl; lia|].
  apply wf_parens; try done. split; simpl; destruct Hc as (_ & _ & ?), Hs as (_ & _ & ?); lia.
Qed.

Lemma collected_first d sc tok v r words hi :
  v <> [] -> span_ok input r -> words_from input (end_ r) words hi ->
  exists e, words_span tok ((v, r) :: words) = span (start r) e /\ e <= hi /\
  collected d sc 0 (start r) e (List.map term_node ((v, r) :: words)).
Proof.
  intros Hv Hr Hw. assert (Ht : expr_wf d sc 0 (term_node (v, r))) by by apply wf_term.
  destruct (collected_words d sc _ _ _ words hi (collected_single d sc 0 _ Ht) Hw) as [Hc He].
  eexists. split; [|by split]. unfold words_span. simpl.
  destruct words as [|w words]; [done|].
  destruct (last (w :: words)) as [[? ?]|] eqn:El; [|by apply last_None in El].
  change (last ((v, r) :: w :: words)) with (last (w :: words)). by rewrite El.
Qed.

Lemma operand_words d sc p t p1 words :
  taken p t p1 -> tk_kind t = TWords words ->
  pwp (let* _ := nested d (tk_span t) in
    let* expressions := word_nodes words in
    let* inner := chain expressions true (words_span (tk_span t) words) in
    node (KGroup SingleQuotes inner) (tk_span t)) (parsed d sc 0 p) p1.
Proof.
  intros Ht Hk. pose proof (taken_frontier _ _ _ Ht) as Hfr.
  pose proof Ht as [Ho _ [Hkind Hs] _ Hst Hn Hm]. rewrite Hk in *. destruct Hkind as [Hne Hw].
  destruct words as [|[v r] words]; [done|]. pose proof Hw as (Hv & Hr & Hlo & Hw').
  destruct (collected_first (d + 1) sc (tk_span t) v r words _ Hv Hr Hw') as (e & Hsp & He & Hc).
  apply pwp_bind. eapply pwp_mono; [by apply nested_spec|]. intros d' p1' (-> & -> & Hd).
  apply pwp_bind. eapply pwp_mono; [by eapply word_nodes_spec|].
  intros es p2 (-> & Hp2 & Hf2 & Hm2 & Hn2).
  rewrite Hsp.
  apply pwp_bind. eapply pwp_mono; [apply (chain_spec (d + 1) sc 0); [done|done|done|lia]|].
  intros x p3 ([Hp3 Hwx Hm3 Hsx Hex Hcx] & Hspx & Hf3).
  eapply pwp_mono; [by apply node_spec|]. intros g p4 (-> & Hp4 & Hn4 & Hf4 & Hm4 & _).
  simpl in Hm. constructor; [done| |lia|done|simpl; lia|simpl; lia].
  apply wf_quotes; try done. rewrite Hspx. by split.
Qed.

Lemma operand_step f : or_spec f -> operand_spec f -> operand_spec (S f).
Proof.
  intros Hor Hop d sc p Hp Hf. cbn [operand].
  apply pwp_bind. eapply pwp_mono; [by apply take_token_spec|]. intros t p1 [Ht _].
  pose proof Ht as [Ho _ [Hk Hs] _ _ _ _].
  destruct (tk_kind t) eqn:Et; try by apply pwp_raise.
  - apply pwp_bind. eapply pwp_mono; [by apply reject_shorthand_spec|]. intros ? ? ->.
    apply (leaf_spec d sc p t); [done|by rewrite Et|by apply wf_term|done].
  - apply (leaf_spec d sc p t); [done|by rewrite Et|by apply wf_exact|done].
  - by apply operand_words.
  - apply pwp_bind. eapply pwp_mono; [by apply reject_shorthand_spec|]. intros ? ? ->.
    apply (leaf_spec d sc p t); [done|by rewrite Et|by apply wf_prefix|done].
  - apply (operand_field f); [done|lia|done|done].
  - apply (operand_not f); [done|lia|done|by rewrite Et].
  - apply (operand_not f); [done|lia|done|by rewrite Et].
  - apply (operand_open f); [done|lia|done|done].
Qed.

Lemma descent f : or_spec f /\ or_loop_spec f /\ and_spec f /\ and_loop_spec f /\ operand_spec f.
Proof.
  induction f as [|f (Hor & Horl & Hand & Handl & Hop)].
  - split_and!; repeat intros ?; lia.
  - split_and!; [by apply or_step|by apply or_loop_step|by apply and_step|by apply and_loop_step
      |by apply operand_step].
Qed.

Lemma initial_ok : parser_ok initial_parser.
Proof. constructor; [by apply (boundary_app input [] input)|done|done]. Qed.

(** A whole query: the empty one, or a well-formed disjunction. *)
Definition query_wf (e : Expr) : Prop :=
  e = mkExpr MatchAll (span 0 (slen input)) \/ expr_wf 0 false 2 e.

Lemma parse_expression_spec :
  pwp (parse_expression fields input)
  (fun e p' => query_wf e /\ count e <= MAX_QUERY_NODES) initial_parser.
Proof.
  pose proof initial_ok as Hok. pose proof (descent (parse_fuel input)) as (Hor & _).
  unfold parse_expression. apply pwp_bind. eapply pwp_mono; [by apply peek_spec|].
  intros t p [Hp Ht _ Hn Hm].
  assert (Hm0 : (measure initial_parser = length input)%nat).
  { unfold measure, pending. change (p_offset initial_parser) with (slen []).
    rewrite (rest_of_app [] input) by done. simpl. lia. }
  destruct (is_end (tk_kind t)) eqn:Ek.
  - eapply pwp_mono; [apply node_spec; [done|]|].
    + split_and!; [by apply (boundary_app input [] input)| |apply slen_nonneg].
      apply (boundary_app input input []). by rewrite app_nil_r.
    + intros e p' (-> & _). split; [by left|done].
  - apply pwp_bind. eapply pwp_mono; [apply Hor; [done|unfold parse_fuel; lia]|].
    intros e p2 [Hp2 Hw Hm2 Hfrom Hto Hc]. apply pwp_bind.
    eapply pwp_mono; [by apply peek_spec|]. intros t3 p3 [Hp3 Ht3 _ Hn3 _].
    destruct (is_end (tk_kind t3)).
    + apply pwp_pure. split; [by right|]. destruct Hp2 as [_ _ ?]. rewrite Hn in Hc. simpl in Hc. lia.
    + apply pwp_raise. destruct Hp3 as [_ Hl _]. apply (Hl t3 Ht3).
Qed.

Lemma find_control_spec pre rest :
  match find_control (slen pre) rest with
  | Some (off, c) => exists m rest', rest = m ++ c :: rest' /\ off = slen (pre ++ m)
  | None => Forall (fun c => is_control c = false) rest
  end.
Proof.
  revert pre. induction rest as [|c rest IH]; intros pre; cbn [find_control]; [done|].
  destruct (is_control c) eqn:Ec; [exists [], rest; by rewrite (app_nil_r pre)|].
  rewrite <- slen_snoc. specialize (IH (pre ++ [c])).
  destruct (find_control _ rest) as [[off x]|]; [|by constructor].
  destruct IH as (m & rest' & -> & ->). exists (c :: m), rest'. by rewrite <- app_assoc.
Qed.

Lemma whole_span_ok : span_ok input (span 0 (slen input)).
Proof.
  split_and!; [by apply (boundary_app input [] input)| |apply slen_nonneg].
  apply (boundary_app input input []). by rewrite app_nil_r.
Qed.

(** C13. Parsing always answers: it neither slices inside a character nor runs
    out of steps.  A query it accepts keeps its source, which holds at most
    4096 bytes and no control character, and its expression is the empty query
    or a well-formed disjunction: at most 256 nodes nested less than 33 deep,
    chains of two operands and more, non-empty terms, field scopes that are
    known and never nested, and spans of the source that contain the spans of
    the parts.  A query it rejects is located by a span of the source. *)
Theorem parse_query_sound :
  match parse fields input with
  | Ok q => source q = input /\ slen input <= MAX_QUERY_BYTES
      /\ Forall (fun c => is_control c = false) input
      /\ query_wf (expression q) /\ count (expression q) <= MAX_QUERY_NODES
  | Err (Error e) => span_ok input (pe_span e)
  | Err Panic | Err OutOfFuel => False
  end.
Proof.
  unfold parse. destruct (Z.ltb_spec MAX_QUERY_BYTES (slen input)); [apply whole_span_ok|].
  pose proof (find_control_spec [] input) as Hc. change (slen []) with 0 in Hc.
  destruct (find_control 0 input) as [[off c]|].
  - destruct Hc as (m & rest & Hi & ->). simpl. rewrite <- slen_snoc.
    by apply (span_ok_app input m [c] rest).
  - pose proof parse_expression_spec as Hp. unfold pwp in Hp.
    destruct (parse_expression fields input initial_parser) as [[e p]|[e| |]]; [|done..].
    destruct Hp. by split_and!.
Qed.
End parser_facts.

(** * The vocabulary of fields *)

Lemma add_fields_spec names fields :
  NoDup fields -> Forall (fun f => valid_field f = true) fields ->
  match add_fields names fields with
  | Ok r => r = fields ++ names /\ NoDup r /\ Forall (fun f => valid_field f = true) r
  | Err InvalidFieldName => exists name, name ∈ names /\ valid_field name = false
  | Err DuplicateField => ~ NoDup (fields ++ names)
  | Err TooManyFields => False
  end.
Proof.
  revert fields. induction names as [|n names IH]; intros fields Hn Hv; cbn [add_fields].
  { by rewrite app_nil_r. }
  destruct (valid_field n) eqn:En; cbn [negb]; [|exists n; split; [left|done]].
  destruct (existsb (str_eqb n) fields) eqn:Ed.
  - apply existsb_exists in Ed as (m & Hin & Heq). apply str_eqb_eq in Heq as ->.
    rewrite NoDup_app. intros (_ & Hd & _). apply (Hd m); [by apply list_elem_of_In|left].
  - assert (n ∉ fields) as Hni.
    { intros Hin%list_elem_of_In. assert (existsb (str_eqb n) fields = true) as Ht; [|congruence].
      apply existsb_exists. exists n. split; [done|by apply str_eqb_eq]. }
    assert (IH' := IH (fields ++ [n]) ltac:(apply NoDup_app; split_and!;
      [done|intros x Hx ->%list_elem_of_singleton; done|apply NoDup_singleton])
      ltac:(apply Forall_app; by split; [|constructor])).
    rewrite <- app_assoc in IH'. simpl in IH'.
    destruct (add_fields names (fields ++ [n])) as [r|[]]; try done.
    destruct IH' as (x & Hx & ?). exists x. split; [by right|done].
Qed.

(** A vocabulary that the processor accepts is the given one: at most 64
    valid names without a repetition.  A refusal names a fault that the given
    names have. *)
Theorem new_processor_spec allowed :
  match new_processor allowed with
  | Ok fields => fields = allowed /\ zlen allowed <= MAX_QUERY_FIELDS /\ NoDup allowed
      /\ Forall (fun f => valid_field f = true) allowed
  | Err TooManyFields => MAX_QUERY_FIELDS < zlen allowed
  | Err InvalidFieldName => exists name, name ∈ allowed /\ valid_field name = false
  | Err DuplicateField => ~ NoDup allowed
  end.
Proof.
  unfold new_processor. destruct (Z.ltb_spec MAX_QUERY_FIELDS (zlen allowed)); [done|].
  pose proof (add_fields_spec allowed [] NoDup_nil_2 (Forall_nil_2 _)) as Hs. simpl in Hs.
  destruct (add_fields allowed []) as [r|[]]; [|done..].
  destruct Hs as (-> & ? & ?). by split_and!.
Qed.
