(* ===== verification/CacheStore.v ===== *)
(** The cache port of the retrieval service ([CacheKey], [StoredPayload] and the
    trait [CacheStore] of [crates/application/src/service.rs]), with the laws
    that the service relies on and every store has to prove. *)

From S2P Require Import Prelude Utf8 Domain.

Definition FRESH_SECONDS : Z := 60.
Definition RETENTION_SECONDS : Z := 300.
Definition MAX_CACHE_ENTRIES : Z := 256.
Definition MAX_CACHE_BYTES : Z := 32 * 1024 * 1024.
Definition MAX_RAW_BYTES : Z := 1024 * 1024.
Definition MAX_PROCESSED_BYTES : Z := 64 * 1024.

Record CacheKey := {
  ck_provider : str; ck_dataset : str; ck_processor_version : str;
  ck_schema_version : Z; ck_query : Query;
}.

#[export] Instance CacheKey_eq_dec : EqDecision CacheKey.
Proof. solve_decision. Defined.

#[export] Program Instance CacheKey_countable : Countable CacheKey :=
  inj_countable'
    (fun k => (ck_provider k, ck_dataset k, ck_processor_version k, ck_schema_version k, ck_query k))
    (fun '(p, d, v, s, q) => {| ck_provider := p; ck_dataset := d; ck_processor_version := v;
                                ck_schema_version := s; ck_query := q |}) _.
Next Obligation. by intros []. Qed.

(** The registered source of a dataset; its upstream port is an argument of the
    operations that fetch. *)
Record Source := {
  src_id : str; src_provider : str; src_dataset : str; src_processor_version : str;
}.

(** [CacheKey::for_source] *)
Definition for_source (source : Source) (query : Query) : result RetrievalError CacheKey :=
  let? _ := query_validate query in
  if negb (str_eqb (query_source query) (src_id source)) then Err InvalidInput
  else Ok {| ck_provider := src_provider source; ck_dataset := src_dataset source;
             ck_processor_version := src_processor_version source;
             ck_schema_version := 1; ck_query := query |}.

Record StoredPayload := {
  st_data : RetrievalData; st_provenance : Provenance; st_raw : list byte;
  st_bytes : Z; st_snapshot : option SnapshotReference;
}.

Definition validated_at (v : StoredPayload) : Z := pv_validated_at (st_provenance v).

(** The trait [CacheStore]; a [&mut self] method returns the store. *)
Class CacheStore (C : Type) := {
  cache_get : CacheKey -> C -> option StoredPayload * C;
  cache_publish : CacheKey -> StoredPayload -> C -> C;
  cache_expire_before : Z -> C -> C;
  cache_clear : C -> C;
  cache_stats : C -> Z * Z;
}.

Definition retained (before : Z) (m : gmap CacheKey StoredPayload) : gmap CacheKey StoredPayload :=
  filter (fun kv => before <= validated_at kv.2) m.

(** What a store promises: it is a finite map that forgets entries only when it
    expires, is cleared or makes room for a publication, within its bounds. *)
Class CacheLaws (C : Type) `{CacheStore C} := {
  cache_ok : C -> Prop;
  contents : C -> gmap CacheKey StoredPayload;
  get_ok k c : cache_ok c -> cache_ok (cache_get k c).2;
  get_value k c : cache_ok c -> (cache_get k c).1 = contents c !! k;
  get_contents k c : cache_ok c -> contents (cache_get k c).2 = contents c;
  publish_ok k v c : cache_ok c -> 0 <= st_bytes v -> cache_ok (cache_publish k v c);
  publish_oversize k v c :
    cache_ok c -> MAX_CACHE_BYTES < st_bytes v -> contents (cache_publish k v c) = contents c;
  publish_sub k v c :
    cache_ok c -> st_bytes v <= MAX_CACHE_BYTES ->
    contents (cache_publish k v c) ⊆ <[k:=v]> (contents c);
  publish_value k v c :
    cache_ok c -> st_bytes v <= MAX_CACHE_BYTES -> contents (cache_publish k v c) !! k = Some v;
  expire_ok t c : cache_ok c -> cache_ok (cache_expire_before t c);
  expire_contents t c : cache_ok c -> contents (cache_expire_before t c) = retained t (contents c);
  clear_ok c : cache_ok c -> cache_ok (cache_clear c);
  clear_contents c : cache_ok c -> contents (cache_clear c) = ∅;
  stats_bounds c : cache_ok c ->
    cache_stats c = (Z.of_nat (size (contents c)), map_sum st_bytes (contents c))
    /\ Z.of_nat (size (contents c)) <= MAX_CACHE_ENTRIES
    /\ map_sum st_bytes (contents c) <= MAX_CACHE_BYTES;
}.
