(* ===== verification/Cache.v ===== *)
(** The bounded in-memory cache of [crates/adapters/src/cache.rs], proved to be a
    store of the retrieval service and to evict least recently used first. *)

From S2P Require Import Prelude Utf8 Domain CacheStore.

Record Entry := { value : StoredPayload; touched : Z }.

Record MemoryCache := {
  entries : gmap CacheKey Entry; mc_bytes : Z; access : Z;
}.

Definition new_cache : MemoryCache := {| entries := ∅; mc_bytes := 0; access := 0 |}.

(** The iteration order of a [HashMap], which the language leaves open. *)
Class HashOrder := {
  iter : gmap CacheKey Entry -> list (CacheKey * Entry);
  iter_perm m : iter m ≡ₚ map_to_list m;
}.

(** [Iterator::min_by_key] on the access stamp: the first of the least. *)
Fixpoint min_touched (l : list (CacheKey * Entry)) : option (CacheKey * Entry) :=
  match l with
  | [] => None
  | x :: l =>
    match min_touched l with
    | Some y => if touched y.2 <? touched x.2 then Some y else Some x
    | None => Some x
    end
  end.

Section memory_cache.
Context `{HashOrder}.

Definition get (key : CacheKey) (c : MemoryCache) : option StoredPayload * MemoryCache :=
  let a := wrapping_add (access c) 1 in
  match entries c !! key with
  | Some entry =>
    (Some (value entry),
      {| entries := <[key := {| value := value entry; touched := a |}]> (entries c);
        mc_bytes := mc_bytes c; access := a |})
  | None => (None, {| entries := entries c; mc_bytes := mc_bytes c; access := a |})
  end.

Definition remove_entry (key : CacheKey) (c : MemoryCache) : MemoryCache :=
  match entries c !! key with
  | Some old => {| entries := delete key (entries c);
    mc_bytes := mc_bytes c - st_bytes (value old); access := access c |}
  | None => c
  end.

(** The condition of the eviction loop. *)
Definition crowded (v : StoredPayload) (c : MemoryCache) : bool :=
  (MAX_CACHE_ENTRIES <=? Z.of_nat (size (entries c)))
    || (MAX_CACHE_BYTES <? mc_bytes c + st_bytes v).

Fixpoint evict (fuel : nat) (v : StoredPayload) (c : MemoryCache) : MemoryCache :=
  match fuel with
  | O => c
  | S fuel =>
    if crowded v c then
      match min_touched (iter (entries c)) with
      | None => c
      | Some (oldest, _) => evict fuel v (remove_entry oldest c)
      end
    else c
  end.

Definition publish (key : CacheKey) (v : StoredPayload) (c : MemoryCache) : MemoryCache :=
  if MAX_CACHE_BYTES <? st_bytes v then c
  else
  let c := remove_entry key c in
  let c := evict (size (entries c)) v c in
  let a := wrapping_add (access c) 1 in
  {| entries := <[key := {| value := v; touched := a |}]> (entries c);
    mc_bytes := mc_bytes c + st_bytes v; access := a |}.

Definition keeps (before : Z) (e : Entry) : Prop := before <= validated_at (value e).

#[export] Instance keeps_dec before e : Decision (keeps before e).
Proof. unfold keeps. apply _. Defined.

(** [HashMap::retain], whose predicate subtracts the bytes of what it drops. *)
Definition expire_before (before : Z) (c : MemoryCache) : MemoryCache :=
  {| entries := filter (fun kv => keeps before kv.2) (entries c);
    mc_bytes := mc_bytes c - map_sum (fun e => st_bytes (value e))
    (filter (fun kv => ~ keeps before kv.2) (entries c));
    access := access c |}.

Definition clear (c : MemoryCache) : MemoryCache :=
  {| entries := ∅; mc_bytes := 0; access := access c |}.

Definition stats (c : MemoryCache) : Z * Z := (Z.of_nat (size (entries c)), mc_bytes c).

#[export] Instance MemoryCache_store : CacheStore MemoryCache := {
  cache_get := get; cache_publish := publish; cache_expire_before := expire_before;
  cache_clear := clear; cache_stats := stats;
}.
End memory_cache.

(** * The accounting *)

Definition entry_bytes (e : Entry) : Z := st_bytes (value e).

Record cache_inv (c : MemoryCache) : Prop := {
  ci_bytes : mc_bytes c = map_sum entry_bytes (entries c);
  ci_entries : Z.of_nat (size (entries c)) <= MAX_CACHE_ENTRIES;
  ci_limit : mc_bytes c <= MAX_CACHE_BYTES;
  ci_nonneg : forall k e, entries c !! k = Some e -> 0 <= entry_bytes e;
}.

Definition cache_contents (c : MemoryCache) : gmap CacheKey StoredPayload := value <$> entries c.

Section cache_facts.
Context `{HashOrder}.

Lemma min_touched_In l x : min_touched l = Some x -> x ∈ l.
Proof.
  revert x. induction l as [|y l IH]; intros x; simpl; [done|].
  destruct (min_touched l) as [z|]; [|intros [= ->]; left].
  destruct (_ <? _); intros [= ->]; [right; by apply IH|left].
Qed.

Lemma min_touched_None l : min_touched l = None -> l = [].
Proof.
  destruct l as [|y l]; [done|]. simpl. destruct (min_touched l); [by destruct (_ <? _)|done].
Qed.

Lemma min_touched_least l x y : min_touched l = Some x -> y ∈ l -> touched x.2 <= touched y.2.
Proof.
  revert x. induction l as [|z l IH]; intros x; simpl; [by intros _ ?%not_elem_of_nil|].
  intros Hx [->|Hy]%elem_of_cons.
  - destruct (min_touched l) as [w|]; [|injection Hx as ->; lia].
    destruct (Z.ltb_spec (touched w.2) (touched z.2)); injection Hx as ->; lia.
  - destruct (min_touched l) as [w|] eqn:E; [|apply min_touched_None in E as ->; by apply not_elem_of_nil in Hy].
    specialize (IH w eq_refl Hy).
    destruct (Z.ltb_spec (touched w.2) (touched z.2)); injection Hx as ->; lia.
Qed.

Lemma oldest_entry c k e :
  min_touched (iter (entries c)) = Some (k, e) -> entries c !! k = Some e.
Proof. intros Hm%min_touched_In. rewrite iter_perm in Hm. by apply elem_of_map_to_list. Qed.

Lemma oldest_None c : min_touched (iter (entries c)) = None -> entries c = ∅.
Proof.
  intros Hm%min_touched_None. apply map_to_list_empty_iff, Permutation_nil_r.
  by rewrite <- iter_perm, Hm.
Qed.

Lemma remove_entry_entries k c : entries (remove_entry k c) = delete k (entries c).
Proof.
  unfold remove_entry. destruct (entries c !! k) eqn:E; [done|]. by rewrite delete_id.
Qed.

(** Everything of the invariant but the bounds; the bounds are the loop's
    business. *)
Record counted (c : MemoryCache) : Prop := {
  cn_bytes : mc_bytes c = map_sum entry_bytes (entries c);
  cn_nonneg : forall k e, entries c !! k = Some e -> 0 <= entry_bytes e;
}.

Lemma remove_entry_counted k c : counted c -> counted (remove_entry k c).
Proof.
  intros [Hb Hn]. unfold remove_entry. destruct (entries c !! k) as [e|] eqn:E; [|done].
  constructor; simpl.
  - rewrite (map_sum_delete _ _ _ e) by done. unfold entry_bytes in *. lia.
  - intros k' e' [_ Hk']%lookup_delete_Some. eauto.
Qed.

Lemma remove_entry_bytes k c : counted c -> mc_bytes (remove_entry k c) <= mc_bytes c.
Proof.
  intros [Hb Hn]. unfold remove_entry. destruct (entries c !! k) as [e|] eqn:E; [|done].
  simpl. specialize (Hn k e E). unfold entry_bytes in Hn. lia.
Qed.

(** The loop ends in its exit condition: its fuel, the number of entries,
    suffices. *)
Lemma evict_exit fuel v c :
  (size (entries c) <= fuel)%nat -> crowded v (evict fuel v c) = false \/ entries (evict fuel v c) = ∅.
Proof.
  revert c. induction fuel as [|fuel IH]; intros c Hf; cbn [evict].
  - right. apply map_size_empty_inv. lia.
  - destruct (crowded v c) eqn:Ec; [|by left].
    destruct (min_touched (iter (entries c))) as [[k e]|] eqn:Em; [|right; by apply oldest_None].
    apply IH. rewrite remove_entry_entries. apply oldest_entry in Em.
    rewrite map_size_delete_Some by eauto. lia.
Qed.

Lemma evict_counted fuel v c :
  counted c -> counted (evict fuel v c) /\ entries (evict fuel v c) ⊆ entries c
    /\ access (evict fuel v c) = access c.
Proof.
  revert c. induction fuel as [|fuel IH]; intros c Hc; cbn [evict]; [done|].
  destruct (crowded v c); [|done]. destruct (min_touched _) as [[k e]|]; [|done].
  destruct (IH _ (remove_entry_counted k c Hc)) as (? & Hs & Ha). split_and!; [done| |].
  - etrans; [exact Hs|]. rewrite remove_entry_entries. apply delete_subseteq.
  - rewrite Ha. unfold remove_entry. by destruct (entries c !! k).
Qed.

Lemma evict_fits v c :
  counted c -> st_bytes v <= MAX_CACHE_BYTES ->
  let c' := evict (size (entries c)) v c in
  Z.of_nat (size (entries c')) < MAX_CACHE_ENTRIES /\ mc_bytes c' + st_bytes v <= MAX_CACHE_BYTES.
Proof.
  intros Hc Hv c'. destruct (evict_counted (size (entries c)) v c Hc) as ([Hb _] & _).
  destruct (evict_exit (size (entries c)) v c ltac:(lia)) as [He|He]; fold c' in He, Hb.
  - unfold crowded in He. bool_hyps. lia.
  - rewrite He in *. rewrite map_sum_empty in Hb. rewrite map_size_empty, Hb. done.
Qed.

Lemma inv_counted c : cache_inv c -> counted c.
Proof. by intros []. Qed.

Lemma publish_inv key v c : cache_inv c -> 0 <= st_bytes v -> cache_inv (publish key v c).
Proof.
  intros Hc Hv. unfold publish. destruct (Z.ltb_spec MAX_CACHE_BYTES (st_bytes v)); [done|].
  pose proof (remove_entry_counted key c (inv_counted c Hc)) as Hr.
  set (c1 := remove_entry key c) in *.
  destruct (evict_counted (size (entries c1)) v c1 Hr) as ([Hb Hn] & Hs & Ha).
  destruct (evict_fits v c1 Hr ltac:(lia)) as [He Hl].
  set (c2 := evict (size (entries c1)) v c1) in *.
  assert (Hk : entries c2 !! key = None).
  { eapply lookup_weaken_None; [|exact Hs]. unfold c1. rewrite remove_entry_entries. apply lookup_delete_eq. }
  constructor; simpl.
  - rewrite map_sum_insert, Hb by done. unfold entry_bytes. simpl. lia.
  - rewrite map_size_insert_None by done. lia.
  - lia.
  - intros k e [[<- <-]|[_ Hke]]%lookup_insert_Some; [done|eauto].
Qed.

Lemma get_inv key c : cache_inv c -> cache_inv (get key c).2.
Proof.
  intros [Hb He Hl Hn]. unfold get. destruct (entries c !! key) as [e|] eqn:E; [|done].
  constructor; simpl; [|by rewrite map_size_insert_Some|done|].
  - rewrite (map_sum_replace _ _ _ e) by done. unfold entry_bytes in *. simpl. lia.
  - intros k e' [[<- <-]|[_ Hke]]%lookup_insert_Some; [by apply (Hn key e)|eauto].
Qed.

Lemma cache_expire_inv before c : cache_inv c -> cache_inv (expire_before before c).
Proof.
  intros [Hb He Hl Hn]. pose proof (map_sum_filter_split entry_bytes (entries c) (fun kv => keeps before kv.2)) as Hs.
  assert (0 <= map_sum entry_bytes (filter (fun kv => ~ keeps before kv.2) (entries c))).
  { apply map_sum_nonneg. intros k e [? _]%map_lookup_filter_Some. eauto. }
  unfold entry_bytes in *. constructor; simpl; [unfold entry_bytes; lia| |lia|].
  - etrans; [|exact He]. apply inj_le, map_subseteq_size, map_filter_subseteq.
  - intros k e [? _]%map_lookup_filter_Some. by apply (Hn k).
Qed.

Lemma new_cache_inv : cache_inv new_cache.
Proof. by constructor. Qed.

Lemma contents_sum c : map_sum st_bytes (cache_contents c) = map_sum entry_bytes (entries c).
Proof.
  unfold map_sum, cache_contents. rewrite map_to_list_fmap, <- list_fmap_compose. done.
Qed.

Lemma publish_entries key v c :
  cache_inv c -> st_bytes v <= MAX_CACHE_BYTES ->
  exists m a, m ⊆ entries c /\ m !! key = None /\
  entries (publish key v c) = <[key := {| value := v; touched := a |}]> m.
Proof.
  intros Hc Hv. unfold publish. destruct (Z.ltb_spec MAX_CACHE_BYTES (st_bytes v)); [lia|].
  pose proof (remove_entry_counted key c (inv_counted c Hc)) as Hr.
  destruct (evict_counted (size (entries (remove_entry key c))) v _ Hr) as (_ & Hs & _).
  set (c2 := evict _ _ _) in *.
  rewrite (remove_entry_entries key c) in Hs.
  exists (entries c2), (wrapping_add (access c2) 1). split_and!; [etrans; [exact Hs|apply delete_subseteq]| |done].
  eapply lookup_weaken_None; [|exact Hs]. apply lookup_delete_eq.
Qed.
End cache_facts.

#[export] Program Instance MemoryCache_laws `{HashOrder} : CacheLaws MemoryCache := {
  cache_ok := cache_inv; contents := cache_contents;
}.
Next Obligation. intros. by apply get_inv. Qed.
Next Obligation.
  intros ? k c _. simpl. unfold get, cache_contents. rewrite lookup_fmap.
  by destruct (entries c !! k).
Qed.
Next Obligation.
  intros ? k c _. simpl. unfold get, cache_contents. destruct (entries c !! k) as [e|] eqn:E; [|done].
  simpl. rewrite fmap_insert. simpl. apply insert_id. by rewrite lookup_fmap, E.
Qed.
Next Obligation. intros. by apply publish_inv. Qed.
Next Obligation.
  intros ? k v c _ Hv. simpl. unfold publish. by rewrite (proj2 (Z.ltb_lt _ _) Hv).
Qed.
Next Obligation.
  intros ? k v c Hc Hv. simpl. unfold cache_contents.
  destruct (publish_entries k v c Hc Hv) as (m & a & Hm & _ & ->).
  rewrite fmap_insert. simpl. apply insert_mono. by apply map_fmap_mono.
Qed.
Next Obligation.
  intros ? k v c Hc Hv. simpl. unfold cache_contents.
  destruct (publish_entries k v c Hc Hv) as (m & a & Hm & _ & ->).
  by rewrite lookup_fmap, lookup_insert_eq.
Qed.
Next Obligation. intros. by apply cache_expire_inv. Qed.
Next Obligation.
  intros ? t c _. simpl. unfold cache_contents, retained. apply map_eq. intros k.
  apply option_eq. intros v. simpl.
  rewrite lookup_fmap, map_lookup_filter_Some, lookup_fmap, !fmap_Some. simpl. split.
  - intros (e & (He & Hk)%map_lookup_filter_Some & ->). eauto.
  - intros [(e & He & ->) Hk]. exists e. by rewrite map_lookup_filter_Some.
Qed.
Next Obligation. by constructor. Qed.
Next Obligation. intros ? c _. simpl. unfold cache_contents. simpl. apply fmap_empty. Qed.
Next Obligation.
  intros ? c [Hb He Hl _]. simpl. rewrite contents_sum, <- Hb. unfold cache_contents.
  by rewrite map_size_fmap.
Qed.
