(* ===== verification/CacheFacts.v ===== *)
(** The in-memory cache refines a least-recently-used list. *)

From Stdlib Require Import Sorting.Sorted.
From S2P Require Import Prelude Utf8 Domain CacheStore Cache.

(** * The reference: entries in a list, the least recently used first *)

Definition lru : Type := list (CacheKey * StoredPayload).

Definition lru_bytes (l : lru) : Z := sum_Z (List.map (fun kv => st_bytes kv.2) l).

Definition lru_remove (k : CacheKey) (l : lru) : lru := filter (fun kv => kv.1 <> k) l.

Fixpoint lru_find (k : CacheKey) (l : lru) : option StoredPayload :=
  match l with
  | [] => None
  | (k', v) :: l => if decide (k' = k) then Some v else lru_find k l
  end.

Definition lru_get (k : CacheKey) (l : lru) : option StoredPayload * lru :=
  match lru_find k l with
  | Some v => (Some v, lru_remove k l ++ [(k, v)])
  | None => (None, l)
  end.

(** Entries are dropped from the front until the new one fits. *)
Fixpoint lru_evict (v : StoredPayload) (l : lru) : lru :=
  match l with
  | [] => []
  | x :: rest =>
    if (MAX_CACHE_ENTRIES <=? zlen l) || (MAX_CACHE_BYTES <? lru_bytes l + st_bytes v)
    then lru_evict v rest else l
  end.

Definition lru_publish (k : CacheKey) (v : StoredPayload) (l : lru) : lru :=
  if MAX_CACHE_BYTES <? st_bytes v then l
  else lru_evict v (lru_remove k l) ++ [(k, v)].

#[export] Instance lru_store : CacheStore lru := {
  cache_get := lru_get;
  cache_publish := lru_publish;
  cache_expire_before t l := filter (fun kv => t <= validated_at kv.2) l;
  cache_clear _ := [];
  cache_stats l := (zlen l, lru_bytes l);
}.

(** Calls of a store, and what the caller sees: the value of a [get] and the
    statistics after each call. *)
Inductive cache_call :=
| CallGet (k : CacheKey)
| CallPublish (k : CacheKey) (v : StoredPayload)
| CallExpire (before : Z)
| CallClear.

Section calls.
Context `{CacheStore C}.

Definition call (x : cache_call) (c : C) : option StoredPayload * C :=
  match x with
  | CallGet k => cache_get k c
  | CallPublish k v => (None, cache_publish k v c)
  | CallExpire t => (None, cache_expire_before t c)
  | CallClear => (None, cache_clear c)
  end.

Fixpoint calls (xs : list cache_call) (c : C) : list (option StoredPayload * (Z * Z)) :=
  match xs with
  | [] => []
  | x :: xs => let (r, c') := call x c in (r, cache_stats c') :: calls xs c'
  end.
End calls.

(** The state after the calls. *)
Definition after `{CacheStore C} (xs : list cache_call) (c : C) : C :=
  fold_left (fun c x => (call x c).2) xs c.

(** A size is a [usize]. *)
Definition call_ok (x : cache_call) : Prop :=
  match x with CallPublish _ v => 0 <= st_bytes v | _ => True end.

(** * The simulation *)

Definition older (x y : CacheKey * Entry) : Prop := touched x.2 < touched y.2.

(** [es] lists the entries of the cache, the least recently used first. *)
Record repr (c : MemoryCache) (es : list (CacheKey * Entry)) : Prop := {
  re_entries : map_to_list (entries c) ≡ₚ es;
  re_sorted : StronglySorted older es;
  re_access : Forall (fun x => touched x.2 <= access c) es;
}.

Definition forget (es : list (CacheKey * Entry)) : lru := List.map (fun kv => (kv.1, value kv.2)) es.

Section simulation.
Context `{HashOrder}.

Lemma filter_sorted (P : CacheKey * Entry -> Prop) `{!forall x, Decision (P x)} es :
  StronglySorted older es -> StronglySorted older (filter P es).
Proof.
  induction 1 as [|x es Hs IH Hx]; [constructor|]. rewrite filter_cons.
  destruct (decide (P x)); [|done]. constructor; [done|].
  apply Forall_forall. intros y [_ Hy]%list_elem_of_filter. by eapply Forall_forall in Hx.
Qed.

Lemma snoc_sorted es x :
  StronglySorted older es -> Forall (fun y => older y x) es -> StronglySorted older (es ++ [x]).
Proof.
  induction 1 as [|y es Hs IH Hy]; intros Hx; [by repeat constructor|].
  apply Forall_cons in Hx as [Hyx Hx]. simpl. constructor; [by apply IH|].
  apply Forall_app. split; [done|by constructor].
Qed.

Lemma map_to_list_filter_perm (P : CacheKey * Entry -> Prop) `{!forall x, Decision (P x)}
  (m : gmap CacheKey Entry) : map_to_list (filter P m) ≡ₚ filter P (map_to_list m).
Proof.
  apply NoDup_Permutation; [apply NoDup_map_to_list|apply NoDup_filter, NoDup_map_to_list|].
  intros [k e]. rewrite list_elem_of_filter, !elem_of_map_to_list, map_lookup_filter_Some. tauto.
Qed.

Lemma delete_filter (k : CacheKey) (m : gmap CacheKey Entry) :
  delete k m = filter (fun kv => kv.1 <> k) m.
Proof.
  apply map_eq. intros i. apply option_eq. intros e.
  rewrite lookup_delete_Some, map_lookup_filter_Some. simpl. naive_solver.
Qed.

Lemma forget_filter (P : StoredPayload -> CacheKey -> Prop) `{!forall v k, Decision (P v k)} es :
  forget (filter (fun kv => P (value kv.2) kv.1) es) = filter (fun kv => P kv.2 kv.1) (forget es).
Proof.
  unfold forget. induction es as [|[k e] es IH]; [done|]. cbn [List.map].
  rewrite filter_cons, (filter_cons (fun kv => P kv.2 kv.1)). simpl.
  destruct (decide (P (value e) k)); simpl in *; [f_equal|]; exact IH.
Qed.

Lemma repr_size c es : repr c es -> Z.of_nat (size (entries c)) = zlen (forget es).
Proof.
  intros [Hp _ _]. unfold zlen, forget. rewrite length_map, <- Hp. by rewrite length_map_to_list.
Qed.

Lemma repr_bytes c es : counted c -> repr c es -> mc_bytes c = lru_bytes (forget es).
Proof.
  intros [Hb _] [Hp _ _]. rewrite Hb. unfold map_sum, lru_bytes, forget.
  rewrite Hp, List.map_map. done.
Qed.

Lemma repr_crowded c es v :
  counted c -> repr c es ->
  crowded v c = ((MAX_CACHE_ENTRIES <=? zlen (forget es)) || (MAX_CACHE_BYTES <? lru_bytes (forget es) + st_bytes v)).
Proof. intros Hc Hr. unfold crowded. by rewrite (repr_size c es), (repr_bytes c es). Qed.

Lemma repr_lookup c es k e : repr c es -> entries c !! k = Some e <-> (k, e) ∈ es.
Proof. intros [Hp _ _]. by rewrite <- Hp, elem_of_map_to_list. Qed.

Lemma repr_keys c es : repr c es -> NoDup es.*1.
Proof. intros [Hp _ _]. rewrite <- Hp. apply NoDup_fst_map_to_list. Qed.

Lemma repr_find c es k : repr c es -> lru_find k (forget es) = value <$> entries c !! k.
Proof.
  intros Hr. pose proof (repr_keys c es Hr) as Hk.
  assert (Hl := fun e => repr_lookup c es k e Hr). clear Hr.
  destruct (entries c !! k) as [e|].
  - assert (He : (k, e) ∈ es) by (by apply Hl). clear Hl. simpl.
    induction es as [|[k' e'] es IH]; [by apply not_elem_of_nil in He|]. simpl in *.
    apply NoDup_cons in Hk as [Hni Hk]. apply elem_of_cons in He as [[= -> ->]|He].
    + by rewrite decide_True.
    + rewrite decide_False; [by apply IH|]. intros ->. apply Hni.
      apply list_elem_of_fmap. by exists (k, e).
  - assert (Hn : forall e, (k, e) ∉ es) by (intros e He; apply Hl in He; done). clear Hl Hk.
    induction es as [|[k' e'] es IH]; [done|]. simpl.
    rewrite decide_False; [|intros ->; apply (Hn e'); left]. apply IH.
    intros e He. apply (Hn e). by right.
Qed.

(** The oldest entry is the first. *)
Lemma repr_oldest c x es : repr c (x :: es) -> min_touched (iter (entries c)) = Some x.
Proof.
  intros [Hp Hs _]. destruct (min_touched (iter (entries c))) as [y|] eqn:Em.
  - pose proof (min_touched_In _ _ Em) as Hy. rewrite iter_perm, Hp in Hy.
    assert (Hx : x ∈ iter (entries c)) by (rewrite iter_perm, Hp; left).
    pose proof (min_touched_least _ _ _ Em Hx) as Hle.
    apply elem_of_cons in Hy as [->|Hy]; [done|].
    apply StronglySorted_inv in Hs as [_ Hlt]. rewrite Forall_forall in Hlt.
    specialize (Hlt y Hy). unfold older in Hlt. lia.
  - apply oldest_None in Em. rewrite Em, map_to_list_empty in Hp. by apply Permutation_nil_cons in Hp.
Qed.

Lemma repr_drop c x es : repr c (x :: es) -> repr (remove_entry x.1 c) es.
Proof.
  intros Hr. pose proof Hr as [Hp Hs Ha]. destruct x as [k e]. simpl.
  assert (Hk : entries c !! k = Some e) by (apply (repr_lookup c _ k e Hr); left).
  constructor.
  - rewrite remove_entry_entries. apply (Permutation_cons_inv (a := (k, e))).
    rewrite <- Hp. by apply map_to_list_delete.
  - by apply StronglySorted_inv in Hs as [? _].
  - apply Forall_cons in Ha as [_ Ha]. unfold remove_entry. by rewrite Hk.
Qed.

Lemma repr_remove c es k :
  repr c es -> repr (remove_entry k c) (filter (fun kv => kv.1 <> k) es).
Proof.
  intros [Hp Hs Ha]. constructor.
  - rewrite remove_entry_entries, delete_filter, map_to_list_filter_perm. by rewrite Hp.
  - by apply filter_sorted.
  - assert (access (remove_entry k c) = access c) as -> by (unfold remove_entry; by destruct (entries c !! k)).
    apply Forall_forall. intros y [_ Hy]%list_elem_of_filter. by eapply Forall_forall in Ha.
Qed.

Lemma forget_remove k es : forget (filter (fun kv => kv.1 <> k) es) = lru_remove k (forget es).
Proof. exact (forget_filter (fun _ k' => k' <> k) es). Qed.

Lemma repr_evict fuel v c es :
  counted c -> repr c es -> (length es <= fuel)%nat ->
  exists es', repr (evict fuel v c) es' /\ forget es' = lru_evict v (forget es).
Proof.
  revert c es. induction fuel as [|fuel IH]; intros c es Hc Hr Hf.
  { destruct es; [|simpl in Hf; lia]. by exists []. }
  destruct es as [|x es].
  - exists []. cbn [evict]. assert (entries c = ∅) as He.
    { apply map_to_list_empty_iff, Permutation_nil_r. apply (re_entries _ _ Hr). }
    destruct (crowded v c); [|done]. destruct (min_touched _) as [[k e]|] eqn:Em; [|done].
    apply oldest_entry in Em. by rewrite He in Em.
  - cbn [evict]. rewrite (repr_crowded c (x :: es) v Hc Hr), (repr_oldest c x es Hr).
    cbn [forget List.map lru_evict]. fold (forget es).
    destruct (_ || _); [|by exists (x :: es)]. destruct x as [k e].
    apply IH; [by apply remove_entry_counted|by apply (repr_drop c (k, e))|simpl in Hf; lia].
Qed.

Lemma repr_get c es k :
  repr c es -> access c + 1 < 2 ^ 64 -> 0 <= access c ->
  exists es', repr (get k c).2 es' /\ (get k c).1 = (lru_get k (forget es)).1
    /\ forget es' = (lru_get k (forget es)).2 /\ access (get k c).2 = access c + 1.
Proof.
  intros Hr Ha Ha0. pose proof (repr_find c es k Hr) as Hf. pose proof Hr as [Hp Hs Hacc].
  unfold get, lru_get. rewrite Hf. unfold wrapping_add. rewrite Z.mod_small by lia.
  assert (Hold : Forall (fun x => touched x.2 <= access c + 1) es)
    by (eapply Forall_impl; [exact Hacc|simpl; lia]).
  destruct (entries c !! k) as [e|] eqn:Ek; simpl; [|by exists es].
  exists (filter (fun kv => kv.1 <> k) es ++ [(k, {| value := value e; touched := access c + 1 |})]).
  split_and!; [|done| |done].
  - constructor; simpl.
    + rewrite <- insert_delete_eq, map_to_list_insert by apply lookup_delete_eq.
      rewrite delete_filter, map_to_list_filter_perm, Hp. apply Permutation_cons_append.
    + apply snoc_sorted; [by apply filter_sorted|].
      apply Forall_forall. intros y [_ Hy]%list_elem_of_filter. rewrite Forall_forall in Hacc.
      specialize (Hacc y Hy). unfold older. simpl. lia.
    + apply Forall_app. split; [|by repeat constructor].
      apply Forall_forall. intros y [_ Hy]%list_elem_of_filter. by eapply Forall_forall in Hold.
  - unfold forget. rewrite map_app. fold (forget (filter (fun kv => kv.1 <> k) es)).
    by rewrite forget_remove.
Qed.

Lemma repr_publish c es k v :
  cache_inv c -> repr c es -> access c + 1 < 2 ^ 64 -> 0 <= access c ->
  exists es', repr (publish k v c) es' /\ forget es' = lru_publish k v (forget es)
    /\ 0 <= access (publish k v c) <= access c + 1.
Proof.
  intros Hc Hr Ha Ha0. unfold publish, lru_publish.
  destruct (MAX_CACHE_BYTES <? st_bytes v); [exists es; split_and!; [done..|lia]|].
  pose proof (remove_entry_counted k c (inv_counted c Hc)) as Hcr.
  pose proof (repr_remove c es k Hr) as Hrr. set (c1 := remove_entry k c) in *.
  assert (Hsize : (length (filter (fun kv => kv.1 <> k) es) <= size (entries c1))%nat).
  { pose proof (repr_size c1 _ Hrr) as Hsz. unfold zlen, forget in Hsz. rewrite length_map in Hsz. lia. }
  destruct (repr_evict (size (entries c1)) v c1 _ Hcr Hrr Hsize) as (es' & He' & Hes').
  destruct (evict_counted (size (entries c1)) v c1 Hcr) as (_ & Hsub & Hacc).
  set (c2 := evict (size (entries c1)) v c1) in *.
  assert (Hacc1 : access c2 = access c) by (rewrite Hacc; unfold c1, remove_entry; by destruct (entries c !! k)).
  assert (Hk : entries c2 !! k = None).
  { eapply lookup_weaken_None; [|exact Hsub]. unfold c1. rewrite remove_entry_entries. apply lookup_delete_eq. }
  rewrite forget_remove in Hes'. destruct He' as [Hp Hs Hle].
  rewrite Hacc1 in *. unfold wrapping_add. rewrite Z.mod_small by lia.
  exists (es' ++ [(k, {| value := v; touched := access c + 1 |})]). split_and!; simpl; [| |lia..].
  - constructor; simpl.
    + rewrite map_to_list_insert, Hp by done. apply Permutation_cons_append.
    + apply snoc_sorted; [done|]. eapply Forall_impl; [exact Hle|]. unfold older. simpl. lia.
    + apply Forall_app. split; [|by repeat constructor].
      eapply Forall_impl; [exact Hle|]. simpl. lia.
  - unfold forget. rewrite map_app. fold (forget es'). by rewrite Hes'.
Qed.

Lemma repr_expire c es t :
  repr c es -> repr (expire_before t c) (filter (fun kv => keeps t kv.2) es).
Proof.
  intros [Hp Hs Ha]. constructor; simpl.
  - by rewrite map_to_list_filter_perm, Hp.
  - by apply filter_sorted.
  - apply Forall_forall. intros y [_ Hy]%list_elem_of_filter. by eapply Forall_forall in Ha.
Qed.

Lemma forget_expire t es :
  forget (filter (fun kv => keeps t kv.2) es) = filter (fun kv => t <= validated_at kv.2) (forget es).
Proof. exact (@forget_filter (fun v _ => t <= validated_at v) (fun v _ => Z_le_dec t (validated_at v)) es). Qed.

(** One call: the answers agree and the states stay related. *)
Lemma call_simulated x c es :
  call_ok x -> cache_inv c -> repr c es -> 0 <= access c -> access c + 1 < 2 ^ 64 ->
  exists es', (call x c).1 = (call x (forget es)).1 /\ cache_inv (call x c).2 /\ repr (call x c).2 es'
    /\ forget es' = (call x (forget es)).2 /\ 0 <= access (call x c).2 <= access c + 1.
Proof.
  intros Hx Hc Hr Ha0 Ha. destruct x as [k|k v|t|]; simpl in *.
  - destruct (repr_get c es k Hr Ha Ha0) as (es' & Hr' & Hv & Hf & Hacc).
    exists es'. split_and!; [done|by apply get_inv|done|done|lia..].
  - destruct (repr_publish c es k v Hc Hr Ha Ha0) as (es' & Hr' & Hf & Hacc & ?).
    exists es'. split_and!; [done|by apply publish_inv|done|done|lia..].
  - exists (filter (fun kv => keeps t kv.2) es).
    split_and!; [done|by apply cache_expire_inv|by apply repr_expire|apply forget_expire|done|lia].
  - exists []. split_and!; [done|by constructor| |done|done|lia].
    constructor; simpl; [by rewrite map_to_list_empty|constructor|constructor].
Qed.

Lemma calls_simulated xs c es :
  Forall call_ok xs -> cache_inv c -> repr c es -> 0 <= access c -> access c + zlen xs < 2 ^ 64 ->
  calls xs c = calls xs (forget es).
Proof.
  revert c es. induction xs as [|x xs IH]; intros c es Hxs Hc Hr Ha0 Ha; [done|].
  rewrite zlen_cons in Ha. pose proof (zlen_nonneg xs). apply Forall_cons in Hxs as [Hx Hxs].
  destruct (call_simulated x c es Hx Hc Hr Ha0 ltac:(lia)) as (es' & Hv & Hc' & Hr' & Hf & Hacc).
  cbn [calls]. destruct (call x c) as [r c'], (call x (forget es)) as [r' l']. simpl in *. subst r' l'.
  f_equal; [|apply IH; [done..|lia|lia]]. f_equal. simpl. unfold stats. f_equal.
  - by apply repr_size.
  - by apply repr_bytes; [apply inv_counted|].
Qed.
End simulation.

(** C39. The cache of the adapter answers every sequence of fewer than 2^64
    calls, from its creation, exactly as a list that keeps the entries in the
    order of their last use and drops them from the old end: the values of the
    lookups, the number of entries and their bytes agree after every call,
    whatever the iteration order of the hash map. *)
Theorem cache_refines_lru `{HashOrder} (xs : list cache_call) :
  Forall call_ok xs -> zlen xs < 2 ^ 64 -> calls xs new_cache = calls xs ([] : lru).
Proof.
  intros Hxs Hlen. apply (calls_simulated xs new_cache []); [done|apply new_cache_inv| |done|done].
  constructor; [done|constructor|constructor].
Qed.

Section bounded.
Context `{CacheLaws C}.

Lemma call_preserves x c : cache_ok c -> call_ok x -> cache_ok (call x c).2.
Proof.
  intros Hc Hx. destruct x; simpl in *;
    [by apply get_ok|by apply publish_ok|by apply expire_ok|by apply clear_ok].
Qed.

Lemma after_preserves xs c : cache_ok c -> Forall call_ok xs -> cache_ok (after xs c).
Proof.
  intros Hc Hxs. revert c Hc. induction Hxs as [|x xs Hx Hxs IH]; intros c Hc; [done|].
  apply IH. by apply call_preserves.
Qed.
End bounded.

(** After every sequence of calls, of any length, the cache holds at most
    256 entries and 32 MiB, and its byte counter, which is decremented without
    a check, is exactly the sum of the sizes of its entries. *)
Theorem cache_bounded `{HashOrder} (xs : list cache_call) :
  Forall call_ok xs ->
  let c := after xs new_cache in
  Z.of_nat (size (entries c)) <= MAX_CACHE_ENTRIES
  /\ mc_bytes c = map_sum (fun e => st_bytes (value e)) (entries c)
  /\ 0 <= mc_bytes c <= MAX_CACHE_BYTES.
Proof.
  intros Hxs c. assert (Hc : cache_ok c) by (by apply after_preserves; [apply new_cache_inv|]).
  destruct Hc as [Hb He Hl Hn].
  fold c in Hb, He, Hl, Hn. split_and!; [done|done| |done].
  rewrite Hb. by apply map_sum_nonneg.
Qed.

(** * Instances for the witnesses *)

#[local] Instance list_order : HashOrder := {| iter := map_to_list; iter_perm m := reflexivity _ |}.

Definition sample_key (n : Z) : CacheKey :=
  {| ck_provider := u "synthetic"; ck_dataset := u "records"; ck_processor_version := u "v1";
     ck_schema_version := 1; ck_query := Get (u "layout_a") [n] |}.

Definition sample_payload (bytes at_ : Z) : StoredPayload :=
  {| st_data := DataGet {| rec_source := u "layout_a"; rec_id := u "001"; rec_title := u "Synthetic";
                           rec_body := u "Example"; rec_synthetic := true |};
     st_provenance := {| pv_provider := u "synthetic"; pv_dataset := u "records";
       pv_source_reference := u "https://example.test/synthetic"; pv_payload_sha256 := u "digest";
       pv_processor_version := u "v1"; pv_retrieved_at := at_; pv_validated_at := at_ |};
     st_raw := []; st_bytes := bytes; st_snapshot := None |}.

(** Two entries that fill the cache: the use of the first makes the second the
    one that the third evicts. *)
Definition sample_calls : list cache_call :=
  [CallPublish (sample_key 49) (sample_payload (MAX_CACHE_BYTES - 2048) 10);
   CallPublish (sample_key 50) (sample_payload 2048 10);
   CallGet (sample_key 49);
   CallPublish (sample_key 51) (sample_payload 1024 11);
   CallGet (sample_key 50); CallGet (sample_key 49); CallExpire 11; CallGet (sample_key 51)].

Lemma cache_refines_lru_witness :
  Forall call_ok sample_calls /\ zlen sample_calls < 2 ^ 64 /\
  calls sample_calls new_cache = calls sample_calls ([] : lru) /\
  List.map snd (calls sample_calls new_cache)
  = [(1, MAX_CACHE_BYTES - 2048); (2, MAX_CACHE_BYTES); (2, MAX_CACHE_BYTES);
     (2, MAX_CACHE_BYTES - 1024); (2, MAX_CACHE_BYTES - 1024); (2, MAX_CACHE_BYTES - 1024);
     (1, 1024); (1, 1024)].
Proof.
  assert (Hok : Forall call_ok sample_calls) by (repeat constructor; vm_compute; congruence).
  split; [exact Hok|]. split; [reflexivity|].
  split; [apply cache_refines_lru; [exact Hok|reflexivity]|vm_compute; reflexivity].
Defined.

Lemma cache_bounded_witness :
  Forall call_ok sample_calls /\
  (let c := after sample_calls new_cache in
   Z.of_nat (size (entries c)) <= MAX_CACHE_ENTRIES
   /\ mc_bytes c = map_sum (fun e => st_bytes (value e)) (entries c)
   /\ 0 <= mc_bytes c <= MAX_CACHE_BYTES) /\
  mc_bytes (after sample_calls new_cache) = 1024.
Proof.
  assert (Hok : Forall call_ok sample_calls) by (repeat constructor; vm_compute; congruence).
  split; [exact Hok|]. split; [exact (cache_bounded sample_calls Hok)|vm_compute; reflexivity].
Defined.
