(* ===== verification/Upstream.v ===== *)
(** Refreshing from an upstream source: request policies
    ([crates/application/src/upstream_policy.rs]), the daily budget, the attempts
    with their back-off, and the validation of a fetched payload (the methods
    [validate_policies], [reserve_daily], [refresh] and [validate] of
    [crates/application/src/service.rs]).

    The JSON encoder and the digest are parameters.  An attempt reads the outcome
    of its reservation, of the rate limiter and of the fetch, the cancellation
    token and the monotonic clock from an environment. *)

From S2P Require Import Prelude Utf8 Domain CacheStore.

(** * Policies *)

Inductive RequestLimit := Limited (n : Z) | Unlimited.

Definition limit_validate (l : RequestLimit) : result RetrievalError unit :=
  match l with
  | Limited value => if negb (in_range 1 1000000 value) then Err InvalidInput else Ok tt
  | Unlimited => Ok tt
  end.

Definition as_option (l : RequestLimit) : option Z :=
  match l with Limited value => Some value | Unlimited => None end.

Definition allows (l : RequestLimit) (used : Z) : bool :=
  match as_option l with None => true | Some limit => used <? limit end.

Record DemoRequestPolicy := {
  daily_limit : RequestLimit; requests_per_second : Z; max_attempts : Z;
  attempt_timeout_secs : Z; refresh_timeout_secs : Z;
}.

Definition default_policy : DemoRequestPolicy :=
  {| daily_limit := Unlimited; requests_per_second := 2; max_attempts := 2;
     attempt_timeout_secs := 5; refresh_timeout_secs := 10 |}.

(** [DemoRequestPolicy::validate] *)
Definition policy_validate (p : DemoRequestPolicy) : result RetrievalError unit :=
  let? _ := limit_validate (daily_limit p) in
  if negb (in_range 1 1000 (requests_per_second p)) || negb (in_range 1 10 (max_attempts p))
     || negb (in_range 1 60 (attempt_timeout_secs p)) || negb (in_range 1 300 (refresh_timeout_secs p))
     || (refresh_timeout_secs p <? attempt_timeout_secs p)
  then Err InvalidInput else Ok tt.

(** The registration loop of [validate_policies]. *)
Fixpoint check_sources (sources : list Source) (registered : gset str) : result RetrievalError unit :=
  match sources with
  | [] => Ok tt
  | s :: sources =>
    if negb (valid_identifier (src_id s) 64) || negb (valid_identifier (src_provider s) 64)
       || negb (valid_identifier (src_dataset s) 64)
       || bool_decide (src_processor_version s = []) || (128 <? slen (src_processor_version s))
       || bool_decide (src_id s ∈ registered)
    then Err InvalidInput
    else check_sources sources ({[src_id s]} ∪ registered)
  end.

Fixpoint check_policies (sources : list Source) (policies : list (str * DemoRequestPolicy))
  : result RetrievalError unit :=
  match policies with
  | [] => Ok tt
  | (provider, policy) :: policies =>
    let? _ := policy_validate policy in
    if negb (existsb (fun s => str_eqb (src_provider s) provider) sources) then Err InvalidInput
    else check_policies sources policies
  end.

Definition validate_policies (sources : list Source) (policies : list (str * DemoRequestPolicy))
  : result RetrievalError unit :=
  if bool_decide (sources = []) || (32 <? zlen sources) then Err InvalidInput
  else
    let? _ := check_sources sources ∅ in
    check_policies sources policies.

(** * The daily budget *)

(** [Provider::daily]: the day and the attempts reserved in it. *)
Definition reserve_daily (limit : RequestLimit) (now : Z) (usage : Z * Z)
  : result RetrievalError unit * (Z * Z) :=
  let day := now / 86400 in
  let usage := if negb (usage.1 =? day) then (day, 0) else usage in
  if negb (allows limit usage.2) then (Err Busy, usage)
  else
    match checked_add usage.2 1 with
    | None => (Err Busy, usage)
    | Some n => (Ok tt, (usage.1, n))
    end.

(** * Attempts *)

(** [Rate] without its token bucket, in nanoseconds of the monotonic clock. *)
Record Rate := { cooldown : option Z; paused : option RetrievalError }.

Record FetchedPayload := { fp_raw : list byte; fp_data : RetrievalData; fp_source_reference : str }.

(** What one attempt reads. *)
Record Attempt := {
  at_reserve : result RetrievalError unit;        (* [reserve_daily] *)
  at_rate : result RetrievalError unit;           (* [acquire_rate] *)
  at_cancelled : bool;                            (* before the fetch *)
  at_fetch : result RetrievalError FetchedPayload; (* [Unavailable] on a timeout *)
  at_cancelled_after : bool;                      (* behind a successful fetch *)
  at_instant : Z;                                 (* [Instant::now()] of the back-off *)
  at_now : Z;                                     (* [clock.now()] of the validation *)
}.

Definition NANOS : Z := 1000000000.
Definition DURATION_MAX : Z := u64_max * NANOS + (NANOS - 1).
Definition duration_add (a b : Z) : Z := Z.min (a + b) DURATION_MAX.

(** [100 + (generation.wrapping_mul(73) % 151)] milliseconds *)
Definition jitter (generation : Z) : Z := (100 + (generation * 73) mod 2 ^ 64 mod 151) * 1000000.

Definition backoff_secs (attempt : Z) : Z := Z.min (Z.shiftl 1 attempt) 30.

Definition backoff_delay (generation attempt : Z) (error : RetrievalError) : Z :=
  let seconds :=
    match error with
    | Throttled (Some seconds) => Z.max seconds (backoff_secs attempt)
    | _ => backoff_secs attempt
    end in
  let backoff := Z.min (duration_add (backoff_secs attempt * NANOS) (jitter generation)) (30 * NANOS) in
  match error with
  | Throttled (Some _) => Z.max (duration_add (seconds * NANOS) (jitter generation)) backoff
  | _ => backoff
  end.

(** The back-off of a failed attempt, [Instant::now().checked_add(delay)], and
    what its critical section does to the shared rate. *)
Definition back_off (instant_max generation attempt instant : Z) (error : RetrievalError) : option Z :=
  let until := instant + backoff_delay generation attempt error in
  if instant_max <? until then None else Some until.

Definition pause (error : RetrievalError) (rate : Rate) : Rate :=
  {| cooldown := cooldown rate; paused := Some error |}.

Definition cool_down (until : Z) (rate : Rate) : Rate :=
  {| cooldown := Some (match cooldown rate with
                       | Some existing => Z.max existing until
                       | None => until
                       end);
     paused := paused rate |}.

(** What a sequence of attempts did; the writes to the rate are in their order,
    other refreshes of the provider may write in between. *)
Record Refreshed (A : Type) := {
  rf_outcome : result RetrievalError A;
  rf_writes : list (Rate -> Rate);
  rf_requests : Z;      (* fetches started *)
  rf_retries : Z;       (* fetches after the first attempt *)
  rf_throttled : Z;     (* throttled answers *)
}.
Arguments rf_outcome {A}. Arguments rf_writes {A}. Arguments rf_requests {A}.
Arguments rf_retries {A}. Arguments rf_throttled {A}.

Section upstream.
Context (json_len : RetrievalData -> Z) (sha256_hex : list byte -> str) (instant_max : Z).

Definition valid_record (record : Record_) (query : Query) : bool :=
  rec_synthetic record && str_eqb (rec_source record) (query_source query)
    && valid_identifier (rec_id record) 128 && negb (bool_decide (rec_title record = []))
    && (slen (rec_title record) <=? 1024) && (slen (rec_body record) <=? 16 * 1024).

(** [page.records.iter().all(|r| valid_record(r, query) && ids.insert(&r.id))] *)
Fixpoint valid_records (query : Query) (records : list Record_) (ids : gset str) : bool :=
  match records with
  | [] => true
  | r :: records =>
    valid_record r query && negb (bool_decide (rec_id r ∈ ids))
      && valid_records query records ({[rec_id r]} ∪ ids)
  end.

Definition valid_data (data : RetrievalData) (query : Query) : bool :=
  match data, query with
  | DataGet record, Get _ id => valid_record record query && str_eqb (rec_id record) id
  | DataSearch page, Search _ _ requested page_size =>
    (sp_page page =? requested) && (sp_page_size page =? page_size)
      && (zlen (sp_records page) <=? page_size) && (sp_total page <=? 20000)
      && (zlen (sp_records page)
        =? Z.min (sp_page_size page)
        (saturating_sub (sp_total page) (sp_page page * sp_page_size page)))
      && valid_records query (sp_records page) ∅
  | _, _ => false
  end.

(** [bounded_size] *)
Definition bounded_size (value : RetrievalData) (limit : Z) : result RetrievalError Z :=
  if limit <? json_len value then Err ResourceLimit else Ok (json_len value).

(** [validate] *)
Definition validate (source : Source) (query : Query) (payload : FetchedPayload) (now : Z)
  : result RetrievalError StoredPayload :=
  let reference := fp_source_reference payload in
  if (MAX_RAW_BYTES <? zlen (fp_raw payload)) || bool_decide (reference = [])
    || (2048 <? slen reference) then Err ResourceLimit
  else if existsb is_control reference || existsb (fun c => contains_char c (u "?#@")) reference
  then Err InvalidPayload
  else if negb (valid_data (fp_data payload) query) then Err InvalidPayload
  else
  let? encoded := bounded_size (fp_data payload) MAX_PROCESSED_BYTES in
  Ok {| st_data := fp_data payload;
    st_provenance :=
    {| pv_provider := src_provider source; pv_dataset := src_dataset source;
      pv_source_reference := reference; pv_payload_sha256 := sha256_hex (fp_raw payload);
      pv_processor_version := src_processor_version source;
      pv_retrieved_at := now; pv_validated_at := now |};
    st_raw := fp_raw payload;
    st_bytes := zlen (fp_raw payload) + encoded + slen reference + 1024;
    st_snapshot := None |}.

(** The loop of [refresh]: [remaining] attempts are left, [attempt] were made. *)
Fixpoint refresh_loop (remaining : nat) (attempt : Z) (env : Z -> Attempt) (source : Source)
  (query : Query) (generation : Z) (writes : list (Rate -> Rate)) (requests retries throttled : Z)
  : Refreshed StoredPayload :=
  let stop outcome writes requests retries throttled :=
    {| rf_outcome := outcome; rf_writes := writes; rf_requests := requests; rf_retries := retries;
      rf_throttled := throttled |} in
  match remaining with
  | O => stop (Err Unavailable) writes requests retries throttled
  | S remaining =>
    let a := env attempt in
    match (let? _ := at_reserve a in at_rate a) with
    | Err e => stop (Err e) writes requests retries throttled
    | Ok _ =>
      if at_cancelled a then stop (Err Cancelled) writes requests retries throttled
      else
      let retries := if negb (attempt =? 0) then retries + 1 else retries in
      let requests := requests + 1 in
      match at_fetch a with
      | Ok payload =>
        if at_cancelled_after a then stop (Err Cancelled) writes requests retries throttled
        else stop (validate source query payload (at_now a)) writes requests retries throttled
      | Err error =>
        if is_transient error then
          let throttled := match error with Throttled _ => throttled + 1 | _ => throttled end in
          match back_off instant_max generation attempt (at_instant a) error with
          | None => stop (Err error) (writes ++ [pause error]) requests retries throttled
          | Some until =>
            let writes := writes ++ [cool_down until] in
            match remaining with
            | O => stop (Err error) writes requests retries throttled
            | S _ =>
              refresh_loop remaining (attempt + 1) env source query generation writes requests retries throttled
            end
          end
        else stop (Err error) writes requests retries throttled
      end
    end
  end.

Definition refresh (policy : DemoRequestPolicy) (env : Z -> Attempt) (source : Source) (query : Query)
  (generation : Z) : Refreshed StoredPayload :=
  refresh_loop (Z.to_nat (max_attempts policy)) 0 env source query generation [] 0 0 0.
End upstream.
