(* ===== verification/UpstreamFacts.v ===== *)
(** What refreshing guarantees: the attempts and their outcome, the back-off, the
    daily budget and the bounds of a validated payload. *)

From Stdlib Require Import Sorting.Sorted.
From S2P Require Import Prelude Utf8 Domain CacheStore Upstream.

(** * Attempts *)

(** How an attempt ends the refresh; [None]: it is retried behind a back-off.
    The flag says whether it fetched. *)
Definition decisive (json_len : RetrievalData -> Z) (sha256_hex : list byte -> str) (instant_max : Z)
  (source : Source) (query : Query) (generation attempt : Z) (a : Attempt)
  : option (result RetrievalError StoredPayload * bool) :=
  match at_reserve a, at_rate a with
  | Err e, _ => Some (Err e, false)
  | Ok _, Err e => Some (Err e, false)
  | Ok _, Ok _ =>
    if at_cancelled a then Some (Err Cancelled, false)
    else
      match at_fetch a with
      | Ok payload =>
        if at_cancelled_after a then Some (Err Cancelled, true)
        else Some (validate json_len sha256_hex source query payload (at_now a), true)
      | Err e =>
        if negb (is_transient e) then Some (Err e, true)
        else if is_some (back_off instant_max generation attempt (at_instant a) e) then None
        else Some (Err e, true)
      end
  end.

Section refresh.
Context (json_len : RetrievalData -> Z) (sha256_hex : list byte -> str) (instant_max : Z)
  (source : Source) (query : Query) (generation : Z) (env : Z -> Attempt).

Abbreviation dec := (fun i => decisive json_len sha256_hex instant_max source query generation i (env i)).
Abbreviation loop := (fun n i => refresh_loop json_len sha256_hex instant_max n i env source query generation).

Lemma loop_decides n i w rq rt th o f :
  dec i = Some (o, f) ->
  rf_outcome (loop (S n) i w rq rt th) = o /\
  rf_requests (loop (S n) i w rq rt th) = rq + Z.b2z f.
Proof.
  unfold decisive. cbn [refresh_loop]. destruct (at_reserve (env i)); [|intros [= <- <-]; simpl; split; [done|lia]].
  destruct (at_rate (env i)); [|intros [= <- <-]; simpl; split; [done|lia]].
  destruct (at_cancelled (env i)); [intros [= <- <-]; simpl; split; [done|lia]|].
  destruct (at_fetch (env i)) as [payload|e].
  - destruct (at_cancelled_after (env i)); intros [= <- <-]; done.
  - destruct (is_transient e); cbn [negb]; [|by intros [= <- <-]].
    destruct (back_off _ _ _ _ _); [done|]. by intros [= <- <-].
Qed.

(** A retried attempt fetched, and failed with a transient error. *)
Lemma loop_retries n i w rq rt th :
  dec i = None ->
  exists e until, at_fetch (env i) = Err e /\ is_transient e = true
    /\ back_off instant_max generation i (at_instant (env i)) e = Some until
    /\ let rt' := if negb (i =? 0) then rt + 1 else rt in
  let th' := match e with Throttled _ => th + 1 | _ => th end in
  loop (S n) i w rq rt th =
  match n with
  | O => {| rf_outcome := Err e; rf_writes := w ++ [cool_down until]; rf_requests := rq + 1;
    rf_retries := rt'; rf_throttled := th' |}
  | S _ => loop n (i + 1) (w ++ [cool_down until]) (rq + 1) rt' th'
  end.
Proof.
  unfold decisive. cbn [refresh_loop]. destruct (at_reserve (env i)); [|done].
  destruct (at_rate (env i)); [|done]. destruct (at_cancelled (env i)); [done|].
  destruct (at_fetch (env i)) as [payload|e]; [by destruct (at_cancelled_after _)|].
  destruct (is_transient e) eqn:Et; [|done]. cbn [negb].
  destruct (back_off _ _ _ _ _) as [until|] eqn:Eb; [|done]. intros _. by exists e, until.
Qed.

Lemma loop_first_decisive n k i w rq rt th o f :
  (forall j, i <= j < i + Z.of_nat k -> dec j = None) -> dec (i + Z.of_nat k) = Some (o, f) ->
  (k < n)%nat ->
  rf_outcome (loop n i w rq rt th) = o /\ rf_requests (loop n i w rq rt th) = rq + Z.of_nat k + Z.b2z f.
Proof.
  revert n i w rq rt th. induction k as [|k IH]; intros n i w rq rt th Hn Hd Hk.
  - destruct n as [|n]; [lia|]. rewrite Z.add_0_r in *. by apply loop_decides.
  - destruct n as [|[|n]]; [lia|lia|].
    destruct (loop_retries (S n) i w rq rt th (Hn i ltac:(lia))) as (e & until & _ & _ & _ & Heq).
    cbv zeta in Heq. rewrite Heq.
    destruct (IH (S n) (i + 1) (w ++ [cool_down until]) (rq + 1)
      (if negb (i =? 0) then rt + 1 else rt) (match e with Throttled _ => th + 1 | _ => th end)) as [Ho Hr].
    + intros j Hj. apply Hn. lia.
    + by replace (i + 1 + Z.of_nat k) with (i + Z.of_nat (S k)) by lia.
    + lia.
    + split; [done|]. rewrite Hr. lia.
Qed.

Lemma loop_exhausted n i w rq rt th :
  (forall j, i <= j <= i + Z.of_nat n -> dec j = None) ->
  exists e, at_fetch (env (i + Z.of_nat n)) = Err e /\ rf_outcome (loop (S n) i w rq rt th) = Err e
    /\ rf_requests (loop (S n) i w rq rt th) = rq + Z.of_nat (S n).
Proof.
  revert i w rq rt th. induction n as [|n IH]; intros i w rq rt th Hn.
  - destruct (loop_retries 0 i w rq rt th (Hn i ltac:(lia))) as (e & until & He & _ & _ & Heq).
    cbv zeta in Heq. rewrite Heq. exists e. rewrite Z.add_0_r. split_and!; [done|done|simpl; lia].
  - destruct (loop_retries (S n) i w rq rt th (Hn i ltac:(lia))) as (e & until & _ & _ & _ & Heq).
    cbv zeta in Heq. rewrite Heq. replace (i + Z.of_nat (S n)) with (i + 1 + Z.of_nat n) by lia.
    destruct (IH (i + 1) (w ++ [cool_down until]) (rq + 1)
      (if negb (i =? 0) then rt + 1 else rt) (match e with Throttled _ => th + 1 | _ => th end))
      as (e' & H1 & H2 & H3); [intros j Hj; apply Hn; lia|].
    exists e'. split_and!; [exact H1|exact H2|]. rewrite H3. lia.
Qed.

Lemma loop_requests n i w rq rt th :
  rq <= rf_requests (loop n i w rq rt th) <= rq + Z.of_nat n.
Proof.
  revert i w rq rt th. induction n as [|n IH]; intros i w rq rt th; [simpl; lia|].
  destruct (dec i) as [[o f]|] eqn:Ed.
  - destruct (loop_decides n i w rq rt th o f Ed) as [_ ->]. destruct f; simpl; lia.
  - destruct (loop_retries n i w rq rt th Ed) as (e & until & _ & _ & _ & Heq). cbv zeta in Heq. rewrite Heq.
    destruct n as [|n]; [simpl; lia|].
    specialize (IH (i + 1) (w ++ [cool_down until]) (rq + 1)
      (if negb (i =? 0) then rt + 1 else rt) (match e with Throttled _ => th + 1 | _ => th end)). lia.
Qed.

(** The writes to the provider's rate, in order: each is a pause, or the cooldown
    that the back-off of its attempt asked for. *)
Lemma loop_writes n i w rq rt th :
  exists l, rf_writes (loop n i w rq rt th) = w ++ l /\
  Forall (fun x => exists j e, i <= j < i + Z.of_nat n /\ at_fetch (env j) = Err e /\ is_transient e = true /\
    match back_off instant_max generation j (at_instant (env j)) e with
    | None => x = pause e
    | Some until => x = cool_down until
    end) l.
Proof.
  revert i w rq rt th. induction n as [|n IH]; intros i w rq rt th.
  { exists []. by rewrite app_nil_r. }
  destruct (dec i) as [[o f]|] eqn:Ed.
  - unfold decisive in Ed. cbn [refresh_loop].
    assert (Hnil : exists l : list (Rate -> Rate), w = w ++ l /\ l = []) by (exists []; by rewrite app_nil_r).
    destruct Hnil as (l & Hl & ->).
    destruct (at_reserve (env i)); [|exists []; by split].
    destruct (at_rate (env i)); [|exists []; by split].
    destruct (at_cancelled (env i)); [exists []; by split|].
    destruct (at_fetch (env i)) as [payload|e] eqn:Ef; [destruct (at_cancelled_after (env i)); exists []; by split|].
    destruct (is_transient e) eqn:Et; [|exists []; by split]. cbn [negb] in Ed.
    destruct (back_off _ _ _ _ _) eqn:Eb; [done|]. exists [pause e]. split; [done|].
    apply Forall_singleton. exists i, e. rewrite Eb. split_and!; [lia|lia|done..].
  - destruct (loop_retries n i w rq rt th Ed) as (e & until & Hf & Ht & Hb & Heq). cbv zeta in Heq. rewrite Heq.
    assert (Hhead : exists j e0, i <= j < i + Z.of_nat (S n) /\ at_fetch (env j) = Err e0 /\ is_transient e0 = true /\
      match back_off instant_max generation j (at_instant (env j)) e0 with
      | None => cool_down until = pause e0
      | Some u => cool_down until = cool_down u
      end).
    { exists i, e. rewrite Hb. split_and!; [lia|lia|done..]. }
    destruct n as [|n]; [exists [cool_down until]; split; [done|by apply Forall_singleton]|].
    destruct (IH (i + 1) (w ++ [cool_down until]) (rq + 1)
      (if negb (i =? 0) then rt + 1 else rt) (match e with Throttled _ => th + 1 | _ => th end)) as (l & -> & Hl).
    exists (cool_down until :: l). rewrite <- app_assoc. split; [done|]. constructor; [done|].
    eapply Forall_impl; [exact Hl|]. intros x (j & e0 & ? & ?). exists j, e0. split; [lia|done].
Qed.
End refresh.

(** * Policies *)

Lemma policy_validate_Ok p :
  policy_validate p = Ok tt ->
  1 <= max_attempts p <= 10 /\ 1 <= requests_per_second p <= 1000
  /\ attempt_timeout_secs p <= refresh_timeout_secs p <= 300
  /\ match daily_limit p with Limited n => 1 <= n <= 1000000 | Unlimited => True end.
Proof.
  unfold policy_validate, limit_validate. destruct (daily_limit p) as [n|].
  - destruct (in_range 1 1000000 n) eqn:En; [|done]. cbn [negb]. destruct (_ || _) eqn:E; [done|].
    intros _. bool_hyps. unfold in_range in *. bool_hyps. lia.
  - destruct (_ || _) eqn:E; [done|]. intros _. bool_hyps. unfold in_range in *. bool_hyps. lia.
Qed.

Section refresh_theorems.
Context (json_len : RetrievalData -> Z) (sha256_hex : list byte -> str) (instant_max : Z)
  (source : Source) (query : Query) (generation : Z) (env : Z -> Attempt) (policy : DemoRequestPolicy).

Abbreviation dec := (fun i => decisive json_len sha256_hex instant_max source query generation i (env i)).
Abbreviation refreshed := (refresh json_len sha256_hex instant_max policy env source query generation).

(** Under a valid policy the refresh returns the outcome of the first attempt
    that is decisive, after fetching once per attempt until then; when no attempt
    is, it fails with the transient error of the last one.  It never fetches more
    than the policy's 1 to 10 times. *)
Theorem refresh_spec :
  policy_validate policy = Ok tt ->
  (forall k o f, 0 <= k < max_attempts policy -> (forall j, 0 <= j < k -> dec j = None) ->
    dec k = Some (o, f) -> rf_outcome refreshed = o /\ rf_requests refreshed = k + Z.b2z f)
    /\ ((forall j, 0 <= j < max_attempts policy -> dec j = None) ->
      exists e, at_fetch (env (max_attempts policy - 1)) = Err e /\ rf_outcome refreshed = Err e
        /\ rf_requests refreshed = max_attempts policy)
    /\ 0 <= rf_requests refreshed <= max_attempts policy /\ max_attempts policy <= 10.
Proof.
  intros (Hmax & _)%policy_validate_Ok. unfold refresh. split_and!; [| | | |lia].
  - intros k o f Hk Hn Hd.
    destruct (loop_first_decisive json_len sha256_hex instant_max source query generation env
      (Z.to_nat (max_attempts policy)) (Z.to_nat k) 0 [] 0 0 0 o f) as [Ho Hr].
    + intros j Hj. apply Hn. lia.
    + by rewrite Z2Nat.id, Z.add_0_l by lia.
    + lia.
    + rewrite Ho, Hr. split; [done|lia].
  - intros Hn. destruct (loop_exhausted json_len sha256_hex instant_max source query generation env
      (Z.to_nat (max_attempts policy - 1)) 0 [] 0 0 0) as (e & H1 & H2 & H3); [intros j Hj; apply Hn; lia|].
    exists e. replace (0 + Z.of_nat (Z.to_nat (max_attempts policy - 1))) with (max_attempts policy - 1) in H1 by lia.
    replace (S (Z.to_nat (max_attempts policy - 1))) with (Z.to_nat (max_attempts policy)) in H2, H3 by lia.
    split_and!; [done|done|]. rewrite H3. lia.
  - pose proof (loop_requests json_len sha256_hex instant_max source query generation env
      (Z.to_nat (max_attempts policy)) 0 [] 0 0 0). lia.
  - pose proof (loop_requests json_len sha256_hex instant_max source query generation env
      (Z.to_nat (max_attempts policy)) 0 [] 0 0 0). lia.
Qed.

Lemma jitter_bounds : 100 * 1000000 <= jitter generation < 251 * 1000000.
Proof.
  unfold jitter. pose proof (Z.mod_pos_bound ((generation * 73) mod 2 ^ 64) 151 ltac:(lia)). lia.
Qed.

Lemma backoff_secs_bounds attempt : 0 <= attempt -> 1 <= backoff_secs attempt <= 30
    /\ backoff_secs attempt = Z.min (2 ^ attempt) 30.
Proof.
  intros Ha. unfold backoff_secs. rewrite Z.shiftl_mul_pow2, Z.mul_1_l by done.
  pose proof (Z.pow_pos_nonneg 2 attempt ltac:(lia) Ha). lia.
Qed.

(** The delay of a back-off: the exponential floor, and the provider's own
    guidance in full. *)
Lemma backoff_delay_bounds attempt e :
  0 <= attempt -> (forall s, e = Throttled (Some s) -> 0 <= s <= u64_max) ->
  Z.min (2 ^ attempt) 30 * NANOS <= backoff_delay generation attempt e
    /\ match e with
    | Throttled (Some s) => s * NANOS <= backoff_delay generation attempt e
    | _ => backoff_delay generation attempt e <= 30 * NANOS
    end.
Proof.
  intros Ha Hs. pose proof jitter_bounds as Hj. destruct (backoff_secs_bounds attempt Ha) as [Hb Heq].
  unfold backoff_delay, duration_add, DURATION_MAX. rewrite <- Heq.
  assert (HN : NANOS = 1000000000) by done. assert (Hu : u64_max = 18446744073709551615) by done.
  destruct e as [| | | | | | | | | | | | | | | | |[s|]]; try (split; lia).
  specialize (Hs s eq_refl). split; lia.
Qed.

(** Every failed attempt that is retried, and the last one, leaves a back-off
    behind for all refreshes of the provider: the cooldown never moves backwards
    and lasts at least the exponential floor, and at least the whole delay that
    the provider asked for; a delay beyond the clock pauses the provider for
    good instead. *)
Theorem refresh_backs_off w :
  policy_validate policy = Ok tt ->
  (forall j s, at_fetch (env j) = Err (Throttled (Some s)) -> 0 <= s <= u64_max) ->
  w ∈ rf_writes refreshed ->
  exists j e, 0 <= j < max_attempts policy /\ at_fetch (env j) = Err e /\ is_transient e = true /\
  forall rate,
  (forall c, cooldown rate = Some c -> exists c', cooldown (w rate) = Some c' /\ c <= c') /\
  (paused rate <> None -> paused (w rate) <> None) /\
  (paused (w rate) = Some e /\ instant_max < at_instant (env j) + backoff_delay generation j e
    \/ exists c, cooldown (w rate) = Some c /\ at_instant (env j) + Z.min (2 ^ j) 30 * NANOS <= c
      /\ match e with Throttled (Some s) => at_instant (env j) + s * NANOS <= c | _ => True end).
Proof.
  intros (Hmax & _)%policy_validate_Ok Hs Hw. unfold refresh in Hw.
  destruct (loop_writes json_len sha256_hex instant_max source query generation env
    (Z.to_nat (max_attempts policy)) 0 [] 0 0 0) as (l & Hl & Hall).
  rewrite Hl in Hw. rewrite Forall_forall in Hall. destruct (Hall w Hw) as (j & e & Hj & Hf & Ht & Hb).
  exists j, e. split_and!; [lia|lia|done|done|]. intros rate.
  destruct (backoff_delay_bounds j e ltac:(lia)) as [Hmin Hthr]; [intros s ->; by apply (Hs j)|].
  unfold back_off in Hb. destruct (Z.ltb_spec instant_max (at_instant (env j) + backoff_delay generation j e));
    subst w; unfold pause, cool_down; simpl; (split_and!; [| |]).
  - intros c ->. by exists c.
  - done.
  - by left.
  - intros c ->. eexists. split; [done|lia].
  - done.
  - right. eexists. split; [done|]. split; [destruct (cooldown rate); lia|].
    destruct e as [| | | | | | | | | | | | | | | | |[s|]]; try done. destruct (cooldown rate); lia.
Qed.
End refresh_theorems.

(** * The daily budget *)

(** A sequence of reservations, with the day of each and whether it was granted. *)
Fixpoint reservations (limit : RequestLimit) (nows : list Z) (usage : Z * Z) : list (Z * bool) :=
  match nows with
  | [] => []
  | now :: nows =>
    let (r, usage) := reserve_daily limit now usage in
    (now / 86400, is_ok r) :: reservations limit nows usage
  end.

Definition of_day (d : Z) (x : Z * bool) : bool := x.1 =? d.
Definition granted (d : Z) (x : Z * bool) : bool := (x.1 =? d) && x.2.

Lemma reservations_none limit d nows usage :
  Forall (fun now => d < now / 86400) nows ->
  countb (of_day d) (reservations limit nows usage) = 0
  /\ countb (granted d) (reservations limit nows usage) = 0.
Proof.
  revert usage. induction nows as [|now nows IH]; intros usage; [done|].
  intros [Hnow Hn]%Forall_cons. cbn [reservations]. destruct (reserve_daily _ _ _) as [r u].
  destruct (IH u Hn) as [H1 H2]. simpl. rewrite H1, H2. unfold of_day, granted. simpl.
  rewrite (proj2 (Z.eqb_neq _ _)) by lia. done.
Qed.

Lemma reserve_daily_limited n now c used :
  0 <= used -> n < usize_max ->
  let u := if c =? now / 86400 then used else 0 in
  reserve_daily (Limited n) now (c, used)
  = if u <? n then (Ok tt, (now / 86400, u + 1)) else (Err Busy, (now / 86400, u)).
Proof.
  intros Hu Hn. unfold reserve_daily. simpl fst. simpl snd.
  set (x := if c =? now / 86400 then used else 0).
  assert (Hx : 0 <= x) by (unfold x; destruct (_ =? _); lia).
  replace (if negb (c =? now / 86400) then (now / 86400, 0) else (c, used)) with (now / 86400, x)
    by (unfold x; by destruct (Z.eqb_spec c (now / 86400)) as [->|]).
  cbn [allows as_option fst snd]. destruct (Z.ltb_spec x n); cbn [negb]; [|done].
  unfold checked_add. by rewrite (proj2 (Z.leb_le _ _)) by lia.
Qed.

(** From [used] reservations on day [c], what remains of the limit is granted
    that day, and the limit on each later day, first come first served. *)
Lemma reservations_count n d c used nows :
  0 <= used <= n -> 1 <= n < usize_max -> StronglySorted Z.le nows ->
  Forall (fun now => c <= now / 86400) nows ->
  let rs := reservations (Limited n) nows (c, used) in
  countb (granted d) rs = Z.min (if d =? c then n - used else n) (countb (of_day d) rs).
Proof.
  intros Hu Hmax Hs. revert c used Hu. induction Hs as [|now nows Hs IH Hall]; intros c used Hu Hc.
  { simpl. destruct (d =? c); lia. }
  apply Forall_cons in Hc as [Hnow _].
  assert (Hdays : Forall (fun t => now / 86400 <= t / 86400) nows).
  { eapply Forall_impl; [exact Hall|]. intros t Ht. apply Z.div_le_mono; lia. }
  cbn [reservations]. rewrite reserve_daily_limited by lia. cbv zeta.
  set (u := if c =? now / 86400 then used else 0).
  assert (Hu' : 0 <= u <= n) by (unfold u; destruct (_ =? _); lia).
  assert (Hlater : d < now / 86400 -> forall usage,
    countb (of_day d) (reservations (Limited n) nows usage) = 0
    /\ countb (granted d) (reservations (Limited n) nows usage) = 0).
  { intros Hlt usage. apply reservations_none. eapply Forall_impl; [exact Hdays|]. simpl. lia. }
  assert (Hnew : d <> c -> d = now / 86400 -> u = 0) by (intros; unfold u; by rewrite (proj2 (Z.eqb_neq _ _)) by lia).
  assert (Hold : d = c -> d = now / 86400 -> u = used) by (intros; unfold u; by rewrite (proj2 (Z.eqb_eq _ _)) by lia).
  destruct (Z.ltb_spec u n); cbn [countb is_ok]; unfold granted at 1, of_day at 1; simpl fst; simpl snd.
  - specialize (IH (now / 86400) (u + 1) ltac:(lia) Hdays). cbv zeta in IH. rewrite IH.
    pose proof (countb_nonneg (of_day d) (reservations (Limited n) nows (now / 86400, u + 1))).
    destruct (Z.eqb_spec d c), (Z.eqb_spec d (now / 86400)), (Z.eqb_spec (now / 86400) d); simpl; try lia.
    destruct (Hlater ltac:(lia) (now / 86400, u + 1)) as [H1 _]. lia.
  - specialize (IH (now / 86400) u ltac:(lia) Hdays). cbv zeta in IH. rewrite IH.
    pose proof (countb_nonneg (of_day d) (reservations (Limited n) nows (now / 86400, u))).
    destruct (Z.eqb_spec d c), (Z.eqb_spec d (now / 86400)), (Z.eqb_spec (now / 86400) d); simpl; try lia.
    destruct (Hlater ltac:(lia) (now / 86400, u)) as [H1 _]. lia.
Qed.

(** Of the reservations of one day, under a clock that does not go back,
    exactly the first ones up to the limit are granted: never more than the
    limit, and none is refused before the limit is reached. *)
Theorem daily_budget n d0 nows d :
  1 <= n <= 1000000 -> StronglySorted Z.le nows -> Forall (fun now => d0 <= now / 86400) nows ->
  let rs := reservations (Limited n) nows (d0, 0) in
  countb (granted d) rs = Z.min n (countb (of_day d) rs).
Proof.
  intros Hn Hs Hd. assert (Hmax : n < usize_max) by (unfold usize_max; lia).
  pose proof (reservations_count n d d0 0 nows ltac:(lia) ltac:(lia) Hs Hd) as H.
  cbv zeta in *. rewrite H. destruct (d =? d0); f_equal; lia.
Qed.

(** Three calls on day 0 and one on day 1, with a limit of two a day. *)
Lemma daily_budget_witness :
  (let rs := reservations (Limited 2) [10; 20; 86399; 86400] (0, 0) in
   countb (granted 0) rs = Z.min 2 (countb (of_day 0) rs))
  /\ reservations (Limited 2) [10; 20; 86399; 86400] (0, 0) = [(0, true); (0, true); (0, false); (1, true)].
Proof.
  split; [|vm_compute; reflexivity]. apply daily_budget; [lia|repeat constructor; lia|].
  repeat constructor; vm_compute; congruence.
Defined.

(** * Validation of payloads *)

(** A validated payload is within its bounds (so the cache never refuses it),
    its data answers the query, and its reference is a plain path without control
    characters, query, fragment or credentials. *)
Theorem validate_bounds json_len sha256_hex source query payload now v :
  (forall d, 0 <= json_len d) -> validate json_len sha256_hex source query payload now = Ok v ->
  zlen (st_raw v) <= MAX_RAW_BYTES /\ json_len (st_data v) <= MAX_PROCESSED_BYTES
  /\ zlen (st_raw v) + json_len (st_data v) <= st_bytes v <= MAX_CACHE_BYTES
  /\ valid_data (st_data v) query = true
  /\ validated_at v = now /\ pv_retrieved_at (st_provenance v) = now
  /\ pv_payload_sha256 (st_provenance v) = sha256_hex (st_raw v)
  /\ let reference := pv_source_reference (st_provenance v) in
     reference <> [] /\ slen reference <= 2048 /\ Forall (fun c => is_control c = false) reference
     /\ forall c, c ∈ reference -> c <> ch "?" /\ c <> ch "#" /\ c <> ch "@".
Proof.
  intros Hj. unfold validate, bounded_size.
  do 2 (match goal with |- (if ?b then _ else _) = _ -> _ => destruct b eqn:? end; [done|]).
  destruct (valid_data (fp_data payload) query) eqn:Ev; cbn [negb]; [|done].
  destruct (Z.ltb_spec MAX_PROCESSED_BYTES (json_len (fp_data payload))); [done|]. intros [= <-]. simpl.
  bool_hyps. specialize (Hj (fp_data payload)).
  pose proof (zlen_nonneg (fp_raw payload)). pose proof (slen_nonneg (fp_source_reference payload)).
  unfold MAX_CACHE_BYTES, MAX_RAW_BYTES, MAX_PROCESSED_BYTES in *.
  split_and!; try done; try lia.
  - apply Forall_forall. intros c Hc. apply not_true_iff_false. intros Hctl.
    match goal with H : existsb is_control _ = false |- _ => rewrite <- not_true_iff_false in H; apply H end.
    apply existsb_exists. exists c. split; [by apply list_elem_of_In|done].
  - intros c Hc.
    match goal with H : existsb (fun c => contains_char c _) _ = false |- _ =>
      rewrite <- not_true_iff_false in H; assert (Hn : contains_char c (u "?#@") = false) end.
    { apply not_true_iff_false. intros Hcc.
      match goal with H : existsb _ _ <> true |- _ => apply H end.
      apply existsb_exists. exists c. split; [by apply list_elem_of_In|done]. }
    apply contains_char_false in Hn. split_and!; intros ->; apply Hn; vm_compute; set_solver.
Qed.

(** * A concrete source *)

Definition sample_source : Source :=
  {| src_id := u "layout_a"; src_provider := u "synthetic"; src_dataset := u "records";
     src_processor_version := u "v1" |}.

Definition sample_query : Query := Get (u "layout_a") (u "001").

Definition sample_fetched : FetchedPayload :=
  {| fp_raw := [1; 2; 3];
     fp_data := DataGet {| rec_source := u "layout_a"; rec_id := u "001"; rec_title := u "Synthetic record";
                           rec_body := u "Example"; rec_synthetic := true |};
     fp_source_reference := u "http://127.0.0.1:8081/synthetic" |}.

(** A length and a digest to run the model with. *)
Definition sample_json_len (d : RetrievalData) : Z := 100.
Definition sample_digest (raw : list byte) : str := u "digest".

(** The first attempt is throttled for three seconds, the second succeeds. *)
Definition sample_attempts (i : Z) : Attempt :=
  {| at_reserve := Ok tt; at_rate := Ok tt; at_cancelled := false;
     at_fetch := if i =? 0 then Err (Throttled (Some 3)) else Ok sample_fetched;
     at_cancelled_after := false; at_instant := 0; at_now := 1000 |}.

Abbreviation sample_refreshed :=
  (refresh sample_json_len sample_digest u64_max default_policy sample_attempts sample_source sample_query 1).

Lemma refresh_spec_witness :
  policy_validate default_policy = Ok tt /\
  (rf_outcome sample_refreshed
     = validate sample_json_len sample_digest sample_source sample_query sample_fetched 1000
   /\ rf_requests sample_refreshed = 2) /\ is_ok (rf_outcome sample_refreshed) = true.
Proof.
  split; [reflexivity|]. split; [|vm_compute; reflexivity].
  destruct (refresh_spec sample_json_len sample_digest u64_max sample_source sample_query 1 sample_attempts
    default_policy ltac:(reflexivity)) as (H & _).
  apply (H 1 _ true); [unfold default_policy; simpl; lia| |vm_compute; reflexivity].
  intros j Hj. assert (j = 0) as -> by lia. vm_compute. reflexivity.
Defined.

Lemma refresh_backs_off_witness :
  exists w j e, w ∈ rf_writes sample_refreshed /\ 0 <= j < max_attempts default_policy
    /\ at_fetch (sample_attempts j) = Err e
    /\ exists c, cooldown (w {| cooldown := None; paused := None |}) = Some c
         /\ match e with Throttled (Some s) => s * NANOS <= c | _ => True end.
Proof.
  assert (Hlen : length (rf_writes sample_refreshed) = 1%nat) by (vm_compute; reflexivity).
  destruct (rf_writes sample_refreshed) as [|w l] eqn:Ew; [discriminate Hlen|].
  assert (Hw : w ∈ rf_writes sample_refreshed) by (rewrite Ew; apply list_elem_of_here).
  assert (Hp : policy_validate default_policy = Ok tt) by reflexivity.
  assert (Hs : forall j s, at_fetch (sample_attempts j) = Err (Throttled (Some s)) -> 0 <= s <= u64_max).
  { intros j s. unfold sample_attempts. simpl. destruct (j =? 0); [|discriminate].
    intros Hs. injection Hs as <-. unfold u64_max. lia. }
  pose proof (refresh_backs_off sample_json_len sample_digest u64_max sample_source sample_query 1
    sample_attempts default_policy _ Hp Hs Hw) as (j & e & Hj & He & _ & Hr).
  exists w, j, e. split; [apply list_elem_of_here|]. split; [exact Hj|]. split; [exact He|].
  destruct (Hr {| cooldown := None; paused := None |}) as (_ & _ & [[_ Hover]|(c & Hc & _ & Hle)]).
  - exfalso. unfold sample_attempts in He. simpl in He. destruct (Z.eqb_spec j 0) as [->|]; [|discriminate He].
    injection He as <-. vm_compute in Hover. discriminate Hover.
  - exists c. split; [exact Hc|]. exact Hle.
Defined.

Lemma validate_bounds_witness :
  exists v, validate sample_json_len sample_digest sample_source sample_query sample_fetched 1000 = Ok v
    /\ st_bytes v <= MAX_CACHE_BYTES /\ valid_data (st_data v) sample_query = true.
Proof.
  destruct (validate sample_json_len sample_digest sample_source sample_query sample_fetched 1000) as [v|e] eqn:Ev;
    [|vm_compute in Ev; discriminate Ev].
  exists v. split; [reflexivity|].
  destruct (validate_bounds sample_json_len sample_digest sample_source sample_query sample_fetched 1000 v)
    as (_ & _ & (_ & Hb) & Hd & _).
  - intros d. unfold sample_json_len. lia.
  - exact Ev.
  - split; [exact Hb|exact Hd].
Defined.
