(* ===== verification/DurableStore.v ===== *)
(** The durable store of retrieved results: the identities and the evidence
    checks of [crates/application/src/persistence.rs] and
    [persistence/identity.rs], and what the PostgreSQL adapter
    ([crates/adapters/src/postgres.rs], [postgres/data.rs] and
    [postgres/publication.rs]) accepts from the database and answers.

    The rows that the database answers, the blobs, the epochs and the tokens are
    inputs without any law: a [Database] is what one lookup reads, a [Publication]
    what one publication reads.  A column that does not decode makes the answer
    of its query an error.  The digest and the JSON encoder are parameters. *)

From S2P Require Import Prelude Utf8 Domain CacheStore Upstream.

(** * Identities *)

Record HistoryKey := { hk_namespace : str; hk_provider : str; hk_dataset : str; hk_query : Query }.

#[export] Instance HistoryKey_eq_dec : EqDecision HistoryKey.
Proof. solve_decision. Defined.

Record PersistentKey := {
  pk_history : HistoryKey; pk_processor_version : str; pk_schema_version : Z;
}.

#[export] Instance PersistentKey_eq_dec : EqDecision PersistentKey.
Proof. solve_decision. Defined.

(** [to_be_bytes] of an integer of [n] bytes *)
Fixpoint be_bytes (n : nat) (v : Z) : list byte :=
  match n with
  | O => []
  | S n => (v / 256 ^ Z.of_nat n) mod 256 :: be_bytes n v
  end.

Definition field (value : str) : list byte := be_bytes 8 (slen value) ++ bytes value.

Definition canonical_identity (key : HistoryKey) : result RetrievalError (list byte) :=
  let? _ := query_validate (hk_query key) in
  if negb (valid_identifier (hk_namespace key) 128) || negb (valid_identifier (hk_provider key) 64)
     || negb (valid_identifier (hk_dataset key) 64)
  then Err InvalidInput
  else
  Ok (string_bytes "openlegal-query-identity-v1" ++ [0]
    ++ field (hk_namespace key) ++ field (hk_provider key) ++ field (hk_dataset key)
    ++ field (query_source (hk_query key))
    ++ match hk_query key with
    | Get _ id => [0] ++ field id
    | Search _ query page page_size => [1] ++ field query ++ be_bytes 4 page ++ be_bytes 4 page_size
    end).

(** [map_err(|_| Error::StorageCorrupt)] *)
Definition or_corrupt {A} (r : result RetrievalError A) : result RetrievalError A :=
  match r with Ok a => Ok a | Err _ => Err StorageCorrupt end.

(** * Retention *)

Record RetentionPolicy := {
  retention_days : Z; max_blob_bytes : Z; max_snapshots_per_query : Z;
  max_snapshots : Z; max_queries : Z;
}.

Definition retention_validate (p : RetentionPolicy) : result RetrievalError unit :=
  if negb (in_range 1 3650 (retention_days p))
     || negb (in_range (16 * 1024 * 1024) (64 * 1024 * 1024 * 1024) (max_blob_bytes p))
     || negb (in_range 1 1000 (max_snapshots_per_query p))
     || negb (in_range 1 1000000 (max_snapshots p))
     || negb (in_range 1 1000000 (max_queries p))
     || (max_snapshots p <? max_snapshots_per_query p)
  then Err InvalidInput else Ok tt.

Definition retains (p : RetentionPolicy) (captured now : Z) : bool :=
  match checked_sub now captured with
  | None => true
  | Some age => age <? saturating_mul (retention_days p) 86400
  end.

(** * What the adapter reads *)

Record BlobLocation := { bl_digest : list byte; bl_size_bytes : Z; bl_storage_key : str }.

(** The columns of [openlegal.cache_query]; [None]: the JSON is no query. *)
Record QueryColumns := {
  qc_id : str; qc_namespace : str; qc_provider : str; qc_dataset : str; qc_query : option Query;
  qc_canonical_identity : list byte; qc_query_hash : list byte; qc_mutation_revision : Z;
}.

(** The columns of [openlegal.blob_object]. *)
Record BlobColumns := {
  bc_sha256 : list byte; bc_generation : str; bc_storage_key : str; bc_size_bytes : Z;
  bc_ready : bool;
}.

(** The joined row of a snapshot; [None]: a number or a JSON text that does not parse. *)
Record SnapshotRow := {
  sn_id : str; sn_query : QueryColumns; sn_blob : BlobColumns;
  sn_public_id : str; sn_sequence : Z; sn_captured_at : option Z; sn_retrieved_at : option Z;
  sn_original_validated_at : option Z; sn_processor_version : str; sn_schema_version : Z;
  sn_processed_data : option RetrievalData; sn_processed_sha256 : list byte;
  sn_source_reference : str; sn_envelope_sha256 : list byte; sn_raw_blob_sha256 : list byte;
}.

Record HeadRow := { hd_snapshot_id : str; hd_validated_at : option Z }.

Record Database := {
  db_refused : option RetrievalError;     (* the status, the operation permits or the deadline *)
  db_policy : RetentionPolicy;
  db_epoch : Z;
  db_cancelled : nat -> bool;
  db_query : result RetrievalError (option QueryColumns);
  db_head : result RetrievalError (option HeadRow);
  db_snapshot : result RetrievalError (option SnapshotRow);
  db_blob : BlobLocation -> result RetrievalError (option (list byte));
  db_retained : result RetrievalError bool;
  db_dangling : result RetrievalError bool;
}.

(** * What the adapter answers *)

Record StoredResult := { sr_payload : StoredPayload; sr_epoch : Z }.

Record ObservationToken := { ob_query_id : option str; ob_revision : Z }.

#[export] Instance ObservationToken_eq_dec : EqDecision ObservationToken.
Proof. solve_decision. Defined.

Record LookupResult := { lr_value : option StoredResult; lr_observation : ObservationToken }.

Record SnapshotSummary := {
  ss_snapshot_id : str; ss_sequence : Z; ss_captured_at : Z; ss_processor_version : str;
  ss_schema_version : Z; ss_payload_sha256 : str;
}.

(** A restored capture ([data.rs]). *)
Record Restored := { ca_key : PersistentKey; ca_summary : SnapshotSummary; ca_payload : StoredPayload }.

Section store.
Context (json : RetrievalData -> list byte) (sha256 : list byte -> list byte).

Definition identity_digest (key : HistoryKey) : result RetrievalError (list byte) :=
  let? identity := canonical_identity key in
  Ok (sha256 identity).

Definition digest_hex (raw : list byte) : str := hex (sha256 raw).

(** The bounded writer refuses the first write that would exceed the limit. *)
Definition processed_bytes (data : RetrievalData) : result RetrievalError (list byte) :=
  if MAX_PROCESSED_BYTES <? zlen (json data) then Err ResourceLimit else Ok (json data).

Definition processed_digest (data : RetrievalData) : result RetrievalError (list byte) :=
  let? encoded := processed_bytes data in
  Ok (sha256 encoded).

(** * [validate_payload] *)

Definition record_valid (query : Query) (record : Record_) : bool :=
  str_eqb (rec_source record) (query_source query) && valid_identifier (rec_id record) 128
    && rec_synthetic record && negb (bool_decide (rec_title record = []))
    && (slen (rec_title record) <=? 1024) && (slen (rec_body record) <=? 16 * 1024).

Fixpoint records_valid (query : Query) (records : list Record_) (ids : gset str) : bool :=
  match records with
  | [] => true
  | r :: records =>
    record_valid query r && negb (bool_decide (rec_id r ∈ ids))
      && records_valid query records ({[rec_id r]} ∪ ids)
  end.

Definition data_valid (query : Query) (data : RetrievalData) : bool :=
  match query, data with
  | Get _ id, DataGet record => str_eqb (rec_id record) id && record_valid query record
  | Search _ _ page page_size, DataSearch result =>
    (sp_page result =? page) && (sp_page_size result =? page_size) && (sp_total result <=? 20000)
      && (zlen (sp_records result)
        =? Z.min page_size (saturating_sub (sp_total result) (page * page_size)))
      && records_valid query (sp_records result) ∅
  | _, _ => false
  end.

Definition validate_payload (key : PersistentKey) (value : StoredPayload) : result RetrievalError unit :=
  let? _ := or_corrupt (canonical_identity (pk_history key)) in
  let provenance := st_provenance value in
  let reference := pv_source_reference provenance in
  if negb (pk_schema_version key =? 1)
     || bool_decide (pk_processor_version key = []) || (128 <? slen (pk_processor_version key))
     || negb (str_eqb (pv_provider provenance) (hk_provider (pk_history key)))
     || negb (str_eqb (pv_dataset provenance) (hk_dataset (pk_history key)))
     || negb (str_eqb (pv_processor_version provenance) (pk_processor_version key))
     || (MAX_RAW_BYTES <? zlen (st_raw value))
     || negb (str_eqb (pv_payload_sha256 provenance) (digest_hex (st_raw value)))
     || bool_decide (reference = []) || (2048 <? slen reference)
     || existsb (fun c => contains_char c (u "?#@")) reference || existsb is_control reference
     || match st_snapshot value with
        | Some snapshot => negb (valid_snapshot_id (snapshot_id snapshot))
        | None => false
        end
  then Err StorageCorrupt
  else if negb (data_valid (hk_query (pk_history key)) (st_data value)) then Err StorageCorrupt
  else
  let? _ := or_corrupt (processed_bytes (st_data value)) in
  Ok tt.

Definition immutable_payload_digest (key : PersistentKey) (value : StoredPayload)
  : result RetrievalError (list byte) :=
  let? _ := validate_payload key value in
  let? identity := canonical_identity (pk_history key) in
  let? data := processed_digest (st_data value) in
  Ok (sha256 (string_bytes "openlegal-capture-integrity-v1" ++ [0] ++ identity
    ++ field (pk_processor_version key) ++ be_bytes 4 (pk_schema_version key)
    ++ data ++ sha256 (st_raw value) ++ be_bytes 8 (zlen (st_raw value))
    ++ field (pv_source_reference (st_provenance value))
    ++ be_bytes 8 (pv_retrieved_at (st_provenance value))
    ++ be_bytes 8 (pv_validated_at (st_provenance value))
    ++ match st_snapshot value with
    | Some snapshot => [1] ++ field (snapshot_id snapshot) ++ be_bytes 8 (captured_at snapshot)
    | None => [0]
    end)).

(** * Reading rows *)

(** The function [digest]: a column of 32 bytes. *)
Definition digest_column (column : list byte) : result RetrievalError (list byte) :=
  if zlen column =? 32 then Ok column else Err StorageCorrupt.

(** The function [unsigned] *)
Definition unsigned (column : option Z) : result RetrievalError Z := ok_or column StorageCorrupt.

(** [u64::try_from] of a column of 64 bits *)
Definition unsigned_column (column : Z) : result RetrievalError Z :=
  if column <? 0 then Err StorageCorrupt else Ok column.

Definition location (row : BlobColumns) : result RetrievalError BlobLocation :=
  let? digest := digest_column (bc_sha256 row) in
  let? size_bytes := unsigned_column (bc_size_bytes row) in
  let encoded := hex digest in
  if negb (str_eqb (bc_storage_key row)
      (take 2 encoded ++ u "/" ++ encoded ++ u "-" ++ bc_generation row))
     || (MAX_RAW_BYTES <? size_bytes)
  then Err StorageCorrupt
  else Ok {| bl_digest := digest; bl_size_bytes := size_bytes; bl_storage_key := bc_storage_key row |}.

Definition row_history (row : QueryColumns) : result RetrievalError HistoryKey :=
  let? query := ok_or (qc_query row) StorageCorrupt in
  Ok {| hk_namespace := qc_namespace row; hk_provider := qc_provider row;
    hk_dataset := qc_dataset row; hk_query := query |}.

(** The identifier and the revision of a row that belongs to the key. *)
Definition verify_query (row : QueryColumns) (expected : HistoryKey) : result RetrievalError (str * Z) :=
  let? actual := row_history row in
  if negb (bool_decide (actual = expected)) then Err StorageCorrupt
  else
  let? identity := canonical_identity expected in
  if negb (bool_decide (qc_canonical_identity row = identity)) then Err StorageCorrupt
  else
  let? hash := digest_column (qc_query_hash row) in
  let? expected_hash := identity_digest expected in
  if negb (bool_decide (hash = expected_hash)) then Err StorageCorrupt
  else
  let? revision := unsigned_column (qc_mutation_revision row) in
  Ok (qc_id row, revision).

Definition query_row (db : Database) (key : HistoryKey) : result RetrievalError (option (str * Z)) :=
  let? _ := identity_digest key in
  let? row := db_query db in
  match row with
  | None => Ok None
  | Some row => let? found := verify_query row key in Ok (Some found)
  end.

(** The restored payload of a row whose blob was read. *)
Definition restore (row : SnapshotRow) (key : PersistentKey) (blob : BlobLocation) (raw : list byte)
  (captured : Z) : result RetrievalError Restored :=
  let? data := ok_or (sn_processed_data row) StorageCorrupt in
  let? processed := or_corrupt (processed_digest data) in
  let? processed_sha256 := digest_column (sn_processed_sha256 row) in
  if negb (bool_decide (processed = processed_sha256)) then Err StorageCorrupt
  else
  let? encoded := or_corrupt (processed_bytes data) in
  let? retrieved := unsigned (sn_retrieved_at row) in
  let? validated := unsigned (sn_original_validated_at row) in
  let payload :=
    {| st_data := data;
      st_provenance :=
      {| pv_provider := hk_provider (pk_history key); pv_dataset := hk_dataset (pk_history key);
        pv_source_reference := sn_source_reference row; pv_payload_sha256 := hex (bl_digest blob);
        pv_processor_version := pk_processor_version key;
        pv_retrieved_at := retrieved; pv_validated_at := validated |};
      st_raw := raw;
      st_bytes := zlen raw + zlen encoded + slen (sn_source_reference row) + 1024;
      st_snapshot := Some {| snapshot_id := sn_public_id row; captured_at := captured |} |} in
  let? _ := validate_payload key payload in
  let? envelope := immutable_payload_digest key payload in
  let? expected := digest_column (sn_envelope_sha256 row) in
  if negb (bool_decide (envelope = expected)) then Err StorageCorrupt
  else
  let? sequence := unsigned_column (sn_sequence row) in
  Ok {| ca_key := key;
    ca_summary := {| ss_snapshot_id := sn_public_id row; ss_sequence := sequence;
      ss_captured_at := captured; ss_processor_version := pk_processor_version key;
      ss_schema_version := pk_schema_version key; ss_payload_sha256 := hex (bl_digest blob) |};
    ca_payload := payload |}.

Definition read_snapshot (db : Database) (now : Z) : result RetrievalError (option Restored) :=
  let? row := db_snapshot db in
  match row with
  | None => Ok None
  | Some row =>
    let? captured := unsigned (sn_captured_at row) in
    if negb (retains (db_policy db) captured now) then Ok None
    else if negb (in_range 0 (2 ^ 32 - 1) (sn_schema_version row)) then Err StorageCorrupt
    else if negb (sn_schema_version row =? 1) then Err SnapshotUnavailable
    else
    let? history := row_history (sn_query row) in
    let key := {| pk_history := history; pk_processor_version := sn_processor_version row;
      pk_schema_version := sn_schema_version row |} in
    let? identity := or_corrupt (canonical_identity history) in
    if negb (bool_decide (qc_canonical_identity (sn_query row) = identity)) then Err StorageCorrupt
    else
    let? hash := digest_column (qc_query_hash (sn_query row)) in
    let? expected_hash := or_corrupt (identity_digest history) in
    if negb (bool_decide (hash = expected_hash)) || negb (bc_ready (sn_blob row)) then Err StorageCorrupt
    else
    let? blob := location (sn_blob row) in
    let? raw_blob := digest_column (sn_raw_blob_sha256 row) in
    if negb (bool_decide (bl_digest blob = raw_blob)) then Err StorageCorrupt
    else
    let? raw := db_blob db blob in
    match raw with
    | None =>
      let? retained := db_retained db in
      if retained : bool then Err StorageCorrupt else Ok None
    | Some raw => let? found := restore row key blob raw captured in Ok (Some found)
    end
  end.

(** * Lookups *)

(** The payload with the time of its last validation. *)
Definition revalidated (value : StoredPayload) (validated : Z) : StoredPayload :=
  let p := st_provenance value in
  {| st_data := st_data value;
    st_provenance :=
    {| pv_provider := pv_provider p; pv_dataset := pv_dataset p;
      pv_source_reference := pv_source_reference p; pv_payload_sha256 := pv_payload_sha256 p;
      pv_processor_version := pv_processor_version p;
      pv_retrieved_at := pv_retrieved_at p; pv_validated_at := validated |};
    st_raw := st_raw value; st_bytes := st_bytes value; st_snapshot := st_snapshot value |}.

Definition lookup_inner (db : Database) (key : PersistentKey) (now : Z)
  : result RetrievalError LookupResult :=
  let? query := query_row db (pk_history key) in
  match query with
  | None => Ok {| lr_value := None; lr_observation := {| ob_query_id := None; ob_revision := 0 |} |}
  | Some (id, revision) =>
    let observation := {| ob_query_id := Some id; ob_revision := revision |} in
    let? head := db_head db in
    match head with
    | None => Ok {| lr_value := None; lr_observation := observation |}
    | Some head =>
      if db_cancelled db 1 then Err Cancelled
      else
      let? capture := read_snapshot db now in
      match capture with
      | None =>
        let? dangling := db_dangling db in
        if dangling : bool then Err StorageCorrupt
        else Ok {| lr_value := None; lr_observation := observation |}
      | Some capture =>
        if negb (bool_decide (ca_key capture = key)) then Err StorageCorrupt
        else
        let? validated := unsigned (hd_validated_at head) in
        Ok {| lr_value := Some {| sr_payload := revalidated (ca_payload capture) validated;
            sr_epoch := db_epoch db |};
          lr_observation := observation |}
      end
    end
  end.

(** [PersistentStore::lookup] behind the function [own]. *)
Definition store_lookup (db : Database) (key : PersistentKey) (now : Z) : result RetrievalError LookupResult :=
  match db_refused db with
  | Some e => Err e
  | None => if db_cancelled db 0 then Err Cancelled else lookup_inner db key now
  end.

(** * Publications *)

(** What one publication reads; the writes of its transaction that answer
    nothing are [pb_write]. *)
Record Publication := {
  pb_refused : option RetrievalError;
  pb_policy : RetentionPolicy;
  pb_cancelled : nat -> bool;
  pb_authorized : nat -> bool;            (* the commit authorization *)
  pb_epoch : nat -> Z;
  pb_healthy : nat -> bool;
  pb_previous : Database;
  pb_reserved : result RetrievalError (BlobLocation * str * bool);
  pb_blob : result RetrievalError (option (list byte));
  pb_live : result RetrievalError bool;
  pb_stored : result RetrievalError unit;  (* [confirm_durable] or [put_if_absent] *)
  pb_begun : result RetrievalError unit;
  pb_locked : result RetrievalError (option QueryColumns);
  pb_inserted : result RetrievalError str;
  pb_blob_exists : result RetrievalError bool;
  pb_snapshot : result RetrievalError str;
  pb_random : result RetrievalError (list byte);
  pb_sequence : result RetrievalError (option Z);
  pb_write : nat -> result RetrievalError unit;
  pb_closing : bool;
  pb_down : bool;                          (* recovering, corrupt or closed *)
}.

Inductive PublicationOutcome := Committed (value : StoredResult) | Conflict.

(** The result of the previous observation is the candidate's. *)
Definition unchanged (policy : RetentionPolicy) (old value : StoredPayload) (now : Z) : bool :=
  bool_decide (st_raw old = st_raw value) && bool_decide (st_data old = st_data value)
    && str_eqb (pv_source_reference (st_provenance old)) (pv_source_reference (st_provenance value))
    && (pv_retrieved_at (st_provenance old) <=? now)
    && match st_snapshot old with
    | Some s => (captured_at s <=? now) && retains policy (captured_at s) now
    | None => false
    end.

(** The blob of the candidate is in the blob store. *)
Definition place_blob (pb : Publication) (value : StoredPayload) (ready : bool) : result RetrievalError unit :=
  if ready then
    let? bytes := pb_blob pb in
    match bytes with
    | None => let? live := pb_live pb in Err (if live : bool then StorageCorrupt else Busy)
    | Some bytes => if negb (bool_decide (bytes = st_raw value)) then Err StorageCorrupt else pb_stored pb
    end
  else pb_stored pb.

(** The row of the query, locked or inserted; [None]: a conflict. *)
Definition lock_query (pb : Publication) (key : PersistentKey) (expected : ObservationToken)
  : result RetrievalError (option str) :=
  let? row := pb_locked pb in
  match row with
  | Some row =>
    let? query := verify_query row (pk_history key) in
    if negb (bool_decide (ob_query_id expected = Some query.1)) || negb (ob_revision expected =? query.2)
    then Ok None else Ok (Some query.1)
  | None =>
    if is_some (ob_query_id expected) || negb (ob_revision expected =? 0) then Ok None
    else let? id := pb_inserted pb in Ok (Some id)
  end.

(** The payload that the head of the query gets. *)
Definition committed_payload (pb : Publication) (key : PersistentKey) (value : StoredPayload)
  (previous : option StoredPayload) (same : bool) (now : Z) : result RetrievalError StoredPayload :=
  if same then
    let? old := ok_or previous Internal in
    let? _ := ok_or (st_snapshot old) StorageCorrupt in
    let? _ := pb_snapshot pb in
    Ok (revalidated old (validated_at value))
  else
  let? random := pb_random pb in
  let payload :=
    {| st_data := st_data value; st_provenance := st_provenance value; st_raw := st_raw value;
      st_bytes := st_bytes value;
      st_snapshot := Some {| snapshot_id := hex random; captured_at := now |} |} in
  let? _ := immutable_payload_digest key payload in
  let? _ := processed_digest (st_data payload) in
  let? sequence := pb_sequence pb in
  let? _ := ok_or sequence StorageCapacity in
  let? _ := pb_write pb 0 in
  let? _ := pb_write pb 1 in
  Ok payload.

Definition publish_inner (pb : Publication) (key : PersistentKey) (value : StoredPayload)
  (expected : ObservationToken) (now : Z) : result RetrievalError PublicationOutcome :=
  let? _ := validate_payload key value in
  if pb_cancelled pb 0 || negb (pb_authorized pb 0) then Err Cancelled
  else
  let? previous := lookup_inner (pb_previous pb) key now in
  if negb (bool_decide (lr_observation previous = expected)) then Ok Conflict
  else
  let previous := sr_payload <$> lr_value previous in
  let same := match previous with Some old => unchanged (pb_policy pb) old value now | None => false end in
  let? reserved := pb_reserved pb in
  let? _ := place_blob pb value reserved.2 in
  if pb_cancelled pb 1 || negb (pb_authorized pb 1) then Err Cancelled
  else if negb (pb_epoch pb 1 =? pb_epoch pb 0) || negb (pb_healthy pb 0) then Err Busy
  else
  let? _ := pb_begun pb in
  let? _ := identity_digest (pk_history key) in
  let? query := lock_query pb key expected in
  match query with
  | None => Ok Conflict
  | Some _ =>
    let? exists_ := pb_blob_exists pb in
    if negb exists_ then Err Busy
    else if negb (pb_epoch pb 2 =? pb_epoch pb 0) || negb (pb_healthy pb 1) then Err Busy
    else
    let? payload := committed_payload pb key value previous same now in
    let? _ := pb_write pb 2 in  (* the head *)
    let? _ := pb_write pb 3 in  (* [advance_revision] *)
    let? _ := pb_write pb 4 in  (* [trim] *)
    let? _ := pb_write pb 5 in  (* [update_accounting] *)
    if pb_cancelled pb 2 || negb (pb_authorized pb 2) then Err Cancelled
    else if pb_closing pb || pb_down pb then Err StorageUnavailable
    else
    let? _ := pb_write pb 6 in  (* [commit] *)
    Ok (Committed {| sr_payload := payload; sr_epoch := pb_epoch pb 3 |})
  end.

(** [PersistentStore::publish] behind the function [own]. *)
Definition store_publish (pb : Publication) (key : PersistentKey) (value : StoredPayload)
  (expected : ObservationToken) (now : Z) : result RetrievalError PublicationOutcome :=
  match pb_refused pb with
  | Some e => Err e
  | None => publish_inner pb key value expected now
  end.
End store.

(** * What the answers hold *)

(** A result that belongs under a key. *)
Record held_under (key : PersistentKey) (v : StoredPayload) : Prop := {
  hu_provider : pv_provider (st_provenance v) = hk_provider (pk_history key);
  hu_dataset : pv_dataset (st_provenance v) = hk_dataset (pk_history key);
  hu_version : pv_processor_version (st_provenance v) = pk_processor_version key;
  hu_data : valid_data (st_data v) (hk_query (pk_history key)) = true;
  hu_bytes : 0 <= st_bytes v;
}.

(** The evidence checks of the store accept what the service's do. *)
Lemma record_valid_eq query record : record_valid query record = valid_record record query.
Proof.
  unfold record_valid, valid_record. destruct (rec_synthetic record); [|by rewrite andb_false_r].
  by rewrite andb_true_r.
Qed.

Lemma records_valid_eq query records ids : records_valid query records ids = valid_records query records ids.
Proof.
  revert ids. induction records as [|r records IH]; intros ids; simpl; [done|].
  by rewrite record_valid_eq, IH.
Qed.

Lemma data_valid_sound query data : data_valid query data = true -> valid_data data query = true.
Proof.
  unfold data_valid, valid_data. destruct query as [source text page size|source id], data as [p|r]; try done.
  - rewrite records_valid_eq. intros Hd. bool_hyps. subst. rewrite !andb_true_iff.
    split_and!; (rewrite Z.eqb_eq || rewrite Z.leb_le || idtac); done || lia.
  - rewrite record_valid_eq. intros [-> ->]%andb_true_iff. done.
Qed.

Section facts.
Context (json : RetrievalData -> list byte) (sha256 : list byte -> list byte).

Lemma validate_payload_held key v :
  validate_payload json sha256 key v = Ok tt -> 0 <= st_bytes v -> held_under key v.
Proof.
  unfold validate_payload. destruct (or_corrupt _); [|done].
  destruct (_ || _) eqn:E; [done|]. destruct (data_valid _ _) eqn:Ed; [|done]. intros _ Hb.
  bool_hyps. constructor; [by apply str_eqb_eq..|by apply data_valid_sound|done].
Qed.

Lemma revalidated_held key v validated : held_under key v -> held_under key (revalidated v validated).
Proof. by intros []. Qed.

Lemma restore_held row key blob raw captured c :
  restore json sha256 row key blob raw captured = Ok c -> ca_key c = key /\ held_under key (ca_payload c).
Proof.
  unfold restore. destruct (ok_or _ _); [|done]. destruct (or_corrupt _); [|done].
  destruct (digest_column _); [|done]. destruct (negb _); [done|].
  destruct (or_corrupt _) as [encoded|]; [|done]. do 2 (destruct (unsigned _); [|done]).
  set (payload := Build_StoredPayload _ _ _ _ _).
  destruct (validate_payload _ _ key payload) as [[]|] eqn:Ev; [|done].
  destruct (immutable_payload_digest _ _ _ _); [|done]. destruct (digest_column _); [|done].
  destruct (negb _); [done|]. destruct (unsigned_column _); [|done]. intros [= <-]. split; [done|].
  apply validate_payload_held; [done|]. simpl.
  pose proof (zlen_nonneg raw). pose proof (zlen_nonneg encoded). pose proof (slen_nonneg (sn_source_reference row)).
  lia.
Qed.

Lemma read_snapshot_held db now c :
  read_snapshot json sha256 db now = Ok (Some c) -> held_under (ca_key c) (ca_payload c).
Proof.
  unfold read_snapshot. destruct (db_snapshot db) as [[row|]|]; [|done..].
  repeat (case_match; try done). intros [= <-].
  match goal with H : restore _ _ _ _ _ _ _ = Ok _ |- _ => apply restore_held in H as [-> ?] end. done.
Qed.

(** Whatever the database and the blob store answer, a lookup answers a result of
    its key. *)
Lemma lookup_held db key now l r :
  lookup_inner json sha256 db key now = Ok l -> lr_value l = Some r -> held_under key (sr_payload r).
Proof.
  unfold lookup_inner. destruct (query_row _ _ _) as [[[id revision]|]|]; [|by intros [= <-]|done].
  destruct (db_head db) as [[head|]|]; [|by intros [= <-]|done].
  destruct (db_cancelled db 1); [done|].
  destruct (read_snapshot _ _ db now) as [[c|]|] eqn:Er; [| |done].
  - destruct (bool_decide (ca_key c = key)) eqn:Ek; [|done]. bool_hyps. cbn [negb].
    destruct (unsigned _); [|done]. intros [= <-] [= <-]. apply revalidated_held. rewrite <- Ek.
    by eapply read_snapshot_held.
  - destruct (db_dangling db) as [[]|]; [done| |done]. by intros [= <-].
Qed.

Lemma store_lookup_held db key now l r :
  store_lookup json sha256 db key now = Ok l -> lr_value l = Some r -> held_under key (sr_payload r).
Proof.
  unfold store_lookup. destruct (db_refused db); [done|]. destruct (db_cancelled db 0); [done|].
  apply lookup_held.
Qed.

Lemma committed_held pb key value previous same now payload :
  committed_payload json sha256 pb key value previous same now = Ok payload ->
  (forall old, previous = Some old -> held_under key old) -> held_under key value -> held_under key payload.
Proof.
  unfold committed_payload. intros Hc Hold Hv. destruct same.
  - destruct previous as [old|]; [|done]. simpl in Hc. destruct (ok_or _ _); [|done].
    destruct (pb_snapshot pb); [|done]. injection Hc as <-. by apply revalidated_held, Hold.
  - repeat (case_match; try done). injection Hc as <-. by destruct Hv.
Qed.

(** A publication answers a result of its key, whatever it reads. *)
Lemma store_publish_held pb key value expected now r :
  store_publish json sha256 pb key value expected now = Ok (Committed r) -> 0 <= st_bytes value ->
  held_under key (sr_payload r).
Proof.
  intros Hp Hb. unfold store_publish, publish_inner in Hp. destruct (pb_refused pb); [done|].
  destruct (validate_payload _ _ key value) as [[]|] eqn:Ev; [|done].
  pose proof (validate_payload_held key value Ev Hb) as Hv.
  destruct (_ || _); [done|]. destruct (lookup_inner _ _ _ _ _) as [previous|] eqn:El; [|done].
  assert (Hold : forall old, sr_payload <$> lr_value previous = Some old -> held_under key old).
  { intros old (r0 & Hr0 & ->)%fmap_Some. by eapply lookup_held. }
  set (same := match sr_payload <$> lr_value previous with Some _ => _ | None => _ end) in *. clearbody same.
  destruct (negb _); [done|]. destruct (pb_reserved pb); [|done].
  destruct (place_blob _ _ _); [|done]. destruct (_ || _); [done|]. destruct (_ || _); [done|].
  destruct (pb_begun pb); [|done]. destruct (identity_digest _ _); [|done].
  destruct (lock_query _ _ _ _) as [[id|]|]; [|done..].
  destruct (pb_blob_exists pb); [|done]. destruct (negb _); [done|]. destruct (_ || _); [done|].
  destruct (committed_payload _ _ _ _ _ _ _ _) as [payload|] eqn:Ec; [|done].
  do 4 (destruct (pb_write pb _); [|done]). destruct (_ || _); [done|]. destruct (_ || _); [done|].
  destruct (pb_write pb _); [|done]. injection Hp as <-. simpl. by eapply committed_held.
Qed.
End facts.
