(* ===== verification/Retrieval.v ===== *)
(** The retrieval service: admission, coalescing, publication, the reaping of
    panicked jobs and shutdown of [crates/application/src/service.rs], and the
    resolution from the durable store of [service/persistent.rs], with the status
    of [persistence.rs].

    The service state is the content of its locks, tokens, semaphores and
    channels.  A critical section is one function of that state; what it reads
    from outside (the clock and the durable store) is an [Env], whose readings
    are numbered in the order in which the section makes them.  The cache is any
    [CacheStore]. *)

From S2P Require Import Prelude Utf8 Domain CacheStore Upstream DurableStore.

Definition MAX_IN_FLIGHT : Z := 32.
Definition MAX_WAITERS_PER_KEY : Z := 16.
Definition MAX_WAITERS : Z := 64.

(** The permits of [Semaphore::new(2)]. *)
Definition PERMITS_PER_PROVIDER : Z := 2.

(** * The durable store as the service sees it *)

Inductive StorageStatus :=
| Ready | Recovering | CommitUncertain | IntegrityBlocked | Maintaining | Closed.

#[export] Instance StorageStatus_eq_dec : EqDecision StorageStatus.
Proof. solve_decision. Defined.

(** [StorageStatus::error] *)
Definition status_error (s : StorageStatus) : option RetrievalError :=
  match s with
  | Ready => None
  | Maintaining => Some Busy
  | IntegrityBlocked => Some StorageCorrupt
  | Recovering | CommitUncertain | Closed => Some StorageUnavailable
  end.

(** The readings of [PersistentStore]: [status], [epoch], [recovery_epoch],
    [healthy] and [policy]. *)
Record StoreView := {
  sv_status : StorageStatus; sv_epoch : Z; sv_recovery_epoch : Z; sv_healthy : bool;
  sv_policy : RetentionPolicy;
}.

(** The [n]-th reading of the store ([None]: the service has none) and of the
    clock in a section. *)
Record Env := { view : nat -> option StoreView; clock : nat -> Z }.

(** * State *)

Definition PublishedOutcome : Type := result RetrievalError (StoredPayload * option Z).

(** What a flight shares with its job and its waiters: the watch channels of the
    outcome and of the progress, and the cancellation token. *)
Record Channel := {
  ch_outcome : option PublishedOutcome; ch_progress : ProgressStage; ch_cancelled : bool;
}.

Record Flight := { fl_generation : Z; fl_waiters : Z; fl_channel : nat }.

(** A spawned refresh, with the permit that it holds; [job_published]: it called
    [publish] and has only to drop what it holds. *)
Record Job := {
  job_key : CacheKey; job_generation : Z; job_channel : nat; job_provider : str;
  job_permit : bool; job_published : bool;
}.

(** The guard of a waiting caller, and the channel it listens to. *)
Record Waiter := { wt_key : CacheKey; wt_generation : Z; wt_channel : nat }.

#[export] Instance Waiter_eq_dec : EqDecision Waiter.
Proof. solve_decision. Defined.

#[export] Instance Job_eq_dec : EqDecision Job.
Proof. solve_decision. Defined.

Inductive Counter :=
| Hits | Misses | Requests | Coalesced | Failures | StaleServed | Retries | Throttles | Saturated.

#[export] Instance Counter_eq_dec : EqDecision Counter.
Proof. solve_decision. Defined.

Record State (C : Type) := {
  cache : C;
  flights : gmap CacheKey Flight;
  waiters : Z;
  generation : Z;
  stopping : bool;
  storage_epoch : Z;
  storage_recovery_epoch : Z;
  shut : bool;                     (* the service's shutdown token *)
  channels : list Channel;         (* every channel made, by its number *)
  permits : gmap str Z;            (* free permits of the providers *)
  jobs : list Job;                 (* refreshes that have not ended *)
  panicked : list Job;             (* refreshes that ended with a panic *)
  reaped : nat;                    (* how many of their errors were taken from the [JoinSet] *)
  guards : list Waiter;            (* callers that wait *)
  failed : bool;
  counters : Counter -> Z;
}.
Arguments cache {C}. Arguments flights {C}. Arguments waiters {C}. Arguments generation {C}.
Arguments stopping {C}. Arguments storage_epoch {C}. Arguments storage_recovery_epoch {C}.
Arguments shut {C}. Arguments channels {C}. Arguments permits {C}. Arguments jobs {C}. Arguments panicked {C}. Arguments reaped {C}.
Arguments guards {C}. Arguments failed {C}. Arguments counters {C}.

(** ** Assignments to fields *)

Section setters.
Context {C : Type}.

Definition set_cache (c : C) (st : State C) : State C :=
  {| cache := c; flights := flights st; waiters := waiters st; generation := generation st;
    stopping := stopping st; storage_epoch := storage_epoch st;
    storage_recovery_epoch := storage_recovery_epoch st; shut := shut st;
    channels := channels st; permits := permits st; jobs := jobs st; panicked := panicked st; reaped := reaped st;
    guards := guards st; failed := failed st; counters := counters st |}.

Definition set_flights (f : gmap CacheKey Flight) (w : Z) (st : State C) : State C :=
  {| cache := cache st; flights := f; waiters := w; generation := generation st;
    stopping := stopping st; storage_epoch := storage_epoch st;
    storage_recovery_epoch := storage_recovery_epoch st; shut := shut st;
    channels := channels st; permits := permits st; jobs := jobs st; panicked := panicked st; reaped := reaped st;
    guards := guards st; failed := failed st; counters := counters st |}.

Definition set_generation (g : Z) (st : State C) : State C :=
  {| cache := cache st; flights := flights st; waiters := waiters st; generation := g;
    stopping := stopping st; storage_epoch := storage_epoch st;
    storage_recovery_epoch := storage_recovery_epoch st; shut := shut st;
    channels := channels st; permits := permits st; jobs := jobs st; panicked := panicked st; reaped := reaped st;
    guards := guards st; failed := failed st; counters := counters st |}.

(** [stopping] and the shutdown token. *)
Definition set_stopping (st : State C) : State C :=
  {| cache := cache st; flights := flights st; waiters := waiters st; generation := generation st;
    stopping := true; storage_epoch := storage_epoch st;
    storage_recovery_epoch := storage_recovery_epoch st; shut := true;
    channels := channels st; permits := permits st; jobs := jobs st; panicked := panicked st; reaped := reaped st;
    guards := guards st; failed := failed st; counters := counters st |}.

Definition set_epochs (e r : Z) (st : State C) : State C :=
  {| cache := cache st; flights := flights st; waiters := waiters st; generation := generation st;
    stopping := stopping st; storage_epoch := e; storage_recovery_epoch := r; shut := shut st;
    channels := channels st; permits := permits st; jobs := jobs st; panicked := panicked st; reaped := reaped st;
    guards := guards st; failed := failed st; counters := counters st |}.

Definition set_channels (l : list Channel) (st : State C) : State C :=
  {| cache := cache st; flights := flights st; waiters := waiters st; generation := generation st;
    stopping := stopping st; storage_epoch := storage_epoch st;
    storage_recovery_epoch := storage_recovery_epoch st; shut := shut st;
    channels := l; permits := permits st; jobs := jobs st; panicked := panicked st; reaped := reaped st;
    guards := guards st; failed := failed st; counters := counters st |}.

Definition set_jobs (p : gmap str Z) (l : list Job) (st : State C) : State C :=
  {| cache := cache st; flights := flights st; waiters := waiters st; generation := generation st;
    stopping := stopping st; storage_epoch := storage_epoch st;
    storage_recovery_epoch := storage_recovery_epoch st; shut := shut st;
    channels := channels st; permits := p; jobs := l; panicked := panicked st; reaped := reaped st;
    guards := guards st; failed := failed st; counters := counters st |}.

Definition set_guards (l : list Waiter) (st : State C) : State C :=
  {| cache := cache st; flights := flights st; waiters := waiters st; generation := generation st;
    stopping := stopping st; storage_epoch := storage_epoch st;
    storage_recovery_epoch := storage_recovery_epoch st; shut := shut st;
    channels := channels st; permits := permits st; jobs := jobs st; panicked := panicked st; reaped := reaped st;
    guards := l; failed := failed st; counters := counters st |}.

Definition set_panicked (l : list Job) (n : nat) (st : State C) : State C :=
  {| cache := cache st; flights := flights st; waiters := waiters st; generation := generation st;
    stopping := stopping st; storage_epoch := storage_epoch st;
    storage_recovery_epoch := storage_recovery_epoch st; shut := shut st;
    channels := channels st; permits := permits st; jobs := jobs st; panicked := l; reaped := n;
    guards := guards st; failed := failed st; counters := counters st |}.

(** The failure flag and the shutdown token. *)
Definition set_failed (st : State C) : State C :=
  {| cache := cache st; flights := flights st; waiters := waiters st; generation := generation st;
    stopping := stopping st; storage_epoch := storage_epoch st;
    storage_recovery_epoch := storage_recovery_epoch st; shut := true;
    channels := channels st; permits := permits st; jobs := jobs st; panicked := panicked st;
    reaped := reaped st; guards := guards st; failed := true; counters := counters st |}.

(** [fetch_add(1)] on a counter. *)
Definition bump (k : Counter) (st : State C) : State C :=
  {| cache := cache st; flights := flights st; waiters := waiters st; generation := generation st;
    stopping := stopping st; storage_epoch := storage_epoch st;
    storage_recovery_epoch := storage_recovery_epoch st; shut := shut st;
    channels := channels st; permits := permits st; jobs := jobs st; panicked := panicked st; reaped := reaped st;
    guards := guards st; failed := failed st;
    counters := fun k' => if decide (k' = k) then wrapping_add (counters st k) 1 else counters st k' |}.
End setters.

Definition send_outcome (o : PublishedOutcome) (ch : Channel) : Channel :=
  {| ch_outcome := Some o; ch_progress := ch_progress ch; ch_cancelled := ch_cancelled ch |}.
Definition send_progress (s : ProgressStage) (ch : Channel) : Channel :=
  {| ch_outcome := ch_outcome ch; ch_progress := s; ch_cancelled := ch_cancelled ch |}.
Definition cancel_channel (ch : Channel) : Channel :=
  {| ch_outcome := ch_outcome ch; ch_progress := ch_progress ch; ch_cancelled := true |}.

(** * Critical sections *)

Section service.
Context {C : Type} `{CacheStore C}.
Implicit Types (st : State C) (env : Env).

(** [storage_error] *)
Definition storage_error (v : option StoreView) : option RetrievalError :=
  match v with
  | None => None
  | Some v =>
    match status_error (sv_status v) with
    | Some e => Some e
    | None => if sv_healthy v then None else Some StorageUnavailable
    end
  end.

Definition storage_healthy (v : option StoreView) : bool := negb (is_some (storage_error v)).

Definition flight_channels st : list nat := (fun kv => fl_channel kv.2) <$> map_to_list (flights st).

(** [for flight in flights.values() { flight.cancellation.cancel() }] *)
Definition cancel_flights st : State C :=
  set_channels (foldr (fun i l => alter cancel_channel i l) (channels st) (flight_channels st)) st.

Definition clear_cache st : State C := set_cache (cache_clear (cache st)) st.

(** [sync_epoch] *)
Definition sync_epoch (v : option StoreView) st : State C :=
  match v with
  | None => st
  | Some v =>
    let st :=
      if negb (sv_recovery_epoch v =? storage_recovery_epoch st) then
        cancel_flights (clear_cache (set_epochs (storage_epoch st) (sv_recovery_epoch v) st))
      else st in
    let st :=
      if negb (storage_epoch st =? sv_epoch v) then
        set_epochs (sv_epoch v) (storage_recovery_epoch st) (clear_cache st)
      else st in
    if negb (sv_healthy v) || negb (bool_decide (sv_status v = Ready)) then
      let st := clear_cache st in
      if negb (bool_decide (sv_status v = Maintaining)) then cancel_flights st else st
    else st
  end.

(** [usable_age] *)
Definition usable_age (v : option StoreView) (now : Z) (value : StoredPayload) : option Z :=
  if now <? pv_retrieved_at (st_provenance value) then None
  else
  let unusable :=
    match v with
    | None => false
    | Some v =>
      match st_snapshot value with
      | None => true
      | Some snapshot =>
        (now <? captured_at snapshot) || negb (retains (sv_policy v) (captured_at snapshot) now)
      end
    end in
  if unusable then None else checked_sub now (validated_at value).

(** [usable_age(value).is_some_and(|age| age < FRESH_SECONDS)] *)
Definition is_fresh (v : option StoreView) (now : Z) (value : StoredPayload) : bool :=
  match usable_age v now value with Some age => age <? FRESH_SECONDS | None => false end.

(** [usable_age(value).is_some_and(|age| age <= RETENTION_SECONDS)] *)
Definition is_retained (v : option StoreView) (now : Z) (value : StoredPayload) : bool :=
  match usable_age v now value with Some age => age <=? RETENTION_SECONDS | None => false end.

Definition envelope (now : Z) (value : StoredPayload) (state : FreshnessState) : RetrievalEnvelope :=
  {| env_data := st_data value; env_provenance := st_provenance value; env_state := state;
    env_age_seconds := saturating_sub now (validated_at value); env_synthetic := true;
    env_snapshot := st_snapshot value |}.

(** The function [expire]. *)
Definition expire (now : Z) st : State C :=
  set_cache (cache_expire_before (saturating_sub now RETENTION_SECONDS) (cache st)) st.

Definition read_cache (key : CacheKey) st : option StoredPayload * State C :=
  let (v, c) := cache_get key (cache st) in (v, set_cache c st).

Definition busy {A} st : result RetrievalError A * State C := (Err Busy, bump Saturated st).

(** [cancellation.is_cancelled()]: the token or its parent, the shutdown token. *)
Definition channel_cancelled st (i : nat) : bool :=
  shut st || match channels st !! i with Some ch => ch_cancelled ch | None => false end.

Inductive Admission := Served (e : RetrievalEnvelope) | Joined (w : Waiter).

(** A caller starts to wait on a flight. *)
Definition join (key : CacheKey) (fl : Flight) st : result RetrievalError Admission * State C :=
  let w := {| wt_key := key; wt_generation := fl_generation fl; wt_channel := fl_channel fl |} in
  (Ok (Joined w), set_guards (guards st ++ [w]) (set_flights (flights st) (waiters st + 1) st)).

(** A new flight with its job.  A panic that nobody has taken from the [JoinSet]
    is found here, and stops the service. *)
Definition launch (persistent : bool) (provider : str) (free : Z) (key : CacheKey) st
  : result RetrievalError Admission * State C :=
  let i := length (channels st) in
  let g := wrapping_add (generation st) 1 in
  let fl := {| fl_generation := g; fl_waiters := 1; fl_channel := i |} in
  let stage := if persistent then Accepted else Refreshing in
  let st := set_generation g (set_channels
    (channels st ++ [{| ch_outcome := None; ch_progress := stage; ch_cancelled := false |}]) st) in
  let st := set_flights (<[key := fl]> (flights st)) (waiters st) st in
  if (reaped st <? length (panicked st))%nat then
    (Err Internal, set_stopping (set_failed (set_panicked (panicked st) (S (reaped st)) st)))
  else
  let job := {| job_key := key; job_generation := g; job_channel := i; job_provider := provider;
    job_permit := negb persistent; job_published := false |} in
  let free := if persistent then free else free - 1 in
  join key fl (set_jobs (<[provider := free]> (permits st)) (jobs st ++ [job]) st).

(** The first critical section of [retrieve]. *)
Definition admission (env : Env) (source : Source) (key : CacheKey) st
  : result RetrievalError Admission * State C :=
  if stopping st || shut st then (Err Shutdown, st)
  else
  let st := sync_epoch (view env 0) st in
  match storage_error (view env 1) with
  | Some e => (Err e, st)
  | None =>
    let st := expire (clock env 0) st in
    let (cached, st) := read_cache key st in
    match (match cached with
    | Some v => if is_fresh (view env 2) (clock env 1) v then Some v else None
    | None => None
    end) with
    | Some v => (Ok (Served (envelope (clock env 2) v Fresh)), bump Hits st)
    | None =>
      let st := bump Misses st in
      if MAX_WAITERS <=? waiters st then busy st
      else
      match flights st !! key with
      | Some fl =>
        if channel_cancelled st (fl_channel fl) then busy st
        else if MAX_WAITERS_PER_KEY <=? fl_waiters fl then busy st
        else
        let fl := {| fl_generation := fl_generation fl; fl_waiters := fl_waiters fl + 1;
          fl_channel := fl_channel fl |} in
        join key fl (bump Coalesced (set_flights (<[key := fl]> (flights st)) (waiters st) st))
      | None =>
        if MAX_IN_FLIGHT <=? Z.of_nat (size (flights st)) then busy st
        else
        match permits st !! src_provider source with
        | None => (Err Internal, st)
        | Some free =>
          let persistent := is_some (view env 0) in
          if negb persistent && (free <=? 0) then busy st
          else launch persistent (src_provider source) free key st
        end
      end
    end
  end.

(** [retrieve] up to its first suspension. *)
Definition retrieve_start (sources : gmap str Source) (env : Env) (cancelled : bool)
  (query : Query) st : result RetrievalError Admission * State C :=
  match query_validate query with
  | Err e => (Err e, st)
  | Ok _ =>
    if cancelled then (Err Cancelled, st)
    else
    match sources !! query_source query with
    | None => (Err UnknownSource, st)
    | Some source =>
      match for_source source query with
      | Err e => (Err e, st)
      | Ok key => admission env source key st
      end
    end
  end.

(** One round of the waiting loop: [None] suspends again.  The outcome's sender
    lives in the flight. *)
Definition wait_poll (w : Waiter) (cancelled : bool) st
  : option (result RetrievalError PublishedOutcome) :=
  if cancelled then Some (Err Cancelled)
  else if shut st then Some (Err Shutdown)
  else
  match (match channels st !! wt_channel w with Some ch => ch_outcome ch | None => None end) with
  | Some o => Some (Ok o)
  | None =>
    if existsb (Nat.eqb (wt_channel w)) (flight_channels st) then None else Some (Err Internal)
  end.

(** [retrieve] from the received outcome to its answer. *)
Definition retrieve_outcome (env : Env) (freshness : FreshnessRequirement) (key : CacheKey)
  (outcome : PublishedOutcome) st : result RetrievalError RetrievalEnvelope * State C :=
  match storage_error (view env 0) with
  | Some e => (Err e, st)
  | None =>
    match outcome with
    | Ok (value, epoch) =>
      let (current, st) :=
        match epoch with
        | None => (true, st)
        | Some expected =>
          let st := sync_epoch (view env 1) st in
          ((storage_epoch st =? expected) && storage_healthy (view env 2), st)
        end in
      if negb current then (Err StorageUnavailable, st)
      else if negb (is_fresh (view env 3) (clock env 0) value) then (Err FreshnessUnavailable, st)
      else (Ok (envelope (clock env 1) value Fresh), st)
    | Err error =>
      if is_transient error then
        match freshness with
        | FreshOnly => (Err FreshnessUnavailable, st)
        | AllowStale =>
          let st := sync_epoch (view env 1) st in
          match storage_error (view env 2) with
          | Some e => (Err e, st)
          | None =>
            let (stale, st) := read_cache key (expire (clock env 0) st) in
            match stale with
            | Some value =>
              if is_retained (view env 3) (clock env 1) value then
                if saturating_sub (clock env 2) (validated_at value) <? FRESH_SECONDS
                then (Ok (envelope (clock env 3) value Fresh), st)
                else (Ok (envelope (clock env 3) value Stale), bump StaleServed st)
              else (Err error, st)
            | None => (Err error, st)
            end
          end
        end
      else (Err error, st)
    end
  end.

(** [Waiter::drop] *)
Definition remove_guard (w : Waiter) st : State C :=
  match list_find (fun w' => w' = w) (guards st) with
  | Some (i, _) => set_guards (delete i (guards st)) st
  | None => st
  end.

Definition waiter_drop (persistent : bool) (w : Waiter) st : State C :=
  let st := remove_guard w st in
  match flights st !! wt_key w with
  | None => st
  | Some fl =>
    if negb (fl_generation fl =? wt_generation w) then st
    else
    let n := fl_waiters fl - 1 in
    let fl := {| fl_generation := fl_generation fl; fl_waiters := n; fl_channel := fl_channel fl |} in
    let st := set_flights (<[wt_key w := fl]> (flights st)) (waiters st - 1) st in
    if negb (n =? 0) then st
    else
    let st := set_channels (alter cancel_channel (fl_channel fl) (channels st)) st in
    if persistent then st
    else set_flights (delete (wt_key w) (flights st)) (waiters st) st
  end.

(** A flight leaves the map and its outcome is sent. *)
Definition settle (key : CacheKey) (fl : Flight) (o : PublishedOutcome) st : State C :=
  set_channels (alter (send_outcome o) (fl_channel fl) (channels st))
  (set_flights (delete key (flights st)) (waiters st - fl_waiters fl) st).

Definition cancelled_error (v : option StoreView) (o : PublishedOutcome) : RetrievalError :=
  match o with
  | Err StorageUnavailable => StorageUnavailable
  | Err StorageCorrupt => StorageCorrupt
  | Err StorageCapacity => StorageCapacity
  | _ => default Cancelled (storage_error v)
  end.

(** [publish] *)
Definition publish (env : Env) (key : CacheKey) (gen : Z) (outcome : PublishedOutcome) st : State C :=
  let st := sync_epoch (view env 0) st in
  match flights st !! key with
  | None => st
  | Some fl =>
    if negb (fl_generation fl =? gen) then st
    else if channel_cancelled st (fl_channel fl) || stopping st then
      settle key fl (Err (cancelled_error (view env 1) outcome)) st
    else
    let outcome :=
      match outcome with
      | Ok (_, Some epoch) =>
        if negb (epoch =? storage_epoch st) || negb (storage_healthy (view env 1))
          then Err StorageUnavailable else outcome
      | _ => outcome
      end in
    let st :=
      match outcome with
      | Ok (value, _) =>
        let st := expire (clock env 0) st in
        set_cache (cache_publish key value (cache st)) st
      | Err _ => bump Failures st
      end in
    settle key fl outcome st
  end.

(** ** Jobs *)

(** The entry of a job changes, and the permits with it. *)
Definition replace_job (j held : Job) (p : gmap str Z) st : State C :=
  match list_find (fun j' => j' = j) (jobs st) with
  | None => st
  | Some (i, _) => set_jobs p (<[i := held]> (jobs st)) st
  end.

(** The job publishes its outcome. *)
Definition job_publish (env : Env) (j : Job) (outcome : PublishedOutcome) st : State C :=
  let st := publish env (job_key j) (job_generation j) outcome st in
  replace_job j {| job_key := job_key j; job_generation := job_generation j;
    job_channel := job_channel j; job_provider := job_provider j;
    job_permit := job_permit j; job_published := true |} (permits st) st.

(** The future of a job is dropped, and its permit with it. *)
Definition end_job (j : Job) st : State C :=
  match list_find (fun j' => j' = j) (jobs st) with
  | None => st
  | Some (i, _) =>
    set_jobs (if job_permit j then alter (fun n => n + 1) (job_provider j) (permits st) else permits st)
    (delete i (jobs st)) st
  end.

(** A panic unwinds the job; its error waits in the [JoinSet]. *)
Definition panic_job (j : Job) st : State C :=
  let st := end_job j st in set_panicked (panicked st ++ [j]) (reaped st) st.

(** The reaping of the periodic task: every error is taken. *)
Definition reap st : State C :=
  if (reaped st <? length (panicked st))%nat
  then set_failed (set_panicked (panicked st) (length (panicked st)) st) else st.

(** The health task, with the status that it found. *)
Definition health_check (v : StoreView) st : State C :=
  if bool_decide (sv_status v = CommitUncertain) then set_failed st else st.

(** The drained flights of [shutdown]. *)
Definition close_flights st : State C :=
  set_flights ∅ 0 (set_channels
    (foldr (fun i l => alter (fun ch => send_outcome (Err Shutdown) (cancel_channel ch)) i l)
      (channels st) (flight_channels st)) st).

Definition shutdown st : State C := clear_cache (close_flights (set_stopping st)).

(** ** Durable storage *)

(** A job that looks in the durable store first takes its permit later. *)
Definition acquire_permit (j : Job) st : result RetrievalError unit * State C :=
  match permits st !! job_provider j with
  | Some free =>
    if free <=? 0 then busy st
    else
    (Ok tt, replace_job j {| job_key := job_key j; job_generation := job_generation j;
      job_channel := job_channel j; job_provider := job_provider j; job_permit := true;
      job_published := job_published j |} (<[job_provider j := free - 1]> (permits st)) st)
  | None => busy st
  end.

(** [drop(permit)] *)
Definition release_permit (j : Job) st : State C :=
  if job_permit j then
    replace_job j {| job_key := job_key j; job_generation := job_generation j;
      job_channel := job_channel j; job_provider := job_provider j; job_permit := false;
      job_published := job_published j |} (alter (fun n => n + 1) (job_provider j) (permits st)) st
  else st.

(** The flight of a generation that still has waiters and is not cancelled. *)
Definition wanted st (key : CacheKey) (gen : Z) : bool :=
  match flights st !! key with
  | Some fl => (fl_generation fl =? gen) && (0 <? fl_waiters fl)
      && negb (channel_cancelled st (fl_channel fl))
  | None => false
  end.

(** [promote_persistent] *)
Definition promote_persistent (env : Env) (key : CacheKey) (gen : Z) (payload : StoredPayload)
  (epoch : Z) st : result RetrievalError unit * State C :=
  let st := sync_epoch (view env 0) st in
  if negb (storage_healthy (view env 1)) || negb (storage_epoch st =? epoch)
  then (Err StorageUnavailable, st)
  else if stopping st || negb (wanted st key gen) then (Err Cancelled, st)
  else (Ok tt, set_cache (cache_publish key payload (cache st)) st).

(** The commit authorization of [resolve_storage_then_upstream]. *)
Definition authorize (v : option StoreView) (recovery_epoch : Z) (key : CacheKey) (gen : Z) st : bool :=
  negb (stopping st) && negb (shut st)
    && match v with
    | None => false
    | Some v => (sv_recovery_epoch v =? recovery_epoch)
        && bool_decide (sv_status v = Ready \/ sv_status v = Maintaining)
    end
    && wanted st key gen.

(** [set_stage]; generations are unique, so the first match is the only one. *)
Definition set_stage (query : Query) (gen : Z) (stage : ProgressStage) st : State C :=
  match List.find (fun kv => bool_decide (ck_query kv.1 = query) && (fl_generation kv.2 =? gen))
    (map_to_list (flights st)) with
  | Some (_, fl) => set_channels (alter (send_progress stage) (fl_channel fl) (channels st)) st
  | None => st
  end.
End service.

(** * The outcome of a job *)

(** What a job that looks in the durable store first reads: the store and the
    clock, the cancellation token, its lookups, the results of its critical
    sections, the attempts of its refresh, and its publication. *)
Record Resolution := {
  rs_env : Env;
  rs_cancelled : nat -> bool;
  rs_lookup : nat -> Database;
  rs_promoted : result RetrievalError unit;   (* [promote_persistent] *)
  rs_permit : result RetrievalError unit;     (* [acquire_permit] *)
  rs_preempted : bool;                        (* cancelled before the refresh ends *)
  rs_timed_out : bool;                        (* [refresh_timeout_secs] pass before it ends *)
  rs_attempts : Z -> Attempt;
  rs_publication : Publication;
}.

Section outcome.
Context (json : RetrievalData -> list byte) (sha256 : list byte -> list byte) (instant_max : Z)
  (namespace : str).

(** [serde_json::to_writer] into the counter *)
Definition json_len (data : RetrievalData) : Z := zlen (json data).

Definition persistent_key (key : CacheKey) : PersistentKey :=
  {| pk_history := {| hk_namespace := namespace; hk_provider := ck_provider key;
       hk_dataset := ck_dataset key; hk_query := ck_query key |};
     pk_processor_version := ck_processor_version key; pk_schema_version := ck_schema_version key |}.

(** The refresh of a job under its deadline. *)
Definition refresh_within (preempted timed_out : bool) (policy : DemoRequestPolicy) (source : Source)
  (query : Query) (gen : Z) (attempts : Z -> Attempt) : result RetrievalError StoredPayload :=
  if preempted then Err Cancelled
  else if timed_out then Err Unavailable
  else rf_outcome (refresh json_len (digest_hex sha256) instant_max policy attempts source query gen).

(** The job of a service without a durable store. *)
Definition resolve_upstream (preempted timed_out : bool) (policy : DemoRequestPolicy) (source : Source)
  (query : Query) (gen : Z) (attempts : Z -> Attempt) : PublishedOutcome :=
  let? value := refresh_within preempted timed_out policy source query gen attempts in
  Ok (value, None).

(** A stored result that is fresh enough to answer. *)
Definition usable_found (r : Resolution) (value : option StoredResult)
  : result RetrievalError (option StoredResult) :=
  match value with
  | None => Ok None
  | Some found =>
    if rs_cancelled r 1 then Err Cancelled
    else
    let env := rs_env r in
    match usable_age (view env 1) (clock env 1) (sr_payload found) with
    | None => Ok None
    | Some age =>
      if age <=? RETENTION_SECONDS then
        let? _ := rs_promoted r in
        Ok (if age <? FRESH_SECONDS then Some found else None)
      else Ok None
    end
  end.

(** The committed result; behind a conflict, what the store holds by now. *)
Definition commit_candidate (r : Resolution) (storage_key : PersistentKey) (candidate : StoredPayload)
  (observation : ObservationToken) : result RetrievalError StoredResult :=
  let? outcome := store_publish json sha256 (rs_publication r) storage_key candidate observation
    (clock (rs_env r) 2) in
  match outcome with
  | Committed committed => Ok committed
  | Conflict =>
    if rs_cancelled r 3 then Err Cancelled
    else
    let? again := store_lookup json sha256 (rs_lookup r 1) storage_key (clock (rs_env r) 3) in
    ok_or (lr_value again) Busy
  end.

Definition recovery_epoch_of (v : option StoreView) : option Z := sv_recovery_epoch <$> v.

Definition resolve_storage_then_upstream (policy : DemoRequestPolicy) (source : Source)
  (key : CacheKey) (query : Query) (gen : Z) (r : Resolution) : PublishedOutcome :=
  let env := rs_env r in
  let? recovery_epoch := ok_or (recovery_epoch_of (view env 0)) Internal in
  if rs_cancelled r 0 then Err Cancelled
  else
  let storage_key := persistent_key key in
  let? found := store_lookup json sha256 (rs_lookup r 0) storage_key (clock env 0) in
  let? usable := usable_found r (lr_value found) in
  match usable with
  | Some found => Ok (sr_payload found, Some (sr_epoch found))
  | None =>
    if rs_cancelled r 2 then Err Cancelled
    else
    match storage_error (view env 2) with
    | Some error => Err error
    | None =>
      let? _ := rs_permit r in
      let? candidate :=
        refresh_within (rs_preempted r) (rs_timed_out r) policy source query gen (rs_attempts r) in
      if negb (bool_decide (recovery_epoch_of (view env 3) = Some recovery_epoch))
      then Err StorageUnavailable
      else
      match storage_error (view env 4) with
      | Some error => Err error
      | None =>
        let? committed := commit_candidate r storage_key candidate (lr_observation found) in
        if rs_cancelled r 4 then Err Cancelled
        else if negb (bool_decide (recovery_epoch_of (view env 5) = Some recovery_epoch))
        then Err StorageUnavailable
        else if negb (is_fresh (view env 6) (clock env 4) (sr_payload committed))
        then Err FreshnessUnavailable
        else Ok (sr_payload committed, Some (sr_epoch committed))
      end
    end
  end.

(** [resolve_persistent]: cancellation and the deadline let the work drain. *)
Definition resolve_persistent (cancelled timed_out : bool) (policy : DemoRequestPolicy)
  (source : Source) (key : CacheKey) (query : Query) (gen : Z) (r : Resolution) : PublishedOutcome :=
  if cancelled then Err Cancelled
  else
  let result := resolve_storage_then_upstream policy source key query gen r in
  if timed_out then Err StorageUnavailable else result.
End outcome.
