(* ===== verification/RetrievalFacts.v ===== *)
(** The retrieval service as a step relation, and the invariant of its reachable
    states: admission limits, exact accounting, and no waiter without an answer
    to come. *)

From S2P Require Import Prelude Utf8 Domain CacheStore Upstream DurableStore Retrieval.

(** * The part of the state that coalescing is about *)

Record Core := {
  k_flights : gmap CacheKey Flight; k_waiters : Z; k_generation : Z; k_stopping : bool;
  k_shut : bool; k_outcomes : list (option PublishedOutcome); k_permits : gmap str Z;
  k_jobs : list Job; k_panicked : list Job; k_reaped : nat; k_guards : list Waiter;
}.

Definition core {C} (st : State C) : Core :=
  {| k_flights := flights st; k_waiters := waiters st; k_generation := generation st;
     k_stopping := stopping st; k_shut := shut st; k_outcomes := List.map ch_outcome (channels st);
     k_permits := permits st; k_jobs := jobs st; k_panicked := panicked st; k_reaped := reaped st;
     k_guards := guards st |}.

(** A guard whose flight is still in the map. *)
Definition active (f : gmap CacheKey Flight) (w : Waiter) : bool :=
  match f !! wt_key w with Some fl => fl_generation fl =? wt_generation w | None => false end.

Definition waits_on (key : CacheKey) (fl : Flight) (w : Waiter) : bool :=
  bool_decide (wt_key w = key) && (wt_generation w =? fl_generation fl).

Definition holds_permit (p : str) (j : Job) : bool := job_permit j && bool_decide (job_provider j = p).

(** A job of the flight has still to publish. *)
Definition runs (jobs : list Job) (key : CacheKey) (gen : Z) : Prop :=
  exists j, j ∈ jobs /\ job_key j = key /\ job_generation j = gen /\ job_published j = false.

(** The job of the flight panicked. *)
Definition dead (panicked : list Job) (key : CacheKey) (gen : Z) : Prop :=
  exists j, j ∈ panicked /\ job_key j = key /\ job_generation j = gen.

Definition tended (jobs panicked : list Job) (key : CacheKey) (gen : Z) : Prop :=
  runs jobs key gen \/ dead panicked key gen.

Section core_invariant.
Context (genuine : CacheKey -> StoredPayload -> Prop).

Record core_inv (k : Core) : Prop := {
  (* one channel per generation *)
  ci_generation : k_generation k = zlen (k_outcomes k);
  ci_flight key fl : k_flights k !! key = Some fl ->
  fl_generation fl = Z.of_nat (fl_channel fl) + 1
    /\ k_outcomes k !! fl_channel fl = Some None;
  ci_distinct key1 fl1 key2 fl2 :
  k_flights k !! key1 = Some fl1 -> k_flights k !! key2 = Some fl2 ->
  fl_channel fl1 = fl_channel fl2 -> key1 = key2;
  ci_job j : j ∈ k_jobs k -> (job_channel j < length (k_outcomes k))%nat
    /\ job_generation j = Z.of_nat (job_channel j) + 1 /\ is_Some (k_permits k !! job_provider j);
  ci_guard w : w ∈ k_guards k -> (wt_channel w < length (k_outcomes k))%nat
    /\ wt_generation w = Z.of_nat (wt_channel w) + 1;
  ci_guard_key w key fl :
  w ∈ k_guards k -> k_flights k !! key = Some fl -> wt_channel w = fl_channel fl -> wt_key w = key;
  (* the counters count the guards *)
  ci_count key fl : k_flights k !! key = Some fl ->
  tended (k_jobs k) (k_panicked k) key (fl_generation fl)
    /\ fl_waiters fl = countb (waits_on key fl) (k_guards k)
  \/ ~ runs (k_jobs k) key (fl_generation fl) /\ k_stopping k = true /\ k_shut k = true
    /\ countb (waits_on key fl) (k_guards k) = 0;
  ci_waiters : k_waiters k = countb (active (k_flights k)) (k_guards k);
  (* every guard is answered, or its flight is in the map *)
  ci_answered w : w ∈ k_guards k ->
  active (k_flights k) w = true \/ exists o, k_outcomes k !! wt_channel w = Some (Some o);
  ci_genuine w v e : w ∈ k_guards k ->
  k_outcomes k !! wt_channel w = Some (Some (Ok (v, e))) -> genuine (wt_key w) v;
  ci_permits p free : k_permits k !! p = Some free ->
  0 <= free /\ free + countb (holds_permit p) (k_jobs k) = PERMITS_PER_PROVIDER;
  (* a panic that was taken stopped the service *)
  ci_reaped : k_shut k = false -> k_reaped k = 0%nat;
  ci_max_flights : Z.of_nat (size (k_flights k)) <= MAX_IN_FLIGHT;
  ci_max_waiters : k_waiters k <= MAX_WAITERS;
  ci_max_per_key key fl : k_flights k !! key = Some fl -> fl_waiters fl <= MAX_WAITERS_PER_KEY;
}.

Lemma active_waits_on k key fl w :
  k_flights k !! key = Some fl -> waits_on key fl w = active (k_flights k) w && bool_decide (wt_key w = key).
Proof.
  intros Hk. unfold waits_on, active. case_bool_decide as Hw; [|by rewrite andb_false_r].
  subst key. rewrite Hk, andb_true_r. simpl. apply Z.eqb_sym.
Qed.

(** The guards behind the counter of the service: those of one flight, and those
    of the others. *)
Lemma active_split k key fl :
  k_flights k !! key = Some fl ->
  countb (active (k_flights k)) (k_guards k)
  = countb (waits_on key fl) (k_guards k) + countb (active (delete key (k_flights k))) (k_guards k).
Proof.
  intros Hk. apply countb_split. intros w _. rewrite (active_waits_on k key fl w Hk).
  destruct (decide (wt_key w = key)) as [Hw|Hne].
  - rewrite (bool_decide_true (wt_key w = key)) by done.
    assert (active (delete key (k_flights k)) w = false) as ->.
    { unfold active. by rewrite Hw, lookup_delete_eq. }
    rewrite andb_true_r. simpl. lia.
  - rewrite (bool_decide_false (wt_key w = key)), andb_false_r by done. unfold active.
    by rewrite lookup_delete_ne.
Qed.

(** A flight of the map with a guard has a job, or had one that panicked. *)
Lemma guard_tended k w fl :
  core_inv k -> w ∈ k_guards k -> k_flights k !! wt_key w = Some fl ->
  fl_generation fl = wt_generation w ->
  tended (k_jobs k) (k_panicked k) (wt_key w) (fl_generation fl) /\ fl_waiters fl = countb (waits_on (wt_key w) fl) (k_guards k)
    /\ 1 <= fl_waiters fl.
Proof.
  intros Hk Hw Hf Hg. assert (Hp : 1 <= countb (waits_on (wt_key w) fl) (k_guards k)).
  { apply (countb_pos _ _ w); [done|]. unfold waits_on. rewrite bool_decide_true by done. simpl. lia. }
  destruct (ci_count k Hk _ fl Hf) as [[? ?]|(_ & _ & _ & ?)]; [|lia]. split_and!; [done|done|lia].
Qed.

(** ** Joining a flight *)

Definition k_join (key : CacheKey) (fl : Flight) (k : Core) : Core :=
  {| k_flights := <[key := {| fl_generation := fl_generation fl; fl_waiters := fl_waiters fl + 1;
    fl_channel := fl_channel fl |}]> (k_flights k);
    k_waiters := k_waiters k + 1; k_generation := k_generation k; k_stopping := k_stopping k;
    k_shut := k_shut k; k_outcomes := k_outcomes k; k_permits := k_permits k; k_jobs := k_jobs k;
    k_panicked := k_panicked k; k_reaped := k_reaped k; k_guards := k_guards k ++ [{| wt_key := key; wt_generation := fl_generation fl;
      wt_channel := fl_channel fl |}] |}.

(** Changing the number of waiters of a flight keeps what guards are active. *)
Lemma active_recount (f : gmap CacheKey Flight) key fl n w :
  f !! key = Some fl ->
  active (<[key := {| fl_generation := fl_generation fl; fl_waiters := n; fl_channel := fl_channel fl |}]> f) w
  = active f w.
Proof.
  intros Hf. unfold active. destruct (decide (wt_key w = key)) as [<-|?].
  - by rewrite lookup_insert_eq, Hf.
  - by rewrite lookup_insert_ne.
Qed.

Lemma lookup_recount (f : gmap CacheKey Flight) key fl n key' fl' :
  f !! key = Some fl ->
  <[key := {| fl_generation := fl_generation fl; fl_waiters := n; fl_channel := fl_channel fl |}]> f !! key'
  = Some fl' ->
  exists fl0, f !! key' = Some fl0 /\ fl_generation fl' = fl_generation fl0
    /\ fl_channel fl' = fl_channel fl0
    /\ fl_waiters fl' = (if decide (key' = key) then n else fl_waiters fl0).
Proof.
  intros Hf [[<- <-]|[Hne ?]]%lookup_insert_Some.
  - exists fl. by rewrite decide_True.
  - exists fl'. by rewrite decide_False.
Qed.

Lemma waits_on_same key fl fl' w :
  fl_generation fl = fl_generation fl' -> waits_on key fl w = waits_on key fl' w.
Proof. unfold waits_on. by intros ->. Qed.

Lemma join_inv key fl k :
  core_inv k -> k_flights k !! key = Some fl -> k_stopping k = false ->
  k_waiters k < MAX_WAITERS -> fl_waiters fl < MAX_WAITERS_PER_KEY -> core_inv (k_join key fl k).
Proof.
  intros Hk Hf Hstop Hw Hwk. pose proof (ci_flight k Hk key fl Hf) as [Hgen Hout].
  set (w := {| wt_key := key; wt_generation := fl_generation fl; wt_channel := fl_channel fl |}).
  assert (Hact : forall f, (forall w', active f w' = active (k_flights k) w') -> active f w = true).
  { intros f ->. unfold active, w. simpl. rewrite Hf. lia. }
  destruct Hk. constructor; simpl; fold w.
  - done.
  - intros key' fl' (fl0 & H0 & -> & -> & _)%(lookup_recount _ _ fl); eauto.
  - intros ? ? ? ? (? & ? & _ & -> & _)%(lookup_recount _ _ fl) (? & ? & _ & -> & _)%(lookup_recount _ _ fl); eauto.
  - done.
  - intros w' [Hw'| ->%list_elem_of_singleton]%elem_of_app; [eauto|]. split; [|done].
    by eapply lookup_lt_Some.
  - intros w' key' fl' [Hw'| ->%list_elem_of_singleton]%elem_of_app
      (fl0 & H0 & _ & -> & _)%(lookup_recount _ _ fl); try done; [eauto|]. simpl. by apply (ci_distinct0 _ fl _ fl0).
  - intros key' fl' (fl0 & H0 & Hg & Hc & Hn)%(lookup_recount _ _ fl); [|done].
    destruct (ci_count0 key' fl0 H0) as [[Hr Hcnt]|(_ & ? & _)]; [left|congruence].
    rewrite countb_app, Hg, (countb_ext _ (waits_on key' fl0)) by (intros; by apply waits_on_same).
    split; [done|]. simpl. rewrite (waits_on_same key' fl' fl0 w Hg).
    rewrite Hn. case_decide as Hkey.
    + subst key'. simplify_eq. unfold waits_on at 2. simpl.
      rewrite bool_decide_true, Z.eqb_refl by done. simpl. lia.
    + unfold waits_on at 2. simpl. rewrite bool_decide_false by done. simpl. lia.
  - rewrite countb_app, (countb_ext _ (active (k_flights k))) by (intros; by apply active_recount).
    simpl. rewrite Hact by (intros; by apply active_recount). simpl. lia.
  - intros w' [Hw'| ->%list_elem_of_singleton]%elem_of_app.
    + rewrite active_recount by done. eauto.
    + left. apply Hact. intros. by apply active_recount.
  - intros w' v e [Hw'| ->%list_elem_of_singleton]%elem_of_app; [eauto|]. intros Ho. by pose proof (eq_trans (eq_sym Hout) Ho).
  - done.
  - done.
  - by rewrite map_size_insert_Some.
  - lia.
  - intros key' fl' (fl0 & H0 & _ & _ & ->)%(lookup_recount _ _ fl); [|done]. case_decide; [lia|eauto].
Qed.

(** ** Launching a flight *)

Definition k_add (key : CacheKey) (n : Z) (extra : list Job) (permits : gmap str Z) (stop : bool)
  (n_reaped : nat) (k : Core) : Core :=
  {| k_flights := <[key := {| fl_generation := k_generation k + 1; fl_waiters := n;
    fl_channel := length (k_outcomes k) |}]> (k_flights k);
    k_waiters := k_waiters k; k_generation := k_generation k + 1;
    k_stopping := k_stopping k || stop; k_shut := k_shut k || stop;
    k_outcomes := k_outcomes k ++ [None]; k_permits := permits; k_jobs := k_jobs k ++ extra;
    k_panicked := k_panicked k; k_reaped := n_reaped; k_guards := k_guards k |}.

Lemma outcome_old k i o :
  (i < length (k_outcomes k))%nat -> (k_outcomes k ++ [None]) !! i = Some o <-> k_outcomes k !! i = Some o.
Proof. intros Hi. by rewrite lookup_app_l. Qed.

Lemma tended_app jobs extra panicked key gen :
  tended jobs panicked key gen -> tended (jobs ++ extra) panicked key gen.
Proof. intros [(j & Hj & ?)|?]; [left|by right]. exists j. by rewrite elem_of_app; auto. Qed.

Lemma add_inv key n extra permits stop n_reaped k :
  core_inv k -> k_flights k !! key = None -> Z.of_nat (size (k_flights k)) < MAX_IN_FLIGHT ->
  n <= MAX_WAITERS_PER_KEY ->
  (runs extra key (k_generation k + 1) /\ n = 0 \/ extra = [] /\ stop = true) ->
  (forall j, j ∈ extra -> job_generation j = k_generation k + 1 /\ job_channel j = length (k_outcomes k)) ->
  (forall j, j ∈ k_jobs k ++ extra -> is_Some (permits !! job_provider j)) ->
  (forall p free, permits !! p = Some free ->
    0 <= free /\ free + countb (holds_permit p) (k_jobs k ++ extra) = PERMITS_PER_PROVIDER) ->
  (stop = false -> n_reaped = k_reaped k) ->
  core_inv (k_add key n extra permits stop n_reaped k).
Proof.
  intros Hk Hnone Hsize Hn Hnew Hextra Hprov Hperm Hreaped.
  assert (Hlen : k_generation k = Z.of_nat (length (k_outcomes k))) by apply (ci_generation k Hk).
  assert (Hold : forall key' fl, k_flights k !! key' = Some fl -> (fl_channel fl < length (k_outcomes k))%nat).
  { intros key' fl Hf. destruct (ci_flight k Hk key' fl Hf) as [_ Ho]. by eapply lookup_lt_Some. }
  assert (Hfresh : forall w, w ∈ k_guards k -> wt_generation w <> k_generation k + 1).
  { intros w Hw. destruct (ci_guard k Hk w Hw). lia. }
  assert (Hact : forall f fl w, w ∈ k_guards k -> f !! key = None -> fl_generation fl = k_generation k + 1 ->
    active (<[key := fl]> f) w = active f w).
  { intros f fl w Hw Hf Hg. unfold active. destruct (decide (wt_key w = key)) as [->|?].
    - rewrite lookup_insert_eq, Hf, Hg. specialize (Hfresh w Hw). lia.
    - by rewrite lookup_insert_ne. }
  destruct Hk. constructor; simpl.
  - rewrite zlen_app. unfold zlen. simpl. lia.
  - intros key' fl [[<- <-]|[Hne Hf]]%lookup_insert_Some; simpl.
    + split; [lia|]. rewrite lookup_app_r, Nat.sub_diag by done. done.
    + split; [apply (ci_flight0 key' fl Hf)|]. apply outcome_old; [by eapply Hold|].
      apply (ci_flight0 key' fl Hf).
  - intros k1 f1 k2 f2 [[<- <-]|[Hne1 Hf1]]%lookup_insert_Some [[<- <-]|[Hne2 Hf2]]%lookup_insert_Some;
      simpl; [done|intros Hc; specialize (Hold _ _ Hf2); lia|intros Hc; specialize (Hold _ _ Hf1); lia|eauto].
  - intros j Hj. specialize (Hprov j Hj). rewrite length_app. simpl. apply elem_of_app in Hj as [Hj|Hj].
    + destruct (ci_job0 j Hj) as (? & ? & _). split_and!; [lia|done|done].
    + destruct (Hextra j Hj) as [-> ->]. split_and!; [lia|lia|done].
  - intros w Hw. destruct (ci_guard0 w Hw). rewrite length_app. simpl. split; [lia|done].
  - intros w key' fl Hw [[<- <-]|[Hne Hf]]%lookup_insert_Some; simpl; [|eauto].
    intros Hc. destruct (ci_guard0 w Hw). lia.
  - intros key' fl [[<- <-]|[Hne Hf]]%lookup_insert_Some.
    + assert (Hz : forall fl', fl_generation fl' = k_generation k + 1 -> countb (waits_on key fl') (k_guards k) = 0).
      { intros fl' Hg. apply countb_none. intros w Hw. unfold waits_on. specialize (Hfresh w Hw).
        rewrite Hg, (proj2 (Z.eqb_neq _ _)) by done. apply andb_false_r. }
      rewrite Hz by done. destruct Hnew as [[Hr ->]|[-> ->]]; [left|right; rewrite !orb_true_r].
      * split; [|done]. left. destruct Hr as (j & ? & ? & ?). exists j. rewrite elem_of_app. auto.
      * split_and!; try done. rewrite app_nil_r. simpl. intros (j & Hj & _ & Hg & _).
        destruct (ci_job0 j Hj). lia.
    + destruct (ci_count0 key' fl Hf) as [[? ?]|(Hr & -> & -> & ?)]; [left; split; [by apply tended_app|done]|right].
      split_and!; try done. intros (j & [Hj|Hj]%elem_of_app & ? & Hg & ?); apply Hr; [by exists j|].
      destruct (Hextra j Hj). destruct (ci_flight0 key' fl Hf). specialize (Hold key' fl Hf). lia.
  - rewrite ci_waiters0. apply countb_ext. intros w Hw. by rewrite Hact.
  - intros w Hw. rewrite Hact by done. destruct (ci_answered0 w Hw) as [?|[o Ho]]; [by left|right].
    exists o. apply outcome_old; [by eapply lookup_lt_Some|done].
  - intros w v e Hw Ho. apply (ci_genuine0 w v e Hw). apply outcome_old; [apply (ci_guard0 w Hw)|done].
  - done.
  - intros [Hs Hst]%orb_false_iff. rewrite Hreaped by done. auto.
  - rewrite map_size_insert_None by done. lia.
  - done.
  - intros key' fl [[<- <-]|[Hne Hf]]%lookup_insert_Some; [done|eauto].
Qed.

(** ** A guard is dropped *)

Definition k_unguard (i : nat) (k : Core) : Core :=
  {| k_flights := k_flights k; k_waiters := k_waiters k; k_generation := k_generation k;
    k_stopping := k_stopping k; k_shut := k_shut k; k_outcomes := k_outcomes k;
    k_permits := k_permits k; k_jobs := k_jobs k; k_panicked := k_panicked k; k_reaped := k_reaped k; k_guards := delete i (k_guards k) |}.

Lemma elem_of_delete {A} (l : list A) i x : x ∈ delete i l -> x ∈ l.
Proof.
  intros Hx. apply list_elem_of_lookup in Hx as [n Hn]. rewrite list_lookup_delete in Hn.
  apply list_elem_of_lookup. destruct (decide (n < i)%nat); eauto.
Qed.

(** A guard that is not active any more. *)
Lemma unguard_inv i w k :
  core_inv k -> k_guards k !! i = Some w -> active (k_flights k) w = false -> core_inv (k_unguard i k).
Proof.
  intros Hk Hi Ha. assert (Hin : forall w', w' ∈ delete i (k_guards k) -> w' ∈ k_guards k)
    by (intros ?; apply elem_of_delete).
  assert (Hz : forall key fl, k_flights k !! key = Some fl -> waits_on key fl w = false).
  { intros key fl Hf. rewrite (active_waits_on k key fl w Hf), Ha. done. }
  destruct Hk. constructor; simpl; try by eauto.
  - intros key fl Hf. rewrite (countb_delete _ _ _ w), Hz by done. simpl. rewrite Z.sub_0_r. eauto.
  - rewrite (countb_delete _ _ _ w), Ha by done. simpl. lia.
Qed.

(** The guard of a flight that keeps others. *)
Definition k_leave (i : nat) (key : CacheKey) (fl : Flight) (k : Core) : Core :=
  {| k_flights := <[key := {| fl_generation := fl_generation fl; fl_waiters := fl_waiters fl - 1;
    fl_channel := fl_channel fl |}]> (k_flights k);
    k_waiters := k_waiters k - 1; k_generation := k_generation k;
    k_stopping := k_stopping k; k_shut := k_shut k; k_outcomes := k_outcomes k;
    k_permits := k_permits k; k_jobs := k_jobs k; k_panicked := k_panicked k; k_reaped := k_reaped k; k_guards := delete i (k_guards k) |}.

Lemma leave_inv i w fl k :
  core_inv k -> k_guards k !! i = Some w -> k_flights k !! wt_key w = Some fl ->
  fl_generation fl = wt_generation w -> core_inv (k_leave i (wt_key w) fl k).
Proof.
  intros Hk Hi Hf Hg. assert (Hw : w ∈ k_guards k) by (by eapply list_elem_of_lookup_2).
  assert (Hin : forall w', w' ∈ delete i (k_guards k) -> w' ∈ k_guards k)
    by (intros ?; apply elem_of_delete).
  destruct (guard_tended k w fl Hk Hw Hf Hg) as (Hr & Hcnt & Hpos).
  destruct Hk. constructor; simpl; try by eauto.
  - intros key' fl' (fl0 & H0 & -> & -> & _)%(lookup_recount _ _ fl); eauto.
  - intros ? ? ? ? (? & ? & _ & -> & _)%(lookup_recount _ _ fl) (? & ? & _ & -> & _)%(lookup_recount _ _ fl); eauto.
  - intros w' key' fl' Hw' (fl0 & H0 & _ & -> & _)%(lookup_recount _ _ fl); eauto.
  - intros key' fl' (fl0 & H0 & Hg0 & _ & Hn)%(lookup_recount _ _ fl); [|done].
    rewrite (countb_ext _ (waits_on key' fl0)) by (intros; by apply waits_on_same).
    rewrite (countb_delete _ _ _ w), Hg0, Hn by done.
    case_decide as Hkey.
    + subst key'. simplify_eq. left. split; [done|]. unfold waits_on at 2.
      rewrite bool_decide_true, Hg, Z.eqb_refl by done. simpl. lia.
    + assert (waits_on key' fl0 w = false) as -> by (unfold waits_on; by rewrite bool_decide_false).
      simpl. rewrite Z.sub_0_r. eauto.
  - rewrite (countb_ext _ (active (k_flights k))) by (intros; by apply active_recount).
    rewrite (countb_delete _ _ _ w) by done. unfold active at 2. rewrite Hf, Hg, Z.eqb_refl. simpl. lia.
  - intros w' Hw'. rewrite active_recount by done. eauto.
  - by rewrite map_size_insert_Some.
  - lia.
  - intros key' fl' (fl0 & H0 & _ & _ & ->)%(lookup_recount _ _ fl); [|done]. case_decide; [|eauto].
    specialize (ci_max_per_key0 _ _ Hf). lia.
Qed.

(** ** A flight leaves the map *)

(** Without an answer: nobody waits on it. *)
Definition k_abandon (key : CacheKey) (k : Core) : Core :=
  {| k_flights := delete key (k_flights k); k_waiters := k_waiters k; k_generation := k_generation k;
    k_stopping := k_stopping k; k_shut := k_shut k; k_outcomes := k_outcomes k;
    k_permits := k_permits k; k_jobs := k_jobs k; k_panicked := k_panicked k; k_reaped := k_reaped k; k_guards := k_guards k |}.

Lemma active_delete_ne f key w : wt_key w <> key -> active (delete key f) w = active f w.
Proof. intros Hne. unfold active. by rewrite lookup_delete_ne. Qed.

Lemma abandon_inv key fl k :
  core_inv k -> k_flights k !! key = Some fl -> countb (waits_on key fl) (k_guards k) = 0 ->
  core_inv (k_abandon key k).
Proof.
  intros Hk Hf Hz. pose proof (active_split k key fl Hf) as Hsplit.
  assert (Hact : forall w, w ∈ k_guards k -> active (delete key (k_flights k)) w = active (k_flights k) w).
  { intros w Hw. destruct (decide (wt_key w = key)) as [He|]; [|by apply active_delete_ne].
    pose proof (countb_zero _ _ Hz w Hw) as Hn. rewrite (active_waits_on k key fl w Hf) in Hn.
    rewrite bool_decide_true, andb_true_r in Hn by done. rewrite Hn.
    unfold active. by rewrite He, lookup_delete_eq. }
  assert (Hsub : forall key' fl', delete key (k_flights k) !! key' = Some fl' -> k_flights k !! key' = Some fl')
    by (intros ? ? [_ ?]%lookup_delete_Some; done).
  destruct Hk. constructor; simpl; try by eauto.
  - lia.
  - intros w Hw. rewrite Hact by done. eauto.
  - pose proof (map_subseteq_size (delete key (k_flights k)) (k_flights k) (delete_subseteq _ _)). lia.
Qed.

(** With its outcome. *)
Definition k_settle (key : CacheKey) (fl : Flight) (o : PublishedOutcome) (k : Core) : Core :=
  {| k_flights := delete key (k_flights k); k_waiters := k_waiters k - fl_waiters fl;
    k_generation := k_generation k; k_stopping := k_stopping k; k_shut := k_shut k;
    k_outcomes := <[fl_channel fl := Some o]> (k_outcomes k);
    k_permits := k_permits k; k_jobs := k_jobs k; k_panicked := k_panicked k; k_reaped := k_reaped k; k_guards := k_guards k |}.

Definition outcome_ok (key : CacheKey) (o : PublishedOutcome) : Prop :=
  match o with Ok (v, _) => genuine key v | Err _ => True end.

Lemma settle_inv key fl o k :
  core_inv k -> k_flights k !! key = Some fl -> outcome_ok key o ->
  runs (k_jobs k) key (fl_generation fl) -> core_inv (k_settle key fl o k).
Proof.
  intros Hk Hf Ho Hruns.
  assert (Hcnt : fl_waiters fl = countb (waits_on key fl) (k_guards k))
    by (destruct (ci_count k Hk key fl Hf) as [[_ ?]|(? & _)]; done).
  pose proof (active_split k key fl Hf) as Hsplit.
  destruct (ci_flight k Hk key fl Hf) as [Hg Hch].
  assert (Hlt : (fl_channel fl < length (k_outcomes k))%nat) by (by eapply lookup_lt_Some).
  assert (Hsub : forall key' fl', delete key (k_flights k) !! key' = Some fl' ->
    k_flights k !! key' = Some fl' /\ fl_channel fl' <> fl_channel fl).
  { intros key' fl' [Hne Hf']%lookup_delete_Some. split; [done|]. intros Hc. apply Hne. symmetry.
    by apply (ci_distinct k Hk key' fl' key fl). }
  pose proof (countb_nonneg (waits_on key fl) (k_guards k)) as Hpos.
  destruct Hk. constructor; simpl.
  - rewrite ci_generation0. unfold zlen. by rewrite length_insert.
  - intros key' fl' [Hf' Hne]%Hsub. rewrite list_lookup_insert_ne by done. eauto.
  - intros k1 f1 k2 f2 [H1 _]%Hsub [H2 _]%Hsub. eauto.
  - intros j Hj. rewrite length_insert. eauto.
  - intros w Hw. rewrite length_insert. eauto.
  - intros w key' fl' Hw [Hf' _]%Hsub. eauto.
  - intros key' fl' [Hf' _]%Hsub. eauto.
  - lia.
  - intros w Hw. destruct (decide (wt_channel w = fl_channel fl)) as [->|Hne].
    + right. exists o. by apply list_lookup_insert_eq.
    + rewrite list_lookup_insert_ne by done. destruct (ci_answered0 w Hw) as [Ha|?]; [|by right].
      left. rewrite active_delete_ne; [done|]. intros He. apply Hne. unfold active in Ha.
      rewrite He, Hf in Ha. destruct (ci_guard0 w Hw). lia.
  - intros w v e Hw Hv. apply list_lookup_insert_Some in Hv as [(Hc & Hv & _)|[_ Hv]].
    + injection Hv as ->. rewrite (ci_guard_key0 w key fl) by done. done.
    + by apply (ci_genuine0 w v e).
  - done.
  - done.
  - pose proof (map_subseteq_size (delete key (k_flights k)) (k_flights k) (delete_subseteq _ _)). lia.
  - lia.
  - intros key' fl' [Hf' _]%Hsub. eauto.
Qed.

(** ** A job ends, or takes or returns its permit *)

Definition k_jobs_set (permits : gmap str Z) (jobs panicked : list Job) (k : Core) : Core :=
  {| k_flights := k_flights k; k_waiters := k_waiters k; k_generation := k_generation k;
    k_stopping := k_stopping k; k_shut := k_shut k; k_outcomes := k_outcomes k;
    k_permits := permits; k_jobs := jobs; k_panicked := panicked; k_reaped := k_reaped k;
    k_guards := k_guards k |}.

(** What a job may turn into. *)
Definition same_job (j j' : Job) : Prop :=
  job_key j = job_key j' /\ job_channel j = job_channel j' /\ job_generation j = job_generation j'
    /\ job_provider j = job_provider j' /\ (job_published j = false -> job_published j' = false).

(** The jobs change, but every flight keeps one, or had one that panicked, and
    the permits add up. *)
Lemma core_jobs_inv permits jobs panicked k :
  core_inv k ->
  (forall key fl, k_flights k !! key = Some fl ->
    tended (k_jobs k) (k_panicked k) key (fl_generation fl) -> tended jobs panicked key (fl_generation fl)) ->
  (forall j, j ∈ jobs -> exists j', j' ∈ k_jobs k /\ same_job j j') ->
  (forall p, is_Some (k_permits k !! p) -> is_Some (permits !! p)) ->
  (forall p free, permits !! p = Some free ->
    0 <= free /\ free + countb (holds_permit p) jobs = PERMITS_PER_PROVIDER) ->
  core_inv (k_jobs_set permits jobs panicked k).
Proof.
  intros Hk Htended Hjobs Hsome Hperm. destruct Hk. constructor; simpl; try by eauto.
  - intros j Hj. destruct (Hjobs j Hj) as (j' & Hj' & _ & -> & -> & -> & _).
    destruct (ci_job0 j' Hj') as (? & ? & ?). auto.
  - intros key fl Hf. destruct (ci_count0 key fl Hf) as [[? ?]|(Hr & ?)]; [left; eauto|right].
    split; [|done]. intros (j & Hj & <- & Hg & Hp).
    destruct (Hjobs j Hj) as (j' & Hj' & Hkey & _ & Hg' & _ & Hp').
    apply Hr. exists j'. rewrite <- Hkey, <- Hg'. auto.
Qed.

(** ** Shutdown *)

Definition k_close (k : Core) (outcomes : list (option PublishedOutcome)) : Core :=
  {| k_flights := ∅; k_waiters := 0; k_generation := k_generation k; k_stopping := true;
    k_shut := true; k_outcomes := outcomes; k_permits := k_permits k; k_jobs := k_jobs k;
    k_panicked := k_panicked k; k_reaped := k_reaped k; k_guards := k_guards k |}.

Lemma close_inv k outcomes :
  core_inv k -> length outcomes = length (k_outcomes k) ->
  (forall i o, k_outcomes k !! i = Some (Some o) -> outcomes !! i = Some (Some o) \/
    exists e, outcomes !! i = Some (Some (Err e))) ->
  (forall key fl, k_flights k !! key = Some fl -> exists e, outcomes !! fl_channel fl = Some (Some (Err e))) ->
  (forall i v, outcomes !! i = Some (Some (Ok v)) -> k_outcomes k !! i = Some (Some (Ok v))) ->
  core_inv (k_close k outcomes).
Proof.
  intros Hk Hlen Hold Hnew Hok. destruct Hk. constructor; simpl; try by eauto.
  - rewrite ci_generation0. unfold zlen. by rewrite Hlen.
  - rewrite Hlen. done.
  - rewrite Hlen. done.
  - symmetry. apply countb_none. intros w _. unfold active. by rewrite lookup_empty.
  - intros w Hw. right. destruct (ci_answered0 w Hw) as [Ha|[o Ho]].
    + unfold active in Ha. destruct (k_flights k !! wt_key w) as [fl|] eqn:Hf; [|done].
      destruct (Hnew _ fl Hf) as [e He]. exists (Err e).
      destruct (ci_flight0 _ _ Hf). destruct (ci_guard0 w Hw).
      replace (wt_channel w) with (fl_channel fl) by lia. done.
    + destruct (Hold _ _ Ho) as [?|[e ?]]; eauto.
Qed.

(** The shutdown token is cancelled, with [n] panics taken. *)
Definition k_stop (n : nat) (k : Core) : Core :=
  {| k_flights := k_flights k; k_waiters := k_waiters k; k_generation := k_generation k;
    k_stopping := k_stopping k; k_shut := true; k_outcomes := k_outcomes k;
    k_permits := k_permits k; k_jobs := k_jobs k; k_panicked := k_panicked k; k_reaped := n;
    k_guards := k_guards k |}.

Lemma stop_inv n k : core_inv k -> core_inv (k_stop n k).
Proof.
  intros []. constructor; simpl; try by eauto.
  intros key fl Hf. destruct (ci_count0 key fl Hf) as [?|(? & -> & _ & ?)]; [by left|by right].
Qed.
End core_invariant.
