(* ===== verification/RetrievalSteps.v ===== *)
(** The reachable states of the retrieval service: every interleaving of
    callers, jobs, maintenance and shutdown keeps the invariant of
    [RetrievalFacts] and a cache of genuine answers. *)

From S2P Require Import Prelude Utf8 Domain CacheStore Upstream DurableStore Retrieval RetrievalFacts.

(** An answer that belongs to its key: it is for the query, and it was processed
    for the source of the key. *)
Record genuine (key : CacheKey) (v : StoredPayload) : Prop := {
  ge_data : valid_data (st_data v) (ck_query key) = true;
  ge_provider : pv_provider (st_provenance v) = ck_provider key;
  ge_dataset : pv_dataset (st_provenance v) = ck_dataset key;
  ge_version : pv_processor_version (st_provenance v) = ck_processor_version key;
  ge_bytes : 0 <= st_bytes v;
}.

Section steps.
Context `{CacheLaws C} (json : RetrievalData -> list byte) (sha256 : list byte -> list byte)
  (instant_max : Z) (namespace : str) (sources : gmap str Source) (persistent : bool).
Implicit Types (st : State C) (env : Env).

(** * What the job of a key publishes: what it resolved for the source and the
    query of its key, whatever it read on the way. *)
Inductive job_result (key : CacheKey) (gen : Z) : PublishedOutcome -> Prop :=
| jr_upstream source policy preempted timed_out attempts :
  persistent = false -> for_source source (ck_query key) = Ok key ->
  job_result key gen
    (resolve_upstream json sha256 instant_max preempted timed_out policy source (ck_query key) gen attempts)
| jr_durable source policy cancelled timed_out r :
  persistent = true -> for_source source (ck_query key) = Ok key ->
  job_result key gen
    (resolve_persistent json sha256 instant_max namespace cancelled timed_out policy source key
      (ck_query key) gen r).

(** What the job of a key finds in the durable store. *)
Definition found_for (key : CacheKey) (found : StoredResult) : Prop :=
  exists db now l, store_lookup json sha256 db (persistent_key namespace key) now = Ok l
    /\ lr_value l = Some found.

Definition env_ok env : Prop := forall n, is_some (view env n) = persistent.

(** A critical section of a caller, of a job or of a task of the service.  A job
    that panics ends without publishing, and stops the service only when its error
    is taken: by the periodic task, or by the next admission that starts a job. *)
Inductive step : State C -> State C -> Prop :=
| step_start env cancelled query st r st' :
  env_ok env -> retrieve_start sources env cancelled query st = (r, st') -> step st st'
| step_outcome env freshness w o st r st' :
  env_ok env -> w ∈ guards st -> wait_poll w false st = Some (Ok o) ->
  retrieve_outcome env freshness (wt_key w) o st = (r, st') -> step st st'
| step_drop w st : w ∈ guards st -> step st (waiter_drop persistent w st)
| step_publish env j o st :
  env_ok env -> j ∈ jobs st -> job_published j = false ->
  job_result (job_key j) (job_generation j) o -> step st (job_publish env j o st)
| step_end j st : j ∈ jobs st -> job_published j = true -> step st (end_job j st)
| step_panic j st : j ∈ jobs st -> step st (panic_job j st)
| step_reap st : step st (reap st)
| step_health v st : persistent = true -> step st (health_check v st)
| step_acquire j st r st' : j ∈ jobs st -> job_permit j = false -> persistent = true ->
  acquire_permit j st = (r, st') -> step st st'
| step_release j st : j ∈ jobs st -> step st (release_permit j st)
| step_promote env j found st r st' :
  env_ok env -> j ∈ jobs st -> persistent = true -> found_for (job_key j) found ->
  promote_persistent env (job_key j) (job_generation j) (sr_payload found) (sr_epoch found) st = (r, st') ->
  step st st'
| step_stage query gen stage st : step st (set_stage query gen stage st)
| step_count j k st : j ∈ jobs st -> step st (bump k st)
| step_maintain v now st : is_some v = persistent -> step st (expire now (sync_epoch v st))
| step_sync v st : is_some v = persistent -> step st (sync_epoch v st)
| step_shutdown st : step st (shutdown st).

(** The state that [build] makes. *)
Definition initial (c : C) (providers : list str) (epoch recovery_epoch : Z) : State C :=
  {| cache := c; flights := ∅; waiters := 0; generation := 0; stopping := false;
    storage_epoch := epoch; storage_recovery_epoch := recovery_epoch; shut := false; channels := [];
    permits := list_to_map ((fun p => (p, PERMITS_PER_PROVIDER)) <$> providers);
    jobs := []; panicked := []; reaped := 0; guards := []; failed := false; counters := fun _ => 0 |}.

(** States after [n] steps from a service with an empty cache. *)
Inductive reach : nat -> State C -> Prop :=
| reach_initial c providers epoch recovery_epoch :
  cache_ok c -> contents c = ∅ -> reach 0 (initial c providers epoch recovery_epoch)
| reach_step n st st' : reach n st -> step st st' -> reach (S n) st'.

(** * The invariant *)

Definition cache_good (c : C) : Prop :=
  cache_ok c /\ forall k v, contents c !! k = Some v -> genuine k v.

Record inv st : Prop := {
  in_core : core_inv genuine (core st);
  in_cache : cache_good (cache st);
}.

Lemma clear_good c : cache_good c -> cache_good (cache_clear c).
Proof.
  intros [Hc _]. split; [by apply clear_ok|]. intros k v. rewrite clear_contents by done.
  by rewrite lookup_empty.
Qed.

Lemma expire_good t c : cache_good c -> cache_good (cache_expire_before t c).
Proof.
  intros [Hc Hg]. split; [by apply expire_ok|]. intros k v. rewrite expire_contents by done.
  intros [? _]%map_lookup_filter_Some. auto.
Qed.

Lemma get_good k c : cache_good c -> cache_good (cache_get k c).2.
Proof.
  intros [Hc Hg]. split; [by apply get_ok|]. rewrite get_contents by done. done.
Qed.

Lemma publish_good k v c : cache_good c -> genuine k v -> cache_good (cache_publish k v c).
Proof.
  intros [Hc Hg] Hv. pose proof (ge_bytes _ _ Hv). split; [by apply publish_ok|].
  intros k' v' Hk'. destruct (Z_le_gt_dec (st_bytes v) MAX_CACHE_BYTES) as [Hle|Hgt].
  - pose proof (lookup_weaken _ _ _ _ Hk' (publish_sub k v c Hc Hle)) as Hi.
    apply lookup_insert_Some in Hi as [[<- <-]|[_ ?]]; auto.
  - rewrite publish_oversize in Hk' by (done || lia). auto.
Qed.

(** ** Operations on the cache, the channels' tokens and the counters *)

Lemma map_alter_same {A B} (f : A -> B) (g : A -> A) i l :
  (forall x, f (g x) = f x) -> List.map f (alter g i l) = List.map f l.
Proof.
  intros Hfg. revert i. induction l as [|x l IH]; intros [|i]; simpl; [done..|by rewrite Hfg|].
  f_equal. apply IH.
Qed.

Lemma foldr_alter_same {A B} (f : A -> B) (g : A -> A) ids l :
  (forall x, f (g x) = f x) -> List.map f (foldr (fun i l => alter g i l) l ids) = List.map f l.
Proof. intros Hfg. induction ids; simpl; [done|]. by rewrite map_alter_same. Qed.

Lemma core_channels l st :
  List.map ch_outcome l = List.map ch_outcome (channels st) -> core (set_channels l st) = core st.
Proof. intros Hl. unfold core. simpl. by rewrite Hl. Qed.

Lemma core_cancel_flights st : core (cancel_flights st) = core st.
Proof. apply core_channels. by apply foldr_alter_same. Qed.

Lemma inv_core_eq st st' : inv st -> core st' = core st -> cache_good (cache st') -> inv st'.
Proof. intros [Hc _] He Hg. split; [by rewrite He|done]. Qed.

Lemma core_clear st : core (clear_cache st) = core st.
Proof. done. Qed.

Lemma core_epochs e r st : core (set_epochs e r st) = core st.
Proof. done. Qed.

Lemma sync_epoch_core v st : core (sync_epoch v st) = core st.
Proof.
  unfold sync_epoch. destruct v as [v|]; [|done].
  repeat case_match; repeat (rewrite core_cancel_flights || rewrite core_clear || rewrite core_epochs); done.
Qed.

Lemma cancel_flights_cache st : cache (cancel_flights st) = cache st.
Proof. done. Qed.

Lemma sync_epoch_good v st : cache_good (cache st) -> cache_good (cache (sync_epoch v st)).
Proof.
  intros Hg. unfold sync_epoch. destruct v as [v|]; [|done].
  repeat case_match; simpl; repeat apply clear_good; done.
Qed.

Lemma sync_inv v st : inv st -> inv (sync_epoch v st).
Proof. intros [? ?]. eapply inv_core_eq; [done|apply sync_epoch_core|by apply sync_epoch_good]. Qed.

Lemma retrieval_expire_inv now st : inv st -> inv (expire now st).
Proof. intros [? ?]. eapply inv_core_eq; [done|done|by apply expire_good]. Qed.

Lemma bump_inv k st : inv st -> inv (bump k st).
Proof. intros [? ?]. by eapply inv_core_eq. Qed.

Lemma read_inv key st v st' : inv st -> read_cache key st = (v, st') ->
  inv st' /\ core st' = core st /\ (forall x, v = Some x -> genuine key x).
Proof.
  intros Hi. unfold read_cache. destruct (cache_get key (cache st)) as [v' c] eqn:E. intros [= <- <-].
  pose proof (in_cache _ Hi) as [Hok Hg]. pose proof (get_value key _ Hok) as Hv.
  pose proof (get_good key _ (in_cache _ Hi)) as Hc. rewrite E in Hv, Hc. simpl in *.
  split_and!; [by eapply inv_core_eq|done|]. intros x ->. apply Hg. done.
Qed.

(** ** Admission *)

Lemma launch_core provider free key st r st' :
  inv st -> zlen (channels st) + 1 < 2 ^ 64 ->
  launch persistent provider free key st = (r, st') ->
  cache st' = cache st /\
  (core st' = k_add key 1 [] (permits st) true (S (reaped st)) (core st)
  \/
  let job := {| job_key := key; job_generation := generation st + 1; job_channel := length (channels st);
    job_provider := provider; job_permit := negb persistent; job_published := false |} in
  core st' = k_join key {| fl_generation := generation st + 1; fl_waiters := 0;
    fl_channel := length (channels st) |}
  (k_add key 0 [job] (<[provider := if persistent then free else free - 1]> (permits st)) false (reaped st)
    (core st))).
Proof.
  intros [Hc _] Hlen. pose proof (ci_generation _ _ Hc) as Hg. simpl in Hg. unfold zlen in *. rewrite length_map in Hg.
  assert (Hw : wrapping_add (generation st) 1 = generation st + 1) by (unfold wrapping_add; apply Z.mod_small; lia).
  unfold launch. rewrite Hw. simpl. destruct (_ <? _)%nat; intros [= <- <-]; (split; [done|]); [left|right; cbv zeta];
    unfold core, k_join, k_add; simpl; rewrite map_app, length_map, ?orb_true_r, ?orb_false_r; simpl.
  - by rewrite app_nil_r.
  - f_equal. by rewrite insert_insert_eq.
Qed.

Lemma add_job_inv provider free key st :
  inv st -> flights st !! key = None -> Z.of_nat (size (flights st)) < MAX_IN_FLIGHT ->
  permits st !! provider = Some free -> (persistent = false -> 0 < free) ->
  core_inv genuine
  (k_add key 0 [{| job_key := key; job_generation := generation st + 1; job_channel := length (channels st);
    job_provider := provider; job_permit := negb persistent; job_published := false |}]
    (<[provider := if persistent then free else free - 1]> (permits st)) false (reaped st) (core st)).
Proof.
  intros [Hc _] Hf Hsize Hp Hfree. set (j := Build_Job _ _ _ _ _ _).
  apply add_inv; simpl; try done.
  - left. split; [|done]. exists j. split; [left|done].
  - intros j' ->%list_elem_of_singleton. simpl. by rewrite length_map.
  - intros j' [Hj'| ->%list_elem_of_singleton]%elem_of_app.
    + destruct (ci_job _ _ Hc j' Hj') as (_ & _ & Hs). simpl in Hs.
      destruct (decide (provider = job_provider j')) as [<-|]; [by rewrite lookup_insert_eq|by rewrite lookup_insert_ne].
    + simpl. by rewrite lookup_insert_eq.
  - intros p f. rewrite countb_app. simpl. intros [[<- <-]|[Hne Hpf]]%lookup_insert_Some.
    + destruct (ci_permits _ _ Hc provider free Hp) as [? Hsum]. simpl in Hsum.
      unfold holds_permit at 2. simpl. rewrite bool_decide_true by done.
      destruct persistent; simpl; [lia|]. specialize (Hfree eq_refl). lia.
    + destruct (ci_permits _ _ Hc p f Hpf) as [? Hsum]. simpl in Hsum.
      unfold holds_permit at 2. simpl. rewrite bool_decide_false by done. rewrite andb_false_r. simpl. lia.
Qed.

Lemma launch_inv provider free key st r st' :
  inv st -> zlen (channels st) + 1 < 2 ^ 64 -> flights st !! key = None ->
  Z.of_nat (size (flights st)) < MAX_IN_FLIGHT -> permits st !! provider = Some free ->
  (persistent = false -> 0 < free) -> stopping st = false -> waiters st < MAX_WAITERS ->
  launch persistent provider free key st = (r, st') -> inv st'.
Proof.
  intros Hi Hlen Hf Hsize Hp Hfree Hstop Hw Hl.
  destruct (launch_core provider free key st r st' Hi Hlen Hl) as [Hcache [Hcore|Hcore]];
    (split; [|rewrite Hcache; apply (in_cache _ Hi)]); rewrite Hcore.
  - pose proof (in_core _ Hi) as Hc. apply add_inv; try done; [by right|by intros ? ?%not_elem_of_nil| |].
    + intros j. rewrite app_nil_r. intros Hj. apply (ci_job _ _ Hc j Hj).
    + intros p f Hpf. rewrite app_nil_r. apply (ci_permits _ _ Hc p f Hpf).
  - apply join_inv; simpl; try done; [by apply add_job_inv| |by rewrite Hstop].
    by rewrite length_map, lookup_insert_eq.
Qed.

Lemma sync_fields v st :
  stopping (sync_epoch v st) = stopping st /\ flights (sync_epoch v st) = flights st
    /\ waiters (sync_epoch v st) = waiters st /\ permits (sync_epoch v st) = permits st.
Proof. pose proof (sync_epoch_core v st) as Hc. by injection Hc. Qed.

Lemma admission_inv env source key st r st' :
  env_ok env -> inv st -> zlen (channels st) + 1 < 2 ^ 64 ->
  admission env source key st = (r, st') -> inv st'.
Proof.
  intros He Hi Hlen. unfold admission.
  destruct (stopping st || shut st) eqn:Estop; [by intros [= _ <-]|]. bool_hyps.
  pose proof (sync_inv (view env 0) st Hi) as Hi1.
  pose proof (sync_epoch_core (view env 0) st) as Hc1.
  set (st1 := sync_epoch (view env 0) st) in *.
  destruct (storage_error _); [by intros [= _ <-]|].
  pose proof (retrieval_expire_inv (clock env 0) st1 Hi1) as Hi2.
  destruct (read_cache key (expire (clock env 0) st1)) as [cached st2] eqn:Er.
  destruct (read_inv key _ cached st2 Hi2 Er) as (Hi3 & Hc3 & _).
  change (core (expire (clock env 0) st1)) with (core st1) in Hc3. rewrite Hc1 in Hc3.
  destruct (match cached with Some v => _ | None => _ end); [intros [= _ <-]; by apply bump_inv|].
  set (st3 := bump Misses st2). assert (Hi4 : inv st3) by by apply bump_inv.
  assert (Hc4 : core st3 = core st) by done. clearbody st3. clear Er Hi3 Hc3.
  assert (Hstop : stopping st3 = false) by (injection Hc4; congruence).
  assert (Hchan : length (channels st3) = length (channels st)).
  { pose proof (f_equal (fun k => length (k_outcomes k)) Hc4) as Hl. simpl in Hl. by rewrite !length_map in Hl. }
  destruct (Z.leb_spec MAX_WAITERS (waiters st3)); [intros [= _ <-]; by apply bump_inv|].
  destruct (flights st3 !! key) as [fl|] eqn:Ef.
  - destruct (channel_cancelled _ _); [intros [= _ <-]; by apply bump_inv|].
    destruct (Z.leb_spec MAX_WAITERS_PER_KEY (fl_waiters fl)); [intros [= _ <-]; by apply bump_inv|].
    intros [= _ <-]. split; [|apply (in_cache _ Hi4)].
    exact (join_inv genuine key fl (core st3) (in_core _ Hi4) Ef Hstop ltac:(done) ltac:(done)).
  - destruct (Z.leb_spec MAX_IN_FLIGHT (Z.of_nat (size (flights st3)))); [intros [= _ <-]; by apply bump_inv|].
    destruct (permits st3 !! src_provider source) as [free|] eqn:Ep; [|by intros [= _ <-]].
    rewrite (He 0%nat). destruct (negb persistent && (free <=? 0)) eqn:Efree; [intros [= _ <-]; by apply bump_inv|].
    apply launch_inv; try done; [unfold zlen in *; lia|].
    intros ->. simpl in Efree. lia.
Qed.

Lemma start_inv env cancelled query st r st' :
  env_ok env -> inv st -> zlen (channels st) + 1 < 2 ^ 64 ->
  retrieve_start sources env cancelled query st = (r, st') -> inv st'.
Proof.
  intros He Hi Hlen. unfold retrieve_start.
  repeat case_match; try (by intros [= _ <-]). by apply admission_inv.
Qed.

(** ** Answers *)

Lemma retrieval_outcome_inv env freshness key o st r st' :
  inv st -> retrieve_outcome env freshness key o st = (r, st') -> inv st'.
Proof.
  intros Hi. unfold retrieve_outcome. destruct (storage_error _); [by intros [= _ <-]|].
  destruct o as [[value epoch]|error].
  - assert (Hs : forall (b : bool) st1, inv st1 ->
      (if negb b then (Err StorageUnavailable, st1)
      else if negb (is_fresh (view env 3) (clock env 0) value) then (Err FreshnessUnavailable, st1)
      else (Ok (envelope (clock env 1) value Fresh), st1)) = (r, st') -> inv st').
    { intros b st1 H1. repeat case_match; by intros [= _ <-]. }
    destruct epoch as [expected|]; [|by apply Hs].
    by apply Hs, sync_inv.
  - destruct (is_transient error); [|by intros [= _ <-]]. destruct freshness; [|by intros [= _ <-]].
    destruct (storage_error _); [by intros [= _ <-]; apply sync_inv|].
    destruct (read_cache _ _) as [stale st1] eqn:Er.
    destruct (read_inv key _ stale st1 (retrieval_expire_inv _ _ (sync_inv _ _ Hi)) Er) as (H1 & _).
    repeat case_match; intros [= _ <-]; try done. by apply bump_inv.
Qed.

(** ** Dropping a guard *)

Lemma find_guard (w : Waiter) l : w ∈ l -> exists i, list_find (fun w' => w' = w) l = Some (i, w) /\ l !! i = Some w.
Proof.
  intros Hw. destruct (list_find_elem_of (fun w' => w' = w) l w Hw eq_refl) as [[i w'] Hi].
  pose proof (proj1 (list_find_Some _ _ _ _) Hi) as (Hl & -> & _). eauto.
Qed.

Lemma find_job (j : Job) l : j ∈ l -> exists i, list_find (fun j' => j' = j) l = Some (i, j) /\ l !! i = Some j.
Proof.
  intros Hw. destruct (list_find_elem_of (fun j' => j' = j) l j Hw eq_refl) as [[i j'] Hi].
  pose proof (proj1 (list_find_Some _ _ _ _) Hi) as (Hl & -> & _). eauto.
Qed.

Lemma core_inv_eq k k' : core_inv genuine k -> k' = k -> core_inv genuine k'.
Proof. by intros ? ->. Qed.

Lemma drop_inv w st : inv st -> w ∈ guards st -> inv (waiter_drop persistent w st).
Proof.
  intros [Hc Hg] Hw. destruct (find_guard w (guards st) Hw) as (i & Hfind & Hi).
  unfold waiter_drop, remove_guard. rewrite Hfind. simpl.
  destruct (flights st !! wt_key w) as [fl|] eqn:Hf.
  2: { split; [|done]. apply (unguard_inv genuine i w (core st) Hc Hi). unfold active. simpl. by rewrite Hf. }
  destruct (Z.eqb_spec (fl_generation fl) (wt_generation w)) as [Hgen|Hgen]; simpl.
  2: { split; [|done]. apply (unguard_inv genuine i w (core st) Hc Hi).
  unfold active. simpl. rewrite Hf. lia. }
  pose proof (leave_inv genuine i w fl (core st) Hc Hi Hf Hgen) as Hl.
  destruct (Z.eqb_spec (fl_waiters fl - 1) 0) as [Hz|Hz]; simpl; [|by split].
  set (fl' := {| fl_generation := _; fl_waiters := _; fl_channel := _ |}) in *.
  destruct persistent.
  - split; [|done]. apply (core_inv_eq _ _ Hl). unfold core, k_leave. simpl. by rewrite map_alter_same.
  - split; [|done].
    assert (Hf' : k_flights (k_leave i (wt_key w) fl (core st)) !! wt_key w = Some fl')
      by apply lookup_insert_eq.
    eapply core_inv_eq; [eapply (abandon_inv genuine (wt_key w) fl' _ Hl Hf')|].
    + destruct (ci_count _ _ Hl _ _ Hf') as [[_ <-]|(_ & _ & _ & ?)]; [exact Hz|done].
    + unfold core, k_abandon, k_leave. simpl. by rewrite map_alter_same.
Qed.

(** ** Publication *)

Lemma map_alter_insert {A B} (f : A -> B) (g : A -> A) y i l :
  (forall x, f (g x) = y) -> List.map f (alter g i l) = <[i := y]> (List.map f l).
Proof.
  intros Hfg. revert i. induction l as [|x l IH]; intros [|i]; simpl; [done..|by rewrite Hfg|].
  f_equal. apply IH.
Qed.

Lemma settle_core key fl o st : core (settle key fl o st) = k_settle key fl o (core st).
Proof. unfold settle, core, k_settle. simpl. by rewrite (map_alter_insert _ _ (Some o)). Qed.

(** What [publish] makes of a job's outcome: nothing changes but the cache, or
    the flight of the job is settled. *)
Lemma publish_cases env key gen o st :
  inv st -> outcome_ok genuine key o ->
  let st' := publish env key gen o st in
  cache_good (cache st') /\
  ((core st' = core st /\ forall fl, flights st !! key = Some fl -> fl_generation fl <> gen)
    \/ exists fl o', flights st !! key = Some fl /\ fl_generation fl = gen
      /\ outcome_ok genuine key o' /\ core st' = k_settle key fl o' (core st)).
Proof.
  intros Hi Ho. cbv zeta. unfold publish.
  pose proof (sync_inv (view env 0) st Hi) as Hi1. pose proof (sync_epoch_core (view env 0) st) as Hc1.
  destruct (sync_fields (view env 0) st) as (_ & Hf & _).
  set (st1 := sync_epoch (view env 0) st) in *. pose proof (in_cache _ Hi1) as Hg1.
  rewrite Hf. destruct (flights st !! key) as [fl|] eqn:Ef; [|split; [done|left; by split]].
  destruct (Z.eqb_spec (fl_generation fl) gen) as [Hgen|Hgen]; simpl.
  2: { split; [done|left]. split; [done|]. by intros fl' [= <-]. }
  destruct (channel_cancelled st1 (fl_channel fl) || stopping st1).
  { split; [done|right]. eexists fl, _. split_and!; [done|done| |by rewrite settle_core, Hc1]. done. }
  match goal with |- context [settle key fl ?x _] => set (o' := x) end.
  assert (Ho' : outcome_ok genuine key o') by (unfold o'; repeat case_match; done).
  split.
  - clearbody o'. destruct o' as [[v e]|e]; [|done]. simpl. apply publish_good; [|done].
    by apply expire_good.
  - right. exists fl, o'. split_and!; [done|done|done|]. rewrite settle_core. f_equal.
    clearbody o'. by destruct o' as [[v e]|e].
Qed.

(** ** Jobs *)

(** A job that changes keeps its flight, and the permits add up. *)
Lemma replace_inv j held p st :
  inv st -> j ∈ jobs st -> same_job held j ->
  (job_published held = job_published j
    \/ forall fl, flights st !! job_key j = Some fl -> fl_generation fl <> job_generation j) ->
  (forall p', is_Some (permits st !! p') -> is_Some (p !! p')) ->
  (forall p' free, p !! p' = Some free -> 0 <= free /\
    free + (countb (holds_permit p') (jobs st) - Z.b2z (holds_permit p' j) + Z.b2z (holds_permit p' held))
    = PERMITS_PER_PROVIDER) ->
  inv (replace_job j held p st).
Proof.
  intros [Hc Hg] Hj Hsame Hpub Hsome Hperm. unfold replace_job.
  destruct (find_job j (jobs st) Hj) as (i & -> & Hi). split; [|done].
  apply (core_jobs_inv genuine _ _ (panicked st) (core st)); [done|..]; simpl; [| |done|].
  - intros key fl Hf [(j0 & Hj0 & Hk & Hgen & Hrun)|?]; [left|by right].
    apply list_elem_of_lookup in Hj0 as [i0 Hi0]. destruct (decide (i = i0)) as [<-|Hne].
    + rewrite Hi in Hi0. injection Hi0 as <-. destruct Hsame as (Hk' & _ & Hg' & _). exists held.
      split_and!; [|congruence..|].
      * apply list_elem_of_lookup. exists i. apply list_lookup_insert_eq. by eapply lookup_lt_Some.
      * destruct Hpub as [->|Hgone]; [done|]. subst key. by specialize (Hgone fl Hf).
    + exists j0. split; [|done]. apply list_elem_of_lookup. exists i0. by rewrite list_lookup_insert_ne.
  - intros j0 Hj0. apply list_elem_of_lookup in Hj0 as [i0 Hi0].
    apply list_lookup_insert_Some in Hi0 as [(<- & <- & _)|[_ Hi0]]; [by exists j|exists j0].
    split; [by eapply list_elem_of_lookup_2|done].
  - intros p' f Hp. rewrite (countb_insert _ _ _ j) by done. by apply Hperm.
Qed.

(** A job leaves the list, with its permit: it published, or it panicked. *)
Lemma leave_job_inv j panicked' st i :
  inv st -> jobs st !! i = Some j -> (job_published j = true \/ j ∈ panicked') ->
  (forall key gen, dead (panicked st) key gen -> dead panicked' key gen) ->
  core_inv genuine (k_jobs_set
    (if job_permit j then alter (fun n => n + 1) (job_provider j) (permits st) else permits st)
    (delete i (jobs st)) panicked' (core st)).
Proof.
  intros [Hc _] Hi Hend Hdead. apply core_jobs_inv; [done|..]; simpl.
  - intros key fl Hf [(j' & Hj' & Hk & Hgen & Hrun)|Hd]; [|right; by apply Hdead].
    apply list_elem_of_lookup in Hj' as [i' Hi']. destruct (decide (i' = i)) as [->|Hne].
    + rewrite Hi in Hi'. injection Hi' as <-. destruct Hend as [?|?]; [congruence|].
      right. by exists j.
    + left. exists j'. split; [|done]. apply list_elem_of_lookup. destruct (decide (i' < i)%nat).
      * exists i'. by rewrite list_lookup_delete_lt.
      * exists (i' - 1)%nat. rewrite list_lookup_delete_ge by lia. by replace (S (i' - 1)) with i' by lia.
  - intros j' Hj'. exists j'. split; [by eapply elem_of_delete|done].
  - intros p [f Hp]. destruct (job_permit j); [|by rewrite Hp].
    destruct (decide (job_provider j = p)) as [->|]; [by rewrite lookup_alter_eq, Hp|by rewrite lookup_alter_ne, Hp].
  - intros p f Hp. rewrite (countb_delete _ _ _ j) by done. unfold holds_permit at 2.
    destruct (job_permit j); simpl; [|destruct (ci_permits _ _ Hc _ _ Hp); simpl in *; lia].
    destruct (decide (job_provider j = p)) as [<-|Hne].
    + rewrite lookup_alter_eq in Hp. apply fmap_Some in Hp as (f0 & Hp & ->).
      destruct (ci_permits _ _ Hc _ _ Hp). simpl in *. rewrite bool_decide_true by done. simpl. lia.
    + rewrite lookup_alter_ne in Hp by done. destruct (ci_permits _ _ Hc _ _ Hp). simpl in *.
      rewrite bool_decide_false by done. simpl. lia.
Qed.

Lemma end_inv j st : inv st -> j ∈ jobs st -> job_published j = true -> inv (end_job j st).
Proof.
  intros Hi Hj Hp. destruct (find_job j (jobs st) Hj) as (i & Hfind & Hij). unfold end_job. rewrite Hfind.
  split; [|apply Hi]. by apply (leave_job_inv j (panicked st) st i Hi Hij (or_introl Hp)).
Qed.

Lemma panic_inv j st : inv st -> j ∈ jobs st -> inv (panic_job j st).
Proof.
  intros Hi Hj. destruct (find_job j (jobs st) Hj) as (i & Hfind & Hij). unfold panic_job, end_job. rewrite Hfind.
  split; [|apply Hi]. apply (leave_job_inv j (panicked st ++ [j]) st i Hi Hij).
  - right. apply elem_of_app. right. left.
  - intros key gen (j' & Hj' & ?). exists j'. rewrite elem_of_app. auto.
Qed.

Lemma same_job_refl held j :
  job_key held = job_key j -> job_channel held = job_channel j -> job_generation held = job_generation j ->
  job_provider held = job_provider j -> (job_published held = false -> job_published j = false) ->
  same_job held j.
Proof. by repeat split. Qed.

(** ** Refreshed payloads are genuine *)

Lemma for_source_key source query key :
  for_source source query = Ok key ->
  ck_query key = query /\ ck_provider key = src_provider source /\ ck_dataset key = src_dataset source
    /\ ck_processor_version key = src_processor_version source.
Proof.
  unfold for_source. destruct (query_validate query); [|done]. destruct (negb _); [done|].
  by intros [= <-].
Qed.

Lemma validate_genuine source query payload now key v :
  for_source source query = Ok key ->
  validate (json_len json) (digest_hex sha256) source query payload now = Ok v -> genuine key v.
Proof.
  intros (Hq & Hp & Hd & Hv)%for_source_key. unfold validate, bounded_size.
  destruct (_ || _); [done|]. destruct (_ || _); [done|].
  destruct (valid_data (fp_data payload) query) eqn:E; [|done]. simpl.
  destruct (_ <? _); [done|]. intros [= <-]. constructor; simpl; try done; [by rewrite Hq|].
  pose proof (zlen_nonneg (json (fp_data payload))). pose proof (zlen_nonneg (fp_raw payload)).
  pose proof (slen_nonneg (fp_source_reference payload)). unfold json_len. lia.
Qed.

Lemma refresh_loop_validates n attempt attempts source query gen writes rq rt th v :
  rf_outcome (refresh_loop (json_len json) (digest_hex sha256) instant_max n attempt attempts source query gen writes rq rt th)
  = Ok v ->
  exists payload now, validate (json_len json) (digest_hex sha256) source query payload now = Ok v.
Proof.
  revert attempt writes rq rt th. induction n as [|n IH]; intros attempt writes rq rt th; cbn [refresh_loop]; [done|].
  destruct (match at_reserve _ with Ok _ => _ | Err _ => _ end); [|done].
  destruct (at_cancelled _); [done|]. destruct (at_fetch _) as [payload|error].
  - destruct (at_cancelled_after _); [done|]. simpl. eauto.
  - destruct (is_transient error); [|done]. destruct (back_off _ _ _ _ _); [|done].
    destruct n as [|n]; [done|]. apply IH.
Qed.

Lemma refresh_genuine preempted timed_out policy source key gen attempts v :
  for_source source (ck_query key) = Ok key ->
  refresh_within json sha256 instant_max preempted timed_out policy source (ck_query key) gen attempts = Ok v ->
  genuine key v.
Proof.
  intros Hs. unfold refresh_within. destruct preempted; [done|]. destruct timed_out; [done|].
  intros (payload & now & Hv)%refresh_loop_validates. by eapply validate_genuine.
Qed.

(** What the store holds under the key of the service is genuine. *)
Lemma held_genuine key v : held_under (persistent_key namespace key) v -> genuine key v.
Proof. by intros []. Qed.

Lemma found_genuine key found : found_for key found -> genuine key (sr_payload found).
Proof.
  intros (db & now & l & Hl & Hf). apply held_genuine. by eapply store_lookup_held.
Qed.

Lemma usable_found_value r value found : usable_found r value = Ok (Some found) -> value = Some found.
Proof.
  unfold usable_found. destruct value as [found'|]; [|done]. destruct (rs_cancelled r 1); [done|].
  destruct (usable_age _ _ _) as [age|]; [|done]. destruct (age <=? _); [|done].
  destruct (rs_promoted r); [|done]. by destruct (age <? _); intros [= ->].
Qed.

Lemma commit_genuine r key candidate observation committed :
  commit_candidate json sha256 r (persistent_key namespace key) candidate observation = Ok committed ->
  genuine key candidate -> genuine key (sr_payload committed).
Proof.
  intros Hc Hg. unfold commit_candidate in Hc.
  destruct (store_publish _ _ _ _ _ _ _) as [[result|]|] eqn:Ep; [| |done].
  - injection Hc as <-. apply held_genuine. eapply store_publish_held; [exact Ep|apply Hg].
  - destruct (rs_cancelled r 3); [done|].
    destruct (store_lookup _ _ _ _ _) as [again|] eqn:El; [|done]. destruct (lr_value again) as [found|] eqn:Ev; [|done].
    injection Hc as <-. apply found_genuine. by exists (rs_lookup r 1), (clock (rs_env r) 3), again.
Qed.

(** Whatever the store and the database answer, a durable job resolves to an
    answer that belongs to its key. *)
Lemma resolve_genuine policy source key gen r v epoch :
  for_source source (ck_query key) = Ok key ->
  resolve_storage_then_upstream json sha256 instant_max namespace policy source key (ck_query key) gen r
  = Ok (v, epoch) -> genuine key v.
Proof.
  intros Hs. unfold resolve_storage_then_upstream. destruct (ok_or _ _) as [recovery|]; [|done].
  destruct (rs_cancelled r 0); [done|].
  destruct (store_lookup _ _ _ _ _) as [l|] eqn:El; [|done].
  destruct (usable_found r (lr_value l)) as [[found|]|] eqn:Eu; [| |done].
  - apply usable_found_value in Eu. intros [= <- _]. apply found_genuine. by exists (rs_lookup r 0), (clock (rs_env r) 0), l.
  - destruct (rs_cancelled r 2); [done|]. destruct (storage_error _); [done|]. destruct (rs_permit r); [|done].
    destruct (refresh_within _ _ _ _ _ _ _ _ _ _) as [candidate|] eqn:Er; [|done].
    apply refresh_genuine in Er; [|done]. destruct (negb _); [done|]. destruct (storage_error _); [done|].
    destruct (commit_candidate _ _ _ _ _ _) as [committed|] eqn:Ec; [|done].
    pose proof (commit_genuine _ _ _ _ _ Ec Er) as Hg.
    destruct (rs_cancelled r 4); [done|]. destruct (negb _); [done|]. destruct (negb _); [done|].
    by intros [= <- _].
Qed.

Lemma job_result_ok key gen o : job_result key gen o -> outcome_ok genuine key o.
Proof.
  destruct 1 as [source policy preempted timed_out attempts _ Hs|source policy cancelled timed_out r _ Hs].
  - unfold resolve_upstream. destruct (refresh_within _ _ _ _ _ _ _ _ _ _) as [v|] eqn:E; [|done].
    by apply refresh_genuine in E.
  - unfold resolve_persistent. destruct cancelled; [done|]. destruct timed_out; [done|].
    destruct (resolve_storage_then_upstream _ _ _ _ _ _ _ _ _ _) as [[v epoch]|] eqn:E; [|done].
    by apply resolve_genuine in E.
Qed.

(** ** The remaining steps *)

Lemma job_publish_inv env j o st :
  inv st -> j ∈ jobs st -> job_published j = false -> outcome_ok genuine (job_key j) o ->
  inv (job_publish env j o st).
Proof.
  intros Hi Hj Hrun Ho. unfold job_publish.
  destruct (publish_cases env (job_key j) (job_generation j) o st Hi Ho) as [Hg Hcases].
  set (st1 := publish env (job_key j) (job_generation j) o st) in *.
  assert (inv st1 /\ jobs st1 = jobs st
    /\ forall fl, flights st1 !! job_key j = Some fl -> fl_generation fl <> job_generation j)
    as (Hi1 & Hjobs & Hgone).
  { destruct Hcases as [[Hc Hgone]|(fl & o' & Hf & Hgen & Ho' & Hc)].
    - split; [by eapply inv_core_eq|].
      assert (jobs st1 = jobs st /\ flights st1 = flights st) as [-> ->] by (by injection Hc). done.
    - split; [split; [|done]; rewrite Hc; apply settle_inv; [apply Hi|done|done|by exists j]|].
      assert (jobs st1 = jobs st /\ flights st1 = delete (job_key j) (flights st)) as [-> ->]
        by (by injection Hc). split; [done|]. intros fl'. by rewrite lookup_delete_eq. }
  clearbody st1. apply replace_inv; [done|by rewrite Hjobs|by apply same_job_refl|by right|done|].
  intros p f Hp. destruct (ci_permits _ _ (in_core _ Hi1) p f Hp). simpl in *.
  unfold holds_permit at 2 3. simpl. lia.
Qed.

Lemma acquire_inv j st r st' :
  inv st -> j ∈ jobs st -> job_permit j = false -> acquire_permit j st = (r, st') -> inv st'.
Proof.
  intros Hi Hj Hno. unfold acquire_permit.
  destruct (permits st !! job_provider j) as [free|] eqn:Hp; [|intros [= _ <-]; by apply bump_inv].
  destruct (Z.leb_spec free 0); [intros [= _ <-]; by apply bump_inv|].
  intros [= _ <-]. apply replace_inv; [done|done|by apply same_job_refl|by left| |].
  - intros p [f Hf]. destruct (decide (job_provider j = p)) as [<-|];
      [by rewrite lookup_insert_eq|by rewrite lookup_insert_ne, Hf].
  - unfold holds_permit at 2 3. rewrite Hno. simpl.
    intros p f [[<- <-]|[Hne Hf]]%lookup_insert_Some.
    + destruct (ci_permits _ _ (in_core _ Hi) _ _ Hp). simpl in *. rewrite bool_decide_true by done. simpl. lia.
    + destruct (ci_permits _ _ (in_core _ Hi) _ _ Hf). simpl in *. rewrite bool_decide_false by done. simpl. lia.
Qed.

Lemma release_inv j st : inv st -> j ∈ jobs st -> inv (release_permit j st).
Proof.
  intros Hi Hj. unfold release_permit. destruct (job_permit j) eqn:Hperm; [|done].
  apply replace_inv; [done|done|by apply same_job_refl|by left| |].
  - intros p [f Hf]. destruct (decide (job_provider j = p)) as [<-|];
      [by rewrite lookup_alter_eq, Hf|by rewrite lookup_alter_ne, Hf].
  - unfold holds_permit at 2 3. rewrite Hperm. simpl. intros p f Hp.
    destruct (decide (job_provider j = p)) as [<-|Hne].
    + rewrite lookup_alter_eq in Hp. apply fmap_Some in Hp as (f0 & Hp & ->).
      destruct (ci_permits _ _ (in_core _ Hi) _ _ Hp). simpl in *. rewrite bool_decide_true by done. simpl. lia.
    + rewrite lookup_alter_ne in Hp by done. destruct (ci_permits _ _ (in_core _ Hi) _ _ Hp). simpl in *.
      rewrite bool_decide_false by done. simpl. lia.
Qed.

Lemma promote_inv env key gen v epoch st r st' :
  inv st -> genuine key v -> promote_persistent env key gen v epoch st = (r, st') -> inv st'.
Proof.
  intros Hi Hv. pose proof (sync_inv (view env 0) st Hi) as H1. unfold promote_persistent.
  repeat case_match; intros [= _ <-]; try done.
  destruct H1 as [Hc Hg]. split; [done|]. by apply publish_good.
Qed.

Lemma stage_inv query gen stage st : inv st -> inv (set_stage query gen stage st).
Proof.
  intros Hi. unfold set_stage. destruct (List.find _ _) as [[key fl]|]; [|done].
  eapply inv_core_eq; [done| |apply Hi]. apply core_channels. by apply map_alter_same.
Qed.

Lemma set_failed_inv n st : inv st -> inv (set_failed (set_panicked (panicked st) n st)).
Proof. intros [Hc Hg]. split; [|done]. exact (stop_inv genuine n (core st) Hc). Qed.

Lemma reap_inv st : inv st -> inv (reap st).
Proof. intros Hi. unfold reap. destruct (_ <? _)%nat; [by apply set_failed_inv|done]. Qed.

Lemma health_inv v st : inv st -> inv (health_check v st).
Proof.
  intros [Hc Hg]. unfold health_check. case_bool_decide; [|done]. split; [|done].
  exact (stop_inv genuine (reaped st) (core st) Hc).
Qed.

Lemma closed_channels (l : list Channel) ids i :
  let closed := foldr (fun i l => alter (fun ch => send_outcome (Err Shutdown) (cancel_channel ch)) i l) l ids in
  (List.map ch_outcome closed : list (option PublishedOutcome)) !! i =
  if bool_decide (i ∈ ids) then (fun _ : option PublishedOutcome => Some (Err Shutdown) : option PublishedOutcome) <$> List.map ch_outcome l !! i
  else List.map ch_outcome l !! i.
Proof.
  cbv zeta. induction ids as [|a ids IH]; cbn [foldr].
  { rewrite bool_decide_false; [done|]. apply not_elem_of_nil. }
  rewrite (@map_alter_insert Channel (option PublishedOutcome) ch_outcome _ (Some (Err Shutdown))) by done.
  destruct (decide (a = i)) as [->|Hne].
  - rewrite bool_decide_true by left. set (m := List.map ch_outcome (foldr _ _ _)) in *.
    assert (Hm : is_Some (m !! i) <-> is_Some (List.map ch_outcome l !! i)).
    { rewrite IH. destruct (bool_decide _); [|done]. by rewrite fmap_is_Some. }
    destruct (List.map ch_outcome l !! i) as [o|] eqn:El; simpl.
    + apply list_lookup_insert_eq. apply lookup_lt_is_Some. apply Hm. eauto.
    + apply lookup_ge_None_2. rewrite length_insert. apply Nat.nlt_ge. intros Hlt%lookup_lt_is_Some%Hm.
      by apply is_Some_None in Hlt.
  - rewrite list_lookup_insert_ne, IH by done. rewrite (bool_decide_ext (i ∈ a :: ids) (i ∈ ids)); [done|]. rewrite elem_of_cons. naive_solver.
Qed.

Lemma shutdown_inv st : inv st -> inv (shutdown st).
Proof.
  intros [Hc Hg]. split; [|by apply clear_good].
  pose proof (fun i => closed_channels (channels st) (flight_channels st) i) as Hcl. cbv zeta in Hcl.
  assert (Hin : forall key fl, flights st !! key = Some fl -> fl_channel fl ∈ flight_channels st).
  { intros key fl Hf. apply list_elem_of_fmap. exists (key, fl). split; [done|]. by apply elem_of_map_to_list. }
  apply (core_inv_eq (k_close (core st) (k_outcomes (core (shutdown st))))); [|done].
  apply close_inv; [done|..]; unfold shutdown, close_flights, flight_channels; simpl.
  - rewrite !length_map. clear. unfold flight_channels. induction ((fun kv => _) <$> map_to_list (flights st)); simpl; [done|].
    by rewrite length_alter.
  - intros i o Ho. pose proof (Hcl i) as Hi. rewrite Ho in Hi.
    destruct (bool_decide _); [right; exists Shutdown; exact Hi|left; exact Hi].
  - intros key fl Hf. destruct (ci_flight _ _ Hc key fl Hf) as [_ Ho]. exists Shutdown.
    etrans; [apply Hcl|]. rewrite bool_decide_true by (by eapply Hin).
    by etrans; [apply (f_equal (fmap _)), Ho|].
  - intros i v Hv. pose proof (eq_trans (eq_sym (Hcl i)) Hv) as Hi. destruct (bool_decide _); [|exact Hi].
    by apply fmap_Some in Hi as (x & _ & Hx).
Qed.

(** ** Reachable states *)

Lemma step_inv st st' : step st st' -> inv st -> zlen (channels st) + 1 < 2 ^ 64 -> inv st'.
Proof.
  intros Hs Hi Hlen. destruct Hs.
  - by eapply start_inv.
  - by eapply retrieval_outcome_inv.
  - by apply drop_inv.
  - apply job_publish_inv; [done..|by eapply job_result_ok].
  - by apply end_inv.
  - by apply panic_inv.
  - by apply reap_inv.
  - by apply health_inv.
  - by eapply acquire_inv.
  - by apply release_inv.
  - eapply promote_inv; [done|by apply found_genuine|done].
  - by apply stage_inv.
  - by apply bump_inv.
  - by apply retrieval_expire_inv, sync_inv.
  - by apply sync_inv.
  - by apply shutdown_inv.
Qed.

(** One channel per launched flight, so fewer steps than generations exist keep
    the generations apart. *)
Lemma core_length st st' : core st' = core st -> length (channels st') = length (channels st).
Proof.
  intros Hc. pose proof (f_equal (fun k => length (k_outcomes k)) Hc) as Hl. simpl in Hl.
  by rewrite !length_map in Hl.
Qed.

Lemma sync_length v st : length (channels (sync_epoch v st)) = length (channels st).
Proof. apply core_length, sync_epoch_core. Qed.

Lemma foldr_alter_length {A} (g : A -> A) ids (l : list A) :
  length (foldr (fun i l => alter g i l) l ids) = length l.
Proof. induction ids; simpl; [done|]. by rewrite length_alter. Qed.

Lemma read_length key st v st' : read_cache key st = (v, st') -> channels st' = channels st.
Proof. unfold read_cache. destruct (cache_get _ _). by intros [= _ <-]. Qed.

Lemma launch_length provider free key st r st' :
  launch persistent provider free key st = (r, st') -> length (channels st') = S (length (channels st)).
Proof.
  unfold launch. destruct (_ <? _)%nat; intros [= _ <-]; simpl; rewrite length_app; simpl; lia.
Qed.

Lemma admission_length env source key st r st' :
  env_ok env -> admission env source key st = (r, st') ->
  (length (channels st') <= S (length (channels st)))%nat.
Proof.
  intros He. unfold admission. destruct (_ || _); [intros [= _ <-]; lia|].
  pose proof (sync_length (view env 0) st) as Hs.
  destruct (storage_error _); [intros [= _ <-]; lia|].
  destruct (read_cache _ _) as [cached st2] eqn:Er. apply read_length in Er. simpl in Er.
  rewrite (He 0%nat).
  destruct (match cached with Some v => _ | None => _ end); [intros [= _ <-]; simpl; rewrite Er; lia|].
  repeat case_match; intros Hr; try (injection Hr as _ <-; simpl; rewrite Er; lia).
  apply launch_length in Hr. simpl in Hr. rewrite Er in Hr. lia.
Qed.

Lemma outcome_length env freshness key o st r st' :
  retrieve_outcome env freshness key o st = (r, st') -> length (channels st') = length (channels st).
Proof.
  intros Hr. unfold retrieve_outcome in Hr.
  destruct (storage_error _); [by injection Hr as _ <-|]. destruct o as [[value epoch]|error].
  - destruct epoch; repeat case_match; injection Hr as _ <-; rewrite ?sync_length; done.
  - destruct (is_transient error); [|by injection Hr as _ <-].
    destruct freshness; [|by injection Hr as _ <-].
    destruct (storage_error _); [injection Hr as _ <-; apply sync_length|].
    destruct (read_cache _ _) as [stale st1] eqn:Er. apply read_length in Er.
    repeat case_match; injection Hr as _ <-; simpl; rewrite Er; apply sync_length.
Qed.

Lemma publish_length env key gen o st : length (channels (publish env key gen o st)) = length (channels st).
Proof.
  unfold publish. pose proof (sync_length (view env 0) st) as Hs.
  set (st1 := sync_epoch _ _) in *. clearbody st1. destruct (flights st1 !! key) as [fl|]; [|done].
  repeat case_match; simpl; rewrite ?length_alter; done.
Qed.

Lemma end_job_length j st : channels (end_job j st) = channels st.
Proof. unfold end_job. by repeat case_match. Qed.

Lemma replace_job_length j held p st : channels (replace_job j held p st) = channels st.
Proof. unfold replace_job. by repeat case_match. Qed.

Lemma step_length st st' : step st st' -> (length (channels st') <= S (length (channels st)))%nat.
Proof.
  destruct 1 as [env ca query st r st' He Hs|env fr w o st r st' _ _ _ Hs|w st _|env j o st _ _ _ _|j st _ _
    |j st _|st|v st _|j st r st' _ _ _ Hs|j st _|env j found st r st' _ _ _ _ Hs|query gen stage st|j k st _
    |v now st _|v st _|st].
  - unfold retrieve_start in Hs. repeat case_match; try (injection Hs as _ <-; lia).
    by eapply admission_length.
  - rewrite (outcome_length _ _ _ _ _ _ _ Hs). lia.
  - unfold waiter_drop, remove_guard. repeat case_match; simpl; rewrite ?length_alter; lia.
  - unfold job_publish. rewrite replace_job_length, publish_length. lia.
  - rewrite end_job_length. lia.
  - simpl. rewrite end_job_length. lia.
  - unfold reap. case_match; simpl; lia.
  - unfold health_check. case_match; simpl; lia.
  - unfold acquire_permit in Hs. repeat case_match; injection Hs as _ <-; rewrite ?replace_job_length; simpl; lia.
  - unfold release_permit. case_match; rewrite ?replace_job_length; lia.
  - unfold promote_persistent in Hs. repeat case_match; injection Hs as _ <-; simpl; rewrite sync_length; lia.
  - unfold set_stage. repeat case_match; simpl; rewrite ?length_alter; lia.
  - simpl. lia.
  - simpl. rewrite sync_length. lia.
  - rewrite sync_length. lia.
  - simpl. rewrite foldr_alter_length. simpl. lia.
Qed.

Lemma retrieval_initial_inv c providers epoch recovery_epoch :
  cache_ok c -> contents c = ∅ -> inv (initial c providers epoch recovery_epoch).
Proof.
  intros Hok Hempty. split.
  - constructor; simpl; try done; try (by intros ? ?%not_elem_of_nil).
    intros p free Hp. apply elem_of_list_to_map_2 in Hp. apply list_elem_of_fmap in Hp as (? & [= _ ->] & _).
    unfold PERMITS_PER_PROVIDER. simpl. lia.
  - split; [done|]. intros k v. simpl. rewrite Hempty. by rewrite lookup_empty.
Qed.

Lemma reach_length n st : reach n st -> (length (channels st) <= n)%nat.
Proof.
  induction 1 as [|n st st' _ IH Hs]; [simpl; lia|]. pose proof (step_length _ _ Hs). lia.
Qed.

(** The invariant holds in every state that fewer than 2^64 steps reach. *)
Lemma reach_inv n st : reach n st -> Z.of_nat n < 2 ^ 64 -> inv st.
Proof.
  induction 1 as [c providers e r Hok Hempty|n st st' Hr IH Hs]; intros Hn; [by apply retrieval_initial_inv|].
  pose proof (reach_length _ _ Hr). apply (step_inv st); [done|apply IH; lia|unfold zlen; lia].
Qed.
End steps.
