(* ===== verification/RetrievalProperties.v ===== *)
(** What the retrieval service guarantees in its reachable states: limits and
    accounting, an answer for every waiter, genuine and fresh answers, and a
    final shutdown. *)

From S2P Require Import Prelude Utf8 Domain CacheStore Cache CacheFacts Upstream UpstreamFacts DurableStore Retrieval RetrievalFacts RetrievalSteps.

Section properties.
Context `{CacheLaws C} (json : RetrievalData -> list byte) (sha256 : list byte -> list byte)
  (instant_max : Z) (namespace : str) (sources : gmap str Source) (persistent : bool).
Implicit Types (st : State C) (env : Env).

Abbreviation reach := (reach json sha256 instant_max namespace sources persistent).
Abbreviation step := (step json sha256 instant_max namespace sources persistent).

(** C36. In every reachable state of fewer than 2^64 steps, under every
    interleaving of callers, jobs, panics, maintenance and shutdown: at most 32
    flights, 64 waiters and 16 waiters per flight; the service's counter is exactly
    the number of guards whose flight is in the map; the counter of a flight is
    exactly the number of its guards, and the flight has a job that has still to
    publish or had one that panicked, unless taking a panic stopped the service as
    the flight was launched; and for each provider the free permits and the jobs
    that hold one add up to two. *)
Theorem retrieval_accounting n st :
  reach n st -> Z.of_nat n < 2 ^ 64 ->
  Z.of_nat (size (flights st)) <= MAX_IN_FLIGHT /\ waiters st <= MAX_WAITERS
    /\ waiters st = countb (active (flights st)) (guards st)
    /\ (forall key fl, flights st !! key = Some fl ->
      fl_waiters fl <= MAX_WAITERS_PER_KEY /\
      (fl_waiters fl = countb (waits_on key fl) (guards st)
          /\ (runs (jobs st) key (fl_generation fl) \/ dead (panicked st) key (fl_generation fl))
        \/ stopping st = true /\ countb (waits_on key fl) (guards st) = 0))
    /\ (forall p free, permits st !! p = Some free ->
      0 <= free /\ free + countb (holds_permit p) (jobs st) = PERMITS_PER_PROVIDER).
Proof.
  intros Hr Hn. destruct (reach_inv _ _ _ _ _ _ n st Hr Hn) as [Hc _].
  split_and!; [apply (ci_max_flights _ _ Hc)|apply (ci_max_waiters _ _ Hc)|apply (ci_waiters _ _ Hc)| |].
  - intros key fl Hf. split; [apply (ci_max_per_key _ _ Hc key fl Hf)|].
    destruct (ci_count _ _ Hc key fl Hf) as [[? ?]|(_ & ? & _ & ?)]; [by left|by right].
  - apply (ci_permits _ _ Hc).
Qed.

(** ** Waiting *)

Lemma lookup_outcome st i o :
  k_outcomes (core st) !! i = Some o <-> exists ch, channels st !! i = Some ch /\ ch_outcome ch = o.
Proof.
  unfold core. simpl. generalize (channels st). intros l. revert i.
  induction l as [|ch l IH]; intros [|i]; simpl; [naive_solver..|apply IH].
Qed.

Lemma poll_answered w st o :
  shut st = false -> k_outcomes (core st) !! wt_channel w = Some (Some o) ->
  wait_poll w false st = Some (Ok o).
Proof.
  intros Hs (ch & Hch & Ho)%lookup_outcome. unfold wait_poll. by rewrite Hs, Hch, Ho.
Qed.

Lemma poll_outcome w st o :
  wait_poll w false st = Some (Ok o) ->
  shut st = false /\ k_outcomes (core st) !! wt_channel w = Some (Some o).
Proof.
  unfold wait_poll. destruct (shut st); [done|]. intros Hp. split; [done|]. apply lookup_outcome.
  destruct (channels st !! wt_channel w) as [ch|].
  - exists ch. destruct (ch_outcome ch) as [o'|] eqn:E; [by injection Hp as ->|by destruct (existsb _ _)].
  - by destruct (existsb _ _).
Qed.

Lemma replace_job_core j held p st :
  shut (replace_job j held p st) = shut st
    /\ k_outcomes (core (replace_job j held p st)) = k_outcomes (core st).
Proof. unfold replace_job. by repeat case_match. Qed.

(** A guard whose flight is in the map suspends again. *)
Lemma poll_pending w fl st :
  shut st = false -> flights st !! wt_key w = Some fl -> wt_channel w = fl_channel fl ->
  k_outcomes (core st) !! fl_channel fl = Some None -> wait_poll w false st = None.
Proof.
  intros Hs Hf Hch (ch & Hch' & Hnone)%lookup_outcome. unfold wait_poll. rewrite Hs, Hch, Hch', Hnone.
  assert (existsb (Nat.eqb (fl_channel fl)) (flight_channels st) = true) as ->; [|done].
  apply existsb_exists. exists (fl_channel fl). split; [|by apply Nat.eqb_eq].
  apply list_elem_of_In, list_elem_of_fmap. exists (wt_key w, fl). split; [done|]. by apply elem_of_map_to_list.
Qed.

(** The publication of a flight's job answers its guards. *)
Lemma publish_answers env j o w fl st :
  inv st -> shut st = false -> flights st !! wt_key w = Some fl -> wt_channel w = fl_channel fl ->
  k_outcomes (core st) !! fl_channel fl = Some None -> job_key j = wt_key w ->
  job_generation j = fl_generation fl -> outcome_ok genuine (job_key j) o ->
  exists o', wait_poll w false (job_publish env j o st) = Some (Ok o').
Proof.
  intros Hi Hs Hf Hch Hof Hkey Hgen Ho. unfold job_publish.
  destruct (publish_cases env (job_key j) (job_generation j) o st Hi Ho) as [_ Hcases].
  set (st1 := publish env (job_key j) (job_generation j) o st) in *.
  destruct Hcases as [[_ Hgone]|(fl' & o' & Hf' & _ & _ & Hcore)].
  - rewrite Hkey in Hgone. by specialize (Hgone fl Hf).
  - rewrite Hkey, Hf in Hf'. injection Hf' as <-. exists o'.
    match goal with |- context [replace_job j ?held ?p st1] =>
      destruct (replace_job_core j held p st1) as [Hs' Ho'] end.
    apply poll_answered.
    + rewrite Hs'. apply (f_equal k_shut) in Hcore. simpl in Hcore. congruence.
    + rewrite Ho', Hcore, Hch. simpl. apply list_lookup_insert_eq. eapply lookup_lt_Some, Hof.
Qed.

(** C37. No waiter is forgotten: while the service runs, every waiting caller
    either has its outcome; or waits on a flight whose job has still to publish,
    and whatever that job publishes answers the caller; or the job of its flight
    panicked, and then the reaping of the periodic task, which is always a next
    step, answers the caller with [Shutdown]. *)
Theorem no_waiter_lost n st w :
  reach n st -> Z.of_nat n < 2 ^ 64 -> w ∈ guards st -> shut st = false ->
  (exists o, wait_poll w false st = Some (Ok o))
  \/ wait_poll w false st = None
    /\ ((exists j, j ∈ jobs st /\ job_key j = wt_key w /\ job_generation j = wt_generation w
          /\ job_published j = false /\
        forall env o, outcome_ok genuine (job_key j) o ->
        exists o', wait_poll w false (job_publish env j o st) = Some (Ok o'))
      \/ (exists j, j ∈ panicked st /\ job_key j = wt_key w /\ job_generation j = wt_generation w)
        /\ step st (reap st) /\ wait_poll w false (reap st) = Some (Err Shutdown)).
Proof.
  intros Hr Hn Hw Hs. pose proof (reach_inv _ _ _ _ _ _ n st Hr Hn) as Hi.
  pose proof (in_core _ Hi) as Hc.
  destruct (ci_answered _ _ Hc w Hw) as [Ha|[o Ho]]; [right|left; exists o; by apply poll_answered].
  unfold active in Ha. simpl in Ha. destruct (flights st !! wt_key w) as [fl|] eqn:Hf; [|done].
  apply Z.eqb_eq in Ha. destruct (guard_tended _ _ w fl Hc Hw Hf Ha) as (Ht & _ & _).
  destruct (ci_flight _ _ Hc _ fl Hf) as [Hgf Hof]. destruct (ci_guard _ _ Hc w Hw) as [_ Hgw].
  assert (Hch : wt_channel w = fl_channel fl) by lia. split; [by apply (poll_pending w fl)|].
  destruct Ht as [(j & Hj & Hkey & Hgen & Hrun)|(j & Hj & Hkey & Hgen)]; [left|right].
  - exists j. split_and!; [done..|congruence|done|]. intros env o Ho. by apply (publish_answers env j o w fl).
  - split; [exists j; split_and!; [done..|congruence]|]. split; [apply step_reap|]. unfold reap.
    pose proof (ci_reaped _ _ Hc Hs) as Hnone. simpl in Hnone, Hj. rewrite Hnone. destruct (panicked st) as [|j' l]; [by apply not_elem_of_nil in Hj|].
    done.
Qed.

(** ** Answers *)

Lemma is_fresh_spec v now value :
  is_fresh v now value = true -> 0 <= now - validated_at value < FRESH_SECONDS.
Proof.
  unfold is_fresh, usable_age. destruct (now <? _); [done|].
  destruct (match v with Some _ => _ | None => _ end); [done|].
  destruct (checked_sub now (validated_at value)) as [age|] eqn:E; [|done].
  apply checked_sub_Some in E as [? ->]. lia.
Qed.

Lemma is_retained_spec v now value :
  is_retained v now value = true -> 0 <= now - validated_at value <= RETENTION_SECONDS.
Proof.
  unfold is_retained, usable_age. destruct (now <? _); [done|].
  destruct (match v with Some _ => _ | None => _ end); [done|].
  destruct (checked_sub now (validated_at value)) as [age|] eqn:E; [|done].
  apply checked_sub_Some in E as [? ->]. lia.
Qed.

(** An envelope around a genuine payload of the key. *)
Definition answers_key (key : CacheKey) (e : RetrievalEnvelope) : Prop :=
  exists now v, genuine key v /\ e = envelope now v (env_state e).

(** The content of an envelope is for the query of its key. *)
Lemma answers_key_data key e :
  answers_key key e ->
  valid_data (env_data e) (ck_query key) = true
    /\ pv_provider (env_provenance e) = ck_provider key /\ pv_dataset (env_provenance e) = ck_dataset key
    /\ pv_processor_version (env_provenance e) = ck_processor_version key.
Proof. intros (now & v & [] & ->). by split_and!. Qed.

(** How old the content of an envelope may be. *)
Definition fresh_enough env (freshness : FreshnessRequirement) (o : PublishedOutcome)
  (e : RetrievalEnvelope) : Prop :=
  let age i := clock env i - pv_validated_at (env_provenance e) in
  match env_state e with
  | Fresh => exists i, age i < FRESH_SECONDS
  | Stale => freshness = AllowStale /\ (exists error, o = Err error /\ is_transient error = true)
      /\ 0 <= age 1%nat <= RETENTION_SECONDS /\ FRESH_SECONDS <= age 2%nat
  end.

Lemma saturating_sub_ltb a b c : 0 < c -> (saturating_sub a b <? c) = (a - b <? c).
Proof. unfold saturating_sub. intros. destruct (Z.ltb_spec (a - b) c), (Z.ltb_spec (Z.max (a - b) 0) c); lia. Qed.

(** C38. The answer to a caller that waited is content for its own query, which
    was processed for the source of that query, also when it comes from the durable
    store and whatever the database and its blobs hold: the adapter refuses what
    does not belong to the key.  A fresh answer was validated
    less than 60 seconds before a reading of the clock made while answering;
    stale content, between 60 and 300 seconds old, is only given to callers that
    allow it and only when the refresh failed with a transient error. *)
Theorem answers_genuine n st w env freshness o e st' :
  reach n st -> Z.of_nat n < 2 ^ 64 -> w ∈ guards st -> wait_poll w false st = Some (Ok o) ->
  retrieve_outcome env freshness (wt_key w) o st = (Ok e, st') ->
  answers_key (wt_key w) e /\ fresh_enough env freshness o e.
Proof.
  intros Hr Hn Hw [_ Ho]%poll_outcome.
  pose proof (reach_inv _ _ _ _ _ _ n st Hr Hn) as Hi.
  unfold retrieve_outcome. destruct (storage_error _); [done|]. destruct o as [[value epoch]|error].
  - pose proof (ci_genuine _ _ (in_core _ Hi) w value epoch Hw Ho) as Hg.
    destruct (match epoch with Some _ => _ | None => _ end) as [current st1].
    destruct current; [|done]. cbn [negb].
    destruct (is_fresh (view env 3) (clock env 0) value) eqn:Hfresh; [|done].
    intros [= <- _]. apply is_fresh_spec in Hfresh. split; [by exists (clock env 1), value|].
    exists 0%nat. unfold validated_at in Hfresh. simpl. lia.
  - destruct (is_transient error) eqn:Et; [|done]. destruct freshness; [|done].
    destruct (storage_error _); [done|].
    destruct (read_cache _ _) as [stale st1] eqn:Er.
    destruct (read_inv (wt_key w) _ stale st1 (retrieval_expire_inv _ _ (sync_inv _ _ Hi)) Er) as (_ & _ & Hg).
    destruct stale as [value|]; [|done]. specialize (Hg value eq_refl).
    destruct (is_retained _ _ _) eqn:Hret; [|done]. apply is_retained_spec in Hret.
    rewrite saturating_sub_ltb by done. unfold validated_at in *.
    destruct (Z.ltb_spec (clock env 2 - pv_validated_at (st_provenance value)) FRESH_SECONDS);
      intros [= <- _]; (split; [by exists (clock env 3), value|]).
    + exists 2%nat. simpl. lia.
    + unfold fresh_enough. simpl. split_and!; [done|by exists error|lia|lia|lia].
Qed.

(** An answer that a caller gets at once, from the cache, is content for its
    own query and validated less than 60 seconds before. *)
Theorem served_genuine n st env cancelled query e st' :
  reach n st -> Z.of_nat n < 2 ^ 64 ->
  retrieve_start sources env cancelled query st = (Ok (Served e), st') ->
  (exists source key, sources !! query_source query = Some source /\ for_source source query = Ok key
      /\ answers_key key e)
    /\ env_state e = Fresh /\ clock env 1 - pv_validated_at (env_provenance e) < FRESH_SECONDS.
Proof.
  intros Hr Hn. pose proof (reach_inv _ _ _ _ _ _ n st Hr Hn) as Hi.
  unfold retrieve_start. destruct (query_validate query); [|done]. destruct cancelled; [done|].
  destruct (sources !! query_source query) as [source|] eqn:Es; [|done].
  destruct (for_source source query) as [key|] eqn:Ek; [|done]. unfold admission.
  destruct (_ || _); [done|]. destruct (storage_error _); [done|].
  destruct (read_cache _ _) as [cached st1] eqn:Er.
  destruct (read_inv key _ cached st1 (retrieval_expire_inv _ _ (sync_inv _ _ Hi)) Er) as (_ & _ & Hg).
  assert (Hno : forall b p f k st2, launch b p f k st2 <> (Ok (Served e), st'))
    by (intros; unfold launch; by case_match).
  destruct cached as [v|]; [destruct (is_fresh _ _ v) eqn:Hfresh|].
  - intros [= <- _]. specialize (Hg v eq_refl). apply is_fresh_spec in Hfresh.
    unfold validated_at in Hfresh. split_and!; [|done|simpl; lia].
    exists source, key. split_and!; [done|done|]. by exists (clock env 2), v.
  - repeat case_match; try done. by intros ?%Hno.
  - repeat case_match; try done. by intros ?%Hno.
Qed.

(** ** Coalescing *)

(** A caller that finds a running flight for its key joins it: no job is
    started and no permit is taken, and it waits for the outcome of that flight. *)
Theorem admission_coalesces n st env source key fl r st' :
  reach n st -> Z.of_nat n < 2 ^ 64 -> env_ok persistent env ->
  flights st !! key = Some fl -> admission env source key st = (r, st') ->
  jobs st' = jobs st /\ permits st' = permits st /\
  match r with
  | Ok (Joined w) => wt_key w = key /\ wt_channel w = fl_channel fl /\ guards st' = guards st ++ [w]
      /\ waiters st' = waiters st + 1
  | Ok (Served _) | Err _ => guards st' = guards st /\ waiters st' = waiters st
  end.
Proof.
  intros Hr Hn He Hf. unfold admission. destruct (_ || _); [by intros [= <- <-]|].
  pose proof (sync_epoch_core (view env 0) st) as Hc1. set (st1 := sync_epoch _ _) in *. clearbody st1.
  assert (Hs1 : jobs st1 = jobs st /\ permits st1 = permits st /\ guards st1 = guards st
    /\ waiters st1 = waiters st /\ flights st1 = flights st) by (by injection Hc1).
  destruct Hs1 as (Hj & Hp & Hg & Hw & Hfl).
  destruct (storage_error _); [by intros [= <- <-]|]. unfold read_cache.
  destruct (cache_get key _) as [cached c]. destruct (match cached with Some _ => _ | None => _ end);
    [by intros [= <- <-]|].
  set (st2 := bump Misses _).
  assert (Hs2 : jobs st2 = jobs st /\ permits st2 = permits st /\ guards st2 = guards st
    /\ waiters st2 = waiters st /\ flights st2 = flights st) by done.
  clearbody st2. destruct Hs2 as (Hj2 & Hp2 & Hg2 & Hw2 & Hf2). rewrite Hf2, Hf.
  assert (Hbusy : forall r0 s0, busy st2 = (r0, s0) -> r0 = (Err Busy : result RetrievalError Admission)
    /\ jobs s0 = jobs st /\ permits s0 = permits st /\ guards s0 = guards st /\ waiters s0 = waiters st)
    by (intros r0 s0 [= <- <-]; done).
  destruct (MAX_WAITERS <=? _); [by intros (-> & ? & ? & ? & ?)%Hbusy|].
  destruct (channel_cancelled _ _); [by intros (-> & ? & ? & ? & ?)%Hbusy|].
  destruct (MAX_WAITERS_PER_KEY <=? _); [by intros (-> & ? & ? & ? & ?)%Hbusy|].
  intros [= <- <-]. simpl. rewrite Hg2, Hw2. by split_and!.
Qed.

(** ** Shutdown *)

(** The service after [shutdown]. *)
Record closed st : Prop := {
  cl_stopping : stopping st = true;
  cl_shut : shut st = true;
  cl_flights : flights st = ∅;
  cl_waiters : waiters st = 0;
  cl_cache : cache_ok (cache st) /\ contents (cache st) = ∅;
}.

Lemma closed_sync v st : closed st -> closed (sync_epoch v st).
Proof.
  intros [Hs Hsh Hf Hw [Hok Hc]]. pose proof (sync_epoch_core v st) as Hcore.
  assert (stopping (sync_epoch v st) = stopping st /\ shut (sync_epoch v st) = shut st
    /\ flights (sync_epoch v st) = flights st /\ waiters (sync_epoch v st) = waiters st)
    as (H1 & H2 & H3 & H4) by (by injection Hcore).
  constructor; try congruence. clear Hcore H1 H2 H3 H4. unfold sync_epoch. destruct v as [v|]; [|done].
  assert (Hclear : forall c, cache_ok c -> contents c = ∅ -> cache_ok (cache_clear c) /\ contents (cache_clear c) = ∅)
    by (intros; split; [by apply clear_ok|by apply clear_contents]).
  repeat case_match; simpl;
    repeat match goal with |- cache_ok (cache_clear ?c) /\ _ =>
    let H := fresh in assert (H : cache_ok c /\ contents c = ∅); [|by apply Hclear; apply H] end; done.
Qed.

Lemma closed_expire now st : closed st -> closed (expire now st).
Proof.
  intros [Hs Hsh Hf Hw [Hok Hc]]. constructor; try done. simpl. split; [by apply expire_ok|].
  rewrite expire_contents, Hc by done. apply map_filter_empty.
Qed.

Lemma closed_guards l st : closed st -> closed (set_guards l st).
Proof. by intros []. Qed.

Lemma closed_end j st : closed st -> closed (end_job j st).
Proof. intros []. unfold end_job. by destruct (list_find _ _) as [[? ?]|]. Qed.

Lemma closed_replace j held p st : closed st -> closed (replace_job j held p st).
Proof. intros []. unfold replace_job. by destruct (list_find _ _) as [[? ?]|]. Qed.

Lemma closed_bump k st : closed st -> closed (bump k st).
Proof. by intros []. Qed.

Lemma closed_start env cancelled query st r st' :
  closed st -> retrieve_start sources env cancelled query st = (r, st') ->
  st' = st /\ exists e, r = Err e.
Proof.
  intros Hcl. unfold retrieve_start, admission. rewrite (cl_stopping _ Hcl). simpl.
  repeat case_match; intros [= <- <-]; eauto.
Qed.

Lemma flight_channels_empty st : flights st = ∅ -> flight_channels st = [].
Proof. unfold flight_channels. intros ->. by rewrite map_to_list_empty. Qed.

Lemma closed_step st st' : closed st -> step st st' -> closed st'.
Proof.
  intros Hcl Hstep. pose proof Hcl as [Hs Hsh Hf Hw [Hok Hc]].
  destruct Hstep as [env ca query st r st' He Hst|env fr w o st r st' _ _ Hpoll _|w st _|env j o st _ _ _ _
    |j st _ _|j st _|st|v st _|j st r st' _ _ _ Hst|j st _|env j found st r st' _ _ _ _ Hst|query gen stage st
    |j k st _|v now st _|v st _|st].
  - by destruct (closed_start _ _ _ _ _ _ Hcl Hst) as [-> _].
  - apply poll_outcome in Hpoll as [? _]. congruence.
  - assert (Hrg : closed (remove_guard w st))
      by (unfold remove_guard; destruct (list_find _ _) as [[? ?]|]; [by apply closed_guards|done]).
    unfold waiter_drop. by rewrite (cl_flights _ Hrg), lookup_empty.
  - apply closed_replace. unfold publish. pose proof (closed_sync (view env 0) st Hcl) as H1.
    by rewrite (cl_flights _ H1), lookup_empty.
  - by apply closed_end.
  - by destruct (closed_end j st Hcl).
  - unfold reap. by case_match.
  - unfold health_check. by case_match.
  - unfold acquire_permit in Hst. repeat case_match; injection Hst as _ <-;
      first [by apply closed_bump|by apply closed_replace].
  - unfold release_permit. case_match; [by apply closed_replace|done].
  - pose proof (closed_sync (view env 0) st Hcl) as H1. unfold promote_persistent in Hst.
    rewrite (cl_stopping _ H1) in Hst. simpl in Hst. by destruct (_ || _); injection Hst as _ <-.
  - unfold set_stage. by rewrite Hf, map_to_list_empty.
  - by apply closed_bump.
  - by apply closed_expire, closed_sync.
  - by apply closed_sync.
  - constructor; try done; simpl. split; [by apply clear_ok|by apply clear_contents].
Qed.

Lemma closed_steps st st' : closed st -> rtc step st st' -> closed st'.
Proof. intros Hcl Hs. induction Hs; [done|]. eauto using closed_step. Qed.

(** Shutdown is final and releases everybody: at once every waiting caller
    is told, and in whatever state follows there is no flight, the cache stays
    empty and every new request is refused without a change. *)
Theorem shutdown_final n st st' :
  reach n st -> Z.of_nat n < 2 ^ 64 -> rtc step (shutdown st) st' ->
  (forall w, wait_poll w false st' = Some (Err Shutdown))
    /\ flights st' = ∅ /\ waiters st' = 0 /\ contents (cache st') = ∅
    /\ forall env cancelled query r st'',
  retrieve_start sources env cancelled query st' = (r, st'') ->
  st'' = st' /\ exists e, r = Err e.
Proof.
  intros Hr Hn Hs. pose proof (reach_inv _ _ _ _ _ _ n st Hr Hn) as [_ [Hok _]].
  assert (Hcl : closed st').
  { apply (closed_steps (shutdown st)); [|done]. constructor; try done. simpl.
    split; [by apply clear_ok|by apply clear_contents]. }
  split_and!; [|apply Hcl..|].
  - intros w. unfold wait_poll. by rewrite (cl_shut _ Hcl).
  - intros. by eapply closed_start.
Qed.
End properties.

(** * A run: a caller starts a refresh, which succeeds at its second attempt; the
    caller is answered and the next one is served from the cache. *)

#[local] Existing Instance list_order.

Definition sample_sources : gmap str Source := {[ u "layout_a" := sample_source ]}.
Definition sample_env : Env := {| view := fun _ => None; clock := fun _ => 1000 |}.

Definition query_key : CacheKey :=
  {| ck_provider := u "synthetic"; ck_dataset := u "records"; ck_processor_version := u "v1";
     ck_schema_version := 1; ck_query := sample_query |}.

(** An encoder and a digest to run the model with. *)
Definition sample_json (d : RetrievalData) : list byte := repeat 0 100.
Definition sample_sha256 (raw : list byte) : list byte := repeat 0 32.

Definition sample_job : Job :=
  {| job_key := query_key; job_generation := 1; job_channel := 0; job_provider := u "synthetic";
     job_permit := true; job_published := false |}.

Definition sample_guard : Waiter := {| wt_key := query_key; wt_generation := 1; wt_channel := 0 |}.

Definition sample_outcome : PublishedOutcome :=
  resolve_upstream sample_json sample_sha256 u64_max false false default_policy sample_source
    (ck_query (job_key sample_job)) (job_generation sample_job) sample_attempts.

Definition idle : State MemoryCache := initial new_cache [u "synthetic"] 0 0.
Definition waiting : State MemoryCache :=
  (retrieve_start sample_sources sample_env false sample_query idle).2.
Definition published : State MemoryCache := job_publish sample_env sample_job sample_outcome waiting.

(** The job panics instead. *)
Definition unwound : State MemoryCache := panic_job sample_job waiting.

Abbreviation sample_reach :=
  (reach sample_json sample_sha256 u64_max [] sample_sources false).
Abbreviation sample_step :=
  (step sample_json sample_sha256 u64_max [] sample_sources false).

Lemma waiting_reached : sample_reach 1 waiting.
Proof.
  eapply reach_step; [apply (reach_initial _ _ _ _ _ _ new_cache [u "synthetic"] 0 0); [apply new_cache_inv|]|].
  - reflexivity.
  - eapply (step_start _ _ _ _ _ _ sample_env false sample_query); [by intros n|].
    apply surjective_pairing.
Qed.

Lemma waiting_jobs : jobs waiting = [sample_job] /\ guards waiting = [sample_guard].
Proof. split; vm_compute; reflexivity. Qed.

Lemma sample_running : sample_job ∈ jobs waiting.
Proof. destruct waiting_jobs as [-> _]. left. Qed.

Lemma published_reached : sample_reach 2 published.
Proof.
  eapply reach_step; [apply waiting_reached|]. apply step_publish; [by intros n|apply sample_running|done|].
  apply (jr_upstream _ _ _ _ _ _ _ sample_source default_policy false false sample_attempts); reflexivity.
Qed.

Lemma published_guard : sample_guard ∈ guards published.
Proof.
  assert (guards published = [sample_guard]) as -> by (vm_compute; reflexivity). left.
Qed.

Lemma unwound_reached : sample_reach 2 unwound.
Proof. eapply reach_step; [apply waiting_reached|]. apply step_panic, sample_running. Qed.

#[local] Opaque waiting published unwound sample_outcome shutdown.

Lemma retrieval_accounting_witness :
  sample_reach 1 waiting /\ waiters waiting = countb (active (flights waiting)) (guards waiting)
  /\ waiters waiting = 1.
Proof.
  split; [exact waiting_reached|]. split; [|vm_compute; reflexivity].
  exact (proj1 (proj2 (proj2 (retrieval_accounting sample_json sample_sha256 u64_max [] sample_sources false
    1 waiting waiting_reached ltac:(lia))))).
Defined.

(** The caller of a running job, and the caller of the job that panicked. *)
Lemma no_waiter_lost_witness :
  ((exists o, wait_poll sample_guard false waiting = Some (Ok o))
   \/ wait_poll sample_guard false waiting = None /\
     ((exists j, j ∈ jobs waiting /\ job_key j = query_key /\ job_generation j = 1 /\ job_published j = false /\
        forall env o, outcome_ok genuine (job_key j) o ->
          exists o', wait_poll sample_guard false (job_publish env j o waiting) = Some (Ok o'))
      \/ (exists j, j ∈ panicked waiting /\ job_key j = query_key /\ job_generation j = 1)
        /\ sample_step waiting (reap waiting) /\ wait_poll sample_guard false (reap waiting) = Some (Err Shutdown)))
  /\ jobs unwound = [] /\ shut unwound = false /\ sample_step unwound (reap unwound)
  /\ wait_poll sample_guard false (reap unwound) = Some (Err Shutdown).
Proof.
  split.
  - apply (no_waiter_lost sample_json sample_sha256 u64_max [] sample_sources false 1 waiting sample_guard
      waiting_reached ltac:(lia)).
    + destruct waiting_jobs as [_ ->]. left.
    + vm_compute. reflexivity.
  - assert (Hj : jobs unwound = []) by (vm_compute; reflexivity).
    assert (Hs : shut unwound = false) by (vm_compute; reflexivity).
    assert (Hw : sample_guard ∈ guards unwound).
    { assert (guards unwound = [sample_guard]) as -> by (vm_compute; reflexivity). left. }
    split; [exact Hj|]. split; [exact Hs|].
    assert (Hp : wait_poll sample_guard false unwound = None) by (vm_compute; reflexivity).
    destruct (no_waiter_lost sample_json sample_sha256 u64_max [] sample_sources false 2 unwound sample_guard
      unwound_reached ltac:(lia) Hw Hs) as [[o Ho]|[_ [(j & Hin & _)|(_ & Hr)]]].
    + rewrite Hp in Ho. discriminate Ho.
    + rewrite Hj in Hin. destruct (not_elem_of_nil _ Hin).
    + exact Hr.
Defined.

(** ** A durable answer *)

(** The database holds a fresh result of the query. *)
Definition sample_columns : QueryColumns :=
  let history := pk_history (persistent_key (u "local") query_key) in
  {| qc_id := u "q"; qc_namespace := u "local"; qc_provider := u "synthetic"; qc_dataset := u "records";
     qc_query := Some sample_query;
     qc_canonical_identity := match canonical_identity history with Ok l => l | Err _ => [] end;
     qc_query_hash := repeat 0 32; qc_mutation_revision := 1 |}.

Definition sample_row : SnapshotRow :=
  {| sn_id := u "s"; sn_query := sample_columns;
     sn_blob := {| bc_sha256 := repeat 0 32; bc_generation := u "g";
       bc_storage_key := u "00/" ++ hex (repeat 0 32) ++ u "-g"; bc_size_bytes := 3; bc_ready := true |};
     sn_public_id := hex (repeat 0 32); sn_sequence := 1; sn_captured_at := Some 980;
     sn_retrieved_at := Some 980; sn_original_validated_at := Some 980; sn_processor_version := u "v1";
     sn_schema_version := 1; sn_processed_data := Some (fp_data sample_fetched);
     sn_processed_sha256 := repeat 0 32; sn_source_reference := fp_source_reference sample_fetched;
     sn_envelope_sha256 := repeat 0 32; sn_raw_blob_sha256 := repeat 0 32 |}.

Definition sample_retention : RetentionPolicy :=
  {| retention_days := 30; max_blob_bytes := 1024 * 1024 * 1024; max_snapshots_per_query := 100;
     max_snapshots := 10000; max_queries := 4096 |}.

Definition sample_database : Database :=
  {| db_refused := None; db_policy := sample_retention; db_epoch := 0; db_cancelled := fun _ => false;
     db_query := Ok (Some sample_columns);
     db_head := Ok (Some {| hd_snapshot_id := u "s"; hd_validated_at := Some 990 |});
     db_snapshot := Ok (Some sample_row); db_blob := fun _ => Ok (Some [1; 2; 3]);
     db_retained := Ok false; db_dangling := Ok false |}.

Definition durable_env : Env :=
  {| view := fun _ => Some {| sv_status := Ready; sv_epoch := 0; sv_recovery_epoch := 0; sv_healthy := true;
       sv_policy := sample_retention |};
     clock := fun _ => 1000 |}.

Definition sample_publication : Publication :=
  {| pb_refused := None; pb_policy := sample_retention; pb_cancelled := fun _ => false;
     pb_authorized := fun _ => true; pb_epoch := fun _ => 0; pb_healthy := fun _ => true;
     pb_previous := sample_database; pb_reserved := Err Busy; pb_blob := Ok None; pb_live := Ok false;
     pb_stored := Ok tt; pb_begun := Ok tt; pb_locked := Ok None; pb_inserted := Err Busy;
     pb_blob_exists := Ok true; pb_snapshot := Err Busy; pb_random := Err Busy; pb_sequence := Ok None;
     pb_write := fun _ => Ok tt; pb_closing := false; pb_down := false |}.

Definition sample_resolution : Resolution :=
  {| rs_env := durable_env; rs_cancelled := fun _ => false; rs_lookup := fun _ => sample_database;
     rs_promoted := Ok tt; rs_permit := Ok tt; rs_preempted := false; rs_timed_out := false;
     rs_attempts := sample_attempts; rs_publication := sample_publication |}.

Definition durable_job : Job :=
  {| job_key := query_key; job_generation := 1; job_channel := 0; job_provider := u "synthetic";
     job_permit := false; job_published := false |}.

Definition durable_outcome : PublishedOutcome :=
  resolve_persistent sample_json sample_sha256 u64_max (u "local") false false default_policy sample_source
    (job_key durable_job) (ck_query (job_key durable_job)) (job_generation durable_job) sample_resolution.

Definition durable_waiting : State MemoryCache :=
  (retrieve_start sample_sources durable_env false sample_query idle).2.
Definition durable_published : State MemoryCache :=
  job_publish durable_env durable_job durable_outcome durable_waiting.

Abbreviation durable_reach := (reach sample_json sample_sha256 u64_max (u "local") sample_sources true).

Lemma durable_waiting_reached : durable_reach 1 durable_waiting.
Proof.
  eapply reach_step; [apply (reach_initial _ _ _ _ _ _ new_cache [u "synthetic"] 0 0); [apply new_cache_inv|]|].
  - reflexivity.
  - eapply (step_start _ _ _ _ _ _ durable_env false sample_query); [by intros n|].
    apply surjective_pairing.
Qed.

Lemma durable_resolved :
  job_result sample_json sample_sha256 u64_max (u "local") true (job_key durable_job)
    (job_generation durable_job) durable_outcome.
Proof.
  exact (jr_durable _ _ _ _ _ (job_key durable_job) (job_generation durable_job) sample_source default_policy
    false false sample_resolution eq_refl eq_refl).
Qed.

Lemma durable_running : durable_job ∈ jobs durable_waiting.
Proof. assert (jobs durable_waiting = [durable_job]) as -> by (vm_compute; reflexivity). left. Qed.

Lemma durable_reached : durable_reach 2 durable_published.
Proof.
  eapply reach_step; [apply durable_waiting_reached|].
  apply step_publish; [by intros n|apply durable_running|done|apply durable_resolved].
Qed.

#[local] Opaque durable_waiting durable_published durable_outcome.

(** An answer from the upstream, and one from the database. *)
Lemma answers_genuine_witness :
  (exists e st', retrieve_outcome sample_env FreshOnly query_key sample_outcome published = (Ok e, st')
    /\ answers_key query_key e /\ fresh_enough sample_env FreshOnly sample_outcome e)
  /\ exists e st', retrieve_outcome durable_env FreshOnly query_key durable_outcome durable_published = (Ok e, st')
    /\ answers_key query_key e /\ fresh_enough durable_env FreshOnly durable_outcome e.
Proof.
  split.
  - assert (Hok : is_ok (retrieve_outcome sample_env FreshOnly query_key sample_outcome published).1 = true)
      by (vm_compute; reflexivity).
    destruct (retrieve_outcome sample_env FreshOnly query_key sample_outcome published) as [[e|err] st'] eqn:Er;
      [|discriminate Hok].
    exists e, st'. split; [reflexivity|].
    apply (answers_genuine sample_json sample_sha256 u64_max [] sample_sources false 2 published
      sample_guard sample_env FreshOnly sample_outcome e st' published_reached ltac:(lia) published_guard).
    + vm_compute. reflexivity.
    + exact Er.
  - assert (Hok : is_ok (retrieve_outcome durable_env FreshOnly query_key durable_outcome durable_published).1 = true)
      by (vm_compute; reflexivity).
    destruct (retrieve_outcome durable_env FreshOnly query_key durable_outcome durable_published)
      as [[e|err] st'] eqn:Er; [|discriminate Hok].
    exists e, st'. split; [reflexivity|].
    apply (answers_genuine sample_json sample_sha256 u64_max (u "local") sample_sources true 2 durable_published
      sample_guard durable_env FreshOnly durable_outcome e st' durable_reached ltac:(lia)).
    + assert (guards durable_published = [sample_guard]) as -> by (vm_compute; reflexivity). left.
    + vm_compute. reflexivity.
    + exact Er.
Defined.

Lemma served_genuine_witness :
  exists e st', retrieve_start sample_sources sample_env false sample_query published = (Ok (Served e), st')
    /\ env_state e = Fresh /\ clock sample_env 1 - pv_validated_at (env_provenance e) < FRESH_SECONDS.
Proof.
  assert (Hok : match (retrieve_start sample_sources sample_env false sample_query published).1 with
                | Ok (Served _) => true | _ => false end = true) by (vm_compute; reflexivity).
  destruct (retrieve_start sample_sources sample_env false sample_query published) as [[[e|w]|err] st'] eqn:Er;
    [|discriminate Hok|discriminate Hok].
  exists e, st'. split; [reflexivity|].
  exact (proj2 (served_genuine sample_json sample_sha256 u64_max [] sample_sources false 2
    published sample_env false sample_query e st' published_reached ltac:(lia) Er)).
Defined.

Lemma admission_coalesces_witness :
  exists w st', admission sample_env sample_source query_key waiting = (Ok (Joined w), st')
    /\ jobs st' = jobs waiting /\ permits st' = permits waiting /\ waiters st' = waiters waiting + 1.
Proof.
  assert (Hok : match (admission sample_env sample_source query_key waiting).1 with
                | Ok (Joined _) => true | _ => false end = true) by (vm_compute; reflexivity).
  assert (Hf : is_some (flights waiting !! query_key) = true) by (vm_compute; reflexivity).
  destruct (admission sample_env sample_source query_key waiting) as [[[e|w]|err] st'] eqn:Er;
    [discriminate Hok| |discriminate Hok].
  destruct (flights waiting !! query_key) as [fl|] eqn:Ef; [|discriminate Hf].
  assert (He : env_ok false sample_env) by (intros n; reflexivity).
  pose proof (admission_coalesces sample_json sample_sha256 u64_max [] sample_sources false
    1 waiting sample_env sample_source query_key fl _ st' waiting_reached ltac:(lia) He Ef Er)
    as (Hj & Hp & _ & _ & _ & Hw).
  exists w, st'. split; [reflexivity|]. split; [exact Hj|]. split; [exact Hp|exact Hw].
Defined.

Lemma shutdown_final_witness :
  sample_reach 2 published /\ flights (shutdown published) = ∅ /\ contents (cache (shutdown published)) = ∅
  /\ wait_poll sample_guard false (shutdown published) = Some (Err Shutdown).
Proof.
  pose proof (shutdown_final sample_json sample_sha256 u64_max [] sample_sources false 2
    published (shutdown published) published_reached ltac:(lia) (rtc_refl _ _)) as (Hw & Hf & _ & Hc & _).
  split; [exact published_reached|]. split; [exact Hf|]. split; [exact Hc|exact (Hw sample_guard)].
Defined.
