(* ===== verification/Citation.v ===== *)
(** Citations of retained captures: the identities of
    [crates/domain/src/citation.rs] and the projections of
    [crates/application/src/citation.rs] that are functions of a capture.

    The codec of [application/x-www-form-urlencoded] is the [url] crate's: its
    two functions are the operations of [FormUrlencoded]; what the code relies
    on, as the WHATWG standard documents it, is the class [FormLaws]. *)

From S2P Require Import Prelude Utf8 Strings Domain Legal.

Definition MAX_CITATION_TEXT_BYTES : Z := 8192.
Definition MAX_CITATION_RANGE : Z := 64 * 1024 * 1024.

Inductive CitationProjection :=
| Document
| Section_ (section : str)
| Passage (section : str) (start end_ : Z)
| Metadata.

#[export] Instance CitationProjection_eq_dec : EqDecision CitationProjection.
Proof. solve_decision. Defined.

Record CitationId := {
  ci_object : ObjectId; ci_capture_id : str; ci_projection : CitationProjection;
}.

#[export] Instance CitationId_eq_dec : EqDecision CitationId.
Proof. solve_decision. Defined.

Definition projection_section (p : CitationProjection) : option str :=
  match p with
  | Document | Metadata => None
  | Section_ section | Passage section _ _ => Some section
  end.

(** The [Passage] arm of [validate]. *)
Definition passage_invalid (start end_ : Z) : bool :=
  (end_ <=? start) || (MAX_CITATION_TEXT_BYTES <? end_ - start) || (MAX_CITATION_RANGE <? end_).

Definition section_name_invalid (s : str) : bool :=
  bool_decide (s = []) || (256 <? slen s) || existsb is_control s.

Definition citation_validate (id : CitationId) : result DatabaseError unit :=
  let? _ := object_validate (ci_object id) in
  if negb (valid_snapshot_id (ci_capture_id id)) then Err InvalidInput else
  let? section :=
    match ci_projection id with
    | Document | Metadata => Ok None
    | Section_ section => Ok (Some section)
    | Passage section start end_ =>
      if passage_invalid start end_ then Err InvalidInput else Ok (Some section)
    end in
  if opt_test section_name_invalid section then Err InvalidInput else Ok tt.

(** * Canonical paths *)

Class FormUrlencoded := {
  (** [form_urlencoded::byte_serialize], collected *)
  byte_serialize : list byte -> str;
  (** [form_urlencoded::parse] *)
  form_parse : list byte -> list (str * str);
}.

(** [str::replace('+', "%20")] *)
Definition percent_space (s : str) : str := s ≫= (fun c => if c =? ch "+" then u "%20" else [c]).

Definition hex_upper (n : Z) : char := if n <? 10 then 48 + n else 65 + (n - 10).

(** How the standard writes one byte. *)
Definition form_byte (b : byte) : str :=
  if is_ascii_alphanumeric b || contains_char b (u "*-._") then [b]
  else if b =? ch " " then u "+"
  else [ch "%"; hex_upper (b / 16); hex_upper (b mod 16)].

Class FormLaws `{FormUrlencoded} := {
  serialize_bytes l : byte_serialize l = l ≫= form_byte;
  parse_serialized s :
    Forall scalar s ->
    head (form_parse (bytes (u "v=" ++ percent_space (byte_serialize (bytes s))))) = Some (u "v", s);
}.

Section paths.
Context `{FormUrlencoded}.

Definition escape (value : str) : str := percent_space (byte_serialize (bytes value)).

Definition unescape (value : str) : result DatabaseError str :=
  match form_parse (bytes (u "v=" ++ value)) with
  | [] => Err InvalidInput
  | (_, result) :: _ => if negb (str_eqb (escape result) value) then Err InvalidInput else Ok result
  end.

Definition projection_suffix (p : CitationProjection) : str :=
  match p with
  | Document => u "/doc"
  | Metadata => u "/metadata"
  | Section_ section => u "/section/s-" ++ escape section
  | Passage section start end_ =>
    u "/passage/s-" ++ escape section ++ u "/" ++ show_Z start ++ u "/" ++ show_Z end_
  end.

Definition encode (id : CitationId) : result DatabaseError str :=
  let? _ := citation_validate id in
  let o := ci_object id in
  Ok (u "v1/" ++ escape (oid_jurisdiction o) ++ u "/" ++ escape (oid_provider o) ++ u "/"
      ++ as_str (oid_dataset o) ++ u "/" ++ escape (oid_id o) ++ u "/" ++ ci_capture_id id
      ++ projection_suffix (ci_projection id)).

(** The closure [section]. *)
Definition decode_section (value : str) : result DatabaseError str :=
  let? value := ok_or (strip_prefix (u "s-") value) InvalidInput in unescape value.

(** [match (parts[6], parts.len())], with the parts behind the sixth. *)
Definition decode_projection (kind : str) (rest : list str) : result DatabaseError CitationProjection :=
  match rest with
  | [] =>
    if str_eqb kind (u "doc") then Ok Document
    else if str_eqb kind (u "metadata") then Ok Metadata
    else Err InvalidInput
  | [section] =>
    if str_eqb kind (u "section") then
      let? section := decode_section section in Ok (Section_ section)
    else Err InvalidInput
  | [section; start; end_] =>
    if str_eqb kind (u "passage") then
      let? section := decode_section section in
      let? start := ok_or (parse_usize start) InvalidInput in
      let? end_ := ok_or (parse_usize end_) InvalidInput in
      Ok (Passage section start end_)
    else Err InvalidInput
  | _ => Err InvalidInput
  end.

Definition decode (id : str) : result DatabaseError CitationId :=
  if 2048 <? slen id then Err InvalidInput else
  match split_char (ch "/") id with
  | version :: jurisdiction :: provider :: dataset :: object :: capture :: kind :: rest =>
    if negb (str_eqb version (u "v1")) then Err InvalidInput else
    let? jurisdiction := unescape jurisdiction in
    let? provider := unescape provider in
    let? dataset := ok_or (from_name dataset) InvalidInput in
    let? object := unescape object in
    let? projection := decode_projection kind rest in
    let result :=
      {| ci_object := {| oid_jurisdiction := jurisdiction; oid_provider := provider;
                         oid_dataset := dataset; oid_id := object |};
         ci_capture_id := capture; ci_projection := projection |} in
    let? encoded := encode result in
    if negb (str_eqb encoded id) then Err InvalidInput else Ok result
  | _ => Err InvalidInput
  end.

Definition resource_uri (id : CitationId) : result DatabaseError str :=
  let? encoded := encode id in Ok (u "openlegal://source/" ++ encoded).
End paths.

(** * Projections of a capture *)

(** The fields of [Capture] that the projections read. *)
Record Capture := { cp_capture_id : str; cp_record : LegalRecord }.

(** The fields of [SearchHit] that [projection_for_hit] reads. *)
Record SearchHit := {
  sh_excerpt_section : str; sh_includes_ocr : bool; sh_object : ObjectId;
  sh_revision_id : str; sh_capture_id : str; sh_text : str;
  sh_byte_start : Z; sh_byte_end : Z;
}.

Definition projection_title (title : str) (p : CitationProjection) : str :=
  match p with
  | Document | Metadata => title
  | Section_ section => title ++ u " [" ++ section ++ u "]"
  | Passage section start end_ =>
    title ++ u " [" ++ section ++ u ", bytes " ++ show_Z start ++ u "–" ++ show_Z end_ ++ u "]"
  end.

Definition section_text (capture : Capture) (section : str) : result DatabaseError str :=
  let record := cp_record capture in
  if str_eqb section (u "body") then Ok (lr_body record)
  else if str_eqb section (u "title") then Ok (lr_title record)
  else if str_eqb section (u "case_number") then
    ok_or (lr_metadata record !! u "case_number") NotFound
  else
    ok_or (sec_text <$> List.find (fun s => str_eqb (sec_id s) section) (lr_sections record)) NotFound.

Definition project_text (capture : Capture) (id : CitationId) : result DatabaseError str :=
  let? _ := citation_validate id in
  if negb (bool_decide (lr_object (cp_record capture) = ci_object id))
    || negb (str_eqb (cp_capture_id capture) (ci_capture_id id))
  then Err RevisionUnavailable else
  let? text :=
    match ci_projection id with
    | Document => Ok (lr_body (cp_record capture))
    | Metadata => Err RevisionUnavailable
    | Section_ section => section_text capture section
    | Passage section start end_ =>
      let? text := section_text capture section in
      ok_or (str_range text start end_) InvalidInput
    end in
  if MAX_CITATION_TEXT_BYTES <? slen text then Err Capacity else Ok text.

(** [str::match_indices]: the offsets of the occurrences from left to right, each
    search starting behind the last one; [skip] characters are still inside it. *)
Fixpoint match_indices_from (off : Z) (skip : nat) (pattern s : str) : list Z :=
  match s with
  | [] => []
  | c :: rest =>
    match skip with
    | S skip => match_indices_from (off + len_utf8 c) skip pattern rest
    | O =>
      if starts_with pattern s
      then off :: match_indices_from (off + len_utf8 c) (length pattern - 1) pattern rest
      else match_indices_from (off + len_utf8 c) 0 pattern rest
    end
  end.

(** The pattern is not empty. *)
Definition match_indices (pattern s : str) : list Z := match_indices_from 0 0 pattern s.

(** A source article whose only occurrence in the body contains the excerpt. *)
Definition citable_article (s : LegalSection) : bool :=
  bool_decide (sec_kind s = ProviderText) && starts_with (u "article:") (sec_id s)
    && negb (bool_decide (sec_text s = [])) && (slen (sec_text s) <=? MAX_CITATION_TEXT_BYTES).

Definition holds_excerpt (text : str) (hit : SearchHit) (s : LegalSection) : bool :=
  match match_indices (sec_text s) text with
  | [start] => (start <=? sh_byte_start hit) && (sh_byte_end hit <=? start + slen (sec_text s))
  | _ => false
  end.

(** The passage around an excerpt of a long section. *)
Definition passage_around (section text : str) (hit : SearchHit)
  : result (stop DatabaseError) CitationProjection :=
  let excerpt_bytes := sh_byte_end hit - sh_byte_start hit in
  if MAX_CITATION_TEXT_BYTES <? excerpt_bytes then Err (Error Capacity) else
  let leading_context := saturating_sub MAX_CITATION_TEXT_BYTES excerpt_bytes / 2 in
  let? start := align_up 3 text (saturating_sub (sh_byte_start hit) leading_context) in
  let? end_ :=
    align_down 3 text (Z.min (saturating_add start MAX_CITATION_TEXT_BYTES) (slen text)) in
  Ok (Passage section start end_).

Definition hit_projection (capture : Capture) (hit : SearchHit) (section text : str)
  : result (stop DatabaseError) CitationProjection :=
  if (slen (lr_body (cp_record capture)) <=? MAX_CITATION_TEXT_BYTES)
    && negb (sh_includes_ocr hit) && str_eqb section (u "body")
  then Ok Document
  else if slen text <=? MAX_CITATION_TEXT_BYTES then Ok (Section_ section)
  else
    let article :=
      if str_eqb section (u "body") then
        List.find (holds_excerpt text hit) (List.filter citable_article (lr_sections (cp_record capture)))
      else None in
    match article with
    | Some article => Ok (Section_ (sec_id article))
    | None => passage_around section text hit
    end.

Definition projection_for_hit (capture : Capture) (hit : SearchHit)
  : result (stop DatabaseError) CitationId :=
  if negb (bool_decide (lr_object (cp_record capture) = sh_object hit))
    || negb (str_eqb (cp_capture_id capture) (sh_capture_id hit))
    || negb (str_eqb (lr_revision_id (cp_record capture)) (sh_revision_id hit))
  then Err (Error RevisionUnavailable) else
  let section := sh_excerpt_section hit in
  match section_text capture section with
  | Err e => Err (Error e)
  | Ok text =>
    if (sh_byte_end hit <=? sh_byte_start hit)
      || negb (bool_decide (str_range text (sh_byte_start hit) (sh_byte_end hit) = Some (sh_text hit)))
    then Err (Error InvalidInput) else
    let? projection := hit_projection capture hit section text in
    let id := {| ci_object := sh_object hit; ci_capture_id := sh_capture_id hit;
                 ci_projection := projection |} in
    match citation_validate id with
    | Err e => Err (Error e)
    | Ok _ => Ok id
    end
  end.

(** The loop of [passage_ids]. *)
Fixpoint passages (fuel : nat) (object : ObjectId) (capture_id section text : str) (offset start : Z)
  : result (stop DatabaseError) (list CitationId) :=
  if start <? slen text then
    match fuel with
    | O => Err OutOfFuel
    | S fuel =>
      let? end_ := align_down 3 text (Z.min (start + MAX_CITATION_TEXT_BYTES) (slen text)) in
      let? first := ok_or (checked_add offset start) (Error InvalidInput) in
      let? behind := ok_or (checked_add offset end_) (Error InvalidInput) in
      let id := {| ci_object := object; ci_capture_id := capture_id;
                   ci_projection := Passage section first behind |} in
      match citation_validate id with
      | Err e => Err (Error e)
      | Ok _ =>
        let? ids := passages fuel object capture_id section text offset end_ in
        Ok (id :: ids)
      end
    end
  else Ok [].

Definition passage_ids (object : ObjectId) (capture_id section text : str) (offset : Z)
  : result (stop DatabaseError) (list CitationId) :=
  passages (length text) object capture_id section text offset 0.

Definition with_projection (id : CitationId) (p : CitationProjection) : CitationId :=
  {| ci_object := ci_object id; ci_capture_id := ci_capture_id id; ci_projection := p |}.

Definition adjacent_ids (capture : Capture) (id : CitationId)
  : result (stop DatabaseError) (option CitationId * option CitationId) :=
  match ci_projection id with
  | Passage section start end_ =>
    match section_text capture section with
    | Err e => Err (Error e)
    | Ok text =>
      let? previous :=
        if 0 <? start then
          let? before := align_up 3 text (saturating_sub start MAX_CITATION_TEXT_BYTES) in
          Ok (Some (with_projection id (Passage section before start)))
        else Ok None in
      let? next :=
        if end_ <? slen text then
          let? after :=
            align_down 3 text (Z.min (saturating_add end_ MAX_CITATION_TEXT_BYTES) (slen text)) in
          Ok (Some (with_projection id (Passage section end_ after)))
        else Ok None in
      Ok (previous, next)
    end
  | _ => Ok (None, None)
  end.
