(* ===== verification/CitationFacts.v ===== *)
(** Correctness of citation identities: the canonical path of a citation and
    the citation it is read back as. *)

From S2P Require Import Prelude Utf8 Strings Domain Legal Citation.

Lemma validate_inv id :
  citation_validate id = Ok tt ->
  valid_identifier (oid_jurisdiction (ci_object id)) 32 = true
  /\ valid_identifier (oid_provider (ci_object id)) 64 = true
  /\ valid_identifier (oid_id (ci_object id)) 128 = true
  /\ valid_snapshot_id (ci_capture_id id) = true
  /\ opt_test section_name_invalid (projection_section (ci_projection id)) = false
  /\ match ci_projection id with
     | Passage _ start end_ => passage_invalid start end_ = false
     | _ => True
     end.
Proof.
  unfold citation_validate, object_validate. intros Hv.
  match type of Hv with context [if ?b then Err InvalidInput else Ok tt] =>
    destruct b eqn:Eo; [done|] end.
  destruct (valid_snapshot_id _) eqn:Es; [|done]. bool_hyps.
  destruct (ci_projection id) as [|s|s a b|]; cbn [opt_test projection_section negb] in *;
    try (destruct (passage_invalid a b) eqn:Ep; [done|]); cbn [opt_test] in *;
    split_and!; try done; by destruct (section_name_invalid s).
Qed.

(** * Canonical paths *)

Definition path_char (c : char) : Prop := is_ascii_alphanumeric c = true \/ c ∈ u "*-._%".

(** A path segment that a URL keeps as it is: not empty, no dot segment and no
    character that separates or needs an escape. *)
Definition safe_segment (w : str) : Prop :=
  w <> [] /\ w <> u "." /\ w <> u ".." /\ Forall path_char w.

(** What the Rust types of a [CitationId] say: its section is a [String] and its
    offsets are [usize]. *)
Definition typed_id (id : CitationId) : Prop :=
  match ci_projection id with
  | Document | Metadata => True
  | Section_ section => Forall scalar section
  | Passage section start end_ =>
    Forall scalar section /\ 0 <= start <= usize_max /\ 0 <= end_ <= usize_max
  end.

Lemma bytes_range s : Forall scalar s -> Forall (fun b => 0 <= b < 256) (bytes s).
Proof.
  induction 1 as [|c s Hc _ IH]; [constructor|]. cbn [bytes]. apply Forall_app. split; [|done].
  unfold scalar in Hc. unfold encode_char. repeat case_match; bool_hyps;
    repeat constructor; dlia.
Qed.

Lemma alphanumeric_scalar c : is_ascii_alphanumeric c = true -> scalar c.
Proof. intros ?%ascii_alphanumeric_ascii. left. lia. Qed.

Lemma path_char_ascii c : path_char c -> 0 <= c < 128.
Proof.
  intros [Hc|Hc]; [by apply ascii_alphanumeric_ascii|].
  change (u "*-._%") with [42; 45; 46; 95; 37] in Hc. rewrite !elem_of_cons in Hc.
  destruct Hc as [?|[?|[?|[?|[?|?%elem_of_nil]]]]]; done || lia.
Qed.

Lemma hex_upper_char n : 0 <= n < 16 -> path_char (hex_upper n) /\ hex_upper n <> 43.
Proof.
  intros Hn. assert (Hb : 48 <= hex_upper n <= 57 \/ 65 <= hex_upper n <= 70).
  { unfold hex_upper. case_match; bool_hyps; lia. }
  split; [|lia]. left. unfold is_ascii_alphanumeric, is_ascii_digit, is_ascii_lowercase, is_ascii_uppercase.
  rewrite !in_range_spec. repeat case_bool_decide; try done; lia.
Qed.

Lemma percent_path_char : path_char 37.
Proof. right. change (u "*-._%") with [42; 45; 46; 95; 37]. set_solver. Qed.

Lemma percent_space_app s t : percent_space (s ++ t) = percent_space s ++ percent_space t.
Proof. apply bind_app. Qed.

(** What one byte becomes in a path. *)
Lemma percent_form_byte b :
  0 <= b < 256 ->
  Forall path_char (percent_space (form_byte b)) /\ zlen (percent_space (form_byte b)) <= 3
    /\ (is_ascii_alphanumeric b = true \/ b ∈ u "_-" -> percent_space (form_byte b) = [b]).
Proof.
  intros Hb. unfold form_byte. destruct (_ || _) eqn:E.
  - assert (Hp : path_char b /\ b <> 43).
    { apply orb_true_iff in E as [E|E%contains_char_iff].
      - split; [by left|]. intros ->. done.
      - change (u "*-._") with [42; 45; 46; 95] in E. rewrite !elem_of_cons in E.
        destruct E as [->|[->|[->|[->|?%elem_of_nil]]]]; [..|done]; (split; [right|done]);
          change (u "*-._%") with [42; 45; 46; 95; 37]; set_solver. }
    destruct Hp as [Hp Hn]. unfold percent_space. simpl.
    change (ch "+") with 43. rewrite (proj2 (Z.eqb_neq b 43) Hn). simpl.
    split_and!; [by apply Forall_singleton|done|done].
  - apply orb_false_iff in E as [E1 E2%contains_char_false].
    assert (Hspecial : ~ (is_ascii_alphanumeric b = true \/ b ∈ u "_-")).
    { intros [?|Hin]; [congruence|]. apply E2. change (u "_-") with [95; 45] in Hin.
      change (u "*-._") with [42; 45; 46; 95]. set_solver. }
    destruct (_ =? _).
    + change (percent_space (u "+")) with (u "%20"). split_and!; [|done|done].
      change (u "%20") with [37; 50; 48].
      apply Forall_cons; split; [apply percent_path_char|]. by do 2 (apply Forall_cons; split; [by left|]).
    + destruct (hex_upper_char (b / 16)) as [H1 N1]; [dlia|].
      destruct (hex_upper_char (b mod 16)) as [H2 N2]; [dlia|].
      unfold percent_space. simpl. change (ch "+") with 43. change (ch "%") with 37.
      rewrite (proj2 (Z.eqb_neq _ 43) N1), (proj2 (Z.eqb_neq _ 43) N2). simpl.
      split_and!; [|done|done]. apply Forall_cons; split; [apply percent_path_char|].
      by do 2 (apply Forall_cons; split; [done|]).
Qed.

Section laws.
Context `{FormUrlencoded, !FormLaws}.

Lemma escape_spec x :
  Forall scalar x ->
  Forall path_char (escape x) /\ slen (escape x) <= 3 * slen x /\ unescape (escape x) = Ok x.
Proof.
  intros Hx. assert (Hlist : forall l, Forall (fun b => 0 <= b < 256) l ->
    Forall path_char (percent_space (l ≫= form_byte))
    /\ zlen (percent_space (l ≫= form_byte)) <= 3 * zlen l).
  { induction 1 as [|b l Hb _ [IH1 IH2]]; [by split; [constructor|]|].
    change ((b :: l) ≫= form_byte) with (form_byte b ++ (l ≫= form_byte)).
    destruct (percent_form_byte b Hb) as (? & ? & _).
    rewrite percent_space_app, zlen_app, zlen_cons. split; [by apply Forall_app|lia]. }
  destruct (Hlist (bytes x) (bytes_range x Hx)) as [Hc Hl]. unfold escape.
  rewrite serialize_bytes. split_and!; [done| |].
  - rewrite slen_ascii; [by rewrite slen_bytes|]. eapply Forall_impl; [exact Hc|].
    intros c ?%path_char_ascii. lia.
  - unfold unescape. rewrite <- serialize_bytes. pose proof (parse_serialized x Hx) as Hp.
    destruct (form_parse _) as [|kv l]; [done|]. injection Hp as ->.
    unfold escape. by rewrite (proj2 (str_eqb_eq _ _) eq_refl).
Qed.

(** An identifier is its own escape. *)
Lemma escape_identifier x max :
  valid_identifier x max = true -> escape x = x /\ Forall scalar x /\ safe_segment x.
Proof.
  intros (Hne & _ & Hc)%valid_identifier_chars.
  assert (Ha : Forall (fun c => 0 <= c < 128 /\ (is_ascii_alphanumeric c = true \/ c ∈ u "_-")) x).
  { eapply Forall_impl; [exact Hc|]. change (u "_-") with [95; 45]. intros c Hx.
    split; [|set_solver]. destruct Hx as [?%ascii_alphanumeric_ascii|[->| ->]]; lia. }
  split_and!.
  - unfold escape. rewrite serialize_bytes. clear Hne Hc.
    induction Ha as [|c x [Hc Hcc] _ IH]; [done|]. cbn [bytes]. unfold encode_char.
    rewrite (proj2 (Z.ltb_lt c 0x80)) by lia.
    change (([c] ++ bytes x) ≫= form_byte) with (form_byte c ++ (bytes x ≫= form_byte)).
    rewrite percent_space_app, IH. destruct (percent_form_byte c) as (_ & _ & ->); [lia|done|done].
  - eapply Forall_impl; [exact Ha|]. intros c [? _]. left. lia.
  - unfold safe_segment. split_and!; [done|..].
    1,2: intros ->; change (u "..") with [46; 46] in Hc; change (u ".") with [46] in Hc;
      apply Forall_inv in Hc; destruct Hc as [Hc|[Hc|Hc]]; done.
    eapply Forall_impl; [exact Hc|]. intros c [?|Hcc]; [by left|right].
    change (u "*-._%") with [42; 45; 46; 95; 37]. destruct Hcc as [->| ->]; set_solver.
Qed.

(** The segments of a canonical path. *)
Definition projection_segments (p : CitationProjection) : list str :=
  match p with
  | Document => [u "doc"]
  | Metadata => [u "metadata"]
  | Section_ section => [u "section"; u "s-" ++ escape section]
  | Passage section start end_ =>
    [u "passage"; u "s-" ++ escape section; show_Z start; show_Z end_]
  end.

Definition segments (id : CitationId) : list str :=
  let o := ci_object id in
  [u "v1"; oid_jurisdiction o; oid_provider o; as_str (oid_dataset o); oid_id o; ci_capture_id id]
    ++ projection_segments (ci_projection id).

Lemma encode_segments id :
  citation_validate id = Ok tt -> encode id = Ok (intercalate (ch "/") (segments id)).
Proof.
  intros Hv. unfold encode. rewrite Hv. apply validate_inv in Hv as (Hj & Hp & Ho & _).
  destruct (escape_identifier _ _ Hj) as [-> _], (escape_identifier _ _ Hp) as [-> _],
    (escape_identifier _ _ Ho) as [-> _].
  f_equal. unfold segments. destruct (ci_projection id); reflexivity.
Qed.

Lemma safe_prefix c w : 97 <= c <= 122 -> Forall path_char w -> safe_segment (c :: w).
Proof.
  intros Hc Hw. unfold safe_segment. split_and!; [done|..].
  - change (u ".") with [46]. intros [= -> _]. lia.
  - change (u "..") with [46; 46]. intros [= -> _]. lia.
  - constructor; [left|done]. unfold is_ascii_alphanumeric, is_ascii_lowercase.
    rewrite (proj2 (in_range_iff 97 122 c) Hc). by rewrite orb_true_r.
Qed.

Lemma show_Z_safe n : 0 <= n <= usize_max -> safe_segment (show_Z n).
Proof.
  intros Hn. destruct (show_Z_spec n Hn) as (Hne & _ & _).
  assert (Hall : Forall (fun c => 48 <= c <= 57) (show_Z n))
    by (apply Forall_forall; intros c Hc; by eapply show_Z_digit).
  unfold safe_segment. split_and!; [done|intros He; rewrite He in Hall..|].
  1,2: change (u "..") with [46; 46] in Hall; change (u ".") with [46] in Hall;
    apply Forall_inv in Hall; lia.
  eapply Forall_impl; [exact Hall|]. intros c Hc. left. unfold is_ascii_alphanumeric, is_ascii_digit.
  by rewrite (proj2 (in_range_iff 48 57 c) Hc).
Qed.

Lemma as_str_safe d : safe_segment (as_str d) /\ slen (as_str d) <= 64.
Proof.
  assert (Hd : match as_str d with
    | c :: w => in_range 97 122 c
        && forallb (fun c => is_ascii_alphanumeric c || contains_char c (u "*-._%")) w
        && (slen (c :: w) <=? 64)
    | [] => false
    end = true) by (destruct d; vm_compute; reflexivity).
  destruct (as_str d) as [|c w]; [done|]. bool_hyps.
  split; [|done]. apply safe_prefix; [by apply in_range_iff|].
  rewrite forallb_Forall in *. eapply Forall_impl; [eassumption|].
  intros x [?|?%contains_char_iff]%orb_true_iff; [by left|by right].
Qed.

Lemma snapshot_id_safe w : valid_snapshot_id w = true -> safe_segment w /\ slen w = 64.
Proof.
  unfold valid_snapshot_id. intros [Hl Hh]%andb_true_iff. apply Z.eqb_eq in Hl.
  rewrite forallb_bytes_ascii, forallb_Forall in Hh.
  2: { intros b [?%ascii_digit_bounds|?%in_range_iff]%orb_true_iff; lia. }
  assert (Hc : Forall (fun c => 48 <= c <= 57 \/ 97 <= c <= 102) w).
  { eapply Forall_impl; [exact Hh|]. intros c [?%ascii_digit_bounds|?%in_range_iff]%orb_true_iff; lia. }
  split; [|done]. unfold safe_segment. split_and!; [by intros ->..|].
  eapply Forall_impl; [exact Hc|]. intros c Hx. left. unfold is_ascii_alphanumeric.
  destruct Hx as [Hx|Hx]; [by rewrite (proj2 (ascii_digit_bounds c) Hx)|].
  unfold is_ascii_lowercase. rewrite (proj2 (in_range_iff 97 122 c)) by lia. by rewrite orb_true_r.
Qed.

Lemma section_segment_safe x : Forall scalar x -> safe_segment (u "s-" ++ escape x).
Proof.
  intros Hx. destruct (escape_spec x Hx) as (Hc & _ & _).
  change (u "s-" ++ escape x) with (115 :: 45 :: escape x). apply safe_prefix; [lia|].
  constructor; [right|done]. change (u "*-._%") with [42; 45; 46; 95; 37]. set_solver.
Qed.

Lemma segments_safe id :
  typed_id id -> citation_validate id = Ok tt -> Forall safe_segment (segments id).
Proof.
  intros Ht (Hj & Hp & Ho & Hs & _)%validate_inv. unfold segments. apply Forall_app. split.
  - repeat (apply Forall_cons; split); [|by eapply escape_identifier..| | | |constructor].
    + change (u "v1") with [118; 49]. apply safe_prefix, Forall_singleton; [lia|by left].
    + apply as_str_safe.
    + by eapply escape_identifier.
    + by apply snapshot_id_safe.
  - assert (Hw : Forall safe_segment [u "doc"; u "metadata"; u "section"; u "passage"]).
    { repeat (apply Forall_cons; split); [..|constructor]; apply (safe_prefix _ (_ :: _));
        (vm_compute; by split) || (repeat (apply Forall_cons; split); [by left..|constructor]). }
    rewrite !Forall_cons in Hw. destruct Hw as (? & ? & ? & ? & _).
    unfold typed_id in Ht. destruct (ci_projection id); cbn [projection_segments].
    1,4: by apply Forall_singleton.
    + repeat (apply Forall_cons; split); [done|by apply section_segment_safe|constructor].
    + destruct Ht as (? & ? & ?). repeat (apply Forall_cons; split);
        [done|by apply section_segment_safe|by apply show_Z_safe..|constructor].
Qed.

Lemma segments_split id :
  typed_id id -> citation_validate id = Ok tt ->
  split_char (ch "/") (intercalate (ch "/") (segments id)) = segments id.
Proof.
  intros Ht Hv. apply split_char_join; [done|].
  eapply Forall_impl; [by apply segments_safe|]. intros w (_ & _ & _ & Hw) Hin.
  rewrite Forall_forall in Hw. apply Hw in Hin as [Hin|Hin]; [by vm_compute in Hin|].
  change (u "*-._%") with [42; 45; 46; 95; 37] in Hin. change (ch "/") with 47 in Hin. set_solver.
Qed.

Lemma segments_length id :
  typed_id id -> citation_validate id = Ok tt -> slen (intercalate (ch "/") (segments id)) <= 2048.
Proof.
  intros Ht Hv. pose proof (slen_join (ch "/") (segments id)) as Hj.
  change (len_utf8 (ch "/")) with 1 in Hj.
  set (n := slen (intercalate (ch "/") (segments id))) in *. clearbody n.
  apply validate_inv in Hv as ((_ & ? & _)%valid_identifier_chars & (_ & ? & _)%valid_identifier_chars
    & (_ & ? & _)%valid_identifier_chars & [_ ?]%snapshot_id_safe & Hsec & _).
  pose proof (as_str_safe (oid_dataset (ci_object id))) as [_ ?].
  assert (Hx : forall x, Forall scalar x -> section_name_invalid x = false ->
    slen (u "s-" ++ escape x) <= 770).
  { intros x Hx Hi. unfold section_name_invalid in Hi. bool_hyps. rewrite slen_app.
    change (slen (u "s-")) with 2. destruct (escape_spec x Hx) as (_ & ? & _). lia. }
  unfold segments, typed_id in *. rewrite fmap_app, sum_Z_app, zlen_app in Hj.
  cbn [fmap list_fmap sum_Z] in Hj. change (slen (u "v1")) with 2 in Hj.
  match type of Hj with context [zlen (?a :: ?b)] => change (zlen (a :: b)) with 6 in Hj end.
  destruct (ci_projection id) as [|x|x a b|]; cbn [projection_segments fmap list_fmap sum_Z] in Hj;
    rewrite ?zlen_cons, ?zlen_nil in Hj; cbn [projection_section opt_test] in Hsec.
  - change (slen (u "doc")) with 3 in Hj. change (zlen (@nil str)) with 0 in Hj. lia.
  - change (slen (u "section")) with 7 in Hj. change (zlen (@nil str)) with 0 in Hj.
    specialize (Hx x Ht Hsec). lia.
  - change (slen (u "passage")) with 7 in Hj. change (zlen (@nil str)) with 0 in Hj.
    destruct Ht as (Hsc & Ha & Hb). specialize (Hx x Hsc Hsec).
    pose proof (slen_show_Z a Ha). pose proof (slen_show_Z b Hb). lia.
  - change (slen (u "metadata")) with 8 in Hj. change (zlen (@nil str)) with 0 in Hj. lia.
Qed.

Lemma decode_section_escape x : Forall scalar x -> decode_section (u "s-" ++ escape x) = Ok x.
Proof.
  intros Hx. unfold decode_section. rewrite strip_prefix_app. cbn [ok_or]. by apply escape_spec.
Qed.

Lemma decode_projection_segments id :
  typed_id id ->
  match projection_segments (ci_projection id) with
  | kind :: rest => decode_projection kind rest = Ok (ci_projection id)
  | [] => False
  end.
Proof.
  unfold typed_id. destruct (ci_projection id) as [|x|x a b|]; cbn [projection_segments]; try done.
  - intros Hx. unfold decode_projection. change (str_eqb (u "section") (u "section")) with true.
    cbv iota. by rewrite decode_section_escape.
  - intros (? & ? & ?). unfold decode_projection.
    change (str_eqb (u "passage") (u "passage")) with true. cbv iota.
    rewrite decode_section_escape by done. unfold parse_usize.
    by rewrite !parse_show_Z by (done || lia).
Qed.

Lemma decode_encoded id :
  typed_id id -> citation_validate id = Ok tt -> decode (intercalate (ch "/") (segments id)) = Ok id.
Proof.
  intros Ht Hv. pose proof (encode_segments id Hv) as He.
  unfold decode. rewrite (proj2 (Z.ltb_ge 2048 _)) by by apply segments_length.
  rewrite segments_split by done. pose proof Hv as (Hj & Hp & Ho & _)%validate_inv.
  unfold segments. cbn [app]. rewrite (proj2 (str_eqb_eq _ _) eq_refl). cbn [negb].
  destruct (escape_identifier _ _ Hj) as (Ej & Sj & _), (escape_identifier _ _ Hp) as (Ep & Sp & _),
    (escape_identifier _ _ Ho) as (Eo & So & _).
  assert (Hu : forall x, escape x = x -> Forall scalar x -> unescape x = Ok x)
    by (intros x Ex Sx; rewrite <- Ex at 1; by apply escape_spec).
  pose proof (decode_projection_segments id Ht) as Hd.
  destruct (projection_segments (ci_projection id)) as [|kind rest] eqn:Es; [done|].
  rewrite (Hu _ Ej Sj), (Hu _ Ep Sp), find_as_str_ALL, (Hu _ Eo So). cbn [ok_or]. rewrite Hd.
  assert (Hid : {| ci_object := {| oid_jurisdiction := oid_jurisdiction (ci_object id);
    oid_provider := oid_provider (ci_object id); oid_dataset := oid_dataset (ci_object id);
    oid_id := oid_id (ci_object id) |}; ci_capture_id := ci_capture_id id;
    ci_projection := ci_projection id |} = id) by (by destruct id as [[] ? ?]).
  rewrite Hid, He. rewrite (proj2 (str_eqb_eq _ _)); [done|].
  unfold segments. by rewrite Es.
Qed.

Lemma decode_encode s id : decode s = Ok id -> encode id = Ok s.
Proof.
  unfold decode. intros Hd. repeat match type of Hd with
    | (if ?b then _ else _) = Ok _ => destruct b eqn:?; [done|]
    | match ?m with _ => _ end = Ok _ => destruct m eqn:?; try done
    end.
  bool_hyps. injection Hd as <-. match goal with H : str_eqb _ _ = true |- _ => apply str_eqb_eq in H as <- end.
  done.
Qed.
End laws.

(** A concrete codec: forms of the one pair [v=...]. *)
Definition hex_value (c : char) : Z := if c <? 65 then c - 48 else c - 55.

Fixpoint percent_decode (l : list byte) : list byte :=
  match l with
  | [] => []
  | c :: l =>
    if c =? 37 then
      match l with a :: b :: l => hex_value a * 16 + hex_value b :: percent_decode l | _ => [] end
    else (if c =? 43 then 32 else c) :: percent_decode l
  end.

Definition sample_form : FormUrlencoded := {|
  byte_serialize l := l ≫= form_byte;
  form_parse l :=
    match l with
    | v :: e :: value => if (v =? 118) && (e =? 61)
        then [(u "v", default [] (from_utf8 (percent_decode value)))] else []
    | _ => []
    end;
|}.

Lemma hex_value_upper n : 0 <= n < 16 -> hex_value (hex_upper n) = n.
Proof.
  intros Hn. unfold hex_value, hex_upper. destruct (Z.ltb_spec n 10).
  - rewrite (proj2 (Z.ltb_lt _ _)) by lia. lia.
  - rewrite (proj2 (Z.ltb_ge _ _)) by lia. lia.
Qed.

Lemma percent_decode_byte b l :
  0 <= b < 256 -> percent_decode (percent_space (form_byte b) ++ l) = b :: percent_decode l.
Proof.
  intros Hb. unfold form_byte. destruct (_ || _) eqn:E; [|destruct (Z.eqb_spec b (ch " ")) as [->|Hs]].
  - assert (Hn : b <> 37 /\ b <> 43).
    { split; intros ->; by vm_compute in E. }
    unfold percent_space. simpl. change (ch "+") with 43.
    rewrite (proj2 (Z.eqb_neq b 43)) by lia. simpl.
    rewrite (proj2 (Z.eqb_neq b 37)) by lia. by rewrite (proj2 (Z.eqb_neq b 43)) by lia.
  - reflexivity.
  - destruct (hex_upper_char (b / 16)) as [_ N1]; [dlia|].
    destruct (hex_upper_char (b mod 16)) as [_ N2]; [dlia|].
    unfold percent_space. simpl. change (ch "+") with 43. change (ch "%") with 37.
    rewrite (proj2 (Z.eqb_neq _ 43) N1), (proj2 (Z.eqb_neq _ 43) N2). simpl.
    rewrite !hex_value_upper by dlia. f_equal. dlia.
Qed.

Lemma sample_laws : @FormLaws sample_form.
Proof.
  constructor; [done|]. intros s Hs. cbn [byte_serialize form_parse sample_form].
  assert (Hd : forall l, Forall (fun b => 0 <= b < 256) l ->
    Forall (fun c => 0 <= c < 128) (percent_space (l ≫= form_byte))
    /\ percent_decode (percent_space (l ≫= form_byte)) = l).
  { induction 1 as [|b l Hb _ [IH1 IH2]]; [done|].
    change ((b :: l) ≫= form_byte) with (form_byte b ++ (l ≫= form_byte)).
    rewrite percent_space_app, percent_decode_byte, IH2 by done. split; [|done].
    apply Forall_app. split; [|done]. destruct (percent_form_byte b Hb) as [Hp _].
    eapply Forall_impl; [exact Hp|]. intros c ?%path_char_ascii. lia. }
  destruct (Hd (bytes s) (bytes_range s Hs)) as [Ha Hdec].
  rewrite bytes_ascii.
  - change (u "v=" ++ percent_space (bytes s ≫= form_byte))
      with (118 :: 61 :: percent_space (bytes s ≫= form_byte)).
    cbn [Z.eqb Pos.eqb andb head]. by rewrite Hdec, from_utf8_bytes.
  - apply Forall_app. split; [|done]. change (u "v=") with [118; 61]. repeat constructor; lia.
Qed.

(** C11. A citation and its path determine each other: the path that [encode]
    writes is the only one that [decode] reads as this citation.  The path is
    short enough to be read back and safe inside a URL: every segment is
    non-empty, no dot segment, and consists of characters a URL keeps. *)
Theorem citation_identity `{FormUrlencoded, !FormLaws} id s :
  typed_id id ->
  (decode s = Ok id <-> encode id = Ok s)
  /\ (encode id = Ok s -> slen s <= 2048 /\ Forall safe_segment (split_char (ch "/") s)).
Proof.
  intros Ht. split; [split; [apply decode_encode|]|]; intros He;
    (assert (Hv : citation_validate id = Ok tt)
      by (unfold encode in He; by destruct (citation_validate id) as [[]|]));
    rewrite encode_segments in He by done;
    (assert (s = intercalate (ch "/") (segments id)) as -> by congruence).
  - by apply decode_encoded.
  - split; [by apply segments_length|]. rewrite segments_split by done. by apply segments_safe.
Qed.

Definition sample_object : ObjectId :=
  {| oid_jurisdiction := u "kr"; oid_provider := u "fictional"; oid_dataset := Precedent;
     oid_id := u "0001" |}.
Definition sample_capture_id : str := replicate 64 (ch "a").
Definition sample_citation : CitationId :=
  {| ci_object := sample_object; ci_capture_id := sample_capture_id;
     ci_projection := Passage (u "../조문 /?#+%") 0 12 |}.
Definition sample_path : str :=
  u "v1/kr/fictional/precedent/0001/" ++ sample_capture_id
    ++ u "/passage/s-..%2F%EC%A1%B0%EB%AC%B8%20%2F%3F%23%2B%25/0/12".

Lemma citation_identity_witness :
  @decode sample_form sample_path = Ok sample_citation
  /\ slen sample_path <= 2048 /\ Forall safe_segment (split_char (ch "/") sample_path).
Proof.
  destruct (@citation_identity sample_form sample_laws sample_citation sample_path) as [Hi Hs].
  { split; [|split; unfold usize_max; lia].
    change (u "../조문 /?#+%") with [46; 46; 47; 51312; 47928; 32; 47; 63; 35; 43; 37].
    repeat constructor; lia. }
  assert (He : @encode sample_form sample_citation = Ok sample_path) by (vm_compute; reflexivity).
  split; [apply Hi, He|apply Hs, He].
Defined.
