(* ===== verification/CitationTexts.v ===== *)
(** Correctness of the texts that citations stand for: the passages in which a
    long section is read, and the citation of a search hit. *)

From S2P Require Import Prelude Utf8 Strings Domain Legal Citation CitationFacts.

(** * Passages *)

(** The identifiers of pieces that follow one another from an offset. *)
Fixpoint piece_ids (object : ObjectId) (capture_id section : str) (start : Z) (ps : list str)
  : list CitationId :=
  match ps with
  | [] => []
  | p :: ps =>
    {| ci_object := object; ci_capture_id := capture_id;
       ci_projection := Passage section start (start + slen p) |}
      :: piece_ids object capture_id section (start + slen p) ps
  end.

(** Every piece is as long as the limit and the characters allow. *)
Fixpoint greedy (pre : str) (ps : list str) : Prop :=
  match ps with
  | [] => True
  | p :: rest =>
    let text := pre ++ concat ps in
    align_down 3 text (Z.min (slen pre + MAX_CITATION_TEXT_BYTES) (slen text))
      = @Ok (stop DatabaseError) _ (slen pre + slen p)
    /\ greedy (pre ++ p) rest
  end.

Section passages.
Context (object : ObjectId) (capture_id section : str).
Context (Hobject : object_validate object = Ok tt) (Hcapture : valid_snapshot_id capture_id = true)
  (Hsection : section_name_invalid section = false).

Definition cite (p : CitationProjection) : CitationId :=
  {| ci_object := object; ci_capture_id := capture_id; ci_projection := p |}.

Lemma passage_valid a b :
  a < b -> b - a <= MAX_CITATION_TEXT_BYTES -> b <= MAX_CITATION_RANGE ->
  citation_validate (cite (Passage section a b)) = Ok tt.
Proof.
  intros. unfold citation_validate. simpl. rewrite Hobject, Hcapture. simpl. unfold passage_invalid.
  rewrite (proj2 (Z.leb_gt b a)), (proj2 (Z.ltb_ge _ (b - a))), (proj2 (Z.ltb_ge _ b)) by lia.
  simpl. by rewrite Hsection.
Qed.

Lemma passages_spec fuel offset pre rest :
  (length rest <= fuel)%nat -> 0 <= offset -> offset + slen (pre ++ rest) <= MAX_CITATION_RANGE ->
  exists ps, passages fuel object capture_id section (pre ++ rest) offset (slen pre)
      = Ok (piece_ids object capture_id section (offset + slen pre) ps)
    /\ concat ps = rest /\ greedy pre ps
    /\ Forall (fun p => p <> [] /\ slen p <= MAX_CITATION_TEXT_BYTES) ps.
Proof.
  revert pre rest. induction fuel as [|fuel IH]; intros pre rest Hf Ho Hr; cbn [passages];
    rewrite slen_app in *; destruct (Z.ltb_spec (slen pre) (slen pre + slen rest)) as [Hlt|Hge].
  1,2: destruct rest; simpl in *; try lia; exists []; by repeat split.
  2: { exists []. assert (rest = []) as -> by (apply slen_zero; pose proof (slen_nonneg rest); lia).
       by repeat split. }
  destruct (align_piece (E:=DatabaseError) MAX_CITATION_TEXT_BYTES pre rest ltac:(done))
    as (m & b & -> & Hm & Hlen & Hb & Hal & _).
  specialize (Hm ltac:(intros Hn; rewrite Hn in Hlt; simpl in Hlt; lia)).
  assert (0 < slen m) by (destruct m; [done|apply slen_cons_pos]).
  pose proof (slen_nonneg pre). pose proof (slen_nonneg b). rewrite slen_app in Hr.
  rewrite <- slen_app, Hal. unfold checked_add.
  assert (MAX_CITATION_RANGE <= usize_max) by done.
  rewrite !(proj2 (Z.leb_le _ usize_max)) by lia. cbn [ok_or].
  fold (cite (Passage section (offset + slen pre) (offset + (slen pre + slen m)))).
  rewrite passage_valid by lia.
  destruct (IH (pre ++ m) b) as (ps & Hps & Hc & Hg & Hall);
    [rewrite length_app in Hf; destruct m; simpl in *; [done|lia]|done|rewrite !slen_app; lia|].
  rewrite <- app_assoc, slen_app in Hps. rewrite Hps. exists (m :: ps). split_and!.
  - cbn [piece_ids]. unfold cite. by rewrite !Z.add_assoc.
  - simpl. by rewrite Hc.
  - cbn [greedy]. split; [|done]. simpl. by rewrite Hc.
  - by constructor.
Qed.
End passages.

Lemma greedy_app pre qs ps : greedy pre (qs ++ ps) -> greedy (pre ++ concat qs) ps.
Proof.
  revert pre. induction qs as [|q qs IH]; intros pre Hg; simpl; [by rewrite app_nil_r|].
  destruct Hg as [_ Hg]. rewrite app_assoc. by apply IH.
Qed.

Lemma piece_ids_app o c sec start qs ps :
  piece_ids o c sec start (qs ++ ps)
  = piece_ids o c sec start qs ++ piece_ids o c sec (start + slen (concat qs)) ps.
Proof.
  revert start. induction qs as [|q qs IH]; intros start; simpl; [by rewrite Z.add_0_r|].
  by rewrite IH, slen_app, Z.add_assoc.
Qed.

Lemma length_piece_ids o c sec start ps : length (piece_ids o c sec start ps) = length ps.
Proof. revert start. induction ps; intros start; simpl; by f_equal. Qed.

Section adjacent.
Context (capture : Capture) (section text : str).
Let object := lr_object (cp_record capture).
Let capture_id := cp_capture_id capture.
Context (Hobject : object_validate object = Ok tt) (Hcapture : valid_snapshot_id capture_id = true)
  (Hsection : section_name_invalid section = false)
  (Htext : section_text capture section = Ok text) (Hlen : slen text <= MAX_CITATION_RANGE).

Lemma project_passage a m b :
  text = a ++ m ++ b -> m <> [] -> slen m <= MAX_CITATION_TEXT_BYTES ->
  project_text capture (cite object capture_id (Passage section (slen a) (slen a + slen m))) = Ok m.
Proof.
  intros Ht Hm Hl. unfold project_text.
  assert (0 < slen m) by (destruct m; [done|apply slen_cons_pos]).
  pose proof (slen_nonneg a). pose proof (slen_nonneg b).
  assert (slen text = slen a + (slen m + slen b)) by (by rewrite Ht, !slen_app).
  rewrite passage_valid by (done || lia). simpl.
  rewrite bool_decide_true by done. rewrite (proj2 (str_eqb_eq _ _) eq_refl). simpl.
  rewrite Htext, Ht, str_range_app. simpl. by rewrite (proj2 (Z.ltb_ge _ (slen m))).
Qed.

(** The page before a passage ends where the passage starts. *)
Definition page_before (pre : str) (previous : option CitationId) : Prop :=
  match previous with
  | None => pre = []
  | Some id => exists t m, pre = t ++ m /\ m <> [] /\ project_text capture id = Ok m
  end.

Lemma previous_spec pre rest :
  text = pre ++ rest ->
  exists previous,
    (if 0 <? slen pre then
       let? before := align_up 3 text (saturating_sub (slen pre) MAX_CITATION_TEXT_BYTES) in
       Ok (Some (cite object capture_id (Passage section before (slen pre))))
     else Ok None) = @Ok (stop DatabaseError) _ previous
    /\ page_before pre previous.
Proof.
  intros Ht. destruct (Z.ltb_spec 0 (slen pre)) as [Hpos|Hz].
  2: { exists None. split; [done|]. apply slen_zero. pose proof (slen_nonneg pre). lia. }
  set (e := saturating_sub (slen pre) MAX_CITATION_TEXT_BYTES).
  assert (He : e = Z.max (slen pre - 8192) 0) by done.
  assert (Htl : slen text = slen pre + slen rest) by (by rewrite Ht, slen_app).
  pose proof (slen_nonneg rest).
  assert (exists a0 b0, text = a0 ++ b0 /\ e <= slen a0 <= e + Z.of_nat 3 /\ slen a0 < slen pre)
    as (a0 & b0 & Ha0 & Hr0 & Hlt).
  { destruct (Z.eq_dec e 0) as [->|].
    - exists [], text. simpl. split; [done|lia].
    - destruct (boundary_above text e) as (a & b & ? & ?); [lia|]. exists a, b. split; [done|lia]. }
  destruct (align_up_spec (E:=DatabaseError) 3 text e a0 b0 Ha0 Hr0) as (a & b & Hal & Hab & Hle).
  rewrite Hal. eexists. split; [reflexivity|].
  assert (exists m, pre = a ++ m /\ b = m ++ rest) as (m & Hpm & Hb).
  { apply (app_eq_prefix a pre b rest); [by rewrite <- Hab|lia]. }
  exists a, m. assert (Hs : slen pre = slen a + slen m) by (by rewrite Hpm, slen_app).
  split_and!; [done|by intros ->; simpl in Hs; lia|]. rewrite Hs.
  eapply project_passage; [by rewrite Hab, Hb|intros ->; simpl in Hs; lia|].
  unfold MAX_CITATION_TEXT_BYTES. lia.
Qed.

Lemma adjacent_spec pre p ps :
  text = pre ++ p ++ concat ps -> greedy (pre ++ p) ps -> Forall (fun q => q <> []) ps ->
  exists previous,
    adjacent_ids capture (cite object capture_id (Passage section (slen pre) (slen pre + slen p)))
      = Ok (previous, head (piece_ids object capture_id section (slen pre + slen p) ps))
    /\ page_before pre previous.
Proof.
  intros Ht Hg Hne. destruct (previous_spec pre (p ++ concat ps) Ht) as (previous & Hp & Hb).
  exists previous. split; [|done]. unfold adjacent_ids. cbn [cite ci_projection]. rewrite Htext.
  unfold cite, with_projection in *. cbn [ci_object ci_capture_id] in *. rewrite Hp.
  assert (Hl : slen text = slen pre + slen p + slen (concat ps)) by (rewrite Ht, !slen_app; lia).
  destruct ps as [|q qs].
  - simpl in Hl. rewrite (proj2 (Z.ltb_ge _ (slen text))) by lia. done.
  - apply Forall_cons in Hne as [Hq _]. destruct Hg as [Hal _].
    assert (0 < slen q) by (destruct q; [done|apply slen_cons_pos]).
    pose proof (slen_nonneg (concat qs)). pose proof (slen_nonneg pre). pose proof (slen_nonneg p).
    simpl in Hl. rewrite slen_app in Hl. rewrite (proj2 (Z.ltb_lt _ (slen text))) by lia.
    rewrite <- app_assoc, <- Ht in Hal. rewrite slen_app in Hal.
    assert (saturating_add (slen pre + slen p) MAX_CITATION_TEXT_BYTES
      = slen pre + slen p + MAX_CITATION_TEXT_BYTES) as ->.
    { unfold saturating_add, usize_max, MAX_CITATION_RANGE, MAX_CITATION_TEXT_BYTES in *. lia. }
    rewrite Hal. done.
Qed.
End adjacent.

(** A section of a capture is read in passages: cutting it always ends, each
    passage is a valid citation whose text is non-empty and at most 8192 bytes,
    and the texts of the passages together are the section.  The link to the
    next page leads from each passage to the following one, and the link to the
    previous page to the text that ends where the passage starts. *)
Theorem passages_partition capture section text :
  let object := lr_object (cp_record capture) in
  let capture_id := cp_capture_id capture in
  object_validate object = Ok tt -> valid_snapshot_id capture_id = true ->
  section_name_invalid section = false ->
  section_text capture section = Ok text -> slen text <= MAX_CITATION_RANGE ->
  exists ids pieces,
    passage_ids object capture_id section text 0 = Ok ids
    /\ Forall2 (fun id piece => project_text capture id = Ok piece) ids pieces
    /\ concat pieces = text
    /\ Forall (fun p => p <> [] /\ slen p <= MAX_CITATION_TEXT_BYTES) pieces
    /\ forall i id, ids !! i = Some id ->
         exists previous, adjacent_ids capture id = Ok (previous, ids !! S i)
           /\ page_before capture (concat (take i pieces)) previous.
Proof.
  intros object capture_id Ho Hc Hs Ht Hl.
  destruct (passages_spec object capture_id section Ho Hc Hs (length text) 0 [] text)
    as (ps & Hps & Hcat & Hg & Hall); [lia|lia|done|].
  change (0 + slen []) with 0 in Hps.
  exists (piece_ids object capture_id section 0 ps), ps.
  assert (Hi : forall i p, ps !! i = Some p ->
    piece_ids object capture_id section 0 ps
    = piece_ids object capture_id section 0 (take i ps)
      ++ cite object capture_id (Passage section (slen (concat (take i ps)))
           (slen (concat (take i ps)) + slen p))
      :: piece_ids object capture_id section (slen (concat (take i ps)) + slen p) (drop (S i) ps)
    /\ text = concat (take i ps) ++ p ++ concat (drop (S i) ps)).
  { intros i p Hp. pose proof (take_drop_middle _ _ _ Hp) as Hsplit. split.
    - rewrite <- Hsplit at 1. rewrite piece_ids_app. by rewrite Z.add_0_l.
    - rewrite <- Hcat, <- Hsplit at 1. by rewrite concat_app. }
  split_and!; [done| |done|done|].
  - apply Forall2_same_length_lookup_2; [apply length_piece_ids|]. intros i id p Hid Hp.
    destruct (Hi i p Hp) as [Heq Htext]. rewrite Heq, lookup_app_r in Hid;
      rewrite length_piece_ids, length_take_le in *; try (apply lookup_lt_Some in Hp; lia).
    rewrite Nat.sub_diag in Hid. injection Hid as <-.
    apply Forall_lookup_1 with (x := p) (i := i) in Hall as [Hne Hle]; [|done].
    by eapply project_passage.
  - intros i id Hid.
    assert (Hlt : (i < length ps)%nat) by (apply lookup_lt_Some in Hid; by rewrite length_piece_ids in Hid).
    destruct (lookup_lt_is_Some_2 ps i Hlt) as [p Hp].
    destruct (Hi i p Hp) as [Heq Htext].
    assert (Hlen : length (piece_ids object capture_id section 0 (take i ps)) = i)
      by (rewrite length_piece_ids, length_take_le; lia).
    rewrite Heq in Hid |- *. rewrite lookup_app_r in Hid |- * by lia. rewrite Hlen in *.
    rewrite Nat.sub_diag in Hid. injection Hid as <-.
    replace (S i - i)%nat with 1%nat by lia.
    destruct (adjacent_spec capture section text Ho Hc Hs Ht Hl (concat (take i ps)) p (drop (S i) ps))
      as (previous & Hadj & Hprev); [done|..].
    + rewrite <- (take_drop_middle _ _ _ Hp) in Hg. by apply greedy_app in Hg as [_ Hg].
    + apply Forall_drop. eapply Forall_impl; [exact Hall|]. by intros ? [? _].
    + exists previous. split; [|done]. etrans; [exact Hadj|]. do 2 f_equal. by destruct (piece_ids _ _ _ _ (drop _ _)).
Qed.

Definition sample_law (sections : list LegalSection) (body : str) : Capture :=
  {| cp_capture_id := sample_capture_id;
     cp_record := {| lr_object := sample_object; lr_revision_id := u "r1"; lr_title := u "Fictional law";
                     lr_body := body; lr_metadata := ∅; lr_publication_date := None;
                     lr_effective_date := None; lr_source_url := u "https://example.test/fictional";
                     lr_representation := u "fictional"; lr_sections := sections |} |}.

(** A body of 12000 bytes. *)
Definition sample_body : str := concat (replicate 1000 (u "가나다" ++ [10; 32; 97])).

Lemma passages_partition_witness :
  slen sample_body = 12000 /\
  exists ids pieces,
    passage_ids sample_object sample_capture_id (u "body") sample_body 0 = Ok ids
    /\ Forall2 (fun id piece => project_text (sample_law [] sample_body) id = Ok piece) ids pieces
    /\ concat pieces = sample_body.
Proof.
  assert (Hl : slen sample_body = 12000) by (vm_compute; reflexivity). split; [exact Hl|].
  assert (Ho : object_validate sample_object = Ok tt) by (vm_compute; reflexivity).
  assert (Hc : valid_snapshot_id sample_capture_id = true) by (vm_compute; reflexivity).
  destruct (passages_partition (sample_law [] sample_body) (u "body") sample_body Ho Hc)
    as (ids & pieces & H1 & H2 & H3 & _); [reflexivity|reflexivity|rewrite Hl; by vm_compute|].
  exists ids, pieces. split_and!; assumption.
Defined.

(** * Search hits *)

Lemma match_indices_sound p s off skip i :
  i ∈ match_indices_from off skip p s -> exists x y, s = x ++ p ++ y /\ off + slen x = i.
Proof.
  revert off skip. induction s as [|c s IH]; intros off skip; cbn [match_indices_from];
    [by intros ?%elem_of_nil|].
  assert (Htail : forall skip', i ∈ match_indices_from (off + len_utf8 c) skip' p s ->
    exists x y, c :: s = x ++ p ++ y /\ off + slen x = i).
  { intros skip' (x & y & -> & <-)%IH. exists (c :: x), y. simpl. split; [done|lia]. }
  destruct skip as [|skip]; [|apply Htail]. destruct (starts_with p (c :: s)) eqn:E; [|apply Htail].
  intros [->|Hi]%elem_of_cons; [|by eapply Htail].
  apply starts_with_iff in E as [y Hy]. exists [], y. simpl. split; [done|lia].
Qed.

(** A span of a text that lies inside an occurrence is part of what occurs. *)
Lemma span_inside text a t b x p y :
  text = a ++ t ++ b -> text = x ++ p ++ y -> slen x <= slen a -> slen a + slen t <= slen x + slen p ->
  exists l r, p = l ++ t ++ r.
Proof.
  intros H1 H2 Hl Hr. destruct (app_eq_prefix x a (p ++ y) (t ++ b)) as (m & -> & Hm); [congruence|done|].
  rewrite slen_app in Hr. destruct (app_eq_prefix (m ++ t) p b y) as (r & -> & _);
    [by rewrite <- app_assoc|rewrite slen_app; lia|].
  exists m, r. by rewrite <- app_assoc.
Qed.

Lemma passage_around_spec section text hit a t b :
  text = a ++ t ++ b -> t <> [] -> sh_byte_start hit = slen a -> sh_byte_end hit = slen a + slen t ->
  slen t <= MAX_CITATION_TEXT_BYTES -> slen text <= MAX_CITATION_RANGE ->
  exists a1 a2 b1 b2,
    passage_around section text hit
      = Ok (Passage section (slen a1) (slen a1 + slen (a2 ++ t ++ b1)))
    /\ a = a1 ++ a2 /\ b = b1 ++ b2 /\ slen (a2 ++ t ++ b1) <= MAX_CITATION_TEXT_BYTES.
Proof.
  intros Ht Hne Hs He Hlen Hr. unfold passage_around. rewrite Hs, He.
  assert (Hl : slen text = slen a + (slen t + slen b)) by (by rewrite Ht, !slen_app).
  assert (0 < slen t) by (destruct t; [done|apply slen_cons_pos]).
  pose proof (slen_nonneg a). pose proof (slen_nonneg b).
  replace (slen a + slen t - slen a) with (slen t) by lia. rewrite (proj2 (Z.ltb_ge _ (slen t))) by lia.
  set (lead := saturating_sub MAX_CITATION_TEXT_BYTES (slen t) / 2).
  assert (Hlead : 0 <= lead /\ 2 * lead <= 8192 - slen t).
  { unfold lead, saturating_sub, MAX_CITATION_TEXT_BYTES in *. dlia. }
  set (e := saturating_sub (slen a) lead). assert (Hee : e = Z.max (slen a - lead) 0) by done.
  clearbody lead. clearbody e.
  assert (exists a0 b0, text = a0 ++ b0 /\ e <= slen a0 <= e + Z.of_nat 3 /\ slen a0 <= slen a)
    as (a0 & b0 & Ha0 & Hr0 & Hle0).
  { destruct (Z_le_gt_dec (slen a) (e + 3)); [exists a, (t ++ b); split; [done|lia]|].
    destruct (boundary_above text e) as (x & y & ? & ?); [lia|]. exists x, y. split; [done|lia]. }
  destruct (align_up_spec (E:=DatabaseError) 3 text e a0 b0 Ha0 Hr0) as (a1 & y1 & -> & Hy1 & Hb1).
  destruct (app_eq_prefix a1 a y1 (t ++ b)) as (a2 & Ha & Hy); [congruence|lia|].
  set (E := Z.min (saturating_add (slen a1) MAX_CITATION_TEXT_BYTES) (slen text)).
  assert (HE : E = Z.min (slen a1 + 8192) (slen text)).
  { unfold E, saturating_add, usize_max, MAX_CITATION_TEXT_BYTES, MAX_CITATION_RANGE in *. lia. }
  clearbody E.
  assert (exists x y, text = x ++ y /\ E - Z.of_nat 3 <= slen x <= E /\ slen a + slen t <= slen x)
    as (x & y & Hx & Hxe & Hxt).
  { destruct (Z_le_gt_dec (E - 3) (slen a + slen t)).
    - exists (a ++ t), b. rewrite slen_app, <- app_assoc. split; [done|lia].
    - destruct (boundary_near text E) as (x & y & ? & ?); [lia|]. exists x, y. split; [done|lia]. }
  destruct (align_down_spec (E:=DatabaseError) 3 text E x y Hx Hxe) as (z & b2 & -> & Hz & Hzb).
  destruct (app_eq_prefix (a ++ t) z b b2) as (b1 & Hz1 & Hb);
    [rewrite <- app_assoc; congruence|rewrite slen_app; lia|].
  exists a1, a2, b1, b2. assert (Hzl : slen z = slen a1 + slen (a2 ++ t ++ b1)).
  { rewrite Hz1, Ha, !slen_app. lia. }
  rewrite Hzl. split_and!; [done|done|done|unfold MAX_CITATION_TEXT_BYTES; lia].
Qed.

(** What a validated record guarantees to its citations. *)
Record record_bounds (rec : LegalRecord) : Prop := {
  rb_object : object_validate (lr_object rec) = Ok tt;
  rb_distinct : NoDup (sec_id <$> lr_sections rec);
  rb_sections : Forall (fun s => section_invalid s = false) (lr_sections rec);
  rb_title : slen (lr_title rec) <= 16384;
  rb_body : slen (lr_body rec) <= 16 * MiB;
  rb_metadata : forall k v, lr_metadata rec !! k = Some v -> slen v <= 65536;
}.

Lemma existsb_false {A} (p : A -> bool) l : existsb p l = false -> Forall (fun x => p x = false) l.
Proof. induction l; simpl; [constructor|]. intros [? ?]%orb_false_iff. constructor; auto. Qed.

Lemma record_validate_bounds `{LegalCodecs} rec : record_validate rec = Ok tt -> record_bounds rec.
Proof.
  unfold record_validate. intros Hv.
  destruct (object_validate (lr_object rec)) as [[]|] eqn:Eo; [|done].
  destruct (selector_validate _); [|done]. destruct (check_original_resources rec); [|done].
  match type of Hv with (if ?b then _ else _) = _ => destruct b; [done|] end.
  destruct (url_parse _); [|done]. cbn [ok_or] in Hv.
  do 2 match type of Hv with (if ?b then _ else _) = _ => destruct b eqn:?; [done|] end.
  bool_hyps. constructor; try done.
  - by apply all_distinct_NoDup.
  - by apply existsb_false.
  - intros k v Hk. match goal with H : existsb _ (map_to_list _) = false |- _ => apply existsb_false in H as He end.
    rewrite Forall_forall in He. specialize (He (k, v) (proj2 (elem_of_map_to_list _ _ _) Hk)).
    simpl in He. by bool_hyps.
Qed.

Lemma find_first_id sections s :
  NoDup (sec_id <$> sections) -> s ∈ sections ->
  List.find (fun x => str_eqb (sec_id x) (sec_id s)) sections = Some s.
Proof.
  induction sections as [|x sections IH]; [by intros _ ?%not_elem_of_nil|].
  rewrite fmap_cons. intros [Hx Hn]%NoDup_cons Hs. cbn [List.find].
  destruct (str_eqb (sec_id x) (sec_id s)) eqn:E.
  - apply str_eqb_eq in E. apply elem_of_cons in Hs as [->|Hs]; [done|].
    exfalso. apply Hx. rewrite E. by apply list_elem_of_fmap_2.
  - apply elem_of_cons in Hs as [->|Hs]; [|by apply IH].
    by rewrite (proj2 (str_eqb_eq _ _) eq_refl) in E.
Qed.

Section hits.
Context (capture : Capture).
#[local] Abbreviation rec := (cp_record capture).
Context (Hrec : record_bounds rec) (Hcapture : valid_snapshot_id (cp_capture_id capture) = true).

Lemma section_text_bound section text :
  section_text capture section = Ok text -> slen text <= MAX_CITATION_RANGE.
Proof.
  destruct Hrec as [_ _ Hs Ht Hb Hm]. unfold section_text, MAX_CITATION_RANGE, MiB in *.
  destruct (str_eqb section (u "body")); [intros [= <-]; lia|].
  destruct (str_eqb section (u "title")); [intros [= <-]; lia|].
  destruct (str_eqb section (u "case_number")).
  - destruct (lr_metadata rec !! _) as [v|] eqn:E; [|done]. intros [= <-]. apply Hm in E. lia.
  - destruct (List.find _ _) as [s|] eqn:E; [|done]. intros [= <-]. apply List.find_some in E as [Hin _].
    rewrite Forall_forall in Hs. apply list_elem_of_In, Hs in Hin.
    unfold section_invalid, MiB in Hin. bool_hyps. lia.
Qed.

(** A validated source article is found under its own identifier. *)
Lemma article_text s :
  s ∈ lr_sections rec -> citable_article s = true -> section_text capture (sec_id s) = Ok (sec_text s).
Proof.
  intros Hin Hc. unfold citable_article in Hc. bool_hyps. unfold section_text.
  match goal with H : starts_with _ _ = true |- _ => apply starts_with_iff in H as [t Ht] end.
  assert (Hne : forall w, str_eqb (u "article:") (take 8 w) = false -> str_eqb (sec_id s) w = false).
  { intros w Hw. apply not_true_iff_false. intros <-%str_eqb_eq. rewrite Ht in Hw.
    change (u "article:") with [97;114;116;105;99;108;101;58] in Hw. by rewrite (proj2 (str_eqb_eq _ _)) in Hw. }
  rewrite !Hne by (vm_compute; reflexivity). by rewrite find_first_id by (done || apply Hrec).
Qed.

#[local] Abbreviation object := (lr_object rec).
#[local] Abbreviation capture_id := (cp_capture_id capture).

Lemma valid_by_name p :
  opt_test section_name_invalid (projection_section p) = false ->
  match p with Passage _ a b => passage_invalid a b = false | _ => True end ->
  citation_validate (cite object capture_id p) = Ok tt.
Proof.
  intros Hn Hp. unfold citation_validate. simpl. rewrite (rb_object _ Hrec), Hcapture. simpl.
  destruct p; simpl in *; rewrite ?Hp; simpl; by rewrite ?Hn.
Qed.

(** The text a projection stands for. *)
Definition projected (p : CitationProjection) (text : str) : Prop :=
  match p with
  | Document => lr_body rec = text
  | Metadata => False
  | Section_ section => section_text capture section = Ok text
  | Passage section start end_ => passage_invalid start end_ = false
      /\ exists whole, section_text capture section = Ok whole /\ str_range whole start end_ = Some text
  end.

Lemma project_projected p text :
  projected p text -> slen text <= MAX_CITATION_TEXT_BYTES ->
  citation_validate (cite object capture_id p) = Ok tt ->
  project_text capture (cite object capture_id p) = Ok text.
Proof.
  intros Hp Hl Hv. unfold project_text. rewrite Hv. cbn [cite ci_object ci_capture_id ci_projection].
  rewrite bool_decide_true, (proj2 (str_eqb_eq _ _) eq_refl) by done. cbn [negb orb].
  assert (match p with
    | Document => Ok (lr_body (cp_record capture))
    | Section_ section => section_text capture section
    | Passage section start end_ =>
      let? text := section_text capture section in ok_or (str_range text start end_) InvalidInput
    | Metadata => Err RevisionUnavailable
    end = Ok text) as ->.
  { destruct p; simpl in Hp; [by rewrite <- Hp|done| |done]. destruct Hp as (_ & whole & -> & ->). done. }
  by rewrite (proj2 (Z.ltb_ge _ (slen text))).
Qed.

(** The projection of a hit whose excerpt stands where the hit says. *)
Lemma hit_projection_spec hit section text a b :
  section_text capture section = Ok text -> text = a ++ sh_text hit ++ b -> sh_text hit <> [] ->
  sh_byte_start hit = slen a -> sh_byte_end hit = slen a + slen (sh_text hit) ->
  (hit_projection capture hit section text = Err (Error Capacity)
    /\ MAX_CITATION_TEXT_BYTES < slen (sh_text hit))
  \/ exists p cited l r, hit_projection capture hit section text = Ok p /\ projected p cited
    /\ cited = l ++ sh_text hit ++ r /\ slen cited <= MAX_CITATION_TEXT_BYTES
    /\ (forall s, projection_section p = Some s -> s = section \/ s ∈ sec_id <$> lr_sections rec).
Proof.
  intros Hst Ht Hne Hs He. unfold hit_projection.
  destruct (_ && _) eqn:Ed.
  { bool_hyps. right. exists Document, text, a, b.
    match goal with H : str_eqb section _ = true |- _ => apply str_eqb_eq in H as -> end.
    unfold section_text in Hst. rewrite (proj2 (str_eqb_eq _ _) eq_refl) in Hst.
    injection Hst as <-. split_and!; done. }
  destruct (Z.leb_spec (slen text) MAX_CITATION_TEXT_BYTES).
  { right. exists (Section_ section), text, a, b. split_and!; try done. intros s [= ->]. by left. }
  set (article := if str_eqb section (u "body") then _ else _).
  destruct article as [s|] eqn:Ea; unfold article in Ea.
  - destruct (str_eqb section (u "body")); [|done]. apply List.find_some in Ea as [Hin Hh].
    apply List.filter_In in Hin as [Hin%list_elem_of_In Hc].
    unfold holds_excerpt in Hh. destruct (match_indices (sec_text s) text) as [|i [|? ?]] eqn:Em; try done.
    bool_hyps. assert (Hi : i ∈ match_indices (sec_text s) text) by (rewrite Em; by left).
    apply match_indices_sound in Hi as (x & y & Hx & <-).
    destruct (span_inside text a (sh_text hit) b x (sec_text s) y) as (l & r & Hlr); [done|done|lia|lia|].
    right. exists (Section_ (sec_id s)), (sec_text s), l, r. split_and!; try done.
    + by apply article_text.
    + unfold citable_article in Hc. by bool_hyps.
    + intros s' [= <-]. right. by apply list_elem_of_fmap_2.
  - destruct (Z_le_gt_dec (slen (sh_text hit)) MAX_CITATION_TEXT_BYTES) as [Hle|Hgt].
    2: { left. split; [|lia]. unfold passage_around. rewrite Hs, He.
         by rewrite (proj2 (Z.ltb_lt _ _)) by lia. }
    pose proof (section_text_bound section text Hst) as Hr.
    destruct (passage_around_spec section text hit a (sh_text hit) b Ht Hne Hs He Hle Hr)
      as (a1 & a2 & b1 & b2 & Hp & Ha & Hb & Hlen).
    right. exists (Passage section (slen a1) (slen a1 + slen (a2 ++ sh_text hit ++ b1))),
      (a2 ++ sh_text hit ++ b1), a2, b1. split_and!; try done; [|intros s [= ->]; by left].
    assert (Hpos : 0 < slen (a2 ++ sh_text hit ++ b1)).
    { destruct (sh_text hit); [done|]. rewrite !slen_app. simpl.
      match goal with |- context [len_utf8 ?c + slen ?s] => pose proof (slen_cons_pos c s) as Hc; simpl in Hc end.
      pose proof (slen_nonneg a2). pose proof (slen_nonneg b1). lia. }
    assert (Hwhole : text = a1 ++ (a2 ++ sh_text hit ++ b1) ++ b2).
    { rewrite Ht, Ha, Hb, <- !app_assoc. done. }
    split.
    + assert (slen text = slen a1 + (slen (a2 ++ sh_text hit ++ b1) + slen b2))
        by (by rewrite Hwhole, !slen_app).
      pose proof (slen_nonneg b2). unfold passage_invalid. rewrite !orb_false_iff.
      split_and!; [apply Z.leb_gt|apply Z.ltb_ge..]; lia.
    + exists text. split; [done|]. rewrite Hwhole. apply str_range_app.
Qed.

(** The hit belongs to the capture and its excerpt stands where it says. *)
Definition genuine_hit (hit : SearchHit) (text : str) : Prop :=
  sh_object hit = object /\ sh_capture_id hit = capture_id /\ sh_revision_id hit = lr_revision_id rec
  /\ section_text capture (sh_excerpt_section hit) = Ok text
  /\ sh_byte_start hit < sh_byte_end hit
  /\ str_range text (sh_byte_start hit) (sh_byte_end hit) = Some (sh_text hit).

Lemma projection_for_hit_genuine hit :
  (exists text, genuine_hit hit text /\ projection_for_hit capture hit =
    let? p := hit_projection capture hit (sh_excerpt_section hit) text in
    match citation_validate (cite object capture_id p) with
    | Err e => Err (Error e)
    | Ok _ => Ok (cite object capture_id p)
    end)
  \/ ((forall text, ~ genuine_hit hit text) /\ exists e, projection_for_hit capture hit = Err (Error e)).
Proof.
  unfold projection_for_hit, genuine_hit.
  destruct (_ || _) eqn:Em.
  { right. split; [|eauto]. intros text (Ho & Hc & Hr & _). rewrite Ho, Hc, Hr in Em.
    by rewrite bool_decide_true, !(proj2 (str_eqb_eq _ _) eq_refl) in Em. }
  bool_hyps. repeat match goal with H : str_eqb _ _ = true |- _ => apply str_eqb_eq in H end.
  destruct (section_text capture _) as [text|e] eqn:Et; [|right; split; [by intros ? (_ & _ & _ & ? & _)|eauto]].
  destruct (_ || _) eqn:Es.
  { right. split; [|eauto]. intros text' (_ & _ & _ & [= <-] & Hlt & Hsome).
    rewrite (proj2 (Z.leb_gt _ _)), bool_decide_true in Es by done. done. }
  bool_hyps. left. exists text. split; [by split_and!|].
  destruct (hit_projection _ _ _ _); [|done]. unfold cite.
  by repeat match goal with
    | H : _ = sh_object hit |- _ => rewrite <- H
    | H : _ = sh_capture_id hit |- _ => rewrite <- H
    end.
Qed.
End hits.

(** C12. A search hit is cited by text that contains its excerpt: when
    [projection_for_hit] answers with a citation, that citation is valid and
    stands for at most 8192 bytes of the same capture which contain the excerpt
    of the hit.  It never panics, and a hit that belongs to the capture is
    refused only when its excerpt is longer than the limit or a section has a
    name that no citation accepts. *)
Theorem hit_cited `{LegalCodecs} capture hit :
  record_validate (cp_record capture) = Ok tt ->
  valid_snapshot_id (cp_capture_id capture) = true ->
  answers (projection_for_hit capture hit)
  /\ (forall id, projection_for_hit capture hit = Ok id ->
       exists text a b, project_text capture id = Ok text /\ text = a ++ sh_text hit ++ b
         /\ slen text <= MAX_CITATION_TEXT_BYTES)
  /\ (forall text, genuine_hit capture hit text -> slen (sh_text hit) <= MAX_CITATION_TEXT_BYTES ->
       section_name_invalid (sh_excerpt_section hit) = false ->
       Forall (fun s => section_name_invalid (sec_id s) = false) (lr_sections (cp_record capture)) ->
       exists id, projection_for_hit capture hit = Ok id).
Proof.
  intros Hrec%record_validate_bounds Hcap.
  destruct (projection_for_hit_genuine capture hit) as [(text & Hg & Hp)|[Hn [e He]]].
  2: { rewrite He. split_and!; [done|done|]. intros text Hg. by apply Hn in Hg. }
  rewrite Hp. pose proof Hg as (_ & _ & _ & Hst & Hlt & Hr).
  apply str_range_Some in Hr as (a & b & Ht & Ha & Hb).
  destruct (hit_projection_spec capture Hrec hit (sh_excerpt_section hit) text a b)
    as [[-> Hcapacity]|(p & cited & l & r & -> & Hpr & Hc & Hl & Hnames)]; try done; try lia.
  { intros Hnil. rewrite Hnil in Hb. simpl in Hb. lia. }
  { split_and!; [done|done|]. intros; lia. }
  set (id := cite _ _ p). destruct (citation_validate id) as [[]|e] eqn:Ev.
  - split_and!; [done| |eauto]. intros id' [= <-]. exists cited, l, r. split_and!; try done.
    by apply project_projected.
  - split_and!; [done|done|]. intros _ _ _ Hsec Hall. exfalso.
    assert (citation_validate id = Ok tt); [|congruence]. apply valid_by_name; [done|done|..].
    + destruct (projection_section p) as [s|]; [|done]. simpl.
      destruct (Hnames s eq_refl) as [->|(s' & -> & Hin)%list_elem_of_fmap]; [done|].
      rewrite Forall_forall in Hall. by apply Hall.
    + destruct p; try done. by destruct Hpr.
Qed.

Definition sample_article : LegalSection :=
  {| sec_id := u "article:1"; sec_title := u "목적"; sec_text := u "제1조(목적) 가상의 법";
     sec_kind := ProviderText; sec_source_document_sha256 := None; sec_page := None |}.
Definition sample_statute : Capture :=
  sample_law [sample_article] (sample_body ++ sec_text sample_article ++ sample_body).
Definition sample_hit : SearchHit :=
  {| sh_excerpt_section := u "body"; sh_includes_ocr := false; sh_object := sample_object;
     sh_revision_id := u "r1"; sh_capture_id := sample_capture_id; sh_text := u "목적";
     sh_byte_start := 12008; sh_byte_end := 12014 |}.

Lemma hit_cited_witness :
  let id := cite sample_object sample_capture_id (Section_ (u "article:1")) in
  projection_for_hit sample_statute sample_hit = Ok id
  /\ exists text a b, project_text sample_statute id = Ok text /\ text = a ++ u "목적" ++ b
       /\ slen text <= MAX_CITATION_TEXT_BYTES.
Proof.
  intros id.
  assert (Hv : @record_validate sample_codecs (cp_record sample_statute) = Ok tt)
    by (vm_compute; reflexivity).
  assert (Hc : valid_snapshot_id (cp_capture_id sample_statute) = true) by (vm_compute; reflexivity).
  assert (Hp : projection_for_hit sample_statute sample_hit = Ok id) by (vm_compute; reflexivity).
  destruct (@hit_cited sample_codecs sample_statute sample_hit Hv Hc) as (_ & Hok & _).
  split; [exact Hp|exact (Hok id Hp)].
Defined.
