(* ===== verification/InForce.v ===== *)
(** Date-based selection of revisions and the corpus lookups behind it:
    [crates/application/src/legal_reference.rs].

    The search service and the database are the parameters [search] and
    [history] of the lookups: what a call answers, by the number of the call
    and by its arguments. *)

From S2P Require Import Prelude Utf8 Domain Legal.

Definition MAX_LINE_HITS : Z := 500.
Definition MAX_PAGES : Z := 20.
(** The limit of one pattern; search queries have a limit of their own. *)
Definition MAX_PATTERN_BYTES : Z := 4000.
Definition MAX_REVISION_PAGES : Z := 20.

(** * The order of strings and of revisions *)

Fixpoint lex (a b : list Z) : comparison :=
  match a, b with
  | [], [] => Eq
  | [], _ => Lt
  | _, [] => Gt
  | x :: a, y :: b => match x ?= y with Eq => lex a b | c => c end
  end.

(** [Ord for str] compares bytes. *)
Definition str_cmp (a b : str) : comparison := lex (bytes a) (bytes b).
Definition cmp_leb (c : comparison) : bool := match c with Gt => false | _ => true end.
Definition str_leb (a b : str) : bool := cmp_leb (str_cmp a b).

(** The fields that the selection reads. *)
Record HistoryEntry := {
  he_revision_id : str; he_capture_id : option str;
  he_publication_date : option str; he_effective_date : option str;
}.

Record RevisionChoice := {
  rc_revision_id : str; rc_capture_id : option str;
  rc_effective_date : option str; rc_publication_date : option str;
}.

Inductive InForceStatus := Determined | Provisional | NotYetEffective | Undetermined.

Record InForceSelection := {
  if_date : str; if_status : InForceStatus; if_selected : option RevisionChoice;
  if_same_effective_date : list RevisionChoice; if_next_change : option RevisionChoice;
  if_later_provision_dates : list str; if_warnings : list str;
}.

Definition choice (e : HistoryEntry) : RevisionChoice :=
  {| rc_revision_id := he_revision_id e; rc_capture_id := he_capture_id e;
     rc_effective_date := he_effective_date e; rc_publication_date := he_publication_date e |}.

Definition effective (e : HistoryEntry) : str := default [] (he_effective_date e).

(** The key [order]: effective date, publication date, revision. *)
Definition order_cmp (a b : HistoryEntry) : comparison :=
  match str_cmp (effective a) (effective b) with
  | Eq =>
    match str_cmp (default [] (he_publication_date a)) (default [] (he_publication_date b)) with
    | Eq => str_cmp (he_revision_id a) (he_revision_id b)
    | c => c
    end
  | c => c
  end.
Definition order_leb (a b : HistoryEntry) : bool := cmp_leb (order_cmp a b).

(** [Iterator::max_by_key]: the last of the greatest. *)
Definition max_by {A} (leb : A -> A -> bool) (l : list A) : option A :=
  fold_left (fun acc x => match acc with
    | None => Some x
    | Some m => Some (if leb m x then x else m)
    end) l None.

(** [Iterator::min]: the first of the least. *)
Definition min_by {A} (leb : A -> A -> bool) (l : list A) : option A :=
  fold_left (fun acc x => match acc with
    | None => Some x
    | Some m => Some (if leb m x then m else x)
    end) l None.

(** [sort_by_key]: the stable sort. *)
Fixpoint insert_by {A} (leb : A -> A -> bool) (x : A) (l : list A) : list A :=
  match l with
  | [] => [x]
  | y :: l => if leb x y then x :: y :: l else y :: insert_by leb x l
  end.
Definition sort_by {A} (leb : A -> A -> bool) (l : list A) : list A := foldr (insert_by leb) [] l.

Definition dated (e : HistoryEntry) : bool := opt_test valid_date (he_effective_date e).

Definition select_in_force (entries : list HistoryEntry) (inventory_complete : bool) (date : str)
  : InForceSelection :=
  let known := List.filter dated entries in
  let warnings :=
    (if zlen known <? zlen entries then [u "undated_revisions_ignored"] else [])
      ++ (if inventory_complete then [] else [u "inventory_incomplete"]) in
  let best_date :=
    max_by str_leb (List.filter (fun d => str_leb d date) (effective <$> known)) in
  let next_date :=
    min_by str_leb (List.filter (fun d => negb (str_leb d date)) (effective <$> known)) in
  let next_change :=
    match next_date with
    | None => None
    | Some next =>
      choice <$> max_by order_leb (List.filter (fun e => str_eqb (effective e) next) known)
    end in
  match best_date with
  | None =>
    {| if_date := date;
       if_status := if bool_decide (known = []) then Undetermined else NotYetEffective;
       if_selected := None; if_same_effective_date := []; if_next_change := next_change;
       if_later_provision_dates := []; if_warnings := warnings |}
  | Some best_date =>
    let group := sort_by order_leb (List.filter (fun e => str_eqb (effective e) best_date) known) in
    let selected := choice <$> last group in
    let group := removelast group in
    {| if_date := date;
       if_status := if inventory_complete then Determined else Provisional;
       if_selected := selected; if_same_effective_date := choice <$> reverse group;
       if_next_change := next_change; if_later_provision_dates := [];
       if_warnings := warnings ++ (if bool_decide (group = []) then []
                                   else [u "multiple_revisions_same_effective_date"]) |}
  end.

(** The digit runs of [later_dates], read from left to right. *)
Fixpoint digit_runs (run : str) (s : str) : list str :=
  match s with
  | [] => if bool_decide (run = []) then [] else [run]
  | c :: s =>
    if is_ascii_digit c then digit_runs (run ++ [c]) s
    else if bool_decide (run = []) then digit_runs [] s else run :: digit_runs [] s
  end.

(** [BTreeSet::insert] into the ordered elements. *)
Fixpoint set_insert (x : str) (l : list str) : list str :=
  match l with
  | [] => [x]
  | y :: l' =>
    match str_cmp x y with
    | Lt => x :: l
    | Eq => l
    | Gt => y :: set_insert x l'
    end
  end.

Definition later_dates (value date : str) : list str :=
  fold_left (fun found run =>
    if (slen run =? 8) && valid_date run && negb (str_leb run date) then set_insert run found
    else found) (digit_runs [] value) [].

(** * Lookups *)

(** The loop of [anchored_queries]: the finished queries and the current one. *)
Fixpoint anchor (alternatives queries : list str) (current : str)
  : result DatabaseError (list str) :=
  match alternatives with
  | [] => Ok (if bool_decide (current = []) then queries else queries ++ [current ++ u ")$"])
  | alternative :: alternatives =>
    if bool_decide (alternative = []) || (MAX_PATTERN_BYTES <? slen alternative + 8)
    then Err InvalidInput else
    let '(queries, current) :=
      if negb (bool_decide (current = []))
        && (MAX_PATTERN_BYTES <? slen current + slen alternative + 4)
      then (queries ++ [current ++ u ")$"], []) else (queries, current) in
    let current := current ++ (if bool_decide (current = []) then u "^(?:" else u "|") ++ alternative in
    anchor alternatives queries current
  end.

Definition anchored_queries (alternatives : list str) : result DatabaseError (list str) :=
  anchor alternatives [] [].

(** What the lookup reads of a page; the hits are opaque to it, and its
    collection notices are not modelled. *)
Record LinePage (Hit : Type) := {
  lp_hits : list Hit; lp_next_cursor : option str; lp_corpus_complete : bool;
}.
Arguments lp_hits {Hit}. Arguments lp_next_cursor {Hit}. Arguments lp_corpus_complete {Hit}.

Record LineLookup (Hit : Type) := {
  ll_hits : list Hit; ll_corpus_complete : bool; ll_truncated : bool;
}.
Arguments ll_hits {Hit}. Arguments ll_corpus_complete {Hit}. Arguments ll_truncated {Hit}.

Section lookups.
Context {Hit : Type} (search : nat -> str -> option str -> result DatabaseError (LinePage Hit)).

(** The hits of a page, up to the limit; the flag says that one was left out. *)
Fixpoint take_hits (found page : list Hit) : list Hit * bool :=
  match page with
  | [] => (found, false)
  | hit :: page => if zlen found =? MAX_LINE_HITS then (found, true) else take_hits (found ++ [hit]) page
  end.

(** The pages of one query: [remaining] may still be read and [n] calls were made. *)
Fixpoint find_pages (remaining : nat) (n : nat) (query : str) (cursor : option str) (r : LineLookup Hit)
  : result (stop DatabaseError) (LineLookup Hit * nat) :=
  match remaining with
  | O => Err OutOfFuel
  | S remaining =>
    match search n query cursor with
    | Err e => Err (Error e)
    | Ok page =>
      let '(hits, cut) := take_hits (ll_hits r) (lp_hits page) in
      let r := {| ll_hits := hits;
                  ll_corpus_complete := ll_corpus_complete r && lp_corpus_complete page;
                  ll_truncated := ll_truncated r || cut |} in
      match lp_next_cursor page with
      | Some next =>
        if (0 <? Z.of_nat remaining) && negb (ll_truncated r) then find_pages remaining (S n) query (Some next) r
        else
        Ok ({| ll_hits := ll_hits r; ll_corpus_complete := ll_corpus_complete r;
               ll_truncated := true |}, S n)
      | None => Ok (r, S n)
      end
    end
  end.

Fixpoint find_queries (queries : list str) (n : nat) (r : LineLookup Hit)
  : result (stop DatabaseError) (LineLookup Hit * nat) :=
  match queries with
  | [] => Ok (r, n)
  | query :: queries =>
    let? (r, n) := find_pages (Z.to_nat MAX_PAGES) n query None r in find_queries queries n r
  end.

(** [find_lines], and the number of searches it made. *)
Definition find_lines (alternatives : list str)
  : result (stop DatabaseError) (LineLookup Hit * nat) :=
  match anchored_queries alternatives with
  | Err e => Err (Error e)
  | Ok queries =>
    let? (r, n) := find_queries queries 0
      {| ll_hits := []; ll_corpus_complete := true; ll_truncated := false |} in
    Ok ({| ll_hits := ll_hits r;
           ll_corpus_complete := if ll_truncated r then false else ll_corpus_complete r;
           ll_truncated := ll_truncated r |}, n)
  end.
End lookups.

Record HistoryPage := {
  hp_entries : list HistoryEntry; hp_next_cursor : option str; hp_inventory_complete : bool;
}.

Section revisions.
Context (history : nat -> option str -> result DatabaseError HistoryPage).

(** The pages of the catalog: [remaining] may still be read and [n] were read. *)
Fixpoint read_revisions (remaining n : nat) (cursor : option str) (entries : list HistoryEntry)
  (complete : bool) : result DatabaseError (list HistoryEntry * bool) :=
  match remaining with
  | O => Ok (entries, complete)
  | S remaining =>
    let? page := history n cursor in
    let complete := complete && hp_inventory_complete page in
    let entries := entries ++ hp_entries page in
    match hp_next_cursor page with
    | Some next =>
      if Z.of_nat n + 1 <? MAX_REVISION_PAGES then read_revisions remaining (S n) (Some next) entries complete
      else read_revisions remaining (S n) None entries false
    | None => Ok (entries, complete)
    end
  end.

Definition revisions : result DatabaseError (list HistoryEntry * bool) :=
  read_revisions (Z.to_nat MAX_REVISION_PAGES) 0 None [] true.
End revisions.
