(* ===== verification/InForceFacts.v ===== *)
(** Correctness of date-based selection: the selected revision is the latest one
    in force, and a lookup that reports completeness has read everything. *)

From stdpp Require Import sorting.
From S2P Require Import Prelude Utf8 Strings Domain Legal InForce.

(** * Orders *)

(** A comparison is a total preorder. *)
Class Ordering {A} (cmp : A -> A -> comparison) : Prop := {
  cmp_opp x y : cmp y x = CompOpp (cmp x y);
  cmp_le_trans x y z : cmp x y <> Gt -> cmp y z <> Gt -> cmp x z <> Gt;
}.

Section ordering.
Context {A} (cmp : A -> A -> comparison) `{!Ordering cmp}.
Let leb x y := cmp_leb (cmp x y).

Lemma cmp_leb_iff x y : leb x y = true <-> cmp x y <> Gt.
Proof. unfold leb. by destruct (cmp x y). Qed.

Lemma leb_refl x : leb x x = true.
Proof. apply cmp_leb_iff. intros Hg. pose proof (cmp_opp (cmp:=cmp) x x) as Ho. by rewrite Hg in Ho. Qed.

Lemma leb_total x y : leb x y = true \/ leb y x = true.
Proof. rewrite !cmp_leb_iff, (cmp_opp (cmp:=cmp) x y). destruct (cmp x y); simpl; auto. Qed.

Lemma leb_trans x y z : leb x y = true -> leb y z = true -> leb x z = true.
Proof. rewrite !cmp_leb_iff. apply cmp_le_trans. Qed.

Lemma leb_false x y : leb x y = false -> leb y x = true.
Proof. destruct (leb_total x y); congruence. Qed.

(** Comparing with one of two equivalent elements is comparing with the other. *)
Lemma cmp_eq_left x y z : cmp x y = Eq -> cmp x z = cmp y z.
Proof.
  intros He. assert (Hyx : cmp y x = Eq) by (by rewrite (cmp_opp (cmp:=cmp) x y), He).
  assert (Hgt : cmp x z = Gt <-> cmp y z = Gt).
  { split; intros Hg; apply dec_stable; intros Hn; revert Hg;
      [apply (cmp_le_trans x y z)|apply (cmp_le_trans y x z)]; congruence. }
  assert (Hlt : cmp z x = Gt <-> cmp z y = Gt).
  { split; intros Hg; apply dec_stable; intros Hn; revert Hg;
      [apply (cmp_le_trans z y x)|apply (cmp_le_trans z x y)]; congruence. }
  rewrite (cmp_opp (cmp:=cmp) x z), (cmp_opp (cmp:=cmp) y z) in Hlt.
  destruct (cmp x z), (cmp y z); simpl in *; intuition congruence.
Qed.

(** The loops of [max_by] and [min_by]. *)
Lemma fold_pick (pick : A -> A -> A) (R : A -> A -> Prop) l m :
  (forall a y, pick a y = a \/ pick a y = y) -> (forall a y, R a (pick a y) /\ R y (pick a y)) ->
  (forall x, R x x) -> (forall x y z, R x y -> R y z -> R x z) ->
  fold_left (fun acc x => match acc with None => Some x | Some m => Some (pick m x) end) l None = Some m ->
  m ∈ l /\ forall x, x ∈ l -> R x m.
Proof.
  intros Hp HR Hrefl Htrans.
  assert (Hg : forall l a,
    fold_left (fun acc x => match acc with None => Some x | Some m => Some (pick m x) end) l (Some a) = Some m ->
    m ∈ a :: l /\ forall x, x ∈ a :: l -> R x m).
  { clear l. induction l as [|y l IH]; intros a; simpl.
    - intros [= ->]. split; [by left|]. intros x ->%list_elem_of_singleton. apply Hrefl.
    - intros [Hin Hle]%IH. destruct (HR a y) as [Ha Hy]. split.
      + apply elem_of_cons in Hin as [->|Hin]; [|by do 2 right].
        destruct (Hp a y) as [->| ->]; [by left|by right; left].
      + assert (Hm : R (pick a y) m) by (apply Hle; by left).
        intros x [->|[->|Hx]%elem_of_cons]%elem_of_cons; [by eapply Htrans..|].
        apply Hle. by right. }
  destruct l as [|y l]; [done|]. apply Hg.
Qed.

Lemma fold_pick_None (pick : A -> A -> A) l :
  fold_left (fun acc x => match acc with None => Some x | Some m => Some (pick m x) end) l None = None ->
  l = [].
Proof.
  destruct l as [|y l]; [done|]. simpl. intros Hn. exfalso. revert y Hn.
  induction l as [|z l IH]; intros y; simpl; [done|apply IH].
Qed.

Lemma max_by_spec l m : max_by leb l = Some m -> m ∈ l /\ forall x, x ∈ l -> leb x m = true.
Proof.
  apply (fold_pick (fun m x => if leb m x then x else m) (fun x m => leb x m = true)).
  - intros a y. destruct (leb a y); auto.
  - intros a y. destruct (leb a y) eqn:E; auto using leb_refl, leb_false.
  - apply leb_refl.
  - apply leb_trans.
Qed.

Lemma max_by_None l : max_by leb l = None -> l = [].
Proof. apply (fold_pick_None (fun m x => if leb m x then x else m)). Qed.

Lemma min_by_spec l m : min_by leb l = Some m -> m ∈ l /\ forall x, x ∈ l -> leb m x = true.
Proof.
  apply (fold_pick (fun m x => if leb m x then m else x) (fun x m => leb m x = true)).
  - intros a y. destruct (leb a y); auto.
  - intros a y. destruct (leb a y) eqn:E; auto using leb_refl, leb_false.
  - apply leb_refl.
  - intros x y z H1 H2. exact (leb_trans z y x H2 H1).
Qed.

Lemma min_by_None l : min_by leb l = None -> l = [].
Proof. apply (fold_pick_None (fun m x => if leb m x then m else x)). Qed.

Lemma insert_by_perm x l : insert_by leb x l ≡ₚ x :: l.
Proof.
  induction l as [|y l IH]; simpl; [done|]. destruct (leb x y); [done|]. rewrite IH. apply Permutation_swap.
Qed.

Lemma sort_by_perm l : sort_by leb l ≡ₚ l.
Proof. induction l as [|x l IH]; simpl; [done|]. by rewrite insert_by_perm, IH. Qed.

Definition ordered (x y : A) : Prop := leb x y = true.

Lemma insert_by_sorted x l : StronglySorted ordered l -> StronglySorted ordered (insert_by leb x l).
Proof.
  induction 1 as [|y l Hl IH Hy]; simpl; [by repeat constructor|].
  destruct (leb x y) eqn:E.
  - repeat constructor; try done. eapply Forall_impl; [exact Hy|]. intros z. by apply leb_trans.
  - constructor; [done|]. rewrite insert_by_perm. constructor; [by apply leb_false|done].
Qed.

Lemma sort_by_sorted l : StronglySorted ordered (sort_by leb l).
Proof. induction l; simpl; [constructor|by apply insert_by_sorted]. Qed.
End ordering.

(** ** Instances *)

#[export] Instance lex_ordering : Ordering lex.
Proof.
  constructor.
  - induction x as [|x a IH]; intros [|y b]; simpl; try done.
    rewrite (Z.compare_antisym x y). destruct (x ?= y); simpl; auto.
  - induction x as [|x a IH]; intros [|y b] [|z c]; simpl; try done.
    destruct (Z.compare_spec x y), (Z.compare_spec y z), (Z.compare_spec x z); subst; try done; try lia.
    apply IH.
Qed.

Lemma lex_eq a b : lex a b = Eq -> a = b.
Proof.
  revert b. induction a as [|x a IH]; intros [|y b]; simpl; try done.
  destruct (Z.compare_spec x y); try done. intros ?%IH. congruence.
Qed.

(** An order on an image, and two orders one after the other. *)
Definition on {A B} (f : A -> B) (cmp : B -> B -> comparison) (x y : A) : comparison := cmp (f x) (f y).
Definition then_cmp {A} (c d : A -> A -> comparison) (x y : A) : comparison :=
  match c x y with Eq => d x y | r => r end.

Lemma on_ordering {A B} (f : A -> B) cmp `{!Ordering cmp} : Ordering (on f cmp).
Proof. constructor; unfold on; intros; [apply cmp_opp|by eapply cmp_le_trans]. Qed.

Lemma then_ordering {A} (c d : A -> A -> comparison) `{!Ordering c, !Ordering d} : Ordering (then_cmp c d).
Proof.
  constructor; unfold then_cmp.
  - intros x y. rewrite (cmp_opp (cmp:=c) x y), (cmp_opp (cmp:=d) x y). by destruct (c x y).
  - intros x y z H1 H2.
    assert (Hxy : c x y <> Gt) by (by destruct (c x y)).
    assert (Hyz : c y z <> Gt) by (by destruct (c y z)).
    pose proof (cmp_le_trans (cmp:=c) x y z Hxy Hyz) as Hxz.
    destruct (c x z) eqn:E; [|done|done].
    destruct (c x y) eqn:E1; [|exfalso|done].
    + rewrite <- (cmp_eq_left c x y z E1), E in H2. by apply (cmp_le_trans (cmp:=d) x y z).
    + pose proof (cmp_eq_left c x z y E) as Hz. rewrite E1, (cmp_opp (cmp:=c) y z) in Hz.
      by destruct (c y z).
Qed.

#[export] Instance str_ordering : Ordering str_cmp.
Proof. apply (on_ordering bytes lex). Qed.

#[export] Instance order_ordering : Ordering order_cmp.
Proof.
  pose proof (on_ordering effective str_cmp) as H1.
  pose proof (on_ordering (fun e => default [] (he_publication_date e)) str_cmp) as H2.
  pose proof (on_ordering he_revision_id str_cmp) as H3.
  exact (@then_ordering _ _ _ H1 (@then_ordering _ _ _ H2 H3)).
Qed.

(** * Selection *)

Lemma valid_date_ascii v : valid_date v = true -> bytes v = v.
Proof.
  unfold valid_date. destruct (_ || _) eqn:E; [done|]. bool_hyps. intros _.
  rewrite forallb_digit_bytes, forallb_Forall in *. apply bytes_ascii.
  match goal with H : Forall _ v |- _ => eapply Forall_impl; [exact H|] end.
  intros c ?%ascii_digit_bounds. lia.
Qed.

(** Valid dates are compared as they are written. *)
Lemma date_cmp_eq a b : valid_date a = true -> valid_date b = true -> str_cmp a b = Eq -> a = b.
Proof. unfold str_cmp. intros ->%valid_date_ascii ->%valid_date_ascii. apply lex_eq. Qed.

Lemma effective_dated e : dated e = true -> valid_date (effective e) = true.
Proof. unfold dated, effective. by destruct (he_effective_date e). Qed.

Definition in_force_on (date : str) (e : HistoryEntry) : Prop :=
  dated e = true /\ str_leb (effective e) date = true.

Lemma known_in entries e : e ∈ List.filter dated entries <-> e ∈ entries /\ dated e = true.
Proof. by rewrite list_elem_of_In, filter_In, <- list_elem_of_In. Qed.

Lemma dates_in entries (p : str -> bool) d :
  d ∈ List.filter p (effective <$> List.filter dated entries)
  <-> exists e, e ∈ entries /\ dated e = true /\ effective e = d /\ p d = true.
Proof.
  rewrite list_elem_of_In, filter_In, <- list_elem_of_In, list_elem_of_fmap. setoid_rewrite known_in.
  naive_solver.
Qed.

(** Between dates, a strict order decides the order of the entries. *)
Lemma order_by_date x e :
  dated x = true -> dated e = true -> str_leb (effective x) (effective e) = true ->
  effective x <> effective e -> order_leb x e = true.
Proof.
  intros Hx%effective_dated He%effective_dated Hle Hne. unfold order_leb, order_cmp.
  unfold str_leb in Hle. destruct (str_cmp (effective x) (effective e)) eqn:E; [|done|done].
  by apply date_cmp_eq in E.
Qed.

Lemma snoc_last {A} (l : list A) : l <> [] -> exists x, last l = Some x /\ l = removelast l ++ [x].
Proof.
  intros Hne. destruct (exists_last Hne) as (l' & x & ->). exists x.
  by rewrite last_snoc, removelast_last.
Qed.

Lemma sorted_last {A} (R : A -> A -> Prop) l x : StronglySorted R (l ++ [x]) -> Forall (fun y => R y x) l.
Proof.
  induction l as [|y l IH]; simpl; [constructor|]. intros Hs. apply StronglySorted_inv in Hs as [Hs Hy].
  constructor; [|by apply IH]. rewrite Forall_app in Hy. destruct Hy as [_ Hy]. by apply Forall_inv in Hy.
Qed.

(** What the selection of a date reports when some revision is in force. *)
Definition selects (entries : list HistoryEntry) (date : str) (s : InForceSelection)
  (e : HistoryEntry) (others : list HistoryEntry) : Prop :=
  if_selected s = Some (choice e) /\ e ∈ entries /\ in_force_on date e
  /\ (forall x, x ∈ entries -> in_force_on date x -> order_leb x e = true)
  /\ others ++ [e] ≡ₚ List.filter (fun x => str_eqb (effective x) (effective e)) (List.filter dated entries)
  /\ StronglySorted (fun x y => order_leb x y = true) others
  /\ if_same_effective_date s = choice <$> reverse others.

(** The next change is the latest version of the earliest later date. *)
Definition next_change_spec (entries : list HistoryEntry) (date : str) (s : InForceSelection) : Prop :=
  match if_next_change s with
  | Some c => exists e, c = choice e /\ e ∈ entries /\ dated e = true
      /\ str_leb (effective e) date = false
      /\ forall x, x ∈ entries -> dated x = true -> str_leb (effective x) date = false ->
           str_leb (effective e) (effective x) = true
           /\ (effective x = effective e -> order_leb x e = true)
  | None => forall x, x ∈ entries -> dated x = true -> str_leb (effective x) date = true
  end.

Lemma next_change_ok entries complete date :
  next_change_spec entries date (select_in_force entries complete date).
Proof.
  unfold next_change_spec, select_in_force.
  set (later := List.filter (fun d => negb (str_leb d date)) _).
  set (next := match min_by str_leb later with None => None | Some n => _ end).
  match goal with |- match if_next_change ?s with _ => _ end =>
    assert (if_next_change s = next) as -> by (by destruct (max_by _ _)) end.
  unfold next. destruct (min_by str_leb later) as [d|] eqn:Em.
  - apply (min_by_spec str_cmp) in Em as [Hd Hmin]. apply dates_in in Hd as (e0 & He0 & Hk0 & <- & Hl0).
    apply negb_true_iff in Hl0.
    set (same := List.filter (fun e => str_eqb (effective e) (effective e0)) _).
    assert (Hsame : forall x, x ∈ same <-> x ∈ entries /\ dated x = true /\ effective x = effective e0).
    { intros x. unfold same. rewrite list_elem_of_In, filter_In, <- list_elem_of_In, known_in, str_eqb_eq. tauto. }
    destruct (max_by order_leb same) as [e|] eqn:Ex; simpl.
    + apply (max_by_spec order_cmp) in Ex as [He Hmax]. apply Hsame in He as (Hin & Hk & Heq).
      exists e. split_and!; try done; [by rewrite Heq|]. intros x Hx Hkx Hlx. rewrite Heq. split.
      * apply Hmin, dates_in. exists x. by rewrite Hlx.
      * intros Hex. by apply Hmax, Hsame.
    + apply (max_by_None order_cmp) in Ex. exfalso. apply (not_elem_of_nil e0). rewrite <- Ex.
      by apply Hsame.
  - apply (min_by_None str_cmp) in Em. intros x Hx Hk. destruct (str_leb (effective x) date) eqn:E; [done|].
    exfalso. apply (not_elem_of_nil (effective x)). rewrite <- Em. apply dates_in. exists x. by rewrite E.
Qed.

(** What the selection finds in force on the date, and what it says when nothing is *)
Lemma selection_exact entries complete date :
  let s := select_in_force entries complete date in
  next_change_spec entries date s
  /\ ((exists e others, selects entries date s e others
         /\ if_status s = (if complete then Determined else Provisional))
      \/ ((forall x, x ∈ entries -> ~ in_force_on date x)
         /\ if_selected s = None /\ if_same_effective_date s = []
         /\ (if_status s = Undetermined /\ (forall x, x ∈ entries -> dated x = false)
             \/ if_status s = NotYetEffective /\ exists x, x ∈ entries /\ dated x = true))).
Proof.
  intros s. split; [apply next_change_ok|]. unfold s, select_in_force.
  destruct (max_by str_leb _) as [d|] eqn:Em.
  - apply (max_by_spec str_cmp) in Em as [Hd Hmax]. apply dates_in in Hd as (e0 & He0 & Hk0 & <- & Hl0).
    left. set (best := List.filter (fun e => str_eqb (effective e) (effective e0)) _).
    assert (Hbest : forall x, x ∈ best <-> x ∈ entries /\ dated x = true /\ effective x = effective e0).
    { intros x. unfold best. rewrite list_elem_of_In, filter_In, <- list_elem_of_In, known_in, str_eqb_eq. tauto. }
    pose proof (sort_by_perm order_cmp best) as Hperm. pose proof (sort_by_sorted order_cmp best) as Hsort.
    change (fun x y => cmp_leb (order_cmp x y)) with order_leb in *.
    destruct (snoc_last (sort_by order_leb best)) as (e & Hlast & Hsnoc).
    { intros Hnil. rewrite Hnil in Hperm. apply Permutation_nil_l in Hperm.
      apply (not_elem_of_nil e0). rewrite Hperm. by apply Hbest. }
    assert (He : e ∈ best) by (rewrite <- Hperm, Hsnoc; apply elem_of_app; right; by left).
    apply Hbest in He as (Hin & Hk & Heq).
    exists e, (removelast (sort_by order_leb best)). unfold selects.
    cbn [if_selected if_same_effective_date if_status]. rewrite Hlast.
    rewrite Hsnoc in Hsort. pose proof (sorted_last _ _ _ Hsort) as Hle.
    split_and!; try done.
    + split; [done|by rewrite Heq].
    + intros x Hx [Hkx Hlx]. destruct (decide (effective x = effective e0)) as [Hex|Hex].
      * assert (Hxb : x ∈ best) by by apply Hbest. rewrite <- Hperm, Hsnoc in Hxb.
        apply elem_of_app in Hxb as [Hxb| ->%list_elem_of_singleton].
        -- rewrite Forall_forall in Hle. by apply Hle.
        -- apply (leb_refl order_cmp).
      * apply order_by_date; [done|done| |congruence]. rewrite Heq. apply Hmax, dates_in. by exists x.
    + rewrite <- Hsnoc, Hperm. unfold best. by rewrite Heq.
    + by eapply StronglySorted_app_1_l.
  - apply (max_by_None str_cmp) in Em. right. simpl. split_and!; [|done|done|].
    + intros x Hx [Hk Hl]. apply (not_elem_of_nil (effective x)). rewrite <- Em. apply dates_in. by exists x.
    + destruct (List.filter dated entries) as [|x known] eqn:Ek; [left|right].
      * split; [done|]. intros x Hx. apply not_true_iff_false. intros Hk.
        apply (not_elem_of_nil x). rewrite <- Ek. by apply known_in.
      * split; [done|]. exists x. apply known_in. rewrite Ek. by left.
Qed.

(** Date-based selection is exact.  When some dated revision is in force on
    the date, the selected one is the latest of them (by effective date, then
    publication date, then identifier), the other revisions of its effective
    date are reported, latest first, and the status says whether the inventory
    was complete; otherwise nothing is selected and the status says whether any
    revision is dated.  The next change is the latest version of the earliest
    effective date behind the date. *)
Theorem in_force_selection entries complete date :
  let s := select_in_force entries complete date in
  next_change_spec entries date s
  /\ ((exists e others, selects entries date s e others
         /\ if_status s = (if complete then Determined else Provisional))
      \/ ((forall x, x ∈ entries -> ~ in_force_on date x)
         /\ if_selected s = None /\ if_same_effective_date s = []
         /\ (if_status s = Undetermined /\ (forall x, x ∈ entries -> dated x = false)
             \/ if_status s = NotYetEffective /\ exists x, x ∈ entries /\ dated x = true))).
Proof. apply selection_exact. Qed.

(** * Lookups *)

(** The pattern of a group of alternatives. *)
Definition anchored (group : list str) : str := u "^(?:" ++ intercalate (ch "|") group ++ u ")$".

Lemma intercalate_snoc d ws w :
  ws <> [] -> intercalate d (ws ++ [w]) = intercalate d ws ++ d :: w.
Proof.
  induction ws as [|x ws IH]; [done|]. intros _. destruct ws as [|y ws]; [done|].
  change (x ++ d :: intercalate d ((y :: ws) ++ [w]) = (x ++ d :: intercalate d (y :: ws)) ++ d :: w).
  by rewrite IH, <- app_assoc.
Qed.

Definition query_bounded (q : str) : Prop := slen q <= MAX_PATTERN_BYTES.

(** The current pattern of the loop stands for the alternatives of an open group. *)
Definition open_group (group : list str) (current : str) : Prop :=
  (group = [] /\ current = [])
  \/ (group <> [] /\ current = u "^(?:" ++ intercalate (ch "|") group
      /\ slen current + 2 <= MAX_PATTERN_BYTES).

Lemma close_group group current :
  open_group group current -> current <> [] ->
  current ++ u ")$" = anchored group /\ query_bounded (current ++ u ")$") /\ group <> [].
Proof.
  intros [[_ ?]|(Hg & Hc & Hl)] Hne; [done|]. unfold anchored, query_bounded. split_and!; [|rewrite slen_app; by change (slen (u ")$")) with 2|done].
  by rewrite Hc, <- app_assoc.
Qed.

Lemma anchor_nonempty x : u "^(?:" ++ x <> [].
Proof. by change (94 :: 40 :: 63 :: 58 :: x <> []). Qed.

Lemma anchor_spec alternatives groups group current :
  open_group group current -> Forall (fun g => g <> [] /\ query_bounded (anchored g)) groups ->
  match anchor alternatives (anchored <$> groups) current with
  | Ok queries => exists gs, queries = anchored <$> gs
      /\ concat gs = concat groups ++ group ++ alternatives
      /\ Forall (fun g => g <> [] /\ query_bounded (anchored g)) gs
  | Err e => e = InvalidInput
  end.
Proof.
  revert groups group current. induction alternatives as [|a alternatives IH]; intros groups group current Ho Hg;
    cbn [anchor].
  - case_bool_decide as Hc.
    + exists groups. destruct Ho as [[-> _]|(_ & -> & _)]; [|by apply anchor_nonempty in Hc].
      by rewrite !app_nil_r.
    + destruct (close_group _ _ Ho Hc) as (He & Hb & Hne). exists (groups ++ [group]).
      rewrite fmap_app, concat_app, He. simpl. rewrite !app_nil_r. split_and!; [done|done|].
      apply Forall_app. split; [done|]. rewrite He in Hb. by repeat constructor.
  - destruct (_ || _) eqn:Ea; [done|]. apply orb_false_iff in Ea as [Ha Hl]. apply Z.ltb_ge in Hl.
    apply bool_decide_eq_false in Ha.
    assert (Hnew : open_group [a] (u "^(?:" ++ a)).
    { right. split_and!; [done|done|]. rewrite slen_app. change (slen (u "^(?:")) with 4. lia. }
    destruct (negb _ && _) eqn:Ef.
    + apply andb_true_iff in Ef as [Hc _]. apply negb_true_iff, bool_decide_eq_false in Hc.
      destruct (close_group _ _ Ho Hc) as (He & Hb & Hne). rewrite He in *.
      specialize (IH (groups ++ [group]) [a] (u "^(?:" ++ a) Hnew).
      rewrite fmap_app in IH. change (anchored <$> [group]) with [anchored group] in IH.
      rewrite bool_decide_true by done. change ([] ++ u "^(?:" ++ a) with (u "^(?:" ++ a).
      destruct (anchor _ _ _); [|apply IH].
      * destruct IH as (gs & -> & Hcat & Hall).
        { apply Forall_app. split; [done|]. by repeat constructor. }
        exists gs. split_and!; [done| |done]. rewrite Hcat, concat_app. simpl.
        by rewrite app_nil_r, <- app_assoc.
      * apply Forall_app. split; [done|]. by repeat constructor.
    + assert (Hopen : open_group (group ++ [a])
        (current ++ (if bool_decide (current = []) then u "^(?:" else u "|") ++ a)).
      { destruct Ho as [[-> ->]|(Hne & Hc & Hlen)]; [done|]. right.
        rewrite bool_decide_false by (rewrite Hc; apply anchor_nonempty).
        rewrite bool_decide_false in Ef by (rewrite Hc; apply anchor_nonempty).
        cbn [negb andb] in Ef. apply Z.ltb_ge in Ef.
        split_and!; [by destruct group| |].
        - rewrite intercalate_snoc by done. rewrite Hc, <- !app_assoc. done.
        - rewrite !slen_app. change (slen (u "|")) with 1. lia. }
      specialize (IH groups (group ++ [a]) _ Hopen Hg).
      destruct (anchor _ _ _); [|done]. destruct IH as (gs & -> & Hcat & Hall).
      exists gs. split_and!; [done| |done]. by rewrite Hcat, <- !app_assoc.
Qed.

Section lookups.
Context {Hit : Type} (search : nat -> str -> option str -> result DatabaseError (LinePage Hit)).
Implicit Types (r : LineLookup Hit) (page : LinePage Hit).

(** One query read to its end, from a call on: every page but the last named the
    cursor that the next one was asked for. *)
Inductive read_all (query : str) : nat -> option str -> list (LinePage Hit) -> nat -> Prop :=
| read_last n cursor page :
    search n query cursor = Ok page -> lp_next_cursor page = None ->
    read_all query n cursor [page] (S n)
| read_more n cursor page next pages n' :
    search n query cursor = Ok page -> lp_next_cursor page = Some next ->
    read_all query (S n) (Some next) pages n' -> read_all query n cursor (page :: pages) n'.

(** All queries read to their ends, one after the other. *)
Inductive read_queries : nat -> list str -> list (LinePage Hit) -> nat -> Prop :=
| read_done n : read_queries n [] [] n
| read_query n query pages n' queries pages' n'' :
    read_all query n None pages n' -> read_queries n' queries pages' n'' ->
    read_queries n (query :: queries) (pages ++ pages') n''.

Lemma take_hits_spec (found l hits : list Hit) cut :
  zlen found <= MAX_LINE_HITS -> take_hits found l = (hits, cut) ->
  zlen hits <= MAX_LINE_HITS /\ (cut = false -> hits = found ++ l).
Proof.
  revert found. induction l as [|hit l IH]; intros found Hf; cbn [take_hits].
  - intros [= <- <-]. by rewrite app_nil_r.
  - destruct (Z.eqb_spec (zlen found) MAX_LINE_HITS); [by intros [= <- <-]|].
    intros Ht. apply IH in Ht as [Hl Hh].
    + split; [done|]. intros Hc. rewrite (Hh Hc), <- app_assoc. done.
    + rewrite zlen_app. change (zlen [hit]) with 1. lia.
Qed.

(** What a run of the loop did from a state on. *)
Definition ran (r0 r : LineLookup Hit) (n bound n' : nat)
  (complete_read : list (LinePage Hit) -> Prop) : Prop :=
  (n' <= n + bound)%nat /\ zlen (ll_hits r) <= MAX_LINE_HITS
  /\ (ll_truncated r = false -> ll_truncated r0 = false /\ exists pages, complete_read pages
       /\ ll_hits r = ll_hits r0 ++ concat (lp_hits <$> pages)
       /\ ll_corpus_complete r = ll_corpus_complete r0 && forallb lp_corpus_complete pages).

Lemma find_pages_spec left_ n query cursor r0 :
  (0 < left_)%nat -> zlen (ll_hits r0) <= MAX_LINE_HITS ->
  match find_pages search left_ n query cursor r0 with
  | Ok (r, n') => ran r0 r n left_ n' (fun pages => read_all query n cursor pages n')
  | Err (Error _) => True
  | Err _ => False
  end.
Proof.
  revert n cursor r0. induction left_ as [|left_ IH]; intros n cursor r0 Hpos Hh; [lia|].
  cbn [find_pages]. destruct (search n query cursor) as [page|] eqn:Es; [|done].
  destruct (take_hits (ll_hits r0) (lp_hits page)) as [hits cut] eqn:Et.
  apply take_hits_spec in Et as [Hl Hcut]; [|done].
  set (r1 := {| ll_hits := hits; ll_corpus_complete := _; ll_truncated := _ |}).
  assert (Hr1 : ll_truncated r1 = false -> ll_truncated r0 = false /\ ll_hits r1 = ll_hits r0 ++ lp_hits page).
  { simpl. intros [? ?]%orb_false_iff. auto. }
  destruct (lp_next_cursor page) as [next|] eqn:En.
  - destruct ((0 <? _) && _) eqn:Eb.
    + bool_hyps. specialize (IH (S n) (Some next) r1 ltac:(lia) Hl).
      destruct (find_pages _ _ _ _ _ _) as [[r n']|]; [|done]. destruct IH as (Hn & Hhits & Hok).
      split_and!; [lia|done|]. intros Htr. destruct (Hok Htr) as (H1 & pages & Hp & Heq & Hc).
      destruct (Hr1 H1) as [Hr0 Hp1]. split; [done|]. exists (page :: pages). split_and!.
      * by eapply read_more.
      * rewrite Heq, Hp1, fmap_cons. simpl. by rewrite app_assoc.
      * rewrite Hc. simpl. by rewrite andb_assoc.
    + split_and!; [lia|done|done].
  - split_and!; [lia|done|]. intros Htr. destruct (Hr1 Htr) as [H0 Hp1]. split; [done|].
    exists [page]. split_and!; [by apply read_last| |].
    + rewrite Hp1. simpl. by rewrite app_nil_r.
    + simpl. by rewrite andb_true_r.
Qed.

Lemma find_queries_spec queries n r0 :
  zlen (ll_hits r0) <= MAX_LINE_HITS ->
  match find_queries search queries n r0 with
  | Ok (r, n') => ran r0 r n (20 * length queries) n' (fun pages => read_queries n queries pages n')
  | Err (Error _) => True
  | Err _ => False
  end.
Proof.
  revert n r0. induction queries as [|query queries IH]; intros n r0 Hh; cbn [find_queries].
  - split_and!; [lia|done|]. intros Htr. split; [done|]. exists []. split_and!; [constructor| |].
    + simpl. by rewrite app_nil_r.
    + simpl. by rewrite andb_true_r.
  - change (Z.to_nat MAX_PAGES) with 20%nat.
    pose proof (find_pages_spec 20 n query None r0 ltac:(lia) Hh) as Hp.
    destruct (find_pages _ _ _ _ _ _) as [[r1 n1]|]; [|done]. destruct Hp as (Hn1 & Hh1 & Hok1).
    specialize (IH n1 r1 Hh1). destruct (find_queries _ _ _ _) as [[r n']|]; [|done].
    destruct IH as (Hn & Hhits & Hok). split_and!; [simpl length; lia|done|].
    intros Htr. destruct (Hok Htr) as (H1 & pages' & Hr' & Heq' & Hc').
    destruct (Hok1 H1) as (H0 & pages & Hr & Heq & Hc). split; [done|]. exists (pages ++ pages'). split_and!.
    + by eapply read_query.
    + rewrite Heq', Heq, fmap_app, concat_app, <- app_assoc. done.
    + rewrite Hc', Hc, forallb_app', andb_assoc. done.
Qed.

(** C40. A lookup ends within twenty searches per query, and what it says about
    completeness is true: when it does not report truncation it has read every
    query to its last page, its hits are exactly the hits of those pages, at
    most 500, and it calls the corpus complete exactly when every page did; a
    truncated lookup never calls the corpus complete.  The queries are patterns
    of at most 4000 bytes that together hold exactly the alternatives, in order. *)
Theorem lookup_complete alternatives :
  answers (find_lines search alternatives)
  /\ forall r n, find_lines search alternatives = Ok (r, n) ->
     exists groups, anchored_queries alternatives = Ok (anchored <$> groups)
       /\ concat groups = alternatives
       /\ Forall (fun g => g <> [] /\ query_bounded (anchored g)) groups
       /\ (n <= 20 * length groups)%nat /\ zlen (ll_hits r) <= MAX_LINE_HITS
       /\ (if ll_truncated r then ll_corpus_complete r = false
           else exists pages, read_queries 0 (anchored <$> groups) pages n
             /\ ll_hits r = concat (lp_hits <$> pages)
             /\ ll_corpus_complete r = forallb lp_corpus_complete pages).
Proof.
  unfold find_lines. pose proof (anchor_spec alternatives [] [] []) as Ha.
  change (anchor alternatives (anchored <$> []) []) with (anchored_queries alternatives) in Ha.
  destruct (anchored_queries alternatives) as [queries|e]; [|by split].
  destruct Ha as (groups & -> & Hcat & Hall); [by left|done|].
  set (r0 := {| ll_hits := []; ll_corpus_complete := true; ll_truncated := false |}).
  pose proof (find_queries_spec (anchored <$> groups) 0 r0 ltac:(done)) as Hq.
  destruct (find_queries _ _ _ _) as [[r n]|e]; [|by destruct e; split].
  destruct Hq as (Hn & Hh & Hok). rewrite length_fmap in Hn. split; [done|].
  intros r' n' [= <- <-]. exists groups. cbn [ll_hits ll_corpus_complete ll_truncated].
  split_and!; [done|done|done|lia|done|]. destruct (ll_truncated r); [done|].
  destruct (Hok eq_refl) as (_ & pages & Hr & Heq & Hc). by exists pages.
Qed.
End lookups.

Section catalog.
Context (history : nat -> option str -> result DatabaseError HistoryPage).

(** The catalog read to its end, from a page on. *)
Inductive read_history : nat -> option str -> list HistoryPage -> Prop :=
| history_last n cursor page :
    history n cursor = Ok page -> hp_next_cursor page = None -> read_history n cursor [page]
| history_more n cursor page next pages :
    history n cursor = Ok page -> hp_next_cursor page = Some next ->
    read_history (S n) (Some next) pages -> read_history n cursor (page :: pages).

Lemma read_revisions_incomplete left_ n cursor entries out :
  read_revisions history left_ n cursor entries false = Ok out -> out.2 = false.
Proof.
  revert n cursor entries. induction left_ as [|left_ IH]; intros n cursor entries; cbn [read_revisions];
    [by intros [= <-]|].
  destruct (history n cursor); [|done]. cbn [andb]. destruct (hp_next_cursor a); [|by intros [= <-]].
  destruct (_ <? _); apply IH.
Qed.

Lemma read_revisions_spec left_ n cursor before complete entries :
  (n + left_ = 20)%nat -> (0 < left_)%nat ->
  read_revisions history left_ n cursor before complete = Ok (entries, true) ->
  exists pages, read_history n cursor pages /\ (length pages <= left_)%nat /\ complete = true
    /\ entries = before ++ concat (hp_entries <$> pages)
    /\ Forall (fun p => hp_inventory_complete p = true) pages.
Proof.
  revert n cursor before complete. induction left_ as [|left_ IH]; intros n cursor before complete Hn Hpos; [lia|].
  cbn [read_revisions]. destruct (history n cursor) as [page|] eqn:Eh; [|done].
  destruct (hp_next_cursor page) as [next|] eqn:Ec.
  - destruct (Z.ltb_spec (Z.of_nat n + 1) MAX_REVISION_PAGES) as [Hlt|Hge].
    + unfold MAX_REVISION_PAGES in Hlt. intros Hr.
      apply IH in Hr as (pages & Hp & Hl & Hc & He & Hall); [|lia|lia].
      apply andb_true_iff in Hc as [Hc Hpc]. exists (page :: pages). split_and!.
      * by eapply history_more.
      * simpl. lia.
      * done.
      * rewrite He, fmap_cons. simpl. by rewrite app_assoc.
      * by constructor.
    + intros Hr%read_revisions_incomplete. done.
  - intros [= <- Hc]. apply andb_true_iff in Hc as [Hc Hpc]. exists [page]. split_and!.
    + by apply history_last.
    + simpl. lia.
    + done.
    + simpl. by rewrite app_nil_r.
    + by constructor.
Qed.

(** A catalog that [revisions] calls complete was read to its end, in at most
    twenty pages that all said so, and holds the entries of those pages. *)
Theorem revisions_complete entries :
  revisions history = Ok (entries, true) ->
  exists pages, read_history 0 None pages /\ (length pages <= 20)%nat
    /\ entries = concat (hp_entries <$> pages)
    /\ Forall (fun p => hp_inventory_complete p = true) pages.
Proof.
  intros Hr. unfold revisions in Hr. change (Z.to_nat MAX_REVISION_PAGES) with 20%nat in Hr.
  apply read_revisions_spec in Hr as (pages & Hp & Hl & _ & He & Hall); [|lia|lia].
  by exists pages.
Qed.
End catalog.
