(* ===== verification/Slices.v ===== *)
(** String functions of the standard library at byte offsets: slices that panic
    off a character boundary, searching, replacing and lines; and the sequencing
    of parsers that may find nothing. *)

From S2P Require Import Prelude Utf8 Strings TextDiff.

(** * Slices *)

(** [&text[at..]], [&text[..at]] and [&text[a..b]] *)
Definition slice_from {E} (text : str) (at_ : Z) : result (stop E) str :=
  match str_from text at_ with Some s => Ok s | None => Err Panic end.
Definition slice_to {E} (text : str) (at_ : Z) : result (stop E) str :=
  match str_upto text at_ with Some s => Ok s | None => Err Panic end.
Definition slice {E} (text : str) (a b : Z) : result (stop E) str :=
  match str_range text a b with Some s => Ok s | None => Err Panic end.

(** [text.as_bytes()[i]], when in range *)
Definition byte_at (text : str) (i : Z) : option byte := bytes text !! Z.to_nat i.

(** [let x = m?;] in a function that returns [Option] and whose slices may panic *)
Notation "'let??' x ':=' m 'in' k" :=
  (match m with Ok (Some x) => k | Ok None => Ok None | Err err_ => Err err_ end)
  (at level 10, x pattern, m at level 100, k at level 200) : result_scope.

(** The same for an [Option] that no slice is part of *)
Definition found {E A} (o : option A) : result (stop E) (option A) := Ok o.

(** * Searching *)

(** [s.find(p)] and [s.contains(p)] for a string [p] *)
Definition find_str (p s : str) : option Z := (fun ab => slen ab.1) <$> split_once p s.
Definition contains_str (p s : str) : bool := is_some (split_once p s).

(** [s.rfind(c)] *)
Fixpoint rfind_from (off : Z) (c : char) (s : str) : option Z :=
  match s with
  | [] => None
  | x :: s =>
    match rfind_from (off + len_utf8 x) c s with
    | Some i => Some i
    | None => if x =? c then Some off else None
    end
  end.
Definition rfind (c : char) (s : str) : option Z := rfind_from 0 c s.

(** [s.replace(p, "")] for a non-empty [p]: each step takes an occurrence off. *)
Fixpoint remove_str (fuel : nat) (p s : str) : str :=
  match fuel with
  | O => s
  | S fuel =>
    match split_once p s with
    | Some (a, b) => a ++ remove_str fuel p b
    | None => s
    end
  end.
Definition remove_all (p s : str) : str := remove_str (length s) p s.

(** [str::lines] *)
Definition chomp (line : str) : str :=
  match strip_suffix [LF] line with
  | Some l => match strip_suffix [CR] l with Some l => l | None => l end
  | None => line
  end.
Definition lines (s : str) : list str := chomp <$> split_inclusive s.

(** * Facts *)

Lemma slice_from_app {E} pre rest : slice_from (pre ++ rest) (slen pre) = @Ok (stop E) _ rest.
Proof. unfold slice_from. by rewrite str_from_app. Qed.

Lemma slice_to_app {E} pre rest : slice_to (pre ++ rest) (slen pre) = @Ok (stop E) _ pre.
Proof. unfold slice_to. by rewrite str_upto_app. Qed.

Lemma slice_app {E} pre m rest : slice (pre ++ m ++ rest) (slen pre) (slen pre + slen m) = @Ok (stop E) _ m.
Proof. unfold slice. by rewrite str_range_app. Qed.

Lemma bytes_app s t : bytes (s ++ t) = bytes s ++ bytes t.
Proof. induction s as [|c s IH]; [done|]. cbn [app bytes]. by rewrite IH, app_assoc. Qed.

Lemma byte_at_app pre rest : byte_at (pre ++ rest) (slen pre) = head (bytes rest).
Proof.
  unfold byte_at. rewrite bytes_app, slen_bytes. unfold zlen. rewrite Nat2Z.id.
  rewrite lookup_app_r, Nat.sub_diag by lia. by destruct (bytes rest).
Qed.

Lemma strip_suffix_app_self p t : strip_suffix p (t ++ p) = Some t.
Proof. by apply strip_suffix_Some. Qed.

Lemma strip_prefix_self p t : strip_prefix p (p ++ t) = Some t.
Proof. by apply strip_prefix_Some. Qed.

(** * Trimming *)

Section trimming.
Context (p : char -> bool).

Lemma drop_while_split s : exists d, s = d ++ drop_while p s /\ forallb p d = true.
Proof.
  induction s as [|c s (d & Hs & Hd)]; [by exists []|]. cbn [drop_while].
  destruct (p c) eqn:E; [|by exists []]. exists (c :: d). cbn. by rewrite <- Hs, E.
Qed.

Lemma trim_end_split s : exists d, s = trim_end_by p s ++ d /\ forallb p d = true.
Proof.
  unfold trim_end_by. destruct (drop_while_split (reverse s)) as (d & Hs & Hd). exists (reverse d).
  split; [by rewrite <- reverse_app, <- Hs, reverse_involutive|].
  rewrite forallb_Forall in *. by apply Forall_reverse.
Qed.

Lemma trim_split s :
  exists a b, s = a ++ trim_by p s ++ b /\ forallb p a = true /\ forallb p b = true.
Proof.
  unfold trim_by, trim_start_by. destruct (drop_while_split s) as (a & Hs & Ha).
  destruct (trim_end_split (drop_while p s)) as (b & Ht & Hb). exists a, b.
  split_and!; [|done..]. by rewrite <- Ht.
Qed.

Lemma drop_while_id s : match head s with Some c => p c | None => false end = false -> drop_while p s = s.
Proof. destruct s as [|c s]; [done|]. cbn. by intros ->. Qed.

Lemma drop_while_stops s : match head (drop_while p s) with Some c => p c | None => false end = false.
Proof. induction s as [|c s IH]; [done|]. cbn. by destruct (p c) eqn:E. Qed.

(** Text in front of which, or behind which, nothing is trimmed *)
Definition untrimmed (s : str) : Prop :=
  match head s with Some c => p c | None => false end = false /\
  match last s with Some c => p c | None => false end = false.

Lemma head_reverse (s : str) : head (reverse s) = last s.
Proof.
  destruct s as [|c s _] using rev_ind; [done|]. by rewrite reverse_app, last_snoc.
Qed.

Lemma trim_end_id s : match last s with Some c => p c | None => false end = false -> trim_end_by p s = s.
Proof.
  intros H. unfold trim_end_by. rewrite drop_while_id; [apply reverse_involutive|].
  by rewrite head_reverse.
Qed.

Lemma trim_end_last s : match last (trim_end_by p s) with Some c => p c | None => false end = false.
Proof.
  unfold trim_end_by. rewrite <- head_reverse, reverse_involutive. apply drop_while_stops.
Qed.

Lemma drop_while_app_l s t : drop_while p s <> [] -> drop_while p (s ++ t) = drop_while p s ++ t.
Proof. induction s as [|c s IH]; [done|]. cbn. by destruct (p c). Qed.

Lemma drop_while_all s : forallb p s = true -> drop_while p s = [].
Proof. induction s as [|c s IH]; [done|]. cbn. by intros [-> H%IH]%andb_prop. Qed.

Lemma drop_while_app_all s t : forallb p s = true -> drop_while p (s ++ t) = drop_while p t.
Proof. induction s as [|c s IH]; [done|]. cbn. by intros [-> H%IH]%andb_prop. Qed.

Lemma forallb_reverse s : forallb p (reverse s) = forallb p s.
Proof. apply eq_true_iff_eq. rewrite !forallb_Forall. apply Forall_reverse. Qed.

Lemma trim_by_untrimmed s : untrimmed (trim_by p s).
Proof.
  unfold trim_by, trim_start_by, untrimmed. split; [|apply trim_end_last].
  set (t := drop_while p s). pose proof (drop_while_stops s : _) as H. fold t in H.
  destruct (trim_end_split t) as (d & Ht & Hd). rewrite Ht in H.
  destruct (trim_end_by p t) as [|c l] eqn:E; [done|]. done.
Qed.

Lemma trim_by_id s : untrimmed s -> trim_by p s = s.
Proof.
  intros [Hh Hl]. unfold trim_by, trim_start_by. by rewrite drop_while_id, trim_end_id.
Qed.

Lemma last_app_ne {A} (s t : list A) : t <> [] -> last (s ++ t) = last t.
Proof. destruct t as [|x t _] using rev_ind; [done|]. by rewrite app_assoc, !last_snoc. Qed.

Lemma head_app_ne {A} (s t : list A) : s <> [] -> head (s ++ t) = head s.
Proof. by destruct s. Qed.

(** Behind a text that keeps its ends, only the end of what follows is trimmed. *)
Lemma trim_by_app q w : q <> [] -> untrimmed q -> trim_by p (q ++ w) = q ++ trim_end_by p w.
Proof.
  intros Hq [Hh Hl]. unfold trim_by, trim_start_by. rewrite drop_while_id by by rewrite head_app_ne.
  unfold trim_end_by. rewrite reverse_app.
  destruct (decide (drop_while p (reverse w) = [])) as [E|E].
  - rewrite E. destruct (drop_while_split (reverse w)) as (d & Hd & Hall). rewrite E, app_nil_r in Hd.
    rewrite drop_while_app_all by by rewrite Hd.
    rewrite drop_while_id by by rewrite head_reverse. by rewrite reverse_involutive, app_nil_r.
  - by rewrite drop_while_app_l, reverse_app, reverse_involutive by done.
Qed.
End trimming.
