(* ===== verification/KrNames.v ===== *)
(** Law names of the Korean reference profile:
    [crates/normalization/src/kr_legal_reference.rs], lines 1 to 293, and
    [title_similarity]. *)

From S2P Require Import Prelude Utf8 Strings TextDiff Slices.

(** [LawNameResolution] of [crates/domain/src/legal_reference.rs] *)
Record LawNameResolution := {
  ln_input : str; ln_normalized : str; ln_resolved : str; ln_matched_alias : option str;
}.

(** [char::is_alphanumeric], a table of the Unicode standard *)
Class CharTables := { is_alphanumeric : char -> bool }.

Definition MIDDLE_DOTS : list char := u "·ㆍ‧•・･∙".
Definition OFFICIAL_DOT : char := ch "ㆍ".
Definition SUFFIXES : list str := [u "시행규칙"; u "시행령"].

(** Official title and common abbreviations *)
Definition LAW_ALIASES : list (str * list str) :=
  [(u "대한민국헌법", [u "헌법"]);
   (u "민사소송법", [u "민소법"]);
   (u "형사소송법", [u "형소법"]);
   (u "민사집행법", [u "민집법"]);
   (u "행정소송법", [u "행소법"]);
   (u "채무자 회생 및 파산에 관한 법률", [u "채무자회생법"; u "통합도산법"]);
   (u "근로기준법", [u "근기법"]);
   (u "산업안전보건법", [u "산안법"]);
   (u "산업안전보건기준에 관한 규칙", [u "산안기준규칙"; u "안전보건규칙"; u "산업안전보건기준규칙"]);
   (u "중대재해 처벌 등에 관한 법률", [u "중대재해처벌법"; u "중처법"; u "중대재해법"]);
   (u "산업재해보상보험법", [u "산재보험법"; u "산재법"]);
   (u "고용보험법", [u "고보법"]);
   (u "근로자퇴직급여 보장법", [u "퇴직급여법"; u "근퇴법"]);
   (u "노동조합 및 노동관계조정법", [u "노동조합법"; u "노조법"; u "노조법"]);
   (u "파견근로자 보호 등에 관한 법률", [u "파견법"; u "파견근로자법"]);
   (u "기간제 및 단시간근로자 보호 등에 관한 법률", [u "기간제법"]);
   (u "남녀고용평등과 일ㆍ가정 양립 지원에 관한 법률", [u "남녀고용평등법"; u "고평법"]);
   (u "개인정보 보호법", [u "개인정보보호법"; u "개보법"; u "개인정보법"]);
   (u "정보통신망 이용촉진 및 정보보호 등에 관한 법률", [u "정보통신망법"; u "정통망법"]);
   (u "신용정보의 이용 및 보호에 관한 법률", [u "신용정보법"; u "신정법"]);
   (u "위치정보의 보호 및 이용 등에 관한 법률", [u "위치정보법"]);
   (u "인공지능 발전과 신뢰 기반 조성 등에 관한 기본법", [u "인공지능기본법"; u "AI기본법"]);
   (u "공공기관의 정보공개에 관한 법률", [u "정보공개법"]);
   (u "부정청탁 및 금품등 수수의 금지에 관한 법률", [u "청탁금지법"; u "김영란법"]);
   (u "공직자의 이해충돌 방지법", [u "이해충돌방지법"]);
   (u "국가를 당사자로 하는 계약에 관한 법률", [u "국가계약법"]);
   (u "지방자치단체를 당사자로 하는 계약에 관한 법률", [u "지방계약법"]);
   (u "공공기관의 운영에 관한 법률", [u "공공기관운영법"]);
   (u "독점규제 및 공정거래에 관한 법률", [u "공정거래법"]);
   (u "하도급거래 공정화에 관한 법률", [u "하도급법"]);
   (u "약관의 규제에 관한 법률", [u "약관법"; u "약관규제법"]);
   (u "표시ㆍ광고의 공정화에 관한 법률", [u "표시광고법"]);
   (u "가맹사업거래의 공정화에 관한 법률", [u "가맹사업법"]);
   (u "전자상거래 등에서의 소비자보호에 관한 법률", [u "전자상거래법"]);
   (u "부정경쟁방지 및 영업비밀보호에 관한 법률", [u "부정경쟁방지법"]);
   (u "자본시장과 금융투자업에 관한 법률", [u "자본시장법"]);
   (u "금융소비자 보호에 관한 법률", [u "금융소비자보호법"; u "금소법"]);
   (u "특정 금융거래정보의 보고 및 이용 등에 관한 법률", [u "특정금융정보법"; u "특금법"]);
   (u "전자금융거래법", [u "전금법"]);
   (u "주택임대차보호법", [u "주임법"]);
   (u "상가건물 임대차보호법", [u "상가임대차법"; u "상임법"]);
   (u "집합건물의 소유 및 관리에 관한 법률", [u "집합건물법"]);
   (u "부동산 거래신고 등에 관한 법률", [u "부동산거래신고법"]);
   (u "국토의 계획 및 이용에 관한 법률", [u "국토계획법"]);
   (u "도시 및 주거환경정비법", [u "도시정비법"; u "도정법"]);
   (u "공익사업을 위한 토지 등의 취득 및 보상에 관한 법률", [u "토지보상법"]);
   (u "건설산업기본법", [u "건산법"]);
   (u "소방시설 설치 및 관리에 관한 법률", [u "소방시설법"]);
   (u "화학물질관리법", [u "화관법"]);
   (u "화학물질의 등록 및 평가 등에 관한 법률", [u "화평법"]);
   (u "감염병의 예방 및 관리에 관한 법률", [u "감염병예방법"]);
   (u "마약류 관리에 관한 법률", [u "마약류관리법"]);
   (u "국민건강보험법", [u "건보법"]);
   (u "국민기초생활 보장법", [u "기초생활보장법"]);
   (u "장애인차별금지 및 권리구제 등에 관한 법률", [u "장애인차별금지법"]);
   (u "국세기본법", [u "국기법"]);
   (u "부가가치세법", [u "부가세법"]);
   (u "조세특례제한법", [u "조특법"]);
   (u "지방세특례제한법", [u "지특법"]);
   (u "자유무역협정의 이행을 위한 관세법의 특례에 관한 법률", [u "FTA관세특례법"; u "FTA특례법"]);
   (u "도로교통법", [u "도교법"]);
   (u "교통사고처리 특례법", [u "교특법"]);
   (u "자동차손해배상 보장법", [u "자배법"]);
   (u "여객자동차 운수사업법", [u "여객자동차법"]);
   (u "화물자동차 운수사업법", [u "화물자동차법"]);
   (u "특정범죄 가중처벌 등에 관한 법률", [u "특정범죄가중법"; u "특가법"]);
   (u "특정경제범죄 가중처벌 등에 관한 법률", [u "특정경제범죄법"; u "특경법"]);
   (u "성폭력범죄의 처벌 등에 관한 특례법", [u "성폭력처벌법"]);
   (u "아동ㆍ청소년의 성보호에 관한 법률", [u "청소년성보호법"; u "아청법"]);
   (u "아동학대범죄의 처벌 등에 관한 특례법", [u "아동학대처벌법"]);
   (u "가정폭력범죄의 처벌 등에 관한 특례법", [u "가정폭력처벌법"]);
   (u "스토킹범죄의 처벌 등에 관한 법률", [u "스토킹처벌법"]);
   (u "성매매알선 등 행위의 처벌에 관한 법률", [u "성매매처벌법"]);
   (u "폭력행위 등 처벌에 관한 법률", [u "폭력행위처벌법"; u "폭처법"]);
   (u "학교폭력예방 및 대책에 관한 법률", [u "학교폭력예방법"; u "학폭법"]);
   (u "범죄수익은닉의 규제 및 처벌 등에 관한 법률", [u "범죄수익은닉규제법"]);
   (u "형의 집행 및 수용자의 처우에 관한 법률", [u "형집행법"]);
   (u "가족관계의 등록 등에 관한 법률", [u "가족관계등록법"])].

Definition is_dot (c : char) : bool := contains_char c MIDDLE_DOTS.

(** The quotes and brackets trimmed off a name; the double quote is [34]. *)
Definition name_quote (c : char) : bool := contains_char c (u "「」『』" ++ [34] ++ u "“”'‘’").

(** The loop over the characters: the name so far and whether a space is due. *)
Fixpoint normalize_loop (out : str) (space : bool) (s : str) : str :=
  match s with
  | [] => out
  | c :: s =>
    if is_whitespace c then normalize_loop out (negb (str_eqb out [])) s
    else
      let out := if space then out ++ u " " else out in
      normalize_loop (out ++ [if is_dot c then OFFICIAL_DOT else c]) false s
  end.

Definition normalize_law_name (input : str) : str :=
  normalize_loop [] false (trim (trim_by name_quote (trim input))).

Definition name_key (value : str) : str :=
  to_ascii_lowercase <$> List.filter (fun c => negb (is_whitespace c) && negb (is_dot c)) value.

Fixpoint alias_in (table : list (str * list str)) (key : str) : option (str * option str) :=
  match table with
  | [] => None
  | (title, aliases) :: table =>
    if str_eqb (name_key title) key then Some (title, None)
    else match List.find (fun alias => str_eqb (name_key alias) key) aliases with
         | Some alias => Some (title, Some alias)
         | None => alias_in table key
         end
  end.
Definition alias_title (key : str) : option (str * option str) := alias_in LAW_ALIASES key.

(** [SUFFIXES.iter().find_map(..)] *)
Fixpoint suffixed_title (suffixes : list str) (key : str) : option (str * option str) :=
  match suffixes with
  | [] => None
  | suffix :: suffixes =>
    match
      match strip_suffix suffix key with
      | Some base =>
        if str_eqb base [] then None
        else (fun p => (p.1 ++ u " " ++ suffix, p.2)) <$> alias_title base
      | None => None
      end
    with
    | Some p => Some p
    | None => suffixed_title suffixes key
    end
  end.

Definition expand_key (key : str) : option (str * option str) :=
  match alias_title key with
  | Some p => Some p
  | None => suffixed_title SUFFIXES key
  end.

Definition resolve_law_name (input : str) : LawNameResolution :=
  let normalized := normalize_law_name input in
  match expand_key (name_key normalized) with
  | Some (resolved, alias) =>
    {| ln_input := input; ln_normalized := normalized; ln_resolved := resolved;
       ln_matched_alias := alias |}
  | None =>
    {| ln_input := input; ln_normalized := normalized; ln_resolved := normalized;
       ln_matched_alias := None |}
  end.

(** [push_escaped] of [legal_reference.rs] *)
Definition push_escaped (out : str) (c : char) : str :=
  (if contains_char c (u "\.+*?()|[]{}^$#&-~") then out ++ u "\" else out) ++ [c].

Definition title_pattern (name : str) : str :=
  fold_left (fun out c =>
    let out := if str_eqb out [] then out else out ++ u " ?" in
    if is_dot c then out ++ u "[" ++ MIDDLE_DOTS ++ u "]" else push_escaped out c)
    (List.filter (fun c => negb (is_whitespace c)) name) [].

Fixpoint base_of (suffixes : list str) (name : str) : str :=
  match suffixes with
  | [] => name
  | suffix :: suffixes =>
    match strip_suffix suffix name with
    | Some base =>
      if negb (str_eqb (trim_end base) []) then trim_end base else base_of suffixes name
    | None => base_of suffixes name
    end
  end.
Definition base_law_name (name : str) : str := base_of SUFFIXES name.

(** * Similarity of titles *)

(** [v.windows(2)] as a set *)
Fixpoint grams (v : str) : gset (char * char) :=
  match v with
  | a :: (b :: _) as rest => {[ (a, b) ]} ∪ grams rest
  | _ => ∅
  end.

Definition title_similarity `{CharTables} (cited retained : str) : option Z :=
  let a := List.filter is_alphanumeric cited in
  let b := List.filter is_alphanumeric retained in
  if str_eqb a [] || str_eqb b [] then None
  else if contains_str b a || contains_str a b then Some 100
  else
    let ga := grams a in
    let gb := grams b in
    let union := Z.of_nat (size (ga ∪ gb)) in
    if union =? 0 then Some 0
    else
      let shared := Z.of_nat (size (ga ∩ gb)) in
      Some (((shared * 100 + union / 2) / union) mod 256).

(** * What the resolution of a name promises

    What law-name resolution and title similarity promise: resolution is a lookup
    in a finite table of spellings, the similarity of titles a percentage. *)

(** * Spellings *)

(** The keys under which an entry of the alias table is known *)
Definition entry_keys (entry : str * list str) : list str := name_key <$> entry.1 :: entry.2.

(** Every key that names a law, alone or followed by the kind of a subordinate
    statute, with the official name it stands for *)
Definition entry_spellings (entry : str * list str) : list (str * str) :=
  flat_map (fun key =>
    (key, entry.1) :: ((fun suffix => (key ++ suffix, entry.1 ++ u " " ++ suffix)) <$> SUFFIXES))
    (entry_keys entry).
Definition spellings : list (str * str) := flat_map entry_spellings LAW_ALIASES.

Lemma elem_of_spellings key name :
  (key, name) ∈ spellings <->
  exists entry base, entry ∈ LAW_ALIASES /\ base ∈ entry_keys entry /\
    ((key = base /\ name = entry.1) \/
     exists suffix, suffix ∈ SUFFIXES /\ key = base ++ suffix /\ name = entry.1 ++ u " " ++ suffix).
Proof.
  unfold spellings. rewrite list_elem_of_In, in_flat_map. split.
  - intros (entry & Hentry & H). apply in_flat_map in H as (base & Hbase & H).
    exists entry, base. rewrite !list_elem_of_In. split_and!; [done..|].
    destruct H as [[= <- <-] | H]; [by left|]. right.
    apply list_elem_of_In, list_elem_of_fmap in H as (suffix & [= -> ->] & H). eauto.
  - intros (entry & base & Hentry & Hbase & H). exists entry.
    rewrite !list_elem_of_In in *. split; [done|]. apply in_flat_map. exists base. split; [done|].
    destruct H as [[-> ->] | (suffix & Hs & -> & ->)]; [by left|]. right.
    apply list_elem_of_In, list_elem_of_fmap. eauto.
Qed.

(** * The alias table *)

Lemma find_alias (key : str) aliases alias :
  List.find (fun a => str_eqb (name_key a) key) aliases = Some alias ->
  alias ∈ aliases /\ name_key alias = key.
Proof. intros [H K]%find_some. by rewrite list_elem_of_In, <- str_eqb_eq. Qed.

Lemma alias_in_Some table key title alias :
  alias_in table key = Some (title, alias) ->
  exists aliases, (title, aliases) ∈ table /\
    (name_key title = key /\ alias = None \/
     exists a, a ∈ aliases /\ name_key a = key /\ alias = Some a).
Proof.
  induction table as [|[t aliases] table IH]; [done|]. cbn.
  destruct (str_eqb (name_key t) key) eqn:E.
  { intros [= -> <-]. apply str_eqb_eq in E. exists aliases. split; [left|]; eauto. }
  destruct (List.find _ _) as [a|] eqn:F.
  { intros [= -> <-]. apply find_alias in F as [Ha Hk].
    exists aliases. split; [left|]. right. eauto. }
  intros H. destruct (IH H) as (ks & Hin & Hk). exists ks. split; [by right|]. done.
Qed.

Lemma alias_title_spelling key title alias :
  alias_title key = Some (title, alias) ->
  exists entry, entry ∈ LAW_ALIASES /\ entry.1 = title /\ key ∈ entry_keys entry /\
    match alias with Some a => a ∈ entry.2 | None => True end.
Proof.
  intros (aliases & Hin & Hk)%alias_in_Some. exists (title, aliases). split_and!; [done..| |].
  - unfold entry_keys. cbn [fst snd]. apply list_elem_of_fmap.
    destruct Hk as [[<- _] | (a & Ha & <- & _)]; eexists; (split; [done|]); by constructor.
  - destruct Hk as [[_ ->] | (a & Ha & _ & ->)]; done.
Qed.

Lemma suffixed_title_Some suffixes key name alias :
  suffixed_title suffixes key = Some (name, alias) ->
  exists suffix base title, suffix ∈ suffixes /\ key = base ++ suffix /\
    alias_title base = Some (title, alias) /\ name = title ++ u " " ++ suffix.
Proof.
  induction suffixes as [|suffix suffixes IH]; [done|]. cbn [suffixed_title].
  assert (Hrest : suffixed_title suffixes key = Some (name, alias) ->
    exists s base title, s ∈ suffix :: suffixes /\ key = base ++ s /\
      alias_title base = Some (title, alias) /\ name = title ++ u " " ++ s).
  { intros (s & base & title & Hs & H)%IH. exists s, base, title. split; [by right|done]. }
  destruct (strip_suffix suffix key) as [base|] eqn:E; [|done].
  destruct (str_eqb base []); [done|].
  destruct (alias_title base) as [[title a]|] eqn:A; [|done].
  cbn [fmap option_fmap option_map fst snd]. intros [= <- <-].
  apply strip_suffix_Some in E. exists suffix, base, title. split; [by left|]. done.
Qed.

(** What [expand_key] finds is in the table of spellings. *)
Lemma expand_key_sound key name alias :
  expand_key key = Some (name, alias) ->
  (key, name) ∈ spellings /\
  match alias with
  | Some a => exists entry, entry ∈ LAW_ALIASES /\ a ∈ entry.2 /\
      (name = entry.1 \/ exists suffix, suffix ∈ SUFFIXES /\ name = entry.1 ++ u " " ++ suffix)
  | None => True
  end.
Proof.
  unfold expand_key. rewrite elem_of_spellings. destruct (alias_title key) as [[t a]|] eqn:E.
  - intros [= -> ->]. apply alias_title_spelling in E as (entry & Hin & <- & Hkey & Ha).
    split; [by exists entry, key; eauto|]. destruct alias; eauto.
  - intros (suffix & base & title & Hs & -> & H & ->)%suffixed_title_Some.
    apply alias_title_spelling in H as (entry & Hin & <- & Hkey & Ha).
    split; [exists entry, base; split_and!; eauto 6|]. destruct alias; eauto 8.
Qed.

(** The table is unambiguous: every spelling is expanded to the name listed with it,
    and official names stand for themselves. *)
Definition spelling_ok (p : str * str) : bool :=
  match expand_key p.1 with Some q => str_eqb q.1 p.2 | None => false end &&
  match expand_key (name_key p.2) with
  | Some (name, None) => str_eqb name p.2
  | _ => false
  end && str_eqb (normalize_law_name p.2) p.2.

Lemma spellings_ok : forallb spelling_ok spellings = true.
Proof. vm_compute. reflexivity. Qed.

Lemma spelling_sound key name :
  (key, name) ∈ spellings ->
  (exists alias, expand_key key = Some (name, alias)) /\
  expand_key (name_key name) = Some (name, None) /\ normalize_law_name name = name.
Proof.
  intros H. pose proof spellings_ok as K. rewrite forallb_forall in K.
  apply list_elem_of_In, K in H. unfold spelling_ok in H. cbn [fst snd] in H.
  apply andb_prop in H as [[H1 H2]%andb_prop H3]. split_and!.
  - destruct (expand_key key) as [[n a]|]; [|done]. apply str_eqb_eq in H1 as <-. eauto.
  - destruct (expand_key (name_key name)) as [[n [a|]]|]; try done. by apply str_eqb_eq in H2 as <-.
  - by apply str_eqb_eq.
Qed.

(** * Normalization keeps the key *)

Lemma name_key_app s t : name_key (s ++ t) = name_key s ++ name_key t.
Proof. unfold name_key. by rewrite List.filter_app, fmap_app. Qed.

Lemma name_key_char c :
  is_whitespace c = false -> name_key [if is_dot c then OFFICIAL_DOT else c] = name_key [c].
Proof.
  intros H. destruct (is_dot c) eqn:E; [|done]. unfold name_key. cbn [List.filter].
  rewrite E, andb_false_r.
  replace (is_dot OFFICIAL_DOT) with true by (vm_compute; reflexivity). by rewrite andb_false_r.
Qed.

Lemma name_key_space c s : is_whitespace c = true -> name_key (c :: s) = name_key s.
Proof. intros H. unfold name_key. cbn [List.filter]. by rewrite H. Qed.

Lemma normalize_loop_key s : forall out space,
  name_key (normalize_loop out space s) = name_key out ++ name_key s.
Proof.
  induction s as [|c s IH]; intros out space; cbn [normalize_loop].
  { by rewrite app_nil_r. }
  destruct (is_whitespace c) eqn:E; rewrite IH.
  { by rewrite (name_key_space c s E). }
  rewrite name_key_app, (name_key_char c E).
  change (c :: s) with ([c] ++ s). rewrite (name_key_app [c] s), !app_assoc.
  destruct space; [|done]. rewrite name_key_app.
  replace (name_key (u " ")) with ([] : str) by (vm_compute; reflexivity). by rewrite app_nil_r.
Qed.

Lemma drop_while_key s : name_key (drop_while is_whitespace s) = name_key s.
Proof.
  induction s as [|c s IH]; [done|]. cbn [drop_while]. destruct (is_whitespace c) eqn:E; [|done].
  by rewrite IH, name_key_space.
Qed.

Lemma name_key_reverse s : name_key (reverse s) = reverse (name_key s).
Proof.
  induction s as [|c s IH]; [done|]. rewrite reverse_cons, name_key_app, IH.
  change (c :: s) with ([c] ++ s). rewrite (name_key_app [c] s), reverse_app. f_equal.
  unfold name_key. cbn [List.filter]. by destruct (_ && _).
Qed.

Lemma trim_key s : name_key (trim s) = name_key s.
Proof.
  unfold trim, trim_by, trim_end_by, trim_start_by.
  by rewrite name_key_reverse, drop_while_key, name_key_reverse, reverse_involutive, drop_while_key.
Qed.

Lemma normalize_law_name_key s :
  name_key (normalize_law_name s) = name_key (trim_by name_quote (trim s)).
Proof. unfold normalize_law_name. by rewrite normalize_loop_key, trim_key. Qed.

(** * Properties *)

(** C35. Resolution of a law name is a lookup, by the key of the name without its
    quotes, in the table of spellings: a listed spelling is resolved to its official
    name, whatever its spacing, middle dots and case; any other name is returned
    normalized and unchanged. The alias reported is one of the entry whose title is
    returned, and an official name resolves to itself. *)
Theorem resolve_law_name_spec input :
  let r := resolve_law_name input in
  let key := name_key (trim_by name_quote (trim input)) in
  ln_input r = input /\
  ln_normalized r = normalize_law_name input /\
  (forall name, (key, name) ∈ spellings ->
     ln_resolved r = name /\
     resolve_law_name name =
       {| ln_input := name; ln_normalized := name; ln_resolved := name; ln_matched_alias := None |}) /\
  ((forall name, (key, name) ∉ spellings) ->
     ln_resolved r = normalize_law_name input /\ ln_matched_alias r = None) /\
  (forall alias, ln_matched_alias r = Some alias ->
     exists entry, entry ∈ LAW_ALIASES /\ alias ∈ entry.2 /\
       (ln_resolved r = entry.1 \/
        exists suffix, suffix ∈ SUFFIXES /\ ln_resolved r = entry.1 ++ u " " ++ suffix)).
Proof.
  intros r key. subst r. unfold resolve_law_name at 1 2 3 5 6 7 8 9.
  rewrite normalize_law_name_key. fold key.
  destruct (expand_key key) as [[resolved alias]|] eqn:E;
    cbn [ln_input ln_normalized ln_resolved ln_matched_alias]; split_and!; try done.
  - intros name H. destruct (spelling_sound key name H) as ([a Ha] & Hk & Hn).
    split; [congruence|]. unfold resolve_law_name. by rewrite Hn, Hk.
  - intros H. destruct (expand_key_sound _ _ _ E) as [K _]. destruct (H _ K).
  - intros a ->. by destruct (expand_key_sound _ _ _ E) as [_ K].
  - intros name H. destruct (spelling_sound key name H) as ([a Ha] & _). congruence.
Qed.

(** * Similarity *)

(** Rounded division of a share of a hundred *)
Lemma percent_nearest shared union :
  0 <= shared <= union -> 0 < union ->
  let n := (shared * 100 + union / 2) / union in
  0 <= n <= 100 /\ -union <= 2 * (n * union - shared * 100) <= union.
Proof.
  intros Hs Hu n.
  pose proof (Z.div_mod union 2 ltac:(lia)). pose proof (Z.mod_pos_bound union 2 ltac:(lia)).
  pose proof (Z.div_mod (shared * 100 + union / 2) union ltac:(lia)) as E. fold n in E.
  pose proof (Z.mod_pos_bound (shared * 100 + union / 2) union ltac:(lia)).
  split; [|lia]. split.
  - apply Z.div_pos; lia.
  - enough (n < 101) by lia. apply Z.div_lt_upper_bound; lia.
Qed.

Lemma grams_size (g h : gset (char * char)) :
  0 <= Z.of_nat (size (g ∩ h)) <= Z.of_nat (size (g ∪ h)).
Proof. split; [lia|]. apply Nat2Z.inj_le, subseteq_size. set_solver. Qed.

(** The similarity of two titles is symmetric; it exists when both titles have a
    letter or digit, is 100 when one title contains the other up to punctuation, and
    otherwise the percentage, to the nearest integer, of the pairs of neighbouring
    characters that the titles share; the conversion to a byte loses nothing. *)
Theorem title_similarity_spec `{CharTables} cited retained :
  let a := List.filter is_alphanumeric cited in
  let b := List.filter is_alphanumeric retained in
  title_similarity cited retained = title_similarity retained cited /\
  match title_similarity cited retained with
  | None => a = [] \/ b = []
  | Some n =>
    a <> [] /\ b <> [] /\ 0 <= n <= 100 /\
    if contains_str b a || contains_str a b then n = 100
    else
      let union := Z.of_nat (size (grams a ∪ grams b)) in
      let shared := Z.of_nat (size (grams a ∩ grams b)) in
      if union =? 0 then n = 0 else -union <= 2 * (n * union - shared * 100) <= union
  end.
Proof.
  intros a b. unfold title_similarity. fold a b. split.
  - rewrite (orb_comm (str_eqb b [])), (orb_comm (contains_str a b)).
    by rewrite (union_comm_L (grams b)), (intersection_comm_L (grams b)).
  - destruct (str_eqb a [] || str_eqb b []) eqn:E.
    { apply orb_prop in E as [E|E]; apply str_eqb_eq in E; auto. }
    apply orb_false_iff in E as [Ea Eb].
    assert (a <> [] /\ b <> []) as [Ha Hb].
    { split; intros K; [rewrite K in Ea | rewrite K in Eb]; done. }
    destruct (contains_str b a || contains_str a b); [split_and!; [done..|lia]|].
    destruct (_ =? 0) eqn:U; [split_and!; [done..|lia]|]. apply Z.eqb_neq in U.
    pose proof (grams_size (grams a) (grams b)) as G.
    destruct (percent_nearest _ _ G ltac:(lia)) as [Hn Hr].
    rewrite Z.mod_small by lia. auto.
Qed.
