(* ===== verification/KrArticles.v ===== *)
(** Article locators of the Korean reference profile:
    [crates/normalization/src/kr_legal_reference.rs], lines 297 to 691 and the annex
    labels, with [ArticleNumber] of [crates/domain/src/legal_reference.rs].

    Positions are byte offsets into the text, as in the source, and a slice off a
    character boundary panics. *)

From S2P Require Import Prelude Utf8 Strings Domain Legal TextDiff Slices KrNames.

(** * Locators *)

Record ArticleNumber := { an_number : Z; an_part : option Z; an_branch : option Z }.

#[export] Instance ArticleNumber_eq_dec : EqDecision ArticleNumber.
Proof. solve_decision. Defined.

(** The derived [Ord]: fields in order, [None] first. *)
Definition option_cmp (a b : option Z) : comparison :=
  match a, b with
  | None, None => Eq
  | None, Some _ => Lt
  | Some _, None => Gt
  | Some a, Some b => a ?= b
  end.
Definition article_cmp (a b : ArticleNumber) : comparison :=
  match an_number a ?= an_number b with
  | Eq => match option_cmp (an_part a) (an_part b) with
          | Eq => option_cmp (an_branch a) (an_branch b)
          | c => c
          end
  | c => c
  end.

Definition option_map_str {A} (f : A -> str) (o : option A) : str :=
  match o with Some a => f a | None => [] end.

(** [Display] *)
Definition show_article (a : ArticleNumber) : str :=
  u "제" ++ show_Z (an_number a)
  ++ option_map_str (fun part => u "-" ++ show_Z part) (an_part a)
  ++ u "조"
  ++ option_map_str (fun branch => u "의" ++ show_Z branch) (an_branch a).

(** * Scanning *)

Section scanning.
Context {E : Type}.

(** The loop of [digits]: at most [n] more digits from [end_]. *)
Fixpoint digits_end (n : nat) (text : str) (end_ : Z) : Z :=
  match n with
  | O => end_
  | S n =>
    match byte_at text end_ with
    | Some b => if is_ascii_digit b then digits_end n text (end_ + 1) else end_
    | None => end_
    end
  end.

Definition digit_at (text : str) (i : Z) : bool :=
  match byte_at text i with Some b => is_ascii_digit b | None => false end.

Definition digits (text : str) (at_ : Z) (max : nat) : result (stop E) (option (Z * Z)) :=
  let end_ := digits_end max text at_ in
  if (end_ =? at_) || digit_at text end_ then Ok None
  else
    let? d := slice text at_ end_ in
    Ok ((fun n => (n, end_)) <$> parse_u32 d).

Fixpoint skip_spaces (text : str) (at_ : Z) (max : nat) : Z :=
  match max with
  | O => at_
  | S max =>
    match byte_at text at_ with
    | Some b => if b =? 32 then skip_spaces text (at_ + 1) max else at_
    | None => at_
    end
  end.

Definition locator_prefix (text : str) : option char :=
  match head text with
  | Some c => if contains_char c (u "제第") then Some c else None
  | None => None
  end.

Definition unit_number (text : str) (at_ : Z) (unit : char) : result (stop E) (option (Z * Z)) :=
  let?? rest := found (str_from text at_) in
  let?? prefix := found (locator_prefix rest) in
  let at_ := skip_spaces text (at_ + len_utf8 prefix) 1 in
  let?? (n, end_) := digits text at_ 5 in
  let end_ := skip_spaces text end_ 1 in
  if n =? 0 then Ok None else
  let? tail := slice_from text end_ in
  if negb (starts_with [unit] tail) then Ok None
  else Ok (Some (n, end_ + len_utf8 unit)).

(** [if text[end..].starts_with(mark) && let Some((p, after)) = digits(..) && p > 0]:
    the optional number behind a mark, and where the text goes on. *)
Definition marked (mark : char) (text : str) (end_ : Z) : result (stop E) (option Z * Z) :=
  let? tail := slice_from text end_ in
  if negb (starts_with [mark] tail) then Ok (None, end_) else
  let? d := digits text (end_ + len_utf8 mark) 3 in
  match d with
  | Some (p, after) => if 0 <? p then Ok (Some p, after) else Ok (None, end_)
  | None => Ok (None, end_)
  end.

Definition article_at (text : str) (at_ : Z) : result (stop E) (option (ArticleNumber * Z)) :=
  let?? rest := found (str_from text at_) in
  let?? prefix := found (locator_prefix rest) in
  let start := skip_spaces text (at_ + len_utf8 prefix) 1 in
  let?? (number, end_) := digits text start 5 in
  let? (part, end_) := marked (ch "-") text end_ in
  let end_ := skip_spaces text end_ 1 in
  let? tail := slice_from text end_ in
  let?? unit := found (head tail) in
  if (number =? 0) || negb (contains_char unit (u "조條")) then Ok None else
  let end_ := end_ + len_utf8 unit in
  let? (branch, end_) := marked (ch "의") text end_ in
  Ok (Some ({| an_number := number; an_part := part; an_branch := branch |}, end_)).

(** [text.match_indices(['제', '第'])] *)
Fixpoint locator_indices (off : Z) (s : str) : list Z :=
  match s with
  | [] => []
  | c :: s =>
    (if contains_char c (u "제第") then [off] else []) ++ locator_indices (off + len_utf8 c) s
  end.

(** [('가'..='힣').contains(&c)] *)
Definition is_hangul (c : char) : bool := in_range 0xAC00 0xD7A3 c.

Fixpoint mentions_loop (text : str) (indices : list Z) (found_ : list (ArticleNumber * Z * Z))
  : result (stop E) (list (ArticleNumber * Z * Z)) :=
  match indices with
  | [] => Ok found_
  | at_ :: indices =>
    let inside := match last found_ with Some (_, _, end_) => at_ <? end_ | None => false end in
    if inside then mentions_loop text indices found_ else
    let? before := slice_to text at_ in
    if match last before with Some c => is_hangul c | None => false end
    then mentions_loop text indices found_
    else
      let? a := article_at text at_ in
      match a with
      | Some (number, end_) => mentions_loop text indices (found_ ++ [(number, at_, end_)])
      | None => mentions_loop text indices found_
      end
  end.
Definition article_mentions (text : str) : result (stop E) (list (ArticleNumber * Z * Z)) :=
  mentions_loop text (locator_indices 0 text) [].

Definition strip_either (a b : char) (s : str) : str :=
  match strip_prefix [a] s with
  | Some t => t
  | None => match strip_prefix [b] s with Some t => t | None => s end
  end.

(** [branch] of a supplied locator: everything that is left, or nothing. *)
Definition whole_branch (rest : str) : result (stop E) (option (option Z)) :=
  if str_eqb rest [] then Ok (Some None) else
  let?? tail := found (strip_prefix (u "의") rest) in
  let?? (m, end_) := digits tail 0 3 in
  if negb (end_ =? slen tail) || (m =? 0) then Ok None else Ok (Some (Some m)).

Definition without_whitespace (s : str) : str := List.filter (fun c => negb (is_whitespace c)) s.

Definition parse_article_number (value : str) : result (stop E) (option ArticleNumber) :=
  let compact := without_whitespace value in
  let body := strip_either (ch "제") (ch "第") compact in
  let?? (number, end_) := digits body 0 5 in
  let? rest := slice_from body end_ in
  let?? (part, rest) :=
    match strip_prefix (u "-") rest with
    | Some tail =>
      let?? (p, end_) := digits tail 0 3 in
      if p =? 0 then Ok None else
      let? rest := slice_from tail end_ in
      Ok (Some (Some p, rest))
    | None => Ok (Some (None, rest))
    end in
  let rest := strip_either (ch "조") (ch "條") rest in
  let?? branch := whole_branch rest in
  Ok (if 0 <? number
      then Some {| an_number := number; an_part := part; an_branch := branch |}
      else None).

Definition circled_number (c : char) : option Z :=
  if in_range 0x2460 0x2473 c then Some (c - 0x2460 + 1)
  else if in_range 0x3251 0x325F c then Some (c - 0x3251 + 21)
  else if in_range 0x32B1 0x32BF c then Some (c - 0x32B1 + 36)
  else None.

(** The closing parenthesis in [window.char_indices()]. *)
Fixpoint find_close (off : Z) (s : str) : option (Z * char) :=
  match s with
  | [] => None
  | c :: s =>
    if negb ((off <? 200) && negb (c =? LF)) then None
    else if contains_char c (u ")）") then Some (off, c)
    else find_close (off + len_utf8 c) s
  end.

Definition parenthetical (text : str) (at_ : Z) : result (stop E) (option (str * Z)) :=
  let?? rest := found (str_from text at_) in
  let?? open :=
    found (if starts_with (u "(") rest then Some (ch "(")
           else if starts_with (u "（") rest then Some (ch "（") else None) in
  let inner_start := at_ + len_utf8 open in
  let? window := slice_from text inner_start in
  let?? close := found (find_close 0 window) in
  let? inner := slice_to window close.1 in
  Ok (Some (inner, inner_start + close.1 + len_utf8 close.2)).

(** * Articles *)

Record LocatedArticle := {
  la_section_id : str; la_number : ArticleNumber; la_title : str; la_text : str;
  la_deleted : bool; la_paragraphs : list Z;
}.

Inductive ArticleLookup :=
| Found (article : LocatedArticle)
| NotFound (first last_ : option ArticleNumber).

Definition line_number (line : str) : option Z := head (trim_start line) ≫= circled_number.

Definition build_article (section_id title_hint text : str) : result (stop E) (option LocatedArticle) :=
  let text := trim text in
  let?? (number, end_) := article_at text 0 in
  let title := trim title_hint in
  let? p := parenthetical text end_ in
  let '(title, end_) :=
    match p with
    | Some (inner, after) => (if str_eqb title [] then trim inner else title, after)
    | None => (title, end_)
    end in
  let? tail := slice_from text end_ in
  let deleted := starts_with (u "삭제") (trim_start tail) in
  let inline := head (lines tail) ≫= line_number in
  let paragraphs := option_list inline ++ omap line_number (drop 1 (lines text)) in
  Ok (Some {| la_section_id := section_id; la_number := number; la_title := title; la_text := text;
              la_deleted := deleted; la_paragraphs := paragraphs |}).

Definition heading_rank (level : char) : Z :=
  if level =? ch "편" then 0 else if level =? ch "장" then 1 else if level =? ch "절" then 2 else 3.

Definition heading_level (level : char) : option char :=
  if contains_char level (u "편編") then Some (ch "편")
  else if contains_char level (u "장章") then Some (ch "장")
  else if contains_char level (u "절節") then Some (ch "절")
  else if contains_char level (u "관款") then Some (ch "관")
  else None.

(** What follows an [의] and its number, which may be missing. *)
Definition after_branch (after : str) : result (stop E) str :=
  match strip_prefix (u "의") after with
  | Some t =>
    let? d := digits t 0 3 in
    match d with Some (_, e) => slice_from t e | None => Ok after end
  | None => Ok after
  end.

Definition heading_at (text : str) : result (stop E) (option (char * Z)) :=
  let text := trim_start text in
  let?? prefix := found (locator_prefix text) in
  let? rest := slice_from text (len_utf8 prefix) in
  let?? (n, end_) := digits rest 0 4 in
  let? tail := slice_from rest end_ in
  let?? level := found (head tail) in
  let?? normalized_level := found (heading_level level) in
  if n =? 0 then Ok None else
  let? after := slice_from rest (end_ + len_utf8 level) in
  let? after := after_branch after in
  Ok (if match head after with
         | None => true
         | Some c => is_whitespace c || (c =? ch "<") || (c =? ch "(")
         end
      then Some (normalized_level, n) else None).

Definition starts_article (line : str) : result (stop E) bool :=
  let? a := article_at line 0 in
  match a with
  | Some (_, end_) =>
    let? rest := slice_from line end_ in
    Ok (starts_with (u "(") rest || starts_with (u "（") rest || str_eqb (trim rest) []
        || starts_with (u "삭제") (trim_start rest))
  | None => Ok false
  end.

Inductive OutlineUnit :=
| Heading (level : char) (number : Z) (text : str)
| Article (article : LocatedArticle).

Definition BLOCK_SECTIONS : list str := [u "조문내용"; u "조내용"; u "전문"].

(** The units with the open block, if any, appended; the caller's [open] becomes [None]. *)
Definition close_block (section_id text : str) (open : option Z) (end_ : Z) (units : list OutlineUnit)
  : result (stop E) (list OutlineUnit) :=
  match open with
  | Some start =>
    let? block := slice text start end_ in
    let? a := build_article section_id [] block in
    Ok (match a with Some article => units ++ [Article article] | None => units end)
  | None => Ok units
  end.

(** The loop over [text.split_inclusive('\n')] *)
Fixpoint block_lines (section_id text : str) (ls : list str) (open : option Z) (offset : Z)
  (units : list OutlineUnit) : result (stop E) (option Z * list OutlineUnit) :=
  match ls with
  | [] => Ok (open, units)
  | line :: ls =>
    let trimmed := trim line in
    let? h := heading_at trimmed in
    match h with
    | Some (level, number) =>
      let? units := close_block section_id text open offset units in
      block_lines section_id text ls None (offset + slen line)
        (units ++ [Heading level number trimmed])
    | None =>
      let? s := starts_article trimmed in
      if s then
        let? units := close_block section_id text open offset units in
        block_lines section_id text ls (Some (offset + (slen line - slen (trim_start line))))
          (offset + slen line) units
      else block_lines section_id text ls open (offset + slen line) units
    end
  end.

Definition outline_section (section : LegalSection) (units : list OutlineUnit)
  : result (stop E) (list OutlineUnit) :=
  if negb (bool_decide (sec_kind section = ProviderText)) then Ok units
  else if starts_with (u "article:") (sec_id section) then
    let text := trim (sec_text section) in
    let? h := heading_at text in
    match h with
    | Some (level, number) => Ok (units ++ [Heading level number text])
    | None =>
      let? a := build_article (sec_id section) (sec_title section) text in
      Ok (match a with Some article => units ++ [Article article] | None => units end)
    end
  else if negb (existsb (str_eqb (sec_title section)) BLOCK_SECTIONS) then Ok units
  else
    let text := sec_text section in
    let? (open, units) := block_lines (sec_id section) text (split_inclusive text) None 0 units in
    close_block (sec_id section) text open (slen text) units.

Fixpoint outline_loop (sections : list LegalSection) (units : list OutlineUnit)
  : result (stop E) (list OutlineUnit) :=
  match sections with
  | [] => Ok units
  | section :: sections =>
    let? units := outline_section section units in outline_loop sections units
  end.
Definition outline (sections : list LegalSection) : result (stop E) (list OutlineUnit) :=
  outline_loop sections [].
End scanning.

(** * Lookup *)

(** [first.min(Some(n)).or(Some(n))] and [last.max(Some(n))]: [None] is the least. *)
Definition min_article (first : option ArticleNumber) (n : ArticleNumber) : option ArticleNumber :=
  match first with
  | None => Some n
  | Some f => match article_cmp f n with Gt => Some n | _ => Some f end
  end.
Definition max_article (last_ : option ArticleNumber) (n : ArticleNumber) : option ArticleNumber :=
  match last_ with
  | None => Some n
  | Some l => match article_cmp l n with Gt => Some l | _ => Some n end
  end.

Definition alternate (wanted : ArticleNumber) : option ArticleNumber :=
  (fun p => {| an_number := an_number wanted; an_part := None; an_branch := Some p |})
    <$> an_part wanted.

Fixpoint locate_loop (wanted : ArticleNumber) (units : list OutlineUnit)
  (first last_ : option ArticleNumber) (fallback : option LocatedArticle) : ArticleLookup :=
  match units with
  | [] => match fallback with Some article => Found article | None => NotFound first last_ end
  | Heading _ _ _ :: units => locate_loop wanted units first last_ fallback
  | Article article :: units =>
    let n := la_number article in
    if bool_decide (n = wanted) then Found article
    else
      let fallback :=
        if bool_decide (an_branch wanted = None) && bool_decide (Some n = alternate wanted)
           && negb (is_some fallback)
        then Some article else fallback in
      locate_loop wanted units (min_article first n) (max_article last_ n) fallback
  end.

Definition locate_article {E} (sections : list LegalSection) (wanted : ArticleNumber)
  : result (stop E) ArticleLookup :=
  let? units := outline sections in
  Ok (locate_loop wanted units None None None).

(** The loop of [has_subparagraph] over the lines behind the first *)
Fixpoint subparagraph_loop {E} (paragraph : option Z) (wanted : Z) (inside : bool) (ls : list str)
  : result (stop E) bool :=
  match ls with
  | [] => Ok false
  | line :: ls =>
    let line := trim_start line in
    match head line ≫= circled_number with
    | Some n =>
      let inside := match paragraph with Some p => p =? n | None => true end in
      subparagraph_loop paragraph wanted inside ls
    | None =>
      if negb inside then subparagraph_loop paragraph wanted inside ls else
      let? d := digits line 0 3 in
      match d with
      | Some (n, end_) =>
        if n =? wanted then
          let? tail := slice_from line end_ in
          if starts_with (u ".") tail then Ok true
          else subparagraph_loop paragraph wanted inside ls
        else subparagraph_loop paragraph wanted inside ls
      | None => subparagraph_loop paragraph wanted inside ls
      end
    end
  end.

Fixpoint find_map {A B} (f : A -> option B) (l : list A) : option B :=
  match l with
  | [] => None
  | a :: l => match f a with Some b => Some b | None => find_map f l end
  end.

Definition has_subparagraph {E} (article : LocatedArticle) (paragraph : option Z) (wanted : Z)
  : result (stop E) bool :=
  let inline := head (lines (la_text article)) ≫= find_map circled_number in
  let inside :=
    negb (is_some paragraph) || bool_decide (la_paragraphs article = [])
    || is_some inline && bool_decide (inline = paragraph) in
  subparagraph_loop paragraph wanted inside (drop 1 (lines (la_text article))).

(** * Annexes *)

Record AnnexLabel := { al_number : Z; al_branch : option Z }.

#[export] Instance AnnexLabel_eq_dec : EqDecision AnnexLabel.
Proof. solve_decision. Defined.

(** [Display] *)
Definition show_annex (a : AnnexLabel) : str :=
  u "별표 " ++ show_Z (al_number a)
  ++ option_map_str (fun branch => u "의" ++ show_Z branch) (al_branch a).

Definition strip_optional (p s : str) : str :=
  match strip_prefix p s with Some t => t | None => s end.

Definition parse_annex_label {E} (value : str) : result (stop E) (option AnnexLabel) :=
  let compact :=
    List.filter (fun c => negb (is_whitespace c) && negb (c =? ch "[") && negb (c =? ch "]")) value in
  let body := strip_optional (u "제") (strip_optional (u "별표") compact) in
  let?? (number, end_) := digits body 0 4 in
  let? rest := slice_from body end_ in
  let?? branch := whole_branch rest in
  Ok (if 0 <? number then Some {| al_number := number; al_branch := branch |} else None).

Definition annex_marker {E} (text : str) : result (stop E) (option AnnexLabel) :=
  let? window := align_down 3 text (Z.min 400 (slen text)) in
  let? head_ := slice_to text window in
  let?? at_ := found (find_str (u "별표") head_) in
  let start := skip_spaces text (at_ + slen (u "별표")) 1 in
  let?? (number, end_) := digits text start 4 in
  let? tail := slice_from text end_ in
  let? branch :=
    if starts_with (u "의") tail then
      let? d := digits text (end_ + len_utf8 (ch "의")) 3 in Ok (fst <$> d)
    else Ok None in
  Ok (if 0 <? number then Some {| al_number := number; al_branch := branch |} else None).

Record LocatedAnnex := {
  lx_label : AnnexLabel; lx_section_id : str; lx_title : str; lx_text : str;
  lx_kind : SectionKind; lx_sparse : bool;
}.

Definition annex_section {E} (section : LegalSection) : result (stop E) (option LocatedAnnex) :=
  let candidate :=
    match sec_kind section with
    | ProviderText => str_eqb (sec_title section) (u "별표내용")
    | Extracted => true
    | Ocr => false
    end in
  if negb candidate then Ok None else
  let?? label := annex_marker (sec_text section) in
  let hangul := countb is_hangul (sec_text section) in
  Ok (Some {| lx_label := label; lx_section_id := sec_id section; lx_title := sec_title section;
              lx_text := trim (sec_text section); lx_kind := sec_kind section;
              lx_sparse := (hangul <? 20) || contains_str (u "<img") (sec_text section) |}).

Fixpoint annex_sections {E} (sections : list LegalSection) : result (stop E) (list LocatedAnnex) :=
  match sections with
  | [] => Ok []
  | section :: sections =>
    let? a := annex_section section in
    let? l := annex_sections sections in
    Ok (option_list a ++ l)
  end.

(** [sort_by_key] with a boolean key: stable, [false] first *)
Definition sort_by_flag {A} (key : A -> bool) (l : list A) : list A :=
  List.filter (fun a => negb (key a)) l ++ List.filter key l.

Definition annexes {E} (sections : list LegalSection) : result (stop E) (list LocatedAnnex) :=
  let? l := annex_sections sections in
  Ok (sort_by_flag (fun a => negb (bool_decide (lx_kind a = ProviderText))) l).

Definition locate_annex {E} (sections : list LegalSection) (wanted : AnnexLabel)
  : result (stop E) (list LocatedAnnex) :=
  let? l := annexes sections in
  Ok (List.filter (fun a => bool_decide (lx_label a = wanted)) l).

(** * Overruling phrases *)

Definition OVERRULING_PHRASES : list str :=
  [u "변경하기로 한다"; u "변경하기로 하며"; u "모두 변경"; u "견해를 변경";
   u "더 이상 유지할 수 없"; u "폐기하기로"].

Definition overruling_phrase (line : str) : option str :=
  let compact := without_whitespace line in
  List.find (fun phrase => contains_str (without_whitespace phrase) compact) OVERRULING_PHRASES.
