(* ===== verification/KrScan.v ===== *)
(** The scanners of article locators as parsers over characters: what remains of the
    text at an offset, the reference parsers, and that the byte-offset functions
    compute them without a panic. *)

From S2P Require Import Prelude Utf8 Strings Domain Legal TextDiff Slices KrNames KrArticles.

(** * Positions *)

(** The offset [at_] of [text] is a character boundary in front of [rest]. *)
Definition at_suffix (text : str) (at_ : Z) (rest : str) : Prop :=
  exists pre, text = pre ++ rest /\ at_ = slen pre.

Lemma at_suffix_start text : at_suffix text 0 text.
Proof. by exists []. Qed.
#[export] Hint Resolve at_suffix_start : core.

Lemma at_suffix_app text at_ p rest :
  at_suffix text at_ (p ++ rest) -> at_suffix text (at_ + slen p) rest.
Proof. intros (pre & -> & ->). exists (pre ++ p). by rewrite app_assoc, slen_app. Qed.

Lemma at_suffix_cons text at_ c rest :
  at_suffix text at_ (c :: rest) -> at_suffix text (at_ + len_utf8 c) rest.
Proof. intros (pre & -> & ->). exists (pre ++ [c]). rewrite <- app_assoc, slen_app. cbn. split; [done|lia]. Qed.

Lemma at_suffix_shift text u_ at_ o rest :
  at_suffix text at_ u_ -> at_suffix u_ o rest -> at_suffix text (at_ + o) rest.
Proof. intros (p & -> & ->) (q & -> & ->). exists (p ++ q). by rewrite app_assoc, slen_app. Qed.

Lemma at_suffix_from text at_ rest : at_suffix text at_ rest -> str_from text at_ = Some rest.
Proof. intros (pre & -> & ->). apply str_from_app. Qed.

Lemma at_suffix_slice_from {E} text at_ rest :
  at_suffix text at_ rest -> slice_from text at_ = @Ok (stop E) _ rest.
Proof. intros (pre & -> & ->). apply slice_from_app. Qed.

Lemma at_suffix_slice {E} text at_ p rest :
  at_suffix text at_ (p ++ rest) -> slice text at_ (at_ + slen p) = @Ok (stop E) _ p.
Proof. intros (pre & -> & ->). apply slice_app. Qed.

Lemma at_suffix_bound text at_ rest : at_suffix text at_ rest -> 0 <= at_ <= slen text.
Proof. intros (pre & -> & ->). rewrite slen_app. pose proof (slen_nonneg pre). pose proof (slen_nonneg rest). lia. Qed.

Lemma at_suffix_length text at_ rest : at_suffix text at_ rest -> at_ = slen text - slen rest.
Proof. intros (pre & -> & ->). rewrite slen_app. lia. Qed.

(** The text between two positions *)
Lemma at_suffix_between {E} text a b p rest :
  at_suffix text a (p ++ rest) -> at_suffix text b rest -> slice text a b = @Ok (stop E) _ p.
Proof.
  intros Ha Hb. rewrite (at_suffix_length _ _ _ Hb), <- (at_suffix_slice _ _ _ _ Ha).
  f_equal. apply at_suffix_length in Ha. rewrite slen_app in Ha. lia.
Qed.

(** A test for ASCII characters sees the same on the first byte and on the character. *)
Lemma byte_at_suffix (p : Z -> bool) text at_ rest :
  (forall c, p c = true -> c < 128) -> at_suffix text at_ rest ->
  match byte_at text at_ with Some b => p b | None => false end
  = match head rest with Some c => p c | None => false end.
Proof.
  intros Hp (pre & -> & ->). rewrite byte_at_app. destruct rest as [|c rest]; [done|].
  pose proof (forallb_bytes_ascii p [c] Hp) as H. cbn [bytes forallb] in H.
  rewrite andb_true_r, app_nil_r in H. cbn [head]. rewrite <- H.
  assert (forall b l, 0x80 <= b -> p b = forallb p (b :: l)) as K.
  { intros b l Hb. cbn. destruct (p b) eqn:Eb; [apply Hp in Eb; lia|done]. }
  cbn [bytes]. unfold encode_char. destruct (Z.ltb_spec c 0x80); [cbn; by rewrite andb_true_r|].
  destruct (Z.ltb_spec c 0x800); [|destruct (Z.ltb_spec c 0x10000)]; cbn [app head]; apply K;
    [pose proof (Z.div_pos c 64) | pose proof (Z.div_pos c 4096) | pose proof (Z.div_pos c 262144)];
    lia.
Qed.

(** * What the scanners read *)

Fixpoint leading (p : char -> bool) (s : str) : str :=
  match s with [] => [] | c :: s => if p c then c :: leading p s else [] end.

Lemma leading_drop p s : leading p s ++ drop_while p s = s.
Proof. induction s as [|c s IH]; [done|]. cbn. destruct (p c); [cbn; by rewrite IH|done]. Qed.

Lemma leading_all p s : forallb p (leading p s) = true.
Proof. induction s as [|c s IH]; [done|]. cbn. destruct (p c) eqn:E; [cbn; by rewrite E|done]. Qed.

(** A number of at most [max] digits that no digit follows *)
Definition digits_ref (max : nat) (s : str) : option (Z * str) :=
  let d := leading is_ascii_digit s in
  if bool_decide (d = []) || (Z.of_nat max <? zlen d) then None
  else Some (digits_value 0 d, drop_while is_ascii_digit s).

(** One optional space *)
Definition skip_space (s : str) : str :=
  match s with c :: s' => if c =? 32 then s' else s | [] => [] end.

(** A mark with a positive number of at most three digits, or nothing *)
Definition marked_ref (mark : char) (s : str) : option Z * str :=
  match strip_prefix [mark] s with
  | Some t =>
    match digits_ref 3 t with
    | Some (p, r) => if 0 <? p then (Some p, r) else (None, s)
    | None => (None, s)
    end
  | None => (None, s)
  end.

(** The grammar of article locators *)
Definition article_ref (s : str) : option (ArticleNumber * str) :=
  match s with
  | [] => None
  | c :: s =>
    if negb (contains_char c (u "제第")) then None else
    match digits_ref 5 (skip_space s) with
    | None => None
    | Some (number, s) =>
      let '(part, s) := marked_ref (ch "-") s in
      match skip_space s with
      | [] => None
      | unit :: s =>
        if (number =? 0) || negb (contains_char unit (u "조條")) then None else
        let '(branch, s) := marked_ref (ch "의") s in
        Some ({| an_number := number; an_part := part; an_branch := branch |}, s)
      end
    end
  end.

(** [제{n}{unit}] *)
Definition unit_ref (unit : char) (s : str) : option (Z * str) :=
  match s with
  | [] => None
  | c :: s =>
    if negb (contains_char c (u "제第")) then None else
    match digits_ref 5 (skip_space s) with
    | None => None
    | Some (n, s) =>
      match skip_space s with
      | [] => None
      | c :: s => if (n =? 0) || negb (c =? unit) then None else Some (n, s)
      end
    end
  end.

(** A scanner at an offset computes a reference parser: the same value, and the end
    of what it read. *)
Definition reads {E A} (text : str) (m : result (stop E) (option (A * Z))) (ref : option (A * str)) : Prop :=
  match ref with
  | None => m = Ok None
  | Some (a, rest) => exists end_, m = Ok (Some (a, end_)) /\ at_suffix text end_ rest
  end.

(** * The scanners compute the reference parsers *)

Lemma digit_ascii c : is_ascii_digit c = true -> c < 128.
Proof. intros ?%ascii_digit_bounds. lia. Qed.

Lemma leading_step p c s : p c = true -> leading p (c :: s) = c :: leading p s.
Proof. intros H. cbn. by rewrite H. Qed.

Lemma digit_at_suffix text at_ rest :
  at_suffix text at_ rest ->
  digit_at text at_ = match head rest with Some c => is_ascii_digit c | None => false end.
Proof. apply byte_at_suffix, digit_ascii. Qed.

(** The loop stops behind the digits, or behind [n] of them. *)
Lemma digits_end_spec n : forall text at_ rest,
  at_suffix text at_ rest ->
  digits_end n text at_ = at_ + Z.min (Z.of_nat n) (zlen (leading is_ascii_digit rest)).
Proof.
  induction n as [|n IH]; intros text at_ rest H; cbn [digits_end].
  { pose proof (zlen_nonneg (leading is_ascii_digit rest)). lia. }
  pose proof (digit_at_suffix _ _ _ H) as D. unfold digit_at in D.
  assert (Hstop : match byte_at text at_ with Some b => is_ascii_digit b | None => false end = false ->
    at_ = at_ + Z.min (Z.of_nat (S n)) (zlen (leading is_ascii_digit rest))).
  { intros K. rewrite K in D. destruct rest as [|c rest]; cbn [head leading] in D |- *; [|rewrite <- D]; rewrite (zlen_nil (A := Z)); lia. }
  destruct (byte_at text at_) as [b|]; [|by apply Hstop].
  destruct (is_ascii_digit b) eqn:Eb; [|by apply Hstop].
  destruct rest as [|c rest]; [done|]. cbn [head] in D. symmetry in D.
  rewrite (leading_step _ _ _ D), zlen_cons.
  rewrite (IH text (at_ + 1) rest).
  - lia.
  - apply at_suffix_cons in H. by rewrite len_utf8_ascii in H by by apply digit_ascii.
Qed.

Lemma digits_value_bound s :
  forallb is_ascii_digit s = true -> forall acc, 0 <= acc ->
  0 <= digits_value acc s < (acc + 1) * 10 ^ zlen s.
Proof.
  induction s as [|c s IH]; intros Hd acc Ha.
  { unfold digits_value. cbn [fold_left]. change (zlen (@nil Z)) with 0. lia. }
  cbn in Hd. apply andb_prop in Hd as [Hc%ascii_digit_bounds Hs].
  change (digits_value acc (c :: s)) with (digits_value (acc * 10 + digit_value c) s).
  rewrite zlen_cons, Z.pow_add_r by (pose proof (zlen_nonneg s); lia).
  unfold digit_value. destruct (IH Hs (acc * 10 + (c - 48)) ltac:(lia)) as [H1 H2].
  split; [done|]. pose proof (Z.pow_pos_nonneg 10 (zlen s) ltac:(lia) (zlen_nonneg s)). nia.
Qed.

Lemma leading_ascii s : slen (leading is_ascii_digit s) = zlen (leading is_ascii_digit s).
Proof. apply slen_ascii, digits_ascii, leading_all. Qed.


(** More digits than the limit: the byte behind the last one counted is a digit. *)
Lemma digits_overlong max text at_ rest :
  at_suffix text at_ rest -> Z.of_nat max < zlen (leading is_ascii_digit rest) ->
  digit_at text (at_ + Z.of_nat max) = true.
Proof.
  intros H Hlen. set (l := leading is_ascii_digit rest) in *.
  destruct (drop max l) as [|c q] eqn:Ed.
  { apply (f_equal length) in Ed. rewrite length_drop in Ed. unfold zlen in Hlen. cbn in Ed. lia. }
  assert (E : l = take max l ++ c :: q) by (by rewrite <- Ed, take_drop).
  assert (A : Forall (fun c => is_ascii_digit c = true) l) by apply forallb_Forall, leading_all.
  rewrite E in A. apply Forall_app in A as [A1 A2]. inversion_clear A2 as [|? ? Hc _].
  rewrite <- (leading_drop is_ascii_digit rest) in H. fold l in H. rewrite E, <- app_assoc in H.
  apply at_suffix_app in H.
  rewrite slen_ascii in H by by apply digits_ascii, forallb_Forall.
  replace (zlen (take max l)) with (Z.of_nat max) in H
    by (unfold zlen in *; rewrite length_take; lia).
  rewrite (digit_at_suffix _ _ _ H). done.
Qed.

Lemma digits_reads {E} text at_ rest max :
  (max <= 9)%nat -> at_suffix text at_ rest ->
  reads text (@digits E text at_ max) (digits_ref max rest).
Proof.
  intros Hmax H. unfold digits, digits_ref, reads.
  rewrite (digits_end_spec max _ _ _ H). set (d := leading is_ascii_digit rest).
  pose proof (zlen_nonneg d) as Hnn. pose proof (leading_all is_ascii_digit rest) as Hall. fold d in Hall.
  destruct (bool_decide_reflect (d = [])) as [->|Hne]; cbn [orb].
  { replace (at_ + _) with at_ by (change (zlen (@nil Z)) with 0; lia). by rewrite Z.eqb_refl. }
  destruct (Z.ltb_spec (Z.of_nat max) (zlen d)) as [Hlong|Hshort]; cbn [orb].
  { rewrite Z.min_l by lia. rewrite (digits_overlong _ _ _ _ H Hlong). by rewrite orb_true_r. }
  rewrite Z.min_r by lia.
  assert (Hpos : 0 < zlen d) by (destruct d; [done|rewrite zlen_cons; pose proof (zlen_nonneg d); lia]).
  assert (Hend : at_suffix text (at_ + zlen d) (drop_while is_ascii_digit rest)).
  { unfold d. rewrite <- leading_ascii. apply at_suffix_app. by rewrite leading_drop. }
  rewrite (proj2 (Z.eqb_neq _ _)) by lia. cbn [orb].
  rewrite (digit_at_suffix _ _ _ Hend), drop_while_stops.
  rewrite (at_suffix_between text at_ _ d (drop_while is_ascii_digit rest));
    [|unfold d; by rewrite leading_drop | done].
  unfold parse_u32. rewrite parse_unsigned_digits; [|done|done|].
  - exists (at_ + zlen d). done.
  - destruct (digits_value_bound d Hall 0 ltac:(lia)) as [_ Hb].
    assert (10 ^ zlen d <= 10 ^ 9) by (apply Z.pow_le_mono_r; lia). lia.
Qed.

Lemma skip_spaces_suffix text at_ rest :
  at_suffix text at_ rest -> at_suffix text (skip_spaces text at_ 1) (skip_space rest).
Proof.
  intros H. cbn [skip_spaces].
  pose proof (byte_at_suffix (fun c => c =? 32) _ _ _ ltac:(intros ? ?%Z.eqb_eq; lia) H) as D.
  assert (K : at_suffix text
    (if match byte_at text at_ with Some b => b =? 32 | None => false end then at_ + 1 else at_)
    (skip_space rest)).
  { rewrite D. destruct rest as [|c rest]; [done|]. cbn [head skip_space].
    destruct (Z.eqb_spec c 32) as [->|]; [|done]. by apply at_suffix_cons in H. }
  destruct (byte_at text at_) as [b|]; [|done]. by destruct (b =? 32).
Qed.

Lemma starts_with_single c s : starts_with [c] s = match s with x :: _ => x =? c | [] => false end.
Proof. unfold starts_with. destruct s as [|x s]; [done|]. cbn. rewrite Z.eqb_sym. by destruct (_ =? _). Qed.

Lemma strip_prefix_single c s :
  strip_prefix [c] s = match s with x :: t => if x =? c then Some t else None | [] => None end.
Proof. destruct s as [|x s]; [done|]. cbn. rewrite Z.eqb_sym. by destruct (_ =? _). Qed.

Lemma marked_reads {E} mark text at_ rest :
  at_suffix text at_ rest ->
  exists end_, @marked E mark text at_ = Ok ((marked_ref mark rest).1, end_) /\
    at_suffix text end_ (marked_ref mark rest).2.
Proof.
  intros H. unfold marked, marked_ref. rewrite (at_suffix_slice_from _ _ _ H).
  rewrite starts_with_single, strip_prefix_single.
  destruct rest as [|x t]; [by exists at_|].
  destruct (x =? mark) eqn:Em; [|by exists at_]. apply Z.eqb_eq in Em as ->. cbn [negb].
  pose proof (digits_reads (E := E) _ _ _ 3 ltac:(lia) (at_suffix_cons _ _ _ _ H)) as D. unfold reads in D.
  destruct (digits_ref 3 t) as [[p r]|].
  - destruct D as (end_ & -> & Hend). destruct (0 <? p); [by exists end_|by exists at_].
  - rewrite D. by exists at_.
Qed.

Lemma locator_prefix_cons c s : locator_prefix (c :: s) = if contains_char c (u "제第") then Some c else None.
Proof. done. Qed.

(** [article_at] at a character boundary never panics and reads the grammar. *)
Lemma article_at_reads {E} text at_ rest :
  at_suffix text at_ rest -> reads text (@article_at E text at_) (article_ref rest).
Proof.
  intros H. unfold article_at, article_ref, found. rewrite (at_suffix_from _ _ _ H).
  destruct rest as [|c rest]; [done|]. rewrite locator_prefix_cons.
  destruct (contains_char c (u "제第")) eqn:Ec; [|done]. cbn [negb].
  apply at_suffix_cons, skip_spaces_suffix in H.
  pose proof (digits_reads (E := E) _ _ _ 5 ltac:(lia) H) as D. unfold reads in D.
  destruct (digits_ref 5 (skip_space rest)) as [[number s]|]; [|unfold reads; by rewrite D].
  destruct D as (e1 & -> & H1). cbv beta iota.
  destruct (marked_reads (E := E) (ch "-") _ _ _ H1) as (e2 & -> & H2).
  destruct (marked_ref (ch "-") s) as [part s2]. cbn [fst snd] in *. clear H1 s.
  apply skip_spaces_suffix in H2. rewrite (at_suffix_slice_from _ _ _ H2).
  destruct (skip_space s2) as [|unit s3]; [done|]. cbn [head].
  destruct ((number =? 0) || negb (contains_char unit (u "조條"))); [done|].
  apply at_suffix_cons in H2.
  destruct (marked_reads (E := E) (ch "의") _ _ _ H2) as (e3 & -> & H3).
  destruct (marked_ref (ch "의") s3) as [branch s4]. unfold reads. eauto.
Qed.

Lemma unit_number_reads {E} unit text at_ rest :
  at_suffix text at_ rest -> reads text (@unit_number E text at_ unit) (unit_ref unit rest).
Proof.
  intros H. unfold unit_number, unit_ref, found. rewrite (at_suffix_from _ _ _ H).
  destruct rest as [|c rest]; [done|]. rewrite locator_prefix_cons.
  destruct (contains_char c (u "제第")) eqn:Ec; [|done]. cbn [negb].
  apply at_suffix_cons, skip_spaces_suffix in H.
  pose proof (digits_reads (E := E) _ _ _ 5 ltac:(lia) H) as D. unfold reads in D.
  destruct (digits_ref 5 (skip_space rest)) as [[n s]|]; [|unfold reads; by rewrite D].
  destruct D as (e1 & -> & H1). cbv beta iota. apply skip_spaces_suffix in H1.
  rewrite (at_suffix_slice_from _ _ _ H1).
  destruct (n =? 0); [by destruct (skip_space s)|]. rewrite starts_with_single.
  destruct (skip_space s) as [|x t]; [done|]. cbn [orb].
  destruct (x =? unit) eqn:Ex; [|done]. apply Z.eqb_eq in Ex as ->. cbn [negb].
  unfold reads. apply at_suffix_cons in H1. eauto.
Qed.
