(* ===== verification/KrLocators.v ===== *)
(** Locators: the grammar read back, printing and parsing, and the locators mentioned
    in a text. *)

From S2P Require Import Prelude Utf8 Strings Domain Legal TextDiff Slices KrNames KrArticles KrScan.

(** * Valid locators *)

Definition in_opt (lo hi : Z) (o : option Z) : Prop :=
  match o with Some n => lo <= n <= hi | None => True end.

Definition valid_article (a : ArticleNumber) : Prop :=
  1 <= an_number a <= 99999 /\ in_opt 1 999 (an_part a) /\ in_opt 1 999 (an_branch a).

Definition valid_annex (l : AnnexLabel) : Prop := 1 <= al_number l <= 9999 /\ in_opt 1 999 (al_branch l).

(** * What the reference parsers read *)

Lemma digits_ref_Some max s n r :
  digits_ref max s = Some (n, r) ->
  exists d, s = d ++ r /\ d <> [] /\ 0 <= n < 10 ^ Z.of_nat max /\
    match head r with Some c => is_ascii_digit c | None => false end = false.
Proof.
  unfold digits_ref. case_bool_decide as Hne; [done|]. cbn [orb].
  destruct (Z.ltb_spec (Z.of_nat max) (zlen (leading is_ascii_digit s))) as [|Hlen]; [done|].
  intros [= <- <-]. exists (leading is_ascii_digit s). rewrite leading_drop. split_and!; [done..| | |].
  - by apply digits_value_bound; [apply leading_all|].
  - destruct (digits_value_bound _ (leading_all is_ascii_digit s) 0 ltac:(lia)) as [_ H].
    assert (10 ^ zlen (leading is_ascii_digit s) <= 10 ^ Z.of_nat max) by (apply Z.pow_le_mono_r; lia).
    lia.
  - apply drop_while_stops.
Qed.

Lemma skip_space_split s : exists p, s = p ++ skip_space s.
Proof.
  destruct s as [|c s]; [by exists []|]. cbn. destruct (c =? 32); [by exists [c]|by exists []].
Qed.

Lemma marked_ref_spec mark s p r :
  marked_ref mark s = (p, r) -> (exists q, s = q ++ r) /\ in_opt 1 999 p.
Proof.
  unfold marked_ref. rewrite strip_prefix_single.
  assert (Hnone : (None, s) = (p, r) -> (exists q, s = q ++ r) /\ in_opt 1 999 p)
    by (intros [= <- <-]; split; [by exists []|done]).
  destruct s as [|x t]; [done|]. destruct (x =? mark); [|done].
  destruct (digits_ref 3 t) as [[n t']|] eqn:D; [|done].
  destruct (Z.ltb_spec 0 n) as [Hn|]; [|done]. intros [= <- <-].
  apply digits_ref_Some in D as (d & -> & _ & Hb & _).
  split; [by exists (x :: d)|cbn; lia].
Qed.

Lemma article_ref_Some s a r :
  article_ref s = Some (a, r) ->
  exists q, s = q ++ r /\ q <> [] /\ valid_article a /\
    match head q with Some c => contains_char c (u "제第") | None => false end = true.
Proof.
  unfold article_ref. destruct s as [|c s]; [done|].
  destruct (contains_char c (u "제第")) eqn:Ec; [|done]. cbn [negb].
  destruct (digits_ref 5 (skip_space s)) as [[n s1]|] eqn:D; [|done].
  destruct (marked_ref (ch "-") s1) as [part s2] eqn:M1.
  destruct (skip_space s2) as [|unit s3] eqn:K; [done|].
  destruct (n =? 0) eqn:En; [done|]. cbn [orb].
  destruct (negb (contains_char unit (u "조條"))); [done|].
  destruct (marked_ref (ch "의") s3) as [branch s4] eqn:M2. intros [= <- <-].
  destruct (skip_space_split s) as [w1 ->].
  apply digits_ref_Some in D as (d & -> & _ & Hb & _).
  apply marked_ref_spec in M1 as [[m1 ->] Hp]. apply marked_ref_spec in M2 as [[m2 ->] Hbr].
  destruct (skip_space_split s2) as [w2 Hw2]. rewrite K in Hw2. subst s2.
  exists (c :: w1 ++ d ++ m1 ++ w2 ++ unit :: m2). split_and!; [|done| |done].
  - cbn [app]. f_equal. by rewrite <- !app_assoc.
  - unfold valid_article. cbn [an_number an_part an_branch]. apply Z.eqb_neq in En.
    split_and!; [lia|lia|done|done].
Qed.

(** What is read does not change when the text goes on with whitespace. *)
Lemma whitespace_not_digit c : is_whitespace c = true -> is_ascii_digit c = false.
Proof.
  destruct (is_ascii_digit c) eqn:E; [|done]. apply ascii_digit_bounds in E.
  unfold is_whitespace. intros H. exfalso. revert H.
  assert (c = 48 \/ c = 49 \/ c = 50 \/ c = 51 \/ c = 52 \/ c = 53 \/ c = 54 \/ c = 55 \/ c = 56 \/ c = 57)
    as Hc by lia.
  destruct Hc as [->|[->|[->|[->|[->|[->|[->|[->|[->| ->]]]]]]]]]; by vm_compute.
Qed.

Section continued.
Context (w : char) (t : str) (Hw : is_whitespace w = true).

Lemma leading_continued s : leading is_ascii_digit (s ++ w :: t) = leading is_ascii_digit s.
Proof.
  induction s as [|c s IH]; cbn.
  - by rewrite whitespace_not_digit.
  - by rewrite IH.
Qed.

Lemma drop_digits_continued s :
  drop_while is_ascii_digit (s ++ w :: t) = drop_while is_ascii_digit s ++ w :: t.
Proof.
  induction s as [|c s IH]; cbn.
  - by rewrite whitespace_not_digit.
  - by destruct (is_ascii_digit c).
Qed.

Lemma digits_ref_continued max s :
  digits_ref max (s ++ w :: t) = (fun p => (p.1, p.2 ++ w :: t)) <$> digits_ref max s.
Proof. unfold digits_ref. rewrite leading_continued, drop_digits_continued. by destruct (_ || _). Qed.

Lemma marked_ref_continued mark s :
  is_whitespace mark = false ->
  marked_ref mark (s ++ w :: t) = ((marked_ref mark s).1, (marked_ref mark s).2 ++ w :: t).
Proof.
  intros Hm. unfold marked_ref. rewrite !strip_prefix_single. destruct s as [|x s]; cbn [app].
  - destruct (Z.eqb_spec w mark) as [->|]; [congruence|done].
  - destruct (x =? mark); [|done]. rewrite digits_ref_continued.
    destruct (digits_ref 3 s) as [[n r]|]; [|done]. cbn. by destruct (0 <? n).
Qed.

Lemma article_ref_continued s a r :
  article_ref s = Some (a, r) -> article_ref (s ++ w :: t) = Some (a, r ++ w :: t).
Proof.
  unfold article_ref. destruct s as [|c s]; [done|]. cbn [app].
  destruct (negb (contains_char c (u "제第"))); [done|].
  destruct (digits_ref 5 (skip_space s)) as [[n s1]|] eqn:D; [|done].
  assert (E : skip_space (s ++ w :: t) = skip_space s ++ w :: t).
  { destruct s as [|x s]; [done|]. cbn. by destruct (x =? 32). }
  rewrite E, digits_ref_continued, D. cbn [fmap option_fmap option_map fst snd].
  rewrite marked_ref_continued by reflexivity.
  destruct (marked_ref (ch "-") s1) as [part s2]. cbn [fst snd].
  destruct s2 as [|x s2]; [done|].
  assert (E2 : skip_space ((x :: s2) ++ w :: t) = skip_space (x :: s2) ++ w :: t)
    by (cbn; by destruct (x =? 32)).
  rewrite E2. destruct (skip_space (x :: s2)) as [|unit s3]; [done|]. cbn [app].
  destruct ((n =? 0) || negb (contains_char unit (u "조條"))); [done|].
  rewrite marked_ref_continued by reflexivity.
  destruct (marked_ref (ch "의") s3) as [branch s4]. cbn [fst snd]. by intros [= <- <-].
Qed.
End continued.

(** * Printing and reading back *)

Lemma decimal_digits_short fuel n k :
  (0 < k)%nat -> 0 <= n < 10 ^ Z.of_nat k -> zlen (decimal_digits fuel n []) <= Z.of_nat k.
Proof.
  revert n k. induction fuel as [|fuel IH]; intros n k Hk Hn; cbn [decimal_digits].
  { change (zlen (@nil Z)) with 0. lia. }
  destruct (Z.ltb_spec n 10); [change (zlen [_]) with 1; lia|].
  rewrite decimal_digits_app, zlen_app. change (zlen [_]) with 1.
  destruct k as [|[|k]]; [lia|cbn in Hn; lia|].
  rewrite Nat2Z.inj_succ, Z.pow_succ_r in Hn by lia.
  pose proof (IH (n / 10) (S k) ltac:(lia) ltac:(dlia)). lia.
Qed.

Lemma leading_app p s t :
  forallb p s = true -> match head t with Some c => p c | None => false end = false ->
  leading p (s ++ t) = s.
Proof.
  induction s as [|c s IH]; cbn.
  - destruct t as [|c t]; [done|]. cbn. by intros _ ->.
  - intros [-> Hs]%andb_prop Ht. by rewrite IH.
Qed.

Definition no_digit (s : str) : Prop := match head s with Some c => is_ascii_digit c | None => false end = false.

Lemma digits_ref_show max n rest :
  (0 < max <= 9)%nat -> 0 <= n < 10 ^ Z.of_nat max -> no_digit rest ->
  digits_ref max (show_Z n ++ rest) = Some (n, rest).
Proof.
  intros Hm Hn Hr. destruct (show_Z_spec n) as (Hne & Hd & Hv).
  { assert (10 ^ Z.of_nat max <= 10 ^ 9) by (apply Z.pow_le_mono_r; lia). unfold usize_max. lia. }
  unfold digits_ref. rewrite leading_app by done. rewrite bool_decide_eq_false_2 by done.
  pose proof (decimal_digits_short 20 n max ltac:(lia) Hn) as Hlen. fold (show_Z n) in Hlen.
  rewrite (proj2 (Z.ltb_ge _ _)) by done. cbn [orb]. rewrite Hv. do 2 f_equal.
  rewrite drop_while_app_all by done. by apply drop_while_id.
Qed.

Lemma marked_ref_show mark o rest :
  in_opt 1 999 o -> no_digit rest -> match o, head rest with None, Some c => c <> mark | _, _ => True end ->
  marked_ref mark (option_map_str (fun n => [mark] ++ show_Z n) o ++ rest) = (o, rest).
Proof.
  intros Ho Hr Hm. unfold marked_ref. rewrite strip_prefix_single. destruct o as [n|]; cbn [option_map_str app].
  - rewrite Z.eqb_refl. cbn in Ho. rewrite digits_ref_show; [|lia..|done].
    by rewrite (proj2 (Z.ltb_lt _ _)) by lia.
  - destruct rest as [|c rest]; [done|]. cbn in Hm. by rewrite (proj2 (Z.eqb_neq _ _)).
Qed.

Lemma skip_space_id s : match head s with Some c => c <> 32 | None => True end -> skip_space s = s.
Proof. destruct s as [|c s]; [done|]. cbn. intros H. by rewrite (proj2 (Z.eqb_neq _ _)). Qed.

Lemma show_Z_head n c t : 0 <= n <= usize_max -> match head (show_Z n ++ t) with Some d => d <> c | None => True end
  \/ 48 <= c <= 57.
Proof.
  intros Hn. destruct (show_Z_spec n Hn) as (Hne & Hd & _). destruct (show_Z n) as [|d s]; [done|].
  cbn in *. apply andb_prop in Hd as [Hd%ascii_digit_bounds _]. lia.
Qed.

(** What may not follow a printed locator: more of its number, or a branch. *)
Definition ends_article (a : ArticleNumber) (rest : str) : Prop :=
  no_digit rest /\ match an_branch a, head rest with None, Some c => c <> ch "의" | _, _ => True end.

Lemma article_ref_show a rest :
  valid_article a -> ends_article a rest -> article_ref (show_article a ++ rest) = Some (a, rest).
Proof.
  intros (Hn & Hp & Hb) [Hd Hr]. destruct a as [n part branch]. cbn in Hn, Hp, Hb, Hr.
  unfold show_article, article_ref. cbn [an_number an_part an_branch]. rewrite <- !app_assoc.
  change (u "제") with [ch "제"]. cbn [app].
  replace (contains_char (ch "제") (u "제第")) with true by (vm_compute; reflexivity). cbn [negb].
  change (u "조") with [ch "조"]. change (u "-") with [ch "-"]. change (u "의") with [ch "의"].
  rewrite skip_space_id by (destruct (show_Z_head n 32
    (option_map_str (fun part => [ch "-"] ++ show_Z part) part ++ [ch "조"] ++
      option_map_str (fun branch => [ch "의"] ++ show_Z branch) branch ++ rest)); [unfold usize_max; lia|done|lia]).
  rewrite digits_ref_show; [|lia|lia|by destruct part].
  rewrite marked_ref_show; [|done..|by destruct part].
  rewrite skip_space_id by done. cbn [app].
  rewrite (proj2 (Z.eqb_neq _ _)) by lia.
  replace (contains_char (ch "조") (u "조條")) with true by (vm_compute; reflexivity). cbn [orb negb].
  by rewrite marked_ref_show.
Qed.

(** * Supplied locators *)

(** A branch that takes the rest of a supplied locator, or nothing *)
Definition branch_ref (s : str) : option (option Z) :=
  if str_eqb s [] then Some None else
  match strip_prefix (u "의") s with
  | Some tail =>
    match digits_ref 3 tail with
    | Some (m, r) => if negb (str_eqb r []) || (m =? 0) then None else Some (Some m)
    | None => None
    end
  | None => None
  end.

(** [-{p}], or nothing *)
Definition part_ref (s : str) : option (option Z * str) :=
  match strip_prefix (u "-") s with
  | Some tail =>
    match digits_ref 3 tail with
    | Some (p, r) => if p =? 0 then None else Some (Some p, r)
    | None => None
    end
  | None => Some (None, s)
  end.

(** The grammar of supplied article locators, without whitespace *)
Definition number_ref (s : str) : option ArticleNumber :=
  match digits_ref 5 (strip_either (ch "제") (ch "第") s) with
  | Some (number, s) =>
    match part_ref s with
    | Some (part, s) =>
      match branch_ref (strip_either (ch "조") (ch "條") s) with
      | Some branch =>
        if 0 <? number
        then Some {| an_number := number; an_part := part; an_branch := branch |}
        else None
      | None => None
      end
    | None => None
    end
  | None => None
  end.

Lemma digits_start {E} max s :
  (max <= 9)%nat ->
  match digits_ref max s with
  | Some (n, r) => exists end_, @digits E s 0 max = Ok (Some (n, end_)) /\ at_suffix s end_ r
  | None => @digits E s 0 max = Ok None
  end.
Proof. intros H. exact (digits_reads s 0 s max H (at_suffix_start s)). Qed.

Lemma at_suffix_whole text end_ r : at_suffix text end_ r -> (end_ =? slen text) = str_eqb r [].
Proof.
  intros H%at_suffix_length. apply eq_true_iff_eq. rewrite Z.eqb_eq, str_eqb_eq. split.
  - intros K. apply slen_zero. lia.
  - intros ->. cbn in H. lia.
Qed.

Lemma whole_branch_reads {E} s : @whole_branch E s = Ok (branch_ref s).
Proof.
  unfold whole_branch, branch_ref, found. destruct (str_eqb s []); [done|].
  destruct (strip_prefix (u "의") s) as [tail|]; [|done].
  pose proof (digits_start (E := E) 3 tail ltac:(lia)) as D.
  destruct (digits_ref 3 tail) as [[m r]|]; [|by rewrite D].
  destruct D as (end_ & -> & H). rewrite (at_suffix_whole _ _ _ H). by destruct (_ || _).
Qed.

(** Parsing a supplied locator never panics and reads the grammar. *)
Lemma parse_article_number_reads {E} v :
  @parse_article_number E v = Ok (number_ref (without_whitespace v)).
Proof.
  unfold parse_article_number, number_ref. set (body := strip_either _ _ _).
  pose proof (digits_start (E := E) 5 body ltac:(lia)) as D.
  destruct (digits_ref 5 body) as [[n s]|]; [|by rewrite D].
  destruct D as (e1 & -> & H1). rewrite (at_suffix_slice_from _ _ _ H1). unfold part_ref.
  destruct (strip_prefix (u "-") s) as [tail|].
  - pose proof (digits_start (E := E) 3 tail ltac:(lia)) as D.
    destruct (digits_ref 3 tail) as [[p r]|]; [|by rewrite D].
    destruct D as (e2 & -> & H2). destruct (p =? 0); [done|].
    rewrite (at_suffix_slice_from _ _ _ H2), whole_branch_reads. by destruct (branch_ref _).
  - rewrite whole_branch_reads. by destruct (branch_ref _).
Qed.

Lemma branch_ref_valid s b : branch_ref s = Some b -> in_opt 1 999 b.
Proof.
  unfold branch_ref. destruct (str_eqb s []); [by intros [= <-]|].
  destruct (strip_prefix (u "의") s) as [tail|]; [|done].
  destruct (digits_ref 3 tail) as [[m r]|] eqn:D; [|done].
  destruct (m =? 0) eqn:Em; [by rewrite orb_true_r|]. destruct (negb _); [done|]. intros [= <-].
  apply digits_ref_Some in D as (_ & _ & _ & D & _). cbn. lia.
Qed.

Lemma part_ref_valid s p r : part_ref s = Some (p, r) -> in_opt 1 999 p.
Proof.
  unfold part_ref. destruct (strip_prefix (u "-") s) as [tail|]; [|by intros [= <- <-]].
  destruct (digits_ref 3 tail) as [[m q]|] eqn:D; [|done].
  destruct (m =? 0) eqn:Em; [done|]. intros [= <- <-].
  apply digits_ref_Some in D as (_ & _ & _ & D & _). cbn. lia.
Qed.

Lemma number_ref_valid s a : number_ref s = Some a -> valid_article a.
Proof.
  unfold number_ref. destruct (digits_ref 5 _) as [[n s1]|] eqn:D; [|done].
  destruct (part_ref s1) as [[part s2]|] eqn:P; [|done].
  destruct (branch_ref _) as [branch|] eqn:B; [|done].
  destruct (Z.ltb_spec 0 n); [|done]. intros [= <-].
  apply digits_ref_Some in D as (_ & _ & _ & D & _).
  split_and!; cbn [an_number an_part an_branch]; [lia|lia|by eapply part_ref_valid|by eapply branch_ref_valid].
Qed.

(** What is printed holds no whitespace. *)
Lemma show_Z_no_whitespace n : 0 <= n <= usize_max -> without_whitespace (show_Z n) = show_Z n.
Proof.
  intros Hn. unfold without_whitespace. pose proof (fun c => show_Z_digit n c Hn) as H.
  induction (show_Z n) as [|c s IH]; [done|]. cbn.
  destruct (is_whitespace c) eqn:E.
  - apply whitespace_not_digit in E. assert (is_ascii_digit c = true); [|congruence].
    apply ascii_digit_bounds, H. by left.
  - cbn. f_equal. apply IH. intros d Hd. apply H. by right.
Qed.

Lemma without_whitespace_app s t : without_whitespace (s ++ t) = without_whitespace s ++ without_whitespace t.
Proof. apply List.filter_app. Qed.

Lemma without_whitespace_opt (mark : str) o :
  in_opt 1 999 o -> without_whitespace mark = mark ->
  without_whitespace (option_map_str (fun n => mark ++ show_Z n) o) = option_map_str (fun n => mark ++ show_Z n) o.
Proof.
  intros Ho Hm. destruct o as [n|]; [|done]. cbn [option_map_str in_opt] in *.
  rewrite without_whitespace_app, Hm, show_Z_no_whitespace; [done|unfold usize_max; lia].
Qed.

Lemma strip_either_l a b s : strip_either a b ([a] ++ s) = s.
Proof. unfold strip_either. by rewrite strip_prefix_app. Qed.

Lemma branch_ref_show o :
  in_opt 1 999 o -> branch_ref (option_map_str (fun n => u "의" ++ show_Z n) o) = Some o.
Proof.
  intros Ho. unfold branch_ref. destruct o as [n|]; [|done]. cbn [option_map_str].
  change (str_eqb (u "의" ++ show_Z n) []) with false. cbv iota. rewrite strip_prefix_app.
  cbn in Ho. pose proof (digits_ref_show 3 n [] ltac:(lia) ltac:(lia) eq_refl) as D.
  rewrite app_nil_r in D. rewrite D. cbn [str_eqb bool_decide negb orb].
  by rewrite (proj2 (Z.eqb_neq _ _)) by lia.
Qed.

Lemma part_ref_show o rest :
  in_opt 1 999 o -> no_digit rest -> head rest <> Some (ch "-") ->
  part_ref (option_map_str (fun n => u "-" ++ show_Z n) o ++ rest) = Some (o, rest).
Proof.
  intros Ho Hd Hr. unfold part_ref. destruct o as [n|]; cbn [option_map_str].
  - rewrite <- app_assoc, strip_prefix_app. cbn in Ho. rewrite digits_ref_show; [|lia|lia|done].
    by rewrite (proj2 (Z.eqb_neq _ _)) by lia.
  - cbn [app]. change (u "-") with [ch "-"]. rewrite strip_prefix_single.
    destruct rest as [|c rest]; [done|]. destruct (Z.eqb_spec c (ch "-")) as [->|]; done.
Qed.

Lemma number_ref_show a : valid_article a -> number_ref (without_whitespace (show_article a)) = Some a.
Proof.
  intros (Hn & Hp & Hb). destruct a as [n part branch]. unfold show_article.
  cbn [an_number an_part an_branch] in *. rewrite !without_whitespace_app.
  rewrite show_Z_no_whitespace by (unfold usize_max; lia). rewrite !without_whitespace_opt by done.
  replace (without_whitespace (u "제")) with [ch "제"] by (vm_compute; reflexivity).
  replace (without_whitespace (u "조")) with [ch "조"] by (vm_compute; reflexivity).
  unfold number_ref. rewrite strip_either_l.
  rewrite digits_ref_show; [|lia|lia|by destruct part].
  rewrite part_ref_show by done. rewrite strip_either_l, branch_ref_show by done.
  by rewrite (proj2 (Z.ltb_lt _ _)) by lia.
Qed.

(** * Annex labels *)

(** The grammar of supplied annex labels, without whitespace and brackets *)
Definition annex_ref (s : str) : option AnnexLabel :=
  match digits_ref 4 (strip_optional (u "제") (strip_optional (u "별표") s)) with
  | Some (number, s) =>
    match branch_ref s with
    | Some branch => if 0 <? number then Some {| al_number := number; al_branch := branch |} else None
    | None => None
    end
  | None => None
  end.

Definition without_brackets (s : str) : str :=
  List.filter (fun c => negb (is_whitespace c) && negb (c =? ch "[") && negb (c =? ch "]")) s.

Lemma parse_annex_label_reads {E} v : @parse_annex_label E v = Ok (annex_ref (without_brackets v)).
Proof.
  unfold parse_annex_label, annex_ref. fold (without_brackets v). set (body := strip_optional _ _).
  pose proof (digits_start (E := E) 4 body ltac:(lia)) as D.
  destruct (digits_ref 4 body) as [[n s]|]; [|by rewrite D].
  destruct D as (e1 & -> & H1). rewrite (at_suffix_slice_from _ _ _ H1), whole_branch_reads.
  by destruct (branch_ref s).
Qed.

Lemma without_brackets_app s t : without_brackets (s ++ t) = without_brackets s ++ without_brackets t.
Proof. apply List.filter_app. Qed.

Lemma show_Z_no_brackets n : 0 <= n <= usize_max -> without_brackets (show_Z n) = show_Z n.
Proof.
  intros Hn. rewrite <- (show_Z_no_whitespace n Hn) at 2.
  unfold without_brackets, without_whitespace. apply List.filter_ext_in. intros c Hc.
  apply list_elem_of_In in Hc. apply (show_Z_digit n c Hn) in Hc.
  replace (c =? ch "[") with false by (symmetry; apply Z.eqb_neq; change (ch "[") with 91; lia).
  replace (c =? ch "]") with false by (symmetry; apply Z.eqb_neq; change (ch "]") with 93; lia).
  by rewrite !andb_true_r.
Qed.

Lemma strip_optional_app p s : strip_optional p (p ++ s) = s.
Proof. unfold strip_optional. by rewrite strip_prefix_app. Qed.

Lemma show_Z_strip c n t :
  0 <= n <= usize_max -> c < 48 \/ 57 < c -> strip_optional [c] (show_Z n ++ t) = show_Z n ++ t.
Proof.
  intros Hn Hc. unfold strip_optional. rewrite strip_prefix_single.
  destruct (show_Z_head n c t Hn) as [H|]; [|lia].
  destruct (show_Z n ++ t) as [|d l]; [done|]. by rewrite (proj2 (Z.eqb_neq _ _)).
Qed.

Lemma annex_ref_show l : valid_annex l -> annex_ref (without_brackets (show_annex l)) = Some l.
Proof.
  intros (Hn & Hb). destruct l as [n branch]. unfold show_annex, annex_ref.
  cbn [al_number al_branch] in *. rewrite !without_brackets_app.
  rewrite show_Z_no_brackets by (unfold usize_max; lia).
  assert (Hbr : without_brackets (option_map_str (fun n => u "의" ++ show_Z n) branch)
                = option_map_str (fun n => u "의" ++ show_Z n) branch).
  { destruct branch as [m|]; [|done]. cbn [option_map_str in_opt] in *.
    rewrite without_brackets_app, show_Z_no_brackets; [done|unfold usize_max; lia]. }
  rewrite Hbr. replace (without_brackets (u "별표 ")) with (u "별표") by (vm_compute; reflexivity).
  rewrite strip_optional_app. change (u "제") with [ch "제"].
  rewrite show_Z_strip; [|unfold usize_max; lia|change (ch "제") with 51228; lia].
  rewrite digits_ref_show; [|lia|lia|by destruct branch].
  rewrite branch_ref_show by done. by rewrite (proj2 (Z.ltb_lt _ _)) by lia.
Qed.

Lemma annex_ref_valid s l : annex_ref s = Some l -> valid_annex l.
Proof.
  unfold annex_ref. destruct (digits_ref 4 _) as [[n s1]|] eqn:D; [|done].
  destruct (branch_ref s1) as [branch|] eqn:B; [|done].
  destruct (Z.ltb_spec 0 n); [|done]. intros [= <-].
  apply digits_ref_Some in D as (_ & _ & _ & D & _).
  split; cbn [al_number al_branch]; [lia|by eapply branch_ref_valid].
Qed.

(** C34. Printed locators are read back: the parser of supplied article locators and
    the scanner of running text return the locator whose [Display] they are given,
    the parser of annex labels the label. Parsing always answers, and every number it
    returns is in the printable range, so printing what was parsed and parsing it
    again changes nothing. *)
Theorem locators_roundtrip :
  (forall a, valid_article a ->
     parse_article_number (E := unit) (show_article a) = Ok (Some a) /\
     article_at (E := unit) (show_article a) 0 = Ok (Some (a, slen (show_article a)))) /\
  (forall l, valid_annex l -> parse_annex_label (E := unit) (show_annex l) = Ok (Some l)) /\
  (forall v, exists o, parse_article_number (E := unit) v = Ok o /\ forall a, o = Some a -> valid_article a) /\
  (forall v, exists o, parse_annex_label (E := unit) v = Ok o /\ forall l, o = Some l -> valid_annex l).
Proof.
  split_and!.
  - intros a Ha. split; [by rewrite parse_article_number_reads, number_ref_show|].
    pose proof (article_at_reads (E := unit) (show_article a) 0 _ (at_suffix_start _)) as R.
    pose proof (article_ref_show a [] Ha) as S. rewrite app_nil_r in S.
    rewrite S in R by (split; [done|by destruct (an_branch a)]).
    destruct R as (end_ & -> & K%at_suffix_length). cbn in K. by rewrite Z.sub_0_r in K; subst.
  - intros l Hl. by rewrite parse_annex_label_reads, annex_ref_show.
  - intros v. rewrite parse_article_number_reads. eexists. split; [done|]. apply number_ref_valid.
  - intros v. rewrite parse_annex_label_reads. eexists. split; [done|]. apply annex_ref_valid.
Qed.

(** * Mentions in a text *)

(** Spans in order that do not overlap, from [lo] on *)
Fixpoint spans_from (lo : Z) (l : list (Z * Z)) : Prop :=
  match l with
  | [] => True
  | (a, b) :: l => lo <= a /\ a < b /\ spans_from b l
  end.

Definition last_end (lo : Z) (l : list (Z * Z)) : Z := match last l with Some (_, b) => b | None => lo end.

Lemma last_end_cons lo a b l : last_end lo ((a, b) :: l) = last_end b l.
Proof.
  unfold last_end.
  destruct l as [|x l]; [done|]. rewrite last_cons_cons.
  destruct (last (x :: l)) as [[]|] eqn:E; [done|]. by apply last_None in E.
Qed.

Lemma spans_from_snoc lo l a b :
  spans_from lo l -> last_end lo l <= a -> a < b -> spans_from lo (l ++ [(a, b)]).
Proof.
  revert lo. induction l as [|[x y] l IH]; intros lo Hl Ha Hb; cbn [app spans_from] in *.
  - done.
  - rewrite last_end_cons in Ha. destruct Hl as (? & ? & ?). split_and!; [done..|]. by apply IH.
Qed.

(** A locator at a position, not attached to a preceding syllable *)
Definition mentioned (text : str) (a : ArticleNumber) (start end_ : Z) : Prop :=
  exists pre mid post, text = pre ++ mid ++ post /\ start = slen pre /\ end_ = slen pre + slen mid /\
    article_ref (mid ++ post) = Some (a, post) /\
    match last pre with Some c => is_hangul c | None => false end = false.

Definition mention_span (m : ArticleNumber * Z * Z) : Z * Z := (m.1.2, m.2).

(** What the loop has found in front of the offset [off] *)
Definition mentions_ok (text : str) (l : list (ArticleNumber * Z * Z)) (off : Z) : Prop :=
  Forall (fun m => mentioned text m.1.1 m.1.2 m.2 /\ m.1.2 < off) l /\
  spans_from 0 (mention_span <$> l) /\
  (forall a start end_, mentioned text a start end_ -> start < off ->
     (a, start, end_) ∈ l \/ exists m, m ∈ l /\ m.1.2 < start < m.2).

(** Where a locator begins, only one can be read. *)
Lemma mentioned_at text a start end_ pre rest :
  mentioned text a start end_ -> text = pre ++ rest -> start = slen pre ->
  exists post, article_ref rest = Some (a, post) /\ end_ = slen text - slen post /\
    match last pre with Some c => is_hangul c | None => false end = false.
Proof.
  intros (p & mid & post & Ht & -> & -> & Ha & Hh) E Es.
  assert (p = pre /\ mid ++ post = rest) as [-> <-].
  { assert (H : split_at (slen p) text = Some (p, mid ++ post)) by (rewrite Ht; apply split_at_app).
    assert (K : split_at (slen pre) text = Some (pre, rest)) by (rewrite E; apply split_at_app).
    rewrite Es, K in H. injection H as H1 H2. by split. }
  exists post. split_and!; [done| |done]. rewrite Ht, !slen_app. lia.
Qed.

Lemma mentioned_intro text pre rest a r :
  text = pre ++ rest -> article_ref rest = Some (a, r) ->
  match last pre with Some c => is_hangul c | None => false end = false ->
  mentioned text a (slen pre) (slen text - slen r) /\ slen pre < slen text - slen r.
Proof.
  intros -> Ha Hh. destruct (article_ref_Some _ _ _ Ha) as (q & -> & Hq & _ & _). split.
  - exists pre, q, r. split_and!; [done..| |done|done]. rewrite !slen_app. lia.
  - rewrite !slen_app. destruct q as [|c q]; [done|]. pose proof (slen_cons_pos c q). lia.
Qed.

(** No locator begins inside a character. *)
Lemma mentioned_boundary text pre c s a start end_ :
  text = pre ++ c :: s -> mentioned text a start end_ -> start < slen pre + len_utf8 c ->
  start < slen pre \/ start = slen pre.
Proof.
  intros Ht (p & mid & post & E & -> & _) Hlt. rewrite Ht in E.
  destruct (Z.lt_ge_cases (slen p) (slen pre)) as [|Hge]; [by left|]. right.
  destruct (app_eq_prefix pre p (c :: s) (mid ++ post) E Hge) as (w & -> & Ew).
  rewrite slen_app in *. destruct w as [|d w]; [cbn; lia|].
  injection Ew as -> _. cbn in Hlt. pose proof (slen_nonneg w). lia.
Qed.

(** One position that yields nothing, or lies inside the last mention *)
Lemma mentions_ok_skip text l pre c s :
  text = pre ++ c :: s -> mentions_ok text l (slen pre) ->
  (forall a end_, mentioned text a (slen pre) end_ -> exists m, m ∈ l /\ m.1.2 < slen pre < m.2) ->
  mentions_ok text l (slen pre + len_utf8 c).
Proof.
  intros Ht (Hm & Hs & Hc) Hskip. pose proof (len_utf8_bounds c). split_and!; [|done|].
  - eapply Forall_impl; [exact Hm|]. intros m [? ?]. split; [done|lia].
  - intros a start end_ Hmt Hlt.
    destruct (mentioned_boundary _ _ _ _ _ _ _ Ht Hmt Hlt) as [ | ->]; [by eapply Hc|].
    right. by eapply Hskip.
Qed.

Lemma contains_locator c s : contains_char c (u "제第") = false -> article_ref (c :: s) = None.
Proof. intros H. unfold article_ref. by rewrite H. Qed.

(** A new mention behind the last one *)
Lemma mentions_ok_add text l pre c s a r :
  text = pre ++ c :: s -> mentions_ok text l (slen pre) ->
  last_end 0 (mention_span <$> l) <= slen pre ->
  article_ref (c :: s) = Some (a, r) ->
  match last pre with Some c => is_hangul c | None => false end = false ->
  mentions_ok text (l ++ [(a, slen pre, slen text - slen r)]) (slen pre + len_utf8 c).
Proof.
  intros Ht (Hm & Hs & Hc) Hlast Ha Hh. pose proof (len_utf8_bounds c).
  destruct (mentioned_intro text pre (c :: s) a r Ht Ha Hh) as [Hmt Hpos]. split_and!.
  - apply Forall_app. split; [|apply Forall_singleton; cbn; split; [done|lia]].
    eapply Forall_impl; [exact Hm|]. intros m [? ?]. split; [done|lia].
  - rewrite fmap_app. by apply spans_from_snoc.
  - intros b start end_ Hb Hlt.
    destruct (mentioned_boundary _ _ _ _ _ _ _ Ht Hb Hlt) as [Hbefore | ->].
    + destruct (Hc b start end_ Hb Hbefore) as [K|(m & K & Hin)].
      * left. apply elem_of_app. by left.
      * right. exists m. split; [apply elem_of_app; by left|done].
    + destruct (mentioned_at _ _ _ _ _ _ Hb Ht eq_refl) as (post & E & -> & _).
      rewrite Ha in E. injection E as -> ->. left. apply elem_of_app. right. by left.
Qed.

Lemma last_mention_end l :
  last_end 0 (mention_span <$> l) = match last l with Some (_, _, e) => e | None => 0 end.
Proof. unfold last_end. rewrite fmap_last. by destruct (last l) as [[[? ?] ?]|]. Qed.

(** The loop at one character *)
Lemma mentions_step {E} text pre c s l :
  text = pre ++ c :: s -> mentions_ok text l (slen pre) ->
  contains_char c (u "제第") = true ->
  exists l', mentions_ok text l' (slen pre + len_utf8 c) /\
    forall indices, @mentions_loop E text (slen pre :: indices) l = mentions_loop text indices l'.
Proof.
  intros Ht Hok Hc.
  assert (Hin : at_suffix text (slen pre) (c :: s)) by by exists pre.
  assert (Hat : forall a e, mentioned text a (slen pre) e ->
    exists post, article_ref (c :: s) = Some (a, post) /\
      match last pre with Some c => is_hangul c | None => false end = false).
  { intros a e Ha. destruct (mentioned_at _ _ _ _ _ _ Ha Ht eq_refl) as (post & ? & _ & ?). eauto. }
  assert (Hbefore : slice_to text (slen pre) = @Ok (stop E) _ pre) by (rewrite Ht; apply slice_to_app).
  cbn [mentions_loop].
  destruct (match last l with Some (_, _, end_) => slen pre <? end_ | None => false end) eqn:Einside.
  { exists l. split; [|done]. apply (mentions_ok_skip text l pre c s Ht Hok). intros a e _.
    destruct (last l) as [[[b st] en]|] eqn:El; [|done]. exists (b, st, en).
    apply last_Some in El as [l0 ->]. apply Z.ltb_lt in Einside. destruct Hok as (Hm & _ & _).
    apply Forall_app in Hm as [_ Hm]. apply Forall_singleton in Hm as [_ Hlt].
    split; [apply elem_of_app; right; by left|]. done. }
  rewrite Hbefore. destruct (match last pre with Some c => is_hangul c | None => false end) eqn:Eh.
  { exists l. split; [|done]. apply (mentions_ok_skip text l pre c s Ht Hok). intros a e Ha.
    destruct (Hat a e Ha) as (post & _ & K). congruence. }
  pose proof (article_at_reads (E := E) text _ _ Hin) as R.
  destruct (article_ref (c :: s)) as [[a r]|] eqn:Ea.
  - destruct R as (end_ & -> & K%at_suffix_length). subst end_. eexists. split; [|done].
    apply (mentions_ok_add text l pre c s a r Ht Hok); [|done..]. rewrite last_mention_end.
    destruct (last l) as [[[? ?] e]|]; [by apply Z.ltb_ge in Einside|apply slen_nonneg].
  - cbn [reads] in R. rewrite R. exists l. split; [|done].
    apply (mentions_ok_skip text l pre c s Ht Hok). intros a e Ha.
    destruct (Hat a e Ha) as (post & K & _). congruence.
Qed.

Lemma mentions_loop_spec {E} text s : forall pre l,
  text = pre ++ s -> mentions_ok text l (slen pre) ->
  exists l', @mentions_loop E text (locator_indices (slen pre) s) l = Ok l' /\
    mentions_ok text l' (slen text).
Proof.
  induction s as [|c s IH]; intros pre l Ht Hok.
  { exists l. split; [done|]. by rewrite Ht, app_nil_r in *. }
  cbn [locator_indices].
  assert (Hnext : forall l1, mentions_ok text l1 (slen pre + len_utf8 c) ->
    exists l', @mentions_loop E text (locator_indices (slen pre + len_utf8 c) s) l1 = Ok l' /\
      mentions_ok text l' (slen text)).
  { intros l1 H1. specialize (IH (pre ++ [c]) l1). rewrite slen_app in IH. cbn [slen] in IH.
    rewrite Z.add_0_r in IH. apply IH; [by rewrite <- app_assoc|done]. }
  destruct (contains_char c (u "제第")) eqn:Ec; cbn [app].
  - destruct (mentions_step (E := E) text pre c s l Ht Hok Ec) as (l1 & H1 & Hstep).
    rewrite Hstep. by apply Hnext.
  - apply Hnext, (mentions_ok_skip text l pre c s Ht Hok). intros a e Ha.
    destruct (mentioned_at _ _ _ _ _ _ Ha Ht eq_refl) as (post & E' & _).
    by rewrite contains_locator in E'.
Qed.

(** The locators mentioned in a text: the scan always answers; what it lists are
    locators of the text at character boundaries, not attached to a preceding
    syllable, in order and without overlap; and every such locator of the text is
    listed, or begins inside a listed one. *)
Theorem article_mentions_complete text :
  exists l, article_mentions (E := unit) text = Ok l /\
    Forall (fun m => mentioned text m.1.1 m.1.2 m.2 /\ valid_article m.1.1) l /\
    spans_from 0 (mention_span <$> l) /\
    (forall a start end_, mentioned text a start end_ ->
       (a, start, end_) ∈ l \/ exists m, m ∈ l /\ m.1.2 < start < m.2).
Proof.
  destruct (mentions_loop_spec (E := unit) text text [] []) as (l & Hl & Hm & Hs & Hc).
  { done. }
  { split_and!; [constructor|done|]. intros a start e (p & mid & post & _ & -> & _) H.
    cbn in H. pose proof (slen_nonneg p). lia. }
  exists l. split_and!; [done| |done|].
  - eapply Forall_impl; [exact Hm|]. intros m [K _]. split; [done|].
    destruct K as (p & mid & post & _ & _ & _ & Ha & _).
    by destruct (article_ref_Some _ _ _ Ha) as (_ & _ & _ & ? & _).
  - intros a start e H. apply (Hc a start e H).
    destruct H as (p & mid & post & -> & -> & _ & Ha & _).
    destruct (article_ref_Some _ _ _ Ha) as (q & E & Hq & _). rewrite E, !slen_app.
    destruct q as [|d q]; [done|]. pose proof (slen_cons_pos d q). pose proof (slen_nonneg post). lia.
Qed.
