(* ===== verification/KrOutline.v ===== *)
(** The outline of a capture: headings and articles read from the lines of its
    sections, in source order, and the lookup of an article in it. *)

From S2P Require Import Prelude Utf8 Strings Domain Legal TextDiff Slices KrNames KrArticles KrScan KrLocators.

(** * Reference readings *)

(** A heading: its level and number *)
Definition heading_ref (s : str) : option (char * Z) :=
  match trim_start s with
  | [] => None
  | c :: s =>
    if negb (contains_char c (u "제第")) then None else
    match digits_ref 4 s with
    | Some (n, level :: s) =>
      match heading_level level with
      | Some level =>
        if n =? 0 then None else
        let s :=
          match strip_prefix (u "의") s with
          | Some t => match digits_ref 3 t with Some (_, r) => r | None => s end
          | None => s
          end in
        if match head s with
           | None => true
           | Some c => is_whitespace c || (c =? ch "<") || (c =? ch "(")
           end
        then Some (level, n) else None
      | None => None
      end
    | _ => None
    end
  end.

(** Whether a line starts an article *)
Definition starts_ref (line : str) : bool :=
  match article_ref line with
  | Some (_, rest) =>
    starts_with (u "(") rest || starts_with (u "（") rest || str_eqb (trim rest) []
      || starts_with (u "삭제") (trim_start rest)
  | None => false
  end.

Lemma heading_at_reads {E} s : @heading_at E s = Ok (heading_ref s).
Proof.
  unfold heading_at, heading_ref, found. destruct (trim_start s) as [|c t]; [done|].
  rewrite locator_prefix_cons. destruct (contains_char c (u "제第")); [|done]. cbn [negb].
  assert (H0 : at_suffix (c :: t) (len_utf8 c) t).
  { pose proof (at_suffix_cons _ _ _ _ (at_suffix_start (c :: t))) as H. by rewrite Z.add_0_l in H. }
  rewrite (at_suffix_slice_from _ _ _ H0).
  pose proof (digits_start (E := E) 4 t ltac:(lia)) as D.
  destruct (digits_ref 4 t) as [[n r]|]; [|by rewrite D].
  destruct D as (e1 & -> & H1). rewrite (at_suffix_slice_from _ _ _ H1).
  destruct r as [|level r]; [done|]. cbn [head]. destruct (heading_level level) as [lv|]; [|done].
  destruct (n =? 0); [done|]. rewrite (at_suffix_slice_from _ _ _ (at_suffix_cons _ _ _ _ H1)).
  unfold after_branch. destruct (strip_prefix (u "의") r) as [v|]; [|done].
  pose proof (digits_start (E := E) 3 v ltac:(lia)) as D.
  destruct (digits_ref 3 v) as [[m q]|]; [|by rewrite D].
  destruct D as (e2 & -> & H2). by rewrite (at_suffix_slice_from _ _ _ H2).
Qed.

Lemma starts_article_reads {E} line : @starts_article E line = Ok (starts_ref line).
Proof.
  unfold starts_article, starts_ref.
  pose proof (article_at_reads (E := E) line 0 line (at_suffix_start line)) as R.
  destruct (article_ref line) as [[a r]|]; cbn [reads] in R.
  - destruct R as (e & -> & H). by rewrite (at_suffix_slice_from _ _ _ H).
  - by rewrite R.
Qed.

(** * Articles *)

Lemma find_close_Some off s o c :
  find_close off s = Some (o, c) -> exists inner after, s = inner ++ c :: after /\ o = off + slen inner.
Proof.
  revert off. induction s as [|x s IH]; intros off; [done|]. cbn [find_close].
  destruct (negb _); [done|]. destruct (contains_char x (u ")）")).
  - intros [= <- <-]. exists [], s. cbn. split; [done|lia].
  - intros (inner & after & -> & ->)%IH. exists (x :: inner), after. cbn. split; [done|lia].
Qed.

Lemma starts_with_cons c s : starts_with [c] s = true -> exists t, s = c :: t.
Proof. rewrite starts_with_single. destruct s as [|x s]; [done|]. intros ->%Z.eqb_eq. eauto. Qed.

(** A parenthetical is read at a boundary, and what follows it is one. *)
Lemma parenthetical_reads {E} text at_ rest :
  at_suffix text at_ rest ->
  @parenthetical E text at_ = Ok None \/
  exists inner end_ after, @parenthetical E text at_ = Ok (Some (inner, end_)) /\
    at_suffix text end_ after /\ exists open close, rest = open :: inner ++ close :: after.
Proof.
  intros H. unfold parenthetical, found. rewrite (at_suffix_from _ _ _ H).
  assert (Hopen : forall open t, rest = open :: t ->
    (let? window := slice_from text (at_ + len_utf8 open) in
     let?? close := found (find_close 0 window) in
     let? inner := slice_to window close.1 in
     Ok (Some (inner, at_ + len_utf8 open + close.1 + len_utf8 close.2))) = @Ok (stop E) _ None \/
    exists inner end_ after,
    (let? window := slice_from text (at_ + len_utf8 open) in
     let?? close := found (find_close 0 window) in
     let? inner := slice_to window close.1 in
     Ok (Some (inner, at_ + len_utf8 open + close.1 + len_utf8 close.2))) = @Ok (stop E) _ (Some (inner, end_)) /\
      at_suffix text end_ after /\ exists open close, rest = open :: inner ++ close :: after).
  { intros open t ->. apply at_suffix_cons in H. rewrite (at_suffix_slice_from _ _ _ H).
    unfold found. destruct (find_close 0 t) as [[o c]|] eqn:F; [|by left]. right.
    apply find_close_Some in F as (inner & after & -> & ->). cbn [fst snd]. rewrite Z.add_0_l, slice_to_app.
    exists inner, (at_ + len_utf8 open + slen inner + len_utf8 c), after. split_and!; [done| |eauto].
    by apply at_suffix_app, at_suffix_cons in H. }
  destruct (starts_with (u "(") rest) eqn:S1; [|destruct (starts_with (u "（") rest) eqn:S2; [|by left]].
  - apply starts_with_cons in S1 as [t ->]. by eapply Hopen.
  - change (u "（") with [ch "（"] in S2. apply starts_with_cons in S2 as [t ->]. by eapply Hopen.
Qed.

(** What [build_article] returns is the trimmed text, under the locator it begins with. *)
Definition article_spec (section_id hint text : str) (o : option LocatedArticle) : Prop :=
  match article_ref (trim text) with
  | None => o = None
  | Some (number, _) => exists a, o = Some a /\ la_number a = number /\ la_text a = trim text /\
      la_section_id a = section_id /\ (trim hint <> [] -> la_title a = trim hint)
  end.

Lemma build_article_spec {E} section_id hint text :
  exists o, @build_article E section_id hint text = Ok o /\ article_spec section_id hint text o.
Proof.
  unfold build_article, article_spec. set (t := trim text).
  pose proof (article_at_reads (E := E) t 0 t (at_suffix_start t)) as R.
  destruct (article_ref t) as [[number r]|]; cbn [reads] in R; [|exists None; by rewrite R].
  destruct R as (e & -> & H).
  destruct (parenthetical_reads (E := E) t e r H) as [-> | (inner & e' & after & -> & H' & _)].
  - rewrite (at_suffix_slice_from _ _ _ H). eexists. split; [done|]. eexists. by split_and!.
  - rewrite (at_suffix_slice_from _ _ _ H'). eexists. split; [done|]. eexists. split_and!; try done.
    cbn [la_title]. intros Hne. destruct (str_eqb (trim hint) []) eqn:Et; [|done].
    by apply str_eqb_eq in Et.
Qed.

(** * Labels and order *)

(** What a unit is labelled with in the source *)
Inductive label := HeadingLabel (level : char) (number : Z) | ArticleLabel (number : ArticleNumber).

Definition unit_label (x : OutlineUnit) : label :=
  match x with Heading level number _ => HeadingLabel level number | Article a => ArticleLabel (la_number a) end.
Definition unit_text (x : OutlineUnit) : str :=
  match x with Heading _ _ text => text | Article a => la_text a end.

(** The label of a line of a text block, if it begins a unit *)
Definition line_label (line : str) : option label :=
  match heading_ref (trim line) with
  | Some (level, number) => Some (HeadingLabel level number)
  | None => if starts_ref (trim line) then ArticleLabel ∘ fst <$> article_ref (trim line) else None
  end.

(** The labels that a section contributes to the outline *)
Definition section_labels (section : LegalSection) : list label :=
  if negb (bool_decide (sec_kind section = ProviderText)) then []
  else if starts_with (u "article:") (sec_id section) then
    match heading_ref (trim (sec_text section)) with
    | Some (level, number) => [HeadingLabel level number]
    | None => option_list (ArticleLabel ∘ fst <$> article_ref (trim (sec_text section)))
    end
  else if negb (existsb (str_eqb (sec_title section)) BLOCK_SECTIONS) then []
  else omap line_label (split_inclusive (sec_text section)).

(** The texts occur in [s] in this order, without overlap. *)
Fixpoint embedded (ts : list str) (s : str) : Prop :=
  match ts with
  | [] => True
  | t :: ts => exists p q, s = p ++ t ++ q /\ embedded ts q
  end.

Lemma embedded_app ts ts' s s' : embedded ts s -> embedded ts' s' -> embedded (ts ++ ts') (s ++ s').
Proof.
  revert s. induction ts as [|t ts IH]; intros s H H'; cbn [app].
  - clear H. destruct ts' as [|t' ts']; [done|]. destruct H' as (p & q & -> & H').
    exists (s ++ p), q. by rewrite <- app_assoc.
  - destruct H as (p & q & -> & H). exists p, (q ++ s'). split; [by rewrite <- !app_assoc|auto].
Qed.

Lemma embedded_r ts s s' : embedded ts s -> embedded ts (s ++ s').
Proof. intros H. rewrite <- (app_nil_r ts). by apply embedded_app. Qed.

Lemma embedded_trim s : embedded [trim s] s.
Proof.
  destruct (trim_split is_whitespace s) as (a & b & Hs & _). exists a, b. by split.
Qed.

(** A unit reads its own label, and names the section it is of. *)
Definition unit_ok (section_id : str) (x : OutlineUnit) : Prop :=
  match x with
  | Heading level number text => heading_ref text = Some (level, number)
  | Article a => la_section_id a = section_id /\ exists r, article_ref (la_text a) = Some (la_number a, r)
  end.

(** * Text blocks *)

(** The text of an open block: the trimmed line that began it, and what followed. *)
Definition pending (block : str) (a : ArticleNumber) (last_ : Prop) : Prop :=
  exists q w r, block = q ++ w /\ q <> [] /\ untrimmed is_whitespace q /\ article_ref q = Some (a, r) /\
    match head w with Some c => is_whitespace c | None => true end = true /\ (w = [] -> last_).

Lemma pending_article block a P :
  pending block a P -> exists r, article_ref (trim block) = Some (a, r).
Proof.
  intros (q & w & r & -> & Hq & Hu & Ha & Hw & _). unfold trim. rewrite trim_by_app by done.
  destruct (trim_end_split is_whitespace w) as (d & Hd & _).
  destruct (trim_end_by is_whitespace w) as [|c t]; [exists r; by rewrite app_nil_r|].
  rewrite Hd in Hw. cbn [head app] in Hw. eexists. by apply article_ref_continued.
Qed.

Lemma pending_more block a line (P Q : Prop) :
  pending block a P -> ~ P -> pending (block ++ line) a Q.
Proof.
  intros (q & w & r & -> & Hq & Hu & Ha & Hw & Hl) HP.
  destruct w as [|c w]; [by destruct (HP (Hl eq_refl))|].
  exists q, ((c :: w) ++ line), r. rewrite app_assoc. by split_and!.
Qed.

(** A line that starts an article opens a block. *)
Lemma pending_line line a r (P : Prop) :
  article_ref (trim line) = Some (a, r) -> (P \/ ends_lf line = true) ->
  pending (trim_start line) a P.
Proof.
  intros Ha Hl. destruct (trim_end_split is_whitespace (trim_start line)) as (w & Hs & Hw).
  exists (trim line), w, r. split_and!; try done.
  - intros E. by rewrite E in Ha.
  - apply trim_by_untrimmed.
  - destruct w as [|c w]; [done|]. cbn [forallb] in Hw. by apply andb_prop in Hw as [Hw _].
  - intros ->. destruct Hl as [|[t ->]%ends_lf_iff]; [done|]. exfalso.
    rewrite app_nil_r in Hs. pose proof (trim_end_last is_whitespace (trim_start (t ++ [LF]))) as H.
    rewrite <- Hs in H. destruct (drop_while_split is_whitespace (t ++ [LF])) as (d & Hd & Hdw).
    unfold trim_start, trim_start_by in *.
    destruct (drop_while is_whitespace (t ++ [LF])) as [|x l] eqn:El using rev_ind.
    + unfold trim, trim_by, trim_start_by in Ha. rewrite El in Ha. done.
    + rewrite app_assoc in Hd. apply app_inj_tail in Hd as [_ <-].
      rewrite last_snoc in H. done.
Qed.

(** The units found in the text [done_] in front of the current line, with the labels
    [labs] of its lines; an open block is labelled and not yet a unit. *)
Definition block_state (section_id : str) (done_ : str) (open : option Z) (us : list OutlineUnit)
  (labs : list label) (last_ : Prop) : Prop :=
  Forall (unit_ok section_id) us /\
  match open with
  | None => unit_label <$> us = labs /\ embedded (unit_text <$> us) done_
  | Some start => exists P B a, done_ = P ++ B /\ start = slen P /\ embedded (unit_text <$> us) P /\
      pending B a last_ /\ labs = (unit_label <$> us) ++ [ArticleLabel a]
  end.

(** Closing the open block, if any, makes it a unit. *)
Lemma close_block_spec {E} id text done_ rest open base us labs P :
  text = done_ ++ rest -> block_state id done_ open us labs P ->
  exists us', @close_block E id text open (slen done_) (base ++ us) = Ok (base ++ us') /\
    block_state id done_ None us' labs P.
Proof.
  intros Ht (Hok & Hs). destruct open as [start|]; cbn [close_block]; [|exists us; by split].
  destruct Hs as (D & B & a & -> & -> & He & Hp & ->). rewrite slen_app, Ht, <- app_assoc, slice_app.
  destruct (build_article_spec (E := E) id [] B) as (o & -> & Ho). unfold article_spec in Ho.
  destruct (pending_article _ _ _ Hp) as [r Hr]. rewrite Hr in Ho.
  destruct Ho as (art & -> & Hn & Htext & Hid & _).
  exists (us ++ [Article art]). split; [by rewrite app_assoc|]. split_and!.
  - apply Forall_app. split; [done|]. apply Forall_singleton. split; [done|]. exists r.
    by rewrite Htext, Hn.
  - rewrite fmap_app. cbn. by rewrite Hn.
  - rewrite fmap_app. apply embedded_app; [done|]. cbn [fmap list_fmap unit_text]. rewrite Htext.
    apply embedded_trim.
Qed.

Lemma block_state_label id done_ us labs P line level number :
  block_state id done_ None us labs P -> heading_ref (trim line) = Some (level, number) ->
  block_state id (done_ ++ line) None (us ++ [Heading level number (trim line)])
    (labs ++ [HeadingLabel level number]) P.
Proof.
  intros (Hok & <- & He) Hh. split_and!.
  - apply Forall_app. split; [done|]. by apply Forall_singleton.
  - by rewrite fmap_app.
  - rewrite fmap_app. apply embedded_app; [done|]. apply embedded_trim.
Qed.

Lemma starts_ref_article s : starts_ref s = true -> exists a r, article_ref s = Some (a, r).
Proof. unfold starts_ref. destruct (article_ref s) as [[a r]|]; [eauto|done]. Qed.

Lemma trim_start_offset line : exists d, line = d ++ trim_start line /\ slen line - slen (trim_start line) = slen d.
Proof.
  destruct (drop_while_split is_whitespace line) as (d & Hd & _). exists d. split; [done|].
  unfold trim_start, trim_start_by. rewrite Hd at 1. rewrite slen_app. lia.
Qed.

Lemma block_lines_spec {E} id text base ls : forall done_ open us labs,
  text = done_ ++ concat ls -> proper_lines ls ->
  block_state id done_ open us labs (ls = []) ->
  exists open' us', @block_lines E id text ls open (slen done_) (base ++ us) = Ok (open', base ++ us') /\
    block_state id text open' us' (labs ++ omap line_label ls) True.
Proof.
  induction ls as [|line ls IH]; intros done_ open us labs Ht Hl Hs; cbn [block_lines].
  { cbn in Ht. rewrite app_nil_r in Ht. subst. exists open, us. split; [done|]. cbn. rewrite app_nil_r.
    destruct Hs as [Hok Hs]. split; [done|]. destruct open as [start|]; [|done].
    destruct Hs as (D & B & a & ? & ? & ? & (q & w & r & ?) & ?).
    exists D, B, a. split_and!; [done..| |done]. exists q, w, r. tauto. }
  pose proof (proper_lines_inv _ _ Hl) as (Hne & Hl' & Hlf).
  assert (Ht' : text = (done_ ++ line) ++ concat ls) by (rewrite <- app_assoc; done).
  rewrite heading_at_reads. destruct (heading_ref (trim line)) as [[level number]|] eqn:Eh.
  - destruct (close_block_spec (E := E) id text done_ _ open base us labs _ Ht Hs) as (us' & -> & Hs').
    destruct (IH (done_ ++ line) None (us' ++ [Heading level number (trim line)])
      (labs ++ [HeadingLabel level number]) Ht' Hl') as (open' & us'' & Hrun & Hend).
    { apply (block_state_label id done_ us' labs (ls = []) line level number); [|done].
      by destruct Hs'. }
    exists open', us''. rewrite <- (slen_app done_ line), <- app_assoc, Hrun. split; [done|].
    cbn [omap list_omap]. unfold line_label at 1. rewrite Eh. by rewrite <- app_assoc in Hend.
  - rewrite starts_article_reads. destruct (starts_ref (trim line)) eqn:Es.
    + destruct (close_block_spec (E := E) id text done_ _ open base us labs _ Ht Hs) as (us' & -> & Hs').
      destruct (starts_ref_article _ Es) as (a & r & Ha).
      destruct (trim_start_offset line) as (d & Hd & ->).
      destruct (IH (done_ ++ line) (Some (slen done_ + slen d)) us' (labs ++ [ArticleLabel a]) Ht' Hl')
        as (open' & us'' & Hrun & Hend).
      { destruct Hs' as (Hok & Hlab & He). split; [done|]. exists (done_ ++ d), (trim_start line), a.
        split_and!; [by rewrite <- app_assoc, <- Hd|by rewrite slen_app|by apply embedded_r| |by rewrite Hlab].
        eapply pending_line; [exact Ha|]. destruct ls; [by left|right; by apply Hlf]. }
      exists open', us''. rewrite <- (slen_app done_ line), Hrun. split; [done|].
      cbn [omap list_omap]. unfold line_label at 1. rewrite Eh, Es, Ha.
      cbn [fmap option_fmap option_map compose fst]. by rewrite <- app_assoc in Hend.
    + destruct (IH (done_ ++ line) open us labs Ht' Hl') as (open' & us' & Hrun & Hend).
      { destruct Hs as [Hok Hs]. split; [done|]. destruct open as [start|].
        - destruct Hs as (D & B & a & -> & ? & ? & Hp & ?). exists D, (B ++ line), a.
          rewrite app_assoc. split_and!; try done. by eapply pending_more.
        - destruct Hs. split; [done|]. by apply embedded_r. }
      exists open', us'. rewrite <- (slen_app done_ line), Hrun. split; [done|].
      cbn [omap list_omap]. unfold line_label at 1. by rewrite Eh, Es.
Qed.

(** * The outline *)

Lemma trim_trim s : trim (trim s) = trim s.
Proof. apply trim_by_id, trim_by_untrimmed. Qed.

(** What a section contributes *)
Definition contributes (section : LegalSection) (us : list OutlineUnit) : Prop :=
  unit_label <$> us = section_labels section /\
  Forall (unit_ok (sec_id section)) us /\
  embedded (unit_text <$> us) (sec_text section).

Lemma contributes_nil section : section_labels section = [] -> contributes section [].
Proof. intros H. split_and!; [done|constructor|done]. Qed.

Lemma outline_section_spec {E} section units :
  exists us, @outline_section E section units = Ok (units ++ us) /\ contributes section us.
Proof.
  unfold outline_section, contributes, section_labels.
  destruct (negb (bool_decide (sec_kind section = ProviderText))) eqn:Ek.
  { exists []. rewrite app_nil_r. split_and!; [done..|constructor|done]. }
  destruct (starts_with (u "article:") (sec_id section)) eqn:Ea.
  - rewrite heading_at_reads.
    destruct (heading_ref (trim (sec_text section))) as [[level number]|] eqn:Eh.
    + eexists. split_and!; [done..| |apply embedded_trim]. by apply Forall_singleton.
    + destruct (build_article_spec (E := E) (sec_id section) (sec_title section) (trim (sec_text section)))
        as (o & -> & Ho). unfold article_spec in Ho. rewrite trim_trim in Ho.
      destruct (article_ref (trim (sec_text section))) as [[n r]|] eqn:Er.
      * destruct Ho as (a & -> & Hn & Ht & Hid & _). exists [Article a]. split_and!; [done|..].
        -- cbn. by rewrite Hn.
        -- apply Forall_singleton. split; [done|]. exists r. by rewrite Ht, Hn.
        -- cbn [fmap list_fmap unit_text]. rewrite Ht. apply embedded_trim.
      * subst o. exists []. rewrite app_nil_r. split_and!; [done..|constructor|done].
  - destruct (negb (existsb (str_eqb (sec_title section)) BLOCK_SECTIONS)) eqn:Eb.
    { exists []. rewrite app_nil_r. split_and!; [done..|constructor|done]. }
    destruct (block_lines_spec (E := E) (sec_id section) (sec_text section) units
      (split_inclusive (sec_text section)) [] None [] []) as (open & us & Hrun & Hs).
    { by rewrite concat_split_inclusive. } { apply split_inclusive_proper. }
    { split; [constructor|]. by split. }
    rewrite app_nil_r in Hrun. cbn [slen] in Hrun. rewrite Hrun.
    destruct (close_block_spec (E := E) (sec_id section) (sec_text section) (sec_text section) []
      open units us (omap line_label (split_inclusive (sec_text section))) True) as (us' & -> & Hok & Hlab & He); [by rewrite app_nil_r|exact Hs|].
    exists us'. split_and!; done.
Qed.

Lemma outline_loop_spec {E} sections : forall units, exists groups,
  @outline_loop E sections units = Ok (units ++ concat groups) /\
  Forall2 contributes sections groups.
Proof.
  induction sections as [|section sections IH]; intros units; cbn [outline_loop].
  - exists []. rewrite app_nil_r. by split.
  - destruct (outline_section_spec (E := E) section units) as (us & -> & Hc).
    destruct (IH (units ++ us)) as (groups & -> & Hg). exists (us :: groups).
    cbn. rewrite <- app_assoc. split; [done|]. by constructor.
Qed.

(** Every unit is of one of the sections, and reads its label. *)
Lemma outline_units {E} sections :
  exists units, @outline E sections = Ok units /\
    Forall (fun x => exists section, section ∈ sections /\ unit_ok (sec_id section) x) units.
Proof.
  destruct (outline_loop_spec (E := E) sections []) as (groups & Hrun & Hg).
  exists (concat groups). split; [done|]. clear Hrun.
  induction Hg as [|section us sections groups (_ & Hok & _) Hg IH]; cbn; [constructor|].
  apply Forall_app. split.
  - eapply Forall_impl; [exact Hok|]. intros x Hx. exists section. split; [by left|done].
  - eapply Forall_impl; [exact IH|]. intros x (s & Hs & Hx). exists s. split; [by right|done].
Qed.

(** C33. The outline of a capture always exists. It is made of what each section
    contributes, in their order: of an [article:] section the one heading or article
    that its text is, of a text block one unit for every line that is a heading or
    starts an article, and nothing of another section. Each unit begins with the
    locator it is labelled with, and the texts of the units occur in the section, in
    their order and without overlap. *)
Theorem outline_complete sections :
  exists groups, outline (E := unit) sections = Ok (concat groups) /\
    Forall2 contributes sections groups /\
    unit_label <$> concat groups = concat (section_labels <$> sections).
Proof.
  destruct (outline_loop_spec (E := unit) sections []) as (groups & Hrun & Hg).
  exists groups. split_and!; [done..|]. clear Hrun.
  induction Hg as [|section us sections groups (Hl & _) Hg IH]; [done|].
  cbn. rewrite fmap_app. f_equal; [exact Hl|exact IH].
Qed.
