(* ===== verification/KrLookup.v ===== *)
(** Looking an article or an annex up in a capture. *)

From S2P Require Import Prelude Utf8 Strings Domain Legal TextDiff Slices KrNames KrArticles KrScan KrLocators KrOutline.

(** * The order of locators *)

Lemma option_cmp_eq a b : option_cmp a b = Eq <-> a = b.
Proof. destruct a, b; cbn; rewrite ?Z.compare_eq_iff; split; congruence. Qed.

Lemma option_cmp_antisym a b : option_cmp b a = CompOpp (option_cmp a b).
Proof. destruct a, b; cbn; try done. apply Z.compare_antisym. Qed.

Lemma option_cmp_trans a b c : option_cmp a b = Lt -> option_cmp b c = Lt -> option_cmp a c = Lt.
Proof. destruct a, b, c; cbn; try done. rewrite !Z.compare_lt_iff. lia. Qed.

Definition article_le (a b : ArticleNumber) : Prop := article_cmp a b <> Gt.

Lemma article_cmp_antisym a b : article_cmp b a = CompOpp (article_cmp a b).
Proof.
  unfold article_cmp. rewrite (Z.compare_antisym (an_number a)).
  destruct (an_number a ?= an_number b); [|done..]. cbn.
  rewrite (option_cmp_antisym (an_part a)). destruct (option_cmp (an_part a) (an_part b)); [|done..].
  cbn. apply option_cmp_antisym.
Qed.

Lemma article_cmp_lt a b :
  article_cmp a b = Lt <->
  an_number a < an_number b \/ an_number a = an_number b /\
    (option_cmp (an_part a) (an_part b) = Lt \/
     an_part a = an_part b /\ option_cmp (an_branch a) (an_branch b) = Lt).
Proof.
  unfold article_cmp. destruct (Z.compare_spec (an_number a) (an_number b)) as [->|H|H].
  - destruct (option_cmp (an_part a) (an_part b)) eqn:E.
    + apply option_cmp_eq in E. rewrite E. naive_solver lia.
    + naive_solver lia.
    + assert (an_part a <> an_part b) by (intros K%option_cmp_eq; congruence). naive_solver lia.
  - naive_solver.
  - split; [done|]. lia.
Qed.

Lemma article_cmp_eq a b : article_cmp a b = Eq <-> a = b.
Proof.
  unfold article_cmp. destruct a as [n p r], b as [n' p' r']. cbn [an_number an_part an_branch].
  destruct (Z.compare_spec n n') as [->|H|H]; [|split; [done|intros [= -> _ _]; lia]..].
  destruct (option_cmp p p') eqn:E.
  - apply option_cmp_eq in E as ->. rewrite option_cmp_eq. split; congruence.
  - split; [done|]. intros [= -> _]. by rewrite (proj2 (option_cmp_eq p' p')) in E.
  - split; [done|]. intros [= -> _]. by rewrite (proj2 (option_cmp_eq p' p')) in E.
Qed.

Lemma article_le_refl a : article_le a a.
Proof. unfold article_le. by rewrite (proj2 (article_cmp_eq a a)). Qed.

Lemma article_le_lt_eq a b : article_le a b <-> article_cmp a b = Lt \/ a = b.
Proof. unfold article_le. rewrite <- article_cmp_eq. destruct (article_cmp a b); naive_solver. Qed.

Lemma article_lt_trans a b c : article_cmp a b = Lt -> article_cmp b c = Lt -> article_cmp a c = Lt.
Proof.
  rewrite !article_cmp_lt. intros [H|(E & H)] [K|(E' & K)]; [left; lia..|].
  right. split; [lia|]. destruct H as [H|(P & H)], K as [K|(P' & K)].
  - left. by eapply option_cmp_trans.
  - left. by rewrite <- P'.
  - left. by rewrite P.
  - right. split; [congruence|]. by eapply option_cmp_trans.
Qed.

#[export] Instance article_le_trans : Transitive article_le.
Proof.
  intros a b c. rewrite !article_le_lt_eq. intros [H| ->] [K| <-]; eauto using article_lt_trans.
Qed.

Lemma article_gt_le a b : article_cmp a b = Gt -> article_le b a.
Proof. intros H. unfold article_le. by rewrite article_cmp_antisym, H. Qed.

(** * Articles *)

Definition unit_article (x : OutlineUnit) : option LocatedArticle :=
  match x with Article a => Some a | Heading _ _ _ => None end.
Definition articles (units : list OutlineUnit) : list LocatedArticle := omap unit_article units.

Definition is_wanted (wanted : ArticleNumber) (a : LocatedArticle) : bool :=
  bool_decide (la_number a = wanted).
(** The article that a hyphenated locator falls back to *)
Definition is_alternate (wanted : ArticleNumber) (a : LocatedArticle) : bool :=
  bool_decide (an_branch wanted = None) && bool_decide (Some (la_number a) = alternate wanted).

(** The least and the greatest locator of the articles, when there are any *)
Definition range_of (first last_ : option ArticleNumber) (arts : list LocatedArticle) : Prop :=
  match first, last_ with
  | None, None => arts = []
  | Some f, Some l =>
    f ∈ la_number <$> arts /\ l ∈ la_number <$> arts /\
    Forall (fun n => article_le f n /\ article_le n l) (la_number <$> arts)
  | _, _ => False
  end.

Lemma range_of_snoc f l arts a :
  range_of f l arts ->
  range_of (min_article f (la_number a)) (max_article l (la_number a)) (arts ++ [a]).
Proof.
  unfold range_of. rewrite fmap_app. set (n := la_number a). change (la_number <$> [a]) with [n].
  set (ns := la_number <$> arts).
  destruct f as [f|], l as [l|]; cbn [min_article max_article]; try done.
  - intros (Hf & Hl & Hall).
    assert (Hin : forall x, x ∈ ns -> x ∈ ns ++ [n]) by (intros x ?; apply elem_of_app; by left).
    assert (Hn : n ∈ ns ++ [n]) by (apply elem_of_app; right; by left).
    assert (Hmin : exists m, match article_cmp f n with Gt => Some n | _ => Some f end = Some m /\
      m ∈ ns ++ [n] /\ article_le m f /\ article_le m n).
    { destruct (article_cmp f n) eqn:E; eexists; (split; [done|]).
      - split_and!; [auto|apply article_le_refl|unfold article_le; congruence].
      - split_and!; [auto|apply article_le_refl|unfold article_le; congruence].
      - split_and!; [auto|by apply article_gt_le|apply article_le_refl]. }
    assert (Hmax : exists m, match article_cmp l n with Gt => Some l | _ => Some n end = Some m /\
      m ∈ ns ++ [n] /\ article_le l m /\ article_le n m).
    { destruct (article_cmp l n) eqn:E; eexists; (split; [done|]).
      - split_and!; [auto|unfold article_le; congruence|apply article_le_refl].
      - split_and!; [auto|unfold article_le; congruence|apply article_le_refl].
      - split_and!; [auto|apply article_le_refl|by apply article_gt_le]. }
    destruct Hmin as (m & -> & Hm & Hmf & Hmn), Hmax as (k & -> & Hk & Hkl & Hkn).
    split_and!; [done..|]. apply Forall_app. split; [|by apply Forall_singleton].
    eapply Forall_impl; [exact Hall|]. intros x [? ?]. split; [by transitivity f|by transitivity l].
  - intros H. subst ns. rewrite H. cbn. split_and!; [by left..|].
    apply Forall_singleton. split; apply article_le_refl.
Qed.

Lemma find_app {A} (f : A -> bool) l k :
  List.find f (l ++ k) = match List.find f l with Some x => Some x | None => List.find f k end.
Proof. induction l as [|x l IH]; [done|]. cbn. by destruct (f x). Qed.

Lemma locate_loop_spec wanted units : forall done_ f l fallback,
  List.find (is_wanted wanted) done_ = None ->
  fallback = List.find (is_alternate wanted) done_ -> range_of f l done_ ->
  exists first last_,
    (List.find (is_wanted wanted) (articles units) = None ->
     range_of first last_ (done_ ++ articles units)) /\
    locate_loop wanted units f l fallback =
      match List.find (is_wanted wanted) (articles units) with
      | Some a => Found a
      | None =>
        match List.find (is_alternate wanted) (done_ ++ articles units) with
        | Some a => Found a
        | None => NotFound first last_
        end
      end.
Proof.
  induction units as [|x units IH]; intros done_ f l fallback Hw -> Hr; cbn [locate_loop].
  { exists f, l. cbn. rewrite app_nil_r. split; [done|]. by destruct (List.find _ _). }
  destruct x as [level number text|a]; [apply (IH done_ f l _ Hw eq_refl Hr)|].
  change (articles (Article a :: units)) with (a :: articles units). cbn [List.find].
  fold (is_wanted wanted a). destruct (is_wanted wanted a) eqn:Ewant; [by exists None, None|].
  assert (Hw' : List.find (is_wanted wanted) (done_ ++ [a]) = None)
    by (rewrite find_app, Hw; cbn [List.find]; by rewrite Ewant).
  assert (Hfb : (if is_alternate wanted a && negb (is_some (List.find (is_alternate wanted) done_))
                 then Some a else List.find (is_alternate wanted) done_)
                = List.find (is_alternate wanted) (done_ ++ [a])).
  { rewrite find_app. destruct (List.find (is_alternate wanted) done_); cbn.
    - by rewrite andb_false_r.
    - by rewrite andb_true_r. }
  unfold is_alternate at 1 in Hfb. rewrite Hfb.
  destruct (IH (done_ ++ [a]) (min_article f (la_number a)) (max_article l (la_number a)) _
    Hw' eq_refl (range_of_snoc _ _ _ _ Hr)) as (first & last_ & H).
  exists first, last_. by rewrite <- app_assoc in H.
Qed.

(** Looking an article up finds, in the outline of the capture, the first article
    with exactly that locator; failing that, for a hyphenated locator without a
    branch, the first article of that number with the part as its branch; and
    otherwise reports the least and the greatest locator that the outline has. *)
Theorem locate_article_spec sections wanted :
  exists units first last_, outline (E := unit) sections = Ok units /\
    locate_article (E := unit) sections wanted =
      Ok match List.find (is_wanted wanted) (articles units) with
         | Some a => Found a
         | None =>
           match List.find (is_alternate wanted) (articles units) with
           | Some a => Found a
           | None => NotFound first last_
           end
         end /\
    (List.find (is_wanted wanted) (articles units) = None -> range_of first last_ (articles units)) /\
    Forall (fun a => exists section, section ∈ sections /\ la_section_id a = sec_id section /\
              exists r, article_ref (la_text a) = Some (la_number a, r)) (articles units).
Proof.
  destruct (outline_units (E := unit) sections) as (units & Hrun & Hok).
  destruct (locate_loop_spec wanted units [] None None None eq_refl eq_refl eq_refl)
    as (first & last_ & Hr & Hl).
  exists units, first, last_. unfold locate_article. rewrite Hrun, Hl. split_and!; [done..|].
  apply Forall_forall. intros a (x & Hx & Ha)%list_elem_of_omap.
  destruct x as [|b]; [done|]. injection Ha as ->.
  rewrite Forall_forall in Hok. destruct (Hok _ Hx) as (section & Hs & Hid & Hr'). eauto.
Qed.

(** * Subparagraphs *)

(** The number of a line [{n}.] *)
Definition item_ref (line : str) : option Z :=
  match digits_ref 3 line with
  | Some (n, r) => if starts_with (u ".") r then Some n else None
  | None => None
  end.

(** A line of an article: a paragraph sign, an item, or text *)
Inductive line_kind := ParagraphLine (n : Z) | ItemLine (n : Z) | TextLine.
Definition kind_of (line : str) : line_kind :=
  match head (trim_start line) ≫= circled_number with
  | Some n => ParagraphLine n
  | None => match item_ref (trim_start line) with Some n => ItemLine n | None => TextLine end
  end.

(** The items of the paragraph [paragraph], or of all when there is none, when the
    text so far is inside it or not. *)
Fixpoint items_of (paragraph : option Z) (inside : bool) (ls : list line_kind) : list Z :=
  match ls with
  | [] => []
  | ParagraphLine n :: ls => items_of paragraph (match paragraph with Some p => p =? n | None => true end) ls
  | ItemLine n :: ls => (if inside then [n] else []) ++ items_of paragraph inside ls
  | TextLine :: ls => items_of paragraph inside ls
  end.

Lemma subparagraph_loop_spec {E} paragraph wanted ls : forall inside,
  @subparagraph_loop E paragraph wanted inside ls =
    Ok (existsb (Z.eqb wanted) (items_of paragraph inside (kind_of <$> ls))).
Proof.
  induction ls as [|line ls IH]; intros inside; cbn [subparagraph_loop fmap list_fmap]; [done|].
  unfold kind_of at 1. destruct (head (trim_start line) ≫= circled_number) as [n|]; [apply IH|].
  unfold item_ref. set (t := trim_start line).
  pose proof (digits_start (E := E) 3 t ltac:(lia)) as D.
  assert (Hskip : forall k : line_kind, inside = false ->
    match k with ParagraphLine _ => False | _ => True end ->
    items_of paragraph inside (k :: (kind_of <$> ls)) = items_of paragraph inside (kind_of <$> ls)).
  { intros k -> Hk. by destruct k. }
  destruct inside; cbn [negb].
  2:{ rewrite IH. destruct (digits_ref 3 t) as [[n r]|]; [destruct (starts_with _ r)|]; by rewrite Hskip. }
  destruct (digits_ref 3 t) as [[n r]|]; [|by rewrite D, IH].
  destruct D as (e & -> & H). rewrite (at_suffix_slice_from _ _ _ H), !IH.
  destruct (starts_with (u ".") r).
  - cbn [items_of app existsb]. rewrite (Z.eqb_sym wanted n). by destruct (n =? wanted).
  - by destruct (n =? wanted).
Qed.

(** A subparagraph is found exactly when an item with its number stands among the
    lines of the cited paragraph, which the first line may open; in an article
    without paragraphs, or for no cited paragraph, all items count. *)
Theorem has_subparagraph_spec article paragraph wanted :
  let inline := head (lines (la_text article)) ≫= find_map circled_number in
  let inside :=
    bool_decide (paragraph = None) || bool_decide (la_paragraphs article = [])
    || bool_decide (inline <> None /\ inline = paragraph) in
  has_subparagraph (E := unit) article paragraph wanted =
    Ok (existsb (Z.eqb wanted) (items_of paragraph inside (kind_of <$> drop 1 (lines (la_text article))))).
Proof.
  intros inline inside. unfold has_subparagraph. fold inline. rewrite subparagraph_loop_spec.
  do 3 f_equal. unfold inside.
  replace (negb (is_some paragraph)) with (bool_decide (paragraph = None)) by by destruct paragraph.
  replace (is_some inline && bool_decide (inline = paragraph))
    with (bool_decide (inline <> None /\ inline = paragraph)); [done|].
  destruct inline as [n|]; cbn [is_some andb].
  - apply bool_decide_ext. naive_solver.
  - apply bool_decide_eq_false. naive_solver.
Qed.

(** * Annexes *)

(** The longest prefix of at most [n] bytes *)
Fixpoint window_ref (n : Z) (s : str) : str :=
  match s with
  | c :: s' => if len_utf8 c <=? n then c :: window_ref (n - len_utf8 c) s' else []
  | [] => []
  end.

Lemma window_ref_spec s : forall n, 0 <= n ->
  exists t, s = window_ref n s ++ t /\ slen (window_ref n s) <= n /\
    (forall a b, s = a ++ b -> slen a <= n -> slen a <= slen (window_ref n s)) /\
    Z.min n (slen s) - 3 <= slen (window_ref n s).
Proof.
  induction s as [|c s IH]; intros n Hn.
  { exists []. cbn. split_and!; [done|lia| |lia]. intros a b E _.
    symmetry in E. apply app_eq_nil in E as [-> _]. cbn. lia. }
  cbn [window_ref]. pose proof (len_utf8_bounds c). destruct (Z.leb_spec (len_utf8 c) n).
  - destruct (IH (n - len_utf8 c) ltac:(lia)) as (t & Ht & Hle & Hmax & Hmin). exists t.
    cbn [app slen]. split_and!; [by rewrite <- Ht|lia| |lia]. intros a b E Ha.
    destruct a as [|d a]; cbn in *; [pose proof (slen_nonneg (window_ref (n - len_utf8 c) s)); lia|].
    injection E as <- E. specialize (Hmax a b E ltac:(lia)). lia.
  - exists (c :: s). cbn [app slen]. split_and!; [done|lia| |lia]. intros a b E Ha.
    destruct a as [|d a]; cbn in *; [lia|]. injection E as <- E. pose proof (slen_nonneg a). lia.
Qed.

Lemma annex_window {E} text :
  @align_down E 3 text (Z.min 400 (slen text)) = Ok (slen (window_ref 400 text)).
Proof.
  destruct (window_ref_spec text 400 ltac:(lia)) as (t & Ht & Hle & Hmax & Hmin).
  assert (Hw : slen (window_ref 400 text) <= slen text)
    by (rewrite Ht at 2; rewrite slen_app; pose proof (slen_nonneg t); lia).
  destruct (align_down_spec (E := E) 3 text (Z.min 400 (slen text)) _ _ Ht ltac:(lia))
    as (a & b & -> & Hab & Ha).
  f_equal. specialize (Hmax a b Hab ltac:(lia)). lia.
Qed.

(** The number behind an annex marker *)
Definition marker_ref (s : str) : option AnnexLabel :=
  match digits_ref 4 (skip_space s) with
  | Some (number, s) =>
    let branch := match strip_prefix (u "의") s with Some t => fst <$> digits_ref 3 t | None => None end in
    if 0 <? number then Some {| al_number := number; al_branch := branch |} else None
  | None => None
  end.

(** The label of a text: behind the first marker of its first 400 bytes *)
Definition label_ref (text : str) : option AnnexLabel :=
  match split_once (u "별표") (window_ref 400 text) with
  | Some (before, _) =>
    marker_ref (drop (length (before ++ u "별표")) text)
  | None => None
  end.

Lemma annex_marker_reads {E} text : @annex_marker E text = Ok (label_ref text).
Proof.
  unfold annex_marker, label_ref, found. rewrite annex_window.
  destruct (window_ref_spec text 400 ltac:(lia)) as (t & Ht & _).
  assert (Hs : slice_to text (slen (window_ref 400 text)) = @Ok (stop E) _ (window_ref 400 text)).
  { rewrite Ht at 1. apply slice_to_app. }
  rewrite Hs. unfold find_str.
  destruct (split_once (u "별표") (window_ref 400 text)) as [[a b]|] eqn:Eb; [|done].
  apply split_once_Some in Eb. cbn [fmap option_fmap option_map fst].
  assert (Htext : text = (a ++ u "별표") ++ b ++ t) by (rewrite Ht, Eb, <- !app_assoc; done).
  assert (Hat : at_suffix text (slen a + slen (u "별표")) (b ++ t)).
  { exists (a ++ u "별표"). by rewrite slen_app. }
  assert (Hdrop : drop (length (a ++ u "별표")) text = b ++ t).
  { pose proof (drop_app_length (a ++ u "별표") (b ++ t)) as K. by rewrite <- Htext in K. }
  rewrite Hdrop. clear Hdrop. apply skip_spaces_suffix in Hat. unfold marker_ref.
  pose proof (digits_reads (E := E) _ _ _ 4 ltac:(lia) Hat) as D.
  destruct (digits_ref 4 (skip_space (b ++ t))) as [[n r]|]; cbn [reads] in D; [|by rewrite D].
  destruct D as (e & -> & H). rewrite (at_suffix_slice_from _ _ _ H).
  change (u "의") with [ch "의"]. rewrite starts_with_single, strip_prefix_single.
  destruct r as [|x r]; [done|]. destruct (Z.eqb_spec x (ch "의")) as [->|]; [|done].
  apply at_suffix_cons in H. pose proof (digits_reads (E := E) _ _ _ 3 ltac:(lia) H) as D.
  destruct (digits_ref 3 r) as [[m q]|]; cbn [reads] in D; [|by rewrite D].
  destruct D as (e' & -> & _). done.
Qed.

(** The annex that a section is *)
Definition annex_of (section : LegalSection) : option LocatedAnnex :=
  let candidate :=
    match sec_kind section with
    | ProviderText => str_eqb (sec_title section) (u "별표내용")
    | Extracted => true
    | Ocr => false
    end in
  if candidate then
    (fun label => {| lx_label := label; lx_section_id := sec_id section; lx_title := sec_title section;
                     lx_text := trim (sec_text section); lx_kind := sec_kind section;
                     lx_sparse := (countb is_hangul (sec_text section) <? 20)
                                  || contains_str (u "<img") (sec_text section) |})
      <$> label_ref (sec_text section)
  else None.

Lemma annex_sections_spec {E} sections : @annex_sections E sections = Ok (omap annex_of sections).
Proof.
  induction sections as [|section sections IH]; [done|]. cbn [annex_sections omap list_omap].
  assert (H : @annex_section E section = Ok (annex_of section)).
  { unfold annex_section, annex_of. destruct (sec_kind section); cbn [negb]; [|..|done].
    - destruct (str_eqb _ _); [|done]. rewrite annex_marker_reads. by destruct (label_ref _).
    - rewrite annex_marker_reads. by destruct (label_ref _). }
  rewrite H, IH. by destruct (annex_of section).
Qed.

(** An annex lookup returns exactly the annexes of the capture with that label,
    those of provider text first and each kind in the order of the sections. *)
Theorem locate_annex_spec sections wanted :
  locate_annex (E := unit) sections wanted =
    Ok (let found := List.filter (fun a => bool_decide (lx_label a = wanted)) (omap annex_of sections) in
        List.filter (fun a => bool_decide (lx_kind a = ProviderText)) found ++
        List.filter (fun a => negb (bool_decide (lx_kind a = ProviderText))) found).
Proof.
  unfold locate_annex, annexes. rewrite annex_sections_spec. f_equal. unfold sort_by_flag.
  rewrite List.filter_app. cbv zeta. f_equal.
  - induction (omap annex_of sections) as [|a l IH]; [done|]. cbn.
    destruct (bool_decide (lx_kind a = ProviderText)) eqn:K, (bool_decide (lx_label a = wanted)) eqn:L;
      cbn; rewrite ?K, ?L, ?IH; done.
  - induction (omap annex_of sections) as [|a l IH]; [done|]. cbn.
    destruct (bool_decide (lx_kind a = ProviderText)) eqn:K, (bool_decide (lx_label a = wanted)) eqn:L;
      cbn; rewrite ?K, ?L, ?IH; done.
Qed.
