(* ===== verification/KrCitations.v ===== *)
(** Extraction of citations: [crates/normalization/src/kr_legal_reference.rs], lines
    715 to 1016 and [parse_case_number], with the data of
    [crates/normalization/src/legal_reference.rs]. *)

From S2P Require Import Prelude Utf8 Strings Domain Legal TextDiff Slices KrNames KrArticles.

Definition MAX_LAW_NAME_BYTES : Z := 512.
Definition MAX_STATUTE_CITATIONS : Z := 50.
Definition MAX_CASE_CITATIONS : Z := 30.
Definition MAX_NAME_WORDS : nat := 8.

Inductive LawReference :=
| Named (candidates : list (str * Z)) (generic_tail : bool)
| Same (suffix : option str) (start : Z)
| Continued.

Record ExtractedStatute := {
  es_law : LawReference; es_article : ArticleNumber; es_article_start : Z; es_byte_end : Z;
  es_paragraph : option Z; es_subparagraph : option Z; es_cited_title : option str;
}.

Record ExtractedCase := { ec_byte_start : Z; ec_byte_end : Z; ec_case_number : str }.

Record Extraction := {
  ex_statutes : list ExtractedStatute; ex_cases : list ExtractedCase; ex_truncated : bool;
}.

(** The characters of the literal in [is_boundary]; the double quote is [34]. *)
Definition boundary_chars : str := u ".,;:!?()[]{}" ++ [34] ++ u "'“”‘’<>《》〈〉「」『』（）、。".
Definition is_boundary (c : char) : bool := (c =? LF) || contains_char c boundary_chars.

Definition ends_like_law_name (word : str) : bool :=
  existsb (fun suffix => ends_with suffix word)
    [u "법"; u "법률"; u "령"; u "규칙"; u "규정"; u "헌법"; u "특례법"; u "기본법"].

Definition generic_law_word (word : str) : bool :=
  existsb (str_eqb word)
    [u "법"; u "법률"; u "영"; u "령"; u "규칙"; u "규정"; u "시행령"; u "시행규칙"].

(** Where the last word of [head] begins: behind the last whitespace or boundary *)
Fixpoint word_start (off : Z) (start : Z) (s : str) : Z :=
  match s with
  | [] => start
  | c :: s =>
    let off := off + len_utf8 c in
    word_start off (if is_whitespace c || is_boundary c then off else start) s
  end.

Section extraction.
Context {E : Type}.

(** The loop of [word_tail]: up to [max] more words ending at [end_], the last first *)
Fixpoint word_tail_loop (max : nat) (prefix : str) (end_ : Z) (words : list (Z * str))
  : result (stop E) (list (Z * str)) :=
  match max with
  | O => Ok words
  | S max =>
    if end_ =? 0 then Ok words else
    let? head_ := slice_to prefix end_ in
    let start := word_start 0 0 head_ in
    if start =? end_ then Ok words else
    let? word := slice prefix start end_ in
    let words := words ++ [(start, word)] in
    let? before := slice_to prefix start in
    let trimmed := trim_end_by (fun c => is_whitespace c && negb (c =? LF)) before in
    if slen trimmed =? slen before then Ok words
    else word_tail_loop max prefix (slen trimmed) words
  end.
Definition word_tail (prefix : str) (max : nat) : result (stop E) (list (Z * str)) :=
  let? words := word_tail_loop max prefix (slen (trim_end prefix)) [] in
  Ok (reverse words).

Definition FORMS : list (str * option str) :=
  [(u "같은법시행규칙", Some (u "시행규칙")); (u "같은법시행령", Some (u "시행령"));
   (u "동법시행규칙", Some (u "시행규칙")); (u "동법시행령", Some (u "시행령"));
   (u "같은법", None); (u "동법", None); (u "같은영", None); (u "같은규칙", None); (u "동령", None)].

(** [for take in (1..=words.len()).rev()]: the suffixes of the words, longest first *)
Fixpoint word_suffixes (words : list (Z * str)) : list (list (Z * str)) :=
  match words with
  | [] => []
  | _ :: rest => words :: word_suffixes rest
  end.

Definition suffix_start (slice : list (Z * str)) : Z := match slice with (start, _) :: _ => start | [] => 0 end.

Definition same_form (slice : list (Z * str)) : option (option str * Z) :=
  let joined := concat (snd <$> slice) in
  (fun form => (form.2, suffix_start slice)) <$> List.find (fun form => str_eqb form.1 joined) FORMS.

Definition same_law_reference (prefix : str) : result (stop E) (option (option str * Z)) :=
  let? words := word_tail prefix 3 in
  Ok (find_map same_form (word_suffixes words)).

(** [SUFFIXES.iter().find_map(..)] of [bracketed_name] *)
Definition bracket_suffix (trimmed : str) : option (str * option str) :=
  find_map (fun s =>
    match strip_suffix s trimmed with
    | Some b =>
      let b := trim_end b in
      if ends_with (u "」") b || ends_with (u "』") b then Some (b, Some s) else None
    | None => None
    end) SUFFIXES.

Definition bracketed_name (prefix : str) : result (stop E) (option (str * Z)) :=
  let trimmed := trim_end prefix in
  let '(body, suffix) := match bracket_suffix trimmed with Some p => p | None => (trimmed, None) end in
  let?? close := found (last body) in
  let?? open :=
    found (if close =? ch "」" then Some (ch "「") else if close =? ch "』" then Some (ch "『") else None) in
  let?? start := found (rfind open body) in
  let? inner := slice body (start + len_utf8 open) (slen body - len_utf8 close) in
  if str_eqb inner [] || (MAX_LAW_NAME_BYTES <? slen inner) || contains_char LF inner then Ok None else
  let name :=
    match suffix with
    | Some s => normalize_law_name inner ++ u " " ++ s
    | None => normalize_law_name inner
    end in
  Ok (Some (name, start)).

Definition connector_only (gap : str) : bool :=
  let rest :=
    remove_all (u "까지") (remove_all (u "부터") (remove_all (u "내지") (remove_all (u "또는") gap))) in
  (slen gap <=? 24)
  && forallb (fun c => is_whitespace c || contains_char c (u ",·ㆍ、~및와과")) rest.

(** [words.join(" ")] *)
Fixpoint join_words (words : list str) : str :=
  match words with
  | [] => []
  | [w] => w
  | w :: words => w ++ u " " ++ join_words words
  end.

Definition candidate (slice : list (Z * str)) : option (str * Z) :=
  let joined := join_words (snd <$> slice) in
  if slen joined <=? MAX_LAW_NAME_BYTES then Some (normalize_law_name joined, suffix_start slice) else None.

(** [previous_end.filter(..).map(|_| LawReference::Continued)] *)
Definition continued (text : str) (start : Z) (previous_end : option Z)
  : result (stop E) (option LawReference) :=
  match previous_end with
  | Some e =>
    if e <=? start then
      let? gap := slice text e start in
      Ok (if connector_only gap then Some Continued else None)
    else Ok None
  | None => Ok None
  end.

Definition law_reference (text : str) (start : Z) (previous_end : option Z)
  : result (stop E) (option LawReference) :=
  let? prefix := slice_to text start in
  let? b := bracketed_name prefix in
  match b with
  | Some (name, at_) => Ok (Some (Named [(name, at_)] false))
  | None =>
    let? s := same_law_reference prefix in
    match s with
    | Some (suffix, at_) => Ok (Some (Same suffix at_))
    | None =>
      let? words := word_tail prefix MAX_NAME_WORDS in
      match last words with
      | Some (_, last_) =>
        if ends_like_law_name last_
        then Ok (Some (Named (omap candidate (word_suffixes words)) (generic_law_word last_)))
        else continued text start previous_end
      | None => continued text start previous_end
      end
    end
  end.

Definition TITLE_SKIP : list str :=
  [u "이하"; u "구 "; u "개정"; u "신설"; u "삭제"; u "현행"; u "종전"; u "단서"; u "본문"].

Definition usable_title (inner : str) : option str :=
  let inner := trim inner in
  if str_eqb inner []
     || contains_str (u "라 한다") inner
     || forallb (fun c => is_ascii_digit c || is_whitespace c || (c =? ch ".")) inner
     || existsb (fun s => starts_with s inner) TITLE_SKIP
  then None else Some inner.

(** [if let Some((n, after)) = unit_number(text, skip_spaces(text, end, 1), unit)] *)
Definition optional_unit (text : str) (end_ : Z) (unit : char) : result (stop E) (option Z * Z) :=
  let? n := unit_number text (skip_spaces text end_ 1) unit in
  Ok (match n with Some (p, after) => (Some p, after) | None => (None, end_) end).

(** The inner [Err] is the end of an article that no law is named for. *)
Definition statute_at (text : str) (at_ : Z) (previous_end : option Z)
  : result (stop E) (option (result Z ExtractedStatute)) :=
  let?? (article, end_) := article_at text at_ in
  let? p := parenthetical text end_ in
  let '(cited_title, end_) :=
    match p with
    | Some (inner, after) =>
      match usable_title inner with Some title => (Some title, after) | None => (None, end_) end
    | None => (None, end_)
    end in
  let? (paragraph, end_) := optional_unit text end_ (ch "항") in
  let? (subparagraph, end_) := optional_unit text end_ (ch "호") in
  let? law := law_reference text at_ previous_end in
  Ok (Some match law with
           | Some law =>
             Ok {| es_law := law; es_article := article; es_article_start := at_; es_byte_end := end_;
                   es_paragraph := paragraph; es_subparagraph := subparagraph;
                   es_cited_title := cited_title |}
           | None => Err end_
           end).
End extraction.

Definition CASE_TYPES : list str :=
  [u "가합"; u "가단"; u "가소"; u "나"; u "다"; u "라"; u "마"; u "그"; u "머"; u "카"; u "타"; u "차";
   u "드"; u "르"; u "므"; u "브"; u "스"; u "느단"; u "느합"; u "고합"; u "고단"; u "고정"; u "고약"; u "노";
   u "도"; u "로"; u "모"; u "보"; u "오"; u "초"; u "감도"; u "구합"; u "구단"; u "구"; u "누"; u "두"; u "무";
   u "허"; u "후"; u "헌가"; u "헌나"; u "헌다"; u "헌라"; u "헌마"; u "헌바"; u "헌사"; u "헌아"; u "재다";
   u "재두"; u "재도"].

(** The Hangul syllables, at most [n], that the text begins with *)
Fixpoint kind_end (n : nat) (off : Z) (s : str) : Z :=
  match n, s with
  | S n, c :: s => if is_hangul c then kind_end n (off + len_utf8 c) s else off
  | _, _ => off
  end.

Section cases.
Context {E : Type} `{CharTables}.

Definition alphanumeric_at (o : option char) : bool :=
  match o with Some c => is_alphanumeric c | None => false end.

Definition case_at (text : str) (at_ : Z) : result (stop E) (option ExtractedCase) :=
  let? before := slice_to text at_ in
  if alphanumeric_at (last before) then Ok None else
  let?? (_, year_end) := digits text at_ 4 in
  let? year := slice text at_ year_end in
  if negb ((slen year =? 2) || (slen year =? 4) && (starts_with (u "19") year || starts_with (u "20") year))
  then Ok None else
  let? rest := slice_from text year_end in
  let kind_end := kind_end 3 year_end rest in
  let? kind := slice text year_end kind_end in
  if negb (existsb (str_eqb kind) CASE_TYPES) then Ok None else
  let?? (_, end_) := digits text kind_end 7 in
  let? tail := slice_from text end_ in
  if match head tail with Some c => is_alphanumeric c && negb (is_hangul c) | None => false end
  then Ok None else
  let? number := slice text at_ end_ in
  Ok (Some {| ec_byte_start := at_; ec_byte_end := end_; ec_case_number := number |}).

(** One turn of the loop of [extract_citations] at [i] *)
Record Scan := {
  sc_i : Z; sc_previous : option Z; sc_seen : gset str; sc_out : Extraction;
}.

Definition push_statute (out : Extraction) (s : ExtractedStatute) : Extraction :=
  {| ex_statutes := ex_statutes out ++ [s]; ex_cases := ex_cases out; ex_truncated := ex_truncated out |}.
Definition push_case (out : Extraction) (c : ExtractedCase) : Extraction :=
  {| ex_statutes := ex_statutes out; ex_cases := ex_cases out ++ [c]; ex_truncated := ex_truncated out |}.
Definition truncate (out : Extraction) : Extraction :=
  {| ex_statutes := ex_statutes out; ex_cases := ex_cases out; ex_truncated := true |}.

Definition found_case (st : Scan) (case : ExtractedCase) : Scan :=
  if bool_decide (ec_case_number case ∈ sc_seen st) then
    {| sc_i := ec_byte_end case; sc_previous := sc_previous st; sc_seen := sc_seen st; sc_out := sc_out st |}
  else
    let seen := {[ ec_case_number case ]} ∪ sc_seen st in
    {| sc_i := ec_byte_end case; sc_previous := sc_previous st; sc_seen := seen;
       sc_out := if MAX_CASE_CITATIONS <? Z.of_nat (size seen) then truncate (sc_out st)
                 else push_case (sc_out st) case |}.

Definition scan_step (text : str) (st : Scan) (c : char) : result (stop E) Scan :=
  let i := sc_i st in
  let advance st :=
    {| sc_i := i + len_utf8 c; sc_previous := sc_previous st; sc_seen := sc_seen st; sc_out := sc_out st |} in
  if contains_char c (u "제第") then
    let? s := statute_at text i (sc_previous st) in
    match s with
    | Some (Ok citation) =>
      if zlen (ex_statutes (sc_out st)) =? MAX_STATUTE_CITATIONS then
        Ok (advance {| sc_i := i; sc_previous := sc_previous st; sc_seen := sc_seen st;
                       sc_out := truncate (sc_out st) |})
      else
        Ok {| sc_i := es_byte_end citation; sc_previous := Some (es_byte_end citation);
              sc_seen := sc_seen st; sc_out := push_statute (sc_out st) citation |}
    | Some (Err end_) =>
      Ok {| sc_i := end_; sc_previous := None; sc_seen := sc_seen st; sc_out := sc_out st |}
    | None => Ok (advance st)
    end
  else
    let? case := if is_ascii_digit c then case_at text i else Ok None in
    match case with
    | Some case => Ok (found_case st case)
    | None =>
      if c =? LF then
        let? rest := slice_from text (i + 1) in
        Ok (advance (if starts_with [LF] rest
                     then {| sc_i := i; sc_previous := None; sc_seen := sc_seen st; sc_out := sc_out st |}
                     else st))
      else Ok (advance st)
    end.

Fixpoint scan_loop (fuel : nat) (text : str) (st : Scan) : result (stop E) Extraction :=
  if slen text <=? sc_i st then Ok (sc_out st) else
  match fuel with
  | O => Err OutOfFuel
  | S fuel =>
    let? rest := slice_from text (sc_i st) in
    match head rest with
    | None => Ok (sc_out st)
    | Some c => let? st := scan_step text st c in scan_loop fuel text st
    end
  end.

(** Every turn moves on, so the length of the text bounds the number of turns. *)
Definition extract_citations (text : str) : result (stop E) Extraction :=
  scan_loop (length text) text
    {| sc_i := 0; sc_previous := None; sc_seen := ∅;
       sc_out := {| ex_statutes := []; ex_cases := []; ex_truncated := false |} |}.

Definition parse_case_number (value : str) : result (stop E) (option str) :=
  let value := trim value in
  let?? case := case_at value 0 in
  Ok (if ec_byte_end case =? slen value then Some (ec_case_number case) else None).
End cases.
