(* ===== verification/KrCitationsFacts.v ===== *)
(** What extraction of citations promises: it always answers, and what it lists are
    bounded, ordered spans of the text that read as they say. *)

From S2P Require Import Prelude Utf8 Strings Domain Legal TextDiff Slices KrNames KrArticles KrScan KrLocators KrOutline KrCitations.

(** * Positions *)

Definition boundary (text : str) (i : Z) : Prop := exists rest, at_suffix text i rest.

Lemma boundary_at_app pre rest : boundary (pre ++ rest) (slen pre).
Proof. by exists rest, pre. Qed.

Lemma boundary_prefix pre rest i : boundary pre i -> boundary (pre ++ rest) i.
Proof. intros (r & p & -> & ->). exists (r ++ rest), p. by rewrite app_assoc. Qed.

Lemma at_suffix_order text a b ra rb :
  at_suffix text a ra -> at_suffix text b rb -> a <= b -> exists gap, ra = gap ++ rb.
Proof.
  intros (pa & -> & ->) (pb & E & ->) Hle.
  destruct (app_eq_prefix pa pb ra rb E Hle) as (m & -> & ->). by exists m.
Qed.

(** * Words in front of a locator *)

Definition separates (c : char) : bool := is_whitespace c || is_boundary c.

Lemma word_start_spec s : forall off start,
  exists a w, s = a ++ w /\ forallb (fun c => negb (separates c)) w = true /\
    (a = [] /\ word_start off start s = start \/ a <> [] /\ word_start off start s = off + slen a).
Proof.
  induction s as [|c s IH]; intros off start; [exists [], []; split_and!; auto|]. cbn [word_start].
  destruct (IH (off + len_utf8 c) (if is_whitespace c || is_boundary c then off + len_utf8 c else start))
    as (a & w & -> & Hw & H).
  destruct H as [[-> H]|[Ha H]]; cbn [app] in *.
  - fold (separates c) in *. destruct (separates c) eqn:Es.
    + exists [c], w. split_and!; [done..|]. right. cbn. split; [done|lia].
    + exists [], (c :: w). cbn [forallb app]. rewrite Es, Hw. split_and!; [done..|]. left. by split.
  - exists (c :: a), w. split_and!; [done..|]. right. cbn [slen]. split; [done|lia].
Qed.

Lemma word_start_split s :
  exists a w, s = a ++ w /\ forallb (fun c => negb (separates c)) w = true /\ word_start 0 0 s = slen a.
Proof.
  destruct (word_start_spec s 0 0) as (a & w & -> & Hw & H).
  exists a, w. split_and!; [done..|]. by destruct H as [[-> H]|[_ H]].
Qed.

(** A word of [prefix] at a byte offset *)
Definition word_ok (prefix : str) (w : Z * str) : Prop :=
  exists a b, prefix = a ++ w.2 ++ b /\ w.1 = slen a /\ w.2 <> [] /\
    forallb (fun c => negb (separates c)) w.2 = true.

Lemma word_tail_loop_spec {E} max prefix : forall h t words,
  prefix = h ++ t -> Forall (word_ok prefix) words ->
  exists words', @word_tail_loop E max prefix (slen h) words = Ok words' /\ Forall (word_ok prefix) words'.
Proof.
  induction max as [|max IH]; intros h t words Hp Hw; cbn [word_tail_loop]; [eauto|].
  destruct (slen h =? 0); [eauto|].
  assert (Hh : slice_to prefix (slen h) = @Ok (stop E) _ h) by (rewrite Hp; apply slice_to_app).
  rewrite Hh. destruct (word_start_split h) as (a & w & -> & Hns & ->).
  destruct (Z.eqb_spec (slen a) (slen (a ++ w))) as [|Hne]; [eauto|].
  assert (Ha : slice_to prefix (slen a) = @Ok (stop E) _ a) by (rewrite Hp, <- app_assoc; apply slice_to_app).
  assert (Hslice : slice prefix (slen a) (slen (a ++ w)) = @Ok (stop E) _ w).
  { rewrite slen_app, Hp, <- app_assoc. apply slice_app. }
  rewrite Hslice, Ha.
  assert (Hw' : Forall (word_ok prefix) (words ++ [(slen a, w)])).
  { apply Forall_app. split; [done|]. apply Forall_singleton. exists a, t. cbn [fst snd].
    split_and!; [by rewrite Hp, <- app_assoc|done| |done]. intros ->. by rewrite app_nil_r in Hne. }
  destruct (_ =? slen a); [eauto|].
  destruct (trim_end_split (fun c => is_whitespace c && negb (c =? LF)) a) as (d & Hd & _).
  apply (IH _ (d ++ w ++ t)); [|done]. by rewrite app_assoc, <- Hd, Hp, <- app_assoc.
Qed.

Lemma word_tail_spec {E} prefix max :
  exists words, @word_tail E prefix max = Ok words /\ Forall (word_ok prefix) words.
Proof.
  unfold word_tail. destruct (trim_end_split is_whitespace prefix) as (d & Hd & _).
  destruct (word_tail_loop_spec (E := E) max prefix (trim_end prefix) d [] Hd) as (words & -> & Hw);
    [constructor|].
  exists (reverse words). split; [done|]. by apply Forall_reverse.
Qed.

Lemma word_suffixes_spec words x : x ∈ word_suffixes words -> x <> [] /\ exists before, words = before ++ x.
Proof.
  induction words as [|w words IH]; cbn; [by intros ?%elem_of_nil|].
  intros [->|H]%elem_of_cons; [split; [done|by exists []]|].
  destruct (IH H) as (Hx & before & ->). split; [done|]. by exists (w :: before).
Qed.

(** The start of a run of words is a position in front of the end of the prefix. *)
Lemma suffix_start_ok prefix words x :
  Forall (word_ok prefix) words -> x ∈ word_suffixes words ->
  boundary prefix (suffix_start x) /\ suffix_start x < slen prefix.
Proof.
  intros Hw (Hx & before & ->)%word_suffixes_spec. apply Forall_app in Hw as [_ Hw].
  destruct x as [|[s w] x]; [done|]. apply Forall_cons in Hw as [(a & b & -> & Hs & Hne & _) _].
  cbn in *. subst s. split; [apply boundary_at_app|]. rewrite !slen_app.
  destruct w as [|c w]; [done|]. pose proof (slen_cons_pos c w). pose proof (slen_nonneg b). lia.
Qed.

Lemma find_map_Some {A B} (f : A -> option B) l b : find_map f l = Some b -> exists a, a ∈ l /\ f a = Some b.
Proof.
  induction l as [|a l IH]; cbn; [done|]. destruct (f a) as [b'|] eqn:Ef.
  - intros [= ->]. exists a. split; [by left|done].
  - intros (x & ? & ?)%IH. exists x. split; [by right|done].
Qed.

Lemma same_law_reference_spec {E} prefix :
  exists o, @same_law_reference E prefix = Ok o /\
    forall suffix s, o = Some (suffix, s) -> boundary prefix s /\ s < slen prefix.
Proof.
  unfold same_law_reference. destruct (word_tail_spec (E := E) prefix 3) as (words & -> & Hw).
  eexists. split; [done|]. intros suffix s (x & Hx & Hs)%find_map_Some.
  unfold same_form in Hs. destruct (List.find _ FORMS) as [form|]; [|done]. injection Hs as _ <-.
  by apply (suffix_start_ok prefix words).
Qed.

(** * Bracketed names *)

Lemma rfind_from_Some c s : forall off i, rfind_from off c s = Some i ->
  exists a b, s = a ++ c :: b /\ i = off + slen a.
Proof.
  induction s as [|x s IH]; intros off i; cbn [rfind_from]; [done|].
  destruct (rfind_from (off + len_utf8 x) c s) as [j|] eqn:Ej.
  - intros [= ->]. destruct (IH _ _ Ej) as (a & b & -> & ->). exists (x :: a), b. cbn. split; [done|lia].
  - destruct (Z.eqb_spec x c) as [->|]; [|done]. intros [= <-]. exists [], s. cbn. split; [done|lia].
Qed.

Lemma bracketed_name_spec {E} prefix :
  exists o, @bracketed_name E prefix = Ok o /\
    forall name s, o = Some (name, s) -> boundary prefix s /\ s < slen prefix.
Proof.
  unfold bracketed_name, found. set (trimmed := trim_end prefix).
  destruct (trim_end_split is_whitespace prefix) as (d & Hd & _).
  change (trim_end_by is_whitespace prefix) with trimmed in Hd.
  assert (Hbody : exists body suffix post, prefix = body ++ post /\
    match bracket_suffix trimmed with Some p => p | None => (trimmed, None) end = (body, suffix)).
  { destruct (bracket_suffix trimmed) as [[b o]|] eqn:Eb; [|by exists trimmed, None, d].
    exists b, o. apply find_map_Some in Eb as (s & _ & Hs).
    destruct (strip_suffix s trimmed) as [r|] eqn:Er; [|done]. apply strip_suffix_Some in Er.
    cbv zeta in Hs.
    destruct (ends_with (u "」") (trim_end r) || ends_with (u "』") (trim_end r)); [|done].
    injection Hs as <- <-.
    destruct (trim_end_split is_whitespace r) as (q & Hq & _). exists (q ++ s ++ d).
    split; [|done].
    transitivity (trimmed ++ d); [exact Hd|]. rewrite Er. rewrite Hq at 1. by rewrite <- !app_assoc. }
  destruct Hbody as (body & suffix & post & Hp & ->).
  destruct (last body) as [close|] eqn:El; [|by exists None].
  assert (Hopen : forall open, open <> close ->
    exists o, (let?? start := Ok (rfind open body) in
      let? inner := slice body (start + len_utf8 open) (slen body - len_utf8 close) in
      if str_eqb inner [] || (MAX_LAW_NAME_BYTES <? slen inner) || contains_char LF inner then Ok None else
      Ok (Some (match suffix with
                | Some s => normalize_law_name inner ++ u " " ++ s
                | None => normalize_law_name inner
                end, start))) = @Ok (stop E) _ o /\
    forall name s, o = Some (name, s) -> boundary prefix s /\ s < slen prefix).
  { intros open Hne. destruct (rfind open body) as [start|] eqn:Ef; [|by exists None].
    apply rfind_from_Some in Ef as (a & b & Eb & ->). rewrite Z.add_0_l.
    destruct b as [|x b _] using rev_ind.
    { rewrite Eb, last_snoc in El. congruence. }
    assert (x = close) as ->.
    { rewrite Eb, app_comm_cons, app_assoc, last_snoc in El. congruence. }
    assert (Hs : slice body (slen a + len_utf8 open) (slen body - len_utf8 close) = @Ok (stop E) _ b).
    { apply (at_suffix_between body _ _ b [close]).
      - exists (a ++ [open]). rewrite Eb, <- app_assoc, slen_app. cbn. split; [done|lia].
      - exists (a ++ open :: b). rewrite Eb, <- app_assoc, !slen_app. cbn [slen app].
        rewrite slen_app. cbn [slen]. split; [done|lia]. }
    rewrite Hs. destruct (_ || _); [by exists None|]. eexists. split; [done|].
    intros name s [= _ <-]. rewrite Hp, Eb, <- app_assoc. split; [apply boundary_at_app|].
    rewrite slen_app. cbn [app slen]. pose proof (len_utf8_bounds open).
    pose proof (slen_nonneg ((b ++ [close]) ++ post)). lia. }
  destruct (Z.eqb_spec close (ch "」")) as [->|]; [|destruct (Z.eqb_spec close (ch "』")) as [->|]; [|by exists None]].
  - by apply (Hopen (ch "「")).
  - by apply (Hopen (ch "『")).
Qed.

(** * Laws *)

(** What a law reference says about the text in front of [start]: names begin at
    positions there; a continuation is joined by a short connector to a citation. *)
Definition law_ok (text : str) (start : Z) (previous : option Z) (law : LawReference) : Prop :=
  match law with
  | Named candidates _ => Forall (fun c => boundary text c.2 /\ c.2 < start) candidates
  | Same _ s => boundary text s /\ s < start
  | Continued => exists e gap, previous = Some e /\ slice text e start = @Ok (stop unit) _ gap /\
      connector_only gap = true /\ slen gap <= 24
  end.

Definition previous_ok (text : str) (previous : option Z) : Prop :=
  forall e, previous = Some e -> boundary text e.

Lemma law_ok_weaken text start previous law : law_ok text start None law -> law_ok text start previous law.
Proof. destruct law; [done..|]. by intros (? & ? & ? & _). Qed.

Lemma continued_spec {E} text start rest previous :
  at_suffix text start rest -> previous_ok text previous ->
  exists o, @continued E text start previous = Ok o /\ forall law, o = Some law -> law_ok text start previous law.
Proof.
  intros H Hp. unfold continued. destruct previous as [e|]; [|by exists None].
  destruct (Z.leb_spec e start) as [Hle|]; [|by exists None].
  destruct (Hp e eq_refl) as [re He]. destruct (at_suffix_order _ _ _ _ _ He H Hle) as [gap ->].
  rewrite (at_suffix_between _ _ _ _ _ He H). eexists. split; [done|].
  intros law. destruct (connector_only gap) eqn:Ec; [|done]. intros [= <-]. exists e, gap.
  split_and!; [done|by apply (at_suffix_between _ _ _ _ _ He H)|done|].
  unfold connector_only in Ec. apply andb_prop in Ec as [Ec _]. by apply Z.leb_le.
Qed.

Lemma law_reference_spec {E} text start rest previous :
  at_suffix text start rest -> previous_ok text previous ->
  exists o, @law_reference E text start previous = Ok o /\
    forall law, o = Some law -> law_ok text start previous law.
Proof.
  intros H Hp. unfold law_reference.
  pose proof H as (prefix & Ht & Hs).
  assert (Hpre : slice_to text start = @Ok (stop E) _ prefix) by (rewrite Ht, Hs; apply slice_to_app).
  rewrite Hpre.
  assert (Hin : forall s, boundary prefix s /\ s < slen prefix -> boundary text s /\ s < start).
  { intros s [Hb Hl]. rewrite Ht, Hs. split; [by apply boundary_prefix|done]. }
  destruct (bracketed_name_spec (E := E) prefix) as (b & -> & Hb).
  destruct b as [[name s]|].
  { eexists. split; [done|]. intros law [= <-]. apply Forall_singleton. apply Hin. by eapply Hb. }
  destruct (same_law_reference_spec (E := E) prefix) as (o & -> & Ho).
  destruct o as [[suffix s]|].
  { eexists. split; [done|]. intros law [= <-]. apply Hin. by eapply Ho. }
  destruct (word_tail_spec (E := E) prefix MAX_NAME_WORDS) as (words & -> & Hw).
  destruct (last words) as [[s last_]|]; [|by eapply continued_spec].
  destruct (ends_like_law_name last_); [|by eapply continued_spec].
  eexists. split; [done|]. intros law [= <-]. apply Forall_forall.
  intros c (x & Hx & Hc)%list_elem_of_omap. unfold candidate in Hc.
  destruct (slen _ <=? MAX_LAW_NAME_BYTES); [|done]. injection Hc as <-. cbn [snd].
  apply Hin. by apply (suffix_start_ok prefix words).
Qed.

(** * Statutes *)

Lemma unit_ref_Some unit s n r :
  unit_ref unit s = Some (n, r) -> 1 <= n <= 99999 /\ exists q, s = q ++ r.
Proof.
  unfold unit_ref. destruct s as [|c s]; [done|]. destruct (negb _); [done|].
  destruct (digits_ref 5 (skip_space s)) as [[m s1]|] eqn:D; [|done].
  destruct (skip_space s1) as [|x s2] eqn:K; [done|].
  destruct (m =? 0) eqn:Em; [done|]. cbn [orb]. destruct (negb _); [done|]. intros [= <- <-].
  apply digits_ref_Some in D as (d & Hd & _ & Hb & _). split; [lia|].
  destruct (skip_space_split s) as [p1 ->]. rewrite Hd. destruct (skip_space_split s1) as [p2 H2].
  rewrite K in H2. rewrite H2. exists (c :: p1 ++ d ++ p2 ++ [x]). cbn. by rewrite <- !app_assoc.
Qed.

Lemma optional_unit_spec {E} text end_ unit rest :
  at_suffix text end_ rest ->
  exists n end' rest', @optional_unit E text end_ unit = Ok (n, end') /\ at_suffix text end' rest' /\
    in_opt 1 99999 n /\ exists q, rest = q ++ rest'.
Proof.
  intros H. unfold optional_unit.
  pose proof (unit_number_reads (E := E) unit _ _ _ (skip_spaces_suffix _ _ _ H)) as R.
  destruct (unit_ref unit (skip_space rest)) as [[n r]|] eqn:Er; cbn [reads] in R.
  - destruct R as (e & -> & He). apply unit_ref_Some in Er as (Hn & q & Hq).
    destruct (skip_space_split rest) as [p Hp]. rewrite Hq in Hp.
    exists (Some n), e, r. split_and!; [done..|]. exists (p ++ q). by rewrite <- app_assoc.
  - rewrite R. exists None, end_, rest. split_and!; [done..|]. by exists [].
Qed.

(** A cited statute: its locator stands at its start, and its span ends behind it. *)
Definition statute_ok (text : str) (previous : option Z) (s : ExtractedStatute) : Prop :=
  exists span post rest,
    at_suffix text (es_article_start s) (span ++ post) /\ at_suffix text (es_byte_end s) post /\ span <> [] /\
    article_ref (span ++ post) = Some (es_article s, rest) /\ valid_article (es_article s) /\
    in_opt 1 99999 (es_paragraph s) /\ in_opt 1 99999 (es_subparagraph s) /\
    match es_cited_title s with Some t => t <> [] /\ untrimmed is_whitespace t | None => True end /\
    law_ok text (es_article_start s) previous (es_law s).

Lemma usable_title_Some inner t : usable_title inner = Some t -> t <> [] /\ untrimmed is_whitespace t.
Proof.
  unfold usable_title. destruct (str_eqb (trim inner) []) eqn:Et; [done|]. cbn [orb].
  destruct (_ || _); [done|]. intros [= <-]. split; [|apply trim_by_untrimmed].
  intros E. by rewrite E in Et.
Qed.

(** The optional title behind a locator *)
Lemma title_spec {E} text end_ rest :
  at_suffix text end_ rest ->
  exists p, @parenthetical E text end_ = Ok p /\
    let '(title, end') :=
      match p with
      | Some (inner, after) =>
        match usable_title inner with Some t => (Some t, after) | None => (None, end_) end
      | None => (None, end_)
      end in
    match title with Some t => t <> [] /\ untrimmed is_whitespace t | None => True end /\
    exists q rest', rest = q ++ rest' /\ at_suffix text end' rest'.
Proof.
  intros H. destruct (parenthetical_reads (E := E) text end_ rest H)
    as [-> | (inner & e & after & -> & He & open & close & Hr)].
  - exists None. split; [done|]. cbv beta iota. split; [done|]. by exists [], rest.
  - eexists. split; [done|]. cbv beta iota. destruct (usable_title inner) as [t|] eqn:Et.
    + split; [by eapply usable_title_Some|]. exists (open :: inner ++ [close]), after.
      split; [|done]. rewrite Hr. cbn. by rewrite <- app_assoc.
    + split; [done|]. by exists [], rest.
Qed.

Lemma statute_at_spec {E} text at_ rest previous :
  at_suffix text at_ rest -> previous_ok text previous ->
  exists o, @statute_at E text at_ previous = Ok o /\
    match o with
    | None => True
    | Some (Ok s) => es_article_start s = at_ /\ statute_ok text previous s
    | Some (Err e) => exists q rest', rest = q ++ rest' /\ q <> [] /\ at_suffix text e rest'
    end.
Proof.
  intros H Hp. unfold statute_at.
  pose proof (article_at_reads (E := E) text at_ rest H) as R.
  destruct (article_ref rest) as [[a r]|] eqn:Ea; cbn [reads] in R; [|rewrite R; by exists None].
  destruct R as (e0 & -> & H0). destruct (article_ref_Some _ _ _ Ea) as (q0 & -> & Hq0 & Hv & _).
  destruct (title_spec (E := E) text e0 r H0) as (p & -> & Ht). cbv zeta in Ht.
  destruct (match p with
    | Some (inner, after) =>
      match usable_title inner with Some t => (Some t, after) | None => (None, e0) end
    | None => (None, e0)
    end) as [title e1]. destruct Ht as (Ht & q1 & r1 & -> & H1).
  destruct (optional_unit_spec (E := E) text e1 (ch "항") r1 H1) as (n2 & e2 & r2 & -> & H2 & Hn2 & q2 & ->).
  destruct (optional_unit_spec (E := E) text e2 (ch "호") r2 H2) as (n3 & e3 & r3 & -> & H3 & Hn3 & q3 & ->).
  destruct (law_reference_spec (E := E) text at_ _ previous H Hp) as (o & -> & Ho).
  assert (Heq : q0 ++ q1 ++ q2 ++ q3 ++ r3 = (q0 ++ q1 ++ q2 ++ q3) ++ r3) by (by rewrite <- !app_assoc).
  assert (Hne : q0 ++ q1 ++ q2 ++ q3 <> []) by (by destruct q0).
  destruct o as [law|]; eexists; (split; [done|]).
  - split; [done|]. exists (q0 ++ q1 ++ q2 ++ q3), r3, (q1 ++ q2 ++ q3 ++ r3). cbn. rewrite <- Heq.
    split_and!; [done..|]. by apply Ho.
  - exists (q0 ++ q1 ++ q2 ++ q3), r3. by split_and!.
Qed.

(** * Cases *)

Lemma kind_end_spec n : forall off s, exists k r, s = k ++ r /\ kind_end n off s = off + slen k.
Proof.
  induction n as [|n IH]; intros off s; cbn [kind_end].
  { exists [], s. cbn. split; [done|lia]. }
  destruct s as [|c s]; [exists [], []; cbn; split; [done|lia]|].
  destruct (is_hangul c); [|exists [], (c :: s); cbn; split; [done|lia]].
  destruct (IH (off + len_utf8 c) s) as (k & r & -> & ->). exists (c :: k), r. cbn. split; [done|lia].
Qed.

Section cases.
Context `{CharTables}.

(** A case number at its offsets *)
Definition case_ok (text : str) (c : ExtractedCase) : Prop :=
  exists post, at_suffix text (ec_byte_start c) (ec_case_number c ++ post) /\
    at_suffix text (ec_byte_end c) post /\ ec_case_number c <> [].

Lemma case_at_spec {E} text at_ rest :
  at_suffix text at_ rest ->
  exists o, @case_at E _ text at_ = Ok o /\
    forall c, o = Some c -> ec_byte_start c = at_ /\ case_ok text c.
Proof.
  intros H1. unfold case_at. pose proof H1 as (pre & Ht & Hs).
  assert (Hpre : slice_to text at_ = @Ok (stop E) _ pre) by (rewrite Ht, Hs; apply slice_to_app).
  rewrite Hpre. destruct (alphanumeric_at _); [by exists None|].
  pose proof (digits_reads (E := E) _ _ _ 4 ltac:(lia) H1) as D.
  destruct (digits_ref 4 rest) as [[y r1]|] eqn:D1; cbn [reads] in D; [|rewrite D; by exists None].
  destruct D as (e1 & -> & H2). apply digits_ref_Some in D1 as (year & -> & Hyear & _ & _).
  rewrite (at_suffix_between _ _ _ _ _ H1 H2). destruct (negb _); [by exists None|].
  rewrite (at_suffix_slice_from _ _ _ H2). destruct (kind_end_spec 3 e1 r1) as (kind & r2 & -> & Hk).
  rewrite Hk. pose proof (at_suffix_app _ _ _ _ H2) as H3.
  rewrite (at_suffix_between _ _ _ _ _ H2 H3). destruct (negb _); [by exists None|].
  pose proof (digits_reads (E := E) _ _ _ 7 ltac:(lia) H3) as D.
  destruct (digits_ref 7 r2) as [[n r3]|] eqn:D2; cbn [reads] in D; [|rewrite D; by exists None].
  destruct D as (e2 & -> & H4). apply digits_ref_Some in D2 as (number & -> & _ & _ & _).
  rewrite (at_suffix_slice_from _ _ _ H4). destruct (match head r3 with Some _ => _ | None => _ end); [by exists None|].
  assert (Heq : year ++ kind ++ number ++ r3 = (year ++ kind ++ number) ++ r3) by (by rewrite <- !app_assoc).
  rewrite Heq in H1. rewrite (at_suffix_between _ _ _ _ _ H1 H4). eexists. split; [done|].
  intros c [= <-]. split; [done|]. exists r3. cbn. split_and!; [done..|]. by destruct year.
Qed.

(** * The scan *)

Definition statute_span (s : ExtractedStatute) : Z * Z := (es_article_start s, es_byte_end s).
Definition case_span (c : ExtractedCase) : Z * Z := (ec_byte_start c, ec_byte_end c).

(** Each statute is read with the one before it in view. *)
Definition statutes_ok (text : str) (l : list ExtractedStatute) : Prop :=
  forall l1 s l2, l = l1 ++ s :: l2 -> statute_ok text (es_byte_end <$> last l1) s.

Lemma statutes_ok_snoc text l s :
  statutes_ok text l -> statute_ok text (es_byte_end <$> last l) s -> statutes_ok text (l ++ [s]).
Proof.
  intros Hl Hs l1 s' l2 E. destruct l2 as [|x l2 _] using rev_ind.
  - apply app_inj_tail in E as [-> ->]. done.
  - rewrite app_comm_cons, app_assoc in E. apply app_inj_tail in E as [-> _]. by eapply Hl.
Qed.

Definition cases_ok (text : str) (seen : gset str) (l : list ExtractedCase) : Prop :=
  Forall (case_ok text) l /\ NoDup (ec_case_number <$> l) /\
  (forall n, n ∈ ec_case_number <$> l -> n ∈ seen) /\ zlen l = Z.min MAX_CASE_CITATIONS (Z.of_nat (size seen)).

(** The state of the scan in front of [rest] *)
Definition scan_ok (text : str) (st : Scan) (rest : str) : Prop :=
  let out := sc_out st in
  at_suffix text (sc_i st) rest /\
  (sc_previous st = None \/ sc_previous st = es_byte_end <$> last (ex_statutes out)) /\
  statutes_ok text (ex_statutes out) /\ cases_ok text (sc_seen st) (ex_cases out) /\
  spans_from 0 (statute_span <$> ex_statutes out) /\ last_end 0 (statute_span <$> ex_statutes out) <= sc_i st /\
  spans_from 0 (case_span <$> ex_cases out) /\ last_end 0 (case_span <$> ex_cases out) <= sc_i st /\
  zlen (ex_statutes out) <= MAX_STATUTE_CITATIONS /\
  (ex_truncated out = true ->
   zlen (ex_statutes out) = MAX_STATUTE_CITATIONS \/ MAX_CASE_CITATIONS < Z.of_nat (size (sc_seen st))).

Lemma statute_ok_weaken text previous s : statute_ok text None s -> statute_ok text previous s.
Proof.
  intros (span & post & rest & H1 & H2 & H3 & H4 & H5 & H6 & H7 & H8 & H9).
  exists span, post, rest. split_and!; [done..|]. by apply law_ok_weaken.
Qed.

Lemma last_end_snoc {A} (f : A -> Z * Z) lo l x : last_end lo (f <$> (l ++ [x])) = (f x).2.
Proof. unfold last_end. rewrite fmap_app. change (f <$> [x]) with [f x]. rewrite last_snoc. by destruct (f x). Qed.

(** The scan moves on without a citation. *)
Lemma scan_ok_advance text st c rest previous truncated :
  scan_ok text st (c :: rest) ->
  (previous = None \/ previous = sc_previous st) ->
  (truncated = ex_truncated (sc_out st) \/ zlen (ex_statutes (sc_out st)) = MAX_STATUTE_CITATIONS) ->
  scan_ok text
    {| sc_i := sc_i st + len_utf8 c; sc_previous := previous; sc_seen := sc_seen st;
       sc_out := {| ex_statutes := ex_statutes (sc_out st); ex_cases := ex_cases (sc_out st);
                    ex_truncated := truncated |} |} rest.
Proof.
  intros (Hat & Hp & Hs & Hc & Hss & Hse & Hcs & Hce & Hmax & Ht) Hprev Htr.
  pose proof (len_utf8_bounds c). unfold scan_ok. cbn. split_and!; try done; [by apply at_suffix_cons| |lia..|].
  - destruct Hprev as [->| ->]; [by left|done].
  - intros E. destruct Htr as [->|]; [by apply Ht|by left].
Qed.

Lemma extraction_eta (e : Extraction) :
  {| ex_statutes := ex_statutes e; ex_cases := ex_cases e; ex_truncated := ex_truncated e |} = e.
Proof. by destruct e. Qed.

Lemma scan_previous_ok text st rest : scan_ok text st rest -> previous_ok text (sc_previous st).
Proof.
  intros (_ & Hp & Hs & _) e He. destruct Hp as [Hp|Hp]; [congruence|].
  rewrite Hp in He. destruct (last (ex_statutes (sc_out st))) as [s|] eqn:El; [|done].
  injection He as <-. apply last_Some in El as [l1 El].
  destruct (Hs l1 s [] El) as (? & post & _ & _ & H2 & _). by exists post.
Qed.

Lemma suffix_shorter (q rest : str) : q <> [] -> (length rest < length (q ++ rest))%nat.
Proof. intros Hq. rewrite length_app. destruct q; [done|cbn; lia]. Qed.

Lemma at_suffix_unique text i r r' : at_suffix text i r -> at_suffix text i r' -> r = r'.
Proof. intros E%at_suffix_from E'%at_suffix_from. congruence. Qed.

(** A cited statute is behind what was found, and ends behind its start. *)
Lemma scan_ok_statute text st rest s :
  scan_ok text st rest -> es_article_start s = sc_i st -> statute_ok text (sc_previous st) s ->
  zlen (ex_statutes (sc_out st)) <> MAX_STATUTE_CITATIONS ->
  exists rest', scan_ok text
    {| sc_i := es_byte_end s; sc_previous := Some (es_byte_end s); sc_seen := sc_seen st;
       sc_out := push_statute (sc_out st) s |} rest' /\ (length rest' < length rest)%nat.
Proof.
  intros (Hat & Hp & Hs & Hc & Hss & Hse & Hcs & Hce & Hmax & Ht) Hstart Hok Hne.
  pose proof Hok as (span & post & r & H1 & H2 & Hspan & _). rewrite Hstart in H1.
  rewrite (at_suffix_unique _ _ _ _ Hat H1). exists post. split; [|by apply suffix_shorter].
  assert (Hlt : sc_i st < es_byte_end s).
  { apply at_suffix_length in H1, H2. rewrite slen_app in H1. destruct span as [|c span]; [done|].
    pose proof (slen_cons_pos c span). lia. }
  unfold scan_ok. cbn. split_and!; try done.
  - right. by rewrite last_snoc.
  - apply statutes_ok_snoc; [done|]. destruct Hp as [Hp|Hp]; rewrite Hp in Hok; [by apply statute_ok_weaken|done].
  - rewrite fmap_app. apply spans_from_snoc; [done|..]; cbn; lia.
  - rewrite last_end_snoc. cbn. lia.
  - lia.
  - rewrite zlen_app. change (zlen [s]) with 1. lia.
  - intros E. destruct (Ht E); [lia|by right].
Qed.

Lemma cases_ok_push text seen l c :
  cases_ok text seen l -> case_ok text c -> ec_case_number c ∉ seen ->
  let seen' := {[ ec_case_number c ]} ∪ seen in
  cases_ok text seen' (if MAX_CASE_CITATIONS <? Z.of_nat (size seen') then l else l ++ [c]).
Proof.
  intros (Hf & Hn & Hsub & Hlen) Hc Hnew seen'.
  assert (Hsize : Z.of_nat (size seen') = 1 + Z.of_nat (size seen)).
  { unfold seen'. rewrite size_union by set_solver. rewrite size_singleton. lia. }
  destruct (Z.ltb_spec MAX_CASE_CITATIONS (Z.of_nat (size seen'))).
  - split_and!; [done..| |lia]. intros n Hin. apply elem_of_union. right. by apply Hsub.
  - split_and!.
    + apply Forall_app. split; [done|]. by apply Forall_singleton.
    + rewrite fmap_app. apply NoDup_app. split_and!; [done| |apply NoDup_singleton].
      intros n Hin ->%list_elem_of_singleton. by apply Hnew, Hsub.
    + intros n. rewrite fmap_app, elem_of_app. intros [Hin| ->%list_elem_of_singleton].
      * apply elem_of_union. right. by apply Hsub.
      * apply elem_of_union. left. by apply elem_of_singleton.
    + rewrite zlen_app. change (zlen [c]) with 1. lia.
Qed.

Lemma scan_ok_case text st rest c :
  scan_ok text st rest -> ec_byte_start c = sc_i st -> case_ok text c ->
  exists rest', scan_ok text (found_case st c) rest' /\ (length rest' < length rest)%nat.
Proof.
  intros (Hat & Hp & Hs & Hc & Hss & Hse & Hcs & Hce & Hmax & Ht) Hstart Hok.
  pose proof Hok as (post & H1 & H2 & Hne). rewrite Hstart in H1.
  rewrite (at_suffix_unique _ _ _ _ Hat H1). exists post. split; [|by apply suffix_shorter].
  assert (Hlt : sc_i st < ec_byte_end c).
  { apply at_suffix_length in H1, H2. rewrite slen_app in H1. destruct (ec_case_number c) as [|d n]; [done|].
    pose proof (slen_cons_pos d n). lia. }
  unfold found_case. case_bool_decide as Hseen.
  { unfold scan_ok. cbn. split_and!; try done; lia. }
  pose proof (cases_ok_push text _ _ c Hc Hok Hseen) as Hc'. cbv zeta in *.
  set (seen' := {[ ec_case_number c ]} ∪ sc_seen st) in *.
  assert (Hgrow : Z.of_nat (size (sc_seen st)) <= Z.of_nat (size seen'))
    by (apply Nat2Z.inj_le, subseteq_size; unfold seen'; set_solver).
  destruct (Z.ltb_spec MAX_CASE_CITATIONS (Z.of_nat (size seen'))) as [Hfull|Hroom].
  - unfold scan_ok. cbn. split_and!; try done; [lia..|]. intros _. by right.
  - unfold scan_ok. cbn. split_and!; try done; [lia| | |].
    + rewrite fmap_app. apply spans_from_snoc; [done|..]; cbn; lia.
    + rewrite last_end_snoc. cbn. lia.
    + intros E. destruct (Ht E); [by left|right; lia].
Qed.

Lemma scan_step_spec {E} text st c rest :
  scan_ok text st (c :: rest) ->
  exists st' rest', @scan_step E _ text st c = Ok st' /\ scan_ok text st' rest' /\
    (length rest' < length (c :: rest))%nat.
Proof.
  intros Hok. pose proof Hok as (Hat & _). unfold scan_step.
  pose proof (scan_ok_advance text st c rest (sc_previous st) (ex_truncated (sc_out st)) Hok
    (or_intror eq_refl) (or_introl eq_refl)) as Hadv. rewrite extraction_eta in Hadv.
  assert (Hlen : (length rest < length (c :: rest))%nat) by (cbn; lia).
  destruct (contains_char c (u "제第")).
  - destruct (statute_at_spec (E := E) text (sc_i st) (c :: rest) (sc_previous st) Hat (scan_previous_ok _ _ _ Hok))
      as (o & -> & Ho). destruct o as [[s|e]|]; [| |by eexists _, rest].
    + destruct Ho as [Hstart Hs]. destruct (Z.eqb_spec (zlen (ex_statutes (sc_out st))) MAX_STATUTE_CITATIONS).
      * eexists _, rest. split; [done|]. split; [|done].
        apply (scan_ok_advance text st c rest (sc_previous st) true Hok); auto.
      * destruct (scan_ok_statute _ _ _ _ Hok Hstart Hs n) as (rest' & ? & ?). eauto.
    + destruct Ho as (q & rest' & Hq & Hne & He). rewrite Hq. eexists _, rest'. split; [done|].
      split; [|by apply suffix_shorter].
      destruct Hok as (_ & Hp & Hs & Hc & Hss & Hse & Hcs & Hce & Hmax & Ht).
      assert (sc_i st <= e).
      { apply at_suffix_length in Hat, He. rewrite Hq, slen_app in Hat. pose proof (slen_nonneg q). lia. }
      unfold scan_ok. cbn. split_and!; try done; [by left|lia..].
  - assert (Hcase : exists o, (if is_ascii_digit c then @case_at E _ text (sc_i st) else Ok None) = Ok o /\
      forall x, o = Some x -> ec_byte_start x = sc_i st /\ case_ok text x).
    { destruct (is_ascii_digit c); [by eapply case_at_spec|by exists None]. }
    destruct Hcase as (o & -> & Ho). destruct o as [x|].
    { destruct (Ho x eq_refl) as [Hstart Hx]. destruct (scan_ok_case _ _ _ _ Hok Hstart Hx) as (rest' & ? & ?).
      eauto. }
    destruct (Z.eqb_spec c LF) as [->|]; [|by eexists _, rest].
    pose proof (at_suffix_cons _ _ _ _ Hat) as Hn. change (len_utf8 LF) with 1 in *.
    rewrite (at_suffix_slice_from _ _ _ Hn). eexists _, rest. split; [done|]. split; [|done].
    destruct (starts_with [LF] rest); [|done].
    pose proof (scan_ok_advance text st LF rest None (ex_truncated (sc_out st)) Hok
      (or_introl eq_refl) (or_introl eq_refl)) as K. by rewrite extraction_eta in K.
Qed.

Lemma scan_loop_spec {E} fuel text : forall st rest,
  scan_ok text st rest -> (length rest <= fuel)%nat ->
  exists st', @scan_loop E _ fuel text st = Ok (sc_out st') /\ scan_ok text st' [].
Proof.
  induction fuel as [|fuel IH]; intros st rest Hok Hf; cbn [scan_loop]; pose proof Hok as (Hat & _).
  - destruct rest; [|cbn in Hf; lia]. exists st. split; [|done].
    apply at_suffix_length in Hat. cbn in Hat. by rewrite (proj2 (Z.leb_le _ _)) by lia.
  - destruct rest as [|c rest].
    { exists st. split; [|done]. apply at_suffix_length in Hat. cbn in Hat.
      by rewrite (proj2 (Z.leb_le _ _)) by lia. }
    pose proof (at_suffix_length _ _ _ Hat) as Hl. pose proof (slen_cons_pos c rest).
    rewrite (proj2 (Z.leb_gt _ _)) by lia. rewrite (at_suffix_slice_from _ _ _ Hat). cbn [head].
    destruct (scan_step_spec (E := E) text st c rest Hok) as (st' & rest' & -> & Hok' & Hlt).
    apply (IH st' rest' Hok'). cbn in *. lia.
Qed.

(** The run of the scan over the whole text *)
Lemma extract_scan {E} text :
  exists st, @extract_citations E _ text = Ok (sc_out st) /\ scan_ok text st [].
Proof.
  apply (scan_loop_spec (E := E) (length text) text
    {| sc_i := 0; sc_previous := None; sc_seen := ∅;
       sc_out := {| ex_statutes := []; ex_cases := []; ex_truncated := false |} |} text); [|done].
  unfold scan_ok. cbn. split_and!; try done; [by left| |..].
  - intros l1 s l2 E'. by destruct l1.
  - split_and!; [constructor|constructor|by intros n ?%elem_of_nil|done].
Qed.

(** C32. Extraction of citations always answers, for every text: it never slices off a
    character boundary and its loop ends. At most 50 statutes and 30 cases are listed,
    each list in order and without overlap, and a result is marked truncated only
    when one of the two limits was reached. The span of a statute begins with a
    locator that reads as the article listed, the names of its law begin in front of
    it, and a continued reference is joined by at most 24 bytes of connectors to the
    statute listed before it. The number of a case is the text of its span, and no
    number is listed twice. *)
Theorem extract_citations_sound text :
  exists out, extract_citations (E := unit) text = Ok out /\
    statutes_ok text (ex_statutes out) /\
    Forall (case_ok text) (ex_cases out) /\ NoDup (ec_case_number <$> ex_cases out) /\
    spans_from 0 (statute_span <$> ex_statutes out) /\ spans_from 0 (case_span <$> ex_cases out) /\
    zlen (ex_statutes out) <= 50 /\ zlen (ex_cases out) <= 30 /\
    (ex_truncated out = true -> zlen (ex_statutes out) = 50 \/ zlen (ex_cases out) = 30).
Proof.
  destruct (extract_scan (E := unit) text) as (st & Hrun & _ & _ & Hs & (Hc & Hn & _ & Hlen) & Hss & _ & Hcs & _ & Hmax & Ht).
  exists (sc_out st). unfold MAX_STATUTE_CITATIONS, MAX_CASE_CITATIONS in *.
  split_and!; try done; [lia|]. intros E. destruct (Ht E); [by left|right; lia].
Qed.

(** A whole input is accepted as a case number only as it stands, without its
    surrounding whitespace. *)
Lemma parse_case_number_spec {E} value :
  exists o, @parse_case_number E _ value = Ok o /\ forall n, o = Some n -> n = trim value /\ n <> [].
Proof.
  unfold parse_case_number. set (v := trim value).
  destruct (case_at_spec (E := E) v 0 v (at_suffix_start v)) as (o & -> & Ho).
  destruct o as [c|]; [|by exists None]. destruct (Ho c eq_refl) as (Hstart & post & H1 & H2 & Hne).
  eexists. split; [done|]. intros n. destruct (Z.eqb_spec (ec_byte_end c) (slen v)) as [Hend|]; [|done].
  intros [= <-]. split; [|done]. rewrite Hstart in H1.
  pose proof (at_suffix_unique _ _ _ _ H1 (at_suffix_start v)) as <-.
  apply at_suffix_length in H2. assert (slen post = 0) as ->%slen_zero by lia. by rewrite app_nil_r.
Qed.
End cases.
