(* ===== verification/KrExamples.v ===== *)
(** The unit tests of [crates/normalization/src/kr_legal_reference.rs], evaluated on the
    definitions. *)

From S2P Require Import Prelude Utf8 Strings Domain Legal TextDiff Slices KrNames KrArticles KrCitations.

(** The classes of the characters that the examples use *)
#[local] Instance example_tables : CharTables :=
  {| is_alphanumeric c := is_ascii_alphanumeric c || is_hangul c |}.

Abbreviation run A := (result (stop unit) A).

Definition art (number : Z) (branch : option Z) : ArticleNumber :=
  {| an_number := number; an_part := None; an_branch := branch |}.
Definition part (number p : Z) : ArticleNumber :=
  {| an_number := number; an_part := Some p; an_branch := None |}.
Definition section (id title : string) (text : str) : LegalSection :=
  {| sec_id := u id; sec_title := u title; sec_text := text; sec_kind := ProviderText;
     sec_source_document_sha256 := None; sec_page := None |}.
Definition lines_of (ls : list string) : str := intercalate LF (u <$> ls).

(** [article_numbers_accept_common_forms] *)
Example common_forms :
  (fun s => parse_article_number (u s) : run _) <$> ["제44조의2"; "44의2"; "제9-5조"; " 제 44 조 "; "第 1 條"]%string
  = (Ok ∘ Some) <$> [art 44 (Some 2); art 44 (Some 2); part 9 5; art 44 None; art 1 None].
Proof. vm_compute. reflexivity. Qed.

Example refused_forms :
  (fun s => parse_article_number (u s) : run _)
    <$> [""; "제0조"; "제조"; "44의"; "44의0"; "제44항"; "123456"; "第一條"; "第1-0條"; "第1條條"]%string
  = replicate 10 (Ok None).
Proof. vm_compute. reflexivity. Qed.

(** [outlines_headings_and_split_rule_blocks] *)
Definition rule_capture : list LegalSection :=
  [section "source_ordinal:1" "조문내용"
     (lines_of ["제1장 총칙"; "제1-1조(목적) 이 규정은"; "시험한다."; "제1-2조 삭제"; "제2장 거래";
                "제9-5조(해외직접투자) ① 신고한다."; "② 제9-4조에 따른"; "제9-5조의2(특례) 따른다."]%string);
   section "source_ordinal:2" "부칙내용" (u "제1조(시행일) 부칙")].

Definition label_text (x : OutlineUnit) : str :=
  match x with Heading level n _ => [level] ++ show_Z n | Article a => show_article (la_number a) end.

Example rule_outline :
  (let? units := outline rule_capture in Ok (label_text <$> units) : run _)
  = Ok (u <$> ["장1"; "제1-1조"; "제1-2조"; "장2"; "제9-5조"; "제9-5조의2"]%string).
Proof. vm_compute. reflexivity. Qed.

Example rule_article :
  match (locate_article rule_capture (part 9 5) : run _) with
  | Ok (Found a) =>
    str_eqb (la_title a) (u "해외직접투자") && bool_decide (la_paragraphs a = [1; 2])
      && ends_with (u "제9-4조에 따른") (la_text a)
  | _ => false
  end = true.
Proof. vm_compute. reflexivity. Qed.

Example hyphen_fallback :
  match (locate_article [section "article:0044002" "" (u "제44조의2(특례) 본문")] (part 44 2) : run _) with
  | Ok (Found a) => Some (la_number a)
  | _ => None
  end = Some (art 44 (Some 2)).
Proof. vm_compute. reflexivity. Qed.

(** [extracts_bracketed_plain_inherited_and_continued_citations] *)
Definition law_names (law : LawReference) : list str :=
  match law with Named candidates _ => candidates.*1 | Same suffix _ => option_list suffix | Continued => [] end.

Example inherited_and_continued :
  match
    (extract_citations (u "「노인장기요양보험법」 제38조제1항 및 같은 법 시행규칙 제30조에 따르고, 절도죄는 형법 제329조(절도) 및 제330조, 민법 제750조(계약해제)를 본다.") : run _)
  with
  | Ok out =>
    bool_decide ((law_names ∘ es_law <$> ex_statutes out)
      = [[u "노인장기요양보험법"]; [u "시행규칙"]; [u "절도죄는 형법"; u "형법"]; []; [u "민법"]])
    && bool_decide ((es_cited_title <$> ex_statutes out)
      = [None; None; Some (u "절도"); None; Some (u "계약해제")])
    && negb (ex_truncated out)
  | _ => false
  end = true.
Proof. vm_compute. reflexivity. Qed.

(** [extracts_distinct_case_numbers_without_dates] *)
Example distinct_cases :
  match
    (extract_citations (u "대법원 2007. 5. 31. 선고 2007다27670 판결, 2018도14262, 2016헌마123, 91누1234 및 2007다27670. 2020년3월 12345다1 x2018도1 2018도14262a") : run _)
  with
  | Ok out =>
    bool_decide ((ec_case_number <$> ex_cases out)
      = [u "2007다27670"; u "2018도14262"; u "2016헌마123"; u "91누1234"])
  | _ => false
  end = true.
Proof. vm_compute. reflexivity. Qed.
