(* ===== verification/Profile.v ===== *)
(** The reference profile of a jurisdiction: the trait [ReferenceProfile] of
    [crates/normalization/src/legal_reference.rs] as an interface with its laws, and
    the profile of Korea that implements it; [Jurisdiction] of
    [crates/domain/src/jurisdiction.rs]. *)

From S2P Require Import Prelude Utf8 Strings Domain Legal TextDiff Slices KrNames KrArticles KrScan KrLocators KrOutline KrLookup KrCitations KrCitationsFacts.

(** * Jurisdictions *)

Inductive Jurisdiction := Kor.
Inductive JurisdictionError := Malformed | Unsupported.

#[export] Instance Jurisdiction_eq_dec : EqDecision Jurisdiction.
Proof. solve_decision. Defined.

Definition SUPPORTED : list Jurisdiction := [Kor].
Definition DEFAULT : Jurisdiction := Kor.
Definition alpha3 (j : Jurisdiction) : str := match j with Kor => u "KOR" end.
Definition corpus_code (j : Jurisdiction) : str := match j with Kor => u "kr" end.

Definition is_ascii_alphabetic (b : byte) : bool := is_ascii_lowercase b || is_ascii_uppercase b.
Definition eq_ignore_ascii_case (a b : str) : bool :=
  str_eqb (to_ascii_lowercase <$> a) (to_ascii_lowercase <$> b).

Definition parse_jurisdiction (code : str) : result JurisdictionError Jurisdiction :=
  let code := trim code in
  if negb (slen code =? 3) || negb (forallb is_ascii_alphabetic (bytes code)) then Err Malformed
  else ok_or (List.find (fun j => eq_ignore_ascii_case (alpha3 j) code) SUPPORTED) Unsupported.

Definition from_corpus_code (code : str) : option Jurisdiction :=
  List.find (fun j => str_eqb (corpus_code j) code) SUPPORTED.

(** * The interface *)

(** The operations of the trait; those that slice text may panic. *)
Class ReferenceProfile := {
  rp_jurisdiction : Jurisdiction;
  rp_resolve_law_name : str -> LawNameResolution;
  rp_name_key : str -> str;
  rp_title_pattern : str -> str;
  rp_base_law_name : str -> str;
  rp_parse_article_number {E} : str -> result (stop E) (option ArticleNumber);
  rp_format_article : ArticleNumber -> str;
  rp_locate_article {E} : list LegalSection -> ArticleNumber -> result (stop E) ArticleLookup;
  rp_has_subparagraph {E} : LocatedArticle -> option Z -> Z -> result (stop E) bool;
  rp_title_similarity : str -> str -> option Z;
  rp_extract_citations {E} : str -> result (stop E) Extraction;
  rp_statute_datasets : list Dataset;
  rp_case_datasets : list Dataset;
}.

(** Where a citation's law begins in the text, if the citation says so *)
Definition law_starts (law : LawReference) : list Z :=
  match law with
  | Named candidates _ => candidates.*2
  | Same _ start => [start]
  | Continued => []
  end.

(** A citation whose positions are boundaries of the text, in order *)
Definition statute_placed (text : str) (s : ExtractedStatute) : Prop :=
  boundary text (es_article_start s) /\ boundary text (es_byte_end s) /\
  es_article_start s < es_byte_end s /\
  Forall (fun i => boundary text i /\ i < es_article_start s) (law_starts (es_law s)).

(** What the tools rely on: a profile always answers, an article it locates is one it
    was asked for, and what it extracts is placed in the text. *)
Class ProfileLaws `{ReferenceProfile} := {
  law_parse_article {E} v : exists o, @rp_parse_article_number _ E v = Ok o;
  law_locate_article {E} sections wanted : exists l, @rp_locate_article _ E sections wanted = Ok l /\
    forall a, l = Found a -> exists section, section ∈ sections /\ la_section_id a = sec_id section;
  law_has_subparagraph {E} a p w : exists b, @rp_has_subparagraph _ E a p w = Ok b;
  law_extract {E} text : exists out, @rp_extract_citations _ E text = Ok out /\
    Forall (statute_placed text) (ex_statutes out) /\ Forall (case_ok text) (ex_cases out);
  law_similarity a b n : rp_title_similarity a b = Some n -> 0 <= n <= 100;
}.

(** * Korea *)

Section korea.
Context `{CharTables}.

Definition KOREA : ReferenceProfile := {|
  rp_jurisdiction := Kor;
  rp_resolve_law_name := resolve_law_name;
  rp_name_key := name_key;
  rp_title_pattern := title_pattern;
  rp_base_law_name := base_law_name;
  rp_parse_article_number E := @parse_article_number E;
  rp_format_article := show_article;
  rp_locate_article E := @locate_article E;
  rp_has_subparagraph E := @has_subparagraph E;
  rp_title_similarity := title_similarity;
  rp_extract_citations E := @extract_citations E _;
  rp_statute_datasets := [NationalStatute];
  rp_case_datasets := [Precedent; ConstitutionalDecision]
|}.
#[export] Existing Instance KOREA.

(** [profile(jurisdiction)] *)
Definition profile (j : Jurisdiction) : ReferenceProfile := match j with Kor => KOREA end.

Lemma statute_ok_placed text previous s : statute_ok text previous s -> statute_placed text s.
Proof.
  intros (span & post & rest & H1 & H2 & Hne & _ & _ & _ & _ & _ & Hlaw). split_and!.
  - by exists (span ++ post).
  - by exists post.
  - apply at_suffix_length in H1, H2. rewrite slen_app in H1. destruct span as [|c span]; [done|].
    pose proof (slen_cons_pos c span). lia.
  - destruct (es_law s) as [candidates g|suffix start|]; cbn in *; [|by apply Forall_singleton|constructor].
    by apply Forall_fmap.
Qed.

Lemma statutes_placed text l : statutes_ok text l -> Forall (statute_placed text) l.
Proof.
  intros Hall. apply Forall_forall. intros s (l1 & l2 & ->)%list_elem_of_split.
  eapply statute_ok_placed, Hall. reflexivity.
Qed.

Lemma locate_article_total {E} sections wanted :
  exists l, @locate_article E sections wanted = Ok l /\
    forall a, l = Found a -> exists section, section ∈ sections /\ la_section_id a = sec_id section.
Proof.
  destruct (outline_units (E := E) sections) as (units & Hrun & Hok).
  destruct (locate_loop_spec wanted units [] None None None eq_refl eq_refl eq_refl) as (first & last_ & _ & Hl).
  unfold locate_article. rewrite Hrun. eexists. split; [done|]. rewrite Hl. cbn [app]. intros a Ha.
  assert (Hin : a ∈ articles units).
  { destruct (List.find (is_wanted wanted) _) eqn:E1; [apply find_some in E1|
      destruct (List.find (is_alternate wanted) _) eqn:E2; [apply find_some in E2|done]];
    injection Ha as <-; apply list_elem_of_In; tauto. }
  apply list_elem_of_omap in Hin as (x & Hx & Hax). destruct x as [|b]; [done|]. injection Hax as ->.
  rewrite Forall_forall in Hok. destruct (Hok _ Hx) as (section & Hs & Hid & _). eauto.
Qed.

#[export] Instance KOREA_laws : ProfileLaws.
Proof.
  constructor.
  - intros E v. eexists. apply parse_article_number_reads.
  - intros E. apply locate_article_total.
  - intros E a p w. eexists. apply subparagraph_loop_spec.
  - intros E text. destruct (extract_scan (E := E) text) as (st & Hrun & _ & _ & Hs & (Hc & _) & _).
    exists (sc_out st). split_and!; [done|by apply statutes_placed|done].
  - intros a b n Hn. destruct (title_similarity_spec a b) as [_ K]. cbn in Hn. rewrite Hn in K. tauto.
Qed.

Lemma profile_jurisdiction j : rp_jurisdiction (ReferenceProfile := profile j) = j.
Proof. by destruct j. Qed.
End korea.
