(* ===== verification/CorpusTitles.v ===== *)
(** The tools of [apps/server/src/legal_reference.rs]: resolution of law names,
    checks of citations and selection of revisions by date.

    The corpus is the parameter of the section [tools]: what the search, the reads of a
    capture and the reads of its metadata answer, by the number of the call and its
    arguments.  A tool counts its calls, so that two calls with the same arguments may
    answer differently, as a database may. *)

From S2P Require Import Prelude Utf8 Strings Domain Slices KrNames KrArticles KrCitations Profile TextDiff Citation InForce Legal.

(** * Errors of a tool *)

Inductive CollectionReadFailure :=
| CrNotObserved | CrProcessingPending | CrCollectionIncomplete | CrFreshnessUnavailable.

Module Tool.
Inductive ToolError :=
| CollectionUnavailable (cause : CollectionReadFailure)
| ProcessingPending | NotObserved | CollectionIncomplete | SourceInventoryIncomplete
| UnsupportedHistory | HistoryIncomplete | SessionExpired | SnapshotInvalidated
| Withdrawn | StorageUnavailable | StorageCorrupt | StorageCapacity
| SnapshotUnavailable | InvalidInput | InvalidFieldShorthand
| InvalidUtf8Boundary (offset : Z)
| InvalidRegex | PatchConflict | AttachmentKindMismatch | NotFound | Unavailable
| RateLimited | Ambiguous | UnsupportedJurisdiction | InvalidTimezone
| FreshnessUnavailable | NormalizationFailed | ResourceLimit | Internal.
End Tool.
Abbreviation ToolError := Tool.ToolError.

(** [map_error] of [database.rs] *)
Definition map_error (e : DatabaseError) : ToolError :=
  match e with
  | SourceUnavailable | SourceDataInvalid | SourceUnauthorized => Tool.Unavailable
  | SourceTransient | SourceDownloadFailed => Tool.StorageUnavailable
  | InvalidInput => Tool.InvalidInput
  | InvalidFieldShorthand => Tool.InvalidFieldShorthand
  | InvalidRegex => Tool.InvalidRegex
  | NotFound => Tool.NotFound
  | NotObserved => Tool.NotObserved
  | CollectionIncomplete => Tool.CollectionIncomplete
  | SourceInventoryIncomplete => Tool.SourceInventoryIncomplete
  | StorageUnavailable | StorageContended => Tool.StorageUnavailable
  | StorageCorrupt => Tool.StorageCorrupt
  | Capacity | BudgetExhausted => Tool.ResourceLimit
  | AmbiguousRevision => Tool.Ambiguous
  | AmbiguousCollection => Tool.Ambiguous
  | FreshnessUnavailable => Tool.FreshnessUnavailable
  | RevisionUnavailable => Tool.SnapshotUnavailable
  | ProcessingPending => Tool.ProcessingPending
  | UnsupportedHistory => Tool.UnsupportedHistory
  | HistoryIncomplete => Tool.HistoryIncomplete
  | SessionExpired => Tool.SessionExpired
  | SnapshotInvalidated => Tool.SnapshotInvalidated
  | Withdrawn => Tool.Withdrawn
  | _ => Tool.Unavailable
  end.

Definition map_stop (e : stop DatabaseError) : stop ToolError :=
  match e with Error e => Error (map_error e) | Panic => Panic | OutOfFuel => OutOfFuel end.
Definition map_err {A} (r : result (stop DatabaseError) A) : result (stop ToolError) A :=
  match r with Ok a => Ok a | Err e => Err (map_stop e) end.

(** The derived names of the errors in [snake_case] *)
Definition code (e : DatabaseError) : str :=
  match e with
  | SourceRejected => u "source_rejected" | SourceUnavailable => u "source_unavailable"
  | SourceDataInvalid => u "source_data_invalid" | SourceDownloadFailed => u "source_download_failed"
  | SourceUnauthorized => u "source_unauthorized" | SourceTransient => u "source_transient"
  | InvalidInput => u "invalid_input" | InvalidFieldShorthand => u "invalid_field_shorthand"
  | InvalidRegex => u "invalid_regex" | NotFound => u "not_found" | NotObserved => u "not_observed"
  | CollectionIncomplete => u "collection_incomplete" | RevisionUnavailable => u "revision_unavailable"
  | AmbiguousRevision => u "ambiguous_revision" | AmbiguousCollection => u "ambiguous_collection"
  | SourceInventoryIncomplete => u "source_inventory_incomplete"
  | HistoryIncomplete => u "history_incomplete" | UnsupportedHistory => u "unsupported_history"
  | ProcessingPending => u "processing_pending" | FreshnessUnavailable => u "freshness_unavailable"
  | Withdrawn => u "withdrawn" | StorageUnavailable => u "storage_unavailable"
  | StorageContended => u "storage_contended" | StorageCorrupt => u "storage_corrupt"
  | Capacity => u "capacity" | BudgetExhausted => u "budget_exhausted" | Conflict => u "conflict"
  | Cancelled => u "cancelled" | SessionExpired => u "session_expired"
  | SnapshotInvalidated => u "snapshot_invalidated"
  end.

Definition jurisdiction_arg (c : option str) : result ToolError Jurisdiction :=
  match c with
  | None => Ok DEFAULT
  | Some c =>
    match parse_jurisdiction c with
    | Ok j => Ok j
    | Err Malformed => Err Tool.InvalidInput
    | Err Unsupported => Err Tool.UnsupportedJurisdiction
    end
  end.

Definition valid_text (value : str) (max : Z) : bool :=
  negb (str_eqb (trim value) []) && (slen value <=? max)
  && negb (existsb (fun c => is_control c && negb (c =? LF) && negb (c =? CR) && negb (c =? 9)) value).

(** * Contracts of [crates/domain/src/legal_reference.rs] *)

Inductive TitleStatus := Current | Former.
#[export] Instance TitleStatus_eq_dec : EqDecision TitleStatus.
Proof. solve_decision. Defined.

Record TitleMatch := {
  tm_object : ObjectId; tm_matched_title : str; tm_title_status : TitleStatus;
  tm_current_title : option str; tm_revision_id : str; tm_capture_id : str;
}.

Inductive StatuteCitationStatus :=
| Verified | ArticleNotFound | ArticleDeleted | ParagraphNotFound | SubparagraphNotFound
| TitleMismatch | LawNotObserved | LawAmbiguous | LawNameUnresolved | Unavailable.
#[export] Instance StatuteCitationStatus_eq_dec : EqDecision StatuteCitationStatus.
Proof. solve_decision. Defined.

(** The fields of a [StatuteCitationResult] that [check_statute] writes *)
Record StatuteCheck := {
  sc_status : StatuteCitationStatus; sc_detail : option str; sc_object : option ObjectId;
  sc_law_title : option str; sc_law_title_status : option TitleStatus;
  sc_revision_id : option str; sc_capture_id : option str;
  sc_retained_article_title : option str; sc_title_similarity : option Z;
  sc_article_range : option str; sc_paragraph_count : option Z;
}.

Record StatuteCitationResult := {
  sr_text : str; sr_byte_start : Z; sr_byte_end : Z; sr_law_name : option str;
  sr_inherited : bool; sr_law_name_candidates : list str;
  sr_resolution : option LawNameResolution; sr_article : str; sr_paragraph : option Z;
  sr_subparagraph : option Z; sr_cited_article_title : option str; sr_check : StatuteCheck;
}.

Inductive CaseCitationStatus := Observed | CaseNotObserved.

Record CaseRecordMatch := {
  cm_object : ObjectId; cm_title : str; cm_revision_id : str; cm_capture_id : str;
}.

Record CaseCitationResult := {
  cr_text : str; cr_byte_start : Z; cr_byte_end : Z; cr_case_number : str;
  cr_status : CaseCitationStatus; cr_matches : list CaseRecordMatch;
}.

Record CitationSummary := {
  su_verified : Z; su_failed : Z; su_unchecked : Z;
  su_cases_observed : Z; su_cases_not_observed : Z;
}.

Record CitationVerification := {
  cv_jurisdiction : Jurisdiction; cv_statutes : list StatuteCitationResult;
  cv_cases : list CaseCitationResult; cv_summary : CitationSummary;
  cv_truncated : bool; cv_corpus_complete : bool;
}.

(** * The corpus *)

(** The fields of a search hit that the tools read *)
Record LineHit := {
  lh_object : ObjectId; lh_title : str; lh_revision_id : str; lh_capture_id : str; lh_text : str;
}.

(** The arguments of [find_lines] besides the patterns: the section, the datasets, the
    object that is searched when there is one, and whether former captures are searched. *)
Record LineQuery := {
  lq_section : str; lq_datasets : list Dataset; lq_object : option str; lq_history : bool;
}.

(** The fields of [MetadataResult] that the tools read *)
Record MetadataResult := {
  mr_revision_id : str; mr_capture_id : str; mr_title : str; mr_metadata : gmap str str;
  mr_publication_date : option str; mr_effective_date : option str;
}.

(** What the services answer to the call with a number *)
Record Corpus := {
  search : nat -> LineQuery -> str -> option str -> result DatabaseError (LinePage LineHit);
  get : nat -> ObjectId -> RevisionSelector -> result DatabaseError Capture;
  get_metadata : nat -> ObjectId -> RevisionSelector -> result DatabaseError MetadataResult;
  history : nat -> ObjectId -> option str -> result DatabaseError HistoryPage;
}.

(** A computation that counts the calls it makes *)
Definition tool (A : Type) : Type := nat -> result (stop ToolError) (A * nat).
Definition ret {A} (a : A) : tool A := fun n => Ok (a, n).
Definition throw {A} (e : ToolError) : tool A := fun _ => Err (Error e).
Definition bind {A B} (m : tool A) (k : A -> tool B) : tool B :=
  fun n => match m n with Ok (a, n) => k a n | Err e => Err e end.
(** An operation of the profile, which makes no calls *)
Definition pure {A} (r : result (stop ToolError) A) : tool A :=
  fun n => match r with Ok a => Ok (a, n) | Err e => Err e end.
(** One call *)
Definition call {A} (f : nat -> A) : tool A := fun n => Ok (f n, S n).
Notation "'let!' x ':=' m 'in' k" := (bind m (fun x => k))
  (at level 10, x pattern, m at level 100, k at level 200) : result_scope.

(** [BTreeMap::entry(k).or_insert_with(v)] in the list of the entries in key order *)
Fixpoint entry_or_insert (k v : str) (m : list (str * str)) : list (str * str) :=
  match m with
  | [] => [(k, v)]
  | (k', v') :: rest =>
    if str_eqb k k' then m
    else if negb (str_leb k' k) then (k, v) :: m
    else (k', v') :: entry_or_insert k v rest
  end.
Definition contains_key {A} (k : str) (m : list (str * A)) : bool := existsb (fun e => str_eqb e.1 k) m.

Definition has_object {A} (object : A -> ObjectId) (o : ObjectId) (l : list A) : bool :=
  existsb (fun m => bool_decide (object m = o)) l.

Record TitleIndex := { ti_matches : gmap str (list TitleMatch); ti_corpus_complete : bool }.

(** [entry(key).or_default().push(m)] *)
Definition push_match (key : str) (m : TitleMatch) (t : gmap str (list TitleMatch))
  : gmap str (list TitleMatch) := <[key := default [] (t !! key) ++ [m]]> t.

Definition MAX_FORMER_TITLE_OBJECTS : Z := 20.
Definition MAX_CACHED_CAPTURES : Z := 8.
Definition TITLE_MATCH_THRESHOLD : Z := 50.
Definition ARTICLE_TEXT_LIMIT : Z := 16 * 1024.

Section tools.
Context (corpus : Corpus) {profile_ : ReferenceProfile}.

(** [lookup.find_lines] with its errors mapped *)
Definition lines_tool (q : LineQuery) (patterns : list str) : tool (LineLookup LineHit) :=
  fun n =>
    let? (r, calls) := map_err (find_lines (fun k => search corpus (n + k) q) patterns) in
    Ok (r, (n + calls)%nat).

(** The hits and whether the corpus was complete *)
Definition find_lines_tool (q : LineQuery) (patterns : list str) : tool (list LineHit * bool) :=
  let! r := lines_tool q patterns in
  ret (ll_hits r, ll_corpus_complete r).

(** * Titles *)

Definition wanted_titles (names : list str) : list (str * str) :=
  fold_left (fun wanted name =>
    let key := rp_name_key name in
    if str_eqb key [] then wanted else entry_or_insert key (rp_title_pattern name) wanted) names [].

Definition title_match (hit : LineHit) (status : TitleStatus) (current : option str) : TitleMatch :=
  {| tm_object := lh_object hit; tm_matched_title := lh_title hit; tm_title_status := status;
     tm_current_title := current; tm_revision_id := lh_revision_id hit;
     tm_capture_id := lh_capture_id hit |}.

(** A hit that has another jurisdiction or none of the wanted keys *)
Definition foreign (wanted : list (str * str)) (hit : LineHit) : bool :=
  negb (str_eqb (oid_jurisdiction (lh_object hit)) (corpus_code rp_jurisdiction))
  || negb (contains_key (rp_name_key (lh_title hit)) wanted).

Definition current_title (wanted : list (str * str)) (t : gmap str (list TitleMatch)) (hit : LineHit)
  : gmap str (list TitleMatch) :=
  let key := rp_name_key (lh_title hit) in
  if foreign wanted hit then t
  else if has_object tm_object (lh_object hit) (default [] (t !! key)) then t
  else push_match key (title_match hit Current None) t.

Fixpoint former_titles (wanted : list (str * str)) (hits : list LineHit) (index : TitleIndex) (checked : Z)
  : tool TitleIndex :=
  match hits with
  | [] => ret index
  | hit :: hits =>
    let key := rp_name_key (lh_title hit) in
    if foreign wanted hit || has_object tm_object (lh_object hit) (default [] (ti_matches index !! key))
    then former_titles wanted hits index checked
    else if checked =? MAX_FORMER_TITLE_OBJECTS
    then ret {| ti_matches := ti_matches index; ti_corpus_complete := false |}
    else
      let! answer := call (fun n => get_metadata corpus n (lh_object hit) Head) in
      let head := match answer with Ok h => Some (mr_title h) | Err _ => None end in
      let still_current := opt_test (fun title => str_eqb (rp_name_key title) key) head in
      let m :=
        if still_current then title_match hit Current None else title_match hit Former head in
      former_titles wanted hits
        {| ti_matches := push_match key m (ti_matches index);
           ti_corpus_complete := ti_corpus_complete index |} (checked + 1)
  end.

Definition find_titles (names : list str) (datasets : list Dataset) : tool TitleIndex :=
  let wanted := wanted_titles names in
  let empty := {| ti_matches := ∅; ti_corpus_complete := true |} in
  if bool_decide (wanted = []) then ret empty else
  let title history := {| lq_section := u "title"; lq_datasets := datasets; lq_object := None; lq_history := history |} in
  let! (hits, complete) := find_lines_tool (title false) wanted.*2 in
  let index :=
    {| ti_matches := fold_left (current_title wanted) hits ∅; ti_corpus_complete := complete |} in
  let missing :=
    (List.filter (fun e => negb (is_some (ti_matches index !! e.1))) wanted).*2 in
  if bool_decide (missing = []) then ret index else
  let! (hits, complete) := find_lines_tool (title true) missing in
  former_titles wanted hits
    {| ti_matches := ti_matches index; ti_corpus_complete := ti_corpus_complete index && complete |} 0.

(** * [resolve_name] *)

Definition is_nil {A} (l : list A) : bool := match l with [] => true | _ :: _ => false end.

(** The names that a tool accepts *)
Definition law_name_ok (name : str) : bool :=
  valid_text name MAX_LAW_NAME_BYTES && negb (contains_char LF name).

(** The body of [resolve_name] once the jurisdiction is known *)
Definition resolve_name_in (name : str) (datasets : list Dataset)
  : tool (LawNameResolution * list TitleMatch * bool) :=
  if negb (law_name_ok name) then throw Tool.InvalidInput else
  let datasets := if is_nil datasets then rp_statute_datasets else datasets in
  let resolution := rp_resolve_law_name name in
  let! index := find_titles [ln_resolved resolution] datasets in
  ret (resolution, default [] (ti_matches index !! rp_name_key (ln_resolved resolution)),
       ti_corpus_complete index).

(** The single current match, or the single former match when none is current;
    otherwise the number of candidates. *)
Definition pick_match (matches : list TitleMatch) : result Z TitleMatch :=
  let statute m := bool_decide (oid_dataset (tm_object m) = NationalStatute) in
  let pool := if existsb statute matches then List.filter statute matches else matches in
  let current := List.filter (fun m => bool_decide (tm_title_status m = Current)) pool in
  let pool := if is_nil current then pool else current in
  match pool with
  | [one] => Ok one
  | many => Err (zlen many)
  end.

Definition resolve_object (object : option ObjectId) (law_name : option str) (datasets : list Dataset)
  : tool (ObjectId * option LawNameResolution) :=
  let! (object, resolution) :=
    match object, law_name with
    | Some object, None => ret (object, None)
    | None, Some name =>
      if negb (law_name_ok name) then throw Tool.InvalidInput else
      let resolution := rp_resolve_law_name name in
      let! index := find_titles [ln_resolved resolution] datasets in
      match pick_match (default [] (ti_matches index !! rp_name_key (ln_resolved resolution))) with
      | Ok one => ret (tm_object one, Some resolution)
      | Err 0 => throw Tool.NotObserved
      | Err _ => throw Tool.Ambiguous
      end
    | _, _ => throw Tool.InvalidInput
    end in
  match object_validate object with
  | Ok _ => ret (object, resolution)
  | Err e => throw (map_error e)
  end.
End tools.

Definition arg {A} (r : result ToolError A) : tool A :=
  match r with Ok a => ret a | Err e => throw e end.

Definition resolve_name `{CharTables} (corpus : Corpus) (name : str) (datasets : list Dataset)
  (jurisdiction : option str) : tool (Jurisdiction * LawNameResolution * list TitleMatch * bool) :=
  let! jurisdiction := arg (jurisdiction_arg jurisdiction) in
  let! r := resolve_name_in corpus (profile_ := profile jurisdiction) name datasets in
  ret (jurisdiction, r.1.1, r.1.2, r.2).
