(* ===== verification/CorpusTitlesFacts.v ===== *)
(** What the lookup of titles promises, and the rules by which tools are verified. *)

From S2P Require Import Prelude Utf8 Strings Domain Slices KrNames KrArticles KrCitations Profile TextDiff Citation InForce InForceFacts Legal CorpusTitles.

(** * Tools *)

(** Every run of [m] ends with an error or with an answer for which [post] holds. *)
Definition yields {A} (m : tool A) (post : A -> Prop) : Prop :=
  forall n, match m n with
    | Ok (a, _) => post a
    | Err (Error _) => True
    | Err _ => False
    end.

Lemma yields_ret {A} (a : A) (post : A -> Prop) : post a -> yields (ret a) post.
Proof. by intros H n. Qed.

Lemma yields_throw {A} e (post : A -> Prop) : yields (throw e) post.
Proof. by intros n. Qed.

Lemma yields_bind {A B} (m : tool A) (k : A -> tool B) (mid : A -> Prop) (post : B -> Prop) :
  yields m mid -> (forall a, mid a -> yields (k a) post) -> yields (bind m k) post.
Proof.
  intros Hm Hk n. unfold bind. specialize (Hm n). destruct (m n) as [[a n']|[]]; try done.
  exact (Hk a Hm n').
Qed.

Lemma yields_weaken {A} (m : tool A) (post post' : A -> Prop) :
  yields m post -> (forall a, post a -> post' a) -> yields m post'.
Proof. intros Hm H n. specialize (Hm n). destruct (m n) as [[a n']|[]]; auto. Qed.

Lemma yields_call {A} (f : nat -> A) (post : A -> Prop) : (forall n, post (f n)) -> yields (call f) post.
Proof. intros H n. apply H. Qed.

Lemma yields_pure {A} (r : result (stop ToolError) A) a (post : A -> Prop) : r = Ok a -> post a -> yields (pure r) post.
Proof. intros -> H n. exact H. Qed.

Lemma yields_answers {A} (m : tool A) n (post : A -> Prop) :
  yields m post -> answers (m n) /\ forall a n', m n = Ok (a, n') -> post a.
Proof.
  intros H. specialize (H n). destruct (m n) as [[a k]|[]]; try done.
  split; [done|]. by intros ? ? [= <- <-].
Qed.

(** * Entries in key order *)

Lemma str_eqb_spec a b : reflect (a = b) (str_eqb a b).
Proof. destruct (str_eqb a b) eqn:E; constructor; [by apply str_eqb_eq|by intros ?%str_eqb_eq; congruence]. Qed.

Lemma entry_or_insert_keys k v m k' : k' ∈ (entry_or_insert k v m).*1 <-> k' = k \/ k' ∈ m.*1.
Proof.
  induction m as [|[k0 v0] m IH]; cbn [entry_or_insert]; [cbn; set_solver|].
  destruct (str_eqb_spec k k0) as [->|]; [cbn; set_solver|].
  destruct (negb _); cbn in *; rewrite ?elem_of_cons, ?IH in *; set_solver.
Qed.

Lemma entry_or_insert_values k v m e : e ∈ entry_or_insert k v m -> e = (k, v) \/ e ∈ m.
Proof.
  induction m as [|[k0 v0] m IH]; cbn [entry_or_insert]; [by intros ->%list_elem_of_singleton; left|].
  destruct (str_eqb_spec k k0) as [->|]; [auto|].
  destruct (negb _); rewrite ?elem_of_cons in *; naive_solver.
Qed.

Lemma contains_key_elem {A} k (m : list (str * A)) : contains_key k m = true <-> k ∈ m.*1.
Proof.
  unfold contains_key. rewrite existsb_exists. setoid_rewrite str_eqb_eq.
  rewrite list_elem_of_fmap. setoid_rewrite <- list_elem_of_In. naive_solver.
Qed.

Lemma has_object_elem {A} (object : A -> ObjectId) o l : has_object object o l = true <-> o ∈ object <$> l.
Proof.
  unfold has_object. rewrite existsb_exists, list_elem_of_fmap. setoid_rewrite bool_decide_eq_true.
  setoid_rewrite <- list_elem_of_In. naive_solver.
Qed.

(** * Searches *)

Section searches.
Context {Hit : Type} (ask : nat -> str -> option str -> result DatabaseError (LinePage Hit)).

Definition searched (hit : Hit) : Prop :=
  exists n query cursor page, ask n query cursor = Ok page /\ hit ∈ lp_hits page.

Lemma take_hits_in (found page : list Hit) : Forall (fun h => h ∈ found \/ h ∈ page) (take_hits found page).1.
Proof.
  revert found. induction page as [|hit page IH]; intros found; cbn [take_hits].
  { apply Forall_forall. cbn. auto. }
  destruct (_ =? _); [apply Forall_forall; cbn; auto|].
  eapply Forall_impl; [apply IH|]. cbn. intros h. rewrite elem_of_app, !elem_of_cons. set_solver.
Qed.

Lemma find_pages_searched left_ : forall n query cursor r0,
  Forall searched (ll_hits r0) ->
  match find_pages ask left_ n query cursor r0 with Ok (r, _) => Forall searched (ll_hits r) | Err _ => True end.
Proof.
  induction left_ as [|left_ IH]; intros n query cursor r0 H; cbn [find_pages]; [done|].
  destruct (ask n query cursor) as [page|] eqn:E; [|done].
  pose proof (take_hits_in (ll_hits r0) (lp_hits page)) as Ht.
  destruct (take_hits (ll_hits r0) (lp_hits page)) as [hits cut]; cbn [fst] in Ht.
  assert (Forall searched hits) as Hh.
  { eapply Forall_impl; [exact Ht|]. cbn. intros h [Hin|Hin].
    - by eapply Forall_forall in H.
    - by exists n, query, cursor, page. }
  destruct (lp_next_cursor page) as [next|]; [|done]. destruct (_ && _); [|done]. by apply IH.
Qed.

Lemma find_queries_searched queries : forall n r0,
  Forall searched (ll_hits r0) ->
  match find_queries ask queries n r0 with Ok (r, _) => Forall searched (ll_hits r) | Err _ => True end.
Proof.
  induction queries as [|query queries IH]; intros n r0 H; cbn [find_queries]; [done|].
  pose proof (find_pages_searched (Z.to_nat MAX_PAGES) n query None r0 H) as Hp.
  destruct (find_pages _ _ _ _ _ _) as [[r n']|]; [|done]. by apply IH.
Qed.

Lemma find_lines_yields alternatives :
  match find_lines ask alternatives with
  | Ok (r, _) => Forall searched (ll_hits r) /\ zlen (ll_hits r) <= MAX_LINE_HITS
  | Err (Error _) => True
  | Err _ => False
  end.
Proof.
  unfold find_lines. destruct (anchored_queries alternatives) as [queries|]; [|done].
  set (r0 := {| ll_hits := []; ll_corpus_complete := true; ll_truncated := false |}).
  pose proof (find_queries_spec ask queries 0 r0 ltac:(done)) as H1.
  pose proof (find_queries_searched queries 0 r0 (Forall_nil_2 _)) as H2.
  destruct (find_queries _ _ _ _) as [[r n]|[]]; [|done..]. by destruct H1 as (_ & ? & _).
Qed.

Lemma find_lines_cut alternatives :
  match find_lines ask alternatives with
  | Ok (r, _) => ll_truncated r = true -> ll_corpus_complete r = false
  | Err _ => True
  end.
Proof.
  unfold find_lines. destruct (anchored_queries alternatives) as [queries|]; [|done].
  destruct (find_queries _ _ _ _) as [[r n]|]; [|done]. cbn. by intros ->.
Qed.
End searches.

(** * Titles *)

Section titles.
Context (corpus : Corpus) {profile_ : ReferenceProfile}.

Lemma wanted_titles_spec names k :
  k ∈ (wanted_titles names).*1 <-> k <> [] /\ k ∈ rp_name_key <$> names.
Proof.
  unfold wanted_titles.
  enough (H : forall m, k ∈ (fold_left (fun wanted name =>
      if str_eqb (rp_name_key name) [] then wanted
      else entry_or_insert (rp_name_key name) (rp_title_pattern name) wanted) names m).*1
    <-> k ∈ m.*1 \/ (k <> [] /\ k ∈ rp_name_key <$> names)).
  { rewrite (H []). cbn. set_solver. }
  induction names as [|name names IH]; intros m; cbn [fold_left fmap list_fmap]; [set_solver|].
  rewrite IH, elem_of_cons. destruct (str_eqb_spec (rp_name_key name) []) as [->|Hne].
  - naive_solver.
  - rewrite entry_or_insert_keys. naive_solver.
Qed.

(** The hits that the searches with a query answered *)
Definition query_hit (q : LineQuery) (hit : LineHit) : Prop := searched (fun n => search corpus n q) hit.

(** What a lookup promises: its hits were answered, they are within the limit, and a
    lookup that was cut off does not claim a complete corpus. *)
Definition lookup_ok (q : LineQuery) (r : LineLookup LineHit) : Prop :=
  Forall (query_hit q) (ll_hits r) /\ zlen (ll_hits r) <= MAX_LINE_HITS /\
  (ll_truncated r = true -> ll_corpus_complete r = false).

Lemma lines_tool_yields q patterns : yields (lines_tool corpus q patterns) (lookup_ok q).
Proof.
  intros n. unfold lines_tool.
  match goal with |- context [find_lines ?f patterns] =>
    pose proof (find_lines_yields f patterns) as H; pose proof (find_lines_cut f patterns) as Hc end.
  destruct (find_lines _ patterns) as [[r c]|[]]; [|done..]. cbn. destruct H as [H Hl]. split_and!; [|done|done].
  eapply Forall_impl; [exact H|]. intros h (k & q' & cu & page & Hp). by exists (n + k)%nat, q', cu, page.
Qed.

(** The hits that the searches of a section answered *)
Definition hit_of (section : str) (datasets : list Dataset) (history : bool) (hit : LineHit) : Prop :=
  query_hit {| lq_section := section; lq_datasets := datasets; lq_object := None; lq_history := history |} hit.

Lemma find_lines_tool_yields section datasets history patterns :
  yields (find_lines_tool corpus
      {| lq_section := section; lq_datasets := datasets; lq_object := None; lq_history := history |} patterns)
    (fun r => Forall (hit_of section datasets history) r.1 /\ zlen r.1 <= MAX_LINE_HITS).
Proof.
  unfold find_lines_tool. eapply yields_bind; [apply lines_tool_yields|]. intros r (Hh & Hl & _). by apply yields_ret.
Qed.

(** What a match says: the search answered this title for this object; a current match
    comes from the current titles or was confirmed by the metadata of the head. *)
Definition match_ok (datasets : list Dataset) (key : str) (m : TitleMatch) : Prop :=
  rp_name_key (tm_matched_title m) = key /\
  oid_jurisdiction (tm_object m) = corpus_code rp_jurisdiction /\
  exists history hit, hit_of (u "title") datasets history hit /\
    m = title_match hit (tm_title_status m) (tm_current_title m) /\
    if history then
      exists n, match get_metadata corpus n (tm_object m) Head with
        | Ok head =>
          if str_eqb (rp_name_key (mr_title head)) key
          then tm_title_status m = Current /\ tm_current_title m = None
          else tm_title_status m = Former /\ tm_current_title m = Some (mr_title head)
        | Err _ => tm_title_status m = Former /\ tm_current_title m = None
        end
    else tm_title_status m = Current /\ tm_current_title m = None.

(** An index of the matches of keys that were asked for, every object once for a key *)
Definition titles_ok (datasets : list Dataset) (asked : str -> Prop) (t : gmap str (list TitleMatch)) : Prop :=
  forall key l, t !! key = Some l ->
    l <> [] /\ asked key /\ NoDup (tm_object <$> l) /\ Forall (match_ok datasets key) l.

Lemma titles_ok_empty datasets asked : titles_ok datasets asked ∅.
Proof. intros k l. by rewrite lookup_empty. Qed.

Lemma push_match_ok datasets (asked : str -> Prop) t key m :
  titles_ok datasets asked t -> asked key -> match_ok datasets key m ->
  has_object tm_object (tm_object m) (default [] (t !! key)) = false ->
  titles_ok datasets asked (push_match key m t).
Proof.
  intros Ht Hk Hm Hn k l. unfold push_match. destruct (decide (k = key)) as [->|Hne].
  2:{ rewrite lookup_insert_ne by done. apply Ht. }
  rewrite lookup_insert_eq. intros [= <-]. split; [by destruct (default [] _)|]. split; [done|].
  rewrite fmap_app. change (tm_object <$> [m]) with [tm_object m].
  assert (Hnot : tm_object m ∉ tm_object <$> default [] (t !! key)).
  { intros K%has_object_elem. congruence. }
  destruct (t !! key) as [l|] eqn:E; cbn [default] in *; unfold id in *.
  - destruct (Ht _ _ E) as (_ & _ & Hd & Hf). split.
    + apply NoDup_app. split_and!; [done| |apply NoDup_singleton]. intros o Ho ->%list_elem_of_singleton. done.
    + apply Forall_app. by rewrite Forall_singleton.
  - split; [apply NoDup_singleton|by apply Forall_singleton].
Qed.

Lemma foreign_false wanted hit : foreign wanted hit = false ->
  oid_jurisdiction (lh_object hit) = corpus_code rp_jurisdiction /\ rp_name_key (lh_title hit) ∈ wanted.*1.
Proof.
  unfold foreign. rewrite orb_false_iff, !negb_false_iff, str_eqb_eq, contains_key_elem. done.
Qed.

Lemma current_titles_ok datasets wanted hits : forall t,
  Forall (hit_of (u "title") datasets false) hits -> titles_ok datasets (.∈ wanted.*1) t ->
  titles_ok datasets (.∈ wanted.*1) (fold_left (current_title wanted) hits t).
Proof.
  induction hits as [|hit hits IH]; intros t Hh Ht; cbn [fold_left]; [done|].
  apply Forall_cons in Hh as [Hhit Hh]. apply IH; [done|]. unfold current_title.
  destruct (foreign wanted hit) eqn:Ef; [done|]. destruct (has_object _ _ _) eqn:Eo; [done|].
  apply foreign_false in Ef as [Hj Hk]. apply push_match_ok; try done.
  split_and!; [done..|]. by exists false, hit.
Qed.

Lemma former_titles_ok datasets wanted hits : forall index checked,
  Forall (hit_of (u "title") datasets true) hits -> titles_ok datasets (.∈ wanted.*1) (ti_matches index) ->
  yields (former_titles corpus wanted hits index checked) (fun index => titles_ok datasets (.∈ wanted.*1) (ti_matches index)).
Proof.
  induction hits as [|hit hits IH]; intros index checked Hh Ht; cbn [former_titles]; [by apply yields_ret|].
  apply Forall_cons in Hh as [Hhit Hh].
  destruct (foreign wanted hit) eqn:Ef; cbn [orb]; [by apply IH|].
  destruct (has_object _ _ _) eqn:Eo; [by apply IH|].
  destruct (_ =? _); [by apply yields_ret|].
  apply foreign_false in Ef as [Hj Hk].
  eapply yields_bind; [apply (yields_call _ (fun a => exists n, a = get_metadata corpus n (lh_object hit) Head)); eauto|].
  intros answer [n ->]. apply IH; [done|]. apply push_match_ok; try done.
  - destruct (get_metadata corpus n (lh_object hit) Head) as [head|] eqn:Em; cbn [opt_test].
    + destruct (str_eqb (rp_name_key (mr_title head)) _) eqn:Ek; split_and!; try done;
        exists true, hit; split_and!; try done; exists n; cbn [tm_object title_match]; by rewrite Em, Ek.
    + split_and!; [done..|]. exists true, hit. split_and!; [done..|]. exists n. cbn [tm_object title_match]. by rewrite Em.
  - by destruct (opt_test _ _).
Qed.

Lemma find_titles_yields names datasets :
  yields (find_titles corpus names datasets)
    (fun index => titles_ok datasets (fun key => key <> [] /\ key ∈ rp_name_key <$> names) (ti_matches index)).
Proof.
  enough (H : yields (find_titles corpus names datasets)
    (fun index => titles_ok datasets (.∈ (wanted_titles names).*1) (ti_matches index))).
  { eapply yields_weaken; [exact H|]. intros index Hi k l Hk. destruct (Hi k l Hk) as (? & ?%wanted_titles_spec & ?).
    done. }
  unfold find_titles. set (wanted := wanted_titles names).
  destruct (bool_decide _); [apply yields_ret, titles_ok_empty|].
  eapply yields_bind; [apply find_lines_tool_yields|]. intros [hits complete] [Hh _].
  assert (Ht : titles_ok datasets (.∈ wanted.*1) (fold_left (current_title wanted) hits ∅)).
  { apply current_titles_ok; [done|apply titles_ok_empty]. }
  destruct (bool_decide _); [by apply yields_ret|].
  eapply yields_bind; [apply find_lines_tool_yields|]. intros [hits' complete'] [Hh' _].
  by apply former_titles_ok.
Qed.
End titles.
