(* ===== verification/CitationCheck.v ===== *)
(** Checks of the citations in a text: [choose_laws], [check_statute] and [verify] of
    [apps/server/src/legal_reference.rs]. *)

From S2P Require Import Prelude Utf8 Strings Domain Slices KrNames KrArticles KrCitations Profile TextDiff Citation InForce Legal CorpusTitles.

Definition MAX_CITATION_TEXT_BYTES : Z := 50000.

(** The law a citation was resolved to before reading the corpus. *)
Record ChosenLaw := {
  cl_name : str; cl_resolution : option LawNameResolution; cl_start : Z; cl_inherited : bool;
  cl_candidates : list str; cl_unresolved : bool;
}.

(** The memo of [resolution_for] *)
Abbreviation Resolutions := (gmap str LawNameResolution).

Section laws.
Context {profile_ : ReferenceProfile}.

Definition resolution_for (cache : Resolutions) (name : str) : LawNameResolution * Resolutions :=
  match cache !! name with
  | Some r => (r, cache)
  | None => let r := rp_resolve_law_name name in (r, <[name := r]> cache)
  end.

(** [candidates.iter().find(..)] *)
Fixpoint find_candidate (index : gmap str (list TitleMatch)) (candidates : list (str * Z))
  (cache : Resolutions) : option (str * Z) * Resolutions :=
  match candidates with
  | [] => (None, cache)
  | (name, start) :: candidates =>
    let '(resolution, cache) := resolution_for cache name in
    if is_some (index !! rp_name_key (ln_resolved resolution)) then (Some (name, start), cache)
    else find_candidate index candidates cache
  end.

Definition unnamed (start : Z) : ChosenLaw :=
  {| cl_name := []; cl_resolution := None; cl_start := start; cl_inherited := true;
     cl_candidates := []; cl_unresolved := true |}.

Definition choose_named (index : gmap str (list TitleMatch)) (article_start : Z)
  (candidates : list (str * Z)) (generic_tail : bool) (cache : Resolutions) : ChosenLaw * Resolutions :=
  let '(found, cache) := find_candidate index candidates cache in
  match found with
  | Some (name, start) =>
    let '(resolution, cache) := resolution_for cache name in
    ({| cl_name := name; cl_resolution := Some resolution; cl_start := start; cl_inherited := false;
        cl_candidates := []; cl_unresolved := false |}, cache)
  | None =>
    let '(name, start) := default ([], article_start) (last candidates) in
    let bracketed := zlen candidates =? 1 in
    let '(resolution, cache) :=
      if generic_tail then (None, cache)
      else let '(r, cache) := resolution_for cache name in (Some r, cache) in
    ({| cl_name := name; cl_resolution := resolution;
        cl_start := if bracketed then start else article_start; cl_inherited := false;
        cl_candidates := if bracketed then [] else candidates.*1;
        cl_unresolved := generic_tail |}, cache)
  end.

(** A reference to the law of the citation before: the law and the name that is still
    to be looked up. *)
Definition choose_same (looked_up : gset str) (previous : option ChosenLaw) (suffix : option str) (start : Z)
  (cache : Resolutions) : ChosenLaw * list str * Resolutions :=
  match previous with
  | Some previous =>
    if cl_unresolved previous then (unnamed start, [], cache) else
    let name :=
      match suffix with
      | Some suffix => rp_base_law_name (cl_name previous) ++ u " " ++ suffix
      | None => cl_name previous
      end in
    let '(resolution, cache) :=
      match suffix, cl_resolution previous with
      | None, Some r => (r, cache)
      | _, _ => resolution_for cache name
      end in
    let pending :=
      if bool_decide (rp_name_key (ln_resolved resolution) ∈ looked_up) then []
      else [ln_resolved resolution] in
    ({| cl_name := name; cl_resolution := Some resolution; cl_start := start; cl_inherited := true;
        cl_candidates := []; cl_unresolved := false |}, pending, cache)
  | None => (unnamed start, [], cache)
  end.

Definition choose_law (index : gmap str (list TitleMatch)) (looked_up : gset str) (previous : option ChosenLaw)
  (citation : ExtractedStatute) (cache : Resolutions) : ChosenLaw * list str * Resolutions :=
  match es_law citation with
  | Named candidates generic_tail =>
    let '(law, cache) := choose_named index (es_article_start citation) candidates generic_tail cache in
    (law, [], cache)
  | Same suffix start => choose_same looked_up previous suffix start cache
  | Continued =>
    (match previous with
     | Some p =>
       {| cl_name := cl_name p; cl_resolution := cl_resolution p; cl_start := es_article_start citation;
          cl_inherited := true; cl_candidates := cl_candidates p; cl_unresolved := cl_unresolved p |}
     | None => unnamed (es_article_start citation)
     end, [], cache)
  end.

Fixpoint choose_laws (index : gmap str (list TitleMatch)) (looked_up : gset str) (previous : option ChosenLaw)
  (citations : list ExtractedStatute) (cache : Resolutions) : list ChosenLaw * list str * Resolutions :=
  match citations with
  | [] => ([], [], cache)
  | citation :: citations =>
    let '(law, pending, cache) := choose_law index looked_up previous citation cache in
    let '(chosen, pending', cache) := choose_laws index looked_up (Some law) citations cache in
    (law :: chosen, pending ++ pending', cache)
  end.

(** The names that the citations may mean, resolved *)
Fixpoint candidate_names (candidates : list (str * Z)) (cache : Resolutions) : list str * Resolutions :=
  match candidates with
  | [] => ([], cache)
  | (name, _) :: candidates =>
    let '(r, cache) := resolution_for cache name in
    let '(names, cache) := candidate_names candidates cache in (ln_resolved r :: names, cache)
  end.

Fixpoint cited_names (citations : list ExtractedStatute) (cache : Resolutions) : list str * Resolutions :=
  match citations with
  | [] => ([], cache)
  | citation :: citations =>
    let '(names, cache) :=
      match es_law citation with
      | Named candidates _ => candidate_names candidates cache
      | _ => ([], cache)
      end in
    let '(names', cache) := cited_names citations cache in (names ++ names', cache)
  end.
End laws.

(** * Reads of captures *)

(** [CachedRead] *)
Abbreviation CachedRead := (result DatabaseError Capture).

(** [entries] of [CaptureCache] *)
Abbreviation CaptureCache := (list ((ObjectId * str) * CachedRead)).

Section checks.
Context (corpus : Corpus) (selector_json : RevisionSelector -> str) {profile_ : ReferenceProfile}.

Definition is_cancelled (answer : CachedRead) : bool :=
  match answer with Err Cancelled => true | _ => false end.

(** [CaptureCache::read] *)
Definition read (cache : CaptureCache) (object : ObjectId) (selector : RevisionSelector)
  : tool (CachedRead * CaptureCache) :=
  let key := (object, selector_json selector) in
  match List.find (fun e => bool_decide (e.1 = key)) cache with
  | Some (_, cached) => ret (cached, cache)
  | None =>
    let! answer := call (fun n => get corpus n object selector) in
    if is_cancelled answer then ret (answer, cache) else
    let cache := if zlen cache =? MAX_CACHED_CAPTURES then drop 1 cache else cache in
    ret (answer, cache ++ [(key, answer)])
  end.

(** * One statute *)

Definition range (first last_ : option ArticleNumber) : option str :=
  match first, last_ with
  | Some first, Some last_ => Some (rp_format_article first ++ u "~" ++ rp_format_article last_)
  | _, _ => None
  end.

(** The check before the corpus is read *)
Definition unchecked : StatuteCheck :=
  {| sc_status := LawNameUnresolved; sc_detail := None; sc_object := None; sc_law_title := None;
     sc_law_title_status := None; sc_revision_id := None; sc_capture_id := None;
     sc_retained_article_title := None; sc_title_similarity := None; sc_article_range := None;
     sc_paragraph_count := None |}.

Definition with_status (c : StatuteCheck) (status : StatuteCitationStatus) (detail : option str) : StatuteCheck :=
  {| sc_status := status; sc_detail := detail; sc_object := sc_object c; sc_law_title := sc_law_title c;
     sc_law_title_status := sc_law_title_status c; sc_revision_id := sc_revision_id c;
     sc_capture_id := sc_capture_id c; sc_retained_article_title := sc_retained_article_title c;
     sc_title_similarity := sc_title_similarity c; sc_article_range := sc_article_range c;
     sc_paragraph_count := sc_paragraph_count c |}.

Definition with_target (c : StatuteCheck) (t : TitleMatch) : StatuteCheck :=
  {| sc_status := sc_status c; sc_detail := sc_detail c; sc_object := Some (tm_object t);
     sc_law_title := Some (tm_matched_title t); sc_law_title_status := Some (tm_title_status t);
     sc_revision_id := sc_revision_id c; sc_capture_id := sc_capture_id c;
     sc_retained_article_title := sc_retained_article_title c;
     sc_title_similarity := sc_title_similarity c; sc_article_range := sc_article_range c;
     sc_paragraph_count := sc_paragraph_count c |}.

Definition with_capture (c : StatuteCheck) (read : Capture) : StatuteCheck :=
  {| sc_status := sc_status c; sc_detail := sc_detail c; sc_object := sc_object c;
     sc_law_title := sc_law_title c; sc_law_title_status := sc_law_title_status c;
     sc_revision_id := Some (lr_revision_id (cp_record read)); sc_capture_id := Some (cp_capture_id read);
     sc_retained_article_title := sc_retained_article_title c;
     sc_title_similarity := sc_title_similarity c; sc_article_range := sc_article_range c;
     sc_paragraph_count := sc_paragraph_count c |}.

Definition not_located (c : StatuteCheck) (first last_ : option ArticleNumber) : StatuteCheck :=
  {| sc_status := ArticleNotFound; sc_detail := sc_detail c; sc_object := sc_object c;
     sc_law_title := sc_law_title c; sc_law_title_status := sc_law_title_status c;
     sc_revision_id := sc_revision_id c; sc_capture_id := sc_capture_id c;
     sc_retained_article_title := sc_retained_article_title c;
     sc_title_similarity := sc_title_similarity c; sc_article_range := range first last_;
     sc_paragraph_count := sc_paragraph_count c |}.

Definition located (c : StatuteCheck) (article : LocatedArticle) (similarity : option Z)
  (status : StatuteCitationStatus) : StatuteCheck :=
  {| sc_status := status; sc_detail := sc_detail c; sc_object := sc_object c;
     sc_law_title := sc_law_title c; sc_law_title_status := sc_law_title_status c;
     sc_revision_id := sc_revision_id c; sc_capture_id := sc_capture_id c;
     sc_retained_article_title := if is_nil (la_title article) then None else Some (la_title article);
     sc_title_similarity := similarity; sc_article_range := sc_article_range c;
     sc_paragraph_count := max_by Z.leb (la_paragraphs article) |}.

(** The cited paragraph is not one of the article *)
Definition no_paragraph (article : LocatedArticle) (paragraph : option Z) : bool :=
  opt_test (fun p =>
    if is_nil (la_paragraphs article) then negb (p =? 1) else negb (existsb (Z.eqb p) (la_paragraphs article)))
    paragraph.

Definition no_subparagraph (article : LocatedArticle) (citation : ExtractedStatute)
  : result (stop ToolError) bool :=
  match es_subparagraph citation with
  | Some s => let? b := rp_has_subparagraph article (es_paragraph citation) s in Ok (negb b)
  | None => Ok false
  end.

(** The verdict about a located article *)
Definition judge (c : StatuteCheck) (article : LocatedArticle) (citation : ExtractedStatute)
  : result (stop ToolError) StatuteCheck :=
  if la_deleted article then Ok (located c article None ArticleDeleted)
  else if no_paragraph article (es_paragraph citation)
  then Ok (located c article None ParagraphNotFound)
  else
    let? missing := no_subparagraph article citation in
    if missing then Ok (located c article None SubparagraphNotFound) else
    let similarity :=
      es_cited_title citation ≫= (fun cited => rp_title_similarity cited (la_title article)) in
    Ok (located c article similarity
          (if opt_test (fun s => s <? TITLE_MATCH_THRESHOLD) similarity then TitleMismatch else Verified)).

Definition target_selector (target : TitleMatch) : RevisionSelector :=
  match tm_title_status target with
  | Current => Head
  | Former => CaptureSelector (tm_capture_id target)
  end.

Definition check_statute (cache : CaptureCache) (matches : list TitleMatch) (citation : ExtractedStatute)
  : tool (StatuteCheck * CaptureCache) :=
  match pick_match matches with
  | Err 0 => ret (with_status unchecked LawNotObserved None, cache)
  | Err many => ret (with_status unchecked LawAmbiguous (Some (show_Z many ++ u "_objects")), cache)
  | Ok target =>
    let c := with_target unchecked target in
    let! (answer, cache) := read cache (tm_object target) (target_selector target) in
    match answer with
    | Err Cancelled => throw Tool.Unavailable
    | Err error => ret (with_status c Unavailable (Some (code error)), cache)
    | Ok read =>
      let c := with_capture c read in
      let! lookup := pure (rp_locate_article (lr_sections (cp_record read)) (es_article citation)) in
      match lookup with
      | KrArticles.NotFound first last_ => ret (not_located c first last_, cache)
      | Found article => let! c := pure (judge c article citation) in ret (c, cache)
      end
    end
  end.

(** * A text *)

Definition statute_result (cited : str) (citation : ExtractedStatute) (law : ChosenLaw) (check : StatuteCheck)
  : StatuteCitationResult :=
  {| sr_text := cited; sr_byte_start := cl_start law; sr_byte_end := es_byte_end citation;
     sr_law_name := if is_nil (cl_name law) then None else Some (cl_name law);
     sr_inherited := cl_inherited law; sr_law_name_candidates := cl_candidates law;
     sr_resolution := cl_resolution law; sr_article := rp_format_article (es_article citation);
     sr_paragraph := es_paragraph citation; sr_subparagraph := es_subparagraph citation;
     sr_cited_article_title := es_cited_title citation; sr_check := check |}.

Definition count_statute (s : CitationSummary) (status : StatuteCitationStatus) : CitationSummary :=
  match status with
  | Verified =>
    {| su_verified := su_verified s + 1; su_failed := su_failed s; su_unchecked := su_unchecked s;
       su_cases_observed := su_cases_observed s; su_cases_not_observed := su_cases_not_observed s |}
  | ArticleNotFound | ArticleDeleted | ParagraphNotFound | SubparagraphNotFound | TitleMismatch =>
    {| su_verified := su_verified s; su_failed := su_failed s + 1; su_unchecked := su_unchecked s;
       su_cases_observed := su_cases_observed s; su_cases_not_observed := su_cases_not_observed s |}
  | _ =>
    {| su_verified := su_verified s; su_failed := su_failed s; su_unchecked := su_unchecked s + 1;
       su_cases_observed := su_cases_observed s; su_cases_not_observed := su_cases_not_observed s |}
  end.

(** The retained objects of the name that a law was resolved to *)
Definition matches_of (index : gmap str (list TitleMatch)) (resolution : LawNameResolution) : list TitleMatch :=
  default [] (index !! rp_name_key (ln_resolved resolution)).

Fixpoint check_statutes (text : str) (index : gmap str (list TitleMatch))
  (citations : list (ExtractedStatute * ChosenLaw)) (cache : CaptureCache) (summary : CitationSummary)
  : tool (list StatuteCitationResult * CitationSummary) :=
  match citations with
  | [] => ret ([], summary)
  | (citation, law) :: citations =>
    let! cited := pure (slice text (cl_start law) (es_byte_end citation)) in
    let! (check, cache) :=
      match cl_unresolved law, cl_resolution law with
      | false, Some resolution => check_statute cache (matches_of index resolution) citation
      | _, _ => ret (unchecked, cache)
      end in
    let! (results, summary) :=
      check_statutes text index citations cache (count_statute summary (sc_status check)) in
    ret (statute_result cited citation law check :: results, summary)
  end.

Definition case_pattern (case_number : str) : str :=
  u "(?:.*[^0-9])?" ++ fold_left push_escaped case_number [] ++ u "(?:[^0-9].*)?".

(** The test of one occurrence: the digits beside it *)
Definition stands_alone (line number : str) (at_ : Z) : result (stop ToolError) bool :=
  let? before := slice_to line at_ in
  let? after := slice_from line (at_ + slen number) in
  Ok (negb (opt_test is_ascii_digit (last before)) && negb (opt_test is_ascii_digit (head after))).

Fixpoint any_alone (line number : str) (indices : list Z) : result (stop ToolError) bool :=
  match indices with
  | [] => Ok false
  | at_ :: indices =>
    let? b := stands_alone line number at_ in
    if b then Ok true else any_alone line number indices
  end.

Definition contains_case_number (line number : str) : result (stop ToolError) bool :=
  any_alone line number (match_indices number line).

Definition case_match (hit : LineHit) : CaseRecordMatch :=
  {| cm_object := lh_object hit; cm_title := lh_title hit; cm_revision_id := lh_revision_id hit;
     cm_capture_id := lh_capture_id hit |}.

Fixpoint case_matches (number : str) (hits : list LineHit) (matches : list CaseRecordMatch)
  : result (stop ToolError) (list CaseRecordMatch) :=
  match hits with
  | [] => Ok matches
  | hit :: hits =>
    if negb (str_eqb (oid_jurisdiction (lh_object hit)) (corpus_code rp_jurisdiction))
    then case_matches number hits matches else
    let? b := contains_case_number (lh_text hit) number in
    if b && negb (has_object cm_object (lh_object hit) matches)
    then case_matches number hits (matches ++ [case_match hit])
    else case_matches number hits matches
  end.

Definition count_case (s : CitationSummary) (observed : bool) : CitationSummary :=
  {| su_verified := su_verified s; su_failed := su_failed s; su_unchecked := su_unchecked s;
     su_cases_observed := su_cases_observed s + (if observed then 1 else 0);
     su_cases_not_observed := su_cases_not_observed s + (if observed then 0 else 1) |}.

Fixpoint check_cases (text : str) (hits : list LineHit) (cases : list ExtractedCase) (summary : CitationSummary)
  : result (stop ToolError) (list CaseCitationResult * CitationSummary) :=
  match cases with
  | [] => Ok ([], summary)
  | case :: cases =>
    let? matches := case_matches (ec_case_number case) hits [] in
    let observed := negb (is_nil matches) in
    let? cited := slice text (ec_byte_start case) (ec_byte_end case) in
    let? (results, summary) := check_cases text hits cases (count_case summary observed) in
    Ok ({| cr_text := cited; cr_byte_start := ec_byte_start case; cr_byte_end := ec_byte_end case;
           cr_case_number := ec_case_number case;
           cr_status := if observed then Observed else CaseNotObserved; cr_matches := matches |} :: results,
        summary)
  end.

(** [CitationSummary::default()] *)
Definition summary_default : CitationSummary :=
  {| su_verified := 0; su_failed := 0; su_unchecked := 0; su_cases_observed := 0; su_cases_not_observed := 0 |}.

(** The laws of the citations and the index of the titles that they are looked up in *)
Definition cited_laws (statutes : list ExtractedStatute) : tool (list ChosenLaw * TitleIndex) :=
  let '(names, resolutions) := cited_names statutes ∅ in
  let! index := find_titles corpus names rp_statute_datasets in
  let looked_up : gset str := list_to_set (rp_name_key <$> names) in
  let '(chosen, pending, resolutions) := choose_laws (ti_matches index) looked_up None statutes resolutions in
  if is_nil pending then ret (chosen, index) else
  let! more := find_titles corpus pending rp_statute_datasets in
  let index :=
    {| ti_matches := ti_matches more ∪ ti_matches index;
       ti_corpus_complete := ti_corpus_complete index && ti_corpus_complete more |} in
  let looked_up := looked_up ∪ list_to_set (rp_name_key <$> pending) in
  ret ((choose_laws (ti_matches index) looked_up None statutes resolutions).1.1, index).

(** The body of [verify] once the jurisdiction is known *)
Definition verify_in (text : str) : tool CitationVerification :=
  if negb (valid_text text MAX_CITATION_TEXT_BYTES) then throw Tool.InvalidInput else
  let! extraction := pure (rp_extract_citations text) in
  let! (chosen, index) := cited_laws (ex_statutes extraction) in
  let! (statutes, summary) :=
    check_statutes text (ti_matches index) (zip (ex_statutes extraction) chosen) [] summary_default in
  let! (hits, complete) :=
    find_lines_tool corpus
      {| lq_section := u "case_number"; lq_datasets := rp_case_datasets; lq_object := None; lq_history := false |}
      (case_pattern ∘ ec_case_number <$> ex_cases extraction) in
  let! (cases, summary) := pure (check_cases text hits (ex_cases extraction) summary) in
  ret {| cv_jurisdiction := rp_jurisdiction; cv_statutes := statutes; cv_cases := cases;
         cv_summary := summary; cv_truncated := ex_truncated extraction;
         cv_corpus_complete := ti_corpus_complete index && complete |}.
End checks.

Definition verify `{CharTables} (corpus : Corpus) (selector_json : RevisionSelector -> str)
  (text : str) (jurisdiction : option str) : tool CitationVerification :=
  let! jurisdiction := arg (jurisdiction_arg jurisdiction) in
  verify_in corpus selector_json (profile_ := profile jurisdiction) text.
