(* ===== verification/CitationCheckFacts.v ===== *)
(** What a citation check promises: laws are chosen consistently and looked up before
    they are reported missing, every verdict is what a read of the corpus shows, and
    every citation is reported. *)

From S2P Require Import Prelude Utf8 Strings Domain Slices KrNames KrArticles KrScan KrCitations KrCitationsFacts Profile TextDiff Citation CitationTexts InForce Legal CorpusTitles CorpusTitlesFacts CitationCheck.

(** * The choice among retained objects *)

(** National statutes first, current titles next *)
Definition rank (m : TitleMatch) : Z :=
  (if bool_decide (oid_dataset (tm_object m) = NationalStatute) then 2 else 0)
  + (if bool_decide (tm_title_status m = Current) then 1 else 0).

Definition best (matches : list TitleMatch) : list TitleMatch :=
  List.filter (fun m => forallb (fun m' => rank m' <=? rank m) matches) matches.

Lemma filter_filter {A} (p q : A -> bool) l : List.filter p (List.filter q l) = List.filter (fun x => q x && p x) l.
Proof.
  induction l as [|x l IH]; cbn; [done|]. destruct (q x); cbn; [destruct (p x); by rewrite IH|done].
Qed.

Lemma filter_ext_in' {A} (p q : A -> bool) l : Forall (fun x => p x = q x) l -> List.filter p l = List.filter q l.
Proof. induction 1 as [|x l H _ IH]; cbn; [done|]. by rewrite H, IH. Qed.

Lemma filter_true {A} (l : list A) : List.filter (fun _ => true) l = l.
Proof. induction l; cbn; congruence. Qed.

Lemma is_nil_filter {A} (p : A -> bool) l : is_nil (List.filter p l) = negb (existsb p l).
Proof. induction l as [|x l IH]; cbn; [done|]. by destruct (p x). Qed.

Lemma existsb_none {A} (p : A -> bool) l x : existsb p l = false -> x ∈ l -> p x = false.
Proof.
  intros H Hx. destruct (p x) eqn:E; [|done]. exfalso. assert (K : existsb p l = true); [|congruence].
  apply existsb_exists. exists x. by rewrite <- list_elem_of_In.
Qed.

(** A match of the greatest rank [r] that occurs is one of rank [r]. *)
Lemma best_rank matches r :
  Forall (fun m => rank m <= r) matches -> existsb (fun m => rank m =? r) matches = true ->
  best matches = List.filter (fun m => rank m =? r) matches.
Proof.
  intros Hle (x & Hx%list_elem_of_In & Hr%Z.eqb_eq)%existsb_exists. apply filter_ext_in'.
  apply Forall_forall. intros m Hm. apply eq_true_iff_eq. rewrite forallb_forall, Z.eqb_eq. split.
  - intros H. apply list_elem_of_In in Hx. specialize (H x Hx). rewrite Forall_forall in Hle. specialize (Hle m Hm).
    apply Z.leb_le in H. lia.
  - intros <- m' Hm'%list_elem_of_In. rewrite Forall_forall in Hle. by apply Z.leb_le, Hle.
Qed.

(** The object that a name stands for is the one of greatest rank: a statute before
    the rules and ordinances of the same title, a current title before a former one.
    Without one such object the number of candidates of that rank is reported, zero
    exactly when nothing matched. *)
Lemma pick_match_best matches :
  pick_match matches = match best matches with [one] => Ok one | many => Err (zlen many) end.
Proof.
  unfold pick_match. set (statute := fun m => bool_decide (oid_dataset (tm_object m) = NationalStatute)).
  set (current := fun m => bool_decide (tm_title_status m = Current)).
  enough (best matches =
    let pool := if existsb statute matches then List.filter statute matches else matches in
    if is_nil (List.filter current pool) then pool else List.filter current pool) as -> by (cbv zeta; by destruct (if is_nil _ then _ else _) as [|? [|? ?]]).
  assert (Hrank : forall m, rank m = (if statute m then 2 else 0) + (if current m then 1 else 0)) by done.
  cbv zeta. rewrite !is_nil_filter. destruct (existsb statute matches) eqn:Es.
  - rewrite filter_filter. destruct (existsb current (List.filter statute matches)) eqn:Ec; cbn [negb].
    + rewrite (best_rank matches 3).
      * apply filter_ext_in', Forall_forall. intros m _. rewrite Hrank. by destruct (statute m), (current m).
      * apply Forall_forall. intros m _. rewrite Hrank. by destruct (statute m), (current m).
      * apply existsb_exists in Ec as (m & Hm & Hc). apply filter_In in Hm as [Hm Hs].
        apply existsb_exists. exists m. split; [done|]. by rewrite Hrank, Hs, Hc.
    + assert (Hno : forall m, m ∈ matches -> statute m && current m = false).
      { intros m Hm. destruct (statute m) eqn:E; [|done]. cbn. apply (existsb_none _ _ _ Ec), list_elem_of_In, filter_In.
        by rewrite <- list_elem_of_In. }
      rewrite (best_rank matches 2).
      * apply filter_ext_in', Forall_forall. intros m Hm%Hno. rewrite Hrank. by destruct (statute m), (current m).
      * apply Forall_forall. intros m Hm%Hno. rewrite Hrank. by destruct (statute m), (current m).
      * apply existsb_exists in Es as (m & Hm%list_elem_of_In & Hs). apply existsb_exists. exists m.
        rewrite <- list_elem_of_In. split; [done|]. apply Hno in Hm. rewrite Hrank, Hs in *. by destruct (current m).
  - destruct (existsb current matches) eqn:Ec; cbn [negb].
    + rewrite (best_rank matches 1).
      * apply filter_ext_in', Forall_forall. intros m Hm%(existsb_none _ _ _ Es). rewrite Hrank, Hm. by destruct (current m).
      * apply Forall_forall. intros m Hm%(existsb_none _ _ _ Es). rewrite Hrank, Hm. by destruct (current m).
      * apply existsb_exists in Ec as (m & Hm%list_elem_of_In & Hc). apply existsb_exists. exists m.
        rewrite <- list_elem_of_In. split; [done|]. apply (existsb_none _ _ _ Es) in Hm. by rewrite Hrank, Hm, Hc.
    + transitivity (List.filter (fun _ => true) matches); [|apply filter_true].
      apply filter_ext_in', Forall_forall. intros m Hm. apply forallb_forall. intros m' Hm'%list_elem_of_In.
      rewrite !Hrank, (existsb_none _ _ _ Es Hm), (existsb_none _ _ _ Es Hm'),
        (existsb_none _ _ _ Ec Hm), (existsb_none _ _ _ Ec Hm'). done.
Qed.

(** Something has the greatest rank. *)
Lemma best_nil matches : best matches = [] -> matches = [].
Proof.
  intros H. destruct matches as [|x l]; [done|]. exfalso.
  assert (Hmax : exists m, m ∈ x :: l /\ Forall (fun m' => rank m' <= rank m) (x :: l)).
  { clear H. revert x. induction l as [|y l IH]; intros x.
    - exists x. rewrite Forall_singleton. split; [by left|lia].
    - destruct (IH y) as (m & Hm & Hall). destruct (Z.le_gt_cases (rank x) (rank m)).
      + exists m. rewrite Forall_cons. split; [by right|done].
      + exists x. rewrite Forall_cons. split; [by left|]. split; [lia|].
        eapply Forall_impl; [exact Hall|]. cbn. lia. }
  destruct Hmax as (m & Hm & Hall). enough (Hin : m ∈ best (x :: l)) by (rewrite H in Hin; by apply elem_of_nil in Hin).
  apply list_elem_of_In, filter_In. split; [by apply list_elem_of_In|]. apply forallb_Forall.
  eapply Forall_impl; [exact Hall|]. cbn. intros. lia.
Qed.

(** * The choice of laws *)

Section laws.
Context {profile_ : ReferenceProfile}.

Definition resolved_key (name : str) : str := rp_name_key (ln_resolved (rp_resolve_law_name name)).
Definition law_key (r : LawNameResolution) : str := rp_name_key (ln_resolved r).

(** A memo holds nothing but resolutions. *)
Definition memo (cache : Resolutions) : Prop :=
  forall name r, cache !! name = Some r -> r = rp_resolve_law_name name.

(** [f] computes [a] whatever the memo holds. *)
Definition computes {A} (f : Resolutions -> A * Resolutions) (a : A) : Prop :=
  forall cache, memo cache -> exists cache', f cache = (a, cache') /\ memo cache'.

Lemma resolution_for_computes name :
  computes (fun cache => resolution_for cache name) (rp_resolve_law_name name).
Proof.
  intros cache H. unfold resolution_for. destruct (cache !! name) as [r|] eqn:E.
  - rewrite (H _ _ E). eauto.
  - eexists. split; [done|]. intros k r. destruct (decide (k = name)) as [->|Hne].
    + rewrite lookup_insert_eq. by intros [= <-].
    + rewrite lookup_insert_ne by done. apply H.
Qed.

Lemma computes_ret {A} (a : A) : computes (fun cache => (a, cache)) a.
Proof. intros cache H. eauto. Qed.

(** Follow the memo through the next resolution. *)
Ltac memo H :=
  match type of H with
  | computes ?f _ =>
    match goal with
    | Hc : memo ?c |- _ => let c' := fresh "cache" in let K := fresh "K" in
        destruct (H c Hc) as (c' & K & ?); cbn beta in K; rewrite K; clear K Hc
    end
  end.

(** The law of a citation, without a memo *)
Definition named_law (index : gmap str (list TitleMatch)) (article_start : Z) (candidates : list (str * Z))
  (generic_tail : bool) : ChosenLaw :=
  match List.find (fun c => is_some (index !! resolved_key c.1)) candidates with
  | Some (name, start) =>
    {| cl_name := name; cl_resolution := Some (rp_resolve_law_name name); cl_start := start;
       cl_inherited := false; cl_candidates := []; cl_unresolved := false |}
  | None =>
    let '(name, start) := default ([], article_start) (last candidates) in
    let bracketed := zlen candidates =? 1 in
    {| cl_name := name;
       cl_resolution := if generic_tail then None else Some (rp_resolve_law_name name);
       cl_start := if bracketed then start else article_start; cl_inherited := false;
       cl_candidates := if bracketed then [] else candidates.*1; cl_unresolved := generic_tail |}
  end.

Definition same_law (previous : option ChosenLaw) (suffix : option str) (start : Z) : ChosenLaw :=
  match previous with
  | Some previous =>
    if cl_unresolved previous then unnamed start else
    let name := match suffix with
      | Some suffix => rp_base_law_name (cl_name previous) ++ u " " ++ suffix
      | None => cl_name previous
      end in
    {| cl_name := name;
       cl_resolution := Some match suffix, cl_resolution previous with
         | None, Some r => r
         | _, _ => rp_resolve_law_name name
         end;
       cl_start := start; cl_inherited := true; cl_candidates := []; cl_unresolved := false |}
  | None => unnamed start
  end.

Definition continued_law (previous : option ChosenLaw) (start : Z) : ChosenLaw :=
  match previous with
  | Some p =>
    {| cl_name := cl_name p; cl_resolution := cl_resolution p; cl_start := start;
       cl_inherited := true; cl_candidates := cl_candidates p; cl_unresolved := cl_unresolved p |}
  | None => unnamed start
  end.

Definition law_of (index : gmap str (list TitleMatch)) (previous : option ChosenLaw) (c : ExtractedStatute) : ChosenLaw :=
  match es_law c with
  | Named candidates generic_tail => named_law index (es_article_start c) candidates generic_tail
  | Same suffix start => same_law previous suffix start
  | Continued => continued_law previous (es_article_start c)
  end.

(** Every citation takes its law from its own words or from the citation before. *)
Fixpoint laws_of (index : gmap str (list TitleMatch)) (previous : option ChosenLaw) (cs : list ExtractedStatute)
  : list ChosenLaw :=
  match cs with
  | [] => []
  | c :: cs => let law := law_of index previous c in law :: laws_of index (Some law) cs
  end.

(** The name that a reference to an earlier law leaves to be looked up *)
Definition pending_of (looked_up : gset str) (c : ExtractedStatute) (law : ChosenLaw) : list str :=
  match es_law c, cl_resolution law with
  | Same _ _, Some r => if bool_decide (law_key r ∈ looked_up) then [] else [ln_resolved r]
  | _, _ => []
  end.

Definition pendings (looked_up : gset str) (cs : list ExtractedStatute) (laws : list ChosenLaw) : list str :=
  concat (zip_with (pending_of looked_up) cs laws).

Lemma find_candidate_computes index candidates :
  computes (find_candidate index candidates)
    (List.find (fun c => is_some (index !! resolved_key c.1)) candidates).
Proof.
  induction candidates as [|[name start] candidates IH]; intros cache Hc; cbn [find_candidate List.find].
  - eauto.
  - memo (resolution_for_computes name). fold (resolved_key name). destruct (is_some _); [eauto|].
    by apply IH.
Qed.

Lemma choose_law_computes index looked_up previous c :
  computes (choose_law index looked_up previous c)
    (law_of index previous c, pending_of looked_up c (law_of index previous c)).
Proof.
  intros cache Hc. unfold choose_law, law_of, pending_of.
  destruct (es_law c) as [candidates generic_tail|suffix start|].
  - unfold choose_named, named_law. memo (find_candidate_computes index candidates).
    destruct (List.find _ candidates) as [[name start]|]; [memo (resolution_for_computes name); eauto|].
    destruct (default _ _) as [name start]. destruct generic_tail; [eauto|].
    memo (resolution_for_computes name). eauto.
  - unfold choose_same, same_law. destruct previous as [p|]; [|eauto].
    destruct (cl_unresolved p); [eauto|]. cbn [cl_resolution].
    destruct suffix as [suffix|]; [memo (resolution_for_computes (rp_base_law_name (cl_name p) ++ u " " ++ suffix)); eauto|].
    destruct (cl_resolution p); [eauto|]. memo (resolution_for_computes (cl_name p)). eauto.
  - eauto.
Qed.

Lemma choose_laws_computes index looked_up cs : forall previous,
  computes (choose_laws index looked_up previous cs)
    (laws_of index previous cs, pendings looked_up cs (laws_of index previous cs)).
Proof.
  induction cs as [|c cs IH]; intros previous cache Hc; cbn [choose_laws laws_of]; [eauto|].
  memo (choose_law_computes index looked_up previous c).
  memo (IH (Some (law_of index previous c))). eauto.
Qed.

(** The names that the statutes may mean *)
Definition names_of (cs : list ExtractedStatute) : list str :=
  cs ≫= (fun c => match es_law c with
    | Named candidates _ => (fun c => ln_resolved (rp_resolve_law_name c.1)) <$> candidates
    | _ => []
    end).

Lemma candidate_names_computes candidates :
  computes (candidate_names candidates) ((fun c => ln_resolved (rp_resolve_law_name c.1)) <$> candidates).
Proof.
  induction candidates as [|[name start] candidates IH]; intros cache Hc; cbn [candidate_names]; [eauto|].
  memo (resolution_for_computes name). memo IH. eauto.
Qed.

Lemma cited_names_computes cs : computes (cited_names cs) (names_of cs).
Proof.
  induction cs as [|c cs IH]; intros cache Hc; cbn [cited_names]; [eauto|].
  destruct (es_law c) as [candidates g|suffix start|] eqn:E; unfold names_of; cbn; rewrite E;
    [memo (candidate_names_computes candidates)| |]; memo IH; eauto.
Qed.

(** The index matters only for the names that the statutes may mean. *)
Lemma laws_of_index index index' cs :
  (forall name, name ∈ names_of cs -> is_some (index !! rp_name_key name) = is_some (index' !! rp_name_key name)) ->
  forall previous, laws_of index previous cs = laws_of index' previous cs.
Proof.
  induction cs as [|c cs IH]; intros H previous; cbn [laws_of]; [done|].
  enough (law_of index previous c = law_of index' previous c) as ->.
  { f_equal. apply IH. intros name Hn. apply H. unfold names_of. cbn. apply elem_of_app. by right. }
  unfold law_of. destruct (es_law c) as [candidates g|suffix start|] eqn:E; [|done..].
  unfold named_law. enough (List.find (fun c => is_some (index !! resolved_key c.1)) candidates
    = List.find (fun c => is_some (index' !! resolved_key c.1)) candidates) as -> by done.
  assert (Hc : forall x, x ∈ candidates ->
    is_some (index !! resolved_key x.1) = is_some (index' !! resolved_key x.1)).
  { intros x Hx. apply H. unfold names_of. cbn. rewrite E. apply elem_of_app. left.
    apply list_elem_of_fmap. by exists x. }
  clear - Hc. induction candidates as [|x candidates IH]; cbn [List.find]; [done|].
  rewrite Hc by (by left). destruct (is_some _); [done|]. apply IH. intros y Hy. apply Hc. by right.
Qed.

Definition keys (names : list str) : gset str := list_to_set (rp_name_key <$> names).

Lemma keys_elem names k : k ∈ keys names <-> k ∈ rp_name_key <$> names.
Proof. apply elem_of_list_to_set. Qed.

Lemma pendings_cons K c cs law laws :
  pendings K (c :: cs) (law :: laws) = pending_of K c law ++ pendings K cs laws.
Proof. done. Qed.

(** A resolved law has a resolution that was looked up, unless the name was too long
    to be one; an unresolved law has none. *)
Definition law_known (K : str -> Prop) (law : ChosenLaw) : Prop :=
  if cl_unresolved law then cl_resolution law = None
  else exists r, cl_resolution law = Some r /\ (K (law_key r) \/ r = rp_resolve_law_name []).

Lemma laws_known (index : gmap str (list TitleMatch)) (K : gset str) cs : forall previous,
  (forall name, name ∈ names_of cs -> rp_name_key name ∈ K) ->
  (forall p, previous = Some p -> law_known (.∈ K) p) ->
  pendings K cs (laws_of index previous cs) = [] ->
  Forall (law_known (.∈ K)) (laws_of index previous cs).
Proof.
  induction cs as [|c cs IH]; intros previous Hn Hp Hpend; cbn [laws_of]; [constructor|].
  cbn [laws_of] in Hpend. rewrite pendings_cons in Hpend. apply app_eq_nil in Hpend as [Hlaw Hrest].
  assert (Hk : law_known (.∈ K) (law_of index previous c)).
  { unfold law_of, pending_of in *. destruct (es_law c) as [candidates g|suffix start|] eqn:E.
    - assert (Hin : forall x, x ∈ candidates -> resolved_key x.1 ∈ K).
      { intros x Hx. apply Hn. unfold names_of. cbn. rewrite E. apply elem_of_app. left.
        apply list_elem_of_fmap. by exists x. }
      unfold named_law. destruct (List.find _ candidates) as [[name start]|] eqn:Ef.
      + eexists. split; [done|]. left. apply find_some in Ef as [Ef _].
        by apply (Hin (name, start)), list_elem_of_In.
      + destruct (last candidates) as [[name start]|] eqn:El; cbn [default]; destruct g; try done.
        * eexists. split; [done|]. left. apply last_Some in El as [l' ->]. apply (Hin (name, start)). set_solver.
        * eexists. split; [done|]. by right.
    - unfold same_law in *. destruct previous as [p|]; [|done]. destruct (cl_unresolved p) eqn:Eu; [done|].
      eexists. split; [done|]. left. cbn [cl_resolution] in Hlaw. by case_bool_decide.
    - unfold continued_law. destruct previous as [p|]; [|done]. by apply (Hp p). }
  constructor; [done|]. apply IH; [|by intros ? [= <-]|done].
  intros name Hname. apply Hn. unfold names_of. cbn. apply elem_of_app. by right.
Qed.

Lemma pendings_covered K K' cs laws :
  (forall r, r ∈ pendings K cs laws -> rp_name_key r ∈ K') -> K ⊆ K' -> pendings K' cs laws = [].
Proof.
  unfold pendings. revert laws. induction cs as [|c cs IH]; intros [|law laws] H Hsub; cbn in *; try done.
  rewrite (IH laws), app_nil_r; [|intros r Hr; apply H, elem_of_app; by right|done].
  unfold pending_of in *. destruct (es_law c); try done. destruct (cl_resolution law) as [r|]; [|done].
  destruct (bool_decide_reflect (law_key r ∈ K')) as [|Hn]; [done|]. destruct Hn.
  destruct (bool_decide_reflect (law_key r ∈ K)) as [Hin|_]; [by apply Hsub|].
  apply (H (ln_resolved r)), elem_of_app. left. set_solver.
Qed.

Lemma pendings_new K cs laws r : r ∈ pendings K cs laws -> rp_name_key r ∉ K.
Proof.
  unfold pendings. revert laws. induction cs as [|c cs IH]; intros [|law laws]; cbn; try by intros ?%elem_of_nil.
  intros [H|H]%elem_of_app; [|by eapply IH].
  unfold pending_of in H. destruct (es_law c); try by apply elem_of_nil in H.
  destruct (cl_resolution law); [|by apply elem_of_nil in H].
  case_bool_decide; [by apply elem_of_nil in H|].
  by apply list_elem_of_singleton in H as ->.
Qed.
End laws.

(** * Laws and the titles they are looked up in *)

Section verify.
Context (corpus : Corpus) (selector_json : RevisionSelector -> str) {profile_ : ReferenceProfile}.

Definition asked (names : list str) (key : str) : Prop := key <> [] /\ key ∈ rp_name_key <$> names.

Lemma titles_ok_union datasets names names' t t' :
  titles_ok corpus datasets (asked names') t' -> titles_ok corpus datasets (asked names) t ->
  titles_ok corpus datasets (asked (names ++ names')) (t' ∪ t).
Proof.
  intros H' H key l Hl. unfold asked. rewrite fmap_app.
  apply lookup_union_Some_raw in Hl as [Hl|[_ Hl]]; [destruct (H' _ _ Hl) as (? & [? ?] & ?)|destruct (H _ _ Hl) as (? & [? ?] & ?)];
    destruct_and!; split_and!; try done; apply elem_of_app; auto.
Qed.

(** The laws of the statutes, taken from the index that was read, with the names that
    were looked up for it *)
Definition laws_found (cs : list ExtractedStatute) (r : list ChosenLaw * TitleIndex) : Prop :=
  exists pending, r.1 = laws_of (ti_matches r.2) None cs /\
    titles_ok corpus rp_statute_datasets (asked (names_of cs ++ pending)) (ti_matches r.2) /\
    Forall (law_known (.∈ keys (names_of cs ++ pending))) r.1.

Lemma laws_of_names cs name : name ∈ names_of cs -> rp_name_key name ∈ keys (names_of cs).
Proof. intros Hn. apply keys_elem, list_elem_of_fmap. by exists name. Qed.

Lemma keys_app names names' : keys (names ++ names') = keys names ∪ keys names'.
Proof. apply set_eq. intros k. rewrite elem_of_union, !keys_elem, fmap_app. apply elem_of_app. Qed.

(** Nothing is pending when the first pass was enough. *)
Lemma first_pass index cs :
  let laws := laws_of index None cs in
  pendings (keys (names_of cs)) cs laws = [] -> Forall (law_known (.∈ keys (names_of cs))) laws.
Proof. intros laws H. apply laws_known; [apply laws_of_names|done|done]. Qed.

(** The second pass, on an index with the pending names, chooses as the first did and
    leaves nothing to be looked up. *)
Lemma second_pass index more cs :
  let laws := laws_of index None cs in
  let pending := pendings (keys (names_of cs)) cs laws in
  (forall key l, more !! key = Some l -> key ∈ rp_name_key <$> pending) ->
  laws_of (more ∪ index) None cs = laws /\
  Forall (law_known (.∈ keys (names_of cs ++ pending))) laws.
Proof.
  intros laws pending Hm.
  assert (Hsame : laws_of (more ∪ index) None cs = laws).
  { apply laws_of_index. intros name Hn. rewrite lookup_union.
    destruct (more !! rp_name_key name) as [l|] eqn:E; [|by destruct (index !! _)]. exfalso.
    apply Hm, list_elem_of_fmap in E as (r & Hk & Hr). apply pendings_new in Hr. destruct Hr. rewrite <- Hk.
    by apply laws_of_names. }
  split; [done|]. rewrite <- Hsame, keys_app. apply laws_known; [|done|].
  - intros name Hn. apply elem_of_union. left. by apply laws_of_names.
  - rewrite Hsame. apply (pendings_covered (keys (names_of cs))); [|set_solver].
    intros r Hr. apply elem_of_union. right. apply keys_elem, list_elem_of_fmap. by exists r.
Qed.

Lemma cited_laws_yields cs : yields (cited_laws corpus cs) (laws_found cs).
Proof.
  unfold cited_laws. destruct (cited_names_computes cs ∅) as (cache & -> & Hc); [by intros ? ?|].
  cbv zeta. eapply yields_bind; [apply find_titles_yields|]. intros index Hi. fold (keys (names_of cs)).
  destruct (choose_laws_computes (ti_matches index) (keys (names_of cs)) cs None cache Hc) as (cache' & -> & Hc').
  destruct (is_nil (pendings _ cs _)) eqn:Ep.
  { apply yields_ret. exists []. rewrite app_nil_r. split_and!; [done..|].
    apply first_pass. by destruct (pendings _ _ _). }
  eapply yields_bind; [apply find_titles_yields|]. intros more Hm. apply yields_ret. cbn [ti_matches].
  match goal with |- context [choose_laws _ ?K _ _ cache'] =>
    destruct (choose_laws_computes (ti_matches more ∪ ti_matches index) K cs None cache' Hc') as (cache'' & -> & _) end.
  destruct (second_pass (ti_matches index) (ti_matches more) cs) as [Hsame Hk].
  { intros key l Hl. by destruct (Hm _ _ Hl) as (_ & [_ ?] & _). }
  exists (pendings (keys (names_of cs)) cs (laws_of (ti_matches index) None cs)).
  split_and!; [done|by apply titles_ok_union|]. cbn [fst]. by rewrite Hsame.
Qed.

(** * Reads *)

(** The JSON of two selectors differs. *)
Context (selector_json_inj : forall a b, selector_json a = selector_json b -> a = b).

(** What a read of a capture answered, at some call *)
Definition answered (object : ObjectId) (selector : RevisionSelector) (answer : CachedRead) : Prop :=
  exists n, get corpus n object selector = answer.

(** At most eight reads are kept, none of them cancelled, each with its key. *)
Definition cache_ok (cache : CaptureCache) : Prop :=
  zlen cache <= MAX_CACHED_CAPTURES /\
  Forall (fun e => is_cancelled e.2 = false /\
    exists selector, e.1.2 = selector_json selector /\ answered e.1.1 selector e.2) cache.

Lemma cache_ok_nil : cache_ok [].
Proof. by split. Qed.

Lemma read_yields cache object selector :
  cache_ok cache ->
  yields (read corpus selector_json cache object selector)
    (fun r => answered object selector r.1 /\ cache_ok r.2).
Proof.
  intros [Hl Hc]. unfold read. destruct (List.find _ cache) as [[key cached]|] eqn:E.
  - apply find_some in E as [Hin Hk]. apply bool_decide_eq_true in Hk. cbn in Hk. subst key.
    apply list_elem_of_In in Hin. apply yields_ret. split; [|done].
    rewrite Forall_forall in Hc. destruct (Hc _ Hin) as (_ & s & Hs & Ha). by apply selector_json_inj in Hs as <-.
  - eapply yields_bind; [apply (yields_call _ (answered object selector)); intros n; by exists n|].
    intros answer Ha. destruct (is_cancelled answer) eqn:Ec; apply yields_ret; [by split|]. split; [done|]. cbn [snd].
    unfold cache_ok, MAX_CACHED_CAPTURES in *. split.
    + rewrite zlen_app. change (zlen [(object, selector_json selector, answer)]) with 1.
      destruct (Z.eqb_spec (zlen cache) 8); cbv iota; [|lia].
      destruct cache as [|x cache]; [done|]. change (drop 1 (x :: cache)) with cache. pose proof (zlen_cons x cache). lia.
    + apply Forall_app. split; [by destruct (_ =? _); [apply Forall_drop|]|].
      apply Forall_singleton. split; [done|]. by exists selector.
Qed.

(** * Verdicts *)

(** The capture of the chosen object that was read, and what the result says of it *)
Definition target_read (matches : list TitleMatch) (c : StatuteCheck) (target : TitleMatch) (capture : Capture) : Prop :=
  best matches = [target] /\
  answered (tm_object target) (target_selector target) (Ok capture) /\
  sc_object c = Some (tm_object target) /\ sc_law_title c = Some (tm_matched_title target) /\
  sc_law_title_status c = Some (tm_title_status target) /\
  sc_revision_id c = Some (lr_revision_id (cp_record capture)) /\
  sc_capture_id c = Some (cp_capture_id capture).

(** The article that was located in it *)
Definition article_read (matches : list TitleMatch) (citation : ExtractedStatute) (c : StatuteCheck)
  (article : LocatedArticle) : Prop :=
  exists target capture, target_read matches c target capture /\
    rp_locate_article (E := ToolError) (lr_sections (cp_record capture)) (es_article citation) = Ok (Found article) /\
    sc_paragraph_count c = max_by Z.leb (la_paragraphs article) /\
    sc_retained_article_title c = (if is_nil (la_title article) then None else Some (la_title article)).

(** The cited paragraph and subparagraph are in the article. *)
Definition cited_paragraph (article : LocatedArticle) (citation : ExtractedStatute) : Prop :=
  forall p, es_paragraph citation = Some p -> if is_nil (la_paragraphs article) then p = 1 else p ∈ la_paragraphs article.
Definition cited_subparagraph (article : LocatedArticle) (citation : ExtractedStatute) : Prop :=
  forall s, es_subparagraph citation = Some s ->
    rp_has_subparagraph (E := ToolError) article (es_paragraph citation) s = Ok true.
Definition title_similarity_of (article : LocatedArticle) (citation : ExtractedStatute) : option Z :=
  es_cited_title citation ≫= (fun cited => rp_title_similarity cited (la_title article)).

(** What each verdict says *)
Definition verdict (matches : list TitleMatch) (citation : ExtractedStatute) (c : StatuteCheck) : Prop :=
  match sc_status c with
  | LawNameUnresolved => False
  | LawNotObserved => matches = []
  | LawAmbiguous => 2 <= zlen (best matches) /\ sc_detail c = Some (show_Z (zlen (best matches)) ++ u "_objects")
  | Unavailable => exists target e, best matches = [target] /\ e <> Cancelled /\
      answered (tm_object target) (target_selector target) (Err e) /\ sc_detail c = Some (code e)
  | ArticleNotFound => exists target capture first last_, target_read matches c target capture /\
      rp_locate_article (E := ToolError) (lr_sections (cp_record capture)) (es_article citation)
        = Ok (KrArticles.NotFound first last_) /\ sc_article_range c = range first last_
  | ArticleDeleted => exists article, article_read matches citation c article /\ la_deleted article = true
  | ParagraphNotFound => exists article, article_read matches citation c article /\ la_deleted article = false /\
      ~ cited_paragraph article citation
  | SubparagraphNotFound => exists article, article_read matches citation c article /\ la_deleted article = false /\
      cited_paragraph article citation /\ ~ cited_subparagraph article citation
  | TitleMismatch => exists article n, article_read matches citation c article /\ la_deleted article = false /\
      cited_paragraph article citation /\ cited_subparagraph article citation /\
      title_similarity_of article citation = Some n /\ n < 50 /\ sc_title_similarity c = Some n
  | Verified => exists article, article_read matches citation c article /\ la_deleted article = false /\
      cited_paragraph article citation /\ cited_subparagraph article citation /\
      sc_title_similarity c = title_similarity_of article citation /\
      (forall n, sc_title_similarity c = Some n -> 50 <= n)
  end.

Lemma no_paragraph_spec article citation :
  if no_paragraph article (es_paragraph citation) then ~ cited_paragraph article citation
  else cited_paragraph article citation.
Proof.
  unfold no_paragraph, cited_paragraph. destruct (es_paragraph citation) as [p|]; cbn [opt_test]; [|done].
  destruct (is_nil _); cbn.
  - destruct (Z.eqb_spec p 1); cbn; [by intros ? [= <-]|naive_solver].
  - destruct (existsb (Z.eqb p) (la_paragraphs article)) eqn:E; cbn.
    + intros ? [= <-]. apply existsb_exists in E as (x & Hx & ->%Z.eqb_eq). by apply list_elem_of_In.
    + intros H. specialize (H p eq_refl). apply (existsb_none _ _ _ E) in H. lia.
Qed.

Context {profile_laws : ProfileLaws}.

Lemma no_subparagraph_spec article citation :
  exists b, no_subparagraph article citation = Ok b /\
    if b then ~ cited_subparagraph article citation else cited_subparagraph article citation.
Proof.
  unfold no_subparagraph, cited_subparagraph. destruct (es_subparagraph citation) as [s|]; [|by exists false].
  destruct (law_has_subparagraph (E := ToolError) article (es_paragraph citation) s) as [b Hb]. rewrite Hb.
  exists (negb b). split; [done|]. destruct b; cbn; [by intros ? [= <-]|]. intros H. specialize (H s eq_refl). congruence.
Qed.

Lemma judge_spec matches citation c target capture article :
  best matches = [target] -> answered (tm_object target) (target_selector target) (Ok capture) ->
  rp_locate_article (E := ToolError) (lr_sections (cp_record capture)) (es_article citation) = Ok (Found article) ->
  c = with_capture (with_target unchecked target) capture ->
  exists c', judge c article citation = Ok c' /\ verdict matches citation c'.
Proof.
  intros Hb Ha Hl ->.
  assert (Hread : forall sim status,
    article_read matches citation (located (with_capture (with_target unchecked target) capture) article sim status) article).
  { intros sim status. by exists target, capture. }
  unfold judge. destruct (la_deleted article) eqn:Ed; [eexists; split; [done|]; by exists article|].
  pose proof (no_paragraph_spec article citation) as Hp.
  destruct (no_paragraph _ _); [eexists; split; [done|]; by exists article|].
  destruct (no_subparagraph_spec article citation) as (b & -> & Hs).
  destruct b; [eexists; split; [done|]; by exists article|]. fold (title_similarity_of article citation).
  eexists. split; [done|]. unfold verdict. cbn [sc_status located].
  destruct (title_similarity_of article citation) as [n|] eqn:En; cbn [opt_test]; [destruct (Z.ltb_spec n TITLE_MATCH_THRESHOLD)|].
  - by exists article, n.
  - exists article. split_and!; try done. cbn [sc_title_similarity located]. by intros ? [= <-].
  - exists article. by split_and!.
Qed.

Lemma check_statute_yields cache matches citation :
  cache_ok cache ->
  yields (check_statute corpus selector_json cache matches citation)
    (fun r => verdict matches citation r.1 /\ cache_ok r.2).
Proof.
  intros Hc. unfold check_statute. rewrite pick_match_best. destruct (best matches) as [|target [|m l]] eqn:Eb.
  - apply yields_ret. split; [|done]. cbn. by apply best_nil.
  - eapply yields_bind; [by apply read_yields|]. intros [answer cache'] [Ha Hc']. cbn [fst snd] in *.
    destruct answer as [capture|e].
    + destruct (law_locate_article (E := ToolError) (lr_sections (cp_record capture)) (es_article citation))
        as (lookup & Hl & _).
      eapply yields_bind; [by apply (yields_pure _ lookup (eq lookup))|]. intros ? <-.
      destruct lookup as [article|first last_].
      * destruct (judge_spec matches citation _ target capture article Eb Ha Hl eq_refl) as (c' & Hj & Hv).
        eapply yields_bind; [by apply (yields_pure _ c' (eq c'))|]. intros ? <-. by apply yields_ret.
      * apply yields_ret. split; [|done]. exists target, capture, first, last_. by split_and!.
    + assert (He : e <> Cancelled -> verdict matches citation
        (with_status (with_target unchecked target) Unavailable (Some (code e)))) by (intros; by exists target, e).
      destruct e; try (apply yields_ret; split; [by apply He|done]). apply yields_throw.
  - rewrite !zlen_cons. pose proof (zlen_nonneg l). destruct (1 + (1 + zlen l)) eqn:Ez; [lia| |lia].
    apply yields_ret. split; [|done]. cbn. rewrite Eb, !zlen_cons, Ez. split; [lia|done].
Qed.

(** * Reports *)

Definition cut (text : str) (a b : Z) (t : str) : Prop := slice (E := ToolError) text a b = Ok t.

Lemma span_cut text a b :
  boundary text a -> boundary text b -> a < b -> exists t, cut text a b t.
Proof using Type.
  clear corpus selector_json selector_json_inj profile_laws.
  intros [ra Ha] [rb Hb] Hlt. destruct (at_suffix_order _ _ _ _ _ Ha Hb) as (m & ->); [lia|].
  exists m. by apply (at_suffix_between _ _ _ _ rb).
Qed.

(** A law begins at a boundary in front of the end of its citation. *)
Definition law_placed (text : str) (c : ExtractedStatute) (law : ChosenLaw) : Prop :=
  boundary text (cl_start law) /\ cl_start law < es_byte_end c.

Lemma law_of_placed text index previous c :
  statute_placed text c -> law_placed text c (law_of index previous c).
Proof using profile_.
  clear corpus selector_json selector_json_inj profile_laws.
  intros (Ha & He & Hlt & Hs).
  assert (Hstart : law_placed text c (unnamed (es_article_start c))) by done.
  assert (Hin : forall i, i ∈ law_starts (es_law c) -> boundary text i /\ i < es_byte_end c).
  { intros i Hi. rewrite Forall_forall in Hs. destruct (Hs i Hi). split; [done|lia]. }
  unfold law_of. destruct (es_law c) as [candidates g|suffix start|]; cbn [law_starts] in *.
  - unfold named_law. destruct (List.find _ candidates) as [[name start]|] eqn:E.
    + apply find_some in E as [E _]. apply Hin, list_elem_of_fmap. exists (name, start).
      by rewrite list_elem_of_In.
    + destruct (last candidates) as [[name start]|] eqn:El; cbn [default]; [|by destruct (_ =? _)].
      unfold law_placed. cbn [cl_start]. destruct (zlen candidates =? 1); [|done].
      apply last_Some in El as [l ->]. apply Hin, list_elem_of_fmap. exists (name, start). set_solver.
  - assert (law_placed text c (unnamed start)) as Hu by (apply (Hin start); by left).
    unfold same_law. destruct previous as [p|]; [|done]. by destruct (cl_unresolved p).
  - unfold continued_law. by destruct previous.
Qed.

Lemma laws_of_placed text index cs : forall previous,
  Forall (statute_placed text) cs -> Forall2 (law_placed text) cs (laws_of index previous cs).
Proof using profile_.
  clear corpus selector_json selector_json_inj profile_laws.
  induction cs as [|c cs IH]; intros previous H; cbn [laws_of]; [constructor|].
  apply Forall_cons in H as [Hc H]. constructor; [by apply law_of_placed|by apply IH].
Qed.

(** The verdict belongs to the retained objects of the resolved name; without a
    resolved name nothing was read. *)
Definition checked (index : gmap str (list TitleMatch)) (c : ExtractedStatute) (law : ChosenLaw)
  (check : StatuteCheck) : Prop :=
  match cl_unresolved law, cl_resolution law with
  | false, Some r => verdict (matches_of index r) c check
  | _, _ => check = unchecked
  end.

Definition reported (text : str) (index : gmap str (list TitleMatch)) (cl : ExtractedStatute * ChosenLaw)
  (r : StatuteCitationResult) : Prop :=
  exists check cited, cut text (cl_start cl.2) (es_byte_end cl.1) cited /\
    r = statute_result cited cl.1 cl.2 check /\ checked index cl.1 cl.2 check.

Definition failed_status (s : StatuteCitationStatus) : bool :=
  match s with
  | ArticleNotFound | ArticleDeleted | ParagraphNotFound | SubparagraphNotFound | TitleMismatch => true
  | _ => false
  end.
Definition verified_status (s : StatuteCitationStatus) : bool :=
  match s with Verified => true | _ => false end.

Definition count {A} (p : A -> bool) (l : list A) : Z := zlen (List.filter p l).

Lemma count_cons {A} (p : A -> bool) x l : count p (x :: l) = (if p x then 1 else 0) + count p l.
Proof. unfold count. cbn [List.filter]. destruct (p x); [by rewrite zlen_cons|lia]. Qed.

Definition reported_status (r : StatuteCitationResult) : StatuteCitationStatus := sc_status (sr_check r).

(** The summary after the statutes [rs] *)
Definition summed (s : CitationSummary) (rs : list StatuteCitationResult) : CitationSummary :=
  let statuses := reported_status <$> rs in
  {| su_verified := su_verified s + count verified_status statuses;
     su_failed := su_failed s + count failed_status statuses;
     su_unchecked := su_unchecked s + count (fun x => negb (verified_status x || failed_status x)) statuses;
     su_cases_observed := su_cases_observed s; su_cases_not_observed := su_cases_not_observed s |}.

Lemma summed_cons s r rs : summed (count_statute s (reported_status r)) rs = summed s (r :: rs).
Proof.
  unfold summed. rewrite fmap_cons, !count_cons. destruct (reported_status r); cbn [count_statute verified_status failed_status negb orb]; cbn; f_equal; lia.
Qed.

Lemma check_statutes_yields text index cls : forall cache summary,
  Forall (fun cl => exists t, cut text (cl_start cl.2) (es_byte_end cl.1) t) cls -> cache_ok cache ->
  yields (check_statutes corpus selector_json text index cls cache summary)
    (fun r => Forall2 (reported text index) cls r.1 /\ r.2 = summed summary r.1).
Proof.
  induction cls as [|[c law] cls IH]; intros cache summary Hcut Hc; cbn [check_statutes].
  { apply yields_ret. split; [constructor|]. destruct summary. unfold summed. cbn. by rewrite !Z.add_0_r. }
  apply Forall_cons in Hcut as [[t Ht] Hcut]. cbn [fst snd] in Ht.
  eapply yields_bind; [by apply (yields_pure _ t (eq t))|]. intros ? <-.
  eapply yields_bind with (mid := fun r => checked index c law r.1 /\ cache_ok r.2).
  { unfold checked. destruct (cl_unresolved law); [by apply yields_ret|].
    destruct (cl_resolution law); [by apply check_statute_yields|by apply yields_ret]. }
  intros [check cache'] [Hcheck Hc']. cbn [fst snd] in *.
  eapply yields_bind; [by apply IH|]. intros [rs s] [Hrs Hs]. cbn [fst snd] in *. apply yields_ret. cbn [fst snd].
  split; [constructor; [by exists check, t|done]|]. rewrite Hs. apply (summed_cons _ (statute_result t c law check)).
Qed.

(** * Cases *)

(** The number stands in the line with no digit beside it. *)
Definition stands_in (number line : str) : Prop :=
  exists x y, line = x ++ number ++ y /\
    opt_test is_ascii_digit (last x) = false /\ opt_test is_ascii_digit (head y) = false.

Lemma stands_alone_spec line number i :
  i ∈ match_indices number line ->
  exists b, stands_alone line number i = Ok b /\ (b = true -> stands_in number line).
Proof.
  intros (x & y & -> & <-)%match_indices_sound. unfold stands_alone. rewrite Z.add_0_l, slice_to_app.
  replace (slen x + slen number) with (slen (x ++ number)) by apply slen_app.
  assert (Ha : slice_from (x ++ number ++ y) (slen (x ++ number)) = @Ok (stop ToolError) _ y).
  { rewrite app_assoc. apply slice_from_app. }
  rewrite Ha. eexists. split; [done|].
  intros [H1 H2]%andb_true_iff. exists x, y. split; [done|]. by rewrite negb_true_iff in H1, H2.
Qed.

Lemma contains_case_number_spec line number :
  exists b, contains_case_number line number = Ok b /\ (b = true -> stands_in number line).
Proof.
  unfold contains_case_number.
  enough (H : forall l, (forall i, i ∈ l -> i ∈ match_indices number line) ->
    exists b, any_alone line number l = Ok b /\ (b = true -> stands_in number line)) by by apply H.
  intros l H.
  induction l as [|i l IH]; cbn [any_alone]; [by exists false|].
  destruct (stands_alone_spec line number i) as (b & -> & Hb); [apply H; by left|].
  destruct b; [by exists true|]. apply IH. intros j Hj. apply H. by right.
Qed.

(** A record at home whose line has the number *)
Definition case_hit (number : str) (hit : LineHit) : Prop :=
  oid_jurisdiction (lh_object hit) = corpus_code rp_jurisdiction /\
  contains_case_number (lh_text hit) number = Ok true.

(** The objects of the hits with the number, each once, for its first hit *)
Definition cases_of (number : str) (hits : list LineHit) (ms : list CaseRecordMatch) : Prop :=
  NoDup (cm_object <$> ms) /\
  Forall (fun m => exists hit, hit ∈ hits /\ case_hit number hit /\ m = case_match hit) ms /\
  (forall hit, hit ∈ hits -> case_hit number hit -> lh_object hit ∈ cm_object <$> ms).

Lemma cases_of_skip number done_ hit ms :
  (case_hit number hit -> lh_object hit ∈ cm_object <$> ms) ->
  cases_of number done_ ms -> cases_of number (done_ ++ [hit]) ms.
Proof.
  intros Hhit (Hn & Hf & Hc). split_and!; [done| |].
  - eapply Forall_impl; [exact Hf|]. intros m (h & Hh & ?). exists h. set_solver.
  - intros h [Hh| ->%list_elem_of_singleton]%elem_of_app; [by apply Hc|done].
Qed.

Lemma cases_of_push number done_ hit ms :
  case_hit number hit -> lh_object hit ∉ cm_object <$> ms ->
  cases_of number done_ ms -> cases_of number (done_ ++ [hit]) (ms ++ [case_match hit]).
Proof.
  intros Hhit Hnew (Hn & Hf & Hc). unfold cases_of. rewrite fmap_app.
  change (cm_object <$> [case_match hit]) with [lh_object hit]. split_and!.
  - apply NoDup_app. split_and!; [done| |apply NoDup_singleton]. by intros o Ho ->%list_elem_of_singleton.
  - apply Forall_app. split.
    + eapply Forall_impl; [exact Hf|]. intros m (h & Hh & ?). exists h. set_solver.
    + apply Forall_singleton. exists hit. split_and!; [set_solver|done|done].
  - intros h [Hh| ->%list_elem_of_singleton]%elem_of_app Hch; apply elem_of_app; [left; by apply Hc|right; by left].
Qed.

Lemma case_matches_spec number hits : forall done_ ms,
  cases_of number done_ ms ->
  exists ms', case_matches number hits ms = Ok ms' /\ cases_of number (done_ ++ hits) ms'.
Proof.
  induction hits as [|hit hits IH]; intros done_ ms H; cbn [case_matches].
  { exists ms. by rewrite app_nil_r. }
  replace (done_ ++ hit :: hits) with ((done_ ++ [hit]) ++ hits) by by rewrite <- app_assoc.
  destruct (str_eqb_spec (oid_jurisdiction (lh_object hit)) (corpus_code rp_jurisdiction)) as [Hj|Hj]; cbn [negb].
  2:{ apply IH, cases_of_skip; [by intros [? _]|done]. }
  destruct (contains_case_number_spec (lh_text hit) number) as (b & Hb & _). rewrite Hb.
  destruct b; cbn [andb]; [|apply IH, cases_of_skip; [intros [_ ?]; congruence|done]].
  destruct (has_object cm_object (lh_object hit) ms) eqn:Eo; cbn [negb]; apply IH.
  - apply cases_of_skip; [|done]. intros _. by apply has_object_elem.
  - apply cases_of_push; [done| |done]. intros K%has_object_elem. congruence.
Qed.

Definition case_reported (text : str) (hits : list LineHit) (c : ExtractedCase) (r : CaseCitationResult) : Prop :=
  cut text (ec_byte_start c) (ec_byte_end c) (cr_text r) /\ cr_text r = ec_case_number c /\
  cr_byte_start r = ec_byte_start c /\ cr_byte_end r = ec_byte_end c /\
  cr_case_number r = ec_case_number c /\ cases_of (ec_case_number c) hits (cr_matches r) /\
  cr_status r = if is_nil (cr_matches r) then CaseNotObserved else Observed.

Definition observed (r : CaseCitationResult) : bool := negb (is_nil (cr_matches r)).

Definition case_summed (s : CitationSummary) (rs : list CaseCitationResult) : CitationSummary :=
  {| su_verified := su_verified s; su_failed := su_failed s; su_unchecked := su_unchecked s;
     su_cases_observed := su_cases_observed s + count observed rs;
     su_cases_not_observed := su_cases_not_observed s + count (negb ∘ observed) rs |}.

Lemma check_cases_spec text hits cases : forall summary,
  Forall (case_ok text) cases ->
  exists rs, check_cases text hits cases summary = Ok (rs, case_summed summary rs) /\
    Forall2 (case_reported text hits) cases rs.
Proof.
  induction cases as [|c cases IH]; intros summary H; cbn [check_cases].
  { exists []. split; [|constructor]. unfold case_summed. cbn. rewrite !Z.add_0_r. by destruct summary. }
  apply Forall_cons in H as [(post & H1 & H2 & _) H].
  destruct (case_matches_spec (ec_case_number c) hits [] []) as (ms & -> & Hms).
  { split_and!; [constructor|constructor|by intros ? ?%elem_of_nil]. }
  pose proof (at_suffix_between (E := ToolError) _ _ _ _ _ H1 H2) as Hcut. rewrite Hcut.
  destruct (IH (count_case summary (negb (is_nil ms))) H) as (rs & -> & Hrs).
  eexists. split; [|constructor; [|exact Hrs]].
  - do 2 f_equal. unfold case_summed. rewrite !count_cons. unfold observed, compose. cbn [cr_matches count_case].
    cbn. destruct (is_nil ms); cbn; f_equal; lia.
  - unfold case_reported. cbn. split_and!; try done. by destruct (is_nil ms).
Qed.

(** * The whole check *)

(** What a verification of [text] reports: every extracted citation in order, with the
    span it was cut from, the counts of the verdicts, and nothing else. *)
Definition verified_text (text : str) (v : CitationVerification) : Prop :=
  exists extraction laws index hits complete,
    rp_extract_citations (E := ToolError) text = Ok extraction /\
    laws_found (ex_statutes extraction) (laws, index) /\
    Forall2 (reported text (ti_matches index)) (zip (ex_statutes extraction) laws) (cv_statutes v) /\
    length laws = length (ex_statutes extraction) /\
    Forall (hit_of corpus (u "case_number") rp_case_datasets false) hits /\
    Forall2 (case_reported text hits) (ex_cases extraction) (cv_cases v) /\
    cv_summary v = case_summed (summed summary_default (cv_statutes v)) (cv_cases v) /\
    cv_truncated v = ex_truncated extraction /\
    cv_corpus_complete v = ti_corpus_complete index && complete.

Lemma laws_of_length index cs : forall previous, length (laws_of index previous cs) = length cs.
Proof. induction cs as [|c cs IH]; intros previous; cbn; [done|]. by rewrite IH. Qed.

(** The text of every citation, with the name of its law, is a slice. *)
Lemma laws_cut text index cs :
  Forall (statute_placed text) cs ->
  Forall (fun cl => exists t, cut text (cl_start cl.2) (es_byte_end cl.1) t) (zip cs (laws_of index None cs)).
Proof using profile_.
  clear corpus selector_json selector_json_inj profile_laws.
  intros Hs. pose proof (laws_of_placed text index cs None Hs) as Hp.
  apply Forall_forall. intros [c law] Hin. rewrite Forall2_lookup in Hp.
  apply list_elem_of_lookup in Hin as [i Hi]. apply lookup_zip_Some in Hi as [Hc Hl].
  specialize (Hp i). rewrite Hc, Hl in Hp. inversion Hp as [? ? [Hb Hlt]|]; subst.
  rewrite Forall_lookup in Hs. destruct (Hs _ _ Hc) as (_ & He & _). by apply span_cut.
Qed.

Lemma verify_in_yields text : yields (verify_in corpus selector_json text) (verified_text text).
Proof.
  unfold verify_in. destruct (negb _); [apply yields_throw|].
  destruct (law_extract (E := ToolError) text) as (ex & Hex & Hs & Hcs).
  eapply yields_bind; [by apply (yields_pure _ ex (eq ex))|]. intros ? <-.
  eapply yields_bind; [apply cited_laws_yields|]. intros [laws index] Hlaws.
  pose proof Hlaws as (pending & Heq & _). cbn [fst snd] in Heq.
  eapply yields_bind.
  { apply check_statutes_yields; [|apply cache_ok_nil]. rewrite Heq. by apply laws_cut. }
  intros [statutes summary] [Hst Hsum]. cbn [fst snd] in *.
  eapply yields_bind; [apply find_lines_tool_yields|]. intros [hits complete] [Hh _]. cbn [fst] in Hh.
  destruct (check_cases_spec text hits (ex_cases ex) summary Hcs) as (cases & Hc & Hcases).
  eapply yields_bind; [by apply (yields_pure _ _ (eq (cases, case_summed summary cases)) Hc)|]. intros ? <-.
  apply yields_ret. exists ex, laws, index, hits, complete. cbn. split_and!; try done.
  - by rewrite Heq, laws_of_length.
  - by rewrite <- Hsum.
Qed.
End verify.
