(* ===== verification/CitationCheckProperties.v ===== *)
(** The promises of citation checks for the profiles of the repository. *)

From S2P Require Import Prelude Utf8 Strings Domain Slices KrNames KrArticles KrScan KrCitations KrCitationsFacts Profile TextDiff Citation InForce Legal CorpusTitles CorpusTitlesFacts CitationCheck CitationCheckFacts KrExamples.

(** * Titles and laws *)

Section laws.
Context (corpus : Corpus) {profile_ : ReferenceProfile}.

(** A lookup of titles ends with an index or an error. Every key of the index is
    the key of a name that was asked for and has a match; an object occurs once for a
    key; every match is a hit of a search in the jurisdiction, with a title of that key;
    and a match is called former only if it was found among former titles and the
    metadata of the head did not confirm it. *)
Theorem find_titles_sound names datasets n :
  answers (find_titles corpus names datasets n) /\
  forall index n', find_titles corpus names datasets n = Ok (index, n') ->
    titles_ok corpus datasets (asked names) (ti_matches index).
Proof. apply yields_answers, find_titles_yields. Qed.

(** The laws of the citations are chosen from titles that were looked up. Every
    name that the citations may mean is looked up, and then the names that references
    to an earlier law stand for. The laws are those that the citations denote in the
    index of both lookups, as if no resolution were memoized, and every law that has a
    name was looked up, so that it is reported missing only after a search; the one
    exception is a name too long to be a candidate, which resolves the empty name. *)
Theorem laws_looked_up cs n laws index n' :
  cited_laws corpus cs n = Ok ((laws, index), n') ->
  exists pending first n1,
    find_titles corpus (names_of cs) rp_statute_datasets n = Ok (first, n1) /\
    pending = pendings (keys (names_of cs)) cs (laws_of (ti_matches first) None cs) /\
    match pending with
    | [] => index = first /\ n' = n1
    | _ => exists second, find_titles corpus pending rp_statute_datasets n1 = Ok (second, n') /\
        ti_matches index = ti_matches second ∪ ti_matches first /\
        ti_corpus_complete index = ti_corpus_complete first && ti_corpus_complete second
    end /\
    laws = laws_of (ti_matches index) None cs /\
    Forall (law_known (.∈ keys (names_of cs ++ pending))) laws.
Proof.
  unfold cited_laws. destruct (cited_names_computes cs ∅) as (cache & -> & Hc); [by intros ? ?|].
  cbv zeta. unfold bind at 1. pose proof (find_titles_yields corpus (names_of cs) rp_statute_datasets n) as Hfirst.
  destruct (find_titles _ _ _ n) as [[first n1]|]; [|done]. fold (keys (names_of cs)).
  destruct (choose_laws_computes (ti_matches first) (keys (names_of cs)) cs None cache Hc) as (cache' & -> & Hc').
  intros Hrun. eexists _, first, n1. split; [done|]. split; [done|].
  pose proof (first_pass (ti_matches first) cs) as H1.
  pose proof (second_pass (ti_matches first)) as H2.
  specialize (fun more => H2 more cs). cbv zeta in H1, H2.
  destruct (pendings _ cs _) as [|name pending]; cbn [is_nil] in Hrun.
  { injection Hrun as <- <- <-. rewrite app_nil_r. auto. }
  unfold bind at 1 in Hrun.
  pose proof (find_titles_yields corpus (name :: pending) rp_statute_datasets n1) as Hsecond.
  destruct (find_titles _ _ _ n1) as [[second n2]|]; [|done].
  destruct (H2 (ti_matches second)) as [Hsame Hk].
  { intros key l Hl. by destruct (Hsecond _ _ Hl) as (_ & [_ ?] & _). }
  cbn [ti_matches] in Hrun. match type of Hrun with context [choose_laws ?t ?K _ _ cache'] =>
    destruct (choose_laws_computes t K cs None cache' Hc') as (cache'' & E & _); rewrite E in Hrun end.
  injection Hrun as <- <- <-. cbn [ti_matches]. split; [by exists second|]. split; [done|]. by rewrite Hsame.
Qed.
End laws.

(** * Verification *)

Section verification.
Context `{CharTables} (corpus : Corpus) (selector_json : RevisionSelector -> str).
Context (selector_json_inj : forall a b, selector_json a = selector_json b -> a = b).

Lemma verify_yields text jurisdiction :
  yields (verify corpus selector_json text jurisdiction) (verified_text corpus (profile_ := KOREA) text).
Proof.
  unfold verify. eapply yields_bind with (mid := fun _ => True).
  { unfold arg. destruct (jurisdiction_arg jurisdiction); [by apply yields_ret|apply yields_throw]. }
  intros [] _. apply verify_in_yields; [done|apply KOREA_laws].
Qed.

(** A statute of the extraction and its report *)
Definition statute_reported (text : str) (c : ExtractedStatute) (r : StatuteCitationResult) : Prop :=
  slice (E := ToolError) text (sr_byte_start r) (sr_byte_end r) = Ok (sr_text r) /\
  sr_byte_end r = es_byte_end c /\ sr_article r = show_article (es_article c) /\
  sr_paragraph r = es_paragraph c /\ sr_subparagraph r = es_subparagraph c /\
  sr_cited_article_title r = es_cited_title c.

Definition case_listed (text : str) (c : ExtractedCase) (r : CaseCitationResult) : Prop :=
  slice (E := ToolError) text (cr_byte_start r) (cr_byte_end r) = Ok (ec_case_number c) /\
  cr_text r = ec_case_number c /\ cr_case_number r = ec_case_number c /\
  cr_byte_start r = ec_byte_start c /\ cr_byte_end r = ec_byte_end c.

(** The counts of the verdicts *)
Definition summary_exact (v : CitationVerification) : Prop :=
  cv_summary v =
    {| su_verified := count verified_status (reported_status <$> cv_statutes v);
       su_failed := count failed_status (reported_status <$> cv_statutes v);
       su_unchecked :=
         count (fun x => negb (verified_status x || failed_status x)) (reported_status <$> cv_statutes v);
       su_cases_observed := count observed (cv_cases v);
       su_cases_not_observed := count (negb ∘ observed) (cv_cases v) |}.

(** C15. Whatever the services answer, a verification returns a result or an error of
    the tool; it never panics. A result reports every citation that the extraction
    lists, in their order, each with the text of its own span, and its summary counts
    exactly the verdicts reported. *)
Theorem verify_reports text jurisdiction n :
  answers (verify corpus selector_json text jurisdiction n) /\
  forall v n', verify corpus selector_json text jurisdiction n = Ok (v, n') ->
    exists extraction, extract_citations (E := ToolError) text = Ok extraction /\
      Forall2 (statute_reported text) (ex_statutes extraction) (cv_statutes v) /\
      Forall2 (case_listed text) (ex_cases extraction) (cv_cases v) /\
      summary_exact v /\ cv_truncated v = ex_truncated extraction.
Proof.
  destruct (yields_answers _ n _ (verify_yields text jurisdiction)) as [Ha Hv]. split; [done|].
  intros v n' Hrun. destruct (Hv _ _ Hrun) as (ex & laws & index & hits & complete & Hex & _ & Hst & Hlen & _ & Hcs & Hsum & Ht & _).
  exists ex. split_and!; [done| | | |done].
  - clear - Hst Hlen. revert laws Hlen Hst. generalize (cv_statutes v). induction (ex_statutes ex) as [|c cs IH];
      intros rs [|law laws] Hlen Hst; cbn in *; try done; inversion Hst as [|? r ? rs' Hr Hrs]; subst; constructor.
    + destruct Hr as (check & cited & Hcut & -> & _). unfold statute_reported. cbn. by split_and!.
    + by eapply IH; [injection Hlen|].
  - eapply Forall2_impl; [exact Hcs|]. intros c r (Hcut & Ht' & Hs & He & Hn & _).
    unfold case_listed. rewrite Hs, He. split_and!; try done. by rewrite <- Ht'.
  - unfold summary_exact. rewrite Hsum. unfold case_summed, summed. cbn. done.
Qed.

(** The verdict about one statute: none without a resolved name, and otherwise what
    the retained objects of that name show *)
Definition judged (index : gmap str (list TitleMatch)) (c : ExtractedStatute) (r : StatuteCitationResult) : Prop :=
  match sr_resolution r with
  | None => sr_check r = unchecked
  | Some resolution => verdict corpus (profile_ := KOREA) (matches_of index resolution) c (sr_check r)
  end.

Lemma reported_judged text index c law r K :
  law_known (profile_ := KOREA) K law -> reported corpus (profile_ := KOREA) text index (c, law) r -> judged index c r.
Proof.
  intros Hk (check & cited & _ & -> & Hc). unfold judged, checked, law_known in *. cbn in *.
  destruct (cl_unresolved law); [by rewrite Hk|].
  destruct Hk as (resolution & Hr & _). rewrite Hr in *. exact Hc.
Qed.

(** C14. Every verdict of a verification is what the corpus shows. The retained objects of
    a name are titles that the search answered, with the key of the name, each once. A
    citation is verified only if exactly one object has the greatest rank, a capture of
    it was read, its article was located and is not deleted, the cited paragraph and
    subparagraph are in it, and a cited title is at least half similar; it fails a check
    only if that check fails in the capture that was read; it is not observed, ambiguous
    or unavailable only if no object, several of the same rank, or an error of the read
    say so. *)
Theorem verdicts_genuine text jurisdiction n v n' :
  verify corpus selector_json text jurisdiction n = Ok (v, n') ->
  exists extraction names index, extract_citations (E := ToolError) text = Ok extraction /\
    titles_ok corpus (profile_ := KOREA) [NationalStatute] (asked (profile_ := KOREA) names) index /\
    Forall2 (judged index) (ex_statutes extraction) (cv_statutes v).
Proof.
  intros Hrun. destruct (yields_answers _ n _ (verify_yields text jurisdiction)) as [_ Hv].
  destruct (Hv _ _ Hrun) as (ex & laws & index & hits & complete & Hex & Hfound & Hst & Hlen & _).
  destruct Hfound as (pending & _ & Ht & Hk). exists ex, (names_of (profile_ := KOREA) (ex_statutes ex) ++ pending), (ti_matches index).
  split_and!; [done..|]. cbn [fst] in Hk. revert Hk. generalize (keys (profile_ := KOREA) (names_of (profile_ := KOREA) (ex_statutes ex) ++ pending)).
  intros K Hk. clear - Hst Hlen Hk. revert laws Hlen Hst Hk. generalize (cv_statutes v).
  induction (ex_statutes ex) as [|c cs IH]; intros rs [|law laws] Hlen Hst Hk; cbn in *; try done;
    inversion Hst as [|? r ? rs' Hr Hrs]; subst; [constructor|].
  apply Forall_cons in Hk as [Hk Hks]. constructor; [by eapply reported_judged|].
  apply (IH rs' laws); [by injection Hlen|exact Hrs|exact Hks].
Qed.
End verification.

(** * Witnesses *)

#[local] Existing Instance example_tables.

(** A corpus with one statute, whose capture has a few articles, and one decision *)
Definition sample_object (dataset : Dataset) (id : string) : ObjectId :=
  {| oid_jurisdiction := u "kr"; oid_provider := u "law_go_kr"; oid_dataset := dataset; oid_id := u id |}.

Definition sample_hit (dataset : Dataset) (title text : string) : LineHit :=
  {| lh_object := sample_object dataset "1"; lh_title := u title; lh_revision_id := u "r1";
     lh_capture_id := u "c1"; lh_text := u text |}.

Definition sample_capture : Capture :=
  {| cp_capture_id := u "c1";
     cp_record := {| lr_object := sample_object NationalStatute "1"; lr_revision_id := u "r1";
       lr_title := u "시험법"; lr_body := []; lr_metadata := ∅; lr_publication_date := None;
       lr_effective_date := None; lr_source_url := []; lr_representation := []; lr_sections := rule_capture |} |}.

Definition sample_corpus : Corpus :=
  {| search _ q _ _ :=
       Ok {| lp_hits := if str_eqb (lq_section q) (u "title") then [sample_hit NationalStatute "시험법" "시험법"]
                        else [sample_hit Precedent "판결" "2007다27670 판결"];
             lp_next_cursor := None; lp_corpus_complete := true |};
     get _ _ _ := Ok sample_capture;
     get_metadata _ _ _ := Err NotFound;
     history _ _ _ := Err NotFound |}.

Definition sample_json (s : RevisionSelector) : str :=
  match s with
  | Head => [0] | Revision id => 1 :: id | PublicationDate d => 2 :: d
  | EffectiveDate d => 3 :: d | CaptureSelector id => 4 :: id
  end.

Lemma sample_json_inj a b : sample_json a = sample_json b -> a = b.
Proof. by destruct a, b; intros [=]; subst. Qed.

Definition sample_text : str :=
  u "「시험법」 제9-5조 제1항, 같은 법 시행령 제3조 및 「없는법」 제1조. 2007다27670".

(** The statuses and the cases that a verification of the sample reports *)
Example sample_verification :
  match verify sample_corpus sample_json sample_text None 0%nat with
  | Ok (v, _) =>
    (reported_status <$> cv_statutes v, cr_status <$> cv_cases v,
     (su_verified (cv_summary v), su_unchecked (cv_summary v)))
    = ([Verified; LawNotObserved; LawNotObserved], [Observed], (1, 2))
  | Err _ => False
  end.
Proof. vm_compute. reflexivity. Qed.

Lemma is_ok_runs {A} (r : result (stop ToolError) (A * nat)) : is_ok r = true -> exists a n, r = Ok (a, n).
Proof. destruct r as [[a n]|]; [eauto|done]. Qed.

Definition sample_statutes : list ExtractedStatute :=
  [{| es_law := Named [(u "시험법", 3)] false; es_article := art 1 None; es_article_start := 16;
      es_byte_end := 23; es_paragraph := None; es_subparagraph := None; es_cited_title := None |};
   {| es_law := Same (Some (u "시행령")) 24; es_article := art 2 None; es_article_start := 40;
      es_byte_end := 47; es_paragraph := None; es_subparagraph := None; es_cited_title := None |}].

Lemma find_titles_sound_witness :
  exists index n', find_titles sample_corpus (profile_ := KOREA) [u "시험법"] [NationalStatute] 0%nat = Ok (index, n') /\
    titles_ok sample_corpus (profile_ := KOREA) [NationalStatute] (asked (profile_ := KOREA) [u "시험법"]) (ti_matches index).
Proof.
  destruct (is_ok_runs (find_titles sample_corpus (profile_ := KOREA) [u "시험법"] [NationalStatute] 0%nat))
    as (index & n' & E); [vm_compute; reflexivity|].
  exists index, n'. split; [exact E|].
  exact (proj2 (find_titles_sound sample_corpus (profile_ := KOREA) _ _ _) index n' E).
Defined.

Lemma laws_looked_up_witness :
  exists laws index n',
    cited_laws sample_corpus (profile_ := KOREA) sample_statutes 0%nat = Ok ((laws, index), n') /\
    laws = laws_of (profile_ := KOREA) (ti_matches index) None sample_statutes.
Proof.
  destruct (is_ok_runs (cited_laws sample_corpus (profile_ := KOREA) sample_statutes 0%nat)) as ([laws index] & n' & E);
    [vm_compute; reflexivity|].
  exists laws, index, n'. split; [exact E|].
  destruct (laws_looked_up sample_corpus (profile_ := KOREA) _ _ _ _ _ E) as (pending & first & n1 & _ & _ & _ & Hl & _).
  exact Hl.
Defined.

Abbreviation sample_run := (verify sample_corpus sample_json sample_text None 0%nat).

Lemma verify_reports_witness :
  exists v n', sample_run = Ok (v, n') /\ summary_exact v /\ zlen (cv_statutes v) = 3.
Proof.
  destruct (is_ok_runs sample_run) as (v & n' & E); [vm_compute; reflexivity|].
  destruct (verify_reports sample_corpus sample_json sample_json_inj sample_text None 0%nat) as [_ Hv].
  destruct (Hv v n' E) as (ex & Hex & Hst & _ & Hsum & _). exists v, n'. split_and!; [exact E|exact Hsum|].
  unfold zlen. rewrite <- (Forall2_length _ _ _ Hst). vm_compute in Hex. injection Hex as <-. reflexivity.
Defined.

Lemma verdicts_genuine_witness :
  exists v n' index c r, sample_run = Ok (v, n') /\ head (cv_statutes v) = Some r /\
    judged sample_corpus index c r.
Proof.
  destruct (is_ok_runs sample_run) as (v & n' & E); [vm_compute; reflexivity|].
  destruct (verdicts_genuine sample_corpus sample_json sample_json_inj sample_text None 0%nat v n' E)
    as (ex & names & index & Hex & _ & Hj).
  vm_compute in Hex. injection Hex as <-. destruct (cv_statutes v) as [|r rs] eqn:Ev; [inversion Hj|].
  apply Forall2_cons in Hj as [Hcr _]. eexists v, n', index, _, r. rewrite Ev. split_and!; [exact E|done|exact Hcr].
Defined.

(** * Case numbers *)

(** An occurrence that overlaps an earlier one is not seen: the matches of a pattern do
    not overlap. *)
Lemma overlapping_number_missed :
  stands_in (u "2007다2") (u "2007다2007다2") /\
  contains_case_number (u "2007다2007다2") (u "2007다2") = Ok false.
Proof.
  split; [|vm_compute; reflexivity]. exists (u "2007다"), []. split_and!; vm_compute; reflexivity.
Qed.
