(* ===== verification/InForceTool.v ===== *)
(** Selection of the revision in force at a date, for a law or an object:
    [in_force_at] of [apps/server/src/legal_reference.rs]. *)

From S2P Require Import Prelude Utf8 Strings Domain Legal TextDiff Citation InForce InForceFacts Slices KrNames KrArticles KrCitations KrExamples Profile CorpusTitles CorpusTitlesFacts CitationCheck CitationCheckFacts CitationCheckProperties.

(** * Contracts of [crates/domain/src/legal_reference.rs] *)

Record ArticleText := {
  at_revision_id : str; at_capture_id : str; at_title : str; at_text : str;
  at_truncated : bool; at_deleted : bool;
}.

Record ArticleAtDate := {
  aa_article : str; aa_at_date : option ArticleText; aa_head : option ArticleText;
  aa_changed_since : option bool;
}.

Record InForceInput := {
  ii_object : option ObjectId; ii_law_name : option str; ii_date : str; ii_article : option str;
  ii_compare_date : option str; ii_jurisdiction : option str;
}.

Record InForceResult := {
  ir_jurisdiction : option Jurisdiction; ir_object : ObjectId; ir_law_title : str;
  ir_resolution : option LawNameResolution; ir_selection : InForceSelection;
  ir_article : option ArticleAtDate; ir_compare : option InForceSelection;
  ir_diff_before : option RevisionSelector; ir_diff_after : option RevisionSelector;
}.

(** * Selections *)

(** A selection with what the metadata of the selected revision adds *)
Definition with_warning (s : InForceSelection) (warning : str) : InForceSelection :=
  {| if_date := if_date s; if_status := if_status s; if_selected := if_selected s;
     if_same_effective_date := if_same_effective_date s; if_next_change := if_next_change s;
     if_later_provision_dates := if_later_provision_dates s; if_warnings := if_warnings s ++ [warning] |}.

Definition with_capture_id (c : RevisionChoice) (id : str) : RevisionChoice :=
  {| rc_revision_id := rc_revision_id c; rc_capture_id := Some id;
     rc_effective_date := rc_effective_date c; rc_publication_date := rc_publication_date c |}.

Definition with_selected (s : InForceSelection) (c : RevisionChoice) (later : list str) : InForceSelection :=
  {| if_date := if_date s; if_status := if_status s; if_selected := Some c;
     if_same_effective_date := if_same_effective_date s; if_next_change := if_next_change s;
     if_later_provision_dates := later; if_warnings := if_warnings s |}.

Section tools.
Context (corpus : Corpus).

Definition selection_for (object : ObjectId) (entries : list HistoryEntry) (complete : bool) (date : str)
  : tool InForceSelection :=
  let selection := select_in_force entries complete date in
  match if_selected selection with
  | None => ret selection
  | Some selected =>
    let! answer := call (fun n => get_metadata corpus n object (Revision (rc_revision_id selected))) in
    match answer with
    | Ok metadata =>
      let selected := with_capture_id selected (mr_capture_id metadata) in
      match mr_metadata metadata !! u "provision_effective_dates" with
      | Some dates =>
        let later := later_dates dates date in
        let selection := with_selected selection selected later in
        ret (if is_nil later then selection else with_warning selection (u "provision_dates_after_date"))
      | None => ret (with_selected selection selected (if_later_provision_dates selection))
      end
    | Err Legal.Cancelled => throw Tool.Unavailable
    | Err error => ret (with_warning selection (u "selected_metadata_" ++ code error))
    end
  end.

(** [ReferenceLookup::revisions], its errors mapped; it reads at most twenty pages, and
    the calls that follow have later numbers. *)
Definition revisions_tool (object : ObjectId) : tool (list HistoryEntry * bool) :=
  fun n =>
    match revisions (fun k => history corpus (n + k) object) with
    | Ok r => Ok (r, (n + Z.to_nat MAX_REVISION_PAGES)%nat)
    | Err e => Err (Error (map_error e))
    end.

Definition same_text (a b : str) : bool := bool_decide (split_whitespace a = split_whitespace b).

Definition article_text (profile_ : ReferenceProfile) (read : Capture) (wanted : ArticleNumber)
  : result (stop ToolError) (option ArticleText) :=
  let? lookup := rp_locate_article (lr_sections (cp_record read)) wanted in
  match lookup with
  | KrArticles.NotFound _ _ => Ok None
  | Found article =>
    let? end_ := align_down 3 (la_text article) (Z.min (slen (la_text article)) ARTICLE_TEXT_LIMIT) in
    let? text := slice_to (la_text article) end_ in
    Ok (Some {| at_revision_id := lr_revision_id (cp_record read); at_capture_id := cp_capture_id read;
                at_title := la_title article; at_text := text;
                at_truncated := end_ <? slen (la_text article); at_deleted := la_deleted article |})
  end.

Context (selector_json : RevisionSelector -> str).

(** The jurisdiction whose rules apply: of the argument, of the object, or the default *)
Definition in_force_jurisdiction (input : InForceInput) : result ToolError (option Jurisdiction) :=
  match ii_jurisdiction input, ii_object input with
  | Some code, object =>
    let? jurisdiction := jurisdiction_arg (Some code) in
    if opt_test (fun o => negb (str_eqb (oid_jurisdiction o) (corpus_code jurisdiction))) object
    then Err Tool.InvalidInput else Ok (Some jurisdiction)
  | None, Some object => Ok (from_corpus_code (oid_jurisdiction object))
  | None, None => Ok (Some DEFAULT)
  end.

Context `{CharTables}.

Definition in_force_profile (jurisdiction : option Jurisdiction) (article : option str)
  : result ToolError (option ReferenceProfile) :=
  match jurisdiction, article with
  | Some jurisdiction, _ => Ok (Some (profile jurisdiction))
  | None, Some _ => Err Tool.UnsupportedJurisdiction
  | None, None => Ok None
  end.

Definition wanted_article (article : option str) (p : option ReferenceProfile)
  : tool (option ArticleNumber) :=
  match article, p with
  | Some value, Some p =>
    let! number := pure (rp_parse_article_number (ReferenceProfile := p) value) in
    match number with Some number => ret (Some number) | None => throw Tool.InvalidInput end
  | _, _ => ret None
  end.

Definition in_force_object (input : InForceInput) (p : option ReferenceProfile)
  : tool (ObjectId * option LawNameResolution) :=
  match p with
  | Some p =>
    resolve_object corpus (profile_ := p) (ii_object input) (ii_law_name input)
      (rp_statute_datasets (ReferenceProfile := p))
  | None =>
    match ii_object input with Some object => ret (object, None) | None => throw Tool.InvalidInput end
  end.

(** The title of the head, or of the selected revision when the head cannot be read *)
Definition in_force_title (object : ObjectId) (head : CachedRead) (selection : InForceSelection)
  (cache : CaptureCache) : tool (str * CaptureCache) :=
  match head with
  | Ok head => ret (lr_title (cp_record head), cache)
  | Err error =>
    match if_selected selection with
    | Some selected =>
      let! (answer, cache) := read corpus selector_json cache object (Revision (rc_revision_id selected)) in
      match answer with
      | Ok r => ret (lr_title (cp_record r), cache)
      | Err e => throw (map_error e)
      end
    | None => throw (map_error error)
    end
  end.

Definition text_of_read (p : ReferenceProfile) (answer : CachedRead) (wanted : ArticleNumber)
  : tool (option ArticleText) :=
  match answer with Ok r => pure (article_text p r wanted) | Err _ => ret None end.

Definition in_force_article (object : ObjectId) (head : CachedRead) (selection : InForceSelection)
  (cache : CaptureCache) (article : option ArticleNumber) (p : option ReferenceProfile)
  : tool (option ArticleAtDate) :=
  match article, p with
  | Some wanted, Some p =>
    let! at_date :=
      match if_selected selection with
      | Some selected =>
        let! (answer, _) := read corpus selector_json cache object (Revision (rc_revision_id selected)) in
        text_of_read p answer wanted
      | None => ret None
      end in
    let! head := text_of_read p head wanted in
    ret (Some {| aa_article := rp_format_article (ReferenceProfile := p) wanted;
                 aa_at_date := at_date; aa_head := head;
                 aa_changed_since :=
                   match at_date, head with
                   | Some a, Some b => Some (negb (same_text (at_text a) (at_text b)))
                   | _, _ => None
                   end |})
  | _, _ => ret None
  end.

(** The selectors of a comparison, the earlier date first *)
Definition diff_selectors (date : str) (selection : InForceSelection) (compare_date : option str)
  (compare : option InForceSelection) : option RevisionSelector * option RevisionSelector :=
  match compare, compare_date with
  | Some other, Some other_date =>
    match if_selected selection, if_selected other with
    | Some a, Some b =>
      let '(before, after) := if str_leb date other_date then (a, b) else (b, a) in
      (Some (Revision (rc_revision_id before)), Some (Revision (rc_revision_id after)))
    | _, _ => (None, None)
    end
  | _, _ => (None, None)
  end.

Definition input_refused (input : InForceInput) : bool :=
  negb (valid_date (ii_date input))
  || opt_test (fun d => negb (valid_date d)) (ii_compare_date input)
  || Bool.eqb (is_some (ii_object input)) (is_some (ii_law_name input)).

Definition in_force_at (input : InForceInput) : tool InForceResult :=
  if input_refused input then throw Tool.InvalidInput else
  let! jurisdiction := arg (in_force_jurisdiction input) in
  let! p := arg (in_force_profile jurisdiction (ii_article input)) in
  let! article := wanted_article (ii_article input) p in
  let! (object, resolution) := in_force_object input p in
  let! _ := arg (match object_validate object with Ok _ => Ok tt | Err e => Err (map_error e) end) in
  if negb (has_provider_revisions (oid_dataset object)) then throw Tool.UnsupportedHistory else
  let! (entries, complete) := revisions_tool object in
  let! selection := selection_for object entries complete (ii_date input) in
  let! compare :=
    match ii_compare_date input with
    | Some date => let! s := selection_for object entries complete date in ret (Some s)
    | None => ret None
    end in
  let! head := call (fun n => get corpus n object Head) in
  if is_cancelled head then throw Tool.Unavailable else
  let! (law_title, cache) := in_force_title object head selection [] in
  let! article := in_force_article object head selection cache article p in
  let '(diff_before, diff_after) := diff_selectors (ii_date input) selection (ii_compare_date input) compare in
  ret {| ir_jurisdiction := jurisdiction; ir_object := object; ir_law_title := law_title;
         ir_resolution := resolution; ir_selection := selection; ir_article := article;
         ir_compare := compare; ir_diff_before := diff_before; ir_diff_after := diff_after |}.
End tools.

(** * What the tool answers

    What the selection of a revision by date promises. *)

(** * Provision dates *)

Lemma set_insert_elem x d l :
  valid_date x = true -> Forall (fun y => valid_date y = true) l -> d ∈ set_insert x l <-> d = x \/ d ∈ l.
Proof.
  intros Hx. induction 1 as [|y l Hy _ IH]; cbn [set_insert]; [set_solver|].
  destruct (str_cmp x y) eqn:E.
  - apply date_cmp_eq in E as ->; [set_solver|done|done].
  - set_solver.
  - rewrite !elem_of_cons, IH. tauto.
Qed.

(** The later dates are the valid dates among the digit runs that lie behind the date. *)
Definition provision_date (value date d : str) : Prop :=
  d ∈ digit_runs [] value /\ valid_date d = true /\ str_leb d date = false.

Lemma later_dates_spec value date d : d ∈ later_dates value date <-> provision_date value date d.
Proof.
  unfold later_dates, provision_date. generalize (digit_runs [] value). intros runs.
  enough (H : forall found, Forall (fun y => valid_date y = true) found ->
    d ∈ fold_left (fun found run =>
      if (slen run =? 8) && valid_date run && negb (str_leb run date) then set_insert run found else found) runs found
    <-> d ∈ found \/ (d ∈ runs /\ valid_date d = true /\ str_leb d date = false)).
  { rewrite (H []); [set_solver|constructor]. }
  induction runs as [|run runs IH]; intros found Hf; cbn [fold_left]; [set_solver|].
  assert (Hrun : (slen run =? 8) && valid_date run && negb (str_leb run date) = valid_date run && negb (str_leb run date)).
  { destruct (valid_date run) eqn:Ev; [|by rewrite andb_false_r].
    unfold valid_date in Ev. destruct (slen run =? 8); done. }
  rewrite Hrun. destruct (valid_date run && negb (str_leb run date)) eqn:E.
  - apply andb_true_iff in E as [Hv Hl]. apply negb_true_iff in Hl. rewrite IH, set_insert_elem, elem_of_cons; [|done|done|].
    + naive_solver.
    + apply Forall_forall. intros y [->|Hy]%set_insert_elem; try done. by eapply Forall_forall in Hf.
  - rewrite IH, elem_of_cons by done. apply andb_false_iff in E. rewrite negb_false_iff in E. naive_solver congruence.
Qed.

Section tools.
Context (corpus : Corpus).

(** * Selections *)

(** The selection of a date with what one read of the metadata of the selected revision
    adds to it *)
Definition selection_of (object : ObjectId) (entries : list HistoryEntry) (complete : bool) (date : str)
  (s : InForceSelection) : Prop :=
  let pure_ := select_in_force entries complete date in
  if_date s = date /\ if_status s = if_status pure_ /\
  if_same_effective_date s = if_same_effective_date pure_ /\ if_next_change s = if_next_change pure_ /\
  match if_selected pure_ with
  | None => s = pure_
  | Some c => exists n, match get_metadata corpus n object (Revision (rc_revision_id c)) with
      | Ok m => if_selected s = Some (with_capture_id c (mr_capture_id m)) /\
          (forall d, d ∈ if_later_provision_dates s <->
             exists dates, mr_metadata m !! u "provision_effective_dates" = Some dates /\ provision_date dates date d) /\
          if_warnings s = if_warnings pure_ ++
            (if is_nil (if_later_provision_dates s) then [] else [u "provision_dates_after_date"])
      | Err e => e <> Legal.Cancelled /\ if_selected s = Some c /\ if_later_provision_dates s = [] /\
          if_warnings s = if_warnings pure_ ++ [u "selected_metadata_" ++ code e]
      end
  end.

Lemma select_date entries complete date : if_date (select_in_force entries complete date) = date.
Proof. unfold select_in_force. by destruct (max_by _ _). Qed.

Lemma select_later entries complete date : if_later_provision_dates (select_in_force entries complete date) = [].
Proof. unfold select_in_force. by destruct (max_by _ _). Qed.

Lemma selection_for_yields object entries complete date :
  yields (selection_for corpus object entries complete date) (selection_of object entries complete date).
Proof.
  unfold selection_for, selection_of. set (s := select_in_force entries complete date).
  assert (Hd : if_date s = date) by apply select_date.
  destruct (if_selected s) as [c|] eqn:Es; [|by apply yields_ret].
  eapply yields_bind; [apply (yields_call _ (fun a => exists n, a = get_metadata corpus n object (Revision (rc_revision_id c)))); eauto|].
  intros answer [n Hn]. destruct answer as [m|e].
  - destruct (mr_metadata m !! _) as [dates|] eqn:Em; apply yields_ret.
    + assert (Hl : forall d, d ∈ later_dates dates date <->
        exists dates', Some dates = Some dates' /\ provision_date dates' date d).
      { intros d. rewrite later_dates_spec. naive_solver. }
      destruct (is_nil (later_dates dates date)) eqn:En; (split; [exact Hd|split_and!; try reflexivity]);
        exists n; rewrite <- Hn, Em; cbn [with_warning with_selected if_selected if_later_provision_dates if_warnings];
        rewrite En; split_and!; try reflexivity; try exact Hl. by rewrite app_nil_r.
    + split; [exact Hd|]. split_and!; try reflexivity. exists n. rewrite <- Hn, Em.
      cbn [with_selected if_selected if_later_provision_dates if_warnings]. unfold s. rewrite select_later. cbn [is_nil].
      rewrite app_nil_r. split_and!; [reflexivity| |reflexivity]. set_solver.
  - assert (Hl : if_later_provision_dates s = []) by apply select_later.
    destruct e; try apply yields_throw; apply yields_ret; (split_and!; [done..|]); exists n; by rewrite <- Hn.
Qed.

(** * The object *)

Context (selector_json : RevisionSelector -> str).

(** The object that was given, or the one of the greatest rank among the titles that
    were found for the name *)
Definition object_of `{ReferenceProfile} (object : option ObjectId) (law_name : option str) (datasets : list Dataset)
  (r : ObjectId * option LawNameResolution) : Prop :=
  object_validate r.1 = Ok tt /\
  match object, law_name with
  | Some o, None => r = (o, None)
  | None, Some name => exists index m,
      titles_ok corpus datasets (asked [ln_resolved (rp_resolve_law_name name)]) index /\
      best (matches_of index (rp_resolve_law_name name)) = [m] /\
      r = (tm_object m, Some (rp_resolve_law_name name))
  | _, _ => False
  end.

Lemma resolve_object_yields `{ReferenceProfile} object law_name datasets :
  yields (resolve_object corpus object law_name datasets) (object_of object law_name datasets).
Proof.
  unfold resolve_object. eapply yields_bind with (mid := fun r => match object, law_name with
    | Some o, None => r = (o, None)
    | None, Some name => exists index m,
        titles_ok corpus datasets (asked [ln_resolved (rp_resolve_law_name name)]) index /\
        best (matches_of index (rp_resolve_law_name name)) = [m] /\
        r = (tm_object m, Some (rp_resolve_law_name name))
    | _, _ => False
    end).
  - destruct object as [o|], law_name as [name|]; try apply yields_throw; [by apply yields_ret|].
    destruct (negb _); [apply yields_throw|].
    eapply yields_bind; [apply find_titles_yields|]. intros index Hi. rewrite pick_match_best.
    fold (matches_of (ti_matches index) (rp_resolve_law_name name)).
    destruct (best _) as [|m [|? l]] eqn:Eb; [apply yields_throw|by apply yields_ret; exists (ti_matches index), m|].
    rewrite !zlen_cons. pose proof (zlen_nonneg l). destruct (1 + (1 + zlen l)) eqn:Ez; [lia|apply yields_throw|lia].
  - intros [o resolution] Hr. cbn. destruct (object_validate o) as [[]|] eqn:Ev; [|apply yields_throw].
    by apply yields_ret.
Qed.

(** * Texts of articles *)

(** The beginning of an article of a capture: all of it, or as many whole characters as
    16 KiB hold *)
Definition excerpt (capture : Capture) (article : LocatedArticle) (t : ArticleText) : Prop :=
  exists rest,
    la_text article = at_text t ++ rest /\ slen (at_text t) <= ARTICLE_TEXT_LIMIT /\
    (if at_truncated t then rest <> [] /\ ARTICLE_TEXT_LIMIT - 3 <= slen (at_text t) else rest = []) /\
    at_title t = la_title article /\ at_deleted t = la_deleted article /\
    at_revision_id t = lr_revision_id (cp_record capture) /\ at_capture_id t = cp_capture_id capture.

(** The text that a read gives: none when the read failed or its capture has no such
    article, and an excerpt of the article otherwise *)
Definition shown `{ReferenceProfile} (answer : CachedRead) (wanted : ArticleNumber) (o : option ArticleText) : Prop :=
  match answer with
  | Err _ => o = None
  | Ok capture => exists lookup,
      rp_locate_article (E := ToolError) (lr_sections (cp_record capture)) wanted = Ok lookup /\
      match lookup with
      | KrArticles.NotFound _ _ => o = None
      | Found article => exists t, o = Some t /\ excerpt capture article t
      end
  end.

Lemma article_text_spec (p : ReferenceProfile) (laws : @ProfileLaws p) capture wanted :
  exists o, article_text p capture wanted = Ok o /\ shown (Ok capture) wanted o.
Proof.
  unfold article_text, shown. destruct (law_locate_article (E := ToolError) (lr_sections (cp_record capture)) wanted)
    as (lookup & Hl & _). rewrite Hl. destruct lookup as [article|].
  2: { exists None. split; [done|]. by eexists. }
  destruct (align_piece (E := ToolError) ARTICLE_TEXT_LIMIT [] (la_text article)) as (m & b & Hm & _ & Hlen & Hb & Ha & _);
    [done|].
  cbn [app slen] in Ha. rewrite !Z.add_0_l in Ha. rewrite (Z.min_comm (slen (la_text article))), Ha.
  rewrite Hm, slice_to_app. eexists. split; [done|]. eexists. split; [done|]. eexists. split; [done|].
  exists b. cbn [at_text at_truncated at_title at_deleted at_revision_id at_capture_id].
  split_and!; try done. rewrite slen_app. destruct b as [|c b].
  - cbn. by rewrite Z.add_0_r, Z.ltb_irrefl.
  - pose proof (slen_cons_pos c b). rewrite (proj2 (Z.ltb_lt _ _)) by lia. split; [done|]. by apply Hb.
Qed.

Lemma text_of_read_yields (p : ReferenceProfile) (laws : @ProfileLaws p) answer wanted :
  yields (text_of_read p answer wanted) (shown answer wanted).
Proof.
  unfold text_of_read. destruct answer as [capture|]; [|by apply yields_ret].
  destruct (article_text_spec p laws capture wanted) as (o & Ho & Ht).
  by apply (yields_pure _ o).
Qed.

(** * The whole tool *)

Context `{CharTables}.

Definition selected_revision (s : InForceSelection) : option RevisionSelector :=
  (fun c => Revision (rc_revision_id c)) <$> if_selected s.

(** What the tool has read: the head, and the selected revision when there is one *)
Record reads_of (object : ObjectId) (selection : InForceSelection) (head : CachedRead)
  (selected : option CachedRead) : Prop := {
  ro_head : answered corpus object Head head;
  ro_live : is_cancelled head = false;
  ro_selected : match selected_revision selection, selected with
    | Some s, Some answer => answered corpus object s answer
    | None, None => True
    | _, _ => False
    end;
}.

(** The title of the head, or of the selected revision when the head could not be read *)
Definition title_of (head : CachedRead) (selected : option CachedRead) (title : str) : Prop :=
  match head with
  | Ok capture => title = lr_title (cp_record capture)
  | Err _ => exists capture, selected = Some (Ok capture) /\ title = lr_title (cp_record capture)
  end.

(** The article, when one was asked for: its texts at the date and at the head are there
    exactly when the reads have them, and are compared up to whitespace *)
Definition article_of (head : CachedRead) (selected : option CachedRead) (article : option str)
  (o : option ArticleAtDate) : Prop :=
  match article with
  | None => o = None
  | Some value => exists wanted a,
      parse_article_number (E := ToolError) value = Ok (Some wanted) /\ o = Some a /\
      aa_article a = show_article wanted /\
      match selected with
      | Some answer => shown (H := KOREA) answer wanted (aa_at_date a)
      | None => aa_at_date a = None
      end /\
      shown (H := KOREA) head wanted (aa_head a) /\
      aa_changed_since a = match aa_at_date a, aa_head a with
        | Some x, Some y => Some (negb (bool_decide (split_whitespace (at_text x) = split_whitespace (at_text y))))
        | _, _ => None
        end
  end.

(** The cache of one call holds at most the read of the selected revision. *)
Definition cache_of (object : ObjectId) (selection : InForceSelection) (selected : option CachedRead)
  (cache : CaptureCache) : Prop :=
  cache = [] \/ exists s answer, selected_revision selection = Some s /\ selected = Some answer /\
    cache = [((object, selector_json s), answer)].

Lemma read_once object selection selected cache s answer n :
  cache_of object selection selected cache -> selected_revision selection = Some s ->
  (cache = [] -> answer = get corpus n object s) -> (cache <> [] -> selected = Some answer) ->
  exists cache' n', read corpus selector_json cache object s n = Ok ((answer, cache'), n').
Proof.
  intros [->|(s' & a & Hs' & Ha & ->)] Hs Hnil Hcons; unfold read; cbn.
  - unfold bind, call. rewrite Hnil by done. destruct (is_cancelled _); by eexists _, _.
  - assert (s' = s) as -> by congruence. assert (a = answer) as -> by (specialize (Hcons ltac:(done)); congruence).
    rewrite bool_decide_true by done. by eexists _, _.
Qed.

(** The title, and which read of the selected revision the article will show *)
Lemma in_force_title_yields object head selection :
  answered corpus object Head head -> is_cancelled head = false ->
  yields (in_force_title corpus selector_json object head selection [])
    (fun r => exists selected, reads_of object selection head selected /\ title_of head selected r.1 /\
       cache_of object selection selected r.2 /\ (r.2 = [] -> exists c, head = Ok c)).
Proof.
  intros Hh Hc. unfold in_force_title, cache_of, selected_revision. destruct head as [capture|e].
  { apply yields_ret. destruct (if_selected selection) as [c|] eqn:Es.
    - exists (Some (get corpus 0 object (Revision (rc_revision_id c)))). split_and!; [|done|by left|eauto].
      constructor; [done|done|]. unfold selected_revision. rewrite Es. by exists 0%nat.
    - exists None. split_and!; [|done|by left|eauto]. constructor; [done|done|].
      unfold selected_revision. by rewrite Es. }
  destruct (if_selected selection) as [c|] eqn:Es; [|apply yields_throw].
  set (s := Revision (rc_revision_id c)).
  eapply yields_bind with (mid := fun r => answered corpus object s r.1 /\
    (is_cancelled r.1 = false -> r.2 = [((object, selector_json s), r.1)])).
  { unfold read. cbn. eapply yields_bind; [apply (yields_call _ (answered corpus object s)); intros n; by exists n|].
    intros answer Ha. destruct (is_cancelled answer) eqn:Ea; apply yields_ret; cbn; [|done]. split; [done|congruence]. }
  intros [answer cache] [Ha Hcache]. cbn [fst snd] in *. destruct answer as [capture|]; [|apply yields_throw].
  specialize (Hcache eq_refl). subst cache. apply yields_ret. exists (Some (Ok capture)). cbn [fst snd]. split_and!.
  - constructor; [done|done|]. unfold selected_revision. by rewrite Es.
  - by exists capture.
  - right. by exists s, (Ok capture).
  - done.
Qed.

(** The article of the reads that gave the title: a head that was read leaves the choice
    of the read of the selected revision to the article. *)
Lemma in_force_article_yields object head selection selected cache article value p title :
  (forall q, p = Some q -> q = KOREA) -> reads_of object selection head selected -> title_of head selected title ->
  cache_of object selection selected cache -> (cache = [] -> exists c, head = Ok c) ->
  match value, article with
  | Some v, Some w => parse_article_number (E := ToolError) v = Ok (Some w) /\ is_some p = true
  | None, None => True
  | _, _ => False
  end ->
  yields (in_force_article corpus selector_json object head selection cache article p)
    (fun o => exists selected, reads_of object selection head selected /\ title_of head selected title /\
       article_of head selected value o).
Proof.
  intros Hp Hr Ht Hc Hnil Hw. unfold in_force_article. destruct value as [v|], article as [wanted|]; try done.
  2: { apply yields_ret. by exists selected. }
  destruct Hw as [Hparse Hsome]. destruct p as [q|]; [|done]. rewrite (Hp q eq_refl) in *.
  eapply yields_bind with (mid := fun o => exists selected, reads_of object selection head selected /\
    title_of head selected title /\
    match selected with Some answer => shown (H := KOREA) answer wanted o | None => o = None end).
  { destruct (if_selected selection) as [c|] eqn:Es.
    2: { assert (selected = None) as ->.
         { destruct Hr as [_ _ Hs]. unfold selected_revision in Hs. rewrite Es in Hs. cbn in Hs. by destruct selected. }
         apply yields_ret. by exists None. }
    assert (Hsel : selected_revision selection = Some (Revision (rc_revision_id c))).
    { unfold selected_revision. by rewrite Es. }
    eapply yields_bind with (mid := fun r => exists selected, reads_of object selection head selected /\
      title_of head selected title /\ selected = Some r.1).
    { intros n. destruct (decide (cache = [])) as [Hn|Hn].
      - destruct (read_once object selection selected cache _ (get corpus n object (Revision (rc_revision_id c))) n Hc Hsel)
          as (cache' & n' & ->); [done|done|]. destruct (Hnil Hn) as [hc ->].
        exists (Some (get corpus n object (Revision (rc_revision_id c)))).
        split_and!; [|exact Ht|done]. destruct Hr. constructor; [done|done|]. rewrite Hsel. by exists n.
      - assert (Ha : exists answer, selected = Some answer).
        { destruct Hc as [?|(? & answer & _ & ? & _)]; [done|by exists answer]. }
        destruct Ha as [answer ->].
        destruct (read_once object selection (Some answer) cache _ answer n Hc Hsel) as (cache' & n' & ->); [done|done|].
        by exists (Some answer). }
    intros [answer cache'] (sel & Hr' & Ht' & ->). cbn [fst].
    eapply yields_weaken; [apply text_of_read_yields, KOREA_laws|]. intros o Ho. by exists (Some answer). }
  intros at_date (sel & Hr' & Ht' & Hat). eapply yields_bind; [apply text_of_read_yields, KOREA_laws|].
  intros ht Hht. apply yields_ret. exists sel. split_and!; [done|done|]. exists wanted. eexists. by split_and!.
Qed.

(** The selected revisions of the two dates, the earlier date first *)
Definition diff_of (date : str) (selection : InForceSelection) (compare_date : option str)
  (compare : option InForceSelection) (diff : option RevisionSelector * option RevisionSelector) : Prop :=
  match compare_date, compare with
  | Some other_date, Some other =>
    match selected_revision selection, selected_revision other with
    | Some a, Some b => diff = if str_leb date other_date then (Some a, Some b) else (Some b, Some a)
    | _, _ => diff = (None, None)
    end
  | _, _ => diff = (None, None)
  end.

Lemma diff_selectors_ok date selection compare_date compare :
  diff_of date selection compare_date compare (diff_selectors date selection compare_date compare).
Proof.
  unfold diff_of, diff_selectors, selected_revision. destruct compare as [other|], compare_date as [d|]; try done.
  destruct (if_selected selection), (if_selected other); try done. by destruct (str_leb date d).
Qed.

Lemma yields_arg {A} (r : result ToolError A) (post : A -> Prop) :
  (forall a, r = Ok a -> post a) -> yields (arg r) post.
Proof. intros Hr. destruct r as [a|]; [by apply yields_ret, Hr|apply yields_throw]. Qed.

Lemma wanted_article_yields value p :
  (forall q, p = Some q -> q = KOREA) -> (p = None -> value = None) ->
  yields (wanted_article value p) (fun o => match value, o with
    | Some v, Some w => parse_article_number (E := ToolError) v = Ok (Some w) /\ is_some p = true
    | None, None => True
    | _, _ => False
    end).
Proof.
  intros Hp Hn. unfold wanted_article. destruct value as [v|]; [|by apply yields_ret].
  destruct p as [q|]; [|by specialize (Hn eq_refl)]. rewrite (Hp q eq_refl).
  destruct (law_parse_article (E := ToolError) v) as [o Ho].
  eapply yields_bind; [by apply (yields_pure _ o (eq o))|]. intros ? <-.
  destruct o as [w|]; [|apply yields_throw]. by apply yields_ret.
Qed.

Lemma in_force_object_yields input j p :
  in_force_profile j (ii_article input) = Ok p ->
  yields (in_force_object corpus input p) (fun r => match j with
    | Some _ => object_of (H := KOREA) (ii_object input) (ii_law_name input) [NationalStatute] r
    | None => ii_object input = Some r.1 /\ r.2 = None
    end).
Proof.
  unfold in_force_profile, in_force_object. destruct j as [[]|].
  - intros [= <-]. apply (resolve_object_yields (H := KOREA)).
  - destruct (ii_article input); [done|]. intros [= <-].
    destruct (ii_object input); [by apply yields_ret|apply yields_throw].
Qed.

Lemma in_force_profile_korea j value p :
  in_force_profile j value = Ok p -> (forall q, p = Some q -> q = KOREA) /\ (p = None -> value = None).
Proof.
  unfold in_force_profile. destruct j as [[]|], value; intros [= <-]; split; try done; by intros ? [= <-].
Qed.

Lemma revisions_tool_yields object :
  yields (revisions_tool corpus object) (fun r => exists m, revisions (fun k => history corpus (m + k) object) = Ok r).
Proof. intros n. unfold revisions_tool. destruct (revisions _) as [r|e] eqn:E; [by exists n|done]. Qed.

(** The two selections and what the tool reads for them *)
Definition selections_of (input : InForceInput) (object : ObjectId) (selection : InForceSelection)
  (compare : option InForceSelection) : Prop :=
  exists m entries complete,
    revisions (fun k => history corpus (m + k) object) = Ok (entries, complete) /\
    selection_of object entries complete (ii_date input) selection /\
    match ii_compare_date input, compare with
    | Some date, Some s => selection_of object entries complete date s
    | None, None => True
    | _, _ => False
    end.

Definition in_force_ok (input : InForceInput) (r : InForceResult) : Prop :=
  in_force_jurisdiction input = Ok (ir_jurisdiction r) /\
  match ir_jurisdiction r with
  | Some _ => object_of (H := KOREA) (ii_object input) (ii_law_name input) [NationalStatute] (ir_object r, ir_resolution r)
  | None => ii_object input = Some (ir_object r) /\ ir_resolution r = None
  end /\
  object_validate (ir_object r) = Ok tt /\ has_provider_revisions (oid_dataset (ir_object r)) = true /\
  selections_of input (ir_object r) (ir_selection r) (ir_compare r) /\
  (exists head selected, reads_of (ir_object r) (ir_selection r) head selected /\
     title_of head selected (ir_law_title r) /\ article_of head selected (ii_article input) (ir_article r)) /\
  diff_of (ii_date input) (ir_selection r) (ii_compare_date input) (ir_compare r) (ir_diff_before r, ir_diff_after r).

Lemma in_force_at_yields input : yields (in_force_at corpus selector_json input) (in_force_ok input).
Proof.
  unfold in_force_at. destruct (input_refused input); [apply yields_throw|].
  eapply yields_bind; [apply (yields_arg _ (fun j => in_force_jurisdiction input = Ok j)); auto|]. intros j Hj.
  eapply yields_bind; [apply (yields_arg _ (fun p => in_force_profile j (ii_article input) = Ok p)); auto|].
  intros p Hp. destruct (in_force_profile_korea _ _ _ Hp) as [Hk Hnone].
  eapply yields_bind; [apply wanted_article_yields; [exact Hk|exact Hnone]|]. intros article Hw.
  eapply yields_bind; [exact (in_force_object_yields input j p Hp)|]. intros [object resolution] Hobj.
  eapply yields_bind with (mid := fun _ => object_validate object = Ok tt).
  { apply yields_arg. by destruct (object_validate object) as [[]|]. }
  intros _ Hvalid. destruct (has_provider_revisions _) eqn:Hrev; cbn [negb]; [|apply yields_throw].
  eapply yields_bind; [apply revisions_tool_yields|]. intros [entries complete] [m Hm].
  eapply yields_bind; [apply selection_for_yields|]. intros selection Hsel.
  eapply yields_bind with (mid := fun compare => selections_of input object selection compare).
  { unfold selections_of. destruct (ii_compare_date input) as [date|] eqn:Ed.
    - eapply yields_bind; [apply selection_for_yields|]. intros s Hs. apply yields_ret. by exists m, entries, complete.
    - apply yields_ret. by exists m, entries, complete. }
  intros compare Hcompare.
  eapply yields_bind; [apply (yields_call _ (answered corpus object Head)); intros n; by exists n|]. intros head Hh.
  destruct (is_cancelled head) eqn:Hlive; [apply yields_throw|].
  eapply yields_bind; [by apply in_force_title_yields|].
  intros [title cache] (selected & Hreads & Htitle & Hc & Hnil). cbn [fst snd] in *.
  eapply yields_bind; [by apply (in_force_article_yields object head selection selected cache article (ii_article input) p title)|].
  intros art_ (selected' & Hreads' & Htitle' & Hart). pose proof (diff_selectors_ok (ii_date input) selection (ii_compare_date input) compare) as Hd.
  destruct (diff_selectors _ _ _ _) as [before after]. apply yields_ret. split_and!; try done.
  by exists head, selected'.
Qed.

(** * Order of a comparison *)

Lemma selection_of_revision object entries complete date s :
  selection_of object entries complete date s ->
  selected_revision s = selected_revision (select_in_force entries complete date).
Proof.
  intros (_ & _ & _ & _ & Hs). unfold selected_revision.
  destruct (if_selected (select_in_force entries complete date)) as [c|] eqn:E; [|by rewrite Hs, E].
  destruct Hs as [n Hn]. destruct (get_metadata _ _ _ _); [by destruct Hn as [-> _]|by destruct Hn as (_ & -> & _)].
Qed.

(** The entry that is selected is the last of those in force. *)
Lemma selected_entry entries complete date x :
  selected_revision (select_in_force entries complete date) = Some x ->
  exists e, x = Revision (he_revision_id e) /\ e ∈ entries /\ in_force_on date e /\
    forall y, y ∈ entries -> in_force_on date y -> order_leb y e = true.
Proof.
  unfold selected_revision. intros Hx.
  destruct (selection_exact entries complete date) as (_ & [(e & others & (Hs & Hin & Hf & Hmax & _) & _)|(_ & Hs & _)]);
    rewrite Hs in Hx; [|done].
  injection Hx as <-. by exists e.
Qed.

Lemma in_force_later date date' e : str_leb date date' = true -> in_force_on date e -> in_force_on date' e.
Proof. intros Hd [Hk Hl]. split; [done|]. by apply (leb_trans str_cmp _ date). Qed.

(** A comparison goes from an earlier to a later text: the two revisions are entries
    of the inventory of the object, each in force on its date, and the first does not
    come after the second. *)
Theorem diff_in_order input n r n' before after :
  in_force_at corpus selector_json input n = Ok (r, n') ->
  ir_diff_before r = Some before -> ir_diff_after r = Some after ->
  exists m entries complete e e',
    revisions (fun k => history corpus (m + k) (ir_object r)) = Ok (entries, complete) /\
    e ∈ entries /\ e' ∈ entries /\
    before = Revision (he_revision_id e) /\ after = Revision (he_revision_id e') /\ order_leb e e' = true.
Proof.
  intros Hrun Hb Ha. destruct (yields_answers _ n _ (in_force_at_yields input)) as [_ Hok].
  destruct (Hok _ _ Hrun) as (_ & _ & _ & _ & (m & entries & complete & Hrev & Hsel & Hcmp) & _ & Hd).
  exists m, entries, complete. unfold diff_of in Hd. rewrite Hb, Ha in Hd.
  destruct (ii_compare_date input) as [date'|], (ir_compare r) as [s'|]; try done.
  rewrite (selection_of_revision _ _ _ _ _ Hsel), (selection_of_revision _ _ _ _ _ Hcmp) in Hd.
  destruct (selected_revision (select_in_force entries complete (ii_date input))) as [a|] eqn:E1; [|done].
  destruct (selected_revision (select_in_force entries complete date')) as [b|] eqn:E2; [|done].
  apply selected_entry in E1 as (e1 & -> & Hin1 & Hf1 & Hm1). apply selected_entry in E2 as (e2 & -> & Hin2 & Hf2 & Hm2).
  destruct (str_leb (ii_date input) date') eqn:El; injection Hd as -> ->.
  - exists e1, e2. split_and!; try done. by apply Hm2, (in_force_later (ii_date input)).
  - exists e2, e1. split_and!; try done. apply Hm1; [done|]. apply (in_force_later date'); [|done].
    by apply (leb_false str_cmp).
Qed.

(** * When the tool answers with a result *)

(** A computation that ends with a result, from whatever call it starts *)
Definition succeeds {A} (m : tool A) : Prop := forall n, exists a n', m n = Ok (a, n').

Lemma succeeds_bind {A B} (m : tool A) (k : A -> tool B) :
  succeeds m -> (forall a, succeeds (k a)) -> succeeds (bind m k).
Proof. intros Hm Hk n. unfold bind. destruct (Hm n) as (a & n' & ->). apply Hk. Qed.

Lemma bind_run {A B} (m : tool A) (k : A -> tool B) n a n' : m n = Ok (a, n') -> bind m k n = k a n'.
Proof. unfold bind. by intros ->. Qed.

Lemma succeeds_ret {A} (a : A) : succeeds (ret a).
Proof. intros n. by exists a, n. Qed.

Lemma selection_for_succeeds object entries complete date :
  (forall k s, get_metadata corpus k object s <> Err Legal.Cancelled) ->
  succeeds (selection_for corpus object entries complete date).
Proof.
  intros Hm n. unfold selection_for. destruct (if_selected _) as [c|]; [|by eexists _, _].
  unfold bind, call. specialize (Hm n (Revision (rc_revision_id c))).
  destruct (get_metadata _ _ _ _) as [m|e]; [destruct (_ !! _)|destruct e]; (done || by eexists _, _).
Qed.

Lemma read_succeeds cache object s : succeeds (read corpus selector_json cache object s).
Proof.
  intros n. unfold read. destruct (List.find _ _) as [[]|]; [by eexists _, _|].
  unfold bind, call. destruct (is_cancelled _); by eexists _, _.
Qed.

Lemma text_of_read_succeeds answer wanted : succeeds (text_of_read KOREA answer wanted).
Proof.
  unfold text_of_read. destruct answer as [c|]; [|apply succeeds_ret].
  destruct (article_text_spec KOREA KOREA_laws c wanted) as (o & Ho & _). intros n. unfold pure. rewrite Ho.
  by eexists _, _.
Qed.

Lemma in_force_article_succeeds object head selection cache article p :
  (forall q, p = Some q -> q = KOREA) ->
  succeeds (in_force_article corpus selector_json object head selection cache article p).
Proof.
  intros Hp. unfold in_force_article. destruct article as [w|]; [|apply succeeds_ret].
  destruct p as [q|]; [|apply succeeds_ret]. rewrite (Hp q eq_refl).
  apply succeeds_bind; [|intros; apply succeeds_bind; [apply text_of_read_succeeds|intros; apply succeeds_ret]].
  destruct (if_selected _); [|apply succeeds_ret].
  apply succeeds_bind; [apply read_succeeds|]. intros []. apply text_of_read_succeeds.
Qed.

(** A request for an object, with proper arguments, whose inventory and head can be read
    from call [n] on while nothing is cancelled *)
Record servable (input : InForceInput) (n : nat) : Prop := {
  sv_arguments : input_refused input = false;
  sv_jurisdiction : exists j p, in_force_jurisdiction input = Ok j /\ in_force_profile j (ii_article input) = Ok p;
  sv_article : forall v, ii_article input = Some v ->
    exists w, parse_article_number (E := ToolError) v = Ok (Some w);
  sv_object : exists object, ii_object input = Some object /\ ii_law_name input = None /\
    object_validate object = Ok tt /\ has_provider_revisions (oid_dataset object) = true /\
    (exists r, revisions (fun k => history corpus (n + k) object) = Ok r) /\
    (forall k s, get_metadata corpus k object s <> Err Legal.Cancelled) /\
    (forall k, exists c, get corpus k object Head = Ok c);
}.

Lemma in_force_at_succeeds input n :
  servable input n -> exists r n', in_force_at corpus selector_json input n = Ok (r, n').
Proof.
  intros [Ha (j & p & Hj & Hp) Hart (object & Ho & Hname & Hvalid & Hrev & [[entries complete] Hinv] & Hmeta & Hhead)].
  destruct (in_force_profile_korea _ _ _ Hp) as [Hk Hnone].
  assert (Hw : exists article, wanted_article (ii_article input) p n = Ok (article, n)).
  { unfold wanted_article. destruct (ii_article input) as [v|]; [|by eexists].
    destruct p as [q|]; [|by specialize (Hnone eq_refl)]. rewrite (Hk q eq_refl).
    destruct (Hart v eq_refl) as [w Hw]. unfold bind, pure. cbn. rewrite Hw. by eexists. }
  destruct Hw as [article Hw].
  assert (Hobj : in_force_object corpus input p n = Ok ((object, None), n)).
  { unfold in_force_object, resolve_object. rewrite Ho, Hname. destruct p as [q|]; [|done].
    unfold bind, ret, throw. by rewrite Hvalid. }
  unfold in_force_at. rewrite Ha.
  rewrite (bind_run _ _ n j n) by (by rewrite Hj).
  rewrite (bind_run _ _ n p n) by (by rewrite Hp).
  rewrite (bind_run _ _ n article n Hw), (bind_run _ _ n (object, None) n Hobj).
  rewrite (bind_run _ _ n tt n) by (by rewrite Hvalid). rewrite Hrev. cbn [negb].
  rewrite (bind_run _ _ n (entries, complete) (n + Z.to_nat MAX_REVISION_PAGES)%nat)
    by (unfold revisions_tool; by rewrite Hinv).
  generalize (n + Z.to_nat MAX_REVISION_PAGES)%nat.
  match goal with |- forall k, exists a n', ?m k = Ok (a, n') => change (succeeds m) end.
  apply succeeds_bind; [by apply selection_for_succeeds|]. intros selection.
  apply succeeds_bind.
  { destruct (ii_compare_date input); [|apply succeeds_ret].
    apply succeeds_bind; [by apply selection_for_succeeds|]. intros s. apply succeeds_ret. }
  intros compare k. destruct (Hhead k) as [c Hc].
  rewrite (bind_run _ _ k (Ok c) (S k)) by (unfold call; by rewrite Hc). cbn [is_cancelled].
  rewrite (bind_run _ _ (S k) (lr_title (cp_record c), []) (S k)) by done.
  destruct (in_force_article_succeeds object (Ok c) selection [] article p Hk (S k)) as (a & k' & Hrun).
  rewrite (bind_run _ _ _ _ _ Hrun). destruct (diff_selectors _ _ _ _). by eexists _, _.
Qed.

(** C16. A selection by date ends with a result or an error and never panics; refused
    arguments are an error, and a proper request for an object whose inventory and head
    can be read has a result. Its object is the one that was given, or the one of the
    greatest rank among the titles found for the name; it is valid and of a dataset with
    revisions. The selection of each date is that of the inventory of the object, to
    which the metadata of the selected revision adds its capture, the later dates of its
    provisions and their warning, or the warning that it could not be read. The title is
    that of the head, or of the selected revision when the head could not be read. An
    article that was asked for is there, with a text for each of the two reads that
    succeeded and contain it and for no other: the whole article or as much of its
    beginning as 16 KiB hold; they are compared when both are there. The comparison of
    dates goes from the earlier one to the later one. *)
Theorem in_force_at_spec input n :
  answers (in_force_at corpus selector_json input n) /\
  (forall r n', in_force_at corpus selector_json input n = Ok (r, n') -> in_force_ok input r) /\
  (input_refused input = true -> in_force_at corpus selector_json input n = Err (Error Tool.InvalidInput)) /\
  (servable input n -> exists r n', in_force_at corpus selector_json input n = Ok (r, n')).
Proof.
  destruct (yields_answers _ n _ (in_force_at_yields input)) as [Ha Hok]. split_and!; [done|done| |].
  - unfold in_force_at. by intros ->.
  - apply in_force_at_succeeds.
Qed.
End tools.

(** * Witnesses *)

#[local] Existing Instance example_tables.

Definition sample_entry (id date : string) : HistoryEntry :=
  {| he_revision_id := u id; he_capture_id := None; he_publication_date := None; he_effective_date := Some (u date) |}.

(** The corpus of the citation checks with an inventory and metadata *)
Definition dated_corpus : Corpus :=
  {| search := search sample_corpus; get := get sample_corpus;
     get_metadata _ _ _ := Ok {| mr_revision_id := u "r2"; mr_capture_id := u "c1"; mr_title := u "시험법";
       mr_publication_date := None; mr_effective_date := Some (u "20220301");
       mr_metadata := {[ u "provision_effective_dates" := u "20200101, 20230101" ]} |};
     history _ _ _ := Ok {| hp_entries := [sample_entry "r1" "20190301"; sample_entry "r2" "20220301"];
                            hp_next_cursor := None; hp_inventory_complete := true |} |}.

Definition sample_input : InForceInput :=
  {| ii_object := None; ii_law_name := Some (u "시험법"); ii_date := u "20220501"; ii_article := Some (u "9-5");
     ii_compare_date := Some (u "20210101"); ii_jurisdiction := None |}.

Abbreviation dated_run := (in_force_at dated_corpus sample_json sample_input 0%nat).

(** The comparison of the sample runs from the older revision to the newer one, and the
    older one has a provision that takes effect later. *)
Example sample_in_force :
  match dated_run with
  | Ok (r, _) =>
    (ir_diff_before r, ir_diff_after r, if_later_provision_dates <$> ir_compare r,
     aa_changed_since <$> ir_article r)
    = (Some (Revision (u "r1")), Some (Revision (u "r2")), Some [u "20230101"], Some (Some false))
  | Err _ => False
  end.
Proof. vm_compute. reflexivity. Qed.

(** The same request for the object itself *)
Definition object_input : InForceInput :=
  {| ii_object := Some (sample_object NationalStatute "1"); ii_law_name := None; ii_date := u "20220501";
     ii_article := Some (u "9-5"); ii_compare_date := None; ii_jurisdiction := None |}.

Lemma object_input_servable : servable dated_corpus object_input 0.
Proof.
  constructor.
  - vm_compute. reflexivity.
  - exists (Some Kor), (Some KOREA). split; [vm_compute; reflexivity|reflexivity].
  - intros v [= <-]. exists (part 9 5). vm_compute. reflexivity.
  - exists (sample_object NationalStatute "1"). split_and!.
    + reflexivity.
    + reflexivity.
    + vm_compute. reflexivity.
    + reflexivity.
    + eexists. vm_compute. reflexivity.
    + discriminate.
    + intros k. by eexists.
Qed.

Lemma in_force_at_spec_witness :
  (exists r n', dated_run = Ok (r, n') /\ in_force_ok dated_corpus sample_input r) /\
  (exists r n' a t, in_force_at dated_corpus sample_json object_input 0%nat = Ok (r, n') /\
     ir_article r = Some a /\ aa_at_date a = Some t).
Proof.
  destruct (in_force_at_spec dated_corpus sample_json sample_input 0%nat) as (_ & Hok & _).
  destruct (in_force_at_spec dated_corpus sample_json object_input 0%nat) as (_ & _ & _ & Hserved).
  split.
  - destruct (is_ok_runs dated_run) as (r & n' & E); [vm_compute; reflexivity|]. exists r, n'.
    split; [exact E|exact (Hok r n' E)].
  - destruct (Hserved object_input_servable) as (r & n' & E).
    assert (K : match in_force_at dated_corpus sample_json object_input 0%nat with
                | Ok (r, _) => match ir_article r with Some a => is_some (aa_at_date a) | None => false end
                | Err _ => false end = true) by (vm_compute; reflexivity).
    rewrite E in K. destruct (ir_article r) as [a|] eqn:Ea; [|discriminate].
    destruct (aa_at_date a) as [t|] eqn:Et; [|discriminate].
    exists r, n', a, t. split_and!; [exact E|exact Ea|exact Et].
Defined.

Lemma diff_in_order_witness :
  exists r n' e e', dated_run = Ok (r, n') /\ ir_diff_before r = Some (Revision (he_revision_id e)) /\
    ir_diff_after r = Some (Revision (he_revision_id e')) /\ order_leb e e' = true.
Proof.
  destruct (is_ok_runs dated_run) as (r & n' & E); [vm_compute; reflexivity|].
  assert (K : match dated_run with Ok (r, _) => (ir_diff_before r, ir_diff_after r) | Err _ => (None, None) end
    = (Some (Revision (u "r1")), Some (Revision (u "r2")))) by (vm_compute; reflexivity).
  rewrite E in K. injection K as Eb Ea.
  destruct (diff_in_order dated_corpus sample_json sample_input 0%nat r n' _ _ E Eb Ea)
    as (m & entries & complete & e & e' & _ & _ & _ & Hb & Ha & Ho).
  exists r, n', e, e'. rewrite <- Hb, <- Ha. split_and!; [exact E|exact Eb|exact Ea|exact Ho].
Defined.
