(* ===== verification/ArticleRead.v ===== *)
(** Structured reads of articles and annexes: [read_articles] of
    [apps/server/src/legal_analysis.rs]. *)

From S2P Require Import Prelude Utf8 Strings Domain Slices KrNames KrArticles KrCitations Profile TextDiff Citation InForce Legal CorpusTitles CitationCheck InForceTool.

Definition REVISIONED : list Dataset := [NationalStatute; AdministrativeRule; Ordinance].
Definition LINE_CHARS : Z := 400.
Definition MAX_OUTLINE : Z := 600.
Definition MAX_CONTEXT : Z := 3.
Definition MAX_KEYWORD_BYTES : Z := 200.
Definition READ_BUDGET : Z := 64 * 1024.
Definition ANNEX_TEXT_LIMIT : Z := 32 * 1024.

(** * Contracts of [crates/domain/src/legal_analysis.rs] *)

Record ArticleUnit := {
  au_article : str; au_title : str; au_text : str; au_truncated : bool; au_deleted : bool;
  au_path : list str;
}.

Inductive OutlineKind := HeadingKind | ArticleKind.
Record OutlineEntry := { oe_kind : OutlineKind; oe_label : str; oe_title : str }.

Record AnnexText := {
  ax_label : str; ax_section_id : str; ax_title : str; ax_kind : SectionKind; ax_text : str;
  ax_truncated : bool; ax_sparse : bool;
}.

Record ArticleReadInput := {
  ri_object : option ObjectId; ri_law_name : option str; ri_selector : option RevisionSelector;
  ri_date : option str; ri_article : option str; ri_context : Z; ri_chapter : option str;
  ri_keyword : option str; ri_annex : option str;
}.

Record ArticleReadResult := {
  rr_object : ObjectId; rr_resolution : option LawNameResolution; rr_law_title : str;
  rr_revision_id : str; rr_capture_id : str; rr_effective_date : option str; rr_source_url : str;
  rr_selection : option InForceSelection; rr_articles : list ArticleUnit;
  rr_keyword_matches : list str; rr_outline : list OutlineEntry; rr_annexes : list AnnexText;
  rr_annex_index : list str; rr_truncated : bool; rr_warnings : list str;
}.

(** * Texts *)

(** At most [max] bytes of [text], cut at a character boundary *)
Definition clip {E} (text : str) (max : Z) : result (stop E) (str * bool) :=
  let? end_ := align_down 3 text (Z.min (slen text) max) in
  let? piece := slice_to text end_ in
  Ok (piece, end_ <? slen text).

(** [clip_chars]: the offset of a character is a boundary, so that the slice in front of
    it is the characters before it. *)
Definition clip_chars (text : str) (max : Z) : str :=
  let text := trim text in
  if max <? zlen text then take (Z.to_nat max) text ++ u "…" else text.

(** [compact] *)
Definition compact (text : str) : str := List.filter (fun c => negb (is_whitespace c)) text.

(** [parse_heading] *)
Definition parse_heading {E} (value : str) : result (stop E) (option (char * Z)) :=
  let c := compact value in
  let c := match head c with
    | Some x => if contains_char x (u "제第") then c else u "제" ++ c
    | None => u "제" ++ c
    end in
  heading_at c.

(** The characters in front of the first one that [p] accepts, and the others: a split
    at the offset that [str::find] returns *)
Fixpoint split_where (p : char -> bool) (s : str) : str * str :=
  match s with
  | [] => ([], [])
  | c :: rest => if p c then ([], s) else let '(a, b) := split_where p rest in (c :: a, b)
  end.

Definition heading_parts (text : str) : str * str :=
  let '(label, name) :=
    split_where (fun c => is_whitespace c || (c =? ch "<") || (c =? ch "(")) (trim text) in
  (label, clip_chars name 100).

(** * The articles of a capture with the headings above them *)

Record Placed := { pl_article : LocatedArticle; pl_path : list str }.

(** The state of the walk over the outline; the stack grows at its end. *)
Record Walk := {
  wk_placed : list Placed; wk_entries : list OutlineEntry; wk_stack : list (Z * str);
  wk_chapter : list nat; wk_rank : option Z; wk_found : bool;
}.

(** [while stack.last().is_some_and(|(r, _)| *r >= rank) { stack.pop(); }], on the
    reversed stack *)
Fixpoint pop_ranks (rank : Z) (stack : list (Z * str)) : list (Z * str) :=
  match stack with
  | (r, label) :: rest => if rank <=? r then pop_ranks rank rest else stack
  | [] => []
  end.
Definition pop_stack (rank : Z) (stack : list (Z * str)) : list (Z * str) :=
  reverse (pop_ranks rank (reverse stack)).

(** One unit of the outline; [wanted] is the heading that is asked for. *)
Definition walk_unit (wanted : option (char * Z)) (w : Walk) (x : OutlineUnit) : Walk :=
  match x with
  | Heading level number text =>
    let rank := heading_rank level in
    let chapter_rank := if opt_test (fun open => rank <=? open) (wk_rank w) then None else wk_rank w in
    let starts := negb (wk_found w) && bool_decide (wanted = Some (level, number)) in
    let '(label, title) := heading_parts text in
    {| wk_placed := wk_placed w;
       wk_entries := wk_entries w ++ [{| oe_kind := HeadingKind; oe_label := label; oe_title := title |}];
       wk_stack := pop_stack rank (wk_stack w) ++ [(rank, trim (label ++ u " " ++ title))];
       wk_chapter := wk_chapter w;
       wk_rank := if starts then Some rank else chapter_rank;
       wk_found := wk_found w || starts |}
  | Article article =>
    {| wk_placed := wk_placed w ++ [{| pl_article := article; pl_path := (wk_stack w).*2 |}];
       wk_entries := wk_entries w ++ [{| oe_kind := ArticleKind; oe_label := show_article (la_number article);
                                         oe_title := la_title article |}];
       wk_stack := wk_stack w;
       wk_chapter := if is_some (wk_rank w) then wk_chapter w ++ [length (wk_placed w)] else wk_chapter w;
       wk_rank := wk_rank w; wk_found := wk_found w |}
  end.

Definition walk_empty : Walk :=
  {| wk_placed := []; wk_entries := []; wk_stack := []; wk_chapter := []; wk_rank := None; wk_found := false |}.
Definition walk_units (wanted : option (char * Z)) (units : list OutlineUnit) : Walk :=
  fold_left (walk_unit wanted) units walk_empty.

(** [iter().position(p)] *)
Fixpoint position {A} (p : A -> bool) (l : list A) : option nat :=
  match l with
  | [] => None
  | x :: l => if p x then Some O else S <$> position p l
  end.

Definition at_article (wanted : ArticleNumber) (p : Placed) : bool :=
  bool_decide (la_number (pl_article p) = wanted).

(** The article that is asked for: by its locator, or by the number and branch that a
    hyphenated locator may stand for *)
Definition find_placed (placed : list Placed) (wanted : ArticleNumber) : option nat :=
  match position (at_article wanted) placed with
  | Some i => Some i
  | None =>
    if is_some (an_part wanted) && negb (is_some (an_branch wanted))
    then position (at_article {| an_number := an_number wanted; an_part := None; an_branch := an_part wanted |}) placed
    else None
  end.

(** What was asked for: the picked articles, the warnings and whether the outline is
    wanted *)
Record Picks := { pk_picked : list nat; pk_warnings : list str; pk_outline : bool; pk_keywords : list str }.

Definition pick_article (placed : list Placed) (wanted : option ArticleNumber) (context : Z) (k : Picks) : Picks :=
  match wanted with
  | None => k
  | Some wanted =>
    match find_placed placed wanted with
    | Some i =>
      let context := Z.to_nat context in
      let end_ := Nat.min (i + context + 1) (length placed) in
      {| pk_picked := pk_picked k ++ seq (i - context) (end_ - (i - context));
         pk_warnings := pk_warnings k; pk_outline := pk_outline k; pk_keywords := pk_keywords k |}
    | None =>
      {| pk_picked := pk_picked k; pk_warnings := pk_warnings k ++ [u "article_not_found"];
         pk_outline := true; pk_keywords := pk_keywords k |}
    end
  end.

Definition pick_chapter (w : Walk) (wanted : option (char * Z)) (k : Picks) : Picks :=
  if negb (is_some wanted) then k
  else if wk_found w
  then {| pk_picked := pk_picked k ++ wk_chapter w; pk_warnings := pk_warnings k;
          pk_outline := pk_outline k; pk_keywords := pk_keywords k |}
  else {| pk_picked := pk_picked k; pk_warnings := pk_warnings k ++ [u "heading_not_found"];
          pk_outline := true; pk_keywords := pk_keywords k |}.

(** The positions, from [i] on, of the articles that contain the compacted keyword *)
Fixpoint keyword_positions (wanted : str) (i : nat) (placed : list Placed) : list (nat * str) :=
  match placed with
  | [] => []
  | p :: placed =>
    (if contains_str wanted (compact (la_text (pl_article p)))
     then [(i, show_article (la_number (pl_article p)))] else [])
    ++ keyword_positions wanted (S i) placed
  end.

Definition pick_keyword (placed : list Placed) (keyword : option str) (k : Picks) : Picks :=
  match keyword with
  | None => k
  | Some keyword =>
    let found := keyword_positions (compact keyword) 0 placed in
    {| pk_picked := pk_picked k ++ found.*1;
       pk_warnings := if is_nil found then pk_warnings k ++ [u "keyword_not_found"] else pk_warnings k;
       pk_outline := pk_outline k; pk_keywords := found.*2 |}
  end.

(** * What is returned *)

Definition article_unit {E} (placed : Placed) (budget : Z) : result (stop E) (option (ArticleUnit * Z)) :=
  if budget =? 0 then Ok None else
  let a := pl_article placed in
  let? (text, truncated) := clip (la_text a) (Z.min ARTICLE_TEXT_LIMIT budget) in
  match checked_sub budget (slen text) with
  | None => Err Panic
  | Some budget =>
    Ok (Some ({| au_article := show_article (la_number a); au_title := la_title a; au_text := text;
                 au_truncated := truncated; au_deleted := la_deleted a; au_path := pl_path placed |}, budget))
  end.

(** The loop over the picked articles *)
Fixpoint emit {E} (placed : list Placed) (picked : list nat) (emitted : gset nat) (budget : Z) (truncated : bool)
  : result (stop E) (list ArticleUnit * Z * bool) :=
  match picked with
  | [] => Ok ([], budget, truncated)
  | i :: picked =>
    if bool_decide (i ∈ emitted) then emit placed picked emitted budget truncated else
    let emitted := {[i]} ∪ emitted in
    match placed !! i with
    | None => Err Panic
    | Some p =>
      let? unit := article_unit p budget in
      match unit with
      | Some (unit, budget) =>
        let? (units, budget, truncated) := emit placed picked emitted budget (truncated || au_truncated unit) in
        Ok (unit :: units, budget, truncated)
      | None => emit placed picked emitted budget true
      end
    end
  end.

(** The labels of the annexes, each once *)
Definition annex_labels (l : list LocatedAnnex) : list str :=
  fold_left (fun labels a =>
    let label := show_annex (lx_label a) in
    if existsb (str_eqb label) labels then labels else labels ++ [label]) l [].

Fixpoint emit_annexes {E} (l : list LocatedAnnex) (budget : Z) (truncated : bool)
  : result (stop E) (list AnnexText * bool) :=
  match l with
  | [] => Ok ([], truncated)
  | a :: l =>
    if budget =? 0 then Ok ([], true) else
    let? (text, cut) := clip (lx_text a) (Z.min ANNEX_TEXT_LIMIT budget) in
    match checked_sub budget (slen text) with
    | None => Err Panic
    | Some budget =>
      let? (texts, truncated) := emit_annexes l budget (truncated || cut) in
      Ok ({| ax_label := show_annex (lx_label a); ax_section_id := lx_section_id a; ax_title := lx_title a;
             ax_kind := lx_kind a; ax_text := text; ax_truncated := cut; ax_sparse := lx_sparse a |} :: texts,
          truncated)
    end
  end.

(** A supplied locator: absent, read, or refused *)
Definition supplied {A} (parse : str -> result (stop ToolError) (option A)) (value : option str) : tool (option A) :=
  match value with
  | None => ret None
  | Some value =>
    let! a := pure (parse value) in
    match a with Some a => ret (Some a) | None => throw Tool.InvalidInput end
  end.

Definition read_refused (input : ArticleReadInput) : bool :=
  (is_some (ri_selector input) && is_some (ri_date input))
  || opt_test (fun d => negb (valid_date d)) (ri_date input)
  || (MAX_CONTEXT <? ri_context input)
  || opt_test (fun k => negb (valid_text k MAX_KEYWORD_BYTES) || contains_char LF k || is_nil (compact k))
       (ri_keyword input).

Section tools.
Context (corpus : Corpus) `{CharTables}.

(** The revision to read and the selection that chose it *)
Definition read_selector (object : ObjectId) (input : ArticleReadInput)
  : tool (RevisionSelector * option InForceSelection) :=
  match ri_selector input, ri_date input with
  | Some selector, None => ret (selector, None)
  | None, Some date =>
    if negb (has_provider_revisions (oid_dataset object)) then throw Tool.UnsupportedHistory else
    let! (entries, complete) := revisions_tool corpus object in
    let! selection := selection_for corpus object entries complete date in
    match if_selected selection with
    | Some selected => ret (Revision (rc_revision_id selected), Some selection)
    | None => throw Tool.NotFound
    end
  | _, _ => ret (Head, None)
  end.

(** The articles, annexes and outline of a capture *)
Definition read_capture (input : ArticleReadInput) (article : option ArticleNumber) (heading : option (char * Z))
  (annex : option AnnexLabel) (capture : Capture)
  : result (stop ToolError) (Picks * list ArticleUnit * list AnnexText * list OutlineEntry * list str * bool) :=
  let sections := lr_sections (cp_record capture) in
  let? units := outline sections in
  let w := walk_units heading units in
  let placed := wk_placed w in
  let k := {| pk_picked := []; pk_warnings := [];
              pk_outline := negb (is_some article) && negb (is_some heading) && negb (is_some (ri_keyword input))
                            && negb (is_some annex);
              pk_keywords := [] |} in
  let k := pick_article placed article (ri_context input) k in
  let k := pick_chapter w heading k in
  let k := pick_keyword placed (ri_keyword input) k in
  let warnings := pk_warnings k ++ (if is_nil placed then [u "no_article_structure"] else []) in
  let? (articles, budget, truncated) := emit placed (pk_picked k) ∅ READ_BUDGET false in
  let? all := annexes sections in
  let matches := match annex with
    | Some wanted => List.filter (fun a => bool_decide (lx_label a = wanted)) all
    | None => []
    end in
  let warnings := warnings
    ++ (if is_some annex && is_nil matches then [u "annex_not_found"] else [])
    ++ (if existsb lx_sparse matches then [u "annex_text_sparse"] else []) in
  let? (texts, truncated) := emit_annexes matches budget truncated in
  let cut := pk_outline k && (MAX_OUTLINE <? zlen (wk_entries w)) in
  let entries := if pk_outline k then take (Z.to_nat MAX_OUTLINE) (wk_entries w) else [] in
  Ok ({| pk_picked := pk_picked k; pk_warnings := warnings; pk_outline := pk_outline k; pk_keywords := pk_keywords k |},
      articles, texts, entries, annex_labels all, truncated || cut).

Definition read_articles (input : ArticleReadInput) : tool ArticleReadResult :=
  if read_refused input then throw Tool.InvalidInput else
  let! article := supplied parse_article_number (ri_article input) in
  let! heading := supplied parse_heading (ri_chapter input) in
  let! annex := supplied parse_annex_label (ri_annex input) in
  let! (object, resolution) :=
    resolve_object corpus (profile_ := KOREA) (ri_object input) (ri_law_name input) REVISIONED in
  let! (selector, selection) := read_selector object input in
  let! answer := call (fun n => get corpus n object selector) in
  match answer with
  | Err e => throw (map_error e)
  | Ok capture =>
    let! (k, articles, texts, entries, labels, truncated) :=
      pure (read_capture input article heading annex capture) in
    let record := cp_record capture in
    ret {| rr_object := object; rr_resolution := resolution; rr_law_title := lr_title record;
           rr_revision_id := lr_revision_id record; rr_capture_id := cp_capture_id capture;
           rr_effective_date := lr_effective_date record; rr_source_url := lr_source_url record;
           rr_selection := selection; rr_articles := articles; rr_keyword_matches := pk_keywords k;
           rr_outline := entries; rr_annexes := texts; rr_annex_index := labels;
           rr_truncated := truncated; rr_warnings := pk_warnings k |}
  end.
End tools.
