(* ===== verification/ArticleReadFacts.v ===== *)
(** What a structured read promises: the headings above an article are those that are
    open in front of it, a chapter is what stands under its heading, and a read that is
    not truncated returns everything that was picked, within one budget. *)

From stdpp Require Import sorting.
From S2P Require Import Prelude Utf8 Strings Domain Legal TextDiff Citation InForce Slices KrNames KrArticles KrLocators KrOutline KrLookup KrCitations KrExamples Profile CorpusTitles CorpusTitlesFacts CitationCheck CitationCheckFacts CitationCheckProperties InForceTool ArticleRead.

(** * Headings *)

(** The rank and the label of a heading *)
Definition heading_entry (x : OutlineUnit) : option (Z * str) :=
  match x with
  | Heading level number text =>
    let '(label, title) := heading_parts text in Some (heading_rank level, trim (label ++ u " " ++ title))
  | Article _ => None
  end.

Definition headings (us : list OutlineUnit) : list (Z * str) := omap heading_entry us.

(** The headings that no later one closes: one closes those of its rank and below. *)
Fixpoint open_headings (hs : list (Z * str)) : list (Z * str) :=
  match hs with
  | [] => []
  | h :: hs => (if forallb (fun h' => h.1 <? h'.1) hs then [h] else []) ++ open_headings hs
  end.

Lemma forallb_snoc {A} (p : A -> bool) l x : forallb p (l ++ [x]) = forallb p l && p x.
Proof. rewrite forallb_app'. cbn [forallb]. by rewrite andb_true_r. Qed.

Lemma open_headings_snoc hs h :
  open_headings (hs ++ [h]) = List.filter (fun e => e.1 <? h.1) (open_headings hs) ++ [h].
Proof.
  induction hs as [|x hs IH]; [done|]. cbn [open_headings app]. rewrite IH, forallb_snoc.
  destruct (forallb _ hs) eqn:E; cbn [andb app List.filter]; [|done]. by destruct (x.1 <? h.1).
Qed.

(** The open headings grow in rank. *)
Definition increasing (hs : list (Z * str)) : Prop := StronglySorted (fun a b => a.1 < b.1) hs.

Lemma open_headings_increasing hs : increasing (open_headings hs).
Proof.
  induction hs as [|x hs IH]; cbn [open_headings]; [constructor|].
  destruct (forallb _ hs) eqn:E; [|done]. constructor; [done|]. apply forallb_Forall in E.
  assert (Hsub : forall y, y ∈ open_headings hs -> y ∈ hs).
  { clear. induction hs as [|x hs IH]; cbn [open_headings]; intros y Hy; [done|].
    apply elem_of_app in Hy as [Hy|Hy]; [|right; by apply IH].
    destruct (forallb _ hs); [|by apply elem_of_nil in Hy]. apply list_elem_of_singleton in Hy as ->. by left. }
  apply Forall_forall. intros y Hy%Hsub. rewrite Forall_forall in E. apply Z.ltb_lt. by apply E.
Qed.

Lemma pop_ranks_filter rank l :
  StronglySorted (fun a b => b.1 < a.1) l -> pop_ranks rank l = List.filter (fun e => e.1 <? rank) l.
Proof.
  induction 1 as [|[r label] l Hs IH Hall]; cbn [pop_ranks List.filter]; [done|]. cbn [fst].
  destruct (Z.leb_spec rank r) as [Hle|Hlt].
  - by rewrite (proj2 (Z.ltb_ge r rank)) by lia.
  - rewrite (proj2 (Z.ltb_lt r rank)) by lia. f_equal. rewrite <- (filter_true l) at 1.
    apply filter_ext_in'. eapply Forall_impl; [exact Hall|]. cbn. intros e He. symmetry. apply Z.ltb_lt. lia.
Qed.

Lemma reverse_sorted {A} (R : A -> A -> Prop) l :
  StronglySorted R l -> StronglySorted (fun a b => R b a) (reverse l).
Proof.
  induction 1 as [|x l Hs IH Hall]; [constructor|]. rewrite reverse_cons.
  clear Hs. revert IH. assert (Hr : Forall (R x) (reverse l)) by (by rewrite reverse_Permutation).
  revert Hr. generalize (reverse l). intros k Hk. induction 1 as [|y k Hs IH Hy]; cbn.
  - repeat constructor.
  - apply Forall_cons in Hk as [Hxy Hk]. constructor; [by apply IH|]. apply Forall_app. by rewrite Forall_singleton.
Qed.

Lemma filter_reverse {A} (p : A -> bool) l : List.filter p (reverse l) = reverse (List.filter p l).
Proof.
  induction l as [|x l IH]; [done|]. rewrite reverse_cons, List.filter_app, IH. cbn [List.filter].
  destruct (p x); [by rewrite reverse_cons|by rewrite app_nil_r].
Qed.

Lemma pop_stack_filter rank l :
  increasing l -> pop_stack rank l = List.filter (fun e => e.1 <? rank) l.
Proof.
  intros H. unfold pop_stack. rewrite pop_ranks_filter by (by apply reverse_sorted in H).
  by rewrite filter_reverse, reverse_involutive.
Qed.

(** * The walk *)

Section walk.
Context (wanted : option (char * Z)).

Lemma walk_snoc us x : walk_units wanted (us ++ [x]) = walk_unit wanted (walk_units wanted us) x.
Proof. unfold walk_units. by rewrite fold_left_app. Qed.

Lemma headings_snoc us x : headings (us ++ [x]) = headings us ++ option_list (heading_entry x).
Proof. unfold headings. rewrite omap_app. cbn. by destruct (heading_entry x). Qed.

(** The stack of the walk is the open headings. *)
Lemma walk_stack us : wk_stack (walk_units wanted us) = open_headings (headings us).
Proof.
  induction us as [|x us IH] using rev_ind; [done|]. rewrite walk_snoc, headings_snoc.
  destruct x as [level number text|a]; cbn [walk_unit heading_entry]; [|by rewrite app_nil_r].
  destruct (heading_parts text) as [label title]. cbn [wk_stack].
  unfold option_list, option_rect. rewrite open_headings_snoc, IH, pop_stack_filter by apply open_headings_increasing. done.
Qed.

Lemma articles_snoc us x : articles (us ++ [x]) = articles us ++ option_list (unit_article x).
Proof. unfold articles. rewrite omap_app. cbn. by destruct (unit_article x). Qed.

(** The articles of the outline, each with the headings that are open in front of it *)
Definition placed_of (us : list OutlineUnit) (ps : list Placed) : Prop :=
  pl_article <$> ps = articles us /\
  forall pre a post, us = pre ++ Article a :: post ->
    ps !! length (articles pre) = Some {| pl_article := a; pl_path := (open_headings (headings pre)).*2 |}.

Lemma walk_placed us : placed_of us (wk_placed (walk_units wanted us)).
Proof.
  induction us as [|x us [IHa IH]] using rev_ind; [split; [done|]; by intros [] ? ?|].
  rewrite walk_snoc. unfold placed_of. rewrite articles_snoc. destruct x as [level number text|a]; cbn [walk_unit unit_article]; unfold option_list, option_rect.
  - destruct (heading_parts text) as [label title]. cbn [wk_placed]. rewrite app_nil_r. split; [done|].
    intros pre a post E. destruct post as [|y post _] using rev_ind; [by apply app_inj_tail in E as [_ ?]|].
    rewrite app_comm_cons, app_assoc in E. apply app_inj_tail in E as [E _]. by eapply IH.
  - cbn [wk_placed]. rewrite fmap_app, IHa. split; [done|]. intros pre b post E.
    destruct post as [|y post _] using rev_ind.
    + apply app_inj_tail in E as [<- [= <-]]. rewrite <- IHa, length_fmap, list_lookup_middle by done.
      by rewrite walk_stack.
    + rewrite app_comm_cons, app_assoc in E. apply app_inj_tail in E as [E _].
      apply lookup_app_l_Some. by eapply IH.
Qed.

(** ** Chapters *)

(** A heading of rank [rank] or above ends what stands under one of that rank. *)
Definition closes (rank : Z) (x : OutlineUnit) : bool :=
  match x with Heading level _ _ => heading_rank level <=? rank | Article _ => false end.

Fixpoint under (rank : Z) (us : list OutlineUnit) : list OutlineUnit :=
  match us with
  | [] => []
  | x :: us => if closes rank x then [] else x :: under rank us
  end.

Definition is_heading (level : char) (number : Z) (x : OutlineUnit) : bool :=
  match x with Heading l n _ => (l =? level) && (n =? number) | Article _ => false end.

Definition walk_from (w : Walk) (us : list OutlineUnit) : Walk := fold_left (walk_unit wanted) us w.

Lemma walk_placed_length w x : length (wk_placed (walk_unit wanted w x)) = (length (wk_placed w) + length (articles [x]))%nat.
Proof.
  destruct x as [level number text|a]; cbn [walk_unit].
  - destruct (heading_parts text). cbn. lia.
  - cbn [wk_placed]. rewrite length_app. done.
Qed.

Lemma walk_closed us : forall w,
  wk_found w = true -> wk_rank w = None ->
  wk_chapter (walk_from w us) = wk_chapter w /\ wk_found (walk_from w us) = true.
Proof.
  induction us as [|x us IH]; intros w Hf Hr; [done|]. cbn [walk_from fold_left]. fold (walk_from (walk_unit wanted w x) us).
  destruct (IH (walk_unit wanted w x)) as [-> ->]; destruct x as [level number text|a]; cbn [walk_unit];
    try destruct (heading_parts text); cbn [wk_found wk_rank wk_chapter]; rewrite ?Hf, ?Hr; done.
Qed.

Lemma walk_open rank us : forall w,
  wk_found w = true -> wk_rank w = Some rank ->
  wk_chapter (walk_from w us) = wk_chapter w ++ seq (length (wk_placed w)) (length (articles (under rank us)))
  /\ wk_found (walk_from w us) = true.
Proof.
  induction us as [|x us IH]; intros w Hf Hr.
  { cbn. by rewrite app_nil_r. }
  cbn [walk_from fold_left]. fold (walk_from (walk_unit wanted w x) us). cbn [under].
  destruct x as [level number text|a].
  - cbn [closes]. destruct (Z.leb_spec (heading_rank level) rank) as [Hle|Hgt].
    + destruct (walk_closed us (walk_unit wanted w (Heading level number text))) as [-> ->];
        cbn [walk_unit]; destruct (heading_parts text); cbn [wk_found wk_rank wk_chapter];
        rewrite ?Hf, ?Hr; cbn [negb andb orb opt_test]; try done.
      * by rewrite (proj2 (Z.leb_le _ _)).
      * by rewrite app_nil_r.
    + destruct (IH (walk_unit wanted w (Heading level number text))) as [-> ->];
        cbn [walk_unit]; destruct (heading_parts text); cbn [wk_found wk_rank wk_chapter wk_placed];
        rewrite ?Hf, ?Hr; cbn [negb andb orb opt_test]; try done.
      by rewrite (proj2 (Z.leb_gt _ _)).
  - cbn [closes]. destruct (IH (walk_unit wanted w (Article a))) as [-> ->]; cbn [walk_unit wk_found wk_rank]; try done.
    cbn [wk_chapter wk_placed]. rewrite Hr. cbn [is_some]. split; [|done].
    rewrite <- app_assoc. f_equal. rewrite length_app.
    change (articles (Article a :: under rank us)) with (a :: articles (under rank us)). cbn [length seq app].
    by rewrite Nat.add_1_r.
Qed.

Lemma walk_before us : forall w level number,
  wanted = Some (level, number) -> wk_found w = false -> wk_rank w = None ->
  forallb (fun x => negb (is_heading level number x)) us = true ->
  wk_chapter (walk_from w us) = wk_chapter w /\ wk_found (walk_from w us) = false /\
  wk_rank (walk_from w us) = None /\
  length (wk_placed (walk_from w us)) = (length (wk_placed w) + length (articles us))%nat.
Proof.
  induction us as [|x us IH]; intros w level number Hw Hf Hr Hno.
  { cbn. by rewrite Nat.add_0_r. }
  cbn [forallb] in Hno. apply andb_true_iff in Hno as [Hx Hno].
  cbn [walk_from fold_left]. fold (walk_from (walk_unit wanted w x) us).
  assert (Hnext : wk_found (walk_unit wanted w x) = false /\ wk_rank (walk_unit wanted w x) = None /\
    wk_chapter (walk_unit wanted w x) = wk_chapter w).
  { destruct x as [l n text|a]; cbn [walk_unit]; [|cbn [wk_found wk_rank wk_chapter]; by rewrite Hr].
    assert (Hne : bool_decide (wanted = Some (l, n)) = false).
    { apply bool_decide_eq_false. rewrite Hw. intros [= -> ->]. cbn in Hx. by rewrite !Z.eqb_refl in Hx. }
    destruct (heading_parts text). cbn [wk_found wk_rank wk_chapter]. rewrite Hne, Hf, Hr. done. }
  destruct Hnext as (Hf' & Hr' & Hc).
  destruct (IH _ level number Hw Hf' Hr' Hno) as (-> & -> & -> & ->). split_and!; try done.
  rewrite walk_placed_length. replace (articles (x :: us)) with (articles [x] ++ articles us) by (destruct x; done).
  rewrite length_app. lia.
Qed.

(** The chapter that was asked for is what stands under the first heading with its
    level and number. *)
Lemma walk_chapter level number us :
  wanted = Some (level, number) ->
  let w := walk_units wanted us in
  (forallb (fun x => negb (is_heading level number x)) us = true -> wk_found w = false /\ wk_chapter w = []) /\
  (forall pre text post, us = pre ++ Heading level number text :: post ->
    forallb (fun x => negb (is_heading level number x)) pre = true ->
    wk_found w = true /\
    wk_chapter w = seq (length (articles pre)) (length (articles (under (heading_rank level) post)))).
Proof.
  intros Hw w. split.
  - intros Hno. by destruct (walk_before us walk_empty level number Hw eq_refl eq_refl Hno) as (? & ? & _).
  - intros pre text post -> Hno. unfold w, walk_units. rewrite fold_left_app.
    fold (walk_from walk_empty pre). set (w0 := walk_from walk_empty pre).
    destruct (walk_before pre walk_empty level number Hw eq_refl eq_refl Hno) as (Hc & Hf & Hr & Hl).
    fold w0 in Hc, Hf, Hr, Hl. cbn [fold_left]. fold (walk_from (walk_unit wanted w0 (Heading level number text)) post).
    destruct (walk_open (heading_rank level) post (walk_unit wanted w0 (Heading level number text))) as [Hchap Hfound].
    + cbn [walk_unit]. destruct (heading_parts text). cbn [wk_found]. rewrite Hf, Hw.
      by rewrite (bool_decide_eq_true_2 _ eq_refl).
    + cbn [walk_unit]. destruct (heading_parts text). cbn [wk_rank]. rewrite Hf, Hw.
      by rewrite (bool_decide_eq_true_2 _ eq_refl).
    + split; [done|]. rewrite Hchap. cbn [walk_unit]. destruct (heading_parts text). cbn [wk_chapter wk_placed].
      by rewrite Hc, Hl.
Qed.
End walk.

(** * Returned texts *)

(** A piece is the text, or as many of its first whole characters as [max] bytes hold. *)
Definition clipped (text : str) (max : Z) (piece : str) (cut : bool) : Prop :=
  exists rest, text = piece ++ rest /\ slen piece <= max /\ (cut = false <-> rest = []) /\
    (rest <> [] -> max - 3 <= slen piece).

Lemma clip_spec {E} text max : 0 <= max ->
  exists piece cut, clip text max = @Ok (stop E) _ (piece, cut) /\ clipped text max piece cut.
Proof.
  intros Hm. unfold clip. rewrite Z.min_comm.
  assert (exists m b, text = m ++ b /\ slen m <= max /\ (b <> [] -> max - 3 <= slen m) /\
    align_down 3 text (Z.min max (slen text)) = @Ok (stop E) _ (slen m)) as (m & b & Ht & Hl & Hb & Ha).
  { pose proof (slen_nonneg text).
    assert (exists a0 b0, text = a0 ++ b0 /\ Z.min max (slen text) - Z.of_nat 3 <= slen a0 <= Z.min max (slen text)
      /\ Z.min (max - 3) (slen text) <= slen a0) as (a0 & b0 & Ha0 & Hlo & Hmin).
    { destruct (Z_le_gt_dec (slen text) max).
      - exists text, []. rewrite app_nil_r. split; [done|]. lia.
      - destruct (boundary_near text (Z.min max (slen text))) as (a & b & ? & ?); [lia|].
        exists a, b. split; [done|]. lia. }
    destruct (align_down_spec (E := E) 3 text _ a0 b0 Ha0 Hlo) as (a & b & Hal & Ha & Hbb).
    exists a, b. split_and!; try done; [lia|]. intros Hne. rewrite Ha in Hmin. rewrite slen_app in Hmin.
    destruct b as [|c b]; [done|]. pose proof (slen_cons_pos c b). lia. }
  rewrite Ha, Ht, slice_to_app. eexists _, _. split; [done|]. exists b. split_and!; try done.
  rewrite slen_app. destruct b as [|c b].
  - cbn. by rewrite Z.add_0_r, Z.ltb_irrefl.
  - pose proof (slen_cons_pos c b). rewrite (proj2 (Z.ltb_lt _ _)) by lia. done.
Qed.

(** The first occurrences of the positions that were not emitted yet *)
Fixpoint first_seen (seen : gset nat) (l : list nat) : list nat :=
  match l with
  | [] => []
  | i :: l => if bool_decide (i ∈ seen) then first_seen seen l else i :: first_seen ({[i]} ∪ seen) l
  end.

Lemma first_seen_NoDup l : forall seen, NoDup (first_seen seen l) /\ Forall (fun i => (i ∉ seen) /\ i ∈ l) (first_seen seen l).
Proof.
  induction l as [|i l IH]; intros seen; cbn [first_seen]; [split; constructor|].
  case_bool_decide as Hi.
  - destruct (IH seen) as [Hn Hf]. split; [done|]. eapply Forall_impl; [exact Hf|]. set_solver.
  - destruct (IH ({[i]} ∪ seen)) as [Hn Hf]. rewrite Forall_forall in Hf. split.
    + constructor; [|done]. intros K%Hf. set_solver.
    + constructor; [set_solver|]. apply Forall_forall. intros j K%Hf. set_solver.
Qed.

Lemma first_seen_all l i : forall seen, i ∈ l -> i ∈ seen \/ i ∈ first_seen seen l.
Proof.
  induction l as [|j l IH]; intros seen Hi; [by apply elem_of_nil in Hi|]. cbn [first_seen].
  apply elem_of_cons in Hi as [->|Hi]; case_bool_decide as Hj.
  - by left.
  - right. by left.
  - by apply IH.
  - destruct (IH ({[j]} ∪ seen) Hi) as [K|K]; [|right; by right].
    apply elem_of_union in K as [->%elem_of_singleton|K]; [right; by left|by left].
Qed.

(** A returned article is a clipped text of a placed one. *)
Definition returned (placed : list Placed) (i : nat) (x : ArticleUnit) : Prop :=
  exists p, placed !! i = Some p /\ (exists max, clipped (la_text (pl_article p)) max (au_text x) (au_truncated x)) /\
    slen (au_text x) <= ARTICLE_TEXT_LIMIT /\
    au_article x = show_article (la_number (pl_article p)) /\ au_title x = la_title (pl_article p) /\
    au_deleted x = la_deleted (pl_article p) /\ au_path x = pl_path p.

Definition units_size (units : list ArticleUnit) : Z := sum_Z ((fun x => slen (au_text x)) <$> units).

Lemma article_unit_spec {E} p budget :
  0 < budget -> exists x, article_unit p budget = @Ok (stop E) _ (Some (x, budget - slen (au_text x))) /\
    (forall placed i, placed !! i = Some p -> returned placed i x) /\ slen (au_text x) <= budget.
Proof.
  intros Hb. unfold article_unit. rewrite (proj2 (Z.eqb_neq _ _)) by lia.
  destruct (clip_spec (E := E) (la_text (pl_article p)) (Z.min ARTICLE_TEXT_LIMIT budget)) as (piece & cut & -> & Hc);
    [unfold ARTICLE_TEXT_LIMIT; lia|].
  pose proof Hc as (rest & Ht & Hl & _). unfold checked_sub. rewrite (proj2 (Z.leb_le _ _)) by lia.
  exists {| au_article := show_article (la_number (pl_article p)); au_title := la_title (pl_article p);
            au_text := piece; au_truncated := cut; au_deleted := la_deleted (pl_article p); au_path := pl_path p |}.
  split; [done|]. cbn [au_text]. split; [|lia].
  intros placed i Hp. exists p. cbn. split_and!; try done; [by eexists|lia].
Qed.

(** Nothing is returned without a budget. *)
Lemma emit_exhausted {E} placed picked : forall emitted truncated,
  Forall (fun i => (i < length placed)%nat) picked ->
  exists truncated', emit placed picked emitted 0 truncated = @Ok (stop E) _ ([], 0, truncated') /\
    (truncated' = false -> truncated = false /\ first_seen emitted picked = []).
Proof.
  induction picked as [|i picked IH]; intros emitted truncated Hp; cbn [emit first_seen]; [by exists truncated|].
  apply Forall_cons in Hp as [Hi Hp]. case_bool_decide as He; [by apply IH|].
  destruct (lookup_lt_is_Some_2 placed i Hi) as [p Hpi]. rewrite Hpi. cbn [article_unit Z.eqb].
  destruct (IH ({[i]} ∪ emitted) true Hp) as (t & Hrun & Ht). exists t. split; [exact Hrun|].
  intros Hf. by destruct (Ht Hf).
Qed.

(** The articles come in the order of the picks, each once, and within the budget; a
    read that is not truncated returned all of them, and none of them was cut. *)
Lemma emit_spec {E} placed picked : forall emitted budget truncated,
  0 <= budget -> Forall (fun i => (i < length placed)%nat) picked ->
  exists units budget' truncated', emit placed picked emitted budget truncated = @Ok (stop E) _ (units, budget', truncated') /\
    (exists k, Forall2 (returned placed) (take k (first_seen emitted picked)) units) /\
    0 <= budget' /\ units_size units + budget' = budget /\
    (truncated' = false -> truncated = false /\ Forall2 (returned placed) (first_seen emitted picked) units /\
       Forall (fun x => au_truncated x = false) units).
Proof.
  induction picked as [|i picked IH]; intros emitted budget truncated Hb Hp; cbn [emit first_seen].
  { exists [], budget, truncated. split_and!; try done. exists 0%nat. constructor. }
  apply Forall_cons in Hp as [Hi Hp]. case_bool_decide as He; [by apply IH|].
  destruct (lookup_lt_is_Some_2 placed i Hi) as [p Hpi]. rewrite Hpi.
  destruct (decide (budget = 0)) as [->|Hne].
  - destruct (emit_exhausted (E := E) placed picked ({[i]} ∪ emitted) true Hp) as (t & Hrun & Ht).
    exists [], 0, t. split; [exact Hrun|]. split_and!; try done; [exists 0%nat; constructor|].
    intros Hf. by destruct (Ht Hf).
  - destruct (article_unit_spec (E := E) p budget) as (x & -> & Hx & Hle); [lia|].
    destruct (IH ({[i]} ∪ emitted) (budget - slen (au_text x)) (truncated || au_truncated x) ltac:(lia) Hp)
      as (units & b' & t' & -> & (k & Hk) & Hb' & Hs & Ht).
    exists (x :: units), b', t'. split_and!; try done.
    + exists (S k). cbn [take]. constructor; [by apply Hx|done].
    + unfold units_size in *. cbn. lia.
    + intros Hf. destruct (Ht Hf) as ([? ?]%orb_false_iff & Hall & Hnone). split_and!; try done; constructor; auto.
Qed.

Definition annex_returned (a : LocatedAnnex) (x : AnnexText) : Prop :=
  (exists max, clipped (lx_text a) max (ax_text x) (ax_truncated x)) /\ slen (ax_text x) <= ANNEX_TEXT_LIMIT /\
  ax_label x = show_annex (lx_label a) /\ ax_section_id x = lx_section_id a /\ ax_title x = lx_title a /\
  ax_kind x = lx_kind a /\ ax_sparse x = lx_sparse a.

Definition annexes_size (l : list AnnexText) : Z := sum_Z ((fun x => slen (ax_text x)) <$> l).

Lemma emit_annexes_spec {E} l : forall budget truncated, 0 <= budget ->
  exists texts truncated', emit_annexes l budget truncated = @Ok (stop E) _ (texts, truncated') /\
    (exists k, Forall2 annex_returned (take k l) texts) /\ annexes_size texts <= budget /\
    (truncated' = false -> truncated = false /\ Forall2 annex_returned l texts /\
       Forall (fun x => ax_truncated x = false) texts).
Proof.
  induction l as [|a l IH]; intros budget truncated Hb; cbn [emit_annexes].
  { exists [], truncated. split_and!; try done. exists 0%nat. constructor. }
  destruct (Z.eqb_spec budget 0) as [->|Hne].
  { exists [], true. split_and!; try done. exists 0%nat. constructor. }
  destruct (clip_spec (E := E) (lx_text a) (Z.min ANNEX_TEXT_LIMIT budget)) as (piece & cut & -> & Hc);
    [unfold ANNEX_TEXT_LIMIT; lia|].
  pose proof Hc as (rest & Ht & Hl & _). unfold checked_sub. rewrite (proj2 (Z.leb_le _ _)) by lia.
  destruct (IH (budget - slen piece) (truncated || cut)) as (texts & t & -> & (k & Hk) & Hs & Hf); [lia|].
  match goal with |- context [Ok (?x :: texts, t)] => assert (Hx : annex_returned a x) end.
  { unfold annex_returned. cbn. split_and!; try done; [by eexists|lia]. }
  eexists _, t. split; [done|]. split_and!.
  - exists (S k). cbn [take]. by constructor.
  - unfold annexes_size in *. cbn. lia.
  - intros Hft. destruct (Hf Hft) as ([? ?]%orb_false_iff & Hall & Hnone). split_and!; try done; by constructor.
Qed.

(** * Picks *)

Lemma position_Some {A} (p : A -> bool) l i :
  position p l = Some i <-> (exists x, l !! i = Some x /\ p x = true) /\ forall j y, (j < i)%nat -> l !! j = Some y -> p y = false.
Proof.
  revert i. induction l as [|x l IH]; intros i; cbn [position].
  { split; [done|]. by intros [(? & ? & _) _]. }
  destruct (p x) eqn:E.
  - split.
    + intros [= <-]. split; [by exists x|]. intros j y Hj. lia.
    + intros [(y & Hy & Hp) Hno]. destruct i as [|i]; [done|]. specialize (Hno 0%nat x ltac:(lia) eq_refl). congruence.
  - split.
    + intros (i' & Hi & ->)%fmap_Some. apply IH in Hi as [Hx Hno]. split; [done|].
      intros [|j] y Hj Hy; [by injection Hy as <-|]. apply (Hno j); [lia|done].
    + intros [(y & Hy & Hp) Hno]. destruct i as [|i]; [injection Hy as <-; congruence|].
      apply fmap_Some. exists i. split; [|done]. apply IH. split; [by exists y|].
      intros j z Hj Hz. apply (Hno (S j)); [lia|done].
Qed.

(** The list around the position *)
Lemma position_split {A} (p : A -> bool) l :
  match position p l with
  | Some i => exists a x b, l = a ++ x :: b /\ i = length a /\ p x = true
  | None => Forall (fun x => p x = false) l
  end.
Proof.
  induction l as [|y l IH]; cbn [position]; [by apply Forall_nil|]. destruct (p y) eqn:E; [by exists [], y, l|].
  destruct (position p l) as [i|]; cbn [fmap option_fmap option_map].
  - destruct IH as (a & x & b & -> & -> & Hx). by exists (y :: a), x, b.
  - by apply Forall_cons.
Qed.

Lemma position_lt {A} (p : A -> bool) l i : position p l = Some i -> (i < length l)%nat.
Proof. intros [(x & Hx & _) _]%position_Some. by apply lookup_lt_Some in Hx. Qed.

Lemma find_placed_lt placed wanted i : find_placed placed wanted = Some i -> (i < length placed)%nat.
Proof.
  unfold find_placed. destruct (position _ placed) eqn:E; [intros [= <-]; by apply position_lt in E|].
  destruct (_ && _); [apply position_lt|done].
Qed.

Lemma keyword_positions_spec wanted placed i j :
  j ∈ (keyword_positions wanted i placed).*1 <->
  exists p, placed !! (j - i)%nat = Some p /\ (i <= j)%nat /\ contains_str wanted (compact (la_text (pl_article p))) = true.
Proof.
  revert i. induction placed as [|q placed IH]; intros i; cbn [keyword_positions].
  { split; [by intros ?%elem_of_nil|by intros (? & ? & _)]. }
  rewrite fmap_app, elem_of_app, IH. split.
  - intros [Hj|(p & Hp & Hle & Hc)].
    + destruct (contains_str _ _) eqn:E; [|by apply elem_of_nil in Hj]. apply list_elem_of_singleton in Hj as ->. cbn.
      exists q. rewrite Nat.sub_diag. done.
    + exists p. replace (j - i)%nat with (S (j - S i)) by lia. split; [done|]. split; [lia|done].
  - intros (p & Hp & Hle & Hc). destruct (decide (j = i)) as [->|Hne].
    + left. rewrite Nat.sub_diag in Hp. injection Hp as <-. rewrite Hc. by left.
    + right. exists p. replace (j - i)%nat with (S (j - S i)) in Hp by lia. split; [done|]. split; [lia|done].
Qed.

(** The articles around the one that was asked for *)
Definition window (placed : list Placed) (article : option ArticleNumber) (context : Z) : list nat :=
  match article ≫= find_placed placed with
  | Some i =>
    let c := Z.to_nat context in
    seq (i - c) (Nat.min (i + c + 1) (length placed) - (i - c))
  | None => []
  end.

Lemma window_lt placed article context : Forall (fun i => (i < length placed)%nat) (window placed article context).
Proof.
  unfold window. destruct (article ≫= find_placed placed) as [i|] eqn:E; [|constructor].
  apply Forall_seq. intros j Hj. lia.
Qed.

(** What was picked: the window, the chapter, and the articles with the keyword *)
Definition picked_of (input : ArticleReadInput) (article : option ArticleNumber) (heading : option (char * Z))
  (units : list OutlineUnit) (placed : list Placed) (picked : list nat) : Prop :=
  exists chapter words, picked = window placed article (ri_context input) ++ chapter ++ words /\
    match heading with
    | None => chapter = []
    | Some (level, number) =>
      chapter = [] /\ forallb (fun x => negb (is_heading level number x)) units = true \/
      exists pre text post, units = pre ++ Heading level number text :: post /\
        forallb (fun x => negb (is_heading level number x)) pre = true /\
        chapter = seq (length (articles pre)) (length (articles (under (heading_rank level) post)))
    end /\
    match ri_keyword input with
    | None => words = []
    | Some keyword => forall i, i ∈ words <-> exists p, placed !! i = Some p /\
        contains_str (compact keyword) (compact (la_text (pl_article p))) = true
    end.

Lemma pick_article_picked placed article context k :
  pk_picked (pick_article placed article context k) = pk_picked k ++ window placed article context.
Proof.
  unfold pick_article, window. destruct article as [wanted|]; cbn [pk_picked is_some negb andb mbind option_bind fst snd]; [|by rewrite app_nil_r].
  destruct (find_placed placed wanted); cbn [pk_picked is_some negb andb mbind option_bind fst snd]; [done|by rewrite app_nil_r].
Qed.

Lemma pick_chapter_picked w heading k :
  pk_picked (pick_chapter w heading k) = pk_picked k ++ (if is_some heading && wk_found w then wk_chapter w else []).
Proof.
  unfold pick_chapter. destruct heading; cbn [pk_picked is_some negb andb mbind option_bind fst snd]; [|by rewrite app_nil_r].
  destruct (wk_found w); cbn [pk_picked is_some negb andb mbind option_bind fst snd]; [done|by rewrite app_nil_r].
Qed.

Lemma pick_keyword_picked placed keyword k :
  pk_picked (pick_keyword placed keyword k) =
  pk_picked k ++ match keyword with Some w => (keyword_positions (compact w) 0 placed).*1 | None => [] end.
Proof. unfold pick_keyword. destruct keyword; cbn [pk_picked is_some negb andb mbind option_bind fst snd]; [done|by rewrite app_nil_r]. Qed.

(** A list is without a heading, or splits at the first one. *)
Lemma first_heading level number us :
  forallb (fun x => negb (is_heading level number x)) us = true \/
  exists pre text post, us = pre ++ Heading level number text :: post /\
    forallb (fun x => negb (is_heading level number x)) pre = true.
Proof.
  induction us as [|x us IH]; [by left|]. cbn [forallb]. destruct (is_heading level number x) eqn:E.
  - right. destruct x as [l n text|a]; [|done]. apply andb_true_iff in E as [->%Z.eqb_eq ->%Z.eqb_eq].
    by exists [], text, us.
  - destruct IH as [H|(pre & text & post & -> & H)]; [by left|right].
    exists (x :: pre), text, post. cbn [forallb app]. by rewrite E.
Qed.

Lemma under_articles rank us : (length (articles (under rank us)) <= length (articles us))%nat.
Proof.
  induction us as [|x us IH]; cbn [under]; [done|]. destruct (closes rank x); [cbn; lia|].
  destruct x as [l n t|a]; [done|]. change (articles (Article a :: ?l)) with (a :: articles l). cbn. lia.
Qed.

Lemma picks_ok input article heading units :
  let w := walk_units heading units in
  let picked := window (wk_placed w) article (ri_context input)
    ++ (if is_some heading && wk_found w then wk_chapter w else [])
    ++ match ri_keyword input with Some k => (keyword_positions (compact k) 0 (wk_placed w)).*1 | None => [] end in
  picked_of input article heading units (wk_placed w) picked /\
  Forall (fun i => (i < length (wk_placed w))%nat) picked.
Proof.
  intros w picked. destruct (walk_placed heading units) as [Hlen _]. fold w in Hlen.
  apply (f_equal length) in Hlen. rewrite length_fmap in Hlen.
  assert (Hchapter : match heading with
    | None => (if is_some heading && wk_found w then wk_chapter w else []) = []
    | Some (level, number) =>
      (if is_some heading && wk_found w then wk_chapter w else []) = []
        /\ forallb (fun x => negb (is_heading level number x)) units = true \/
      exists pre text post, units = pre ++ Heading level number text :: post /\
        forallb (fun x => negb (is_heading level number x)) pre = true /\
        (if is_some heading && wk_found w then wk_chapter w else [])
          = seq (length (articles pre)) (length (articles (under (heading_rank level) post)))
    end).
  { destruct heading as [[level number]|]; [|done]. cbn [is_some andb].
    destruct (walk_chapter (Some (level, number)) level number units eq_refl) as [Hno Hyes]. fold w in Hno, Hyes.
    destruct (first_heading level number units) as [H|(pre & text & post & E & H)].
    - left. split; [|done]. by destruct (Hno H) as [-> _].
    - right. exists pre, text, post. destruct (Hyes pre text post E H) as [-> ->]. done. }
  split.
  - eexists _, _. split; [reflexivity|]. split; [exact Hchapter|]. destruct (ri_keyword input) as [k|]; [|done].
    intros i. rewrite keyword_positions_spec, Nat.sub_0_r. split; intros (p & Hp & H); exists p; [tauto|].
    split; [done|]. split; [lia|tauto].
  - unfold picked. rewrite !Forall_app. split_and!; [apply window_lt| |].
    + destruct heading as [[level number]|]; [|constructor].
      destruct Hchapter as [[-> _]|(pre & text & post & E & _ & ->)]; [constructor|].
      apply Forall_seq. intros j Hj. rewrite Hlen, E. pose proof (under_articles (heading_rank level) post).
      unfold articles in *. rewrite omap_app, length_app. cbn. lia.
    + destruct (ri_keyword input) as [k|]; [|constructor]. apply Forall_forall.
      intros i (p & Hp & _)%keyword_positions_spec. apply lookup_lt_Some in Hp. lia.
Qed.

(** The annexes of the sections with the label that was asked for, those with the
    provider's text first *)
Definition wanted_annexes (annex : option AnnexLabel) (sections : list LegalSection) : list LocatedAnnex :=
  match annex with
  | Some wanted =>
    List.filter (fun a => bool_decide (lx_label a = wanted))
      (sort_by_flag (fun a => negb (bool_decide (lx_kind a = ProviderText))) (omap annex_of sections))
  | None => []
  end.

(** What a read of a capture returns *)
Definition capture_read (input : ArticleReadInput) (article : option ArticleNumber) (heading : option (char * Z))
  (annex : option AnnexLabel) (sections : list LegalSection)
  (arts : list ArticleUnit) (texts : list AnnexText) (truncated : bool) : Prop :=
  exists units placed picked, outline (E := ToolError) sections = Ok units /\ placed_of units placed /\
    picked_of input article heading units placed picked /\
    (exists k, Forall2 (returned placed) (take k (first_seen ∅ picked)) arts) /\
    (exists k, Forall2 annex_returned (take k (wanted_annexes annex sections)) texts) /\
    units_size arts + annexes_size texts <= READ_BUDGET /\
    (truncated = false ->
       Forall2 (returned placed) (first_seen ∅ picked) arts /\ Forall (fun x => au_truncated x = false) arts /\
       Forall2 annex_returned (wanted_annexes annex sections) texts /\ Forall (fun x => ax_truncated x = false) texts).

Lemma read_capture_spec input article heading annex capture :
  exists k arts texts entries labels truncated,
    read_capture input article heading annex capture = Ok (k, arts, texts, entries, labels, truncated) /\
    capture_read input article heading annex (lr_sections (cp_record capture)) arts texts truncated.
Proof.
  unfold read_capture. set (sections := lr_sections (cp_record capture)).
  destruct (outline_units (E := ToolError) sections) as (units & Ho & _). rewrite Ho.
  rewrite pick_keyword_picked, pick_chapter_picked, pick_article_picked. cbn [pk_picked app]. rewrite <- app_assoc.
  destruct (picks_ok input article heading units) as [Hpicked Hlt]. cbv zeta in Hpicked, Hlt.
  set (picked := window _ _ _ ++ _) in *.
  destruct (emit_spec (E := ToolError) (wk_placed (walk_units heading units)) picked ∅ READ_BUDGET false ltac:(done) Hlt)
    as (arts & budget & t & -> & Hk & Hb & Hsize & Ht).
  unfold annexes. rewrite annex_sections_spec.
  fold (wanted_annexes annex sections).
  destruct (emit_annexes_spec (E := ToolError) (wanted_annexes annex sections) budget t Hb)
    as (texts & t' & Hrun & Hka & Hasize & Hta).
  rewrite Hrun.
  eexists _, arts, texts, _, _, _. split; [reflexivity|].
  exists units, (wk_placed (walk_units heading units)), picked.
  split_and!; [done|apply walk_placed|done|done|done|lia|].
  intros [Hf _]%orb_false_iff. destruct (Hta Hf) as (Hf' & ? & ?). destruct (Ht Hf') as (_ & ? & ?). done.
Qed.

(** * The tool *)

Section tool.
Context (corpus : Corpus) `{CharTables}.

(** The revision that is read: the one that was given, the one in force on the date, or
    the head *)
Definition selector_of (object : ObjectId) (input : ArticleReadInput)
  (r : RevisionSelector * option InForceSelection) : Prop :=
  match ri_selector input, ri_date input with
  | Some selector, None => r = (selector, None)
  | None, Some date => exists m entries complete selection,
      revisions (fun k => history corpus (m + k) object) = Ok (entries, complete) /\
      selection_of corpus object entries complete date selection /\
      selected_revision selection = Some r.1 /\ r.2 = Some selection
  | _, _ => r = (Head, None)
  end.

Lemma read_selector_yields object input :
  yields (read_selector corpus object input) (selector_of object input).
Proof.
  unfold read_selector, selector_of. destruct (ri_selector input) as [s|], (ri_date input) as [date|];
    try by apply yields_ret.
  destruct (negb _); [apply yields_throw|].
  eapply yields_bind; [apply revisions_tool_yields|]. intros [entries complete] [m Hm].
  eapply yields_bind; [apply selection_for_yields|]. intros selection Hs.
  destruct (if_selected selection) as [c|] eqn:E; [|apply yields_throw]. apply yields_ret.
  exists m, entries, complete, selection. split_and!; try done. unfold selected_revision. by rewrite E.
Qed.

Lemma supplied_yields {A} (parse : str -> result (stop ToolError) (option A)) value :
  (forall v, exists o, parse v = Ok o) ->
  yields (supplied parse value) (fun o => match value with
    | None => o = None
    | Some v => exists a, o = Some a /\ parse v = Ok (Some a)
    end).
Proof.
  intros Hp. unfold supplied. destruct value as [v|]; [|by apply yields_ret].
  destruct (Hp v) as [o Ho]. eapply yields_bind; [by apply (yields_pure _ o (eq o))|]. intros ? <-.
  destruct o as [a|]; [|apply yields_throw]. apply yields_ret. by exists a.
Qed.

Lemma parse_heading_reads {E} value : exists o, @parse_heading E value = Ok o.
Proof. unfold parse_heading. eexists. apply heading_at_reads. Qed.

Definition locator_read {A} (parse : str -> result (stop ToolError) (option A)) (value : option str) (o : option A) : Prop :=
  match value with
  | None => o = None
  | Some v => exists a, o = Some a /\ parse v = Ok (Some a)
  end.

Definition read_ok (input : ArticleReadInput) (r : ArticleReadResult) : Prop :=
  exists article heading annex selector capture,
    locator_read parse_article_number (ri_article input) article /\
    locator_read parse_heading (ri_chapter input) heading /\
    locator_read parse_annex_label (ri_annex input) annex /\
    object_of corpus (H := KOREA) (ri_object input) (ri_law_name input) REVISIONED (rr_object r, rr_resolution r) /\
    selector_of (rr_object r) input (selector, rr_selection r) /\
    answered corpus (rr_object r) selector (Ok capture) /\
    rr_law_title r = lr_title (cp_record capture) /\ rr_revision_id r = lr_revision_id (cp_record capture) /\
    rr_capture_id r = cp_capture_id capture /\
    capture_read input article heading annex (lr_sections (cp_record capture)) (rr_articles r) (rr_annexes r)
      (rr_truncated r).

Lemma read_articles_yields input : yields (read_articles corpus input) (read_ok input).
Proof.
  unfold read_articles. destruct (read_refused input); [apply yields_throw|].
  eapply yields_bind; [apply supplied_yields; intros v; eexists; apply parse_article_number_reads|]. intros article Ha.
  eapply yields_bind; [apply supplied_yields, parse_heading_reads|]. intros heading Hh.
  eapply yields_bind; [apply supplied_yields; intros v; eexists; apply parse_annex_label_reads|]. intros annex Hx.
  eapply yields_bind; [apply resolve_object_yields|]. intros [object resolution] Hobj.
  eapply yields_bind; [apply read_selector_yields|]. intros [selector selection] Hsel.
  eapply yields_bind; [apply (yields_call _ (answered corpus object selector)); intros n; by exists n|].
  intros answer Hans. destruct answer as [capture|e]; [|apply yields_throw].
  destruct (read_capture_spec input article heading annex capture)
    as (k & arts & texts & entries & labels & truncated & Hrun & Hread).
  eapply yields_bind; [by apply (yields_pure _ _ (eq (k, arts, texts, entries, labels, truncated)) Hrun)|]. intros ? <-. apply yields_ret.
  exists article, heading, annex, selector, capture. by split_and!.
Qed.

(** C19. A read of articles ends with a result or an error and never panics. Its locators
    read as they were given, its object and revision are those that were asked for, and
    the capture is what the database answered. The articles are those picked (the one
    asked for with its neighbours, the chapter, and all that contain the keyword), in
    this order, each once, with the headings above them; together with the annexes of the
    label they are at most 64 KiB, cut only at the end of whole characters; and a read
    that is not marked truncated returned all of them uncut. *)
Theorem read_articles_spec input n :
  answers (read_articles corpus input n) /\
  forall r n', read_articles corpus input n = Ok (r, n') -> read_ok input r.
Proof. apply yields_answers, read_articles_yields. Qed.
End tool.

(** The walk over an outline finds the headings above every article and the chapter.
    The headings above an article are those in front of it that no later heading of
    their rank or a higher one has closed; and a chapter consists of exactly the
    articles that stand under the first heading with the level and number, up to the
    next heading of its rank or a higher one. *)
Theorem walk_spec level number units :
  let w := walk_units (Some (level, number)) units in
  placed_of units (wk_placed w) /\
  (forallb (fun x => negb (is_heading level number x)) units = true -> wk_found w = false /\ wk_chapter w = []) /\
  (forall pre text post, units = pre ++ Heading level number text :: post ->
    forallb (fun x => negb (is_heading level number x)) pre = true ->
    wk_found w = true /\
    wk_chapter w = seq (length (articles pre)) (length (articles (under (heading_rank level) post)))).
Proof.
  intros w. split; [apply walk_placed|]. by apply walk_chapter.
Qed.

(** * Witnesses *)

#[local] Existing Instance example_tables.

(** An article with its neighbours, a chapter, a keyword and an annex, in the revision
    in force on a date *)
Definition sample_read : ArticleReadInput :=
  {| ri_object := None; ri_law_name := Some (u "시험법"); ri_selector := None;
     ri_date := Some (u "20220501"); ri_article := Some (u "9-5"); ri_context := 1; ri_chapter := Some (u "2장");
     ri_keyword := Some (u "이규정"); ri_annex := Some (u "별표 1") |}.

Abbreviation read_run := (read_articles dated_corpus sample_read 0%nat).

(** The neighbours come first, then the article with the keyword; the annex is missing. *)
Example sample_articles :
  match read_run with
  | Ok (r, _) => ((fun a => (au_article a, au_path a)) <$> rr_articles r, rr_warnings r, rr_truncated r)
  | Err _ => ([], [], true)
  end
  = ([(u "제1-2조", [u "제1장 총칙"]); (u "제9-5조", [u "제2장 거래"]); (u "제9-5조의2", [u "제2장 거래"]);
      (u "제1-1조", [u "제1장 총칙"])], [u "annex_not_found"], false).
Proof. vm_compute. reflexivity. Qed.

Lemma read_articles_spec_witness :
  exists r n', read_run = Ok (r, n') /\ read_ok dated_corpus sample_read r.
Proof.
  destruct (is_ok_runs read_run) as (r & n' & E); [vm_compute; reflexivity|]. exists r, n'. split; [exact E|].
  exact (proj2 (read_articles_spec dated_corpus sample_read 0%nat) r n' E).
Defined.

(** The second chapter of an outline with a section in it *)
Definition sample_chapter : list OutlineUnit := [Heading (ch "장") 1 (u "제1장 총칙")].
Definition sample_rest : list OutlineUnit :=
  [Heading (ch "절") 1 (u "제1절 통칙"); Heading (ch "장") 3 (u "제3장 벌칙")].

Lemma walk_spec_witness :
  forallb (fun x => negb (is_heading (ch "장") 2 x)) sample_chapter = true /\
  wk_found (walk_units (Some (ch "장", 2)) (sample_chapter ++ Heading (ch "장") 2 (u "제2장 거래") :: sample_rest)) = true.
Proof.
  assert (K : forallb (fun x => negb (is_heading (ch "장") 2 x)) sample_chapter = true) by (vm_compute; reflexivity).
  split; [exact K|].
  exact (proj1 (proj2 (proj2 (walk_spec (ch "장") 2
    (sample_chapter ++ Heading (ch "장") 2 (u "제2장 거래") :: sample_rest)))
    sample_chapter (u "제2장 거래") sample_rest eq_refl K)).
Defined.
