(* ===== verification/Citator.v ===== *)
(** Decisions that cite a case: [citing] of [apps/server/src/legal_analysis.rs]. *)

From stdpp Require Import sorting.
From S2P Require Import Prelude Utf8 Strings Domain Legal TextDiff Citation InForce InForceFacts Slices KrNames KrArticles KrLocators KrOutline KrCitations KrCitationsFacts KrExamples Profile CorpusTitles CorpusTitlesFacts CitationCheck CitationCheckFacts CitationCheckProperties ArticleRead ArticleReadFacts.

Definition MAX_CITING : Z := 50.
Definition MAX_CITING_LINES : Z := 3.

(** * Contracts of [crates/domain/src/legal_analysis.rs] *)

Record CitingDecision := {
  cd_object : ObjectId; cd_title : str; cd_case_number : option str; cd_judgment_date : option str;
  cd_authority : option str; cd_en_banc : bool; cd_overruling_phrase : option str; cd_lines : list str;
  cd_revision_id : str; cd_capture_id : str;
}.

Inductive CitatorSignal := OverrulingLanguageFound | NoneFound.

(** The constant [basis] is left out. *)
Record CitatorResult := {
  ct_case_number : str; ct_targets : list CaseRecordMatch; ct_citing : list CitingDecision;
  ct_signal : CitatorSignal; ct_truncated : bool; ct_corpus_complete : bool;
}.

(** * The loops *)

(** The loop over the records that carry the number *)
Fixpoint case_targets (number : str) (hits : list LineHit) (targets : list CaseRecordMatch)
  : result (stop ToolError) (list CaseRecordMatch) :=
  match hits with
  | [] => Ok targets
  | hit :: hits =>
    let? b := contains_case_number (lh_text hit) number in
    if b && negb (has_object cm_object (lh_object hit) targets)
    then case_targets number hits (targets ++ [case_match hit])
    else case_targets number hits targets
  end.

Definition EN_BANC : str := u "전원합의체".

(** The decision of its first hit *)
Definition new_decision (hit : LineHit) : CitingDecision :=
  {| cd_object := lh_object hit; cd_title := lh_title hit; cd_case_number := None; cd_judgment_date := None;
     cd_authority := None; cd_en_banc := contains_str EN_BANC (compact (lh_title hit));
     cd_overruling_phrase := None; cd_lines := []; cd_revision_id := lh_revision_id hit;
     cd_capture_id := lh_capture_id hit |}.

Definition with_lines (d : CitingDecision) (en_banc : bool) (phrase : option str) (lines : list str) : CitingDecision :=
  {| cd_object := cd_object d; cd_title := cd_title d; cd_case_number := cd_case_number d;
     cd_judgment_date := cd_judgment_date d; cd_authority := cd_authority d; cd_en_banc := en_banc;
     cd_overruling_phrase := phrase; cd_lines := lines; cd_revision_id := cd_revision_id d;
     cd_capture_id := cd_capture_id d |}.

(** A further line of a decision *)
Definition add_line (text : str) (d : CitingDecision) : CitingDecision :=
  let line := clip_chars text LINE_CHARS in
  if existsb (str_eqb line) (cd_lines d) then d else
  match overruling_phrase text, cd_overruling_phrase d with
  | Some phrase, None =>
    with_lines d (cd_en_banc d || contains_str EN_BANC (compact text)) (Some phrase)
      (take (Z.to_nat MAX_CITING_LINES) (line :: cd_lines d))
  | _, _ =>
    if zlen (cd_lines d) <? MAX_CITING_LINES
    then with_lines d (cd_en_banc d) (cd_overruling_phrase d) (cd_lines d ++ [line])
    else d
  end.

(** The loop over the lines that cite the number *)
Fixpoint citing_lines (number : str) (targets : list CaseRecordMatch) (hits : list LineHit)
  (citing : list CitingDecision) (truncated : bool) : result (stop ToolError) (list CitingDecision * bool) :=
  match hits with
  | [] => Ok (citing, truncated)
  | hit :: hits =>
    if has_object cm_object (lh_object hit) targets then citing_lines number targets hits citing truncated else
    let? b := contains_case_number (lh_text hit) number in
    if negb b then citing_lines number targets hits citing truncated else
    match position (fun c => bool_decide (cd_object c = lh_object hit)) citing with
    | Some i => citing_lines number targets hits (alter (add_line (lh_text hit)) i citing) truncated
    | None =>
      if zlen citing =? MAX_CITING then citing_lines number targets hits citing true
      else
        let citing := citing ++ [new_decision hit] in
        citing_lines number targets hits (alter (add_line (lh_text hit)) (length citing - 1)%nat citing) truncated
    end
  end.

(** [Option::cmp] of dates, the later one first *)
Definition opt_cmp (a b : option str) : comparison :=
  match a, b with
  | None, None => Eq
  | None, Some _ => Lt
  | Some _, None => Gt
  | Some a, Some b => str_cmp a b
  end.
Definition newest_first (a b : CitingDecision) : comparison := opt_cmp (cd_judgment_date b) (cd_judgment_date a).

Definition with_metadata (d : CitingDecision) (metadata : gmap str str) : CitingDecision :=
  {| cd_object := cd_object d; cd_title := cd_title d; cd_case_number := metadata !! u "case_number";
     cd_judgment_date := metadata !! u "judgment_date"; cd_authority := metadata !! u "authority";
     cd_en_banc := cd_en_banc d; cd_overruling_phrase := cd_overruling_phrase d; cd_lines := cd_lines d;
     cd_revision_id := cd_revision_id d; cd_capture_id := cd_capture_id d |}.

Section tools.
Context (corpus : Corpus) `{CharTables}.

Definition head_metadata (object : ObjectId) : tool (result DatabaseError MetadataResult) :=
  let! answer := call (fun n => get_metadata corpus n object Head) in
  match answer with
  | Err Legal.Cancelled => throw Tool.Unavailable
  | answer => ret answer
  end.

Fixpoint describe (citing : list CitingDecision) : tool (list CitingDecision) :=
  match citing with
  | [] => ret []
  | d :: citing =>
    let! answer := head_metadata (cd_object d) in
    let d := match answer with Ok m => with_metadata d (mr_metadata m) | Err _ => d end in
    let! citing := describe citing in
    ret (d :: citing)
  end.

Definition signal (citing : list CitingDecision) : CitatorSignal :=
  if existsb (fun d => is_some (cd_overruling_phrase d)) citing then OverrulingLanguageFound else NoneFound.

Definition courts : list Dataset := [Precedent; ConstitutionalDecision].

(** The search of a section of the courts' records *)
Definition court_query (section : str) : LineQuery :=
  {| lq_section := section; lq_datasets := courts; lq_object := None; lq_history := false |}.

Definition citing (input : str) : tool CitatorResult :=
  if negb (valid_text input 128) then throw Tool.InvalidInput else
  let! number := pure (parse_case_number input) in
  match number with
  | None => throw Tool.InvalidInput
  | Some number =>
    let! found_targets := lines_tool corpus (court_query (u "case_number")) [case_pattern number] in
    let! targets := pure (case_targets number (ll_hits found_targets) []) in
    let! found := lines_tool corpus (court_query (u "body")) [case_pattern number] in
    let! (citing, truncated) :=
      pure (citing_lines number targets (ll_hits found) [] (ll_truncated found_targets || ll_truncated found)) in
    let! citing := describe citing in
    let citing := sort_by (fun a b => cmp_leb (newest_first a b)) citing in
    ret {| ct_case_number := number; ct_targets := targets; ct_citing := citing; ct_signal := signal citing;
           ct_truncated := truncated;
           ct_corpus_complete := ll_corpus_complete found_targets && ll_corpus_complete found |}
  end.
End tools.

(** * What the list of citing decisions says

    What the list of citing decisions promises: every retained line that cites the
    number is accounted for, the lines and phrases of a decision are its own, and the
    decisions are ordered by their date. *)

(** * Lines of a decision *)

Lemma overruling_trim text : overruling_phrase (trim text) = overruling_phrase text.
Proof.
  unfold overruling_phrase. enough (without_whitespace (trim text) = without_whitespace text) as -> by done.
  destruct (trim_split is_whitespace text) as (a & b & Ht & Ha & Hb).
  assert (Hw : forall s, forallb is_whitespace s = true -> without_whitespace s = []).
  { clear. induction s as [|c s IH]; [done|]. cbn. intros [-> Hs]%andb_true_iff. cbn. by apply IH. }
  rewrite Ht at 2. unfold trim. by rewrite !without_whitespace_app, (Hw a Ha), (Hw b Hb), app_nil_r.
Qed.

Lemma clip_chars_short text : zlen (trim text) <= LINE_CHARS -> clip_chars text LINE_CHARS = trim text.
Proof. intros H. unfold clip_chars. by rewrite (proj2 (Z.ltb_ge _ _)) by done. Qed.

Lemma clip_chars_long text : LINE_CHARS < zlen (trim text) -> LINE_CHARS < zlen (clip_chars text LINE_CHARS).
Proof.
  intros H. unfold clip_chars. rewrite (proj2 (Z.ltb_lt _ _)) by done. unfold zlen in *.
  rewrite length_app, length_take. change (length (u "…")) with 1%nat. lia.
Qed.

(** Two short lines that are shown alike say alike. *)
Lemma clip_chars_says a b :
  zlen (trim a) <= LINE_CHARS -> clip_chars a LINE_CHARS = clip_chars b LINE_CHARS ->
  overruling_phrase a = overruling_phrase b.
Proof.
  intros Ha E. destruct (Z_le_gt_dec (zlen (trim b)) LINE_CHARS) as [Hb|Hb].
  - rewrite !clip_chars_short in E by done. by rewrite <- overruling_trim, E, overruling_trim.
  - apply Z.gt_lt, clip_chars_long in Hb. rewrite <- E, clip_chars_short in Hb by done. lia.
Qed.

#[local] Opaque overruling_phrase EN_BANC clip_chars.

(** What the texts [ts] of a decision leave in it *)
Record lines_ok (ts : list str) (d : CitingDecision) : Prop := {
  ln_few : zlen (cd_lines d) <= MAX_CITING_LINES;
  ln_distinct : NoDup (cd_lines d);
  ln_some : ts <> [] -> cd_lines d <> [];
  ln_own : Forall (fun line => exists t, t ∈ ts /\ line = clip_chars t LINE_CHARS) (cd_lines d);
  ln_phrase : forall p, cd_overruling_phrase d = Some p ->
    exists t, t ∈ ts /\ overruling_phrase t = Some p /\ clip_chars t LINE_CHARS ∈ cd_lines d;
  ln_none : cd_overruling_phrase d = None ->
    Forall (fun t => overruling_phrase t = None \/ LINE_CHARS < zlen (trim t)) ts;
}.

Lemma own_more ts t lines :
  Forall (fun line => exists t, t ∈ ts /\ line = clip_chars t LINE_CHARS) lines ->
  Forall (fun line => exists t', t' ∈ ts ++ [t] /\ line = clip_chars t' LINE_CHARS) lines.
Proof. intros H. eapply Forall_impl; [exact H|]. intros line (t' & Ht' & ?). exists t'. set_solver. Qed.

Lemma add_line_seen ts t d :
  clip_chars t LINE_CHARS ∈ cd_lines d -> lines_ok ts d -> lines_ok (ts ++ [t]) d.
Proof.
  intros Hin H. destruct H as [Hfew Hd Hs Ho Hp Hn]. split; try done.
  - intros _. by destruct (cd_lines d); [apply elem_of_nil in Hin|].
  - by apply own_more.
  - intros p E. destruct (Hp p E) as (t' & ? & ?). exists t'. set_solver.
  - intros E. apply Forall_app. split; [by apply Hn|]. apply Forall_singleton.
    destruct (Z_le_gt_dec (zlen (trim t)) LINE_CHARS) as [Hle|]; [|right; lia].
    rewrite Forall_forall in Ho. destruct (Ho _ Hin) as (t' & Ht' & Et).
    specialize (Hn E). rewrite Forall_forall in Hn. destruct (Hn t' Ht') as [Hno|Hlong].
    + left. by rewrite (clip_chars_says t t').
    + apply clip_chars_long in Hlong. rewrite <- Et, clip_chars_short in Hlong by done. lia.
Qed.

Lemma add_line_phrase ts t d p en_banc :
  clip_chars t LINE_CHARS ∉ cd_lines d -> overruling_phrase t = Some p -> lines_ok ts d ->
  lines_ok (ts ++ [t]) (with_lines d en_banc (Some p) (take (Z.to_nat MAX_CITING_LINES) (clip_chars t LINE_CHARS :: cd_lines d))).
Proof.
  intros Hnew E H. destruct H as [Hfew Hd Hs Ho Hp Hn]. split; cbn [with_lines cd_lines cd_overruling_phrase].
  - unfold zlen. rewrite length_take. unfold MAX_CITING_LINES. lia.
  - eapply sublist_NoDup; [|apply sublist_take]. by constructor.
  - done.
  - apply Forall_take. constructor; [exists t; set_solver|]. by apply own_more.
  - intros q [= <-]. exists t. split_and!; [set_solver|done|by left].
  - done.
Qed.

Lemma add_line_push ts t d :
  clip_chars t LINE_CHARS ∉ cd_lines d -> (overruling_phrase t = None \/ cd_overruling_phrase d <> None) ->
  lines_ok ts d ->
  lines_ok (ts ++ [t])
    (if zlen (cd_lines d) <? MAX_CITING_LINES
     then with_lines d (cd_en_banc d) (cd_overruling_phrase d) (cd_lines d ++ [clip_chars t LINE_CHARS])
     else d).
Proof.
  intros Hnew E H. destruct H as [Hfew Hd Hs Ho Hp Hn].
  assert (Hnone : cd_overruling_phrase d = None ->
    Forall (fun t => overruling_phrase t = None \/ LINE_CHARS < zlen (trim t)) (ts ++ [t])).
  { intros En. apply Forall_app. split; [by apply Hn|]. apply Forall_singleton. tauto. }
  destruct (Z.ltb_spec (zlen (cd_lines d)) MAX_CITING_LINES) as [Hlt|Hge]; split;
    cbn [with_lines cd_lines cd_overruling_phrase]; try done.
  - unfold zlen in *. rewrite length_app. cbn. lia.
  - apply NoDup_app. split_and!; [done| |apply NoDup_singleton]. by intros l Hl ->%list_elem_of_singleton.
  - intros _. by destruct (cd_lines d).
  - apply Forall_app. split; [by apply own_more|]. apply Forall_singleton. exists t. set_solver.
  - intros p Ep. destruct (Hp p Ep) as (t' & ? & ? & ?). exists t'. set_solver.
  - intros _ En. rewrite En in Hge. by vm_compute in Hge.
  - by apply own_more.
  - intros p Ep. destruct (Hp p Ep) as (t' & ? & ? & ?). exists t'. set_solver.
Qed.

Lemma add_line_ok ts t d : lines_ok ts d -> lines_ok (ts ++ [t]) (add_line t d).
Proof.
  intros H. unfold add_line. destruct (existsb _ (cd_lines d)) eqn:Ex.
  - apply add_line_seen; [|done]. apply existsb_exists in Ex as (l & Hl & ->%str_eqb_eq). by apply list_elem_of_In.
  - assert (Hnew : clip_chars t LINE_CHARS ∉ cd_lines d).
    { intros Hin. apply not_true_iff_false in Ex. apply Ex, existsb_exists.
      eexists. split; [by apply list_elem_of_In|]. by apply str_eqb_eq. }
    destruct (overruling_phrase t) as [p|] eqn:E; [|by apply add_line_push; auto].
    destruct (cd_overruling_phrase d) eqn:Ed.
    + rewrite <- Ed. apply add_line_push; [done| |done]. right. congruence.
    + by apply add_line_phrase.
Qed.

(** The texts of a decision, from first to last *)
Definition add_lines (ts : list str) (d : CitingDecision) : CitingDecision := fold_left (fun d t => add_line t d) ts d.

Lemma add_lines_ok hit ts : lines_ok ts (add_lines ts (new_decision hit)).
Proof.
  induction ts as [|t ts IH] using rev_ind.
  - split; cbn [new_decision cd_lines cd_overruling_phrase]; [done|constructor|done|constructor|done|by intros _; constructor].
  - unfold add_lines in *. rewrite fold_left_app. by apply add_line_ok.
Qed.

Lemma add_line_object t d : cd_object (add_line t d) = cd_object d.
Proof.
  unfold add_line. destruct (existsb _ _); [done|].
  destruct (overruling_phrase t), (cd_overruling_phrase d); try done; by destruct (_ <? _).
Qed.

(** The hit that a decision was made of *)
Definition made_of (hit : LineHit) (d : CitingDecision) : Prop :=
  cd_object d = lh_object hit /\ cd_title d = lh_title hit /\ cd_revision_id d = lh_revision_id hit /\
  cd_capture_id d = lh_capture_id hit.

Lemma add_line_made t hit d : made_of hit d -> made_of hit (add_line t d).
Proof.
  intros H. unfold add_line. destruct (existsb _ _); [done|].
  destruct (overruling_phrase t), (cd_overruling_phrase d); try done; by destruct (_ <? _).
Qed.

Lemma add_lines_made ts hit : made_of hit (add_lines ts (new_decision hit)).
Proof.
  induction ts as [|t ts IH] using rev_ind; [done|]. unfold add_lines in *. rewrite fold_left_app. by apply add_line_made.
Qed.

(** * Records with the number *)

(** The line has the number; the test never panics. *)
Definition cites (number : str) (hit : LineHit) : bool :=
  match contains_case_number (lh_text hit) number with Ok b => b | Err _ => false end.

Lemma cites_runs number hit : contains_case_number (lh_text hit) number = Ok (cites number hit).
Proof. unfold cites. destruct (contains_case_number_spec (lh_text hit) number) as (b & -> & _). done. Qed.

Lemma cites_stands number hit : cites number hit = true -> stands_in number (lh_text hit).
Proof.
  destruct (contains_case_number_spec (lh_text hit) number) as (b & E & H). rewrite cites_runs in E.
  injection E as ->. exact H.
Qed.

(** The objects of the hits with the number, each once, for its first hit *)
Definition targets_of (number : str) (hits : list LineHit) (ms : list CaseRecordMatch) : Prop :=
  NoDup (cm_object <$> ms) /\
  Forall (fun m => exists hit, hit ∈ hits /\ cites number hit = true /\ m = case_match hit) ms /\
  (forall hit, hit ∈ hits -> cites number hit = true -> lh_object hit ∈ cm_object <$> ms).

Lemma case_targets_spec number hits : forall done_ ms,
  targets_of number done_ ms ->
  exists ms', case_targets number hits ms = Ok ms' /\ targets_of number (done_ ++ hits) ms'.
Proof.
  induction hits as [|hit hits IH]; intros done_ ms H; cbn [case_targets].
  { exists ms. by rewrite app_nil_r. }
  replace (done_ ++ hit :: hits) with ((done_ ++ [hit]) ++ hits) by by rewrite <- app_assoc.
  rewrite cites_runs. destruct H as (Hn & Hf & Hc).
  assert (Hold : Forall (fun m => exists h, h ∈ done_ ++ [hit] /\ cites number h = true /\ m = case_match h) ms).
  { eapply Forall_impl; [exact Hf|]. intros m (h & Hh & ?). exists h. set_solver. }
  destruct (cites number hit) eqn:E; cbn [andb].
  - destruct (has_object cm_object (lh_object hit) ms) eqn:Eo; cbn [negb]; apply IH; split_and!; try done.
    + intros h [Hh| ->%list_elem_of_singleton]%elem_of_app Hch; [by apply Hc|by apply has_object_elem].
    + rewrite fmap_app. change (cm_object <$> [case_match hit]) with [lh_object hit].
      apply NoDup_app. split_and!; [done| |apply NoDup_singleton].
      intros o Ho ->%list_elem_of_singleton. apply has_object_elem in Ho. congruence.
    + apply Forall_app. split; [done|]. apply Forall_singleton. exists hit. set_solver.
    + intros h [Hh| ->%list_elem_of_singleton]%elem_of_app Hch; rewrite fmap_app; apply elem_of_app;
        [left; by apply Hc|right; by left].
  - apply IH. split_and!; try done.
    intros h [Hh| ->%list_elem_of_singleton]%elem_of_app Hch; [by apply Hc|congruence].
Qed.

(** * Decisions *)

(** The hits of an object *)
Definition of_object (o : ObjectId) (hits : list LineHit) : list LineHit :=
  List.filter (fun h => bool_decide (lh_object h = o)) hits.

(** A decision is its first hit with the lines of all its hits. *)
Definition gathered (hits : list LineHit) (d : CitingDecision) : Prop :=
  exists hit more, of_object (cd_object d) hits = hit :: more /\
    d = add_lines (lh_text <$> hit :: more) (new_decision hit).

(** The decisions of the citing hits; when the limit is reached, those of later objects
    are left out and the result is marked. *)
Definition listed (t0 : bool) (hits : list LineHit) (citing : list CitingDecision) (t : bool) : Prop :=
  NoDup (cd_object <$> citing) /\ zlen citing <= MAX_CITING /\ Forall (gathered hits) citing /\
  (forall hit, hit ∈ hits -> lh_object hit ∈ cd_object <$> citing \/ (t = true /\ zlen citing = MAX_CITING)) /\
  (t0 = true -> t = true) /\ (t = true -> t0 = true \/ zlen citing = MAX_CITING).

Lemma of_object_snoc o hits hit :
  of_object o (hits ++ [hit]) = of_object o hits ++ (if bool_decide (lh_object hit = o) then [hit] else []).
Proof. unfold of_object. rewrite List.filter_app. cbn. by case_bool_decide. Qed.

Lemma gathered_other hits hit d : lh_object hit <> cd_object d -> gathered hits d -> gathered (hits ++ [hit]) d.
Proof.
  intros Hne (h & more & E & Hd). exists h, more. rewrite of_object_snoc, bool_decide_eq_false_2, app_nil_r by done. done.
Qed.

Lemma gathered_others hits hit l :
  lh_object hit ∉ cd_object <$> l -> Forall (gathered hits) l -> Forall (gathered (hits ++ [hit])) l.
Proof.
  rewrite !Forall_forall. intros Hnew Hg d Hd. apply gathered_other; [|by apply Hg].
  intros Heq. apply Hnew. rewrite Heq. by apply list_elem_of_fmap_2.
Qed.

Lemma gathered_own hits hit d :
  lh_object hit = cd_object d -> gathered hits d -> gathered (hits ++ [hit]) (add_line (lh_text hit) d).
Proof.
  intros Heq (h & more & E & Hd). exists h, (more ++ [hit]). rewrite add_line_object, of_object_snoc, E.
  rewrite bool_decide_eq_true_2 by done. split; [done|].
  rewrite app_comm_cons, fmap_app. unfold add_lines in *. rewrite fold_left_app, <- Hd. done.
Qed.

Lemma position_object o (citing : list CitingDecision) :
  match position (fun c => bool_decide (cd_object c = o)) citing with
  | Some i => exists l d r, citing = l ++ d :: r /\ i = length l /\ cd_object d = o
  | None => o ∉ cd_object <$> citing
  end.
Proof.
  pose proof (position_split (fun c => bool_decide (cd_object c = o)) citing) as P.
  destruct (position _ citing) as [i|].
  - destruct P as (l & d & r & ? & ? & Hd%bool_decide_eq_true). by exists l, d, r.
  - intros (d & -> & Hd)%list_elem_of_fmap. rewrite Forall_forall in P. specialize (P d Hd).
    by rewrite bool_decide_eq_true_2 in P.
Qed.

Lemma listed_more t0 hits hit citing t i :
  listed t0 hits citing t -> position (fun c => bool_decide (cd_object c = lh_object hit)) citing = Some i ->
  listed t0 (hits ++ [hit]) (alter (add_line (lh_text hit)) i citing) t.
Proof.
  intros (Hn & Hl & Hg & Hc & Ht & Ht') E. pose proof (position_object (lh_object hit) citing) as P. rewrite E in P.
  destruct P as (l & d & r & -> & -> & Hd).
  rewrite alter_app_r_alt by lia. rewrite Nat.sub_diag. cbn [alter list_alter].
  rewrite fmap_app, fmap_cons in Hn, Hc.
  assert (Hobj : cd_object <$> l ++ add_line (lh_text hit) d :: r = (cd_object <$> l) ++ cd_object d :: (cd_object <$> r)).
  { by rewrite fmap_app, fmap_cons, add_line_object. }
  unfold listed. rewrite Hobj. unfold zlen in *. rewrite length_app in *. cbn [length] in *.
  split_and!; try done; [|].
  - apply NoDup_app in Hn as (_ & Hnl & [Hnr _]%NoDup_cons).
    apply Forall_app in Hg as [Hgl [Hgd Hgr]%Forall_cons]. apply Forall_app. split; [|constructor].
    + apply gathered_others; [|done]. rewrite <- Hd. intros Hin. apply (Hnl _ Hin). by left.
    + by apply gathered_own.
    + apply gathered_others; [by rewrite <- Hd|done].
  - intros h [Hh| ->%list_elem_of_singleton]%elem_of_app; [by apply Hc|]. left. rewrite <- Hd. set_solver.
Qed.

Lemma listed_full t0 hits hit citing t :
  listed t0 hits citing t -> lh_object hit ∉ cd_object <$> citing -> zlen citing = MAX_CITING ->
  listed t0 (hits ++ [hit]) citing true.
Proof.
  intros (Hn & Hl & Hg & Hc & Ht & Ht') Hnew Hfull. split_and!; try done; [| |auto].
  - by apply gathered_others.
  - intros h [Hh| ->%list_elem_of_singleton]%elem_of_app; [|by right]. destruct (Hc h Hh); auto.
Qed.

(** What was listed covers every hit, so that a new object has no earlier hit. *)
Lemma new_object o hits (citing : list CitingDecision) :
  (forall hit, hit ∈ hits -> lh_object hit ∈ cd_object <$> citing) -> o ∉ cd_object <$> citing -> of_object o hits = [].
Proof.
  intros Hc Hnew. destruct (of_object o hits) as [|h l] eqn:E; [done|]. exfalso. apply Hnew.
  assert (Hin : h ∈ of_object o hits) by (rewrite E; by left).
  unfold of_object in Hin. apply list_elem_of_In, filter_In in Hin as [Hh <-%bool_decide_eq_true].
  by apply Hc, list_elem_of_In.
Qed.

Lemma listed_new t0 hits hit citing t :
  listed t0 hits citing t -> lh_object hit ∉ cd_object <$> citing -> zlen citing <> MAX_CITING ->
  listed t0 (hits ++ [hit]) (citing ++ [add_line (lh_text hit) (new_decision hit)]) t.
Proof.
  intros (Hn & Hl & Hg & Hc & Ht & Ht') Hnew Hroom.
  assert (Hc' : forall h, h ∈ hits -> lh_object h ∈ cd_object <$> citing) by (intros h Hh; by destruct (Hc h Hh) as [|[_ ?]]).
  unfold listed. rewrite fmap_app. change (cd_object <$> [?d]) with [cd_object d]. rewrite add_line_object. cbn [cd_object new_decision].
  unfold zlen in *. rewrite length_app. cbn [length]. split_and!; try done.
  - apply NoDup_app. split_and!; [done| |apply NoDup_singleton]. by intros o Ho ->%list_elem_of_singleton.
  - lia.
  - apply Forall_app. split.
    + by apply gathered_others.
    + apply Forall_singleton. exists hit, []. rewrite add_line_object. cbn [cd_object new_decision].
      rewrite of_object_snoc, (new_object _ _ _ Hc' Hnew), bool_decide_eq_true_2 by done. done.
  - intros h [Hh| ->%list_elem_of_singleton]%elem_of_app; left; apply elem_of_app; [left; by apply Hc'|right; by left].
  - intros Et. destruct (Ht' Et); [by left|done].
Qed.

(** The hits outside the targets that cite the number *)
Definition citing_hits (number : str) (targets : list CaseRecordMatch) (hits : list LineHit) : list LineHit :=
  List.filter (fun h => negb (has_object cm_object (lh_object h) targets) && cites number h) hits.

Lemma citing_lines_spec number targets t0 hits : forall done_ citing t,
  listed t0 done_ citing t ->
  exists citing' t', citing_lines number targets hits citing t = Ok (citing', t') /\
    listed t0 (done_ ++ citing_hits number targets hits) citing' t'.
Proof.
  induction hits as [|hit hits IH]; intros done_ citing t H; cbn [citing_lines citing_hits List.filter].
  { exists citing, t. by rewrite app_nil_r. }
  destruct (has_object cm_object (lh_object hit) targets); cbn [negb andb]; [by apply IH|].
  rewrite cites_runs. destruct (cites number hit); cbn [negb]; [|by apply IH].
  fold (citing_hits number targets hits).
  replace (done_ ++ hit :: citing_hits number targets hits) with ((done_ ++ [hit]) ++ citing_hits number targets hits)
    by by rewrite <- app_assoc.
  pose proof (position_object (lh_object hit) citing) as P.
  destruct (position _ citing) as [i|] eqn:E; [by apply IH, listed_more|].
  destruct (Z.eqb_spec (zlen citing) MAX_CITING) as [Hfull|Hroom]; [by apply IH; eapply listed_full|].
  apply IH. rewrite alter_app_r_alt by (rewrite length_app; cbn; lia).
  replace (length (citing ++ [new_decision hit]) - 1 - length citing)%nat with 0%nat by (rewrite length_app; cbn; lia).
  cbn [alter list_alter]. by apply listed_new.
Qed.

(** * Order and metadata *)

#[export] Instance opt_ordering : Ordering opt_cmp.
Proof.
  constructor.
  - intros [a|] [b|]; cbn; try done. apply cmp_opp.
  - intros [a|] [b|] [c|]; cbn; try done. apply cmp_le_trans.
Qed.

Lemma flip_ordering {A} (cmp : A -> A -> comparison) `{!Ordering cmp} : Ordering (fun a b => cmp b a).
Proof.
  constructor; intros; [apply cmp_opp|by eapply cmp_le_trans].
Qed.

#[export] Instance newest_ordering : Ordering newest_first.
Proof. pose proof (on_ordering cd_judgment_date opt_cmp) as H. exact (flip_ordering (on cd_judgment_date opt_cmp)). Qed.

Section tool.
Context (corpus : Corpus) `{CharTables}.

(** The decision with the metadata of its head, when they were read *)
Definition described (d d' : CitingDecision) : Prop :=
  exists n, d' = match get_metadata corpus n (cd_object d) Head with
    | Ok m => with_metadata d (mr_metadata m)
    | Err _ => d
    end.

Lemma head_metadata_yields object :
  yields (head_metadata corpus object) (fun a => exists n, a = get_metadata corpus n object Head).
Proof.
  unfold head_metadata. eapply yields_bind; [apply (yields_call _ (fun a => exists n, a = get_metadata corpus n object Head)); eauto|].
  intros a [n Ha]. destruct a as [m|[]]; try apply yields_throw; by apply yields_ret; exists n.
Qed.

Lemma describe_yields citing : yields (describe corpus citing) (Forall2 described citing).
Proof.
  induction citing as [|d citing IH]; cbn [describe]; [apply yields_ret; constructor|].
  eapply yields_bind; [apply head_metadata_yields|]. intros a [n Ha].
  eapply yields_bind; [exact IH|]. intros ds Hds. apply yields_ret. constructor; [|done].
  exists n. by rewrite <- Ha.
Qed.

(** A decision is its first hit, with the lines and the phrase of its hits, and
    with the metadata of its head or without. *)
Definition decision_of (hits : list LineHit) (d : CitingDecision) : Prop :=
  exists hit more, of_object (cd_object d) hits = hit :: more /\ made_of hit d /\
    lines_ok (lh_text <$> hit :: more) d /\ exists d0, described d0 d.

Lemma described_decision hits d d' : gathered hits d -> described d d' -> decision_of hits d' /\ cd_object d' = cd_object d.
Proof.
  intros (hit & more & E & Hd) [n Hd']. set (ts := lh_text <$> hit :: more) in *.
  pose proof (add_lines_made ts hit) as Hm. pose proof (add_lines_ok hit ts) as Hl. rewrite <- Hd in Hm, Hl.
  assert (Ho : cd_object d' = cd_object d) by (rewrite Hd'; by destruct (get_metadata _ _ _ _)).
  split; [|done]. exists hit, more. rewrite Ho. split; [done|].
  split_and!; [| |exists d; by exists n]; rewrite Hd'; destruct (get_metadata _ _ _ _) as [m|]; try done.
  destruct Hl. by split.
Qed.

(** The decisions of a result *)
Definition citing_reported (hits : list LineHit) (r : CitatorResult) : Prop :=
  NoDup (cd_object <$> ct_citing r) /\ zlen (ct_citing r) <= MAX_CITING /\
  Forall (decision_of hits) (ct_citing r) /\
  StronglySorted (ordered newest_first) (ct_citing r) /\
  (ct_truncated r = false -> Forall (fun hit => lh_object hit ∈ cd_object <$> ct_citing r) hits) /\
  (ct_signal r = NoneFound -> ct_truncated r = false ->
   Forall (fun hit => overruling_phrase (lh_text hit) = None \/ LINE_CHARS < zlen (trim (lh_text hit))) hits) /\
  (ct_signal r = OverrulingLanguageFound ->
   exists hit p, hit ∈ hits /\ overruling_phrase (lh_text hit) = Some p).

Definition citing_ok (input : str) (r : CitatorResult) : Prop :=
  exists found_targets found,
    parse_case_number (E := ToolError) input = Ok (Some (ct_case_number r)) /\
    lookup_ok corpus (court_query (u "case_number")) found_targets /\
    lookup_ok corpus (court_query (u "body")) found /\
    targets_of (ct_case_number r) (ll_hits found_targets) (ct_targets r) /\
    citing_reported (citing_hits (ct_case_number r) (ct_targets r) (ll_hits found)) r /\
    ct_corpus_complete r = ll_corpus_complete found_targets && ll_corpus_complete found /\
    (ct_truncated r = false -> ll_truncated found_targets = false /\ ll_truncated found = false).

(** The hits of the object of a decision are among those that were searched. *)
Lemma of_object_in o hits hit : hit ∈ of_object o hits <-> hit ∈ hits /\ lh_object hit = o.
Proof.
  unfold of_object. by rewrite list_elem_of_In, filter_In, bool_decide_eq_true, <- list_elem_of_In.
Qed.

Lemma signal_none ds : signal ds = NoneFound -> Forall (fun d => cd_overruling_phrase d = None) ds.
Proof.
  unfold signal. destruct (existsb _ ds) eqn:E; [done|]. intros _. apply Forall_forall. intros d Hd.
  destruct (cd_overruling_phrase d) eqn:Ed; [|done]. exfalso. apply not_true_iff_false in E. apply E, existsb_exists.
  exists d. rewrite Ed. split; [by apply list_elem_of_In|done].
Qed.

Lemma signal_found ds : signal ds = OverrulingLanguageFound -> exists d p, d ∈ ds /\ cd_overruling_phrase d = Some p.
Proof.
  unfold signal. destruct (existsb _ ds) eqn:E; [|done]. intros _. apply existsb_exists in E as (d & Hd & Hp).
  destruct (cd_overruling_phrase d) as [p|] eqn:Ed; [|done]. exists d, p. by rewrite list_elem_of_In.
Qed.

Lemma reported_decisions t0 hits citing t ds number targets complete :
  listed t0 hits citing t -> Forall2 described citing ds ->
  let sorted := sort_by (fun a b => cmp_leb (newest_first a b)) ds in
  citing_reported hits
    {| ct_case_number := number; ct_targets := targets; ct_citing := sorted; ct_signal := signal sorted;
       ct_truncated := t; ct_corpus_complete := complete |}.
Proof.
  intros (Hn & Hl & Hg & Hc & _ & _) Hd. cbn zeta. set (sorted := sort_by _ ds).
  assert (Hp : sorted ≡ₚ ds) by apply (sort_by_perm newest_first).
  assert (Hobj : cd_object <$> ds = cd_object <$> citing /\ Forall (decision_of hits) ds).
  { clear - Hg Hd. induction Hd as [|d d' citing ds H12 _ IH]; [done|].
    apply Forall_cons in Hg as [Hg1 Hg]. destruct (described_decision _ _ _ Hg1 H12) as [? E].
    destruct (IH Hg) as [IHe ?]. split; [by rewrite !fmap_cons, E, IHe|by constructor]. }
  destruct Hobj as [Hobj Hall].
  assert (Hall' : Forall (decision_of hits) sorted) by by rewrite Hp.
  assert (Hin : t = false -> forall hit, hit ∈ hits -> exists d, d ∈ sorted /\ cd_object d = lh_object hit).
  { intros Ht hit Hh. destruct (Hc hit Hh) as [Ho|[? _]]; [|congruence]. rewrite <- Hobj, <- Hp in Ho.
    apply list_elem_of_fmap in Ho as (d & -> & ?). by exists d. }
  rewrite Forall_forall in Hall'. unfold citing_reported. cbn. split_and!.
  - by rewrite Hp, Hobj.
  - unfold zlen in *. rewrite Hp, <- (Forall2_length _ _ _ Hd). done.
  - by rewrite Hp.
  - apply (sort_by_sorted newest_first).
  - intros Ht. apply Forall_forall. intros hit Hh. destruct (Hin Ht hit Hh) as (d & Hd' & <-). by apply list_elem_of_fmap_2.
  - intros Hsig Ht. apply Forall_forall. intros hit Hh. destruct (Hin Ht hit Hh) as (d & Hd' & Ho).
    destruct (Hall' d Hd') as (h & more & E & _ & Hlines & _).
    apply signal_none in Hsig. rewrite Forall_forall in Hsig.
    pose proof (ln_none _ _ Hlines (Hsig d Hd')) as Hno. rewrite Forall_forall in Hno. apply Hno.
    apply list_elem_of_fmap_2. rewrite <- E. by apply of_object_in.
  - intros (d & p & Hd' & Hph)%signal_found. destruct (Hall' d Hd') as (h & more & E & _ & Hlines & _).
    destruct (ln_phrase _ _ Hlines p Hph) as (text & Htext & Hover & _).
    apply list_elem_of_fmap in Htext as (hit & -> & Hh). rewrite <- E in Hh. apply of_object_in in Hh as [Hh _].
    by exists hit, p.
Qed.

Lemma citing_yields input : yields (citing corpus input) (citing_ok input).
Proof.
  unfold citing. destruct (valid_text input 128); cbn [negb]; [|apply yields_throw].
  destruct (parse_case_number_spec (E := ToolError) input) as (o & Ho & _).
  eapply yields_bind; [by apply (yields_pure _ o (eq o))|]. intros ? <-. destruct o as [number|]; [|apply yields_throw].
  eapply yields_bind; [apply lines_tool_yields|]. intros found_targets Hft.
  destruct (case_targets_spec number (ll_hits found_targets) [] []) as (targets & Ht & Htargets).
  { split_and!; [constructor|constructor|by intros ? ?%elem_of_nil]. }
  eapply yields_bind; [by apply (yields_pure _ targets (eq targets))|]. intros ? <-.
  eapply yields_bind; [apply lines_tool_yields|]. intros found Hf.
  set (t0 := ll_truncated found_targets || ll_truncated found).
  destruct (citing_lines_spec number targets t0 (ll_hits found) [] [] t0) as (cs & t & Hc & Hlisted).
  { split_and!; [apply NoDup_nil_2|done|by apply Forall_nil|by intros ? ?%elem_of_nil|done|by left]. }
  eapply yields_bind; [by apply (yields_pure _ (cs, t) (eq (cs, t)))|]. intros ? <-.
  eapply yields_bind; [apply describe_yields|]. intros ds Hds. apply yields_ret.
  exists found_targets, found. cbn [ct_case_number ct_targets ct_corpus_complete ct_truncated]. split_and!; try done.
  - by eapply reported_decisions.
  - intros E. destruct Hlisted as (_ & _ & _ & _ & Htr & _). apply orb_false_iff.
    destruct (ll_truncated found_targets || ll_truncated found) eqn:E0; [|done]. rewrite Htr in E; done.
Qed.

(** C18. A list of the decisions that cite a case ends with a result or an error and never
    panics. The targets are the records that carry the number, each object once. The
    decisions are other objects with a line that has the number, each once and at most
    50, made of its first hit, with one to three distinct lines of its own hits; a
    phrase of a decision stands in one of the lines that are shown. They are ordered
    from the newest judgment to the oldest, undated last. A result that is not marked
    truncated lists the object of every line that cites the number; and if it signals
    nothing, no citing line of at most 400 characters contains an overruling phrase. *)
Theorem citing_spec input n :
  answers (citing corpus input n) /\
  forall r n', citing corpus input n = Ok (r, n') -> citing_ok input r.
Proof. apply yields_answers, citing_yields. Qed.
End tool.

(** * Witnesses *)

#[local] Existing Instance example_tables.

Definition decision_hit (id title text : string) : LineHit :=
  {| lh_object := sample_object Precedent id; lh_title := u title; lh_revision_id := u "r1";
     lh_capture_id := u "c1"; lh_text := u text |}.

(** A decision, two that cite it, and their judgment dates *)
Definition citing_corpus : Corpus :=
  {| search _ q _ _ :=
       Ok {| lp_hits :=
               if str_eqb (lq_section q) (u "case_number") then [decision_hit "1" "판결" "2007다27670"]
               else [decision_hit "1" "판결" "2007다27670"; decision_hit "2" "판결" "대법원 2007다27670 판결 참조";
                     decision_hit "3" "전원합의체 판결" "2007다27670 판결은 변경하기로 한다";
                     decision_hit "2" "판결" "2007다276701"];
             lp_next_cursor := None; lp_corpus_complete := true |};
     get _ _ _ := Err Legal.NotFound;
     get_metadata _ o _ :=
       if str_eqb (oid_id o) (u "2") then Err Legal.NotFound
       else Ok {| mr_revision_id := u "r1"; mr_capture_id := u "c1"; mr_title := u "판결";
                  mr_metadata := {[ u "judgment_date" := u "20200101" ]};
                  mr_publication_date := None; mr_effective_date := None |};
     history _ _ _ := Err Legal.NotFound |}.

Abbreviation citing_run := (citing citing_corpus (u "2007다27670") 0%nat).

(** The overruling decision is dated and comes first. *)
Example sample_citing :
  match citing_run with
  | Ok (r, _) => ((fun d => (oid_id (cd_object d), cd_en_banc d, zlen (cd_lines d))) <$> ct_citing r,
                  ct_signal r, zlen (ct_targets r))
  | Err _ => ([], NoneFound, 0)
  end
  = ([(u "3", true, 1); (u "2", false, 1)], OverrulingLanguageFound, 1).
Proof. vm_compute. reflexivity. Qed.

Lemma citing_spec_witness :
  exists r n', citing_run = Ok (r, n') /\ citing_ok citing_corpus (u "2007다27670") r.
Proof.
  destruct (is_ok_runs citing_run) as (r & n' & E); [vm_compute; reflexivity|]. exists r, n'. split; [exact E|].
  exact (proj2 (citing_spec citing_corpus (u "2007다27670") 0%nat) r n' E).
Defined.

(** * A phrase that is missed *)

(** A line whose first 400 characters are those of an earlier line is skipped before a
    phrase is looked for. *)
Definition long_line : str := u "2007다27670 " ++ replicate 400 (ch "가").
Definition hidden_phrase : str := long_line ++ u " 변경하기로 한다".

Lemma phrase_missed :
  overruling_phrase hidden_phrase = Some (u "변경하기로 한다") /\
  cd_overruling_phrase (add_lines [long_line; hidden_phrase] (new_decision (decision_hit "2" "판결" "2007다27670"))) = None.
Proof. split; vm_compute; reflexivity. Qed.
