(* ===== verification/LawWatch.v ===== *)
(** Changes and repeals of laws: [revision_status] and [watch] of
    [apps/server/src/legal_analysis.rs]. *)

From stdpp Require Import sorting.
From S2P Require Import Prelude Utf8 Strings Domain Legal TextDiff Citation CitationFacts InForce InForceFacts Slices KrNames KrArticles KrCitations KrCitationsFacts KrExamples Profile CorpusTitles CorpusTitlesFacts CitationCheck CitationCheckFacts CitationCheckProperties InForceTool ArticleRead Citator.

Definition MAX_WATCH_LAWS : Z := 100.
Definition MAX_UPCOMING_DETAILS : Z := 5.

(** * Contracts of [crates/domain/src/legal_analysis.rs] *)

Module RepealKind.
Inductive RepealKind := Repealed | RepealedByOtherLaw | RepealedInBatch.

Definition from_amendment_type (value : str) : option RepealKind :=
  let compact := List.filter (fun c => negb (is_whitespace c)) value in
  if str_eqb compact (u "폐지") then Some Repealed
  else if str_eqb compact (u "타법폐지") then Some RepealedByOtherLaw
  else if str_eqb compact (u "일괄폐지") then Some RepealedInBatch
  else None.
End RepealKind.

Inductive RepealStatus := Repealed | RepealScheduled | NoRepealRecorded | Unknown.

Record RepealRecord := {
  rp_revision_id : str; rp_amendment_type : str; rp_kind : RepealKind.RepealKind;
  rp_effective_date : option str; rp_publication_date : option str;
}.

Record UpcomingRevision := {
  up_revision_id : str; up_effective_date : option str; up_publication_date : option str;
  up_amendment_type : option str;
}.

Module Watch.
Inductive WatchStatus := Unchanged | Changed | New | NotObserved | Ambiguous | Unavailable.
End Watch.
#[export] Instance WatchStatus_eq_dec : EqDecision Watch.WatchStatus.
Proof. solve_decision. Defined.

Record WatchEntry := {
  we_input : str; we_resolution : option LawNameResolution; we_object : option ObjectId;
  we_title : option str; we_status : Watch.WatchStatus; we_detail : option str;
  we_previous_revision_id : option str; we_head_revision_id : option str; we_capture_id : option str;
  we_effective_date : option str; we_publication_date : option str; we_amendment_type : option str;
  we_upcoming : list UpcomingRevision; we_repeal_status : option RepealStatus; we_repeal : option RepealRecord;
}.

(** The calendar date that counts as today, and its time zone *)
Record Today := { td_date : str; td_timezone : str }.

Record WatchTarget := { wt_law_name : option str; wt_object : option ObjectId }.
Record WatchInput := {
  wi_laws : list WatchTarget; wi_previous : gmap str str; wi_include_upcoming : bool; wi_changes_only : bool;
}.

Record WatchResult := {
  wr_today : str; wr_timezone : str; wr_entries : list WatchEntry; wr_snapshot : gmap str str;
  wr_changed : Z; wr_with_upcoming : Z; wr_repealed : Z; wr_corpus_complete : bool;
}.

(** [dataset_code]: the derived names in [snake_case] are those of [as_str]. *)
Definition dataset_code (dataset : Dataset) : str := as_str dataset.
Definition object_key (object : ObjectId) : str := dataset_code (oid_dataset object) ++ u ":" ++ oid_id object.

(** * The order of revisions *)

(** The tuples of [chronological]: an absent date comes first. *)
Definition chrono_cmp (a b : HistoryEntry) : comparison :=
  match opt_cmp (he_effective_date a) (he_effective_date b) with
  | Eq =>
    match opt_cmp (he_publication_date a) (he_publication_date b) with
    | Eq => str_cmp (he_revision_id a) (he_revision_id b)
    | c => c
    end
  | c => c
  end.

(** [dedup_by]: an entry is dropped if the retained one before it has its revision. *)
Fixpoint dedup_after (retained : str) (l : list HistoryEntry) : list HistoryEntry :=
  match l with
  | [] => []
  | e :: l =>
    if str_eqb (he_revision_id e) retained then dedup_after retained l
    else e :: dedup_after (he_revision_id e) l
  end.
Definition dedup (l : list HistoryEntry) : list HistoryEntry :=
  match l with [] => [] | e :: l => e :: dedup_after (he_revision_id e) l end.

Definition chronological (entries : list HistoryEntry) : list HistoryEntry :=
  dedup (sort_by (fun a b => cmp_leb (chrono_cmp a b)) entries).

(** The date is after [today]. *)
Definition after (today : str) (date : option str) : bool := opt_test (fun d => negb (str_leb d today)) date.

(** * Repeal and upcoming revisions *)

Record RevisionStatus := {
  rs_upcoming : list UpcomingRevision; rs_repeal_status : RepealStatus; rs_repeal : option RepealRecord;
  rs_latest_amendment_type : option str;
}.

Definition is_repeal (status : option RepealStatus) : bool :=
  match status with Some Repealed | Some RepealScheduled => true | _ => false end.

(** The repeal that the latest revision records *)
Definition repeal_of (latest : HistoryEntry) (today : str) (amendment : option str)
  : RepealStatus * option RepealRecord :=
  match amendment with
  | None => (Unknown, None)
  | Some value =>
    match RepealKind.from_amendment_type value with
    | Some kind =>
      (if after today (he_effective_date latest) then RepealScheduled else Repealed,
       Some {| rp_revision_id := he_revision_id latest; rp_amendment_type := value; rp_kind := kind;
               rp_effective_date := he_effective_date latest; rp_publication_date := he_publication_date latest |})
    | None => (NoRepealRecorded, None)
    end
  end.

Section tools.
Context (corpus : Corpus).

Definition amendment_type (object : ObjectId) (revision_id : str) : tool (option str) :=
  let! answer := call (fun n => get_metadata corpus n object (Revision revision_id)) in
  match answer with
  | Ok metadata => ret (mr_metadata metadata !! u "amendment_type")
  | Err Legal.Cancelled => throw Tool.Unavailable
  | Err _ => ret None
  end.

(** The loop over the upcoming revisions, and the types that were read *)
Fixpoint upcoming_of (object : ObjectId) (entries : list HistoryEntry) (upcoming : list UpcomingRevision)
  (known : gmap str (option str)) : tool (list UpcomingRevision * gmap str (option str)) :=
  match entries with
  | [] => ret (upcoming, known)
  | entry :: entries =>
    let! (amendment, known) :=
      if zlen upcoming <? MAX_UPCOMING_DETAILS then
        let! amendment := amendment_type object (he_revision_id entry) in
        ret (amendment, <[he_revision_id entry := amendment]> known)
      else ret (None, known) in
    upcoming_of object entries
      (upcoming ++ [{| up_revision_id := he_revision_id entry; up_effective_date := he_effective_date entry;
                       up_publication_date := he_publication_date entry; up_amendment_type := amendment |}]) known
  end.

Definition revision_status (object : ObjectId) (entries : list HistoryEntry) (today : str) : tool RevisionStatus :=
  let ordered := chronological entries in
  let! (upcoming, known) :=
    upcoming_of object (List.filter (fun e => after today (he_effective_date e)) ordered) [] ∅ in
  match last ordered with
  | None =>
    ret {| rs_upcoming := upcoming; rs_repeal_status := Unknown; rs_repeal := None;
           rs_latest_amendment_type := None |}
  | Some latest =>
    let! amendment :=
      match known !! he_revision_id latest with
      | Some amendment => ret amendment
      | None => amendment_type object (he_revision_id latest)
      end in
    let '(status, repeal) := repeal_of latest today amendment in
    ret {| rs_upcoming := upcoming; rs_repeal_status := status; rs_repeal := repeal;
           rs_latest_amendment_type := amendment |}
  end.

(** [lookup.revisions] with its error *)
Definition revisions_answer (object : ObjectId) : tool (result DatabaseError (list HistoryEntry * bool)) :=
  fun n => Ok (revisions (fun k => history corpus (n + k) object), (n + Z.to_nat MAX_REVISION_PAGES)%nat).

(** * Watching laws *)

Context `{CharTables}.

(** The targets are checked, and their names are resolved. *)
Fixpoint watch_names (targets : list WatchTarget) (cache : Resolutions) : tool (list str * Resolutions) :=
  match targets with
  | [] => ret ([], cache)
  | target :: targets =>
    match wt_law_name target, wt_object target with
    | Some name, None =>
      if negb (law_name_ok name) then throw Tool.InvalidInput else
      let '(resolution, cache) := resolution_for (profile_ := KOREA) cache name in
      let! (names, cache) := watch_names targets cache in
      ret (ln_resolved resolution :: names, cache)
    | None, Some object =>
      let! _ := arg (match object_validate object with Ok _ => Ok tt | Err e => Err (map_error e) end) in
      watch_names targets cache
    | _, _ => throw Tool.InvalidInput
    end
  end.

(** An entry before its object is looked at *)
Definition new_entry (input : str) (resolution : option LawNameResolution) : WatchEntry :=
  {| we_input := input; we_resolution := resolution; we_object := None; we_title := None;
     we_status := Watch.NotObserved; we_detail := None; we_previous_revision_id := None;
     we_head_revision_id := None; we_capture_id := None; we_effective_date := None;
     we_publication_date := None; we_amendment_type := None; we_upcoming := [];
     we_repeal_status := None; we_repeal := None |}.

Definition ambiguous_entry (e : WatchEntry) (count : Z) : WatchEntry :=
  {| we_input := we_input e; we_resolution := we_resolution e; we_object := None; we_title := None;
     we_status := Watch.Ambiguous; we_detail := Some (show_Z count ++ u "_objects");
     we_previous_revision_id := None; we_head_revision_id := None; we_capture_id := None;
     we_effective_date := None; we_publication_date := None; we_amendment_type := None; we_upcoming := [];
     we_repeal_status := None; we_repeal := None |}.

(** The object of a target, or the entry of a name without a single one *)
Definition watch_target (index : gmap str (list TitleMatch)) (cache : Resolutions) (target : WatchTarget)
  : tool ((WatchEntry * option ObjectId) * Resolutions) :=
  match wt_law_name target, wt_object target with
  | Some name, None =>
    let '(resolution, cache) := resolution_for (profile_ := KOREA) cache name in
    let entry := new_entry name (Some resolution) in
    match pick_match (default [] (index !! name_key (ln_resolved resolution))) with
    | Ok one => ret ((entry, Some (tm_object one)), cache)
    | Err count => ret ((if 0 <? count then ambiguous_entry entry count else entry, None), cache)
    end
  | None, Some object => ret ((new_entry (object_key object) None, Some object), cache)
  | _, _ => throw Tool.InvalidInput
  end.

(** The entry once the head is read, and the snapshot *)
Definition with_head (entry : WatchEntry) (object : ObjectId) (previous : option str)
  (answer : result DatabaseError MetadataResult) (snapshot : gmap str str) : WatchEntry * gmap str str :=
  let key := object_key object in
  match answer with
  | Ok head =>
    ({| we_input := we_input entry; we_resolution := we_resolution entry; we_object := Some object;
        we_title := Some (mr_title head);
        we_status := match previous with
          | None => Watch.New
          | Some previous => if str_eqb previous (mr_revision_id head) then Watch.Unchanged else Watch.Changed
          end;
        we_detail := None; we_previous_revision_id := previous;
        we_head_revision_id := Some (mr_revision_id head); we_capture_id := Some (mr_capture_id head);
        we_effective_date := mr_effective_date head; we_publication_date := mr_publication_date head;
        we_amendment_type := mr_metadata head !! u "amendment_type"; we_upcoming := [];
        we_repeal_status := None; we_repeal := None |},
     <[key := mr_revision_id head]> snapshot)
  | Err error =>
    ({| we_input := we_input entry; we_resolution := we_resolution entry; we_object := Some object;
        we_title := None;
        we_status := if bool_decide (error = NotObserved) then Watch.NotObserved else Watch.Unavailable;
        we_detail := Some (code error); we_previous_revision_id := previous;
        we_head_revision_id := None; we_capture_id := None; we_effective_date := None;
        we_publication_date := None; we_amendment_type := None; we_upcoming := [];
        we_repeal_status := None; we_repeal := None |},
     match previous with Some previous => <[key := previous]> snapshot | None => snapshot end)
  end.

(** What the revisions add to an entry *)
Definition with_revisions (entry : WatchEntry) (detail : option str) (upcoming : list UpcomingRevision)
  (repeal_status : option RepealStatus) (repeal : option RepealRecord) : WatchEntry :=
  {| we_input := we_input entry; we_resolution := we_resolution entry; we_object := we_object entry;
     we_title := we_title entry; we_status := we_status entry; we_detail := detail;
     we_previous_revision_id := we_previous_revision_id entry;
     we_head_revision_id := we_head_revision_id entry; we_capture_id := we_capture_id entry;
     we_effective_date := we_effective_date entry; we_publication_date := we_publication_date entry;
     we_amendment_type := we_amendment_type entry; we_upcoming := upcoming;
     we_repeal_status := repeal_status; we_repeal := repeal |}.

Definition watch_revisions (include_upcoming : bool) (today : str) (object : ObjectId) (entry : WatchEntry)
  : tool WatchEntry :=
  if negb (has_provider_revisions (oid_dataset object)) then ret entry else
  let! answer := revisions_answer object in
  match answer with
  | Ok ([], _) => ret entry
  | Ok (entries, _) =>
    let! status := revision_status object entries today in
    ret (with_revisions entry (we_detail entry) (if include_upcoming then rs_upcoming status else [])
           (Some (rs_repeal_status status)) (rs_repeal status))
  | Err Legal.Cancelled => throw Tool.Unavailable
  | Err error =>
    ret (with_revisions entry
           (Some (match we_detail entry with Some d => d | None => u "revisions_" ++ code error end))
           (we_upcoming entry) (we_repeal_status entry) (we_repeal entry))
  end.

(** The entry of one object *)
Definition watch_object (input : WatchInput) (today : str) (entry : WatchEntry) (object : ObjectId)
  (snapshot : gmap str str) : tool (WatchEntry * gmap str str) :=
  let! answer := head_metadata corpus object in
  let '(entry, snapshot) := with_head entry object (wi_previous input !! object_key object) answer snapshot in
  let! entry := watch_revisions (wi_include_upcoming input) today object entry in
  ret (entry, snapshot).

Definition shown (changes_only : bool) (entry : WatchEntry) : bool :=
  negb changes_only || negb (bool_decide (we_status entry = Watch.Unchanged))
  || negb (is_nil (we_upcoming entry)) || is_repeal (we_repeal_status entry).

(** An entry that was looked at is counted, and reported if it is of interest. *)
Definition add_entry (changes_only : bool) (r : WatchResult) (entry : WatchEntry) (snapshot : gmap str str)
  : WatchResult :=
  {| wr_today := wr_today r; wr_timezone := wr_timezone r;
     wr_entries := if shown changes_only entry then wr_entries r ++ [entry] else wr_entries r;
     wr_snapshot := snapshot;
     wr_changed := wr_changed r + (if bool_decide (we_status entry = Watch.Changed) then 1 else 0);
     wr_with_upcoming := wr_with_upcoming r + (if is_nil (we_upcoming entry) then 0 else 1);
     wr_repealed := wr_repealed r + (if is_repeal (we_repeal_status entry) then 1 else 0);
     wr_corpus_complete := wr_corpus_complete r |}.

(** An entry without an object is reported as it is. *)
Definition push_entry (r : WatchResult) (entry : WatchEntry) : WatchResult :=
  {| wr_today := wr_today r; wr_timezone := wr_timezone r; wr_entries := wr_entries r ++ [entry];
     wr_snapshot := wr_snapshot r; wr_changed := wr_changed r; wr_with_upcoming := wr_with_upcoming r;
     wr_repealed := wr_repealed r; wr_corpus_complete := wr_corpus_complete r |}.

Fixpoint watch_targets (input : WatchInput) (today : str) (index : gmap str (list TitleMatch))
  (targets : list WatchTarget) (cache : Resolutions) (r : WatchResult) : tool WatchResult :=
  match targets with
  | [] => ret r
  | target :: targets =>
    let! (found, cache) := watch_target index cache target in
    match found with
    | (entry, None) => watch_targets input today index targets cache (push_entry r entry)
    | (entry, Some object) =>
      let! (entry, snapshot) := watch_object input today entry object (wr_snapshot r) in
      watch_targets input today index targets cache (add_entry (wi_changes_only input) r entry snapshot)
    end
  end.

Definition watch_refused (input : WatchInput) : bool :=
  is_nil (wi_laws input) || (MAX_WATCH_LAWS <? zlen (wi_laws input))
  || (2 * MAX_WATCH_LAWS <? Z.of_nat (size (wi_previous input)))
  || existsb (fun e => negb (valid_text e.1 256) || negb (valid_text e.2 256)) (map_to_list (wi_previous input)).

Definition watch (input : WatchInput) (day : Today) : tool WatchResult :=
  if watch_refused input then throw Tool.InvalidInput else
  let! (names, cache) := watch_names (wi_laws input) ∅ in
  let! index := find_titles corpus (profile_ := KOREA) names REVISIONED in
  watch_targets input (td_date day) (ti_matches index) (wi_laws input) cache
    {| wr_today := td_date day; wr_timezone := td_timezone day; wr_entries := []; wr_snapshot := ∅;
       wr_changed := 0; wr_with_upcoming := 0; wr_repealed := 0;
       wr_corpus_complete := ti_corpus_complete index |}.
End tools.

(** * What a watch says

    What watching laws promises: revisions in their order, the repeal that the latest one
    records, an entry for every law, a snapshot that says what was seen, and that a
    change is reported once. *)

(** * The order of revisions *)

#[export] Instance chrono_ordering : Ordering chrono_cmp.
Proof.
  pose proof (on_ordering he_effective_date opt_cmp) as H1.
  pose proof (on_ordering he_publication_date opt_cmp) as H2.
  pose proof (on_ordering he_revision_id str_cmp) as H3.
  exact (@then_ordering _ _ _ H1 (@then_ordering _ _ _ H2 H3)).
Qed.

Lemma dedup_after_sublist l : forall r, dedup_after r l `sublist_of` l.
Proof.
  induction l as [|e l IH]; intros r; cbn [dedup_after]; [constructor|].
  destruct (str_eqb _ _); [by apply sublist_cons|by apply sublist_skip].
Qed.

Lemma dedup_sublist l : dedup l `sublist_of` l.
Proof. destruct l as [|e l]; [constructor|]. apply sublist_skip, dedup_after_sublist. Qed.

(** A dropped entry has the revision of one that is retained in front of it. *)
Lemma dedup_after_revisions l : forall r e, e ∈ l -> he_revision_id e = r \/
  he_revision_id e ∈ he_revision_id <$> dedup_after r l.
Proof.
  induction l as [|x l IH]; intros r e; [by intros ?%elem_of_nil|]. cbn [dedup_after].
  destruct (str_eqb_spec (he_revision_id x) r) as [Hx|Hx]; intros [->|He]%elem_of_cons.
  - by left.
  - by apply IH.
  - right. by left.
  - destruct (IH (he_revision_id x) e He) as [->|H]; right; [by left|by right].
Qed.

Lemma dedup_revisions l e : e ∈ l -> he_revision_id e ∈ he_revision_id <$> dedup l.
Proof.
  destruct l as [|x l]; [by intros ?%elem_of_nil|]. cbn [dedup]. intros [->|He]%elem_of_cons; [by left|].
  destruct (dedup_after_revisions l (he_revision_id x) e He) as [->|H]; [by left|by right].
Qed.

Lemma dedup_after_last l : forall r,
  match last l with
  | None => True
  | Some e => default r (he_revision_id <$> last (dedup_after r l)) = he_revision_id e
  end.
Proof.
  induction l as [|x l IH]; intros r; [done|]. rewrite last_cons. cbn [dedup_after].
  destruct (str_eqb_spec (he_revision_id x) r) as [Hx|Hx].
  - specialize (IH r). destruct l as [|y l]; [by rewrite <- Hx|]. destruct (last (y :: l)) eqn:E; [done|].
    by apply last_None in E.
  - specialize (IH (he_revision_id x)). rewrite last_cons. destruct (last l) as [e|] eqn:E.
    + destruct (last (dedup_after _ l)); by cbn in *.
    + by apply last_None in E as ->.
Qed.

Lemma sublist_sorted {A} (R : A -> A -> Prop) l k : l `sublist_of` k -> StronglySorted R k -> StronglySorted R l.
Proof.
  induction 1 as [|x l k Hs IH|x l k Hs IH]; intros Hk; [done| |].
  - apply StronglySorted_inv in Hk as [Hk Hx]. constructor; [by apply IH|].
    rewrite Forall_forall in Hx |- *. intros y Hy. by eapply Hx, elem_of_sublist.
  - apply StronglySorted_inv in Hk as [Hk _]. by apply IH.
Qed.

(** The revisions in chronological order: entries of the inventory, sorted, every
    revision with an entry, and at the end one of the latest revision *)
Definition in_order (entries ordered_ : list HistoryEntry) : Prop :=
  StronglySorted (ordered chrono_cmp) ordered_ /\
  (forall e, e ∈ ordered_ -> e ∈ entries) /\
  (forall e, e ∈ entries -> he_revision_id e ∈ he_revision_id <$> ordered_) /\
  (forall latest, last ordered_ = Some latest ->
    exists e, e ∈ entries /\ he_revision_id e = he_revision_id latest /\
      forall x, x ∈ entries -> ordered chrono_cmp x e).

Lemma chronological_ok entries : in_order entries (chronological entries).
Proof.
  unfold chronological. set (l := sort_by _ entries).
  assert (Hp : l ≡ₚ entries) by apply (sort_by_perm chrono_cmp).
  assert (Hs : StronglySorted (ordered chrono_cmp) l) by apply (sort_by_sorted chrono_cmp).
  split_and!.
  - eapply sublist_sorted; [apply dedup_sublist|done].
  - intros e He. rewrite <- Hp. eapply elem_of_sublist; [done|apply dedup_sublist].
  - intros e He. apply dedup_revisions. by rewrite Hp.
  - intros latest Hl. destruct l as [|x l'] eqn:El; [done|]. rewrite <- El in *.
    destruct (snoc_last l) as (e & Ee & Esplit); [by rewrite El|].
    exists e. split; [rewrite <- Hp, Esplit; set_solver|]. split.
    + rewrite El in Ee, Hl. cbn [dedup] in Hl. rewrite last_cons in Ee, Hl.
      pose proof (dedup_after_last l' (he_revision_id x)) as D.
      destruct (last l') as [y|] eqn:Ey.
      * injection Ee as ->. rewrite <- D. destruct (last (dedup_after _ l')); by injection Hl as ->.
      * injection Ee as ->. apply last_None in Ey as ->. by injection Hl as ->.
    + intros y Hy. rewrite <- Hp, Esplit in Hy. apply elem_of_app in Hy as [Hy|Hy].
      * rewrite Esplit in Hs. apply sorted_last in Hs. rewrite Forall_forall in Hs. by apply Hs.
      * apply list_elem_of_singleton in Hy as ->. apply (leb_refl chrono_cmp).
Qed.

(** * Repeal and upcoming revisions *)

Section tools.
Context (corpus : Corpus).

(** The amendment type that the metadata of a revision record, if they are readable *)
Definition amended (object : ObjectId) (revision_id : str) (a : option str) : Prop :=
  exists n, a = match get_metadata corpus n object (Revision revision_id) with
    | Ok m => mr_metadata m !! u "amendment_type"
    | Err _ => None
    end.

Lemma amendment_type_yields object revision_id :
  yields (amendment_type corpus object revision_id) (amended object revision_id).
Proof.
  unfold amendment_type.
  eapply yields_bind; [apply (yields_call _ (fun a => exists n, a = get_metadata corpus n object (Revision revision_id))); eauto|].
  intros a [n Ha]. destruct a as [m|[]]; try apply yields_throw; apply yields_ret; exists n; by rewrite <- Ha.
Qed.

(** An upcoming revision is that of its entry; the first five have their type. *)
Definition upcoming_entry (object : ObjectId) (i : nat) (e : HistoryEntry) (up : UpcomingRevision) : Prop :=
  up_revision_id up = he_revision_id e /\ up_effective_date up = he_effective_date e /\
  up_publication_date up = he_publication_date e /\
  if Z.of_nat i <? MAX_UPCOMING_DETAILS then amended object (he_revision_id e) (up_amendment_type up)
  else up_amendment_type up = None.

Definition upcoming_ok (object : ObjectId) (entries : list HistoryEntry) (ups : list UpcomingRevision) : Prop :=
  length ups = length entries /\
  forall i e up, entries !! i = Some e -> ups !! i = Some up -> upcoming_entry object i e up.

Definition known_ok (object : ObjectId) (known : gmap str (option str)) : Prop :=
  forall id a, known !! id = Some a -> amended object id a.

Lemma upcoming_snoc object done_ ups e up :
  upcoming_ok object done_ ups -> upcoming_entry object (length done_) e up ->
  upcoming_ok object (done_ ++ [e]) (ups ++ [up]).
Proof.
  intros [Hl H] Hu. split; [rewrite !length_app; cbn; lia|]. intros i e' up' He Hup.
  apply lookup_snoc_Some in He as [[Hi He]|[-> ->]]; apply lookup_snoc_Some in Hup as [[Hj Hup]|[Hj ->]]; try lia.
  - by eapply H.
  - done.
Qed.

Lemma upcoming_of_yields object entries : forall done_ ups known,
  upcoming_ok object done_ ups -> known_ok object known ->
  yields (upcoming_of corpus object entries ups known)
    (fun r => upcoming_ok object (done_ ++ entries) r.1 /\ known_ok object r.2).
Proof.
  induction entries as [|e entries IH]; intros done_ ups known Hu Hk; cbn [upcoming_of].
  { apply yields_ret. by rewrite app_nil_r. }
  replace (done_ ++ e :: entries) with ((done_ ++ [e]) ++ entries) by by rewrite <- app_assoc.
  assert (Hlen : zlen ups = Z.of_nat (length done_)) by (unfold zlen; by rewrite (proj1 Hu)).
  eapply yields_bind with (mid := fun r =>
    (if zlen ups <? MAX_UPCOMING_DETAILS then amended object (he_revision_id e) r.1 else r.1 = None) /\
    known_ok object r.2).
  { destruct (zlen ups <? MAX_UPCOMING_DETAILS); [|by apply yields_ret].
    eapply yields_bind; [apply amendment_type_yields|]. intros a Ha. apply yields_ret. split; [done|].
    intros id b. cbn [snd]. destruct (decide (id = he_revision_id e)) as [->|Hne].
    - rewrite lookup_insert_eq. by intros [= <-].
    - rewrite lookup_insert_ne by done. apply Hk. }
  intros [a known'] [Ha Hk']. cbn [fst snd] in *. apply IH; [|done]. apply upcoming_snoc; [done|].
  unfold upcoming_entry. cbn. by rewrite <- Hlen.
Qed.

(** What a status says of the inventory [entries] *)
Definition status_ok (object : ObjectId) (entries : list HistoryEntry) (today : str) (st : RevisionStatus) : Prop :=
  let ordered_ := chronological entries in
  upcoming_ok object (List.filter (fun e => after today (he_effective_date e)) ordered_) (rs_upcoming st) /\
  match last ordered_ with
  | None => rs_repeal_status st = Unknown /\ rs_repeal st = None /\ rs_latest_amendment_type st = None
  | Some latest =>
    amended object (he_revision_id latest) (rs_latest_amendment_type st) /\
    (rs_repeal_status st, rs_repeal st) = repeal_of latest today (rs_latest_amendment_type st)
  end.

Lemma revision_status_yields object entries today :
  yields (revision_status corpus object entries today) (status_ok object entries today).
Proof.
  unfold revision_status, status_ok. set (ordered_ := chronological entries).
  eapply yields_bind; [apply (upcoming_of_yields object _ [] [] ∅)|].
  - split; [done|]. intros i e up He. by rewrite lookup_nil in He.
  - intros id a. by rewrite lookup_empty.
  - cbn [app]. intros [ups known] [Hu Hk]. cbn [fst snd] in *.
    destruct (last ordered_) as [latest|]; [|by apply yields_ret].
    eapply yields_bind with (mid := amended object (he_revision_id latest)).
    { destruct (known !! he_revision_id latest) as [a|] eqn:E; [by apply yields_ret, Hk|apply amendment_type_yields]. }
    intros a Ha. destruct (repeal_of latest today a) as [s r] eqn:E. apply yields_ret. cbn. by rewrite E.
Qed.
(** * Watching laws *)

Context `{CharTables}.

(** The names that the targets resolve to *)
Definition resolved_names (targets : list WatchTarget) : list str :=
  omap (fun t => (fun name => ln_resolved (rp_resolve_law_name (ReferenceProfile := KOREA) name)) <$> wt_law_name t) targets.

Lemma watch_names_yields targets : forall cache,
  memo (profile_ := KOREA) cache ->
  yields (watch_names targets cache) (fun r => r.1 = resolved_names targets /\ memo (profile_ := KOREA) r.2).
Proof.
  induction targets as [|target targets IH]; intros cache Hc; cbn [watch_names]; [by apply yields_ret|].
  destruct (wt_law_name target) as [name|] eqn:E, (wt_object target) as [object|]; try apply yields_throw.
  - destruct (law_name_ok name); cbn [negb]; [|apply yields_throw].
    destruct (resolution_for_computes (profile_ := KOREA) name cache Hc) as (cache' & -> & Hc').
    eapply yields_bind; [by apply IH|]. intros [names cache''] [Hn Hc'']. apply yields_ret. cbn [fst snd] in *.
    split; [|done]. unfold resolved_names. cbn [omap list_omap]. rewrite E. cbn. by rewrite Hn.
  - eapply yields_bind; [apply (yields_arg _ (fun _ => True)); destruct (object_validate object); done|].
    intros _ _. eapply yields_weaken; [by apply IH|]. intros [names cache'] [Hn Hc']. split; [|done].
    unfold resolved_names. cbn [omap list_omap]. rewrite E. exact Hn.
Qed.

Definition head_status (previous : option str) (head : str) : Watch.WatchStatus :=
  match previous with
  | None => Watch.New
  | Some p => if str_eqb p head then Watch.Unchanged else Watch.Changed
  end.

(** The entry of an object: its status compares the head that was read with the revision
    that was passed in, and its repeal and upcoming revisions are those of the
    inventory that was read. *)
Record watched (input : WatchInput) (today : str) (object : ObjectId) (e : WatchEntry) : Prop := {
  wa_object : we_object e = Some object;
  wa_previous : we_previous_revision_id e = wi_previous input !! object_key object;
  wa_head : exists n, match get_metadata corpus n object Head with
    | Ok head =>
      we_head_revision_id e = Some (mr_revision_id head) /\ we_title e = Some (mr_title head) /\
      we_capture_id e = Some (mr_capture_id head) /\ we_effective_date e = mr_effective_date head /\
      we_status e = head_status (wi_previous input !! object_key object) (mr_revision_id head)
    | Err error =>
      we_head_revision_id e = None /\ we_title e = None /\ we_capture_id e = None /\ we_effective_date e = None /\
      we_status e = if bool_decide (error = NotObserved) then Watch.NotObserved else Watch.Unavailable
    end;
  wa_revisions : match we_repeal_status e with
    | Some status => exists m entries complete st,
        revisions (fun k => history corpus (m + k) object) = Ok (entries, complete) /\ entries <> [] /\
        status_ok object entries today st /\ rs_repeal_status st = status /\ we_repeal e = rs_repeal st /\
        we_upcoming e = if wi_include_upcoming input then rs_upcoming st else []
    | None => we_repeal e = None /\ we_upcoming e = []
    end;
}.

Lemma with_head_watched input today entry object n snapshot :
  watched input today object
    (with_head entry object (wi_previous input !! object_key object) (get_metadata corpus n object Head) snapshot).1.
Proof.
  unfold with_head. destruct (get_metadata corpus n object Head) as [head|error] eqn:E; split; try done;
    exists n; by rewrite E.
Qed.

(** What an entry leaves in the snapshot *)
Definition entry_snapshot (m : gmap str str) (e : WatchEntry) : gmap str str :=
  match we_object e with
  | None => m
  | Some object =>
    match we_head_revision_id e, we_previous_revision_id e with
    | Some head, _ => <[object_key object := head]> m
    | None, Some previous => <[object_key object := previous]> m
    | None, None => m
    end
  end.

(** What an entry keeps when its revisions are added *)
Definition extends (e e' : WatchEntry) : Prop :=
  we_input e' = we_input e /\ we_resolution e' = we_resolution e /\
  forall m, entry_snapshot m e' = entry_snapshot m e.

Lemma watch_revisions_yields input today object entry :
  watched input today object entry -> we_repeal_status entry = None ->
  yields (watch_revisions corpus (wi_include_upcoming input) today object entry) (fun e =>
    watched input today object e /\ extends entry e).
Proof.
  intros Hw Hnone. unfold watch_revisions. destruct (has_provider_revisions _); cbn [negb]; [|by apply yields_ret].
  pose proof Hw as [Ho Hp Hh Hr]. rewrite Hnone in Hr. destruct Hr as [Hr1 Hr2].
  eapply yields_bind with (mid := fun a => exists m, revisions (fun k => history corpus (m + k) object) = a).
  { intros n. by exists n. }
  intros answer [m Hm]. destruct answer as [[entries complete]|error].
  - destruct entries as [|x entries]; [by apply yields_ret|].
    eapply yields_bind; [apply revision_status_yields|]. intros st Hst. apply yields_ret.
    split; [|done]. split; try done. cbn. exists m, (x :: entries), complete, st. by split_and!.
  - assert (Hd : forall d, watched input today object
        (with_revisions entry d (we_upcoming entry) (we_repeal_status entry) (we_repeal entry))).
    { intros d. split; try done. cbn [with_revisions we_repeal_status]. by rewrite Hnone. }
    destruct error; try apply yields_throw; apply yields_ret; split; try apply Hd; done.
Qed.

Lemma watch_object_yields input today entry object snapshot :
  yields (watch_object corpus input today entry object snapshot) (fun r =>
    watched input today object r.1 /\ we_input r.1 = we_input entry /\ we_resolution r.1 = we_resolution entry /\
    r.2 = entry_snapshot snapshot r.1).
Proof.
  unfold watch_object. eapply yields_bind; [apply head_metadata_yields|]. intros answer [n ->].
  pose proof (with_head_watched input today entry object n snapshot) as Hw.
  set (previous := wi_previous input !! object_key object) in *.
  set (answer := get_metadata corpus n object Head) in *.
  assert (Hi : let r := with_head entry object previous answer snapshot in
    we_input r.1 = we_input entry /\ we_resolution r.1 = we_resolution entry /\ we_repeal_status r.1 = None /\
    r.2 = entry_snapshot snapshot r.1).
  { unfold with_head, entry_snapshot. by destruct answer, previous. }
  destruct (with_head _ _ _ _ _) as [e s]. cbn [fst snd] in *. destruct Hi as (Hi1 & Hi2 & Hi3 & ->).
  eapply yields_bind; [by apply watch_revisions_yields|]. intros e' (He' & Hi1' & Hi2' & Hs). apply yields_ret. cbn [fst snd].
  split_and!; [done|congruence|congruence|done].
Qed.

(** The entry of a target: that of its object, or one without an object when its name
    has no match, or several of the greatest rank *)
Definition entry_of (input : WatchInput) (today : str) (index : gmap str (list TitleMatch)) (target : WatchTarget)
  (e : WatchEntry) : Prop :=
  match wt_law_name target, wt_object target with
  | Some name, None =>
    let resolution := rp_resolve_law_name (ReferenceProfile := KOREA) name in
    we_input e = name /\ we_resolution e = Some resolution /\
    match best (default [] (index !! name_key (ln_resolved resolution))) with
    | [one] => watched input today (tm_object one) e
    | [] => e = new_entry name (Some resolution)
    | many => e = ambiguous_entry (new_entry name (Some resolution)) (zlen many)
    end
  | None, Some object =>
    we_input e = object_key object /\ we_resolution e = None /\ watched input today object e
  | _, _ => False
  end.

(** The result after the entries [ws] *)
Definition tallied (changes_only : bool) (r : WatchResult) (ws : list WatchEntry) (r' : WatchResult) : Prop :=
  wr_today r' = wr_today r /\ wr_timezone r' = wr_timezone r /\ wr_corpus_complete r' = wr_corpus_complete r /\
  wr_entries r' = wr_entries r ++ List.filter (shown changes_only) ws /\
  wr_snapshot r' = fold_left entry_snapshot ws (wr_snapshot r) /\
  wr_changed r' = wr_changed r + count (fun e => bool_decide (we_status e = Watch.Changed)) ws /\
  wr_with_upcoming r' = wr_with_upcoming r + count (fun e => negb (is_nil (we_upcoming e))) ws /\
  wr_repealed r' = wr_repealed r + count (fun e => is_repeal (we_repeal_status e)) ws.

Lemma tallied_nil changes_only r : tallied changes_only r [] r.
Proof. unfold tallied, count, zlen. cbn. rewrite app_nil_r, !Z.add_0_r. done. Qed.

Lemma tallied_cons changes_only r e ws r' :
  tallied changes_only (add_entry changes_only r e (entry_snapshot (wr_snapshot r) e)) ws r' ->
  tallied changes_only r (e :: ws) r'.
Proof.
  intros (? & ? & ? & He & Hs & Hc & Hu & Hr). cbn [add_entry wr_entries wr_snapshot wr_changed wr_with_upcoming wr_repealed] in *.
  unfold tallied. rewrite !count_cons. cbn [List.filter fold_left]. split_and!; try done.
  - rewrite He. destruct (shown changes_only e); [by rewrite <- app_assoc|done].
  - lia.
  - rewrite Hu. destruct (is_nil _); cbn [negb]; lia.
  - lia.
Qed.

(** An entry without an object is one that is shown and not counted. *)
Lemma push_is_add changes_only r e :
  we_object e = None -> we_status e = Watch.NotObserved \/ we_status e = Watch.Ambiguous -> we_upcoming e = [] ->
  we_repeal_status e = None -> push_entry r e = add_entry changes_only r e (entry_snapshot (wr_snapshot r) e).
Proof.
  intros Ho Hs Hu Hr. unfold push_entry, add_entry, shown, entry_snapshot. rewrite Ho, Hu, Hr. cbn [is_repeal is_nil].
  destruct Hs as [-> | ->]; rewrite !bool_decide_eq_false_2 by done; cbn [negb]; rewrite orb_true_r; cbn [orb];
    by rewrite !Z.add_0_r.
Qed.

Lemma watch_target_yields index cache target :
  memo (profile_ := KOREA) cache ->
  yields (watch_target index cache target) (fun r => memo (profile_ := KOREA) r.2 /\
    forall input today e,
    match r.1.2 with
    | Some object =>
      watched input today object e -> we_input e = we_input r.1.1 -> we_resolution e = we_resolution r.1.1 ->
      entry_of input today index target e
    | None =>
      entry_of input today index target r.1.1 /\
      forall result, push_entry result r.1.1 = add_entry (wi_changes_only input) result r.1.1 (entry_snapshot (wr_snapshot result) r.1.1)
    end).
Proof.
  intros Hc. unfold watch_target, entry_of.
  destruct (wt_law_name target) as [name|], (wt_object target) as [object|]; try apply yields_throw.
  2:{ apply yields_ret. split; [done|]. by intros input today e ? ? ?. }
  destruct (resolution_for_computes (profile_ := KOREA) name cache Hc) as (cache' & -> & Hc').
  rewrite pick_match_best. set (r := rp_resolve_law_name _).
  change (name_key (ln_resolved r)) with (rp_name_key (ReferenceProfile := KOREA) (ln_resolved r)).
  destruct (best _) as [|one [|two more]].
  - apply yields_ret. split; [done|]. intros input today e. cbn [fst snd]. split; [done|].
    intros result. apply push_is_add; by auto.
  - apply yields_ret. split; [done|]. by intros input today e Hw -> ->.
  - assert (Hpos : (0 <? zlen (one :: two :: more)) = true) by (apply Z.ltb_lt; unfold zlen; cbn [length]; lia).
    rewrite Hpos. apply yields_ret. split; [done|]. intros input today e. cbn [fst snd]. split; [done|].
    intros result. apply push_is_add; by auto.
Qed.

Lemma watch_targets_yields input today index targets : forall cache r,
  memo (profile_ := KOREA) cache ->
  yields (watch_targets corpus input today index targets cache r) (fun r' => exists ws,
    Forall2 (entry_of input today index) targets ws /\ tallied (wi_changes_only input) r ws r').
Proof.
  induction targets as [|target targets IH]; intros cache r Hc; cbn [watch_targets].
  { apply yields_ret. exists []. split; [constructor|apply tallied_nil]. }
  eapply yields_bind; [by apply watch_target_yields|]. intros [[entry o] cache'] [Hc' Ht]. cbn [fst snd] in *.
  destruct o as [object|].
  - eapply yields_bind; [apply watch_object_yields|]. intros [e snapshot] He. cbn [fst snd] in He.
    destruct He as (Hw & Hi & Hr & ->).
    eapply yields_weaken; [by apply IH|]. intros r' (ws & Hws & Hr'). exists (e :: ws).
    split; [constructor; [by apply Ht|done]|by apply tallied_cons].
  - destruct (Ht input today entry) as [He Hpush]. rewrite Hpush.
    eapply yields_weaken; [by apply IH|]. intros r' (ws & Hws & Hr'). exists (entry :: ws).
    split; [by constructor|by apply tallied_cons].
Qed.

(** A result has one entry for every target, in their order; it lists those of interest,
    counts them all, and its snapshot says what was seen. *)
Definition watch_ok (input : WatchInput) (day : Today) (r : WatchResult) : Prop :=
  exists index ws,
    titles_ok corpus (profile_ := KOREA) REVISIONED (asked (profile_ := KOREA) (resolved_names (wi_laws input))) index /\
    Forall2 (entry_of input (td_date day) index) (wi_laws input) ws /\
    wr_today r = td_date day /\ wr_timezone r = td_timezone day /\
    wr_entries r = List.filter (shown (wi_changes_only input)) ws /\
    wr_snapshot r = fold_left entry_snapshot ws ∅ /\
    wr_changed r = count (fun e => bool_decide (we_status e = Watch.Changed)) ws /\
    wr_with_upcoming r = count (fun e => negb (is_nil (we_upcoming e))) ws /\
    wr_repealed r = count (fun e => is_repeal (we_repeal_status e)) ws.

Lemma watch_yields input day : yields (watch corpus input day) (watch_ok input day).
Proof.
  unfold watch. destruct (watch_refused input); [apply yields_throw|].
  eapply yields_bind; [apply watch_names_yields; by intros ? ?|]. intros [names cache] [Hn Hc]. cbn [fst snd] in *. subst names.
  eapply yields_bind; [apply find_titles_yields|]. intros index Hindex.
  eapply yields_weaken; [by apply watch_targets_yields|].
  intros r (ws & Hws & Ht & Htz & _ & He & Hs & Hch & Hu & Hr). exists (ti_matches index), ws. cbn in *. by split_and!.
Qed.
End tools.

(** * Snapshots *)

(** A colon ends the name of a data family, so that a key gives back its two parts. *)
Lemma colon_split (a b x y : str) :
  (58 ∉ a) -> (58 ∉ b) -> a ++ u ":" ++ x = b ++ u ":" ++ y -> a = b /\ x = y.
Proof.
  change (u ":") with [58]. revert b. induction a as [|c a IH]; intros [|d b] Ha Hb E; cbn in *.
  - by injection E.
  - injection E as <- _. exfalso. apply Hb. by left.
  - injection E as -> _. exfalso. apply Ha. by left.
  - injection E as -> E. apply not_elem_of_cons in Ha as [_ Ha]. apply not_elem_of_cons in Hb as [_ Hb].
    by destruct (IH b Ha Hb E) as [-> ->].
Qed.

Lemma as_str_no_colon d : 58 ∉ as_str d.
Proof.
  assert (K : forallb (fun c => negb (c =? 58)) (as_str d) = true) by (destruct d; vm_compute; reflexivity).
  apply forallb_Forall in K. rewrite Forall_forall in K. intros Hin. by apply K in Hin.
Qed.

Lemma object_key_inj a b : object_key a = object_key b -> oid_dataset a = oid_dataset b /\ oid_id a = oid_id b.
Proof.
  unfold object_key, dataset_code. intros [E ->]%colon_split; [|apply as_str_no_colon..]. split; [|done].
  pose proof (find_as_str_ALL (oid_dataset a)) as Ha. rewrite E, find_as_str_ALL in Ha. congruence.
Qed.

Lemma snapshot_says ws k p : forall m,
  fold_left entry_snapshot ws m !! k = Some p -> m !! k = Some p \/
  exists e o, e ∈ ws /\ we_object e = Some o /\ object_key o = k /\
    match we_head_revision_id e with Some head => head = p | None => we_previous_revision_id e = Some p end.
Proof.
  induction ws as [|e ws IH]; intros m H; cbn [fold_left] in H; [by left|].
  apply IH in H as [H|(e' & o & He & ?)]; [|right; exists e', o; split; [by right|done]].
  unfold entry_snapshot in H. destruct (we_object e) as [o|] eqn:Eo; [|by left].
  assert (K : forall v, <[object_key o := v]> m !! k = Some p -> m !! k = Some p \/ (object_key o = k /\ v = p)).
  { intros v. destruct (decide (k = object_key o)) as [->|Hne].
    - rewrite lookup_insert_eq. intros [= ->]. by right.
    - rewrite lookup_insert_ne by done. by left. }
  destruct (we_head_revision_id e) as [head|] eqn:Eh.
  - apply K in H as [H|[Hk ->]]; [by left|]. right. exists e, o. rewrite Eh. split_and!; [by left|done..].
  - destruct (we_previous_revision_id e) as [previous|] eqn:Ep; [|by left].
    apply K in H as [H|[Hk ->]]; [by left|]. right. exists e, o. rewrite Eh. split_and!; [by left|done..].
Qed.

Section repeats.
Context (corpus : Corpus) `{CharTables} (provider : str).

(** The objects of one provider and the home jurisdiction *)
Definition at_home (o : ObjectId) : Prop := oid_jurisdiction o = u "kr" /\ oid_provider o = provider.

Lemma at_home_key a b : at_home a -> at_home b -> object_key a = object_key b -> a = b.
Proof.
  intros [Ha Ha'] [Hb Hb'] [Hd Hi]%object_key_inj. destruct a, b; cbn in *. congruence.
Qed.

Context (heads_stable : forall k k' o, get_metadata corpus k o Head = get_metadata corpus k' o Head).
Context (one_provider : forall q hit, query_hit corpus q hit -> oid_provider (lh_object hit) = provider).

Lemma entry_at_home input today names index target e o :
  titles_ok corpus (profile_ := KOREA) REVISIONED (asked (profile_ := KOREA) names) index ->
  (forall o, wt_object target = Some o -> at_home o) ->
  entry_of corpus input today index target e -> we_object e = Some o ->
  watched corpus input today o e /\ at_home o.
Proof.
  intros Hindex Htarget He Ho. unfold entry_of in He. destruct (wt_law_name target) as [name|], (wt_object target) as [object|]; try done.
  - destruct He as (_ & _ & He). set (matches := default [] _) in He.
    destruct (best matches) as [|one [|two more]] eqn:Eb; [by rewrite He in Ho| |by rewrite He in Ho].
    pose proof (wa_object _ _ _ _ _ He) as Ho'. rewrite Ho in Ho'. injection Ho' as ->. split; [done|].
    assert (Hone : one ∈ matches).
    { assert (K : one ∈ best matches) by (rewrite Eb; by left). unfold best in K.
      by apply list_elem_of_In, filter_In in K as [K%list_elem_of_In _]. }
    unfold matches in Hone. destruct (index !! _) as [l|] eqn:El; [|by apply elem_of_nil in Hone].
    destruct (Hindex _ _ El) as (_ & _ & _ & Hm). rewrite Forall_forall in Hm.
    destruct (Hm one Hone) as (_ & Hj & history & hit & Hhit & E & _). split; [done|].
    rewrite E. cbn. by apply one_provider in Hhit.
  - destruct He as (_ & _ & He). pose proof (wa_object _ _ _ _ _ He) as Ho'. rewrite Ho in Ho'. injection Ho' as ->.
    split; [done|]. by apply Htarget.
Qed.

Lemma entries_at_home input day e o ws index :
  titles_ok corpus (profile_ := KOREA) REVISIONED (asked (profile_ := KOREA) (resolved_names (wi_laws input))) index ->
  Forall2 (entry_of corpus input (td_date day) index) (wi_laws input) ws ->
  Forall (fun t => forall o, wt_object t = Some o -> at_home o) (wi_laws input) ->
  e ∈ ws -> we_object e = Some o -> watched corpus input (td_date day) o e /\ at_home o.
Proof.
  intros Hindex Hws Hlaws He Ho. apply list_elem_of_lookup in He as [i He].
  destruct (Forall2_lookup_r _ _ _ _ _ Hws He) as (t & Ht & Het).
  eapply entry_at_home; try done. rewrite Forall_forall in Hlaws. by eapply Hlaws, list_elem_of_lookup_2.
Qed.
End repeats.

(** * Properties *)

Section properties.
Context (corpus : Corpus) `{CharTables}.

(** The status of the revisions of an object ends with a result or an error and never
    panics. It is read from the inventory in chronological order, where every revision
    has an entry and the last one is of the latest revision. The upcoming revisions are
    those whose effective date is after today, from the earliest on, the first five with
    the type of their amendment; and a repeal is reported only if the metadata of the
    latest revision record one of the three types of repeal, scheduled if that revision
    takes effect after today. *)
Theorem revision_status_spec object entries today n :
  answers (revision_status corpus object entries today n) /\
  forall st n', revision_status corpus object entries today n = Ok (st, n') ->
    in_order entries (chronological entries) /\ status_ok corpus object entries today st.
Proof.
  destruct (yields_answers _ n _ (revision_status_yields corpus object entries today)) as [Ha Hs]. split; [done|].
  intros st n' Hrun. split; [apply chronological_ok|by eapply Hs].
Qed.

(** C17. A watch over laws ends with a result or an error and never panics. A result has one
    entry for every law, in their order, of which it shows those of interest. The entry
    of a law whose name has exactly one best match, or of a given object, compares the
    revision that was passed in with the head that was read, and its repeal and upcoming
    revisions are those of the inventory; a name with no match is not observed, and with
    several best matches it is ambiguous. All entries are counted, and the snapshot says
    for every object the head that was read, or else the revision that was passed in. *)
Theorem watch_spec input day n :
  answers (watch corpus input day n) /\
  forall r n', watch corpus input day n = Ok (r, n') -> watch_ok corpus input day r.
Proof. apply yields_answers, watch_yields. Qed.

(** A change is reported once. When the heads do not change between two watches, the
    second of which is given the snapshot of the first, and all objects are of one
    provider, the second reports no change, whatever laws and options it is given. *)
Theorem watch_repeats provider input day n r n' input' day' m r' m' :
  (forall k k' o, get_metadata corpus k o Head = get_metadata corpus k' o Head) ->
  (forall q hit, query_hit corpus q hit -> oid_provider (lh_object hit) = provider) ->
  Forall (fun t => forall o, wt_object t = Some o -> at_home provider o) (wi_laws input) ->
  Forall (fun t => forall o, wt_object t = Some o -> at_home provider o) (wi_laws input') ->
  watch corpus input day n = Ok (r, n') -> wi_previous input' = wr_snapshot r ->
  watch corpus input' day' m = Ok (r', m') ->
  wr_changed r' = 0 /\ Forall (fun e => we_status e <> Watch.Changed) (wr_entries r').
Proof.
  intros Hstable Hone Hlaws Hlaws' Hrun Hprev Hrun'.
  destruct (yields_answers _ n _ (watch_yields corpus input day)) as [_ Hw].
  destruct (Hw _ _ Hrun) as (index & ws & Hindex & Hws & _ & _ & _ & Hsnap & _). clear Hw.
  destruct (yields_answers _ m _ (watch_yields corpus input' day')) as [_ Hw].
  destruct (Hw _ _ Hrun') as (index' & ws' & Hindex' & Hws' & _ & _ & Hentries & _ & Hchanged & _).
  assert (Hno : Forall (fun e => we_status e <> Watch.Changed) ws').
  { apply Forall_forall. intros e' He'. destruct (we_object e') as [o|] eqn:Eo.
    2:{ apply list_elem_of_lookup in He' as [i He']. destruct (Forall2_lookup_r _ _ _ _ _ Hws' He') as (t & _ & Het).
        unfold entry_of in Het. destruct (wt_law_name t), (wt_object t); try done.
        - destruct Het as (_ & _ & Het). destruct (best _) as [|one [|two more]]; [by rewrite Het| |by rewrite Het].
          by rewrite (wa_object _ _ _ _ _ Het) in Eo.
        - destruct Het as (_ & _ & Het). by rewrite (wa_object _ _ _ _ _ Het) in Eo. }
    destruct (entries_at_home corpus provider Hone input' day' e' o ws' index' Hindex' Hws' Hlaws' He' Eo) as [Hwo Hhome].
    destruct (wa_head _ _ _ _ _ Hwo) as [k Hk]. destruct (get_metadata corpus k o Head) as [head|error] eqn:Eg.
    2:{ destruct Hk as (_ & _ & _ & _ & ->). by case_bool_decide. }
    destruct Hk as (_ & _ & _ & _ & ->). unfold head_status. rewrite Hprev, Hsnap.
    destruct (fold_left entry_snapshot ws ∅ !! object_key o) as [p|] eqn:Ep; [|done].
    apply snapshot_says in Ep as [Ep|(e & o' & He & Ho' & Hkey & Hp)]; [by rewrite lookup_empty in Ep|].
    destruct (entries_at_home corpus provider Hone input day e o' ws index Hindex Hws Hlaws He Ho') as [Hwo' Hhome'].
    apply (at_home_key provider) in Hkey; [|done..]. subst o'.
    destruct (wa_head _ _ _ _ _ Hwo') as [k' Hk']. rewrite (Hstable k' k), Eg in Hk'.
    destruct Hk' as (Eh & _). rewrite Eh in Hp. subst p. by rewrite (proj2 (str_eqb_eq _ _) eq_refl). }
  split.
  - rewrite Hchanged. unfold count. replace (List.filter _ ws') with (@nil WatchEntry); [done|]. symmetry.
    clear - Hno. induction Hno as [|e ws' He _ IH]; [done|]. cbn [List.filter]. by rewrite bool_decide_eq_false_2.
  - rewrite Hentries. apply Forall_forall. intros e [He _]%list_elem_of_In%filter_In.
    rewrite Forall_forall in Hno. by apply Hno, list_elem_of_In.
Qed.
End properties.

(** * Witnesses *)

#[local] Existing Instance example_tables.

(** A corpus with one statute, whose second revision repeals it in the future *)
Definition watched_corpus : Corpus :=
  {| search _ _ _ _ :=
       Ok {| lp_hits := [sample_hit NationalStatute "시험법" "시험법"]; lp_next_cursor := None; lp_corpus_complete := true |};
     get _ _ _ := Ok sample_capture;
     get_metadata _ _ s := Ok {| mr_revision_id := u "r1"; mr_capture_id := u "c1"; mr_title := u "시험법";
       mr_metadata := {[ u "amendment_type" := if bool_decide (s = Revision (u "r2")) then u "타법 폐지" else u "일부개정" ]};
       mr_publication_date := None; mr_effective_date := Some (u "20190301") |};
     history _ _ _ := Ok {| hp_entries := [sample_entry "r2" "20300101"; sample_entry "r1" "20190301"];
                            hp_next_cursor := None; hp_inventory_complete := true |} |}.

Definition sample_day : Today := {| td_date := u "20260101"; td_timezone := u "Asia/Seoul" |}.

Definition watch_input (previous : gmap str str) : WatchInput :=
  {| wi_laws := [{| wt_law_name := Some (u "시험법"); wt_object := None |};
                 {| wt_law_name := None; wt_object := Some (sample_object NationalStatute "1") |};
                 {| wt_law_name := Some (u "없는법"); wt_object := None |}];
     wi_previous := previous; wi_include_upcoming := true; wi_changes_only := false |}.

Abbreviation watch_run := (watch watched_corpus (watch_input {[ u "national_statute:1" := u "r0" ]}) sample_day 0%nat).
Abbreviation watch_again := (watch watched_corpus (watch_input {[ u "national_statute:1" := u "r1" ]}) sample_day 0%nat).
Abbreviation status_run := (revision_status watched_corpus (sample_object NationalStatute "1")
  [sample_entry "r2" "20300101"; sample_entry "r1" "20190301"] (u "20260101") 0%nat).

Example sample_watch :
  match watch_run, watch_again with
  | Ok (r, _), Ok (r', _) =>
    (we_status <$> wr_entries r, wr_changed r, wr_repealed r, map_to_list (wr_snapshot r), we_status <$> wr_entries r')
  | _, _ => ([], 0, 0, [], [])
  end
  = ([Watch.Changed; Watch.Changed; Watch.NotObserved], 2, 2, [(u "national_statute:1", u "r1")],
     [Watch.Unchanged; Watch.Unchanged; Watch.NotObserved]).
Proof. vm_compute. reflexivity. Qed.

Lemma revision_status_spec_witness :
  exists st n', status_run = Ok (st, n') /\ rs_repeal_status st = RepealScheduled /\
    status_ok watched_corpus (sample_object NationalStatute "1")
      [sample_entry "r2" "20300101"; sample_entry "r1" "20190301"] (u "20260101") st.
Proof.
  destruct (is_ok_runs status_run) as (st & n' & E); [vm_compute; reflexivity|]. exists st, n'. split; [exact E|].
  split.
  - assert (K : match status_run with Ok (st, _) => rs_repeal_status st | Err _ => Unknown end = RepealScheduled)
      by (vm_compute; reflexivity). rewrite E in K. exact K.
  - exact (proj2 (proj2 (revision_status_spec watched_corpus (sample_object NationalStatute "1") _ (u "20260101") 0%nat) st n' E)).
Defined.

Lemma watch_spec_witness :
  exists r n', watch_run = Ok (r, n') /\
    watch_ok watched_corpus (watch_input {[ u "national_statute:1" := u "r0" ]}) sample_day r.
Proof.
  destruct (is_ok_runs watch_run) as (r & n' & E); [vm_compute; reflexivity|]. exists r, n'. split; [exact E|].
  exact (proj2 (watch_spec watched_corpus _ sample_day 0%nat) r n' E).
Defined.

Lemma watch_repeats_witness :
  exists r r' n' m', watch_run = Ok (r, n') /\ watch watched_corpus (watch_input (wr_snapshot r)) sample_day 5%nat = Ok (r', m') /\
    wr_changed r' = 0.
Proof.
  destruct (is_ok_runs watch_run) as (r & n' & E); [vm_compute; reflexivity|].
  assert (K : match watch_run with Ok (r, _) => is_ok (watch watched_corpus (watch_input (wr_snapshot r)) sample_day 5%nat)
                                 | Err _ => false end = true) by (vm_compute; reflexivity).
  rewrite E in K. apply is_ok_runs in K as (r' & m' & E').
  exists r, r', n', m'. split; [exact E|]. split; [exact E'|].
  refine (proj1 (watch_repeats watched_corpus (u "law_go_kr") _ sample_day 0%nat r n'
    (watch_input (wr_snapshot r)) sample_day 5%nat r' m' _ _ _ _ E eq_refl E')).
  - intros k k' o. reflexivity.
  - intros q hit (k & query & cursor & page & Hp & Hin). cbn in Hp. injection Hp as <-.
    apply list_elem_of_singleton in Hin as ->. reflexivity.
  - repeat (apply Forall_cons; split; [intros o [=]; subst; split; reflexivity|]). by apply Forall_nil.
  - repeat (apply Forall_cons; split; [intros o [=]; subst; split; reflexivity|]). by apply Forall_nil.
Defined.
