(* ===== verification/Lineage.v ===== *)
(** The lineage of a law: [lineage] of [apps/server/src/legal_analysis.rs]. *)

From stdpp Require Import sorting.
From S2P Require Import Prelude Utf8 Strings Domain Legal TextDiff Citation CitationFacts InForce InForceFacts Slices KrNames KrArticles KrCitations KrCitationsFacts KrExamples Profile CorpusTitles CorpusTitlesFacts CitationCheck CitationCheckFacts CitationCheckProperties InForceTool ArticleRead Citator LawWatch.

Definition MAX_REPEAL_TITLES : Z := 10.
Definition MAX_REPEAL_MENTIONS : Z := 20.

(** * Contracts of [crates/domain/src/legal_analysis.rs] *)

Record TitlePeriod := {
  tp_title : str; tp_first_revision_id : str; tp_first_effective_date : option str;
  tp_last_revision_id : str; tp_last_effective_date : option str;
}.

Record RepealMention := {
  rm_object : ObjectId; rm_title : str; rm_line : str; rm_revision_id : str; rm_capture_id : str;
}.

Record LineageResult := {
  li_object : ObjectId; li_resolution : option LawNameResolution; li_head_state : str;
  li_current_title : option str; li_capture_id : option str; li_today : str; li_timezone : str;
  li_titles : list TitlePeriod; li_renamed : bool; li_upcoming : list UpcomingRevision;
  li_repeal_status : RepealStatus; li_repeal : option RepealRecord; li_latest_amendment_type : option str;
  li_repeal_mentions : list RepealMention; li_revisions_without_title : Z;
  li_inventory_complete : bool; li_corpus_complete : bool;
}.

Record TargetInput := { tg_object : option ObjectId; tg_law_name : option str }.

(** * Today *)

(** The time zones of the crate [jiff]: a zone by its name, and the date of a time in
    seconds in a zone, when it is in range *)
Class TimeZones := {
  zone : Type; zone_get : str -> option zone; zone_date : zone -> Z -> option (Z * Z * Z);
}.

Definition MAX_TIMEZONE_BYTES : Z := 64.
Definition default_timezone : str := u "Asia/Seoul".
Definition i64_max : Z := 2 ^ 63 - 1.

(** A number printed with at least [width] digits *)
Definition pad_zeros (width : nat) (n : Z) : str :=
  let s := show_Z n in replicate (width - length s) (ch "0") ++ s.

Definition today_at `{TimeZones} (unix_seconds : Z) (timezone : option str) : result ToolError Today :=
  let name := match timezone with Some t => trim t | None => default_timezone end in
  if bool_decide (name = []) || (MAX_TIMEZONE_BYTES <? slen name)
     || negb (forallb (fun b => is_ascii_alphanumeric b || existsb (Z.eqb b) (u "/_+-")) (bytes name))
  then Err Tool.InvalidTimezone else
  match zone_get name with
  | None => Err Tool.InvalidTimezone
  | Some z =>
    if i64_max <? unix_seconds then Err Tool.InvalidInput else
    match zone_date z unix_seconds with
    | None => Err Tool.InvalidInput
    | Some (y, m, d) => Ok {| td_date := pad_zeros 4 y ++ pad_zeros 2 m ++ pad_zeros 2 d; td_timezone := name |}
    end
  end.

(** * Titles *)

(** The first title that a hit of the object has for a revision *)
Definition first_titles (object : ObjectId) (hits : list LineHit) : gmap str str :=
  fold_left (fun m h =>
    if bool_decide (lh_object h = object) && negb (is_some (m !! lh_revision_id h))
    then <[lh_revision_id h := lh_title h]> m else m) hits ∅.

Section names.
Context `{CharTables}.

Definition same_key (a b : str) : bool := str_eqb (name_key a) (name_key b).

(** The last period is continued by a title with its key. *)
Definition add_title (titles : list TitlePeriod) (entry : HistoryEntry) (title : str) : list TitlePeriod :=
  let fresh := {| tp_title := title; tp_first_revision_id := he_revision_id entry;
                  tp_first_effective_date := he_effective_date entry;
                  tp_last_revision_id := he_revision_id entry;
                  tp_last_effective_date := he_effective_date entry |} in
  match last titles with
  | Some period =>
    if same_key (tp_title period) title
    then removelast titles ++
      [{| tp_title := tp_title period; tp_first_revision_id := tp_first_revision_id period;
          tp_first_effective_date := tp_first_effective_date period;
          tp_last_revision_id := he_revision_id entry; tp_last_effective_date := he_effective_date entry |}]
    else titles ++ [fresh]
  | None => titles ++ [fresh]
  end.

(** The loop over the revisions: the periods and the number of revisions without a title *)
Fixpoint title_periods (by_revision : gmap str str) (entries : list HistoryEntry) (titles : list TitlePeriod)
  (without : Z) : list TitlePeriod * Z :=
  match entries with
  | [] => (titles, without)
  | entry :: entries =>
    match by_revision !! he_revision_id entry with
    | None => title_periods by_revision entries titles (without + 1)
    | Some title => title_periods by_revision entries (add_title titles entry title) without
    end
  end.

Definition renamed (titles : list TitlePeriod) : bool :=
  (1 <? size (list_to_set ((fun t => name_key (tp_title t)) <$> titles) : gset str))%nat.

(** The titles whose repeal is searched for, each key once *)
Definition searched_titles (current_title : option str) (titles : list TitlePeriod) : list str :=
  fold_left (fun searched title =>
    if (zlen searched <? MAX_REPEAL_TITLES) && negb (existsb (fun s => same_key s title) searched)
    then searched ++ [title] else searched)
    (option_list current_title ++ reverse (tp_title <$> titles)) [].

Definition repeal_patterns (title : str) : list str :=
  let name := title_pattern title in
  [u "(?:.*[^가-힣])?「?" ++ name ++ u ".*폐지.*"; u ".*폐지.*[^가-힣]「?" ++ name ++ u ".*"].

(** The loop over the lines that mention a repeal *)
Fixpoint repeal_mentions (hits : list LineHit) (mentions : list RepealMention) : list RepealMention :=
  match hits with
  | [] => mentions
  | hit :: hits =>
    let line := clip_chars (lh_text hit) LINE_CHARS in
    if zlen mentions =? MAX_REPEAL_MENTIONS then mentions else
    if existsb (fun m => bool_decide (rm_object m = lh_object hit) && str_eqb (rm_line m) line) mentions
    then repeal_mentions hits mentions
    else repeal_mentions hits (mentions ++
      [{| rm_object := lh_object hit; rm_title := lh_title hit; rm_line := line;
          rm_revision_id := lh_revision_id hit; rm_capture_id := lh_capture_id hit |}])
  end.
End names.

(** * The tool *)

Section tools.
Context (corpus : Corpus) `{CharTables}.

Definition lineage (input : TargetInput) (day : Today) : tool LineageResult :=
  let! (object, resolution) :=
    resolve_object corpus (profile_ := KOREA) (tg_object input) (tg_law_name input) REVISIONED in
  if negb (has_provider_revisions (oid_dataset object)) then throw Tool.UnsupportedHistory else
  let! head := head_metadata corpus object in
  let '(head_state, current_title, capture_id) :=
    match head with
    | Ok head => (u "published", Some (mr_title head), Some (mr_capture_id head))
    | Err error => (code error, None, None)
    end in
  let! (entries, complete) := revisions_tool corpus object in
  let! found := lines_tool corpus
    {| lq_section := u "title"; lq_datasets := [oid_dataset object]; lq_object := Some (oid_id object);
       lq_history := true |} [u ".+"] in
  let '(titles, without) := title_periods (first_titles object (ll_hits found)) (chronological entries) [] 0 in
  let! status := revision_status corpus object entries (td_date day) in
  let patterns := concat (repeal_patterns <$> searched_titles current_title titles) in
  let! (mentions, corpus_complete) :=
    if is_nil patterns then ret ([], ll_corpus_complete found) else
    let! r := lines_tool corpus
      {| lq_section := u "body"; lq_datasets := [NationalStatute; AdministrativeRule]; lq_object := None;
         lq_history := false |} patterns in
    ret (repeal_mentions (ll_hits r) [], ll_corpus_complete found && ll_corpus_complete r) in
  ret {| li_object := object; li_resolution := resolution; li_head_state := head_state;
         li_current_title := current_title; li_capture_id := capture_id; li_today := td_date day;
         li_timezone := td_timezone day; li_titles := titles; li_renamed := renamed titles;
         li_upcoming := rs_upcoming status; li_repeal_status := rs_repeal_status status;
         li_repeal := rs_repeal status; li_latest_amendment_type := rs_latest_amendment_type status;
         li_repeal_mentions := mentions; li_revisions_without_title := without;
         li_inventory_complete := complete; li_corpus_complete := corpus_complete |}.
End tools.

(** * What the lineage of a law says

    What the lineage of a law promises: its title periods partition the revisions with a
    title, a law is renamed exactly if two of them have different names, and the lines
    that mention a repeal are what the search answered. *)

(** * Today *)

(** A date of the crate [jiff] for a time since 1970 is one of the calendar. *)
Class TimeZoneLaws `{TimeZones} : Prop := {
  zone_date_valid z seconds y m d : 0 <= seconds -> zone_date z seconds = Some (y, m, d) ->
    1 <= y <= 9999 /\ 1 <= m <= 12 /\ 1 <= d <= month_days y m;
}.

Lemma month_days_le y m : month_days y m <= 31.
Proof. unfold month_days. repeat case_match; lia. Qed.

(** Padded numbers are the digits of a date. *)
Lemma pad_digits n : 0 <= n < 10000 -> pad_zeros 4 n = four_digits n /\ (n < 100 -> pad_zeros 2 n = two_digits n).
Proof.
  intros Hn. unfold pad_zeros, show_Z, four_digits, two_digits. change (ch "0") with 48.
  destruct (Z_lt_le_dec n 10); [|destruct (Z_lt_le_dec n 100); [|destruct (Z_lt_le_dec n 1000)]].
  - rewrite decimal_last by done. cbn [length replicate app Nat.sub]. split; [|intros _]; same_digits.
  - rewrite decimal_next, decimal_last by dlia. cbn [length replicate app Nat.sub].
    split; [|intros _]; same_digits.
  - rewrite 2!decimal_next, decimal_last by dlia. cbn [length replicate app Nat.sub].
    split; [|lia]; same_digits.
  - rewrite 3!decimal_next, decimal_last by dlia. cbn [length replicate app Nat.sub].
    split; [|lia]; same_digits.
Qed.

(** The date of today is a valid one, in the zone that was asked for or the default. *)
Lemma today_valid `{TimeZoneLaws} seconds timezone t :
  0 <= seconds -> today_at seconds timezone = Ok t ->
  valid_date (td_date t) = true /\
  td_timezone t = match timezone with Some name => trim name | None => default_timezone end.
Proof.
  intros Hs. unfold today_at. set (name := match timezone with Some t => trim t | None => _ end).
  destruct (_ || _); [done|]. destruct (zone_get name) as [z|]; [|done]. destruct (_ <? _); [done|].
  destruct (zone_date z seconds) as [[[y m] d]|] eqn:E; [|done]. intros [= <-]. split; [|done]. cbn [td_date].
  destruct (zone_date_valid _ _ _ _ _ Hs E) as (Hy & Hm & Hd). pose proof (month_days_le y m).
  rewrite (proj1 (pad_digits y ltac:(lia))), (proj2 (pad_digits m ltac:(lia)) ltac:(lia)),
    (proj2 (pad_digits d ltac:(lia)) ltac:(lia)).
  change (valid_date (date_string y m d) = true). rewrite valid_date_fields by lia.
  rewrite !andb_true_iff, !Z.ltb_lt, Z.leb_le. lia.
Qed.

(** * Titles of revisions *)

Lemma first_titles_find object hits r :
  first_titles object hits !! r =
  lh_title <$> List.find (fun h => bool_decide (lh_object h = object) && str_eqb (lh_revision_id h) r) hits.
Proof.
  unfold first_titles.
  enough (H : forall m : gmap str str, fold_left (fun m h =>
      if bool_decide (lh_object h = object) && negb (is_some (m !! lh_revision_id h))
      then <[lh_revision_id h := lh_title h]> m else m) hits m !! r =
    match m !! r with
    | Some t => Some t
    | None => lh_title <$> List.find (fun h => bool_decide (lh_object h = object) && str_eqb (lh_revision_id h) r) hits
    end) by (rewrite (H ∅); by rewrite lookup_empty).
  induction hits as [|h hits IH]; intros m; cbn [fold_left List.find]; [by destruct (m !! r)|].
  rewrite IH. case_bool_decide as Ho; cbn [andb]; [|done].
  destruct (str_eqb_spec (lh_revision_id h) r) as [->|Hne].
  - destruct (m !! r) eqn:E; cbn [is_some negb]; [by rewrite E|]. by rewrite lookup_insert_eq.
  - destruct (is_some _); cbn [negb]; [done|]. by rewrite lookup_insert_ne.
Qed.

(** The entries with a title *)
Definition titled (by_revision : gmap str str) (entries : list HistoryEntry) : list (HistoryEntry * str) :=
  omap (fun e => pair e <$> by_revision !! he_revision_id e) entries.

(** * Periods *)

Section names.
Context `{CharTables}.

Definition key_of (x : HistoryEntry * str) : str := name_key x.2.

(** The period of a run of entries whose titles have one key *)
Definition period_of (g : list (HistoryEntry * str)) (p : TitlePeriod) : Prop :=
  exists first more final, g = first :: more /\ last g = Some final /\
    Forall (fun x => key_of x = key_of first) g /\ tp_title p = first.2 /\
    tp_first_revision_id p = he_revision_id first.1 /\ tp_first_effective_date p = he_effective_date first.1 /\
    tp_last_revision_id p = he_revision_id final.1 /\ tp_last_effective_date p = he_effective_date final.1.

(** The periods split the titled entries into runs; a run and the next one differ. *)
Definition periods_of (entries : list (HistoryEntry * str)) (ps : list TitlePeriod) : Prop :=
  (exists groups, concat groups = entries /\ Forall2 period_of groups ps) /\
  forall i p q, ps !! i = Some p -> ps !! S i = Some q -> name_key (tp_title p) <> name_key (tp_title q).

Lemma periods_fresh entries ps e t :
  periods_of entries ps ->
  (forall p, last ps = Some p -> name_key (tp_title p) <> name_key t) ->
  periods_of (entries ++ [(e, t)])
    (ps ++ [{| tp_title := t; tp_first_revision_id := he_revision_id e; tp_first_effective_date := he_effective_date e;
               tp_last_revision_id := he_revision_id e; tp_last_effective_date := he_effective_date e |}]).
Proof.
  intros [(groups & <- & Hg) Hd] Hlast. split.
  - exists (groups ++ [[(e, t)]]). rewrite concat_app. split; [done|]. apply Forall2_app; [done|].
    constructor; [|constructor]. exists (e, t), [], (e, t). split_and!; try done. by apply Forall_singleton.
  - intros i p q Hp Hq. apply lookup_snoc_Some in Hq as [[Hi Hq]|[Hi <-]].
    + apply lookup_snoc_Some in Hp as [[_ Hp]|[Hj _]]; [by eapply Hd|lia].
    + apply lookup_snoc_Some in Hp as [[_ Hp]|[Hj _]]; [|lia]. cbn [tp_title]. apply Hlast.
      rewrite last_lookup. replace (pred (length ps)) with i by lia. done.
Qed.

Lemma periods_more entries ps e t p :
  periods_of entries (ps ++ [p]) -> name_key (tp_title p) = name_key t ->
  periods_of (entries ++ [(e, t)])
    (ps ++ [{| tp_title := tp_title p; tp_first_revision_id := tp_first_revision_id p;
               tp_first_effective_date := tp_first_effective_date p;
               tp_last_revision_id := he_revision_id e; tp_last_effective_date := he_effective_date e |}]).
Proof.
  intros [(groups & <- & Hg) Hd] Hkey. apply Forall2_app_inv_r in Hg as (gs & g & Hgs & Hg & ->).
  apply Forall2_cons_inv_r in Hg as (g0 & gnil & (first & more & final & -> & Hfinal & Hall & Ht & Hf & Hfe & _) & Hnil & ->).
  apply Forall2_nil_inv_r in Hnil as ->. split.
  - exists (gs ++ [(first :: more) ++ [(e, t)]]). rewrite !concat_app. cbn [concat]. rewrite !app_nil_r, <- app_assoc.
    split; [done|]. apply Forall2_app; [done|]. constructor; [|constructor].
    exists first, (more ++ [(e, t)]), (e, t). split_and!; try done.
    + by rewrite last_snoc.
    + apply Forall_app. split; [done|]. apply Forall_singleton. unfold key_of. cbn [snd]. by rewrite <- Hkey, Ht.
  - intros i q q' Hq Hq'. apply lookup_snoc_Some in Hq' as [[Hi Hq']|[Hi <-]].
    + apply lookup_snoc_Some in Hq as [[_ Hq]|[Hj _]]; [|lia].
      apply (Hd i q q'); by apply lookup_app_l_Some.
    + apply lookup_snoc_Some in Hq as [[_ Hq]|[Hj _]]; [|lia]. cbn [tp_title].
      apply (Hd i q p); [by apply lookup_app_l_Some|]. subst. by rewrite list_lookup_middle.
Qed.

Lemma add_title_periods entries ps e t : periods_of entries ps -> periods_of (entries ++ [(e, t)]) (add_title ps e t).
Proof.
  intros Hp. unfold add_title. destruct (last ps) as [p|] eqn:E; [|apply periods_fresh; [done|by rewrite E]].
  unfold same_key. destruct (str_eqb_spec (name_key (tp_title p)) (name_key t)) as [Hk|Hk].
  - destruct (snoc_last ps) as (p' & Ep & Eps); [by intros ->|]. rewrite E in Ep. injection Ep as <-.
    rewrite Eps in Hp. by apply periods_more.
  - apply periods_fresh; [done|]. rewrite E. by intros q [= <-].
Qed.

Lemma title_periods_spec by_revision entries : forall done_ ps n,
  periods_of done_ ps ->
  let r := title_periods by_revision entries ps n in
  periods_of (done_ ++ titled by_revision entries) r.1 /\
  r.2 = n + (zlen entries - zlen (titled by_revision entries)).
Proof.
  induction entries as [|e entries IH]; intros done_ ps n Hp.
  { cbn. rewrite app_nil_r. split; [done|]. unfold zlen. cbn. lia. }
  cbn [title_periods]. unfold titled. cbn [omap list_omap]. fold (titled by_revision entries).
  change (list_omap _ _ _ entries) with (titled by_revision entries).
  destruct (by_revision !! he_revision_id e) as [t|]; cbn [fmap option_fmap option_map].
  - destruct (IH (done_ ++ [(e, t)]) (add_title ps e t) n) as [H1 H2]; [by apply add_title_periods|].
    rewrite <- app_assoc in H1. split; [done|]. rewrite H2. unfold zlen. cbn [length]. lia.
  - destruct (IH done_ ps (n + 1) Hp) as [H1 H2]. split; [done|]. rewrite H2. unfold zlen. cbn [length]. lia.
Qed.

(** ** Renaming *)

Lemma size_two (X : gset str) : (1 < size X)%nat <-> exists x y, x ∈ X /\ y ∈ X /\ x <> y.
Proof.
  split.
  - intros Hs. unfold size, set_size in Hs. cbn in Hs. pose proof (NoDup_elements X) as Hn.
    destruct (elements X) as [|x [|y l]] eqn:E; cbn in Hs; [lia..|]. exists x, y.
    rewrite <- !elem_of_elements, E. apply NoDup_cons in Hn as [Hn _]. set_solver.
  - intros (x & y & Hx & Hy & Hne). assert (Hsub : ({[x; y]} : gset str) ⊆ X) by set_solver.
    apply subseteq_size in Hsub. rewrite size_union, !size_singleton in Hsub.
    + lia.
    + intros k ->%elem_of_singleton ->%elem_of_singleton. done.
Qed.

(** The keys of the periods are those of the entries. *)
Lemma period_keys entries ps k : periods_of entries ps ->
  k ∈ (fun p => name_key (tp_title p)) <$> ps <-> k ∈ key_of <$> entries.
Proof.
  intros [(groups & <- & Hg) _]. induction Hg as [|g p groups ps Hgp _ IH]; [done|].
  cbn [concat]. rewrite fmap_cons, fmap_app, elem_of_cons, elem_of_app, IH.
  enough (k = name_key (tp_title p) <-> k ∈ key_of <$> g) by tauto.
  destruct Hgp as (first & more & final & -> & _ & Hall & Ht & _). rewrite Ht. split.
  - intros ->. by left.
  - intros (x & -> & Hx)%list_elem_of_fmap. rewrite Forall_forall in Hall. by rewrite Hall.
Qed.

Lemma renamed_spec entries ps : periods_of entries ps ->
  renamed ps = true <-> exists x y, x ∈ entries /\ y ∈ entries /\ key_of x <> key_of y.
Proof.
  intros Hp. unfold renamed. rewrite Nat.ltb_lt, size_two. setoid_rewrite elem_of_list_to_set.
  split.
  - intros (a & b & Ha & Hb & Hne). rewrite (period_keys entries) in Ha, Hb by done.
    apply list_elem_of_fmap in Ha as (x & -> & Hx). apply list_elem_of_fmap in Hb as (y & -> & Hy). by exists x, y.
  - intros (x & y & Hx & Hy & Hne). exists (key_of x), (key_of y).
    rewrite !(period_keys entries) by done. split_and!; [by apply list_elem_of_fmap_2..|done].
Qed.

(** * Mentions of a repeal *)

Definition mention_key (m : RepealMention) : ObjectId * str := (rm_object m, rm_line m).

Definition hit_key (h : LineHit) : ObjectId * str := (lh_object h, clip_chars (lh_text h) LINE_CHARS).

(** Every mention is a hit, with its line; a line of an object is listed once; and below
    the limit every hit is listed. *)
Definition mentions_of (hits : list LineHit) (ms : list RepealMention) : Prop :=
  NoDup (mention_key <$> ms) /\ zlen ms <= MAX_REPEAL_MENTIONS /\
  Forall (fun m => exists h, h ∈ hits /\ mention_key m = hit_key h /\ rm_title m = lh_title h /\
    rm_revision_id m = lh_revision_id h /\ rm_capture_id m = lh_capture_id h) ms /\
  (zlen ms < MAX_REPEAL_MENTIONS -> Forall (fun h => hit_key h ∈ mention_key <$> ms) hits).

Lemma mentions_more hits ms h :
  Forall (fun m => exists h, h ∈ hits /\ mention_key m = hit_key h /\ rm_title m = lh_title h /\
    rm_revision_id m = lh_revision_id h /\ rm_capture_id m = lh_capture_id h) ms ->
  Forall (fun m => exists h', h' ∈ hits ++ h /\ mention_key m = hit_key h' /\ rm_title m = lh_title h' /\
    rm_revision_id m = lh_revision_id h' /\ rm_capture_id m = lh_capture_id h') ms.
Proof. intros H0. eapply Forall_impl; [exact H0|]. intros m (h' & Hh & ?). exists h'. rewrite elem_of_app. auto. Qed.

Lemma seen_spec h ms :
  existsb (fun m => bool_decide (rm_object m = lh_object h) && str_eqb (rm_line m) (clip_chars (lh_text h) LINE_CHARS)) ms = true
  <-> hit_key h ∈ mention_key <$> ms.
Proof.
  rewrite existsb_exists, list_elem_of_fmap. setoid_rewrite <- list_elem_of_In. unfold mention_key, hit_key. split.
  - intros (m & Hm & [<-%bool_decide_eq_true <-%str_eqb_eq]%andb_true_iff). by exists m.
  - intros (m & [= -> ->] & Hm). exists m. split; [done|]. rewrite bool_decide_eq_true_2 by done. by apply str_eqb_eq.
Qed.

Lemma repeal_mentions_spec hits : forall done_ ms,
  mentions_of done_ ms -> mentions_of (done_ ++ hits) (repeal_mentions hits ms).
Proof.
  induction hits as [|h hits IH]; intros done_ ms Hm; cbn [repeal_mentions]; [by rewrite app_nil_r|].
  pose proof Hm as (Hn & Hl & Hf & Hc).
  destruct (Z.eqb_spec (zlen ms) MAX_REPEAL_MENTIONS) as [Hfull|Hroom].
  { split_and!; [done..|by apply mentions_more|lia]. }
  replace (done_ ++ h :: hits) with ((done_ ++ [h]) ++ hits) by by rewrite <- app_assoc.
  destruct (existsb _ ms) eqn:E; apply IH.
  - apply seen_spec in E. split_and!; [done..|by apply mentions_more|].
    intros Hlt. apply Forall_app. split; [by apply Hc|by apply Forall_singleton].
  - assert (Hnew : hit_key h ∉ mention_key <$> ms) by (rewrite <- seen_spec; congruence).
    unfold mentions_of. rewrite fmap_app. unfold zlen in *. rewrite length_app. cbn [length fmap list_fmap]. split_and!.
    + apply NoDup_app. split_and!; [done| |apply NoDup_singleton]. by intros k Hk ->%list_elem_of_singleton.
    + lia.
    + apply Forall_app. split; [by apply mentions_more|]. apply Forall_singleton. exists h. set_solver.
    + intros _. apply Forall_app. split.
      * eapply Forall_impl; [apply Hc; lia|]. intros k Hk. apply elem_of_app. by left.
      * apply Forall_singleton, elem_of_app. right. by left.
Qed.
End names.

(** * The tool *)

Section tool.
Context (corpus : Corpus) `{CharTables}.

Definition title_query (object : ObjectId) : LineQuery :=
  {| lq_section := u "title"; lq_datasets := [oid_dataset object]; lq_object := Some (oid_id object);
     lq_history := true |}.
Definition repeal_query : LineQuery :=
  {| lq_section := u "body"; lq_datasets := [NationalStatute; AdministrativeRule]; lq_object := None;
     lq_history := false |}.

(** What the head says of the current title *)
Definition head_said (object : ObjectId) (r : LineageResult) : Prop :=
  exists n, match get_metadata corpus n object Head with
    | Ok head => li_head_state r = u "published" /\ li_current_title r = Some (mr_title head) /\
        li_capture_id r = Some (mr_capture_id head)
    | Err error => li_head_state r = code error /\ li_current_title r = None /\ li_capture_id r = None
    end.

(** The mentions are lines of a search for the titles, if there are any. *)
Definition mentions_said (r : LineageResult) : Prop :=
  match searched_titles (li_current_title r) (li_titles r) with
  | [] => li_repeal_mentions r = []
  | _ => exists found, lookup_ok corpus repeal_query found /\ mentions_of (ll_hits found) (li_repeal_mentions r)
  end.

Definition lineage_ok (input : TargetInput) (day : Today) (r : LineageResult) : Prop :=
  exists m entries found st,
    object_of corpus (H := KOREA) (tg_object input) (tg_law_name input) REVISIONED (li_object r, li_resolution r) /\
    head_said (li_object r) r /\
    revisions (fun k => history corpus (m + k) (li_object r)) = Ok (entries, li_inventory_complete r) /\
    in_order entries (chronological entries) /\
    lookup_ok corpus (title_query (li_object r)) found /\
    (let all := titled (first_titles (li_object r) (ll_hits found)) (chronological entries) in
     periods_of all (li_titles r) /\
     li_revisions_without_title r = zlen (chronological entries) - zlen all /\
     (li_renamed r = true <-> exists x y, x ∈ all /\ y ∈ all /\ key_of x <> key_of y)) /\
    status_ok corpus (li_object r) entries (td_date day) st /\
    (li_upcoming r, li_repeal_status r, li_repeal r, li_latest_amendment_type r) =
      (rs_upcoming st, rs_repeal_status st, rs_repeal st, rs_latest_amendment_type st) /\
    mentions_said r.

Lemma repeal_patterns_nil titles : concat (repeal_patterns <$> titles) = [] <-> titles = [].
Proof. by destruct titles. Qed.

Lemma lineage_yields input day : yields (lineage corpus input day) (lineage_ok input day).
Proof.
  unfold lineage. eapply yields_bind; [apply resolve_object_yields|]. intros [object resolution] Hobj.
  destruct (has_provider_revisions _); cbn [negb]; [|apply yields_throw].
  eapply yields_bind; [apply head_metadata_yields|]. intros head [n Hhead].
  set (said := match head with Ok h => _ | Err _ => _ end).
  assert (Hsaid : match get_metadata corpus n object Head with
    | Ok h => said = (u "published", Some (mr_title h), Some (mr_capture_id h))
    | Err e => said = (code e, None, None)
    end) by (unfold said; by rewrite Hhead; destruct (get_metadata _ _ _ _)).
  clearbody said. destruct said as [[state title] capture].
  eapply yields_bind; [apply revisions_tool_yields|]. intros [entries complete] [m Hm].
  eapply yields_bind; [apply lines_tool_yields|]. intros found Hfound.
  set (by_revision := first_titles object (ll_hits found)).
  destruct (title_periods_spec by_revision (chronological entries) [] [] 0) as [Hperiods Hwithout].
  { split; [by exists []|]. intros i p q Hp. by rewrite lookup_nil in Hp. }
  destruct (title_periods by_revision (chronological entries) [] 0) as [titles without]. cbn [fst snd app] in *.
  eapply yields_bind; [apply revision_status_yields|]. intros st Hst.
  eapply yields_bind with (mid := fun x =>
    match searched_titles title titles with
    | [] => x.1 = []
    | _ => exists found, lookup_ok corpus repeal_query found /\ mentions_of (ll_hits found) x.1
    end).
  { destruct (searched_titles title titles) as [|t ts] eqn:E; [by apply yields_ret|].
    destruct (concat (repeal_patterns <$> t :: ts)) eqn:Ep; [by apply repeal_patterns_nil in Ep|]. cbn [is_nil].
    eapply yields_bind; [apply lines_tool_yields|]. intros lines Hlines. apply yields_ret. exists lines.
    split; [done|]. cbn [fst]. apply (repeal_mentions_spec _ [] []).
    split_and!; [apply NoDup_nil_2|done|by apply Forall_nil|by intros _; apply Forall_nil]. }
  intros [mentions complete'] Hmentions. apply yields_ret. exists m, entries, found, st. cbn [fst] in Hmentions.
  cbn [li_object li_resolution li_inventory_complete li_titles li_revisions_without_title li_renamed li_upcoming
       li_repeal_status li_repeal li_latest_amendment_type].
  split_and!; try done.
  - exists n. cbn. destruct (get_metadata _ _ _ _); by injection Hsaid as -> -> ->.
  - apply chronological_ok.
  - by apply renamed_spec.
Qed.

(** The lineage of a law ends with a result or an error and never panics. Its object is
    the one that was given or that the name denotes. The title periods split the
    revisions that have a title, in chronological order, into runs of one name such that
    neighbouring periods have different names; the revisions without a title are
    counted; and the law is renamed exactly if two of its revisions have different names.
    The repeal status and the upcoming revisions are those of the inventory, and the
    mentions of a repeal are lines that the search answered, each once and at most 20. *)
Theorem lineage_spec input day n :
  answers (lineage corpus input day n) /\
  forall r n', lineage corpus input day n = Ok (r, n') -> lineage_ok input day r.
Proof. apply yields_answers, lineage_yields. Qed.
End tool.

(** * Witnesses *)

#[local] Existing Instance example_tables.

Definition renamed_hit (revision title : string) : LineHit :=
  {| lh_object := sample_object NationalStatute "1"; lh_title := u title; lh_revision_id := u revision;
     lh_capture_id := u "c1"; lh_text := u title |}.

(** A law with three revisions, of which the last has a new title *)
Definition renamed_corpus : Corpus :=
  {| search _ q _ _ :=
       Ok {| lp_hits := if lq_history q then [renamed_hit "r1" "시험법"; renamed_hit "r2" "시험 법"; renamed_hit "r3" "검사법"]
                        else [renamed_hit "r1" "시험법"];
             lp_next_cursor := None; lp_corpus_complete := true |};
     get _ _ _ := Ok sample_capture;
     get_metadata := get_metadata watched_corpus;
     history _ _ _ := Ok {| hp_entries := [sample_entry "r3" "20240101"; sample_entry "r4" "20250101";
                                           sample_entry "r2" "20200101"; sample_entry "r1" "20190301"];
                            hp_next_cursor := None; hp_inventory_complete := true |} |}.

Definition lineage_input : TargetInput :=
  {| tg_object := Some (sample_object NationalStatute "1"); tg_law_name := None |}.
Abbreviation lineage_run := (lineage renamed_corpus lineage_input sample_day 0%nat).

Example sample_lineage :
  match lineage_run with
  | Ok (r, _) => ((fun p => (tp_title p, tp_first_revision_id p, tp_last_revision_id p)) <$> li_titles r,
                  li_renamed r, li_revisions_without_title r, li_repeal_status r, zlen (li_repeal_mentions r))
  | Err _ => ([], false, 0, Unknown, 0)
  end
  = ([(u "시험법", u "r1", u "r2"); (u "검사법", u "r3", u "r3")], true, 1, NoRepealRecorded, 1).
Proof. vm_compute. reflexivity. Qed.

Lemma lineage_spec_witness :
  exists r n', lineage_run = Ok (r, n') /\ lineage_ok renamed_corpus lineage_input sample_day r.
Proof.
  destruct (is_ok_runs lineage_run) as (r & n' & E); [vm_compute; reflexivity|]. exists r, n'. split; [exact E|].
  exact (proj2 (lineage_spec renamed_corpus lineage_input sample_day 0%nat) r n' E).
Defined.
