(* ===== verification/Impact.v ===== *)
(** References to and from an article: [outbound_references] and [impact] of
    [apps/server/src/legal_analysis.rs]. *)

From stdpp Require Import sorting.
From S2P Require Import Prelude Utf8 Strings Domain Legal TextDiff Citation InForce InForceFacts Slices KrNames KrArticles KrLocators KrOutline KrLookup KrCitations KrCitationsFacts KrExamples Profile CorpusTitles CorpusTitlesFacts CitationCheck CitationCheckFacts CitationCheckProperties InForceTool ArticleRead ArticleReadFacts Citator.

Definition MAX_BUCKET_REFERENCES : Z := 20.
Definition MAX_OUTBOUND : Z := 30.
Definition IMPACT_GROUPS : list (list Dataset) :=
  [[Precedent; ConstitutionalDecision; LegalInterpretation];
   [NationalStatute; AdministrativeRule; Ordinance];
   [AdministrativeAppeal]].

(** * Contracts of [crates/domain/src/legal_analysis.rs] *)

Record ImpactReference := {
  ir_object : ObjectId; ir_title : str; ir_line : str; ir_revision_id : str; ir_capture_id : str;
}.
Record ImpactBucket := { ib_dataset : Dataset; ib_object_count : Z; ib_references : list ImpactReference }.
Record OutboundReference := { or_text : str; or_law_name : option str; or_article : str }.

Record ImpactInput := { im_object : option ObjectId; im_law_name : option str; im_article : str }.
Record ImpactResult := {
  ip_object : ObjectId; ip_resolution : option LawNameResolution; ip_law_title : str; ip_article : str;
  ip_article_title : option str; ip_inbound : list ImpactBucket; ip_outbound : list OutboundReference;
  ip_mermaid : str; ip_truncated : bool; ip_corpus_complete : bool;
}.

(** * Labels *)

Definition dataset_label (dataset : Dataset) : str :=
  match dataset with
  | NationalStatute => u "법령"
  | AdministrativeRule => u "행정규칙"
  | Ordinance => u "자치법규"
  | Treaty => u "조약"
  | Precedent => u "판례"
  | ConstitutionalDecision => u "헌재결정례"
  | LegalInterpretation => u "법령해석례"
  | AdministrativeAppeal => u "행정심판례"
  | _ => as_str dataset
  end.

(** [str::replace] of the characters that satisfy [p] *)
Definition replace_chars (p : char -> bool) (by_ : str) (s : str) : str :=
  concat ((fun c => if p c then by_ else [c]) <$> s).

Definition QUOTE : char := 34.

Definition mermaid_label (text : str) : str :=
  replace_chars (fun c => (c =? LF) || (c =? CR)) (u " ") (replace_chars (Z.eqb QUOTE) (u "#quot;") text).

Definition quoted (text : str) : str := [QUOTE] ++ text ++ [QUOTE].

Fixpoint inbound_nodes (i : Z) (inbound : list ImpactBucket) : str :=
  match inbound with
  | [] => []
  | bucket :: inbound =>
    u "  I" ++ show_Z i ++ u "[" ++
      quoted (dataset_label (ib_dataset bucket) ++ u " " ++ show_Z (ib_object_count bucket) ++ u "건")
      ++ u "] --> A" ++ [LF]
      ++ inbound_nodes (i + 1) inbound
  end.

Definition outbound_label (reference : OutboundReference) : str :=
  match or_law_name reference with
  | Some name => name ++ u " " ++ or_article reference
  | None => or_article reference
  end.

Fixpoint outbound_nodes (i : Z) (outbound : list OutboundReference) : str :=
  match outbound with
  | [] => []
  | reference :: outbound =>
    u "  A --> O" ++ show_Z i ++ u "[" ++ quoted (mermaid_label (outbound_label reference)) ++ u "]" ++ [LF]
      ++ outbound_nodes (i + 1) outbound
  end.

Definition mermaid (center : str) (inbound : list ImpactBucket) (outbound : list OutboundReference) : str :=
  u "graph LR" ++ [LF] ++ u "  A[" ++ quoted (mermaid_label center) ++ u "]" ++ [LF]
    ++ inbound_nodes 0 inbound ++ outbound_nodes 0 outbound.

Definition article_pattern (article : ArticleNumber) : str :=
  u "[제第] ?" ++ show_Z (an_number article)
  ++ match an_part article with Some part => u "-" ++ show_Z part | None => [] end
  ++ u " ?[조條]"
  ++ match an_branch article with
     | Some branch => u "의 ?" ++ show_Z branch ++ u "(?:[^0-9].*)?"
     | None => u "(?:의[^0-9].*|[^0-9의].*)?"
     end.

(** * References to the article *)

Definition reference_of (hit : LineHit) : ImpactReference :=
  {| ir_object := lh_object hit; ir_title := lh_title hit; ir_line := clip_chars (lh_text hit) LINE_CHARS;
     ir_revision_id := lh_revision_id hit; ir_capture_id := lh_capture_id hit |}.

Definition count_hit (hit : LineHit) (bucket : ImpactBucket) : ImpactBucket :=
  {| ib_dataset := ib_dataset bucket; ib_object_count := ib_object_count bucket + 1;
     ib_references :=
       if zlen (ib_references bucket) <? MAX_BUCKET_REFERENCES then ib_references bucket ++ [reference_of hit]
       else ib_references bucket |}.

(** A further object in the bucket of its dataset *)
Definition add_inbound (hit : LineHit) (inbound : list ImpactBucket) : list ImpactBucket :=
  let dataset := oid_dataset (lh_object hit) in
  match position (fun b => bool_decide (ib_dataset b = dataset)) inbound with
  | Some i => alter (count_hit hit) i inbound
  | None =>
    let inbound := inbound ++ [{| ib_dataset := dataset; ib_object_count := 0; ib_references := [] |}] in
    alter (count_hit hit) (length inbound - 1)%nat inbound
  end.

(** The loop over the hits of a group; [seen] are the objects of the datasets so far. *)
Fixpoint inbound_hits (object : ObjectId) (hits : list LineHit) (seen : list (Dataset * str))
  (inbound : list ImpactBucket) : list ImpactBucket :=
  match hits with
  | [] => inbound
  | hit :: hits =>
    if bool_decide (lh_object hit = object) then inbound_hits object hits seen inbound else
    let key := (oid_dataset (lh_object hit), oid_id (lh_object hit)) in
    if bool_decide (key ∈ seen) then inbound_hits object hits seen inbound
    else inbound_hits object hits (key :: seen) (add_inbound hit inbound)
  end.

(** * References from the article *)

(** The title of the law that a citation names *)
Definition outbound_law `{CharTables} (index : gmap str (list TitleMatch)) (law : ChosenLaw) : option str :=
  match cl_resolution law, cl_unresolved law || is_nil (cl_name law) with
  | Some resolution, false =>
    Some match index !! name_key (ln_resolved resolution) with
         | Some matches =>
           match pick_match matches with Ok m => tm_matched_title m | Err _ => cl_name law end
         | None => cl_name law
         end
  | _, _ => None
  end.

(** The citations of the text, and what they cover *)
Fixpoint cited_references `{CharTables} (text : str) (index : gmap str (list TitleMatch))
  (citations : list (ExtractedStatute * ChosenLaw))
  : result (stop ToolError) (list (Z * OutboundReference) * list (Z * Z)) :=
  match citations with
  | [] => Ok ([], [])
  | (citation, law) :: citations =>
    let? cited := slice text (cl_start law) (es_byte_end citation) in
    let? (found, covered) := cited_references text index citations in
    Ok ((cl_start law,
         {| or_text := cited; or_law_name := outbound_law index law; or_article := show_article (es_article citation) |})
          :: found,
        (es_article_start citation, es_byte_end citation) :: covered)
  end.

(** A mention at the start of the text is the article's own number, and a covered one is
    part of a citation. *)
Definition skipped (covered : list (Z * Z)) (start end_ : Z) : bool :=
  (start =? 0) || existsb (fun span => (start <? span.2) && (span.1 <? end_)) covered.

Fixpoint mention_references (text : str) (covered : list (Z * Z)) (mentions : list (ArticleNumber * Z * Z))
  : result (stop ToolError) (list (Z * OutboundReference)) :=
  match mentions with
  | [] => Ok []
  | (number, start, end_) :: mentions =>
    if skipped covered start end_ then mention_references text covered mentions else
    let? mentioned := slice text start end_ in
    let? found := mention_references text covered mentions in
    Ok ((start, {| or_text := mentioned; or_law_name := None; or_article := show_article number |}) :: found)
  end.

Definition same_target (a b : OutboundReference) : bool :=
  bool_decide (or_law_name a = or_law_name b) && str_eqb (or_article a) (or_article b).

Definition own_reference (own : str) (r : OutboundReference) : bool :=
  negb (is_some (or_law_name r)) && str_eqb (or_article r) own.

(** The loop over the references in the order of the text *)
Fixpoint merge_references (own : str) (found : list (Z * OutboundReference)) (references : list OutboundReference)
  (truncated : bool) : list OutboundReference * bool :=
  match found with
  | [] => (references, truncated)
  | (_, reference) :: found =>
    if own_reference own reference || existsb (fun r => same_target r reference) references
    then merge_references own found references truncated
    else if zlen references =? MAX_OUTBOUND then (references, true)
    else merge_references own found (references ++ [reference]) truncated
  end.

Section tools.
Context (corpus : Corpus) `{CharTables}.

Definition outbound_references (article : LocatedArticle) : tool (list OutboundReference * bool) :=
  let text := la_text article in
  let! extraction := pure (extract_citations text) in
  let! (chosen, index) := cited_laws corpus (profile_ := KOREA) (ex_statutes extraction) in
  let! (cited, covered) := pure (cited_references text (ti_matches index) (zip (ex_statutes extraction) chosen)) in
  let! mentions := pure (article_mentions text) in
  let! mentioned := pure (mention_references text covered mentions) in
  let found := sort_by (fun a b => a.1 <=? b.1) (cited ++ mentioned) in
  ret (merge_references (show_article (la_number article)) found [] (ex_truncated extraction)).

(** The search of a group of datasets *)
Definition group_query (group : list Dataset) : LineQuery :=
  {| lq_section := u "body"; lq_datasets := group; lq_object := None; lq_history := false |}.

Fixpoint inbound_groups (object : ObjectId) (pattern : str) (groups : list (list Dataset))
  (inbound : list ImpactBucket) (complete truncated : bool) : tool (list ImpactBucket * bool * bool) :=
  match groups with
  | [] => ret (inbound, complete, truncated)
  | group :: groups =>
    let! found := lines_tool corpus (group_query group) [pattern] in
    inbound_groups object pattern groups (inbound_hits object (ll_hits found) [] inbound)
      (complete && ll_corpus_complete found) (truncated || ll_truncated found)
  end.

Definition impact (input : ImpactInput) : tool ImpactResult :=
  let! wanted := pure (parse_article_number (im_article input)) in
  match wanted with
  | None => throw Tool.InvalidInput
  | Some wanted =>
    let! (object, resolution) :=
      resolve_object corpus (profile_ := KOREA) (im_object input) (im_law_name input) REVISIONED in
    let! answer := call (fun n => get corpus n object Head) in
    match answer with
    | Err e => throw (map_error e)
    | Ok head =>
      let record := cp_record head in
      let! lookup := pure (locate_article (lr_sections record) wanted) in
      match lookup with
      | KrArticles.NotFound _ _ => throw Tool.NotFound
      | Found article =>
        let pattern := u "(?:.*[^가-힣])?「?" ++ title_pattern (lr_title record) ++ u "」? ?"
          ++ article_pattern (la_number article) in
        let! (inbound, complete, truncated) := inbound_groups object pattern IMPACT_GROUPS [] true false in
        let! (outbound, outbound_truncated) := outbound_references article in
        let label := show_article (la_number article) in
        ret {| ip_object := object; ip_resolution := resolution; ip_law_title := lr_title record;
               ip_article := label;
               ip_article_title := if is_nil (la_title article) then None else Some (la_title article);
               ip_inbound := inbound; ip_outbound := outbound;
               ip_mermaid := mermaid (lr_title record ++ u " " ++ label) inbound outbound;
               ip_truncated := truncated || outbound_truncated; ip_corpus_complete := complete |}
      end
    end
  end.
End tools.

(** * What the impact of an article says

    What the references of an article promise: buckets that count every object once,
    references that are texts of the article, each target once, and a diagram that no
    text can break. *)

(** * The diagram *)

(** How often a character occurs *)
Definition occurrences (c : char) (s : str) : Z := zlen (List.filter (Z.eqb c) s).

Lemma occurrences_app c s t : occurrences c (s ++ t) = occurrences c s + occurrences c t.
Proof. unfold occurrences. by rewrite List.filter_app, zlen_app. Qed.

Lemma occurrences_none c s : c ∉ s -> occurrences c s = 0.
Proof.
  induction s as [|d s IH]; [done|]. intros [Hc Hs]%not_elem_of_cons. unfold occurrences in *. cbn.
  rewrite (proj2 (Z.eqb_neq _ _)) by done. by apply IH.
Qed.

Lemma decimal_digits_ascii fuel : forall n acc,
  Forall (fun c => 48 <= c <= 57) acc -> Forall (fun c => 48 <= c <= 57) (decimal_digits fuel n acc).
Proof.
  induction fuel as [|fuel IH]; intros n acc H; cbn [decimal_digits]; [done|].
  assert (Forall (fun c => 48 <= c <= 57) ((48 + n mod 10) :: acc)).
  { constructor; [|done]. pose proof (Z.mod_pos_bound n 10). lia. }
  destruct (n <? 10); [done|by apply IH].
Qed.

Lemma show_Z_occurrences c n : ~ 48 <= c <= 57 -> occurrences c (show_Z n) = 0.
Proof.
  intros Hc. apply occurrences_none. intros Hin. pose proof (decimal_digits_ascii 20 n [] (Forall_nil_2 _)) as H.
  rewrite Forall_forall in H. by apply H in Hin.
Qed.

(** A label has no quotation mark and no line end. *)
Lemma mermaid_label_clean text c : c = QUOTE \/ c = LF \/ c = CR -> c ∉ mermaid_label text.
Proof.
  intros Hc. unfold mermaid_label.
  assert (Hr : forall p by_ s, c ∈ replace_chars p by_ s -> c ∈ by_ \/ (c ∈ s /\ p c = false)).
  { intros p by_ s. unfold replace_chars. induction s as [|d s IH]; cbn; [by intros ?%elem_of_nil|].
    intros [H|H]%elem_of_app; [|destruct (IH H) as [|[? ?]]; [by left|right; split; [by right|done]]].
    destruct (p d) eqn:E; [by left|]. apply list_elem_of_singleton in H as ->. right. split; [by left|done]. }
  intros [Hin|[Hin Hp]]%Hr.
  - apply list_elem_of_singleton in Hin as ->. by destruct Hc as [|[|]].
  - apply Hr in Hin as [Hin|[_ Hq]].
    + assert (K : forallb (fun d => negb ((d =? QUOTE) || (d =? LF) || (d =? CR))) (u "#quot;") = true) by (vm_compute; reflexivity).
      rewrite forallb_Forall, Forall_forall in K. apply K in Hin. by destruct Hc as [->|[->| ->]].
    + by destruct Hc as [->|[->| ->]].
Qed.

Lemma dataset_label_clean d c : c = QUOTE \/ c = LF \/ c = CR -> c ∉ dataset_label d.
Proof.
  intros Hc Hin. assert (K : forallb (fun c => negb ((c =? QUOTE) || (c =? LF) || (c =? CR))) (dataset_label d) = true)
    by (destruct d; vm_compute; reflexivity).
  rewrite forallb_Forall, Forall_forall in K. apply K in Hin. by destruct Hc as [->|[->| ->]].
Qed.

(** The occurrences of a mark in the parts of the diagram *)
Section mark.
Context (c : char) (Hc : c = QUOTE \/ c = LF \/ c = CR).

Lemma mark_digit : ~ 48 <= c <= 57.
Proof. destruct Hc as [->|[->| ->]]; unfold QUOTE, LF, CR; lia. Qed.

Lemma quoted_occurrences s : occurrences c s = 0 -> occurrences c (quoted s) = 2 * occurrences c [QUOTE].
Proof. intros H. unfold quoted. rewrite !occurrences_app. lia. Qed.

Lemma fixed_occurrences s :
  forallb (fun d => negb ((d =? QUOTE) || (d =? LF) || (d =? CR))) s = true -> occurrences c s = 0.
Proof.
  intros K. apply occurrences_none. rewrite forallb_Forall, Forall_forall in K. intros Hin%K.
  by destruct Hc as [->|[->| ->]].
Qed.

Lemma inbound_occurrences inbound : forall i,
  occurrences c (inbound_nodes i inbound) = zlen inbound * (2 * occurrences c [QUOTE] + occurrences c [LF]).
Proof.
  induction inbound as [|b inbound IH]; intros i; cbn [inbound_nodes]; [done|].
  rewrite !occurrences_app, IH, show_Z_occurrences by apply mark_digit.
  rewrite (quoted_occurrences (_ ++ _)).
  - rewrite (fixed_occurrences (u "  I")), (fixed_occurrences (u "[")), (fixed_occurrences (u "] --> A")) by (vm_compute; reflexivity).
    rewrite zlen_cons. lia.
  - rewrite !occurrences_app, show_Z_occurrences by apply mark_digit.
    rewrite (occurrences_none c (dataset_label _)) by by apply dataset_label_clean.
    rewrite (fixed_occurrences (u " ")), (fixed_occurrences (u "건")) by (vm_compute; reflexivity). lia.
Qed.

Lemma outbound_occurrences outbound : forall i,
  occurrences c (outbound_nodes i outbound) = zlen outbound * (2 * occurrences c [QUOTE] + occurrences c [LF]).
Proof.
  induction outbound as [|r outbound IH]; intros i; cbn [outbound_nodes]; [done|].
  rewrite !occurrences_app, IH, show_Z_occurrences by apply mark_digit.
  rewrite quoted_occurrences by by apply occurrences_none, mermaid_label_clean.
  rewrite (fixed_occurrences (u "  A --> O")), (fixed_occurrences (u "[")), (fixed_occurrences (u "]")) by (vm_compute; reflexivity).
  rewrite zlen_cons. lia.
Qed.

Lemma mermaid_occurrences center inbound outbound :
  occurrences c (mermaid center inbound outbound) =
  (1 + zlen inbound + zlen outbound) * (2 * occurrences c [QUOTE] + occurrences c [LF]) + occurrences c [LF].
Proof.
  unfold mermaid. rewrite !occurrences_app, inbound_occurrences, outbound_occurrences.
  rewrite quoted_occurrences by by apply occurrences_none, mermaid_label_clean.
  rewrite (fixed_occurrences (u "graph LR")), (fixed_occurrences (u "  A[")), (fixed_occurrences (u "]")) by (vm_compute; reflexivity).
  lia.
Qed.
End mark.

(** * Buckets *)

Definition hit_dataset (h : LineHit) : Dataset := oid_dataset (lh_object h).
Definition of_dataset (d : Dataset) (hits : list LineHit) : list LineHit :=
  List.filter (fun h => bool_decide (hit_dataset h = d)) hits.

(** A bucket counts the hits of its dataset and shows the first twenty. *)
Definition bucket_of (hits : list LineHit) (b : ImpactBucket) : Prop :=
  let own := of_dataset (ib_dataset b) hits in
  own <> [] /\ ib_object_count b = zlen own /\
  ib_references b = reference_of <$> take (Z.to_nat MAX_BUCKET_REFERENCES) own.

(** One bucket for every dataset of the hits *)
Definition buckets_of (hits : list LineHit) (bs : list ImpactBucket) : Prop :=
  NoDup (ib_dataset <$> bs) /\ Forall (bucket_of hits) bs /\
  forall h, h ∈ hits -> hit_dataset h ∈ ib_dataset <$> bs.

Lemma of_dataset_snoc d hits h :
  of_dataset d (hits ++ [h]) = of_dataset d hits ++ (if bool_decide (hit_dataset h = d) then [h] else []).
Proof. unfold of_dataset. rewrite List.filter_app. cbn. by case_bool_decide. Qed.

Lemma bucket_other hits h b : hit_dataset h <> ib_dataset b -> bucket_of hits b -> bucket_of (hits ++ [h]) b.
Proof. intros Hne H. unfold bucket_of. rewrite of_dataset_snoc, bool_decide_eq_false_2, app_nil_r by done. exact H. Qed.

Lemma buckets_others hits h bs :
  hit_dataset h ∉ ib_dataset <$> bs -> Forall (bucket_of hits) bs -> Forall (bucket_of (hits ++ [h])) bs.
Proof.
  rewrite !Forall_forall. intros Hnew H b Hb. apply bucket_other; [|by apply H].
  intros E. apply Hnew. rewrite E. by apply list_elem_of_fmap_2.
Qed.

(** Counting one more hit *)
Lemma count_hit_bucket hits h b :
  ib_dataset b = hit_dataset h ->
  ib_object_count b = zlen (of_dataset (ib_dataset b) hits) ->
  ib_references b = reference_of <$> take (Z.to_nat MAX_BUCKET_REFERENCES) (of_dataset (ib_dataset b) hits) ->
  bucket_of (hits ++ [h]) (count_hit h b).
Proof.
  intros Hd Hcount Hrefs. unfold bucket_of. cbn [count_hit ib_dataset ib_object_count ib_references].
  rewrite of_dataset_snoc, bool_decide_eq_true_2 by done. set (own := of_dataset _ hits) in *.
  split; [by destruct own|]. rewrite zlen_app, Hcount. split; [done|].
  assert (Hl : zlen (ib_references b) = Z.min MAX_BUCKET_REFERENCES (zlen own)).
  { rewrite Hrefs. unfold zlen. rewrite length_fmap, length_take. unfold MAX_BUCKET_REFERENCES. lia. }
  rewrite Hl, take_app, fmap_app, <- Hrefs. unfold MAX_BUCKET_REFERENCES, zlen in *.
  destruct (Z.ltb_spec (Z.min 20 (Z.of_nat (length own))) 20).
  - by rewrite (take_ge [h]) by (cbn; lia).
  - replace (Z.to_nat 20 - length own)%nat with 0%nat by lia. by rewrite app_nil_r.
Qed.

Lemma add_inbound_ok hits h bs : buckets_of hits bs -> buckets_of (hits ++ [h]) (add_inbound h bs).
Proof.
  intros (Hn & Hf & Hc). unfold add_inbound. fold (hit_dataset h).
  pose proof (position_split (fun b => bool_decide (ib_dataset b = hit_dataset h)) bs) as P.
  destruct (position _ bs) as [i|].
  - destruct P as (l & b & r & -> & -> & Hb%bool_decide_eq_true).
    rewrite alter_app_r_alt, Nat.sub_diag by lia. cbn [alter list_alter].
    assert (Hkeys : ib_dataset <$> l ++ count_hit h b :: r = ib_dataset <$> l ++ b :: r) by (by rewrite !fmap_app, !fmap_cons).
    apply Forall_app in Hf as [Hl [(_ & Hcount & Hrefs) Hr]%Forall_cons].
    pose proof Hn as Hn'. rewrite fmap_app, fmap_cons in Hn'. apply NoDup_app in Hn' as (_ & Hnl & [Hnr _]%NoDup_cons).
    split_and!; [by rewrite Hkeys| |].
    + apply Forall_app. split; [|constructor].
      * apply buckets_others; [|done]. rewrite <- Hb. intros Hin. apply (Hnl _ Hin). by left.
      * by apply count_hit_bucket.
      * apply buckets_others; [by rewrite <- Hb|done].
    + intros k [Hk| ->%list_elem_of_singleton]%elem_of_app; rewrite Hkeys; [by apply Hc|].
      rewrite fmap_app, fmap_cons, <- Hb. set_solver.
  - assert (Hnew : hit_dataset h ∉ ib_dataset <$> bs).
    { intros (b & Eb & Hin)%list_elem_of_fmap. rewrite Forall_forall in P. specialize (P b Hin).
      by rewrite bool_decide_eq_true_2 in P. }
    rewrite alter_app_r_alt by (rewrite length_app; cbn; lia).
    replace (length _ - 1 - length bs)%nat with 0%nat by (rewrite length_app; cbn; lia). cbn [alter list_alter].
    assert (Hnone : of_dataset (hit_dataset h) hits = []).
    { destruct (of_dataset (hit_dataset h) hits) as [|k l] eqn:E; [done|]. exfalso. apply Hnew.
      assert (Hk : k ∈ of_dataset (hit_dataset h) hits) by (rewrite E; by left).
      unfold of_dataset in Hk. apply list_elem_of_In, filter_In in Hk as [Hk <-%bool_decide_eq_true].
      by apply Hc, list_elem_of_In. }
    unfold buckets_of. rewrite fmap_app. split_and!.
    + apply NoDup_app. split_and!; [done| |apply NoDup_singleton]. by intros d Hd ->%list_elem_of_singleton.
    + apply Forall_app. split; [by apply buckets_others|]. apply Forall_singleton.
      apply count_hit_bucket; cbn [ib_dataset ib_object_count ib_references]; by rewrite ?Hnone.
    + intros k [Hk| ->%list_elem_of_singleton]%elem_of_app; apply elem_of_app; [left; by apply Hc|right; by left].
Qed.

(** The hits of a group that are counted: of other objects, the first of each *)
Definition counted_key (h : LineHit) : Dataset * str := (hit_dataset h, oid_id (lh_object h)).

Fixpoint counted (object : ObjectId) (seen : list (Dataset * str)) (hits : list LineHit) : list LineHit :=
  match hits with
  | [] => []
  | h :: hits =>
    if bool_decide (lh_object h = object) || bool_decide (counted_key h ∈ seen) then counted object seen hits
    else h :: counted object (counted_key h :: seen) hits
  end.

Lemma counted_spec object hits : forall seen,
  NoDup (counted_key <$> counted object seen hits) /\
  Forall (fun h => h ∈ hits /\ lh_object h <> object /\ counted_key h ∉ seen) (counted object seen hits) /\
  (forall h, h ∈ hits -> lh_object h = object \/ counted_key h ∈ seen \/ counted_key h ∈ counted_key <$> counted object seen hits).
Proof.
  induction hits as [|h hits IH]; intros seen; cbn [counted].
  { split_and!; [apply NoDup_nil_2|by apply Forall_nil|by intros ? ?%elem_of_nil]. }
  destruct (bool_decide (lh_object h = object) || bool_decide (counted_key h ∈ seen)) eqn:E.
  - destruct (IH seen) as (Hn & Hf & Hc). split_and!; [done| |].
    + eapply Forall_impl; [exact Hf|]. intros k (? & ? & ?). split_and!; [by right|done|done].
    + intros k [->|Hk]%elem_of_cons; [|by apply Hc].
      apply orb_true_iff in E as [?%bool_decide_eq_true|?%bool_decide_eq_true]; auto.
  - apply orb_false_iff in E as [Ho%bool_decide_eq_false Hs%bool_decide_eq_false].
    destruct (IH (counted_key h :: seen)) as (Hn & Hf & Hc). rewrite fmap_cons. split_and!.
    + constructor; [|done]. intros (k & Ek & Hk)%list_elem_of_fmap. rewrite Forall_forall in Hf.
      destruct (Hf k Hk) as (_ & _ & Hnot). apply Hnot. rewrite <- Ek. by left.
    + constructor; [split_and!; [by left|done|done]|]. eapply Forall_impl; [exact Hf|].
      intros k (? & ? & Hk). apply not_elem_of_cons in Hk as [_ ?]. split_and!; [by right|done|done].
    + intros k [->|Hk]%elem_of_cons; [right; right; by left|].
      destruct (Hc k Hk) as [|[[->|]%elem_of_cons|]]; [by left|right; right; by left|by auto|right; right; by right].
Qed.

Lemma inbound_hits_ok object hits : forall seen done_ bs,
  buckets_of done_ bs -> buckets_of (done_ ++ counted object seen hits) (inbound_hits object hits seen bs).
Proof.
  induction hits as [|h hits IH]; intros seen done_ bs Hb; cbn [inbound_hits counted]; [by rewrite app_nil_r|].
  fold (hit_dataset h). fold (counted_key h).
  case_bool_decide; cbn [orb]; [by apply IH|]. case_bool_decide; [by apply IH|].
  replace (done_ ++ h :: counted object (counted_key h :: seen) hits)
    with ((done_ ++ [h]) ++ counted object (counted_key h :: seen) hits) by by rewrite <- app_assoc.
  by apply IH, add_inbound_ok.
Qed.

(** * References from the article *)

Section outbound.
Context `{CharTables}.

(** A citation as a reference *)
Definition cited_as (text : str) (index : gmap str (list TitleMatch)) (cl : ExtractedStatute * ChosenLaw)
  (f : Z * OutboundReference) : Prop :=
  f.1 = cl_start cl.2 /\ cut text (cl_start cl.2) (es_byte_end cl.1) (or_text f.2) /\
  or_law_name f.2 = outbound_law index cl.2 /\ or_article f.2 = show_article (es_article cl.1).

Definition article_span (cl : ExtractedStatute * ChosenLaw) : Z * Z := (es_article_start cl.1, es_byte_end cl.1).

Lemma cited_references_spec text index cls :
  Forall (fun cl => exists t, cut text (cl_start cl.2) (es_byte_end cl.1) t) cls ->
  exists found, cited_references text index cls = Ok (found, article_span <$> cls) /\ Forall2 (cited_as text index) cls found.
Proof.
  induction cls as [|[c law] cls IH]; intros Hcut; cbn [cited_references]; [by exists []|].
  apply Forall_cons in Hcut as [[t Ht] Hcut]. cbn [fst snd] in Ht. unfold cut in Ht. rewrite Ht.
  destruct (IH Hcut) as (found & -> & Hf). eexists. split; [done|]. by constructor.
Qed.

(** A mention as a reference *)
Definition mentioned_as (text : str) (m : ArticleNumber * Z * Z) (f : Z * OutboundReference) : Prop :=
  f.1 = m.1.2 /\ cut text m.1.2 m.2 (or_text f.2) /\ or_law_name f.2 = None /\ or_article f.2 = show_article m.1.1.

Definition free_mentions (covered : list (Z * Z)) (ms : list (ArticleNumber * Z * Z)) : list (ArticleNumber * Z * Z) :=
  List.filter (fun m => negb (skipped covered m.1.2 m.2)) ms.

Lemma mention_references_spec text covered ms :
  Forall (fun m => mentioned text m.1.1 m.1.2 m.2) ms ->
  exists found, mention_references text covered ms = Ok found /\ Forall2 (mentioned_as text) (free_mentions covered ms) found.
Proof.
  induction ms as [|[[number start] end_] ms IH]; intros Hm; cbn [mention_references]; [by exists []|].
  apply Forall_cons in Hm as [(pre & mid & post & -> & Hs & He & _) Hm]. cbn [fst snd] in *. subst.
  unfold free_mentions. cbn [List.filter fst snd]. destruct (IH Hm) as (found & Hrun & Hf).
  destruct (skipped _ _ _); cbn [negb]; [by exists found|].
  rewrite slice_app, Hrun. eexists. split; [done|]. constructor; [|done].
  unfold mentioned_as, cut. cbn. by rewrite slice_app.
Qed.

(** What a reference is to *)
Definition target (r : OutboundReference) : option str * str := (or_law_name r, or_article r).

Lemma same_target_spec a b : same_target a b = true <-> target a = target b.
Proof.
  unfold same_target, target. rewrite andb_true_iff, bool_decide_eq_true, str_eqb_eq. split; [by intros [-> ->]|by intros [= -> ->]].
Qed.

Lemma own_reference_spec own r : own_reference own r = true <-> target r = (None, own).
Proof.
  unfold own_reference, target. destruct (or_law_name r); cbn; [split; [done|by intros [=]]|].
  rewrite str_eqb_eq. split; [by intros ->|by intros [= ->]].
Qed.

(** The references of the found ones: the first of every target but the own article,
    at most thirty; a result that is not marked has them all. *)
Definition merged (own : str) (found : list OutboundReference) (t0 : bool) (refs : list OutboundReference) (t : bool) : Prop :=
  NoDup (target <$> refs) /\ ((None, own) ∉ target <$> refs) /\ zlen refs <= MAX_OUTBOUND /\
  Forall (.∈ found) refs /\ (t0 = true -> t = true) /\
  (t = false -> Forall (fun r => target r = (None, own) \/ target r ∈ target <$> refs) found).

Lemma merge_references_spec own t0 found : forall done_ refs,
  merged own done_ t0 refs t0 ->
  merged own (done_ ++ found.*2) t0 (merge_references own found refs t0).1 (merge_references own found refs t0).2.
Proof.
  induction found as [|[start r] found IH]; intros done_ refs Hm; cbn [merge_references fmap list_fmap].
  { by rewrite app_nil_r. }
  cbn [snd]. change (list_fmap _ _ snd found) with found.*2. pose proof Hm as (Hn & Hown & Hl & Hin & Ht & Hall).
  assert (Hin' : forall more, Forall (.∈ done_ ++ more) refs).
  { intros more. eapply Forall_impl; [exact Hin|]. intros x ?. apply elem_of_app. by left. }
  replace (done_ ++ r :: found.*2) with ((done_ ++ [r]) ++ found.*2) by by rewrite <- app_assoc.
  assert (Hseen : existsb (fun x => same_target x r) refs = true <-> target r ∈ target <$> refs).
  { rewrite existsb_exists, list_elem_of_fmap. split.
    - intros (x & Hx & E%same_target_spec). exists x. split; [done|by apply list_elem_of_In].
    - intros (x & E & Hx). exists x. split; [by apply list_elem_of_In|by apply same_target_spec]. }
  destruct (own_reference own r) eqn:Eo; cbn [orb].
  { apply own_reference_spec in Eo. apply IH. split_and!; try done. intros E. apply Forall_app. split; [by apply Hall|].
    apply Forall_singleton. by left. }
  destruct (existsb _ refs) eqn:Es.
  { apply IH. split_and!; try done. intros E. apply Forall_app. split; [by apply Hall|].
    apply Forall_singleton. right. by apply Hseen. }
  destruct (Z.eqb_spec (zlen refs) MAX_OUTBOUND) as [Hfull|Hroom].
  { cbn [fst snd]. rewrite <- app_assoc. by split_and!. }
  apply IH. unfold merged. rewrite fmap_app. unfold zlen in *. rewrite length_app. cbn [length fmap list_fmap].
  assert (Hnew : target r ∉ target <$> refs) by (rewrite <- Hseen; by intros ?).
  assert (Hnot : target r <> (None, own)) by (rewrite <- own_reference_spec; congruence).
  split_and!; try done.
  - apply NoDup_app. split_and!; [done| |apply NoDup_singleton]. by intros x Hx ->%list_elem_of_singleton.
  - rewrite not_elem_of_app, list_elem_of_singleton. split; [done|congruence].
  - lia.
  - apply Forall_app. split; [by apply Hin'|]. apply Forall_singleton, elem_of_app. right. by left.
  - intros E. apply Forall_app. split.
    + eapply Forall_impl; [by apply Hall|]. intros x [|]; [by left|right; apply elem_of_app; by left].
    + apply Forall_singleton. right. apply elem_of_app. right. by left.
Qed.
End outbound.

(** * The tool *)

Section tool.
Context (corpus : Corpus) `{CharTables}.

(** The references of an article: the citations of its text with the laws that they are
    found to denote, and the mentions outside of them, in the order of the text *)
Definition outbound_ok (article : LocatedArticle) (refs : list OutboundReference) (truncated : bool) : Prop :=
  let text := la_text article in
  exists ex laws index mentions cited free found,
    extract_citations (E := ToolError) text = Ok ex /\
    laws_found corpus (profile_ := KOREA) (ex_statutes ex) (laws, index) /\
    article_mentions (E := ToolError) text = Ok mentions /\
    (let cls := zip (ex_statutes ex) laws in
     Forall2 (cited_as text (ti_matches index)) cls cited /\
     Forall2 (mentioned_as text) (free_mentions (article_span <$> cls) mentions) free) /\
    found ≡ₚ cited ++ free /\ StronglySorted (fun a b => a.1 <= b.1) found /\
    merged (show_article (la_number article)) found.*2 (ex_truncated ex) refs truncated.

Lemma sorted_by_start (l : list (Z * OutboundReference)) :
  let s := sort_by (fun a b => a.1 <=? b.1) l in s ≡ₚ l /\ StronglySorted (fun a b => a.1 <= b.1) s.
Proof.
  cbv zeta. assert (Ho : Ordering (fun a b : Z * OutboundReference => a.1 ?= b.1)).
  { constructor; [intros; apply Z.compare_antisym|]. intros x y z Hxy Hyz Hxz.
    rewrite Z.compare_gt_iff in Hxz. apply Z.compare_ngt_iff in Hxy, Hyz. lia. }
  split; [apply (sort_by_perm (fun a b : Z * OutboundReference => a.1 ?= b.1))|].
  assert (Hw : forall k, StronglySorted (ordered (fun a b : Z * OutboundReference => a.1 ?= b.1)) k ->
    StronglySorted (fun a b => a.1 <= b.1) k).
  { induction 1 as [|a m Hs IH Ha]; constructor; [done|]. eapply Forall_impl; [exact Ha|].
    intros b Hb. by apply Z.leb_le. }
  apply Hw, (sort_by_sorted (fun a b : Z * OutboundReference => a.1 ?= b.1)).
Qed.

Lemma outbound_yields article :
  yields (outbound_references corpus article) (fun r => outbound_ok article r.1 r.2).
Proof.
  unfold outbound_references. set (text := la_text article).
  destruct (law_extract (ProfileLaws := KOREA_laws) (E := ToolError) text) as (ex & Hex & Hs & _).
  eapply yields_bind; [by apply (yields_pure _ ex (eq ex))|]. intros ? <-.
  eapply yields_bind; [apply (cited_laws_yields corpus (profile_ := KOREA))|]. intros [laws index] Hlaws.
  pose proof Hlaws as (pending & Heq & _). cbn [fst snd] in Heq.
  destruct (cited_references_spec text (ti_matches index) (zip (ex_statutes ex) laws)) as (cited & Hc & Hcited).
  { rewrite Heq. by apply (laws_cut (profile_ := KOREA)). }
  eapply yields_bind; [by apply (yields_pure _ _ (eq (cited, article_span <$> zip (ex_statutes ex) laws)) Hc)|]. intros ? <-.
  destruct (mentions_loop_spec (E := ToolError) text text [] []) as (mentions & Hm & Hmentions); [done| |].
  { split_and!; [by apply Forall_nil|done|]. intros a start e (p & mid & post & _ & -> & _) Hlt.
    cbn in Hlt. pose proof (slen_nonneg p). lia. }
  eapply yields_bind; [by apply (yields_pure _ mentions (eq mentions) Hm)|]. intros ? <-.
  destruct (mention_references_spec text (article_span <$> zip (ex_statutes ex) laws) mentions) as (free & Hf & Hfree).
  { destruct Hmentions as [Hmentions _]. eapply Forall_impl; [exact Hmentions|]. by intros m [? _]. }
  eapply yields_bind; [by apply (yields_pure _ free (eq free) Hf)|]. intros ? <-.
  destruct (sorted_by_start (cited ++ free)) as [Hp Hsorted]. set (found := sort_by _ (cited ++ free)) in *.
  pose proof (merge_references_spec (show_article (la_number article)) (ex_truncated ex) found [] []) as Hmerged.
  destruct (merge_references _ found [] _) as [refs t]. apply yields_ret. cbn [fst snd app] in *.
  exists ex, laws, index, mentions, cited, free, found. split_and!; try done. apply Hmerged.
  split_and!; [apply NoDup_nil_2|by intros ?%elem_of_nil|done|by apply Forall_nil|done|by intros _; apply Forall_nil].
Qed.

(** The searches of the groups *)
Definition searched_groups (groups : list (list Dataset)) (founds : list (LineLookup LineHit)) : Prop :=
  Forall2 (fun group found => lookup_ok corpus (group_query group) found) groups founds.

Definition counted_hits (object : ObjectId) (founds : list (LineLookup LineHit)) : list LineHit :=
  concat ((fun found => counted object [] (ll_hits found)) <$> founds).

Lemma inbound_groups_yields object pattern groups : forall done_ inbound complete truncated,
  buckets_of done_ inbound ->
  yields (inbound_groups corpus object pattern groups inbound complete truncated) (fun r => exists founds,
    searched_groups groups founds /\ buckets_of (done_ ++ counted_hits object founds) r.1.1 /\
    r.1.2 = complete && forallb ll_corpus_complete founds /\ r.2 = truncated || existsb ll_truncated founds).
Proof.
  induction groups as [|group groups IH]; intros done_ inbound complete truncated Hb; cbn [inbound_groups].
  { apply yields_ret. exists []. unfold counted_hits. cbn. rewrite app_nil_r, andb_true_r, orb_false_r.
    split_and!; [constructor|done..]. }
  eapply yields_bind; [apply lines_tool_yields|]. intros found Hfound.
  eapply yields_weaken; [by apply IH, (inbound_hits_ok object (ll_hits found) [])|].
  intros r (founds & Hs & Hbs & Hc & Ht). exists (found :: founds). cbn [forallb existsb].
  unfold counted_hits in *. cbn [fmap list_fmap concat]. rewrite app_assoc, andb_assoc, orb_assoc.
  split_and!; [by constructor|done..].
Qed.

Definition impact_ok (input : ImpactInput) (r : ImpactResult) : Prop :=
  exists wanted capture article founds truncated,
    parse_article_number (E := ToolError) (im_article input) = Ok (Some wanted) /\
    object_of corpus (H := KOREA) (im_object input) (im_law_name input) REVISIONED (ip_object r, ip_resolution r) /\
    answered corpus (ip_object r) Head (Ok capture) /\
    locate_article (E := ToolError) (lr_sections (cp_record capture)) wanted = Ok (Found article) /\
    ip_law_title r = lr_title (cp_record capture) /\ ip_article r = show_article (la_number article) /\
    searched_groups IMPACT_GROUPS founds /\ buckets_of (counted_hits (ip_object r) founds) (ip_inbound r) /\
    outbound_ok article (ip_outbound r) truncated /\
    ip_corpus_complete r = forallb ll_corpus_complete founds /\
    ip_truncated r = existsb ll_truncated founds || truncated.

Lemma impact_yields input : yields (impact corpus input) (impact_ok input).
Proof.
  unfold impact.
  pose proof (parse_article_number_reads (E := ToolError) (im_article input)) as Hread.
  eapply yields_bind; [by apply (yields_pure _ _ (fun o => parse_article_number (E := ToolError) (im_article input) = Ok o) Hread)|].
  intros [wanted|] Hwanted; [|apply yields_throw].
  eapply yields_bind; [apply resolve_object_yields|]. intros [object resolution] Hobj.
  eapply yields_bind; [apply (yields_call _ (answered corpus object Head)); intros n; by exists n|].
  intros answer Hans. destruct answer as [capture|e]; [|apply yields_throw].
  destruct (law_locate_article (ProfileLaws := KOREA_laws) (E := ToolError) (lr_sections (cp_record capture)) wanted)
    as (lookup & Hl & _).
  eapply yields_bind; [by apply (yields_pure _ lookup (fun o => locate_article (E := ToolError) (lr_sections (cp_record capture)) wanted = Ok o) Hl)|].
  intros lookup' Hl'. destruct lookup' as [article|first last_]; [|apply yields_throw].
  eapply yields_bind; [apply (inbound_groups_yields object _ IMPACT_GROUPS [] [] true false)|].
  { split_and!; [apply NoDup_nil_2|by apply Forall_nil|by intros ? ?%elem_of_nil]. }
  intros [[inbound complete] truncated] (founds & Hs & Hb & Hc & Ht). cbn [fst snd app andb orb] in *.
  eapply yields_bind; [apply outbound_yields|]. intros [outbound ot] Hout. cbn [fst snd] in Hout. apply yields_ret.
  exists wanted, capture, article, founds, ot. subst. by split_and!.
Qed.

(** The impact of an article ends with a result or an error and never panics. The
    article is the one of the head that was asked for. The buckets count, for every
    dataset, the other objects with a line that a search answered, each once in its
    group, and show the first twenty. The references from the article are texts of it:
    its citations, each with the title of the law that it is found to denote, and the
    mentions of articles that stand outside of them, in the order of the text; a target
    occurs once, the article itself never, there are at most thirty, and a result that
    is not marked truncated has a reference for every one of them. *)
Theorem impact_spec input n :
  answers (impact corpus input n) /\
  forall r n', impact corpus input n = Ok (r, n') -> impact_ok input r.
Proof. apply yields_answers, impact_yields. Qed.
End tool.

(** No text can break the diagram of an impact. Whatever the title, the laws and the
    articles are called, its source has one line for its kind, one for the article and
    one for every bucket and every reference, and one quoted label on each line but the
    first. *)
Theorem mermaid_shape center inbound outbound :
  let s := mermaid center inbound outbound in
  occurrences LF s = 2 + zlen inbound + zlen outbound /\
  occurrences QUOTE s = 2 * (1 + zlen inbound + zlen outbound) /\ occurrences CR s = 0.
Proof.
  cbv zeta. rewrite !mermaid_occurrences by auto.
  change (occurrences LF [QUOTE]) with 0. change (occurrences LF [LF]) with 1.
  change (occurrences QUOTE [QUOTE]) with 1. change (occurrences QUOTE [LF]) with 0.
  change (occurrences CR [QUOTE]) with 0. change (occurrences CR [LF]) with 0. lia.
Qed.

(** * Witnesses *)

#[local] Existing Instance example_tables.

Definition impact_sections : list LegalSection :=
  [section "source_ordinal:1" "조문내용"
     (u "제5조(준용) 제3조 및 「다른법」 제2조제1항을 준용한다. 제5조는 제3조와 같다.")].

Definition impact_capture : Capture :=
  {| cp_capture_id := u "c1";
     cp_record := {| lr_object := sample_object NationalStatute "1"; lr_revision_id := u "r1";
       lr_title := u "시험법"; lr_body := []; lr_metadata := ∅; lr_publication_date := None;
       lr_effective_date := None; lr_source_url := []; lr_representation := []; lr_sections := impact_sections |} |}.

(** A law whose article is cited by a decision in two lines and by itself *)
Definition impact_corpus : Corpus :=
  {| search _ q _ _ :=
       Ok {| lp_hits :=
               if str_eqb (lq_section q) (u "body") && existsb (fun d => bool_decide (d = Precedent)) (lq_datasets q)
               then [sample_hit Precedent "판결" "시험법 제5조"; sample_hit Precedent "판결" "「시험법」 제5조 참조";
                     sample_hit NationalStatute "시험법" "시험법 제5조"]
               else [];
             lp_next_cursor := None; lp_corpus_complete := true |};
     get _ _ _ := Ok impact_capture;
     get_metadata _ _ _ := Err Legal.NotFound;
     history _ _ _ := Err Legal.NotFound |}.

Definition impact_input : ImpactInput :=
  {| im_object := Some (sample_object NationalStatute "1"); im_law_name := None; im_article := u "5" |}.

Abbreviation impact_run := (impact impact_corpus impact_input 0%nat).

Example sample_impact :
  match impact_run with
  | Ok (r, _) => ((fun b => (ib_dataset b, ib_object_count b)) <$> ip_inbound r, target <$> ip_outbound r, ip_truncated r)
  | Err _ => ([], [], true)
  end
  = ([(Precedent, 1)], [(None, u "제3조"); (Some (u "다른법"), u "제2조")], false).
Proof. vm_compute. reflexivity. Qed.

Lemma impact_spec_witness :
  exists r n', impact_run = Ok (r, n') /\ impact_ok impact_corpus impact_input r.
Proof.
  destruct (is_ok_runs impact_run) as (r & n' & E); [vm_compute; reflexivity|]. exists r, n'. split; [exact E|].
  exact (proj2 (impact_spec impact_corpus impact_input 0%nat) r n' E).
Defined.
