(* ===== verification/Document.v ===== *)
(** The document-processing port, [crates/application/src/document.rs]: the
    generic tree a disposable parser answers with, and [validate_output], the
    check of that untrusted answer before anything is read from it.  The
    length of the [serde_json] text of an answer is an operation of the class
    [DocumentJson]. *)

From S2P Require Import Prelude Utf8.

#[local] Set Warnings "-register-all".

(** * Data *)

Inductive DocumentFormat := Xml | Html | Pdf | Hwp5 | Hwpx.

#[export] Instance DocumentFormat_eq_dec : EqDecision DocumentFormat.
Proof. solve_decision. Defined.

Record DocumentInput := {
  di_format : DocumentFormat; di_raw : list byte; di_source_sha256 : str; di_ocr : bool;
}.

Inductive DocumentNode :=
| Element (name : str) (attributes : list (str * str)) (children : list DocumentNode)
| Text (value : str).

Record DocumentPage := { page_number : Z; page_text : str }.

Record DocumentOutput := {
  do_source_sha256 : str; do_processor_version : str; do_format : DocumentFormat;
  do_tree : option DocumentNode; do_text : str; do_pages : list DocumentPage;
  do_ocr_pages : list DocumentPage; do_diagnostics : list str;
}.

Inductive DocumentError :=
| DocInvalidInput | InvalidDocument | ResourceLimit | UnsupportedFormat | ProcessingFailed
| SandboxUnavailable | DocCancelled | TimedOut.

#[export] Instance DocumentError_eq_dec : EqDecision DocumentError.
Proof. solve_decision. Defined.

(** * Bounds *)

Definition MAX_DOCUMENT_BYTES : Z := 100 * 1024 * 1024.
Definition MAX_DOCUMENT_OUTPUT_BYTES : Z := 16 * 1024 * 1024.
Definition MAX_DOCUMENT_NODES : Z := 100000.
Definition MAX_DOCUMENT_DEPTH : Z := 64.
Definition MAX_DOCUMENT_PAGES : Z := 500.

(** * Validation of a worker's answer *)

(** The body of the loop for one element. *)
Definition element_malformed (name : str) (attributes : list (str * str)) : bool :=
  str_eqb name [] || (1024 <? slen name) || (128 <? zlen attributes).

(** [while let Some((node, depth)) = stack.pop()]: the head of the list is the
    top of the stack, so the children of an element are pushed in order and
    the last of them is the next node visited. *)
Fixpoint tree_loop (fuel : nat) (stack : list (DocumentNode * Z)) (count : Z)
  : result (stop DocumentError) unit :=
  match stack with
  | [] => Ok tt
  | (node, depth) :: stack =>
    match fuel with
    | O => Err OutOfFuel
    | S fuel =>
      let count := count + 1 in
      if (MAX_DOCUMENT_NODES <? count) || (MAX_DOCUMENT_DEPTH <? depth)
      then Err (Error ResourceLimit)
      else
        match node with
        | Element name attributes children =>
          if element_malformed name attributes then Err (Error InvalidDocument)
          else tree_loop fuel
                 (rev ((fun child => (child, depth + 1)) <$> children) ++ stack) count
        | Text _ => tree_loop fuel stack count
        end
    end
  end.

(** The nodes of a tree, which bound the rounds of the loop. *)
Fixpoint nodes (node : DocumentNode) : nat :=
  match node with
  | Element _ _ children =>
    S ((fix go l := match l with [] => 0 | c :: l => nodes c + go l end) children)%nat
  | Text _ => 1
  end.

Definition validate_tree (tree : option DocumentNode) : result (stop DocumentError) unit :=
  match tree with
  | None => Ok tt
  | Some tree => tree_loop (nodes tree) [(tree, 1)] 0
  end.

Fixpoint misnumbered (index : Z) (pages : list DocumentPage) : bool :=
  match pages with
  | [] => false
  | page :: pages => negb (page_number page =? index + 1) || misnumbered (index + 1) pages
  end.

Definition pages_invalid (pages : list DocumentPage) : bool :=
  (MAX_DOCUMENT_PAGES <? zlen pages) || misnumbered 0 pages.

Class DocumentJson := {
  (** [serde_json::to_vec(output).map(|text| text.len())] *)
  output_json_len : DocumentOutput -> option Z;
}.

Definition tree_required (format : DocumentFormat) : bool :=
  match format with Xml | Html => true | _ => false end.

Definition output_mismatch (output : DocumentOutput) (input : DocumentInput) : bool :=
  negb (str_eqb (do_source_sha256 output) (di_source_sha256 input))
  || negb (bool_decide (do_format output = di_format input))
  || str_eqb (do_processor_version output) []
  || (256 <? slen (do_processor_version output))
  || (64 <? zlen (do_diagnostics output))
  || existsb (fun v => 128 <? slen v) (do_diagnostics output)
  || (negb (di_ocr input) && negb (bool_decide (length (do_ocr_pages output) = 0%nat))).

Definition validate_output `{DocumentJson} (output : DocumentOutput) (input : DocumentInput)
  : result (stop DocumentError) unit :=
  if output_mismatch output input then Err (Error InvalidDocument)
  else if negb (Bool.eqb (is_some (do_tree output)) (tree_required (di_format input)))
  then Err (Error InvalidDocument)
  else
    let? _ := validate_tree (do_tree output) in
    if pages_invalid (do_pages output) || pages_invalid (do_ocr_pages output)
    then Err (Error InvalidDocument)
    else
      match output_json_len output with
      | None => Err (Error InvalidDocument)
      | Some len =>
        if MAX_DOCUMENT_OUTPUT_BYTES - 128 <? len then Err (Error ResourceLimit) else Ok tt
      end.

(** * Theorems *)

(** Induction over a tree and the list of an element's children. *)
Definition DocumentNode_nested_ind (P : DocumentNode -> Prop)
  (HE : forall name attributes children, Forall P children -> P (Element name attributes children))
  (HT : forall value, P (Text value)) : forall node, P node :=
  fix F node :=
    match node with
    | Element name attributes children =>
      HE name attributes children
        ((fix G l : Forall P l :=
            match l with [] => Forall_nil_2 _ | c :: l => Forall_cons_2 _ _ _ (F c) (G l) end)
           children)
    | Text value => HT value
    end.

(** The nodes of a forest. *)
Definition forest_nodes (l : list DocumentNode) : nat := list_sum (nodes <$> l).

Lemma nodes_element name attributes children :
  nodes (Element name attributes children) = S (forest_nodes children).
Proof.
  unfold forest_nodes. simpl. f_equal. induction children as [|c l IH]; simpl; [done|]. by rewrite IH.
Qed.

(** The declarative reading: every node of the tree is within the depth, and
    every element is well formed. *)
Inductive within (limit : Z) : Z -> DocumentNode -> Prop :=
| within_text depth value : depth <= limit -> within limit depth (Text value)
| within_element depth name attributes children :
    depth <= limit -> element_malformed name attributes = false ->
    Forall (within limit (depth + 1)) children ->
    within limit depth (Element name attributes children).

Definition stack_nodes (stack : list (DocumentNode * Z)) : nat := list_sum (nodes ∘ fst <$> stack).

Lemma list_sum_rev l : list_sum (rev l) = list_sum l.
Proof. induction l; simpl; [done|]. rewrite list_sum_app. simpl. lia. Qed.

Lemma stack_nodes_cons node depth stack :
  stack_nodes ((node, depth) :: stack) = (nodes node + stack_nodes stack)%nat.
Proof. reflexivity. Qed.

Lemma stack_nodes_push depth children stack :
  stack_nodes (rev ((fun child => (child, depth)) <$> children) ++ stack)
  = (forest_nodes children + stack_nodes stack)%nat.
Proof.
  unfold stack_nodes, forest_nodes. rewrite fmap_app, list_sum_app, <- map_rev, <- list_fmap_compose.
  change (map ?f (rev ?l)) with (f <$> rev l).
  rewrite <- (list_sum_rev (nodes <$> children)), <- map_rev. reflexivity.
Qed.

Lemma Forall_push depth children stack :
  Forall (fun nd : DocumentNode * Z => within MAX_DOCUMENT_DEPTH nd.2 nd.1)
    (rev ((fun child => (child, depth)) <$> children) ++ stack)
  <-> Forall (within MAX_DOCUMENT_DEPTH depth) children
      /\ Forall (fun nd : DocumentNode * Z => within MAX_DOCUMENT_DEPTH nd.2 nd.1) stack.
Proof.
  rewrite Forall_app, rev_alt. change (rev_append ?l []) with (reverse l).
  by rewrite Forall_reverse, Forall_fmap.
Qed.

(** The loop always answers when its fuel covers the stack, and accepts
    exactly the stacks within the node count and the depth. *)
Lemma tree_loop_spec fuel stack count :
  (stack_nodes stack <= fuel)%nat ->
  answers (tree_loop fuel stack count)
  /\ (tree_loop fuel stack count = Ok tt <->
      (stack = [] \/ count + Z.of_nat (stack_nodes stack) <= MAX_DOCUMENT_NODES)
      /\ Forall (fun nd => within MAX_DOCUMENT_DEPTH nd.2 nd.1) stack).
Proof.
  revert stack count. induction fuel as [|fuel IH]; intros [|[node depth] stack] count Hf.
  all: try (simpl; split; [done|]; split; [auto|done]).
  { unfold stack_nodes in Hf. destruct node; simpl in Hf; lia. }
  rewrite stack_nodes_cons in Hf |- *.
  assert (1 <= nodes node)%nat by (destruct node; simpl; lia).
  cbn [tree_loop]. destruct (Z.ltb_spec MAX_DOCUMENT_NODES (count + 1)) as [Hc|Hc].
  { simpl. split; [done|]. split; [done|]. intros [[?|?] _]; [done|lia]. }
  destruct (Z.ltb_spec MAX_DOCUMENT_DEPTH depth) as [Hd|Hd]; simpl.
  { split; [done|]. split; [done|]. intros [_ Hw]. apply Forall_cons in Hw as [Hw _].
    inversion Hw; simplify_eq/=; lia. }
  destruct node as [name attributes children|value].
  - rewrite nodes_element in Hf |- *. destruct (element_malformed name attributes) eqn:Em.
    { simpl. split; [done|]. split; [done|]. intros [_ Hw]. apply Forall_cons in Hw as [Hw _].
      inversion Hw; simplify_eq/=; congruence. }
    destruct (IH (rev ((fun child => (child, depth + 1)) <$> children) ++ stack) (count + 1))
      as [Ha Hi]; [rewrite stack_nodes_push; lia|].
    split; [done|]. rewrite Hi, Forall_push, stack_nodes_push, Forall_cons. cbn [fst snd]. split.
    + intros [Hn [Hc' Hs]]. split; [right|by split; [constructor|]].
      destruct Hn as [Hn|Hn]; [|lia].
      apply app_eq_nil in Hn as [Hn ->]. apply (f_equal (@length _)) in Hn.
      rewrite length_rev, length_fmap in Hn. destruct children; [|done].
      unfold forest_nodes, stack_nodes. simpl. lia.
    + intros [[?|Hn] [Hw Hs]]; [done|]. inversion Hw; simplify_eq. split; [right; lia|done].
  - destruct (IH stack (count + 1)) as [Ha Hi]; [simpl in Hf; lia|].
    split; [done|]. rewrite Hi, Forall_cons. cbn [nodes fst snd]. split.
    + intros [Hn Hs]. split; [right|by split; [constructor|]].
      destruct Hn as [->|Hn]; [unfold stack_nodes; simpl; lia|lia].
    + intros [[?|Hn] [_ Hs]]; [done|]. split; [right; lia|done].
Qed.

Lemma misnumbered_spec index pages :
  misnumbered index pages = false <->
  forall i page, pages !! i = Some page -> page_number page = index + Z.of_nat i + 1.
Proof.
  revert index. induction pages as [|page pages IH]; intros index; simpl; [done|].
  rewrite orb_false_iff, negb_false_iff, Z.eqb_eq, IH. split.
  - intros [Hp Hr] [|i] p Hi; simplify_eq/=; [lia|]. rewrite (Hr i) by done. lia.
  - intros Hr. split; [rewrite (Hr 0%nat page) by done; lia|].
    intros i p Hi. rewrite (Hr (S i) p) by done. lia.
Qed.

(** What an accepted answer promises. *)
Record accepted `{DocumentJson} (output : DocumentOutput) (input : DocumentInput) : Prop := {
  acc_identity : output_mismatch output input = false;
  acc_tree : is_some (do_tree output) = tree_required (di_format input);
  acc_nodes : forall tree, do_tree output = Some tree -> Z.of_nat (nodes tree) <= MAX_DOCUMENT_NODES;
  acc_depth : forall tree, do_tree output = Some tree -> within MAX_DOCUMENT_DEPTH 1 tree;
  acc_pages : forall pages i page, pages ∈ [do_pages output; do_ocr_pages output] ->
    pages !! i = Some page -> page_number page = Z.of_nat i + 1;
  acc_page_count : forall pages, pages ∈ [do_pages output; do_ocr_pages output] ->
    zlen pages <= MAX_DOCUMENT_PAGES;
  acc_size : exists len, output_json_len output = Some len /\ len <= MAX_DOCUMENT_OUTPUT_BYTES - 128;
}.

Lemma pages_invalid_spec pages :
  pages_invalid pages = false <->
  zlen pages <= MAX_DOCUMENT_PAGES
  /\ forall i page, pages !! i = Some page -> page_number page = Z.of_nat i + 1.
Proof.
  unfold pages_invalid. rewrite orb_false_iff, Z.ltb_ge, misnumbered_spec. done.
Qed.

Lemma validate_tree_spec tree :
  answers (validate_tree tree)
  /\ (validate_tree tree = Ok tt <->
      forall t, tree = Some t -> Z.of_nat (nodes t) <= MAX_DOCUMENT_NODES
                                /\ within MAX_DOCUMENT_DEPTH 1 t).
Proof.
  destruct tree as [tree|]; simpl; [|by split].
  destruct (tree_loop_spec (nodes tree) [(tree, 1)] 0) as [Ha Hi].
  { unfold stack_nodes. simpl. lia. }
  split; [done|]. rewrite Hi, Forall_singleton. unfold stack_nodes. simpl. rewrite Nat.add_0_r. split.
  - intros [[?|Hn] Hw] t [= <-]; [done|]. by split; [lia|].
  - intros Ht. destruct (Ht tree) as [? ?]; [done|]. by split; [right; lia|].
Qed.

(** C31. The check of a worker's answer always ends with a verdict, whatever tree
    the worker sent, and accepts exactly the answers that belong to the
    request, hold the tree the format needs within the node and depth limits,
    number their pages from one, and fit the output limit. *)
Theorem validate_output_spec `{DocumentJson} output input :
  answers (validate_output output input)
  /\ (validate_output output input = Ok tt <-> accepted output input).
Proof.
  unfold validate_output. destruct (output_mismatch output input) eqn:Em.
  { simpl. split; [done|]. split; [done|]. intros []. congruence. }
  destruct (Bool.eqb _ _) eqn:Et; simpl.
  2: { split; [done|]. split; [done|]. intros []. apply Bool.eqb_false_iff in Et. congruence. }
  apply Bool.eqb_prop in Et. destruct (validate_tree_spec (do_tree output)) as [Ha Hi].
  destruct (validate_tree (do_tree output)) as [[]|e] eqn:Ev.
  2: { split; [done|]. split; [done|]. intros [? ? Hn Hd]. exfalso.
       assert (Err e = Ok tt); [apply Hi; auto|done]. }
  assert (Ht := proj1 Hi eq_refl). clear Ha Hi.
  destruct (pages_invalid (do_pages output)) eqn:Ep; [|destruct (pages_invalid (do_ocr_pages output)) eqn:Eo]; simpl.
  1, 2: split; [done|]; split; [done|]; intros [_ _ _ _ Hp Hc _]; exfalso.
  { assert (pages_invalid (do_pages output) = false); [|congruence].
    apply pages_invalid_spec. split; [apply Hc; set_solver|intros i page; apply Hp; set_solver]. }
  { assert (pages_invalid (do_ocr_pages output) = false); [|congruence].
    apply pages_invalid_spec. split; [apply Hc; set_solver|intros i page; apply Hp; set_solver]. }
  apply pages_invalid_spec in Ep as [Ep1 Ep2], Eo as [Eo1 Eo2].
  destruct (output_json_len output) as [len|] eqn:El.
  2: { split; [done|]. split; [done|]. intros [_ _ _ _ _ _ (len & Hl & _)]. congruence. }
  destruct (Z.ltb_spec (MAX_DOCUMENT_OUTPUT_BYTES - 128) len); split; try done; split; try done.
  - intros [_ _ _ _ _ _ (l & Hl & ?)]. simplify_eq. lia.
  - intros _. constructor; try done.
    + intros t Htr. by apply Ht.
    + intros t Htr. by apply Ht.
    + intros pages i page Hin. apply elem_of_cons in Hin as [->|Hin]; [apply Ep2|].
      apply list_elem_of_singleton in Hin as ->. apply Eo2.
    + intros pages Hin. apply elem_of_cons in Hin as [->|Hin]; [done|].
      by apply list_elem_of_singleton in Hin as ->.
    + exists len. by split.
Qed.
