(* ===== verification/Catalogue.v ===== *)
(** The closed registry of provider sources,
    [crates/adapters/src/law_go_kr/catalog.rs]: the families of records the
    service can ask the provider for, one per data family, and the guides of
    the provider's interface.  The tables are the source's, in its order. *)

From S2P Require Import Prelude Utf8 Legal.

(** * Data *)

Inductive HistoryMode := HistoryNone | StatuteEffective | CurrentHistory | Unspecified.
Inductive DetailMode := RevisionId | TermName | ListOnly.

#[export] Instance HistoryMode_eq_dec : EqDecision HistoryMode.
Proof. solve_decision. Defined.
#[export] Instance DetailMode_eq_dec : EqDecision DetailMode.
Proof. solve_decision. Defined.

Record SourceFamily := {
  sf_dataset : Dataset; sf_target : str; sf_list_path : str; sf_detail_path : option str;
  sf_list_guide : str; sf_detail_guide : option str;
  sf_row_tags : list str; sf_id_fields : list str; sf_revision_fields : list str;
  sf_title_fields : list str; sf_body_fields : list str; sf_list_fields : list str;
  sf_detail_fields : list str;
  sf_history_mode : HistoryMode; sf_detail_mode : DetailMode;
  sf_metadata_only : bool; sf_rights_basis : str;
}.

Inductive GuideKind :=
| OriginalList | OriginalDetail | RepresentationAlias | IdentifiedSupplement
| FiniteMetadata | QueryOnly | NeedsVerification.

#[export] Instance GuideKind_eq_dec : EqDecision GuideKind.
Proof. solve_decision. Defined.

Record GuideEntry := {
  ge_guide : str; ge_kind : GuideKind; ge_path : str; ge_target : str;
  ge_request_fields : list str; ge_response_fields : list str; ge_reason : str;
}.

Definition guide_url (family : SourceFamily) : str :=
  u "https://open.law.go.kr/LSO/openApi/guideResult.do?htmlName=" ++ sf_list_guide family.

Definition detail_parameter (family : SourceFamily) : str :=
  match sf_dataset family, sf_detail_mode family with
  | _, TermName => u "query"
  | NationalStatute, _ | EnglishStatute, _ => u "MST"
  | _, _ => u "ID"
  end.

(** A list of field names. *)
Definition fields (names : list string) : list str := u <$> names.

Local Open Scope string_scope.
Local Open Scope list_scope.

(** * The source families *)

Definition law_families : list SourceFamily := [
  {| sf_dataset := NationalStatute; sf_target := u "eflaw";
    sf_list_path := u "/DRF/lawSearch.do"; sf_detail_path := Some (u "/DRF/lawService.do");
    sf_list_guide := u "lsEfYdListGuide"; sf_detail_guide := Some (u "lsEfYdInfoGuide");
    sf_row_tags := fields ["law"];
    sf_id_fields := fields ["법령ID"];
    sf_revision_fields := fields ["법령일련번호"];
    sf_title_fields := fields ["법령명한글"];
    sf_body_fields := fields ["조문내용"; "항내용"; "호내용"; "목내용"; "부칙내용"];
    sf_list_fields := fields ["target"; "키워드"; "section"; "totalCnt"; "page"; "lawid"; "법령일련번호";
      "현행연혁코드"; "법령명한글"; "법령약칭명"; "법령ID"; "공포일자"; "공포번호"; "제개정구분명"; "소관부처코드"; "소관부처명"; "법령구분명";
      "공동부령구분"; "공포번호"; "시행일자"; "자법타법여부"; "법령상세링크"];
    sf_detail_fields := fields ["법령ID"; "공포일자"; "공포번호"; "언어"; "법종구분"; "법종구분코드"; "법령명_한글";
      "법령명_한자"; "법령명약칭"; "편장절관"; "소관부처코드"; "소관부처"; "전화번호"; "시행일자"; "제개정구분"; "조문시행일자문자열";
      "별표시행일자문자열"; "별표편집여부"; "공포법령여부"; "소관부처명"; "소관부처코드"; "부서명"; "부서연락처"; "공동부령구분"; "구분코드";
      "공포번호"; "조문번호"; "조문가지번호"; "조문여부"; "조문제목"; "조문시행일자"; "조문제개정유형"; "조문이동이전"; "조문이동이후"; "조문변경여부";
      "조문내용"; "항번호"; "항제개정유형"; "항제개정일자문자열"; "항내용"; "호번호"; "호내용"; "목번호"; "목내용"; "조문참고자료"; "부칙공포일자";
      "부칙공포번호"; "부칙내용"; "별표번호"; "별표가지번호"; "별표구분"; "별표제목"; "별표제목문자열"; "별표시행일자"; "별표서식파일링크";
      "별표HWP파일명"; "별표서식PDF파일링크"; "별표PDF파일명"; "별표서식이미지파일링크"; "별표이미지파일명"; "별표내용"; "개정문내용";
      "제개정이유내용"];
    sf_history_mode := StatuteEffective; sf_detail_mode := RevisionId;
    sf_metadata_only := false; sf_rights_basis := u "law_open_data_legal_information_reuse" |};
  {| sf_dataset := AdministrativeRule; sf_target := u "admrul";
    sf_list_path := u "/DRF/lawSearch.do"; sf_detail_path := Some (u "/DRF/lawService.do");
    sf_list_guide := u "admrulListGuide"; sf_detail_guide := Some (u "admrulInfoGuide");
    sf_row_tags := fields ["admrul"];
    sf_id_fields := fields ["행정규칙ID"];
    sf_revision_fields := fields ["행정규칙일련번호"];
    sf_title_fields := fields ["행정규칙명"];
    sf_body_fields := fields ["조문내용"; "부칙내용"];
    sf_list_fields := fields ["target"; "키워드"; "section"; "totalCnt"; "page"; "admrulid";
      "행정규칙일련번호"; "행정규칙명"; "행정규칙종류"; "발령일자"; "발령번호"; "소관부처명"; "현행연혁구분"; "제개정구분코드"; "제개정구분명";
      "행정규칙ID"; "행정규칙상세링크"; "시행일자"; "생성일자"];
    sf_detail_fields := fields ["행정규칙일련번호"; "행정규칙명"; "행정규칙종류"; "행정규칙종류코드"; "발령일자"; "발령번호";
      "제개정구분명"; "제개정구분코드"; "조문형식여부"; "행정규칙ID"; "소관부처명"; "소관부처코드"; "상위부처명"; "담당부서기관코드"; "담당부서기관명";
      "담당자명"; "전화번호"; "현행여부"; "시행일자"; "생성일자"; "조문내용"; "부칙"; "부칙공포일자"; "부칙공포번호"; "부칙내용"; "별표";
      "별표번호"; "별표가지번호"; "별표구분"; "별표제목"; "별표서식파일링크"; "별표서식PDF파일링크"; "별표내용"; "첨부파일"; "첨부파일명";
      "첨부파일링크"];
    sf_history_mode := CurrentHistory; sf_detail_mode := RevisionId;
    sf_metadata_only := false; sf_rights_basis := u "law_open_data_legal_information_reuse" |};
  {| sf_dataset := Ordinance; sf_target := u "ordin";
    sf_list_path := u "/DRF/lawSearch.do"; sf_detail_path := Some (u "/DRF/lawService.do");
    sf_list_guide := u "ordinListGuide"; sf_detail_guide := Some (u "ordinInfoGuide");
    sf_row_tags := fields ["law"; "ordin"];
    sf_id_fields := fields ["자치법규ID"];
    sf_revision_fields := fields ["자치법규일련번호"];
    sf_title_fields := fields ["자치법규명"];
    sf_body_fields := fields ["조문내용"; "부칙내용"];
    sf_list_fields := fields ["자치법규일련번호"; "자치법규명"; "자치법규ID"; "공포일자"; "공포번호"; "제개정구분명"; "지자체기관명";
      "자치법규종류"; "시행일자"; "자치법규상세링크"; "자치법규분야명"; "참조데이터구분"; "기관코드"; "기관별분류유형CNT"; "분류seq"; "분류명";
      "해당자치법규갯수"];
    sf_detail_fields := fields ["자치법규ID"; "자치법규일련번호"; "공포일자"; "공포번호"; "자치법규명"; "시행일자"; "자치법규종류";
      "지자체기관명"; "자치법규발의종류"; "담당부서명"; "전화번호"; "제개정정보"; "조문번호"; "조문여부"; "조제목"; "조내용"; "부칙공포일자";
      "부칙공포번호"; "부칙내용"; "부칙내용"; "별표"; "별표번호"; "별표가지번호"; "별표구분"; "별표제목"; "별표첨부파일명"; "별표내용";
      "개정문내용"; "제개정이유내용"];
    sf_history_mode := CurrentHistory; sf_detail_mode := RevisionId;
    sf_metadata_only := false; sf_rights_basis := u "law_open_data_legal_information_reuse" |};
  {| sf_dataset := Treaty; sf_target := u "trty";
    sf_list_path := u "/DRF/lawSearch.do"; sf_detail_path := Some (u "/DRF/lawService.do");
    sf_list_guide := u "trtyListGuide"; sf_detail_guide := Some (u "trtyInfoGuide");
    sf_row_tags := fields ["trty"];
    sf_id_fields := fields ["조약일련번호"];
    sf_revision_fields := fields ["조약일련번호"];
    sf_title_fields := fields ["조약명"];
    sf_body_fields := fields ["조약내용"];
    sf_list_fields := fields ["target"; "키워드"; "section"; "totalCnt"; "page"; "trtyid"; "조약일련번호";
      "조약명"; "조약구분코드"; "조약구분명"; "발효일자"; "서명일자"; "관보게제일자"; "조약번호"; "국가번호"; "조약상세링크"];
    sf_detail_fields := fields ["조약일련번호"; "조약명_한글"; "조약명_영문"; "조약구분코드"; "대통령재가일자"; "발효일자"; "조약번호";
      "관보게재일자"; "국무회의심의일자"; "국무회의심의회차"; "국회비준동의여부"; "국회비준동의일자"; "서명일자"; "서명장소"; "비고"; "추가정보";
      "체결대상국가"; "체결대상국가한글"; "우리측국내절차완료통보"; "상대국측국내절차완료통보"; "양자조약분야코드"; "양자조약분야명"; "제2외국어종류";
      "국가코드"; "조약내용"; "체결일자"; "체결장소"; "기탁처"; "다자조약분야코드"; "다자조약분야명"; "수락서기탁일자"; "국내발효일자"];
    sf_history_mode := HistoryNone; sf_detail_mode := RevisionId;
    sf_metadata_only := false; sf_rights_basis := u "law_open_data_legal_information_reuse" |};
  {| sf_dataset := Precedent; sf_target := u "prec";
    sf_list_path := u "/DRF/lawSearch.do"; sf_detail_path := Some (u "/DRF/lawService.do");
    sf_list_guide := u "precListGuide"; sf_detail_guide := Some (u "precInfoGuide");
    sf_row_tags := fields ["prec"];
    sf_id_fields := fields ["판례일련번호"];
    sf_revision_fields := fields ["판례일련번호"];
    sf_title_fields := fields ["사건명"];
    sf_body_fields := fields ["판시사항"; "판결요지"; "판례내용"];
    sf_list_fields := fields ["target"; "공포번호"; "키워드"; "section"; "totalCnt"; "page"; "precid";
      "판례일련번호"; "사건명"; "사건번호"; "선고일자"; "법원명"; "법원종류코드"; "사건종류명"; "사건종류코드"; "판결유형"; "선고"; "데이터출처명";
      "판례상세링크"];
    sf_detail_fields := fields ["판례정보일련번호"; "사건명"; "사건번호"; "선고일자"; "선고"; "법원명"; "법원종류코드"; "사건종류명";
      "사건종류코드"; "판결유형"; "판시사항"; "판결요지"; "참조조문"; "참조판례"; "판례내용"];
    sf_history_mode := HistoryNone; sf_detail_mode := RevisionId;
    sf_metadata_only := false; sf_rights_basis := u "law_open_data_legal_information_reuse" |};
  {| sf_dataset := ConstitutionalDecision; sf_target := u "detc";
    sf_list_path := u "/DRF/lawSearch.do"; sf_detail_path := Some (u "/DRF/lawService.do");
    sf_list_guide := u "detcListGuide"; sf_detail_guide := Some (u "detcInfoGuide");
    sf_row_tags := fields ["detc"];
    sf_id_fields := fields ["헌재결정례일련번호"];
    sf_revision_fields := fields ["헌재결정례일련번호"];
    sf_title_fields := fields ["사건명"];
    sf_body_fields := fields ["판시사항"; "결정요지"];
    sf_list_fields := fields ["target"; "키워드"; "section"; "totalCnt"; "page"; "detcid";
      "헌재결정례일련번호"; "종국일자"; "사건번호"; "사건명"; "헌재결정례상세링크"];
    sf_detail_fields := fields ["헌재결정례일련번호"; "종국일자"; "사건번호"; "사건명"; "사건종류명"; "사건종류코드"; "재판부구분코드";
      "판시사항"; "결정요지"; "전문"; "참조조문"; "참조판례"; "심판대상조문"];
    sf_history_mode := HistoryNone; sf_detail_mode := RevisionId;
    sf_metadata_only := false; sf_rights_basis := u "law_open_data_legal_information_reuse" |};
  {| sf_dataset := LegalInterpretation; sf_target := u "expc";
    sf_list_path := u "/DRF/lawSearch.do"; sf_detail_path := Some (u "/DRF/lawService.do");
    sf_list_guide := u "expcListGuide"; sf_detail_guide := Some (u "expcInfoGuide");
    sf_row_tags := fields ["expc"];
    sf_id_fields := fields ["법령해석례일련번호"];
    sf_revision_fields := fields ["법령해석례일련번호"];
    sf_title_fields := fields ["안건명"];
    sf_body_fields := fields ["질의요지"; "회답"; "이유"];
    sf_list_fields := fields ["target"; "키워드"; "section"; "totalCnt"; "page"; "expcid";
      "법령해석례일련번호"; "안건명"; "안건번호"; "질의기관코드"; "질의기관명"; "회신기관코드"; "회신기관명"; "회신일자"; "법령해석례상세링크"];
    sf_detail_fields := fields ["법령해석례일련번호"; "안건명"; "안건번호"; "해석일자"; "해석기관코드"; "해석기관명"; "질의기관코드";
      "질의기관명"; "관리기관코드"; "등록일시"; "질의요지"; "회답"; "이유"];
    sf_history_mode := HistoryNone; sf_detail_mode := RevisionId;
    sf_metadata_only := false; sf_rights_basis := u "law_open_data_legal_information_reuse" |};
  {| sf_dataset := AdministrativeAppeal; sf_target := u "decc";
    sf_list_path := u "/DRF/lawSearch.do"; sf_detail_path := Some (u "/DRF/lawService.do");
    sf_list_guide := u "deccListGuide"; sf_detail_guide := Some (u "deccInfoGuide");
    sf_row_tags := fields ["decc"];
    sf_id_fields := fields ["행정심판재결례일련번호"];
    sf_revision_fields := fields ["행정심판재결례일련번호"];
    sf_title_fields := fields ["사건명"];
    sf_body_fields := fields ["주문"; "청구취지"; "이유"];
    sf_list_fields := fields ["target"; "키워드"; "section"; "totalCnt"; "page"; "deccid";
      "행정심판재결례일련번호"; "사건명"; "사건번호"; "처분일자"; "의결일자"; "처분청"; "재결청"; "재결구분명"; "재결구분코드"; "행정심판례상세링크"];
    sf_detail_fields := fields ["행정심판례일련번호"; "사건명"; "사건번호"; "처분일자"; "의결일자"; "처분청"; "재결청";
      "재결례유형명"; "재결례유형코드"; "주문"; "청구취지"; "이유"; "재결요지"];
    sf_history_mode := HistoryNone; sf_detail_mode := RevisionId;
    sf_metadata_only := false; sf_rights_basis := u "law_open_data_legal_information_reuse" |};
  {| sf_dataset := EnglishStatute; sf_target := u "elaw";
    sf_list_path := u "/DRF/lawSearch.do"; sf_detail_path := Some (u "/DRF/lawService.do");
    sf_list_guide := u "lsEngListGuide"; sf_detail_guide := Some (u "lsEngInfoGuide");
    sf_row_tags := fields ["law"];
    sf_id_fields := fields ["법령ID"];
    sf_revision_fields := fields ["법령일련번호"];
    sf_title_fields := fields ["법령명영문"; "법령명한글"];
    sf_body_fields := fields [];
    sf_list_fields := fields ["target"; "키워드"; "section"; "totalCnt"; "page"; "lawid"; "법령일련번호";
      "현행연혁코드"; "법령명한글"; "법령명영문"; "법령ID"; "공포일자"; "공포번호"; "제개정구분명"; "소관부처명"; "법령구분명"; "시행일자";
      "자법타법여부"; "법령상세링크"];
    sf_detail_fields := fields [];
    sf_history_mode := Unspecified; sf_detail_mode := RevisionId;
    sf_metadata_only := false; sf_rights_basis := u "law_open_data_legal_information_reuse" |}].

Definition rule_families : list SourceFamily := [
  {| sf_dataset := SchoolRule; sf_target := u "school";
    sf_list_path := u "/DRF/lawSearch.do"; sf_detail_path := Some (u "/DRF/lawService.do");
    sf_list_guide := u "schlPubRulListGuide"; sf_detail_guide := Some (u "schlPubRulInfoGuide");
    sf_row_tags := fields ["admrul"];
    sf_id_fields := fields ["행정규칙ID"];
    sf_revision_fields := fields ["행정규칙일련번호"];
    sf_title_fields := fields ["행정규칙명"];
    sf_body_fields := fields ["조문내용"; "부칙내용"];
    sf_list_fields := fields ["target"; "키워드"; "section"; "totalCnt"; "page"; "numOfRows";
      "resultCode"; "resultMsg"; "admrulid"; "행정규칙일련번호"; "행정규칙명"; "행정규칙종류"; "발령일자"; "발령번호";
      "소관부처명"; "현행연혁구분"; "제개정구분코드"; "제개정구분명"; "법령분류코드"; "법령분류명"; "행정규칙ID"; "행정규칙상세링크"; "시행일자";
      "생성일자"];
    sf_detail_fields := fields ["행정규칙일련번호"; "행정규칙명"; "행정규칙종류"; "행정규칙종류코드"; "발령일자"; "발령번호";
      "제개정구분명"; "제개정구분코드"; "조문형식여부"; "행정규칙ID"; "소관부처명"; "소관부처코드"; "담당부서기관코드"; "담당부서기관명"; "담당자명";
      "전화번호"; "현행여부"; "생성일자"; "조문내용"; "부칙공포일자"; "부칙공포번호"; "부칙내용"; "별표단위별표키"; "별표번호"; "별표가지번호";
      "별표구분"; "별표제목"; "별표서식파일링크"; "개정문내용"; "제개정이유내용"];
    sf_history_mode := CurrentHistory; sf_detail_mode := RevisionId;
    sf_metadata_only := true; sf_rights_basis := u "unverified_third_party_reuse" |};
  {| sf_dataset := LocalPublicCorporationRule; sf_target := u "public";
    sf_list_path := u "/DRF/lawSearch.do"; sf_detail_path := Some (u "/DRF/lawService.do");
    sf_list_guide := u "schlPubRulListGuide"; sf_detail_guide := Some (u "schlPubRulInfoGuide");
    sf_row_tags := fields ["admrul"];
    sf_id_fields := fields ["행정규칙ID"];
    sf_revision_fields := fields ["행정규칙일련번호"];
    sf_title_fields := fields ["행정규칙명"];
    sf_body_fields := fields ["조문내용"; "부칙내용"];
    sf_list_fields := fields ["target"; "키워드"; "section"; "totalCnt"; "page"; "numOfRows";
      "resultCode"; "resultMsg"; "admrulid"; "행정규칙일련번호"; "행정규칙명"; "행정규칙종류"; "발령일자"; "발령번호";
      "소관부처명"; "현행연혁구분"; "제개정구분코드"; "제개정구분명"; "법령분류코드"; "법령분류명"; "행정규칙ID"; "행정규칙상세링크"; "시행일자";
      "생성일자"];
    sf_detail_fields := fields ["행정규칙일련번호"; "행정규칙명"; "행정규칙종류"; "행정규칙종류코드"; "발령일자"; "발령번호";
      "제개정구분명"; "제개정구분코드"; "조문형식여부"; "행정규칙ID"; "소관부처명"; "소관부처코드"; "담당부서기관코드"; "담당부서기관명"; "담당자명";
      "전화번호"; "현행여부"; "생성일자"; "조문내용"; "부칙공포일자"; "부칙공포번호"; "부칙내용"; "별표단위별표키"; "별표번호"; "별표가지번호";
      "별표구분"; "별표제목"; "별표서식파일링크"; "개정문내용"; "제개정이유내용"];
    sf_history_mode := CurrentHistory; sf_detail_mode := RevisionId;
    sf_metadata_only := true; sf_rights_basis := u "unverified_third_party_reuse" |};
  {| sf_dataset := PublicInstitutionRule; sf_target := u "pi";
    sf_list_path := u "/DRF/lawSearch.do"; sf_detail_path := Some (u "/DRF/lawService.do");
    sf_list_guide := u "schlPubRulListGuide"; sf_detail_guide := Some (u "schlPubRulInfoGuide");
    sf_row_tags := fields ["admrul"];
    sf_id_fields := fields ["행정규칙ID"];
    sf_revision_fields := fields ["행정규칙일련번호"];
    sf_title_fields := fields ["행정규칙명"];
    sf_body_fields := fields ["조문내용"; "부칙내용"];
    sf_list_fields := fields ["target"; "키워드"; "section"; "totalCnt"; "page"; "numOfRows";
      "resultCode"; "resultMsg"; "admrulid"; "행정규칙일련번호"; "행정규칙명"; "행정규칙종류"; "발령일자"; "발령번호";
      "소관부처명"; "현행연혁구분"; "제개정구분코드"; "제개정구분명"; "법령분류코드"; "법령분류명"; "행정규칙ID"; "행정규칙상세링크"; "시행일자";
      "생성일자"];
    sf_detail_fields := fields ["행정규칙일련번호"; "행정규칙명"; "행정규칙종류"; "행정규칙종류코드"; "발령일자"; "발령번호";
      "제개정구분명"; "제개정구분코드"; "조문형식여부"; "행정규칙ID"; "소관부처명"; "소관부처코드"; "담당부서기관코드"; "담당부서기관명"; "담당자명";
      "전화번호"; "현행여부"; "생성일자"; "조문내용"; "부칙공포일자"; "부칙공포번호"; "부칙내용"; "별표단위별표키"; "별표번호"; "별표가지번호";
      "별표구분"; "별표제목"; "별표서식파일링크"; "개정문내용"; "제개정이유내용"];
    sf_history_mode := CurrentHistory; sf_detail_mode := RevisionId;
    sf_metadata_only := true; sf_rights_basis := u "unverified_third_party_reuse" |};
  {| sf_dataset := LegalTerm; sf_target := u "lstrm";
    sf_list_path := u "/DRF/lawSearch.do"; sf_detail_path := Some (u "/DRF/lawService.do");
    sf_list_guide := u "lsTrmListGuide"; sf_detail_guide := Some (u "lsTrmInfoGuide");
    sf_row_tags := fields ["lstrm"];
    sf_id_fields := fields ["법령용어ID"];
    sf_revision_fields := fields ["법령용어ID"];
    sf_title_fields := fields ["법령용어명"];
    sf_body_fields := fields ["법령용어정의"];
    sf_list_fields := fields ["target"; "키워드"; "section"; "totalCnt"; "page"; "lstrmid"; "법령용어ID";
      "법령용어명"; "법령용어상세검색"; "사전구분코드"; "법령용어상세링크"; "법령종류코드"];
    sf_detail_fields := fields ["법령용어일련번호"; "법령용어명_한글"; "법령용어명_한자"; "법령용어코드"; "법령용어코드명"; "출처";
      "법령용어정의"];
    sf_history_mode := HistoryNone; sf_detail_mode := TermName;
    sf_metadata_only := true; sf_rights_basis := u "unverified_third_party_reuse" |}].

Definition committee_families : list SourceFamily := [
  {| sf_dataset := PpcDecision; sf_target := u "ppc";
    sf_list_path := u "/DRF/lawSearch.do"; sf_detail_path := Some (u "/DRF/lawService.do");
    sf_list_guide := u "ppcListGuide"; sf_detail_guide := Some (u "ppcInfoGuide");
    sf_row_tags := fields ["ppc"];
    sf_id_fields := fields ["결정문일련번호"];
    sf_revision_fields := fields ["결정문일련번호"];
    sf_title_fields := fields ["안건명"];
    sf_body_fields := fields ["결정"; "주문"; "이유"; "배경"; "주요내용"; "별지"; "결정요지"];
    sf_list_fields := fields ["target"; "키워드"; "section"; "totalCnt"; "page"; "기관명"; "ppcid";
      "결정문일련번호"; "안건명"; "의안번호"; "회의종류"; "결정구분"; "의결일"; "결정문상세링크"];
    sf_detail_fields := fields ["결정문일련번호"; "기관명"; "결정"; "회의종류"; "안건번호"; "안건명"; "신청인"; "의결연월일";
      "주문"; "이유"; "배경"; "이의제기방법및기간"; "주요내용"; "의결일자"; "위원서명"; "별지"; "결정요지"];
    sf_history_mode := HistoryNone; sf_detail_mode := RevisionId;
    sf_metadata_only := false; sf_rights_basis := u "law_open_data_legal_information_reuse" |};
  {| sf_dataset := EiacDecision; sf_target := u "eiac";
    sf_list_path := u "/DRF/lawSearch.do"; sf_detail_path := Some (u "/DRF/lawService.do");
    sf_list_guide := u "eiacListGuide"; sf_detail_guide := Some (u "eiacInfoGuide");
    sf_row_tags := fields ["eiac"];
    sf_id_fields := fields ["결정문일련번호"];
    sf_revision_fields := fields ["결정문일련번호"];
    sf_title_fields := fields ["사건명"];
    sf_body_fields := fields ["개요"; "주문"; "청구취지"; "이유"; "별지"; "각주내용"];
    sf_list_fields := fields ["target"; "키워드"; "section"; "totalCnt"; "page"; "기관명"; "eiacid";
      "결정문일련번호"; "사건명"; "사건번호"; "의결일자"; "결정문상세링크"];
    sf_detail_fields := fields ["결정문일련번호"; "사건의분류"; "의결서종류"; "개요"; "사건번호"; "사건명"; "청구인"; "대리인";
      "피청구인"; "이해관계인"; "심사결정심사관"; "주문"; "청구취지"; "이유"; "의결일자"; "기관명"; "별지"; "각주번호"; "각주내용"];
    sf_history_mode := HistoryNone; sf_detail_mode := RevisionId;
    sf_metadata_only := false; sf_rights_basis := u "law_open_data_legal_information_reuse" |};
  {| sf_dataset := FtcDecision; sf_target := u "ftc";
    sf_list_path := u "/DRF/lawSearch.do"; sf_detail_path := Some (u "/DRF/lawService.do");
    sf_list_guide := u "ftcListGuide"; sf_detail_guide := Some (u "ftcInfoGuide");
    sf_row_tags := fields ["ftc"];
    sf_id_fields := fields ["결정문일련번호"];
    sf_revision_fields := fields ["결정문일련번호"];
    sf_title_fields := fields ["사건명"];
    sf_body_fields := fields ["의결문"; "주문"; "신청취지"; "이유"; "각주내용"; "시정권고참조법률"; "시정권고사항"; "시정권고이유";
      "법위반내용"; "적용법조"; "법령의적용"; "시정기한"; "수락여부통지기간"; "수락여부통지기한"; "수락거부시의조치"; "수락거부시조치방침"; "별지";
      "결정요지"];
    sf_list_fields := fields ["target"; "키워드"; "section"; "totalCnt"; "page"; "기관명"; "ftcid";
      "결정문일련번호"; "사건명"; "사건번호"; "문서유형"; "회의종류"; "결정번호"; "결정일자"; "결정문상세링크"];
    sf_detail_fields := fields ["결정문일련번호"; "문서유형"; "사건번호"; "사건명"; "피심정보명"; "피심정보내용"; "회의종류";
      "결정번호"; "결정일자"; "원심결"; "재산정심결"; "후속심결"; "심의정보명"; "심의정보내용"; "의결문"; "주문"; "신청취지"; "이유";
      "의결일자"; "위원정보"; "각주번호"; "각주내용"; "별지"; "결정요지"; "의결서종류"; "시정권고참조법률"; "시정권고사항"; "시정권고이유";
      "법위반내용"; "적용법조"; "법령의적용"; "시정기한"; "수락여부통지기간"; "수락여부통지기한"; "수락거부시의조치"; "수락거부시조치방침"];
    sf_history_mode := HistoryNone; sf_detail_mode := RevisionId;
    sf_metadata_only := false; sf_rights_basis := u "law_open_data_legal_information_reuse" |};
  {| sf_dataset := AcrDecision; sf_target := u "acr";
    sf_list_path := u "/DRF/lawSearch.do"; sf_detail_path := Some (u "/DRF/lawService.do");
    sf_list_guide := u "acrListGuide"; sf_detail_guide := Some (u "acrInfoGuide");
    sf_row_tags := fields ["acr"];
    sf_id_fields := fields ["결정문일련번호"];
    sf_revision_fields := fields ["결정문일련번호"];
    sf_title_fields := fields ["제목"];
    sf_body_fields := fields ["주문"; "이유"; "별지"; "의결문"; "결정요지"];
    sf_list_fields := fields ["target"; "키워드"; "section"; "totalCnt"; "page"; "기관명"; "acrid";
      "결정문일련번호"; "제목"; "민원표시명"; "의안번호"; "회의종류"; "결정구분"; "의결일"; "결정문상세링크"];
    sf_detail_fields := fields ["결정문일련번호"; "기관명"; "회의종류"; "결정구분"; "의안번호"; "민원표시"; "제목"; "신청인";
      "대리인"; "피신청인"; "관계기관"; "의결일"; "주문"; "이유"; "별지"; "의결문"; "의결일자"; "위원정보"; "결정요지"];
    sf_history_mode := HistoryNone; sf_detail_mode := RevisionId;
    sf_metadata_only := false; sf_rights_basis := u "law_open_data_legal_information_reuse" |};
  {| sf_dataset := FscDecision; sf_target := u "fsc";
    sf_list_path := u "/DRF/lawSearch.do"; sf_detail_path := Some (u "/DRF/lawService.do");
    sf_list_guide := u "fscListGuide"; sf_detail_guide := Some (u "fscInfoGuide");
    sf_row_tags := fields ["fsc"];
    sf_id_fields := fields ["결정문일련번호"];
    sf_revision_fields := fields ["결정문일련번호"];
    sf_title_fields := fields ["안건명"];
    sf_body_fields := fields ["조치내용"; "조치이유"; "각주내용"];
    sf_list_fields := fields ["target"; "키워드"; "section"; "totalCnt"; "page"; "기관명"; "fscid";
      "결정문일련번호"; "안건명"; "의결번호"; "결정문상세링크"];
    sf_detail_fields := fields ["결정문일련번호"; "기관명"; "의결번호"; "안건명"; "조치대상자의인적사항"; "조치대상"; "조치내용";
      "조치이유"; "각주번호"; "각주내용"];
    sf_history_mode := HistoryNone; sf_detail_mode := RevisionId;
    sf_metadata_only := false; sf_rights_basis := u "law_open_data_legal_information_reuse" |};
  {| sf_dataset := NlrcDecision; sf_target := u "nlrc";
    sf_list_path := u "/DRF/lawSearch.do"; sf_detail_path := Some (u "/DRF/lawService.do");
    sf_list_guide := u "nlrcListGuide"; sf_detail_guide := Some (u "nlrcInfoGuide");
    sf_row_tags := fields ["nlrc"];
    sf_id_fields := fields ["결정문일련번호"];
    sf_revision_fields := fields ["결정문일련번호"];
    sf_title_fields := fields ["제목"];
    sf_body_fields := fields ["내용"; "판정사항"; "판정요지"; "판정결과"; "각주내용"];
    sf_list_fields := fields ["target"; "키워드"; "section"; "totalCnt"; "page"; "기관명"; "nlrcid";
      "결정문일련번호"; "제목"; "사건번호"; "등록일"; "결정문상세링크"];
    sf_detail_fields := fields ["결정문일련번호"; "기관명"; "사건번호"; "자료구분"; "담당부서"; "등록일"; "제목"; "내용";
      "판정사항"; "판정요지"; "판정결과"; "각주번호"; "각주내용"];
    sf_history_mode := HistoryNone; sf_detail_mode := RevisionId;
    sf_metadata_only := false; sf_rights_basis := u "law_open_data_legal_information_reuse" |};
  {| sf_dataset := KccDecision; sf_target := u "kcc";
    sf_list_path := u "/DRF/lawSearch.do"; sf_detail_path := Some (u "/DRF/lawService.do");
    sf_list_guide := u "kccListGuide"; sf_detail_guide := Some (u "kccInfoGuide");
    sf_row_tags := fields ["kcc"];
    sf_id_fields := fields ["결정문일련번호"];
    sf_revision_fields := fields ["결정문일련번호"];
    sf_title_fields := fields ["안건명"];
    sf_body_fields := fields ["원심결정"; "주문"; "이유"; "별지"; "각주내용"];
    sf_list_fields := fields ["target"; "키워드"; "section"; "totalCnt"; "page"; "기관명"; "kccid";
      "결정문일련번호"; "안건명"; "안건번호"; "의결일자"; "결정문상세링크"];
    sf_detail_fields := fields ["결정문일련번호"; "기관명"; "의결서유형"; "안건번호"; "사건번호"; "안건명"; "사건명"; "피심인";
      "피심의인"; "청구인"; "참고인"; "원심결정"; "의결일자"; "주문"; "이유"; "별지"; "문서제공구분"; "각주번호"; "각주내용"];
    sf_history_mode := HistoryNone; sf_detail_mode := RevisionId;
    sf_metadata_only := false; sf_rights_basis := u "law_open_data_legal_information_reuse" |};
  {| sf_dataset := IaciacDecision; sf_target := u "iaciac";
    sf_list_path := u "/DRF/lawSearch.do"; sf_detail_path := Some (u "/DRF/lawService.do");
    sf_list_guide := u "iaciacListGuide"; sf_detail_guide := Some (u "iaciacInfoGuide");
    sf_row_tags := fields ["iaciac"];
    sf_id_fields := fields ["결정문일련번호"];
    sf_revision_fields := fields ["결정문일련번호"];
    sf_title_fields := fields ["사건"];
    sf_body_fields := fields ["쟁점"; "주문"; "청구취지"; "이유"; "별지"; "각주내용"];
    sf_list_fields := fields ["target"; "키워드"; "section"; "totalCnt"; "page"; "기관명"; "iaciacid";
      "결정문일련번호"; "사건"; "사건번호"; "의결일자"; "결정문상세링크"];
    sf_detail_fields := fields ["결정문일련번호"; "사건대분류"; "사건중분류"; "사건소분류"; "쟁점"; "사건번호"; "의결일자"; "사건";
      "청구인"; "재해근로자"; "재해자"; "피재근로자"; "진폐근로자"; "수진자"; "원처분기관"; "주문"; "청구취지"; "이유"; "별지"; "문서제공구분";
      "각주번호"; "각주내용"];
    sf_history_mode := HistoryNone; sf_detail_mode := RevisionId;
    sf_metadata_only := false; sf_rights_basis := u "law_open_data_legal_information_reuse" |};
  {| sf_dataset := OcltDecision; sf_target := u "oclt";
    sf_list_path := u "/DRF/lawSearch.do"; sf_detail_path := Some (u "/DRF/lawService.do");
    sf_list_guide := u "ocltListGuide"; sf_detail_guide := Some (u "ocltInfoGuide");
    sf_row_tags := fields ["oclt"];
    sf_id_fields := fields ["결정문일련번호"];
    sf_revision_fields := fields ["결정문일련번호"];
    sf_title_fields := fields ["제목"];
    sf_body_fields := fields ["관련법리"; "관련규정"; "판단"; "근거"; "주해"; "각주내용"];
    sf_list_fields := fields ["target"; "키워드"; "section"; "totalCnt"; "page"; "기관명"; "ocltid";
      "결정문일련번호"; "제목"; "결정문상세링크"];
    sf_detail_fields := fields ["결정문일련번호"; "제목"; "관련법리"; "관련규정"; "판단"; "근거"; "주해"; "각주번호";
      "각주내용"];
    sf_history_mode := HistoryNone; sf_detail_mode := RevisionId;
    sf_metadata_only := false; sf_rights_basis := u "law_open_data_legal_information_reuse" |};
  {| sf_dataset := EccDecision; sf_target := u "ecc";
    sf_list_path := u "/DRF/lawSearch.do"; sf_detail_path := Some (u "/DRF/lawService.do");
    sf_list_guide := u "eccListGuide"; sf_detail_guide := Some (u "eccInfoGuide");
    sf_row_tags := fields ["ecc"];
    sf_id_fields := fields ["결정문일련번호"];
    sf_revision_fields := fields ["결정문일련번호"];
    sf_title_fields := fields ["사건명"];
    sf_body_fields := fields ["사건의개요"; "분쟁의경과"; "당사자주장"; "사실조사결과"; "평가의견"; "주문"; "이유"; "각주내용"];
    sf_list_fields := fields ["target"; "키워드"; "section"; "totalCnt"; "page"; "기관명"; "eccid";
      "결정문일련번호"; "사건명"; "의결번호"; "결정문상세링크"];
    sf_detail_fields := fields ["결정문일련번호"; "의결번호"; "사건명"; "사건의개요"; "신청인"; "피신청인"; "분쟁의경과";
      "당사자주장"; "사실조사결과"; "평가의견"; "주문"; "이유"; "각주번호"; "각주내용"];
    sf_history_mode := HistoryNone; sf_detail_mode := RevisionId;
    sf_metadata_only := false; sf_rights_basis := u "law_open_data_legal_information_reuse" |}].

Definition ministry_families_1 : list SourceFamily := [
  {| sf_dataset := SfcDecision; sf_target := u "sfc";
    sf_list_path := u "/DRF/lawSearch.do"; sf_detail_path := Some (u "/DRF/lawService.do");
    sf_list_guide := u "sfcListGuide"; sf_detail_guide := Some (u "sfcInfoGuide");
    sf_row_tags := fields ["sfc"];
    sf_id_fields := fields ["결정문일련번호"];
    sf_revision_fields := fields ["결정문일련번호"];
    sf_title_fields := fields ["안건명"];
    sf_body_fields := fields ["조치내용"; "조치이유"; "각주내용"];
    sf_list_fields := fields ["target"; "키워드"; "section"; "totalCnt"; "page"; "기관명"; "sfcid";
      "결정문일련번호"; "안건명"; "의결번호"; "결정문상세링크"];
    sf_detail_fields := fields ["결정문일련번호"; "기관명"; "의결번호"; "안건명"; "조치대상자의인적사항"; "조치대상"; "조치내용";
      "조치이유"; "각주번호"; "각주내용"];
    sf_history_mode := HistoryNone; sf_detail_mode := RevisionId;
    sf_metadata_only := false; sf_rights_basis := u "law_open_data_legal_information_reuse" |};
  {| sf_dataset := NhrckDecision; sf_target := u "nhrck";
    sf_list_path := u "/DRF/lawSearch.do"; sf_detail_path := Some (u "/DRF/lawService.do");
    sf_list_guide := u "nhrckListGuide"; sf_detail_guide := Some (u "nhrckInfoGuide");
    sf_row_tags := fields ["nhrck"];
    sf_id_fields := fields ["결정문일련번호"];
    sf_revision_fields := fields ["결정문일련번호"];
    sf_title_fields := fields ["사건명"];
    sf_body_fields := fields ["주문"; "이유"; "별지"; "결정요지"; "판단요지"; "주문요지"; "결정례전문"];
    sf_list_fields := fields ["target"; "키워드"; "section"; "totalCnt"; "page"; "기관명"; "nhrckid";
      "결정문일련번호"; "사건명"; "사건번호"; "의결일자"; "데이터기준일시"; "결정문상세링크"];
    sf_detail_fields := fields ["결정문일련번호"; "기관명"; "위원회명"; "사건명"; "사건번호"; "의결일자"; "주문"; "이유";
      "위원정보"; "별지"; "결정요지"; "판단요지"; "주문요지"; "분류명"; "결정유형"; "신청인"; "피신청인"; "피해자"; "피조사자";
      "원본다운로드URL"; "바로보기URL"; "결정례전문"; "데이터기준일시"];
    sf_history_mode := HistoryNone; sf_detail_mode := RevisionId;
    sf_metadata_only := false; sf_rights_basis := u "law_open_data_legal_information_reuse" |};
  {| sf_dataset := MoelInterpretation; sf_target := u "moelCgmExpc";
    sf_list_path := u "/DRF/lawSearch.do"; sf_detail_path := Some (u "/DRF/lawService.do");
    sf_list_guide := u "cgmExpcMoelListGuide"; sf_detail_guide := Some (u "cgmExpcMoelInfoGuide");
    sf_row_tags := fields [];
    sf_id_fields := fields ["법령해석일련번호"];
    sf_revision_fields := fields ["법령해석일련번호"];
    sf_title_fields := fields ["안건명"];
    sf_body_fields := fields ["질의요지"; "회답"; "이유"; "관련법령"];
    sf_list_fields := fields ["target"; "키워드"; "section"; "totalCnt"; "page"; "id"; "법령해석일련번호";
      "안건명"; "안건번호"; "질의기관코드"; "질의기관명"; "해석기관코드"; "해석기관명"; "해석일자"; "데이터기준일시"; "법령해석상세링크"];
    sf_detail_fields := fields ["법령해석일련번호"; "안건명"; "안건번호"; "해석일자"; "해석기관코드"; "해석기관명"; "질의기관코드";
      "질의기관명"; "관리기관코드"; "등록일시"; "질의요지"; "회답"; "이유"; "관련법령"; "데이터기준일시"];
    sf_history_mode := HistoryNone; sf_detail_mode := RevisionId;
    sf_metadata_only := false; sf_rights_basis := u "law_open_data_legal_information_reuse" |};
  {| sf_dataset := MolitInterpretation; sf_target := u "molitCgmExpc";
    sf_list_path := u "/DRF/lawSearch.do"; sf_detail_path := Some (u "/DRF/lawService.do");
    sf_list_guide := u "cgmExpcMolitListGuide"; sf_detail_guide := Some (u "cgmExpcMolitInfoGuide");
    sf_row_tags := fields [];
    sf_id_fields := fields ["법령해석일련번호"];
    sf_revision_fields := fields ["법령해석일련번호"];
    sf_title_fields := fields ["안건명"];
    sf_body_fields := fields ["질의요지"; "회답"; "이유"; "관련법령"];
    sf_list_fields := fields ["target"; "키워드"; "section"; "totalCnt"; "page"; "id"; "법령해석일련번호";
      "안건명"; "안건번호"; "질의기관코드"; "질의기관명"; "해석기관코드"; "해석기관명"; "해석일자"; "데이터기준일시"; "법령해석상세링크"];
    sf_detail_fields := fields ["법령해석일련번호"; "대분류"; "중분류"; "소분류"; "안건명"; "안건번호"; "해석일자"; "해석기관코드";
      "해석기관명"; "질의기관코드"; "질의기관명"; "관리기관코드"; "등록일시"; "질의요지"; "회답"; "이유"; "관련법령"; "데이터기준일시"];
    sf_history_mode := HistoryNone; sf_detail_mode := RevisionId;
    sf_metadata_only := false; sf_rights_basis := u "law_open_data_legal_information_reuse" |};
  {| sf_dataset := MoefInterpretation; sf_target := u "moefCgmExpc";
    sf_list_path := u "/DRF/lawSearch.do"; sf_detail_path := None;
    sf_list_guide := u "cgmExpcMoefListGuide"; sf_detail_guide := None;
    sf_row_tags := fields [];
    sf_id_fields := fields ["법령해석일련번호"];
    sf_revision_fields := fields ["법령해석일련번호"];
    sf_title_fields := fields ["안건명"];
    sf_body_fields := fields [];
    sf_list_fields := fields ["target"; "키워드"; "section"; "totalCnt"; "page"; "id"; "법령해석일련번호";
      "안건명"; "안건번호"; "질의기관코드"; "질의기관명"; "해석기관코드"; "해석기관명"; "해석일자"; "데이터기준일시"; "법령해석상세링크"];
    sf_detail_fields := fields [];
    sf_history_mode := HistoryNone; sf_detail_mode := ListOnly;
    sf_metadata_only := false; sf_rights_basis := u "law_open_data_legal_information_reuse" |};
  {| sf_dataset := MofInterpretation; sf_target := u "mofCgmExpc";
    sf_list_path := u "/DRF/lawSearch.do"; sf_detail_path := Some (u "/DRF/lawService.do");
    sf_list_guide := u "cgmExpcMofListGuide"; sf_detail_guide := Some (u "cgmExpcMofInfoGuide");
    sf_row_tags := fields [];
    sf_id_fields := fields ["법령해석일련번호"];
    sf_revision_fields := fields ["법령해석일련번호"];
    sf_title_fields := fields ["안건명"];
    sf_body_fields := fields ["질의요지"; "회답"; "이유"; "관련법령"];
    sf_list_fields := fields ["target"; "키워드"; "section"; "totalCnt"; "page"; "id"; "법령해석일련번호";
      "안건명"; "안건번호"; "질의기관코드"; "질의기관명"; "해석기관코드"; "해석기관명"; "해석일자"; "데이터기준일시"; "법령해석상세링크"];
    sf_detail_fields := fields ["법령해석일련번호"; "안건명"; "안건번호"; "해석일자"; "해석기관코드"; "해석기관명"; "질의기관코드";
      "질의기관명"; "관리기관코드"; "등록일시"; "질의요지"; "회답"; "이유"; "관련법령"; "데이터기준일시"];
    sf_history_mode := HistoryNone; sf_detail_mode := RevisionId;
    sf_metadata_only := false; sf_rights_basis := u "law_open_data_legal_information_reuse" |};
  {| sf_dataset := MoisInterpretation; sf_target := u "moisCgmExpc";
    sf_list_path := u "/DRF/lawSearch.do"; sf_detail_path := Some (u "/DRF/lawService.do");
    sf_list_guide := u "cgmExpcMoisListGuide"; sf_detail_guide := Some (u "cgmExpcMoisInfoGuide");
    sf_row_tags := fields [];
    sf_id_fields := fields ["법령해석일련번호"];
    sf_revision_fields := fields ["법령해석일련번호"];
    sf_title_fields := fields ["안건명"];
    sf_body_fields := fields ["질의요지"; "회답"; "이유"; "관련법령"];
    sf_list_fields := fields ["target"; "키워드"; "section"; "totalCnt"; "page"; "id"; "법령해석일련번호";
      "안건명"; "안건번호"; "질의기관코드"; "질의기관명"; "해석기관코드"; "해석기관명"; "해석일자"; "데이터기준일시"; "법령해석상세링크"];
    sf_detail_fields := fields ["법령해석일련번호"; "안건명"; "안건번호"; "해석일자"; "해석기관코드"; "해석기관명"; "질의기관코드";
      "질의기관명"; "관리기관코드"; "등록일시"; "질의요지"; "회답"; "이유"; "관련법령"; "데이터기준일시"];
    sf_history_mode := HistoryNone; sf_detail_mode := RevisionId;
    sf_metadata_only := false; sf_rights_basis := u "law_open_data_legal_information_reuse" |};
  {| sf_dataset := MeInterpretation; sf_target := u "meCgmExpc";
    sf_list_path := u "/DRF/lawSearch.do"; sf_detail_path := Some (u "/DRF/lawService.do");
    sf_list_guide := u "cgmExpcMeListGuide"; sf_detail_guide := Some (u "cgmExpcMeInfoGuide");
    sf_row_tags := fields [];
    sf_id_fields := fields ["법령해석일련번호"];
    sf_revision_fields := fields ["법령해석일련번호"];
    sf_title_fields := fields ["안건명"];
    sf_body_fields := fields ["질의요지"; "회답"; "이유"; "관련법령"];
    sf_list_fields := fields ["target"; "키워드"; "section"; "totalCnt"; "page"; "id"; "법령해석일련번호";
      "안건명"; "안건번호"; "질의기관코드"; "질의기관명"; "해석기관코드"; "해석기관명"; "해석일자"; "데이터기준일시"; "법령해석상세링크"];
    sf_detail_fields := fields ["법령해석일련번호"; "안건명"; "안건번호"; "해석일자"; "해석기관코드"; "해석기관명"; "질의기관코드";
      "질의기관명"; "관리기관코드"; "등록일시"; "질의요지"; "회답"; "이유"; "관련법령"; "데이터기준일시"];
    sf_history_mode := HistoryNone; sf_detail_mode := RevisionId;
    sf_metadata_only := false; sf_rights_basis := u "law_open_data_legal_information_reuse" |};
  {| sf_dataset := KcsInterpretation; sf_target := u "kcsCgmExpc";
    sf_list_path := u "/DRF/lawSearch.do"; sf_detail_path := Some (u "/DRF/lawService.do");
    sf_list_guide := u "cgmExpcKcsListGuide"; sf_detail_guide := Some (u "cgmExpcKcsInfoGuide");
    sf_row_tags := fields [];
    sf_id_fields := fields ["법령해석일련번호"];
    sf_revision_fields := fields ["법령해석일련번호"];
    sf_title_fields := fields ["안건명"];
    sf_body_fields := fields ["질의요지"; "회답"; "이유"; "관련법령"];
    sf_list_fields := fields ["target"; "키워드"; "section"; "totalCnt"; "page"; "id"; "법령해석일련번호";
      "안건명"; "질의기관코드"; "질의기관명"; "해석기관코드"; "해석기관명"; "해석일자"; "데이터기준일시"; "법령해석상세링크"];
    sf_detail_fields := fields ["법령해석일련번호"; "업무분야"; "안건명"; "해석일자"; "해석기관코드"; "해석기관명"; "질의기관코드";
      "질의기관명"; "관리기관코드"; "등록일시"; "질의요지"; "회답"; "이유"; "관련법령"; "관세법령정보포털원문링크"; "데이터기준일시"];
    sf_history_mode := HistoryNone; sf_detail_mode := RevisionId;
    sf_metadata_only := false; sf_rights_basis := u "law_open_data_legal_information_reuse" |};
  {| sf_dataset := NtsInterpretation; sf_target := u "ntsCgmExpc";
    sf_list_path := u "/DRF/lawSearch.do"; sf_detail_path := None;
    sf_list_guide := u "cgmExpcNtsListGuide"; sf_detail_guide := None;
    sf_row_tags := fields [];
    sf_id_fields := fields ["법령해석일련번호"];
    sf_revision_fields := fields ["법령해석일련번호"];
    sf_title_fields := fields ["안건명"];
    sf_body_fields := fields [];
    sf_list_fields := fields ["target"; "키워드"; "section"; "totalCnt"; "page"; "id"; "법령해석일련번호";
      "안건명"; "안건번호"; "질의기관코드"; "질의기관명"; "해석기관코드"; "해석기관명"; "해석일자"; "데이터기준일시"; "법령해석상세링크"];
    sf_detail_fields := fields [];
    sf_history_mode := HistoryNone; sf_detail_mode := ListOnly;
    sf_metadata_only := false; sf_rights_basis := u "law_open_data_legal_information_reuse" |}].

Definition ministry_families_2 : list SourceFamily := [
  {| sf_dataset := MoeInterpretation; sf_target := u "moeCgmExpc";
    sf_list_path := u "/DRF/lawSearch.do"; sf_detail_path := Some (u "/DRF/lawService.do");
    sf_list_guide := u "cgmExpcMoeListGuide"; sf_detail_guide := Some (u "cgmExpcMoeInfoGuide");
    sf_row_tags := fields [];
    sf_id_fields := fields ["법령해석일련번호"];
    sf_revision_fields := fields ["법령해석일련번호"];
    sf_title_fields := fields ["안건명"];
    sf_body_fields := fields ["질의요지"; "회답"; "이유"; "관련법령"];
    sf_list_fields := fields ["target"; "키워드"; "section"; "totalCnt"; "page"; "id"; "법령해석일련번호";
      "안건명"; "안건번호"; "질의기관코드"; "질의기관명"; "해석기관코드"; "해석기관명"; "해석일자"; "데이터기준일시"; "법령해석상세링크"];
    sf_detail_fields := fields ["법령해석일련번호"; "안건명"; "안건번호"; "해석일자"; "해석기관코드"; "해석기관명"; "질의기관코드";
      "질의기관명"; "관리기관코드"; "등록일시"; "질의요지"; "회답"; "이유"; "관련법령"; "데이터기준일시"];
    sf_history_mode := HistoryNone; sf_detail_mode := RevisionId;
    sf_metadata_only := false; sf_rights_basis := u "law_open_data_legal_information_reuse" |};
  {| sf_dataset := MsitInterpretation; sf_target := u "msitCgmExpc";
    sf_list_path := u "/DRF/lawSearch.do"; sf_detail_path := Some (u "/DRF/lawService.do");
    sf_list_guide := u "cgmExpcMsitListGuide"; sf_detail_guide := Some (u "cgmExpcMsitInfoGuide");
    sf_row_tags := fields [];
    sf_id_fields := fields ["법령해석일련번호"];
    sf_revision_fields := fields ["법령해석일련번호"];
    sf_title_fields := fields ["안건명"];
    sf_body_fields := fields ["질의요지"; "회답"; "이유"; "관련법령"];
    sf_list_fields := fields ["target"; "키워드"; "section"; "totalCnt"; "page"; "id"; "법령해석일련번호";
      "안건명"; "안건번호"; "질의기관코드"; "질의기관명"; "해석기관코드"; "해석기관명"; "해석일자"; "데이터기준일시"; "법령해석상세링크"];
    sf_detail_fields := fields ["법령해석일련번호"; "안건명"; "안건번호"; "해석일자"; "해석기관코드"; "해석기관명"; "질의기관코드";
      "질의기관명"; "관리기관코드"; "등록일시"; "질의요지"; "회답"; "이유"; "관련법령"; "데이터기준일시"];
    sf_history_mode := HistoryNone; sf_detail_mode := RevisionId;
    sf_metadata_only := false; sf_rights_basis := u "law_open_data_legal_information_reuse" |};
  {| sf_dataset := MpvaInterpretation; sf_target := u "mpvaCgmExpc";
    sf_list_path := u "/DRF/lawSearch.do"; sf_detail_path := Some (u "/DRF/lawService.do");
    sf_list_guide := u "cgmExpcMpvaListGuide"; sf_detail_guide := Some (u "cgmExpcMpvaInfoGuide");
    sf_row_tags := fields [];
    sf_id_fields := fields ["법령해석일련번호"];
    sf_revision_fields := fields ["법령해석일련번호"];
    sf_title_fields := fields ["안건명"];
    sf_body_fields := fields ["질의요지"; "회답"; "이유"; "관련법령"];
    sf_list_fields := fields ["target"; "키워드"; "section"; "totalCnt"; "page"; "id"; "법령해석일련번호";
      "안건명"; "안건번호"; "질의기관코드"; "질의기관명"; "해석기관코드"; "해석기관명"; "해석일자"; "데이터기준일시"; "법령해석상세링크"];
    sf_detail_fields := fields ["법령해석일련번호"; "안건명"; "안건번호"; "해석일자"; "해석기관코드"; "해석기관명"; "질의기관코드";
      "질의기관명"; "관리기관코드"; "등록일시"; "질의요지"; "회답"; "이유"; "관련법령"; "데이터기준일시"];
    sf_history_mode := HistoryNone; sf_detail_mode := RevisionId;
    sf_metadata_only := false; sf_rights_basis := u "law_open_data_legal_information_reuse" |};
  {| sf_dataset := MndInterpretation; sf_target := u "mndCgmExpc";
    sf_list_path := u "/DRF/lawSearch.do"; sf_detail_path := Some (u "/DRF/lawService.do");
    sf_list_guide := u "cgmExpcMndListGuide"; sf_detail_guide := Some (u "cgmExpcMndInfoGuide");
    sf_row_tags := fields [];
    sf_id_fields := fields ["법령해석일련번호"];
    sf_revision_fields := fields ["법령해석일련번호"];
    sf_title_fields := fields ["안건명"];
    sf_body_fields := fields ["질의요지"; "회답"; "이유"; "관련법령"];
    sf_list_fields := fields ["target"; "키워드"; "section"; "totalCnt"; "page"; "id"; "법령해석일련번호";
      "안건명"; "안건번호"; "질의기관코드"; "질의기관명"; "해석기관코드"; "해석기관명"; "해석일자"; "데이터기준일시"; "법령해석상세링크"];
    sf_detail_fields := fields ["법령해석일련번호"; "안건명"; "안건번호"; "해석일자"; "해석기관코드"; "해석기관명"; "질의기관코드";
      "질의기관명"; "관리기관코드"; "등록일시"; "질의요지"; "회답"; "이유"; "관련법령"; "데이터기준일시"];
    sf_history_mode := HistoryNone; sf_detail_mode := RevisionId;
    sf_metadata_only := false; sf_rights_basis := u "law_open_data_legal_information_reuse" |};
  {| sf_dataset := MafraInterpretation; sf_target := u "mafraCgmExpc";
    sf_list_path := u "/DRF/lawSearch.do"; sf_detail_path := Some (u "/DRF/lawService.do");
    sf_list_guide := u "cgmExpcMafraListGuide"; sf_detail_guide := Some (u "cgmExpcMafraInfoGuide");
    sf_row_tags := fields [];
    sf_id_fields := fields ["법령해석일련번호"];
    sf_revision_fields := fields ["법령해석일련번호"];
    sf_title_fields := fields ["안건명"];
    sf_body_fields := fields ["질의요지"; "회답"; "이유"; "관련법령"];
    sf_list_fields := fields ["target"; "키워드"; "section"; "totalCnt"; "page"; "id"; "법령해석일련번호";
      "안건명"; "안건번호"; "질의기관코드"; "질의기관명"; "해석기관코드"; "해석기관명"; "해석일자"; "데이터기준일시"; "법령해석상세링크"];
    sf_detail_fields := fields ["법령해석일련번호"; "안건명"; "안건번호"; "해석일자"; "해석기관코드"; "해석기관명"; "질의기관코드";
      "질의기관명"; "관리기관코드"; "등록일시"; "질의요지"; "회답"; "이유"; "관련법령"; "데이터기준일시"];
    sf_history_mode := HistoryNone; sf_detail_mode := RevisionId;
    sf_metadata_only := false; sf_rights_basis := u "law_open_data_legal_information_reuse" |};
  {| sf_dataset := McstInterpretation; sf_target := u "mcstCgmExpc";
    sf_list_path := u "/DRF/lawSearch.do"; sf_detail_path := Some (u "/DRF/lawService.do");
    sf_list_guide := u "cgmExpcMcstListGuide"; sf_detail_guide := Some (u "cgmExpcMcstInfoGuide");
    sf_row_tags := fields [];
    sf_id_fields := fields ["법령해석일련번호"];
    sf_revision_fields := fields ["법령해석일련번호"];
    sf_title_fields := fields ["안건명"];
    sf_body_fields := fields ["질의요지"; "회답"; "이유"; "관련법령"];
    sf_list_fields := fields ["target"; "키워드"; "section"; "totalCnt"; "page"; "id"; "법령해석일련번호";
      "안건명"; "안건번호"; "질의기관코드"; "질의기관명"; "해석기관코드"; "해석기관명"; "해석일자"; "데이터기준일시"; "법령해석상세링크"];
    sf_detail_fields := fields ["법령해석일련번호"; "안건명"; "안건번호"; "해석일자"; "해석기관코드"; "해석기관명"; "질의기관코드";
      "질의기관명"; "관리기관코드"; "등록일시"; "질의요지"; "회답"; "이유"; "관련법령"; "데이터기준일시"];
    sf_history_mode := HistoryNone; sf_detail_mode := RevisionId;
    sf_metadata_only := false; sf_rights_basis := u "law_open_data_legal_information_reuse" |};
  {| sf_dataset := MojInterpretation; sf_target := u "mojCgmExpc";
    sf_list_path := u "/DRF/lawSearch.do"; sf_detail_path := Some (u "/DRF/lawService.do");
    sf_list_guide := u "cgmExpcMojListGuide"; sf_detail_guide := Some (u "cgmExpcMojInfoGuide");
    sf_row_tags := fields [];
    sf_id_fields := fields ["법령해석일련번호"];
    sf_revision_fields := fields ["법령해석일련번호"];
    sf_title_fields := fields ["안건명"];
    sf_body_fields := fields ["질의요지"; "회답"; "이유"; "관련법령"];
    sf_list_fields := fields ["target"; "키워드"; "section"; "totalCnt"; "page"; "id"; "법령해석일련번호";
      "안건명"; "안건번호"; "질의기관코드"; "질의기관명"; "해석기관코드"; "해석기관명"; "해석일자"; "데이터기준일시"; "법령해석상세링크"];
    sf_detail_fields := fields ["법령해석일련번호"; "안건명"; "안건번호"; "해석일자"; "해석기관코드"; "해석기관명"; "질의기관코드";
      "질의기관명"; "관리기관코드"; "등록일시"; "질의요지"; "회답"; "이유"; "관련법령"; "데이터기준일시"];
    sf_history_mode := HistoryNone; sf_detail_mode := RevisionId;
    sf_metadata_only := false; sf_rights_basis := u "law_open_data_legal_information_reuse" |};
  {| sf_dataset := MohwInterpretation; sf_target := u "mohwCgmExpc";
    sf_list_path := u "/DRF/lawSearch.do"; sf_detail_path := Some (u "/DRF/lawService.do");
    sf_list_guide := u "cgmExpcMohwListGuide"; sf_detail_guide := Some (u "cgmExpcMohwInfoGuide");
    sf_row_tags := fields [];
    sf_id_fields := fields ["법령해석일련번호"];
    sf_revision_fields := fields ["법령해석일련번호"];
    sf_title_fields := fields ["안건명"];
    sf_body_fields := fields ["질의요지"; "회답"; "이유"; "관련법령"];
    sf_list_fields := fields ["target"; "키워드"; "section"; "totalCnt"; "page"; "id"; "법령해석일련번호";
      "안건명"; "안건번호"; "질의기관코드"; "질의기관명"; "해석기관코드"; "해석기관명"; "해석일자"; "데이터기준일시"; "법령해석상세링크"];
    sf_detail_fields := fields ["법령해석일련번호"; "안건명"; "안건번호"; "해석일자"; "해석기관코드"; "해석기관명"; "질의기관코드";
      "질의기관명"; "관리기관코드"; "등록일시"; "질의요지"; "회답"; "이유"; "관련법령"; "데이터기준일시"];
    sf_history_mode := HistoryNone; sf_detail_mode := RevisionId;
    sf_metadata_only := false; sf_rights_basis := u "law_open_data_legal_information_reuse" |};
  {| sf_dataset := MotieInterpretation; sf_target := u "motieCgmExpc";
    sf_list_path := u "/DRF/lawSearch.do"; sf_detail_path := Some (u "/DRF/lawService.do");
    sf_list_guide := u "cgmExpcMotieListGuide"; sf_detail_guide := Some (u "cgmExpcMotieInfoGuide");
    sf_row_tags := fields [];
    sf_id_fields := fields ["법령해석일련번호"];
    sf_revision_fields := fields ["법령해석일련번호"];
    sf_title_fields := fields ["안건명"];
    sf_body_fields := fields ["질의요지"; "회답"; "이유"; "관련법령"];
    sf_list_fields := fields ["target"; "키워드"; "section"; "totalCnt"; "page"; "id"; "법령해석일련번호";
      "안건명"; "안건번호"; "질의기관코드"; "질의기관명"; "해석기관코드"; "해석기관명"; "해석일자"; "데이터기준일시"; "법령해석상세링크"];
    sf_detail_fields := fields ["법령해석일련번호"; "안건명"; "안건번호"; "해석일자"; "해석기관코드"; "해석기관명"; "질의기관코드";
      "질의기관명"; "관리기관코드"; "등록일시"; "질의요지"; "회답"; "이유"; "관련법령"; "데이터기준일시"];
    sf_history_mode := HistoryNone; sf_detail_mode := RevisionId;
    sf_metadata_only := false; sf_rights_basis := u "law_open_data_legal_information_reuse" |};
  {| sf_dataset := MogefInterpretation; sf_target := u "mogefCgmExpc";
    sf_list_path := u "/DRF/lawSearch.do"; sf_detail_path := Some (u "/DRF/lawService.do");
    sf_list_guide := u "cgmExpcMogefListGuide"; sf_detail_guide := Some (u "cgmExpcMogefInfoGuide");
    sf_row_tags := fields [];
    sf_id_fields := fields ["법령해석일련번호"];
    sf_revision_fields := fields ["법령해석일련번호"];
    sf_title_fields := fields ["안건명"];
    sf_body_fields := fields ["질의요지"; "회답"; "이유"; "관련법령"];
    sf_list_fields := fields ["target"; "키워드"; "section"; "totalCnt"; "page"; "id"; "법령해석일련번호";
      "안건명"; "안건번호"; "질의기관코드"; "질의기관명"; "해석기관코드"; "해석기관명"; "해석일자"; "데이터기준일시"; "법령해석상세링크"];
    sf_detail_fields := fields ["법령해석일련번호"; "안건명"; "안건번호"; "해석일자"; "해석기관코드"; "해석기관명"; "질의기관코드";
      "질의기관명"; "관리기관코드"; "등록일시"; "질의요지"; "회답"; "이유"; "관련법령"; "데이터기준일시"];
    sf_history_mode := HistoryNone; sf_detail_mode := RevisionId;
    sf_metadata_only := false; sf_rights_basis := u "law_open_data_legal_information_reuse" |}].

Definition ministry_families_3 : list SourceFamily := [
  {| sf_dataset := MofaInterpretation; sf_target := u "mofaCgmExpc";
    sf_list_path := u "/DRF/lawSearch.do"; sf_detail_path := Some (u "/DRF/lawService.do");
    sf_list_guide := u "cgmExpcMofaListGuide"; sf_detail_guide := Some (u "cgmExpcMofaInfoGuide");
    sf_row_tags := fields [];
    sf_id_fields := fields ["법령해석일련번호"];
    sf_revision_fields := fields ["법령해석일련번호"];
    sf_title_fields := fields ["안건명"];
    sf_body_fields := fields ["질의요지"; "회답"; "이유"; "관련법령"];
    sf_list_fields := fields ["target"; "키워드"; "section"; "totalCnt"; "page"; "id"; "법령해석일련번호";
      "안건명"; "안건번호"; "질의기관코드"; "질의기관명"; "해석기관코드"; "해석기관명"; "해석일자"; "데이터기준일시"; "법령해석상세링크"];
    sf_detail_fields := fields ["법령해석일련번호"; "안건명"; "안건번호"; "해석일자"; "해석기관코드"; "해석기관명"; "질의기관코드";
      "질의기관명"; "관리기관코드"; "등록일시"; "질의요지"; "회답"; "이유"; "관련법령"; "데이터기준일시"];
    sf_history_mode := HistoryNone; sf_detail_mode := RevisionId;
    sf_metadata_only := false; sf_rights_basis := u "law_open_data_legal_information_reuse" |};
  {| sf_dataset := MssInterpretation; sf_target := u "mssCgmExpc";
    sf_list_path := u "/DRF/lawSearch.do"; sf_detail_path := Some (u "/DRF/lawService.do");
    sf_list_guide := u "cgmExpcMssListGuide"; sf_detail_guide := Some (u "cgmExpcMssInfoGuide");
    sf_row_tags := fields [];
    sf_id_fields := fields ["법령해석일련번호"];
    sf_revision_fields := fields ["법령해석일련번호"];
    sf_title_fields := fields ["안건명"];
    sf_body_fields := fields ["질의요지"; "회답"; "이유"; "관련법령"];
    sf_list_fields := fields ["target"; "키워드"; "section"; "totalCnt"; "page"; "id"; "법령해석일련번호";
      "안건명"; "안건번호"; "질의기관코드"; "질의기관명"; "해석기관코드"; "해석기관명"; "해석일자"; "데이터기준일시"; "법령해석상세링크"];
    sf_detail_fields := fields ["법령해석일련번호"; "안건명"; "안건번호"; "해석일자"; "해석기관코드"; "해석기관명"; "질의기관코드";
      "질의기관명"; "관리기관코드"; "등록일시"; "질의요지"; "회답"; "이유"; "관련법령"; "데이터기준일시"];
    sf_history_mode := HistoryNone; sf_detail_mode := RevisionId;
    sf_metadata_only := false; sf_rights_basis := u "law_open_data_legal_information_reuse" |};
  {| sf_dataset := MouInterpretation; sf_target := u "mouCgmExpc";
    sf_list_path := u "/DRF/lawSearch.do"; sf_detail_path := Some (u "/DRF/lawService.do");
    sf_list_guide := u "cgmExpcMouListGuide"; sf_detail_guide := Some (u "cgmExpcMouInfoGuide");
    sf_row_tags := fields [];
    sf_id_fields := fields ["법령해석일련번호"];
    sf_revision_fields := fields ["법령해석일련번호"];
    sf_title_fields := fields ["안건명"];
    sf_body_fields := fields ["질의요지"; "회답"; "이유"; "관련법령"];
    sf_list_fields := fields ["target"; "키워드"; "section"; "totalCnt"; "page"; "id"; "법령해석일련번호";
      "안건명"; "안건번호"; "질의기관코드"; "질의기관명"; "해석기관코드"; "해석기관명"; "해석일자"; "데이터기준일시"; "법령해석상세링크"];
    sf_detail_fields := fields ["법령해석일련번호"; "안건명"; "안건번호"; "해석일자"; "해석기관코드"; "해석기관명"; "질의기관코드";
      "질의기관명"; "관리기관코드"; "등록일시"; "질의요지"; "회답"; "이유"; "관련법령"; "데이터기준일시"];
    sf_history_mode := HistoryNone; sf_detail_mode := RevisionId;
    sf_metadata_only := false; sf_rights_basis := u "law_open_data_legal_information_reuse" |};
  {| sf_dataset := MolegInterpretation; sf_target := u "molegCgmExpc";
    sf_list_path := u "/DRF/lawSearch.do"; sf_detail_path := Some (u "/DRF/lawService.do");
    sf_list_guide := u "cgmExpcMolegListGuide"; sf_detail_guide := Some (u "cgmExpcMolegInfoGuide");
    sf_row_tags := fields [];
    sf_id_fields := fields ["법령해석일련번호"];
    sf_revision_fields := fields ["법령해석일련번호"];
    sf_title_fields := fields ["안건명"];
    sf_body_fields := fields ["질의요지"; "회답"; "이유"; "관련법령"];
    sf_list_fields := fields ["target"; "키워드"; "section"; "totalCnt"; "page"; "id"; "법령해석일련번호";
      "안건명"; "안건번호"; "질의기관코드"; "질의기관명"; "해석기관코드"; "해석기관명"; "해석일자"; "데이터기준일시"; "법령해석상세링크"];
    sf_detail_fields := fields ["법령해석일련번호"; "안건명"; "안건번호"; "해석일자"; "해석기관코드"; "해석기관명"; "질의기관코드";
      "질의기관명"; "관리기관코드"; "등록일시"; "질의요지"; "회답"; "이유"; "관련법령"; "데이터기준일시"];
    sf_history_mode := HistoryNone; sf_detail_mode := RevisionId;
    sf_metadata_only := false; sf_rights_basis := u "law_open_data_legal_information_reuse" |};
  {| sf_dataset := MfdsInterpretation; sf_target := u "mfdsCgmExpc";
    sf_list_path := u "/DRF/lawSearch.do"; sf_detail_path := Some (u "/DRF/lawService.do");
    sf_list_guide := u "cgmExpcMfdsListGuide"; sf_detail_guide := Some (u "cgmExpcMfdsInfoGuide");
    sf_row_tags := fields [];
    sf_id_fields := fields ["법령해석일련번호"];
    sf_revision_fields := fields ["법령해석일련번호"];
    sf_title_fields := fields ["안건명"];
    sf_body_fields := fields ["질의요지"; "회답"; "이유"; "관련법령"];
    sf_list_fields := fields ["target"; "키워드"; "section"; "totalCnt"; "page"; "id"; "법령해석일련번호";
      "안건명"; "안건번호"; "질의기관코드"; "질의기관명"; "해석기관코드"; "해석기관명"; "해석일자"; "데이터기준일시"; "법령해석상세링크"];
    sf_detail_fields := fields ["법령해석일련번호"; "안건명"; "안건번호"; "해석일자"; "해석기관코드"; "해석기관명"; "질의기관코드";
      "질의기관명"; "관리기관코드"; "등록일시"; "질의요지"; "회답"; "이유"; "관련법령"; "데이터기준일시"];
    sf_history_mode := HistoryNone; sf_detail_mode := RevisionId;
    sf_metadata_only := false; sf_rights_basis := u "law_open_data_legal_information_reuse" |};
  {| sf_dataset := MpmInterpretation; sf_target := u "mpmCgmExpc";
    sf_list_path := u "/DRF/lawSearch.do"; sf_detail_path := Some (u "/DRF/lawService.do");
    sf_list_guide := u "cgmExpcMpmListGuide"; sf_detail_guide := Some (u "cgmExpcMpmInfoGuide");
    sf_row_tags := fields [];
    sf_id_fields := fields ["법령해석일련번호"];
    sf_revision_fields := fields ["법령해석일련번호"];
    sf_title_fields := fields ["안건명"];
    sf_body_fields := fields ["질의요지"; "회답"; "이유"; "관련법령"];
    sf_list_fields := fields ["target"; "키워드"; "section"; "totalCnt"; "page"; "id"; "법령해석일련번호";
      "안건명"; "안건번호"; "질의기관코드"; "질의기관명"; "해석기관코드"; "해석기관명"; "해석일자"; "데이터기준일시"; "법령해석상세링크"];
    sf_detail_fields := fields ["법령해석일련번호"; "안건명"; "안건번호"; "해석일자"; "해석기관코드"; "해석기관명"; "질의기관코드";
      "질의기관명"; "관리기관코드"; "등록일시"; "질의요지"; "회답"; "이유"; "관련법령"; "데이터기준일시"];
    sf_history_mode := HistoryNone; sf_detail_mode := RevisionId;
    sf_metadata_only := false; sf_rights_basis := u "law_open_data_legal_information_reuse" |};
  {| sf_dataset := KmaInterpretation; sf_target := u "kmaCgmExpc";
    sf_list_path := u "/DRF/lawSearch.do"; sf_detail_path := Some (u "/DRF/lawService.do");
    sf_list_guide := u "cgmExpcKmaListGuide"; sf_detail_guide := Some (u "cgmExpcKmaInfoGuide");
    sf_row_tags := fields [];
    sf_id_fields := fields ["법령해석일련번호"];
    sf_revision_fields := fields ["법령해석일련번호"];
    sf_title_fields := fields ["안건명"];
    sf_body_fields := fields ["질의요지"; "회답"; "이유"; "관련법령"];
    sf_list_fields := fields ["target"; "키워드"; "section"; "totalCnt"; "page"; "id"; "법령해석일련번호";
      "안건명"; "안건번호"; "질의기관코드"; "질의기관명"; "해석기관코드"; "해석기관명"; "해석일자"; "데이터기준일시"; "법령해석상세링크"];
    sf_detail_fields := fields ["법령해석일련번호"; "안건명"; "안건번호"; "해석일자"; "해석기관코드"; "해석기관명"; "질의기관코드";
      "질의기관명"; "관리기관코드"; "등록일시"; "질의요지"; "회답"; "이유"; "관련법령"; "데이터기준일시"];
    sf_history_mode := HistoryNone; sf_detail_mode := RevisionId;
    sf_metadata_only := false; sf_rights_basis := u "law_open_data_legal_information_reuse" |};
  {| sf_dataset := KhsInterpretation; sf_target := u "khsCgmExpc";
    sf_list_path := u "/DRF/lawSearch.do"; sf_detail_path := Some (u "/DRF/lawService.do");
    sf_list_guide := u "cgmExpcKhsListGuide"; sf_detail_guide := Some (u "cgmExpcKhsInfoGuide");
    sf_row_tags := fields [];
    sf_id_fields := fields ["법령해석일련번호"];
    sf_revision_fields := fields ["법령해석일련번호"];
    sf_title_fields := fields ["안건명"];
    sf_body_fields := fields ["질의요지"; "회답"; "이유"; "관련법령"];
    sf_list_fields := fields ["target"; "키워드"; "section"; "totalCnt"; "page"; "id"; "법령해석일련번호";
      "안건명"; "안건번호"; "질의기관코드"; "질의기관명"; "해석기관코드"; "해석기관명"; "해석일자"; "데이터기준일시"; "법령해석상세링크"];
    sf_detail_fields := fields ["법령해석일련번호"; "안건명"; "안건번호"; "해석일자"; "해석기관코드"; "해석기관명"; "질의기관코드";
      "질의기관명"; "관리기관코드"; "등록일시"; "질의요지"; "회답"; "이유"; "관련법령"; "데이터기준일시"];
    sf_history_mode := HistoryNone; sf_detail_mode := RevisionId;
    sf_metadata_only := false; sf_rights_basis := u "law_open_data_legal_information_reuse" |};
  {| sf_dataset := RdaInterpretation; sf_target := u "rdaCgmExpc";
    sf_list_path := u "/DRF/lawSearch.do"; sf_detail_path := Some (u "/DRF/lawService.do");
    sf_list_guide := u "cgmExpcRdaListGuide"; sf_detail_guide := Some (u "cgmExpcRdaInfoGuide");
    sf_row_tags := fields [];
    sf_id_fields := fields ["법령해석일련번호"];
    sf_revision_fields := fields ["법령해석일련번호"];
    sf_title_fields := fields ["안건명"];
    sf_body_fields := fields ["질의요지"; "회답"; "이유"; "관련법령"];
    sf_list_fields := fields ["target"; "키워드"; "section"; "totalCnt"; "page"; "id"; "법령해석일련번호";
      "안건명"; "안건번호"; "질의기관코드"; "질의기관명"; "해석기관코드"; "해석기관명"; "해석일자"; "데이터기준일시"; "법령해석상세링크"];
    sf_detail_fields := fields ["법령해석일련번호"; "안건명"; "안건번호"; "해석일자"; "해석기관코드"; "해석기관명"; "질의기관코드";
      "질의기관명"; "관리기관코드"; "등록일시"; "질의요지"; "회답"; "이유"; "관련법령"; "데이터기준일시"];
    sf_history_mode := HistoryNone; sf_detail_mode := RevisionId;
    sf_metadata_only := false; sf_rights_basis := u "law_open_data_legal_information_reuse" |};
  {| sf_dataset := NpaInterpretation; sf_target := u "npaCgmExpc";
    sf_list_path := u "/DRF/lawSearch.do"; sf_detail_path := Some (u "/DRF/lawService.do");
    sf_list_guide := u "cgmExpcNpaListGuide"; sf_detail_guide := Some (u "cgmExpcNpaInfoGuide");
    sf_row_tags := fields [];
    sf_id_fields := fields ["법령해석일련번호"];
    sf_revision_fields := fields ["법령해석일련번호"];
    sf_title_fields := fields ["안건명"];
    sf_body_fields := fields ["질의요지"; "회답"; "이유"; "관련법령"];
    sf_list_fields := fields ["target"; "키워드"; "section"; "totalCnt"; "page"; "id"; "법령해석일련번호";
      "안건명"; "안건번호"; "질의기관코드"; "질의기관명"; "해석기관코드"; "해석기관명"; "해석일자"; "데이터기준일시"; "법령해석상세링크"];
    sf_detail_fields := fields ["법령해석일련번호"; "안건명"; "안건번호"; "해석일자"; "해석기관코드"; "해석기관명"; "질의기관코드";
      "질의기관명"; "관리기관코드"; "등록일시"; "질의요지"; "회답"; "이유"; "관련법령"; "데이터기준일시"];
    sf_history_mode := HistoryNone; sf_detail_mode := RevisionId;
    sf_metadata_only := false; sf_rights_basis := u "law_open_data_legal_information_reuse" |}].

Definition agency_families : list SourceFamily := [
  {| sf_dataset := DapaInterpretation; sf_target := u "dapaCgmExpc";
    sf_list_path := u "/DRF/lawSearch.do"; sf_detail_path := Some (u "/DRF/lawService.do");
    sf_list_guide := u "cgmExpcDapaListGuide"; sf_detail_guide := Some (u "cgmExpcDapaInfoGuide");
    sf_row_tags := fields [];
    sf_id_fields := fields ["법령해석일련번호"];
    sf_revision_fields := fields ["법령해석일련번호"];
    sf_title_fields := fields ["안건명"];
    sf_body_fields := fields ["질의요지"; "회답"; "이유"; "관련법령"];
    sf_list_fields := fields ["target"; "키워드"; "section"; "totalCnt"; "page"; "id"; "법령해석일련번호";
      "안건명"; "안건번호"; "질의기관코드"; "질의기관명"; "해석기관코드"; "해석기관명"; "해석일자"; "데이터기준일시"; "법령해석상세링크"];
    sf_detail_fields := fields ["법령해석일련번호"; "안건명"; "안건번호"; "해석일자"; "해석기관코드"; "해석기관명"; "질의기관코드";
      "질의기관명"; "관리기관코드"; "등록일시"; "질의요지"; "회답"; "이유"; "관련법령"; "데이터기준일시"];
    sf_history_mode := HistoryNone; sf_detail_mode := RevisionId;
    sf_metadata_only := false; sf_rights_basis := u "law_open_data_legal_information_reuse" |};
  {| sf_dataset := MmaInterpretation; sf_target := u "mmaCgmExpc";
    sf_list_path := u "/DRF/lawSearch.do"; sf_detail_path := Some (u "/DRF/lawService.do");
    sf_list_guide := u "cgmExpcMmaListGuide"; sf_detail_guide := Some (u "cgmExpcMmaInfoGuide");
    sf_row_tags := fields [];
    sf_id_fields := fields ["법령해석일련번호"];
    sf_revision_fields := fields ["법령해석일련번호"];
    sf_title_fields := fields ["안건명"];
    sf_body_fields := fields ["질의요지"; "회답"; "이유"; "관련법령"];
    sf_list_fields := fields ["target"; "키워드"; "section"; "totalCnt"; "page"; "id"; "법령해석일련번호";
      "안건명"; "안건번호"; "질의기관코드"; "질의기관명"; "해석기관코드"; "해석기관명"; "해석일자"; "데이터기준일시"; "법령해석상세링크"];
    sf_detail_fields := fields ["법령해석일련번호"; "안건명"; "안건번호"; "해석일자"; "해석기관코드"; "해석기관명"; "질의기관코드";
      "질의기관명"; "관리기관코드"; "등록일시"; "질의요지"; "회답"; "이유"; "관련법령"; "데이터기준일시"];
    sf_history_mode := HistoryNone; sf_detail_mode := RevisionId;
    sf_metadata_only := false; sf_rights_basis := u "law_open_data_legal_information_reuse" |};
  {| sf_dataset := KfsInterpretation; sf_target := u "kfsCgmExpc";
    sf_list_path := u "/DRF/lawSearch.do"; sf_detail_path := Some (u "/DRF/lawService.do");
    sf_list_guide := u "cgmExpcKfsListGuide"; sf_detail_guide := Some (u "cgmExpcKfsInfoGuide");
    sf_row_tags := fields [];
    sf_id_fields := fields ["법령해석일련번호"];
    sf_revision_fields := fields ["법령해석일련번호"];
    sf_title_fields := fields ["안건명"];
    sf_body_fields := fields ["질의요지"; "회답"; "이유"; "관련법령"];
    sf_list_fields := fields ["target"; "키워드"; "section"; "totalCnt"; "page"; "id"; "법령해석일련번호";
      "안건명"; "안건번호"; "질의기관코드"; "질의기관명"; "해석기관코드"; "해석기관명"; "해석일자"; "데이터기준일시"; "법령해석상세링크"];
    sf_detail_fields := fields ["법령해석일련번호"; "안건명"; "안건번호"; "해석일자"; "해석기관코드"; "해석기관명"; "질의기관코드";
      "질의기관명"; "관리기관코드"; "등록일시"; "질의요지"; "회답"; "이유"; "관련법령"; "데이터기준일시"];
    sf_history_mode := HistoryNone; sf_detail_mode := RevisionId;
    sf_metadata_only := false; sf_rights_basis := u "law_open_data_legal_information_reuse" |};
  {| sf_dataset := NfaInterpretation; sf_target := u "nfaCgmExpc";
    sf_list_path := u "/DRF/lawSearch.do"; sf_detail_path := Some (u "/DRF/lawService.do");
    sf_list_guide := u "cgmExpcNfaListGuide"; sf_detail_guide := Some (u "cgmExpcNfaInfoGuide");
    sf_row_tags := fields [];
    sf_id_fields := fields ["법령해석일련번호"];
    sf_revision_fields := fields ["법령해석일련번호"];
    sf_title_fields := fields ["안건명"];
    sf_body_fields := fields ["질의요지"; "회답"; "이유"; "관련법령"];
    sf_list_fields := fields ["target"; "키워드"; "section"; "totalCnt"; "page"; "id"; "법령해석일련번호";
      "안건명"; "안건번호"; "질의기관코드"; "질의기관명"; "해석기관코드"; "해석기관명"; "해석일자"; "데이터기준일시"; "법령해석상세링크"];
    sf_detail_fields := fields ["법령해석일련번호"; "안건명"; "안건번호"; "해석일자"; "해석기관코드"; "해석기관명"; "질의기관코드";
      "질의기관명"; "관리기관코드"; "등록일시"; "질의요지"; "회답"; "이유"; "관련법령"; "데이터기준일시"];
    sf_history_mode := HistoryNone; sf_detail_mode := RevisionId;
    sf_metadata_only := false; sf_rights_basis := u "law_open_data_legal_information_reuse" |};
  {| sf_dataset := OkaInterpretation; sf_target := u "okaCgmExpc";
    sf_list_path := u "/DRF/lawSearch.do"; sf_detail_path := Some (u "/DRF/lawService.do");
    sf_list_guide := u "cgmExpcOkaListGuide"; sf_detail_guide := Some (u "cgmExpcOkaInfoGuide");
    sf_row_tags := fields [];
    sf_id_fields := fields ["법령해석일련번호"];
    sf_revision_fields := fields ["법령해석일련번호"];
    sf_title_fields := fields ["안건명"];
    sf_body_fields := fields ["질의요지"; "회답"; "이유"; "관련법령"];
    sf_list_fields := fields ["target"; "키워드"; "section"; "totalCnt"; "page"; "id"; "법령해석일련번호";
      "안건명"; "안건번호"; "질의기관코드"; "질의기관명"; "해석기관코드"; "해석기관명"; "해석일자"; "데이터기준일시"; "법령해석상세링크"];
    sf_detail_fields := fields ["법령해석일련번호"; "안건명"; "안건번호"; "해석일자"; "해석기관코드"; "해석기관명"; "질의기관코드";
      "질의기관명"; "관리기관코드"; "등록일시"; "질의요지"; "회답"; "이유"; "관련법령"; "데이터기준일시"];
    sf_history_mode := HistoryNone; sf_detail_mode := RevisionId;
    sf_metadata_only := false; sf_rights_basis := u "law_open_data_legal_information_reuse" |};
  {| sf_dataset := PpsInterpretation; sf_target := u "ppsCgmExpc";
    sf_list_path := u "/DRF/lawSearch.do"; sf_detail_path := Some (u "/DRF/lawService.do");
    sf_list_guide := u "cgmExpcPpsListGuide"; sf_detail_guide := Some (u "cgmExpcPpsInfoGuide");
    sf_row_tags := fields [];
    sf_id_fields := fields ["법령해석일련번호"];
    sf_revision_fields := fields ["법령해석일련번호"];
    sf_title_fields := fields ["안건명"];
    sf_body_fields := fields ["질의요지"; "회답"; "이유"; "관련법령"];
    sf_list_fields := fields ["target"; "키워드"; "section"; "totalCnt"; "page"; "id"; "법령해석일련번호";
      "안건명"; "안건번호"; "질의기관코드"; "질의기관명"; "해석기관코드"; "해석기관명"; "해석일자"; "데이터기준일시"; "법령해석상세링크"];
    sf_detail_fields := fields ["법령해석일련번호"; "안건명"; "안건번호"; "해석일자"; "해석기관코드"; "해석기관명"; "질의기관코드";
      "질의기관명"; "관리기관코드"; "등록일시"; "질의요지"; "회답"; "이유"; "관련법령"; "데이터기준일시"];
    sf_history_mode := HistoryNone; sf_detail_mode := RevisionId;
    sf_metadata_only := false; sf_rights_basis := u "law_open_data_legal_information_reuse" |};
  {| sf_dataset := KdcaInterpretation; sf_target := u "kdcaCgmExpc";
    sf_list_path := u "/DRF/lawSearch.do"; sf_detail_path := Some (u "/DRF/lawService.do");
    sf_list_guide := u "cgmExpcKdcaListGuide"; sf_detail_guide := Some (u "cgmExpcKdcaInfoGuide");
    sf_row_tags := fields [];
    sf_id_fields := fields ["법령해석일련번호"];
    sf_revision_fields := fields ["법령해석일련번호"];
    sf_title_fields := fields ["안건명"];
    sf_body_fields := fields ["질의요지"; "회답"; "이유"; "관련법령"];
    sf_list_fields := fields ["target"; "키워드"; "section"; "totalCnt"; "page"; "id"; "법령해석일련번호";
      "안건명"; "안건번호"; "질의기관코드"; "질의기관명"; "해석기관코드"; "해석기관명"; "해석일자"; "데이터기준일시"; "법령해석상세링크"];
    sf_detail_fields := fields ["법령해석일련번호"; "안건명"; "안건번호"; "해석일자"; "해석기관코드"; "해석기관명"; "질의기관코드";
      "질의기관명"; "관리기관코드"; "등록일시"; "질의요지"; "회답"; "이유"; "관련법령"; "데이터기준일시"];
    sf_history_mode := HistoryNone; sf_detail_mode := RevisionId;
    sf_metadata_only := false; sf_rights_basis := u "law_open_data_legal_information_reuse" |};
  {| sf_dataset := KostatInterpretation; sf_target := u "kostatCgmExpc";
    sf_list_path := u "/DRF/lawSearch.do"; sf_detail_path := Some (u "/DRF/lawService.do");
    sf_list_guide := u "cgmExpcKostatListGuide"; sf_detail_guide := Some (u "cgmExpcKostatInfoGuide");
    sf_row_tags := fields [];
    sf_id_fields := fields ["법령해석일련번호"];
    sf_revision_fields := fields ["법령해석일련번호"];
    sf_title_fields := fields ["안건명"];
    sf_body_fields := fields ["질의요지"; "회답"; "이유"; "관련법령"];
    sf_list_fields := fields ["target"; "키워드"; "section"; "totalCnt"; "page"; "id"; "법령해석일련번호";
      "안건명"; "안건번호"; "질의기관코드"; "질의기관명"; "해석기관코드"; "해석기관명"; "해석일자"; "데이터기준일시"; "법령해석상세링크"];
    sf_detail_fields := fields ["법령해석일련번호"; "안건명"; "안건번호"; "해석일자"; "해석기관코드"; "해석기관명"; "질의기관코드";
      "질의기관명"; "관리기관코드"; "등록일시"; "질의요지"; "회답"; "이유"; "관련법령"; "데이터기준일시"];
    sf_history_mode := HistoryNone; sf_detail_mode := RevisionId;
    sf_metadata_only := false; sf_rights_basis := u "law_open_data_legal_information_reuse" |};
  {| sf_dataset := KipoInterpretation; sf_target := u "kipoCgmExpc";
    sf_list_path := u "/DRF/lawSearch.do"; sf_detail_path := Some (u "/DRF/lawService.do");
    sf_list_guide := u "cgmExpcKipoListGuide"; sf_detail_guide := Some (u "cgmExpcKipoInfoGuide");
    sf_row_tags := fields [];
    sf_id_fields := fields ["법령해석일련번호"];
    sf_revision_fields := fields ["법령해석일련번호"];
    sf_title_fields := fields ["안건명"];
    sf_body_fields := fields ["질의요지"; "회답"; "이유"; "관련법령"];
    sf_list_fields := fields ["target"; "키워드"; "section"; "totalCnt"; "page"; "id"; "법령해석일련번호";
      "안건명"; "안건번호"; "질의기관코드"; "질의기관명"; "해석기관코드"; "해석기관명"; "해석일자"; "데이터기준일시"; "법령해석상세링크"];
    sf_detail_fields := fields ["법령해석일련번호"; "안건명"; "안건번호"; "해석일자"; "해석기관코드"; "해석기관명"; "질의기관코드";
      "질의기관명"; "관리기관코드"; "등록일시"; "질의요지"; "회답"; "이유"; "관련법령"; "데이터기준일시"];
    sf_history_mode := HistoryNone; sf_detail_mode := RevisionId;
    sf_metadata_only := false; sf_rights_basis := u "law_open_data_legal_information_reuse" |};
  {| sf_dataset := KcgInterpretation; sf_target := u "kcgCgmExpc";
    sf_list_path := u "/DRF/lawSearch.do"; sf_detail_path := Some (u "/DRF/lawService.do");
    sf_list_guide := u "cgmExpcKcgListGuide"; sf_detail_guide := Some (u "cgmExpcKcgInfoGuide");
    sf_row_tags := fields [];
    sf_id_fields := fields ["법령해석일련번호"];
    sf_revision_fields := fields ["법령해석일련번호"];
    sf_title_fields := fields ["안건명"];
    sf_body_fields := fields ["질의요지"; "회답"; "이유"; "관련법령"];
    sf_list_fields := fields ["target"; "키워드"; "section"; "totalCnt"; "page"; "id"; "법령해석일련번호";
      "안건명"; "안건번호"; "질의기관코드"; "질의기관명"; "해석기관코드"; "해석기관명"; "해석일자"; "데이터기준일시"; "법령해석상세링크"];
    sf_detail_fields := fields ["법령해석일련번호"; "안건명"; "안건번호"; "해석일자"; "해석기관코드"; "해석기관명"; "질의기관코드";
      "질의기관명"; "관리기관코드"; "등록일시"; "질의요지"; "회답"; "이유"; "관련법령"; "데이터기준일시"];
    sf_history_mode := HistoryNone; sf_detail_mode := RevisionId;
    sf_metadata_only := false; sf_rights_basis := u "law_open_data_legal_information_reuse" |}].

Definition appeal_families : list SourceFamily := [
  {| sf_dataset := NaaccInterpretation; sf_target := u "naaccCgmExpc";
    sf_list_path := u "/DRF/lawSearch.do"; sf_detail_path := Some (u "/DRF/lawService.do");
    sf_list_guide := u "cgmExpcNaaccListGuide"; sf_detail_guide := Some (u "cgmExpcNaaccInfoGuide");
    sf_row_tags := fields [];
    sf_id_fields := fields ["법령해석일련번호"];
    sf_revision_fields := fields ["법령해석일련번호"];
    sf_title_fields := fields ["안건명"];
    sf_body_fields := fields ["질의요지"; "회답"; "이유"; "관련법령"];
    sf_list_fields := fields ["target"; "키워드"; "section"; "totalCnt"; "page"; "id"; "법령해석일련번호";
      "안건명"; "안건번호"; "질의기관코드"; "질의기관명"; "해석기관코드"; "해석기관명"; "해석일자"; "데이터기준일시"; "법령해석상세링크"];
    sf_detail_fields := fields ["법령해석일련번호"; "안건명"; "안건번호"; "해석일자"; "해석기관코드"; "해석기관명"; "질의기관코드";
      "질의기관명"; "관리기관코드"; "등록일시"; "질의요지"; "회답"; "이유"; "관련법령"; "데이터기준일시"];
    sf_history_mode := HistoryNone; sf_detail_mode := RevisionId;
    sf_metadata_only := false; sf_rights_basis := u "law_open_data_legal_information_reuse" |};
  {| sf_dataset := TtSpecialAppeal; sf_target := u "ttSpecialDecc";
    sf_list_path := u "/DRF/lawSearch.do"; sf_detail_path := Some (u "/DRF/lawService.do");
    sf_list_guide := u "specialDeccTtListGuide"; sf_detail_guide := Some (u "specialDeccTtInfoGuide");
    sf_row_tags := fields ["decc"];
    sf_id_fields := fields ["특별행정심판재결례일련번호"];
    sf_revision_fields := fields ["특별행정심판재결례일련번호"];
    sf_title_fields := fields ["사건명"];
    sf_body_fields := fields ["주문"; "청구취지"; "이유"; "재결요지"; "관련법령"];
    sf_list_fields := fields ["target"; "키워드"; "section"; "totalCnt"; "page"; "deccid";
      "특별행정심판재결례일련번호"; "사건명"; "청구번호"; "처분일자"; "의결일자"; "처분청"; "재결청"; "재결구분명"; "재결구분코드"; "데이터기준일시";
      "행정심판재결례상세링크"];
    sf_detail_fields := fields ["특별행정심판재결례일련번호"; "사건명"; "사건번호"; "청구번호"; "처분일자"; "의결일자"; "처분청";
      "재결청"; "재결례유형명"; "재결례유형코드"; "세목"; "재결요지"; "따른결정"; "참조결정"; "주문"; "청구취지"; "이유"; "관련법령";
      "데이터기준일시"];
    sf_history_mode := HistoryNone; sf_detail_mode := RevisionId;
    sf_metadata_only := false; sf_rights_basis := u "law_open_data_legal_information_reuse" |};
  {| sf_dataset := KmstSpecialAppeal; sf_target := u "kmstSpecialDecc";
    sf_list_path := u "/DRF/lawSearch.do"; sf_detail_path := Some (u "/DRF/lawService.do");
    sf_list_guide := u "specialDeccKmstListGuide"; sf_detail_guide := Some (u "specialDeccKmstInfoGuide");
    sf_row_tags := fields ["decc"];
    sf_id_fields := fields ["특별행정심판재결례일련번호"];
    sf_revision_fields := fields ["특별행정심판재결례일련번호"];
    sf_title_fields := fields ["사건명"];
    sf_body_fields := fields ["주문"; "청구취지"; "이유"; "재결요지"; "관련법령"];
    sf_list_fields := fields ["target"; "키워드"; "section"; "totalCnt"; "page"; "deccid";
      "특별행정심판재결례일련번호"; "사건명"; "재결번호"; "처분일자"; "의결일자"; "처분청"; "재결청"; "재결구분명"; "재결구분코드"; "데이터기준일시";
      "행정심판재결례상세링크"];
    sf_detail_fields := fields ["특별행정심판재결례일련번호"; "사건명"; "사건번호"; "처분일자"; "의결일자"; "처분청"; "재결청";
      "재결례유형명"; "재결례유형코드"; "재결번호"; "주문"; "청구취지"; "이유"; "해양사고관련자"; "심판관"; "사고유형"; "선박유형"; "해심위치";
      "재심청구안내"; "별지"; "의결종류"; "재결위원회"; "데이터기준일시"];
    sf_history_mode := HistoryNone; sf_detail_mode := RevisionId;
    sf_metadata_only := false; sf_rights_basis := u "law_open_data_legal_information_reuse" |};
  {| sf_dataset := AcrSpecialAppeal; sf_target := u "acrSpecialDecc";
    sf_list_path := u "/DRF/lawSearch.do"; sf_detail_path := Some (u "/DRF/lawService.do");
    sf_list_guide := u "specialDeccAcrListGuide"; sf_detail_guide := Some (u "specialDeccAcrInfoGuide");
    sf_row_tags := fields ["decc"];
    sf_id_fields := fields ["특별행정심판재결례일련번호"];
    sf_revision_fields := fields ["특별행정심판재결례일련번호"];
    sf_title_fields := fields ["사건명"];
    sf_body_fields := fields ["주문"; "청구취지"; "이유"; "재결요지"; "관련법령"];
    sf_list_fields := fields ["target"; "키워드"; "section"; "totalCnt"; "page"; "deccid";
      "특별행정심판재결례일련번호"; "사건명"; "사건번호"; "처분일자"; "의결일자"; "처분청"; "재결청"; "재결구분명"; "재결구분코드"; "데이터기준일시";
      "행정심판재결례상세링크"];
    sf_detail_fields := fields ["특별행정심판재결례일련번호"; "사건명"; "사건번호"; "처분일자"; "의결일자"; "처분청"; "재결청";
      "재결례유형명"; "재결례유형코드"; "주문"; "청구취지"; "이유"; "재결요지"; "상위처분청코드"; "상위처분청"; "관계법령"; "원본다운로드URL";
      "데이터기준일시"];
    sf_history_mode := HistoryNone; sf_detail_mode := RevisionId;
    sf_metadata_only := false; sf_rights_basis := u "law_open_data_legal_information_reuse" |};
  {| sf_dataset := AdapSpecialAppeal; sf_target := u "adapSpecialDecc";
    sf_list_path := u "/DRF/lawSearch.do"; sf_detail_path := Some (u "/DRF/lawService.do");
    sf_list_guide := u "specialDeccAdapListGuide"; sf_detail_guide := Some (u "specialDeccAdapInfoGuide");
    sf_row_tags := fields ["decc"];
    sf_id_fields := fields ["특별행정심판재결례일련번호"];
    sf_revision_fields := fields ["특별행정심판재결례일련번호"];
    sf_title_fields := fields ["사건명"];
    sf_body_fields := fields ["주문"; "청구취지"; "이유"; "재결요지"; "관련법령"];
    sf_list_fields := fields ["target"; "키워드"; "section"; "totalCnt"; "page"; "deccid";
      "특별행정심판재결례일련번호"; "사건명"; "사건번호"; "처분일자"; "의결일자"; "처분청"; "재결청"; "재결구분명"; "재결구분코드"; "데이터기준일시";
      "행정심판재결례상세링크"];
    sf_detail_fields := fields ["특별행정심판재결례일련번호"; "사건명"; "사건번호"; "처분일자"; "의결일자"; "처분청"; "재결청";
      "재결례유형명"; "재결례유형코드"; "주문"; "청구취지"; "이유"; "재결요지"; "소청사례명"; "처분요지"; "소청이유"; "소청인"; "피소청인";
      "주문"; "이유"; "원처분"; "결정유형"; "대분류"; "중분류"; "소분류"; "데이터기준일자"];
    sf_history_mode := HistoryNone; sf_detail_mode := RevisionId;
    sf_metadata_only := false; sf_rights_basis := u "law_open_data_legal_information_reuse" |};
  {| sf_dataset := AuditConsultation; sf_target := u "baiPvcs";
    sf_list_path := u "/DRF/lawSearch.do"; sf_detail_path := Some (u "/DRF/lawService.do");
    sf_list_guide := u "baiPvcsListGuide"; sf_detail_guide := Some (u "baiPvcsInfoGuide");
    sf_row_tags := fields ["baiPvcs"];
    sf_id_fields := fields ["감사원사전컨설팅의견서일련번호"; "감사원사전컨설팅일련번호"];
    sf_revision_fields := fields ["감사원사전컨설팅의견서일련번호"; "감사원사전컨설팅일련번호"];
    sf_title_fields := fields ["의견서명"];
    sf_body_fields := fields ["개요"; "요지"; "판단기준"; "검토결과"; "종합의견"];
    sf_list_fields := fields ["target"; "키워드"; "section"; "totalCnt"; "page"; "baiPvcsid";
      "감사원사전컨설팅의견서일련번호"; "의견서명"; "회신일자"; "신청기관명"; "접수번호"; "데이터기준일시"; "감사원사전컨설팅의견서상세링크"];
    sf_detail_fields := fields ["감사원사전컨설팅의견서일련번호"; "의견서명"; "회신일자"; "요청기관명"; "접수번호"; "개요"; "요지";
      "판단기준"; "검토결과"; "종합의견"; "데이터기준일자"];
    sf_history_mode := HistoryNone; sf_detail_mode := RevisionId;
    sf_metadata_only := false; sf_rights_basis := u "law_open_data_legal_information_reuse" |}].

Definition SOURCE_FAMILIES : list SourceFamily :=
  law_families
  ++ rule_families
  ++ committee_families
  ++ ministry_families_1
  ++ ministry_families_2
  ++ ministry_families_3
  ++ agency_families
  ++ appeal_families.

Definition family_index (dataset : Dataset) : nat :=
  match dataset with
  | NationalStatute => 0
  | AdministrativeRule => 1
  | Ordinance => 2
  | Treaty => 3
  | Precedent => 4
  | ConstitutionalDecision => 5
  | LegalInterpretation => 6
  | AdministrativeAppeal => 7
  | EnglishStatute => 8
  | SchoolRule => 9
  | LocalPublicCorporationRule => 10
  | PublicInstitutionRule => 11
  | LegalTerm => 12
  | PpcDecision => 13
  | EiacDecision => 14
  | FtcDecision => 15
  | AcrDecision => 16
  | FscDecision => 17
  | NlrcDecision => 18
  | KccDecision => 19
  | IaciacDecision => 20
  | OcltDecision => 21
  | EccDecision => 22
  | SfcDecision => 23
  | NhrckDecision => 24
  | MoelInterpretation => 25
  | MolitInterpretation => 26
  | MoefInterpretation => 27
  | MofInterpretation => 28
  | MoisInterpretation => 29
  | MeInterpretation => 30
  | KcsInterpretation => 31
  | NtsInterpretation => 32
  | MoeInterpretation => 33
  | MsitInterpretation => 34
  | MpvaInterpretation => 35
  | MndInterpretation => 36
  | MafraInterpretation => 37
  | McstInterpretation => 38
  | MojInterpretation => 39
  | MohwInterpretation => 40
  | MotieInterpretation => 41
  | MogefInterpretation => 42
  | MofaInterpretation => 43
  | MssInterpretation => 44
  | MouInterpretation => 45
  | MolegInterpretation => 46
  | MfdsInterpretation => 47
  | MpmInterpretation => 48
  | KmaInterpretation => 49
  | KhsInterpretation => 50
  | RdaInterpretation => 51
  | NpaInterpretation => 52
  | DapaInterpretation => 53
  | MmaInterpretation => 54
  | KfsInterpretation => 55
  | NfaInterpretation => 56
  | OkaInterpretation => 57
  | PpsInterpretation => 58
  | KdcaInterpretation => 59
  | KostatInterpretation => 60
  | KipoInterpretation => 61
  | KcgInterpretation => 62
  | NaaccInterpretation => 63
  | TtSpecialAppeal => 64
  | KmstSpecialAppeal => 65
  | AcrSpecialAppeal => 66
  | AdapSpecialAppeal => 67
  | AuditConsultation => 68
  end%nat.

(** Indexing the table would panic out of range; [source_family_found] shows
    that no data family reaches the default. *)
Definition no_family : SourceFamily :=
  {| sf_dataset := NationalStatute; sf_target := []; sf_list_path := [];
    sf_detail_path := None; sf_list_guide := []; sf_detail_guide := None; sf_row_tags := [];
    sf_id_fields := []; sf_revision_fields := []; sf_title_fields := []; sf_body_fields := [];
    sf_list_fields := []; sf_detail_fields := []; sf_history_mode := HistoryNone;
    sf_detail_mode := RevisionId; sf_metadata_only := false; sf_rights_basis := [] |}.

Definition source_family (dataset : Dataset) : SourceFamily :=
  nth (family_index dataset) SOURCE_FAMILIES no_family.

(** * The guides *)

Definition guides_1 : list GuideEntry := [
  {| ge_guide := u "lsEfYdListGuide"; ge_kind := OriginalList; ge_path := u "/DRF/lawSearch.do";
    ge_target := u "eflaw"; ge_reason := u "finite_documented_original_inventory";
    ge_request_fields := fields ["OC"; "target"; "type"; "search"; "query"; "nw"; "LID";
      "display"; "page"; "sort"; "efYd"; "date"; "ancYd"; "ancNo"; "rrClsCd"; "nb"; "org"; "knd";
      "gana"; "popYn"];
    ge_response_fields := fields ["target"; "키워드"; "section"; "totalCnt"; "page"; "lawid";
      "법령일련번호"; "현행연혁코드"; "법령명한글"; "법령약칭명"; "법령ID"; "공포일자"; "공포번호"; "제개정구분명"; "소관부처코드"; "소관부처명";
      "법령구분명"; "공동부령구분"; "공포번호"; "시행일자"; "자법타법여부"; "법령상세링크"] |};
  {| ge_guide := u "lsEfYdInfoGuide"; ge_kind := OriginalDetail; ge_path := u "/DRF/lawService.do";
    ge_target := u "eflaw"; ge_reason := u "documented_original_body_view";
    ge_request_fields := fields ["OC"; "target"; "type"; "ID"; "MST"; "efYd"; "JO"; "chrClsCd"];
    ge_response_fields := fields ["법령ID"; "공포일자"; "공포번호"; "언어"; "법종구분"; "법종구분코드"; "법령명_한글";
      "법령명_한자"; "법령명약칭"; "편장절관"; "소관부처코드"; "소관부처"; "전화번호"; "시행일자"; "제개정구분"; "조문시행일자문자열";
      "별표시행일자문자열"; "별표편집여부"; "공포법령여부"; "소관부처명"; "소관부처코드"; "부서명"; "부서연락처"; "공동부령구분"; "구분코드";
      "공포번호"; "조문번호"; "조문가지번호"; "조문여부"; "조문제목"; "조문시행일자"; "조문제개정유형"; "조문이동이전"; "조문이동이후"; "조문변경여부";
      "조문내용"; "항번호"; "항제개정유형"; "항제개정일자문자열"; "항내용"; "호번호"; "호내용"; "목번호"; "목내용"; "조문참고자료"; "부칙공포일자";
      "부칙공포번호"; "부칙내용"; "별표번호"; "별표가지번호"; "별표구분"; "별표제목"; "별표제목문자열"; "별표시행일자"; "별표서식파일링크";
      "별표HWP파일명"; "별표서식PDF파일링크"; "별표PDF파일명"; "별표서식이미지파일링크"; "별표이미지파일명"; "별표내용"; "개정문내용";
      "제개정이유내용"] |};
  {| ge_guide := u "lsNwListGuide"; ge_kind := RepresentationAlias; ge_path := u "/DRF/lawSearch.do";
    ge_target := u "law"; ge_reason := u "same_original_or_approved_custom_subset";
    ge_request_fields := fields ["OC"; "target"; "type"; "search"; "query"; "display"; "page";
      "sort"; "date"; "efYd"; "ancYd"; "ancNo"; "rrClsCd"; "nb"; "org"; "knd"; "lsChapNo"; "gana";
      "popYn"];
    ge_response_fields := fields ["target"; "키워드"; "section"; "totalCnt"; "page"; "lawid";
      "법령일련번호"; "현행연혁코드"; "법령명한글"; "법령약칭명"; "법령ID"; "공포일자"; "공포번호"; "제개정구분명"; "소관부처명"; "소관부처코드";
      "법령구분명"; "공동부령구분"; "공포번호"; "시행일자"; "자법타법여부"; "법령상세링크"] |};
  {| ge_guide := u "lsNwInfoGuide"; ge_kind := RepresentationAlias; ge_path := u "/DRF/lawService.do";
    ge_target := u "law"; ge_reason := u "same_original_or_approved_custom_subset";
    ge_request_fields := fields ["OC"; "target"; "type"; "ID"; "MST"; "LM"; "LD"; "LN"; "JO";
      "LANG"];
    ge_response_fields := fields ["법령ID"; "공포일자"; "공포번호"; "언어"; "법종구분"; "법종구분코드"; "법령명_한글";
      "법령명_한자"; "법령명약칭"; "제명변경여부"; "한글법령여부"; "편장절관"; "소관부처코드"; "소관부처"; "전화번호"; "시행일자"; "제개정구분";
      "별표편집여부"; "공포법령여부"; "소관부처명"; "소관부처코드"; "부서명"; "부서연락처"; "공동부령구분"; "구분코드"; "공포번호"; "조문번호";
      "조문가지번호"; "조문여부"; "조문제목"; "조문시행일자"; "조문제개정유형"; "조문이동이전"; "조문이동이후"; "조문변경여부"; "조문내용"; "항번호";
      "항제개정유형"; "항제개정일자문자열"; "항내용"; "호번호"; "호내용"; "목번호"; "목내용"; "조문참고자료"; "부칙공포일자"; "부칙공포번호";
      "부칙내용"; "별표번호"; "별표가지번호"; "별표구분"; "별표제목"; "별표서식파일링크"; "별표HWP파일명"; "별표서식PDF파일링크"; "별표PDF파일명";
      "별표서식이미지파일링크"; "별표이미지파일명"; "별표내용"; "개정문내용"; "제개정이유내용"] |};
  {| ge_guide := u "lsHstListGuide"; ge_kind := RepresentationAlias; ge_path := u "/DRF/lawSearch.do";
    ge_target := u "lsHistory"; ge_reason := u "same_original_or_approved_custom_subset";
    ge_request_fields := fields ["OC"; "target"; "type"; "query"; "display"; "page"; "sort";
      "efYd"; "date"; "ancYd"; "ancNo"; "rrClsCd"; "org"; "knd"; "lsChapNo"; "gana"; "popYn"];
    ge_response_fields := fields [] |};
  {| ge_guide := u "lsHstInfoGuide"; ge_kind := RepresentationAlias; ge_path := u "/DRF/lawService.do";
    ge_target := u "lsHistory"; ge_reason := u "same_original_or_approved_custom_subset";
    ge_request_fields := fields ["OC"; "target"; "type"; "ID"; "MST"; "LM"; "LD"; "LN";
      "chrClsCd"];
    ge_response_fields := fields [] |};
  {| ge_guide := u "lsEfYdJoListGuide"; ge_kind := RepresentationAlias; ge_path := u "/DRF/lawService.do";
    ge_target := u "eflawjosub"; ge_reason := u "same_original_or_approved_custom_subset";
    ge_request_fields := fields ["OC"; "target"; "type"; "ID"; "MST"; "efYd"; "JO"; "HANG"; "HO";
      "MOK"];
    ge_response_fields := fields ["법령키"; "법령ID"; "공포일자"; "공포번호"; "언어"; "법종구분"; "법종구분코드"; "법령명_한글";
      "법령명_한자"; "법령명_영어"; "편장절관"; "소관부처코드"; "소관부처"; "전화번호"; "시행일자"; "제개정구분"; "제안구분"; "의결구분";
      "적용시작일자"; "적용종료일자"; "이전법령명"; "조문시행일자문자열"; "별표시행일자문자열"; "별표편집여부"; "공포법령여부"; "조문번호"; "조문여부";
      "조문제목"; "조문시행일자"; "조문이동이전"; "조문이동이후"; "조문변경여부"; "조문내용"; "항번호"; "항내용"; "호번호"; "호내용"; "목번호";
      "목내용"] |};
  {| ge_guide := u "lsNwJoListGuide"; ge_kind := RepresentationAlias; ge_path := u "/DRF/lawService.do";
    ge_target := u "lawjosub"; ge_reason := u "same_original_or_approved_custom_subset";
    ge_request_fields := fields ["OC"; "target"; "type"; "ID"; "MST"; "JO"; "HANG"; "HO"; "MOK"];
    ge_response_fields := fields ["법령키"; "법령ID"; "공포일자"; "공포번호"; "언어"; "법령명_한글"; "법령명_한자";
      "법종구분코드"; "법종구분명"; "제명변경여부"; "한글법령여부"; "편장절관"; "소관부처코드"; "소관부처"; "전화번호"; "시행일자"; "제개정구분";
      "제안구분"; "의결구분"; "이전법령명"; "조문별시행일자"; "조문시행일자문자열"; "별표시행일자문자열"; "별표편집여부"; "공포법령여부";
      "시행일기준편집여부"; "조문번호"; "조문여부"; "조문제목"; "조문시행일자"; "조문이동이전"; "조문이동이후"; "조문변경여부"; "조문내용"; "항번호";
      "항내용"; "호번호"; "호내용"; "목번호"; "목내용"] |};
  {| ge_guide := u "lsEngListGuide"; ge_kind := OriginalList; ge_path := u "/DRF/lawSearch.do";
    ge_target := u "elaw"; ge_reason := u "finite_documented_original_inventory";
    ge_request_fields := fields ["OC"; "target"; "search"; "query"; "display"; "page"; "sort";
      "date"; "efYd"; "ancYd"; "ancNo"; "rrClsCd"; "nb"; "org"; "knd"; "gana"; "type"; "popYn"];
    ge_response_fields := fields ["target"; "키워드"; "section"; "totalCnt"; "page"; "lawid";
      "법령일련번호"; "현행연혁코드"; "법령명한글"; "법령명영문"; "법령ID"; "공포일자"; "공포번호"; "제개정구분명"; "소관부처명"; "법령구분명";
      "시행일자"; "자법타법여부"; "법령상세링크"] |};
  {| ge_guide := u "lsEngInfoGuide"; ge_kind := OriginalDetail; ge_path := u "/DRF/lawService.do";
    ge_target := u "elaw"; ge_reason := u "documented_original_body_view";
    ge_request_fields := fields ["OC"; "target"; "ID"; "MST"; "LM"; "LD"; "LN"; "type"];
    ge_response_fields := fields [] |};
  {| ge_guide := u "lsChgListGuide"; ge_kind := NeedsVerification; ge_path := u "/DRF/lawSearch.do";
    ge_target := u "lsHstInf"; ge_reason := u "complete_change_date_universe_not_documented";
    ge_request_fields := fields ["OC"; "target"; "type"; "regDt"; "org"; "display"; "page";
      "popYn"];
    ge_response_fields := fields ["target"; "totalCnt"; "page"; "lawid"; "법령일련번호"; "현행연혁코드";
      "법령명한글"; "법령ID"; "공포일자"; "공포번호"; "제개정구분명"; "소관부처코드"; "소관부처명"; "법령구분명"; "시행일자"; "자법타법여부";
      "법령상세링크"] |};
  {| ge_guide := u "lsDayJoRvsListGuide"; ge_kind := NeedsVerification; ge_path := u "/DRF/lawSearch.do";
    ge_target := u "lsJoHstInf"; ge_reason := u "complete_change_date_universe_not_documented";
    ge_request_fields := fields ["OC"; "target"; "type"; "regDt"; "fromRegDt"; "toRegDt"; "ID";
      "JO"; "org"; "page"];
    ge_response_fields := fields ["target"; "totalCnt"; "lawid"; "법령일련번호"; "법령명한글"; "법령ID";
      "공포일자"; "공포번호"; "제개정구분명"; "소관부처명"; "소관부처코드"; "법령구분명"; "시행일자"; "jonum"; "조문정보"; "조문번호";
      "변경사유"; "조문링크"; "조문변경이력상세링크"; "조문개정일"; "조문시행일"] |};
  {| ge_guide := u "lsJoChgListGuide"; ge_kind := IdentifiedSupplement; ge_path := u "/DRF/lawService.do";
    ge_target := u "lsJoHstInf"; ge_reason := u "requires_observed_parent_identifiers_or_provision_locators";
    ge_request_fields := fields ["OC"; "target"; "type"; "ID"; "JO"; "display"; "page"];
    ge_response_fields := fields ["법령ID"; "법령명한글"; "법령일련번호"; "공포일자"; "공포번호"; "제개정구분명"; "소관부처명";
      "소관부처코드"; "법령구분명"; "시행일자"; "조문번호"; "변경사유"; "조문링크"; "조문변경일"] |};
  {| ge_guide := u "lsOrdinConListGuide"; ge_kind := FiniteMetadata; ge_path := u "/DRF/lawSearch.do";
    ge_target := u "lnkLs"; ge_reason := u "finite_inventory_or_metadata_page";
    ge_request_fields := fields ["OC"; "target"; "type"; "query"; "display"; "page"; "sort";
      "popYn"];
    ge_response_fields := fields ["target"; "키워드"; "section"; "totalCnt"; "page"; "lawid";
      "법령일련번호"; "법령명한글"; "법령ID"; "공포일자"; "공포번호"; "제개정구분명"; "법령구분명"; "시행일자"; "법령조번호"; "자치법규일련번호";
      "자치법규명"; "자치법규조번호"; "자치법규ID"; "자치법규종류"] |};
  {| ge_guide := u "lsOrdinConGuide"; ge_kind := FiniteMetadata; ge_path := u "/DRF/lawSearch.do";
    ge_target := u "drlaw"; ge_reason := u "single_html_relationship_status_snapshot";
    ge_request_fields := fields ["OC"; "target"; "type"];
    ge_response_fields := fields [] |};
  {| ge_guide := u "lsDelegated"; ge_kind := IdentifiedSupplement; ge_path := u "/DRF/lawService.do";
    ge_target := u "lsDelegated"; ge_reason := u "requires_observed_parent_identifiers_or_provision_locators";
    ge_request_fields := fields ["OC"; "target"; "type"; "ID"; "MST"];
    ge_response_fields := fields ["법령일련번호"; "법령명"; "법령ID"; "공포일자"; "공포번호"; "소관부처코드"; "전화번호";
      "시행일자"; "조문번호"; "조문제목"; "위임구분"; "위임법령일련번호"; "위임법령제목"; "위임법령조문번호"; "위임법령조문가지번호"; "위임법령조문제목";
      "링크텍스트"; "라인텍스트"; "조항호목"; "위임행정규칙일련번호"; "위임행정규칙제목"; "위임자치법규일련번호"; "위임자치법규제목"; "위임규정일련번호";
      "위임규정제목"; "조약일련번호"; "조약제목"] |};
  {| ge_guide := u "lsStmdListGuide"; ge_kind := FiniteMetadata; ge_path := u "/DRF/lawSearch.do";
    ge_target := u "lsStmd"; ge_reason := u "finite_inventory_or_metadata_page";
    ge_request_fields := fields ["OC"; "target"; "type"; "query"; "display"; "page"; "sort";
      "efYd"; "ancYd"; "date"; "nb"; "ancNo"; "rrClsCd"; "org"; "knd"; "gana"; "popYn"];
    ge_response_fields := fields ["target"; "키워드"; "section"; "totalCnt"; "page"; "numOfRows";
      "resultCode"; "resultMsg"; "lawid"; "법령일련번호"; "법령명"; "법령ID"; "공포일자"; "공포번호"; "제개정구분명";
      "소관부처코드"; "소관부처명"; "법령구분명"; "시행일자"; "본문상세링크"] |};
  {| ge_guide := u "lsStmdInfoGuide"; ge_kind := IdentifiedSupplement; ge_path := u "/DRF/lawService.do";
    ge_target := u "lsStmd"; ge_reason := u "requires_observed_parent_identifiers_or_provision_locators";
    ge_request_fields := fields ["OC"; "target"; "type"; "ID"; "MST"; "LM"; "LD"; "LN"];
    ge_response_fields := fields ["기본정보"; "법령ID"; "법령일련번호"; "공포일자"; "공포번호"; "법종구분"; "법령명"; "시행일자";
      "제개정구분"; "상하위법"; "법률"; "시행령"; "시행규칙"; "본문상세링크"] |};
  {| ge_guide := u "oldAndNewListGuide"; ge_kind := FiniteMetadata; ge_path := u "/DRF/lawSearch.do";
    ge_target := u "oldAndNew"; ge_reason := u "finite_inventory_or_metadata_page";
    ge_request_fields := fields ["OC"; "target"; "type"; "query"; "display"; "page"; "sort";
      "efYd"; "ancYd"; "date"; "nb"; "ancNo"; "rrClsCd"; "org"; "knd"; "gana"; "popYn"];
    ge_response_fields := fields ["target"; "키워드"; "section"; "totalCnt"; "page"; "numOfRows";
      "resultCode"; "resultMsg"; "oldAndNewid"; "신구법일련번호"; "현행연혁구분"; "신구법명"; "신구법ID"; "공포일자";
      "공포번호"; "제개정구분명"; "소관부처코드"; "소관부처명"; "법령구분명"; "시행일자"; "신구법상세링크"] |};
  {| ge_guide := u "oldAndNewInfoGuide"; ge_kind := IdentifiedSupplement; ge_path := u "/DRF/lawService.do";
    ge_target := u "oldAndNew"; ge_reason := u "requires_observed_parent_identifiers_or_provision_locators";
    ge_request_fields := fields ["OC"; "target"; "type"; "ID"; "MST"; "LM"; "LD"; "LN"];
    ge_response_fields := fields ["구조문_기본정보"; "법령일련번호"; "법령ID"; "시행일자"; "공포일자"; "공포번호"; "현행여부";
      "제개정구분명"; "법령명"; "법종구분"; "신조문_기본정보"; "구조문목록"; "조문"; "신조문목록"; "조문"; "신구법존재여부"] |};
  {| ge_guide := u "thdCmpListGuide"; ge_kind := FiniteMetadata; ge_path := u "/DRF/lawSearch.do";
    ge_target := u "thdCmp"; ge_reason := u "finite_inventory_or_metadata_page";
    ge_request_fields := fields ["OC"; "target"; "type"; "query"; "display"; "page"; "sort";
      "efYd"; "ancYd"; "date"; "nb"; "ancNo"; "rrClsCd"; "org"; "knd"; "gana"; "popYn"];
    ge_response_fields := fields ["target"; "키워드"; "section"; "totalCnt"; "page"; "numOfRows";
      "resultCode"; "resultMsg"; "thdCmpid"; "삼단비교일련번호"; "법령명한글"; "법령ID"; "공포일자"; "공포번호";
      "제개정구분명"; "소관부처코드"; "소관부처명"; "법령구분명"; "시행일자"; "인용조문_삼단비교상세링크"; "위임조문_삼단비교상세링크"] |};
  {| ge_guide := u "thdCmpInfoGuide"; ge_kind := IdentifiedSupplement; ge_path := u "/DRF/lawService.do";
    ge_target := u "thdCmp"; ge_reason := u "requires_observed_parent_identifiers_or_provision_locators";
    ge_request_fields := fields ["OC"; "target"; "type"; "knd"; "ID"; "MST"; "LM"; "LD"; "LN"];
    ge_response_fields := fields ["기본정보"; "법령ID"; "시행령ID"; "시행규칙ID"; "법령명"; "시행령명"; "시행규칙명";
      "법령요약정보"; "시행령요약정보"; "시행규칙요약정보"; "삼단비교기준"; "삼단비교존재여부"; "시행일자"; "관련삼단비교목록"; "목록명";
      "삼단비교목록상세링크"; "인용조문삼단비교"; "법률조문"; "조번호"; "조가지번호"; "조제목"; "조내용"; "시행령조문목록"; "시행령조문";
      "시행규칙조문목록"; "시행규칙조문"; "위임행정규칙목록"; "위임행정규칙"; "위임행정규칙명"; "위임행정규칙일련번호"; "위임행정규칙조번호";
      "위임행정규칙조가지번호"; "법령일련번호"; "공포일자"; "공포번호"; "법종구분"; "제개정구분"; "기준법법령명"; "기준법령목록"; "위임3비교상세링크";
      "위임조문삼단비교"] |};
  {| ge_guide := u "lsAbrvListGuide"; ge_kind := FiniteMetadata; ge_path := u "/DRF/lawSearch.do";
    ge_target := u "lsAbrv"; ge_reason := u "finite_inventory_or_metadata_page";
    ge_request_fields := fields ["OC"; "target"; "type"; "stdDt"; "endDt"];
    ge_response_fields := fields ["target"; "totalCnt"; "lawid"; "법령일련번호"; "현행연혁코드"; "법령명한글";
      "법령약칭명"; "법령ID"; "공포일자"; "공포번호"; "제개정구분명"; "소관부처명"; "소관부처코드"; "법령구분명"; "시행일자"; "등록일";
      "자법타법여부"; "법령상세링크"] |};
  {| ge_guide := u "datDelHstGuide"; ge_kind := NeedsVerification; ge_path := u "/DRF/lawSearch.do";
    ge_target := u "delHst"; ge_reason := u "request_table_target_datDel_conflicts_with_sample_delHst";
    ge_request_fields := fields ["OC"; "target"; "type"; "display"; "page"; "knd"; "delDt";
      "frmDttoDt"];
    ge_response_fields := fields ["target"; "totalCnt"; "page"; "lawid"; "일련번호"; "구분명"; "삭제일자"] |};
  {| ge_guide := u "oneViewListGuide"; ge_kind := FiniteMetadata; ge_path := u "/DRF/lawSearch.do";
    ge_target := u "oneview"; ge_reason := u "finite_inventory_or_metadata_page";
    ge_request_fields := fields ["OC"; "target"; "type"; "query"; "display"; "page"];
    ge_response_fields := fields ["target"; "키워드"; "section"; "totalCnt"; "page"; "법령id";
      "법령일련번호"; "법령명"; "공포일자"; "공포번호"; "시행일자"; "제공건수"; "제공일자"] |};
  {| ge_guide := u "oneViewInfoGuide"; ge_kind := IdentifiedSupplement; ge_path := u "/DRF/lawService.do";
    ge_target := u "oneview"; ge_reason := u "requires_observed_parent_identifiers_or_provision_locators";
    ge_request_fields := fields ["OC"; "target"; "type"; "MST"; "LM"; "LD"; "LN"; "JO"];
    ge_response_fields := fields ["패턴일련번호"; "법령일련번호"; "법령명"; "공포일자"; "공포번호"; "조문시행일자"; "최초제공일자";
      "조번호"; "조제목"; "콘텐츠제목"; "링크텍스트"; "링크URL"] |};
  {| ge_guide := u "admrulListGuide"; ge_kind := OriginalList; ge_path := u "/DRF/lawSearch.do";
    ge_target := u "admrul"; ge_reason := u "finite_documented_original_inventory";
    ge_request_fields := fields ["OC"; "target"; "type"; "nw"; "search"; "query"; "display";
      "page"; "org"; "knd"; "gana"; "sort"; "date"; "prmlYd"; "modYd"; "nb"; "popYn"];
    ge_response_fields := fields ["target"; "키워드"; "section"; "totalCnt"; "page"; "admrulid";
      "행정규칙일련번호"; "행정규칙명"; "행정규칙종류"; "발령일자"; "발령번호"; "소관부처명"; "현행연혁구분"; "제개정구분코드"; "제개정구분명";
      "행정규칙ID"; "행정규칙상세링크"; "시행일자"; "생성일자"] |};
  {| ge_guide := u "admrulInfoGuide"; ge_kind := OriginalDetail; ge_path := u "/DRF/lawService.do";
    ge_target := u "admrul"; ge_reason := u "documented_original_body_view";
    ge_request_fields := fields ["OC"; "target"; "type"; "ID"; "LID"; "LM"];
    ge_response_fields := fields ["행정규칙일련번호"; "행정규칙명"; "행정규칙종류"; "행정규칙종류코드"; "발령일자"; "발령번호";
      "제개정구분명"; "제개정구분코드"; "조문형식여부"; "행정규칙ID"; "소관부처명"; "소관부처코드"; "상위부처명"; "담당부서기관코드"; "담당부서기관명";
      "담당자명"; "전화번호"; "현행여부"; "시행일자"; "생성일자"; "조문내용"; "부칙"; "부칙공포일자"; "부칙공포번호"; "부칙내용"; "별표";
      "별표번호"; "별표가지번호"; "별표구분"; "별표제목"; "별표서식파일링크"; "별표서식PDF파일링크"; "별표내용"; "첨부파일"; "첨부파일명";
      "첨부파일링크"] |};
  {| ge_guide := u "admrulOldAndNewListGuide"; ge_kind := FiniteMetadata; ge_path := u "/DRF/lawSearch.do";
    ge_target := u "admrulOldAndNew"; ge_reason := u "finite_inventory_or_metadata_page";
    ge_request_fields := fields ["OC"; "target"; "type"; "query"; "display"; "page"; "org"; "knd";
      "gana"; "sort"; "date"; "prmlYd"; "nb"; "popYn"];
    ge_response_fields := fields ["target"; "키워드"; "section"; "totalCnt"; "page"; "numOfRows";
      "resultCode"; "resultMsg"; "oldAndNewid"; "신구법일련번호"; "현행연혁구분"; "신구법명"; "신구법ID"; "발령일자";
      "발령번호"; "제개정구분명"; "소관부처코드"; "소관부처명"; "법령구분명"; "시행일자"; "신구법상세링크"] |};
  {| ge_guide := u "admrulOldAndNewInfoGuide"; ge_kind := IdentifiedSupplement; ge_path := u "/DRF/lawService.do";
    ge_target := u "admrulOldAndNew"; ge_reason := u "requires_observed_parent_identifiers_or_provision_locators";
    ge_request_fields := fields ["OC"; "target"; "type"; "ID"; "LID"; "LM"];
    ge_response_fields := fields ["구조문_기본정보"; "행정규칙일련번호"; "행정규칙ID"; "시행일자"; "발령일자"; "발령번호";
      "현행여부"; "제개정구분명"; "행정규칙명"; "행정규칙종류"; "신조문_기본정보"; "구조문목록"; "조문"; "신조문목록"; "조문"; "신구법존재여부"] |};
  {| ge_guide := u "ordinListGuide"; ge_kind := OriginalList; ge_path := u "/DRF/lawSearch.do";
    ge_target := u "ordin"; ge_reason := u "finite_documented_original_inventory";
    ge_request_fields := fields ["OC"; "target"; "type"; "nw"; "search"; "query"; "display";
      "page"; "sort"; "date"; "efYd"; "ancYd"; "ancNo"; "nb"; "org"; "sborg"; "knd"; "rrClsCd";
      "ordinFd"; "lsChapNo"; "gana"; "popYn"];
    ge_response_fields := fields ["자치법규일련번호"; "자치법규명"; "자치법규ID"; "공포일자"; "공포번호"; "제개정구분명";
      "지자체기관명"; "자치법규종류"; "시행일자"; "자치법규상세링크"; "자치법규분야명"; "참조데이터구분"; "기관코드"; "기관별분류유형CNT"; "분류seq";
      "분류명"; "해당자치법규갯수"] |};
  {| ge_guide := u "ordinInfoGuide"; ge_kind := OriginalDetail; ge_path := u "/DRF/lawService.do";
    ge_target := u "ordin"; ge_reason := u "documented_original_body_view";
    ge_request_fields := fields ["OC"; "type"; "target"; "ID"; "MST"];
    ge_response_fields := fields ["자치법규ID"; "자치법규일련번호"; "공포일자"; "공포번호"; "자치법규명"; "시행일자"; "자치법규종류";
      "지자체기관명"; "자치법규발의종류"; "담당부서명"; "전화번호"; "제개정정보"; "조문번호"; "조문여부"; "조제목"; "조내용"; "부칙공포일자";
      "부칙공포번호"; "부칙내용"; "부칙내용"; "별표"; "별표번호"; "별표가지번호"; "별표구분"; "별표제목"; "별표첨부파일명"; "별표내용";
      "개정문내용"; "제개정이유내용"] |};
  {| ge_guide := u "ordinLsConListGuide"; ge_kind := FiniteMetadata; ge_path := u "/DRF/lawSearch.do";
    ge_target := u "lnkOrd"; ge_reason := u "finite_inventory_or_metadata_page";
    ge_request_fields := fields ["OC"; "target"; "type"; "query"; "display"; "page"; "sort";
      "popYn"];
    ge_response_fields := fields ["target"; "키워드"; "section"; "totalCnt"; "page"; "lawid";
      "자치법규일련번호"; "자치법규명"; "자치법규ID"; "공포일자"; "공포번호"; "제개정구분명"; "자치법규종류"; "시행일자"; "법령명한글";
      "법령ID"] |};
  {| ge_guide := u "precListGuide"; ge_kind := OriginalList; ge_path := u "/DRF/lawSearch.do";
    ge_target := u "prec"; ge_reason := u "finite_documented_original_inventory";
    ge_request_fields := fields ["OC"; "target"; "type"; "search"; "query"; "display"; "page";
      "org"; "curt"; "JO"; "gana"; "sort"; "date"; "prncYd"; "nb"; "datSrcNm"; "popYn"];
    ge_response_fields := fields ["target"; "공포번호"; "키워드"; "section"; "totalCnt"; "page";
      "precid"; "판례일련번호"; "사건명"; "사건번호"; "선고일자"; "법원명"; "법원종류코드"; "사건종류명"; "사건종류코드"; "판결유형"; "선고";
      "데이터출처명"; "판례상세링크"] |};
  {| ge_guide := u "precInfoGuide"; ge_kind := OriginalDetail; ge_path := u "/DRF/lawService.do";
    ge_target := u "prec"; ge_reason := u "documented_original_body_view";
    ge_request_fields := fields ["OC"; "target"; "type"; "ID"; "LM"];
    ge_response_fields := fields ["판례정보일련번호"; "사건명"; "사건번호"; "선고일자"; "선고"; "법원명"; "법원종류코드";
      "사건종류명"; "사건종류코드"; "판결유형"; "판시사항"; "판결요지"; "참조조문"; "참조판례"; "판례내용"] |};
  {| ge_guide := u "detcListGuide"; ge_kind := OriginalList; ge_path := u "/DRF/lawSearch.do";
    ge_target := u "detc"; ge_reason := u "finite_documented_original_inventory";
    ge_request_fields := fields ["OC"; "target"; "type"; "search"; "query"; "display"; "page";
      "gana"; "sort"; "date"; "edYd"; "nb"; "popYn"];
    ge_response_fields := fields ["target"; "키워드"; "section"; "totalCnt"; "page"; "detcid";
      "헌재결정례일련번호"; "종국일자"; "사건번호"; "사건명"; "헌재결정례상세링크"] |};
  {| ge_guide := u "detcInfoGuide"; ge_kind := OriginalDetail; ge_path := u "/DRF/lawService.do";
    ge_target := u "detc"; ge_reason := u "documented_original_body_view";
    ge_request_fields := fields ["OC"; "target"; "type"; "ID"; "LM"];
    ge_response_fields := fields ["헌재결정례일련번호"; "종국일자"; "사건번호"; "사건명"; "사건종류명"; "사건종류코드";
      "재판부구분코드"; "판시사항"; "결정요지"; "전문"; "참조조문"; "참조판례"; "심판대상조문"] |};
  {| ge_guide := u "expcListGuide"; ge_kind := OriginalList; ge_path := u "/DRF/lawSearch.do";
    ge_target := u "expc"; ge_reason := u "finite_documented_original_inventory";
    ge_request_fields := fields ["OC"; "target"; "type"; "search"; "query"; "display"; "page";
      "inq"; "rpl"; "gana"; "itmno"; "regYd"; "explYd"; "sort"; "popYn"];
    ge_response_fields := fields ["target"; "키워드"; "section"; "totalCnt"; "page"; "expcid";
      "법령해석례일련번호"; "안건명"; "안건번호"; "질의기관코드"; "질의기관명"; "회신기관코드"; "회신기관명"; "회신일자"; "법령해석례상세링크"] |};
  {| ge_guide := u "expcInfoGuide"; ge_kind := OriginalDetail; ge_path := u "/DRF/lawService.do";
    ge_target := u "expc"; ge_reason := u "documented_original_body_view";
    ge_request_fields := fields ["OC"; "target"; "type"; "ID"; "LM"];
    ge_response_fields := fields ["법령해석례일련번호"; "안건명"; "안건번호"; "해석일자"; "해석기관코드"; "해석기관명"; "질의기관코드";
      "질의기관명"; "관리기관코드"; "등록일시"; "질의요지"; "회답"; "이유"] |};
  {| ge_guide := u "deccListGuide"; ge_kind := OriginalList; ge_path := u "/DRF/lawSearch.do";
    ge_target := u "decc"; ge_reason := u "finite_documented_original_inventory";
    ge_request_fields := fields ["OC"; "target"; "type"; "search"; "query"; "display"; "page";
      "cls"; "gana"; "date"; "dpaYd"; "rslYd"; "sort"; "popYn"];
    ge_response_fields := fields ["target"; "키워드"; "section"; "totalCnt"; "page"; "deccid";
      "행정심판재결례일련번호"; "사건명"; "사건번호"; "처분일자"; "의결일자"; "처분청"; "재결청"; "재결구분명"; "재결구분코드";
      "행정심판례상세링크"] |};
  {| ge_guide := u "deccInfoGuide"; ge_kind := OriginalDetail; ge_path := u "/DRF/lawService.do";
    ge_target := u "decc"; ge_reason := u "documented_original_body_view";
    ge_request_fields := fields ["OC"; "target"; "type"; "ID"; "LM"];
    ge_response_fields := fields ["행정심판례일련번호"; "사건명"; "사건번호"; "처분일자"; "의결일자"; "처분청"; "재결청";
      "재결례유형명"; "재결례유형코드"; "주문"; "청구취지"; "이유"; "재결요지"] |};
  {| ge_guide := u "ppcListGuide"; ge_kind := OriginalList; ge_path := u "/DRF/lawSearch.do";
    ge_target := u "ppc"; ge_reason := u "finite_documented_original_inventory";
    ge_request_fields := fields ["OC"; "target"; "type"; "search"; "query"; "display"; "page";
      "gana"; "sort"; "popYn"];
    ge_response_fields := fields ["target"; "키워드"; "section"; "totalCnt"; "page"; "기관명"; "ppcid";
      "결정문일련번호"; "안건명"; "의안번호"; "회의종류"; "결정구분"; "의결일"; "결정문상세링크"] |};
  {| ge_guide := u "ppcInfoGuide"; ge_kind := OriginalDetail; ge_path := u "/DRF/lawService.do";
    ge_target := u "ppc"; ge_reason := u "documented_original_body_view";
    ge_request_fields := fields ["OC"; "target"; "type"; "ID"];
    ge_response_fields := fields ["결정문일련번호"; "기관명"; "결정"; "회의종류"; "안건번호"; "안건명"; "신청인"; "의결연월일";
      "주문"; "이유"; "배경"; "이의제기방법및기간"; "주요내용"; "의결일자"; "위원서명"; "별지"; "결정요지"] |};
  {| ge_guide := u "eiacListGuide"; ge_kind := OriginalList; ge_path := u "/DRF/lawSearch.do";
    ge_target := u "eiac"; ge_reason := u "finite_documented_original_inventory";
    ge_request_fields := fields ["OC"; "target"; "type"; "search"; "query"; "display"; "page";
      "gana"; "sort"; "popYn"];
    ge_response_fields := fields ["target"; "키워드"; "section"; "totalCnt"; "page"; "기관명"; "eiacid";
      "결정문일련번호"; "사건명"; "사건번호"; "의결일자"; "결정문상세링크"] |};
  {| ge_guide := u "eiacInfoGuide"; ge_kind := OriginalDetail; ge_path := u "/DRF/lawService.do";
    ge_target := u "eiac"; ge_reason := u "documented_original_body_view";
    ge_request_fields := fields ["OC"; "target"; "type"; "ID"];
    ge_response_fields := fields ["결정문일련번호"; "사건의분류"; "의결서종류"; "개요"; "사건번호"; "사건명"; "청구인"; "대리인";
      "피청구인"; "이해관계인"; "심사결정심사관"; "주문"; "청구취지"; "이유"; "의결일자"; "기관명"; "별지"; "각주번호"; "각주내용"] |};
  {| ge_guide := u "ftcListGuide"; ge_kind := OriginalList; ge_path := u "/DRF/lawSearch.do";
    ge_target := u "ftc"; ge_reason := u "finite_documented_original_inventory";
    ge_request_fields := fields ["OC"; "target"; "type"; "search"; "query"; "display"; "page";
      "gana"; "sort"; "popYn"];
    ge_response_fields := fields ["target"; "키워드"; "section"; "totalCnt"; "page"; "기관명"; "ftcid";
      "결정문일련번호"; "사건명"; "사건번호"; "문서유형"; "회의종류"; "결정번호"; "결정일자"; "결정문상세링크"] |};
  {| ge_guide := u "ftcInfoGuide"; ge_kind := OriginalDetail; ge_path := u "/DRF/lawService.do";
    ge_target := u "ftc"; ge_reason := u "documented_original_body_view";
    ge_request_fields := fields ["OC"; "target"; "type"; "ID"];
    ge_response_fields := fields ["결정문일련번호"; "문서유형"; "사건번호"; "사건명"; "피심정보명"; "피심정보내용"; "회의종류";
      "결정번호"; "결정일자"; "원심결"; "재산정심결"; "후속심결"; "심의정보명"; "심의정보내용"; "의결문"; "주문"; "신청취지"; "이유";
      "의결일자"; "위원정보"; "각주번호"; "각주내용"; "별지"; "결정요지"; "의결서종류"; "시정권고참조법률"; "시정권고사항"; "시정권고이유";
      "법위반내용"; "적용법조"; "법령의적용"; "시정기한"; "수락여부통지기간"; "수락여부통지기한"; "수락거부시의조치"; "수락거부시조치방침"] |};
  {| ge_guide := u "acrListGuide"; ge_kind := OriginalList; ge_path := u "/DRF/lawSearch.do";
    ge_target := u "acr"; ge_reason := u "finite_documented_original_inventory";
    ge_request_fields := fields ["OC"; "target"; "type"; "search"; "query"; "display"; "page";
      "gana"; "sort"; "popYn"];
    ge_response_fields := fields ["target"; "키워드"; "section"; "totalCnt"; "page"; "기관명"; "acrid";
      "결정문일련번호"; "제목"; "민원표시명"; "의안번호"; "회의종류"; "결정구분"; "의결일"; "결정문상세링크"] |};
  {| ge_guide := u "acrInfoGuide"; ge_kind := OriginalDetail; ge_path := u "/DRF/lawService.do";
    ge_target := u "acr"; ge_reason := u "documented_original_body_view";
    ge_request_fields := fields ["OC"; "target"; "type"; "ID"];
    ge_response_fields := fields ["결정문일련번호"; "기관명"; "회의종류"; "결정구분"; "의안번호"; "민원표시"; "제목"; "신청인";
      "대리인"; "피신청인"; "관계기관"; "의결일"; "주문"; "이유"; "별지"; "의결문"; "의결일자"; "위원정보"; "결정요지"] |};
  {| ge_guide := u "fscListGuide"; ge_kind := OriginalList; ge_path := u "/DRF/lawSearch.do";
    ge_target := u "fsc"; ge_reason := u "finite_documented_original_inventory";
    ge_request_fields := fields ["OC"; "target"; "type"; "search"; "query"; "display"; "page";
      "gana"; "sort"; "popYn"];
    ge_response_fields := fields ["target"; "키워드"; "section"; "totalCnt"; "page"; "기관명"; "fscid";
      "결정문일련번호"; "안건명"; "의결번호"; "결정문상세링크"] |};
  {| ge_guide := u "fscInfoGuide"; ge_kind := OriginalDetail; ge_path := u "/DRF/lawService.do";
    ge_target := u "fsc"; ge_reason := u "documented_original_body_view";
    ge_request_fields := fields ["OC"; "target"; "type"; "ID"];
    ge_response_fields := fields ["결정문일련번호"; "기관명"; "의결번호"; "안건명"; "조치대상자의인적사항"; "조치대상"; "조치내용";
      "조치이유"; "각주번호"; "각주내용"] |};
  {| ge_guide := u "nlrcListGuide"; ge_kind := OriginalList; ge_path := u "/DRF/lawSearch.do";
    ge_target := u "nlrc"; ge_reason := u "finite_documented_original_inventory";
    ge_request_fields := fields ["OC"; "target"; "type"; "search"; "query"; "display"; "page";
      "gana"; "sort"; "popYn"];
    ge_response_fields := fields ["target"; "키워드"; "section"; "totalCnt"; "page"; "기관명"; "nlrcid";
      "결정문일련번호"; "제목"; "사건번호"; "등록일"; "결정문상세링크"] |};
  {| ge_guide := u "nlrcInfoGuide"; ge_kind := OriginalDetail; ge_path := u "/DRF/lawService.do";
    ge_target := u "nlrc"; ge_reason := u "documented_original_body_view";
    ge_request_fields := fields ["OC"; "target"; "type"; "ID"];
    ge_response_fields := fields ["결정문일련번호"; "기관명"; "사건번호"; "자료구분"; "담당부서"; "등록일"; "제목"; "내용";
      "판정사항"; "판정요지"; "판정결과"; "각주번호"; "각주내용"] |};
  {| ge_guide := u "kccListGuide"; ge_kind := OriginalList; ge_path := u "/DRF/lawSearch.do";
    ge_target := u "kcc"; ge_reason := u "finite_documented_original_inventory";
    ge_request_fields := fields ["OC"; "target"; "type"; "search"; "query"; "display"; "page";
      "gana"; "sort"; "popYn"];
    ge_response_fields := fields ["target"; "키워드"; "section"; "totalCnt"; "page"; "기관명"; "kccid";
      "결정문일련번호"; "안건명"; "안건번호"; "의결일자"; "결정문상세링크"] |};
  {| ge_guide := u "kccInfoGuide"; ge_kind := OriginalDetail; ge_path := u "/DRF/lawService.do";
    ge_target := u "kcc"; ge_reason := u "documented_original_body_view";
    ge_request_fields := fields ["OC"; "target"; "type"; "ID"];
    ge_response_fields := fields ["결정문일련번호"; "기관명"; "의결서유형"; "안건번호"; "사건번호"; "안건명"; "사건명"; "피심인";
      "피심의인"; "청구인"; "참고인"; "원심결정"; "의결일자"; "주문"; "이유"; "별지"; "문서제공구분"; "각주번호"; "각주내용"] |};
  {| ge_guide := u "iaciacListGuide"; ge_kind := OriginalList; ge_path := u "/DRF/lawSearch.do";
    ge_target := u "iaciac"; ge_reason := u "finite_documented_original_inventory";
    ge_request_fields := fields ["OC"; "target"; "type"; "search"; "query"; "display"; "page";
      "gana"; "sort"; "popYn"];
    ge_response_fields := fields ["target"; "키워드"; "section"; "totalCnt"; "page"; "기관명";
      "iaciacid"; "결정문일련번호"; "사건"; "사건번호"; "의결일자"; "결정문상세링크"] |};
  {| ge_guide := u "iaciacInfoGuide"; ge_kind := OriginalDetail; ge_path := u "/DRF/lawService.do";
    ge_target := u "iaciac"; ge_reason := u "documented_original_body_view";
    ge_request_fields := fields ["OC"; "target"; "type"; "ID"];
    ge_response_fields := fields ["결정문일련번호"; "사건대분류"; "사건중분류"; "사건소분류"; "쟁점"; "사건번호"; "의결일자";
      "사건"; "청구인"; "재해근로자"; "재해자"; "피재근로자"; "진폐근로자"; "수진자"; "원처분기관"; "주문"; "청구취지"; "이유"; "별지";
      "문서제공구분"; "각주번호"; "각주내용"] |};
  {| ge_guide := u "ocltListGuide"; ge_kind := OriginalList; ge_path := u "/DRF/lawSearch.do";
    ge_target := u "oclt"; ge_reason := u "finite_documented_original_inventory";
    ge_request_fields := fields ["OC"; "target"; "type"; "search"; "query"; "display"; "page";
      "gana"; "sort"; "popYn"];
    ge_response_fields := fields ["target"; "키워드"; "section"; "totalCnt"; "page"; "기관명"; "ocltid";
      "결정문일련번호"; "제목"; "결정문상세링크"] |};
  {| ge_guide := u "ocltInfoGuide"; ge_kind := OriginalDetail; ge_path := u "/DRF/lawService.do";
    ge_target := u "oclt"; ge_reason := u "documented_original_body_view";
    ge_request_fields := fields ["OC"; "target"; "type"; "ID"];
    ge_response_fields := fields ["결정문일련번호"; "제목"; "관련법리"; "관련규정"; "판단"; "근거"; "주해"; "각주번호";
      "각주내용"] |};
  {| ge_guide := u "eccListGuide"; ge_kind := OriginalList; ge_path := u "/DRF/lawSearch.do";
    ge_target := u "ecc"; ge_reason := u "finite_documented_original_inventory";
    ge_request_fields := fields ["OC"; "target"; "type"; "search"; "query"; "display"; "page";
      "gana"; "sort"; "popYn"];
    ge_response_fields := fields ["target"; "키워드"; "section"; "totalCnt"; "page"; "기관명"; "eccid";
      "결정문일련번호"; "사건명"; "의결번호"; "결정문상세링크"] |};
  {| ge_guide := u "eccInfoGuide"; ge_kind := OriginalDetail; ge_path := u "/DRF/lawService.do";
    ge_target := u "ecc"; ge_reason := u "documented_original_body_view";
    ge_request_fields := fields ["OC"; "target"; "type"; "ID"];
    ge_response_fields := fields ["결정문일련번호"; "의결번호"; "사건명"; "사건의개요"; "신청인"; "피신청인"; "분쟁의경과";
      "당사자주장"; "사실조사결과"; "평가의견"; "주문"; "이유"; "각주번호"; "각주내용"] |};
  {| ge_guide := u "sfcListGuide"; ge_kind := OriginalList; ge_path := u "/DRF/lawSearch.do";
    ge_target := u "sfc"; ge_reason := u "finite_documented_original_inventory";
    ge_request_fields := fields ["OC"; "target"; "type"; "search"; "query"; "display"; "page";
      "gana"; "sort"; "popYn"];
    ge_response_fields := fields ["target"; "키워드"; "section"; "totalCnt"; "page"; "기관명"; "sfcid";
      "결정문일련번호"; "안건명"; "의결번호"; "결정문상세링크"] |};
  {| ge_guide := u "sfcInfoGuide"; ge_kind := OriginalDetail; ge_path := u "/DRF/lawService.do";
    ge_target := u "sfc"; ge_reason := u "documented_original_body_view";
    ge_request_fields := fields ["OC"; "target"; "type"; "ID"];
    ge_response_fields := fields ["결정문일련번호"; "기관명"; "의결번호"; "안건명"; "조치대상자의인적사항"; "조치대상"; "조치내용";
      "조치이유"; "각주번호"; "각주내용"] |};
  {| ge_guide := u "nhrckListGuide"; ge_kind := OriginalList; ge_path := u "/DRF/lawSearch.do";
    ge_target := u "nhrck"; ge_reason := u "finite_documented_original_inventory";
    ge_request_fields := fields ["OC"; "target"; "type"; "search"; "query"; "display"; "page";
      "gana"; "sort"; "popYn"; "fields"];
    ge_response_fields := fields ["target"; "키워드"; "section"; "totalCnt"; "page"; "기관명";
      "nhrckid"; "결정문일련번호"; "사건명"; "사건번호"; "의결일자"; "데이터기준일시"; "결정문상세링크"] |};
  {| ge_guide := u "nhrckInfoGuide"; ge_kind := OriginalDetail; ge_path := u "/DRF/lawService.do";
    ge_target := u "nhrck"; ge_reason := u "documented_original_body_view";
    ge_request_fields := fields ["OC"; "target"; "type"; "ID"; "LM"; "fields"];
    ge_response_fields := fields ["결정문일련번호"; "기관명"; "위원회명"; "사건명"; "사건번호"; "의결일자"; "주문"; "이유";
      "위원정보"; "별지"; "결정요지"; "판단요지"; "주문요지"; "분류명"; "결정유형"; "신청인"; "피신청인"; "피해자"; "피조사자";
      "원본다운로드URL"; "바로보기URL"; "결정례전문"; "데이터기준일시"] |}].

Definition guides_2 : list GuideEntry := [
  {| ge_guide := u "trtyListGuide"; ge_kind := OriginalList; ge_path := u "/DRF/lawSearch.do";
    ge_target := u "trty"; ge_reason := u "finite_documented_original_inventory";
    ge_request_fields := fields ["OC"; "target"; "type"; "search"; "query"; "display"; "page";
      "gana"; "eftYd"; "concYd"; "cls"; "natCd"; "sort"; "popYn"];
    ge_response_fields := fields ["target"; "키워드"; "section"; "totalCnt"; "page"; "trtyid";
      "조약일련번호"; "조약명"; "조약구분코드"; "조약구분명"; "발효일자"; "서명일자"; "관보게제일자"; "조약번호"; "국가번호"; "조약상세링크"] |};
  {| ge_guide := u "trtyInfoGuide"; ge_kind := OriginalDetail; ge_path := u "/DRF/lawService.do";
    ge_target := u "trty"; ge_reason := u "documented_original_body_view";
    ge_request_fields := fields ["OC"; "target"; "type"; "ID"; "chrClsCd"];
    ge_response_fields := fields ["조약일련번호"; "조약명_한글"; "조약명_영문"; "조약구분코드"; "대통령재가일자"; "발효일자";
      "조약번호"; "관보게재일자"; "국무회의심의일자"; "국무회의심의회차"; "국회비준동의여부"; "국회비준동의일자"; "서명일자"; "서명장소"; "비고";
      "추가정보"; "체결대상국가"; "체결대상국가한글"; "우리측국내절차완료통보"; "상대국측국내절차완료통보"; "양자조약분야코드"; "양자조약분야명";
      "제2외국어종류"; "국가코드"; "조약내용"; "체결일자"; "체결장소"; "기탁처"; "다자조약분야코드"; "다자조약분야명"; "수락서기탁일자";
      "국내발효일자"] |};
  {| ge_guide := u "lsBylListGuide"; ge_kind := FiniteMetadata; ge_path := u "/DRF/lawSearch.do";
    ge_target := u "licbyl"; ge_reason := u "finite_inventory_or_metadata_page";
    ge_request_fields := fields ["OC"; "target"; "type"; "search"; "query"; "display"; "page";
      "sort"; "org"; "mulOrg"; "knd"; "gana"; "popYn"];
    ge_response_fields := fields ["target"; "키워드"; "section"; "totalCnt"; "page"; "licbylid";
      "별표일련번호"; "관련법령일련번호"; "관련법령ID"; "별표명"; "관련법령명"; "별표번호"; "별표종류"; "소관부처명"; "공포일자"; "공포번호";
      "제개정구분명"; "법령종류"; "별표서식파일링크"; "별표서식PDF파일링크"; "별표법령상세링크"] |};
  {| ge_guide := u "admrulBylListGuide"; ge_kind := FiniteMetadata; ge_path := u "/DRF/lawSearch.do";
    ge_target := u "admbyl"; ge_reason := u "finite_inventory_or_metadata_page";
    ge_request_fields := fields ["OC"; "target"; "type"; "search"; "query"; "display"; "page";
      "sort"; "org"; "knd"; "gana"; "popYn"];
    ge_response_fields := fields ["target"; "키워드"; "section"; "totalCnt"; "page"; "admrulbylid";
      "별표일련번호"; "관련행정규칙일련번호"; "별표명"; "관련행정규칙명"; "별표번호"; "별표종류"; "소관부처명"; "발령일자"; "발령번호"; "관련법령ID";
      "행정규칙종류"; "별표서식파일링크"; "별표행정규칙상세링크"] |};
  {| ge_guide := u "ordinBylListGuide"; ge_kind := FiniteMetadata; ge_path := u "/DRF/lawSearch.do";
    ge_target := u "ordinbyl"; ge_reason := u "finite_inventory_or_metadata_page";
    ge_request_fields := fields ["OC"; "target"; "type"; "search"; "query"; "display"; "page";
      "sort"; "org"; "sborg"; "knd"; "gana"; "popYn"];
    ge_response_fields := fields ["target"; "키워드"; "section"; "totalCnt"; "page"; "ordinbylid";
      "별표일련번호"; "관련자치법규일련번호"; "별표명"; "관련자치법규명"; "별표번호"; "별표종류"; "지자체기관명"; "전체기관명"; "자치법규시행일자";
      "공포일자"; "공포번호"; "제개정구분명"; "별표서식파일링크"; "별표자치법규상세링크"] |};
  {| ge_guide := u "schlPubRulListGuide"; ge_kind := OriginalList; ge_path := u "/DRF/lawSearch.do";
    ge_target := u "school"; ge_reason := u "finite_documented_original_inventory";
    ge_request_fields := fields ["OC"; "target"; "type"; "nw"; "search"; "query"; "display";
      "page"; "knd"; "rrClsCd"; "date"; "prmlYd"; "nb"; "gana"; "sort"; "popYn"];
    ge_response_fields := fields ["target"; "키워드"; "section"; "totalCnt"; "page"; "numOfRows";
      "resultCode"; "resultMsg"; "admrulid"; "행정규칙일련번호"; "행정규칙명"; "행정규칙종류"; "발령일자"; "발령번호";
      "소관부처명"; "현행연혁구분"; "제개정구분코드"; "제개정구분명"; "법령분류코드"; "법령분류명"; "행정규칙ID"; "행정규칙상세링크"; "시행일자";
      "생성일자"] |};
  {| ge_guide := u "schlPubRulInfoGuide"; ge_kind := OriginalDetail; ge_path := u "/DRF/lawService.do";
    ge_target := u "school"; ge_reason := u "documented_original_body_view";
    ge_request_fields := fields ["OC"; "target"; "type"; "ID"; "LID"; "LM"];
    ge_response_fields := fields ["행정규칙일련번호"; "행정규칙명"; "행정규칙종류"; "행정규칙종류코드"; "발령일자"; "발령번호";
      "제개정구분명"; "제개정구분코드"; "조문형식여부"; "행정규칙ID"; "소관부처명"; "소관부처코드"; "담당부서기관코드"; "담당부서기관명"; "담당자명";
      "전화번호"; "현행여부"; "생성일자"; "조문내용"; "부칙공포일자"; "부칙공포번호"; "부칙내용"; "별표단위별표키"; "별표번호"; "별표가지번호";
      "별표구분"; "별표제목"; "별표서식파일링크"; "개정문내용"; "제개정이유내용"] |};
  {| ge_guide := u "lsTrmListGuide"; ge_kind := OriginalList; ge_path := u "/DRF/lawSearch.do";
    ge_target := u "lstrm"; ge_reason := u "finite_documented_original_inventory";
    ge_request_fields := fields ["OC"; "target"; "type"; "query"; "display"; "page"; "sort";
      "regDt"; "gana"; "popYn"; "dicKndCd"];
    ge_response_fields := fields ["target"; "키워드"; "section"; "totalCnt"; "page"; "lstrmid";
      "법령용어ID"; "법령용어명"; "법령용어상세검색"; "사전구분코드"; "법령용어상세링크"; "법령종류코드"] |};
  {| ge_guide := u "lsTrmInfoGuide"; ge_kind := OriginalDetail; ge_path := u "/DRF/lawService.do";
    ge_target := u "lstrm"; ge_reason := u "documented_original_body_view";
    ge_request_fields := fields ["OC"; "target"; "type"; "query"];
    ge_response_fields := fields ["법령용어일련번호"; "법령용어명_한글"; "법령용어명_한자"; "법령용어코드"; "법령용어코드명"; "출처";
      "법령용어정의"] |};
  {| ge_guide := u "mobLsListGuide"; ge_kind := RepresentationAlias; ge_path := u "/DRF/lawSearch.do";
    ge_target := u "law"; ge_reason := u "same_original_or_approved_custom_subset";
    ge_request_fields := fields ["OC"; "target"; "type"; "search"; "query"; "display"; "page";
      "sort"; "date"; "efYd"; "ancYd"; "ancNo"; "rrClsCd"; "nb"; "org"; "knd"; "gana";
      "mobileYn"];
    ge_response_fields := fields ["target"; "키워드"; "section"; "totalCnt"; "page"; "lawid";
      "법령일련번호"; "현행연혁코드"; "법령명한글"; "법령약칭명"; "법령ID"; "공포일자"; "공포번호"; "제개정구분명"; "소관부처명"; "소관부처코드";
      "법령구분명"; "공동부령구분"; "공포번호"; "시행일자"; "자법타법여부"; "법령상세링크"] |};
  {| ge_guide := u "mobLsInfoGuide"; ge_kind := RepresentationAlias; ge_path := u "/DRF/lawService.do";
    ge_target := u "law"; ge_reason := u "same_original_or_approved_custom_subset";
    ge_request_fields := fields ["OC"; "target"; "ID"; "MST"; "LM"; "LD"; "LN"; "JO"; "PD"; "PN";
      "BD"; "BT"; "BN"; "BG"; "type"; "mobileYn"];
    ge_response_fields := fields [] |};
  {| ge_guide := u "mobAdmrulListguide"; ge_kind := RepresentationAlias; ge_path := u "/DRF/lawSearch.do";
    ge_target := u "admrul"; ge_reason := u "same_original_or_approved_custom_subset";
    ge_request_fields := fields ["OC"; "target"; "type"; "nw"; "search"; "query"; "display";
      "page"; "org"; "knd"; "gana"; "sort"; "date"; "prmlYd"; "nb"; "mobileYn"];
    ge_response_fields := fields ["target"; "키워드"; "section"; "totalCnt"; "page"; "admrulid";
      "행정규칙일련번호"; "행정규칙명"; "행정규칙종류"; "발령일자"; "발령번호"; "소관부처명"; "현행연혁구분"; "제개정구분코드"; "제개정구분명";
      "행정규칙ID"; "행정규칙상세링크"; "시행일자"; "생성일자"] |};
  {| ge_guide := u "mobAdmrulInfoGuide"; ge_kind := RepresentationAlias; ge_path := u "/DRF/lawService.do";
    ge_target := u "admrul"; ge_reason := u "same_original_or_approved_custom_subset";
    ge_request_fields := fields ["OC"; "target"; "ID"; "LM"; "type"; "mobileYn"];
    ge_response_fields := fields [] |};
  {| ge_guide := u "mobOrdinListGuide"; ge_kind := RepresentationAlias; ge_path := u "/DRF/lawSearch.do";
    ge_target := u "ordin"; ge_reason := u "same_original_or_approved_custom_subset";
    ge_request_fields := fields ["OC"; "target"; "type"; "nw"; "search"; "query"; "display";
      "page"; "sort"; "date"; "efYd"; "ancYd"; "ancNo"; "nb"; "org"; "sborg"; "knd"; "rrClsCd";
      "ordinFd"; "lsChapNo"; "gana"; "mobileYn"];
    ge_response_fields := fields ["target"; "키워드"; "section"; "totalCnt"; "page"; "lawid";
      "자치법규일련번호"; "자치법규명"; "자치법규ID"; "공포일자"; "공포번호"; "제개정구분명"; "지자체기관명"; "자치법규종류"; "시행일자";
      "자치법규상세링크"; "자치법규분야명"; "참조데이터구분"] |};
  {| ge_guide := u "mobOrdinInfoGuide"; ge_kind := RepresentationAlias; ge_path := u "/DRF/lawService.do";
    ge_target := u "ordin"; ge_reason := u "same_original_or_approved_custom_subset";
    ge_request_fields := fields ["OC"; "target"; "ID"; "MST"; "type"; "mobileYn"];
    ge_response_fields := fields [] |};
  {| ge_guide := u "mobPrecListGuide"; ge_kind := RepresentationAlias; ge_path := u "/DRF/lawSearch.do";
    ge_target := u "prec"; ge_reason := u "same_original_or_approved_custom_subset";
    ge_request_fields := fields ["OC"; "target"; "type"; "search"; "query"; "display"; "page";
      "org"; "curt"; "JO"; "gana"; "sort"; "date"; "prncYd"; "nb"; "datSrcNm"; "mobileYn"];
    ge_response_fields := fields ["target"; "키워드"; "section"; "totalCnt"; "page"; "precid";
      "판례일련번호"; "사건명"; "사건번호"; "선고일자"; "법원명"; "법원종류코드"; "사건종류명"; "사건종류코드"; "판결유형"; "선고"; "데이터출처명";
      "판례상세링크"] |};
  {| ge_guide := u "mobPrecInfoGuide"; ge_kind := RepresentationAlias; ge_path := u "/DRF/lawService.do";
    ge_target := u "prec"; ge_reason := u "same_original_or_approved_custom_subset";
    ge_request_fields := fields ["OC"; "target"; "ID"; "LM"; "type"; "mobileYn"];
    ge_response_fields := fields [] |};
  {| ge_guide := u "mobDetcListGuide"; ge_kind := RepresentationAlias; ge_path := u "/DRF/lawSearch.do";
    ge_target := u "detc"; ge_reason := u "same_original_or_approved_custom_subset";
    ge_request_fields := fields ["OC"; "target"; "type"; "search"; "query"; "display"; "page";
      "gana"; "sort"; "date"; "nb"; "mobileYn"];
    ge_response_fields := fields ["target"; "키워드"; "section"; "totalCnt"; "page"; "detcid";
      "헌재결정례일련번호"; "종국일자"; "사건번호"; "사건명"; "헌재결정례상세링크"] |};
  {| ge_guide := u "mobDetcInfoGuide"; ge_kind := RepresentationAlias; ge_path := u "/DRF/lawService.do";
    ge_target := u "detc"; ge_reason := u "same_original_or_approved_custom_subset";
    ge_request_fields := fields ["OC"; "target"; "ID"; "LM"; "type"; "mobileYn"];
    ge_response_fields := fields [] |};
  {| ge_guide := u "mobExpcListGuide"; ge_kind := RepresentationAlias; ge_path := u "/DRF/lawSearch.do";
    ge_target := u "expc"; ge_reason := u "same_original_or_approved_custom_subset";
    ge_request_fields := fields ["OC"; "target"; "type"; "search"; "query"; "display"; "page";
      "inq"; "rpl"; "gana"; "itmno"; "regYd"; "explYd"; "sort"; "mobileYn"];
    ge_response_fields := fields ["target"; "키워드"; "section"; "totalCnt"; "page"; "expcid";
      "법령해석례일련번호"; "안건명"; "안건번호"; "질의기관코드"; "질의기관명"; "회신기관코드"; "회신기관명"; "회신일자"; "법령해석례상세링크"] |};
  {| ge_guide := u "mobExpcInfoGuide"; ge_kind := RepresentationAlias; ge_path := u "/DRF/lawService.do";
    ge_target := u "expc"; ge_reason := u "same_original_or_approved_custom_subset";
    ge_request_fields := fields ["OC"; "target"; "ID"; "LM"; "type"; "mobileYn"];
    ge_response_fields := fields [] |};
  {| ge_guide := u "mobDeccListGuide"; ge_kind := RepresentationAlias; ge_path := u "/DRF/lawSearch.do";
    ge_target := u "decc"; ge_reason := u "same_original_or_approved_custom_subset";
    ge_request_fields := fields ["OC"; "target"; "type"; "search"; "query"; "display"; "page";
      "cls"; "gana"; "date"; "dpaYd"; "rslYd"; "sort"; "mobileYn"];
    ge_response_fields := fields ["target"; "키워드"; "section"; "totalCnt"; "page"; "deccid";
      "행정심판재결례일련번호"; "사건명"; "사건번호"; "처분일자"; "처분청"; "재결청"; "재결구분명"; "재결구분코드"; "행정심판례상세링크"] |};
  {| ge_guide := u "mobDeccInfoGuide"; ge_kind := RepresentationAlias; ge_path := u "/DRF/lawService.do";
    ge_target := u "decc"; ge_reason := u "same_original_or_approved_custom_subset";
    ge_request_fields := fields ["OC"; "target"; "ID"; "LM"; "type"; "mobileYn"];
    ge_response_fields := fields [] |};
  {| ge_guide := u "mobTrtyListGuide"; ge_kind := RepresentationAlias; ge_path := u "/DRF/lawSearch.do";
    ge_target := u "trty"; ge_reason := u "same_original_or_approved_custom_subset";
    ge_request_fields := fields ["OC"; "target"; "type"; "search"; "query"; "display"; "page";
      "gana"; "eftYd"; "concYd"; "cls"; "sort"; "mobileYn"];
    ge_response_fields := fields ["target"; "키워드"; "section"; "totalCnt"; "page"; "trtyid";
      "조약일련번호"; "조약명"; "조약구분코드"; "조약구분명"; "발효일자"; "서명일자"; "관보게재일자"; "조약번호"; "조약상세링크"] |};
  {| ge_guide := u "mobTrtyInfoGuide"; ge_kind := RepresentationAlias; ge_path := u "/DRF/lawService.do";
    ge_target := u "trty"; ge_reason := u "same_original_or_approved_custom_subset";
    ge_request_fields := fields ["OC"; "target"; "ID"; "type"; "mobileYn"];
    ge_response_fields := fields [] |};
  {| ge_guide := u "mobLsBylListGuide"; ge_kind := RepresentationAlias; ge_path := u "/DRF/lawSearch.do";
    ge_target := u "licbyl"; ge_reason := u "same_original_or_approved_custom_subset";
    ge_request_fields := fields ["OC"; "target"; "type"; "search"; "query"; "display"; "page";
      "sort"; "org"; "knd"; "gana"; "mobileYn"];
    ge_response_fields := fields [] |};
  {| ge_guide := u "mobAdmrulBylListGuide"; ge_kind := RepresentationAlias; ge_path := u "/DRF/lawSearch.do";
    ge_target := u "admbyl"; ge_reason := u "same_original_or_approved_custom_subset";
    ge_request_fields := fields ["OC"; "target"; "search"; "query"; "display"; "page"; "sort";
      "org"; "knd"; "gana"; "type"; "mobileYn"];
    ge_response_fields := fields [] |};
  {| ge_guide := u "mobOrdinBylListGuide"; ge_kind := RepresentationAlias; ge_path := u "/DRF/lawSearch.do";
    ge_target := u "ordinbyl"; ge_reason := u "same_original_or_approved_custom_subset";
    ge_request_fields := fields ["OC"; "target"; "search"; "query"; "display"; "page"; "sort";
      "org"; "knd"; "gana"; "type"; "mobileYn"];
    ge_response_fields := fields [] |};
  {| ge_guide := u "mobLsTrmListGuide"; ge_kind := RepresentationAlias; ge_path := u "/DRF/lawSearch.do";
    ge_target := u "lstrm"; ge_reason := u "same_original_or_approved_custom_subset";
    ge_request_fields := fields ["OC"; "target"; "query"; "display"; "page"; "sort"; "gana";
      "type"; "dicKndCd"; "mobileYn"];
    ge_response_fields := fields ["target"; "키워드"; "section"; "totalCnt"; "page"; "lstrmid";
      "법령용어ID"; "법령용어명"; "법령용어상세검색"; "사전구분코드"; "법령용어상세링크"; "법령종류코드"] |};
  {| ge_guide := u "custLsListGuide"; ge_kind := RepresentationAlias; ge_path := u "/DRF/lawSearch.do";
    ge_target := u "couseLs"; ge_reason := u "same_original_or_approved_custom_subset";
    ge_request_fields := fields ["OC"; "target"; "type"; "vcode"; "display"; "page"; "popYn"];
    ge_response_fields := fields ["target"; "vcode"; "section"; "totalCnt"; "page"; "lawid";
      "법령일련번호"; "법령명한글"; "법령ID"; "공포일자"; "공포번호"; "제개정구분명"; "소관부처명"; "소관부처코드"; "법령구분명"; "시행일자";
      "법령상세링크"] |};
  {| ge_guide := u "custLsJoListGuide"; ge_kind := RepresentationAlias; ge_path := u "/DRF/lawSearch.do";
    ge_target := u "couseLs"; ge_reason := u "same_original_or_approved_custom_subset";
    ge_request_fields := fields ["OC"; "target"; "type"; "vcode"; "display"; "page"; "popYn"];
    ge_response_fields := fields ["target"; "vcode"; "section"; "totalCnt"; "page"; "법령법령키";
      "법령ID"; "법령명한글"; "공포일자"; "공포번호"; "제개정구분명"; "법령구분명"; "시행일자"; "조문번호"; "조문가지번호"; "조문제목";
      "조문시행일자"; "조문제개정유형"; "조문제개정일자문자열"; "조문상세링크"] |};
  {| ge_guide := u "custAdmrulListGuide"; ge_kind := RepresentationAlias; ge_path := u "/DRF/lawSearch.do";
    ge_target := u "couseAdmrul"; ge_reason := u "same_original_or_approved_custom_subset";
    ge_request_fields := fields ["OC"; "target"; "type"; "vcode"; "display"; "page"; "popYn"];
    ge_response_fields := fields ["target"; "vcode"; "section"; "totalCnt"; "page"; "admrulid";
      "행정규칙일련번호"; "행정규칙명"; "행정규칙ID"; "발령일자"; "발령번호"; "행정규칙구분명"; "소관부처코드"; "소관부처명"; "제개정구분명";
      "행정규칙상세링크"] |};
  {| ge_guide := u "custAdmrulJoListGuide"; ge_kind := RepresentationAlias; ge_path := u "/DRF/lawSearch.do";
    ge_target := u "couseAdmrul"; ge_reason := u "same_original_or_approved_custom_subset";
    ge_request_fields := fields ["OC"; "target"; "type"; "vcode"; "display"; "page"; "popYn"];
    ge_response_fields := fields ["target"; "vcode"; "section"; "totalCnt"; "page"; "행정규칙일련번호";
      "행정규칙명"; "행정규칙ID"; "발령일자"; "발령번호"; "행정규칙구분명"; "소관부처명"; "제개정구분명"; "담당부서기관코드"; "담당부서기관명";
      "담당자명"; "전화번호"; "조문단위조문키"; "조문번호"; "조문가지번호"; "조문상세링크"] |};
  {| ge_guide := u "custOrdinListGuide"; ge_kind := RepresentationAlias; ge_path := u "/DRF/lawSearch.do";
    ge_target := u "couseOrdin"; ge_reason := u "same_original_or_approved_custom_subset";
    ge_request_fields := fields ["OC"; "target"; "type"; "vcode"; "display"; "page"; "popYn"];
    ge_response_fields := fields ["target"; "vcode"; "section"; "totalCnt"; "page"; "ordinid";
      "자치법규일련번호"; "자치법규명"; "자치법규ID"; "공포일자"; "공포번호"; "제개정구분명"; "자치법규종류"; "지자체기관명"; "시행일자";
      "자치법규분야명"; "자치법규상세링크"] |};
  {| ge_guide := u "custOrdinJoListGuide"; ge_kind := RepresentationAlias; ge_path := u "/DRF/lawSearch.do";
    ge_target := u "couseOrdin"; ge_reason := u "same_original_or_approved_custom_subset";
    ge_request_fields := fields ["OC"; "target"; "type"; "vcode"; "display"; "page"; "popYn"];
    ge_response_fields := fields ["target"; "vcode"; "section"; "totalCnt"; "page"; "자치법규일련번호";
      "자치법규명"; "자치법규ID"; "공포일자"; "공포번호"; "제개정구분명"; "자치법규종류"; "지자체기관명"; "시행일자"; "자치법규분야명";
      "조문단위조문키"; "조문번호"; "조문가지번호"; "조문제목"; "조문내용"] |};
  {| ge_guide := u "lstrmAIGuide"; ge_kind := FiniteMetadata; ge_path := u "/DRF/lawSearch.do";
    ge_target := u "lstrmAI"; ge_reason := u "finite_inventory_or_metadata_page";
    ge_request_fields := fields ["OC"; "target"; "type"; "query"; "display"; "page"; "homonymYn"];
    ge_response_fields := fields ["target"; "키워드"; "검색결과개수"; "section"; "page"; "numOfRows";
      "법령용어id"; "법령용어명"; "동음이의어존재여부"; "비고"; "용어간관계링크"; "조문간관계링크"] |};
  {| ge_guide := u "dlytrmGuide"; ge_kind := FiniteMetadata; ge_path := u "/DRF/lawSearch.do";
    ge_target := u "dlytrm"; ge_reason := u "finite_inventory_or_metadata_page";
    ge_request_fields := fields ["OC"; "target"; "type"; "query"; "display"; "page"];
    ge_response_fields := fields ["target"; "키워드"; "검색결과개수"; "section"; "page"; "numOfRows";
      "일상용어id"; "일상용어명"; "출처"; "용어간관계링크"] |};
  {| ge_guide := u "lstrmRltGuide"; ge_kind := IdentifiedSupplement; ge_path := u "/DRF/lawService.do";
    ge_target := u "lstrmRlt"; ge_reason := u "requires_observed_parent_identifiers_or_provision_locators";
    ge_request_fields := fields ["OC"; "target"; "type"; "query"; "MST"; "trmRltCd"];
    ge_response_fields := fields ["target"; "키워드"; "검색결과개수"; "법령용어id"; "법령용어명"; "비고"; "연계용어id";
      "일상용어명"; "용어관계코드"; "용어관계"; "일상용어조회링크"; "용어간관계링크"] |};
  {| ge_guide := u "dlytrmRltGuide"; ge_kind := IdentifiedSupplement; ge_path := u "/DRF/lawService.do";
    ge_target := u "dlytrmRlt"; ge_reason := u "requires_observed_parent_identifiers_or_provision_locators";
    ge_request_fields := fields ["OC"; "target"; "type"; "query"; "MST"; "trmRltCd"];
    ge_response_fields := fields ["target"; "키워드"; "검색결과개수"; "일상용어명"; "출처"; "연계용어id"; "법령용어명";
      "비고"; "용어관계코드"; "용어관계"; "용어간관계링크"; "조문간관계링크"] |};
  {| ge_guide := u "lstrmRltJoGuide"; ge_kind := IdentifiedSupplement; ge_path := u "/DRF/lawService.do";
    ge_target := u "lstrmRltJo"; ge_reason := u "requires_observed_parent_identifiers_or_provision_locators";
    ge_request_fields := fields ["OC"; "target"; "type"; "query"];
    ge_response_fields := fields ["target"; "키워드"; "검색결과개수"; "법령용어id"; "법령용어명"; "비고"; "용어간관계링크";
      "연계법령id"; "법령명"; "조번호"; "조가지번호"; "조문내용"; "용어구분코드"; "용어구분"; "조문연계용어링크"] |};
  {| ge_guide := u "joRltLstrmGuide"; ge_kind := IdentifiedSupplement; ge_path := u "/DRF/lawService.do";
    ge_target := u "joRltLstrm"; ge_reason := u "requires_observed_parent_identifiers_or_provision_locators";
    ge_request_fields := fields ["OC"; "target"; "type"; "query"; "ID"; "JO"];
    ge_response_fields := fields ["target"; "키워드"; "검색결과개수"; "법령조문id"; "법령명"; "조번호"; "조가지번호";
      "조문내용"; "연계용어id"; "법령용어명"; "비고"; "용어구분코드"; "용어구분"; "용어간관계링크"; "용어연계조문링크"] |};
  {| ge_guide := u "lsRltGuide"; ge_kind := IdentifiedSupplement; ge_path := u "/DRF/lawSearch.do";
    ge_target := u "lsRlt"; ge_reason := u "requires_observed_parent_identifiers_or_provision_locators";
    ge_request_fields := fields ["OC"; "target"; "type"; "query"; "ID"; "rltClsCd"];
    ge_response_fields := fields ["target"; "키워드"; "검색결과개수"; "기준법령ID"; "기준법령명"; "기준법령상세링크";
      "관련법령id"; "관련법령ID"; "관련법령명"; "법령간관계코드"; "법령간관계"; "관련법령상세링크"; "관련법령조회링크"] |};
  {| ge_guide := u "aiSearchGuide"; ge_kind := QueryOnly; ge_path := u "/DRF/lawSearch.do";
    ge_target := u "aiSearch"; ge_reason := u "query_space_not_finitely_enumerable";
    ge_request_fields := fields ["OC"; "target"; "type"; "search"; "query"; "display"; "page"];
    ge_response_fields := fields ["target"; "키워드"; "검색결과개수"; "법령조문ID"; "법령ID"; "법령일련번호"; "법령명";
      "시행일자"; "공포일자"; "공포번호"; "소관부처코드"; "소관부처명"; "법령종류명"; "제개정구분명"; "법령편장절관코드"; "조문일련번호"; "조문번호";
      "조문가지번호"; "조문제목"; "조문내용"; "법령별표서식ID"; "별표서식일련번호"; "별표서식번호"; "별표서식가지번호"; "별표서식제목";
      "별표서식구분코드"; "별표서식구분명"; "행정규칙조문ID"; "행정규칙일련번호"; "행정규칙ID"; "행정규칙명"; "발령일자"; "발령번호"; "시행일자";
      "발령기관명"; "행정규칙종류명"; "제개정구분명"; "조문일련번호"; "조문번호"; "조문가지번호"; "조문제목"; "조문내용"; "행정규칙별표서식ID";
      "별표서식일련번호"; "별표서식번호"; "별표서식가지번호"; "별표서식제목"; "별표서식구분코드"; "별표서식구분명"] |};
  {| ge_guide := u "aiRltLsGuide"; ge_kind := QueryOnly; ge_path := u "/DRF/lawSearch.do";
    ge_target := u "aiRltLs"; ge_reason := u "query_space_not_finitely_enumerable";
    ge_request_fields := fields ["OC"; "target"; "type"; "search"; "query"];
    ge_response_fields := fields ["target"; "키워드"; "검색결과개수"; "법령조문ID"; "법령ID"; "법령명"; "시행일자";
      "공포일자"; "공포번호"; "조문번호"; "조문가지번호"; "조문제목"; "행정규칙조문ID"; "행정규칙ID"; "행정규칙명"; "발령일자"; "발령번호";
      "조문번호"; "조문가지번호"; "조문제목"] |};
  {| ge_guide := u "cgmExpcMoelListGuide"; ge_kind := OriginalList; ge_path := u "/DRF/lawSearch.do";
    ge_target := u "moelCgmExpc"; ge_reason := u "finite_documented_original_inventory";
    ge_request_fields := fields ["OC"; "target"; "type"; "search"; "query"; "display"; "page";
      "inq"; "rpl"; "gana"; "itmno"; "explYd"; "sort"; "popYn"; "fields"];
    ge_response_fields := fields ["target"; "키워드"; "section"; "totalCnt"; "page"; "id";
      "법령해석일련번호"; "안건명"; "안건번호"; "질의기관코드"; "질의기관명"; "해석기관코드"; "해석기관명"; "해석일자"; "데이터기준일시";
      "법령해석상세링크"] |};
  {| ge_guide := u "cgmExpcMoelInfoGuide"; ge_kind := OriginalDetail; ge_path := u "/DRF/lawService.do";
    ge_target := u "moelCgmExpc"; ge_reason := u "documented_original_body_view";
    ge_request_fields := fields ["OC"; "target"; "type"; "ID"; "LM"; "fields"];
    ge_response_fields := fields ["법령해석일련번호"; "안건명"; "안건번호"; "해석일자"; "해석기관코드"; "해석기관명"; "질의기관코드";
      "질의기관명"; "관리기관코드"; "등록일시"; "질의요지"; "회답"; "이유"; "관련법령"; "데이터기준일시"] |};
  {| ge_guide := u "cgmExpcMolitListGuide"; ge_kind := OriginalList; ge_path := u "/DRF/lawSearch.do";
    ge_target := u "molitCgmExpc"; ge_reason := u "finite_documented_original_inventory";
    ge_request_fields := fields ["OC"; "target"; "type"; "search"; "query"; "display"; "page";
      "inq"; "rpl"; "gana"; "itmno"; "explYd"; "sort"; "popYn"; "fields"];
    ge_response_fields := fields ["target"; "키워드"; "section"; "totalCnt"; "page"; "id";
      "법령해석일련번호"; "안건명"; "안건번호"; "질의기관코드"; "질의기관명"; "해석기관코드"; "해석기관명"; "해석일자"; "데이터기준일시";
      "법령해석상세링크"] |};
  {| ge_guide := u "cgmExpcMolitInfoGuide"; ge_kind := OriginalDetail; ge_path := u "/DRF/lawService.do";
    ge_target := u "molitCgmExpc"; ge_reason := u "documented_original_body_view";
    ge_request_fields := fields ["OC"; "target"; "type"; "ID"; "LM"; "fields"];
    ge_response_fields := fields ["법령해석일련번호"; "대분류"; "중분류"; "소분류"; "안건명"; "안건번호"; "해석일자";
      "해석기관코드"; "해석기관명"; "질의기관코드"; "질의기관명"; "관리기관코드"; "등록일시"; "질의요지"; "회답"; "이유"; "관련법령";
      "데이터기준일시"] |};
  {| ge_guide := u "cgmExpcMoefListGuide"; ge_kind := OriginalList; ge_path := u "/DRF/lawSearch.do";
    ge_target := u "moefCgmExpc"; ge_reason := u "finite_documented_original_inventory";
    ge_request_fields := fields ["OC"; "target"; "type"; "search"; "query"; "display"; "page";
      "inq"; "rpl"; "gana"; "itmno"; "explYd"; "sort"; "popYn"; "fields"];
    ge_response_fields := fields ["target"; "키워드"; "section"; "totalCnt"; "page"; "id";
      "법령해석일련번호"; "안건명"; "안건번호"; "질의기관코드"; "질의기관명"; "해석기관코드"; "해석기관명"; "해석일자"; "데이터기준일시";
      "법령해석상세링크"] |};
  {| ge_guide := u "cgmExpcMofListGuide"; ge_kind := OriginalList; ge_path := u "/DRF/lawSearch.do";
    ge_target := u "mofCgmExpc"; ge_reason := u "finite_documented_original_inventory";
    ge_request_fields := fields ["OC"; "target"; "type"; "search"; "query"; "display"; "page";
      "inq"; "rpl"; "gana"; "itmno"; "explYd"; "sort"; "popYn"; "fields"];
    ge_response_fields := fields ["target"; "키워드"; "section"; "totalCnt"; "page"; "id";
      "법령해석일련번호"; "안건명"; "안건번호"; "질의기관코드"; "질의기관명"; "해석기관코드"; "해석기관명"; "해석일자"; "데이터기준일시";
      "법령해석상세링크"] |};
  {| ge_guide := u "cgmExpcMofInfoGuide"; ge_kind := OriginalDetail; ge_path := u "/DRF/lawService.do";
    ge_target := u "mofCgmExpc"; ge_reason := u "documented_original_body_view";
    ge_request_fields := fields ["OC"; "target"; "type"; "ID"; "LM"; "fields"];
    ge_response_fields := fields ["법령해석일련번호"; "안건명"; "안건번호"; "해석일자"; "해석기관코드"; "해석기관명"; "질의기관코드";
      "질의기관명"; "관리기관코드"; "등록일시"; "질의요지"; "회답"; "이유"; "관련법령"; "데이터기준일시"] |};
  {| ge_guide := u "cgmExpcMoisListGuide"; ge_kind := OriginalList; ge_path := u "/DRF/lawSearch.do";
    ge_target := u "moisCgmExpc"; ge_reason := u "finite_documented_original_inventory";
    ge_request_fields := fields ["OC"; "target"; "type"; "search"; "query"; "display"; "page";
      "inq"; "rpl"; "gana"; "itmno"; "explYd"; "sort"; "popYn"; "fields"];
    ge_response_fields := fields ["target"; "키워드"; "section"; "totalCnt"; "page"; "id";
      "법령해석일련번호"; "안건명"; "안건번호"; "질의기관코드"; "질의기관명"; "해석기관코드"; "해석기관명"; "해석일자"; "데이터기준일시";
      "법령해석상세링크"] |};
  {| ge_guide := u "cgmExpcMoisInfoGuide"; ge_kind := OriginalDetail; ge_path := u "/DRF/lawService.do";
    ge_target := u "moisCgmExpc"; ge_reason := u "documented_original_body_view";
    ge_request_fields := fields ["OC"; "target"; "type"; "ID"; "LM"; "fields"];
    ge_response_fields := fields ["법령해석일련번호"; "안건명"; "안건번호"; "해석일자"; "해석기관코드"; "해석기관명"; "질의기관코드";
      "질의기관명"; "관리기관코드"; "등록일시"; "질의요지"; "회답"; "이유"; "관련법령"; "데이터기준일시"] |};
  {| ge_guide := u "cgmExpcMeListGuide"; ge_kind := OriginalList; ge_path := u "/DRF/lawSearch.do";
    ge_target := u "meCgmExpc"; ge_reason := u "finite_documented_original_inventory";
    ge_request_fields := fields ["OC"; "target"; "type"; "search"; "query"; "display"; "page";
      "inq"; "rpl"; "gana"; "itmno"; "explYd"; "sort"; "popYn"; "fields"];
    ge_response_fields := fields ["target"; "키워드"; "section"; "totalCnt"; "page"; "id";
      "법령해석일련번호"; "안건명"; "안건번호"; "질의기관코드"; "질의기관명"; "해석기관코드"; "해석기관명"; "해석일자"; "데이터기준일시";
      "법령해석상세링크"] |};
  {| ge_guide := u "cgmExpcMeInfoGuide"; ge_kind := OriginalDetail; ge_path := u "/DRF/lawService.do";
    ge_target := u "meCgmExpc"; ge_reason := u "documented_original_body_view";
    ge_request_fields := fields ["OC"; "target"; "type"; "ID"; "LM"; "fields"];
    ge_response_fields := fields ["법령해석일련번호"; "안건명"; "안건번호"; "해석일자"; "해석기관코드"; "해석기관명"; "질의기관코드";
      "질의기관명"; "관리기관코드"; "등록일시"; "질의요지"; "회답"; "이유"; "관련법령"; "데이터기준일시"] |};
  {| ge_guide := u "cgmExpcKcsListGuide"; ge_kind := OriginalList; ge_path := u "/DRF/lawSearch.do";
    ge_target := u "kcsCgmExpc"; ge_reason := u "finite_documented_original_inventory";
    ge_request_fields := fields ["OC"; "target"; "type"; "search"; "query"; "display"; "page";
      "inq"; "rpl"; "gana"; "explYd"; "sort"; "popYn"; "fields"];
    ge_response_fields := fields ["target"; "키워드"; "section"; "totalCnt"; "page"; "id";
      "법령해석일련번호"; "안건명"; "질의기관코드"; "질의기관명"; "해석기관코드"; "해석기관명"; "해석일자"; "데이터기준일시"; "법령해석상세링크"] |};
  {| ge_guide := u "cgmExpcKcsInfoGuide"; ge_kind := OriginalDetail; ge_path := u "/DRF/lawService.do";
    ge_target := u "kcsCgmExpc"; ge_reason := u "documented_original_body_view";
    ge_request_fields := fields ["OC"; "target"; "type"; "ID"; "LM"; "fields"];
    ge_response_fields := fields ["법령해석일련번호"; "업무분야"; "안건명"; "해석일자"; "해석기관코드"; "해석기관명"; "질의기관코드";
      "질의기관명"; "관리기관코드"; "등록일시"; "질의요지"; "회답"; "이유"; "관련법령"; "관세법령정보포털원문링크"; "데이터기준일시"] |};
  {| ge_guide := u "cgmExpcNtsListGuide"; ge_kind := OriginalList; ge_path := u "/DRF/lawSearch.do";
    ge_target := u "ntsCgmExpc"; ge_reason := u "finite_documented_original_inventory";
    ge_request_fields := fields ["OC"; "target"; "type"; "search"; "query"; "display"; "page";
      "inq"; "rpl"; "gana"; "itmno"; "explYd"; "sort"; "popYn"; "fields"];
    ge_response_fields := fields ["target"; "키워드"; "section"; "totalCnt"; "page"; "id";
      "법령해석일련번호"; "안건명"; "안건번호"; "질의기관코드"; "질의기관명"; "해석기관코드"; "해석기관명"; "해석일자"; "데이터기준일시";
      "법령해석상세링크"] |};
  {| ge_guide := u "cgmExpcMoeListGuide"; ge_kind := OriginalList; ge_path := u "/DRF/lawSearch.do";
    ge_target := u "moeCgmExpc"; ge_reason := u "finite_documented_original_inventory";
    ge_request_fields := fields ["OC"; "target"; "type"; "search"; "query"; "display"; "page";
      "inq"; "rpl"; "gana"; "itmno"; "explYd"; "sort"; "popYn"; "fields"];
    ge_response_fields := fields ["target"; "키워드"; "section"; "totalCnt"; "page"; "id";
      "법령해석일련번호"; "안건명"; "안건번호"; "질의기관코드"; "질의기관명"; "해석기관코드"; "해석기관명"; "해석일자"; "데이터기준일시";
      "법령해석상세링크"] |};
  {| ge_guide := u "cgmExpcMoeInfoGuide"; ge_kind := OriginalDetail; ge_path := u "/DRF/lawService.do";
    ge_target := u "moeCgmExpc"; ge_reason := u "documented_original_body_view";
    ge_request_fields := fields ["OC"; "target"; "type"; "ID"; "LM"; "fields"];
    ge_response_fields := fields ["법령해석일련번호"; "안건명"; "안건번호"; "해석일자"; "해석기관코드"; "해석기관명"; "질의기관코드";
      "질의기관명"; "관리기관코드"; "등록일시"; "질의요지"; "회답"; "이유"; "관련법령"; "데이터기준일시"] |};
  {| ge_guide := u "cgmExpcMsitListGuide"; ge_kind := OriginalList; ge_path := u "/DRF/lawSearch.do";
    ge_target := u "msitCgmExpc"; ge_reason := u "finite_documented_original_inventory";
    ge_request_fields := fields ["OC"; "target"; "type"; "search"; "query"; "display"; "page";
      "inq"; "rpl"; "gana"; "itmno"; "explYd"; "sort"; "popYn"; "fields"];
    ge_response_fields := fields ["target"; "키워드"; "section"; "totalCnt"; "page"; "id";
      "법령해석일련번호"; "안건명"; "안건번호"; "질의기관코드"; "질의기관명"; "해석기관코드"; "해석기관명"; "해석일자"; "데이터기준일시";
      "법령해석상세링크"] |};
  {| ge_guide := u "cgmExpcMsitInfoGuide"; ge_kind := OriginalDetail; ge_path := u "/DRF/lawService.do";
    ge_target := u "msitCgmExpc"; ge_reason := u "documented_original_body_view";
    ge_request_fields := fields ["OC"; "target"; "type"; "ID"; "LM"; "fields"];
    ge_response_fields := fields ["법령해석일련번호"; "안건명"; "안건번호"; "해석일자"; "해석기관코드"; "해석기관명"; "질의기관코드";
      "질의기관명"; "관리기관코드"; "등록일시"; "질의요지"; "회답"; "이유"; "관련법령"; "데이터기준일시"] |};
  {| ge_guide := u "cgmExpcMpvaListGuide"; ge_kind := OriginalList; ge_path := u "/DRF/lawSearch.do";
    ge_target := u "mpvaCgmExpc"; ge_reason := u "finite_documented_original_inventory";
    ge_request_fields := fields ["OC"; "target"; "type"; "search"; "query"; "display"; "page";
      "inq"; "rpl"; "gana"; "itmno"; "explYd"; "sort"; "popYn"; "fields"];
    ge_response_fields := fields ["target"; "키워드"; "section"; "totalCnt"; "page"; "id";
      "법령해석일련번호"; "안건명"; "안건번호"; "질의기관코드"; "질의기관명"; "해석기관코드"; "해석기관명"; "해석일자"; "데이터기준일시";
      "법령해석상세링크"] |};
  {| ge_guide := u "cgmExpcMpvaInfoGuide"; ge_kind := OriginalDetail; ge_path := u "/DRF/lawService.do";
    ge_target := u "mpvaCgmExpc"; ge_reason := u "documented_original_body_view";
    ge_request_fields := fields ["OC"; "target"; "type"; "ID"; "LM"; "fields"];
    ge_response_fields := fields ["법령해석일련번호"; "안건명"; "안건번호"; "해석일자"; "해석기관코드"; "해석기관명"; "질의기관코드";
      "질의기관명"; "관리기관코드"; "등록일시"; "질의요지"; "회답"; "이유"; "관련법령"; "데이터기준일시"] |};
  {| ge_guide := u "cgmExpcMndListGuide"; ge_kind := OriginalList; ge_path := u "/DRF/lawSearch.do";
    ge_target := u "mndCgmExpc"; ge_reason := u "finite_documented_original_inventory";
    ge_request_fields := fields ["OC"; "target"; "type"; "search"; "query"; "display"; "page";
      "inq"; "rpl"; "gana"; "itmno"; "explYd"; "sort"; "popYn"; "fields"];
    ge_response_fields := fields ["target"; "키워드"; "section"; "totalCnt"; "page"; "id";
      "법령해석일련번호"; "안건명"; "안건번호"; "질의기관코드"; "질의기관명"; "해석기관코드"; "해석기관명"; "해석일자"; "데이터기준일시";
      "법령해석상세링크"] |}].

Definition guides_3 : list GuideEntry := [
  {| ge_guide := u "cgmExpcMndInfoGuide"; ge_kind := OriginalDetail; ge_path := u "/DRF/lawService.do";
    ge_target := u "mndCgmExpc"; ge_reason := u "documented_original_body_view";
    ge_request_fields := fields ["OC"; "target"; "type"; "ID"; "LM"; "fields"];
    ge_response_fields := fields ["법령해석일련번호"; "안건명"; "안건번호"; "해석일자"; "해석기관코드"; "해석기관명"; "질의기관코드";
      "질의기관명"; "관리기관코드"; "등록일시"; "질의요지"; "회답"; "이유"; "관련법령"; "데이터기준일시"] |};
  {| ge_guide := u "cgmExpcMafraListGuide"; ge_kind := OriginalList; ge_path := u "/DRF/lawSearch.do";
    ge_target := u "mafraCgmExpc"; ge_reason := u "finite_documented_original_inventory";
    ge_request_fields := fields ["OC"; "target"; "type"; "search"; "query"; "display"; "page";
      "inq"; "rpl"; "gana"; "itmno"; "explYd"; "sort"; "popYn"; "fields"];
    ge_response_fields := fields ["target"; "키워드"; "section"; "totalCnt"; "page"; "id";
      "법령해석일련번호"; "안건명"; "안건번호"; "질의기관코드"; "질의기관명"; "해석기관코드"; "해석기관명"; "해석일자"; "데이터기준일시";
      "법령해석상세링크"] |};
  {| ge_guide := u "cgmExpcMafraInfoGuide"; ge_kind := OriginalDetail; ge_path := u "/DRF/lawService.do";
    ge_target := u "mafraCgmExpc"; ge_reason := u "documented_original_body_view";
    ge_request_fields := fields ["OC"; "target"; "type"; "ID"; "LM"; "fields"];
    ge_response_fields := fields ["법령해석일련번호"; "안건명"; "안건번호"; "해석일자"; "해석기관코드"; "해석기관명"; "질의기관코드";
      "질의기관명"; "관리기관코드"; "등록일시"; "질의요지"; "회답"; "이유"; "관련법령"; "데이터기준일시"] |};
  {| ge_guide := u "cgmExpcMcstListGuide"; ge_kind := OriginalList; ge_path := u "/DRF/lawSearch.do";
    ge_target := u "mcstCgmExpc"; ge_reason := u "finite_documented_original_inventory";
    ge_request_fields := fields ["OC"; "target"; "type"; "search"; "query"; "display"; "page";
      "inq"; "rpl"; "gana"; "itmno"; "explYd"; "sort"; "popYn"; "fields"];
    ge_response_fields := fields ["target"; "키워드"; "section"; "totalCnt"; "page"; "id";
      "법령해석일련번호"; "안건명"; "안건번호"; "질의기관코드"; "질의기관명"; "해석기관코드"; "해석기관명"; "해석일자"; "데이터기준일시";
      "법령해석상세링크"] |};
  {| ge_guide := u "cgmExpcMcstInfoGuide"; ge_kind := OriginalDetail; ge_path := u "/DRF/lawService.do";
    ge_target := u "mcstCgmExpc"; ge_reason := u "documented_original_body_view";
    ge_request_fields := fields ["OC"; "target"; "type"; "ID"; "LM"; "fields"];
    ge_response_fields := fields ["법령해석일련번호"; "안건명"; "안건번호"; "해석일자"; "해석기관코드"; "해석기관명"; "질의기관코드";
      "질의기관명"; "관리기관코드"; "등록일시"; "질의요지"; "회답"; "이유"; "관련법령"; "데이터기준일시"] |};
  {| ge_guide := u "cgmExpcMojListGuide"; ge_kind := OriginalList; ge_path := u "/DRF/lawSearch.do";
    ge_target := u "mojCgmExpc"; ge_reason := u "finite_documented_original_inventory";
    ge_request_fields := fields ["OC"; "target"; "type"; "search"; "query"; "display"; "page";
      "inq"; "rpl"; "gana"; "itmno"; "explYd"; "sort"; "popYn"; "fields"];
    ge_response_fields := fields ["target"; "키워드"; "section"; "totalCnt"; "page"; "id";
      "법령해석일련번호"; "안건명"; "안건번호"; "질의기관코드"; "질의기관명"; "해석기관코드"; "해석기관명"; "해석일자"; "데이터기준일시";
      "법령해석상세링크"] |};
  {| ge_guide := u "cgmExpcMojInfoGuide"; ge_kind := OriginalDetail; ge_path := u "/DRF/lawService.do";
    ge_target := u "mojCgmExpc"; ge_reason := u "documented_original_body_view";
    ge_request_fields := fields ["OC"; "target"; "type"; "ID"; "LM"; "fields"];
    ge_response_fields := fields ["법령해석일련번호"; "안건명"; "안건번호"; "해석일자"; "해석기관코드"; "해석기관명"; "질의기관코드";
      "질의기관명"; "관리기관코드"; "등록일시"; "질의요지"; "회답"; "이유"; "관련법령"; "데이터기준일시"] |};
  {| ge_guide := u "cgmExpcMohwListGuide"; ge_kind := OriginalList; ge_path := u "/DRF/lawSearch.do";
    ge_target := u "mohwCgmExpc"; ge_reason := u "finite_documented_original_inventory";
    ge_request_fields := fields ["OC"; "target"; "type"; "search"; "query"; "display"; "page";
      "inq"; "rpl"; "gana"; "itmno"; "explYd"; "sort"; "popYn"; "fields"];
    ge_response_fields := fields ["target"; "키워드"; "section"; "totalCnt"; "page"; "id";
      "법령해석일련번호"; "안건명"; "안건번호"; "질의기관코드"; "질의기관명"; "해석기관코드"; "해석기관명"; "해석일자"; "데이터기준일시";
      "법령해석상세링크"] |};
  {| ge_guide := u "cgmExpcMohwInfoGuide"; ge_kind := OriginalDetail; ge_path := u "/DRF/lawService.do";
    ge_target := u "mohwCgmExpc"; ge_reason := u "documented_original_body_view";
    ge_request_fields := fields ["OC"; "target"; "type"; "ID"; "LM"; "fields"];
    ge_response_fields := fields ["법령해석일련번호"; "안건명"; "안건번호"; "해석일자"; "해석기관코드"; "해석기관명"; "질의기관코드";
      "질의기관명"; "관리기관코드"; "등록일시"; "질의요지"; "회답"; "이유"; "관련법령"; "데이터기준일시"] |};
  {| ge_guide := u "cgmExpcMotieListGuide"; ge_kind := OriginalList; ge_path := u "/DRF/lawSearch.do";
    ge_target := u "motieCgmExpc"; ge_reason := u "finite_documented_original_inventory";
    ge_request_fields := fields ["OC"; "target"; "type"; "search"; "query"; "display"; "page";
      "inq"; "rpl"; "gana"; "itmno"; "explYd"; "sort"; "popYn"; "fields"];
    ge_response_fields := fields ["target"; "키워드"; "section"; "totalCnt"; "page"; "id";
      "법령해석일련번호"; "안건명"; "안건번호"; "질의기관코드"; "질의기관명"; "해석기관코드"; "해석기관명"; "해석일자"; "데이터기준일시";
      "법령해석상세링크"] |};
  {| ge_guide := u "cgmExpcMotieInfoGuide"; ge_kind := OriginalDetail; ge_path := u "/DRF/lawService.do";
    ge_target := u "motieCgmExpc"; ge_reason := u "documented_original_body_view";
    ge_request_fields := fields ["OC"; "target"; "type"; "ID"; "LM"; "fields"];
    ge_response_fields := fields ["법령해석일련번호"; "안건명"; "안건번호"; "해석일자"; "해석기관코드"; "해석기관명"; "질의기관코드";
      "질의기관명"; "관리기관코드"; "등록일시"; "질의요지"; "회답"; "이유"; "관련법령"; "데이터기준일시"] |};
  {| ge_guide := u "cgmExpcMogefListGuide"; ge_kind := OriginalList; ge_path := u "/DRF/lawSearch.do";
    ge_target := u "mogefCgmExpc"; ge_reason := u "finite_documented_original_inventory";
    ge_request_fields := fields ["OC"; "target"; "type"; "search"; "query"; "display"; "page";
      "inq"; "rpl"; "gana"; "itmno"; "explYd"; "sort"; "popYn"; "fields"];
    ge_response_fields := fields ["target"; "키워드"; "section"; "totalCnt"; "page"; "id";
      "법령해석일련번호"; "안건명"; "안건번호"; "질의기관코드"; "질의기관명"; "해석기관코드"; "해석기관명"; "해석일자"; "데이터기준일시";
      "법령해석상세링크"] |};
  {| ge_guide := u "cgmExpcMogefInfoGuide"; ge_kind := OriginalDetail; ge_path := u "/DRF/lawService.do";
    ge_target := u "mogefCgmExpc"; ge_reason := u "documented_original_body_view";
    ge_request_fields := fields ["OC"; "target"; "type"; "ID"; "LM"; "fields"];
    ge_response_fields := fields ["법령해석일련번호"; "안건명"; "안건번호"; "해석일자"; "해석기관코드"; "해석기관명"; "질의기관코드";
      "질의기관명"; "관리기관코드"; "등록일시"; "질의요지"; "회답"; "이유"; "관련법령"; "데이터기준일시"] |};
  {| ge_guide := u "cgmExpcMofaListGuide"; ge_kind := OriginalList; ge_path := u "/DRF/lawSearch.do";
    ge_target := u "mofaCgmExpc"; ge_reason := u "finite_documented_original_inventory";
    ge_request_fields := fields ["OC"; "target"; "type"; "search"; "query"; "display"; "page";
      "inq"; "rpl"; "gana"; "itmno"; "explYd"; "sort"; "popYn"; "fields"];
    ge_response_fields := fields ["target"; "키워드"; "section"; "totalCnt"; "page"; "id";
      "법령해석일련번호"; "안건명"; "안건번호"; "질의기관코드"; "질의기관명"; "해석기관코드"; "해석기관명"; "해석일자"; "데이터기준일시";
      "법령해석상세링크"] |};
  {| ge_guide := u "cgmExpcMofaInfoGuide"; ge_kind := OriginalDetail; ge_path := u "/DRF/lawService.do";
    ge_target := u "mofaCgmExpc"; ge_reason := u "documented_original_body_view";
    ge_request_fields := fields ["OC"; "target"; "type"; "ID"; "LM"; "fields"];
    ge_response_fields := fields ["법령해석일련번호"; "안건명"; "안건번호"; "해석일자"; "해석기관코드"; "해석기관명"; "질의기관코드";
      "질의기관명"; "관리기관코드"; "등록일시"; "질의요지"; "회답"; "이유"; "관련법령"; "데이터기준일시"] |};
  {| ge_guide := u "cgmExpcMssListGuide"; ge_kind := OriginalList; ge_path := u "/DRF/lawSearch.do";
    ge_target := u "mssCgmExpc"; ge_reason := u "finite_documented_original_inventory";
    ge_request_fields := fields ["OC"; "target"; "type"; "search"; "query"; "display"; "page";
      "inq"; "rpl"; "gana"; "itmno"; "explYd"; "sort"; "popYn"; "fields"];
    ge_response_fields := fields ["target"; "키워드"; "section"; "totalCnt"; "page"; "id";
      "법령해석일련번호"; "안건명"; "안건번호"; "질의기관코드"; "질의기관명"; "해석기관코드"; "해석기관명"; "해석일자"; "데이터기준일시";
      "법령해석상세링크"] |};
  {| ge_guide := u "cgmExpcMssInfoGuide"; ge_kind := OriginalDetail; ge_path := u "/DRF/lawService.do";
    ge_target := u "mssCgmExpc"; ge_reason := u "documented_original_body_view";
    ge_request_fields := fields ["OC"; "target"; "type"; "ID"; "LM"; "fields"];
    ge_response_fields := fields ["법령해석일련번호"; "안건명"; "안건번호"; "해석일자"; "해석기관코드"; "해석기관명"; "질의기관코드";
      "질의기관명"; "관리기관코드"; "등록일시"; "질의요지"; "회답"; "이유"; "관련법령"; "데이터기준일시"] |};
  {| ge_guide := u "cgmExpcMouListGuide"; ge_kind := OriginalList; ge_path := u "/DRF/lawSearch.do";
    ge_target := u "mouCgmExpc"; ge_reason := u "finite_documented_original_inventory";
    ge_request_fields := fields ["OC"; "target"; "type"; "search"; "query"; "display"; "page";
      "inq"; "rpl"; "gana"; "itmno"; "explYd"; "sort"; "popYn"; "fields"];
    ge_response_fields := fields ["target"; "키워드"; "section"; "totalCnt"; "page"; "id";
      "법령해석일련번호"; "안건명"; "안건번호"; "질의기관코드"; "질의기관명"; "해석기관코드"; "해석기관명"; "해석일자"; "데이터기준일시";
      "법령해석상세링크"] |};
  {| ge_guide := u "cgmExpcMouInfoGuide"; ge_kind := OriginalDetail; ge_path := u "/DRF/lawService.do";
    ge_target := u "mouCgmExpc"; ge_reason := u "documented_original_body_view";
    ge_request_fields := fields ["OC"; "target"; "type"; "ID"; "LM"; "fields"];
    ge_response_fields := fields ["법령해석일련번호"; "안건명"; "안건번호"; "해석일자"; "해석기관코드"; "해석기관명"; "질의기관코드";
      "질의기관명"; "관리기관코드"; "등록일시"; "질의요지"; "회답"; "이유"; "관련법령"; "데이터기준일시"] |};
  {| ge_guide := u "cgmExpcMolegListGuide"; ge_kind := OriginalList; ge_path := u "/DRF/lawSearch.do";
    ge_target := u "molegCgmExpc"; ge_reason := u "finite_documented_original_inventory";
    ge_request_fields := fields ["OC"; "target"; "type"; "search"; "query"; "display"; "page";
      "inq"; "rpl"; "gana"; "itmno"; "explYd"; "sort"; "popYn"; "fields"];
    ge_response_fields := fields ["target"; "키워드"; "section"; "totalCnt"; "page"; "id";
      "법령해석일련번호"; "안건명"; "안건번호"; "질의기관코드"; "질의기관명"; "해석기관코드"; "해석기관명"; "해석일자"; "데이터기준일시";
      "법령해석상세링크"] |};
  {| ge_guide := u "cgmExpcMolegInfoGuide"; ge_kind := OriginalDetail; ge_path := u "/DRF/lawService.do";
    ge_target := u "molegCgmExpc"; ge_reason := u "documented_original_body_view";
    ge_request_fields := fields ["OC"; "target"; "type"; "ID"; "LM"; "fields"];
    ge_response_fields := fields ["법령해석일련번호"; "안건명"; "안건번호"; "해석일자"; "해석기관코드"; "해석기관명"; "질의기관코드";
      "질의기관명"; "관리기관코드"; "등록일시"; "질의요지"; "회답"; "이유"; "관련법령"; "데이터기준일시"] |};
  {| ge_guide := u "cgmExpcMfdsListGuide"; ge_kind := OriginalList; ge_path := u "/DRF/lawSearch.do";
    ge_target := u "mfdsCgmExpc"; ge_reason := u "finite_documented_original_inventory";
    ge_request_fields := fields ["OC"; "target"; "type"; "search"; "query"; "display"; "page";
      "inq"; "rpl"; "gana"; "itmno"; "explYd"; "sort"; "popYn"; "fields"];
    ge_response_fields := fields ["target"; "키워드"; "section"; "totalCnt"; "page"; "id";
      "법령해석일련번호"; "안건명"; "안건번호"; "질의기관코드"; "질의기관명"; "해석기관코드"; "해석기관명"; "해석일자"; "데이터기준일시";
      "법령해석상세링크"] |};
  {| ge_guide := u "cgmExpcMfdsInfoGuide"; ge_kind := OriginalDetail; ge_path := u "/DRF/lawService.do";
    ge_target := u "mfdsCgmExpc"; ge_reason := u "documented_original_body_view";
    ge_request_fields := fields ["OC"; "target"; "type"; "ID"; "LM"; "fields"];
    ge_response_fields := fields ["법령해석일련번호"; "안건명"; "안건번호"; "해석일자"; "해석기관코드"; "해석기관명"; "질의기관코드";
      "질의기관명"; "관리기관코드"; "등록일시"; "질의요지"; "회답"; "이유"; "관련법령"; "데이터기준일시"] |};
  {| ge_guide := u "cgmExpcMpmListGuide"; ge_kind := OriginalList; ge_path := u "/DRF/lawSearch.do";
    ge_target := u "mpmCgmExpc"; ge_reason := u "finite_documented_original_inventory";
    ge_request_fields := fields ["OC"; "target"; "type"; "search"; "query"; "display"; "page";
      "inq"; "rpl"; "gana"; "itmno"; "explYd"; "sort"; "popYn"; "fields"];
    ge_response_fields := fields ["target"; "키워드"; "section"; "totalCnt"; "page"; "id";
      "법령해석일련번호"; "안건명"; "안건번호"; "질의기관코드"; "질의기관명"; "해석기관코드"; "해석기관명"; "해석일자"; "데이터기준일시";
      "법령해석상세링크"] |};
  {| ge_guide := u "cgmExpcMpmInfoGuide"; ge_kind := OriginalDetail; ge_path := u "/DRF/lawService.do";
    ge_target := u "mpmCgmExpc"; ge_reason := u "documented_original_body_view";
    ge_request_fields := fields ["OC"; "target"; "type"; "ID"; "LM"; "fields"];
    ge_response_fields := fields ["법령해석일련번호"; "안건명"; "안건번호"; "해석일자"; "해석기관코드"; "해석기관명"; "질의기관코드";
      "질의기관명"; "관리기관코드"; "등록일시"; "질의요지"; "회답"; "이유"; "관련법령"; "데이터기준일시"] |};
  {| ge_guide := u "cgmExpcKmaListGuide"; ge_kind := OriginalList; ge_path := u "/DRF/lawSearch.do";
    ge_target := u "kmaCgmExpc"; ge_reason := u "finite_documented_original_inventory";
    ge_request_fields := fields ["OC"; "target"; "type"; "search"; "query"; "display"; "page";
      "inq"; "rpl"; "gana"; "itmno"; "explYd"; "sort"; "popYn"; "fields"];
    ge_response_fields := fields ["target"; "키워드"; "section"; "totalCnt"; "page"; "id";
      "법령해석일련번호"; "안건명"; "안건번호"; "질의기관코드"; "질의기관명"; "해석기관코드"; "해석기관명"; "해석일자"; "데이터기준일시";
      "법령해석상세링크"] |};
  {| ge_guide := u "cgmExpcKmaInfoGuide"; ge_kind := OriginalDetail; ge_path := u "/DRF/lawService.do";
    ge_target := u "kmaCgmExpc"; ge_reason := u "documented_original_body_view";
    ge_request_fields := fields ["OC"; "target"; "type"; "ID"; "LM"; "fields"];
    ge_response_fields := fields ["법령해석일련번호"; "안건명"; "안건번호"; "해석일자"; "해석기관코드"; "해석기관명"; "질의기관코드";
      "질의기관명"; "관리기관코드"; "등록일시"; "질의요지"; "회답"; "이유"; "관련법령"; "데이터기준일시"] |};
  {| ge_guide := u "cgmExpcKhsListGuide"; ge_kind := OriginalList; ge_path := u "/DRF/lawSearch.do";
    ge_target := u "khsCgmExpc"; ge_reason := u "finite_documented_original_inventory";
    ge_request_fields := fields ["OC"; "target"; "type"; "search"; "query"; "display"; "page";
      "inq"; "rpl"; "gana"; "itmno"; "explYd"; "sort"; "popYn"; "fields"];
    ge_response_fields := fields ["target"; "키워드"; "section"; "totalCnt"; "page"; "id";
      "법령해석일련번호"; "안건명"; "안건번호"; "질의기관코드"; "질의기관명"; "해석기관코드"; "해석기관명"; "해석일자"; "데이터기준일시";
      "법령해석상세링크"] |};
  {| ge_guide := u "cgmExpcKhsInfoGuide"; ge_kind := OriginalDetail; ge_path := u "/DRF/lawService.do";
    ge_target := u "khsCgmExpc"; ge_reason := u "documented_original_body_view";
    ge_request_fields := fields ["OC"; "target"; "type"; "ID"; "LM"; "fields"];
    ge_response_fields := fields ["법령해석일련번호"; "안건명"; "안건번호"; "해석일자"; "해석기관코드"; "해석기관명"; "질의기관코드";
      "질의기관명"; "관리기관코드"; "등록일시"; "질의요지"; "회답"; "이유"; "관련법령"; "데이터기준일시"] |};
  {| ge_guide := u "cgmExpcRdaListGuide"; ge_kind := OriginalList; ge_path := u "/DRF/lawSearch.do";
    ge_target := u "rdaCgmExpc"; ge_reason := u "finite_documented_original_inventory";
    ge_request_fields := fields ["OC"; "target"; "type"; "search"; "query"; "display"; "page";
      "inq"; "rpl"; "gana"; "itmno"; "explYd"; "sort"; "popYn"; "fields"];
    ge_response_fields := fields ["target"; "키워드"; "section"; "totalCnt"; "page"; "id";
      "법령해석일련번호"; "안건명"; "안건번호"; "질의기관코드"; "질의기관명"; "해석기관코드"; "해석기관명"; "해석일자"; "데이터기준일시";
      "법령해석상세링크"] |};
  {| ge_guide := u "cgmExpcRdaInfoGuide"; ge_kind := OriginalDetail; ge_path := u "/DRF/lawService.do";
    ge_target := u "rdaCgmExpc"; ge_reason := u "documented_original_body_view";
    ge_request_fields := fields ["OC"; "target"; "type"; "ID"; "LM"; "fields"];
    ge_response_fields := fields ["법령해석일련번호"; "안건명"; "안건번호"; "해석일자"; "해석기관코드"; "해석기관명"; "질의기관코드";
      "질의기관명"; "관리기관코드"; "등록일시"; "질의요지"; "회답"; "이유"; "관련법령"; "데이터기준일시"] |};
  {| ge_guide := u "cgmExpcNpaListGuide"; ge_kind := OriginalList; ge_path := u "/DRF/lawSearch.do";
    ge_target := u "npaCgmExpc"; ge_reason := u "finite_documented_original_inventory";
    ge_request_fields := fields ["OC"; "target"; "type"; "search"; "query"; "display"; "page";
      "inq"; "rpl"; "gana"; "itmno"; "explYd"; "sort"; "popYn"; "fields"];
    ge_response_fields := fields ["target"; "키워드"; "section"; "totalCnt"; "page"; "id";
      "법령해석일련번호"; "안건명"; "안건번호"; "질의기관코드"; "질의기관명"; "해석기관코드"; "해석기관명"; "해석일자"; "데이터기준일시";
      "법령해석상세링크"] |};
  {| ge_guide := u "cgmExpcNpaInfoGuide"; ge_kind := OriginalDetail; ge_path := u "/DRF/lawService.do";
    ge_target := u "npaCgmExpc"; ge_reason := u "documented_original_body_view";
    ge_request_fields := fields ["OC"; "target"; "type"; "ID"; "LM"; "fields"];
    ge_response_fields := fields ["법령해석일련번호"; "안건명"; "안건번호"; "해석일자"; "해석기관코드"; "해석기관명"; "질의기관코드";
      "질의기관명"; "관리기관코드"; "등록일시"; "질의요지"; "회답"; "이유"; "관련법령"; "데이터기준일시"] |};
  {| ge_guide := u "cgmExpcDapaListGuide"; ge_kind := OriginalList; ge_path := u "/DRF/lawSearch.do";
    ge_target := u "dapaCgmExpc"; ge_reason := u "finite_documented_original_inventory";
    ge_request_fields := fields ["OC"; "target"; "type"; "search"; "query"; "display"; "page";
      "inq"; "rpl"; "gana"; "itmno"; "explYd"; "sort"; "popYn"; "fields"];
    ge_response_fields := fields ["target"; "키워드"; "section"; "totalCnt"; "page"; "id";
      "법령해석일련번호"; "안건명"; "안건번호"; "질의기관코드"; "질의기관명"; "해석기관코드"; "해석기관명"; "해석일자"; "데이터기준일시";
      "법령해석상세링크"] |};
  {| ge_guide := u "cgmExpcDapaInfoGuide"; ge_kind := OriginalDetail; ge_path := u "/DRF/lawService.do";
    ge_target := u "dapaCgmExpc"; ge_reason := u "documented_original_body_view";
    ge_request_fields := fields ["OC"; "target"; "type"; "ID"; "LM"; "fields"];
    ge_response_fields := fields ["법령해석일련번호"; "안건명"; "안건번호"; "해석일자"; "해석기관코드"; "해석기관명"; "질의기관코드";
      "질의기관명"; "관리기관코드"; "등록일시"; "질의요지"; "회답"; "이유"; "관련법령"; "데이터기준일시"] |};
  {| ge_guide := u "cgmExpcMmaListGuide"; ge_kind := OriginalList; ge_path := u "/DRF/lawSearch.do";
    ge_target := u "mmaCgmExpc"; ge_reason := u "finite_documented_original_inventory";
    ge_request_fields := fields ["OC"; "target"; "type"; "search"; "query"; "display"; "page";
      "inq"; "rpl"; "gana"; "itmno"; "explYd"; "sort"; "popYn"; "fields"];
    ge_response_fields := fields ["target"; "키워드"; "section"; "totalCnt"; "page"; "id";
      "법령해석일련번호"; "안건명"; "안건번호"; "질의기관코드"; "질의기관명"; "해석기관코드"; "해석기관명"; "해석일자"; "데이터기준일시";
      "법령해석상세링크"] |};
  {| ge_guide := u "cgmExpcMmaInfoGuide"; ge_kind := OriginalDetail; ge_path := u "/DRF/lawService.do";
    ge_target := u "mmaCgmExpc"; ge_reason := u "documented_original_body_view";
    ge_request_fields := fields ["OC"; "target"; "type"; "ID"; "LM"; "fields"];
    ge_response_fields := fields ["법령해석일련번호"; "안건명"; "안건번호"; "해석일자"; "해석기관코드"; "해석기관명"; "질의기관코드";
      "질의기관명"; "관리기관코드"; "등록일시"; "질의요지"; "회답"; "이유"; "관련법령"; "데이터기준일시"] |};
  {| ge_guide := u "cgmExpcKfsListGuide"; ge_kind := OriginalList; ge_path := u "/DRF/lawSearch.do";
    ge_target := u "kfsCgmExpc"; ge_reason := u "finite_documented_original_inventory";
    ge_request_fields := fields ["OC"; "target"; "type"; "search"; "query"; "display"; "page";
      "inq"; "rpl"; "gana"; "itmno"; "explYd"; "sort"; "popYn"; "fields"];
    ge_response_fields := fields ["target"; "키워드"; "section"; "totalCnt"; "page"; "id";
      "법령해석일련번호"; "안건명"; "안건번호"; "질의기관코드"; "질의기관명"; "해석기관코드"; "해석기관명"; "해석일자"; "데이터기준일시";
      "법령해석상세링크"] |};
  {| ge_guide := u "cgmExpcKfsInfoGuide"; ge_kind := OriginalDetail; ge_path := u "/DRF/lawService.do";
    ge_target := u "kfsCgmExpc"; ge_reason := u "documented_original_body_view";
    ge_request_fields := fields ["OC"; "target"; "type"; "ID"; "LM"; "fields"];
    ge_response_fields := fields ["법령해석일련번호"; "안건명"; "안건번호"; "해석일자"; "해석기관코드"; "해석기관명"; "질의기관코드";
      "질의기관명"; "관리기관코드"; "등록일시"; "질의요지"; "회답"; "이유"; "관련법령"; "데이터기준일시"] |};
  {| ge_guide := u "cgmExpcNfaListGuide"; ge_kind := OriginalList; ge_path := u "/DRF/lawSearch.do";
    ge_target := u "nfaCgmExpc"; ge_reason := u "finite_documented_original_inventory";
    ge_request_fields := fields ["OC"; "target"; "type"; "search"; "query"; "display"; "page";
      "inq"; "rpl"; "gana"; "itmno"; "explYd"; "sort"; "popYn"; "fields"];
    ge_response_fields := fields ["target"; "키워드"; "section"; "totalCnt"; "page"; "id";
      "법령해석일련번호"; "안건명"; "안건번호"; "질의기관코드"; "질의기관명"; "해석기관코드"; "해석기관명"; "해석일자"; "데이터기준일시";
      "법령해석상세링크"] |};
  {| ge_guide := u "cgmExpcNfaInfoGuide"; ge_kind := OriginalDetail; ge_path := u "/DRF/lawService.do";
    ge_target := u "nfaCgmExpc"; ge_reason := u "documented_original_body_view";
    ge_request_fields := fields ["OC"; "target"; "type"; "ID"; "LM"; "fields"];
    ge_response_fields := fields ["법령해석일련번호"; "안건명"; "안건번호"; "해석일자"; "해석기관코드"; "해석기관명"; "질의기관코드";
      "질의기관명"; "관리기관코드"; "등록일시"; "질의요지"; "회답"; "이유"; "관련법령"; "데이터기준일시"] |};
  {| ge_guide := u "cgmExpcOkaListGuide"; ge_kind := OriginalList; ge_path := u "/DRF/lawSearch.do";
    ge_target := u "okaCgmExpc"; ge_reason := u "finite_documented_original_inventory";
    ge_request_fields := fields ["OC"; "target"; "type"; "search"; "query"; "display"; "page";
      "inq"; "rpl"; "gana"; "itmno"; "explYd"; "sort"; "popYn"; "fields"];
    ge_response_fields := fields ["target"; "키워드"; "section"; "totalCnt"; "page"; "id";
      "법령해석일련번호"; "안건명"; "안건번호"; "질의기관코드"; "질의기관명"; "해석기관코드"; "해석기관명"; "해석일자"; "데이터기준일시";
      "법령해석상세링크"] |};
  {| ge_guide := u "cgmExpcOkaInfoGuide"; ge_kind := OriginalDetail; ge_path := u "/DRF/lawService.do";
    ge_target := u "okaCgmExpc"; ge_reason := u "documented_original_body_view";
    ge_request_fields := fields ["OC"; "target"; "type"; "ID"; "LM"; "fields"];
    ge_response_fields := fields ["법령해석일련번호"; "안건명"; "안건번호"; "해석일자"; "해석기관코드"; "해석기관명"; "질의기관코드";
      "질의기관명"; "관리기관코드"; "등록일시"; "질의요지"; "회답"; "이유"; "관련법령"; "데이터기준일시"] |};
  {| ge_guide := u "cgmExpcPpsListGuide"; ge_kind := OriginalList; ge_path := u "/DRF/lawSearch.do";
    ge_target := u "ppsCgmExpc"; ge_reason := u "finite_documented_original_inventory";
    ge_request_fields := fields ["OC"; "target"; "type"; "search"; "query"; "display"; "page";
      "inq"; "rpl"; "gana"; "itmno"; "explYd"; "sort"; "popYn"; "fields"];
    ge_response_fields := fields ["target"; "키워드"; "section"; "totalCnt"; "page"; "id";
      "법령해석일련번호"; "안건명"; "안건번호"; "질의기관코드"; "질의기관명"; "해석기관코드"; "해석기관명"; "해석일자"; "데이터기준일시";
      "법령해석상세링크"] |};
  {| ge_guide := u "cgmExpcPpsInfoGuide"; ge_kind := OriginalDetail; ge_path := u "/DRF/lawService.do";
    ge_target := u "ppsCgmExpc"; ge_reason := u "documented_original_body_view";
    ge_request_fields := fields ["OC"; "target"; "type"; "ID"; "LM"; "fields"];
    ge_response_fields := fields ["법령해석일련번호"; "안건명"; "안건번호"; "해석일자"; "해석기관코드"; "해석기관명"; "질의기관코드";
      "질의기관명"; "관리기관코드"; "등록일시"; "질의요지"; "회답"; "이유"; "관련법령"; "데이터기준일시"] |};
  {| ge_guide := u "cgmExpcKdcaListGuide"; ge_kind := OriginalList; ge_path := u "/DRF/lawSearch.do";
    ge_target := u "kdcaCgmExpc"; ge_reason := u "finite_documented_original_inventory";
    ge_request_fields := fields ["OC"; "target"; "type"; "search"; "query"; "display"; "page";
      "inq"; "rpl"; "gana"; "itmno"; "explYd"; "sort"; "popYn"; "fields"];
    ge_response_fields := fields ["target"; "키워드"; "section"; "totalCnt"; "page"; "id";
      "법령해석일련번호"; "안건명"; "안건번호"; "질의기관코드"; "질의기관명"; "해석기관코드"; "해석기관명"; "해석일자"; "데이터기준일시";
      "법령해석상세링크"] |};
  {| ge_guide := u "cgmExpcKdcaInfoGuide"; ge_kind := OriginalDetail; ge_path := u "/DRF/lawService.do";
    ge_target := u "kdcaCgmExpc"; ge_reason := u "documented_original_body_view";
    ge_request_fields := fields ["OC"; "target"; "type"; "ID"; "LM"; "fields"];
    ge_response_fields := fields ["법령해석일련번호"; "안건명"; "안건번호"; "해석일자"; "해석기관코드"; "해석기관명"; "질의기관코드";
      "질의기관명"; "관리기관코드"; "등록일시"; "질의요지"; "회답"; "이유"; "관련법령"; "데이터기준일시"] |};
  {| ge_guide := u "cgmExpcKostatListGuide"; ge_kind := OriginalList; ge_path := u "/DRF/lawSearch.do";
    ge_target := u "kostatCgmExpc"; ge_reason := u "finite_documented_original_inventory";
    ge_request_fields := fields ["OC"; "target"; "type"; "search"; "query"; "display"; "page";
      "inq"; "rpl"; "gana"; "itmno"; "explYd"; "sort"; "popYn"; "fields"];
    ge_response_fields := fields ["target"; "키워드"; "section"; "totalCnt"; "page"; "id";
      "법령해석일련번호"; "안건명"; "안건번호"; "질의기관코드"; "질의기관명"; "해석기관코드"; "해석기관명"; "해석일자"; "데이터기준일시";
      "법령해석상세링크"] |};
  {| ge_guide := u "cgmExpcKostatInfoGuide"; ge_kind := OriginalDetail; ge_path := u "/DRF/lawService.do";
    ge_target := u "kostatCgmExpc"; ge_reason := u "documented_original_body_view";
    ge_request_fields := fields ["OC"; "target"; "type"; "ID"; "LM"; "fields"];
    ge_response_fields := fields ["법령해석일련번호"; "안건명"; "안건번호"; "해석일자"; "해석기관코드"; "해석기관명"; "질의기관코드";
      "질의기관명"; "관리기관코드"; "등록일시"; "질의요지"; "회답"; "이유"; "관련법령"; "데이터기준일시"] |};
  {| ge_guide := u "cgmExpcKipoListGuide"; ge_kind := OriginalList; ge_path := u "/DRF/lawSearch.do";
    ge_target := u "kipoCgmExpc"; ge_reason := u "finite_documented_original_inventory";
    ge_request_fields := fields ["OC"; "target"; "type"; "search"; "query"; "display"; "page";
      "inq"; "rpl"; "gana"; "itmno"; "explYd"; "sort"; "popYn"; "fields"];
    ge_response_fields := fields ["target"; "키워드"; "section"; "totalCnt"; "page"; "id";
      "법령해석일련번호"; "안건명"; "안건번호"; "질의기관코드"; "질의기관명"; "해석기관코드"; "해석기관명"; "해석일자"; "데이터기준일시";
      "법령해석상세링크"] |};
  {| ge_guide := u "cgmExpcKipoInfoGuide"; ge_kind := OriginalDetail; ge_path := u "/DRF/lawService.do";
    ge_target := u "kipoCgmExpc"; ge_reason := u "documented_original_body_view";
    ge_request_fields := fields ["OC"; "target"; "type"; "ID"; "LM"; "fields"];
    ge_response_fields := fields ["법령해석일련번호"; "안건명"; "안건번호"; "해석일자"; "해석기관코드"; "해석기관명"; "질의기관코드";
      "질의기관명"; "관리기관코드"; "등록일시"; "질의요지"; "회답"; "이유"; "관련법령"; "데이터기준일시"] |};
  {| ge_guide := u "cgmExpcKcgListGuide"; ge_kind := OriginalList; ge_path := u "/DRF/lawSearch.do";
    ge_target := u "kcgCgmExpc"; ge_reason := u "finite_documented_original_inventory";
    ge_request_fields := fields ["OC"; "target"; "type"; "search"; "query"; "display"; "page";
      "inq"; "rpl"; "gana"; "itmno"; "explYd"; "sort"; "popYn"; "fields"];
    ge_response_fields := fields ["target"; "키워드"; "section"; "totalCnt"; "page"; "id";
      "법령해석일련번호"; "안건명"; "안건번호"; "질의기관코드"; "질의기관명"; "해석기관코드"; "해석기관명"; "해석일자"; "데이터기준일시";
      "법령해석상세링크"] |};
  {| ge_guide := u "cgmExpcKcgInfoGuide"; ge_kind := OriginalDetail; ge_path := u "/DRF/lawService.do";
    ge_target := u "kcgCgmExpc"; ge_reason := u "documented_original_body_view";
    ge_request_fields := fields ["OC"; "target"; "type"; "ID"; "LM"; "fields"];
    ge_response_fields := fields ["법령해석일련번호"; "안건명"; "안건번호"; "해석일자"; "해석기관코드"; "해석기관명"; "질의기관코드";
      "질의기관명"; "관리기관코드"; "등록일시"; "질의요지"; "회답"; "이유"; "관련법령"; "데이터기준일시"] |};
  {| ge_guide := u "cgmExpcNaaccListGuide"; ge_kind := OriginalList; ge_path := u "/DRF/lawSearch.do";
    ge_target := u "naaccCgmExpc"; ge_reason := u "finite_documented_original_inventory";
    ge_request_fields := fields ["OC"; "target"; "type"; "search"; "query"; "display"; "page";
      "inq"; "rpl"; "gana"; "itmno"; "explYd"; "sort"; "popYn"; "fields"];
    ge_response_fields := fields ["target"; "키워드"; "section"; "totalCnt"; "page"; "id";
      "법령해석일련번호"; "안건명"; "안건번호"; "질의기관코드"; "질의기관명"; "해석기관코드"; "해석기관명"; "해석일자"; "데이터기준일시";
      "법령해석상세링크"] |};
  {| ge_guide := u "cgmExpcNaaccInfoGuide"; ge_kind := OriginalDetail; ge_path := u "/DRF/lawService.do";
    ge_target := u "naaccCgmExpc"; ge_reason := u "documented_original_body_view";
    ge_request_fields := fields ["OC"; "target"; "type"; "ID"; "LM"; "fields"];
    ge_response_fields := fields ["법령해석일련번호"; "안건명"; "안건번호"; "해석일자"; "해석기관코드"; "해석기관명"; "질의기관코드";
      "질의기관명"; "관리기관코드"; "등록일시"; "질의요지"; "회답"; "이유"; "관련법령"; "데이터기준일시"] |};
  {| ge_guide := u "specialDeccTtListGuide"; ge_kind := OriginalList; ge_path := u "/DRF/lawSearch.do";
    ge_target := u "ttSpecialDecc"; ge_reason := u "finite_documented_original_inventory";
    ge_request_fields := fields ["OC"; "target"; "type"; "search"; "query"; "display"; "page";
      "cls"; "gana"; "date"; "dpaYd"; "rslYd"; "sort"; "popYn"; "fields"];
    ge_response_fields := fields ["target"; "키워드"; "section"; "totalCnt"; "page"; "deccid";
      "특별행정심판재결례일련번호"; "사건명"; "청구번호"; "처분일자"; "의결일자"; "처분청"; "재결청"; "재결구분명"; "재결구분코드"; "데이터기준일시";
      "행정심판재결례상세링크"] |};
  {| ge_guide := u "specialDeccTtInfoGuide"; ge_kind := OriginalDetail; ge_path := u "/DRF/lawService.do";
    ge_target := u "ttSpecialDecc"; ge_reason := u "documented_original_body_view";
    ge_request_fields := fields ["OC"; "target"; "type"; "ID"; "LM"; "fields"];
    ge_response_fields := fields ["특별행정심판재결례일련번호"; "사건명"; "사건번호"; "청구번호"; "처분일자"; "의결일자"; "처분청";
      "재결청"; "재결례유형명"; "재결례유형코드"; "세목"; "재결요지"; "따른결정"; "참조결정"; "주문"; "청구취지"; "이유"; "관련법령";
      "데이터기준일시"] |};
  {| ge_guide := u "specialDeccKmstListGuide"; ge_kind := OriginalList; ge_path := u "/DRF/lawSearch.do";
    ge_target := u "kmstSpecialDecc"; ge_reason := u "finite_documented_original_inventory";
    ge_request_fields := fields ["OC"; "target"; "type"; "search"; "query"; "display"; "page";
      "cls"; "gana"; "date"; "dpaYd"; "rslYd"; "sort"; "popYn"; "fields"];
    ge_response_fields := fields ["target"; "키워드"; "section"; "totalCnt"; "page"; "deccid";
      "특별행정심판재결례일련번호"; "사건명"; "재결번호"; "처분일자"; "의결일자"; "처분청"; "재결청"; "재결구분명"; "재결구분코드"; "데이터기준일시";
      "행정심판재결례상세링크"] |};
  {| ge_guide := u "specialDeccKmstInfoGuide"; ge_kind := OriginalDetail; ge_path := u "/DRF/lawService.do";
    ge_target := u "kmstSpecialDecc"; ge_reason := u "documented_original_body_view";
    ge_request_fields := fields ["OC"; "target"; "type"; "ID"; "LM"; "fields"];
    ge_response_fields := fields ["특별행정심판재결례일련번호"; "사건명"; "사건번호"; "처분일자"; "의결일자"; "처분청"; "재결청";
      "재결례유형명"; "재결례유형코드"; "재결번호"; "주문"; "청구취지"; "이유"; "해양사고관련자"; "심판관"; "사고유형"; "선박유형"; "해심위치";
      "재심청구안내"; "별지"; "의결종류"; "재결위원회"; "데이터기준일시"] |};
  {| ge_guide := u "specialDeccAcrListGuide"; ge_kind := OriginalList; ge_path := u "/DRF/lawSearch.do";
    ge_target := u "acrSpecialDecc"; ge_reason := u "finite_documented_original_inventory";
    ge_request_fields := fields ["OC"; "target"; "type"; "search"; "query"; "display"; "page";
      "cls"; "gana"; "date"; "dpaYd"; "rslYd"; "sort"; "popYn"; "fields"];
    ge_response_fields := fields ["target"; "키워드"; "section"; "totalCnt"; "page"; "deccid";
      "특별행정심판재결례일련번호"; "사건명"; "사건번호"; "처분일자"; "의결일자"; "처분청"; "재결청"; "재결구분명"; "재결구분코드"; "데이터기준일시";
      "행정심판재결례상세링크"] |};
  {| ge_guide := u "specialDeccAcrInfoGuide"; ge_kind := OriginalDetail; ge_path := u "/DRF/lawService.do";
    ge_target := u "acrSpecialDecc"; ge_reason := u "documented_original_body_view";
    ge_request_fields := fields ["OC"; "target"; "type"; "ID"; "LM"; "fields"];
    ge_response_fields := fields ["특별행정심판재결례일련번호"; "사건명"; "사건번호"; "처분일자"; "의결일자"; "처분청"; "재결청";
      "재결례유형명"; "재결례유형코드"; "주문"; "청구취지"; "이유"; "재결요지"; "상위처분청코드"; "상위처분청"; "관계법령"; "원본다운로드URL";
      "데이터기준일시"] |};
  {| ge_guide := u "specialDeccAdapListGuide"; ge_kind := OriginalList; ge_path := u "/DRF/lawSearch.do";
    ge_target := u "adapSpecialDecc"; ge_reason := u "finite_documented_original_inventory";
    ge_request_fields := fields ["OC"; "target"; "type"; "search"; "query"; "display"; "page";
      "cls"; "gana"; "date"; "dpaYd"; "rslYd"; "sort"; "popYn"; "fields"];
    ge_response_fields := fields ["target"; "키워드"; "section"; "totalCnt"; "page"; "deccid";
      "특별행정심판재결례일련번호"; "사건명"; "사건번호"; "처분일자"; "의결일자"; "처분청"; "재결청"; "재결구분명"; "재결구분코드"; "데이터기준일시";
      "행정심판재결례상세링크"] |};
  {| ge_guide := u "specialDeccAdapInfoGuide"; ge_kind := OriginalDetail; ge_path := u "/DRF/lawService.do";
    ge_target := u "adapSpecialDecc"; ge_reason := u "documented_original_body_view";
    ge_request_fields := fields ["OC"; "target"; "type"; "ID"; "LM"; "fields"];
    ge_response_fields := fields ["특별행정심판재결례일련번호"; "사건명"; "사건번호"; "처분일자"; "의결일자"; "처분청"; "재결청";
      "재결례유형명"; "재결례유형코드"; "주문"; "청구취지"; "이유"; "재결요지"; "소청사례명"; "처분요지"; "소청이유"; "소청인"; "피소청인";
      "주문"; "이유"; "원처분"; "결정유형"; "대분류"; "중분류"; "소분류"; "데이터기준일자"] |};
  {| ge_guide := u "baiPvcsListGuide"; ge_kind := OriginalList; ge_path := u "/DRF/lawSearch.do";
    ge_target := u "baiPvcs"; ge_reason := u "finite_documented_original_inventory";
    ge_request_fields := fields ["OC"; "target"; "type"; "search"; "query"; "display"; "page";
      "gana"; "date"; "rslYd"; "sort"; "popYn"; "fields"];
    ge_response_fields := fields ["target"; "키워드"; "section"; "totalCnt"; "page"; "baiPvcsid";
      "감사원사전컨설팅의견서일련번호"; "의견서명"; "회신일자"; "신청기관명"; "접수번호"; "데이터기준일시"; "감사원사전컨설팅의견서상세링크"] |};
  {| ge_guide := u "baiPvcsInfoGuide"; ge_kind := OriginalDetail; ge_path := u "/DRF/lawService.do";
    ge_target := u "baiPvcs"; ge_reason := u "documented_original_body_view";
    ge_request_fields := fields ["OC"; "target"; "type"; "ID"; "LM"; "fields"];
    ge_response_fields := fields ["감사원사전컨설팅의견서일련번호"; "의견서명"; "회신일자"; "요청기관명"; "접수번호"; "개요"; "요지";
      "판단기준"; "검토결과"; "종합의견"; "데이터기준일자"] |}].

Definition GUIDE_ENTRIES : list GuideEntry := guides_1 ++ guides_2 ++ guides_3.

(** * Theorems *)

Lemma source_family_found dataset :
  SOURCE_FAMILIES !! family_index dataset = Some (source_family dataset).
Proof. destruct dataset; reflexivity. Qed.

Lemma source_family_dataset dataset : sf_dataset (source_family dataset) = dataset.
Proof. destruct dataset; reflexivity. Qed.

Lemma family_listed family : family ∈ SOURCE_FAMILIES -> family = source_family (sf_dataset family).
Proof.
  intros Hin. apply list_elem_of_lookup in Hin as [i Hi].
  assert (Forall (fun p : nat * SourceFamily => family_index (sf_dataset p.2) = p.1)
            (imap pair SOURCE_FAMILIES)) as Ha by (repeat constructor).
  rewrite Forall_lookup in Ha. specialize (Ha i (i, family)).
  rewrite list_lookup_imap, Hi in Ha. specialize (Ha eq_refl). simpl in Ha.
  pose proof (source_family_found (sf_dataset family)) as Hf. rewrite Ha in Hf. congruence.
Qed.

(** The guides document this route for this target. *)
Definition documented (path target : str) (guide : str) : bool :=
  existsb (fun entry => str_eqb (ge_guide entry) guide && str_eqb (ge_path entry) path
                        && str_eqb (ge_target entry) target) GUIDE_ENTRIES.

(** The two families whose guides are the school rules' guides. *)
Definition shares_school_guide (dataset : Dataset) : bool :=
  match dataset with LocalPublicCorporationRule | PublicInstitutionRule => true | _ => false end.

Definition guide_target (family : SourceFamily) : str :=
  if shares_school_guide (sf_dataset family) then sf_target (source_family SchoolRule)
  else sf_target family.

(** What each entry of the registry states, as a test over the table. *)
Definition family_consistent (family : SourceFamily) : bool :=
  negb (str_eqb (sf_target family) []) && forallb is_ascii_alphanumeric (sf_target family)
  && negb (bool_decide (sf_id_fields family = [])) && negb (bool_decide (sf_title_fields family = []))
  && documented (sf_list_path family) (guide_target family) (sf_list_guide family)
  && match sf_detail_path family, sf_detail_guide family with
     | Some path, Some guide => documented path (guide_target family) guide
     | None, None => true
     | _, _ => false
     end
  && Bool.eqb (bool_decide (sf_detail_mode family = ListOnly)) (negb (is_some (sf_detail_path family)))
  && Bool.eqb (bool_decide (sf_history_mode family = HistoryNone))
       (negb (has_provider_revisions (sf_dataset family)))
  && (has_provider_revisions (sf_dataset family)
      || bool_decide (sf_id_fields family = sf_revision_fields family)).

Lemma families_consistent : forallb family_consistent SOURCE_FAMILIES = true.
Proof. vm_compute. reflexivity. Qed.

Lemma targets_distinct : NoDup (sf_target <$> SOURCE_FAMILIES).
Proof. apply all_distinct_NoDup. vm_compute. reflexivity. Qed.

Lemma family_consistent_all dataset : family_consistent (source_family dataset) = true.
Proof.
  pose proof families_consistent as Hc. rewrite forallb_Forall, Forall_lookup in Hc.
  apply (Hc _ _ (source_family_found dataset)).
Qed.

Lemma documented_entry path target guide :
  documented path target guide = true ->
  exists entry, entry ∈ GUIDE_ENTRIES /\ ge_guide entry = guide /\ ge_path entry = path
                /\ ge_target entry = target.
Proof.
  unfold documented. rewrite existsb_exists. intros (entry & Hin & He).
  exists entry. rewrite <- list_elem_of_In in Hin. bool_hyps. rewrite !str_eqb_eq in *. tauto.
Qed.

Lemma current_identity dataset :
  has_provider_revisions dataset = false ->
  sf_id_fields (source_family dataset) = sf_revision_fields (source_family dataset).
Proof.
  intros Hr. pose proof (family_consistent_all dataset) as Hc. unfold family_consistent in Hc.
  rewrite source_family_dataset, Hr in Hc. bool_hyps. simpl in *. by bool_hyps.
Qed.

Lemma id_fields_nonempty dataset : sf_id_fields (source_family dataset) <> [].
Proof.
  pose proof (family_consistent_all dataset) as Hc. unfold family_consistent in Hc. by bool_hyps.
Qed.

Lemma family_target_inj other dataset :
  sf_target (source_family other) = sf_target (source_family dataset) -> other = dataset.
Proof.
  intros Ht. pose proof targets_distinct as Hd. rewrite NoDup_alt in Hd.
  assert (family_index other = family_index dataset) as Hi.
  { apply (Hd _ _ (sf_target (source_family dataset))).
    - by rewrite list_lookup_fmap, source_family_found, <- Ht.
    - by rewrite list_lookup_fmap, source_family_found. }
  pose proof (source_family_found other) as Ho. rewrite Hi, source_family_found in Ho.
  injection Ho as Ho. rewrite <- (source_family_dataset other), <- Ho. apply source_family_dataset.
Qed.

(** The registry is closed: every data family has its own entry, found by the
    indexing the code performs without leaving the table; two data families
    never share the provider's target; every listing route, and every detail
    route, is one that a documented guide names; exactly the families without
    a detail route are read from the listing only; and exactly the families
    whose records the provider revises have a history. *)
Theorem registry_closed dataset :
  let family := source_family dataset in
  SOURCE_FAMILIES !! family_index dataset = Some family
  /\ sf_dataset family = dataset
  /\ (forall other, sf_target (source_family other) = sf_target family -> other = dataset)
  /\ (exists entry, entry ∈ GUIDE_ENTRIES /\ ge_guide entry = sf_list_guide family
        /\ ge_path entry = sf_list_path family /\ ge_target entry = guide_target family)
  /\ (forall path, sf_detail_path family = Some path ->
        exists entry, entry ∈ GUIDE_ENTRIES /\ sf_detail_guide family = Some (ge_guide entry)
          /\ ge_path entry = path /\ ge_target entry = guide_target family)
  /\ (sf_detail_mode family = ListOnly <-> sf_detail_path family = None)
  /\ (sf_history_mode family = HistoryNone <-> has_provider_revisions dataset = false).
Proof.
  cbn zeta. pose proof (family_consistent_all dataset) as Hc. unfold family_consistent in Hc.
  rewrite source_family_dataset in Hc. bool_hyps.
  split; [apply source_family_found|]. split; [apply source_family_dataset|]. split.
  { intros other. apply family_target_inj. }
  split; [by apply documented_entry|]. split.
  { intros path Hp. rewrite Hp in *. destruct (sf_detail_guide _) as [guide|]; [|done].
    destruct (documented_entry _ _ _ ltac:(eassumption)) as (entry & ? & <- & ?).
    by exists entry. }
  split.
  - destruct (sf_detail_path _); simpl in *; split; intros Hx; try done.
    + rewrite bool_decide_true in * by done. done.
    + by destruct (bool_decide_reflect (sf_detail_mode (source_family dataset) = ListOnly)).
  - destruct (bool_decide_reflect (sf_history_mode (source_family dataset) = HistoryNone));
      destruct (has_provider_revisions dataset); simpl in *; done.
Qed.
