(* ===== verification/ProviderTree.v ===== *)
(** Reading a provider's response tree, [crates/adapters/src/law_go_kr.rs]:
    the accessors of parsed elements, the identity of a listed record, and the
    reading of a listing page into inventory items. *)

From S2P Require Import Prelude Utf8 Strings Domain Legal Document Catalogue.

(** * Accessors *)

(** [name.rsplit('}').next()]: the name without its namespace. *)
Definition local (name : str) : str := List.last (split_char 125 name) name.

Definition node_is (p : str -> bool) (node : DocumentNode) : bool :=
  match node with Element name _ _ => p (local name) | Text _ => false end.

(** The elements of a name, in document order. *)
Fixpoint elements (name : str) (node : DocumentNode) : list DocumentNode :=
  match node with
  | Element n _ children =>
    (if str_eqb (local n) name then [node] else []) ++ flat_map (elements name) children
  | Text _ => []
  end.

Fixpoint node_text (node : DocumentNode) : str :=
  match node with
  | Element _ _ children => flat_map node_text children
  | Text value => value
  end.

Definition first (node : DocumentNode) (name : str) : option str :=
  node_text <$> head (elements name node).

Definition date (value : option str) : result DatabaseError (option str) :=
  match value with
  | Some v =>
    if negb (str_eqb v []) then if valid_date v then Ok (Some v) else Err StorageCorrupt
    else Ok None
  | None => Ok None
  end.

Definition numeric_id (value : str) : bool :=
  negb (str_eqb value []) && (slen value <=? 128) && forallb is_ascii_digit (bytes value).

Definition target (dataset : Dataset) : str := sf_target (source_family dataset).

Fixpoint first_of (node : DocumentNode) (names : list str) : option str :=
  match names with
  | [] => None
  | name :: names => match first node name with Some v => Some v | None => first_of node names end
  end.

Definition has_name (names : list str) (name : str) : bool := existsb (str_eqb name) names.

(** Only an element with a direct identity child is a row. *)
Fixpoint identity_rows (names : list str) (node : DocumentNode) : list DocumentNode :=
  match node with
  | Element _ _ children =>
    if existsb (node_is (has_name names)) children then [node]
    else flat_map (identity_rows names) children
  | Text _ => []
  end.

(** * Listed records *)

Record InventoryItem := {
  ii_object : ObjectId; ii_revision_id : str; ii_effective_date : option str;
  ii_publication_date : option str; ii_title : str; ii_data_source : option str;
  ii_case_number : option str; ii_treaty_class_code : option str; ii_amendment_type : option str;
}.

#[export] Instance InventoryItem_eq_dec : EqDecision InventoryItem.
Proof. solve_decision. Defined.

Definition precedent_html (item : InventoryItem) : bool :=
  bool_decide (oid_dataset (ii_object item) = Precedent)
  && opt_test (fun source => str_eqb source (u "국세법령정보시스템") || str_eqb source (u "국세청"))
       (ii_data_source item).

Definition revision_parts (item : InventoryItem) : result DatabaseError (str * option str) :=
  let object := ii_object item in
  if negb (str_eqb (oid_provider object) (u "law_go_kr"))
     || negb (str_eqb (oid_jurisdiction object) (u "kr"))
     || negb (numeric_id (oid_id object))
  then Err InvalidInput
  else if bool_decide (oid_dataset object = NationalStatute) then
    let? me := ok_or (split_once (u ":") (ii_revision_id item)) InvalidInput in
    let '(master, effective) := me in
    if negb (numeric_id master) || negb (valid_date effective)
       || negb (bool_decide (ii_effective_date item = Some effective))
    then Err InvalidInput
    else Ok (master, Some effective)
  else if numeric_id (ii_revision_id item)
          && (has_provider_revisions (oid_dataset object)
              || str_eqb (ii_revision_id item) (oid_id object))
  then Ok (ii_revision_id item, None)
  else Err InvalidInput.

Definition longer (max : Z) (o : option str) : bool := opt_test (fun s => max <? slen s) o.
Definition misdated (o : option str) : bool := opt_test (fun d => negb (valid_date d)) o.

Definition validate_for_detail (item : InventoryItem) : result DatabaseError unit :=
  let? _ := object_validate (ii_object item) in
  let? _ := revision_parts item in
  if misdated (ii_effective_date item) || misdated (ii_publication_date item)
     || (512 <? slen (ii_title item))
     || longer 512 (ii_data_source item) || longer 512 (ii_case_number item)
     || longer 64 (ii_amendment_type item)
  then Err InvalidInput
  else Ok tt.

(** * Listing pages *)

(** The fields of the page the reading of a tree fills in; the evidence
    fields are attached by the caller. *)
Record InventoryPage := {
  ip_items : list InventoryItem; ip_done : bool; ip_total : option Z;
  ip_rejected_rows : Z; ip_incomplete : bool;
}.

(** The rows of a listing: the first documented row tag that occurs, or the
    elements that carry an identity field. *)
Fixpoint tagged_rows (tags : list str) (tree : DocumentNode) : list DocumentNode :=
  match tags with
  | [] => []
  | tag :: tags =>
    match elements tag tree with [] => tagged_rows tags tree | rows => rows end
  end.

Definition listing_rows (family : SourceFamily) (tree : DocumentNode) : list DocumentNode :=
  match tagged_rows (sf_row_tags family) tree with
  | [] => identity_rows (sf_id_fields family) tree
  | rows => rows
  end.

Definition row_effective_date (dataset : Dataset) (node : DocumentNode)
  : result DatabaseError (option str) :=
  match dataset with
  | NationalStatute | AdministrativeRule | Ordinance | EnglishStatute | SchoolRule
  | LocalPublicCorporationRule | PublicInstitutionRule => date (first node (u "시행일자"))
  | Treaty => date (first node (u "발효일자"))
  | _ => Ok None
  end.

Definition row_publication_date (dataset : Dataset) (node : DocumentNode)
  : result DatabaseError (option str) :=
  match dataset with
  | NationalStatute | Ordinance | EnglishStatute => date (first node (u "공포일자"))
  | _ => Ok None
  end.

Definition nonempty_short (v : str) : bool := negb (str_eqb v []) && (slen v <=? 64).

(** The closure [parsed]: [Ok None] is a placeholder row. *)
Definition parse_row (dataset : Dataset) (node : DocumentNode)
  : result DatabaseError (option InventoryItem) :=
  let family := source_family dataset in
  let? id := ok_or (first_of node (sf_id_fields family)) StorageCorrupt in
  let? master := ok_or (first_of node (sf_revision_fields family)) StorageCorrupt in
  let zero := str_eqb master (u "0") || str_eqb id (u "0") in
  if bool_decide (dataset = AdministrativeAppeal) && zero then Ok None
  else if negb (numeric_id master) || negb (numeric_id id) || zero then Err StorageCorrupt
  else
    let title := default [] (first_of node (sf_title_fields family)) in
    let object := {| oid_jurisdiction := u "kr"; oid_provider := u "law_go_kr";
                     oid_dataset := dataset; oid_id := id |} in
    let? _ := object_validate object in
    let? effective_date := row_effective_date dataset node in
    let? revision_id :=
      if bool_decide (dataset = NationalStatute) then
        let? effective := ok_or effective_date StorageCorrupt in
        Ok (master ++ u ":" ++ effective)
      else Ok master in
    let? publication_date := row_publication_date dataset node in
    Ok (Some {| ii_object := object; ii_revision_id := revision_id;
      ii_effective_date := effective_date; ii_publication_date := publication_date;
      ii_title := title; ii_data_source := first node (u "데이터출처명");
      ii_case_number := first node (u "사건번호");
      ii_treaty_class_code :=
        if bool_decide (dataset = Treaty) then first node (u "조약구분코드") else None;
      ii_amendment_type :=
        if has_provider_revisions dataset then
          match first node (u "제개정구분명") with
          | Some v => if nonempty_short v then Some v else None
          | None => None
          end
        else None |}).

Fixpoint parse_rows (dataset : Dataset) (nodes : list DocumentNode)
  (items : list InventoryItem) (rejected : Z) : list InventoryItem * Z :=
  match nodes with
  | [] => (items, rejected)
  | node :: nodes =>
    match parse_row dataset node with
    | Ok (Some item) => parse_rows dataset nodes (items ++ [item]) rejected
    | Ok None => parse_rows dataset nodes items rejected
    | Err _ => parse_rows dataset nodes items (rejected + 1)
    end
  end.

(** [u64::from(page.saturating_sub(1)) * 100] *)
Definition rows_before (page : Z) : Z := saturating_sub page 1 * 100.

Definition parse_inventory_tree (tree : DocumentNode) (dataset : Dataset) (page : Z)
  : InventoryPage :=
  let nodes := listing_rows (source_family dataset) tree in
  let observed_rows := zlen nodes in
  let '(items, rejected_rows) := parse_rows dataset nodes [] 0 in
  let total := first tree (u "totalCnt") ≫= parse_unsigned u64_max in
  let incomplete := (0 <? rejected_rows) || negb (is_some total) || (100 <? observed_rows)
    || opt_test (fun total => total <? rows_before page + observed_rows) total
    || opt_test (fun total => negb (bool_decide (dataset = AdministrativeAppeal))
                   && bool_decide (items = []) && (rows_before page <? total)) total in
  {| ip_items := take 100 items; ip_total := total;
     ip_done := opt_test (fun total => total <=? page * 100) total;
     ip_rejected_rows := rejected_rows; ip_incomplete := incomplete |}.

(** * Checkpoints of a current listing *)

Record CurrentRevisionRow := {
  cr_effective_date : option str; cr_dataset : str; cr_id : str; cr_jurisdiction : str;
  cr_provider : str; cr_publication_date : option str; cr_revision_id : str;
}.

Class InventoryJson := {
  (** [serde_json::to_string] of one row *)
  row_json : CurrentRevisionRow -> option str;
  (** the length of [serde_json::to_vec] of the manifest *)
  manifest_json_len : gmap str str -> option Z;
}.

Definition current_row (item : InventoryItem) : CurrentRevisionRow :=
  {| cr_effective_date := ii_effective_date item; cr_dataset := as_str (oid_dataset (ii_object item));
     cr_id := oid_id (ii_object item); cr_jurisdiction := oid_jurisdiction (ii_object item);
     cr_provider := oid_provider (ii_object item);
     cr_publication_date := ii_publication_date item; cr_revision_id := ii_revision_id item |}.

(** [format!("{index:03}")] *)
Definition three_digits (index : Z) : str :=
  let digits := show_Z index in replicate (3 - length digits) 48 ++ digits.

Definition row_key (index : Z) : str := u "current_revision_" ++ three_digits index.

Fixpoint manifest_rows `{InventoryJson} (index : Z) (items : list InventoryItem)
  (metadata : gmap str str) : result DatabaseError (gmap str str) :=
  match items with
  | [] => Ok metadata
  | item :: items =>
    let object := ii_object item in
    if negb (str_eqb (oid_jurisdiction object) (u "kr"))
       || negb (str_eqb (oid_provider object) (u "law_go_kr"))
    then Err InvalidInput
    else
      let? _ := object_validate object in
      let? _ := revision_parts item in
      if misdated (ii_effective_date item) || misdated (ii_publication_date item)
      then Err InvalidInput
      else
        let? value := ok_or (row_json (current_row item)) InvalidInput in
        if 4096 <? slen value then Err InvalidInput
        else manifest_rows (index + 1) items (<[row_key index := value]> metadata)
  end.

Definition current_revision_metadata `{InventoryJson} (page : InventoryPage)
  : result DatabaseError (gmap str str) :=
  if 100 <? zlen (ip_items page) then Err InvalidInput
  else
    let? metadata := manifest_rows 0 (ip_items page)
      {[u "current_revision_rows" := show_Z (zlen (ip_items page))]} in
    let? len := ok_or (manifest_json_len metadata) InvalidInput in
    if 60 * 1024 <? len then Err InvalidInput else Ok metadata.

(** The groups of a page: the first row of each object with its conflict flag,
    in the order of first appearance; the position map of the code finds the
    group of an object. *)
Definition checkpoint (item : InventoryItem) : str * option str :=
  (ii_revision_id item, ii_effective_date item).

Fixpoint add_to_group (item : InventoryItem) (groups : list (InventoryItem * bool))
  : list (InventoryItem * bool) :=
  match groups with
  | [] => [(item, false)]
  | (head, conflicting) :: groups =>
    if bool_decide (ii_object head = ii_object item)
    then (head, conflicting || negb (bool_decide (checkpoint head = checkpoint item))) :: groups
    else (head, conflicting) :: add_to_group item groups
  end.

Definition conflicting_current_objects (page : InventoryPage) : list ObjectId :=
  (fun group => ii_object group.1)
    <$> filter (fun group => group.2 = true)
          (fold_left (fun groups item => add_to_group item groups) (ip_items page) []).

(** * What the reading of a listing promises

    What the reading of a listing promises: every listed item can be asked for
    in detail, every row of the page is accounted for, and a page that names
    two checkpoints of one object reports that object. *)

(** * Fields *)

Lemma date_Ok v d : date v = Ok d -> misdated d = false.
Proof.
  destruct v as [v|]; simpl; [|by intros [= <-]].
  destruct (str_eqb v []); simpl; [by intros [= <-]|].
  destruct (valid_date v) eqn:Ev; [|done]. intros [= <-]. simpl. by rewrite Ev.
Qed.

Lemma misdated_Some d : misdated (Some d) = false <-> valid_date d = true.
Proof. simpl. by rewrite negb_false_iff. Qed.

Lemma numeric_id_spec v :
  numeric_id v = true <-> v <> [] /\ slen v <= 128 /\ forallb is_ascii_digit v = true.
Proof.
  unfold numeric_id. rewrite !andb_true_iff, negb_true_iff, Z.leb_le, forallb_digit_bytes. split.
  - intros [[Hv Hl] Hd]. split_and!; try done. intros ->. discriminate.
  - intros (Hv & Hl & Hd). split_and!; try done. by destruct (str_eqb v []) eqn:E; [apply str_eqb_eq in E|].
Qed.

Lemma numeric_no_colon v : numeric_id v = true -> 58 ∉ v.
Proof.
  intros (_ & _ & Hd)%numeric_id_spec Hin. apply forallb_Forall in Hd.
  rewrite Forall_forall in Hd. apply Hd in Hin. discriminate.
Qed.

(** Digits are bytes of an identifier. *)
Lemma numeric_identifier v : numeric_id v = true -> valid_identifier v 128 = true.
Proof.
  unfold numeric_id, valid_identifier. rewrite !andb_true_iff. intros [[Hv Hl] Hd].
  split_and!; [|done|].
  - rewrite negb_true_iff in *. destruct v; [discriminate|]. by rewrite bool_decide_eq_false.
  - apply forallb_Forall. apply forallb_Forall in Hd. eapply Forall_impl; [exact Hd|].
    intros b Hb. cbv beta. unfold is_ascii_alphanumeric. by rewrite Hb.
Qed.

(** * Rows *)

(** What a listed item promises to the routes of the client. *)
Record addressable (dataset : Dataset) (item : InventoryItem) : Prop := {
  ad_dataset : oid_dataset (ii_object item) = dataset;
  ad_object : object_validate (ii_object item) = Ok tt;
  ad_revision : exists parts, revision_parts item = Ok parts;
  ad_effective : misdated (ii_effective_date item) = false;
  ad_publication : misdated (ii_publication_date item) = false;
  ad_amendment : longer 64 (ii_amendment_type item) = false;
}.

Lemma row_effective_date_Ok dataset node d : row_effective_date dataset node = Ok d -> misdated d = false.
Proof. unfold row_effective_date. destruct dataset; intros H; simplify_eq; try done; by apply date_Ok in H. Qed.

Lemma row_publication_date_Ok dataset node d : row_publication_date dataset node = Ok d -> misdated d = false.
Proof. unfold row_publication_date. destruct dataset; intros H; simplify_eq; try done; by apply date_Ok in H. Qed.

Lemma first_of_current dataset node id master :
  has_provider_revisions dataset = false ->
  first_of node (sf_id_fields (source_family dataset)) = Some id ->
  first_of node (sf_revision_fields (source_family dataset)) = Some master -> master = id.
Proof. intros Hr. rewrite (current_identity dataset Hr). congruence. Qed.

Lemma amendment_short dataset node :
  longer 64 (if has_provider_revisions dataset then
     match first node (u "제개정구분명") with
     | Some v => if nonempty_short v then Some v else None
     | None => None
     end else None) = false.
Proof.
  destruct (has_provider_revisions dataset); [|done]. destruct (first node _) as [v|]; [|done].
  unfold nonempty_short. destruct (str_eqb v []); simpl; [done|].
  destruct (Z.leb_spec (slen v) 64); simpl; [by apply Z.ltb_ge|done].
Qed.

Lemma parse_row_spec dataset node item :
  parse_row dataset node = Ok (Some item) -> addressable dataset item.
Proof.
  unfold parse_row. destruct (first_of node (sf_id_fields _)) as [id|] eqn:Ei; [|done]. cbn [ok_or].
  destruct (first_of node (sf_revision_fields _)) as [master|] eqn:Em; [|done]. cbn [ok_or].
  destruct (bool_decide (dataset = AdministrativeAppeal) && _); [done|].
  destruct (numeric_id master) eqn:Nm; [|done]. destruct (numeric_id id) eqn:Ni; [|done]. cbn [negb orb].
  destruct (str_eqb master (u "0") || _); [done|].
  assert (object_validate {| oid_jurisdiction := u "kr"; oid_provider := u "law_go_kr";
    oid_dataset := dataset; oid_id := id |} = Ok tt) as Ho.
  { unfold object_validate. cbn [oid_jurisdiction oid_provider oid_id].
    rewrite (numeric_identifier id Ni). reflexivity. }
  rewrite Ho. destruct (row_effective_date dataset node) as [eff|] eqn:Ee; [|done].
  pose proof (row_effective_date_Ok _ _ _ Ee) as He.
  destruct (decide (dataset = NationalStatute)) as [Hd|Hd].
  - rewrite (bool_decide_true _ Hd). destruct eff as [eff|]; [|done]. cbn [ok_or].
    destruct (row_publication_date dataset node) as [pub|] eqn:Ep; [|done].
    pose proof (row_publication_date_Ok _ _ _ Ep) as Hp. intros [= <-].
    split; cbn [ii_object ii_effective_date ii_publication_date ii_amendment_type oid_dataset];
      [done|done| |done|done|apply amendment_short].
    exists (master, Some eff). unfold revision_parts.
    cbn [ii_object ii_revision_id ii_effective_date oid_provider oid_jurisdiction oid_dataset oid_id].
    rewrite Ni, (bool_decide_true _ Hd), !str_eqb_refl. cbn [negb orb].
    change (u ":") with [58]. cbn [app].
    rewrite split_once_char by (by apply numeric_no_colon). cbn [ok_or].
    apply misdated_Some in He. by rewrite Nm, He, bool_decide_true.
  - rewrite (bool_decide_false _ Hd).
    destruct (row_publication_date dataset node) as [pub|] eqn:Ep; [|done].
    pose proof (row_publication_date_Ok _ _ _ Ep) as Hp. intros [= <-].
    split; cbn [ii_object ii_effective_date ii_publication_date ii_amendment_type oid_dataset];
      [done|done| |done|done|apply amendment_short].
    exists (master, None). unfold revision_parts.
    cbn [ii_object ii_revision_id ii_effective_date oid_provider oid_jurisdiction oid_dataset oid_id].
    rewrite Ni, (bool_decide_false _ Hd), !str_eqb_refl. cbn [negb orb].
    rewrite Nm. destruct (has_provider_revisions dataset) eqn:Er; [done|].
    rewrite (first_of_current _ _ _ _ Er Ei Em). by rewrite str_eqb_refl.
Qed.

(** The rows of a page fall into items, rejections and placeholders. *)
Definition row_item (dataset : Dataset) (node : DocumentNode) : option InventoryItem :=
  match parse_row dataset node with Ok (Some item) => Some item | _ => None end.
Definition row_rejected (dataset : Dataset) (node : DocumentNode) : bool := negb (is_ok (parse_row dataset node)).
Definition row_placeholder (dataset : Dataset) (node : DocumentNode) : bool :=
  match parse_row dataset node with Ok None => true | _ => false end.

Lemma parse_rows_spec dataset nodes items rejected :
  parse_rows dataset nodes items rejected
  = (items ++ omap (row_item dataset) nodes, rejected + countb (row_rejected dataset) nodes).
Proof.
  revert items rejected. induction nodes as [|node nodes IH]; intros items rejected; simpl.
  { by rewrite app_nil_r, Z.add_0_r. }
  unfold row_item, row_rejected at 1. destruct (parse_row dataset node) as [[item|]|e]; simpl; rewrite IH.
  - by rewrite <- app_assoc.
  - by rewrite Z.add_0_l.
  - f_equal. lia.
Qed.

Lemma rows_accounted dataset nodes :
  zlen nodes = zlen (omap (row_item dataset) nodes) + countb (row_rejected dataset) nodes
               + countb (row_placeholder dataset) nodes.
Proof.
  induction nodes as [|node nodes IH]; [done|]. cbn [countb]. rewrite zlen_cons, IH.
  change (omap (row_item dataset) (node :: nodes))
    with (match row_item dataset node with Some item => item :: omap (row_item dataset) nodes
          | None => omap (row_item dataset) nodes end).
  assert (H : 1 = match row_item dataset node with Some _ => 1 | None => 0 end + Z.b2z (row_rejected dataset node)
                  + Z.b2z (row_placeholder dataset node)).
  { unfold row_item, row_rejected, row_placeholder. by destruct (parse_row dataset node) as [[item|]|e]. }
  destruct (row_item dataset node); zlen_simpl; lia.
Qed.

Lemma placeholder_appeal dataset node :
  row_placeholder dataset node = true -> dataset = AdministrativeAppeal.
Proof.
  unfold row_placeholder, parse_row. destruct (first_of node _) as [id|]; [|done]. cbn [ok_or].
  destruct (first_of node _) as [master|]; [|done]. cbn [ok_or].
  destruct (bool_decide_reflect (dataset = AdministrativeAppeal)); [done|]. cbn [andb].
  destruct (_ || _ || _); [done|].
  destruct (object_validate _); [|done]. destruct (row_effective_date _ _) as [eff|]; [|done].
  destruct (if bool_decide _ then _ else _); [|done]. by destruct (row_publication_date _ _).
Qed.

Lemma no_placeholders dataset nodes :
  dataset <> AdministrativeAppeal -> countb (row_placeholder dataset) nodes = 0.
Proof.
  intros Hd. induction nodes as [|node nodes IH]; simpl; [done|]. rewrite IH.
  destruct (row_placeholder dataset node) eqn:E; [|done]. by apply placeholder_appeal in E.
Qed.

Lemma opt_test_false {A} (p : A -> bool) o : opt_test p o = false <-> forall a, o = Some a -> p a = false.
Proof. destruct o; simpl; naive_solver. Qed.

Lemma listed_addressable tree dataset page :
  Forall (addressable dataset) (ip_items (parse_inventory_tree tree dataset page)).
Proof.
  unfold parse_inventory_tree. rewrite parse_rows_spec. cbn [app ip_items].
  apply Forall_take, Forall_forall. intros item (node & _ & Hn)%list_elem_of_omap.
  unfold row_item in Hn. destruct (parse_row dataset node) as [[?|]|] eqn:E; simplify_eq.
  by apply parse_row_spec in E.
Qed.

(** A listing names only records that can be asked for in detail: each item
    is of the listed family, has a valid identity, a revision the detail route
    accepts and well-formed dates.  At most one hundred items are kept.  A
    page that is not marked incomplete lost nothing: no row was rejected, the
    provider stated the total, every row observed became an item (the
    placeholder rows of administrative appeals apart), and the rows so far do
    not exceed the total. *)
Theorem listing_spec tree dataset page :
  let rows := listing_rows (source_family dataset) tree in
  let listing := parse_inventory_tree tree dataset page in
  Forall (addressable dataset) (ip_items listing)
  /\ zlen (ip_items listing) <= 100
  /\ (ip_incomplete listing = false ->
      ip_rejected_rows listing = 0
      /\ ip_items listing = omap (row_item dataset) rows
      /\ (dataset <> AdministrativeAppeal -> zlen (ip_items listing) = zlen rows)
      /\ exists total, ip_total listing = Some total /\ rows_before page + zlen rows <= total).
Proof.
  cbn zeta. split; [apply listed_addressable|].
  unfold parse_inventory_tree. rewrite parse_rows_spec. cbn [app].
  set (rows := listing_rows _ _). cbn [ip_items ip_incomplete ip_rejected_rows ip_total].
  pose proof (rows_accounted dataset rows) as Hacc. pose proof (countb_nonneg (row_rejected dataset) rows).
  pose proof (countb_nonneg (row_placeholder dataset) rows). split_and!.
  - unfold zlen. rewrite length_take. lia.
  - intros Hi. bool_hyps. destruct (first tree (u "totalCnt") ≫= _) as [total|]; [|done]. simpl in *.
    bool_hyps. pose proof (zlen_nonneg (omap (row_item dataset) rows)).
    rewrite take_ge by (unfold zlen in *; lia). split_and!; [lia|done| |by exists total].
    intros Hd. rewrite (no_placeholders dataset rows Hd) in Hacc. lia.
Qed.

(** * Conflicting checkpoints *)

(** The rows of one object. *)
Definition rows_of (o : ObjectId) (items : list InventoryItem) : list InventoryItem :=
  filter (fun item => ii_object item = o) items.

(** The objects of a page in the order they first appear. *)
Definition note_object (os : list ObjectId) (item : InventoryItem) : list ObjectId :=
  if decide (ii_object item ∈ os) then os else os ++ [ii_object item].
Definition first_objects (items : list InventoryItem) : list ObjectId := fold_left note_object items [].

(** Two rows of the list state different revisions or effective dates. *)
Definition disagree (items : list InventoryItem) : Prop :=
  Exists (fun a => Exists (fun b =>
    (ii_revision_id a, ii_effective_date a) <> (ii_revision_id b, ii_effective_date b)) items) items.

(** A group stands for the rows of one object seen so far. *)
Definition grouped (items : list InventoryItem) (o : ObjectId) (g : InventoryItem * bool) : Prop :=
  exists rest, rows_of o items = g.1 :: rest
               /\ g.2 = existsb (fun r => negb (bool_decide (checkpoint g.1 = checkpoint r))) rest.

Lemma rows_of_snoc o items x :
  rows_of o (items ++ [x]) = rows_of o items ++ (if decide (ii_object x = o) then [x] else []).
Proof. unfold rows_of. rewrite filter_app. reflexivity. Qed.

Lemma grouped_object items o g : grouped items o g -> ii_object g.1 = o.
Proof.
  intros (rest & Hr & _). assert (g.1 ∈ rows_of o items) as Hin by (rewrite Hr; by left).
  by apply list_elem_of_filter in Hin as [? _].
Qed.

Lemma grouped_other items o g x : ii_object x <> o -> grouped items o g -> grouped (items ++ [x]) o g.
Proof. intros Hx (rest & Hr & Hg). exists rest. by rewrite rows_of_snoc, decide_False, app_nil_r. Qed.

Lemma add_to_group_spec items x os gs :
  NoDup os -> (ii_object x ∉ os -> rows_of (ii_object x) items = []) ->
  Forall2 (grouped items) os gs ->
  Forall2 (grouped (items ++ [x])) (note_object os x) (add_to_group x gs).
Proof.
  intros Hnd Hx Hg. assert (Hnew : ii_object x ∉ os -> grouped (items ++ [x]) (ii_object x) (x, false)).
  { intros Hn. exists []. rewrite rows_of_snoc, decide_True, Hx; done. }
  clear Hx. unfold note_object. induction Hg as [|o [h c] os gs Hgo Hg IH]; cbn [add_to_group].
  { rewrite decide_False by apply not_elem_of_nil. constructor; [|constructor]. apply Hnew, not_elem_of_nil. }
  apply NoDup_cons in Hnd as [Ho Hnd].
  pose proof (grouped_object _ _ _ Hgo) as Hh. cbn [fst] in Hh. subst o.
  destruct (decide (ii_object h = ii_object x)) as [E|E].
  - rewrite (bool_decide_true _ E), decide_True by (rewrite E; by left). constructor.
    + destruct Hgo as (rest & Hr & Hc). exists (rest ++ [x]). rewrite rows_of_snoc, Hr, decide_True by done.
      split; [done|]. cbn [fst snd] in *. rewrite existsb_app, Hc. cbn [existsb]. by rewrite orb_false_r.
    + apply Forall2_same_length_lookup. apply Forall2_same_length_lookup in Hg as [Hl Hg].
      split; [done|]. intros i o g Hi Hgi. apply grouped_other; [|by apply (Hg i)].
      intros <-. apply Ho. rewrite E. by apply list_elem_of_lookup_2 in Hi.
  - rewrite bool_decide_false by done.
    assert (ii_object x ∈ os <-> ii_object x ∈ ii_object h :: os) as Hin.
    { rewrite elem_of_cons. split; [by right|]. by intros [?|?]. }
    assert (IH' := IH Hnd ltac:(intros ?; apply Hnew; by rewrite <- Hin)).
    destruct (decide (ii_object x ∈ os)) as [Hi|Hi].
    + rewrite decide_True by by apply Hin. constructor; [by apply grouped_other|done].
    + rewrite decide_False by by rewrite <- Hin. cbn [app]. constructor; [by apply grouped_other|done].
Qed.

Lemma note_object_spec os x :
  NoDup os -> NoDup (note_object os x) /\ (forall o, o ∈ note_object os x <-> o ∈ os \/ o = ii_object x).
Proof.
  intros Hnd. unfold note_object. destruct (decide (ii_object x ∈ os)) as [Hin|Hin].
  - split; [done|]. intros o. split; [by left|]. by intros [?| ->].
  - split.
    + apply NoDup_app. split_and!; [done| |apply NoDup_singleton].
      intros o Ho ->%list_elem_of_singleton. done.
    + intros o. by rewrite elem_of_app, list_elem_of_singleton.
Qed.

Lemma first_objects_spec items :
  NoDup (first_objects items)
  /\ forall o, o ∈ first_objects items <-> exists item, item ∈ items /\ ii_object item = o.
Proof.
  unfold first_objects. induction items as [|x items IH] using rev_ind; cbn [fold_left].
  { split; [constructor|]. intros o. split; [by intros ?%not_elem_of_nil|].
    by intros (? & ?%not_elem_of_nil & _). }
  rewrite fold_left_app. cbn [fold_left]. destruct IH as [Hnd Hin].
  destruct (note_object_spec _ x Hnd) as [Hnd' Hin']. split; [done|]. intros o. rewrite Hin', Hin. split.
  - intros [(item & ? & ?)| ->]; [exists item|exists x]; (split; [apply elem_of_app|done]);
      [by left|right; by left].
  - intros (item & [Hi|Hi]%elem_of_app & <-); [left; by exists item|right].
    by apply list_elem_of_singleton in Hi as ->.
Qed.

Lemma groups_spec items :
  Forall2 (grouped items) (first_objects items) (fold_left (fun gs item => add_to_group item gs) items []).
Proof.
  induction items as [|x items IH] using rev_ind; [constructor|].
  unfold first_objects. rewrite !fold_left_app. cbn [fold_left].
  destruct (first_objects_spec items) as [Hnd Hin]. apply add_to_group_spec; [done| |done].
  intros Hx. destruct (rows_of (ii_object x) items) as [|r rest] eqn:E; [done|]. exfalso.
  assert (r ∈ rows_of (ii_object x) items) as Hr by (rewrite E; by left).
  apply list_elem_of_filter in Hr as [Ho Hr]. apply Hx, Hin. by exists r.
Qed.

(** A group is in conflict exactly when two of its rows disagree. *)
Lemma grouped_conflict items o g : grouped items o g -> (g.2 = true <-> disagree (rows_of o items)).
Proof.
  intros (rest & Hr & ->). rewrite Hr, existsb_exists. unfold disagree.
  change (ii_revision_id ?a, ii_effective_date ?a) with (checkpoint a). split.
  - intros (b & Hb & Hd). apply Exists_cons_hd, Exists_exists. exists b. bool_hyps.
    split; [right; by apply list_elem_of_In|done].
  - intros (a & Ha & (b & Hb & Hab)%Exists_exists)%Exists_exists.
    destruct (decide (checkpoint g.1 = checkpoint a)) as [E|E].
    + exists b. apply elem_of_cons in Hb as [->|Hb]; [congruence|].
      split; [by apply list_elem_of_In|]. rewrite bool_decide_false by congruence. done.
    + exists a. apply elem_of_cons in Ha as [->|Ha]; [congruence|].
      split; [by apply list_elem_of_In|]. by rewrite bool_decide_false.
Qed.

(** The objects a page reports as conflicting are exactly those for which two
    rows of the page state different checkpoints (revision and effective
    date), each once, in the order they first appear; no row is preferred, so
    the comparison of every row with the first of its object alone misses
    none. *)
Theorem conflicts_spec page :
  conflicting_current_objects page
  = filter (fun o => disagree (rows_of o (ip_items page))) (first_objects (ip_items page))
  /\ NoDup (conflicting_current_objects page)
  /\ (forall o, o ∈ conflicting_current_objects page <->
        exists a b, a ∈ ip_items page /\ b ∈ ip_items page /\ ii_object a = o /\ ii_object b = o
                    /\ checkpoint a <> checkpoint b).
Proof.
  assert (E : conflicting_current_objects page
    = filter (fun o => disagree (rows_of o (ip_items page))) (first_objects (ip_items page))).
  { unfold conflicting_current_objects. pose proof (groups_spec (ip_items page)) as Hg.
    induction Hg as [|o g os gs Hog Hg IH]; [done|]. rewrite !filter_cons.
    pose proof (grouped_conflict _ _ _ Hog) as Hc. pose proof (grouped_object _ _ _ Hog) as Ho.
    destruct (decide (g.2 = true)) as [Hd|Hd].
    - rewrite decide_True by by apply Hc. cbn [fmap list_fmap]. by rewrite Ho, IH.
    - rewrite decide_False by by rewrite <- Hc. done. }
  destruct (first_objects_spec (ip_items page)) as [Hnd Hin]. split_and!; [done| |].
  - rewrite E. by apply NoDup_filter.
  - intros o. rewrite E, list_elem_of_filter, Hin. unfold disagree. split.
    + intros [(a & Ha & (b & Hb & Hab)%Exists_exists)%Exists_exists _].
      apply list_elem_of_filter in Ha as [? ?], Hb as [? ?]. by exists a, b.
    + intros (a & b & Ha & Hb & Hao & Hbo & Hab). split; [|by exists a].
      apply Exists_exists. exists a. split; [by apply list_elem_of_filter|].
      apply Exists_exists. exists b. by split; [apply list_elem_of_filter|].
Qed.

(** * The manifest of a current listing *)

Lemma three_digits_eq n : 0 <= n < 1000 -> three_digits n = [48 + n / 100; 48 + n / 10 mod 10; 48 + n mod 10].
Proof.
  intros Hn. unfold three_digits, show_Z.
  destruct (Z_lt_le_dec n 10); [|destruct (Z_lt_le_dec n 100)].
  - rewrite decimal_last by done. cbn [length replicate app Nat.sub]. same_digits.
  - rewrite decimal_next, decimal_last by dlia. cbn [length replicate app Nat.sub]. same_digits.
  - rewrite 2!decimal_next, decimal_last by dlia. cbn [length replicate app Nat.sub]. same_digits.
Qed.

Lemma row_key_inj i j : 0 <= i < 1000 -> 0 <= j < 1000 -> row_key i = row_key j -> i = j.
Proof.
  intros Hi Hj E. unfold row_key in E. apply app_inv_head in E. rewrite !three_digits_eq in E by done.
  injection E as E1 E2 E3. dlia.
Qed.

Definition rows_key : str := u "current_revision_rows".

Lemma row_key_rows i : 0 <= i < 1000 -> row_key i <> rows_key.
Proof.
  intros Hi E. unfold row_key, rows_key in E. change (u "current_revision_rows") with
    (u "current_revision_" ++ u "rows") in E. apply app_inv_head in E.
  rewrite three_digits_eq in E by done. apply (f_equal (@length _)) in E. by vm_compute in E.
Qed.

Section manifest.
Context `{InventoryJson}.

Lemma manifest_rows_spec items index metadata m :
  0 <= index -> index + zlen items <= 1000 ->
  manifest_rows index items metadata = Ok m ->
  (forall i item, items !! i = Some item -> exists v,
     row_json (current_row item) = Some v /\ slen v <= 4096 /\ m !! row_key (index + Z.of_nat i) = Some v)
  /\ (forall k, (forall i, index <= i < index + zlen items -> k <> row_key i) -> m !! k = metadata !! k).
Proof.
  revert index metadata. induction items as [|item items IH]; intros index metadata H0 Hl Hm; cbn [manifest_rows] in Hm.
  { simplify_eq. split; [by intros i x Hi|done]. }
  rewrite zlen_cons in Hl. pose proof (zlen_nonneg items).
  destruct (_ || _); [done|]. destruct (object_validate _); [|done]. destruct (revision_parts item); [|done].
  destruct (_ || _); [done|]. destruct (row_json (current_row item)) as [v|] eqn:Ev; [|done]. cbn [ok_or] in Hm.
  destruct (Z.ltb_spec 4096 (slen v)); [done|].
  destruct (IH (index + 1) _ ltac:(lia) ltac:(lia) Hm) as [Hrows Hother]. split.
  - intros [|i] x Hi.
    + injection Hi as <-. exists v. split_and!; [done|lia|]. rewrite Z.add_0_r, Hother.
      { by rewrite lookup_insert_eq. }
      intros j Hj E. apply row_key_inj in E; lia.
    + destruct (Hrows i x Hi) as (w & ? & ? & Hw). exists w. split_and!; [done|done|].
      by replace (index + Z.of_nat (S i)) with (index + 1 + Z.of_nat i) by lia.
  - intros k Hk. rewrite zlen_cons in Hk. rewrite Hother by (intros i Hi; apply Hk; lia).
    apply lookup_insert_ne. intros E. apply (Hk index); [lia|done].
Qed.

(** The manifest kept with a current listing records every row of the page,
    duplicates included, under its own ordinal, states their number, and
    holds nothing else. *)
Theorem manifest_spec page m :
  current_revision_metadata page = Ok m ->
  m !! rows_key = Some (show_Z (zlen (ip_items page)))
  /\ (forall i item, ip_items page !! i = Some item -> exists v,
        row_json (current_row item) = Some v /\ m !! row_key (Z.of_nat i) = Some v)
  /\ (forall k v, m !! k = Some v -> k = rows_key \/
        exists i, (i < length (ip_items page))%nat /\ k = row_key (Z.of_nat i)).
Proof.
  unfold current_revision_metadata. destruct (Z.ltb_spec 100 (zlen (ip_items page))) as [|Hl]; [done|].
  destruct (manifest_rows _ _ _) as [m'|] eqn:Em; [|done].
  destruct (manifest_json_len m'); [|done]. cbn [ok_or]. destruct (_ <? _); [done|]. intros [= ->].
  destruct (manifest_rows_spec (ip_items page) 0 _ m ltac:(done) ltac:(lia) Em) as [Hrows Hother].
  fold rows_key in Hother. split_and!.
  - rewrite Hother; [by rewrite lookup_singleton_eq|]. intros i Hi E. symmetry in E.
    apply row_key_rows in E; [done|lia].
  - intros i item Hi. destruct (Hrows i item Hi) as (v & ? & ? & ?). by exists v.
  - intros k v Hk. destruct (decide (Exists (fun i => k = row_key (Z.of_nat i)) (seq 0 (length (ip_items page)))))
      as [He|Hn].
    + apply Exists_exists in He as (i & Hi & ->). apply elem_of_seq in Hi. right. exists i. split; [lia|done].
    + left. rewrite Hother in Hk.
      * apply lookup_singleton_Some in Hk as [<- _]. done.
      * intros i Hi ->. apply Hn, Exists_exists. exists (Z.to_nat i).
        rewrite elem_of_seq, Z2Nat.id by lia. unfold zlen in Hi. split; [lia|done].
Qed.
End manifest.
