(* ===== verification/Projection.v ===== *)
(** The projection of a provider's detail response into a legal record,
    [crates/adapters/src/law_go_kr.rs]: the sections of the text, the metadata,
    and the checks that the response is the one that was asked for.  Writing a
    URL with the [url] crate is an operation of the class [ProviderUrls]. *)

From S2P Require Import Prelude Utf8 Strings Slices Domain Legal Document Catalogue ProviderTree.

Class ProviderUrls := {
  (** [Url::parse(base)], [append_pair] for each pair, then [String::from] *)
  url_with_pairs : str -> list (str * str) -> option str;
}.

(** * Sections *)

Definition content_field (name : str) : bool :=
  has_name (fields ["조문내용"; "항내용"; "호내용"; "목내용"; "조내용"; "부칙내용"; "개정문내용";
    "제개정이유내용"; "판시사항"; "판결요지"; "참조조문"; "참조판례"; "판례내용"; "조문참고자료";
    "조약내용"; "결정요지"; "전문"; "심판대상조문"; "질의요지"; "회답"; "이유"; "주문";
    "청구취지"; "재결요지"]%string) name.

Definition article_unit (name : str) : bool := str_eqb name (u "조문단위").

(** The texts of the fields that [field] names, in document order; the inside
    of such a field is one text.  [content_parts] and [catalog_content_parts]
    are this walk for their two sets of fields. *)
Fixpoint parts_with (field : str -> bool) (node : DocumentNode) : list str :=
  match node with
  | Element name _ children =>
    if field (local name) then
      let value := flat_map node_text children in
      if str_eqb value [] then [] else [value]
    else flat_map (parts_with field) children
  | Text _ => []
  end.

Definition content_parts : DocumentNode -> list str := parts_with content_field.
Definition catalog_content_parts (names : list str) : DocumentNode -> list str :=
  parts_with (has_name names).

(** [parts.join(separator)] *)
Fixpoint join_with (separator : str) (parts : list str) : str :=
  match parts with
  | [] => []
  | [part] => part
  | part :: parts => part ++ separator ++ join_with separator parts
  end.

Definition article_key (attributes : list (str * str)) : option str :=
  snd <$> List.find (fun kv => str_eqb (local kv.1) (u "조문키")) attributes.

Definition section_of (node : DocumentNode) (name : str) (attributes : list (str * str))
  (parts : list str) (emitted : Z) : LegalSection :=
  let key := if article_unit name then article_key attributes else None in
  {| sec_id := match key with
       | Some k => u "article:" ++ k
       | None => u "source_ordinal:" ++ show_Z (emitted + 1)
       end;
     sec_title := if article_unit name then default [] (first node (u "조문제목")) else name;
     sec_text := join_with [10] parts; sec_kind := ProviderText;
     sec_source_document_sha256 := None; sec_page := None |}.

(** [sections] and [catalog_sections] are this walk, with [out] the sections
    emitted so far. *)
Fixpoint sections_with (field : str -> bool) (node : DocumentNode) (out : list LegalSection)
  : list LegalSection :=
  match node with
  | Element name attributes children =>
    if article_unit (local name) || field (local name) then
      match parts_with field node with
      | [] => out
      | parts => out ++ [section_of node (local name) attributes parts (zlen out)]
      end
    else
      (fix walk (l : list DocumentNode) (out : list LegalSection) :=
         match l with [] => out | c :: l => walk l (sections_with field c out) end) children out
  | Text _ => out
  end.

Definition sections : DocumentNode -> list LegalSection -> list LegalSection :=
  sections_with content_field.
Definition catalog_sections (names : list str)
  : DocumentNode -> list LegalSection -> list LegalSection := sections_with (has_name names).

(** * Repeated article keys *)

Definition is_article (s : LegalSection) : bool := starts_with (u "article:") (sec_id s).

Definition count_id (counts : gmap str Z) (s : LegalSection) : gmap str Z :=
  <[sec_id s := default 0 (counts !! sec_id s) + 1]> counts.

Definition article_counts (ss : list LegalSection) : gmap str Z :=
  fold_left count_id (List.filter is_article ss) ∅.

Definition repeated (counts : gmap str Z) (id : str) : bool :=
  opt_test (fun count => 1 <? count) (counts !! id).

Definition with_id (s : LegalSection) (id : str) : LegalSection :=
  {| sec_id := id; sec_title := sec_title s; sec_text := sec_text s; sec_kind := sec_kind s;
     sec_source_document_sha256 := sec_source_document_sha256 s; sec_page := sec_page s |}.

Definition locate (counts : gmap str Z) (position : nat) (s : LegalSection) : LegalSection :=
  if repeated counts (sec_id s)
  then with_id s (sec_id s ++ u ":source_ordinal:" ++ show_Z (Z.of_nat position + 1))
  else s.

Definition disambiguate_article_sections (ss : list LegalSection) (metadata : gmap str str)
  (projection_version : str) : list LegalSection * gmap str str :=
  let counts := article_counts ss in
  let many := List.filter (fun kv => 1 <? kv.2) (map_to_list counts) in
  let groups := zlen many in
  if groups =? 0 then (ss, metadata)
  else
    let occurrences := sum_Z (snd <$> many) in
    (imap (locate counts) ss,
     <[u "duplicate_article_key_sections" := show_Z occurrences]>
     (<[u "duplicate_article_key_groups" := show_Z groups]>
     (<[u "section_locator_diagnostic" := u "duplicate_source_article_keys"]>
     (<[u "section_locator_semantics" :=
          u "source_article_key_or_source_ordinal_with_duplicate_key_suffix"]>
     (<[u "projection_version" := projection_version]> metadata))))).

(** * Identity of an HTML page, and supplementary subtrees *)

Definition eq_ignore_ascii_case (a b : str) : bool :=
  str_eqb (to_ascii_lowercase <$> a) (to_ascii_lowercase <$> b).

Definition attribute (name : str) (attributes : list (str * str)) : option str :=
  snd <$> List.find (fun kv => eq_ignore_ascii_case kv.1 name) attributes.

Fixpoint html_identity (id : str) (node : DocumentNode) : bool :=
  match node with
  | Element name attributes children =>
    (eq_ignore_ascii_case (local name) (u "input")
     && opt_test (has_name (fields ["ID"; "precSeq"; "precId"]%string)) (attribute (u "name") attributes)
     && bool_decide (attribute (u "value") attributes = Some id))
    || existsb (html_identity id) children
  | Text _ => false
  end.

Definition supplementary (name : str) : bool :=
  has_name (fields ["별표"; "첨부파일"; "attachment"]%string) name.

Fixpoint strip_supplementary_subtrees (node : DocumentNode) : DocumentNode :=
  match node with
  | Element name attributes children =>
    Element name attributes
      (flat_map (fun child => if node_is supplementary child then []
                              else [strip_supplementary_subtrees child]) children)
  | Text value => Text value
  end.

Fixpoint contains_supplementary_subtree (node : DocumentNode) : bool :=
  match node with
  | Element name _ children =>
    supplementary (local name) || existsb contains_supplementary_subtree children
  | Text _ => false
  end.

(** * Metadata *)

Definition mark_redacted_projection (output : DocumentOutput) (metadata : gmap str str) : gmap str str :=
  if existsb (str_eqb (u "provider_credential_redacted")) (do_diagnostics output)
  then <[u "transport_credentials_redacted" := u "true"]> metadata else metadata.

(** [for (original, key) in pairs { if let Some(value) = first(tree, original) .. }] *)
Definition insert_found (keep : str -> bool) (tree : DocumentNode) (pairs : list (str * str))
  (metadata : gmap str str) : gmap str str :=
  fold_left (fun metadata pair =>
    match first tree pair.1 with
    | Some value => if keep value then <[pair.2 := value]> metadata else metadata
    | None => metadata
    end) pairs metadata.

Definition insert_some (key : str) (value : option str) (metadata : gmap str str) : gmap str str :=
  match value with Some v => <[key := v]> metadata | None => metadata end.

Definition or_insert (key : str) (value : option str) (metadata : gmap str str) : gmap str str :=
  match value, metadata !! key with
  | Some v, None => <[key := v]> metadata
  | _, _ => metadata
  end.

Definition nonempty (v : str) : bool := negb (str_eqb v []).

Definition pairs_of (l : list (string * string)) : list (str * str) := (fun p => (u p.1, u p.2)) <$> l.

(** * Laws, ordinances and decisions of the courts *)

(** The fields of the three families [project] reads itself: identity, title,
    record number, representation. *)
Definition primary_fields (dataset : Dataset) : option (str * str * str * str) :=
  match dataset with
  | NationalStatute => Some (u "법령ID", u "법령명_한글", u "법령일련번호", u "provider_effective_original")
  | Ordinance => Some (u "자치법규ID", u "자치법규명", u "자치법규일련번호", u "provider_current")
  | Precedent => Some (u "판례정보일련번호", u "사건명", u "판례정보일련번호", u "provider_record")
  | _ => None
  end.

Definition SERVICE_URL : str := u "https://www.law.go.kr/DRF/lawService.do".

Definition html_section (title text : str) : LegalSection :=
  {| sec_id := u "html_document"; sec_title := title; sec_text := text; sec_kind := ProviderText;
     sec_source_document_sha256 := None; sec_page := None |}.

Definition body_of (ss : list LegalSection) : str := join_with [10] (sec_text <$> ss).

(** The HTML branch: the page is flattened text, accepted on its hidden record
    identity and the listed title. *)
Definition html_parts (item : InventoryItem) (tree : DocumentNode) (text : str)
  : result DatabaseError (str * list LegalSection) :=
  if negb (bool_decide (oid_dataset (ii_object item) = Precedent))
     || negb (html_identity (oid_id (ii_object item)) tree)
     || str_eqb (ii_title item) [] || negb (contains_str (ii_title item) text)
     || opt_test (fun v => negb (contains_str v text)) (ii_case_number item)
  then Err StorageCorrupt
  else Ok (ii_title item, [html_section (ii_title item) text]).

(** The XML branch: the identity, the case number and the record number of the
    response are those that were asked for. *)
Definition xml_parts (item : InventoryItem) (idfield titlefield numberfield master : str)
  (tree : DocumentNode) : result DatabaseError (str * list LegalSection) :=
  let precedent := bool_decide (oid_dataset (ii_object item) = Precedent) in
  let? id := ok_or (match first tree idfield with
                    | Some id => Some id
                    | None => if precedent then first tree (u "판례일련번호") else None
                    end) StorageCorrupt in
  if negb (str_eqb id (oid_id (ii_object item))) then Err StorageCorrupt
  else if precedent && opt_test (fun expected =>
            negb (bool_decide (first tree (u "사건번호") = Some expected))) (ii_case_number item)
  then Err StorageCorrupt
  else if opt_test (fun returned => negb (str_eqb returned master)) (first tree numberfield)
  then Err StorageCorrupt
  else
    let? title := ok_or (match first tree titlefield with
                         | Some v => if nonempty v then Some v else None
                         | None => None
                         end) StorageCorrupt in
    Ok (title, sections tree []).

Definition primary_metadata (item : InventoryItem) (output : DocumentOutput) (tree : DocumentNode)
  (html : bool) (master : str) (effective : option str) : gmap str str :=
  let m := mark_redacted_projection output ∅ in
  let m := if html then <[u "html_identity_rule" :=
             u "explicit_hidden_record_id_and_inventory_title_v1"]> m else m in
  let m := insert_found (fun _ => true) tree (pairs_of [
    ("소관부처", "authority"); ("지자체기관명", "authority"); ("법원명", "authority");
    ("법종구분", "document_type"); ("자치법규종류", "document_type");
    ("선고일자", "judgment_date_raw"); ("사건번호", "case_number");
    ("조문시행일자문자열", "provision_effective_dates");
    ("별표시행일자문자열", "annex_effective_dates")]%string) m in
  let m := match m !! u "judgment_date_raw" with
           | Some v => if valid_date v then <[u "judgment_date" := v]> m else m
           | None => m
           end in
  let m := insert_some (u "data_source") (ii_data_source item) m in
  let m := insert_some (u "amendment_type") (ii_amendment_type item) m in
  let m := or_insert (u "case_number") (ii_case_number item) m in
  let m := <[u "section_locator_semantics" := u "source_article_key_or_source_ordinal"]>
    (<[u "provider_record_number" := master]>
    (<[u "projection_version" := u "law_go_kr_text_v2"]> m)) in
  match effective with
  | Some value => <[u "character_view" := u "010201"]> (<[u "requested_efYd" := value]> m)
  | None => m
  end.

Definition primary_pairs (dataset : Dataset) (html : bool) (master : str) (effective : option str)
  : list (str * str) :=
  [(u "target", target dataset); (u "type", if html then u "HTML" else u "XML");
   (if bool_decide (dataset = Precedent) then u "ID" else u "MST", master)]
  ++ match effective with
     | Some value => [(u "efYd", value); (u "chrClsCd", u "010201")]
     | None => []
     end.

Definition validated `{LegalCodecs} (rec : LegalRecord) : result DatabaseError LegalRecord :=
  match record_validate rec with Ok _ => Ok rec | Err _ => Err StorageCorrupt end.

Definition project_primary `{LegalCodecs} `{ProviderUrls} (item : InventoryItem)
  (output : DocumentOutput) (idfield titlefield numberfield representation : str)
  : result DatabaseError LegalRecord :=
  let dataset := oid_dataset (ii_object item) in
  let? tree := ok_or (do_tree output) StorageCorrupt in
  let? me := revision_parts item in
  let '(master, effective) := me in
  let html := bool_decide (do_format output = Html) in
  let? ts := if html then html_parts item tree (do_text output)
             else xml_parts item idfield titlefield numberfield master tree in
  let '(title, source_sections) := ts in
  if bool_decide (source_sections = []) then Err StorageCorrupt
  else
    let body := body_of source_sections in
    let metadata := primary_metadata item output tree html master effective in
    let? source := ok_or (url_with_pairs SERVICE_URL (primary_pairs dataset html master effective))
                     InvalidInput in
    let? returned_effective := if html then Ok None else date (first tree (u "시행일자")) in
    if is_some effective && negb (bool_decide (returned_effective = effective))
    then Err StorageCorrupt
    else
      let '(source_sections, metadata) :=
        disambiguate_article_sections source_sections metadata (u "law_go_kr_text_v3") in
      let? publication_date := if html then Ok None else date (first tree (u "공포일자")) in
      validated {| lr_object := ii_object item; lr_revision_id := ii_revision_id item;
        lr_title := title; lr_body := body; lr_metadata := metadata;
        lr_publication_date := publication_date; lr_effective_date := returned_effective;
        lr_source_url := source; lr_representation := representation;
        lr_sections := source_sections |}.

(** * The other families *)

Definition number_field (dataset : Dataset) : option str :=
  match dataset with
  | AdministrativeAppeal => Some (u "행정심판례일련번호")
  | LegalTerm => Some (u "법령용어일련번호")
  | _ => head (sf_revision_fields (source_family dataset))
  end.

Definition additional_title_fields (dataset : Dataset) : list str :=
  match dataset with
  | Treaty => fields ["조약명_한글"]%string
  | LegalTerm => fields ["법령용어명_한글"]%string
  | _ => sf_title_fields (source_family dataset)
  end.

Definition rule_family (dataset : Dataset) : bool :=
  match dataset with
  | AdministrativeRule | SchoolRule | LocalPublicCorporationRule | PublicInstitutionRule => true
  | _ => false
  end.

Definition fixed_fields (dataset : Dataset) : bool :=
  match dataset with
  | AdministrativeRule | Treaty | ConstitutionalDecision | LegalInterpretation
  | AdministrativeAppeal => true
  | _ => false
  end.

(** The response states one record number, and it is the one asked for. *)
Definition states_once (tree : DocumentNode) (field expected : str) : bool :=
  (zlen (elements field tree) =? 1) && bool_decide (first tree field = Some expected).

Definition additional_sections (dataset : Dataset) (tree : DocumentNode) : list LegalSection :=
  if fixed_fields dataset then sections tree []
  else catalog_sections (sf_body_fields (source_family dataset)) tree [].

(** [if let Some(raw) = first(..).filter(non-empty)]: the raw date is kept, and
    the date itself when it is one. *)
Definition insert_date (tree : DocumentNode) (original key : str) (m : gmap str str) : gmap str str :=
  match first tree original with
  | Some raw =>
    if nonempty raw then
      let m := <[key ++ u "_raw" := raw]> m in
      if valid_date raw then <[key := raw]> m else m
    else m
  | None => m
  end.

(** The treaty's class decides its document type. *)
Definition treaty_metadata (item : InventoryItem) (m : gmap str str)
  : result DatabaseError (gmap str str) :=
  let code := m !! u "document_type_code" in
  if opt_test (fun expected => negb (bool_decide (code = Some expected))) (ii_treaty_class_code item)
  then Err StorageCorrupt
  else
    let? kind :=
      match code with
      | Some c =>
        if str_eqb c (u "440101") then Ok (u "bilateral_treaty")
        else if str_eqb c (u "440102") then Ok (u "multilateral_treaty")
        else Err StorageCorrupt
      | None => Err StorageCorrupt
      end in
    Ok (<[u "character_view" := u "010202"]> (<[u "document_type" := kind]> m)).

Definition additional_metadata (item : InventoryItem) (output : DocumentOutput) (tree : DocumentNode)
  (number : str) : result DatabaseError (gmap str str) :=
  let dataset := oid_dataset (ii_object item) in
  let m := mark_redacted_projection output ∅ in
  let m := <[u "section_locator_semantics" := u "source_ordinal"]>
    (<[u "provider_record_number" := number]>
    (<[u "projection_version" := u "law_go_kr_additional_v1"]> m)) in
  let m := insert_some (u "amendment_type") (ii_amendment_type item) m in
  let m := insert_found nonempty tree (pairs_of [
    ("행정규칙종류", "document_type"); ("소관부처명", "authority");
    ("조약구분코드", "document_type_code"); ("사건번호", "case_number");
    ("해석기관명", "authority"); ("재결청", "authority")]%string) m in
  let? m := if bool_decide (dataset = Treaty) then treaty_metadata item m else Ok m in
  let m := if bool_decide (dataset = ConstitutionalDecision)
           then insert_date tree (u "종국일자") (u "final_disposition_date") m else m in
  Ok (insert_date tree (u "발령일자") (u "issuance_date")
     (insert_date tree (u "의결일자") (u "decision_date")
     (insert_date tree (u "해석일자") (u "interpretation_date") m))).

Definition additional_effective_date (dataset : Dataset) (tree : DocumentNode)
  : result DatabaseError (option str) :=
  if rule_family dataset then date (first tree (u "시행일자"))
  else if bool_decide (dataset = Treaty) then date (first tree (u "발효일자"))
  else Ok None.

Definition additional_pairs (item : InventoryItem) (number : str) : list (str * str) :=
  let dataset := oid_dataset (ii_object item) in
  let family := source_family dataset in
  [(u "target", target dataset); (u "type", u "XML");
   (detail_parameter family,
    if bool_decide (sf_detail_mode family = TermName) then ii_title item else number)]
  ++ (if bool_decide (dataset = Treaty) then [(u "chrClsCd", u "010202")] else []).

Definition project_additional `{LegalCodecs} `{ProviderUrls} (item : InventoryItem)
  (output : DocumentOutput) : result DatabaseError LegalRecord :=
  let dataset := oid_dataset (ii_object item) in
  let family := source_family dataset in
  if negb (bool_decide (do_format output = Xml)) then Err StorageCorrupt
  else
    let? tree := ok_or (do_tree output) StorageCorrupt in
    let? parts := revision_parts item in
    let number := fst parts in
    if bool_decide (dataset = EnglishStatute) || bool_decide (sf_detail_mode family = ListOnly)
    then Err SourceDataInvalid
    else
      let? field := ok_or (number_field dataset) StorageCorrupt in
      if negb (states_once tree field number) then Err StorageCorrupt
      else if rule_family dataset && negb (states_once tree (u "행정규칙ID") (oid_id (ii_object item)))
      then Err StorageCorrupt
      else
        let? title := ok_or (match first_of tree (additional_title_fields dataset) with
                             | Some v => if nonempty v then Some v else None
                             | None => None
                             end) StorageCorrupt in
        if bool_decide (dataset = LegalTerm) && negb (str_eqb title (ii_title item))
        then Err StorageCorrupt
        else
          let source_sections := additional_sections dataset tree in
          if bool_decide (source_sections = []) then Err StorageCorrupt
          else
            let? metadata := additional_metadata item output tree number in
            let? effective_date := additional_effective_date dataset tree in
            if is_some (ii_effective_date item)
               && negb (bool_decide (effective_date = ii_effective_date item))
            then Err StorageCorrupt
            else
              let? source := ok_or (url_with_pairs SERVICE_URL (additional_pairs item number))
                               InvalidInput in
              let '(source_sections, metadata) :=
                disambiguate_article_sections source_sections metadata (u "law_go_kr_additional_v2") in
              validated {| lr_object := ii_object item; lr_revision_id := ii_revision_id item;
                lr_title := title; lr_body := body_of source_sections; lr_metadata := metadata;
                lr_publication_date := None; lr_effective_date := effective_date;
                lr_source_url := source; lr_representation := u "provider_record";
                lr_sections := source_sections |}.

(** * The projection *)

Definition without_supplements (output : DocumentOutput) : DocumentOutput :=
  {| do_source_sha256 := do_source_sha256 output;
     do_processor_version := do_processor_version output; do_format := do_format output;
     do_tree := strip_supplementary_subtrees <$> do_tree output; do_text := do_text output;
     do_pages := do_pages output; do_ocr_pages := do_ocr_pages output;
     do_diagnostics := do_diagnostics output |}.

Definition project `{LegalCodecs} `{ProviderUrls} (item : InventoryItem) (output : DocumentOutput)
  : result DatabaseError LegalRecord :=
  if bool_decide (do_format output = Html) && opt_test contains_supplementary_subtree (do_tree output)
  then Err SourceDataInvalid
  else
    let output := without_supplements output in
    match primary_fields (oid_dataset (ii_object item)) with
    | Some (idfield, titlefield, numberfield, representation) =>
      project_primary item output idfield titlefield numberfield representation
    | None => project_additional item output
    end.
