(* ===== verification/ProjectionFacts.v ===== *)
(** What a projected record promises: it is the record that was asked for, its
    sections hold every text of the response's fields once and in order, its
    locators tell repeated article keys apart, and nothing of an annex or an
    attachment reaches it. *)

From S2P Require Import Prelude Utf8 Strings Slices Domain Legal Document Catalogue ProviderTree Projection.

#[local] Opaque u.

(** * Sections *)

(** A section holds a non-empty group of field texts. *)
Definition holds (s : LegalSection) (group : list str) : Prop :=
  group <> [] /\ sec_text s = join_with [10] group.

(** The section at a position is named after its article key or its ordinal. *)
Definition named_at (i : nat) (s : LegalSection) : Prop :=
  (exists key, sec_id s = u "article:" ++ key) \/ sec_id s = u "source_ordinal:" ++ show_Z (Z.of_nat i + 1).

Section walk.
Variable field : str -> bool.

Definition emits (parts : list str) (out out' : list LegalSection) : Prop :=
  exists ss groups, out' = out ++ ss /\ concat groups = parts /\ Forall2 holds ss groups
    /\ forall i s, ss !! i = Some s -> named_at (length out + i) s.

Lemma emits_nil out : emits [] out out.
Proof. exists [], []. split_and!; [by rewrite app_nil_r|done|constructor|done]. Qed.

Lemma emits_trans p q out out' out'' : emits p out out' -> emits q out' out'' -> emits (p ++ q) out out''.
Proof.
  intros (ss & gs & -> & <- & Hh & Hn) (ss' & gs' & -> & <- & Hh' & Hn').
  exists (ss ++ ss'), (gs ++ gs'). split_and!; [by rewrite app_assoc|apply concat_app|by apply Forall2_app|].
  intros i s Hi. apply lookup_app_Some in Hi as [Hi|[Hl Hi]]; [by apply Hn|].
  specialize (Hn' _ _ Hi). rewrite length_app in Hn'.
  by replace (length out + i)%nat with (length out + length ss + (i - length ss))%nat by lia.
Qed.

Lemma section_named node name attributes parts (out : list LegalSection) :
  named_at (length out) (section_of node name attributes parts (zlen out)).
Proof.
  unfold named_at, section_of. cbn [sec_id]. destruct (if article_unit name then _ else _) as [key|].
  - left. by exists key.
  - by right.
Qed.

(** The walk emits sections that hold exactly the field texts of the node, in
    document order. *)
Lemma sections_with_emits node : forall out, emits (parts_with field node) out (sections_with field node out).
Proof.
  induction node as [name attributes children IH|value] using DocumentNode_nested_ind; intros out;
    [|apply emits_nil].
  cbn [sections_with]. destruct (article_unit (local name) || field (local name)) eqn:E.
  - destruct (parts_with field (Element name attributes children)) as [|p parts] eqn:Ep; [apply emits_nil|].
    eexists [_], [p :: parts]. split_and!; [done|by rewrite concat_cons, app_nil_r| |].
    + constructor; [|constructor]. by split.
    + intros [|i] s Hi; [|done]. injection Hi as <-. rewrite Nat.add_0_r. apply section_named.
  - apply orb_false_iff in E as [_ E]. cbn [parts_with]. rewrite E.
    revert out. induction IH as [|c l Hc Hl IH]; intros out; [apply emits_nil|].
    cbn [flat_map]. eapply emits_trans; [apply Hc|apply IH].
Qed.
End walk.

(** * Repeated article keys *)

(** The articles of an identity. *)
Definition articles_named (id : str) (ss : list LegalSection) : Z :=
  countb (fun s => is_article s && str_eqb (sec_id s) id) ss.

Lemma article_counts_spec ss : forall counts id,
  default 0 (fold_left count_id (List.filter is_article ss) counts !! id)
  = default 0 (counts !! id) + articles_named id ss.
Proof.
  unfold articles_named. induction ss as [|s ss IH]; intros counts id; cbn [List.filter countb fold_left]; [simpl; lia|].
  destruct (is_article s); cbn [fold_left andb Z.b2z]; rewrite IH; [|lia].
  unfold count_id. destruct (decide (sec_id s = id)) as [<-|E].
  - rewrite lookup_insert_eq, (proj2 (str_eqb_eq _ _)) by done. simpl. lia.
  - rewrite lookup_insert_ne by done. destruct (str_eqb (sec_id s) id) eqn:E'; [by apply str_eqb_eq in E'|].
    simpl. lia.
Qed.

Lemma repeated_spec ss id : repeated (article_counts ss) id = true <-> 1 < articles_named id ss.
Proof.
  pose proof (article_counts_spec ss ∅ id) as Hc. rewrite lookup_empty in Hc. simpl in Hc.
  unfold repeated, article_counts. destruct (_ !! id) as [n|]; simpl in *; subst; [by rewrite Z.ltb_lt|].
  split; [done|lia].
Qed.

Lemma many_nil (counts : gmap str Z) :
  zlen (List.filter (fun kv => 1 <? kv.2) (map_to_list counts)) = 0 -> forall id, repeated counts id = false.
Proof.
  intros Hz id. apply zlen_zero in Hz. unfold repeated. destruct (counts !! id) as [n|] eqn:E; [|done].
  destruct (1 <? n) eqn:En; [|done]. exfalso.
  assert (In (id, n) (List.filter (fun kv => 1 <? kv.2) (map_to_list counts))) as Hin.
  { apply filter_In. split; [|done]. apply list_elem_of_In. by apply elem_of_map_to_list. }
  by rewrite Hz in Hin.
Qed.

Lemma disambiguate_sections ss metadata version :
  (disambiguate_article_sections ss metadata version).1 = imap (locate (article_counts ss)) ss.
Proof.
  unfold disambiguate_article_sections. destruct (Z.eqb_spec (zlen (List.filter (fun kv => 1 <? kv.2)
    (map_to_list (article_counts ss)))) 0) as [Hz|]; [|done]. cbn [fst].
  pose proof (many_nil _ Hz) as Hr. apply list_eq. intros i. rewrite list_lookup_imap.
  destruct (ss !! i) as [s|]; [|done]. cbn. unfold locate. by rewrite Hr.
Qed.

Lemma locate_keeps counts i s :
  sec_title (locate counts i s) = sec_title s /\ sec_text (locate counts i s) = sec_text s
  /\ sec_kind (locate counts i s) = sec_kind s.
Proof. unfold locate. by destruct (repeated counts (sec_id s)). Qed.

(** Telling repeated article keys apart keeps every section in its place with
    its title and text, changes only the locators of articles whose key occurs
    more than once, and gives two articles that shared a key different
    locators. *)
Theorem disambiguation_spec ss metadata version :
  zlen ss <= usize_max - 1 ->
  let out := (disambiguate_article_sections ss metadata version).1 in
  length out = length ss
  /\ (forall i s, ss !! i = Some s -> exists s', out !! i = Some s'
        /\ sec_title s' = sec_title s /\ sec_text s' = sec_text s
        /\ (articles_named (sec_id s) ss <= 1 -> s' = s)
        /\ (1 < articles_named (sec_id s) ss ->
              sec_id s' = sec_id s ++ u ":source_ordinal:" ++ show_Z (Z.of_nat i + 1)))
  /\ (forall i j s t s' t', i <> j -> ss !! i = Some s -> ss !! j = Some t ->
        out !! i = Some s' -> out !! j = Some t' ->
        is_article s = true -> sec_id s = sec_id t -> sec_id s' <> sec_id t').
Proof.
  cbn zeta. rewrite disambiguate_sections. intros Hlen.
  assert (Hloc : forall i s, ss !! i = Some s ->
    (articles_named (sec_id s) ss <= 1 -> locate (article_counts ss) i s = s)
    /\ (1 < articles_named (sec_id s) ss -> sec_id (locate (article_counts ss) i s)
          = sec_id s ++ u ":source_ordinal:" ++ show_Z (Z.of_nat i + 1))).
  { intros i s _. unfold locate. destruct (repeated _ _) eqn:E.
    - apply repeated_spec in E. split; [lia|done].
    - split; [done|]. intros Hr%repeated_spec. congruence. }
  split_and!; [apply length_imap| |].
  - intros i s Hi. exists (locate (article_counts ss) i s). rewrite list_lookup_imap, Hi.
    destruct (locate_keeps (article_counts ss) i s) as (? & ? & _). destruct (Hloc i s Hi). by split_and!.
  - intros i j s t s' t' Hij Hi Hj Hi' Hj' Ha Hst E. rewrite list_lookup_imap, Hi in Hi'.
    rewrite list_lookup_imap, Hj in Hj'. injection Hi' as <-. injection Hj' as <-.
    assert (1 < articles_named (sec_id s) ss) as Hm.
    { apply (countb_two _ ss i j s t Hij Hi Hj); rewrite ?Ha, <- ?Hst, (proj2 (str_eqb_eq _ _)) by done.
      { done. } unfold is_article in Ha |- *. by rewrite <- Hst, Ha. }
    rewrite (proj2 (Hloc i s Hi)), (proj2 (Hloc j t Hj)), Hst in E by by rewrite <- ?Hst.
    apply app_inv_head, app_inv_head, show_Z_inj in E; [lia| |]; apply lookup_lt_Some in Hi, Hj;
      unfold zlen in Hlen; lia.
Qed.

(** * Annexes and attachments *)

(** No element strictly inside the tree is an annex or an attachment. *)
Definition children_clean (node : DocumentNode) : Prop :=
  match node with
  | Element _ _ children => Forall (fun c => contains_supplementary_subtree c = false) children
  | Text _ => True
  end.

Lemma strip_root node : node_is supplementary (strip_supplementary_subtrees node) = node_is supplementary node.
Proof. by destruct node. Qed.

Lemma strip_clean node :
  children_clean (strip_supplementary_subtrees node)
  /\ (node_is supplementary node = false ->
      contains_supplementary_subtree (strip_supplementary_subtrees node) = false).
Proof.
  induction node as [name attributes children IH|value] using DocumentNode_nested_ind; [|done].
  assert (Hc : children_clean (strip_supplementary_subtrees (Element name attributes children))).
  { cbn [strip_supplementary_subtrees children_clean]. induction IH as [|c l Hc Hl IH]; [constructor|].
    cbn [flat_map]. destruct (node_is supplementary c) eqn:E; [done|]. constructor; [by apply Hc|done]. }
  split; [done|]. cbn. intros ->. cbn. apply not_true_iff_false. rewrite existsb_exists.
  intros (c & Hin & Hs). cbn in Hc. rewrite Forall_forall in Hc. apply list_elem_of_In in Hin.
  apply Hc in Hin. congruence.
Qed.

Lemma strip_idempotent node :
  strip_supplementary_subtrees (strip_supplementary_subtrees node) = strip_supplementary_subtrees node.
Proof.
  induction node as [name attributes children IH|value] using DocumentNode_nested_ind; [|done].
  cbn [strip_supplementary_subtrees]. f_equal. induction IH as [|c l Hc Hl IH]; [done|].
  cbn [flat_map]. destruct (node_is supplementary c) eqn:E; [done|].
  cbn [app flat_map]. by rewrite strip_root, E, Hc, IH.
Qed.

(** * The projected record *)

Section projected.
Context `{LegalCodecs} `{ProviderUrls}.

Lemma validated_Ok rec r : validated rec = Ok r -> r = rec /\ record_validate r = Ok tt.
Proof. unfold validated. destruct (record_validate rec) as [[]|] eqn:E; [|done]. by intros [= <-]. Qed.

Lemma record_ids_distinct rec : record_validate rec = Ok tt -> NoDup (sec_id <$> lr_sections rec).
Proof.
  unfold record_validate. destruct (object_validate _); [|done]. destruct (selector_validate _); [|done].
  destruct (check_original_resources _); [|done]. destruct (_ <? _); [done|].
  destruct (url_parse _) as [url|]; [|done]. cbn [ok_or].
  match goal with |- (if ?b then _ else _) = _ -> _ => destruct b eqn:E end; [done|]. intros _.
  apply all_distinct_NoDup. bool_hyps. assumption.
Qed.

Lemma disambiguated_texts ss metadata version :
  sec_text <$> (disambiguate_article_sections ss metadata version).1 = sec_text <$> ss.
Proof.
  rewrite disambiguate_sections. apply list_eq. intros i. rewrite !list_lookup_fmap, list_lookup_imap.
  destruct (ss !! i) as [s|]; [|done]. cbn. f_equal. apply locate_keeps.
Qed.

Lemma disambiguated_holds ss groups metadata version :
  Forall2 holds ss groups -> Forall2 holds (disambiguate_article_sections ss metadata version).1 groups.
Proof.
  rewrite disambiguate_sections, !Forall2_same_length_lookup, length_imap. intros [Hl Hh].
  split; [done|]. intros i s g Hs Hg. rewrite list_lookup_imap in Hs.
  destruct (ss !! i) as [s0|] eqn:E; [|done]. injection Hs as <-.
  destruct (Hh i s0 g E Hg) as [? Ht]. split; [done|]. rewrite <- Ht. apply locate_keeps.
Qed.

(** The fields whose texts a family's records hold. *)
Definition family_field (dataset : Dataset) : str -> bool :=
  if is_some (primary_fields dataset) || fixed_fields dataset then content_field
  else has_name (sf_body_fields (source_family dataset)).

(** The response states the identity and the record number that were asked
    for. *)
Definition states_identity (item : InventoryItem) (number : str) (tree : DocumentNode) : Prop :=
  let dataset := oid_dataset (ii_object item) in
  let id := oid_id (ii_object item) in
  match primary_fields dataset with
  | Some (idfield, _, numberfield, _) =>
    (first tree idfield = Some id
     \/ (dataset = Precedent /\ first tree idfield = None /\ first tree (u "판례일련번호") = Some id))
    /\ (forall n, first tree numberfield = Some n -> n = number)
  | None =>
    (exists field, number_field dataset = Some field /\ states_once tree field number = true)
    /\ (rule_family dataset = true -> states_once tree (u "행정규칙ID") id = true)
  end.

Definition holds_texts (dataset : Dataset) (tree : DocumentNode) (ss : list LegalSection) : Prop :=
  exists groups, concat groups = parts_with (family_field dataset) tree /\ Forall2 holds ss groups.

(** What the response must have been, for the record to be projected from it. *)
Definition answers_request (item : InventoryItem) (number : str) (output : DocumentOutput)
  (ss : list LegalSection) : Prop :=
  exists tree, do_tree output = Some tree /\
  if bool_decide (do_format output = Html)
  then html_identity (oid_id (ii_object item)) tree = true /\ sec_text <$> ss = [do_text output]
  else states_identity item number tree /\ holds_texts (oid_dataset (ii_object item)) tree ss.

Record projected (item : InventoryItem) (output : DocumentOutput) (rec : LegalRecord) : Prop := {
  pr_valid : record_validate rec = Ok tt;
  pr_object : lr_object rec = ii_object item;
  pr_revision : lr_revision_id rec = ii_revision_id item;
  pr_body : lr_body rec = body_of (lr_sections rec);
  pr_sections : lr_sections rec <> [];
  pr_distinct : NoDup (sec_id <$> lr_sections rec);
  pr_request : exists number effective, revision_parts item = Ok (number, effective)
    /\ (is_some effective = true -> lr_effective_date rec = effective)
    /\ answers_request item number output (lr_sections rec);
}.

Lemma disambiguated_nonempty ss metadata version :
  ss <> [] -> (disambiguate_article_sections ss metadata version).1 <> [].
Proof. rewrite disambiguate_sections. by destruct ss. Qed.

Lemma sections_hold field tree :
  exists groups, concat groups = parts_with field tree /\ Forall2 holds (sections_with field tree []) groups.
Proof. destruct (sections_with_emits field tree []) as (ss & gs & -> & ? & ? & _). by exists gs. Qed.

Lemma xml_parts_Ok item idfield titlefield numberfield representation master tree title ss :
  primary_fields (oid_dataset (ii_object item)) = Some (idfield, titlefield, numberfield, representation) ->
  xml_parts item idfield titlefield numberfield master tree = Ok (title, ss) ->
  states_identity item master tree /\ ss = sections tree [].
Proof.
  intros Hp. unfold xml_parts, states_identity. rewrite Hp. intros Hx.
  destruct (match first tree idfield with Some id => _ | None => _ end) as [id|] eqn:Ei; [|done].
  cbn [ok_or] in Hx. destruct (str_eqb id (oid_id (ii_object item))) eqn:Eid; [|done]. cbn [negb] in Hx.
  destruct (_ && _); [done|]. destruct (opt_test _ (first tree numberfield)) eqn:En; [done|].
  destruct (match first tree titlefield with Some v => _ | None => _ end) as [v|]; [|done]. cbn [ok_or] in Hx.
  injection Hx as <- <-. apply str_eqb_eq in Eid as ->. split; [split|done].
  - destruct (first tree idfield) as [id|]; [left; congruence|].
    destruct (bool_decide_reflect (oid_dataset (ii_object item) = Precedent)); [|done]. by right.
  - intros n Hn. rewrite Hn in En. simpl in En. bool_hyps. by apply str_eqb_eq.
Qed.

Lemma html_parts_Ok item tree text title ss :
  html_parts item tree text = Ok (title, ss) ->
  html_identity (oid_id (ii_object item)) tree = true /\ sec_text <$> ss = [text].
Proof. unfold html_parts. destruct (_ || _) eqn:E; [done|]. intros [= <- <-]. by bool_hyps. Qed.

Lemma project_primary_sound item output idfield titlefield numberfield representation rec :
  primary_fields (oid_dataset (ii_object item)) = Some (idfield, titlefield, numberfield, representation) ->
  project_primary item output idfield titlefield numberfield representation = Ok rec ->
  projected item output rec.
Proof.
  intros Hp. unfold project_primary. destruct (do_tree output) as [tree|] eqn:Et; [|done]. cbn [ok_or].
  destruct (revision_parts item) as [[master effective]|] eqn:Er; [|done].
  set (parts := if bool_decide _ then html_parts _ _ _ else _). destruct parts as [[title ss]|] eqn:Ep; [|done].
  destruct (bool_decide_reflect (ss = [])) as [|Hss]; [done|].
  destruct (url_with_pairs _ _) as [source|]; [|done]. cbn [ok_or].
  destruct (if bool_decide (do_format output = Html) then Ok None else _) as [returned|]; [|done].
  destruct (is_some effective && _) eqn:Ee; [done|].
  set (m := primary_metadata _ _ _ _ _ _). clearbody m.
  pose proof (disambiguated_texts ss m (u "law_go_kr_text_v3")) as Htext.
  pose proof (fun groups => disambiguated_holds ss groups m (u "law_go_kr_text_v3")) as Hholds.
  pose proof (disambiguated_nonempty ss m (u "law_go_kr_text_v3") Hss) as Hne.
  destruct (disambiguate_article_sections _ _ _) as [ss' m']. cbn [fst] in *.
  destruct (if bool_decide (do_format output = Html) then Ok None else _) as [published|]; [|done].
  intros [-> Hv]%validated_Ok. constructor; cbn; try done.
  - unfold body_of. by rewrite Htext.
  - by apply record_ids_distinct in Hv.
  - exists master, effective. split_and!; [done| |].
    { intros Hi. rewrite Hi in Ee. cbn in Ee. by bool_hyps. }
    exists tree. split; [done|]. unfold parts in Ep. destruct (bool_decide (do_format output = Html)).
    + apply html_parts_Ok in Ep as [? Hs]. by rewrite Htext, Hs.
    + apply (xml_parts_Ok _ _ _ _ _ _ _ _ _ Hp) in Ep as [Hid ->]. split; [done|].
      destruct (sections_hold content_field tree) as (gs & Hg & Hf). exists gs.
      unfold family_field. rewrite Hp. split; [done|]. by apply Hholds.
Qed.

Lemma project_additional_sound item output rec :
  primary_fields (oid_dataset (ii_object item)) = None ->
  project_additional item output = Ok rec -> projected item output rec.
Proof.
  intros Hp. unfold project_additional. destruct (bool_decide_reflect (do_format output = Xml)) as [Hx|]; [|done].
  cbn [negb]. destruct (do_tree output) as [tree|] eqn:Et; [|done]. cbn [ok_or].
  destruct (revision_parts item) as [[number effective]|] eqn:Er; [|done]. cbn [fst].
  destruct (_ || _); [done|]. destruct (number_field _) as [field|] eqn:Ef; [|done]. cbn [ok_or].
  destruct (states_once tree field number) eqn:Es; [|done]. cbn [negb].
  destruct (rule_family _ && _) eqn:Erule; [done|].
  destruct (match first_of _ _ with Some v => _ | None => _ end) as [title|]; [|done]. cbn [ok_or].
  destruct (bool_decide (oid_dataset (ii_object item) = LegalTerm) && _); [done|].
  set (ss := additional_sections _ _).
  destruct (bool_decide_reflect (ss = [])) as [|Hss]; [done|].
  destruct (additional_metadata _ _ _ _) as [m|]; [|done].
  destruct (additional_effective_date _ _) as [eff|]; [|done].
  destruct (is_some (ii_effective_date item) && _); [done|].
  destruct (url_with_pairs _ _) as [source|]; [|done]. cbn [ok_or].
  pose proof (fun groups => disambiguated_holds ss groups m (u "law_go_kr_additional_v2")) as Hholds.
  pose proof (disambiguated_nonempty ss m (u "law_go_kr_additional_v2") Hss) as Hne.
  destruct (disambiguate_article_sections _ _ _) as [ss' m']. cbn [fst] in *.
  intros [-> Hv]%validated_Ok. constructor; cbn; try done.
  - by apply record_ids_distinct in Hv.
  - exists number, effective. split_and!; [done| |].
    { unfold revision_parts in Er. destruct (_ || _); [done|].
      destruct (bool_decide_reflect (oid_dataset (ii_object item) = NationalStatute)) as [Hd|].
      { by rewrite Hd in Hp. }
      destruct (_ && _); [|done]. injection Er as _ <-. done. }
    exists tree. split; [done|]. rewrite bool_decide_false by congruence. split.
    + unfold states_identity. rewrite Hp. split; [by exists field|]. intros Hr. rewrite Hr in Erule.
      cbn [andb] in Erule. by bool_hyps.
    + unfold holds_texts, family_field. rewrite Hp. cbn [is_some orb]. unfold ss, additional_sections in Hholds.
      destruct (fixed_fields _).
      * destruct (sections_hold content_field tree) as (gs & Hg & Hf). exists gs. split; [done|]. by apply Hholds.
      * destruct (sections_hold (has_name (sf_body_fields (source_family (oid_dataset (ii_object item))))) tree)
          as (gs & Hg & Hf). exists gs. split; [done|]. by apply Hholds.
Qed.

(** C20. A projected record is the record that was asked for: it has the asked
    identity and revision, it passes the record's own validation, its sections
    have distinct locators and its body is their texts in order.  The response
    it came from, with annexes and attachments removed, states that identity
    and record number; the sections of an XML response hold every text of the
    family's fields once and in document order; an HTML page carries the
    hidden record identity and is one section.  A record asked for with an
    effective date has that date. *)
Theorem project_sound item output rec :
  project item output = Ok rec -> projected item (without_supplements output) rec.
Proof.
  unfold project. destruct (_ && _); [done|].
  destruct (primary_fields _) as [[[[idf tf] nf] rep]|] eqn:Hp;
    [by apply project_primary_sound|by apply project_additional_sound].
Qed.

(** Annexes and attachments, whose reuse is not licensed with the text, never
    reach a record: an HTML page that contains one is refused; the projection
    of any other response is the same whatever they hold; and the tree that is
    read has none below its root. *)
Theorem annexes_withheld item output :
  (do_format output = Html -> forall tree, do_tree output = Some tree ->
     contains_supplementary_subtree tree = true -> project item output = Err SourceDataInvalid)
  /\ (do_format output <> Html -> forall output', without_supplements output' = without_supplements output ->
        project item output' = project item output)
  /\ (forall tree, do_tree (without_supplements output) = Some tree -> children_clean tree).
Proof.
  split_and!.
  - intros Hh tree Ht Hc. unfold project. by rewrite bool_decide_true, Ht, (Hc : opt_test _ (Some tree) = true).
  - intros Hf output' E. assert (do_format output' = do_format output) as Hf' by (by injection E).
    unfold project. by rewrite E, !bool_decide_false by congruence.
  - cbn. intros tree Ht. destruct (do_tree output) as [t|]; [|done]. injection Ht as <-. apply strip_clean.
Qed.
End projected.

(** * A law with a repeated article key and an annex *)

Definition leaf (name value : string) : DocumentNode := Element (u name) [] [Text (u value)].

Definition sample_article (key title text : string) : DocumentNode :=
  Element (u "조문단위") [(u "조문키", u key)] [leaf "조문제목" title; leaf "조문내용" text].

Definition sample_tree : DocumentNode :=
  Element (u "법령") []
    [leaf "법령ID" "000001"; leaf "법령일련번호" "100"; leaf "법령명_한글" "견본법"; leaf "시행일자" "20240101";
     sample_article "0001001" "목적" "제1조(목적)"; sample_article "0001001" "정의" "제2조(정의)";
     leaf "부칙내용" "부칙"; Element (u "별표") [] [leaf "조문내용" "별표 1"]].

Definition sample_item : InventoryItem :=
  {| ii_object := {| oid_jurisdiction := u "kr"; oid_provider := u "law_go_kr";
                     oid_dataset := NationalStatute; oid_id := u "000001" |};
     ii_revision_id := u "100:20240101"; ii_effective_date := Some (u "20240101");
     ii_publication_date := None; ii_title := u "견본법"; ii_data_source := None;
     ii_case_number := None; ii_treaty_class_code := None; ii_amendment_type := None |}.

Definition sample_output (tree : DocumentNode) : DocumentOutput :=
  {| do_source_sha256 := []; do_processor_version := u "v1"; do_format := Xml;
     do_tree := Some tree; do_text := []; do_pages := []; do_ocr_pages := []; do_diagnostics := [] |}.

Definition sample_urls : ProviderUrls := {| url_with_pairs base pairs := Some base |}.

Definition sample_projection : result DatabaseError LegalRecord :=
  @project sample_codecs sample_urls sample_item (sample_output sample_tree).

Lemma sample_sections :
  (let? rec := sample_projection in Ok ((fun s => (sec_id s, sec_text s)) <$> lr_sections rec))
  = Ok [(u "article:0001001:source_ordinal:1", u "제1조(목적)");
        (u "article:0001001:source_ordinal:2", u "제2조(정의)"); (u "source_ordinal:3", u "부칙")].
Proof. vm_compute. reflexivity. Qed.

Lemma sample_projected : { rec | sample_projection = Ok rec }.
Proof. apply is_ok_value. vm_compute. reflexivity. Defined.

Lemma project_sound_witness :
  exists rec, sample_projection = Ok rec
    /\ @projected sample_codecs sample_item (without_supplements (sample_output sample_tree)) rec.
Proof.
  destruct sample_projected as [rec Hrec]. exists rec. split; [exact Hrec|].
  apply (@project_sound sample_codecs sample_urls). exact Hrec.
Defined.

Lemma disambiguation_spec_witness :
  length (disambiguate_article_sections (sections sample_tree []) ∅ []).1 = 4%nat.
Proof.
  assert (H : zlen (sections sample_tree []) <= usize_max - 1) by (vm_compute; discriminate).
  rewrite (proj1 (disambiguation_spec _ ∅ [] H)). vm_compute. reflexivity.
Defined.
