(* ===== verification/Requests.v ===== *)
(** The routes of the provider client, [crates/adapters/src/law_go_kr.rs], and
    the operator's request limits ([ProviderRequestLimits], over the limits of
    [Upstream]).  A request is the service it
    goes to with its query pairs in order; writing it as text is the [url]
    crate's. *)

From S2P Require Import Prelude Utf8 Strings Domain Legal CacheStore Upstream KrNames Document Catalogue ProviderTree.

(** * Limits *)

#[export] Instance RequestLimit_eq_dec : EqDecision RequestLimit.
Proof. solve_decision. Defined.

Record ProviderRequestLimits := {
  pl_continuous_daily_limit : RequestLimit; pl_on_demand_daily_limit : RequestLimit;
  pl_pilot_attempt_limit : RequestLimit; pl_on_demand_attempt_limit : RequestLimit;
  pl_interval_ms : Z; pl_max_in_flight : Z; pl_pilot_timeout_secs : Z;
  pl_on_demand_timeout_secs : Z; pl_max_job_attempts : Z;
}.

Definition default_limits : ProviderRequestLimits :=
  {| pl_continuous_daily_limit := Unlimited; pl_on_demand_daily_limit := Limited 1000;
     pl_pilot_attempt_limit := Limited 100; pl_on_demand_attempt_limit := Limited 32;
     pl_interval_ms := 200; pl_max_in_flight := 4; pl_pilot_timeout_secs := 1800;
     pl_on_demand_timeout_secs := 7200; pl_max_job_attempts := 3 |}.

Fixpoint limits_validate (limits : list RequestLimit) : result DatabaseError unit :=
  match limits with
  | [] => Ok tt
  | limit :: limits =>
    match limit_validate limit with Ok _ => limits_validate limits | Err _ => Err InvalidInput end
  end.

Definition validated_limits (l : ProviderRequestLimits) : result DatabaseError ProviderRequestLimits :=
  let? _ := limits_validate [pl_continuous_daily_limit l; pl_on_demand_daily_limit l;
                             pl_pilot_attempt_limit l; pl_on_demand_attempt_limit l] in
  if negb (in_range 1 3600001 (pl_interval_ms l)) || negb (in_range 1 16 (pl_max_in_flight l))
     || negb (in_range 60 86400 (pl_pilot_timeout_secs l))
     || negb (in_range 60 86400 (pl_on_demand_timeout_secs l))
     || negb (in_range 1 10 (pl_max_job_attempts l))
  then Err InvalidInput
  else Ok l.

(** The legacy constructor; the spacing is an unsigned 32-bit product. *)
Definition new_limits (continuous_daily_limit on_demand_daily_limit min_interval_secs : Z)
  : result DatabaseError ProviderRequestLimits :=
  if negb (in_range 1 3600 min_interval_secs) then Err InvalidInput
  else validated_limits
    {| pl_continuous_daily_limit := Limited continuous_daily_limit;
       pl_on_demand_daily_limit := Limited on_demand_daily_limit;
       pl_pilot_attempt_limit := Limited 100; pl_on_demand_attempt_limit := Limited 32;
       pl_interval_ms := as_u32 (min_interval_secs * 1000 + 1); pl_max_in_flight := 4;
       pl_pilot_timeout_secs := 1800; pl_on_demand_timeout_secs := 7200;
       pl_max_job_attempts := 3 |}.

(** * Routes *)

Record Request := { rq_service : str; rq_pairs : list (str * str) }.

Section routes.
Context `{CharTables} (credential : str).

Definition api (service target : str) : Request :=
  {| rq_service := service;
     rq_pairs := [(u "OC", credential); (u "target", target); (u "type", u "XML")] |}.

(** [url.query_pairs_mut().append_pair(..)] *)
Definition append_pairs (request : Request) (pairs : list (str * str)) : Request :=
  {| rq_service := rq_service request; rq_pairs := rq_pairs request ++ pairs |}.

Definition case_number_char (c : char) : bool := is_alphanumeric c || (c =? ch "-").
Definition term_char (c : char) : bool := is_alphanumeric c || (c =? ch " ") || (c =? ch "-").

Definition bad_term (term : str) : bool :=
  str_eqb term [] || (128 <? slen term) || existsb (fun c => negb (term_char c)) term.

Definition precedent_case_search_url (case_number : str) (page : Z) : result DatabaseError Request :=
  if negb (in_range 1 3 page) || str_eqb case_number [] || (64 <? slen case_number)
     || negb (forallb case_number_char case_number)
  then Err InvalidInput
  else Ok (append_pairs (api (u "lawSearch.do") (u "prec"))
             [(u "display", u "100"); (u "page", show_Z page); (u "nb", case_number)]).

(** The history filter of a listing. *)
Definition listing_filter (dataset : Dataset) (historical : bool) (object_id : option str)
  : list (str * str) :=
  match dataset with
  | NationalStatute =>
    (u "nw", if historical then u "1,3" else u "3")
    :: match object_id with Some id => [(u "LID", id)] | None => [] end
  | Ordinance | AdministrativeRule | SchoolRule | LocalPublicCorporationRule
  | PublicInstitutionRule => [(u "nw", if historical then u "2" else u "1")]
  | _ => []
  end.

Definition keeps_history (dataset : Dataset) : bool :=
  match sf_history_mode (source_family dataset) with
  | StatuteEffective | CurrentHistory => true
  | _ => false
  end.

Definition inventory_url (dataset : Dataset) (page : Z) (historical : bool) (object_id : option str)
  (treaty_class : option Z) (search : option (str * bool)) : result DatabaseError Request :=
  if opt_test (fun c => negb (bool_decide (dataset = Treaty)) || negb ((c =? 1) || (c =? 2))) treaty_class
  then Err InvalidInput
  else if opt_test (fun s => bad_term s.1) search then Err InvalidInput
  else if (page =? 0) || (1000000 <? page) || opt_test (fun id => negb (valid_identifier id 128)) object_id
  then Err InvalidInput
  else if historical && negb (keeps_history dataset) then Err UnsupportedHistory
  else if is_some object_id && negb (bool_decide (dataset = NationalStatute)) then Err UnsupportedHistory
  else
    let request := append_pairs (api (u "lawSearch.do") (target dataset))
                     [(u "display", u "100"); (u "page", show_Z page)] in
    let request :=
      match search with
      | Some (term, literal) =>
        append_pairs request [(u "query", if literal then 34 :: term ++ [34] else term)]
      | None => request
      end in
    let request :=
      match treaty_class with
      | Some class => append_pairs request [(u "cls", show_Z class)]
      | None => request
      end in
    Ok (append_pairs request (listing_filter dataset historical object_id)).

(** The HTML variant replaces the response type, at the end of the query. *)
Definition as_html (request : Request) : Request :=
  {| rq_service := rq_service request;
     rq_pairs := List.filter (fun kv => negb (str_eqb kv.1 (u "type"))) (rq_pairs request)
                 ++ [(u "type", u "HTML")] |}.

Definition detail_pairs (dataset : Dataset) (value : str) (effective : option str) : list (str * str) :=
  [(if bool_decide (dataset = Ordinance) then u "MST" else detail_parameter (source_family dataset), value)]
  ++ match effective with
     | Some date => [(u "efYd", date); (u "chrClsCd", u "010201")]
     | None => []
     end
  ++ (if bool_decide (dataset = Treaty) then [(u "chrClsCd", u "010202")] else []).

Definition detail_url (item : InventoryItem) : result DatabaseError Request :=
  let dataset := oid_dataset (ii_object item) in
  let? _ := object_validate (ii_object item) in
  let? parts := revision_parts item in
  let '(master, effective) := parts in
  let family := source_family dataset in
  if bool_decide (sf_detail_mode family = ListOnly) then Err SourceUnavailable
  else
    let? value :=
      if bool_decide (sf_detail_mode family = TermName) then
        if str_eqb (ii_title item) [] || (512 <? slen (ii_title item))
           || existsb is_control (ii_title item)
        then Err InvalidInput
        else Ok (ii_title item)
      else Ok master in
    let request := append_pairs (api (u "lawService.do") (target dataset))
                     (detail_pairs dataset value effective) in
    Ok (if precedent_html item then as_html request else request).
End routes.

(** * What the routes promise

    What the client's routes promise: they go to registered routes only, a
    detail request names one record, and every listed item of a family with a
    detail route can be requested. *)

(** Decide the comparisons of literal keys. *)
Ltac literal_keys :=
  repeat match goal with
  | |- context [str_eqb (u ?a) (u ?b)] =>
      let v := eval vm_compute in (str_eqb (u a) (u b)) in change (str_eqb (u a) (u b)) with v
  end.

Definition pairs_at (key : str) (pairs : list (str * str)) : list str :=
  snd <$> List.filter (fun kv => str_eqb kv.1 key) pairs.

Lemma pairs_at_app key a b : pairs_at key (a ++ b) = pairs_at key a ++ pairs_at key b.
Proof. unfold pairs_at. by rewrite List.filter_app, fmap_app. Qed.

Lemma pairs_at_cons key k v l :
  pairs_at key ((k, v) :: l) = (if str_eqb k key then [v] else []) ++ pairs_at key l.
Proof. unfold pairs_at. cbn. by destruct (str_eqb k key). Qed.

Lemma pairs_at_nil key : pairs_at key [] = [].
Proof. reflexivity. Qed.

Lemma filter_filter_type key l :
  str_eqb key (u "type") = false ->
  pairs_at key (List.filter (fun kv => negb (str_eqb kv.1 (u "type"))) l) = pairs_at key l.
Proof.
  intros Hk. unfold pairs_at. induction l as [|[k v] l IH]; [done|]. cbn [List.filter fst].
  destruct (str_eqb k (u "type")) eqn:E; cbn [negb].
  - apply str_eqb_eq in E as ->. destruct (str_eqb (u "type") key) eqn:E'; [|done].
    apply str_eqb_eq in E' as <-. by rewrite str_eqb_refl in Hk.
  - cbn [List.filter fst]. destruct (str_eqb k key); [cbn [fmap list_fmap]; by rewrite IH|done].
Qed.

Lemma filter_type l :
  pairs_at (u "type") (List.filter (fun kv => negb (str_eqb kv.1 (u "type"))) l) = [].
Proof.
  unfold pairs_at. induction l as [|[k v] l IH]; [done|]. cbn [List.filter fst].
  destruct (str_eqb k (u "type")) eqn:E; cbn [negb]; [done|]. cbn [List.filter fst]. by rewrite E.
Qed.

Create Rewrite HintDb pairs.
#[local] Hint Rewrite pairs_at_app pairs_at_cons pairs_at_nil @app_nil_r : pairs.

Section routes.
Context `{CharTables} (credential : str).

(** The request is one of a registered family's routes: the credential, the
    family's target and the response type are each stated once. *)
Record registered (dataset : Dataset) (service format : str) (r : Request) : Prop := {
  rg_service : rq_service r = service;
  rg_credential : pairs_at (u "OC") (rq_pairs r) = [credential];
  rg_target : pairs_at (u "target") (rq_pairs r) = [target dataset];
  rg_type : pairs_at (u "type") (rq_pairs r) = [format];
}.

Lemma detail_parameter_keys dataset key :
  str_eqb (u "query") key = false -> str_eqb (u "MST") key = false -> str_eqb (u "ID") key = false ->
  str_eqb (if bool_decide (dataset = Ordinance) then u "MST" else detail_parameter (source_family dataset)) key
  = false.
Proof.
  intros Hq Hm Hi. destruct (bool_decide _); [done|]. unfold detail_parameter.
  destruct (sf_dataset _), (sf_detail_mode _); done.
Qed.

(** The parameters of a detail request do not repeat those of the route. *)
Lemma detail_pairs_apart dataset value effective key :
  str_eqb (u "query") key = false -> str_eqb (u "MST") key = false -> str_eqb (u "ID") key = false ->
  str_eqb (u "efYd") key = false -> str_eqb (u "chrClsCd") key = false ->
  pairs_at key (detail_pairs dataset value effective) = [].
Proof.
  intros. unfold detail_pairs. rewrite !pairs_at_app, pairs_at_cons, detail_parameter_keys by done.
  destruct effective, (bool_decide (dataset = Treaty)); rewrite ?pairs_at_cons, ?pairs_at_nil;
    repeat match goal with H : str_eqb _ _ = false |- _ => rewrite H; clear H end; done.
Qed.

Lemma detail_pairs_date dataset value effective :
  pairs_at (u "efYd") (detail_pairs dataset value effective) = option_list effective.
Proof.
  unfold detail_pairs. rewrite !pairs_at_app, pairs_at_cons, detail_parameter_keys by done.
  destruct effective, (bool_decide (dataset = Treaty)); rewrite ?pairs_at_cons, ?pairs_at_nil; literal_keys; done.
Qed.

Definition number_key (dataset : Dataset) : str :=
  if bool_decide (dataset = Ordinance) then u "MST" else detail_parameter (source_family dataset).

Lemma number_key_literal dataset : number_key dataset ∈ [u "query"; u "MST"; u "ID"].
Proof.
  unfold number_key, detail_parameter. destruct (bool_decide _); [right; left|].
  destruct (sf_dataset _), (sf_detail_mode _); repeat first [left | right].
Qed.

Lemma detail_pairs_number dataset value effective :
  pairs_at (number_key dataset) (detail_pairs dataset value effective) = [value].
Proof.
  unfold detail_pairs. fold (number_key dataset). rewrite !pairs_at_app, pairs_at_cons, str_eqb_refl.
  pose proof (number_key_literal dataset) as Hk. rewrite !elem_of_cons in Hk.
  destruct Hk as [->|[->|[->|Hk]]]; [..|by apply not_elem_of_nil in Hk];
    destruct effective, (bool_decide (dataset = Treaty)); rewrite ?pairs_at_cons, ?pairs_at_nil; literal_keys; done.
Qed.

(** What a detail request says of the item. *)
Record names_item (item : InventoryItem) (r : Request) : Prop := {
  ni_registered : registered (oid_dataset (ii_object item)) (u "lawService.do")
    (if precedent_html item then u "HTML" else u "XML") r;
  ni_number : sf_detail_mode (source_family (oid_dataset (ii_object item))) <> TermName ->
    exists number effective, revision_parts item = Ok (number, effective)
      /\ pairs_at (number_key (oid_dataset (ii_object item))) (rq_pairs r) = [number]
      /\ pairs_at (u "efYd") (rq_pairs r) = option_list effective;
  ni_term : sf_detail_mode (source_family (oid_dataset (ii_object item))) = TermName ->
    pairs_at (number_key (oid_dataset (ii_object item))) (rq_pairs r) = [ii_title item];
}.

Lemma html_pairs_at key r :
  str_eqb key (u "type") = false -> pairs_at key (rq_pairs (as_html r)) = pairs_at key (rq_pairs r).
Proof.
  intros Hk. unfold as_html. cbn [rq_pairs]. rewrite pairs_at_app, filter_filter_type, pairs_at_cons by done.
  destruct (str_eqb (u "type") key) eqn:E; [|by rewrite app_nil_r].
  apply str_eqb_eq in E as <-. by rewrite str_eqb_refl in Hk.
Qed.

Lemma number_key_not key dataset :
  str_eqb (u "query") key = false -> str_eqb (u "MST") key = false -> str_eqb (u "ID") key = false ->
  str_eqb (number_key dataset) key = false.
Proof. apply detail_parameter_keys. Qed.

Lemma detail_url_names item r : detail_url credential item = Ok r -> names_item item r.
Proof.
  unfold detail_url. destruct (object_validate _); [|done].
  destruct (revision_parts item) as [[number effective]|] eqn:Er; [|done].
  set (family := source_family _). destruct (bool_decide (sf_detail_mode family = ListOnly)); [done|].
  destruct (if bool_decide (sf_detail_mode family = TermName) then _ else _) as [value|] eqn:Ev; [|done].
  set (dataset := oid_dataset (ii_object item)). set (r0 := append_pairs _ _). intros [= <-].
  assert (H0 : forall key, pairs_at key (rq_pairs r0) =
    pairs_at key [(u "OC", credential); (u "target", target dataset); (u "type", u "XML")]
    ++ pairs_at key (detail_pairs dataset value effective)).
  { intros key. apply pairs_at_app. }
  assert (K1 : forall key, str_eqb key (u "type") = false ->
    pairs_at key (rq_pairs (if precedent_html item then as_html r0 else r0)) = pairs_at key (rq_pairs r0)).
  { intros key Hk. destruct (precedent_html item); [by apply html_pairs_at|done]. }
  assert (K2 : pairs_at (number_key dataset) (rq_pairs (if precedent_html item then as_html r0 else r0)) = [value]).
  { rewrite K1 by (by apply number_key_not). rewrite H0, detail_pairs_number, !pairs_at_cons, pairs_at_nil.
    pose proof (number_key_literal dataset) as Hk. rewrite !elem_of_cons in Hk.
    destruct Hk as [->|[->|[->|Hk]]]; [..|by apply not_elem_of_nil in Hk]; literal_keys; done. }
  constructor.
  - constructor.
    + by destruct (precedent_html item).
    + rewrite K1, H0, detail_pairs_apart, !pairs_at_cons, pairs_at_nil by done. literal_keys. done.
    + rewrite K1, H0, detail_pairs_apart, !pairs_at_cons, pairs_at_nil by done. literal_keys. done.
    + destruct (precedent_html item).
      * unfold as_html. cbn [rq_pairs]. rewrite pairs_at_app, filter_type, pairs_at_cons, str_eqb_refl. done.
      * rewrite H0, detail_pairs_apart, !pairs_at_cons, pairs_at_nil by done. literal_keys. done.
  - intros Hm. exists number, effective. rewrite bool_decide_false in Ev by done. injection Ev as <-.
    split; [done|]. split; [exact K2|].
    rewrite K1, H0, detail_pairs_date, !pairs_at_cons, pairs_at_nil by done. literal_keys. done.
  - intros Hm. rewrite bool_decide_true in Ev by done. destruct (_ || _); [done|]. injection Ev as <-. exact K2.
Qed.

Lemma parts_revision item number effective :
  revision_parts item = Ok (number, effective) ->
  ii_revision_id item = match effective with Some d => number ++ u ":" ++ d | None => number end.
Proof.
  unfold revision_parts. destruct (_ || _); [done|]. destruct (bool_decide _).
  - destruct (split_once _ _) as [[m e]|] eqn:Es; [|done]. cbn [ok_or].
    destruct (_ || _); [done|]. intros [= <- <-]. by apply split_once_Some in Es.
  - destruct (_ && _); [|done]. by intros [= <- <-].
Qed.

Lemma target_inj a b : target a = target b -> a = b.
Proof. apply family_target_inj. Qed.

Lemma detail_request_revision item r :
  detail_url credential item = Ok r ->
  forall other, detail_url credential other = Ok r ->
    sf_detail_mode (source_family (oid_dataset (ii_object item))) <> TermName ->
    ii_revision_id other = ii_revision_id item.
Proof.
  intros Hr other Ho Hm. destruct (detail_url_names item r Hr) as [Hreg Hnum _].
  destruct (detail_url_names other r Ho) as [Hreg' Hnum' _].
  assert (Hd : oid_dataset (ii_object other) = oid_dataset (ii_object item)).
  { apply target_inj. pose proof (rg_target _ _ _ _ Hreg) as Ht. rewrite (rg_target _ _ _ _ Hreg') in Ht. by injection Ht. }
  destruct (Hnum Hm) as (n & e & Hp & Hn & He).
  rewrite Hd in Hnum'. destruct (Hnum' Hm) as (n' & e' & Hp' & Hn' & He').
  rewrite (parts_revision _ _ _ Hp), (parts_revision _ _ _ Hp').
  rewrite Hn in Hn'. injection Hn' as ->. rewrite He in He'. by destruct e, e'; simplify_eq/=.
Qed.

(** Every detail request, of a listed item or not, goes to the family's registered
    route, and two items with the same request are of the same family. *)
Theorem detail_request_names_revision item r :
  detail_url credential item = Ok r ->
  registered (oid_dataset (ii_object item)) (u "lawService.do")
    (if precedent_html item then u "HTML" else u "XML") r
  /\ forall other, detail_url credential other = Ok r ->
       oid_dataset (ii_object other) = oid_dataset (ii_object item).
Proof.
  intros Hr. destruct (detail_url_names item r Hr) as [Hreg _ _]. split; [done|]. intros other Ho.
  destruct (detail_url_names other r Ho) as [Hreg' _ _]. apply target_inj.
  pose proof (rg_target _ _ _ _ Hreg) as Ht. rewrite (rg_target _ _ _ _ Hreg') in Ht. by injection Ht.
Qed.

(** A title that a detail request can name *)
Definition term_named (title : str) : Prop :=
  title <> [] /\ slen title <= 512 /\ existsb is_control title = false.

(** C29. What the detail request of a listed item is, for each of the three kinds of
    family: where records are read by their revision it always exists, goes to the
    family's registered route with the credential, target and response type stated
    once, and names the item's revision, so that two listed items with the same request
    have the same revision; where they are read by the name of a term it exists exactly
    when the title is not empty, at most 512 bytes long and without control characters,
    and names the title; a family that is only listed refuses with
    [SourceUnavailable]. *)
Theorem listed_items_requestable tree dataset page item :
  item ∈ ip_items (parse_inventory_tree tree dataset page) ->
  match sf_detail_mode (source_family dataset) with
  | RevisionId => exists r, detail_url credential item = Ok r /\ names_item item r
      /\ forall other, other ∈ ip_items (parse_inventory_tree tree dataset page) ->
           detail_url credential other = Ok r -> ii_revision_id other = ii_revision_id item
  | TermName =>
      (term_named (ii_title item) /\ exists r, detail_url credential item = Ok r /\ names_item item r)
      \/ (~ term_named (ii_title item) /\ detail_url credential item = Err InvalidInput)
  | ListOnly => detail_url credential item = Err SourceUnavailable
  end.
Proof.
  intros Hin. pose proof (listed_addressable tree dataset page) as Ha. rewrite Forall_forall in Ha.
  destruct (Ha item Hin) as [Hd Ho [[n e] Hp] _ _ _].
  destruct (sf_detail_mode (source_family dataset)) eqn:Hm.
  - assert (exists r, detail_url credential item = Ok r) as [r Hr].
    { unfold detail_url. rewrite Ho, Hp, Hd, Hm.
      change (bool_decide (RevisionId = ListOnly)) with false.
      change (bool_decide (RevisionId = TermName)) with false. eexists. reflexivity. }
    exists r. split; [done|]. split; [by apply detail_url_names|]. intros other Hother Hr'.
    by apply (detail_request_revision item r Hr other Hr'); rewrite Hd, Hm.
  - assert (Ht : term_named (ii_title item)
      <-> str_eqb (ii_title item) [] || (512 <? slen (ii_title item)) || existsb is_control (ii_title item) = false).
    { unfold term_named. rewrite !orb_false_iff, Z.ltb_ge.
      assert (He : str_eqb (ii_title item) [] = false <-> ii_title item <> [])
        by (by rewrite <- not_true_iff_false, str_eqb_eq).
      rewrite He. tauto. }
    unfold detail_url in *. rewrite Ho, Hp, Hd, Hm.
    change (bool_decide (TermName = ListOnly)) with false.
    change (bool_decide (TermName = TermName)) with true. cbv iota.
    destruct (_ || existsb _ _) eqn:Eb.
    + right. split; [|done]. intros Hterm. apply Ht in Hterm. congruence.
    + left. split; [by apply Ht|]. eexists. split; [reflexivity|]. apply detail_url_names.
      unfold detail_url. rewrite Ho, Hp, Hd, Hm, Eb. done.
  - unfold detail_url. by rewrite Ho, Hp, Hd, Hm.
Qed.
End routes.

(** A listing of one law, and the request for it. *)
Definition field_node (name value : str) : DocumentNode := Element name [] [Text value].

Definition sample_listing : DocumentNode :=
  Element (u "LawSearch") []
    [field_node (u "totalCnt") (u "1");
     Element (u "law") []
       [field_node (u "법령ID") (u "001823"); field_node (u "법령일련번호") (u "276461");
        field_node (u "법령명한글") (u "건축법"); field_node (u "시행일자") (u "20260102");
        field_node (u "공포일자") (u "20250101")]].

Definition sample_items : list InventoryItem :=
  ip_items (parse_inventory_tree sample_listing NationalStatute 1).

Lemma listed_items_requestable_witness :
  exists item, item ∈ sample_items /\ exists r, detail_url (u "key") item = Ok r /\ names_item (u "key") item r.
Proof.
  destruct sample_items as [|item items] eqn:E; [vm_compute in E; discriminate E|].
  exists item. assert (Hin : item ∈ sample_items) by (rewrite E; left). split; [left|].
  pose proof (listed_items_requestable (u "key") sample_listing NationalStatute 1 item Hin) as Hl.
  change (sf_detail_mode (source_family NationalStatute)) with RevisionId in Hl.
  destruct Hl as (r & Hr & Hn & _). exists r. split; [exact Hr|exact Hn].
Defined.

Lemma detail_request_names_revision_witness :
  exists item r, detail_url (u "key") item = Ok r
    /\ registered (u "key") NationalStatute (u "lawService.do") (u "XML") r.
Proof.
  destruct sample_items as [|item items] eqn:E; [vm_compute in E; discriminate E|].
  destruct (detail_url (u "key") item) as [r|e] eqn:Er; [|vm_compute in E; injection E as <- _; vm_compute in Er; discriminate Er].
  exists item, r. split; [exact Er|].
  pose proof (proj1 (detail_request_names_revision (u "key") item r Er)) as Hreg.
  vm_compute in E. injection E as <- _. exact Hreg.
Defined.

(** * Limits *)

Lemma limits_validate_Ok l : limits_validate l = Ok tt <-> Forall (fun x => limit_validate x = Ok tt) l.
Proof.
  induction l as [|x l IH]; cbn [limits_validate]; [done|]. rewrite Forall_cons, <- IH.
  destruct (limit_validate x) as [[]|]; naive_solver.
Qed.

Lemma limit_validate_Ok limit :
  limit_validate limit = Ok tt <-> forall n, as_option limit = Some n -> 1 <= n <= 1000000.
Proof.
  destruct limit as [v|]; cbn; [|done]. destruct (in_range 1 1000000 v) eqn:E; cbn.
  - apply in_range_iff in E. naive_solver.
  - split; [done|]. intros Hn. assert (in_range 1 1000000 v = true); [|congruence].
    by apply in_range_iff, Hn.
Qed.

Lemma validated_limits_id l l' : validated_limits l = Ok l' -> l' = l.
Proof. unfold validated_limits. destruct (limits_validate _); [|done]. by destruct (_ || _); intros [= <-]. Qed.

(** Limits that pass validation are kept as they are and leave room for work:
    every allowance admits a first attempt, and after a million attempts only
    an unlimited one admits another.  The legacy constructor's spacing never overflows its 32 bits. *)
Theorem limits_spec l l' :
  validated_limits l = Ok l' ->
  l' = l
  /\ Forall (fun limit => allows limit 0 = true /\ allows limit 1000000
               = bool_decide (limit = Unlimited))
       [pl_continuous_daily_limit l; pl_on_demand_daily_limit l; pl_pilot_attempt_limit l;
        pl_on_demand_attempt_limit l]
  /\ 1 <= pl_interval_ms l <= 3600001 /\ 1 <= pl_max_in_flight l <= 16
  /\ 1 <= pl_max_job_attempts l <= 10.
Proof.
  unfold validated_limits. destruct (limits_validate _) as [[]|] eqn:Ev; [|done].
  destruct (_ || _) eqn:E; [done|]. intros [= <-]. bool_hyps. rewrite !in_range_iff in *.
  split; [done|]. split; [|lia]. apply limits_validate_Ok in Ev. eapply Forall_impl; [exact Ev|].
  intros limit Hl. rewrite limit_validate_Ok in Hl. destruct limit as [v|]; [|done].
  specialize (Hl v eq_refl). unfold allows. cbn [as_option]. rewrite (proj2 (Z.ltb_lt _ _)) by lia.
  split; [done|]. rewrite bool_decide_false by done. apply Z.ltb_ge. lia.
Qed.

Lemma limits_spec_witness :
  1 <= pl_interval_ms default_limits <= 3600001.
Proof.
  destruct (limits_spec default_limits default_limits) as (_ & _ & Hi & _); [reflexivity|exact Hi].
Defined.

Lemma new_limits_spacing a b secs l :
  new_limits a b secs = Ok l -> pl_interval_ms l = secs * 1000 + 1.
Proof.
  unfold new_limits. destruct (in_range 1 3600 secs) eqn:E; [|done]. apply in_range_iff in E. cbn [negb].
  intros ->%validated_limits_id. cbn. apply Z.mod_small. lia.
Qed.
