(* ===== verification/HttpUpstream.v ===== *)
(** The bounded HTTP upstream, [crates/adapters/src/lib.rs]: the destinations
    it accepts, the addresses it may connect to, and the reading of one
    response.  URL parsing, the resolver, the TLS client and the payload
    processor are operations of the class [HttpWorld]; what one attempt meets
    is a value of [Attempt]. *)

From S2P Require Import Prelude Utf8 Strings Domain CacheStore Upstream.

(** * Addresses *)

Inductive IpAddr :=
| V4 (a b c d : Z)
| V6 (segments : list Z).

#[export] Instance IpAddr_eq_dec : EqDecision IpAddr.
Proof. solve_decision. Defined.

(** [IpAddr::is_loopback] *)
Definition is_loopback (ip : IpAddr) : bool :=
  match ip with
  | V4 a _ _ _ => a =? 127
  | V6 segments => bool_decide (segments = [0; 0; 0; 0; 0; 0; 0; 1])
  end.

(** Conservative global-unicast policy. *)
Definition public_address (ip : IpAddr) : bool :=
  match ip with
  | V4 a b c _ =>
    negb ((a =? 0) || (a =? 10) || (a =? 127) || (224 <=? a)
      || ((a =? 100) && in_range 64 127 b)
      || ((a =? 169) && (b =? 254))
      || ((a =? 172) && in_range 16 31 b)
      || ((a =? 192) && ((b =? 168) || ((b =? 0) && ((c =? 0) || (c =? 2))) || ((b =? 88) && (c =? 99))))
      || ((a =? 198) && (((b =? 18) || (b =? 19)) || ((b =? 51) && (c =? 100))))
      || ((a =? 203) && (b =? 0) && (c =? 113)))
  | V6 segments =>
    let s0 := nth 0 segments 0 in
    let s1 := nth 1 segments 0 in
    (Z.land s0 0xe000 =? 0x2000)
    && negb ((s0 =? 0x2001) && ((s1 <? 0x0200) || (s1 =? 0x0db8)))
    && negb (s0 =? 0x2002)
    && negb ((s0 =? 0x3fff) && (Z.land s1 0xf000 =? 0))
  end.

(** * Destinations *)

Inductive DestinationMode := PublicHttps | MockLoopback.

#[export] Instance DestinationMode_eq_dec : EqDecision DestinationMode.
Proof. solve_decision. Defined.

Inductive Host := Domain_ (name : str) | Address (ip : IpAddr).

(** What the code reads of a parsed URL. *)
Record Origin := {
  or_scheme : str; or_username : str; or_password : option str; or_host : option Host;
  or_host_str : str; or_path : str; or_query : option str; or_fragment : option str;
  or_port : option Z; (* [port_or_known_default] *)
}.

Class HttpWorld := {
  (** [Url::parse] *)
  parse_origin : str -> option Origin;
  (** building the resolver succeeds *)
  resolver_ready : bool;
  (** [httpdate::parse_http_date], as seconds from now, at least zero *)
  http_date_from_now : str -> option Z;
  (** the payload processor *)
  process_payload : list byte -> Query -> result RetrievalError RetrievalData;
}.

Definition literal_ip (origin : Origin) : option IpAddr :=
  match or_host origin with Some (Address ip) => Some ip | _ => None end.

Definition holds_ip (p : IpAddr -> bool) (o : option IpAddr) : bool :=
  match o with Some ip => p ip | None => false end.

Record HttpUpstream := {
  hu_origin : Origin; hu_mode : DestinationMode; hu_resolver : bool; hu_attempt_timeout : Z;
}.

Definition origin_malformed (origin : Origin) : bool :=
  negb (str_eqb (or_username origin) []) || is_some (or_password origin)
  || negb (is_some (or_host origin)) || negb (str_eqb (or_path origin) (u "/"))
  || is_some (or_query origin) || is_some (or_fragment origin).

Definition mode_mismatch (mode : DestinationMode) (origin : Origin) : bool :=
  match mode with
  | PublicHttps =>
    negb (str_eqb (or_scheme origin) (u "https")) || negb (bool_decide (or_port origin = Some 443))
  | MockLoopback =>
    negb (str_eqb (or_scheme origin) (u "http")) || negb (holds_ip is_loopback (literal_ip origin))
  end.

(** [retry_after], with the reading of a date as the seconds from now *)
Definition retry_after_at (date_from_now : str -> option Z) (value : str) : option Z :=
  match parse_unsigned u64_max value with
  | Some seconds => Some seconds
  | None => (fun secs => saturating_add secs 1) <$> date_from_now value
  end.

Section upstream.
Context `{HttpWorld}.

Definition new (base_url : str) (mode : DestinationMode) : result RetrievalError HttpUpstream :=
  if 512 <? slen base_url then Err InvalidInput
  else
    let? origin := ok_or (parse_origin base_url) InvalidInput in
    if origin_malformed origin then Err InvalidInput
    else if mode_mismatch mode origin then Err InvalidInput
    else if bool_decide (mode = PublicHttps)
            && holds_ip (fun ip => negb (public_address ip)) (literal_ip origin)
    then Err InvalidInput
    else
      let? resolver :=
        if negb (is_some (literal_ip origin))
        then if resolver_ready then Ok true else Err InvalidInput
        else Ok false in
      Ok {| hu_origin := origin; hu_mode := mode; hu_resolver := resolver; hu_attempt_timeout := 5 |}.

Definition with_attempt_timeout (upstream : HttpUpstream) (secs : Z) : result RetrievalError HttpUpstream :=
  if (secs <? 1) || (60 <? secs) then Err InvalidInput
  else Ok {| hu_origin := hu_origin upstream; hu_mode := hu_mode upstream;
             hu_resolver := hu_resolver upstream; hu_attempt_timeout := secs |}.

(** * One attempt *)

Record Response := {
  rs_status : Z; rs_retry_after : option str; rs_content_encoding : option str;
  rs_content_type : option str; rs_content_length : option Z;
  (** the chunks of the body; [None] is a failed read *)
  rs_chunks : list (option (list byte));
}.

Record Attempt := {
  (** the resolver's answer; [None] is a failed lookup *)
  at_lookup : option (list IpAddr);
  (** the client could be built *)
  at_client : bool;
  at_response : option Response;
  (** the cancellation token after the body, and after the processing *)
  at_cancelled_body : bool; at_cancelled_data : bool;
}.

Definition MAX_PAYLOAD_BYTES : Z := 1024 * 1024.

(** The path and the query pairs of the request. *)
Definition route (query : Query) : str * list (str * str) :=
  match query with
  | Search source query page page_size =>
    (u "/" ++ source ++ u "/search",
     [(u "query", query); (u "page", show_Z page); (u "page_size", show_Z page_size)])
  | Get source id => (u "/" ++ source ++ u "/records/" ++ id, [])
  end.

(** The loop over the resolver's answers. *)
Fixpoint checked_addresses (ips : list IpAddr) (checked : list IpAddr)
  : result RetrievalError (list IpAddr) :=
  match ips with
  | [] => Ok checked
  | ip :: ips =>
    if (16 <=? zlen checked) || negb (public_address ip) then Err InvalidPayload
    else checked_addresses ips (checked ++ [ip])
  end.

Definition resolved_addresses (upstream : HttpUpstream) (attempt : Attempt)
  : result RetrievalError (list IpAddr) :=
  match literal_ip (hu_origin upstream) with
  | Some ip => Ok [ip]
  | None =>
    if negb (hu_resolver upstream) then Err Internal
    else
      let? ips := ok_or (at_lookup attempt) Unavailable in
      let? checked := checked_addresses ips [] in
      if bool_decide (checked = []) then Err Unavailable else Ok checked
  end.

Definition allowed_address (mode : DestinationMode) (ip : IpAddr) : bool :=
  match mode with PublicHttps => public_address ip | MockLoopback => is_loopback ip end.

(** The addresses the connection is pinned to. *)
Definition pinned_addresses (upstream : HttpUpstream) (attempt : Attempt)
  : result RetrievalError (list IpAddr) :=
  let? _ := ok_or (or_host (hu_origin upstream)) InvalidInput in
  let? _ := ok_or (or_port (hu_origin upstream)) InvalidInput in
  let? addresses := resolved_addresses upstream attempt in
  if existsb (fun ip => negb (allowed_address (hu_mode upstream) ip)) addresses
  then Err InvalidPayload
  else Ok addresses.

Definition retry_after (value : str) : option Z := retry_after_at http_date_from_now value.

Definition check_status (mode : DestinationMode) (query : Query) (response : Response)
  : result RetrievalError unit :=
  let status := rs_status response in
  if status =? 200 then Ok tt
  else if (status =? 429) || (status =? 503)
  then Err (Throttled (rs_retry_after response ≫= retry_after))
  else if (status =? 502) || (status =? 504) then Err Unavailable
  else if (status =? 404) && bool_decide (mode = MockLoopback)
          && match query with Get _ _ => true | Search _ _ _ _ => false end
  then Err Domain.NotFound
  else Err InvalidPayload.

Definition mime_json (content_type : str) : bool :=
  str_eqb (to_ascii_lowercase <$> trim (hd [] (split_char (ch ";") content_type)))
    (u "application/json").

Definition check_headers (response : Response) : result RetrievalError unit :=
  if match rs_content_encoding response with Some v => negb (str_eqb v (u "identity")) | None => false end
     || negb match rs_content_type response with Some v => mime_json v | None => false end
  then Err InvalidPayload
  else if match rs_content_length response with Some n => MAX_PAYLOAD_BYTES <? n | None => false end
  then Err ResourceLimit
  else Ok tt.

Fixpoint read_body (chunks : list (option (list byte))) (raw : list byte)
  : result RetrievalError (list byte) :=
  match chunks with
  | [] => Ok raw
  | None :: _ => Err Unavailable
  | Some chunk :: chunks =>
    if MAX_PAYLOAD_BYTES <? saturating_add (zlen raw) (zlen chunk) then Err ResourceLimit
    else read_body chunks (raw ++ chunk)
  end.

Definition source_reference (query : Query) : str :=
  match query with
  | Get source id => u "synthetic:" ++ source ++ u ":" ++ id
  | Search source _ _ _ => u "synthetic:" ++ source ++ u ":search"
  end.

Definition fetch_once (upstream : HttpUpstream) (query : Query) (attempt : Attempt)
  : result RetrievalError FetchedPayload :=
  let? _ := query_validate query in
  let? _ := pinned_addresses upstream attempt in
  if negb (at_client attempt) then Err Internal
  else
    let? response := ok_or (at_response attempt) Unavailable in
    let? _ := check_status (hu_mode upstream) query response in
    let? _ := check_headers response in
    let? raw := read_body (rs_chunks response) [] in
    if at_cancelled_body attempt then Err Domain.Cancelled
    else
      let? data := process_payload raw query in
      if at_cancelled_data attempt then Err Domain.Cancelled
      else Ok {| fp_raw := raw; fp_data := data; fp_source_reference := source_reference query |}.
End upstream.

(** * Theorems *)

(** ** Public addresses as blocks *)

(** A block of addresses: a prefix and its length in bits. *)
Definition in_block (width : Z) (address : Z) (block : Z * Z) : bool :=
  let '(prefix, length) := block in
  address / 2 ^ (width - length) =? prefix / 2 ^ (width - length).

Definition ipv4 (a b c d : Z) : Z := ((a * 256 + b) * 256 + c) * 256 + d.

(** The special-purpose blocks of IPv4 that are refused. *)
Definition special_v4 : list (Z * Z) :=
  [(ipv4 0 0 0 0, 8); (ipv4 10 0 0 0, 8); (ipv4 127 0 0 0, 8); (ipv4 224 0 0 0, 4);
   (ipv4 240 0 0 0, 4); (ipv4 100 64 0 0, 10); (ipv4 169 254 0 0, 16); (ipv4 172 16 0 0, 12);
   (ipv4 192 168 0 0, 16); (ipv4 192 0 0 0, 24); (ipv4 192 0 2 0, 24); (ipv4 192 88 99 0, 24);
   (ipv4 198 18 0 0, 15); (ipv4 198 51 100 0, 24); (ipv4 203 0 113 0, 24)].

(** Two leading segments of an IPv6 address. *)
Definition ipv6 (s0 s1 : Z) : Z := s0 * 65536 + s1.

(** The global unicast block, and the special-purpose blocks inside it. *)
Definition global_v6 : Z * Z := (ipv6 0x2000 0, 3).
Definition special_v6 : list (Z * Z) :=
  [(ipv6 0x2001 0, 23); (ipv6 0x2001 0x0db8, 32); (ipv6 0x2002 0, 16); (ipv6 0x3fff 0, 20)].

Definition octet (x : Z) : Prop := 0 <= x < 256.
Definition segment (x : Z) : Prop := 0 <= x < 65536.

Lemma land_high (s : Z) (width low : Z) :
  0 <= low -> 0 <= width ->
  Z.land s (Z.shiftl (Z.ones width) low) = (s / 2 ^ low) mod 2 ^ width * 2 ^ low.
Proof.
  intros Hl Hw. rewrite <- Z.land_ones, <- Z.shiftr_div_pow2, <- Z.shiftl_mul_pow2 by done.
  apply Z.bits_inj'. intros n Hn. rewrite Z.land_spec, !Z.shiftl_spec, Z.land_spec by done.
  destruct (Z_lt_le_dec n low).
  - rewrite !(Z.testbit_neg_r _ (n - low)) by lia. by rewrite !andb_false_r.
  - rewrite Z.shiftr_spec by lia. by replace (n - low + low) with n by lia.
Qed.

(** The leading bits of an IPv4 address. *)
Lemma ipv4_prefixes a b c d :
  octet a -> octet b -> octet c -> octet d ->
  let n := ipv4 a b c d in
  n / 2 ^ 24 = a /\ n / 2 ^ 28 = a / 16 /\ n / 2 ^ 22 = a * 4 + b / 64 /\ n / 2 ^ 16 = a * 256 + b
  /\ n / 2 ^ 20 = a * 16 + b / 16 /\ n / 2 ^ 8 = (a * 256 + b) * 256 + c /\ n / 2 ^ 17 = a * 128 + b / 2.
Proof.
  unfold octet, ipv4. intros. cbn zeta. change (2 ^ 24) with 16777216. change (2 ^ 28) with 268435456.
  change (2 ^ 22) with 4194304. change (2 ^ 16) with 65536. change (2 ^ 20) with 1048576.
  change (2 ^ 8) with 256. change (2 ^ 17) with 131072. split_and!; dlia.
Qed.

(** Comparing a number digit by digit. *)
Lemma eqb_digits k x y w : 0 <= y < k -> (x * k + y =? w) = (x =? w / k) && (y =? w mod k).
Proof.
  intros Hy. apply eq_true_iff_eq. rewrite andb_true_iff, !Z.eqb_eq. split.
  - intros <-. split; [rewrite Z.div_add_l, Z.div_small by lia; lia|].
    rewrite Z.add_comm, Z.mod_add, Z.mod_small by lia. done.
  - intros [-> ->]. rewrite Z.mul_comm. symmetry. apply Z.div_mod. lia.
Qed.

Lemma eqb_range k y q : 0 < k -> (y / k =? q) = in_range (q * k) (q * k + (k - 1)) y.
Proof.
  intros Hk. apply eq_true_iff_eq. rewrite Z.eqb_eq, in_range_iff.
  pose proof (Z.div_mod y k ltac:(lia)). pose proof (Z.mod_pos_bound y k Hk). nia.
Qed.

Lemma eqb_half y q : (y / 2 =? q) = (y =? q * 2) || (y =? q * 2 + 1).
Proof. apply eq_true_iff_eq. rewrite orb_true_iff, !Z.eqb_eq. dlia. Qed.

Lemma eqb_top a : 0 <= a < 256 -> (a / 16 =? 14) || (a / 16 =? 15) = (224 <=? a).
Proof. intros. apply eq_true_iff_eq. rewrite orb_true_iff, !Z.eqb_eq, Z.leb_le. dlia. Qed.

Ltac is_ground_Z w := let v := eval vm_compute in w in match v with Z.pos _ => idtac | 0 => idtac end.

Lemma public_v4 a b c d :
  octet a -> octet b -> octet c -> octet d ->
  public_address (V4 a b c d) = negb (existsb (in_block 32 (ipv4 a b c d)) special_v4).
Proof.
  intros Ha Hb Hc Hd. destruct (ipv4_prefixes a b c d Ha Hb Hc Hd) as (E24 & E28 & E22 & E16 & E20 & E8 & E17).
  unfold special_v4, in_block. cbn [existsb].
  change (32 - 8) with 24. change (32 - 4) with 28. change (32 - 10) with 22. change (32 - 16) with 16.
  change (32 - 12) with 20. change (32 - 24) with 8. change (32 - 15) with 17.
  rewrite E24, E28, E22, E16, E20, E8, E17. clear E24 E28 E22 E16 E20 E8 E17.
  repeat match goal with
  | |- context [ipv4 ?x ?y ?z ?w / 2 ^ ?k] =>
      let v := eval vm_compute in (ipv4 x y z w / 2 ^ k) in change (ipv4 x y z w / 2 ^ k) with v
  end.
  unfold octet in *. unfold public_address. f_equal.
  rewrite !(eqb_digits 256), (eqb_digits 4), (eqb_digits 16), (eqb_digits 128) by dlia.
  repeat match goal with
  | |- context [?w / ?k] => is_ground_Z w; let v := eval vm_compute in (w / k) in change (w / k) with v
  | |- context [?w mod ?k] => is_ground_Z w; let v := eval vm_compute in (w mod k) in change (w mod k) with v
  end.
  rewrite (eqb_half b 9), (eqb_range 64 b 1), (eqb_range 16 b 1), <- (eqb_top a) by lia.
  rewrite !andb_orb_distrib_r, !andb_assoc, !orb_assoc, orb_false_r. reflexivity.
Qed.

Lemma public_v6 s0 s1 rest :
  segment s0 -> segment s1 ->
  public_address (V6 (s0 :: s1 :: rest))
  = in_block 32 (ipv6 s0 s1) global_v6 && negb (existsb (in_block 32 (ipv6 s0 s1)) special_v6).
Proof.
  unfold segment. intros H0 H1. unfold public_address, special_v6, global_v6, in_block, ipv6. cbn [nth existsb].
  change 0xe000 with (Z.shiftl (Z.ones 3) 13). change 0xf000 with (Z.shiftl (Z.ones 4) 12).
  rewrite !land_high by done. change (32 - 3) with 29. change (32 - 23) with 9. change (32 - 32) with 0.
  change (32 - 16) with 16. change (32 - 20) with 12.
  assert ((s0 * 65536 + s1) / 2 ^ 29 = s0 / 8192) as -> by (change (2 ^ 29) with 536870912; dlia).
  assert ((s0 * 65536 + s1) / 2 ^ 9 = s0 * 128 + s1 / 512) as -> by (change (2 ^ 9) with 512; dlia).
  assert ((s0 * 65536 + s1) / 2 ^ 16 = s0) as -> by (change (2 ^ 16) with 65536; dlia).
  assert ((s0 * 65536 + s1) / 2 ^ 12 = s0 * 16 + s1 / 4096) as -> by (change (2 ^ 12) with 4096; dlia).
  change (2 ^ 0) with 1. rewrite !Z.div_1_r, (eqb_digits 128), (eqb_digits 65536), (eqb_digits 16) by dlia.
  repeat match goal with
  | |- context [?w / ?k] => is_ground_Z w; let v := eval vm_compute in (w / k) in change (w / k) with v
  | |- context [?w mod ?k] => is_ground_Z w; let v := eval vm_compute in (w mod k) in change (w mod k) with v
  end.
  assert (((s0 / 2 ^ 13) mod 2 ^ 3 * 2 ^ 13 =? 8192) = (s0 / 8192 =? 1)) as ->.
  { change (2 ^ 13) with 8192. change (2 ^ 3) with 8. apply eq_true_iff_eq. rewrite !Z.eqb_eq. dlia. }
  assert (((s1 / 2 ^ 12) mod 2 ^ 4 * 2 ^ 12 =? 0) = (s1 / 4096 =? 0)) as ->.
  { change (2 ^ 12) with 4096. change (2 ^ 4) with 16. apply eq_true_iff_eq. rewrite !Z.eqb_eq. dlia. }
  assert ((s1 <? 512) = (s1 / 512 =? 0)) as ->.
  { apply eq_true_iff_eq. rewrite Z.eqb_eq, Z.ltb_lt. dlia. }
  rewrite !negb_orb, !negb_andb, ?andb_true_r, <- ?andb_assoc.
  destruct (s0 / 8192 =? 1), (s0 =? 8193), (s1 / 512 =? 0), (s1 =? 3512), (s0 =? 8194), (s0 =? 16383),
    (s1 / 4096 =? 0); reflexivity.
Qed.

(** ** Destinations *)

Section destinations.
Context `{HttpWorld}.

Lemma checked_addresses_spec ips : forall checked addrs,
  zlen checked <= 16 -> Forall (fun ip => public_address ip = true) checked ->
  checked_addresses ips checked = Ok addrs ->
  addrs = checked ++ ips /\ zlen addrs <= 16 /\ Forall (fun ip => public_address ip = true) addrs.
Proof.
  induction ips as [|ip ips IH]; intros checked addrs Hl Hf; cbn [checked_addresses].
  { intros [= <-]. rewrite app_nil_r. by split_and!. }
  destruct (_ || _) eqn:E; [done|]. bool_hyps. intros Hc. apply IH in Hc as (Hc & ? & ?).
  - rewrite <- app_assoc in Hc. by split_and!.
  - zlen_simpl. unfold zlen in *. simpl. lia.
  - apply Forall_app. split; [done|]. by constructor.
Qed.

Lemma read_body_spec chunks : forall raw body,
  zlen raw <= MAX_PAYLOAD_BYTES -> read_body chunks raw = Ok body ->
  zlen body <= MAX_PAYLOAD_BYTES /\ Some body = (fun parts => raw ++ List.concat parts) <$> mapM id chunks.
Proof.
  induction chunks as [|[chunk|] chunks IH]; intros raw body Hl; cbn [read_body]; [| |done].
  - intros [= <-]. split; [done|]. cbn. by rewrite app_nil_r.
  - destruct (Z.ltb_spec MAX_PAYLOAD_BYTES (saturating_add (zlen raw) (zlen chunk))) as [|Hs]; [done|].
    intros Hb. apply IH in Hb as [? Hb].
    + split; [done|]. rewrite Hb. cbn. destruct (mapM id chunks); cbn; [|done]. by rewrite app_assoc.
    + rewrite zlen_app. unfold saturating_add, usize_max, MAX_PAYLOAD_BYTES in *. lia.
Qed.

(** Outside every special-purpose block. *)
Definition global_address (ip : IpAddr) : Prop :=
  match ip with
  | V4 a b c d => octet a -> octet b -> octet c -> octet d ->
      existsb (in_block 32 (ipv4 a b c d)) special_v4 = false
  | V6 (s0 :: s1 :: _) => segment s0 -> segment s1 ->
      in_block 32 (ipv6 s0 s1) global_v6 = true /\ existsb (in_block 32 (ipv6 s0 s1)) special_v6 = false
  | V6 _ => True
  end.

Lemma public_global ip : public_address ip = true -> global_address ip.
Proof.
  destruct ip as [a b c d|[|s0 [|s1 rest]]]; [|done..|]; intros Hp.
  - intros Ha Hb Hc Hd. rewrite public_v4 in Hp by done. by apply negb_true_iff in Hp.
  - intros H0 H1. rewrite public_v6 in Hp by done. apply andb_true_iff in Hp as [? Hp]. split; [done|].
    by apply negb_true_iff in Hp.
Qed.

(** What a completed attempt has done. *)
Record fetched (upstream : HttpUpstream) (query : Query) (attempt : Attempt) (payload : FetchedPayload) : Prop := {
  fe_query : query_validate query = Ok tt;
  fe_addresses : exists addrs, pinned_addresses upstream attempt = Ok addrs /\ addrs <> []
    /\ zlen addrs <= 16
    /\ Forall (fun ip => match hu_mode upstream with
                        | PublicHttps => global_address ip
                        | MockLoopback => is_loopback ip = true
                        end) addrs;
  fe_response : exists response body, at_response attempt = Some response /\ rs_status response = 200
    /\ mapM id (rs_chunks response) = Some body /\ fp_raw payload = List.concat body;
  fe_size : zlen (fp_raw payload) <= MAX_PAYLOAD_BYTES;
  fe_data : process_payload (fp_raw payload) query = Ok (fp_data payload);
  fe_kept : at_cancelled_body attempt = false /\ at_cancelled_data attempt = false;
}.

Lemma pinned_addresses_spec upstream attempt addrs :
  pinned_addresses upstream attempt = Ok addrs ->
  addrs <> [] /\ zlen addrs <= 16 /\ Forall (fun ip => allowed_address (hu_mode upstream) ip = true) addrs.
Proof.
  unfold pinned_addresses. destruct (or_host _); [|done]. destruct (or_port _); [|done]. cbn [ok_or].
  destruct (resolved_addresses upstream attempt) as [ips|] eqn:Er; [|done].
  destruct (existsb _ ips) eqn:E; [done|]. intros [= <-].
  assert (Hf : Forall (fun ip => allowed_address (hu_mode upstream) ip = true) ips).
  { apply Forall_forall. intros ip Hin. destruct (allowed_address _ ip) eqn:Ea; [done|].
    assert (existsb (fun ip => negb (allowed_address (hu_mode upstream) ip)) ips = true); [|congruence].
    apply existsb_exists. exists ip. rewrite Ea. split; [by apply list_elem_of_In|done]. }
  unfold resolved_addresses in Er. destruct (literal_ip _) as [ip|]; [by injection Er as <-|].
  destruct (hu_resolver upstream); [|done]. cbn [negb] in Er. destruct (at_lookup attempt) as [found|]; [|done].
  cbn [ok_or] in Er. destruct (checked_addresses found []) as [checked|] eqn:Ec; [|done].
  destruct (bool_decide_reflect (checked = [])); [done|]. injection Er as <-.
  apply checked_addresses_spec in Ec as (_ & ? & _); [done|done|constructor].
Qed.

(** C30. A completed attempt asked a valid query of at most sixteen addresses, each
    allowed by the destination mode (in the public mode, outside every
    special-purpose block); it read a whole successful response of at most one
    mebibyte, and answers what the processor makes of exactly those bytes. *)
Theorem fetch_once_sound upstream query attempt payload :
  fetch_once upstream query attempt = Ok payload -> fetched upstream query attempt payload.
Proof.
  unfold fetch_once. destruct (query_validate query) as [[]|] eqn:Eq; [|done].
  destruct (pinned_addresses upstream attempt) as [addrs|] eqn:Ep; [|done].
  destruct (at_client attempt); [|done]. cbn [negb].
  destruct (at_response attempt) as [response|] eqn:Er; [|done]. cbn [ok_or].
  destruct (check_status _ _ _) as [[]|] eqn:Es; [|done]. destruct (check_headers response) as [[]|]; [|done].
  destruct (read_body _ _) as [raw|] eqn:Eb; [|done]. destruct (at_cancelled_body attempt) eqn:Ec1; [done|].
  destruct (process_payload raw query) as [data|] eqn:Ed; [|done].
  destruct (at_cancelled_data attempt) eqn:Ec2; [done|]. intros [= <-].
  apply read_body_spec in Eb as [Hs Hb]; [|done].
  constructor; cbn; try done.
  - exists addrs. apply pinned_addresses_spec in Ep as Hp. destruct Hp as (? & ? & Hf).
    split_and!; try done. eapply Forall_impl; [exact Hf|]. intros ip. unfold allowed_address.
    destruct (hu_mode upstream); [apply public_global|done].
  - destruct (mapM id (rs_chunks response)) as [body|] eqn:Em; [|done]. injection Hb as ->.
    exists response, body. split_and!; try done. unfold check_status in Es.
    destruct (Z.eqb_spec (rs_status response) 200); [done|]. by repeat case_match.
Qed.
End destinations.

(** A world whose resolver answers, with a processor that accepts everything. *)
#[local] Instance sample_world : HttpWorld :=
  {| parse_origin _ := None; resolver_ready := true; http_date_from_now _ := None;
     process_payload _ _ := Ok (DataSearch {| sp_records := []; sp_page := 1; sp_page_size := 10; sp_total := 0 |}) |}.

Definition sample_upstream : HttpUpstream :=
  {| hu_origin := {| or_scheme := u "https"; or_username := []; or_password := None;
       or_host := Some (Domain_ (u "example.test")); or_host_str := u "example.test"; or_path := u "/";
       or_query := None; or_fragment := None; or_port := Some 443 |};
     hu_mode := PublicHttps; hu_resolver := true; hu_attempt_timeout := 5 |}.

Definition sample_attempt : Attempt :=
  {| at_lookup := Some [V4 93 184 215 14]; at_client := true;
     at_response := Some {| rs_status := 200; rs_retry_after := None; rs_content_encoding := None;
       rs_content_type := Some (u "application/json; charset=utf-8"); rs_content_length := Some 2;
       rs_chunks := [Some (u "{"); Some (u "}")] |};
     at_cancelled_body := false; at_cancelled_data := false |}.

Definition sample_query : Query := Get (u "kr") (u "law-1").

Lemma fetch_once_sound_witness :
  exists payload, fetch_once sample_upstream sample_query sample_attempt = Ok payload
    /\ fetched sample_upstream sample_query sample_attempt payload.
Proof.
  destruct (fetch_once sample_upstream sample_query sample_attempt) as [payload|e] eqn:E;
    [|vm_compute in E; discriminate E].
  exists payload. split; [reflexivity|]. apply fetch_once_sound. exact E.
Defined.
