(* ===== verification/ProviderResponse.v ===== *)
(** What the provider client reads off a raw response before any document is
    processed, [crates/adapters/src/law_go_kr.rs]: the API's error envelope,
    HTTP statuses, document magic, and the article numbers of a statute. *)

From Stdlib Require Import Sorted.
From S2P Require Import Prelude Utf8 Strings Domain Legal TextDiff InForce InForceFacts Slices Document Catalogue ProviderTree Projection.

(** * The error envelope *)

(** [bytes.strip_prefix(&[0xef, 0xbb, 0xbf]).unwrap_or(bytes)] *)
Definition without_bom (raw : list byte) : list byte := default raw (strip_prefix [0xef; 0xbb; 0xbf] raw).

Definition trim_ascii_start (raw : list byte) : list byte := drop_while is_ascii_whitespace raw.

(** The loop over declarations, processing instructions and comments.  [None]
    is the early [return false] of an unterminated one. *)
Fixpoint skip_prolog (fuel : nat) (rest : list byte) : result (stop DatabaseError) (option (list byte)) :=
  match fuel with
  | O => Err OutOfFuel
  | S fuel =>
    let rest := trim_ascii_start rest in
    let terminator :=
      if starts_with (u "<?") rest then Some (u "?>")
      else if starts_with (u "<!--") rest then Some (u "-->")
      else None in
    match terminator with
    | None => Ok (Some rest)
    | Some terminator =>
      match split_once terminator rest with
      | None => Ok None
      | Some (_, rest) => skip_prolog fuel rest
      end
    end
  end.

Definition name_end (b : byte) : bool := is_ascii_whitespace b || (b =? ch ">") || (b =? ch "/").

(** [rest[..end]], up to the first byte that ends a name *)
Fixpoint take_name (rest : list byte) : list byte :=
  match rest with
  | [] => []
  | b :: rest => if name_end b then [] else b :: take_name rest
  end.

(** [name.rsplit(':').next()] *)
Definition last_of (d : char) (s : str) : str := List.last (split_char d s) s.

Definition provider_error_response (raw : list byte) : result (stop DatabaseError) bool :=
  let rest := without_bom raw in
  let? rest := skip_prolog (S (length rest)) rest in
  match rest ≫= strip_prefix (u "<") with
  | None => Ok false
  | Some rest => Ok (str_eqb (last_of (ch ":") (take_name rest)) (u "Response"))
  end.

(** One candidate of [body.match_indices('<').find_map(..)]. *)
Definition message_at (tag : str) : option str :=
  match split_once (u ">") tag with
  | None => None
  | Some (inside, content) =>
    match head (split_ascii_whitespace inside) with
    | None => None
    | Some name =>
      if negb (str_eqb (last_of (ch ":") name) (u "msg")) then None
      else
        match split_once (u "</" ++ name ++ u ">") content with
        | Some (message, _) =>
          if slen message <=? 8192 then Some (to_ascii_lowercase <$> message) else None
        | None => None
        end
    end
  end.

Fixpoint find_message (body : str) : option str :=
  match body with
  | [] => None
  | c :: body =>
    if c =? ch "<" then
      match message_at body with Some m => Some m | None => find_message body end
    else find_message body
  end.

Definition unauthorized_markers : list str :=
  fields ["unauthorized"; "authentication"; "permission"; "access denied"; "ip address"; "권한";
    "인증"; "사용자 이메일"; "ip주소"; "ip 주소"; "등록된ip"; "등록된 ip"; "등록되지 않은 ip"; "ip가 등록";
    "ip를 등록"; "허용된 ip"]%string.

Definition provider_response_error (raw : list byte) : result (stop DatabaseError) (option DatabaseError) :=
  let? envelope := provider_error_response raw in
  if negb envelope then Ok None
  else
    match from_utf8 raw with
    | None => Ok (Some SourceDataInvalid)
    | Some body =>
      let unauthorized :=
        opt_test (fun message => existsb (fun marker => contains_str marker message) unauthorized_markers)
          (find_message body) in
      Ok (Some (if unauthorized then SourceUnauthorized else SourceDataInvalid))
    end.

(** * Statuses and document errors *)

Definition http_status_error (status : Z) : option DatabaseError :=
  if in_range 200 299 status then None
  else if (status =? 401) || (status =? 403) then Some SourceUnauthorized
  else if (status =? 404) || (status =? 410) then Some SourceUnavailable
  else if (status =? 408) || (status =? 500) || (status =? 502) || (status =? 504)
  then Some SourceDownloadFailed
  else if in_range 500 599 status then Some SourceTransient
  else Some SourceRejected.

Definition document_error (error : DocumentError) : DatabaseError :=
  match error with
  | DocCancelled => Legal.Cancelled
  | SandboxUnavailable | TimedOut => ProcessingPending
  | InvalidDocument | UnsupportedFormat | ResourceLimit => SourceDataInvalid
  | DocInvalidInput | ProcessingFailed => SourceRejected
  end.

(** * Document magic *)

Definition expected_document_magic (raw : list byte) (format : DocumentFormat) : bool :=
  match format with
  | Pdf => starts_with (u "%PDF-") raw
  | Hwp5 => starts_with [0xd0; 0xcf; 0x11; 0xe0; 0xa1; 0xb1; 0x1a; 0xe1] raw
  | Hwpx => starts_with [80; 75; 3; 4] raw
  | Xml | Html => false
  end.

Definition looks_like_html (raw : list byte) : bool :=
  let lower := to_ascii_lowercase <$> take 16 (trim_ascii_start (without_bom raw)) in
  starts_with (u "<!doctype html") lower || starts_with (u "<html") lower.

Definition media_type (format : DocumentFormat) : str :=
  match format with
  | Pdf => u "application/pdf"
  | Hwp5 => u "application/x-hwp"
  | Hwpx => u "application/vnd.hancom.hwpx"
  | Xml => u "application/xml"
  | Html => u "text/html"
  end.

(** * Article numbers *)

Definition is_text (node : DocumentNode) : bool := match node with Text _ => true | Element _ _ _ => false end.

(** The children of the direct elements of a name. *)
Definition field_contents (field : str) (children : list DocumentNode) : list (list DocumentNode) :=
  flat_map (fun child => match child with
    | Element name _ content => if str_eqb (local name) field then [content] else []
    | Text _ => []
    end) children.

(** [direct_number]: [Err] is a malformed field. *)
Definition direct_number (children : list DocumentNode) (field : str) : result unit (option Z) :=
  match field_contents field children with
  | [] => Ok None
  | [content] =>
    if existsb (fun node => negb (is_text node)) content then Err tt
    else
      let value := trim (flat_map node_text content) in
      if str_eqb value [] || (8 <? slen value) || negb (forallb is_ascii_digit (bytes value)) then Err tt
      else match parse_u32 value with Some n => Ok (Some n) | None => Err tt end
  | _ => Err tt
  end.

(** [format!("{number:04}{branch:02}")] *)
Definition padded (width : nat) (n : Z) : str :=
  let digits := show_Z n in replicate (width - length digits) 48 ++ digits.

Definition provision_number (name : str) (children : list DocumentNode) : option str :=
  if article_unit (local name) then
    match direct_number children (u "조문번호"), direct_number children (u "조문가지번호") with
    | Ok (Some number), Ok (Some branch) =>
      if in_range 1 9999 number && (branch <=? 99) then Some (padded 4 number ++ padded 2 branch) else None
    | _, _ => None
    end
  else None.

(** [while let Some(node) = stack.pop()]: the head of the list is the top. *)
Fixpoint provision_loop (fuel : nat) (stack : list DocumentNode) (found : list str)
  : result (stop DatabaseError) (list str) :=
  match stack with
  | [] => Ok found
  | node :: stack =>
    match fuel with
    | O => Err OutOfFuel
    | S fuel =>
      match node with
      | Text _ => provision_loop fuel stack found
      | Element name _ children =>
        if supplementary (local name) then provision_loop fuel stack found
        else
          match provision_number name children with
          | Some number =>
            let found := set_insert number found in
            if 4096 <? zlen found then Err (Error SourceDataInvalid)
            else provision_loop fuel (children ++ stack) found
          | None => provision_loop fuel (children ++ stack) found
          end
      end
    end
  end.

Definition provision_numbers_checked (tree : DocumentNode) : result (stop DatabaseError) (list str) :=
  provision_loop (nodes tree) [tree] [].

(** [provision_numbers_checked(tree).unwrap_or_default()] *)
Definition provision_numbers (tree : DocumentNode) : result (stop DatabaseError) (list str) :=
  match provision_numbers_checked tree with
  | Err (Error _) => Ok []
  | r => r
  end.

(** * What the reading of a response promises

    What the reading of raw responses promises: the error envelope is found
    behind any prolog whose items end where their terminator first occurs, and
    the article numbers of a statute are exactly those its article units state. *)

#[local] Opaque u.

(** * The error envelope *)

(** An item of the prolog, white space before it. *)
Inductive PrologItem :=
| Instruction (space body : list byte)
| Comment (space body : list byte).

Definition print_item (item : PrologItem) : list byte :=
  match item with
  | Instruction space body => space ++ u "<?" ++ body ++ u "?>"
  | Comment space body => space ++ u "<!--" ++ body ++ u "-->"
  end.

Definition blank (space : list byte) : Prop := Forall (fun b => is_ascii_whitespace b = true) space.

(** The terminator first occurs where the item ends. *)
Definition ends_at (open close body : list byte) : Prop :=
  forall rest, split_once close (open ++ body ++ close ++ rest) = Some (open ++ body, rest).

Definition item_ok (item : PrologItem) : Prop :=
  match item with
  | Instruction space body => blank space /\ ends_at (u "<?") (u "?>") body
  | Comment space body => blank space /\ ends_at (u "<!--") (u "-->") body
  end.

Lemma trim_blank space rest : blank space -> trim_ascii_start (space ++ rest) = trim_ascii_start rest.
Proof.
  unfold trim_ascii_start. induction 1 as [|b space Hb _ IH]; [done|]. cbn [app drop_while]. by rewrite Hb.
Qed.

Lemma drop_while_keep p (b : byte) rest : p b = false -> drop_while p (b :: rest) = b :: rest.
Proof. intros H. cbn [drop_while]. by rewrite H. Qed.

Lemma starts_with_app p rest : starts_with p (p ++ rest) = true.
Proof. apply starts_with_iff. by exists rest. Qed.

Lemma print_item_length item : (2 <= length (print_item item))%nat.
Proof. destruct item; cbn [print_item]; rewrite !length_app; change (length (u "<?")) with 2%nat; change (length (u "<!--")) with 4%nat; lia. Qed.

(** One item is skipped. *)
Lemma skip_item fuel item rest :
  item_ok item -> skip_prolog (S fuel) (print_item item ++ rest) = skip_prolog fuel rest.
Proof.
  intros Hi. cbn [skip_prolog]. destruct item as [space body|space body]; destruct Hi as [Hs He]; cbn [print_item].
  - rewrite <- !app_assoc, (trim_blank _ _ Hs).
    assert (T : forall l, trim_ascii_start (u "<?" ++ l) = u "<?" ++ l) by reflexivity.
    rewrite T, starts_with_app. by rewrite He.
  - rewrite <- !app_assoc, (trim_blank _ _ Hs).
    assert (T : forall l, trim_ascii_start (u "<!--" ++ l) = u "<!--" ++ l) by reflexivity.
    assert (Q : forall l, starts_with (u "<?") (u "<!--" ++ l) = false) by reflexivity.
    rewrite T, Q, starts_with_app. by rewrite He.
Qed.

Definition print_prolog (items : list PrologItem) : list byte := flat_map print_item items.

(** The rest begins with an element's start tag. *)
Definition start_tag (rest : list byte) : Prop :=
  starts_with (u "<") rest = true /\ starts_with (u "<?") rest = false /\ starts_with (u "<!--") rest = false.

Lemma skip_prolog_print fuel items space rest :
  Forall item_ok items -> blank space -> start_tag rest -> (length items < fuel)%nat ->
  skip_prolog fuel (print_prolog items ++ space ++ rest) = Ok (Some rest).
Proof.
  intros Hi Hs (H1 & H2 & H3). revert fuel. induction Hi as [|item items Hitem _ IH]; intros [|fuel] Hf;
    cbn [length] in Hf; try lia.
  - cbn [print_prolog flat_map app skip_prolog]. rewrite (trim_blank _ _ Hs).
    assert (trim_ascii_start rest = rest) as ->.
    { apply starts_with_iff in H1 as [t ->]. reflexivity. }
    by rewrite H2, H3.
  - cbn [print_prolog flat_map]. rewrite <- app_assoc, skip_item by done. apply IH. lia.
Qed.

Lemma skip_prolog_total fuel rest :
  (length rest < fuel)%nat -> exists o, skip_prolog fuel rest = Ok o.
Proof.
  revert rest. induction fuel as [|fuel IH]; intros rest Hf; [lia|]. cbn [skip_prolog].
  assert (Hd : (length (trim_ascii_start rest) <= length rest)%nat).
  { unfold trim_ascii_start. clear. induction rest as [|b rest IH]; cbn [drop_while length]; [lia|].
    destruct (is_ascii_whitespace b); cbn [length]; lia. }
  assert (Hs : forall t a b, (0 < length t)%nat -> split_once t (trim_ascii_start rest) = Some (a, b) ->
                 (length b < length rest)%nat).
  { intros t a b Ht E. apply split_once_Some in E. rewrite E, !length_app in Hd. lia. }
  destruct (starts_with (u "<?") _).
  { destruct (split_once _ _) as [[a b]|] eqn:E; [|by eexists]. apply IH.
    pose proof (Hs (u "?>") a b ltac:(apply Nat.ltb_lt; reflexivity) E). lia. }
  destruct (starts_with (u "<!--") _); [|by eexists].
  destruct (split_once _ _) as [[a b]|] eqn:E; [|by eexists]. apply IH.
  pose proof (Hs (u "-->") a b ltac:(apply Nat.ltb_lt; reflexivity) E). lia.
Qed.

Lemma provider_error_total raw : exists b, provider_error_response raw = Ok b.
Proof.
  unfold provider_error_response.
  destruct (skip_prolog_total (S (length (without_bom raw))) (without_bom raw)) as [rest ->]; [lia|].
  destruct (rest ≫= _); by eexists.
Qed.

(** The errors of an envelope. *)
Lemma provider_response_total raw :
  provider_response_error raw = Ok None \/ provider_response_error raw = Ok (Some SourceDataInvalid)
  \/ provider_response_error raw = Ok (Some SourceUnauthorized).
Proof.
  unfold provider_response_error. destruct (provider_error_total raw) as [b ->].
  destruct b; cbn [negb]; [|by left]. destruct (from_utf8 raw); [|by right; left].
  destruct (opt_test _ _); [by right; right|by right; left].
Qed.

Lemma take_name_app name rest :
  Forall (fun b => name_end b = false) name -> take_name (name ++ rest) = name ++ take_name rest.
Proof. induction 1 as [|b name Hb _ IH]; [done|]. cbn [app take_name]. by rewrite Hb, IH. Qed.

(** What precedes the root element begins with a blank or an angle bracket. *)
Lemma prolog_head items space rest :
  Forall item_ok items -> blank space ->
  strip_prefix [0xef; 0xbb; 0xbf] (print_prolog items ++ space ++ u "<" ++ rest) = None.
Proof.
  intros Hi Hs.
  assert (Hb : forall sp tail, blank sp -> strip_prefix [0xef; 0xbb; 0xbf] (sp ++ u "<" ++ tail) = None).
  { intros [|b sp] tail Hsp; [reflexivity|]. apply Forall_cons in Hsp as [Hsp _].
    cbn [app strip_prefix]. destruct (Z.eqb_spec 0xef b) as [<-|]; [discriminate Hsp|done]. }
  destruct Hi as [|[sp body|sp body] items [Hsp _] _]; cbn [print_prolog flat_map app print_item].
  - by apply Hb.
  - rewrite <- !app_assoc. change (u "<?") with (u "<" ++ u "?"). rewrite <- app_assoc. by apply Hb.
  - rewrite <- !app_assoc. change (u "<!--") with (u "<" ++ u "!--"). rewrite <- app_assoc. by apply Hb.
Qed.

(** A name that can open an element. *)
Definition root_name (name : list byte) : Prop :=
  Forall (fun b => name_end b = false) name
  /\ match name with [] => False | b :: _ => b <> ch "?" /\ b <> ch "!" end.

Lemma root_start_tag name rest : root_name name -> start_tag (u "<" ++ name ++ rest).
Proof.
  intros [_ Hn]. destruct name as [|b name]; [done|]. destruct Hn as [Hq Hb]. unfold start_tag.
  assert (S : forall p q, starts_with (60 :: p :: q) (60 :: b :: name ++ rest) = true -> p = b).
  { intros p q Hp. apply starts_with_iff in Hp as [t Ht]. by injection Ht. }
  change (u "<") with [60]. change (u "<?") with [60; 63]. change (u "<!--") with [60; 33; 45; 45].
  change (ch "?") with 63 in Hq. change (ch "!") with 33 in Hb. cbn [app]. split_and!.
  - apply starts_with_iff. by eexists.
  - destruct (starts_with _ _) eqn:E; [|done]. apply S in E. congruence.
  - destruct (starts_with _ _) eqn:E; [|done]. apply S in E. congruence.
Qed.

(** The guard of the archive reads the name of the root element, whatever
    byte-order mark, declarations, processing instructions and comments come
    before it, as long as the terminator of each first occurs at its end: it
    answers that the response is the API's error envelope exactly when that
    name, without a namespace prefix, is [Response]. *)
Theorem error_envelope_found bom items space name rest :
  bom = [] \/ bom = [0xef; 0xbb; 0xbf] ->
  Forall item_ok items -> blank space -> root_name name -> take_name rest = [] ->
  provider_error_response (bom ++ print_prolog items ++ space ++ u "<" ++ name ++ rest)
  = Ok (str_eqb (last_of (ch ":") name) (u "Response")).
Proof.
  intros Hb Hi Hs Hn Hr. unfold provider_error_response.
  assert (without_bom (bom ++ print_prolog items ++ space ++ u "<" ++ name ++ rest)
          = print_prolog items ++ space ++ u "<" ++ name ++ rest) as ->.
  { unfold without_bom. destruct Hb as [->| ->]; [|reflexivity].
    change ([] ++ ?l) with l. by rewrite prolog_head. }
  rewrite skip_prolog_print; [|done|done|by apply root_start_tag|].
  - change (u "<" ++ name ++ rest) with (60 :: name ++ rest). change (u "<") with [60].
    cbn [mbind option_bind strip_prefix]. cbn [Z.eqb Pos.eqb].
    rewrite take_name_app by apply Hn. by rewrite Hr, app_nil_r.
  - rewrite length_app. unfold print_prolog.
    enough (length items <= length (flat_map print_item items))%nat by lia.
    clear. induction items as [|item items IH]; cbn [flat_map length]; [lia|].
    rewrite length_app. pose proof (print_item_length item). lia.
Qed.

(** A comment whose text begins with the angle bracket is well-formed XML, but
    its opening already contains the terminator: the error envelope behind it
    is not recognised. *)
Definition concealed_envelope : list byte := u "<!-->--><Response><msg>unauthorized</msg></Response>".

Lemma comment_conceals : provider_error_response concealed_envelope = Ok false.
Proof. vm_compute. reflexivity. Qed.

Lemma error_envelope_found_witness :
  provider_error_response (u "<?xml version='1.0'?> <!-- note --><ns:Response>") = Ok true.
Proof.
  apply (error_envelope_found [] [Instruction [] (u "xml version='1.0'"); Comment [32] (u " note ")] []
    (u "ns:Response") (u ">")).
  - by left.
  - apply Forall_cons; split; [|apply Forall_cons; split; [|constructor]].
    + split; [constructor|intros rest; reflexivity].
    + split; [by repeat constructor|intros rest; reflexivity].
  - constructor.
  - split; [vm_compute; repeat constructor|split; discriminate].
  - reflexivity.
Defined.

(** * Article numbers *)

(** The numbers the article units of a tree state, outside annexes and
    attachments, in document order. *)
Fixpoint stated_numbers (node : DocumentNode) : list str :=
  match node with
  | Element name _ children =>
    if supplementary (local name) then []
    else option_list (provision_number name children) ++ flat_map stated_numbers children
  | Text _ => []
  end.

Definition before (a b : str) : Prop := str_cmp a b = Lt.

Lemma lex_lt_trans a b c : lex a b = Lt -> lex b c = Lt -> lex a c = Lt.
Proof.
  revert b c. induction a as [|x a IH]; intros [|y b] [|z c]; cbn; try done.
  destruct (Z.compare_spec x y), (Z.compare_spec y z), (Z.compare_spec x z); subst; try done; try lia. apply IH.
Qed.

(** An ASCII string is its own bytes. *)
Definition plain (s : str) : Prop := bytes s = s.

Lemma set_insert_spec x l :
  plain x -> Forall plain l -> StronglySorted before l ->
  StronglySorted before (set_insert x l) /\ Forall plain (set_insert x l)
  /\ forall d, d ∈ set_insert x l <-> d = x \/ d ∈ l.
Proof.
  intros Hx Hp Hs. induction Hs as [|y l Hs IH Hy]; cbn [set_insert].
  { split_and!; [by repeat constructor|by repeat constructor|set_solver]. }
  apply Forall_cons in Hp as [Hpy Hp]. specialize (IH Hp). destruct (str_cmp x y) eqn:E.
  - unfold str_cmp in E. rewrite Hx, Hpy in E. apply lex_eq in E as ->.
    split_and!; [by constructor|by constructor|set_solver].
  - split_and!; [|by repeat constructor|set_solver]. constructor; [by constructor|]. constructor; [done|].
    eapply Forall_impl; [exact Hy|]. intros z Hz. by apply (lex_lt_trans _ (bytes y)).
  - destruct IH as (IH1 & IH2 & IH3). split_and!; [|by constructor|].
    + constructor; [done|]. apply Forall_forall. intros d [->|Hd]%IH3.
      * unfold before, str_cmp in *. rewrite (cmp_opp (cmp:=lex)), E. done.
      * rewrite Forall_forall in Hy. by apply Hy.
    + intros d. rewrite !elem_of_cons, IH3. tauto.
Qed.

Lemma padded_digits width n : 0 <= n <= usize_max -> Forall (fun c => 48 <= c <= 57) (padded width n).
Proof.
  intros Hn. unfold padded. apply Forall_app. split.
  - apply Forall_replicate. lia.
  - apply Forall_forall. intros c Hc. by apply (show_Z_digit n).
Qed.

Lemma decimal_length k : forall n f acc,
  0 <= n < 10 ^ Z.of_nat (S k) -> (length (decimal_digits (S k + f) n acc) <= S k + length acc)%nat.
Proof.
  induction k as [|k IH]; intros n f acc Hn.
  - cbn [Nat.add]. rewrite decimal_last by (change (10 ^ Z.of_nat 1) with 10 in Hn; lia). cbn [length]. lia.
  - cbn [Nat.add]. destruct (Z_lt_le_dec n 10); [rewrite decimal_last by done; cbn [length]; lia|].
    rewrite decimal_next by done.
    assert (Hd : 0 <= n / 10 < 10 ^ Z.of_nat (S k)).
    { split; [dlia|]. apply Z.div_lt_upper_bound; [lia|].
      rewrite <- Z.pow_succ_r by lia. replace (Z.succ (Z.of_nat (S k))) with (Z.of_nat (S (S k))) by lia. apply Hn. }
    specialize (IH _ f ((48 + n mod 10) :: acc) Hd). cbn [length Nat.add] in IH. lia.
Qed.

Lemma show_Z_length n k : 0 <= n < 10 ^ Z.of_nat (S k) -> (k < 20)%nat -> (length (show_Z n) <= S k)%nat.
Proof.
  unfold show_Z. intros Hn Hk. pose proof (decimal_length k n (19 - k) [] Hn) as Hd.
  replace (S k + (19 - k))%nat with 20%nat in Hd by lia. cbn [length] in Hd. lia.
Qed.

Lemma padded_length width n : 0 <= n < 10 ^ Z.of_nat (S width) -> (width < 20)%nat -> length (padded (S width) n) = S width.
Proof.
  intros Hn Hw. pose proof (show_Z_length n width Hn Hw). unfold padded. rewrite length_app, length_replicate. lia.
Qed.

(** A stated number is six digits. *)
Lemma provision_number_shape name children x :
  provision_number name children = Some x -> length x = 6%nat /\ Forall (fun c => 48 <= c <= 57) x.
Proof.
  unfold provision_number. destruct (article_unit _); [|done].
  destruct (direct_number children (u "조문번호")) as [[number|]|] eqn:En; try done.
  destruct (direct_number children (u "조문가지번호")) as [[branch|]|] eqn:Eb; try done.
  assert (Hpos : forall field n, direct_number children field = Ok (Some n) -> 0 <= n).
  { intros field n. unfold direct_number. destruct (field_contents field children) as [|c [|? ?]]; try done.
    destruct (existsb _ c); [done|]. destruct (_ || _); [done|].
    destruct (parse_u32 _) as [m|] eqn:Ep; [|done]. intros [= <-]. by apply parse_unsigned_bounds in Ep as [? _]. }
  apply Hpos in Eb. destruct (in_range 1 9999 number) eqn:Er; [|done]. apply in_range_iff in Er.
  destruct (Z.leb_spec branch 99); [|done]. intros [= <-]. split.
  - rewrite length_app, !padded_length; [done|..]; try lia; cbn; lia.
  - apply Forall_app. split; apply padded_digits; unfold usize_max; lia.
Qed.

Lemma stated_shape node : Forall (fun x => length x = 6%nat /\ Forall (fun c => 48 <= c <= 57) x) (stated_numbers node).
Proof.
  induction node as [name attributes children IH|value] using DocumentNode_nested_ind; [|constructor].
  cbn [stated_numbers]. destruct (supplementary _); [constructor|]. apply Forall_app. split.
  - destruct (provision_number name children) eqn:E; [|constructor].
    apply provision_number_shape in E. by apply Forall_singleton.
  - induction IH as [|c l Hc _ IH]; [constructor|]. cbn [flat_map]. by apply Forall_app.
Qed.

Lemma stated_plain node : Forall plain (stated_numbers node).
Proof.
  eapply Forall_impl; [apply stated_shape|]. intros x [_ Hx]. apply bytes_ascii.
  eapply Forall_impl; [exact Hx|]. cbn. lia.
Qed.

(** The numbers collected from a list of stated ones. *)
Definition collect (found stated : list str) : list str := fold_left (fun f x => set_insert x f) stated found.

Lemma collect_spec stated : forall found,
  Forall plain stated -> Forall plain found -> StronglySorted before found ->
  StronglySorted before (collect found stated) /\ Forall plain (collect found stated)
  /\ forall d, d ∈ collect found stated <-> d ∈ found \/ d ∈ stated.
Proof.
  unfold collect. induction stated as [|x stated IH]; intros found Hs Hf Ho; cbn [fold_left].
  { split_and!; [done|done|set_solver]. }
  apply Forall_cons in Hs as [Hx Hs]. destruct (set_insert_spec x found Hx Hf Ho) as (H1 & H2 & H3).
  destruct (IH _ Hs H2 H1) as (I1 & I2 & I3). split_and!; [done|done|].
  intros d. rewrite I3, H3, elem_of_cons. tauto.
Qed.

Lemma set_insert_grows x l : zlen l <= zlen (set_insert x l).
Proof.
  induction l as [|y l IH]; cbn [set_insert]; [done|]. destruct (str_cmp x y); zlen_simpl; try lia.
Qed.

Lemma collect_grows stated : forall found, zlen found <= zlen (collect found stated).
Proof.
  unfold collect. induction stated as [|x stated IH]; intros found; cbn [fold_left]; [done|].
  pose proof (set_insert_grows x found). specialize (IH (set_insert x found)). lia.
Qed.

Lemma collect_app found a b : collect found (a ++ b) = collect (collect found a) b.
Proof. unfold collect. by rewrite fold_left_app. Qed.

(** The loop collects what its stack states, or refuses once too many are found. *)
Lemma provision_loop_spec fuel : forall stack found,
  (list_sum (nodes <$> stack) <= fuel)%nat -> zlen found <= 4096 ->
  provision_loop fuel stack found
  = let all := collect found (flat_map stated_numbers stack) in
    if 4096 <? zlen all then Err (Error SourceDataInvalid) else Ok all.
Proof.
  induction fuel as [|fuel IH]; intros [|node stack] found Hf Hl; cbn [provision_loop flat_map].
  1, 3: cbn; by rewrite (proj2 (Z.ltb_ge _ _)).
  { exfalso. cbn in Hf. destruct node; cbn in Hf; lia. }
  cbn [fmap list_fmap list_sum foldr] in Hf. destruct node as [name attributes children|value].
  2: { cbn [stated_numbers app]. apply IH; [|done]. cbn [nodes] in Hf. unfold list_sum, fmap in *. lia. }
  rewrite nodes_element in Hf. cbn [stated_numbers]. destruct (supplementary (local name)).
  { cbn [app]. apply IH; [|done]. unfold list_sum, fmap in *. lia. }
  assert (Hf' : (list_sum (nodes <$> (children ++ stack)) <= fuel)%nat).
  { rewrite fmap_app, list_sum_app. unfold forest_nodes in Hf. unfold list_sum, fmap in *. lia. }
  cbn zeta. rewrite <- !app_assoc, <- !flat_map_app, !collect_app.
  destruct (provision_number name children) as [x|].
  - change (collect found (option_list (Some x))) with (set_insert x found).
    destruct (Z.ltb_spec 4096 (zlen (set_insert x found))); [|by apply IH].
    pose proof (collect_grows (flat_map stated_numbers (children ++ stack)) (set_insert x found)).
    by rewrite (proj2 (Z.ltb_lt _ _)) by lia.
  - change (collect found (option_list None)) with found. by apply IH.
Qed.

(** The article numbers of a statute are read in a loop that always ends.  They
    are exactly the numbers its article units state outright, outside annexes
    and attachments, each once, six digits long and in order; a response with
    more than 4096 of them is refused. *)
Theorem provision_numbers_spec tree :
  exists all,
    provision_numbers_checked tree
      = (if 4096 <? zlen all then Err (Error SourceDataInvalid) else Ok all)
    /\ StronglySorted before all
    /\ (forall x, x ∈ all <-> x ∈ stated_numbers tree)
    /\ Forall (fun x => length x = 6%nat /\ Forall (fun c => 48 <= c <= 57) x) all.
Proof.
  exists (collect [] (stated_numbers tree)).
  destruct (collect_spec (stated_numbers tree) [] (stated_plain tree)) as (Hs & _ & Hin); [constructor|constructor|].
  split_and!.
  - unfold provision_numbers_checked. rewrite provision_loop_spec by (cbn; lia || done). cbn [flat_map].
    by rewrite app_nil_r.
  - done.
  - intros x. rewrite Hin. set_solver.
  - apply Forall_forall. intros x Hx. apply Hin in Hx as [Hx|Hx]; [by apply not_elem_of_nil in Hx|].
    pose proof (stated_shape tree) as Hsh. rewrite Forall_forall in Hsh. by apply Hsh.
Qed.
