(* ===== verification/Redaction.v ===== *)
(** The guard that keeps the client's credential out of what it retains,
    [crates/adapters/src/law_go_kr.rs]: the provider reflects the credential in
    the links of its XML responses.  Link values are found by a lexical scan and
    the credential in them is replaced by a marker; a response in which the
    credential is left anywhere is refused. *)

From S2P Require Import Prelude Utf8 Strings Slices Legal InForce Citation Document Catalogue ProviderTree Projection.

Definition CREDENTIAL_REDACTION_MARKER : str := u "[openlegal-credential-redacted]".

(** [s.replace(p, r)] for a non-empty [p]; [skip] characters are still inside an
    occurrence. *)
Fixpoint replace_from (skip : nat) (p r s : str) : str :=
  match s with
  | [] => []
  | c :: rest =>
    match skip with
    | S skip => replace_from skip p r rest
    | O =>
      if starts_with p s then r ++ replace_from (length p - 1) p r rest
      else c :: replace_from 0 p r rest
    end
  end.
Definition replace (p r s : str) : str := replace_from 0 p r s.

(** The entities and their characters. *)
Definition common_entities : list (str * str) :=
  [(u "&amp;", u "&"); (u "&lt;", u "<"); (u "&gt;", u ">"); (u "&quot;", [34]); (u "&apos;", u "'")].

(** * The forms in which a credential can be reflected *)

Definition escape_entities (value : str) : str :=
  fold_left (fun value e => replace e.2 e.1 value) common_entities value.

(** [b.len().cmp(&a.len()).then_with(|| a.cmp(b))] *)
Definition longer_first (a b : str) : comparison :=
  match slen b ?= slen a with Eq => str_cmp a b | c => c end.

Fixpoint dedup_strs (l : list str) : list str :=
  match l with
  | a :: (b :: _) as rest => if str_eqb a b then dedup_strs rest else a :: dedup_strs rest
  | _ => l
  end.

(** [raw.windows(part.len()).any(|w| w == part)]; windows of length zero panic. *)
Definition windows_contain (part raw : list byte) : result (stop DatabaseError) bool :=
  match part with [] => Err Panic | _ => Ok (contains_str part raw) end.

Fixpoint any_window (values : list str) (raw : list byte) : result (stop DatabaseError) bool :=
  match values with
  | [] => Ok false
  | value :: values =>
    let? here := windows_contain (bytes value) raw in
    if here then Ok true else any_window values raw
  end.

Definition has_credential_redaction (raw : list byte) : bool :=
  contains_str (bytes CREDENTIAL_REDACTION_MARKER) raw.

Section form.
Context `{FormUrlencoded}.

Definition credential_representations (credential : str) : list str :=
  match credential with
  | [] => []
  | _ =>
    dedup_strs (sort_by (fun a b => cmp_leb (longer_first a b))
      [credential; byte_serialize (bytes credential); escape_entities credential])
  end.

Definition reflected_credential (raw : list byte) (credential : str) : result (stop DatabaseError) bool :=
  any_window (credential_representations credential) raw.
End form.

(** * Which elements hold links *)

Definition ends_in_link (field : str) : bool := ends_with (u "링크") field || ends_with (u "URL") field.

Definition allowed_fields : list str :=
  List.filter ends_in_link
    (flat_map (fun family => sf_list_fields family ++ sf_detail_fields family) SOURCE_FAMILIES
     ++ flat_map ge_response_fields GUIDE_ENTRIES).

Definition body_fields : list str := flat_map sf_body_fields SOURCE_FAMILIES.

Definition body_elements : list str :=
  fields ["조문"; "조문단위"; "항"; "호"; "목"; "별표"; "별표단위"; "첨부파일"; "attachment"; "본문";
    "법령본문"; "body"; "annotation"; "translation"; "commentary"]%string.

Definition blocked_ancestor (name : str) : bool :=
  content_field (local name) || has_name body_fields (local name)
  || has_name body_elements (local name)
  || contains_str (u "주석") (local name) || contains_str (u "해설") (local name)
  || contains_str (u "번역") (local name).

(** * The credential in the query of a link *)

(** A parsed link: its parts, [port_or_known_default] and its text. *)
Record Link := { lk_url : Url; lk_port : option Z; lk_text : str }.

Class LinkUrls := {
  (** [Url::parse("https://www.law.go.kr")] and [join] *)
  join_link : str -> option Link;
}.

(** Ampersand comes last, so that no entity is decoded twice. *)
Definition decode_xml (cdata : bool) (value : str) : str :=
  if cdata then value
  else fold_left (fun value e => replace e.1 e.2 value) (tail common_entities ++ take 1 common_entities) value.

Definition trusted_link (url : Url) : bool :=
  (str_eqb (url_scheme url) (u "http") || str_eqb (url_scheme url) (u "https"))
  && (bool_decide (url_host url = Some (u "www.law.go.kr")) || bool_decide (url_host url = Some (u "law.go.kr")))
  && str_eqb (url_username url) [] && negb (is_some (url_password url)).

(** What begins at an ampersand is an entity, of at most 16 bytes up to its
    semicolon, and none of the common ones. *)
Definition unknown_entity (rest : str) : bool :=
  match split_once (u ";") rest with
  | Some (before, _) =>
    (slen before <? 17) && negb (contains_char (ch "=") before)
    && negb (contains_char (ch "&") (tail before))
    && negb (existsb (fun e => starts_with e.1 rest) common_entities)
  | None => false
  end.

Fixpoint custom_entity (value : str) : bool :=
  match value with
  | [] => false
  | c :: rest => ((c =? ch "&") && unknown_entity value) || custom_entity rest
  end.

(** The text in front of the next separator, and the text from it on. *)
Fixpoint next_separator (cdata : bool) (s : str) : option (str * str) :=
  match s with
  | [] => None
  | c :: rest =>
    if (c =? ch "&") && (cdata || negb (existsb (fun e => starts_with e.1 s) (tail common_entities)))
    then Some ([], s)
    else (fun ab => (c :: ab.1, ab.2)) <$> next_separator cdata rest
  end.

Definition separator_len (cdata : bool) (s : str) : nat :=
  if negb cdata && starts_with (u "&amp;") s then 5 else 1.

Section links.
Context `{FormUrlencoded} `{LinkUrls} `{Unicode}.

(** One pair of the query, from byte [cursor] on. *)
Definition pair_range (credential : str) (cdata : bool) (segment : str) (cursor : Z) : list (Z * Z) :=
  match split_once (u "=") segment with
  | None => []
  | Some (before, _) =>
    match form_parse (bytes (decode_xml cdata segment)) with
    | [(key, active)] =>
      if eq_ignore_ascii_case key (u "OC") && str_eqb active credential
      then [(cursor + slen before + 1, cursor + slen segment)]
      else []
    | _ => []
    end
  end.

(** The loop over the pairs: [rest] is the value from byte [cursor] on. *)
Fixpoint query_ranges (fuel : nat) (credential : str) (cdata : bool) (rest : str) (cursor : Z)
  : result (stop DatabaseError) (list (Z * Z)) :=
  match rest with
  | [] => Ok []
  | _ =>
    match fuel with
    | O => Err OutOfFuel
    | S fuel =>
      match next_separator cdata rest with
      | None => Ok (pair_range credential cdata rest cursor)
      | Some (segment, from) =>
        let skip := separator_len cdata from in
        let? more := query_ranges fuel credential cdata (drop skip from)
                       (cursor + slen segment + Z.of_nat skip) in
        Ok (pair_range credential cdata segment cursor ++ more)
      end
    end
  end.

(** [value] begins at byte [offset] of the response. *)
Definition credential_url_ranges (value : str) (offset : Z) (credential : str) (cdata : bool)
  : result (stop DatabaseError) (list (Z * Z)) :=
  if (16384 <? slen value) || existsb is_whitespace value then
    let? _ := reflected_credential (bytes value) credential in Ok []
  else
    match split_once (u "?") value with
    | None => Ok []
    | Some (before, query) =>
      match join_link (decode_xml cdata value) with
      | None => Ok []
      | Some link =>
        if negb (trusted_link (lk_url link)) then Ok []
        else if negb cdata && contains_str (u "&#") value then Err (Error SourceDataInvalid)
        else if negb cdata && custom_entity value then Err (Error SourceDataInvalid)
        else if is_some (url_fragment (lk_url link)) then Err (Error SourceDataInvalid)
        else query_ranges (length query) credential cdata query (offset + slen before + 1)
      end
    end.

(** * The lexical scan *)

(** Up to the next [>] outside a quoted attribute, and the text behind it. *)
Fixpoint tag_end (quote : option char) (s : str) : option (str * str) :=
  match s with
  | [] => None
  | c :: s =>
    let continue_ quote := (fun ab => (c :: ab.1, ab.2)) <$> tag_end quote s in
    match quote with
    | Some active => continue_ (if c =? active then None else quote)
    | None =>
      if (c =? ch "'") || (c =? 34) then continue_ (Some c)
      else if c =? ch ">" then Some ([], s)
      else continue_ None
    end
  end.

Definition tag_name_end (c : char) : bool := is_ascii_whitespace c || (c =? ch "/").

(** [content.trim_start_matches('/').split(..).next()] *)
Fixpoint up_to (p : char -> bool) (s : str) : str :=
  match s with [] => [] | c :: s => if p c then [] else c :: up_to p s end.
Definition tag_name (content : str) : str := up_to tag_name_end (trim_start_by (Z.eqb (ch "/")) content).

Definition bad_tag_name (name : str) : bool :=
  str_eqb name [] || existsb (fun c => negb (is_alphanumeric c || contains_char c (u "_:-."))) name.

Definition xml_space (c : char) : bool := (c =? 32) || (c =? 9) || (c =? 13) || (c =? 10).

Definition CDATA : str := u "<![CDATA[".

(** The text of an element that is closed: its links.  [stack] holds the
    elements around it. *)
Definition closed_ranges (xml credential : str) (stack : list (str * Z)) (name : str)
  (text_start start : Z) : result (stop DatabaseError) (list (Z * Z)) :=
  let? original := slice xml text_start start in
  let text := trim original in
  let trim_offset := slen original - slen (trim_start original) in
  let cdata := starts_with CDATA text && ends_with (u "]]>") text in
  let? value := if cdata then slice text 9 (slen text - 3) else Ok text in
  let offset := text_start + trim_offset + (if cdata then 9 else 0) in
  if contains_char (ch "<") value then Ok []
  else
    let? candidate := credential_url_ranges value offset credential cdata in
    if bool_decide (candidate = []) then Ok []
    else if contains_char (ch ":") name then Err (Error SourceDataInvalid)
    else if negb (has_name allowed_fields name) then Err (Error SourceDataInvalid)
    else if existsb (fun ancestor => blocked_ancestor ancestor.1) stack then Err (Error SourceDataInvalid)
    else Ok candidate.

(** Comments, processing instructions and character data: their opening and
    their terminator. *)
Definition skipped_markup (rest : str) : option (str * str) :=
  if starts_with (u "<!--") rest then Some (u "<!--", u "-->")
  else if starts_with (u "<?") rest then Some (u "<?", u "?>")
  else if starts_with CDATA rest then Some (CDATA, u "]]>")
  else None.

(** [while let Some(relative) = xml[cursor..].find('<')]: [rest] is the text from
    byte [cursor] on; the stack holds the open elements with the offset of their
    text, the innermost first. *)
Fixpoint link_scan (fuel : nat) (xml credential rest : str) (cursor : Z) (stack : list (str * Z))
  (tags : Z) (patches : list (Z * Z)) : result (stop DatabaseError) (list (Z * Z)) :=
  match fuel with
  | O => Err OutOfFuel
  | S fuel =>
    match split_once (u "<") rest with
    | None => if bool_decide (stack = []) then Ok patches else Err (Error SourceDataInvalid)
    | Some (before, after) =>
      let start := cursor + slen before in
      let rest := u "<" ++ after in
      match skipped_markup rest with
      | Some (prefix, terminator) =>
        match split_once terminator (drop (length prefix) rest) with
        | None => Err (Error SourceDataInvalid)
        | Some (inside, rest) =>
          link_scan fuel xml credential rest (start + slen prefix + slen inside + slen terminator)
            stack tags patches
        end
      | None =>
        if starts_with (u "<!") rest then Err (Error SourceDataInvalid)
        else
          let? tag := ok_or (tag_end None after) (Error SourceDataInvalid) in
          let '(content, rest) := tag in
          let end_ := start + 1 + slen content in
          let name := tag_name content in
          if bad_tag_name name then Err (Error SourceDataInvalid)
          else
            let tags := tags + 1 in
            if 100000 <? tags then Err (Error SourceDataInvalid)
            else if starts_with (u "/") content then
              match stack with
              | [] => Err (Error SourceDataInvalid)
              | (opened, text_start) :: stack =>
                if negb (str_eqb opened name)
                   || negb (opt_test (fun tag => str_eqb (trim_end_by xml_space tag) name)
                              (strip_prefix (u "/") content))
                then Err (Error SourceDataInvalid)
                else
                  let? candidate := closed_ranges xml credential stack name text_start start in
                  link_scan fuel xml credential rest (end_ + 1) stack tags (patches ++ candidate)
              end
            else if negb (ends_with (u "/") (trim_end content)) then
              let stack := (name, end_ + 1) :: stack in
              if 64 <? zlen stack then Err (Error SourceDataInvalid)
              else link_scan fuel xml credential rest (end_ + 1) stack tags patches
            else link_scan fuel xml credential rest (end_ + 1) stack tags patches
      end
    end
  end.

Definition range_cmp (a b : Z * Z) : comparison :=
  match a.1 ?= b.1 with Eq => a.2 ?= b.2 | c => c end.

(** [patches.windows(2).any(|r| r[0].1 > r[1].0)] *)
Fixpoint overlapping (ranges : list (Z * Z)) : bool :=
  match ranges with
  | a :: (b :: _) as rest => (b.1 <? a.2) || overlapping rest
  | _ => false
  end.

Definition credential_link_ranges (xml credential : str) : result (stop DatabaseError) (list (Z * Z)) :=
  let? patches := link_scan (S (length xml)) xml credential xml 0 [] 0 [] in
  let patches := sort_by (fun a b => cmp_leb (range_cmp a b)) patches in
  if (10000 <? zlen patches) || overlapping patches then Err (Error SourceDataInvalid)
  else Ok patches.
End links.

(** * What is left after the markup is read *)

(** [u32::from_str_radix(hex, 16)]: an optional sign and at least one digit *)
Definition radix16_digit (c : char) : option Z :=
  if is_ascii_digit c then Some (c - 48)
  else if in_range 97 102 c then Some (c - 87)
  else if in_range 65 70 c then Some (c - 55)
  else None.

Fixpoint parse_hex_digits (acc : Z) (s : str) : option Z :=
  match s with
  | [] => Some acc
  | c :: s => radix16_digit c ≫= fun d => parse_hex_digits (acc * 16 + d) s
  end.

Definition parse_hex_u32 (s : str) : option Z :=
  match (if starts_with (u "+") s then tail s else s) with
  | [] => None
  | digits =>
    parse_hex_digits 0 digits ≫= fun n => if n <=? 2 ^ 32 - 1 then Some n else None
  end.

Definition char_from_u32 (n : Z) : option char :=
  if in_range 0 0xD7FF n || in_range 0xE000 0x10FFFF n then Some n else None.

Definition or_else {A} (a b : option A) : option A := match a with Some _ => a | None => b end.

Definition entity_char (name : str) : option char :=
  match List.find (fun e => str_eqb e.1 (u "&" ++ name ++ u ";")) common_entities with
  | Some e => head e.2
  | None =>
    or_else (or_else (strip_prefix (u "#x") name) (strip_prefix (u "#X") name) ≫= parse_hex_u32)
            (strip_prefix (u "#") name ≫= parse_u32) ≫= char_from_u32
  end.

(** An entity that ends within 17 bytes: its character and what is behind it. *)
Definition entity_at (entity : str) : option (char * str) :=
  match split_once (u ";") entity with
  | Some (name, rest) => if slen name <? 17 then (fun c => (c, rest)) <$> entity_char name else None
  | None => None
  end.

Fixpoint credential_privacy_view (fuel : nat) (remaining : str) : result (stop DatabaseError) str :=
  match fuel with
  | O => Err OutOfFuel
  | S fuel =>
    match split_once (u "&") remaining with
    | None => Ok remaining
    | Some (before, entity) =>
      match entity_at entity with
      | Some (character, rest) =>
        let? more := credential_privacy_view fuel rest in Ok (before ++ character :: more)
      | None =>
        let? more := credential_privacy_view fuel entity in Ok (before ++ u "&" ++ more)
      end
    end
  end.

Definition privacy_view (value : str) : result (stop DatabaseError) str :=
  credential_privacy_view (S (length value)) value.

(** * Redaction *)

(** [&raw[a..b]] *)
Definition byte_slice (raw : list byte) (a b : Z) : result (stop DatabaseError) (list byte) :=
  if (0 <=? a) && (a <=? b) && (b <=? zlen raw)
  then Ok (take (Z.to_nat (b - a)) (drop (Z.to_nat a) raw))
  else Err Panic.

(** The loop over the ranges; [start - cursor] is a subtraction of unsigned
    integers. *)
Fixpoint replace_ranges (raw : list byte) (ranges : list (Z * Z)) (cursor : Z) (output : list byte)
  : result (stop DatabaseError) (list byte) :=
  match ranges with
  | [] =>
    let? gap := ok_or (checked_sub (zlen raw) cursor) Panic in
    if MAX_DOCUMENT_BYTES <? saturating_add (zlen output) gap then Err (Error SourceDataInvalid)
    else
      let? kept := byte_slice raw cursor (zlen raw) in
      Ok (output ++ kept)
  | (start, end_) :: ranges =>
    let? gap := ok_or (checked_sub start cursor) Panic in
    if MAX_DOCUMENT_BYTES <?
       saturating_add (saturating_add (zlen output) gap) (slen CREDENTIAL_REDACTION_MARKER)
    then Err (Error SourceDataInvalid)
    else
      let? kept := byte_slice raw cursor start in
      replace_ranges raw ranges end_ (output ++ kept ++ bytes CREDENTIAL_REDACTION_MARKER)
  end.

(** The query keys that an HTML page may not contain. *)
Definition auth_queries : list str := fields ["oc="; "%4f%43="; "o%43="; "%4fc="]%string.

Section redaction.
Context `{FormUrlencoded} `{LinkUrls} `{Unicode}.

Definition html_auth_query (raw : list byte) (format : DocumentFormat) : result (stop DatabaseError) bool :=
  match format, from_utf8 raw with
  | Html, Some text =>
    let? view := privacy_view text in
    let inspected := to_ascii_lowercase <$> view in
    Ok (existsb (fun key => contains_str key inspected) auth_queries)
  | _, _ => Ok false
  end.

Definition redact_transport_credentials (raw : list byte) (credential : str) (format : DocumentFormat)
  : result (stop DatabaseError) (list byte * bool) :=
  if negb (bool_decide (format = Xml)) then
    let? auth := html_auth_query raw format in
    let? reflected := reflected_credential raw credential in
    if reflected || auth then Err (Error SourceDataInvalid) else Ok (raw, false)
  else
    let? text := ok_or (from_utf8 raw) (Error SourceDataInvalid) in
    let? ranges := credential_link_ranges text credential in
    let? output := replace_ranges raw ranges 0 [] in
    let? residual := reflected_credential output credential in
    if residual then Err (Error SourceDataInvalid)
    else
      let? hidden :=
        match from_utf8 output with
        | Some text =>
          let? view := privacy_view text in reflected_credential (bytes view) credential
        | None => Ok false
        end in
      if hidden then Err (Error SourceDataInvalid)
      else Ok (output, negb (bool_decide (ranges = []))).
End redaction.
