(* ===== verification/RedactionFacts.v ===== *)
(** What the redaction promises: it always answers, replaces nothing but the
    credential in the query of documented links, and what it lets through holds
    no form of the credential. *)

From S2P Require Import Prelude Utf8 Strings Slices Legal InForce InForceFacts Citation CitationFacts Document Catalogue ProviderTree Projection Redaction.

(** Keep the literals of the source folded. *)
#[local] Opaque u.

(** * Occurrences *)

Definition occurs (p s : list Z) : Prop := exists a b, s = a ++ p ++ b.

Lemma split_once_found p a b : exists x y, split_once p (a ++ p ++ b) = Some (x, y).
Proof.
  induction a as [|c a (x & y & IH)].
  - exists [], b. cbn [app]. destruct (p ++ b) as [|c l] eqn:E; cbn [split_once]; rewrite <- E, strip_prefix_app; done.
  - cbn [app split_once]. destruct (strip_prefix p _) as [r|]; [by exists [], r|].
    rewrite IH. by exists (c :: x), y.
Qed.

Lemma contains_str_iff p s : contains_str p s = true <-> occurs p s.
Proof.
  unfold contains_str. split.
  - destruct (split_once p s) as [[a b]|] eqn:E; [|done]. intros _. apply split_once_Some in E. by exists a, b.
  - intros (a & b & ->). by destruct (split_once_found p a b) as (x & y & ->).
Qed.

Lemma contains_str_false p s : contains_str p s = false <-> ~ occurs p s.
Proof. rewrite <- contains_str_iff. by destruct (contains_str p s). Qed.

Lemma bytes_nonempty s : s <> [] -> bytes s <> [].
Proof.
  destruct s as [|c s]; [done|]. intros _. cbn [bytes]. unfold encode_char. by repeat case_match.
Qed.

(** * Representations *)

Lemma replace_nonempty p r s : r <> [] -> s <> [] -> replace p r s <> [].
Proof. unfold replace. destruct s as [|c s]; [done|]. cbn [replace_from]. destruct (starts_with _ _), r; done. Qed.

#[local] Transparent u.
Lemma escape_nonempty s : s <> [] -> escape_entities s <> [].
Proof.
  unfold escape_entities, common_entities. cbn [fold_left fst snd]. intros Hs.
  repeat apply replace_nonempty; done.
Qed.
#[local] Opaque u.

Lemma dedup_strs_elem l x : x ∈ dedup_strs l <-> x ∈ l.
Proof.
  induction l as [|a [|b l] IH]; [done..|]. cbn [dedup_strs] in *. destruct (str_eqb a b) eqn:E.
  - apply str_eqb_eq in E as ->. rewrite IH, !elem_of_cons. tauto.
  - by rewrite elem_of_cons, IH, !elem_of_cons.
Qed.

Section representations.
Context `{FormLaws}.

Lemma serialize_nonempty l : l <> [] -> byte_serialize l <> [].
Proof.
  intros Hl. rewrite serialize_bytes. destruct l as [|b l]; [done|]. cbn. unfold form_byte.
  #[local] Transparent u. by repeat case_match. #[local] Opaque u.
Qed.

Lemma representations_elem credential v :
  v ∈ credential_representations credential <->
  credential <> [] /\ (v = credential \/ v = byte_serialize (bytes credential) \/ v = escape_entities credential).
Proof.
  unfold credential_representations. destruct credential as [|c s]; [split; [by intros ?%not_elem_of_nil|tauto]|].
  rewrite dedup_strs_elem, sort_by_perm, !elem_of_cons, elem_of_nil. naive_solver.
Qed.

Lemma representation_nonempty credential v : v ∈ credential_representations credential -> v <> [].
Proof.
  intros [Hc [->|[->| ->]]]%representations_elem; [done| |by apply escape_nonempty].
  by apply serialize_nonempty, bytes_nonempty.
Qed.

Lemma any_window_spec values raw :
  Forall (fun v => v <> []) values ->
  any_window values raw = Ok (existsb (fun v => contains_str (bytes v) raw) values).
Proof.
  induction 1 as [|v values Hv Hvs IH]; [done|]. cbn [any_window existsb].
  assert (windows_contain (bytes v) raw = Ok (contains_str (bytes v) raw)) as ->.
  { pose proof (bytes_nonempty v Hv). unfold windows_contain. by destruct (bytes v). }
  by destruct (contains_str (bytes v) raw).
Qed.

(** No form of the credential is in the text. *)
Definition free_of (credential : str) (raw : list byte) : Prop :=
  Forall (fun v => ~ occurs (bytes v) raw) (credential_representations credential).

Lemma reflected_spec raw credential :
  exists b, reflected_credential raw credential = Ok b /\ (b = false <-> free_of credential raw).
Proof.
  unfold reflected_credential. rewrite any_window_spec.
  2: { apply Forall_forall. intros v. apply representation_nonempty. }
  eexists. split; [done|]. unfold free_of. rewrite Forall_forall. split.
  - intros Hf v Hv. apply contains_str_false. destruct (contains_str (bytes v) raw) eqn:E; [|done].
    assert (existsb (fun v => contains_str (bytes v) raw) (credential_representations credential) = true); [|congruence].
    apply existsb_exists. exists v. split; [by apply list_elem_of_In|done].
  - intros Hf. destruct (existsb _ _) eqn:E; [|done]. apply existsb_exists in E as (v & Hv & Hc).
    apply contains_str_iff in Hc. exfalso. by apply (Hf v); [apply list_elem_of_In|].
Qed.
End representations.

(** * The credential in a query *)

Section query.
Context `{FormLaws} `{LinkUrls} `{Unicode}.

(** The pair [name=value] of a query is the credential's. *)
Definition credential_pair (credential : str) (cdata : bool) (name value : str) : Prop :=
  ~ occurs (u "=") name
  /\ exists key, form_parse (bytes (decode_xml cdata (name ++ u "=" ++ value))) = [(key, credential)]
       /\ eq_ignore_ascii_case key (u "OC") = true.

(** The range covers the value of such a pair in a text that begins at byte
    [base]. *)
Definition in_query (credential : str) (cdata : bool) (text : str) (base : Z) (r : Z * Z) : Prop :=
  exists before name value after,
    text = before ++ (name ++ u "=" ++ value) ++ after
    /\ r = (base + slen (before ++ name ++ u "="), base + slen (before ++ name ++ u "=" ++ value))
    /\ credential_pair credential cdata name value.

Lemma in_query_shift credential cdata pre text post base r :
  in_query credential cdata text (base + slen pre) r ->
  in_query credential cdata (pre ++ text ++ post) base r.
Proof.
  intros (a & n & v & b & -> & -> & Hp). exists (pre ++ a), n, v, (b ++ post).
  split; [by rewrite <- !app_assoc|]. split; [|done].
  rewrite <- !(app_assoc pre), !slen_app. f_equal; lia.
Qed.

Lemma split_once_first p s a b : split_once p s = Some (a, b) -> p <> [] -> length p = 1%nat -> ~ occurs p a.
Proof.
  destruct p as [|d [|]]; [done| |done]. intros Hs _ _ (x & y & ->).
  apply split_once_Some in Hs as Hs'. subst s.
  revert b Hs. induction x as [|c x IH]; intros b Hs.
  - cbn in Hs. rewrite Z.eqb_refl in Hs. discriminate Hs.
  - cbn in Hs. destruct (d =? c); [done|].
    destruct (split_once [d] _) as [[x' y']|] eqn:E; [|done]. injection Hs as -> ->. by apply (IH b).
Qed.

#[local] Transparent u.
Lemma len_equals : length (u "=") = 1%nat. Proof. reflexivity. Qed.
Lemma slen_equals : slen (u "=") = 1. Proof. reflexivity. Qed.
#[local] Opaque u.

Lemma pair_range_spec credential cdata segment cursor :
  Forall (in_query credential cdata segment cursor) (pair_range credential cdata segment cursor).
Proof.
  unfold pair_range. destruct (split_once (u "=") segment) as [[name value]|] eqn:Es; [|constructor].
  destruct (form_parse _) as [|[key active] [|]] eqn:Ef; [constructor| |constructor].
  destruct (eq_ignore_ascii_case key (u "OC") && str_eqb active credential) eqn:E; [|constructor]. bool_hyps.
  match goal with H : str_eqb _ _ = true |- _ => apply str_eqb_eq in H; subst active end.
  constructor; [|constructor]. pose proof (split_once_Some _ _ _ _ Es) as Hs.
  exists [], name, value, []. cbn [app]. split; [by rewrite app_nil_r|].
  split; [rewrite Hs, !slen_app, slen_equals; f_equal; lia|].
  split; [|exists key; by rewrite <- Hs].
  eapply split_once_first; [exact Es| |apply len_equals]. intros E. pose proof len_equals as Hl. by rewrite E in Hl.
Qed.

Lemma next_separator_Some cdata s a b :
  next_separator cdata s = Some (a, b) -> s = a ++ b /\ exists t, b = ch "&" :: t.
Proof.
  revert a b. induction s as [|c s IH]; intros a b; cbn [next_separator]; [done|].
  destruct (_ && _) eqn:E.
  - intros [= <- <-]. apply andb_true_iff in E as [->%Z.eqb_eq _]. split; [done|]. by exists s.
  - destruct (next_separator cdata s) as [[a' b']|]; [|done]. intros [= <- <-].
    destruct (IH a' b' eq_refl) as [-> ?]. done.
Qed.

#[local] Transparent u.
Lemma separator_split cdata t :
  let s := ch "&" :: t in let n := separator_len cdata s in
  s = take n s ++ drop n s /\ slen (take n s) = Z.of_nat n /\ (length (drop n s) < length s)%nat.
Proof.
  cbn zeta. split; [by rewrite take_drop|]. unfold separator_len.
  destruct (negb cdata && starts_with (u "&amp;") _) eqn:E; [|split; [done|rewrite length_drop; cbn [length]; lia]].
  apply andb_true_iff in E as [_ (r & ->)%starts_with_iff]. split; [done|].
  rewrite length_drop, length_app. change (length (u "&amp;")) with 5%nat. lia.
Qed.
#[local] Opaque u.

Lemma query_ranges_spec fuel credential cdata rest : forall cursor,
  (length rest <= fuel)%nat ->
  exists rs, query_ranges fuel credential cdata rest cursor = Ok rs
    /\ Forall (in_query credential cdata rest cursor) rs.
Proof.
  revert rest. induction fuel as [|fuel IH]; intros rest cursor Hf.
  { destruct rest; [|cbn in Hf; lia]. by exists []. }
  destruct rest as [|c rest]; [by exists []|]. set (s := c :: rest) in *. cbn [query_ranges]. unfold s at 1.
  destruct (next_separator cdata s) as [[segment from]|] eqn:En.
  2: { eexists. split; [done|]. apply pair_range_spec. }
  apply next_separator_Some in En as [Hs (t & Hfrom)].
  pose proof (separator_split cdata t) as (Hd & Hl & Hlt). cbn zeta in *. rewrite <- Hfrom in *.
  destruct (IH (drop (separator_len cdata from) from) (cursor + slen segment + Z.of_nat (separator_len cdata from)))
    as (rs & -> & Hrs).
  { assert (length from <= length s)%nat by (rewrite Hs, length_app; lia). lia. }
  eexists. split; [done|]. apply Forall_app. split.
  - eapply Forall_impl; [apply pair_range_spec|]. intros r Hr.
    rewrite Hs. apply (in_query_shift credential cdata []). by rewrite Z.add_0_r.
  - eapply Forall_impl; [exact Hrs|]. intros r Hr.
    rewrite Hs, Hd, app_assoc, <- (app_nil_r (drop _ _)). apply in_query_shift.
    rewrite slen_app, Hl. by replace (cursor + (slen segment + Z.of_nat (separator_len cdata from)))
      with (cursor + slen segment + Z.of_nat (separator_len cdata from)) by lia.
Qed.

(** A link that the provider's own pages use, with the credential in its query. *)
Record link_value (credential : str) (cdata : bool) (value : str) (base : Z) (r : Z * Z) : Prop := {
  lv_query : in_query credential cdata value base r;
  lv_trusted : exists link, join_link (decode_xml cdata value) = Some link /\ trusted_link (lk_url link) = true;
  lv_plain : existsb is_whitespace value = false;
}.

#[local] Transparent u.
Lemma slen_question : slen (u "?") = 1. Proof. reflexivity. Qed.
#[local] Opaque u.

Lemma url_ranges_spec value offset credential cdata :
  let r := credential_url_ranges value offset credential cdata in
  answers r /\ forall rs, r = Ok rs -> Forall (link_value credential cdata value offset) rs.
Proof.
  cbn zeta. unfold credential_url_ranges. destruct (_ || _) eqn:E.
  { destruct (reflected_spec (bytes value) credential) as (b & -> & _). split; [done|]. intros rs [= <-]. constructor. }
  bool_hyps. destruct (split_once (u "?") value) as [[before query]|] eqn:Es.
  2: { split; [done|]. intros rs [= <-]. constructor. }
  destruct (join_link _) as [link|] eqn:Ej.
  2: { split; [done|]. intros rs [= <-]. constructor. }
  destruct (trusted_link (lk_url link)) eqn:Et; cbn [negb].
  2: { split; [done|]. intros rs [= <-]. constructor. }
  destruct (negb cdata && contains_str (u "&#") value); [done|].
  destruct (negb cdata && custom_entity value); [done|].
  destruct (is_some (url_fragment (lk_url link))); [done|].
  destruct (query_ranges_spec (length query) credential cdata query (offset + slen before + 1)) as (rs & -> & Hrs); [lia|].
  split; [done|]. intros ? [= <-]. eapply Forall_impl; [exact Hrs|]. intros r Hr.
  constructor; [|by exists link|done].
  apply split_once_Some in Es. rewrite Es, app_assoc, <- (app_nil_r query). apply in_query_shift.
  rewrite slen_app, slen_question.
  by replace (offset + (slen before + 1)) with (offset + slen before + 1) by lia.
Qed.
End query.

(** * The scan *)

Lemma tag_end_Some s : forall quote a b, tag_end quote s = Some (a, b) -> s = a ++ u ">" ++ b.
Proof.
  induction s as [|c s IH]; intros quote a b; cbn [tag_end]; [done|].
  assert (Hc : forall q, (fun ab : str * str => (c :: ab.1, ab.2)) <$> tag_end q s = Some (a, b) ->
    c :: s = a ++ u ">" ++ b).
  { intros q. destruct (tag_end q s) as [[a' b']|] eqn:E; [|done]. intros [= <- <-]. by apply IH in E as ->. }
  destruct quote as [active|]; [apply Hc|].
  destruct (_ || _); [apply Hc|]. destruct (Z.eqb_spec c (ch ">")) as [->|]; [|apply Hc].
  by intros [= <- <-].
Qed.

#[local] Transparent u.
Lemma slen_cdata : slen CDATA = 9. Proof. reflexivity. Qed.
Lemma slen_cdata_end : slen (u "]]>") = 3. Proof. reflexivity. Qed.

Lemma cdata_split text :
  starts_with CDATA text = true -> ends_with (u "]]>") text = true -> exists v, text = CDATA ++ v ++ u "]]>".
Proof.
  intros (t & Ht)%starts_with_iff (s & Hs)%ends_with_iff.
  destruct (Z_le_gt_dec (slen CDATA) (slen s)) as [Hl|Hl].
  - destruct (app_eq_prefix CDATA s t (u "]]>")) as (m & -> & ->); [congruence|done|]. exists m. by rewrite Ht.
  - destruct (app_eq_prefix s CDATA (u "]]>") t) as (m & Hc & Hm); [congruence|lia|]. exfalso.
    assert (m <> []) as Hne. { intros ->. rewrite app_nil_r in Hc. rewrite Hc in Hl. lia. }
    pose proof (last_app_ne s m Hne) as Hlast. rewrite <- Hc in Hlast. change (last CDATA) with (Some 91) in Hlast.
    change (u "]]>") with [93; 93; 62] in Hm.
    destruct m as [|a [|b [|c [|]]]]; cbn in *; simplify_eq.
Qed.
#[local] Opaque u.

(** White space, and the opening of character data. *)
Definition field_lead (cdata : bool) (lead : str) : Prop :=
  exists w, forallb is_whitespace w = true /\ lead = w ++ (if cdata then CDATA else []).

Lemma trim_pieces m :
  exists w d, m = w ++ trim m ++ d /\ forallb is_whitespace w = true
    /\ slen m - slen (trim_start m) = slen w.
Proof.
  unfold trim, trim_by, trim_start, trim_start_by.
  destruct (drop_while_split is_whitespace m) as (w & Hm & Hw).
  destruct (trim_end_split is_whitespace (drop_while is_whitespace m)) as (d & Hd & _).
  exists w, d. split; [by rewrite <- Hd|]. split; [done|]. rewrite Hm at 1. rewrite slen_app. lia.
Qed.

Section scan.
Context `{FormLaws} `{LinkUrls} `{Unicode}.

(** What a range of the scan covers inside the text [m] of an element, which
    begins at byte [base]. *)
Definition in_field (credential name m : str) (base : Z) (r : Z * Z) : Prop :=
  exists lead cdata value trail,
    m = lead ++ value ++ trail /\ field_lead cdata lead /\ (ch "<" ∉ value)
    /\ has_name allowed_fields name = true
    /\ link_value credential cdata value (base + slen lead) r.

Lemma field_ranges credential stack name m base lead cdata value trail :
  m = lead ++ value ++ trail -> field_lead cdata lead ->
  let r := if contains_char (ch "<") value then Ok [] else
    let? candidate := (credential_url_ranges value (base + slen lead) credential cdata) in
    if bool_decide (candidate = []) then Ok []
    else if contains_char (ch ":") name then Err (Error SourceDataInvalid)
    else if negb (has_name allowed_fields name) then Err (Error SourceDataInvalid)
    else if existsb (fun ancestor : str * Z => blocked_ancestor ancestor.1) stack then Err (Error SourceDataInvalid)
    else Ok candidate in
  answers r /\ forall rs, r = Ok rs -> Forall (in_field credential name m base) rs.
Proof.
  intros Hm Hlead. cbn zeta. destruct (contains_char (ch "<") value) eqn:Ec.
  { split; [done|]. intros rs [= <-]. constructor. }
  apply contains_char_false in Ec.
  destruct (url_ranges_spec value (base + slen lead) credential cdata) as [Ha Hr]. cbn zeta in *.
  destruct (credential_url_ranges _ _ _ _) as [candidate|e]; [|by split].
  specialize (Hr candidate eq_refl). destruct (bool_decide _).
  { split; [done|]. intros rs [= <-]. constructor. }
  destruct (contains_char (ch ":") name); [done|].
  destruct (has_name allowed_fields name) eqn:Hn; [|done]. cbn [negb].
  destruct (existsb _ stack); [done|]. split; [done|]. intros rs [= <-].
  eapply Forall_impl; [exact Hr|]. intros r Hv. by exists lead, cdata, value, trail.
Qed.

Lemma closed_ranges_spec xml credential stack name p m post :
  xml = p ++ m ++ post ->
  let r := closed_ranges xml credential stack name (slen p) (slen p + slen m) in
  answers r /\ forall rs, r = Ok rs -> Forall (in_field credential name m (slen p)) rs.
Proof.
  intros ->. cbn zeta. unfold closed_ranges. rewrite slice_app.
  destruct (trim_pieces m) as (w & d & Hm & Hw & Hoff). rewrite Hoff.
  destruct (starts_with CDATA (trim m) && ends_with (u "]]>") (trim m)) eqn:Ec.
  - apply andb_true_iff in Ec as [Hs He]. destruct (cdata_split _ Hs He) as (v & Hv). rewrite Hv.
    assert (slice (CDATA ++ v ++ u "]]>") 9 (slen (CDATA ++ v ++ u "]]>") - 3) = @Ok (stop DatabaseError) _ v) as ->.
    { rewrite !slen_app, slen_cdata, slen_cdata_end, <- slen_cdata.
      replace (slen CDATA + (slen v + 3) - 3) with (slen CDATA + slen v) by lia. apply slice_app. }
    replace (slen p + slen w + 9) with (slen p + slen (w ++ CDATA)) by (rewrite slen_app, slen_cdata; lia).
    apply (field_ranges credential stack name m (slen p) (w ++ CDATA) true v (u "]]>" ++ d)).
    + rewrite Hm at 1. rewrite Hv. by rewrite <- !app_assoc.
    + by exists w.
  - replace (slen p + slen w + 0) with (slen p + slen w) by lia.
    apply (field_ranges credential stack name m (slen p) w false (trim m) d); [done|].
    exists w. by rewrite app_nil_r.
Qed.

(** The range lies in the link of a documented field: behind a tag, and in front
    of the field's own end tag. *)
Definition linked (xml credential : str) (r : Z * Z) : Prop :=
  exists opening name m rest,
    xml = opening ++ u ">" ++ m ++ u "</" ++ name ++ rest
    /\ in_field credential name m (slen (opening ++ u ">")) r.

(** The text of an open element begins behind a tag. *)
Definition opened (done_ : str) (e : str * Z) : Prop :=
  exists opening m, done_ = opening ++ u ">" ++ m /\ e.2 = slen (opening ++ u ">").

Lemma opened_more done_ more e : opened done_ e -> opened (done_ ++ more) e.
Proof. intros (o & m & -> & He). exists o, (m ++ more). by rewrite <- !app_assoc. Qed.

#[local] Transparent u.
Lemma slen_lt : slen (u "<") = 1. Proof. reflexivity. Qed.
Lemma slen_gt : slen (u ">") = 1. Proof. reflexivity. Qed.
Lemma end_tag : u "</" = u "<" ++ u "/". Proof. reflexivity. Qed.
Lemma length_gt : length (u ">") = 1%nat. Proof. reflexivity. Qed.
Lemma length_lt : length (u "<") = 1%nat. Proof. reflexivity. Qed.
Lemma skipped_markup_Some rest prefix terminator :
  skipped_markup rest = Some (prefix, terminator) -> (exists t, rest = prefix ++ t) /\ prefix <> [].
Proof.
  unfold skipped_markup.
  repeat match goal with
  | |- (if starts_with ?p rest then _ else _) = _ -> _ =>
      let E := fresh in destruct (starts_with p rest) eqn:E;
        [apply starts_with_iff in E; intros [= <- <-]; split; [exact E|intros [=]]|]
  end. done.
Qed.

#[local] Opaque u.

Lemma drop_prefix (p t : str) : drop (length p) (p ++ t) = t.
Proof. apply drop_app_length. Qed.

Lemma link_scan_spec fuel xml credential : forall rest done_ cursor stack tags patches,
  (length rest < fuel)%nat -> xml = done_ ++ rest -> cursor = slen done_ ->
  Forall (opened done_) stack -> Forall (linked xml credential) patches ->
  let r := link_scan fuel xml credential rest cursor stack tags patches in
  answers r /\ forall ps, r = Ok ps -> Forall (linked xml credential) ps.
Proof.
  induction fuel as [|fuel IH]; intros rest done_ cursor stack tags patches Hf Hx Hc Hs Hp; [lia|].
  cbn zeta. cbn [link_scan].
  destruct (split_once (u "<") rest) as [[before after]|] eqn:El.
  2: { destruct (bool_decide _); [|done]. split; [done|]. by intros ps [= <-]. }
  apply split_once_Some in El. subst rest.
  assert (Hlen : (length after < fuel)%nat).
  { rewrite !length_app, length_lt in Hf. lia. }
  destruct (skipped_markup (u "<" ++ after)) as [[prefix terminator]|] eqn:Em.
  { apply skipped_markup_Some in Em as [(t & Ht) Hne]. rewrite Ht, drop_prefix.
    destruct (split_once terminator t) as [[inside rest]|] eqn:Et; [|done]. apply split_once_Some in Et. subst t.
    apply (IH rest (done_ ++ before ++ prefix ++ inside ++ terminator)); [| | | |done].
    - destruct prefix as [|c prefix]; [done|].
      apply (f_equal length) in Ht. rewrite !length_app, length_lt in Ht. cbn [length] in Ht. rewrite !length_app, length_lt in Hf. lia.
    - by rewrite Hx, Ht, <- !app_assoc.
    - rewrite !slen_app. lia.
    - eapply Forall_impl; [exact Hs|]. intros e. apply opened_more. }
  destruct (starts_with (u "<!") _); [done|].
  destruct (tag_end None after) as [[content rest]|] eqn:Ete; [|done]. cbn [ok_or].
  apply tag_end_Some in Ete. subst after.
  destruct (bad_tag_name _); [done|]. destruct (100000 <? tags + 1); [done|].
  set (done' := done_ ++ before ++ u "<" ++ content ++ u ">").
  assert (Hx' : xml = done' ++ rest) by (unfold done'; by rewrite Hx, <- !app_assoc).
  assert (Hc' : cursor + slen before + 1 + slen content + 1 = slen done').
  { unfold done'. rewrite !slen_app, slen_lt, slen_gt. lia. }
  assert (Hl' : (length rest < fuel)%nat).
  { rewrite !length_app, length_gt in Hlen. lia. }
  assert (Hs' : Forall (opened done') stack).
  { eapply Forall_impl; [exact Hs|]. intros e. apply opened_more. }
  destruct (starts_with (u "/") content).
  - destruct stack as [|[o text_start] stack]; [done|]. apply Forall_cons in Hs as [(op & m & Hd & He) Hs].
    apply Forall_cons in Hs' as [_ Hs']. cbn in He.
    destruct (_ || _) eqn:Ec; [done|]. apply orb_false_iff in Ec as [_ Ec].
    destruct (strip_prefix (u "/") content) as [tag|] eqn:Est; [|done]. apply strip_prefix_Some in Est.
    cbn [opt_test] in Ec. apply negb_false_iff, str_eqb_eq in Ec.
    destruct (trim_end_split xml_space tag) as (d & Htag & _). rewrite Ec in Htag.
    set (name := tag_name content) in *.
    assert (Hxm : xml = (op ++ u ">") ++ (m ++ before) ++ (u "<" ++ content ++ u ">" ++ rest)).
    { by rewrite Hx, Hd, <- !app_assoc. }
    assert (Hend : cursor + slen before = slen (op ++ u ">") + slen (m ++ before)).
    { rewrite Hc, Hd, !slen_app. lia. }
    rewrite He, Hend. destruct (closed_ranges_spec xml credential stack name _ _ _ Hxm) as [Ha Hr].
    cbn zeta in Ha, Hr. destruct (closed_ranges _ _ _ _ _ _) as [candidate|e]; [|by split].
    rewrite <- Hend. apply (IH rest done'); [done..|]. apply Forall_app. split; [done|].
    eapply Forall_impl; [by apply Hr|]. intros r Hin. exists op, name, (m ++ before), (d ++ u ">" ++ rest).
    split; [|done]. rewrite Hxm, Est, Htag, end_tag. by rewrite <- !app_assoc.
  - destruct (negb _).
    + destruct (64 <? _); [done|]. apply (IH rest done'); [done..| |done].
      apply Forall_cons. split; [|done]. exists (done_ ++ before ++ u "<" ++ content), [].
      cbn [snd]. rewrite app_nil_r. split; [unfold done'; by rewrite <- !app_assoc|].
      rewrite Hc'. unfold done'. by rewrite <- !app_assoc.
    + by apply (IH rest done').
Qed.

Lemma link_ranges_spec xml credential :
  let r := credential_link_ranges xml credential in
  answers r /\ forall rs, r = Ok rs -> Forall (linked xml credential) rs /\ overlapping rs = false.
Proof.
  cbn zeta. unfold credential_link_ranges.
  destruct (link_scan_spec (S (length xml)) xml credential xml [] 0 [] 0 []) as [Ha Hr]; [lia|done|done|constructor..|].
  cbn zeta in *. destruct (link_scan _ _ _ _ _ _ _ _) as [ps|e]; [|by split].
  destruct (_ || _) eqn:E; [done|]. apply orb_false_iff in E as [_ E]. split; [done|]. intros rs [= <-].
  split; [|done]. apply Forall_forall. intros r Hin. rewrite sort_by_perm in Hin.
  pose proof (Hr ps eq_refl) as Hps. rewrite Forall_forall in Hps. by apply Hps.
Qed.
End scan.

(** * The rewriting *)

(** A text as pieces: what is kept, and the secret behind it. *)
Fixpoint spelled (write : str -> str) (pieces : list (str * str)) : str :=
  match pieces with [] => [] | (kept, secret) :: pieces => kept ++ write secret ++ spelled write pieces end.

(** The ranges of the secrets, from byte [base] on. *)
Fixpoint ranges_of (base : Z) (pieces : list (str * str)) : list (Z * Z) :=
  match pieces with
  | [] => []
  | (kept, secret) :: pieces =>
    (base + slen kept, base + slen kept + slen secret)
    :: ranges_of (base + slen kept + slen secret) pieces
  end.

(** A range between character boundaries. *)
Definition placed (text : str) (r : Z * Z) : Prop :=
  exists a v b, text = a ++ v ++ b /\ r = (slen a, slen (a ++ v)).

Lemma byte_slice_app p m q : byte_slice (bytes (p ++ m ++ q)) (slen p) (slen p + slen m) = Ok (bytes m).
Proof.
  unfold byte_slice. rewrite !bytes_app, !zlen_app, <- !slen_bytes.
  pose proof (slen_nonneg p). pose proof (slen_nonneg m). pose proof (slen_nonneg q).
  rewrite !(proj2 (Z.leb_le _ _)) by lia. cbn [andb]. f_equal.
  assert (Z.to_nat (slen p) = length (bytes p)) as -> by (rewrite slen_bytes; unfold zlen; lia).
  rewrite drop_app_length.
  assert (Z.to_nat (slen p + slen m - slen p) = length (bytes m)) as ->
    by (rewrite (slen_bytes m); unfold zlen; lia).
  apply take_app_length.
Qed.

Lemma checked_sub_le a b : b <= a -> checked_sub a b = Some (a - b).
Proof. intros ?. unfold checked_sub. by rewrite (proj2 (Z.leb_le _ _)). Qed.

Lemma replace_ranges_spec text ranges : forall done_ rest output,
  text = done_ ++ rest -> Forall (placed text) ranges -> overlapping ranges = false ->
  (forall r, head ranges = Some r -> slen done_ <= r.1) ->
  let r := replace_ranges (bytes text) ranges (slen done_) output in
  answers r /\ forall out, r = Ok out -> exists pieces tl,
    rest = spelled id pieces ++ tl
    /\ out = output ++ bytes (spelled (fun _ => CREDENTIAL_REDACTION_MARKER) pieces ++ tl)
    /\ ranges = ranges_of (slen done_) pieces
    /\ zlen out <= MAX_DOCUMENT_BYTES.
Proof.
  induction ranges as [|[start end_] ranges IH]; intros done_ rest output Ht Hp Ho Hh; cbn zeta; cbn [replace_ranges].
  { assert (zlen (bytes text) = slen done_ + slen rest) as -> by (by rewrite Ht, <- slen_bytes, slen_app).
    pose proof (slen_nonneg rest). rewrite checked_sub_le by lia. cbn [ok_or].
    destruct (Z.ltb_spec MAX_DOCUMENT_BYTES (saturating_add (zlen output) (slen done_ + slen rest - slen done_))) as [|Hs];
      [done|].
    rewrite Ht. pose proof (byte_slice_app done_ rest []) as Hb. rewrite app_nil_r in Hb. rewrite Hb.
    split; [done|]. intros out [= <-]. exists [], rest. split_and!; [done..|].
    rewrite zlen_app, <- slen_bytes. unfold saturating_add, usize_max, MAX_DOCUMENT_BYTES in *. lia. }
  apply Forall_cons in Hp as [(a & v & b & Htext & [= -> ->]) Hp].
  specialize (Hh _ eq_refl) as Hle. cbn [fst] in Hle.
  destruct (app_eq_prefix done_ a rest (v ++ b)) as (k & -> & ->); [by rewrite <- Ht|done|].
  rewrite slen_app. pose proof (slen_nonneg k). rewrite checked_sub_le by lia. cbn [ok_or].
  destruct (_ <? _); [done|].
  rewrite Ht. rewrite byte_slice_app. rewrite <- Ht.
  destruct (IH ((done_ ++ k) ++ v) b (output ++ bytes k ++ bytes CREDENTIAL_REDACTION_MARKER)) as [Ha Hr].
  - rewrite Ht. by rewrite <- !app_assoc.
  - done.
  - cbn [overlapping] in Ho. destruct ranges as [|x ranges]; [done|]. by apply orb_false_iff in Ho as [_ Ho].
  - intros r Hr. destruct ranges as [|x ranges]; [done|]. injection Hr as ->.
    cbn [overlapping] in Ho. apply orb_false_iff in Ho as [Ho _]. cbn [snd] in Ho. lia.
  - cbn zeta in *. split; [done|]. intros out Hout. destruct (Hr out Hout) as (pieces & tl & -> & -> & -> & Hl).
    exists ((k, v) :: pieces), tl. split_and!; [by cbn [spelled id]; rewrite <- !app_assoc| | |done].
    + cbn [spelled]. rewrite !bytes_app. by rewrite <- !app_assoc.
    + cbn [ranges_of]. by rewrite !slen_app.
Qed.

(** * Redaction *)

Lemma privacy_view_total fuel : forall remaining,
  (length remaining < fuel)%nat -> exists v, credential_privacy_view fuel remaining = Ok v.
Proof.
  induction fuel as [|fuel IH]; intros remaining Hf; [lia|]. cbn [credential_privacy_view].
  destruct (split_once (u "&") remaining) as [[before entity]|] eqn:E; [|by eexists].
  apply split_once_Some in E. subst remaining. rewrite !length_app in Hf.
  assert (Hlen : length (u "&") = 1%nat). { #[local] Transparent u. reflexivity. #[local] Opaque u. }
  destruct (entity_at entity) as [[c rest]|] eqn:Ee.
  - destruct (IH rest) as [v ->]; [|by eexists].
    unfold entity_at in Ee. destruct (split_once (u ";") entity) as [[name r]|] eqn:Es; [|done].
    destruct (slen name <? 17); [|done]. destruct (entity_char name); [|done]. injection Ee as _ ->.
    apply split_once_Some in Es. rewrite Es, !length_app in Hf. lia.
  - destruct (IH entity) as [v ->]; [lia|by eexists].
Qed.

Section redacted.
Context `{FormLaws} `{LinkUrls} `{Unicode}.

Lemma linked_placed xml credential r : linked xml credential r -> placed xml r.
Proof.
  intros (o & n & m & rest & -> & lead & cdata & value & trail & -> & _ & _ & _ & [(a & k & v & b & -> & -> & _) _ _]).
  exists (o ++ u ">" ++ lead ++ a ++ k ++ u "="), v, (b ++ trail ++ u "</" ++ n ++ rest).
  split; [by rewrite <- !app_assoc|]. rewrite !slen_app. f_equal; lia.
Qed.

(** What leaves the guard. *)
Record redacted (raw : list byte) (credential : str) (format : DocumentFormat) (out : list byte)
  (changed : bool) : Prop := {
  (** no form of the credential is left *)
  rd_free : free_of credential out;
  (** a document that is not XML is let through as it is *)
  rd_opaque : format <> Xml -> out = raw /\ changed = false;
  (** in XML, nothing but the credential in documented links is replaced *)
  rd_xml : format = Xml -> exists text pieces tl,
    from_utf8 raw = Some text
    /\ text = spelled id pieces ++ tl
    /\ out = bytes (spelled (fun _ => CREDENTIAL_REDACTION_MARKER) pieces ++ tl)
    /\ Forall (linked text credential) (ranges_of 0 pieces)
    /\ (changed = false <-> pieces = [])
    /\ zlen out <= MAX_DOCUMENT_BYTES;
  (** and the credential is not hidden behind entities either *)
  rd_hidden : format = Xml -> forall text view, from_utf8 out = Some text -> privacy_view text = Ok view ->
    free_of credential (bytes view);
}.

Lemma ranges_of_nil base pieces : ranges_of base pieces = [] <-> pieces = [].
Proof. by destruct pieces as [|[]]. Qed.

Lemma html_auth_total raw format : exists b, html_auth_query raw format = Ok b.
Proof.
  unfold html_auth_query. destruct format; try by eexists. destruct (from_utf8 raw) as [text|]; [|by eexists].
  unfold privacy_view. destruct (privacy_view_total (S (length text)) text) as [v ->]; [lia|]. by eexists.
Qed.

Lemma redaction_accounts raw credential format :
  let r := redact_transport_credentials raw credential format in
  answers r /\ forall out changed, r = Ok (out, changed) -> redacted raw credential format out changed.
Proof.
  cbn zeta. unfold redact_transport_credentials.
  destruct (bool_decide_reflect (format = Xml)) as [->|Hf]; cbn [negb].
  2: { destruct (html_auth_total raw format) as [auth ->].
    destruct (reflected_spec raw credential) as (b & -> & Hb). destruct (b || auth) eqn:E; [done|].
    apply orb_false_iff in E as [-> _]. split; [done|]. intros out changed [= <- <-].
    constructor; [by apply Hb|done..]. }
  destruct (from_utf8 raw) as [text|] eqn:Eu; [|done]. cbn [ok_or].
  pose proof (proj1 (from_utf8_iff _ _) Eu) as [Hraw _].
  destruct (link_ranges_spec text credential) as [Ha Hr]. cbn zeta in *.
  destruct (credential_link_ranges text credential) as [ranges|e]; [|by split].
  destruct (Hr ranges eq_refl) as [Hl Ho]. clear Hr Ha. rewrite <- Hraw.
  destruct (replace_ranges_spec text ranges [] text []) as [Ha Hr]; [done| |done| |].
  { eapply Forall_impl; [exact Hl|]. apply linked_placed. }
  { intros r Hh. destruct ranges as [|x ranges]; [done|]. injection Hh as ->.
    apply Forall_cons in Hl as [(a & v & b & _ & ->)%linked_placed _]. apply slen_nonneg. }
  cbn zeta in *. change (slen []) with 0 in *.
  destruct (replace_ranges (bytes text) ranges 0 []) as [output|e]; [|by split].
  destruct (Hr output eq_refl) as (pieces & tl & Ht & Hout & Hranges & Hmax).
  destruct (reflected_spec output credential) as (b & -> & Hb). destruct b; [done|].
  assert (Hd : exists b, match from_utf8 output with
      | Some text => let? view := privacy_view text in reflected_credential (bytes view) credential
      | None => Ok false
      end = Ok b /\ (b = false -> forall text view, from_utf8 output = Some text -> privacy_view text = Ok view ->
                       free_of credential (bytes view))).
  { destruct (from_utf8 output) as [t|]; [|by exists false].
    unfold privacy_view at 1. destruct (privacy_view_total (S (length t)) t) as [v Hv]; [lia|]. rewrite Hv.
    destruct (reflected_spec (bytes v) credential) as (b & -> & Hb'). exists b. split; [done|].
    intros Hbf t' v' [= <-] Hv'. unfold privacy_view in Hv'. rewrite Hv in Hv'. injection Hv' as <-. by apply Hb'. }
  destruct Hd as (h & -> & Hh). destruct h; [done|]. split; [done|]. intros out changed [= <- <-].
  constructor; [by apply Hb|done| |by intros _; apply Hh].
  intros _. exists text, pieces, tl. cbn [app] in Hout. split_and!; [by rewrite Hraw|done|done|by rewrite <- Hranges| |done].
  rewrite <- (ranges_of_nil 0), <- Hranges. rewrite negb_false_iff. apply bool_decide_eq_true.
Qed.

(** C21. The guard always answers.  What it lets through holds no form of the
    credential: not literally, not form-encoded, not behind XML entities.  It
    rewrites XML responses only, and there nothing but values of the query
    parameter [OC] that are the credential, in links to the provider itself
    inside the fields documented as links; every other character of the legal
    text is kept, and the output stays within the document limit. *)
Theorem redaction_sound raw credential format :
  let r := redact_transport_credentials raw credential format in
  answers r /\ forall out changed, r = Ok (out, changed) -> redacted raw credential format out changed.
Proof. apply redaction_accounts. Qed.
End redacted.

(** * A reflected credential *)

(** The form encoding of the sample laws, with every other pair read as it
    stands. *)
Definition link_form : FormUrlencoded := {|
  byte_serialize := @byte_serialize sample_form;
  form_parse l :=
    match @form_parse sample_form l with
    | [] => match split_once (u "=") l with Some kv => [kv] | None => [] end
    | pairs => pairs
    end;
|}.

Lemma link_form_laws : @FormLaws link_form.
Proof.
  destruct sample_laws as [Hs Hp]. constructor; [exact Hs|]. intros s Hsc. specialize (Hp s Hsc).
  cbn [form_parse byte_serialize link_form]. by destruct (@form_parse sample_form _).
Qed.

Definition provider_links : LinkUrls := {|
  join_link value := Some {|
    lk_url := {| url_scheme := u "https"; url_host := Some (u "www.law.go.kr"); url_username := [];
      url_password := None; url_path := value; url_query := None; url_fragment := None; url_query_pairs := [] |};
    lk_port := Some 443; lk_text := u "https://www.law.go.kr" ++ value |};
|}.

Definition reflected_response : list byte :=
  bytes (u "<?xml version='1.0'?><law><name>secretariat</name><법령상세링크>/DRF/lawService.do?OC=key7&amp;target=law</법령상세링크></law>").

Definition redacted_response : list byte :=
  bytes (u "<?xml version='1.0'?><law><name>secretariat</name><법령상세링크>/DRF/lawService.do?OC=[openlegal-credential-redacted]&amp;target=law</법령상세링크></law>").

Lemma redaction_sound_witness :
  @redacted link_form provider_links reflected_response (u "key7") Xml redacted_response true.
Proof.
  destruct (@redaction_sound link_form link_form_laws provider_links sample_unicode reflected_response (u "key7") Xml)
    as [_ H].
  apply H. vm_compute. reflexivity.
Defined.

(** The same credential in the text of a law is not rewritten: the response is
    refused. *)
Lemma reflected_text_refused :
  @redact_transport_credentials link_form provider_links sample_unicode
    (bytes (u "<law><조문내용>OC=key7</조문내용></law>")) (u "key7") Xml = Err (Error SourceDataInvalid).
Proof. vm_compute. reflexivity. Qed.
