(* ===== verification/Attachments.v ===== *)
(** What the provider client records beside the text of a law,
    [crates/adapters/src/law_go_kr.rs] with [domain/src/rights.rs]: the
    attachments a document links to and the licence each one states, the
    observation of a primary response, records without a text, and the
    processors of attachments. *)

From S2P Require Import Prelude Utf8 Strings Slices Domain Legal InForce Document Catalogue ProviderTree Projection Redaction.

(** * Rights ([rights.rs]) *)

Definition legal_information : SourceRights :=
  {| basis := u "LAW OPEN DATA legal-information reuse policy";
     evidence_url := u "https://open.law.go.kr/LSO/information/guide.do";
     attribution := u "법제처 국가법령정보센터 / 원 제공기관";
     commercial_use := Some true; derivatives := Some true; redistribution := Some true |}.

Section rights.
Context `{LegalCodecs}.

Definition resources (metadata : gmap str str) : list OriginalResource :=
  default [] (metadata !! u "original_resources" ≫= parse_resources).

(** The set of the warnings, in order. *)
Definition warnings (metadata : gmap str str) : list str :=
  fold_left (fun found warning => set_insert warning found)
    (flat_map (fun resource => rights_warnings (res_rights resource)) (resources metadata)) [].
End rights.

(** * The licence of an attachment *)

(** Nodes are told apart by their place in the tree: the indices of the
    children on the way to them. *)
Fixpoint children_at (here : list nat) (i : nat) (children : list DocumentNode) : list (list nat * DocumentNode) :=
  match children with
  | [] => []
  | child :: children => (here ++ [i], child) :: children_at here (S i) children
  end.

(** [elements], with the place of each *)
Fixpoint placed_elements (name : str) (here : list nat) (node : DocumentNode)
  : list (list nat * DocumentNode) :=
  match node with
  | Element n _ children =>
    (if str_eqb (local n) name then [(here, node)] else [])
    ++ (fix walk (i : nat) (children : list DocumentNode) :=
          match children with
          | [] => []
          | child :: children => placed_elements name (here ++ [i]) child ++ walk (S i) children
          end) O children
  | Text _ => []
  end.

(** [parent]: the first element with the target among its children. *)
Fixpoint parent (here : list nat) (node : DocumentNode) (target : list nat) : option DocumentNode :=
  match node with
  | Element _ _ children =>
    if existsb (fun child => bool_decide (child.1 = target)) (children_at here O children) then Some node
    else
      (fix search (i : nat) (children : list DocumentNode) :=
         match children with
         | [] => None
         | child :: children =>
           match parent (here ++ [i]) child target with
           | Some found => Some found
           | None => search (S i) children
           end
         end) O children
  | Text _ => None
  end.

(** [direct]: the text of the first child of a name. *)
Fixpoint direct (field : str) (children : list DocumentNode) : option str :=
  match children with
  | [] => None
  | (Element name _ _ as child) :: children =>
    if str_eqb (local name) field then Some (node_text child) else direct field children
  | Text _ :: children => direct field children
  end.

(** The keys of the query of a licence, or of an attachment, that hold
    credentials. *)
Definition secret_keys : list str :=
  fields ["oc"; "apikey"; "api_key"; "token"; "servicekey"; "password"]%string.

Definition secret_pair (url : Url) : bool :=
  existsb (fun kv => has_name secret_keys (to_ascii_lowercase <$> kv.1)) (url_query_pairs url).

Definition evidence_hosts : list str := fields ["www.law.go.kr"; "law.go.kr"; "www.kogl.or.kr"]%string.

Section attachments.
Context `{LegalCodecs}.

Definition licence_evidence (value : str) : bool :=
  match url_parse value with
  | None => false
  | Some url =>
    str_eqb (url_scheme url) (u "https") && str_eqb (url_username url) []
    && negb (is_some (url_password url)) && negb (secret_pair url)
    && opt_test (has_name evidence_hosts) (url_host url)
  end.

Definition keep_if {A} (p : A -> bool) (o : option A) : option A :=
  match o with Some a => if p a then Some a else None | None => None end.

(** A licence belongs only to the attachment's own containing element. *)
Definition attachment_rights (tree : DocumentNode) (link : list nat) : SourceRights :=
  match parent [] tree link with
  | Some (Element name _ children) =>
    if negb (supplementary (local name)) then rights_default
    else
      match direct (u "공공누리유형") children ≫= parse_unsigned 255 with
      | None => rights_default
      | Some kind =>
        match keep_if licence_evidence (direct (u "이용허락근거URL") children) with
        | None => rights_default
        | Some evidence =>
          match keep_if (fun value => negb (str_eqb (trim value) [])) (direct (u "출처표시") children) with
          | None => rights_default
          | Some attribution => kogl kind evidence attribution
          end
        end
      end
  | _ => rights_default
  end.

(** * Links to attachments *)

Record AttachmentLink := {
  al_url : Link; al_format : DocumentFormat; al_title : str; al_rights : SourceRights;
}.

Definition attachment_fields : list (str * DocumentFormat) :=
  [(u "별표서식PDF파일링크", Pdf); (u "별표서식파일링크", Hwp5)].

Definition provider_host (url : Url) : bool :=
  opt_test (has_name (fields ["www.law.go.kr"; "law.go.kr"]%string)) (url_host url).

Definition untrusted_download (link : Link) : bool :=
  let url := lk_url link in
  negb (provider_host url) || negb (str_eqb (url_path url) (u "/LSW/flDownload.do"))
  || negb (bool_decide (lk_port link = Some 443)) || negb (str_eqb (url_username url) [])
  || is_some (url_password url) || is_some (url_fragment url) || secret_pair url.

Definition link_format (format : DocumentFormat) (url : Url) : DocumentFormat :=
  match format with
  | Hwp5 =>
    if existsb (fun kv => ends_with (u ".hwpx") (to_ascii_lowercase <$> kv.2)) (url_query_pairs url)
    then Hwpx else Hwp5
  | _ => format
  end.

Section links.
Context `{LinkUrls} (set_https : Link -> option Link).

(** One node of a field; [seen] is read off the links found so far. *)
Definition add_link (tree : DocumentNode) (field : str) (format : DocumentFormat)
  (found : list AttachmentLink) (placed : list nat * DocumentNode)
  : result DatabaseError (list AttachmentLink) :=
  let '(place, node) := placed in
  let value := node_text node in
  if str_eqb value [] then Ok found
  else
    let? link := ok_or (join_link value) InvalidInput in
    let? link :=
      if str_eqb (url_scheme (lk_url link)) (u "http") then ok_or (set_https link) InvalidInput else Ok link in
    if untrusted_download link then Err InvalidInput
    else if existsb (fun l => str_eqb (lk_text (al_url l)) (lk_text link)) found then Ok found
    else
      let found := found ++ [{| al_url := link; al_format := link_format format (lk_url link);
                                al_title := field; al_rights := attachment_rights tree place |}] in
      if 64 <? zlen found then Err SourceDataInvalid else Ok found.

Fixpoint add_links (tree : DocumentNode) (field : str) (format : DocumentFormat)
  (nodes : list (list nat * DocumentNode)) (found : list AttachmentLink)
  : result DatabaseError (list AttachmentLink) :=
  match nodes with
  | [] => Ok found
  | node :: nodes =>
    let? found := add_link tree field format found node in add_links tree field format nodes found
  end.

Fixpoint field_links (tree : DocumentNode) (names : list (str * DocumentFormat)) (found : list AttachmentLink)
  : result DatabaseError (list AttachmentLink) :=
  match names with
  | [] => Ok found
  | (field, format) :: names =>
    let? found := add_links tree field format (placed_elements field [] tree) found in
    field_links tree names found
  end.

Definition attachment_links (tree : DocumentNode) : result DatabaseError (list AttachmentLink) :=
  field_links tree attachment_fields [].
End links.

(** * The observation of a primary response *)

Record SourceObservationInput := {
  so_source_key : str; so_raw : option (list byte); so_media_type : str; so_rights : SourceRights;
  so_metadata : gmap str str; so_observed_at : Z;
}.

Definition str_pair_cmp (a b : str * str) : comparison :=
  match str_cmp a.1 b.1 with Eq => str_cmp a.2 b.2 | c => c end.

(** The only target that the query states. *)
Definition only_target (url : Url) : option str :=
  match List.filter (fun kv => str_eqb kv.1 (u "target")) (url_query_pairs url) with
  | [kv] => Some kv.2
  | _ => None
  end.

Definition unobserved (link : Link) (format : DocumentFormat) : bool :=
  let url := lk_url link in
  negb (bool_decide (format = Xml) || bool_decide (format = Html))
  || negb (str_eqb (url_scheme url) (u "https")) || negb (bool_decide (lk_port link = Some 443))
  || negb (provider_host url) || negb (str_eqb (url_username url) [])
  || is_some (url_password url) || is_some (url_fragment url).

Section observation.
Context (with_query : Link -> list (str * str) -> str) (sha256_hex : list byte -> str).

(** [set_query(None)] and [extend_pairs] on a copy of the link are
    [with_query]. *)
Definition primary_source_observation (link : Link) (format : DocumentFormat) (raw : list byte)
  (retrieved_at : Z) : option SourceObservationInput :=
  let url := lk_url link in
  if unobserved link format then None
  else
    only_target url ≫= fun target =>
    List.find (fun family => str_eqb (sf_target family) target
      && (str_eqb (url_path url) (sf_list_path family)
          || bool_decide (sf_detail_path family = Some (url_path url)))) SOURCE_FAMILIES ≫= fun family =>
    (if str_eqb (url_path url) (sf_list_path family) then Some (sf_list_guide family)
     else sf_detail_guide family) ≫= fun guide =>
    let parameters := sort_by (fun a b => cmp_leb (str_pair_cmp a b))
      (List.filter (fun kv => negb (has_name credential_keys (to_ascii_lowercase <$> kv.1))) (url_query_pairs url)) in
    let public := with_query link parameters in
    if negb (public_source_url public) || (4096 <? slen public) then None
    else
      let metadata : gmap str str :=
        <[u "status" := if sf_metadata_only family then u "rights_unverified_metadata_only"
                        else u "response_identity_unverified"]>
        (<[u "guide" := guide]> (<[u "source_url" := public]> ∅)) in
      Some {| so_source_key := u "law_go_kr:" ++ guide ++ u ":" ++ sha256_hex (bytes public);
              so_raw := if sf_metadata_only family then None else Some raw;
              so_media_type := if bool_decide (format = Html) then u "text/html" else u "application/xml";
              so_rights := if sf_metadata_only family then rights_default else legal_information;
              so_metadata := if has_credential_redaction raw
                             then <[u "credentials_redacted" := u "true"]> metadata else metadata;
              so_observed_at := retrieved_at |}.
End observation.

(** * Records without a text *)

Record ProviderDetail := {
  pd_source_observations : list SourceObservationInput; pd_retrieved_at : Z; pd_record : LegalRecord;
  pd_raw : list byte; pd_additional_evidence : list (list byte); pd_processor_version : str;
}.

(** [serde_json] of what a detail records *)
Class DetailJson := {
  resources_json : list OriginalResource -> option str;
  item_json : InventoryItem -> option (list byte);
  strings_json : list str -> option str;
}.

Section detail.
Context `{DetailJson}.

Definition metadata_resource (item : InventoryItem) (retained : bool) : OriginalResource :=
  {| res_ordinal := 0; res_title := ii_title item; res_media_type := u "application/xml";
     res_source_url := guide_url (source_family (oid_dataset (ii_object item)));
     res_retained := retained; res_rights := if retained then legal_information else rights_default |}.

Definition metadata_detail (item : InventoryItem) (raw : list byte) (retrieved_at : Z) (retained : bool)
  : result DatabaseError ProviderDetail :=
  let? _ := validate_for_detail item in
  let family := source_family (oid_dataset (ii_object item)) in
  let? resources := ok_or (resources_json [metadata_resource item retained]) StorageCorrupt in
  let metadata : gmap str str :=
    <[u "body_status" := if retained then u "provider_original_only" else u "rights_unverified_metadata_only"]>
    (<[u "original_resources" := resources]> ∅) in
  let metadata :=
    if retained
    then <[u "identity_verification" := u "verified request identity; response fields undocumented"]> metadata
    else metadata in
  let record :=
    {| lr_object := ii_object item; lr_revision_id := ii_revision_id item; lr_title := ii_title item;
       lr_body := []; lr_metadata := metadata; lr_publication_date := ii_publication_date item;
       lr_effective_date := ii_effective_date item; lr_source_url := guide_url family;
       lr_representation := if retained then u "provider-original" else u "metadata-only";
       lr_sections := [] |} in
  let? _ := record_validate record in
  let? raw := if retained then Ok raw else ok_or (item_json item) StorageCorrupt in
  Ok {| pd_source_observations := []; pd_retrieved_at := retrieved_at; pd_record := record; pd_raw := raw;
        pd_additional_evidence := []; pd_processor_version := u "law-original-v1" |}.
End detail.

(** * The processors of attachments *)

Record AttachmentProcessor := { ap_ordinal : Z; ap_source_sha256 : str; ap_processor_version : str }.

(** [serde_json] of the list in the metadata *)
Class ProcessorJson := {
  parse_processors : str -> option (list AttachmentProcessor);
  processors_json : list AttachmentProcessor -> option str;
}.

Definition with_metadata (rec : LegalRecord) (metadata : gmap str str) : LegalRecord :=
  {| lr_object := lr_object rec; lr_revision_id := lr_revision_id rec; lr_title := lr_title rec;
     lr_body := lr_body rec; lr_metadata := metadata; lr_publication_date := lr_publication_date rec;
     lr_effective_date := lr_effective_date rec; lr_source_url := lr_source_url rec;
     lr_representation := lr_representation rec; lr_sections := lr_sections rec |}.

Definition put_metadata (key value : str) (rec : LegalRecord) : LegalRecord :=
  with_metadata rec (<[key := value]> (lr_metadata rec)).

Definition PROCESSORS_KEY : str := u "attachment_processors".

(** The record as the call leaves it, with the outcome. *)
Definition retain_attachment_processor `{ProcessorJson} (rec : LegalRecord) (ordinal : Z)
  (source_sha256 processor_version : str) : result DatabaseError unit * LegalRecord :=
  if negb (in_range 1 64 ordinal) || negb (valid_snapshot_id source_sha256)
     || str_eqb processor_version [] || (256 <? slen processor_version)
  then (Err SourceDataInvalid, rec)
  else
    match record_validate rec with
    | Err _ => (Err SourceDataInvalid, rec)
    | Ok _ =>
      match (match lr_metadata rec !! PROCESSORS_KEY with
             | Some value => parse_processors value
             | None => Some []
             end) with
      | None => (Err StorageCorrupt, rec)
      | Some processors =>
        if (64 <=? zlen processors) || existsb (fun entry => ordinal <=? ap_ordinal entry) processors
        then (Err SourceDataInvalid, rec)
        else
          let processors := processors ++ [{| ap_ordinal := ordinal; ap_source_sha256 := source_sha256;
                                              ap_processor_version := processor_version |}] in
          match processors_json processors with
          | None => (Err StorageCorrupt, rec)
          | Some value =>
            let previous := lr_metadata rec !! PROCESSORS_KEY in
            let changed := put_metadata PROCESSORS_KEY value rec in
            match record_validate changed with
            | Ok _ => (Ok tt, changed)
            | Err _ =>
              (Err SourceDataInvalid,
               match previous with
               | Some previous => put_metadata PROCESSORS_KEY previous changed
               | None => with_metadata changed (delete PROCESSORS_KEY (lr_metadata changed))
               end)
            end
          end
      end
    end.
End attachments.
