(* ===== verification/AttachmentsFacts.v ===== *)
(** What is recorded beside a text: the links to attachments are the documented
    ones, each with the licence of its own container; the processors of a record
    change as a whole or not at all; and a record without rights holds nothing of
    the response. *)

From S2P Require Import Prelude Utf8 Strings Slices Domain Legal InForce InForceFacts Document Catalogue ProviderTree Projection Redaction Attachments.

#[local] Opaque u.

(** * Places in a tree *)

(** The node at a place. *)
Fixpoint node_at (node : DocumentNode) (place : list nat) : option DocumentNode :=
  match place with
  | [] => Some node
  | i :: place =>
    match node with
    | Element _ _ children => children !! i ≫= fun child => node_at child place
    | Text _ => None
    end
  end.

Lemma node_at_app node p q : node_at node (p ++ q) = node_at node p ≫= fun n => node_at n q.
Proof.
  revert node. induction p as [|i p IH]; intros node; [done|]. cbn [app node_at].
  destruct node as [name attributes children|]; [|done]. destruct (children !! i) as [child|]; [|done]. apply IH.
Qed.

Lemma children_at_spec here children : forall i,
  children_at here i children = imap (fun j child => (here ++ [(i + j)%nat], child)) children.
Proof.
  induction children as [|child children IH]; intros i; [done|]. cbn [children_at imap]. rewrite Nat.add_0_r.
  f_equal. rewrite IH. apply imap_ext. intros j x _. cbn. by rewrite Nat.add_succ_r.
Qed.

(** The search inside the children, as a function of its own. *)
Fixpoint search_children (here : list nat) (target : list nat) (i : nat) (children : list DocumentNode)
  : option DocumentNode :=
  match children with
  | [] => None
  | child :: children =>
    match parent (here ++ [i]) child target with
    | Some found => Some found
    | None => search_children here target (S i) children
    end
  end.

Lemma parent_element here name attributes children target :
  parent here (Element name attributes children) target =
  if existsb (fun child => bool_decide (child.1 = target)) (children_at here O children)
  then Some (Element name attributes children)
  else search_children here target O children.
Proof.
  cbn [parent]. destruct (existsb _ _); [done|]. generalize O.
  induction children as [|child children IH]; intros i; [done|]. cbn [search_children].
  destruct (parent (here ++ [i]) child target); [done|]. apply IH.
Qed.

Lemma child_of_here here i children target :
  existsb (fun child : list nat * DocumentNode => bool_decide (child.1 = target)) (children_at here i children) = true <->
  exists j, (j < length children)%nat /\ target = here ++ [(i + j)%nat].
Proof.
  rewrite existsb_exists, children_at_spec. split.
  - intros ([p n] & Hin & Hp%bool_decide_eq_true). cbn in Hp. subst p.
    apply list_elem_of_In, list_elem_of_lookup in Hin as (j & Hj). rewrite list_lookup_imap in Hj.
    destruct (children !! j) as [c|] eqn:E; [|done]. injection Hj as <- <-. exists j.
    split; [by eapply lookup_lt_Some|done].
  - intros (j & Hj & ->). destruct (lookup_lt_is_Some_2 children j Hj) as [c Hc].
    exists (here ++ [(i + j)%nat], c). split; [|by apply bool_decide_eq_true].
    apply list_elem_of_In, list_elem_of_lookup. exists j. by rewrite list_lookup_imap, Hc.
Qed.

Lemma search_children_Some here target children : forall i found,
  search_children here target i children = Some found ->
  exists j child, children !! j = Some child /\ parent (here ++ [(i + j)%nat]) child target = Some found.
Proof.
  induction children as [|child children IH]; intros i found; [done|]. cbn [search_children].
  destruct (parent (here ++ [i]) child target) as [n|] eqn:Ep.
  - intros [= <-]. exists O, child. by rewrite Nat.add_0_r.
  - intros (j & c & Hj & Hp)%IH. exists (S j), c. rewrite Nat.add_succ_r. by split.
Qed.

(** What is found is the element one step up, inside the tree that is searched. *)
Lemma parent_inside node : forall here target found,
  parent here node target = Some found ->
  exists q i, target = here ++ q ++ [i] /\ node_at node q = Some found.
Proof.
  induction node as [name attributes children IH|] using DocumentNode_nested_ind; intros here target found; [|done].
  rewrite parent_element. destruct (existsb _ _) eqn:E.
  - intros [= <-]. apply child_of_here in E as (j & _ & ->). by exists [], j.
  - intros (j & child & Hj & Hp)%search_children_Some. rewrite Forall_lookup in IH.
    apply (IH _ _ Hj) in Hp as (q & k & -> & Hq). exists (j :: q), k.
    rewrite <- app_assoc. split; [done|]. cbn [node_at]. by rewrite Hj.
Qed.

Lemma search_children_spec here target k q : forall children i,
  (forall j child, children !! j = Some child -> (i + j)%nat <> k -> parent (here ++ [(i + j)%nat]) child target = None) ->
  (i <= k)%nat -> children !! (k - i)%nat = Some q ->
  search_children here target i children = parent (here ++ [k]) q target
  \/ parent (here ++ [k]) q target = None.
Proof.
  induction children as [|child children IH]; intros i Hn Hi Hk; [done|]. cbn [search_children].
  destruct (decide (i = k)) as [->|Hne].
  - rewrite Nat.sub_diag in Hk. injection Hk as ->. destruct (parent (here ++ [k]) q target); [by left|by right].
  - pose proof (Hn O child eq_refl ltac:(lia)) as Hp. rewrite Nat.add_0_r in Hp. rewrite Hp.
    apply IH; [|lia|].
    + intros j c Hj Hjk. specialize (Hn (S j) c Hj). rewrite Nat.add_succ_r in Hn. by apply Hn.
    + replace (k - i)%nat with (S (k - S i)) in Hk by lia. done.
Qed.

(** The search by identity finds the element one step up. *)
Lemma parent_spec q : forall node here i name attributes children,
  node_at node q = Some (Element name attributes children) -> (i < length children)%nat ->
  parent here node (here ++ q ++ [i]) = Some (Element name attributes children).
Proof.
  induction q as [|k q IH]; intros node here i name attributes children Hq Hi.
  - injection Hq as ->. rewrite parent_element. cbn [app].
    rewrite (proj2 (child_of_here here O children (here ++ [i]))) by (by exists i). done.
  - cbn [node_at] in Hq. destruct node as [n a cs|]; [|done]. destruct (cs !! k) as [child|] eqn:Ek; [|done].
    cbn [mbind option_bind] in Hq. rewrite parent_element. destruct (existsb _ _) eqn:E.
    { apply child_of_here in E as (j & _ & Hj). apply app_inv_head in Hj. by destruct q. }
    pose proof (IH child (here ++ [k]) i name attributes children Hq Hi) as Hp.
    rewrite <- app_assoc in Hp. cbn [app] in *.
    destruct (search_children_spec here (here ++ k :: q ++ [i]) k child cs O) as [Hs|Hs].
    + intros j c _ Hjk. destruct (parent _ c _) as [f|] eqn:Ef; [|done].
      apply parent_inside in Ef as (q' & i' & Ht & _). rewrite <- app_assoc in Ht. apply app_inv_head in Ht.
      cbn in Ht. by injection Ht as ->.
    + lia.
    + by rewrite Nat.sub_0_r.
    + by rewrite Hs.
    + by rewrite Hp in Hs.
Qed.

(** ** Elements with their places *)

Fixpoint walk_places (name : str) (here : list nat) (i : nat) (children : list DocumentNode)
  : list (list nat * DocumentNode) :=
  match children with
  | [] => []
  | child :: children => placed_elements name (here ++ [i]) child ++ walk_places name here (S i) children
  end.

Lemma placed_element name here n attributes children :
  placed_elements name here (Element n attributes children) =
  (if str_eqb (local n) name then [(here, Element n attributes children)] else [])
  ++ walk_places name here O children.
Proof.
  cbn [placed_elements]. f_equal. generalize O.
  induction children as [|child children IH]; intros i; [done|]. cbn [walk_places]. by rewrite IH.
Qed.

(** They are the elements of the name, each at its place. *)
Lemma placed_elements_spec name node : forall here,
  snd <$> placed_elements name here node = elements name node
  /\ Forall (fun pn => exists q, pn.1 = here ++ q /\ node_at node q = Some pn.2) (placed_elements name here node).
Proof.
  induction node as [n attributes children IH|] using DocumentNode_nested_ind; intros here; [|done].
  rewrite placed_element.
  assert (Hw : forall cs i, Forall (fun c => forall here,
      snd <$> placed_elements name here c = elements name c
      /\ Forall (fun pn => exists q, pn.1 = here ++ q /\ node_at c q = Some pn.2) (placed_elements name here c)) cs ->
    snd <$> walk_places name here i cs = flat_map (elements name) cs
    /\ Forall (fun pn => exists j c q, cs !! j = Some c /\ pn.1 = here ++ (i + j)%nat :: q /\ node_at c q = Some pn.2)
         (walk_places name here i cs)).
  { intros cs i Hcs. revert i. induction Hcs as [|c cs Hc _ IHcs]; intros i; [done|]. cbn [walk_places flat_map].
    destruct (Hc (here ++ [i])) as [He Hf], (IHcs (S i)) as [He' Hf']. rewrite fmap_app, He, He'.
    split; [done|]. apply Forall_app. split.
    - eapply Forall_impl; [exact Hf|]. intros [p m] (q & Hp & Hq). exists O, c, q.
      rewrite Nat.add_0_r. split; [done|]. split; [|done]. cbn in *. by rewrite Hp, <- app_assoc.
    - eapply Forall_impl; [exact Hf'|]. intros [p m] (j & c' & q & Hj & Hp & Hq). exists (S j), c', q.
      rewrite Nat.add_succ_r. by split_and!. }
  destruct (Hw children O IH) as [He Hf]. cbn [elements]. rewrite fmap_app, He.
  split; [by destruct (str_eqb _ _)|]. apply Forall_app. split.
  - destruct (str_eqb _ _); [|constructor]. constructor; [|constructor]. exists []. by rewrite app_nil_r.
  - eapply Forall_impl; [exact Hf|]. intros [p m] (j & c & q & Hj & Hp & Hq). exists (j :: q).
    split; [done|]. cbn [node_at]. by rewrite Hj.
Qed.

(** * Licences *)

Section licences.
Context `{LegalCodecs}.

(** The container of an attachment states this licence itself. *)
Definition states_licence (container : DocumentNode) (rights : SourceRights) : Prop :=
  exists name attributes children kind evidence attribution,
    container = Element name attributes children /\ supplementary (local name) = true
    /\ direct (u "공공누리유형") children ≫= parse_unsigned 255 = Some kind
    /\ direct (u "이용허락근거URL") children = Some evidence /\ licence_evidence evidence = true
    /\ direct (u "출처표시") children = Some attribution /\ trim attribution <> []
    /\ rights = kogl kind evidence attribution.

Lemma keep_if_Some {A} (p : A -> bool) o a : keep_if p o = Some a <-> o = Some a /\ p a = true.
Proof. unfold keep_if. destruct o as [x|]; [|naive_solver]. destruct (p x) eqn:E; naive_solver congruence. Qed.

(** The licence of a link is the one that its own container states, or none. *)
Lemma attachment_rights_own tree place :
  attachment_rights tree place = rights_default
  \/ exists q i container, place = q ++ [i] /\ node_at tree q = Some container
       /\ states_licence container (attachment_rights tree place).
Proof.
  unfold attachment_rights. destruct (parent [] tree place) as [container|] eqn:Ep; [|by left].
  apply parent_inside in Ep as (q & i & Hq & Hn). cbn [app] in Hq.
  destruct container as [name attributes children|]; [|by left].
  destruct (supplementary (local name)) eqn:Es; cbn [negb]; [|by left].
  destruct (direct (u "공공누리유형") children ≫= parse_unsigned 255) as [kind|] eqn:Ek; [|by left].
  destruct (keep_if licence_evidence _) as [evidence|] eqn:Ee; [|by left]. apply keep_if_Some in Ee as [Ee Hv].
  destruct (keep_if _ (direct (u "출처표시") children)) as [attribution|] eqn:Ea; [|by left].
  apply keep_if_Some in Ea as [Ea Ht]. right. exists q, i, (Element name attributes children).
  split; [done|]. split; [done|]. exists name, attributes, children, kind, evidence, attribution.
  split_and!; try done. intros Hx. by rewrite Hx in Ht.
Qed.

Lemma attachment_rights_stated tree q i container rights :
  node_at tree q = Some container -> states_licence container rights ->
  match container with Element _ _ children => (i < length children)%nat | Text _ => False end ->
  attachment_rights tree (q ++ [i]) = rights.
Proof.
  intros Hn (name & attributes & children & kind & evidence & attribution & -> & Hs & Hk & He & Hv & Ha & Ht & ->) Hi.
  unfold attachment_rights. rewrite (parent_spec q tree [] i name attributes children Hn Hi : parent [] tree (q ++ [i]) = _).
  rewrite Hs, Hk, He, Ha. cbn [negb keep_if]. rewrite Hv.
  destruct (str_eqb (trim attribution) []) eqn:E; [by apply str_eqb_eq in E|]. done.
Qed.
End licences.

(** * Links *)

Section links.
Context `{LegalCodecs} `{LinkUrls} (set_https : Link -> option Link).

Definition resolved (value : str) : option Link :=
  join_link value ≫= fun link =>
    if str_eqb (url_scheme (lk_url link)) (u "http") then set_https link else Some link.

(** What a listed attachment is. *)
Record listed (tree : DocumentNode) (l : AttachmentLink) : Prop := {
  ls_source : exists place node, (place, node) ∈ placed_elements (al_title l) [] tree
    /\ resolved (node_text node) = Some (al_url l)
    /\ (al_rights l = rights_default
        \/ exists q i container, place = q ++ [i] /\ node_at tree q = Some container
             /\ states_licence container (al_rights l));
  ls_field : al_title l ∈ attachment_fields.*1;
  ls_trusted : untrusted_download (al_url l) = false;
}.

Definition texts (links : list AttachmentLink) : list str := (fun l => lk_text (al_url l)) <$> links.

(** The links found so far. *)
Record links_ok (tree : DocumentNode) (found : list AttachmentLink) : Prop := {
  lo_listed : Forall (listed tree) found;
  lo_distinct : NoDup (texts found);
  lo_bound : zlen found <= 64;
}.

(** The node of a field is accounted for. *)
Definition accounted (links : list AttachmentLink) (node : DocumentNode) : Prop :=
  node_text node <> [] -> exists link, resolved (node_text node) = Some link /\ lk_text link ∈ texts links.

Lemma accounted_more links more node : accounted links node -> accounted (links ++ more) node.
Proof.
  intros Ha Hn. destruct (Ha Hn) as (link & Hl & Hin). exists link. split; [done|].
  unfold texts. rewrite fmap_app. apply elem_of_app. by left.
Qed.

Lemma seen_text found text :
  existsb (fun l => str_eqb (lk_text (al_url l)) text) found = true <-> text ∈ texts found.
Proof.
  rewrite existsb_exists. unfold texts. rewrite list_elem_of_fmap. split.
  - intros (l & Hin & Heq%str_eqb_eq). exists l. split; [done|]. by apply list_elem_of_In.
  - intros (l & -> & Hin). exists l. split; [by apply list_elem_of_In|apply str_eqb_refl].
Qed.

Lemma add_link_spec tree field format found placed out :
  field ∈ attachment_fields.*1 -> placed ∈ placed_elements field [] tree ->
  links_ok tree found -> add_link set_https tree field format found placed = Ok out ->
  links_ok tree out /\ accounted out placed.2 /\ exists more, out = found ++ more.
Proof.
  destruct placed as [place node]. intros Hfield Hplace Hok. unfold add_link. cbn [snd].
  destruct (str_eqb (node_text node) []) eqn:Ee.
  { intros [= <-]. apply str_eqb_eq in Ee. split; [done|]. split; [by intros Hn|]. exists []. by rewrite app_nil_r. }
  destruct (join_link (node_text node)) as [link|] eqn:Ej; [|done]. cbn [ok_or].
  destruct (if str_eqb (url_scheme (lk_url link)) (u "http") then _ else _) as [link'|] eqn:Es; [|done].
  assert (Hr : resolved (node_text node) = Some link').
  { unfold resolved. rewrite Ej. cbn [mbind option_bind]. destruct (str_eqb _ (u "http")); [|by injection Es as ->].
    destruct (set_https link); cbn in Es; congruence. }
  destruct (untrusted_download link') eqn:Eu; [done|].
  destruct (existsb _ found) eqn:Eseen.
  { intros [= <-]. apply seen_text in Eseen. split; [done|]. split; [|by exists []; rewrite app_nil_r].
    intros _. by exists link'. }
  set (l := {| al_url := link' |}). destruct (Z.ltb_spec 64 (zlen (found ++ [l]))) as [|Hb]; [done|]. intros [= <-].
  destruct Hok as [Hl Hd Hle]. split; [|split; [|by exists [l]]].
  - constructor; [| |done].
    + apply Forall_app. split; [done|]. constructor; [|constructor]. constructor; [|done|done].
      exists place, node. split; [done|]. split; [done|]. apply attachment_rights_own.
    + unfold texts in *. rewrite fmap_app. apply NoDup_app. split_and!; [done| |apply NoDup_singleton].
      intros x Hx Hs. cbn in Hs. apply list_elem_of_singleton in Hs as ->. apply (seen_text found) in Hx. congruence.
  - intros _. exists link'. split; [done|]. unfold texts. rewrite fmap_app. apply elem_of_app. right. by left.
Qed.

Lemma add_links_spec tree field format nodes : forall found out,
  field ∈ attachment_fields.*1 -> Forall (fun placed => placed ∈ placed_elements field [] tree) nodes ->
  links_ok tree found -> add_links set_https tree field format nodes found = Ok out ->
  links_ok tree out /\ Forall (accounted out) nodes.*2 /\ exists more, out = found ++ more.
Proof.
  induction nodes as [|placed nodes IH]; intros found out Hf Hn Hok; cbn [add_links].
  { intros [= <-]. split; [done|]. split; [constructor|]. exists []. by rewrite app_nil_r. }
  apply Forall_cons in Hn as [Hp Hn]. destruct (add_link _ _ _ _ _ _) as [mid|] eqn:Ea; [|done]. intros Hrest.
  destruct (add_link_spec _ _ _ _ _ _ Hf Hp Hok Ea) as (Hmid & Hacc & m1 & E1).
  destruct (IH mid out Hf Hn Hmid Hrest) as (Hout & Hall & m2 & ->). split; [done|]. split.
  - rewrite fmap_cons. constructor; [by apply accounted_more|done].
  - exists (m1 ++ m2). by rewrite E1, app_assoc.
Qed.

Lemma field_links_spec tree names : forall found out,
  (forall nf, nf ∈ names -> nf ∈ attachment_fields) ->
  links_ok tree found -> field_links set_https tree names found = Ok out ->
  links_ok tree out /\ Forall (fun nf => Forall (accounted out) (elements nf.1 tree)) names
  /\ exists more, out = found ++ more.
Proof.
  induction names as [|[field format] names IH]; intros found out Hn Hok; cbn [field_links].
  { intros [= <-]. split; [done|]. split; [constructor|]. exists []. by rewrite app_nil_r. }
  destruct (add_links _ _ _ _ _ _) as [mid|] eqn:Ea; [|done]. intros Hrest.
  assert (Hfield : field ∈ attachment_fields.*1).
  { apply list_elem_of_fmap. exists (field, format). split; [done|]. apply Hn. by left. }
  apply add_links_spec in Ea as (Hmid & Hacc & m1 & E1); [|done|by apply Forall_forall|done].
  rewrite (proj1 (placed_elements_spec field tree [])) in Hacc.
  destruct (IH mid out) as (Hout & Hall & m2 & ->); [|done|done|].
  { intros nf Hin. apply Hn. by right. }
  split; [done|]. split.
  - constructor; [|done]. eapply Forall_impl; [exact Hacc|]. intros node. apply accounted_more.
  - exists (m1 ++ m2). by rewrite E1, app_assoc.
Qed.

(** C25. The attachments of a document are exactly the distinct targets of its
    documented link fields: none is left out, each is an encrypted download from
    the provider without credentials in its address, and there are at most 64.
    An attachment is licensed only by what the element that contains its link
    states itself; a licence of the law around it, or of another attachment, is
    not inherited. *)
Theorem attachment_links_spec tree links :
  attachment_links set_https tree = Ok links ->
  Forall (listed tree) links /\ NoDup (texts links) /\ zlen links <= 64
  /\ forall field, field ∈ attachment_fields.*1 -> Forall (accounted links) (elements field tree).
Proof.
  intros Hl. destruct (field_links_spec tree attachment_fields [] links) as ([? ? ?] & Hall & _);
    [done| |exact Hl|].
  { constructor; [by apply Forall_nil|by apply NoDup_nil|done]. }
  split_and!; try done. intros field (nf & -> & Hin)%list_elem_of_fmap. rewrite Forall_forall in Hall. by apply Hall.
Qed.
End links.

(** * Processors of attachments *)

Section processors.
Context `{LegalCodecs} `{ProcessorJson}.

Lemma with_metadata_id rec m m' : m' = lr_metadata rec -> with_metadata (with_metadata rec m) m' = rec.
Proof. intros ->. by destruct rec. Qed.

Lemma put_back rec key value previous :
  lr_metadata rec !! key = Some previous -> put_metadata key previous (put_metadata key value rec) = rec.
Proof. intros Hp. apply with_metadata_id. cbn. by rewrite insert_insert_eq, insert_id. Qed.

Lemma take_back rec key value :
  lr_metadata rec !! key = None ->
  with_metadata (put_metadata key value rec) (delete key (lr_metadata (put_metadata key value rec))) = rec.
Proof. intros Hp. apply with_metadata_id. cbn. by rewrite delete_insert_id. Qed.

(** The processor of an attachment is recorded as a whole or not at all: on
    every error the record is what it was, and on success only the list of the
    processors changed, by one entry at its end, under an ordinal larger than all
    before it, and the record is still valid. *)
Theorem retain_processor_atomic rec ordinal sha version :
  match retain_attachment_processor rec ordinal sha version with
  | (Err _, rec') => rec' = rec
  | (Ok _, rec') =>
    record_validate rec' = Ok tt
    /\ exists before value,
         match lr_metadata rec !! PROCESSORS_KEY with
         | Some text => parse_processors text = Some before
         | None => before = []
         end
         /\ rec' = put_metadata PROCESSORS_KEY value rec
         /\ processors_json (before ++ [{| ap_ordinal := ordinal; ap_source_sha256 := sha;
                                           ap_processor_version := version |}]) = Some value
         /\ Forall (fun entry => ap_ordinal entry < ordinal) before
         /\ zlen before < 64 /\ 1 <= ordinal <= 64 /\ valid_snapshot_id sha = true
  end.
Proof.
  unfold retain_attachment_processor. destruct (_ || _) eqn:E; [done|].
  bool_hyps. rewrite in_range_iff in *. destruct (record_validate rec) as [[]|]; [|done].
  destruct (match lr_metadata rec !! PROCESSORS_KEY with Some value => parse_processors value | None => Some [] end)
    as [before|] eqn:Eb; [|done].
  destruct ((64 <=? zlen before) || _) eqn:Ec; [done|]. apply orb_false_iff in Ec as [Hl Ho].
  destruct (processors_json _) as [value|] eqn:Ej; [|done].
  destruct (record_validate (put_metadata PROCESSORS_KEY value rec)) as [[]|] eqn:Ev.
  - split; [done|]. exists before, value. split_and!; try done; try lia.
    + destruct (lr_metadata rec !! PROCESSORS_KEY); congruence.
    + apply Forall_forall. intros entry Hin. destruct (Z.ltb_spec (ap_ordinal entry) ordinal); [done|].
      assert (existsb (fun entry => ordinal <=? ap_ordinal entry) before = true); [|congruence].
      apply existsb_exists. exists entry. split; [by apply list_elem_of_In|lia].
  - destruct (lr_metadata rec !! PROCESSORS_KEY) as [previous|] eqn:Ep.
    + by apply put_back.
    + by apply take_back.
Qed.
End processors.

(** * Records without a text *)

(** A detail of a record whose rights are unknown holds nothing of a response:
    its bytes are those of the listed item, it has no text, no sections and no
    attachments, and its only resource is marked as not retained and without
    rights. *)
Theorem metadata_detail_withholds `{LegalCodecs} `{DetailJson} item raw retrieved_at detail :
  metadata_detail item raw retrieved_at false = Ok detail ->
  item_json item = Some (pd_raw detail) /\ pd_additional_evidence detail = [] /\ pd_source_observations detail = []
  /\ lr_body (pd_record detail) = [] /\ lr_sections (pd_record detail) = []
  /\ lr_object (pd_record detail) = ii_object item /\ lr_revision_id (pd_record detail) = ii_revision_id item
  /\ record_validate (pd_record detail) = Ok tt
  /\ exists text, lr_metadata (pd_record detail) !! u "original_resources" = Some text
       /\ resources_json [metadata_resource item false] = Some text
       /\ can_store (res_rights (metadata_resource item false)) = false
       /\ res_retained (metadata_resource item false) = false.
Proof.
  unfold metadata_detail. destruct (validate_for_detail item); [|done].
  destruct (resources_json _) as [text|] eqn:Er; [|done]. cbn [ok_or].
  set (record := {| lr_object := _ |}). destruct (record_validate record) as [[]|] eqn:Ev; [|done].
  destruct (item_json item) as [bytes_|] eqn:Ei; [|done]. intros [= <-]. cbn. split_and!; try done.
  exists text. split_and!; [|done|done|done]. #[local] Transparent u.
  rewrite lookup_insert_ne by (vm_compute; discriminate). apply lookup_insert_eq.
Qed.

(** * A law with two annexes, one of them licensed *)

Definition text_leaf (name value : string) : DocumentNode := Element (u name) [] [Text (u value)].

Definition download_url (value : str) : Url :=
  {| url_scheme := u "https"; url_host := Some (u "www.law.go.kr"); url_username := []; url_password := None;
     url_path := u "/LSW/flDownload.do"; url_query := Some value; url_fragment := None;
     url_query_pairs := [(u "flSeq", value)] |}.

Definition sample_links : LinkUrls :=
  {| join_link value := Some {| lk_url := download_url value; lk_port := Some 443; lk_text := value |} |}.

Definition sample_annexes : DocumentNode :=
  Element (u "법령") [] [
    text_leaf "공공누리유형" "1";
    Element (u "별표") [] [text_leaf "별표서식PDF파일링크" "10"];
    Element (u "별표") [] [
      text_leaf "공공누리유형" "1"; text_leaf "이용허락근거URL" "https://www.kogl.or.kr/";
      text_leaf "출처표시" "Ministry"; text_leaf "별표서식PDF파일링크" "11"];
    Element (u "별표") [] [text_leaf "별표서식PDF파일링크" "10"]].

Definition sample_evidence : LegalCodecs :=
  {| url_parse value := Some {| url_scheme := u "https"; url_host := Some (u "www.kogl.or.kr"); url_username := [];
       url_password := None; url_path := u "/"; url_query := None; url_fragment := None; url_query_pairs := [] |};
     parse_resources _ := None |}.

Lemma attachment_links_spec_witness :
  exists links, @attachment_links sample_evidence sample_links Some sample_annexes = Ok links
    /\ (basis ∘ al_rights) <$> links = [[]; u "KOGL-1"]
    /\ Forall (@listed sample_evidence sample_links Some sample_annexes) links.
Proof.
  destruct (@attachment_links sample_evidence sample_links Some sample_annexes) as [links|e] eqn:E.
  - exists links. split; [reflexivity|]. split; [vm_compute in E; injection E as <-; vm_compute; reflexivity|].
    apply (@attachment_links_spec sample_evidence sample_links Some sample_annexes links E).
  - exfalso. vm_compute in E. discriminate E.
Defined.
