(* ===== verification/ProviderFetch.v ===== *)
(** One fetch of the provider client, [crates/adapters/src/law_go_kr.rs]: the
    destination, the addresses, the response and its bytes, the guards in front
    of archive and processor, and the suspension of the client.  Admission to the
    provider, kept in PostgreSQL, is an outcome of the attempt. *)

From S2P Require Import Prelude Utf8 Strings Slices Legal InForce Citation Document Catalogue ProviderTree Projection Redaction Attachments HttpUpstream ProviderResponse.

(** * Clients and attempts *)

Record LawClient := {
  lc_credential : str;
  (** there is a shared request budget *)
  lc_budget : bool;
  (** primary responses are archived *)
  lc_source_archive : bool;
}.

(** [LawClient::new] *)
Definition credential_invalid (credential : str) : bool :=
  str_eqb credential [] || (256 <? slen credential) || existsb is_control credential.

Definition new_client (credential : str) (resolver : bool) : result DatabaseError LawClient :=
  if credential_invalid credential then Err InvalidInput
  else if negb resolver then Err StorageUnavailable
  else Ok {| lc_credential := credential; lc_budget := false; lc_source_archive := false |}.

(** What happens around one attempt. *)
Record FetchAttempt := {
  fa_cancelled : bool;
  (** ticket, permit, spacing and reservation *)
  fa_admitted : result DatabaseError unit;
  (** cancellation, the dispatch deadline, or a refused dispatch during the
      exchange *)
  fa_interrupted : option DatabaseError;
  (** the resolver's answer; [None] is a failed lookup *)
  fa_lookup : option (list IpAddr);
  fa_client : bool;
  fa_response : option Response;
  (** [httpdate::parse_http_date], as seconds from the response on *)
  fa_date_from_now : str -> option Z;
  (** the ledger's answers: pausing after Retry-After (or what interrupts the
      write), settling, suspending *)
  fa_paused : result DatabaseError unit;
  fa_settled : result DatabaseError unit;
  fa_suspended : result DatabaseError unit;
  (** the reservation is still active when the exchange fails *)
  fa_active : bool;
  fa_retrieved_at : Z;
  fa_archived : result DatabaseError unit;
  fa_processed : DocumentInput -> result DocumentError DocumentOutput;
}.

Inductive FetchedDocument (T : Type) :=
| Processed (value : T)
| Original (raw : list byte) (retrieved_at : Z)
| UnexpectedAttachment (raw : list byte) (html : bool) (reason : str).
Arguments Processed {T} value.
Arguments Original {T} raw retrieved_at.
Arguments UnexpectedAttachment {T} raw html reason.

(** The outcome of a fetch: its result, what the check captured, what was
    archived, and whether the client was suspended. *)
Record Fetch (T S : Type) := {
  ft_result : result DatabaseError (FetchedDocument T);
  ft_state : S;
  ft_archived : list SourceObservationInput;
  ft_suspended : bool;
}.
Arguments ft_result {T S} f.
Arguments ft_state {T S} f.
Arguments ft_archived {T S} f.
Arguments ft_suspended {T S} f.

(** * The exchange *)

Definition provider_paths : list str :=
  fields ["/DRF/lawService.do"; "/DRF/lawSearch.do"; "/LSW/flDownload.do"]%string.

(** A host of the provider's name is no literal address. *)
Definition refused_destination (link : Link) : bool :=
  let url := lk_url link in
  negb (str_eqb (url_scheme url) (u "https")) || negb (bool_decide (lk_port link = Some 443))
  || negb (provider_host url) || negb (str_eqb (url_username url) [])
  || is_some (url_password url) || is_some (url_fragment url)
  || negb (has_name provider_paths (url_path url)).

(** The loop over the resolver's answers. *)
Fixpoint provider_addresses (ips checked : list IpAddr) : result DatabaseError (list IpAddr) :=
  match ips with
  | [] => Ok checked
  | ip :: ips =>
    if negb (public_address ip) || (16 <=? zlen checked) then Err InvalidInput
    else provider_addresses ips (checked ++ [ip])
  end.

Definition html_content (response : Response) : bool :=
  opt_test (fun value => starts_with (u "text/html") (to_ascii_lowercase <$> value)) (rs_content_type response).

(** The limit of a body. *)
Definition body_limit (format : DocumentFormat) (remaining : option Z) (html : bool) : Z :=
  let max :=
    if bool_decide (format = Xml) || bool_decide (format = Html) || (is_some remaining && html)
    then 16 * 1024 * 1024 else 100 * 1024 * 1024 in
  Z.min max (default usize_max remaining).

Fixpoint provider_body (max : Z) (chunks : list (option (list byte))) (raw : list byte)
  : result DatabaseError (list byte) :=
  match chunks with
  | [] => Ok raw
  | None :: _ => Err SourceDownloadFailed
  | Some chunk :: chunks =>
    if max <? saturating_add (zlen raw) (zlen chunk) then Err SourceDataInvalid
    else provider_body max chunks (raw ++ chunk)
  end.

(** Seven days *)
Definition MAX_PAUSE : Z := 7 * 86400.

(** The delay of a Retry-After, a minute when there is none *)
Definition pause_delay (attempt : FetchAttempt) (response : Response) : Z :=
  Z.max (default 60 (rs_retry_after response ≫= retry_after_at (fa_date_from_now attempt))) 1.

(** [pause_provider_requests]: its result, and the flag [operator_suspended] behind it.
    The flag is set before the ledger is written and taken back only behind a pause of
    at most seven days that was written. The wait before the next request is part of
    the admission of that request. *)
Definition pause_provider_requests (attempt : FetchAttempt) (delay : Z) : result DatabaseError unit * bool :=
  match fa_paused attempt with
  | Err error => (Err error, true)
  | Ok _ => (Ok tt, MAX_PAUSE <? delay)
  end.

Definition throttling (response : Response) : bool :=
  (rs_status response =? 429) || (rs_status response =? 503).

(** The response to a sent request: its body and whether it is called HTML; and the
    flag [operator_suspended] behind it, which was not set when the request was
    reserved. *)
Definition receive (client : LawClient) (attempt : FetchAttempt) (format : DocumentFormat)
  (remaining : option Z) (response : Response) : result DatabaseError (list byte * bool) * bool :=
  if throttling response then
    let '(paused, suspended) := pause_provider_requests attempt (pause_delay attempt response) in
    (match paused with
     | Err error => Err error
     | Ok _ => Err (if lc_budget client then BudgetExhausted else Legal.Capacity)
     end, suspended)
  else
    (match http_status_error (rs_status response) with
     | Some error => Err error
     | None =>
       if opt_test (fun v => negb (str_eqb v (u "identity"))) (rs_content_encoding response)
       then Err SourceDataInvalid
       else
         let html := html_content response in
         let max := body_limit format remaining html in
         if opt_test (fun n => max <? n) (rs_content_length response) then Err SourceDataInvalid
         else
           let? raw := provider_body max (rs_chunks response) [] in
           Ok (raw, html)
     end, false).

(** The addresses a request is sent to, and the client it is sent with *)
Definition connected (attempt : FetchAttempt) : result DatabaseError Response :=
  match fa_interrupted attempt with
  | Some error => Err error
  | None =>
    let? ips := ok_or (fa_lookup attempt) SourceDownloadFailed in
    let? addresses := provider_addresses ips [] in
    if bool_decide (addresses = []) then Err SourceDownloadFailed
    else if negb (fa_client attempt) then Err StorageUnavailable
    else ok_or (fa_response attempt) SourceDownloadFailed
  end.

Definition exchange (client : LawClient) (attempt : FetchAttempt) (format : DocumentFormat)
  (remaining : option Z) : result DatabaseError (list byte * bool) * bool :=
  match connected attempt with
  | Err error => (Err error, false)
  | Ok response => receive client attempt format remaining response
  end.

(** [settle_fetch]: the result, and the flag [operator_suspended] behind it. A
    reservation is settled behind a failure unless the flag is set. *)
Definition settle_fetch {A} (attempt : FetchAttempt) (fetched : result DatabaseError A) (suspended : bool)
  : result DatabaseError A * bool :=
  match fetched with
  | Ok value => (match fa_settled attempt with Ok _ => Ok value | Err e => Err e end, suspended)
  | Err ((SourceRejected | SourceUnauthorized) as error) =>
    (match fa_suspended attempt with Ok _ => Err error | Err e => Err e end, true)
  | Err ((Legal.Cancelled | StorageUnavailable) as error) => (Err error, suspended)
  | Err error =>
    (if negb suspended && fa_active attempt then
       match fa_settled attempt with Ok _ => Err error | Err e => Err e end
     else Err error, suspended)
  end.

(** * Archive and processing *)

Section fetch.
Context `{FormUrlencoded} `{LinkUrls} `{Unicode} `{LegalCodecs}.
Context (with_query : Link -> list (str * str) -> str) (sha256_hex : list byte -> str).
Context {T S : Type} (check : S -> DocumentOutput -> list byte -> Z -> result DatabaseError T * S).

(** [suspend_owned_response] and the error behind it *)
Definition suspend_with (attempt : FetchAttempt) (error : DatabaseError) (archived : list SourceObservationInput)
  (s : S) : Fetch T S :=
  {| ft_result := match fa_suspended attempt with Ok _ => Err error | Err e => Err e end;
     ft_state := s; ft_archived := archived; ft_suspended := true |}.

Definition failed (error : DatabaseError) (archived : list SourceObservationInput) (s : S) : Fetch T S :=
  {| ft_result := Err error; ft_state := s; ft_archived := archived; ft_suspended := false |}.

Definition fetched (document : FetchedDocument T) (archived : list SourceObservationInput) (s : S) : Fetch T S :=
  {| ft_result := Ok document; ft_state := s; ft_archived := archived; ft_suspended := false |}.

(** The observation of a response that is archived. *)
Definition observed (client : LawClient) (link : Link) (format : DocumentFormat) (remaining : option Z)
  (html : bool) (raw : list byte) (retrieved_at : Z) : option SourceObservationInput :=
  if lc_source_archive client && negb (is_some remaining)
  then primary_source_observation with_query sha256_hex link (if html then Html else format) raw retrieved_at
  else None.

(** [diagnostics.truncate(63)] and [push] *)
Definition mark_redacted (output : DocumentOutput) : DocumentOutput :=
  {| do_source_sha256 := do_source_sha256 output; do_processor_version := do_processor_version output;
     do_format := do_format output; do_tree := do_tree output; do_text := do_text output;
     do_pages := do_pages output; do_ocr_pages := do_ocr_pages output;
     do_diagnostics := take 63 (do_diagnostics output) ++ [u "provider_credential_redacted"] |}.

Definition document_input (format : DocumentFormat) (raw : list byte) (ocr : bool) : DocumentInput :=
  {| di_format := format; di_raw := raw; di_source_sha256 := sha256_hex raw; di_ocr := ocr |}.

(** From the processor to the result. *)
Definition processed (attempt : FetchAttempt) (format : DocumentFormat) (ocr : bool) (remaining : option Z)
  (raw : list byte) (credentials_redacted : bool) (archived : list SourceObservationInput) (s : S) : Fetch T S :=
  let '(output, s) :=
    match fa_processed attempt (document_input format raw ocr) with
    | Err e => (Err (document_error e), s)
    | Ok output =>
      let output := if credentials_redacted then mark_redacted output else output in
      match check s output raw (fa_retrieved_at attempt) with
      | (Ok value, s) => (Ok value, s)
      | (Err StorageCorrupt, s) => (Err SourceDataInvalid, s)
      | (Err error, s) => (Err error, s)
      end
    end in
  match output with
  | Ok value => fetched (Processed value) archived s
  | Err SourceDataInvalid =>
    if is_some remaining then fetched (UnexpectedAttachment raw false (u "document_invalid")) archived s
    else failed SourceDataInvalid archived s
  | Err ((SourceRejected | SourceUnauthorized) as error) => suspend_with attempt error archived s
  | Err error => failed error archived s
  end.

(** After the exchange is settled. *)
Definition accept_response (client : LawClient) (link : Link) (format : DocumentFormat) (ocr : bool)
  (remaining : option Z) (process : bool) (attempt : FetchAttempt) (raw : list byte) (html : bool) (s : S)
  : result (stop DatabaseError) (Fetch T S) :=
  let? error := provider_response_error raw in
  match error with
  | Some SourceUnauthorized => Ok (suspend_with attempt SourceUnauthorized [] s)
  | Some error => Ok (failed error [] s)
  | None =>
    let actual_format := if html || looks_like_html raw then Html else format in
    match redact_transport_credentials raw (lc_credential client) actual_format with
    | Err (Error error) => Ok (failed error [] s)
    | Err Panic => Err Panic
    | Err OutOfFuel => Err OutOfFuel
    | Ok (raw, credentials_redacted) =>
      let observation := observed client link format remaining html raw (fa_retrieved_at attempt) in
      match observation, fa_archived attempt with
      | Some _, Err error => Ok (failed error [] s)
      | _, _ =>
        let archived := option_list observation in
        let unexpected := is_some remaining && negb (expected_document_magic raw format) in
        Ok (if negb process then
              if unexpected then failed SourceDataInvalid archived s
              else fetched (Original raw (fa_retrieved_at attempt)) archived s
            else if unexpected then
              fetched (UnexpectedAttachment raw (html || looks_like_html raw) (u "unexpected_attachment_format"))
                archived s
            else processed attempt format ocr remaining raw credentials_redacted archived s)
      end
    end
  end.

Definition fetch_parse_timed_checked_inner (client : LawClient) (link : Link) (format : DocumentFormat)
  (ocr : bool) (remaining : option Z) (process : bool) (attempt : FetchAttempt) (s : S)
  : result (stop DatabaseError) (Fetch T S) :=
  if refused_destination link then Ok (failed InvalidInput [] s)
  else if fa_cancelled attempt then Ok (failed Legal.Cancelled [] s)
  else
    match fa_admitted attempt with
    | Err error => Ok (failed error [] s)
    | Ok _ =>
      let '(received, suspended) := exchange client attempt format remaining in
      match settle_fetch attempt received suspended with
      | (Err error, suspended) =>
        Ok {| ft_result := Err error; ft_state := s; ft_archived := []; ft_suspended := suspended |}
      | (Ok (raw, html), _) => accept_response client link format ocr remaining process attempt raw html s
      end
    end.

(** The three entries: the caller of the first two expects one kind of document. *)
Definition fetch_parse_timed_checked (client : LawClient) (link : Link) (format : DocumentFormat) (ocr : bool)
  (attempt : FetchAttempt) (s : S) : result (stop DatabaseError) (result DatabaseError T * Fetch T S) :=
  let? f := fetch_parse_timed_checked_inner client link format ocr None true attempt s in
  Ok (match ft_result f with
      | Ok (Processed value) => Ok value
      | Ok _ => Err StorageCorrupt
      | Err error => Err error
      end, f).

Definition fetch_original (client : LawClient) (link : Link) (format : DocumentFormat) (remaining : option Z)
  (attempt : FetchAttempt) (s : S) : result (stop DatabaseError) (result DatabaseError (list byte * Z) * Fetch T S) :=
  let? f := fetch_parse_timed_checked_inner client link format false remaining false attempt s in
  Ok (match ft_result f with
      | Ok (Original raw retrieved_at) => Ok (raw, retrieved_at)
      | Ok _ => Err StorageCorrupt
      | Err error => Err error
      end, f).

Definition fetch_attachment_timed_checked (client : LawClient) (link : Link) (format : DocumentFormat)
  (remaining : Z) (attempt : FetchAttempt) (s : S) : result (stop DatabaseError) (Fetch T S) :=
  fetch_parse_timed_checked_inner client link format true (Some remaining) true attempt s.
End fetch.
