(* ===== verification/ProviderFetchFacts.v ===== *)
(** What a fetch promises: nothing it returns or archives holds the credential,
    is an error envelope of the provider, or comes from elsewhere than a public
    address; and a refusal of the provider suspends the client. *)

From S2P Require Import Prelude Utf8 Strings Legal Citation CitationFacts InForce Slices Document Catalogue ProviderTree Projection HttpUpstream ProviderResponse Redaction RedactionFacts Attachments AttachmentsFacts ProviderFetch.

#[local] Opaque u.

(** * Addresses and bodies *)

Definition public (ip : IpAddr) : Prop := public_address ip = true.

Lemma provider_addresses_spec ips : forall checked addrs,
  zlen checked <= 16 -> Forall public checked ->
  provider_addresses ips checked = Ok addrs ->
  addrs = checked ++ ips /\ zlen addrs <= 16 /\ Forall public addrs.
Proof.
  induction ips as [|ip ips IH]; intros checked addrs Hl Hf; cbn [provider_addresses].
  { intros [= <-]. rewrite app_nil_r. by split_and!. }
  destruct (negb (public_address ip) || (16 <=? zlen checked)) eqn:E; [done|].
  apply orb_false_iff in E as [Hp Hz]. apply negb_false_iff in Hp. intros Hc.
  apply IH in Hc as (-> & ? & ?).
  - split_and!; [by rewrite <- app_assoc|done..].
  - rewrite zlen_app. change (zlen [ip]) with 1. lia.
  - apply Forall_app. split; [done|]. constructor; [done|constructor].
Qed.

Lemma provider_body_spec max chunks : forall raw body,
  zlen raw <= max -> max < usize_max -> provider_body max chunks raw = Ok body ->
  zlen body <= max /\ Some body = (fun parts => raw ++ List.concat parts) <$> mapM id chunks.
Proof.
  induction chunks as [|[chunk|] chunks IH]; intros raw body Hl Hm; cbn [provider_body]; [| |done].
  - intros [= <-]. split; [done|]. cbn. by rewrite app_nil_r.
  - destruct (Z.ltb_spec max (saturating_add (zlen raw) (zlen chunk))) as [|Hs]; [done|].
    intros Hb. apply IH in Hb as [? Hb]; [| |done].
    + split; [done|]. rewrite Hb. cbn. destruct (mapM id chunks); cbn; [|done]. by rewrite app_assoc.
    + rewrite zlen_app. unfold saturating_add in Hs. lia.
Qed.

Lemma body_limit_bounds format remaining html :
  body_limit format remaining html <= 100 * 1024 * 1024
  /\ forall n, remaining = Some n -> body_limit format remaining html <= n.
Proof.
  unfold body_limit. destruct (_ || _); split; try (intros n ->; cbn); lia.
Qed.

(** * Errors of the redaction *)

(** The only error is the one of unusable data. *)
Definition data_errors {A} (r : result (stop DatabaseError) A) : Prop :=
  forall e, r = Err (Error e) -> e = SourceDataInvalid.

Lemma data_errors_ok {A} (a : A) : data_errors (Ok a).
Proof. done. Qed.
Lemma data_errors_err {A} : data_errors (@Err _ A (Error SourceDataInvalid)).
Proof. by intros e [= <-]. Qed.
Lemma data_errors_panic {A} : data_errors (@Err _ A Panic).
Proof. done. Qed.
Lemma data_errors_fuel {A} : data_errors (@Err _ A OutOfFuel).
Proof. done. Qed.
Lemma data_errors_bind {A B} (r : result (stop DatabaseError) A) (f : A -> result (stop DatabaseError) B) :
  data_errors r -> (forall a, data_errors (f a)) -> data_errors (match r with Ok a => f a | Err e => Err e end).
Proof. intros Hr Hf. destruct r as [a|s]; [apply Hf|]. intros e [= ->]. by apply Hr. Qed.
Lemma data_errors_slice x a b : data_errors (slice x a b).
Proof. unfold slice. by destruct (str_range x a b). Qed.
Lemma data_errors_byte_slice x a b : data_errors (byte_slice x a b).
Proof. unfold byte_slice. by destruct (_ && _). Qed.

Create HintDb data_errors.
#[local] Hint Resolve data_errors_ok data_errors_err data_errors_panic data_errors_fuel data_errors_slice
  data_errors_byte_slice : data_errors.

Ltac data_errors :=
  repeat first
    [ progress intros
    | solve [auto with data_errors]
    | apply data_errors_bind; [|intros ?]
    | match goal with |- data_errors (match ?x with _ => _ end) => destruct x end ].

Section errors.
Context `{FormLaws} `{LinkUrls} `{Unicode}.

Lemma reflected_errors raw credential : data_errors (reflected_credential raw credential).
Proof. destruct (reflected_spec raw credential) as (b & -> & _). apply data_errors_ok. Qed.

Lemma url_ranges_errors value offset credential cdata :
  data_errors (credential_url_ranges value offset credential cdata).
Proof.
  unfold credential_url_ranges. destruct (_ || _).
  { apply data_errors_bind; [apply reflected_errors|data_errors]. }
  destruct (split_once _ value) as [[before query]|]; [|data_errors].
  destruct (query_ranges_spec (length query) credential cdata query (offset + slen before + 1)) as (rs & -> & _); [lia|].
  data_errors.
Qed.

Lemma closed_ranges_errors xml credential stack name text_start start :
  data_errors (closed_ranges xml credential stack name text_start start).
Proof.
  unfold closed_ranges. apply data_errors_bind; [data_errors|]. intros original.
  apply data_errors_bind; [data_errors|]. intros value. destruct (contains_char _ value); [data_errors|].
  apply data_errors_bind; [apply url_ranges_errors|]. data_errors.
Qed.

Lemma link_scan_errors fuel xml credential : forall rest cursor stack tags patches,
  data_errors (link_scan fuel xml credential rest cursor stack tags patches).
Proof.
  induction fuel as [|fuel IH]; intros rest cursor stack tags patches; cbn [link_scan]; [data_errors|].
  destruct (split_once _ rest) as [[before after]|]; [|data_errors].
  destruct (skipped_markup _) as [[prefix terminator]|].
  { destruct (split_once terminator _) as [[inside r]|]; [apply IH|data_errors]. }
  destruct (starts_with _ _); [data_errors|]. destruct (tag_end None after) as [[content r]|]; [|data_errors].
  cbn [ok_or]. destruct (bad_tag_name _); [data_errors|]. destruct (100000 <? _); [data_errors|].
  destruct (starts_with _ content).
  - destruct stack as [|[opened text_start] stack]; [data_errors|]. destruct (_ || _); [data_errors|].
    apply data_errors_bind; [apply closed_ranges_errors|]. intros candidate. apply IH.
  - destruct (negb _); [|apply IH]. destruct (64 <? _); [data_errors|apply IH].
Qed.

Lemma replace_ranges_errors raw ranges : forall cursor output,
  data_errors (replace_ranges raw ranges cursor output).
Proof.
  induction ranges as [|[start end_] ranges IH]; intros cursor output; cbn [replace_ranges];
    (apply data_errors_bind; [by destruct (checked_sub _ _)|]; intros gap;
     destruct (MAX_DOCUMENT_BYTES <? _); [data_errors|]; apply data_errors_bind; [data_errors|]; intros kept);
    [data_errors|apply IH].
Qed.

Lemma redaction_errors raw credential format : data_errors (redact_transport_credentials raw credential format).
Proof.
  unfold redact_transport_credentials. destruct (negb _).
  - destruct (html_auth_total raw format) as [auth ->]. apply data_errors_bind; [apply reflected_errors|data_errors].
  - destruct (from_utf8 raw) as [text|]; [|data_errors]. cbn [ok_or].
    apply data_errors_bind.
    { unfold credential_link_ranges. apply data_errors_bind; [apply link_scan_errors|data_errors]. }
    intros ranges. apply data_errors_bind; [apply replace_ranges_errors|]. intros output.
    apply data_errors_bind; [apply reflected_errors|]. intros residual. destruct residual; [data_errors|].
    apply data_errors_bind; [|data_errors].
    destruct (from_utf8 output) as [t|]; [|data_errors]. unfold privacy_view.
    destruct (privacy_view_total (S (length t)) t) as [v ->]; [lia|]. apply reflected_errors.
Qed.
End errors.

(** * The exchange *)

Section fetch.
Context `{FormLaws} `{LinkUrls} `{Unicode} `{LegalCodecs}.
Context (with_query : Link -> list (str * str) -> str) (sha256_hex : list byte -> str).

(** The bytes of a whole, successful response from public addresses. *)
Record downloaded (attempt : FetchAttempt) (format : DocumentFormat) (remaining : option Z)
  (bytes_ : list byte) (html : bool) : Prop := {
  dd_addresses : exists addrs, fa_lookup attempt = Some addrs /\ addrs <> [] /\ zlen addrs <= 16
    /\ Forall global_address addrs;
  dd_response : exists response body, fa_response attempt = Some response
    /\ http_status_error (rs_status response) = None
    /\ mapM id (rs_chunks response) = Some body /\ bytes_ = List.concat body
    /\ html = html_content response;
  dd_size : zlen bytes_ <= 100 * 1024 * 1024 /\ forall n, remaining = Some n -> zlen bytes_ <= n;
}.

Lemma exchange_spec client attempt format remaining bytes_ html :
  (forall n, remaining = Some n -> 0 <= n) ->
  (exchange client attempt format remaining).1 = Ok (bytes_, html) ->
  downloaded attempt format remaining bytes_ html.
Proof.
  intros Hn. unfold exchange, connected. destruct (fa_interrupted attempt); [done|].
  destruct (fa_lookup attempt) as [ips|] eqn:El; [|done]. cbn [ok_or].
  destruct (provider_addresses ips []) as [addrs|] eqn:Ea; [|done].
  apply provider_addresses_spec in Ea as (Ha & Hl & Hf); [|done|constructor]. cbn [app] in Ha. subst addrs.
  destruct (bool_decide_reflect (ips = [])) as [|Hne]; [done|].
  destruct (fa_client attempt); [|done]. cbn [negb].
  destruct (fa_response attempt) as [response|] eqn:Er; [|done]. cbn [ok_or]. unfold receive, pause_provider_requests.
  destruct (throttling response); [by destruct (fa_paused attempt)|]. cbn [fst].
  destruct (http_status_error _) eqn:Es; [done|]. destruct (opt_test _ _); [done|].
  destruct (opt_test _ _); [done|].
  destruct (provider_body _ _ _) as [raw|] eqn:Eb; [|done]. intros [= <- <-].
  destruct (body_limit_bounds format remaining (html_content response)) as [Hmax Hrem].
  apply provider_body_spec in Eb as [Hz Hb].
  - destruct (mapM id (rs_chunks response)) as [body|] eqn:Em; [|done]. injection Hb as ->.
    constructor; [exists ips; split_and!; try done; by eapply Forall_impl; [|apply public_global]|by exists response, body|]. split; [lia|]. intros n Hr. specialize (Hrem n Hr). lia.
  - change (zlen []) with 0. unfold body_limit. destruct (_ || _), remaining as [n|]; cbn;
      try (specialize (Hn n eq_refl)); unfold usize_max; lia.
  - unfold usize_max. lia.
Qed.

(** * What is handed on *)

(** The bytes a fetch hands on: the download, freed of the credential, which is
    not an error envelope. *)
Definition delivered (client : LawClient) (attempt : FetchAttempt) (format : DocumentFormat)
  (remaining : option Z) (raw : list byte) (marked : bool) : Prop :=
  exists bytes_ html,
    downloaded attempt format remaining bytes_ html
    /\ provider_response_error bytes_ = Ok None
    /\ redacted bytes_ (lc_credential client) (if html || looks_like_html bytes_ then Html else format) raw marked.

Lemma delivered_free client attempt format remaining raw marked :
  delivered client attempt format remaining raw marked -> free_of (lc_credential client) raw.
Proof. intros (bytes_ & html & _ & _ & Hr). apply Hr. Qed.

Context {T S : Type} (check : S -> DocumentOutput -> list byte -> Z -> result DatabaseError T * S).

Definition unaccepted (s s' : S) : Prop :=
  s' = s \/ exists output raw at_ e, check s output raw at_ = (Err e, s').

Lemma unchecked s : unaccepted s s.
Proof. by left. Qed.

(** The outcome of a fetch that began in the state [s]. *)
Record fetch_ok (client : LawClient) (link : Link) (format : DocumentFormat) (ocr : bool)
  (remaining : option Z) (process : bool) (attempt : FetchAttempt) (s : S) (f : Fetch T S) : Prop := {
  fo_destination : refused_destination link = true -> ft_result f = Err InvalidInput;
  (** the three kinds of document *)
  fo_result : match ft_result f with
    | Ok (Original raw _) => process = false /\ ft_state f = s
        /\ exists marked, delivered client attempt format remaining raw marked
        /\ (is_some remaining = true -> expected_document_magic raw format = true)
    | Ok (UnexpectedAttachment raw _ _) => process = true /\ is_some remaining = true
        /\ exists marked, delivered client attempt format remaining raw marked
    | Ok (Processed value) => process = true
        /\ exists raw marked output,
             delivered client attempt format remaining raw marked
             /\ (is_some remaining = true -> expected_document_magic raw format = true)
             /\ fa_processed attempt (document_input sha256_hex format raw ocr) = Ok output
             /\ check s (if marked : bool then mark_redacted output else output) raw (fa_retrieved_at attempt)
                = (Ok value, ft_state f)
    | Err _ => True
    end;
  (** what is archived is what is handed on *)
  fo_archived : Forall (fun observation => remaining = None /\ lc_source_archive client = true
      /\ exists raw marked, delivered client attempt format remaining raw marked
           /\ (so_raw observation = Some raw \/ so_raw observation = None)) (ft_archived f);
  (** a state that is not the check's result is what a failed check left, or the
      first one, as it is before an answer in HTML is read again *)
  fo_state : match ft_result f with Ok (Processed _) => True | _ => unaccepted s (ft_state f) end;
  fo_reread : match ft_result f with Ok (UnexpectedAttachment _ true _) => ft_state f = s | _ => True end;
}.

Lemma failed_ok client link format ocr remaining process attempt s error archived s' :
  refused_destination link = false -> unaccepted s s' ->
  Forall (fun observation => remaining = None /\ lc_source_archive client = true
      /\ exists raw marked, delivered client attempt format remaining raw marked
           /\ (so_raw observation = Some raw \/ so_raw observation = None)) archived ->
  forall suspended, fetch_ok client link format ocr remaining process attempt s
    {| ft_result := Err error; ft_state := s'; ft_archived := archived; ft_suspended := suspended |}.
Proof. intros Hd Hs Ha suspended. by constructor; cbn [ft_result ft_archived ft_state]; [congruence|..]. Qed.

Lemma observation_raw link format raw at_ o :
  primary_source_observation with_query sha256_hex link format raw at_ = Some o ->
  so_raw o = Some raw \/ so_raw o = None.
Proof.
  unfold primary_source_observation. destruct (unobserved link format); [done|].
  destruct (only_target _); [|done]. cbn [mbind option_bind].
  destruct (List.find _ SOURCE_FAMILIES) as [family|]; [|done]. cbn [mbind option_bind].
  destruct (if str_eqb _ _ then _ else _); [|done]. cbn [mbind option_bind].
  destruct (negb _ || _); [done|]. intros [= <-]. cbn. destruct (sf_metadata_only family); [by right|by left].
Qed.

Lemma processed_ok client link format ocr remaining attempt s raw marked archived :
  refused_destination link = false ->
  delivered client attempt format remaining raw marked ->
  (is_some remaining = true -> expected_document_magic raw format = true) ->
  Forall (fun observation => remaining = None /\ lc_source_archive client = true
      /\ exists raw marked, delivered client attempt format remaining raw marked
           /\ (so_raw observation = Some raw \/ so_raw observation = None)) archived ->
  fetch_ok client link format ocr remaining true attempt s
    (processed sha256_hex check attempt format ocr remaining raw marked archived s).
Proof.
  intros Hd Hdel Hmagic Ha. unfold processed.
  assert (Hfail : forall e s', unaccepted s s' -> fetch_ok client link format ocr remaining true attempt s
    match @Err DatabaseError T e with
    | Ok value => fetched (Processed value) archived s'
    | Err SourceDataInvalid =>
      if is_some remaining then fetched (UnexpectedAttachment raw false (u "document_invalid")) archived s'
      else failed SourceDataInvalid archived s'
    | Err ((SourceRejected | SourceUnauthorized) as error) => suspend_with attempt error archived s'
    | Err error => failed error archived s'
    end).
  { intros e s' Hs. destruct e; unfold suspend_with, failed; try (by apply failed_ok);
      try (by destruct (fa_suspended attempt); apply failed_ok).
    destruct (is_some remaining) eqn:Er; [|by apply failed_ok].
    constructor; cbn; [congruence| |done|done|done]. split_and!; [done|done|by exists marked]. }
  destruct (fa_processed attempt _) as [output|e] eqn:Ep; [|by apply Hfail, unchecked].
  destruct (check s _ raw (fa_retrieved_at attempt)) as [[value|e] s'] eqn:Ec.
  - constructor; cbn; [congruence| |done|done|done]. split; [done|]. by exists raw, marked, output.
  - assert (Hs : unaccepted s s') by (right; eauto).
    pose proof (Hfail e s' Hs) as He. pose proof (Hfail SourceDataInvalid s' Hs) as Hc.
    destruct e; first [exact He|exact Hc].
Qed.

Lemma accept_ok client link format ocr remaining process attempt bytes_ html s :
  refused_destination link = false ->
  downloaded attempt format remaining bytes_ html ->
  exists f, accept_response with_query sha256_hex check client link format ocr remaining process attempt bytes_ html s
    = Ok f /\ fetch_ok client link format ocr remaining process attempt s f.
Proof.
  intros Hd Hdl. unfold accept_response.
  destruct (provider_response_total bytes_) as [Ee|[Ee|Ee]]; rewrite Ee.
  2: { eexists. split; [done|]. by apply failed_ok; auto using unchecked. }
  2: { eexists. split; [done|]. unfold suspend_with. destruct (fa_suspended attempt); by apply failed_ok; auto using unchecked. }
  set (actual := if html || looks_like_html bytes_ then Html else format).
  destruct (redaction_accounts bytes_ (lc_credential client) actual) as [Ha Hr]. cbn zeta in *.
  destruct (redact_transport_credentials bytes_ (lc_credential client) actual) as [[raw marked]|e] eqn:Ered.
  2: { destruct e as [e| |]; [|done..]. eexists. split; [done|]. by apply failed_ok; auto using unchecked. }
  specialize (Hr raw marked eq_refl).
  assert (Hdel : delivered client attempt format remaining raw marked) by (by exists bytes_, html).
  set (observation := observed with_query sha256_hex client link format remaining html raw (fa_retrieved_at attempt)).
  assert (Harch : Forall (fun o => remaining = None /\ lc_source_archive client = true
      /\ exists raw marked, delivered client attempt format remaining raw marked
           /\ (so_raw o = Some raw \/ so_raw o = None)) (option_list observation)).
  { destruct observation as [o|] eqn:Eo; [|constructor]. constructor; [|constructor].
    unfold observation, observed in Eo. destruct (lc_source_archive client); [|done].
    destruct remaining; [done|]. cbn in Eo. split_and!; [done|done|]. exists raw, marked. split; [done|].
    by eapply observation_raw. }
  assert (Hrest : fetch_ok client link format ocr remaining process attempt s
    (if negb process then
       if is_some remaining && negb (expected_document_magic raw format)
       then failed SourceDataInvalid (option_list observation) s
       else fetched (Original raw (fa_retrieved_at attempt)) (option_list observation) s
     else if is_some remaining && negb (expected_document_magic raw format) then
       fetched (UnexpectedAttachment raw (html || looks_like_html raw) (u "unexpected_attachment_format"))
         (option_list observation) s
     else processed sha256_hex check attempt format ocr remaining raw marked (option_list observation) s)).
  { destruct (is_some remaining && negb (expected_document_magic raw format)) eqn:Em.
    - apply andb_true_iff in Em as [Em _]. destruct process; cbn [negb]; [|by apply failed_ok; auto using unchecked].
      constructor; cbn; [congruence| |done|by left|by case_match]. split_and!; [done|done|by exists marked].
    - assert (Hm : is_some remaining = true -> expected_document_magic raw format = true).
      { intros Hs. rewrite Hs in Em. cbn in Em. by apply negb_false_iff in Em. }
      destruct process; cbn [negb]; [by apply processed_ok|].
      constructor; cbn; [congruence| |done|by left|done]. split_and!; [done|done|by exists marked]. }
  destruct observation as [o|]; [destruct (fa_archived attempt) as [[]|e]|].
  - eexists. split; [reflexivity|]. exact Hrest.
  - eexists. split; [done|]. by apply failed_ok; auto using unchecked.
  - eexists. split; [reflexivity|]. exact Hrest.
Qed.

Lemma fetch_accounts client link format ocr remaining process attempt s :
  (forall n, remaining = Some n -> 0 <= n) ->
  exists f,
    fetch_parse_timed_checked_inner with_query sha256_hex check client link format ocr remaining process attempt s
    = Ok f
    /\ fetch_ok client link format ocr remaining process attempt s f.
Proof.
  intros Hn. unfold fetch_parse_timed_checked_inner. destruct (refused_destination link) eqn:Ed.
  { eexists. split; [done|]. constructor; cbn; auto using unchecked, Forall_nil_2. }
  destruct (fa_cancelled attempt); [eexists; split; [done|]; by apply failed_ok; auto using unchecked|].
  destruct (fa_admitted attempt) as [[]|e]; [|eexists; split; [done|]; by apply failed_ok; auto using unchecked].
  destruct (exchange client attempt format remaining) as [received suspended] eqn:Ex.
  assert (Ee : (exchange client attempt format remaining).1 = received) by (by rewrite Ex).
  destruct received as [[bytes_ html]|e].
  - apply (exchange_spec client) in Ee; [|done]. cbn [settle_fetch]. destruct (fa_settled attempt) as [[]|e].
    + by apply accept_ok.
    + eexists. split; [done|]. by apply failed_ok; auto using unchecked.
  - destruct (settle_fetch attempt _ _) as [[|error] flag] eqn:Es.
    + exfalso. revert Es. unfold settle_fetch. by repeat case_match.
    + eexists. split; [done|]. by apply failed_ok; auto using unchecked.
Qed.

(** C22. A fetch always answers.  It asks nothing but the three registered routes of
    the provider; what it hands on or archives is the body of a whole successful
    response from public addresses, within the size it was allowed, which is not
    an error envelope and holds no form of the credential; an attachment is
    accepted only with the signature of its format; and a processed document is
    what the check made of the processor's output for exactly these bytes, marked
    when the credential was taken out of them. *)
Theorem fetch_sound client link format ocr remaining process attempt s :
  (forall n, remaining = Some n -> 0 <= n) ->
  exists f,
    fetch_parse_timed_checked_inner with_query sha256_hex check client link format ocr remaining process attempt s
    = Ok f
    /\ fetch_ok client link format ocr remaining process attempt s f.
Proof. apply fetch_accounts. Qed.

(** * Suspension *)

Definition refusal (error : DatabaseError) : bool :=
  match error with SourceRejected | SourceUnauthorized => true | _ => false end.

Definition refused {A} (r : result DatabaseError A) : bool :=
  match r with Err error => refusal error | Ok _ => false end.

(** The ledger and the archive do not answer with a refusal of the provider, and the
    ledger records a suspension. *)
Record quiet (attempt : FetchAttempt) : Prop := {
  qu_admitted : refused (fa_admitted attempt) = false;
  qu_interrupted : opt_test refusal (fa_interrupted attempt) = false;
  qu_settled : refused (fa_settled attempt) = false;
  qu_archived : refused (fa_archived attempt) = false;
  qu_suspended : fa_suspended attempt = Ok tt;
}.

(** The provider answers an admitted request with a pause, and the pause is longer than
    seven days or cannot be recorded. *)
Record pause_holds (link : Link) (attempt : FetchAttempt) : Prop := {
  ph_destination : refused_destination link = false;
  ph_admitted : fa_cancelled attempt = false /\ fa_admitted attempt = Ok tt;
  ph_sent : fa_interrupted attempt = None /\ fa_client attempt = true;
  ph_addresses : exists addrs, fa_lookup attempt = Some addrs /\ addrs <> [] /\ zlen addrs <= 16
    /\ Forall public addrs;
  ph_pause : exists response, fa_response attempt = Some response /\ throttling response = true
    /\ (MAX_PAUSE < pause_delay attempt response \/ fa_paused attempt <> Ok tt);
}.

(** The client is suspended exactly behind a refusal and such a pause. *)
Definition consistent (link : Link) (attempt : FetchAttempt) (f : Fetch T S) : Prop :=
  ft_suspended f = true <-> refused (ft_result f) = true \/ pause_holds link attempt.

Lemma provider_addresses_complete ips : forall checked,
  Forall public ips -> zlen checked + zlen ips <= 16 ->
  provider_addresses ips checked = Ok (checked ++ ips).
Proof.
  induction ips as [|ip ips IH]; intros checked Hf Hl; cbn [provider_addresses]; [by rewrite app_nil_r|].
  apply Forall_cons in Hf as [Hg Hf]. rewrite zlen_cons in Hl. pose proof (zlen_nonneg ips).
  unfold public in Hg. rewrite Hg, (proj2 (Z.leb_gt _ _)) by lia. cbn [negb orb].
  rewrite IH; [by rewrite <- app_assoc|done|]. rewrite zlen_app. change (zlen [ip]) with 1. lia.
Qed.

Lemma exchange_suspends client link attempt format remaining received suspended :
  refused_destination link = false -> fa_cancelled attempt = false -> fa_admitted attempt = Ok tt ->
  exchange client attempt format remaining = (received, suspended) ->
  (suspended = true <-> pause_holds link attempt) /\ (is_ok received = true -> suspended = false).
Proof.
  intros Hd Hc Ha Hx. unfold exchange in Hx.
  destruct (connected attempt) as [response|e] eqn:Ec.
  - assert (Hsent : fa_interrupted attempt = None /\ fa_client attempt = true /\ fa_response attempt = Some response
      /\ exists addrs, fa_lookup attempt = Some addrs /\ addrs <> [] /\ zlen addrs <= 16 /\ Forall public addrs).
    { revert Ec. unfold connected. destruct (fa_interrupted attempt); [done|].
      destruct (fa_lookup attempt) as [ips|]; [|done]. cbn [ok_or].
      destruct (provider_addresses ips []) as [addrs|] eqn:Ea; [|done].
      apply provider_addresses_spec in Ea as (-> & ? & ?); [|done|constructor]. cbn [app].
      destruct (bool_decide_reflect (ips = [])); [done|]. destruct (fa_client attempt); [|done]. cbn [negb].
      destruct (fa_response attempt); [|done]. intros [= ->]. split_and!; [done..|]. by exists ips. }
    destruct Hsent as (Hi & Hcl & Hr & Haddr). unfold receive in Hx.
    assert (Hno : throttling response = false -> ~ pause_holds link attempt).
    { intros Ht [_ _ _ _ (response' & Hr' & Ht' & _)]. congruence. }
    destruct (throttling response) eqn:Et.
    2: { injection Hx as _ <-. split; [|done]. split; [done|]. intros Hp. by destruct (Hno eq_refl Hp). }
    assert (Hp : pause_holds link attempt <-> MAX_PAUSE < pause_delay attempt response \/ fa_paused attempt <> Ok tt).
    { split; [|by constructor; eauto]. intros [_ _ _ _ (response' & Hr' & _ & Hp)].
      assert (response' = response) as -> by congruence. done. }
    unfold pause_provider_requests in Hx. destruct (fa_paused attempt) as [[]|e]; injection Hx as <- <-;
      (split; [|done]); rewrite Hp; [|by split; [right|]].
    rewrite Z.ltb_lt. split; [by left|by intros [?|[]]].
  - injection Hx as <- <-. split; [|done]. split; [done|].
    intros [_ _ [Hi Hcl] (addrs & Hl & Hne & Hz & Hg) (response & Hr & _)]. exfalso. revert Ec.
    unfold connected. rewrite Hi, Hl. cbn [ok_or]. rewrite provider_addresses_complete by done. cbn [app].
    rewrite bool_decide_false by done. by rewrite Hcl, Hr.
Qed.

Lemma settle_consistent {A} attempt (r : result DatabaseError A) flag r' suspended :
  quiet attempt -> (is_ok r = true -> flag = false) -> settle_fetch attempt r flag = (r', suspended) ->
  match r' with Ok _ => suspended = false | Err error => suspended = refusal error || flag end.
Proof.
  intros Hq Hflag. pose proof (qu_settled _ Hq) as Hs. unfold settle_fetch. rewrite (qu_suspended _ Hq).
  destruct r as [a|e].
  - rewrite (Hflag eq_refl).
    destruct (fa_settled attempt) as [|e]; intros [= <- <-]; [done|]. cbn in Hs |- *. by rewrite Hs.
  - clear Hflag. destruct e; try (by intros [= <- <-]);
      destruct flag, (fa_active attempt), (fa_settled attempt) as [[]|e']; cbn [negb andb]; intros [= <- <-];
      try done; cbn in Hs |- *; by rewrite Hs.
Qed.

Section settled.
Context (link : Link) (attempt : FetchAttempt) (Hquiet : quiet attempt) (Hnone : ~ pause_holds link attempt).

Abbreviation settled_by := (consistent link attempt).

Lemma answered_consistent f : ft_suspended f = refused (ft_result f) -> settled_by f.
Proof. intros Hf. unfold consistent. rewrite Hf. tauto. Qed.

Lemma failed_consistent error archived s : refusal error = false -> settled_by (failed (T:=T) error archived s).
Proof. intros He. apply answered_consistent. unfold failed. cbn [ft_suspended ft_result refused]. by rewrite He. Qed.

Lemma suspend_consistent error archived s :
  refusal error = true -> settled_by (suspend_with (T:=T) attempt error archived s).
Proof.
  intros He. apply answered_consistent. unfold suspend_with. rewrite (qu_suspended _ Hquiet). by cbn.
Qed.

Lemma processed_consistent format ocr remaining raw marked archived s :
  settled_by (processed sha256_hex check attempt format ocr remaining raw marked archived s).
Proof.
  unfold processed. destruct (match fa_processed attempt _ with Ok _ => _ | Err _ => _ end) as [[v|e] s'];
    [by apply answered_consistent|].
  destruct e; try (by apply failed_consistent); try (by apply suspend_consistent).
  destruct (is_some remaining); [by apply answered_consistent|by apply failed_consistent].
Qed.

Lemma accept_consistent client format ocr remaining process bytes_ html s f :
  accept_response with_query sha256_hex check client link format ocr remaining process attempt bytes_ html s = Ok f ->
  settled_by f.
Proof.
  unfold accept_response.
  destruct (provider_response_total bytes_) as [Ee|[Ee|Ee]]; rewrite Ee;
    [|by intros [= <-]; apply failed_consistent|by intros [= <-]; apply suspend_consistent].
  pose proof (redaction_errors bytes_ (lc_credential client)
    (if html || looks_like_html bytes_ then Html else format)) as Hr.
  destruct (redact_transport_credentials _ _ _) as [[raw marked]|[e| |]]; [|intros [= <-]|done..].
  2: { rewrite (Hr e eq_refl). by apply failed_consistent. }
  pose proof (qu_archived _ Hquiet) as Hv.
  assert (Hrest : forall archived, settled_by
    (if negb process then
       if is_some remaining && negb (expected_document_magic raw format)
       then failed SourceDataInvalid archived s
       else fetched (Original raw (fa_retrieved_at attempt)) archived s
     else if is_some remaining && negb (expected_document_magic raw format) then
       fetched (UnexpectedAttachment raw (html || looks_like_html raw) (u "unexpected_attachment_format")) archived s
     else processed sha256_hex check attempt format ocr remaining raw marked archived s)).
  { intros archived. destruct process, (is_some remaining && _); cbn [negb]; try (by apply answered_consistent).
    by apply processed_consistent. }
  destruct (observed _ _ _ _ _ _ _ _ _) as [o|]; [destruct (fa_archived attempt) as [[]|e]|]; intros [= <-];
    [by apply Hrest|by apply failed_consistent|by apply Hrest].
Qed.
End settled.

(** C23. The client is suspended exactly when the provider refused or asked for a pause
    of more than seven days: on every path, an attempt that ends in a rejection or in a
    lack of authorization, whether a status, an error envelope or the processing says
    so, stops the client; so does an answer 429 or 503 whose Retry-After, in seconds or
    as a date, is longer than seven days, and one whose pause could not be recorded; and
    nothing else does. *)
Theorem refusal_suspends client link format ocr remaining process attempt s f :
  quiet attempt ->
  fetch_parse_timed_checked_inner with_query sha256_hex check client link format ocr remaining process attempt s
  = Ok f -> consistent link attempt f.
Proof.
  intros Hq. unfold fetch_parse_timed_checked_inner.
  destruct (refused_destination link) eqn:Hd.
  { intros [= <-]. apply failed_consistent; [|done]. intros []. congruence. }
  destruct (fa_cancelled attempt) eqn:Hc.
  { intros [= <-]. apply failed_consistent; [|done]. intros [_ [] _ _ _]. congruence. }
  pose proof (qu_admitted _ Hq) as Ha. destruct (fa_admitted attempt) as [[]|e] eqn:Had.
  2: { intros [= <-]. apply failed_consistent; [|done]. intros [_ [] _ _ _]. congruence. }
  destruct (exchange client attempt format remaining) as [received flag] eqn:Ex.
  destruct (exchange_suspends client link attempt format remaining received flag Hd Hc Had Ex) as [Hflag Hok].
  destruct (settle_fetch attempt received flag) as [[[bytes_ html]|error] suspended] eqn:Es;
    pose proof (settle_consistent attempt received flag _ _ Hq Hok Es) as Hs.
  - apply accept_consistent; [done|]. rewrite <- Hflag.
    destruct received as [v|e]; [by rewrite (Hok eq_refl)|].
    exfalso. revert Es. unfold settle_fetch. by repeat case_match.
  - intros [= <-]. unfold consistent. cbn [ft_suspended ft_result refused]. rewrite Hs, orb_true_iff, Hflag. done.
Qed.
End fetch.

(** * A law fetched with a reflected credential, and a refusal *)

Definition sample_client : LawClient :=
  {| lc_credential := u "key7"; lc_budget := true; lc_source_archive := false |}.

Definition waiting_attempt (status : Z) (wait : option str) : FetchAttempt := {|
  fa_cancelled := false; fa_admitted := Ok tt; fa_interrupted := None;
  fa_lookup := Some [V4 27 101 209 204]; fa_client := true;
  fa_response := Some {|
    rs_status := status; rs_retry_after := wait; rs_content_encoding := None;
    rs_content_type := Some (u "text/xml;charset=UTF-8"); rs_content_length := None;
    rs_chunks := [Some reflected_response] |};
  fa_date_from_now _ := None; fa_paused := Ok tt; fa_settled := Ok tt; fa_suspended := Ok tt; fa_active := true;
  fa_retrieved_at := 1700000000; fa_archived := Ok tt;
  fa_processed input := Ok {|
    do_source_sha256 := di_source_sha256 input; do_processor_version := u "xml-1"; do_format := di_format input;
    do_tree := None; do_text := u "law"; do_pages := []; do_ocr_pages := []; do_diagnostics := [] |};
|}.

Definition sample_attempt (status : Z) : FetchAttempt := waiting_attempt status None.

Definition sample_destination : Link := {|
  lk_url := {| url_scheme := u "https"; url_host := Some (u "www.law.go.kr"); url_username := [];
    url_password := None; url_path := u "/DRF/lawService.do"; url_query := Some (u "OC=key7&target=law");
    url_fragment := None; url_query_pairs := [(u "OC", u "key7"); (u "target", u "law")] |};
  lk_port := Some 443; lk_text := u "https://www.law.go.kr/DRF/lawService.do?OC=key7&target=law" |}.

(** The check that hands the raw bytes on. *)
Definition sample_check (s : nat) (output : DocumentOutput) (raw : list byte) (retrieved_at : Z)
  : result DatabaseError (list byte * list str) * nat := (Ok (raw, do_diagnostics output), Datatypes.S s).

Definition waiting_fetch (status : Z) (wait : option str) : result (stop DatabaseError) (Fetch (list byte * list str) nat) :=
  @fetch_parse_timed_checked_inner link_form provider_links sample_unicode sample_evidence
    (fun link _ => lk_text link) (fun _ => u "00") _ _ sample_check sample_client sample_destination Xml false
    None true (waiting_attempt status wait) 0%nat.
Definition sample_fetch (status : Z) := waiting_fetch status None.

Lemma fetch_sound_witness :
  exists f, sample_fetch 200 = Ok f
    /\ ft_result f = Ok (Processed (redacted_response, [u "provider_credential_redacted"]))
    /\ @fetch_ok link_form provider_links (fun _ => u "00") _ _ sample_check sample_client sample_destination
         Xml false None true (sample_attempt 200) 0%nat f.
Proof.
  destruct (@fetch_sound link_form link_form_laws provider_links sample_unicode sample_evidence
    (fun link _ => lk_text link) (fun _ => u "00") _ _ sample_check sample_client sample_destination
    Xml false None true (sample_attempt 200) 0%nat) as (f & Hf & Hok); [discriminate|].
  exists f. split; [exact Hf|]. split; [|exact Hok].
  vm_compute in Hf. injection Hf as <-. vm_compute. reflexivity.
Defined.

(** Seven days are a pause, and a second more is a suspension. *)
Example sample_pauses :
  (fun wait => match waiting_fetch 429 (Some (u wait)) with
               | Ok f => (ft_suspended f, refused (ft_result f))
               | Err _ => (false, true)
               end) <$> ["604800"%string; "604801"%string]
  = [(false, false); (true, false)].
Proof. vm_compute. reflexivity. Qed.

Lemma refusal_suspends_witness :
  (exists f, sample_fetch 403 = Ok f /\ ft_suspended f = true
     /\ consistent sample_destination (sample_attempt 403) f)
  /\ (exists f, waiting_fetch 503 (Some (u "700000")) = Ok f /\ ft_suspended f = true
     /\ pause_holds sample_destination (waiting_attempt 503 (Some (u "700000")))).
Proof.
  pose proof (@refusal_suspends link_form link_form_laws provider_links sample_unicode sample_evidence
    (fun link _ => lk_text link) (fun _ => u "00") _ _ sample_check sample_client sample_destination
    Xml false None true) as Hall.
  split.
  - destruct (sample_fetch 403) as [f|e] eqn:E; [|exfalso; vm_compute in E; discriminate E].
    exists f. split; [reflexivity|]. split; [vm_compute in E; injection E as <-; reflexivity|].
    refine (Hall (sample_attempt 403) 0%nat f _ E). constructor; reflexivity.
  - destruct (waiting_fetch 503 (Some (u "700000"))) as [f|e] eqn:E; [|exfalso; vm_compute in E; discriminate E].
    exists f. split; [reflexivity|].
    assert (Hc : consistent sample_destination (waiting_attempt 503 (Some (u "700000"))) f).
    { refine (Hall _ 0%nat f _ E). constructor; reflexivity. }
    assert (Hs : ft_suspended f = true) by (vm_compute in E; injection E as <-; reflexivity).
    assert (Hr : refused (ft_result f) = false) by (vm_compute in E; injection E as <-; reflexivity).
    split; [exact Hs|]. destruct (proj1 Hc Hs) as [H|H]; [rewrite Hr in H; discriminate|exact H].
Defined.
