(* ===== verification/ProviderDetail.v ===== *)
(** The detail of a record, [LawClient::detail] of
    [crates/adapters/src/law_go_kr.rs]: the record itself, then its attachments
    one after the other, each downloaded only as far as its licence allows, and
    the metadata that says what was kept and what is missing.  Also the listing
    and search entries in front of [inventory_url]. *)

From S2P Require Import Prelude Utf8 Strings Slices Domain Legal InForce KrNames Citation Document Catalogue ProviderTree Projection Requests Redaction Attachments HttpUpstream ProviderResponse ProviderFetch.

Record MissingAttachment := {
  ma_ordinal : Z; ma_expected_format : DocumentFormat; ma_response_sha256 : option str; ma_reason : str;
}.

(** [serde_json] of the other lists in the metadata *)
Class CollectingJson := {
  missing_json : list MissingAttachment -> option str;
  ordinals_json : list Z -> option str;
}.

(** The requests of a client: what was asked, in order, what the archive took,
    and whether the client was suspended. *)
Record Calls := {
  cl_asked : list (Link * DocumentFormat); cl_archived : list SourceObservationInput; cl_suspended : bool;
}.

Definition no_calls : Calls := {| cl_asked := []; cl_archived := []; cl_suspended := false |}.

Definition called {T S} (calls : Calls) (link : Link) (format : DocumentFormat) (f : Fetch T S) : Calls :=
  {| cl_asked := cl_asked calls ++ [(link, format)]; cl_archived := cl_archived calls ++ ft_archived f;
     cl_suspended := cl_suspended calls || ft_suspended f |}.

(** What the check of an attachment writes to. *)
Record Extracting := { ex_record : LegalRecord; ex_total : Z; ex_extracted : Z }.

(** The variables of [detail] while it goes through the attachments. *)
Record Collecting := {
  cg_state : Extracting; cg_resources : list OriginalResource; cg_evidence : list (list byte);
  cg_ordinals : list Z; cg_missing : list MissingAttachment; cg_calls : Calls;
}.

(** What the check of the record hands on. *)
Record Checked := {
  ck_record : LegalRecord; ck_links : list AttachmentLink; ck_raw : list byte; ck_retrieved_at : Z;
  ck_processor_version : str;
}.

Definition MAX_EVIDENCE_BYTES : Z := 100 * 1024 * 1024.
Definition MAX_EXTRACTED_BYTES : Z := 16 * 1024 * 1024.

Definition with_sections (rec : LegalRecord) (ss : list LegalSection) : LegalRecord :=
  {| lr_object := lr_object rec; lr_revision_id := lr_revision_id rec; lr_title := lr_title rec;
     lr_body := lr_body rec; lr_metadata := lr_metadata rec; lr_publication_date := lr_publication_date rec;
     lr_effective_date := lr_effective_date rec; lr_source_url := lr_source_url rec;
     lr_representation := lr_representation rec; lr_sections := ss |}.

(** An outcome of code that may panic, as the value of a check. *)
Definition lift {A} (r : result (stop DatabaseError) A) : result DatabaseError (result (stop DatabaseError) A) :=
  match r with Ok a => Ok (Ok a) | Err (Error e) => Err e | Err s => Ok (Err s) end.

Definition raise {A} (r : result DatabaseError A) : result (stop DatabaseError) A :=
  match r with Ok a => Ok a | Err e => Err (Error e) end.

(** * The check of the record *)

Section check.
Context `{LegalCodecs} `{ProviderUrls} `{LinkUrls} `{DetailJson} (set_https : Link -> option Link).

Definition note_provisions (item : InventoryItem) (output : DocumentOutput) (rec : LegalRecord)
  : result (stop DatabaseError) LegalRecord :=
  if bool_decide (oid_dataset (ii_object item) = NationalStatute) then
    let? tree := raise (ok_or (do_tree output) StorageCorrupt) in
    let? provisions := provision_numbers_checked tree in
    let? text := raise (ok_or (strings_json provisions) StorageCorrupt) in
    Ok (put_metadata (u "provider_provisions_json") text rec)
  else Ok rec.

Definition note_supplementary (output : DocumentOutput) (rec : LegalRecord) : LegalRecord :=
  if opt_test contains_supplementary_subtree (do_tree output)
  then put_metadata (u "supplementary_projection") (u "separate_rights_required") rec else rec.

Definition check_detail (item : InventoryItem) (output : DocumentOutput) (raw : list byte) (retrieved_at : Z)
  : result (stop DatabaseError) Checked :=
  let? rec := raise (project item output) in
  let? rec := note_provisions item output rec in
  let rec := note_supplementary output rec in
  match record_validate rec with
  | Err _ => Err (Error StorageCorrupt)
  | Ok _ =>
    let? tree := raise (ok_or (do_tree output) StorageCorrupt) in
    let? links := raise (attachment_links set_https tree) in
    Ok {| ck_record := rec; ck_links := links; ck_raw := raw; ck_retrieved_at := retrieved_at;
          ck_processor_version := do_processor_version output |}
  end.
End check.

(** * The check of an attachment *)

Section attachment.
Context `{LegalCodecs} `{ProcessorJson}.

Definition section_label (kind : SectionKind) : str :=
  if bool_decide (kind = Ocr) then u "ocr" else u "extracted".

Definition attachment_section (ordinal : Z) (link : AttachmentLink) (digest : str) (kind : SectionKind)
  (page : DocumentPage) : LegalSection :=
  {| sec_id := u "attachment:" ++ show_Z ordinal ++ u ":" ++ section_label kind ++ u ":" ++ show_Z (page_number page);
     sec_title := al_title link; sec_text := page_text page; sec_kind := kind;
     sec_source_document_sha256 := Some digest; sec_page := Some (page_number page) |}.

(** The body of the loop over the pages. *)
Definition add_page (ordinal : Z) (link : AttachmentLink) (digest : str) (kind : SectionKind)
  (page : DocumentPage) (s : Extracting) : result DatabaseError unit * Extracting :=
  match checked_add (ex_extracted s) (slen (page_text page)) with
  | None => (Err SourceDataInvalid, s)
  | Some extracted =>
    let s := {| ex_record := ex_record s; ex_total := ex_total s; ex_extracted := extracted |} in
    if MAX_EXTRACTED_BYTES <? extracted then (Err SourceDataInvalid, s)
    else if 2 ^ 32 - 1 <? page_number page then (Err SourceDataInvalid, s)
    else
      let rec := with_sections (ex_record s)
        (lr_sections (ex_record s) ++ [attachment_section ordinal link digest kind page]) in
      (Ok tt, {| ex_record := rec; ex_total := ex_total s; ex_extracted := extracted |})
  end.

Fixpoint add_pages (ordinal : Z) (link : AttachmentLink) (digest : str) (pages : list (SectionKind * DocumentPage))
  (s : Extracting) : result DatabaseError unit * Extracting :=
  match pages with
  | [] => (Ok tt, s)
  | (kind, page) :: pages =>
    match add_page ordinal link digest kind page s with
    | (Ok _, s) => add_pages ordinal link digest pages s
    | stopped => stopped
    end
  end.

(** The pages of an attachment; one without pages is a single page. *)
Definition attachment_pages (attachment : DocumentOutput) : list (SectionKind * DocumentPage) :=
  let pages := match do_pages attachment with
               | [] => [{| page_number := 1; page_text := do_text attachment |}]
               | pages => pages
               end in
  ((fun page => (Extracted, page)) <$> pages) ++ ((fun page => (Ocr, page)) <$> do_ocr_pages attachment).

Definition check_attachment (ordinal : Z) (link : AttachmentLink) (s : Extracting) (attachment : DocumentOutput)
  (raw : list byte) (retrieved_at : Z) : result DatabaseError (list byte) * Extracting :=
  match checked_add (ex_total s) (zlen raw) with
  | None => (Err SourceDataInvalid, s)
  | Some total =>
    let s := {| ex_record := ex_record s; ex_total := total; ex_extracted := ex_extracted s |} in
    if MAX_EVIDENCE_BYTES <? total then (Err SourceDataInvalid, s)
    else
      let digest := do_source_sha256 attachment in
      match add_pages ordinal link digest (attachment_pages attachment) s with
      | (Err e, s) => (Err e, s)
      | (Ok _, s) =>
        match record_validate (ex_record s) with
        | Err _ => (Err SourceDataInvalid, s)
        | Ok _ =>
          let '(outcome, rec) :=
            retain_attachment_processor (ex_record s) ordinal digest (do_processor_version attachment) in
          let s := {| ex_record := rec; ex_total := ex_total s; ex_extracted := ex_extracted s |} in
          (match outcome with Ok _ => Ok raw | Err e => Err e end, s)
        end
      end
  end.
End attachment.

(** * The attachments of a record *)

Section detail.
Context `{FormUrlencoded} `{LinkUrls} `{Unicode} `{LegalCodecs} `{ProviderUrls} `{DetailJson} `{ProcessorJson}
  `{CollectingJson}.
Context (with_query : Link -> list (str * str) -> str) (sha256_hex : list byte -> str)
  (set_https : Link -> option Link).
(** [attempts n] is what the [n]-th request meets. *)
Context (client : LawClient) (attempts : nat -> FetchAttempt).

Definition next_attempt (calls : Calls) : FetchAttempt := attempts (length (cl_asked calls)).

(** The failures that leave an attachment out and let the detail go on. *)
Definition missing_at (ordinal : Z) (link : AttachmentLink) (digest : option str) (reason : str)
  : MissingAttachment :=
  {| ma_ordinal := ordinal; ma_expected_format := al_format link; ma_response_sha256 := digest; ma_reason := reason |}.

(** The bytes of an attachment, its state, and how it went missing. *)
Record Download := {
  dl_bytes : list byte; dl_state : Extracting; dl_missing : option MissingAttachment; dl_calls : Calls;
}.

(** What is kept of the state when an attachment fails. *)
Definition rolled_back (checkpoint s : Extracting) : Extracting :=
  {| ex_record := with_sections (ex_record s)
       (take (length (lr_sections (ex_record checkpoint))) (lr_sections (ex_record s)));
     ex_total := ex_total checkpoint; ex_extracted := ex_extracted checkpoint |}.

Definition given_up (ordinal : Z) (link : AttachmentLink) (reason : str) (checkpoint s : Extracting) (calls : Calls)
  : Download :=
  {| dl_bytes := []; dl_state := rolled_back checkpoint s;
     dl_missing := Some (missing_at ordinal link None reason); dl_calls := calls |}.

(** A response that is no attachment is kept as evidence. *)
Definition kept_unexpected (ordinal : Z) (link : AttachmentLink) (raw : list byte) (reason : str)
  (checkpoint s : Extracting) (calls : Calls) : result DatabaseError Download :=
  let s := rolled_back checkpoint s in
  match checked_add (ex_total s) (zlen raw) with
  | None => Err SourceDataInvalid
  | Some total =>
    if MAX_EVIDENCE_BYTES <? total then Err SourceDataInvalid
    else Ok {| dl_bytes := raw;
               dl_state := {| ex_record := ex_record s; ex_total := total; ex_extracted := ex_extracted s |};
               dl_missing := Some (missing_at ordinal link (Some (sha256_hex raw)) reason); dl_calls := calls |}
  end.

(** The loop over the attempts at one attachment; [retries] are left. *)
Fixpoint download (retries : nat) (ordinal : Z) (link : AttachmentLink) (checkpoint s : Extracting) (calls : Calls)
  : result (stop DatabaseError) (result DatabaseError Download * Calls) :=
  let? f := fetch_attachment_timed_checked with_query sha256_hex (check_attachment ordinal link)
              client (al_url link) (al_format link) (saturating_sub MAX_EVIDENCE_BYTES (ex_total s))
              (next_attempt calls) s in
  let calls := called calls (al_url link) (al_format link) f in
  let s := ft_state f in
  match ft_result f with
  | Err SourceUnavailable => Ok (Ok (given_up ordinal link (u "source_unavailable") checkpoint s calls), calls)
  | Err SourceDownloadFailed => Ok (Ok (given_up ordinal link (u "download_failed") checkpoint s calls), calls)
  | Err SourceDataInvalid => Ok (Ok (given_up ordinal link (u "download_invalid") checkpoint s calls), calls)
  | Err e => Ok (Err e, calls)
  | Ok (Processed raw) =>
    Ok (Ok {| dl_bytes := raw; dl_state := s; dl_missing := None; dl_calls := calls |}, calls)
  | Ok (Original _ _) => Ok (Err StorageCorrupt, calls)
  | Ok (UnexpectedAttachment raw html reason) =>
    match html, retries with
    | true, S retries => download retries ordinal link checkpoint s calls
    | _, _ => Ok (kept_unexpected ordinal link raw reason checkpoint s calls, calls)
    end
  end.

(** An attachment that may be stored and not processed: only its bytes. *)
Definition download_original (ordinal : Z) (link : AttachmentLink) (s : Extracting) (calls : Calls)
  : result (stop DatabaseError) (result DatabaseError Download * Calls) :=
  let? answer := fetch_original with_query sha256_hex (T := unit) (fun s _ _ _ => (Ok tt, s)) client
              (al_url link) (al_format link)
              (Some (saturating_sub MAX_EVIDENCE_BYTES (ex_total s))) (next_attempt calls) s in
  let '(outcome, f) := answer in
  let calls := called calls (al_url link) (al_format link) f in
  match outcome with
  | Err (SourceDataInvalid | SourceUnavailable | SourceDownloadFailed) =>
    Ok (Ok {| dl_bytes := []; dl_state := s;
              dl_missing := Some (missing_at ordinal link None (u "original_download_invalid"));
              dl_calls := calls |}, calls)
  | Err e => Ok (Err e, calls)
  | Ok (raw, _) =>
    match checked_add (ex_total s) (zlen raw) with
    | None => Ok (Err SourceDataInvalid, calls)
    | Some total =>
      if MAX_EVIDENCE_BYTES <? total then Ok (Err SourceDataInvalid, calls)
      else Ok (Ok {| dl_bytes := raw;
                     dl_state := {| ex_record := ex_record s; ex_total := total; ex_extracted := ex_extracted s |};
                     dl_missing := None; dl_calls := calls |}, calls)
    end
  end.

Definition attachment_resource (ordinal : Z) (link : AttachmentLink) (retained : bool) : OriginalResource :=
  {| res_ordinal := ordinal; res_title := al_title link; res_media_type := media_type (al_format link);
     res_source_url := lk_text (al_url link); res_retained := retained; res_rights := al_rights link |}.

Definition mark_credentials (raw : list byte) (rec : LegalRecord) : LegalRecord :=
  if has_credential_redaction raw
  then put_metadata (u "transport_credentials_redacted") (u "true") rec else rec.

Definition with_record (s : Extracting) (rec : LegalRecord) : Extracting :=
  {| ex_record := rec; ex_total := ex_total s; ex_extracted := ex_extracted s |}.

(** Nothing of the attachment is kept but its description, and a download that
    failed. *)
Definition skip_attachment (ordinal : Z) (link : AttachmentLink) (c : Collecting) (s : Extracting)
  (missing : option MissingAttachment) (calls : Calls) : Collecting :=
  {| cg_state := s; cg_resources := cg_resources c ++ [attachment_resource ordinal link false];
     cg_evidence := cg_evidence c; cg_ordinals := cg_ordinals c;
     cg_missing := cg_missing c ++ option_list missing; cg_calls := calls |}.

(** The bytes become evidence; they are the attachment unless it is missing. *)
Definition keep_attachment (ordinal : Z) (link : AttachmentLink) (c : Collecting) (d : Download) : Collecting :=
  let missing := cg_missing c ++ option_list (dl_missing d) in
  let retained := negb (existsb (fun failure => ma_ordinal failure =? ordinal) missing) in
  {| cg_state := with_record (dl_state d) (mark_credentials (dl_bytes d) (ex_record (dl_state d)));
     cg_resources := cg_resources c ++ [attachment_resource ordinal link retained];
     cg_evidence := cg_evidence c ++ [dl_bytes d]; cg_ordinals := cg_ordinals c ++ [ordinal];
     cg_missing := missing; cg_calls := dl_calls d |}.

(** The body of the loop over the links. *)
Definition collect_attachment (ordinal : Z) (link : AttachmentLink) (c : Collecting)
  : result (stop DatabaseError) (result DatabaseError Collecting * Calls) :=
  let s := cg_state c in
  let calls := cg_calls c in
  if negb (can_store (al_rights link)) then Ok (Ok (skip_attachment ordinal link c s None calls), calls)
  else if negb (can_process (al_rights link)) then
    let? answer := download_original ordinal link s calls in
    let '(outcome, calls) := answer in
    Ok (match outcome with
        | Err e => Err e
        | Ok d => Ok (if is_some (dl_missing d)
                      then skip_attachment ordinal link c (dl_state d) (dl_missing d) calls
                      else keep_attachment ordinal link c d)
        end, calls)
  else
    let? answer := download 2 ordinal link s s calls in
    let '(outcome, calls) := answer in
    Ok (match outcome with
        | Err e => Err e
        | Ok d => Ok (if bool_decide (dl_bytes d = [])
                      then skip_attachment ordinal link c (dl_state d) (dl_missing d) calls
                      else keep_attachment ordinal link c d)
        end, calls).

Fixpoint collect_attachments (ordinal : Z) (links : list AttachmentLink) (c : Collecting)
  : result (stop DatabaseError) (result DatabaseError Collecting * Calls) :=
  match links with
  | [] => Ok (Ok c, cg_calls c)
  | link :: links =>
    let? answer := collect_attachment ordinal link c in
    match answer with
    | (Ok c, _) => collect_attachments (ordinal + 1) links c
    | (Err e, calls) => Ok (Err e, calls)
    end
  end.

(** * The metadata of what was collected *)

(** The number of available attachments is an unsigned difference. *)
Definition note_missing (expected : Z) (c : Collecting) (rec : LegalRecord) : result (stop DatabaseError) LegalRecord :=
  match cg_missing c with
  | [] => Ok rec
  | missing =>
    let? available := ok_or (checked_sub expected (zlen missing)) Panic in
    let? failures := raise (ok_or (missing_json missing) StorageCorrupt) in
    let? ordinals := raise (ok_or (ordinals_json (cg_ordinals c)) StorageCorrupt) in
    Ok (put_metadata (u "attachment_evidence_ordinals") ordinals
          (put_metadata (u "attachment_failures") failures
          (put_metadata (u "attachment_available_count") (show_Z available)
          (put_metadata (u "attachment_expected_count") (show_Z expected)
          (put_metadata (u "attachment_status") (u "incomplete") rec)))))
  end.

Definition note_collected (expected : Z) (c : Collecting) : result (stop DatabaseError) LegalRecord :=
  let? rec := note_missing expected c (ex_record (cg_state c)) in
  let? ordinals := raise (ok_or (ordinals_json (cg_ordinals c)) StorageCorrupt) in
  let rec := put_metadata (u "attachment_evidence_ordinals") ordinals rec in
  let? resources := raise (ok_or (resources_json (cg_resources c)) StorageCorrupt) in
  let rec := put_metadata (u "original_resources") resources rec in
  let? warnings := raise (ok_or (strings_json (warnings (lr_metadata rec))) StorageCorrupt) in
  let rec := put_metadata (u "rights_warnings") warnings rec in
  match record_validate rec with
  | Ok _ => Ok rec
  | Err _ => Err (Error SourceDataInvalid)
  end.

(** The record itself, as the first resource. *)
Definition own_resource (html : bool) (rec : LegalRecord) : OriginalResource :=
  {| res_ordinal := 0; res_title := lr_title rec;
     res_media_type := if html then u "text/html" else u "application/xml";
     res_source_url := lr_source_url rec;
     res_retained := negb (is_some (lr_metadata rec !! u "supplementary_projection"));
     res_rights := legal_information |}.

Definition collecting (html : bool) (ck : Checked) (calls : Calls) : Collecting :=
  {| cg_state := {| ex_record := ck_record ck; ex_total := zlen (ck_raw ck); ex_extracted := 0 |};
     cg_resources := [own_resource html (ck_record ck)]; cg_evidence := []; cg_ordinals := [];
     cg_missing := []; cg_calls := calls |}.

Definition settled {A} (r : result (stop DatabaseError) A) (calls : Calls)
  : result (stop DatabaseError) (result DatabaseError A * Calls) :=
  match r with
  | Ok a => Ok (Ok a, calls)
  | Err (Error e) => Ok (Err e, calls)
  | Err Panic => Err Panic
  | Err OutOfFuel => Err OutOfFuel
  end.

(** From the checked record on. *)
Definition collected_detail (html : bool) (ck : Checked) (calls : Calls)
  : result (stop DatabaseError) (result DatabaseError ProviderDetail * Calls) :=
  let? answer := collect_attachments 1 (ck_links ck) (collecting html ck calls) in
  match answer with
  | (Err e, calls) => Ok (Err e, calls)
  | (Ok c, calls) =>
    settled (let? rec := note_collected (zlen (ck_links ck)) c in
             Ok {| pd_source_observations := []; pd_retrieved_at := ck_retrieved_at ck; pd_record := rec;
                   pd_raw := ck_raw ck; pd_additional_evidence := cg_evidence c;
                   pd_processor_version := ck_processor_version ck |}) calls
  end.

(** * The detail of a record *)

Section routes.
Context `{CharTables}.
(** A request written as a URL by the [url] crate. *)
Context (request_link : Request -> option Link) (now : Z).

Definition detail_link (item : InventoryItem) : result DatabaseError Link :=
  let? request := detail_url (lc_credential client) item in ok_or (request_link request) InvalidInput.

(** English statutes: the response states no identity, so only its bytes are
    kept. *)
Definition english_detail (item : InventoryItem) (raw : list byte) (retrieved_at : Z)
  : result DatabaseError ProviderDetail :=
  let? detail := metadata_detail item [] retrieved_at false in
  let redacted := has_credential_redaction raw in
  let metadata : gmap str str :=
    <[u "requested_revision" := ii_revision_id item]> (<[u "status" := u "response_identity_unverified"]> ∅) in
  let metadata := if redacted then <[u "credentials_redacted" := u "true"]> metadata else metadata in
  let rec := mark_credentials raw (pd_record detail) in
  let? observations :=
    if lc_source_archive client then Ok (pd_source_observations detail)
    else
      let? guide := ok_or (sf_detail_guide (source_family (oid_dataset (ii_object item)))) SourceDataInvalid in
      Ok (pd_source_observations detail ++ [
        {| so_source_key := u "law_go_kr:" ++ guide ++ u ":" ++ ii_revision_id item; so_raw := Some raw;
           so_media_type := u "application/xml"; so_rights := legal_information; so_metadata := metadata;
           so_observed_at := retrieved_at |}]) in
  Ok {| pd_source_observations := observations; pd_retrieved_at := pd_retrieved_at detail;
        pd_record := put_metadata (u "body_status") (u "response_identity_unverified_metadata_only") rec;
        pd_raw := pd_raw detail; pd_additional_evidence := pd_additional_evidence detail;
        pd_processor_version := pd_processor_version detail |}.

Definition detail (item : InventoryItem)
  : result (stop DatabaseError) (result DatabaseError ProviderDetail * Calls) :=
  let dataset := oid_dataset (ii_object item) in
  let family := source_family dataset in
  if sf_metadata_only family || bool_decide (sf_detail_mode family = ListOnly)
  then Ok (metadata_detail item [] now false, no_calls)
  else
    match detail_link item with
    | Err e => Ok (Err e, no_calls)
    | Ok link =>
      if bool_decide (dataset = EnglishStatute) then
        let? answer := fetch_original with_query sha256_hex (T := unit) (fun s _ _ _ => (Ok tt, s)) client
                         link Xml None (attempts O) tt in
        let '(outcome, f) := answer in
        Ok (let? response := outcome in english_detail item response.1 response.2, called no_calls link Xml f)
      else
        let html := precedent_html item in
        let format := if html then Html else Xml in
        let? answer := fetch_parse_timed_checked with_query sha256_hex
                         (fun s output raw at_ => (lift (check_detail set_https item output raw at_), s))
                         client link format false (attempts O) tt in
        let '(outcome, f) := answer in
        let calls := called no_calls link format f in
        match outcome with
        | Err e => Ok (Err e, calls)
        | Ok (Err e) => Err e
        | Ok (Ok checked) => collected_detail html checked calls
        end
    end.

(** * Listings *)

Record ListingEvidence := { le_raw : list byte; le_retrieved_at : Z; le_credentials_redacted : bool }.

(** [fetch_parse_timed] and [fetch_parse]: the check hands on what it is given. *)
Definition fetch_parse_timed (link : Link) (format : DocumentFormat)
  : result (stop DatabaseError) (result DatabaseError (DocumentOutput * list byte * Z) * Calls) :=
  let? answer := fetch_parse_timed_checked with_query sha256_hex
                   (fun s output raw at_ => (Ok (output, raw, at_), s)) client link format false (attempts O) tt in
  let '(outcome, f) := answer in
  Ok (outcome, called no_calls link format f).

Definition inventory_page_class_filtered (dataset : Dataset) (page : Z) (historical : bool) (object_id : option str)
  (treaty_class : option Z) (search : option (str * bool))
  : result (stop DatabaseError) (result DatabaseError (InventoryPage * ListingEvidence) * Calls) :=
  match (let? request := inventory_url (lc_credential client) dataset page historical object_id treaty_class search in
         ok_or (request_link request) InvalidInput) with
  | Err e => Ok (Err e, no_calls)
  | Ok link =>
    let? answer := fetch_parse_timed link Xml in
    let '(outcome, calls) := answer in
    match outcome with
    | Err e => Ok (Err e, calls)
    | Ok (output, raw, retrieved_at) =>
      settled (let? tree := raise (ok_or (do_tree output) SourceDataInvalid) in
               Ok (parse_inventory_tree tree dataset page, {| le_raw := raw; le_retrieved_at := retrieved_at;
                               le_credentials_redacted := has_credential_redaction raw |})) calls
    end
  end.
End routes.
End detail.
