(* ===== verification/ProviderDetailFacts.v ===== *)
(** What the detail of a record promises: only what a licence covers is
    downloaded, a failed attachment leaves nothing but its entry in the list of
    the missing ones, none is lost silently, and the sums kept beside the
    evidence are exact. *)

From Stdlib Require Import Sorted.
From S2P Require Import Prelude Utf8 Strings Domain Legal Citation CitationFacts InForce Slices KrNames Document Catalogue ProviderTree Projection ProjectionFacts Requests HttpUpstream ProviderResponse Redaction RedactionFacts Attachments AttachmentsFacts ProviderFetch ProviderFetchFacts ProviderDetail.

#[local] Opaque u.

(** * Records with more sections *)

Lemma with_sections_id rec : with_sections rec (lr_sections rec) = rec.
Proof. by destruct rec. Qed.

Lemma with_sections_twice rec ss ss' : with_sections (with_sections rec ss) ss' = with_sections rec ss'.
Proof. done. Qed.

Lemma rolled_back_exact checkpoint s more :
  ex_record s = with_sections (ex_record checkpoint) (lr_sections (ex_record checkpoint) ++ more) ->
  rolled_back checkpoint s = checkpoint.
Proof.
  unfold rolled_back. intros ->. cbn. rewrite take_app_length.
  rewrite with_sections_twice, with_sections_id. by destruct checkpoint.
Qed.

(** * The check of an attachment *)

Section attachment.
Context `{LegalCodecs} `{ProcessorJson}.

(** The sections of the pages of an attachment *)
Definition sections_of (ordinal : Z) (link : AttachmentLink) (digest : str)
  (pages : list (SectionKind * DocumentPage)) : list LegalSection :=
  (fun kp => attachment_section ordinal link digest kp.1 kp.2) <$> pages.

(** Only sections were added. *)
Definition extended (rec rec' : LegalRecord) : Prop :=
  exists more, rec' = with_sections rec (lr_sections rec ++ more).

Lemma extended_refl rec : extended rec rec.
Proof. exists []. by rewrite app_nil_r, with_sections_id. Qed.

Definition text_bytes (ss : list LegalSection) : Z := sum_Z ((fun s => slen (sec_text s)) <$> ss).

Lemma text_bytes_app a b : text_bytes (a ++ b) = text_bytes a + text_bytes b.
Proof. unfold text_bytes. by rewrite fmap_app, sum_Z_app. Qed.

(** The sections [more] were added to a state and their text was counted. *)
Record grown (more : list LegalSection) (s s' : Extracting) : Prop := {
  gr_record : ex_record s' = with_sections (ex_record s) (lr_sections (ex_record s) ++ more);
  gr_extracted : ex_extracted s' = ex_extracted s + text_bytes more;
  gr_bound : ex_extracted s <= MAX_EXTRACTED_BYTES -> ex_extracted s' <= MAX_EXTRACTED_BYTES;
  gr_total : ex_total s' = ex_total s;
}.

Lemma grown_refl s : grown [] s s.
Proof.
  constructor; [|unfold text_bytes; cbn; lia|done|done]. by rewrite app_nil_r, with_sections_id.
Qed.

Lemma grown_trans m1 m2 s1 s2 s3 : grown m1 s1 s2 -> grown m2 s2 s3 -> grown (m1 ++ m2) s1 s3.
Proof.
  intros [R1 E1 B1 T1] [R2 E2 B2 T2]. constructor; [|rewrite text_bytes_app; lia|auto|congruence].
  by rewrite R2, R1, with_sections_twice, app_assoc.
Qed.

Lemma grown_extended more s s' : grown more s s' -> extended (ex_record s) (ex_record s').
Proof. intros []. by exists more. Qed.

Lemma extended_trans r1 r2 r3 : extended r1 r2 -> extended r2 r3 -> extended r1 r3.
Proof. intros (m1 & ->) (m2 & ->). exists (m1 ++ m2). by rewrite with_sections_twice, app_assoc. Qed.

(** What a step over pages leaves behind: their sections, or some of them on an error. *)
Definition paged (more : list LegalSection) (s : Extracting) (out : result DatabaseError unit * Extracting) : Prop :=
  match out.1 with
  | Ok _ => grown more s out.2
  | Err _ => extended (ex_record s) (ex_record out.2)
  end.

Lemma add_page_paged ordinal link digest kind page s :
  paged [attachment_section ordinal link digest kind page] s (add_page ordinal link digest kind page s).
Proof.
  unfold add_page. destruct (checked_add _ _) as [extracted|] eqn:Ea; [|apply extended_refl].
  apply checked_add_Some in Ea as [_ ->].
  destruct (Z.ltb_spec MAX_EXTRACTED_BYTES (ex_extracted s + slen (page_text page))); [apply extended_refl|].
  destruct (_ <? page_number page); [apply extended_refl|].
  constructor; cbn; [done|unfold text_bytes; cbn; lia|done|done].
Qed.

Lemma add_pages_paged ordinal link digest pages : forall s,
  paged (sections_of ordinal link digest pages) s (add_pages ordinal link digest pages s).
Proof.
  induction pages as [|[kind page] pages IH]; intros s; cbn [add_pages]; [apply grown_refl|].
  pose proof (add_page_paged ordinal link digest kind page s) as Ha.
  destruct (add_page ordinal link digest kind page s) as [[[]|e] s1]; [|done]. unfold paged in Ha. cbn in Ha.
  specialize (IH s1). unfold paged in *. destruct (add_pages ordinal link digest pages s1) as [[[]|e] s']; cbn in *.
  - exact (grown_trans [_] _ s s1 s' Ha IH).
  - eapply extended_trans; [by eapply grown_extended|done].
Qed.

(** The record of a retained processor differs in one key. *)
Lemma retain_processor_rest rec ordinal sha version :
  let '(r, rec') := retain_attachment_processor rec ordinal sha version in
  (exists value, rec' = put_metadata PROCESSORS_KEY value rec /\ r = Ok tt) \/ (rec' = rec /\ r <> Ok tt).
Proof.
  unfold retain_attachment_processor. destruct (_ || _); [by right|].
  destruct (record_validate rec) as [[]|]; [|by right].
  destruct (match lr_metadata rec !! PROCESSORS_KEY with Some value => parse_processors value | None => Some [] end)
    as [before|]; [|by right].
  destruct ((64 <=? zlen before) || _); [by right|]. destruct (processors_json _) as [value|]; [|by right].
  destruct (record_validate (put_metadata PROCESSORS_KEY value rec)); [by left; exists value|].
  right. split; [|done]. destruct (lr_metadata rec !! PROCESSORS_KEY) eqn:Ep; [by apply put_back|by apply take_back].
Qed.

(** On an error only sections were added; on success the sections of all pages were
    added, bytes and text are counted and the processor is recorded. *)
Lemma check_attachment_spec ordinal link s attachment raw at_ :
  let '(r, s') := check_attachment ordinal link s attachment raw at_ in
  let more := sections_of ordinal link (do_source_sha256 attachment) (attachment_pages attachment) in
  match r with
  | Err _ => extended (ex_record s) (ex_record s')
  | Ok value => value = raw /\ ex_total s' = ex_total s + zlen raw /\ ex_total s' <= MAX_EVIDENCE_BYTES
      /\ exists text, ex_record s' = put_metadata PROCESSORS_KEY text
                (with_sections (ex_record s) (lr_sections (ex_record s) ++ more))
           /\ ex_extracted s' = ex_extracted s + text_bytes more
           /\ (ex_extracted s <= MAX_EXTRACTED_BYTES -> ex_extracted s' <= MAX_EXTRACTED_BYTES)
  end.
Proof.
  unfold check_attachment. destruct (checked_add _ _) as [total|] eqn:Ea; [|apply extended_refl].
  apply checked_add_Some in Ea as [_ ->].
  destruct (Z.ltb_spec MAX_EVIDENCE_BYTES (ex_total s + zlen raw)); [apply extended_refl|].
  set (s1 := {| ex_total := _ |}).
  pose proof (add_pages_paged ordinal link (do_source_sha256 attachment) (attachment_pages attachment) s1) as Hp.
  unfold paged in Hp.
  destruct (add_pages _ _ _ _ s1) as [[[]|e] s2]; cbn [fst snd] in Hp; [|done].
  destruct (record_validate (ex_record s2)); [|by apply grown_extended in Hp].
  pose proof (retain_processor_rest (ex_record s2) ordinal (do_source_sha256 attachment)
    (do_processor_version attachment)) as Hr.
  destruct (retain_attachment_processor _ _ _ _) as [r rec].
  destruct Hr as [(value & -> & ->)|[-> Hr]].
  - destruct Hp as [Hrec He Hb Ht]. cbn in Hrec, He, Hb, Ht |- *. rewrite Ht.
    split_and!; [done|done|lia|]. exists value. by rewrite Hrec.
  - apply grown_extended in Hp. by destruct r as [[]|].
Qed.
End attachment.

(** * One attachment *)

Section detail.
Context `{FormLaws} `{LinkUrls} `{Unicode} `{LegalCodecs} `{ProviderUrls} `{DetailJson} `{ProcessorJson}
  `{CollectingJson}.
Context (with_query : Link -> list (str * str) -> str) (sha256_hex : list byte -> str)
  (set_https : Link -> option Link).
Context (client : LawClient) (attempts : nat -> FetchAttempt).

(** What an attachment writes to the state: sections, their count, and metadata *)
Definition written (more : list LegalSection) (s s' : Extracting) : Prop :=
  exists metadata,
    ex_record s' = with_metadata (with_sections (ex_record s) (lr_sections (ex_record s) ++ more)) metadata
    /\ ex_extracted s' = ex_extracted s + text_bytes more
    /\ (ex_extracted s <= MAX_EXTRACTED_BYTES -> ex_extracted s' <= MAX_EXTRACTED_BYTES).

Lemma written_refl s s' :
  ex_record s' = ex_record s -> ex_extracted s' = ex_extracted s -> written [] s s'.
Proof.
  intros Hr He. exists (lr_metadata (ex_record s)). rewrite Hr, He, app_nil_r, with_sections_id.
  split_and!; [by destruct (ex_record s)|unfold text_bytes; cbn; lia|done].
Qed.

(** The sections of an attachment that was received: those of all pages that the
    processor made of its bytes, and none without the right to process *)
Definition texts_of (ordinal : Z) (link : AttachmentLink) (raw : list byte) (more : list LegalSection) : Prop :=
  if can_process (al_rights link) then
    exists n output,
      fa_processed (attempts n) (document_input sha256_hex (al_format link) raw true) = Ok output
      /\ more = sections_of ordinal link (do_source_sha256 output) (attachment_pages output)
  else more = [].

(** The outcome of a download. *)
Record got (ordinal : Z) (link : AttachmentLink) (s : Extracting) (d : Download) : Prop := {
  gd_free : free_of (lc_credential client) (dl_bytes d);
  gd_total : ex_total (dl_state d) = ex_total s + zlen (dl_bytes d);
  gd_bound : ex_total s <= MAX_EVIDENCE_BYTES -> ex_total (dl_state d) <= MAX_EVIDENCE_BYTES;
  gd_missing : match dl_missing d with
    | Some m => ma_ordinal m = ordinal /\ ex_record (dl_state d) = ex_record s
        /\ ex_extracted (dl_state d) = ex_extracted s
    | None => expected_document_magic (dl_bytes d) (al_format link) = true
        /\ exists more, written more s (dl_state d) /\ texts_of ordinal link (dl_bytes d) more
    end;
}.

Definition asked_again (link : AttachmentLink) (tries : nat) (calls calls' : Calls) : Prop :=
  exists k, (1 <= k <= tries)%nat /\ cl_asked calls' = cl_asked calls ++ replicate k (al_url link, al_format link).

Lemma free_nil credential : free_of credential [].
Proof.
  apply Forall_forall. intros v Hv%representation_nonempty%bytes_nonempty (a & b & Hab).
  by destruct a, (bytes v).
Qed.

Lemma delivered_size attempt format remaining raw marked :
  delivered client attempt format remaining raw marked -> zlen raw <= MAX_EVIDENCE_BYTES.
Proof.
  intros (bytes_ & html & Hd & _ & Hr).
  destruct (decide ((if html || looks_like_html bytes_ then Html else format) = Xml)) as [He|He].
  - destruct (rd_xml _ _ _ _ _ Hr He) as (text & pieces & tl & _ & _ & _ & _ & _ & Hb). exact Hb.
  - destruct (rd_opaque _ _ _ _ _ Hr He) as [-> _]. exact (proj1 (dd_size _ _ _ _ _ Hd)).
Qed.

Lemma given_up_got ordinal link reason s s' calls :
  extended (ex_record s) (ex_record s') ->
  got ordinal link s (given_up ordinal link reason s s' calls).
Proof.
  intros (more & Hr). unfold given_up. rewrite (rolled_back_exact s s' more Hr).
  constructor; cbn; [apply free_nil|change (zlen (@nil byte)) with 0; lia|done|done].
Qed.

Lemma kept_unexpected_got ordinal link raw reason s s' calls d :
  free_of (lc_credential client) raw -> extended (ex_record s) (ex_record s') ->
  kept_unexpected sha256_hex ordinal link raw reason s s' calls = Ok d ->
  got ordinal link s d /\ dl_missing d <> None.
Proof.
  intros Hf (more & Hr). unfold kept_unexpected. rewrite (rolled_back_exact s s' more Hr).
  destruct (checked_add _ _) as [total|] eqn:Ea; [|done]. apply checked_add_Some in Ea as [_ ->].
  destruct (Z.ltb_spec MAX_EVIDENCE_BYTES (ex_total s + zlen raw)); [done|]. intros [= <-].
  split; [|done]. by constructor; cbn.
Qed.

Lemma unaccepted_extended ordinal link s s' :
  unaccepted (check_attachment ordinal link) s s' -> extended (ex_record s) (ex_record s').
Proof.
  intros [->|(output & raw & at_ & e & Hc)]; [apply extended_refl|].
  pose proof (check_attachment_spec ordinal link s output raw at_) as Hs. by rewrite Hc in Hs.
Qed.

Lemma check_written ordinal link s output raw at_ value s' :
  check_attachment ordinal link s output raw at_ = (Ok value, s') ->
  value = raw /\ ex_total s' = ex_total s + zlen raw /\ ex_total s' <= MAX_EVIDENCE_BYTES
  /\ written (sections_of ordinal link (do_source_sha256 output) (attachment_pages output)) s s'.
Proof.
  intros Hc. pose proof (check_attachment_spec ordinal link s output raw at_) as Hs. rewrite Hc in Hs.
  destruct Hs as (-> & Ht & Hb & text & Hr & He & Hbe). split_and!; try done.
  unfold put_metadata in Hr. eexists. split_and!; [exact Hr|done|done].
Qed.

(** What a download does to the calls. *)
Definition downloaded_as (ordinal : Z) (link : AttachmentLink) (tries : nat) (s : Extracting) (calls : Calls)
  (r : result (stop DatabaseError) (result DatabaseError Download * Calls)) : Prop :=
  exists outcome calls', r = Ok (outcome, calls') /\ asked_again link tries calls calls'
    /\ match outcome with Ok d => got ordinal link s d /\ dl_calls d = calls' | Err _ => True end.

Lemma asked_once {T S} link tries calls (f : Fetch T S) :
  (1 <= tries)%nat -> asked_again link tries calls (called calls (al_url link) (al_format link) f).
Proof. intros Ht. exists 1%nat. split; [lia|done]. Qed.

Lemma download_step retries ordinal link checkpoint s calls :
  download with_query sha256_hex client attempts retries ordinal link checkpoint s calls =
  let? f := fetch_attachment_timed_checked with_query sha256_hex (check_attachment ordinal link)
              client (al_url link) (al_format link) (saturating_sub MAX_EVIDENCE_BYTES (ex_total s))
              (next_attempt attempts calls) s in
  let calls := called calls (al_url link) (al_format link) f in
  let s := ft_state f in
  match ft_result f with
  | Err SourceUnavailable => Ok (Ok (given_up ordinal link (u "source_unavailable") checkpoint s calls), calls)
  | Err SourceDownloadFailed => Ok (Ok (given_up ordinal link (u "download_failed") checkpoint s calls), calls)
  | Err SourceDataInvalid => Ok (Ok (given_up ordinal link (u "download_invalid") checkpoint s calls), calls)
  | Err e => Ok (Err e, calls)
  | Ok (Processed raw) =>
    Ok (Ok {| dl_bytes := raw; dl_state := s; dl_missing := None; dl_calls := calls |}, calls)
  | Ok (Original _ _) => Ok (Err StorageCorrupt, calls)
  | Ok (UnexpectedAttachment raw html reason) =>
    match html, retries with
    | true, S retries =>
      download with_query sha256_hex client attempts retries ordinal link checkpoint s calls
    | _, _ => Ok (kept_unexpected sha256_hex ordinal link raw reason checkpoint s calls, calls)
    end
  end.
Proof. by destruct retries. Qed.

Lemma kept_downloaded ordinal link tries s calls calls' raw reason s' :
  asked_again link tries calls calls' -> free_of (lc_credential client) raw ->
  extended (ex_record s) (ex_record s') ->
  downloaded_as ordinal link tries s calls (Ok (kept_unexpected sha256_hex ordinal link raw reason s s' calls', calls')).
Proof.
  intros Ha Hf He. eexists _, _. split; [done|]. split; [done|].
  destruct (kept_unexpected _ _ _ _ _ _ _ _) as [d|e] eqn:Ek; [|done].
  split; [by eapply kept_unexpected_got|].
  unfold kept_unexpected in Ek. destruct (checked_add _ _); [|done]. destruct (_ <? _); [done|]. by injection Ek as <-.
Qed.

Lemma given_up_downloaded ordinal link tries s calls calls' reason s' :
  asked_again link tries calls calls' -> extended (ex_record s) (ex_record s') ->
  downloaded_as ordinal link tries s calls (Ok (Ok (given_up ordinal link reason s s' calls'), calls')).
Proof. intros Ha He. eexists _, _. split; [done|]. split; [done|]. split; [by apply given_up_got|done]. Qed.

Lemma asked_more link tries calls calls1 calls2 :
  asked_again link 1 calls calls1 -> asked_again link tries calls1 calls2 -> asked_again link (S tries) calls calls2.
Proof.
  intros (k1 & B1 & E1) (k2 & B2 & E2). exists (k1 + k2)%nat. split; [lia|].
  by rewrite E2, E1, <- app_assoc, replicate_add.
Qed.

(** An attachment is downloaded in at most three attempts, each from the state
    that the first one had. *)
Lemma download_spec ordinal link s retries : forall calls,
  can_process (al_rights link) = true ->
  downloaded_as ordinal link (S retries) s calls
    (download with_query sha256_hex client attempts retries ordinal link s s calls).
Proof.
  induction retries as [retries IH] using lt_wf_ind. intros calls Hp. rewrite download_step.
  destruct (fetch_accounts with_query sha256_hex (check_attachment ordinal link) client (al_url link)
    (al_format link) true (Some (saturating_sub MAX_EVIDENCE_BYTES (ex_total s))) true (next_attempt attempts calls) s)
    as (f & Hf & [_ Hres _ Hst Hre]); [unfold saturating_sub; intros n [= <-]; lia|].
  unfold fetch_attachment_timed_checked. rewrite Hf. cbn zeta.
  pose proof (asked_once link (S retries) calls f ltac:(lia)) as Ha.
  destruct (ft_result f) as [[value|raw at_|raw html reason]|e].
  - destruct Hres as (_ & raw & marked & output & Hdel & Hmagic & Hout & Hc).
    apply check_written in Hc as (-> & Ht & Hb & Hw). eexists _, _. split; [done|]. split; [done|].
    split; [|done]. constructor; cbn; [by eapply delivered_free|done|done|]. split; [by apply Hmagic|].
    eexists. split; [exact Hw|]. unfold texts_of. rewrite Hp. exists (length (cl_asked calls)), output.
    split; [exact Hout|]. by destruct marked.
  - by destruct Hres.
  - destruct Hres as (_ & _ & marked & Hdel). apply delivered_free in Hdel.
    destruct html; [destruct retries as [|retries]|];
      [by apply kept_downloaded, (unaccepted_extended ordinal link)| |by apply kept_downloaded, (unaccepted_extended ordinal link)].
    rewrite Hre. destruct (IH retries ltac:(lia) (called calls (al_url link) (al_format link) f) Hp)
      as (outcome & calls' & -> & Hask & Hgot).
    exists outcome, calls'. split; [done|]. split; [|done]. eapply asked_more; [exact (asked_once link 1 calls f ltac:(lia))|exact Hask].
  - assert (Herr : downloaded_as ordinal link (S retries) s calls (Ok (Err e, called calls (al_url link) (al_format link) f)))
      by (by eexists _, _).
    destruct e; try exact Herr; by apply given_up_downloaded, (unaccepted_extended ordinal link).
Qed.

Lemma download_original_spec ordinal link s calls :
  can_process (al_rights link) = false ->
  downloaded_as ordinal link 1 s calls (download_original with_query sha256_hex client attempts ordinal link s calls).
Proof.
  intros Hp. unfold download_original, fetch_original.
  destruct (fetch_accounts with_query sha256_hex (T := unit) (fun (s : Extracting) (_ : DocumentOutput) (_ : list byte) (_ : Z) =>
      (@Ok DatabaseError unit tt, s)) client (al_url link)
    (al_format link) false (Some (saturating_sub MAX_EVIDENCE_BYTES (ex_total s))) false (next_attempt attempts calls) s)
    as (f & Hf & [_ Hres _ Hst Hre]); [unfold saturating_sub; intros n [= <-]; lia|].
  rewrite Hf. pose proof (asked_once link 1 calls f ltac:(lia)) as Ha.
  assert (Herr : forall e : DatabaseError, downloaded_as ordinal link 1 s calls
    (Ok (Err e, called calls (al_url link) (al_format link) f))) by (intros e; by eexists _, _).
  assert (Hmiss : forall reason, downloaded_as ordinal link 1 s calls
    (Ok (Ok {| dl_bytes := []; dl_state := s; dl_missing := Some (missing_at ordinal link None reason);
               dl_calls := called calls (al_url link) (al_format link) f |}, called calls (al_url link) (al_format link) f))).
  { intros reason. eexists _, _. split; [done|]. split; [done|]. split; [|done].
    constructor; cbn; [apply free_nil|change (zlen (@nil byte)) with 0; lia|done|done]. }
  destruct (ft_result f) as [[value|raw at_|raw html reason]|e].
  - by destruct Hres.
  - destruct Hres as (_ & _ & marked & Hdel & Hmagic). cbn zeta.
    destruct (checked_add _ _) as [total|] eqn:Ea; [|by apply Herr]. apply checked_add_Some in Ea as [_ ->].
    destruct (Z.ltb_spec MAX_EVIDENCE_BYTES (ex_total s + zlen raw)); [by apply Herr|].
    eexists _, _. split; [done|]. split; [done|]. split; [|done].
    constructor; cbn; [by eapply delivered_free|done|done|]. split; [by apply Hmagic|].
    exists []. split; [by apply written_refl|]. unfold texts_of. by rewrite Hp.
  - apply Herr.
  - destruct e; first [apply Hmiss|apply Herr].
Qed.

(** * All attachments *)

Definition missing_ordinals (c : Collecting) : list Z := ma_ordinal <$> cg_missing c.

Definition retained_in (c : Collecting) (n : Z) : bool :=
  bool_decide (n ∈ cg_ordinals c) && negb (existsb (fun failure => ma_ordinal failure =? n) (cg_missing c)).

(** What an attachment adds: its sections when its bytes are evidence and it is not
    missing, and nothing otherwise *)
Definition sections_in (c : Collecting) (n : Z) (link : AttachmentLink) (more : list LegalSection) : Prop :=
  if retained_in c n then
    exists k raw, cg_ordinals c !! k = Some n /\ cg_evidence c !! k = Some raw /\ texts_of n link raw more
  else more = [].

(** The ordinals that were handed out, in order. *)
Definition numbered (bound : Z) (l : list Z) : Prop :=
  StronglySorted Z.lt l /\ Forall (fun n => 1 <= n <= bound) l.

(** What is collected once [done] is through. *)
Record collected (html : bool) (ck : Checked) (done : list AttachmentLink) (c : Collecting) : Prop := {
  (** every resource is described, as retained or not *)
  co_resources : cg_resources c = own_resource html (ck_record ck)
    :: imap (fun i link => attachment_resource (Z.of_nat i + 1) link (retained_in c (Z.of_nat i + 1))) done;
  (** what may be stored is evidence or missing, and nothing else is *)
  co_each : forall i link, done !! i = Some link ->
    can_store (al_rights link) = true <->
    Z.of_nat i + 1 ∈ cg_ordinals c \/ Z.of_nat i + 1 ∈ missing_ordinals c;
  co_ordinals : numbered (zlen done) (cg_ordinals c);
  co_missing : numbered (zlen done) (missing_ordinals c);
  co_evidence : length (cg_evidence c) = length (cg_ordinals c)
    /\ Forall (free_of (lc_credential client)) (cg_evidence c);
  co_signed : forall k n raw, cg_ordinals c !! k = Some n -> cg_evidence c !! k = Some raw ->
    n ∉ missing_ordinals c ->
    exists link, done !! Z.to_nat (n - 1) = Some link /\ expected_document_magic raw (al_format link) = true;
  co_total : ex_total (cg_state c) = zlen (ck_raw ck) + sum_Z (zlen <$> cg_evidence c)
    /\ ex_total (cg_state c) <= MAX_EVIDENCE_BYTES;
  (** the record has the sections of the attachments that are evidence and not
      missing, in order and whole, and no others; their text is what was counted *)
  co_record : exists texts metadata,
    length texts = length done
    /\ ex_record (cg_state c)
      = with_metadata (with_sections (ck_record ck) (lr_sections (ck_record ck) ++ concat texts)) metadata
    /\ text_bytes (concat texts) = ex_extracted (cg_state c) /\ ex_extracted (cg_state c) <= MAX_EXTRACTED_BYTES
    /\ forall i link more, done !! i = Some link -> texts !! i = Some more ->
         sections_in c (Z.of_nat i + 1) link more;
}.

Lemma numbered_more bound l : numbered bound l -> numbered (bound + 1) l.
Proof. intros [Hs Hf]. split; [done|]. eapply Forall_impl; [exact Hf|]. cbn. lia. Qed.

Lemma numbered_snoc bound l : 0 <= bound -> numbered bound l -> numbered (bound + 1) (l ++ [bound + 1]).
Proof.
  intros Hb [Hs Hf]. split.
  - induction Hs as [|x l Hs IH Hx]; cbn; [repeat constructor|]. apply Forall_cons in Hf as [Hb1 Hf].
    constructor; [by apply IH|]. apply Forall_app. split; [done|]. constructor; [lia|constructor].
  - apply Forall_app. split; [by apply (numbered_more bound l)|]. constructor; [lia|constructor].
Qed.

Lemma numbered_new bound l : numbered bound l -> bound + 1 ∉ l.
Proof. intros [_ Hf] Hin. rewrite Forall_forall in Hf. apply Hf in Hin. lia. Qed.

Lemma numbered_length bound l : 0 <= bound -> numbered bound l -> zlen l <= bound.
Proof.
  intros Hb [Hs Hf]. revert bound Hb Hf. induction l as [|x l IH] using rev_ind; intros bound Hb Hf; [done|].
  apply Forall_app in Hf as [Hf Hx]. apply Forall_cons in Hx as [Hx _]. rewrite zlen_app. change (zlen [x]) with 1.
  enough (zlen l <= x - 1) by lia. apply IH; [|lia|].
  - clear -Hs. induction l as [|y l IH]; [constructor|]. cbn in Hs. apply StronglySorted_inv in Hs as [Hs Hy].
    apply Forall_app in Hy as [Hy _]. constructor; auto.
  - clear IH. induction l as [|y l IH]; [constructor|]. cbn in Hs. apply StronglySorted_inv in Hs as [Hs Hy].
    apply Forall_cons in Hf as [Hy1 Hf]. constructor; [|by apply IH].
    apply Forall_app in Hy as [_ Hy]. apply Forall_cons in Hy as [Hy _]. lia.
Qed.

Lemma missing_test c n :
  existsb (fun failure => ma_ordinal failure =? n) (cg_missing c) = true <-> n ∈ missing_ordinals c.
Proof.
  rewrite existsb_exists. unfold missing_ordinals. rewrite list_elem_of_fmap. split.
  - intros (m & Hin & Hm%Z.eqb_eq). exists m. split; [done|]. by apply list_elem_of_In.
  - intros (m & -> & Hin). exists m. split; [by apply list_elem_of_In|]. lia.
Qed.

(** One more attachment: its evidence, if any, and how it is missing, if so. *)
Definition one_more (n : Z) (link : AttachmentLink) (c : Collecting) (s : Extracting) (retained : bool)
  (evidence : option (list byte)) (missing : option MissingAttachment) (calls : Calls) : Collecting :=
  {| cg_state := s; cg_resources := cg_resources c ++ [attachment_resource n link retained];
     cg_evidence := cg_evidence c ++ option_list evidence;
     cg_ordinals := cg_ordinals c ++ (if is_some evidence then [n] else []);
     cg_missing := cg_missing c ++ option_list missing; cg_calls := calls |}.

Lemma elem_of_one (x n : Z) (b : bool) l : x ∈ l ++ (if b then [n] else []) <-> x ∈ l \/ (b = true /\ x = n).
Proof. destruct b; rewrite elem_of_app; set_solver. Qed.

Lemma one_more_ordinals n link c s retained evidence missing calls x :
  x ∈ cg_ordinals (one_more n link c s retained evidence missing calls)
  <-> x ∈ cg_ordinals c \/ (is_some evidence = true /\ x = n).
Proof. apply elem_of_one. Qed.

Lemma one_more_missing n link c s retained evidence missing calls x :
  (forall m, missing = Some m -> ma_ordinal m = n) ->
  x ∈ missing_ordinals (one_more n link c s retained evidence missing calls)
  <-> x ∈ missing_ordinals c \/ (is_some missing = true /\ x = n).
Proof.
  intros Hm. unfold missing_ordinals. cbn. rewrite fmap_app, elem_of_app.
  destruct missing as [m|]; cbn; [rewrite (Hm m eq_refl)|]; set_solver.
Qed.

Lemma retained_in_iff c n : retained_in c n = true <-> n ∈ cg_ordinals c /\ n ∉ missing_ordinals c.
Proof.
  unfold retained_in. rewrite andb_true_iff, negb_true_iff, bool_decide_eq_true, <- missing_test.
  by rewrite not_true_iff_false.
Qed.

(** The sections of one attachment behind those of the others *)
Lemma written_record html ck done c c' link more :
  collected html ck done c -> written more (cg_state c) (cg_state c') ->
  (forall n l ss, 1 <= n <= zlen done -> sections_in c n l ss -> sections_in c' n l ss) ->
  sections_in c' (zlen done + 1) link more ->
  exists texts metadata,
    length texts = length (done ++ [link])
    /\ ex_record (cg_state c')
      = with_metadata (with_sections (ck_record ck) (lr_sections (ck_record ck) ++ concat texts)) metadata
    /\ text_bytes (concat texts) = ex_extracted (cg_state c') /\ ex_extracted (cg_state c') <= MAX_EXTRACTED_BYTES
    /\ forall i l ss, (done ++ [link]) !! i = Some l -> texts !! i = Some ss -> sections_in c' (Z.of_nat i + 1) l ss.
Proof.
  intros Hc (metadata & Hr & He & Hb) Hold Hnew.
  destruct (co_record _ _ _ _ Hc) as (texts & m & Hlen & Hrec & Ht & Hmax & Hf).
  exists (texts ++ [more]), metadata. rewrite concat_app, text_bytes_app. cbn [concat]. rewrite app_nil_r, Hr, Hrec, He.
  split_and!.
  - rewrite !length_app. cbn. lia.
  - cbn. by rewrite app_assoc.
  - lia.
  - rewrite <- He. by apply Hb.
  - intros i l ss Hi Hss. apply lookup_snoc_Some in Hi as [[Hlt Hi]|[-> <-]].
    + rewrite lookup_app_l in Hss by lia. apply Hold; [unfold zlen; lia|]. by apply Hf.
    + rewrite <- Hlen, lookup_app_r, Nat.sub_diag in Hss by lia. injection Hss as <-. exact Hnew.
Qed.

Lemma one_more_collected html ck done c n link s retained evidence missing calls :
  collected html ck done c -> n = zlen done + 1 ->
  retained = is_some evidence && negb (is_some missing) ->
  can_store (al_rights link) = is_some evidence || is_some missing ->
  (forall m, missing = Some m -> ma_ordinal m = n) ->
  (forall raw, evidence = Some raw -> free_of (lc_credential client) raw
     /\ (missing = None -> expected_document_magic raw (al_format link) = true)) ->
  ex_total s = ex_total (cg_state c) + sum_Z (zlen <$> option_list evidence) -> ex_total s <= MAX_EVIDENCE_BYTES ->
  (exists more, written more (cg_state c) s /\
     if retained then exists raw, evidence = Some raw /\ texts_of n link raw more else more = []) ->
  collected html ck (done ++ [link]) (one_more n link c s retained evidence missing calls).
Proof.
  intros Hc Hn Hret Hst Hm Hev Htot Hmax Hw.
  pose proof (one_more_ordinals n link c s retained evidence missing calls) as Ho.
  pose proof (fun x => one_more_missing n link c s retained evidence missing calls x Hm) as Hmi.
  set (c' := one_more n link c s retained evidence missing calls) in *.
  pose proof (numbered_new _ _ (co_ordinals _ _ _ _ Hc)) as Hno. rewrite <- Hn in Hno.
  pose proof (numbered_new _ _ (co_missing _ _ _ _ Hc)) as Hnm. rewrite <- Hn in Hnm.
  pose proof (zlen_nonneg done) as Hd.
  assert (Hlen : zlen (done ++ [link]) = n) by (rewrite zlen_app; change (zlen [link]) with 1; lia).
  pose proof Hc as [Hres Heach Hord Hmis [Hel Hef] Hsig Ht Hrec].
  constructor.
  - cbn [cg_resources one_more c']. rewrite Hres, imap_app. cbn [app]. f_equal. f_equal.
    + apply imap_ext. intros i l Hi. f_equal. apply eq_true_iff_eq. rewrite !retained_in_iff, Ho, Hmi.
      apply lookup_lt_Some in Hi. unfold zlen in Hn. assert (Z.of_nat i + 1 <> n) by lia. tauto.
    + cbn. rewrite Nat.add_0_r. change (Z.of_nat (length done)) with (zlen done). rewrite <- Hn. f_equal. f_equal.
      apply eq_true_iff_eq. rewrite retained_in_iff, Ho, Hmi, Hret, andb_true_iff, negb_true_iff.
      destruct (is_some evidence), (is_some missing); intuition congruence.
  - intros i l Hi. rewrite Ho, Hmi. apply lookup_snoc_Some in Hi as [[Hlt Hi]|[-> <-]].
    + rewrite (Heach i l Hi). unfold zlen in Hn. assert (Z.of_nat i + 1 <> n) by lia. tauto.
    + change (Z.of_nat (length done)) with (zlen done). rewrite <- Hn, Hst, orb_true_iff.
      destruct (is_some evidence), (is_some missing); intuition congruence.
  - rewrite Hlen. cbn [cg_ordinals one_more c']. destruct (is_some evidence); [rewrite Hn; by apply numbered_snoc|].
    rewrite app_nil_r, Hn. by apply numbered_more.
  - rewrite Hlen. unfold missing_ordinals. cbn [cg_missing one_more c']. rewrite fmap_app.
    destruct missing as [m|].
    + change (ma_ordinal <$> option_list (Some m)) with [ma_ordinal m]. rewrite (Hm m eq_refl), Hn.
      by apply numbered_snoc.
    + change (ma_ordinal <$> option_list None) with (@nil Z). rewrite app_nil_r, Hn. by apply numbered_more.
  - cbn [cg_ordinals cg_evidence one_more c']. rewrite !length_app, Hel. split.
    + by destruct evidence.
    + apply Forall_app. split; [done|]. destruct evidence as [raw|]; [|constructor].
      constructor; [by apply Hev|constructor].
  - cbn [cg_ordinals cg_evidence one_more c']. intros k x raw Hk Hkr Hx. rewrite Hmi in Hx.
    destruct evidence as [b|]; cbn [is_some option_list] in *.
    + apply lookup_snoc_Some in Hk as [[Hlt Hk]|[-> Hxn]].
      * rewrite lookup_app_l in Hkr by lia.
        destruct (Hsig k x raw Hk Hkr) as (l & Hl & Hg); [tauto|]. exists l.
        split; [by apply lookup_app_l_Some|done].
      * rewrite lookup_app_r, Hel, Nat.sub_diag in Hkr by lia. injection Hkr as <-. subst x. exists link. split.
        { rewrite lookup_app_r; unfold zlen in Hn; [|lia]. by replace (Z.to_nat (n - 1) - length done)%nat with O by lia. }
        apply (Hev b eq_refl). destruct missing; [|done]. exfalso. apply Hx. by right.
    + rewrite !app_nil_r in *. destruct (Hsig k x raw Hk Hkr) as (l & Hl & Hg); [tauto|]. exists l.
      split; [by apply lookup_app_l_Some|done].
  - cbn [cg_state cg_evidence one_more c']. rewrite fmap_app, sum_Z_app. split; [|done]. rewrite Htot. lia.
  - destruct Hw as (more & Hw & Hmore). apply (written_record html ck done c c' link more Hc Hw).
    + intros x l ss Hx. unfold sections_in.
      assert (retained_in c' x = retained_in c x) as ->.
      { apply eq_true_iff_eq. rewrite !retained_in_iff, Ho, Hmi. assert (x <> n) by lia. tauto. }
      destruct (retained_in c x); [|done]. intros (k & raw & Hk & Hkr & Hx'). exists k, raw.
      cbn [cg_ordinals cg_evidence one_more c']. split_and!; [by apply lookup_app_l_Some..|done].
    + rewrite <- Hn. unfold sections_in.
      assert (retained_in c' n = retained) as ->.
      { apply eq_true_iff_eq. rewrite retained_in_iff, Ho, Hmi, Hret, andb_true_iff, negb_true_iff.
        destruct (is_some evidence), (is_some missing); intuition congruence. }
      destruct retained; [|done]. destruct Hmore as (raw & -> & Hmore).
      exists (length (cg_ordinals c)), raw. cbn [cg_ordinals cg_evidence one_more c' is_some option_list].
      split_and!; [by rewrite lookup_app_r, Nat.sub_diag by lia|by rewrite <- Hel, lookup_app_r, Nat.sub_diag by lia|done].
Qed.

Lemma written_marked more s s' raw :
  written more s s' -> written more s (with_record s' (mark_credentials raw (ex_record s'))).
Proof.
  intros (metadata & Hr & He & Hb). unfold mark_credentials.
  destruct (has_credential_redaction raw); [|by exists metadata; destruct s'].
  eexists. cbn. rewrite Hr. split_and!; done.
Qed.

Lemma got_written n link s d : got n link s d ->
  exists more, written more s (dl_state d) /\
    if is_some (dl_missing d) then more = [] else texts_of n link (dl_bytes d) more.
Proof.
  intros [_ _ _ Hm]. destruct (dl_missing d) as [m|]; [|by destruct Hm].
  destruct Hm as (_ & Hr & He). exists []. split; [by apply written_refl|done].
Qed.

Lemma keep_collected html ck done c link d :
  collected html ck done c -> can_store (al_rights link) = true -> got (zlen done + 1) link (cg_state c) d ->
  collected html ck (done ++ [link]) (keep_attachment (zlen done + 1) link c d).
Proof.
  intros Hc Hst Hd. set (n := zlen done + 1) in *.
  pose proof (numbered_new _ _ (co_missing _ _ _ _ Hc)) as Hnm. fold n in Hnm.
  assert (Hk : keep_attachment n link c d = one_more n link c
    (with_record (dl_state d) (mark_credentials (dl_bytes d) (ex_record (dl_state d))))
    (negb (is_some (dl_missing d))) (Some (dl_bytes d)) (dl_missing d) (dl_calls d)).
  { unfold keep_attachment, one_more. cbn zeta. f_equal. f_equal. f_equal. f_equal. f_equal.
    rewrite existsb_app. destruct (existsb _ (cg_missing c)) eqn:E; [by apply missing_test in E|].
    destruct (dl_missing d) as [m|] eqn:Em; [|done]. pose proof (gd_missing _ _ _ _ Hd) as Hg. rewrite Em in Hg.
    cbn. by rewrite (proj1 Hg), Z.eqb_refl. }
  rewrite Hk. apply one_more_collected; try done.
  - intros m Em. pose proof (gd_missing _ _ _ _ Hd) as Hg. rewrite Em in Hg. apply Hg.
  - intros raw [= <-]. split; [apply Hd|]. intros Em. pose proof (gd_missing _ _ _ _ Hd) as Hg. rewrite Em in Hg.
    apply Hg.
  - cbn. rewrite (gd_total _ _ _ _ Hd). lia.
  - cbn. apply Hd, Hc.
  - destruct (got_written _ _ _ _ Hd) as (more & Hw & Hmore). exists more. split; [by apply written_marked|].
    destruct (is_some (dl_missing d)); cbn [negb]; [done|by exists (dl_bytes d)].
Qed.

Lemma skip_collected html ck done c link d calls :
  collected html ck done c -> can_store (al_rights link) = true -> got (zlen done + 1) link (cg_state c) d ->
  dl_bytes d = [] -> is_some (dl_missing d) = true ->
  collected html ck (done ++ [link]) (skip_attachment (zlen done + 1) link c (dl_state d) (dl_missing d) calls).
Proof.
  intros Hc Hst Hd Hb Hm. set (n := zlen done + 1) in *.
  assert (Hk : skip_attachment n link c (dl_state d) (dl_missing d) calls
    = one_more n link c (dl_state d) false None (dl_missing d) calls).
  { unfold skip_attachment, one_more. cbn. by rewrite !app_nil_r. }
  rewrite Hk. apply one_more_collected; try done.
  - by rewrite Hst, Hm.
  - intros m Em. pose proof (gd_missing _ _ _ _ Hd) as Hg. rewrite Em in Hg. apply Hg.
  - cbn. rewrite (gd_total _ _ _ _ Hd), Hb. done.
  - apply Hd, Hc.
  - destruct (got_written _ _ _ _ Hd) as (more & Hw & Hmore). rewrite Hm in Hmore. by exists more.
Qed.

(** The requests for attachments: none without the right to store, one without
    the right to process, at most three otherwise. *)
Definition permitted (link : AttachmentLink) : nat :=
  if can_store (al_rights link) then if can_process (al_rights link) then 3 else 1 else 0.

Definition asked_permitted (done : list AttachmentLink) (before after : Calls) : Prop :=
  exists tries : list nat,
    Forall2 (fun k link => (k <= permitted link)%nat) tries done
    /\ cl_asked after = cl_asked before
         ++ concat (zip_with (fun k link => replicate k (al_url link, al_format link)) tries done).

Lemma asked_permitted_snoc done link before mid after k :
  asked_permitted done before mid -> (k <= permitted link)%nat ->
  cl_asked after = cl_asked mid ++ replicate k (al_url link, al_format link) ->
  asked_permitted (done ++ [link]) before after.
Proof.
  intros (tries & Ht & Hm) Hk Ha. exists (tries ++ [k]). split.
  - apply Forall2_app; [done|]. by repeat constructor.
  - rewrite Ha, Hm, zip_with_app by (by eapply Forall2_length). rewrite concat_app. cbn.
    by rewrite app_nil_r, <- app_assoc.
Qed.

Lemma asked_again_permitted done link tries before mid after :
  asked_permitted done before mid -> asked_again link tries mid after -> (tries <= permitted link)%nat ->
  asked_permitted (done ++ [link]) before after.
Proof. intros Hp (k & Hk & Ha) Ht. eapply asked_permitted_snoc; [exact Hp| |exact Ha]. lia. Qed.

(** Without the right to process, what failed to arrive leaves no bytes. *)
Lemma download_original_missing ordinal link s calls d calls' :
  download_original with_query sha256_hex client attempts ordinal link s calls = Ok (Ok d, calls') ->
  is_some (dl_missing d) = true -> dl_bytes d = [].
Proof.
  unfold download_original. destruct (fetch_original _ _ _ _ _ _ _ _ _) as [[outcome f]|]; [|done].
  destruct outcome as [[raw at_]|e].
  - destruct (checked_add _ _); [|done]. destruct (_ <? _); [done|]. by intros [= <- <-].
  - destruct e; try done; by intros [= <- <-].
Qed.

Lemma collect_attachment_spec html ck done c link before :
  collected html ck done c -> asked_permitted done before (cg_calls c) ->
  exists outcome calls,
    collect_attachment with_query sha256_hex client attempts (zlen done + 1) link c = Ok (outcome, calls)
    /\ asked_permitted (done ++ [link]) before calls
    /\ match outcome with
       | Ok c' => collected html ck (done ++ [link]) c' /\ cg_calls c' = calls
       | Err _ => True
       end.
Proof.
  intros Hc Hp. unfold collect_attachment. cbn zeta.
  destruct (can_store (al_rights link)) eqn:Hs; cbn [negb].
  2: { eexists _, _. split; [done|]. split.
    { eapply (asked_permitted_snoc _ _ _ _ _ O); [exact Hp|lia|]. cbn. by rewrite app_nil_r. }
    split; [|done]. set (n := zlen done + 1).
    replace (skip_attachment n link c (cg_state c) None (cg_calls c))
      with (one_more n link c (cg_state c) false None None (cg_calls c))
      by (unfold skip_attachment, one_more; cbn; by rewrite !app_nil_r).
    apply one_more_collected; try done; [cbn; lia|apply Hc|]. exists []. split; [by apply written_refl|done]. }
  destruct (can_process (al_rights link)) eqn:Hpr; cbn [negb].
  - destruct (download_spec (zlen done + 1) link (cg_state c) 2 (cg_calls c) Hpr)
      as (outcome & calls & -> & Hask & Hgot).
    eexists _, calls. split; [done|]. split.
    { eapply asked_again_permitted; [exact Hp|exact Hask|]. unfold permitted. by rewrite Hs, Hpr. }
    destruct outcome as [d|e]; [|done]. destruct Hgot as [Hgot Hcalls].
    destruct (bool_decide_reflect (dl_bytes d = [])) as [Hb|Hb].
    + split; [|done]. apply skip_collected; try done. pose proof (gd_missing _ _ _ _ Hgot) as Hg.
      destruct (dl_missing d); [done|]. destruct Hg as [Hg _]. rewrite Hb in Hg. by destruct (al_format link).
    + split; [by apply keep_collected|done].
  - destruct (download_original_spec (zlen done + 1) link (cg_state c) (cg_calls c) Hpr)
      as (outcome & calls & Hdl & Hask & Hgot). rewrite Hdl.
    eexists _, calls. split; [done|]. split.
    { eapply asked_again_permitted; [exact Hp|exact Hask|]. unfold permitted. by rewrite Hs, Hpr. }
    destruct outcome as [d|e]; [|done]. destruct Hgot as [Hgot Hcalls].
    pose proof (download_original_missing _ _ _ _ _ _ Hdl) as Hnil.
    destruct (is_some (dl_missing d)) eqn:Em.
    + split; [|done]. apply skip_collected; auto.
    + split; [by apply keep_collected|done].
Qed.

Lemma collect_attachments_spec html ck before links : forall done c,
  collected html ck done c -> asked_permitted done before (cg_calls c) ->
  exists outcome calls,
    collect_attachments with_query sha256_hex client attempts (zlen done + 1) links c = Ok (outcome, calls)
    /\ asked_permitted (done ++ links) before calls
    /\ match outcome with
       | Ok c' => collected html ck (done ++ links) c' /\ cg_calls c' = calls
       | Err _ => True
       end.
Proof.
  induction links as [|link links IH]; intros done c Hc Hp; cbn [collect_attachments].
  { rewrite app_nil_r. by eexists (Ok c), _. }
  destruct (collect_attachment_spec html ck done c link before Hc Hp) as (outcome & calls & -> & Hask & Hout).
  rewrite cons_middle, app_assoc. destruct outcome as [c'|e].
  - destruct Hout as [Hc' <-]. destruct (IH (done ++ [link]) c' Hc' Hask) as (outcome & calls & Hrun & Hrest).
    rewrite zlen_app in Hrun. change (zlen [link]) with 1 in Hrun. by exists outcome, calls.
  - eexists (Err e), calls. split; [done|]. split; [|done].
    destruct Hask as (tries & Ht & Ha). exists (tries ++ replicate (length links) O). split.
    + apply Forall2_app; [done|]. clear. induction links; constructor; [lia|done].
    + rewrite Ha, zip_with_app by (by eapply Forall2_length). rewrite concat_app. f_equal.
      rewrite <- (app_nil_r (concat (zip_with _ tries _))) at 1. f_equal. clear. induction links; [done|]. done.
Qed.

(** * The metadata *)

Lemma collecting_start html ck calls :
  zlen (ck_raw ck) <= MAX_EVIDENCE_BYTES -> collected html ck [] (collecting html ck calls).
Proof.
  intros Hr. constructor; cbn; try done.
  - by repeat constructor.
  - by repeat constructor.
  - split; [lia|done].
  - exists [], (lr_metadata (ck_record ck)). cbn [concat]. rewrite app_nil_r, with_sections_id.
    split_and!; [done|by destruct (ck_record ck)|done|done|done].
Qed.

(** What the metadata of a detail says about what was collected. *)
Record noted (c : Collecting) (expected : Z) (rec : LegalRecord) : Prop := {
  nt_valid : record_validate rec = Ok tt;
  nt_rest : rec = with_metadata (ex_record (cg_state c)) (lr_metadata rec);
  nt_resources : exists text, resources_json (cg_resources c) = Some text
    /\ lr_metadata rec !! u "original_resources" = Some text;
  nt_ordinals : exists text, ordinals_json (cg_ordinals c) = Some text
    /\ lr_metadata rec !! u "attachment_evidence_ordinals" = Some text;
  nt_missing : cg_missing c <> [] -> exists text, missing_json (cg_missing c) = Some text
    /\ lr_metadata rec !! u "attachment_failures" = Some text
    /\ lr_metadata rec !! u "attachment_status" = Some (u "incomplete")
    /\ lr_metadata rec !! u "attachment_available_count" = Some (show_Z (expected - zlen (cg_missing c)));
}.

Lemma put_same key value rec : lr_metadata (put_metadata key value rec) !! key = Some value.
Proof. apply lookup_insert_eq. Qed.

Lemma put_other key other value rec :
  str_eqb key other = false -> lr_metadata (put_metadata key value rec) !! other = lr_metadata rec !! other.
Proof. intros Hk. apply lookup_insert_ne. intros ->. by rewrite str_eqb_refl in Hk. Qed.

Ltac look_up :=
  repeat match goal with
    | |- context [lr_metadata (put_metadata ?k _ _) !! ?k] => rewrite put_same
    | |- context [lr_metadata (put_metadata ?k ?v ?r) !! ?k'] =>
      rewrite (put_other k k' v r) by (vm_compute; reflexivity)
    end; try done.

Lemma note_collected_spec html ck links c :
  collected html ck links c ->
  answers (note_collected (zlen links) c)
  /\ forall rec, note_collected (zlen links) c = Ok rec -> noted c (zlen links) rec.
Proof.
  intros Hc. pose proof (co_missing _ _ _ _ Hc) as Hm. apply numbered_length in Hm; [|apply zlen_nonneg].
  unfold missing_ordinals, zlen in Hm. rewrite length_fmap in Hm. change (zlen (cg_missing c) <= zlen links) in Hm.
  assert (Hmiss : answers (note_missing (zlen links) c (ex_record (cg_state c)))
    /\ forall rec, note_missing (zlen links) c (ex_record (cg_state c)) = Ok rec ->
       rec = with_metadata (ex_record (cg_state c)) (lr_metadata rec)
       /\ (cg_missing c <> [] -> exists text, missing_json (cg_missing c) = Some text
            /\ lr_metadata rec !! u "attachment_failures" = Some text
            /\ lr_metadata rec !! u "attachment_status" = Some (u "incomplete")
            /\ lr_metadata rec !! u "attachment_available_count" = Some (show_Z (zlen links - zlen (cg_missing c))))).
  { unfold note_missing. destruct (cg_missing c) as [|m missing] eqn:E.
    { split; [done|]. intros rec [= <-]. split; [by destruct (ex_record _)|done]. }
    unfold checked_sub. rewrite (proj2 (Z.leb_le _ _)) by done. cbn [ok_or].
    destruct (missing_json (m :: missing)) as [text|]; [|done]. cbn [ok_or raise].
    destruct (ordinals_json (cg_ordinals c)) as [ordinals|]; [|done]. cbn [ok_or raise].
    split; [done|]. intros rec [= <-]. split; [done|]. intros _. exists text. split_and!; look_up. }
  unfold note_collected. destruct Hmiss as [Ha Hn].
  destruct (note_missing _ c _) as [rec|e]; [|done]. destruct (Hn rec eq_refl) as [Hr Hmi]. clear Hn Ha.
  destruct (ordinals_json (cg_ordinals c)) as [ordinals|] eqn:Eo; [|done]. cbn [ok_or raise].
  destruct (resources_json (cg_resources c)) as [resources|] eqn:Er; [|done]. cbn [ok_or raise].
  destruct (strings_json _) as [warnings|]; [|done]. cbn [ok_or raise].
  destruct (record_validate _) as [[]|] eqn:Ev; [|done]. split; [done|]. intros rec' [= <-].
  constructor; [done|by rewrite Hr|exists resources; split; [done|]; look_up
    |exists ordinals; split; [done|]; look_up|].
  intros Hne. destruct (Hmi Hne) as (text & Ht & Hf & Hs & Hav). exists text. split_and!; look_up.
Qed.

(** * The check of the record *)

Lemma provisions_answer tree : answers (provision_numbers_checked tree).
Proof.
  unfold provision_numbers_checked. rewrite provision_loop_spec by (cbn; lia || done). cbn zeta. by destruct (_ <? _).
Qed.

Lemma project_identity item output rec :
  project item output = Ok rec -> lr_object rec = ii_object item /\ lr_revision_id rec = ii_revision_id item.
Proof.
  unfold project. destruct (_ && _); [done|].
  destruct (primary_fields _) as [[[[idf tf] nf] rep]|] eqn:Hp; intros Hr;
    [eapply project_primary_sound in Hr|eapply project_additional_sound in Hr]; try done; by split; apply Hr.
Qed.

(** A checked record is the one that was asked for, its attachments are those of
    the response. *)
Lemma check_detail_spec item output raw at_ :
  answers (check_detail set_https item output raw at_)
  /\ forall ck, check_detail set_https item output raw at_ = Ok ck ->
     lr_object (ck_record ck) = ii_object item /\ lr_revision_id (ck_record ck) = ii_revision_id item
     /\ ck_raw ck = raw /\ ck_retrieved_at ck = at_
     /\ exists tree, do_tree output = Some tree /\ attachment_links set_https tree = Ok (ck_links ck).
Proof.
  unfold check_detail. destruct (project item output) as [rec|e] eqn:Ep; [|done]. cbn [raise].
  apply project_identity in Ep.
  assert (Hn : answers (note_provisions item output rec)
    /\ forall rec', note_provisions item output rec = Ok rec' ->
       lr_object rec' = lr_object rec /\ lr_revision_id rec' = lr_revision_id rec).
  { unfold note_provisions. destruct (bool_decide _); [|by split; [|intros r [= <-]]].
    destruct (do_tree output) as [tree|]; [|done]. cbn [ok_or raise].
    pose proof (provisions_answer tree) as Ha. destruct (provision_numbers_checked tree) as [found|e]; [|by split].
    destruct (strings_json found); [|done]. by split; [|intros r [= <-]]. }
  destruct Hn as [Ha Hn]. destruct (note_provisions item output rec) as [rec1|e]; [|by split].
  destruct (Hn rec1 eq_refl) as [Ho Hr]. cbn zeta.
  assert (Hs : lr_object (note_supplementary output rec1) = ii_object item
    /\ lr_revision_id (note_supplementary output rec1) = ii_revision_id item).
  { unfold note_supplementary. destruct Ep. destruct (opt_test _ _); cbn; split; congruence. }
  destruct (record_validate _); [|done]. destruct (do_tree output) as [tree|]; [|done]. cbn [ok_or raise].
  destruct (attachment_links set_https tree) as [links|] eqn:El; [|done]. cbn [raise].
  split; [done|]. intros ck [= <-]. cbn. destruct Hs. split_and!; try done. by exists tree.
Qed.

(** * The detail *)

Section routes.
Context (request_link : Request -> option Link) (now : Z).

(** The record was read from the response to its own request. *)
Record read_from (item : InventoryItem) (format : DocumentFormat) (ck : Checked) : Prop := {
  rf_delivered : exists marked output,
    delivered client (attempts O) format None (ck_raw ck) marked
    /\ fa_processed (attempts O) (document_input sha256_hex format (ck_raw ck) false) = Ok output
    /\ check_detail set_https item (if marked : bool then mark_redacted output else output) (ck_raw ck)
         (fa_retrieved_at (attempts O)) = Ok ck;
  rf_object : lr_object (ck_record ck) = ii_object item;
  rf_revision : lr_revision_id (ck_record ck) = ii_revision_id item;
}.

(** A detail that was collected: its evidence, its record and its metadata. *)
Definition collected_as (html : bool) (ck : Checked) (first calls : Calls) (d : ProviderDetail) : Prop :=
  pd_raw d = ck_raw ck /\ free_of (lc_credential client) (pd_raw d) /\ pd_source_observations d = []
  /\ exists c,
       collect_attachments with_query sha256_hex client attempts 1 (ck_links ck) (collecting html ck first)
         = Ok (Ok c, calls)
       /\ collected html ck (ck_links ck) c /\ noted c (zlen (ck_links ck)) (pd_record d)
       /\ pd_additional_evidence d = cg_evidence c.

Definition asked_first (link : Link) (format : DocumentFormat) (calls : Calls) : Prop :=
  cl_asked calls = [(link, format)].

(** The outcomes of a detail request. *)
Inductive detail_outcome (item : InventoryItem) : result DatabaseError ProviderDetail -> Calls -> Prop :=
| Listed_only outcome calls :
    sf_metadata_only (source_family (oid_dataset (ii_object item)))
      || bool_decide (sf_detail_mode (source_family (oid_dataset (ii_object item))) = ListOnly) = true ->
    cl_asked calls = [] -> outcome = metadata_detail item [] now false -> detail_outcome item outcome calls
| Unreachable e calls : cl_asked calls = [] -> detail_outcome item (Err e) calls
| Refused e link format calls :
    detail_link client request_link item = Ok link -> asked_first link format calls ->
    detail_outcome item (Err e) calls
| Unverified link raw marked at_ outcome calls :
    detail_link client request_link item = Ok link -> asked_first link Xml calls ->
    oid_dataset (ii_object item) = EnglishStatute ->
    delivered client (attempts O) Xml None raw marked -> free_of (lc_credential client) raw ->
    outcome = english_detail client item raw at_ -> detail_outcome item outcome calls
| Collected link first ck outcome calls :
    detail_link client request_link item = Ok link ->
    asked_first link (if precedent_html item then Html else Xml) first ->
    read_from item (if precedent_html item then Html else Xml) ck ->
    asked_permitted (ck_links ck) first calls ->
    match outcome with Ok d => collected_as (precedent_html item) ck first calls d | Err _ => True end ->
    detail_outcome item outcome calls.

Lemma settled_answers {A} (r : result (stop DatabaseError) A) calls :
  answers r -> exists outcome, settled r calls = Ok (outcome, calls) /\ forall a, outcome = Ok a -> r = Ok a.
Proof. destruct r as [a|[e| |]]; [|..|done|done]; intros _; eexists; (split; [done|]); naive_solver. Qed.

Lemma collected_detail_spec html ck calls :
  free_of (lc_credential client) (ck_raw ck) -> zlen (ck_raw ck) <= MAX_EVIDENCE_BYTES ->
  exists outcome after,
    collected_detail with_query sha256_hex client attempts html ck calls = Ok (outcome, after)
    /\ asked_permitted (ck_links ck) calls after
    /\ match outcome with Ok d => collected_as html ck calls after d | Err _ => True end.
Proof.
  intros Hfree Hsize. unfold collected_detail.
  destruct (collect_attachments_spec html ck calls (ck_links ck) [] (collecting html ck calls))
    as (outcome & after & Hrun & Hask & Hout).
  { by apply collecting_start. }
  { exists []. split; [constructor|]. cbn. by rewrite app_nil_r. }
  change (zlen (@nil AttachmentLink) + 1) with 1 in Hrun. rewrite Hrun. cbn [app] in *.
  destruct outcome as [c|e]; [|by eexists _, _]. destruct Hout as [Hc <-].
  destruct (note_collected_spec html ck (ck_links ck) c Hc) as [Ha Hn].
  destruct (note_collected (zlen (ck_links ck)) c) as [rec|[e| |]]; try done; (eexists _, _; split; [done|]; split; [done|]).
  - repeat (split; [done|]). exists c. split; [exact Hrun|]. by split; [|split; [apply Hn|]].
  - done.
Qed.

(** C24. The detail of a record always answers.  A family without rights asks nothing
    of the provider; otherwise the first request is that of the record, and the
    further ones are those for its attachments: none for an attachment that may
    not be stored, one where it may not be processed, at most three otherwise.
    A collected detail is the record that was asked for; no form of the
    credential is in its evidence; every attachment is described, and one that
    may be stored is evidence with the signature of its format or listed as
    missing, never neither. An attachment that is evidence, not missing, and may be
    processed adds the sections of all pages that the processor made of its bytes; any
    other adds none, so of one that failed nothing is left, and the counts of evidence
    and of text with which the next attachment begins are exact. Both stay within their
    limits, and the metadata lists exactly this. *)
Theorem detail_sound item :
  exists outcome calls,
    detail with_query sha256_hex set_https client attempts request_link now item = Ok (outcome, calls)
    /\ detail_outcome item outcome calls.
Proof.
  unfold detail. cbn zeta.
  destruct (sf_metadata_only _ || bool_decide (sf_detail_mode _ = ListOnly)) eqn:Ef.
  { eexists _, _. split; [done|]. by apply Listed_only. }
  destruct (detail_link client request_link item) as [link|e] eqn:El.
  2: { eexists _, _. split; [done|]. by apply Unreachable. }
  destruct (bool_decide_reflect (oid_dataset (ii_object item) = EnglishStatute)) as [He|_].
  - unfold fetch_original.
    destruct (fetch_accounts with_query sha256_hex (T := unit) (fun (s : unit) (_ : DocumentOutput) (_ : list byte) (_ : Z) =>
      (@Ok DatabaseError unit tt, s)) client link Xml false None false (attempts O) tt)
      as (f & Hf & [_ Hres _ _ _]); [done|]. rewrite Hf.
    destruct (ft_result f) as [[value|raw at_|raw html reason]|e].
    + by destruct Hres.
    + destruct Hres as (_ & _ & marked & Hdel & _). eexists _, _. split; [done|].
      by eapply Unverified; [done|..|by eapply delivered_free|].
    + by destruct Hres as (? & _).
    + eexists _, _. split; [done|]. by eapply (Refused _ _ link Xml).
  - unfold fetch_parse_timed_checked.
    set (format := if precedent_html item then Html else Xml).
    destruct (fetch_accounts with_query sha256_hex
      (fun (s : unit) output raw at_ => (lift (check_detail set_https item output raw at_), s))
      client link format false None true (attempts O) tt) as (f & Hf & [_ Hres _ _ _]); [done|]. rewrite Hf.
    destruct (ft_result f) as [[value|raw at_|raw html reason]|e].
    + destruct Hres as (_ & raw & marked & output & Hdel & _ & Hp & Hc).
      set (out := if marked : bool then mark_redacted output else output) in *.
      destruct (check_detail_spec item out raw (fa_retrieved_at (attempts O))) as [Ha Hck].
      destruct (check_detail set_https item out raw _) as [ck|[e| |]] eqn:Ec; cbn in Hc; [|done..].
      injection Hc as <- _. destruct (Hck ck eq_refl) as (Ho & Hr & Hraw & Hat & _). subst raw.
      destruct (collected_detail_spec (precedent_html item) ck (called no_calls link format f))
        as (outcome & after & Hrun & Hask & Hout); [by eapply delivered_free|by eapply delivered_size|].
      exists outcome, after. split; [exact Hrun|].
      eapply Collected; [done| | |exact Hask|exact Hout]; [done|].
      constructor; [|done|done]. by exists marked, output.
    + by destruct Hres.
    + by destruct Hres as (_ & ? & _).
    + eexists _, _. split; [done|]. by eapply (Refused _ _ link format).
Qed.
End routes.
End detail.

(** * A law with two annexes, one of them licensed *)

Definition annexed_tree : DocumentNode :=
  Element (u "법령") []
    [leaf "법령ID" "000001"; leaf "법령일련번호" "100"; leaf "법령명_한글" "견본법"; leaf "시행일자" "20240101";
     sample_article "0001001" "목적" "제1조(목적)";
     Element (u "별표") [] [text_leaf "별표서식PDF파일링크" "10"];
     Element (u "별표") [] [
       text_leaf "공공누리유형" "1"; text_leaf "이용허락근거URL" "https://www.kogl.or.kr/";
       text_leaf "출처표시" "Ministry"; text_leaf "별표서식PDF파일링크" "11"]].

Definition annex_bytes : list byte := bytes (u "%PDF-1.7 annex").

(** The first request meets the law, the later ones the annex. *)
Definition annex_attempts (n : nat) : FetchAttempt := {|
  fa_cancelled := false; fa_admitted := Ok tt; fa_interrupted := None;
  fa_lookup := Some [V4 27 101 209 204]; fa_client := true;
  fa_response := Some {|
    rs_status := 200; rs_retry_after := None; rs_content_encoding := None; rs_content_type := None;
    rs_content_length := None;
    rs_chunks := [Some match n with O => bytes (u "<law/>") | _ => annex_bytes end] |};
  fa_date_from_now _ := None; fa_paused := Ok tt; fa_settled := Ok tt; fa_suspended := Ok tt; fa_active := true;
  fa_retrieved_at := 1700000000; fa_archived := Ok tt;
  fa_processed input := Ok {|
    do_source_sha256 := di_source_sha256 input; do_processor_version := u "v1"; do_format := di_format input;
    do_tree := match n with O => Some annexed_tree | _ => None end; do_text := u "annex";
    do_pages := []; do_ocr_pages := []; do_diagnostics := [] |};
|}.

Definition annex_codecs : LegalCodecs :=
  {| url_parse value := Some {| url_scheme := u "https"; url_host := Some (u "www.law.go.kr"); url_username := [];
       url_password := None; url_path := u "/"; url_query := None; url_fragment := None; url_query_pairs := [] |};
     parse_resources _ := Some [{|
       res_ordinal := 0; res_title := u "law"; res_media_type := u "application/xml";
       res_source_url := u "https://www.law.go.kr/"; res_retained := true; res_rights := legal_information |}] |}.

Definition annex_json : DetailJson :=
  {| resources_json _ := Some (u "[]"); item_json _ := Some []; strings_json _ := Some (u "[]") |}.
Definition annex_processors : ProcessorJson :=
  {| parse_processors _ := Some []; processors_json _ := Some (u "[]") |}.
Definition annex_lists : CollectingJson :=
  {| missing_json _ := Some (u "[]"); ordinals_json _ := Some (u "[2]") |}.

Definition annex_detail : result (stop DatabaseError) (result DatabaseError ProviderDetail * Calls) :=
  @detail link_form sample_links sample_unicode annex_codecs sample_urls annex_json annex_processors annex_lists
    (fun link _ => lk_text link) (fun _ => replicate 64 48) Some sample_client annex_attempts
    (fun _ => Some sample_destination) 0 sample_item.

(** Of the two annexes only the licensed one is asked for. *)
Lemma detail_sound_witness :
  exists d calls, annex_detail = Ok (Ok d, calls)
    /\ pd_additional_evidence d = [annex_bytes] /\ length (cl_asked calls) = 2%nat
    /\ @detail_outcome link_form sample_links sample_unicode annex_codecs sample_urls annex_json annex_processors
         annex_lists (fun link _ => lk_text link) (fun _ => replicate 64 48) Some sample_client annex_attempts (fun _ => Some sample_destination) 0
         sample_item (Ok d) calls.
Proof.
  destruct (@detail_sound link_form link_form_laws sample_links sample_unicode annex_codecs sample_urls annex_json
    annex_processors annex_lists (fun link _ => lk_text link) (fun _ => replicate 64 48) Some sample_client
    annex_attempts (fun _ => Some sample_destination) 0 sample_item) as (outcome & calls & Hrun & Hout).
  destruct outcome as [d|e]; [|exfalso; vm_compute in Hrun; discriminate Hrun].
  exists d, calls. split; [exact Hrun|]. vm_compute in Hrun. injection Hrun as Hd Hc.
  split; [rewrite <- Hd; reflexivity|]. split; [rewrite <- Hc; reflexivity|exact Hout].
Defined.
