(* ===== verification/Supplements.v ===== *)
(** The supplementary views of the provider,
    [crates/adapters/src/law_go_kr/supplements.rs]: the closed table of views,
    the requests that identifiers and terms of earlier responses stand for, and
    the reading of a page.  Writing a request or a link as text is the [url]
    crate's. *)

From S2P Require Import Prelude Utf8 Strings Slices Domain Legal InForce Citation Document Catalogue ProviderTree Projection Requests Redaction Attachments HttpUpstream ProviderResponse ProviderFetch ProviderDetail.

(** * Data *)

Inductive SupplementSource :=
| StatuteAbbreviations | StatuteAnnexInventory | AdministrativeRuleAnnexInventory
| OrdinanceAnnexInventory | LegalKnowledgeTermInventory | EverydayTermInventory
| StatuteOrdinanceInventory | OrdinanceStatuteInventory | StatuteHierarchyInventory
| StatuteComparisonInventory | StatuteThreeColumnInventory | StatuteOverviewInventory
| AdministrativeRuleComparisonInventory | StatuteOrdinanceStatus | StatuteChangeInventory
| ProvisionChangeInventory | StatuteDelegation | StatuteHierarchy | StatuteComparison
| StatuteReferencedComparison | StatuteDelegatedComparison | StatuteOverview
| AdministrativeRuleComparison | ProvisionHistory | LegalTermEverydayRelations
| EverydayTermLegalRelations | LegalTermProvisionRelations | ProvisionLegalTermRelations
| RelatedStatutes.

#[export] Instance SupplementSource_eq_dec : EqDecision SupplementSource.
Proof. solve_decision. Defined.

Inductive SeedKind :=
| GlobalSeed | NationalRecord | AdministrativeRuleRecord | ProvisionSeed | LegalTermSeed
| EverydayTermSeed | ChangeDaySeed | ChangeWindowSeed.

#[export] Instance SeedKind_eq_dec : EqDecision SeedKind.
Proof. solve_decision. Defined.

Inductive Pagination := Singleton | Numbered | ProviderDefault.

#[export] Instance Pagination_eq_dec : EqDecision Pagination.
Proof. solve_decision. Defined.

Record SupplementContract := {
  sc_source : SupplementSource; sc_guide : str; sc_seed_kind : SeedKind; sc_pagination : Pagination;
  sc_row_identity_fields : list str; sc_metadata_only : bool; sc_reason : str;
}.

Definition SUPPLEMENT_CONTRACTS : list SupplementContract := [
  {| sc_source := StatuteAbbreviations; sc_guide := u "lsAbrvListGuide"; sc_seed_kind := GlobalSeed;
     sc_pagination := Singleton; sc_row_identity_fields := fields ["법령ID"];
     sc_metadata_only := false; sc_reason := u "documented_legal_information_or_inventory_metadata" |};
  {| sc_source := StatuteAnnexInventory; sc_guide := u "lsBylListGuide"; sc_seed_kind := GlobalSeed;
     sc_pagination := Numbered; sc_row_identity_fields := fields ["별표일련번호"];
     sc_metadata_only := false; sc_reason := u "documented_legal_information_or_inventory_metadata" |};
  {| sc_source := AdministrativeRuleAnnexInventory; sc_guide := u "admrulBylListGuide"; sc_seed_kind := GlobalSeed;
     sc_pagination := Numbered; sc_row_identity_fields := fields ["별표일련번호"];
     sc_metadata_only := false; sc_reason := u "documented_legal_information_or_inventory_metadata" |};
  {| sc_source := OrdinanceAnnexInventory; sc_guide := u "ordinBylListGuide"; sc_seed_kind := GlobalSeed;
     sc_pagination := Numbered; sc_row_identity_fields := fields ["별표일련번호"];
     sc_metadata_only := false; sc_reason := u "documented_legal_information_or_inventory_metadata" |};
  {| sc_source := LegalKnowledgeTermInventory; sc_guide := u "lstrmAIGuide"; sc_seed_kind := GlobalSeed;
     sc_pagination := Numbered; sc_row_identity_fields := fields ["법령용어명"];
     sc_metadata_only := false; sc_reason := u "documented_legal_information_or_inventory_metadata" |};
  {| sc_source := EverydayTermInventory; sc_guide := u "dlytrmGuide"; sc_seed_kind := GlobalSeed;
     sc_pagination := Numbered; sc_row_identity_fields := fields ["일상용어명"];
     sc_metadata_only := false; sc_reason := u "documented_legal_information_or_inventory_metadata" |};
  {| sc_source := StatuteOrdinanceInventory; sc_guide := u "lsOrdinConListGuide"; sc_seed_kind := GlobalSeed;
     sc_pagination := Numbered; sc_row_identity_fields := fields ["법령ID"];
     sc_metadata_only := false; sc_reason := u "documented_legal_information_or_inventory_metadata" |};
  {| sc_source := OrdinanceStatuteInventory; sc_guide := u "ordinLsConListGuide"; sc_seed_kind := GlobalSeed;
     sc_pagination := Numbered; sc_row_identity_fields := fields ["자치법규ID"];
     sc_metadata_only := false; sc_reason := u "documented_legal_information_or_inventory_metadata" |};
  {| sc_source := StatuteHierarchyInventory; sc_guide := u "lsStmdListGuide"; sc_seed_kind := GlobalSeed;
     sc_pagination := Numbered; sc_row_identity_fields := fields ["법령ID"];
     sc_metadata_only := false; sc_reason := u "documented_legal_information_or_inventory_metadata" |};
  {| sc_source := StatuteComparisonInventory; sc_guide := u "oldAndNewListGuide"; sc_seed_kind := GlobalSeed;
     sc_pagination := Numbered; sc_row_identity_fields := fields ["신구법ID"];
     sc_metadata_only := false; sc_reason := u "documented_legal_information_or_inventory_metadata" |};
  {| sc_source := StatuteThreeColumnInventory; sc_guide := u "thdCmpListGuide"; sc_seed_kind := GlobalSeed;
     sc_pagination := Numbered; sc_row_identity_fields := fields ["법령ID"];
     sc_metadata_only := false; sc_reason := u "documented_legal_information_or_inventory_metadata" |};
  {| sc_source := StatuteOverviewInventory; sc_guide := u "oneViewListGuide"; sc_seed_kind := GlobalSeed;
     sc_pagination := Numbered; sc_row_identity_fields := fields ["법령일련번호"];
     sc_metadata_only := false; sc_reason := u "documented_legal_information_or_inventory_metadata" |};
  {| sc_source := AdministrativeRuleComparisonInventory; sc_guide := u "admrulOldAndNewListGuide"; sc_seed_kind := GlobalSeed;
     sc_pagination := Numbered; sc_row_identity_fields := fields ["신구법ID"];
     sc_metadata_only := false; sc_reason := u "documented_legal_information_or_inventory_metadata" |};
  {| sc_source := StatuteOrdinanceStatus; sc_guide := u "lsOrdinConGuide"; sc_seed_kind := GlobalSeed;
     sc_pagination := Singleton; sc_row_identity_fields := [];
     sc_metadata_only := false; sc_reason := u "documented_legal_information_or_inventory_metadata" |};
  {| sc_source := StatuteChangeInventory; sc_guide := u "lsChgListGuide"; sc_seed_kind := ChangeDaySeed;
     sc_pagination := Numbered; sc_row_identity_fields := fields ["법령ID"];
     sc_metadata_only := false; sc_reason := u "documented_legal_information_or_inventory_metadata" |};
  {| sc_source := ProvisionChangeInventory; sc_guide := u "lsDayJoRvsListGuide"; sc_seed_kind := ChangeWindowSeed;
     sc_pagination := ProviderDefault; sc_row_identity_fields := fields ["법령ID"];
     sc_metadata_only := false; sc_reason := u "documented_legal_information_or_inventory_metadata" |};
  {| sc_source := StatuteDelegation; sc_guide := u "lsDelegated"; sc_seed_kind := NationalRecord;
     sc_pagination := Singleton; sc_row_identity_fields := fields ["법령ID"];
     sc_metadata_only := false; sc_reason := u "documented_legal_information_or_inventory_metadata" |};
  {| sc_source := StatuteHierarchy; sc_guide := u "lsStmdInfoGuide"; sc_seed_kind := NationalRecord;
     sc_pagination := Singleton; sc_row_identity_fields := fields ["법령ID"];
     sc_metadata_only := false; sc_reason := u "documented_legal_information_or_inventory_metadata" |};
  {| sc_source := StatuteComparison; sc_guide := u "oldAndNewInfoGuide"; sc_seed_kind := NationalRecord;
     sc_pagination := Singleton; sc_row_identity_fields := fields ["법령ID"];
     sc_metadata_only := false; sc_reason := u "documented_legal_information_or_inventory_metadata" |};
  {| sc_source := StatuteReferencedComparison; sc_guide := u "thdCmpInfoGuide"; sc_seed_kind := NationalRecord;
     sc_pagination := Singleton; sc_row_identity_fields := fields ["법령ID"];
     sc_metadata_only := false; sc_reason := u "documented_legal_information_or_inventory_metadata" |};
  {| sc_source := StatuteDelegatedComparison; sc_guide := u "thdCmpInfoGuide"; sc_seed_kind := NationalRecord;
     sc_pagination := Singleton; sc_row_identity_fields := fields ["법령ID"];
     sc_metadata_only := false; sc_reason := u "documented_legal_information_or_inventory_metadata" |};
  {| sc_source := StatuteOverview; sc_guide := u "oneViewInfoGuide"; sc_seed_kind := NationalRecord;
     sc_pagination := Singleton; sc_row_identity_fields := fields ["법령일련번호"];
     sc_metadata_only := true; sc_reason := u "external_explanatory_content_reuse_unverified" |};
  {| sc_source := AdministrativeRuleComparison; sc_guide := u "admrulOldAndNewInfoGuide"; sc_seed_kind := AdministrativeRuleRecord;
     sc_pagination := Singleton; sc_row_identity_fields := fields ["행정규칙ID"];
     sc_metadata_only := false; sc_reason := u "documented_legal_information_or_inventory_metadata" |};
  {| sc_source := ProvisionHistory; sc_guide := u "lsJoChgListGuide"; sc_seed_kind := ProvisionSeed;
     sc_pagination := Numbered; sc_row_identity_fields := fields ["법령일련번호"];
     sc_metadata_only := false; sc_reason := u "documented_legal_information_or_inventory_metadata" |};
  {| sc_source := LegalTermEverydayRelations; sc_guide := u "lstrmRltGuide"; sc_seed_kind := LegalTermSeed;
     sc_pagination := Singleton; sc_row_identity_fields := fields ["일상용어명"];
     sc_metadata_only := false; sc_reason := u "documented_legal_information_or_inventory_metadata" |};
  {| sc_source := EverydayTermLegalRelations; sc_guide := u "dlytrmRltGuide"; sc_seed_kind := EverydayTermSeed;
     sc_pagination := Singleton; sc_row_identity_fields := fields ["법령용어명"];
     sc_metadata_only := false; sc_reason := u "documented_legal_information_or_inventory_metadata" |};
  {| sc_source := LegalTermProvisionRelations; sc_guide := u "lstrmRltJoGuide"; sc_seed_kind := LegalTermSeed;
     sc_pagination := Singleton; sc_row_identity_fields := fields ["법령명"];
     sc_metadata_only := false; sc_reason := u "documented_legal_information_or_inventory_metadata" |};
  {| sc_source := ProvisionLegalTermRelations; sc_guide := u "joRltLstrmGuide"; sc_seed_kind := ProvisionSeed;
     sc_pagination := Singleton; sc_row_identity_fields := fields ["법령용어명"];
     sc_metadata_only := false; sc_reason := u "documented_legal_information_or_inventory_metadata" |};
  {| sc_source := RelatedStatutes; sc_guide := u "lsRltGuide"; sc_seed_kind := NationalRecord;
     sc_pagination := Singleton; sc_row_identity_fields := fields ["관련법령ID"];
     sc_metadata_only := false; sc_reason := u "documented_legal_information_or_inventory_metadata" |}].

Definition contract_index (source : SupplementSource) : nat :=
  match source with
  | StatuteAbbreviations => 0
  | StatuteAnnexInventory => 1
  | AdministrativeRuleAnnexInventory => 2
  | OrdinanceAnnexInventory => 3
  | LegalKnowledgeTermInventory => 4
  | EverydayTermInventory => 5
  | StatuteOrdinanceInventory => 6
  | OrdinanceStatuteInventory => 7
  | StatuteHierarchyInventory => 8
  | StatuteComparisonInventory => 9
  | StatuteThreeColumnInventory => 10
  | StatuteOverviewInventory => 11
  | AdministrativeRuleComparisonInventory => 12
  | StatuteOrdinanceStatus => 13
  | StatuteChangeInventory => 14
  | ProvisionChangeInventory => 15
  | StatuteDelegation => 16
  | StatuteHierarchy => 17
  | StatuteComparison => 18
  | StatuteReferencedComparison => 19
  | StatuteDelegatedComparison => 20
  | StatuteOverview => 21
  | AdministrativeRuleComparison => 22
  | ProvisionHistory => 23
  | LegalTermEverydayRelations => 24
  | EverydayTermLegalRelations => 25
  | LegalTermProvisionRelations => 26
  | ProvisionLegalTermRelations => 27
  | RelatedStatutes => 28
  end.

Definition guide_index (source : SupplementSource) : nat :=
  match source with
  | StatuteAbbreviations => 22
  | StatuteAnnexInventory => 67
  | AdministrativeRuleAnnexInventory => 68
  | OrdinanceAnnexInventory => 69
  | LegalKnowledgeTermInventory => 100
  | EverydayTermInventory => 101
  | StatuteOrdinanceInventory => 13
  | OrdinanceStatuteInventory => 32
  | StatuteHierarchyInventory => 16
  | StatuteComparisonInventory => 18
  | StatuteThreeColumnInventory => 20
  | StatuteOverviewInventory => 24
  | AdministrativeRuleComparisonInventory => 28
  | StatuteOrdinanceStatus => 14
  | StatuteChangeInventory => 10
  | ProvisionChangeInventory => 11
  | StatuteDelegation => 15
  | StatuteHierarchy => 17
  | StatuteComparison => 19
  | StatuteReferencedComparison => 21
  | StatuteDelegatedComparison => 21
  | StatuteOverview => 25
  | AdministrativeRuleComparison => 29
  | ProvisionHistory => 12
  | LegalTermEverydayRelations => 102
  | EverydayTermLegalRelations => 103
  | LegalTermProvisionRelations => 104
  | ProvisionLegalTermRelations => 105
  | RelatedStatutes => 106
  end.

(** The indices are inside their tables. *)
Definition contract (source : SupplementSource) : SupplementContract :=
  List.nth (contract_index source) SUPPLEMENT_CONTRACTS
    {| sc_source := source; sc_guide := []; sc_seed_kind := GlobalSeed; sc_pagination := Singleton;
       sc_row_identity_fields := []; sc_metadata_only := true; sc_reason := [] |}.

Definition guide (source : SupplementSource) : GuideEntry :=
  List.nth (guide_index source) GUIDE_ENTRIES
    {| ge_guide := []; ge_kind := NeedsVerification; ge_path := []; ge_target := [];
       ge_request_fields := []; ge_response_fields := []; ge_reason := [] |}.

(** * Seeds *)

Inductive SupplementSeed :=
| Global
| RecordSeed (object : ObjectId) (record_number : str)
| Provision (object : ObjectId) (number : str)
| LegalTermNamed (name : str)
| EverydayTerm (name : str)
| ChangeDay (date : str)
| ChangeWindow (from to : str).

#[export] Instance SupplementSeed_eq_dec : EqDecision SupplementSeed.
Proof. solve_decision. Defined.

Definition record_seed (item : InventoryItem) : result DatabaseError SupplementSeed :=
  let? _ := validate_for_detail item in
  let? parts := revision_parts item in
  Ok (RecordSeed (ii_object item) parts.1).

(** * Requests *)

(** A [BTreeMap] is the list of its entries in the order of the keys. *)
Fixpoint tree_insert (key value : str) (m : list (str * str)) : list (str * str) :=
  match m with
  | [] => [(key, value)]
  | (k, v) :: m =>
    match str_cmp key k with
    | Lt => (key, value) :: (k, v) :: m
    | Eq => (key, value) :: m
    | Gt => (k, v) :: tree_insert key value m
    end
  end.

Record SupplementRequest := {
  sr_source : SupplementSource; sr_seed : SupplementSeed; sr_page : Z; sr_parameters : list (str * str);
}.

Definition sr_format (request : SupplementRequest) : DocumentFormat :=
  if bool_decide (sr_source request = StatuteOrdinanceStatus) then Html else Xml.

Definition sr_metadata_only (request : SupplementRequest) : bool := sc_metadata_only (contract (sr_source request)).

Definition same_work_as (a b : SupplementRequest) : bool :=
  if negb (bool_decide (sr_source a = sr_source b)) || negb (sr_page a =? sr_page b) then false
  else if bool_decide (sr_source a = RelatedStatutes) then
    match sr_seed a, sr_seed b with
    | RecordSeed left_ _, RecordSeed right_ _ => bool_decide (left_ = right_)
    | _, _ => false
    end
  else bool_decide (sr_seed a = sr_seed b).

Definition source_url (request : SupplementRequest) : Request :=
  let entry := guide (sr_source request) in
  {| rq_service := ge_path entry;
     rq_pairs := [(u "target", ge_target entry);
                  (u "type", if bool_decide (sr_format request = Html) then u "HTML" else u "XML")]
                 ++ sr_parameters request |}.

Definition all_zero (value : str) : bool := forallb (fun b => b =? ch "0") (bytes value).

Definition provider_object (object : ObjectId) (dataset : Dataset) : result DatabaseError unit :=
  let? _ := object_validate object in
  if negb (str_eqb (oid_provider object) (u "law_go_kr")) || negb (str_eqb (oid_jurisdiction object) (u "kr"))
     || negb (bool_decide (oid_dataset object = dataset)) || negb (numeric_id (oid_id object))
     || all_zero (oid_id object)
  then Err InvalidInput else Ok tt.

Definition term_name (name : str) : result DatabaseError unit :=
  if str_eqb name [] || (512 <? slen name) || existsb is_control name then Err InvalidInput else Ok tt.

Definition bad_number (value : str) : bool := negb (numeric_id value) || all_zero value.

(** The parameters that a seed stands for. *)
Definition seed_parameters (source : SupplementSource) (seed : SupplementSeed) : result DatabaseError (list (str * str)) :=
  match seed, sc_seed_kind (contract source) with
  | Global, GlobalSeed => Ok []
  | RecordSeed object record_number, NationalRecord =>
    let? _ := provider_object object NationalStatute in
    if bad_number record_number then Err InvalidInput
    else Ok (if bool_decide (source = RelatedStatutes) then tree_insert (u "ID") (oid_id object) []
             else tree_insert (u "MST") record_number [])
  | RecordSeed object record_number, AdministrativeRuleRecord =>
    let? _ := provider_object object AdministrativeRule in
    if bad_number record_number then Err InvalidInput else Ok (tree_insert (u "ID") record_number [])
  | Provision object number, ProvisionSeed =>
    let? _ := provider_object object NationalStatute in
    if negb (slen number =? 6) || negb (forallb is_ascii_digit (bytes number)) || all_zero number
    then Err InvalidInput
    else Ok (tree_insert (u "JO") number (tree_insert (u "ID") (oid_id object) []))
  | LegalTermNamed name, LegalTermSeed | EverydayTerm name, EverydayTermSeed =>
    let? _ := term_name name in Ok (tree_insert (u "query") name [])
  | ChangeDay date, ChangeDaySeed =>
    if negb (valid_date date) then Err InvalidInput else Ok (tree_insert (u "regDt") date [])
  | ChangeWindow from to, ChangeWindowSeed =>
    if negb (valid_date from) || negb (valid_date to) || negb (str_leb from to) then Err InvalidInput
    else Ok (tree_insert (u "toRegDt") to (tree_insert (u "fromRegDt") from []))
  | _, _ => Err InvalidInput
  end.

Definition page_parameters (pagination : Pagination) (page : Z) (parameters : list (str * str)) : list (str * str) :=
  match pagination with
  | Singleton => parameters
  | Numbered => tree_insert (u "page") (show_Z page) (tree_insert (u "display") (u "100") parameters)
  | ProviderDefault => tree_insert (u "page") (show_Z page) parameters
  end.

Definition kind_parameters (source : SupplementSource) (parameters : list (str * str)) : list (str * str) :=
  if bool_decide (source = StatuteReferencedComparison) then tree_insert (u "knd") (u "1") parameters
  else if bool_decide (source = StatuteDelegatedComparison) then tree_insert (u "knd") (u "2") parameters
  else parameters.

Definition undocumented (entry : GuideEntry) (parameters : list (str * str)) : bool :=
  negb (has_name (fields ["/DRF/lawSearch.do"; "/DRF/lawService.do"]%string) (ge_path entry))
  || str_eqb (ge_target entry) [] || negb (forallb is_ascii_alphanumeric (bytes (ge_target entry)))
  || existsb (fun kv => negb (has_name (ge_request_fields entry) kv.1)) parameters.

Definition request (source : SupplementSource) (seed : SupplementSeed) (page : Z)
  : result DatabaseError SupplementRequest :=
  if (page =? 0) || (1000000 <? page) then Err InvalidInput
  else if bool_decide (ge_kind (guide source) = NeedsVerification) then Err SourceUnavailable
  else
    let spec := contract source in
    if bool_decide (sc_pagination spec = Singleton) && negb (page =? 1) then Err InvalidInput
    else
      let? parameters := seed_parameters source seed in
      let parameters := kind_parameters source (page_parameters (sc_pagination spec) page parameters) in
      if undocumented (guide source) parameters then Err SourceDataInvalid
      else Ok {| sr_source := source; sr_seed := seed; sr_page := page; sr_parameters := parameters |}.

(** The next page of an unsigned 32-bit count. *)
Definition next_page (r : SupplementRequest) : result DatabaseError SupplementRequest :=
  if sr_page r =? 2 ^ 32 - 1 then Err Legal.Capacity else request (sr_source r) (sr_seed r) (sr_page r + 1).

(** [iter().filter().map().collect()] of results: the first error. *)
Fixpoint requests_for (contracts : list SupplementContract) (seed : SupplementSeed) (page : Z)
  : result DatabaseError (list SupplementRequest) :=
  match contracts with
  | [] => Ok []
  | c :: contracts =>
    let? r := request (sc_source c) seed page in
    let? rest := requests_for contracts seed page in
    Ok (r :: rest)
  end.

(** The views of a kind of seed that have this page. *)
Definition views (kind : SeedKind) (page : Z) : list SupplementContract :=
  List.filter (fun c => (page =? 1) || negb (bool_decide (sc_pagination c = Singleton)))
    (List.filter (fun c => bool_decide (sc_seed_kind c = kind)) SUPPLEMENT_CONTRACTS).

Definition global_requests (page : Z) : result DatabaseError (list SupplementRequest) :=
  requests_for (views GlobalSeed page) Global page.

Definition seed_kind (seed : SupplementSeed) : option SeedKind :=
  match seed with
  | Global => Some GlobalSeed
  | RecordSeed object _ =>
    match oid_dataset object with
    | NationalStatute => Some NationalRecord
    | AdministrativeRule => Some AdministrativeRuleRecord
    | _ => None
    end
  | Provision _ _ => Some ProvisionSeed
  | LegalTermNamed _ => Some LegalTermSeed
  | EverydayTerm _ => Some EverydayTermSeed
  | ChangeDay _ => Some ChangeDaySeed
  | ChangeWindow _ _ => Some ChangeWindowSeed
  end.

Definition seeded_requests (seed : SupplementSeed) (page : Z) : result DatabaseError (list SupplementRequest) :=
  match seed_kind seed with
  | Some kind => requests_for (views kind page) seed page
  | None => Ok []
  end.

Definition record_requests (item : InventoryItem) (page : Z) : result DatabaseError (list SupplementRequest) :=
  match oid_dataset (ii_object item) with
  | NationalStatute | AdministrativeRule => let? seed := record_seed item in seeded_requests seed page
  | _ => Ok []
  end.

(** * The reading of a page *)

Record SupplementPage := {
  sp_total : option Z; sp_observed_rows : Z; sp_done : option bool; sp_incomplete : bool;
  sp_seeds : list SupplementSeed; sp_source_links : list str;
}.

Definition page_total (tree : DocumentNode) : option Z :=
  (match first tree (u "totalCnt") with
   | Some value => Some value
   | None => first tree (u "검색결과개수")
   end) ≫= parse_unsigned u64_max.

(** The rows before a page and on it. *)
Definition consumed_rows (pagination : Pagination) (page observed observed_before : Z) : result DatabaseError Z :=
  match pagination with
  | Numbered => Ok ((page - 1) * 100 + observed)
  | ProviderDefault => if observed_before + observed <=? u64_max then Ok (observed_before + observed) else Err Legal.Capacity
  | Singleton => Ok observed
  end.

Definition page_incomplete (spec : SupplementContract) (page observed consumed : Z) (total : option Z) : bool :=
  match sc_pagination spec with
  | Numbered =>
    negb (is_some total) || (100 <? observed)
    || opt_test (fun total => (total <? consumed)
         || negb (observed =? Z.min (saturating_sub total ((page - 1) * 100)) 100)) total
  | ProviderDefault =>
    negb (is_some total)
    || opt_test (fun total => (total <? consumed) || ((observed =? 0) && (consumed <? total))) total
  | Singleton =>
    if bool_decide (sc_row_identity_fields spec = []) then true
    else ((observed =? 0) && negb (bool_decide (total = Some 0))) || opt_test (fun total => observed <? total) total
  end.

Definition page_done (pagination : Pagination) (consumed : Z) (total : option Z) : option bool :=
  match pagination with
  | Numbered | ProviderDefault => (fun total => total <=? consumed) <$> total
  | Singleton => Some true
  end.

(** [direct] of a row *)
Definition direct_field (node : DocumentNode) (field : str) : option str :=
  match node with Element _ _ children => direct field children | Text _ => None end.

(** What the loop over the rows fills in. *)
Record Seeding := { sg_seeds : list SupplementSeed; sg_seen : list str; sg_incomplete : bool }.

Definition rejected (s : Seeding) : Seeding :=
  {| sg_seeds := sg_seeds s; sg_seen := sg_seen s; sg_incomplete := true |}.

(** [if seen.insert(key) { seeds.push(seed) }] *)
Definition add_seed (key : str) (seed : SupplementSeed) (s : Seeding) : Seeding :=
  if has_name (sg_seen s) key then s
  else {| sg_seeds := sg_seeds s ++ [seed]; sg_seen := key :: sg_seen s; sg_incomplete := sg_incomplete s |}.

(** The field of a term inventory and the seed a name of it is. *)
Definition term_field (source : SupplementSource) : option (str * (str -> SupplementSeed)) :=
  match source with
  | EverydayTermInventory => Some (u "일상용어명", EverydayTerm)
  | LegalKnowledgeTermInventory => Some (u "법령용어명", LegalTermNamed)
  | _ => None
  end.

(** The term of a row; [None] is the [continue] of a malformed one. *)
Definition row_term (source : SupplementSource) (row : DocumentNode) (s : Seeding) : option Seeding :=
  match term_field source with
  | None => Some s
  | Some (field, seed) =>
    match direct_field row field with
    | None => Some s
    | Some name => if is_ok (term_name name) then Some (add_seed name (seed name) s) else None
    end
  end.

Definition row_dataset (source : SupplementSource) : Dataset :=
  if bool_decide (source = AdministrativeRuleComparisonInventory) then AdministrativeRule else NationalStatute.

Definition record_fields (dataset : Dataset) : str * str :=
  if bool_decide (dataset = AdministrativeRule) then (u "행정규칙ID", u "행정규칙일련번호")
  else (u "법령ID", u "법령일련번호").

Definition row_record (source : SupplementSource) (row : DocumentNode) (s : Seeding) : Seeding :=
  let dataset := row_dataset source in
  let names := record_fields dataset in
  match direct_field row names.1, direct_field row names.2 with
  | Some id, Some record_number =>
    if bad_number id || bad_number record_number then rejected s
    else
      let object := {| oid_jurisdiction := u "kr"; oid_provider := u "law_go_kr"; oid_dataset := dataset; oid_id := id |} in
      add_seed (as_str dataset ++ u ":" ++ id ++ u ":" ++ record_number) (RecordSeed object record_number) s
  | _, _ => s
  end.

Definition row_seeds (source : SupplementSource) (s : Seeding) (row : DocumentNode) : Seeding :=
  match row_term source row s with
  | Some s => row_record source row s
  | None => rejected s
  end.

Section links.
Context `{LinkUrls} (set_https : Link -> option Link) (without_fragment : Link -> Link)
  (with_query : Link -> list (str * str) -> str).

Definition link_secrets : list str :=
  fields ["oc"; "key"; "apikey"; "api_key"; "token"; "servicekey"; "password"]%string.

(** The text of a link without its credentials; [None] is the [continue]. *)
Definition public_link (value : str) : result DatabaseError (option str) :=
  match join_link value with
  | None => Ok None
  | Some link =>
    let url := lk_url link in
    if negb (str_eqb (url_scheme url) (u "http") || str_eqb (url_scheme url) (u "https"))
       || negb (str_eqb (url_username url) []) || is_some (url_password url)
    then Ok None
    else
      let parameters := List.filter (fun kv => negb (has_name link_secrets (to_ascii_lowercase <$> kv.1)))
                          (url_query_pairs url) in
      let? link := if str_eqb (url_scheme url) (u "http") then ok_or (set_https link) InvalidInput else Ok link in
      Ok (Some (with_query (without_fragment link) parameters))
  end.

Fixpoint add_public_links (values : list str) (links : list str) : result DatabaseError (list str) :=
  match values with
  | [] => Ok links
  | value :: values =>
    let? text := public_link value in
    add_public_links values (match text with Some text => set_insert text links | None => links end)
  end.

(** The values of the link fields of a view's guide. *)
Definition link_values (source : SupplementSource) (tree : DocumentNode) : list str :=
  flat_map (fun field => node_text <$> elements field tree)
    (List.filter ends_in_link (ge_response_fields (guide source))).

Definition inspect_page (request : SupplementRequest) (tree : DocumentNode) (observed_before : Z)
  : result DatabaseError SupplementPage :=
  let source := sr_source request in
  let spec := contract source in
  let total := page_total tree in
  let rows := match sc_row_identity_fields spec with [] => [] | names => identity_rows names tree end in
  let observed := zlen rows in
  let? consumed := consumed_rows (sc_pagination spec) (sr_page request) observed observed_before in
  let incomplete := page_incomplete spec (sr_page request) observed consumed total in
  let done_ := if incomplete then None else page_done (sc_pagination spec) consumed total in
  let s := fold_left (row_seeds source) rows {| sg_seeds := []; sg_seen := []; sg_incomplete := incomplete |} in
  let? links := add_public_links (link_values source tree) [] in
  Ok {| sp_total := total; sp_observed_rows := observed;
        sp_done := if sg_incomplete s then None else done_; sp_incomplete := sg_incomplete s;
        sp_seeds := sg_seeds s; sp_source_links := links |}.

(** * Captures *)

Record SupplementCapture := {
  su_observation_key : str; su_source_url : str; su_raw : list byte; su_credentials_redacted : bool;
  su_retrieved_at : Z; su_processor_version : str; su_processing_error : option DatabaseError;
  su_page : SupplementPage;
}.

Inductive SupplementOutcome :=
| Captured (capture : SupplementCapture)
| Deferred (observation_key source_url reason : str).

Section capture.
Context `{FormUrlencoded} `{Unicode} `{LegalCodecs}.
(** A request as the text of a URL, and as a link. *)
Context (url_text : Request -> str) (request_link : Request -> option Link) (sha256_hex : list byte -> str).
Context (client : LawClient) (attempt : FetchAttempt)
  (process : DocumentInput -> result DocumentError DocumentOutput).

Definition observation_key (request : SupplementRequest) : str :=
  u "law_go_kr:" ++ sc_guide (contract (sr_source request)) ++ u ":"
  ++ sha256_hex (bytes (url_text (source_url request))).

Definition analyze_supplement (request : SupplementRequest) (raw : list byte) (observed_before : Z)
  : result DatabaseError (SupplementPage * str) :=
  if sr_metadata_only request || (16 * 1024 * 1024 <? zlen raw) then Err InvalidInput
  else
    match process (document_input sha256_hex (sr_format request) raw false) with
    | Err e => Err (document_error e)
    | Ok output =>
      let? tree := ok_or (do_tree output) SourceDataInvalid in
      let? page := inspect_page request tree observed_before in
      Ok (page, do_processor_version output)
    end.

(** The request with the credential of the client. *)
Definition supplement_request (request : SupplementRequest) : result DatabaseError Request :=
  let entry := guide (sr_source request) in
  let? file := ok_or (strip_prefix (u "/DRF/") (ge_path entry)) InvalidInput in
  let r := api (lc_credential client) file (ge_target entry) in
  let r := if bool_decide (sr_format request = Html) then as_html r else r in
  Ok (append_pairs r (sr_parameters request)).

Definition unprocessed : SupplementPage :=
  {| sp_total := None; sp_observed_rows := 0; sp_done := None; sp_incomplete := true; sp_seeds := [];
     sp_source_links := [] |}.

Definition fetch_supplement (request : SupplementRequest) (observed_before : Z)
  : result (stop DatabaseError) (result DatabaseError SupplementOutcome * Calls) :=
  let key := observation_key request in
  let source := url_text (source_url request) in
  if sr_metadata_only request
  then Ok (Ok (Deferred key source (sc_reason (contract (sr_source request)))), no_calls)
  else
    match (let? r := supplement_request request in ok_or (request_link r) InvalidInput) with
    | Err e => Ok (Err e, no_calls)
    | Ok link =>
      let format := sr_format request in
      let? answer := fetch_original with_query sha256_hex (T := unit) (fun s _ _ _ => (Ok tt, s)) client
                       link format None attempt tt in
      let '(outcome, f) := answer in
      let calls := called no_calls link format f in
      match outcome with
      | Err e => Ok (Err e, calls)
      | Ok (raw, retrieved_at) =>
        let captured page version error :=
          Ok (Ok (Captured {| su_observation_key := key; su_source_url := source; su_raw := raw;
            su_credentials_redacted := has_credential_redaction raw; su_retrieved_at := retrieved_at;
            su_processor_version := version; su_processing_error := error; su_page := page |}), calls) in
        match analyze_supplement request raw observed_before with
        | Ok (page, version) => captured page version None
        | Err Legal.Cancelled => Ok (Err Legal.Cancelled, calls)
        | Err error => captured unprocessed (u "unprocessed") (Some error)
        end
      end
    end.
End capture.
End links.

(** * Coverage of the guides *)

Inductive GuideCoverageStatus :=
| CoveredOriginal (datasets : list Dataset)
| Supplemental (sources : list SupplementSource)
| CoveredAlias
| CoveredQueryOnly
| CoverageUnverified (reason : str).

(** The datasets by the order of their names. *)
Definition guide_datasets (entry : GuideEntry) : list Dataset :=
  sort_by (fun a b => str_leb (as_str a) (as_str b))
    (sf_dataset <$> List.filter (fun family => str_eqb (sf_list_guide family) (ge_guide entry)
                                  || bool_decide (sf_detail_guide family = Some (ge_guide entry))) SOURCE_FAMILIES).

Definition guide_sources (entry : GuideEntry) : list SupplementSource :=
  sc_source <$> List.filter (fun c => str_eqb (sc_guide c) (ge_guide entry)) SUPPLEMENT_CONTRACTS.

Definition coverage_status (entry : GuideEntry) : GuideCoverageStatus :=
  if bool_decide (ge_kind entry = NeedsVerification) then CoverageUnverified (ge_reason entry)
  else
    match guide_datasets entry, guide_sources entry with
    | (_ :: _) as datasets, _ => CoveredOriginal datasets
    | [], (_ :: _) as sources => Supplemental sources
    | [], [] =>
      match ge_kind entry with
      | RepresentationAlias => CoveredAlias
      | QueryOnly => CoveredQueryOnly
      | _ => CoverageUnverified (ge_reason entry)
      end
    end.

Definition guide_coverage : list (str * GuideCoverageStatus) :=
  (fun entry => (ge_guide entry, coverage_status entry)) <$> GUIDE_ENTRIES.
