(* ===== verification/SupplementsFacts.v ===== *)
(** What the supplementary views promise: only documented requests are made, two
    of them that are one request are one piece of work, what a page seeds can be
    asked for, a page that claims to be complete is, and a traversal that ends
    has read every row. *)

From S2P Require Import Prelude Utf8 Strings Slices Domain Legal InForce InForceFacts Citation CitationFacts Document Catalogue ProviderTree Projection ProjectionFacts Requests Redaction RedactionFacts Attachments AttachmentsFacts HttpUpstream ProviderResponse ProviderFetch ProviderFetchFacts ProviderDetail ProviderDetailFacts Supplements.

(** * The tables *)

#[local] Opaque u.

Definition all_sources : list SupplementSource := sc_source <$> SUPPLEMENT_CONTRACTS.

Lemma contract_found source : SUPPLEMENT_CONTRACTS !! contract_index source = Some (contract source).
Proof. destruct source; reflexivity. Qed.

Lemma contract_source source : sc_source (contract source) = source.
Proof. destruct source; reflexivity. Qed.

Lemma contract_listed source : contract source ∈ SUPPLEMENT_CONTRACTS.
Proof. eapply list_elem_of_lookup_2, contract_found. Qed.

Lemma all_sources_complete source : source ∈ all_sources.
Proof. apply list_elem_of_fmap. exists (contract source). by rewrite contract_source; split; [|apply contract_listed]. Qed.

Lemma contract_of c : c ∈ SUPPLEMENT_CONTRACTS -> c = contract (sc_source c).
Proof.
  unfold SUPPLEMENT_CONTRACTS. intros Hc.
  repeat (apply elem_of_cons in Hc as [->|Hc]; [reflexivity|]). by apply elem_of_nil in Hc.
Qed.

(** The keys that the requests of a view may carry. *)
Definition seed_keys (source : SupplementSource) : list str :=
  match sc_seed_kind (contract source) with
  | GlobalSeed => []
  | NationalRecord => if bool_decide (source = RelatedStatutes) then [u "ID"] else [u "MST"]
  | AdministrativeRuleRecord => [u "ID"]
  | ProvisionSeed => [u "ID"; u "JO"]
  | LegalTermSeed | EverydayTermSeed => [u "query"]
  | ChangeDaySeed => [u "regDt"]
  | ChangeWindowSeed => [u "fromRegDt"; u "toRegDt"]
  end.

Definition page_keys (pagination : Pagination) : list str :=
  match pagination with Singleton => [] | Numbered => [u "display"; u "page"] | ProviderDefault => [u "page"] end.

Definition kind_keys (source : SupplementSource) : list str :=
  if bool_decide (source = StatuteReferencedComparison) || bool_decide (source = StatuteDelegatedComparison)
  then [u "knd"] else [].

Definition view_keys (source : SupplementSource) : list str :=
  seed_keys source ++ page_keys (sc_pagination (contract source)) ++ kind_keys source.

(** What the table states of a view, as a test. *)
Definition view_consistent (source : SupplementSource) : bool :=
  let entry := guide source in
  str_eqb (ge_guide entry) (sc_guide (contract source))
  && has_name (fields ["/DRF/lawSearch.do"; "/DRF/lawService.do"]%string) (ge_path entry)
  && negb (str_eqb (ge_target entry) []) && forallb is_ascii_alphanumeric (bytes (ge_target entry))
  && forallb (has_name (ge_request_fields entry)) (view_keys source)
  && negb (has_name (view_keys source) (u "OC"))
  && is_some (strip_prefix (u "/DRF/") (ge_path entry)).

Lemma views_consistent source : view_consistent source = true.
Proof.
  assert (H : forallb view_consistent all_sources = true) by (vm_compute; reflexivity).
  rewrite forallb_forall in H. apply H, list_elem_of_In, all_sources_complete.
Qed.

Lemma has_name_elem names name : has_name names name = true <-> name ∈ names.
Proof.
  unfold has_name. rewrite existsb_exists. split.
  - intros (x & Hx & ->%str_eqb_eq). by apply list_elem_of_In.
  - intros Hin. exists name. split; [by apply list_elem_of_In|apply str_eqb_refl].
Qed.

(** What a view is. *)
Record view_ok (source : SupplementSource) : Prop := {
  vo_guide : ge_guide (guide source) = sc_guide (contract source);
  vo_path : ge_path (guide source) ∈ fields ["/DRF/lawSearch.do"; "/DRF/lawService.do"]%string;
  vo_target : ge_target (guide source) <> [] /\ forallb is_ascii_alphanumeric (bytes (ge_target (guide source))) = true;
  vo_keys : forall k, k ∈ view_keys source -> k ∈ ge_request_fields (guide source) /\ k <> u "OC";
  vo_file : exists file, strip_prefix (u "/DRF/") (ge_path (guide source)) = Some file;
}.

Lemma views_ok source : view_ok source.
Proof.
  pose proof (views_consistent source) as Hc. unfold view_consistent in Hc.
  repeat apply andb_true_iff in Hc as [Hc ?]. rewrite forallb_forall in *.
  repeat match goal with H : negb _ = true |- _ => apply negb_true_iff in H end. constructor.
  - by apply str_eqb_eq.
  - by apply has_name_elem.
  - split; [|by apply forallb_forall]. intros Hx. by rewrite Hx in *.
  - intros k Hk. split; [by apply has_name_elem, H1, list_elem_of_In|].
    intros ->. apply has_name_elem in Hk. congruence.
  - destruct (strip_prefix _ _) as [file|]; [by exists file|done].
Qed.

(** * Parameters *)

Definition keys (m : list (str * str)) : list str := m.*1.

Definition plain_keys (m : list (str * str)) : Prop := Forall plain (keys m).

Lemma plain_cmp_eq x y : plain x -> plain y -> str_cmp x y = Eq -> x = y.
Proof. unfold plain, str_cmp. intros -> ->. apply lex_eq. Qed.

Lemma tree_insert_keys key value m :
  plain key -> plain_keys m ->
  plain_keys (tree_insert key value m) /\ forall x, x ∈ keys (tree_insert key value m) <-> x = key \/ x ∈ keys m.
Proof.
  intros Hk. unfold plain_keys, keys. induction m as [|[k v] m IH]; cbn [tree_insert]; intros Hm.
  { split; [by repeat constructor|set_solver]. }
  rewrite fmap_cons in Hm. apply Forall_cons in Hm as [Hk' Hm]. cbn [fst] in Hk'. destruct (IH Hm) as [IHp IHk].
  destruct (str_cmp key k) eqn:E; rewrite ?fmap_cons; cbn [fst].
  - apply plain_cmp_eq in E as ->; [|done|done]. split; [by constructor|set_solver].
  - split; [by repeat constructor|set_solver].
  - split; [by constructor|]. intros x. rewrite elem_of_cons, IHk, elem_of_cons. tauto.
Qed.

Fixpoint get (key : str) (m : list (str * str)) : option str :=
  match m with [] => None | (k, v) :: m => if str_eqb key k then Some v else get key m end.

Lemma get_same key value m : plain key -> plain_keys m -> get key (tree_insert key value m) = Some value.
Proof.
  intros Hk. unfold plain_keys, keys. induction m as [|[k v] m IH]; cbn [tree_insert get]; [by rewrite str_eqb_refl|].
  rewrite fmap_cons. intros [Hk' Hm]%Forall_cons. cbn [fst] in Hk'.
  destruct (str_cmp key k) eqn:E; cbn [get]; rewrite ?str_eqb_refl; try done.
  destruct (str_eqb key k) eqn:Ek; [|by apply IH]. apply str_eqb_eq in Ek as ->.
  pose proof (cmp_opp (cmp:=str_cmp) k k) as Ho. by rewrite E in Ho.
Qed.

Lemma get_other key other value m :
  str_eqb other key = false -> plain key -> plain_keys m -> get other (tree_insert key value m) = get other m.
Proof.
  intros Hk Hp. unfold plain_keys, keys. induction m as [|[k v] m IH]; cbn [tree_insert get]; [by rewrite Hk|].
  rewrite fmap_cons. intros [Hk' Hm]%Forall_cons. cbn [fst] in Hk'.
  destruct (str_cmp key k) eqn:E; cbn [get]; rewrite ?Hk; try done; [|by rewrite IH].
  apply plain_cmp_eq in E as ->; [|done|done]. by rewrite Hk.
Qed.

(** * Requests *)

Ltac plain_key := vm_compute; reflexivity.

(** The keys are literals of the given list. *)
Definition keyed (allowed : list str) (m : list (str * str)) : Prop :=
  plain_keys m /\ forall x, x ∈ keys m -> x ∈ allowed.

Lemma keyed_nil allowed : keyed allowed [].
Proof. split; [constructor|]. intros x Hx. by apply elem_of_nil in Hx. Qed.

Lemma keyed_insert allowed key value m :
  plain key -> key ∈ allowed -> keyed allowed m -> keyed allowed (tree_insert key value m).
Proof.
  intros Hk Hin [Hp Ha]. destruct (tree_insert_keys key value m Hk Hp) as [Hp' Hx]. split; [done|].
  by intros x [->|Hin']%Hx; [|apply Ha].
Qed.

Lemma keyed_mono allowed more m : (forall x, x ∈ allowed -> x ∈ more) -> keyed allowed m -> keyed more m.
Proof. intros Hs [Hp Ha]. split; [done|]. intros x Hx. by apply Hs, Ha. Qed.

Lemma keyed_one allowed key value : plain key -> key ∈ allowed -> keyed allowed [(key, value)].
Proof. intros Hk Hin. by apply (keyed_insert allowed key value []), keyed_nil. Qed.

Ltac keyed_solve :=
  repeat (apply keyed_insert; [plain_key|set_solver|]);
  try (apply keyed_one; [plain_key|set_solver]); try apply keyed_nil.

Lemma result_inj {E A} (a b : A) : @Ok E A a = Ok b -> a = b.
Proof. by intros [=]. Qed.

Lemma seed_parameters_keyed source seed m :
  seed_parameters source seed = Ok m -> keyed (seed_keys source) m.
Proof.
  unfold seed_parameters, seed_keys.
  destruct seed as [|object number|object number|name|name|date|from to_], (sc_seed_kind (contract source)); try done.
  - intros <-%result_inj. keyed_solve.
  - destruct (provider_object _ _); [|done]. destruct (bad_number _); [done|]. intros <-%result_inj.
    destruct (bool_decide _); keyed_solve.
  - destruct (provider_object _ _); [|done]. destruct (bad_number _); [done|]. intros <-%result_inj. keyed_solve.
  - destruct (provider_object _ _); [|done]. destruct (_ || _); [done|]. intros <-%result_inj. keyed_solve.
  - destruct (term_name name); [|done]. intros <-%result_inj. keyed_solve.
  - destruct (term_name name); [|done]. intros <-%result_inj. keyed_solve.
  - destruct (negb _); [done|]. intros <-%result_inj. keyed_solve.
  - destruct (_ || _); [done|]. intros <-%result_inj. keyed_solve.
Qed.

Definition all_parameters (source : SupplementSource) (page : Z) (m : list (str * str)) : list (str * str) :=
  kind_parameters source (page_parameters (sc_pagination (contract source)) page m).

(** The parameters of a request are under keys of its view. *)
Lemma parameters_keyed source page m : keyed (seed_keys source) m -> keyed (view_keys source) (all_parameters source page m).
Proof.
  intros Hm. unfold all_parameters, view_keys.
  assert (Hp : keyed (seed_keys source ++ page_keys (sc_pagination (contract source)))
    (page_parameters (sc_pagination (contract source)) page m)).
  { apply (keyed_mono _ (seed_keys source ++ page_keys (sc_pagination (contract source)))) in Hm; [|set_solver].
    destruct (sc_pagination (contract source)); cbn [page_parameters page_keys] in *; keyed_solve; done. }
  rewrite app_assoc. apply (keyed_mono _ ((seed_keys source ++ page_keys (sc_pagination (contract source)))
    ++ kind_keys source)) in Hp; [|set_solver]. unfold kind_parameters, kind_keys in *.
  destruct (bool_decide (source = StatuteReferencedComparison)); cbn [orb] in *; [keyed_solve; done|].
  destruct (bool_decide (source = StatuteDelegatedComparison)); [keyed_solve; done|done].
Qed.

Lemma parameters_documented source page m :
  keyed (seed_keys source) m -> undocumented (guide source) (all_parameters source page m) = false.
Proof.
  intros [_ Hx]%(parameters_keyed source page). destruct (views_ok source) as [_ Hp [Ht Ha] Hk _].
  unfold undocumented. rewrite (proj2 (has_name_elem _ _) Hp), Ha.
  destruct (str_eqb _ []) eqn:E; [by apply str_eqb_eq in E|]. cbn [negb orb].
  destruct (existsb _ _) eqn:Ex; [|done]. apply existsb_exists in Ex as ([k v] & Hin & Hn). cbn [fst] in Hn.
  apply negb_true_iff in Hn. rewrite (proj2 (has_name_elem _ _)) in Hn; [done|].
  apply Hk, Hx, list_elem_of_fmap. exists (k, v). by rewrite list_elem_of_In.
Qed.

(** A request is made exactly when the page exists, the view is verified and the
    seed is one of it. *)
Lemma request_cases source seed page :
  request source seed page =
  if (page =? 0) || (1000000 <? page) then Err InvalidInput
  else if bool_decide (ge_kind (guide source) = NeedsVerification) then Err SourceUnavailable
  else if bool_decide (sc_pagination (contract source) = Singleton) && negb (page =? 1) then Err InvalidInput
  else let? m := seed_parameters source seed in
       Ok {| sr_source := source; sr_seed := seed; sr_page := page; sr_parameters := all_parameters source page m |}.
Proof.
  unfold request. destruct (_ || _); [done|]. destruct (bool_decide _); [done|]. cbn zeta. destruct (_ && _); [done|].
  destruct (seed_parameters source seed) as [m|] eqn:E; [|done]. apply seed_parameters_keyed in E.
  by rewrite (parameters_documented source page m E : undocumented _ (kind_parameters _ _) = false).
Qed.

(** A made request. *)
Record requested (r : SupplementRequest) (m : list (str * str)) : Prop := {
  rq_seed_ok : seed_parameters (sr_source r) (sr_seed r) = Ok m;
  rq_all : sr_parameters r = all_parameters (sr_source r) (sr_page r) m;
  rq_page : 0 <= sr_page r -> 1 <= sr_page r <= 1000000;
  rq_single : sc_pagination (contract (sr_source r)) = Singleton -> sr_page r = 1;
  rq_verified : ge_kind (guide (sr_source r)) <> NeedsVerification;
}.

Lemma request_Ok source seed page r :
  request source seed page = Ok r ->
  sr_source r = source /\ sr_seed r = seed /\ sr_page r = page /\ exists m, requested r m.
Proof.
  rewrite request_cases. destruct (_ || _) eqn:E; [done|]. apply orb_false_iff in E as [E0 E1].
  destruct (bool_decide_reflect (ge_kind (guide source) = NeedsVerification)) as [|Hv]; [done|].
  destruct (bool_decide (sc_pagination (contract source) = Singleton) && negb (page =? 1)) eqn:Es; [done|].
  destruct (seed_parameters source seed) as [m|] eqn:Em; [|done]. intros <-%result_inj. cbn. split_and!; try done.
  exists m. constructor; cbn; try done; [lia|]. intros Hs. rewrite bool_decide_true in Es by done. cbn in Es.
  apply negb_false_iff in Es. lia.
Qed.

Lemma plain_insert key value m : plain key -> plain_keys m -> plain_keys (tree_insert key value m).
Proof. intros Hk Hm. exact (proj1 (tree_insert_keys key value m Hk Hm)). Qed.

Lemma page_plain source page m :
  plain_keys m -> plain_keys (page_parameters (sc_pagination (contract source)) page m).
Proof.
  intros Hm. destruct (sc_pagination (contract source)); cbn [page_parameters]; [done| |].
  - apply plain_insert; [plain_key|]. by apply plain_insert; [plain_key|].
  - by apply plain_insert; [plain_key|].
Qed.

(** Reading a parameter off a request. *)
Lemma get_kind source key m :
  str_eqb key (u "knd") = false -> plain_keys m -> get key (kind_parameters source m) = get key m.
Proof.
  intros Hk Hm. unfold kind_parameters. assert (Hp : plain (u "knd")) by plain_key.
  destruct (bool_decide (source = StatuteReferencedComparison)); [exact (get_other _ _ _ _ Hk Hp Hm)|].
  destruct (bool_decide (source = StatuteDelegatedComparison)); [exact (get_other _ _ _ _ Hk Hp Hm)|reflexivity].
Qed.

Lemma get_page source page m :
  plain_keys m -> sc_pagination (contract source) <> Singleton ->
  get (u "page") (all_parameters source page m) = Some (show_Z page).
Proof.
  intros Hm Hn. unfold all_parameters. rewrite get_kind; [|plain_key|by apply page_plain].
  destruct (sc_pagination (contract source)); [done|..]; cbn [page_parameters];
    (apply get_same; [plain_key|]); [apply plain_insert; [plain_key|]|]; exact Hm.
Qed.

Lemma get_seed source page key m :
  plain_keys m -> has_name (fields ["knd"; "page"; "display"]%string) key = false ->
  get key (all_parameters source page m) = get key m.
Proof.
  intros Hm Hk. cbn in Hk. repeat (apply orb_false_iff in Hk as [? Hk]). unfold all_parameters.
  rewrite get_kind; [|done|by apply page_plain].
  destruct (sc_pagination (contract source)); [done|..]; cbn [page_parameters].
  - rewrite (get_other (u "page") key), (get_other (u "display") key);
      first [assumption|reflexivity|apply plain_insert; [plain_key|assumption]|plain_key].
  - rewrite (get_other (u "page") key); first [assumption|reflexivity|plain_key].
Qed.

(** Only documented requests are made: a registered route and target of the
    provider, and every parameter is one that the guide of the view documents,
    never the credential. *)
Theorem request_documented source seed page r :
  request source seed page = Ok r ->
  let url := source_url r in
  ge_guide (guide source) = sc_guide (contract source)
  /\ (rq_service url = u "/DRF/lawSearch.do" \/ rq_service url = u "/DRF/lawService.do")
  /\ Forall (fun kv => kv.1 ∈ ge_request_fields (guide source) /\ kv.1 <> u "OC") (sr_parameters r)
  /\ rq_pairs url = [(u "target", ge_target (guide source));
                     (u "type", if bool_decide (source = StatuteOrdinanceStatus) then u "HTML" else u "XML")]
                    ++ sr_parameters r
  /\ (sc_pagination (contract source) <> Singleton -> get (u "page") (sr_parameters r) = Some (show_Z page)).
Proof.
  intros (Hs & Hseed & Hp & m & [Hm Hall _ _ _])%request_Ok. rewrite Hs, Hseed in Hm. rewrite Hs, Hp in Hall.
  apply seed_parameters_keyed in Hm. destruct (parameters_keyed source page m Hm) as [Hplain Hk].
  destruct (views_ok source) as [Hguide Hpath _ Hkeys _]. cbn zeta. unfold source_url. rewrite Hs.
  cbn [rq_service rq_pairs]. split_and!.
  - done.
  - cbn in Hpath. rewrite !elem_of_cons, elem_of_nil in Hpath. tauto.
  - apply Forall_forall. intros [k v] Hin. rewrite Hall in Hin. cbn [fst].
    apply Hkeys, Hk. apply list_elem_of_fmap. by exists (k, v).
  - unfold sr_format. rewrite Hs. by destruct (bool_decide (source = StatuteOrdinanceStatus)).
  - intros Hn. rewrite Hall. by apply get_page; [apply Hm|].
Qed.

(** * Identity of requests *)

(** Two views share a route and a target only where they differ in [knd]. *)
Definition distinct_routes (a b : SupplementSource) : bool :=
  negb (str_eqb (ge_path (guide a)) (ge_path (guide b)) && str_eqb (ge_target (guide a)) (ge_target (guide b)))
  || bool_decide (a = b)
  || (negb (bool_decide (kind_keys a = [])) && negb (bool_decide (kind_keys b = []))).

Lemma routes_distinct a b :
  ge_path (guide a) = ge_path (guide b) -> ge_target (guide a) = ge_target (guide b) ->
  a = b \/ (kind_keys a <> [] /\ kind_keys b <> []).
Proof.
  assert (H : forallb (fun a => forallb (distinct_routes a) all_sources) all_sources = true)
    by (vm_compute; reflexivity).
  rewrite forallb_forall in H. specialize (H a). rewrite forallb_forall in H.
  intros Hp Ht. specialize (H (proj1 (list_elem_of_In _ _) (all_sources_complete a)) b
    (proj1 (list_elem_of_In _ _) (all_sources_complete b))).
  unfold distinct_routes in H. rewrite Hp, Ht, !str_eqb_refl in H. cbn [andb negb orb] in H.
  apply orb_true_iff in H as [H|H]; [left; by apply bool_decide_eq_true in H|]. right.
  apply andb_true_iff in H as [Ha%negb_true_iff Hb%negb_true_iff].
  by apply bool_decide_eq_false in Ha, Hb.
Qed.

Lemma kind_of a : kind_keys a <> [] -> a = StatuteReferencedComparison \/ a = StatuteDelegatedComparison.
Proof. destruct a; cbn; auto; done. Qed.

Lemma get_knd a page m :
  plain_keys m ->
  get (u "knd") (all_parameters a page m) =
  if bool_decide (a = StatuteReferencedComparison) then Some (u "1")
  else if bool_decide (a = StatuteDelegatedComparison) then Some (u "2") else get (u "knd") (all_parameters a page m).
Proof.
  intros Hm. unfold all_parameters, kind_parameters. pose proof (page_plain a page m Hm) as Hp.
  assert (Hk : plain (u "knd")) by plain_key.
  destruct (bool_decide (a = StatuteReferencedComparison)); [by apply get_same|].
  by destruct (bool_decide (a = StatuteDelegatedComparison)); [apply get_same|].
Qed.

Definition provided (dataset : Dataset) (id : str) : ObjectId :=
  {| oid_jurisdiction := u "kr"; oid_provider := u "law_go_kr"; oid_dataset := dataset; oid_id := id |}.

Lemma provider_object_Ok o dataset x : provider_object o dataset = Ok x -> o = provided dataset (oid_id o).
Proof.
  unfold provider_object. destruct (object_validate o); [|done].
  destruct (str_eqb (oid_provider o) (u "law_go_kr")) eqn:Ep; [|done].
  destruct (str_eqb (oid_jurisdiction o) (u "kr")) eqn:Ej; [|done].
  destruct (bool_decide_reflect (oid_dataset o = dataset)) as [Hd|]; [|done]. intros _.
  apply str_eqb_eq in Ep, Ej. destruct o as [j p d i]. cbn in *. by subst.
Qed.

Lemma get_one k v : plain (u k) -> get (u k) (tree_insert (u k) v []) = Some v.
Proof. intros Hk. apply get_same; [done|constructor]. Qed.

(** What a request keeps of its seed: views of a record keep the record number,
    related statutes the identity of the statute. *)
Definition seed_work (source : SupplementSource) (seed : SupplementSeed) : SupplementSeed :=
  match seed with
  | RecordSeed object number =>
    if bool_decide (source = RelatedStatutes) then RecordSeed object []
    else RecordSeed (provided (oid_dataset object) []) number
  | seed => seed
  end.

(** The work that the parameters of a request state. *)
Definition read_seed (source : SupplementSource) (m : list (str * str)) : option SupplementSeed :=
  match sc_seed_kind (contract source) with
  | GlobalSeed => Some Global
  | NationalRecord =>
    if bool_decide (source = RelatedStatutes)
    then (fun id => RecordSeed (provided NationalStatute id) []) <$> get (u "ID") m
    else RecordSeed (provided NationalStatute []) <$> get (u "MST") m
  | AdministrativeRuleRecord => RecordSeed (provided AdministrativeRule []) <$> get (u "ID") m
  | ProvisionSeed =>
    get (u "ID") m ≫= fun id => Provision (provided NationalStatute id) <$> get (u "JO") m
  | LegalTermSeed => LegalTermNamed <$> get (u "query") m
  | EverydayTermSeed => EverydayTerm <$> get (u "query") m
  | ChangeDaySeed => ChangeDay <$> get (u "regDt") m
  | ChangeWindowSeed => get (u "fromRegDt") m ≫= fun from => ChangeWindow from <$> get (u "toRegDt") m
  end.

Lemma get_two k v k' v' :
  plain (u k) -> plain (u k') -> str_eqb (u k') (u k) = false ->
  get (u k) (tree_insert (u k) v (tree_insert (u k') v' [])) = Some v
  /\ get (u k') (tree_insert (u k) v (tree_insert (u k') v' [])) = Some v'.
Proof.
  intros Hk Hk' Hne. assert (Hp : plain_keys (tree_insert (u k') v' [])) by (apply plain_insert; [done|constructor]).
  split; [by apply get_same|]. rewrite get_other; [by apply get_one|done..].
Qed.

Lemma read_seed_parameters source seed m :
  seed_parameters source seed = Ok m -> read_seed source m = Some (seed_work source seed).
Proof.
  unfold seed_parameters, read_seed, seed_work. pose proof get_one as Hone. pose proof get_two as Htwo.
  destruct seed as [|object number|object number|name|name|date|from to_], (sc_seed_kind (contract source)) eqn:Ek; try done.
  - destruct (provider_object object NationalStatute) as [x|] eqn:Ep; [|done]. apply provider_object_Ok in Ep.
    destruct (bad_number _); [done|]. intros <-%result_inj. destruct (bool_decide (source = RelatedStatutes)).
    + rewrite Hone by plain_key. cbn [fmap option_fmap option_map]. by rewrite <- Ep.
    + rewrite Hone by plain_key. cbn [fmap option_fmap option_map]. by rewrite Ep.
  - destruct (provider_object object AdministrativeRule) as [x|] eqn:Ep; [|done]. apply provider_object_Ok in Ep.
    destruct (bad_number _); [done|]. intros <-%result_inj. rewrite Hone by plain_key. cbn [fmap option_fmap option_map].
    destruct (bool_decide_reflect (source = RelatedStatutes)) as [->|]; [discriminate Ek|by rewrite Ep].
  - destruct (provider_object object NationalStatute) as [x|] eqn:Ep; [|done]. apply provider_object_Ok in Ep.
    destruct (_ || _); [done|]. intros <-%result_inj.
    destruct (Htwo "JO"%string number "ID"%string (oid_id object)) as [-> ->]; [plain_key..|].
    cbn [mbind option_bind fmap option_fmap option_map]. by rewrite <- Ep.
  - destruct (term_name name); [|done]. intros <-%result_inj. by rewrite Hone by plain_key.
  - destruct (term_name name); [|done]. intros <-%result_inj. by rewrite Hone by plain_key.
  - destruct (negb _); [done|]. intros <-%result_inj. by rewrite Hone by plain_key.
  - destruct (_ || _); [done|]. intros <-%result_inj.
    by destruct (Htwo "toRegDt"%string to_ "fromRegDt"%string from) as [-> ->]; [plain_key..|].
Qed.

Lemma get_all source page seed m key :
  seed_parameters source seed = Ok m -> has_name (fields ["knd"; "page"; "display"]%string) key = false ->
  get key (all_parameters source page m) = get key m.
Proof. intros Hm. apply get_seed. exact (proj1 (seed_parameters_keyed source seed m Hm)). Qed.

(** The query of a request states its work. *)
Lemma read_seed_request source page seed m :
  seed_parameters source seed = Ok m -> read_seed source (all_parameters source page m) = Some (seed_work source seed).
Proof.
  intros Hm. rewrite <- (read_seed_parameters source seed m Hm). unfold read_seed.
  rewrite !(get_all source page seed m _ Hm) by plain_key. done.
Qed.

Lemma same_work_iff r1 r2 :
  same_work_as r1 r2 = true <->
  sr_source r1 = sr_source r2 /\ sr_page r1 = sr_page r2
  /\ (if bool_decide (sr_source r1 = RelatedStatutes)
      then exists o n1 n2, sr_seed r1 = RecordSeed o n1 /\ sr_seed r2 = RecordSeed o n2
      else sr_seed r1 = sr_seed r2).
Proof.
  unfold same_work_as. destruct (bool_decide_reflect (sr_source r1 = sr_source r2)) as [->|]; [|naive_solver].
  cbn [negb orb]. destruct (Z.eqb_spec (sr_page r1) (sr_page r2)) as [->|]; [|naive_solver]. cbn [negb].
  destruct (bool_decide (sr_source r2 = RelatedStatutes)).
  - destruct (sr_seed r1), (sr_seed r2); try naive_solver. rewrite bool_decide_eq_true. naive_solver.
  - rewrite bool_decide_eq_true. naive_solver.
Qed.

Lemma same_parameters source s1 s2 m1 m2 :
  seed_parameters source s1 = Ok m1 -> seed_parameters source s2 = Ok m2 ->
  seed_work source s1 = seed_work source s2 -> m1 = m2.
Proof.
  assert (Hobj : forall o n, (if bool_decide (source = RelatedStatutes) then RecordSeed o []
    else RecordSeed (provided (oid_dataset o) []) n) <> Global) by (intros o n; by destruct (bool_decide _)).
  unfold seed_parameters, seed_work.
  destruct s1 as [|o1 n1|o1 n1|t1|t1|d1|f1 e1], s2 as [|o2 n2|o2 n2|t2|t2|d2|f2 e2],
    (sc_seed_kind (contract source)) eqn:Ek; try done;
    try (by destruct (bool_decide (source = RelatedStatutes)));
    repeat match goal with
      | |- context [match provider_object ?o ?d with _ => _ end] => destruct (provider_object o d); [|done]
      | |- context [match term_name ?n with _ => _ end] => destruct (term_name n); [|done]
      | |- context [if bad_number ?n then _ else _] => destruct (bad_number n); [done|]
      | |- context [if ?b || ?c then _ else _] => destruct (b || c); [done|]
      | |- context [if negb ?b then _ else _] => destruct (negb b); [done|]
      end;
    intros E1 E2 Hw; apply result_inj in E1 as <-; apply result_inj in E2 as <-; try congruence.
  all: destruct (bool_decide_reflect (source = RelatedStatutes)) as [->|]; try congruence; discriminate Ek.
Qed.

(** C26. A request is determined by its view, its page and what it keeps of its seed:
    two requests have one URL exactly if these agree, so that repeated parents
    give one observation; and work that is taken to be the same is the same
    request. *)
Theorem request_identity source1 source2 seed1 seed2 page1 page2 r1 r2 :
  0 <= page1 -> 0 <= page2 ->
  request source1 seed1 page1 = Ok r1 -> request source2 seed2 page2 = Ok r2 ->
  (source_url r1 = source_url r2 <->
     source1 = source2 /\ page1 = page2 /\ seed_work source1 seed1 = seed_work source2 seed2)
  /\ (same_work_as r1 r2 = true -> source_url r1 = source_url r2)
  /\ read_seed source1 (sr_parameters r1) = Some (seed_work source1 seed1).
Proof.
  intros Hn1 Hn2 (S1 & D1 & P1 & m1 & [M1 A1 G1 Z1 _])%request_Ok (S2 & D2 & P2 & m2 & [M2 A2 G2 Z2 _])%request_Ok.
  destruct r1 as [s1 d1 p1 ps1], r2 as [s2 d2 p2 ps2]. cbn in *. subst s1 d1 p1 s2 d2 p2.
  assert (Hiff : source_url {| sr_source := source1; sr_seed := seed1; sr_page := page1; sr_parameters := ps1 |}
      = source_url {| sr_source := source2; sr_seed := seed2; sr_page := page2; sr_parameters := ps2 |} <->
    source1 = source2 /\ page1 = page2 /\ seed_work source1 seed1 = seed_work source2 seed2).
  { unfold source_url. cbn [sr_source sr_parameters]. split.
    - intros [= Hpath Htarget _ Hps]. rewrite A1, A2 in Hps.
      assert (Hs : source1 = source2).
      { destruct (routes_distinct source1 source2 Hpath Htarget) as [|[K1%kind_of K2%kind_of]]; [done|].
        assert (Hk : get (u "knd") (all_parameters source1 page1 m1) = get (u "knd") (all_parameters source2 page2 m2))
          by congruence.
        rewrite (get_knd source1), (get_knd source2) in Hk
          by (exact (proj1 (seed_parameters_keyed _ _ _ M1)) || exact (proj1 (seed_parameters_keyed _ _ _ M2))).
        destruct K1 as [->| ->], K2 as [->| ->]; try done; vm_compute in Hk; discriminate Hk. }
      subst source2. split; [done|]. split.
      + destruct (decide (sc_pagination (contract source1) = Singleton)) as [Hsi|Hsi].
        { by rewrite Z1, Z2. }
        assert (Hg : get (u "page") (all_parameters source1 page1 m1) = get (u "page") (all_parameters source1 page2 m2))
          by congruence.
        rewrite !get_page in Hg by (done || exact (proj1 (seed_parameters_keyed _ _ _ M1))
          || exact (proj1 (seed_parameters_keyed _ _ _ M2))).
        injection Hg as Hg. specialize (G1 Hn1). specialize (G2 Hn2).
        apply show_Z_inj in Hg; [done|unfold usize_max; lia..].
      + pose proof (read_seed_request source1 page1 seed1 m1 M1) as R1.
        pose proof (read_seed_request source1 page2 seed2 m2 M2) as R2. congruence.
    - intros (-> & -> & Hw). rewrite A1, A2. by rewrite (same_parameters _ _ _ _ _ M1 M2 Hw). }
  split; [exact Hiff|]. split.
  - intros (Hs & Hp & Hw)%same_work_iff. cbn in Hs, Hp, Hw. apply Hiff. subst source2 page2. split_and!; try done.
    unfold seed_work. destruct (bool_decide (source1 = RelatedStatutes)); [|by rewrite Hw].
    by destruct Hw as (o & n1 & n2 & -> & ->).
  - cbn [sr_parameters]. rewrite A1. by apply read_seed_request.
Qed.

Definition sample_statute_object (id : string) : ObjectId := provided NationalStatute (u id).

Lemma request_identity_witness :
  exists r1 r2, request RelatedStatutes (RecordSeed (sample_statute_object "1") (u "10")) 1 = Ok r1
    /\ request RelatedStatutes (RecordSeed (sample_statute_object "1") (u "11")) 1 = Ok r2
    /\ source_url r1 = source_url r2.
Proof.
  destruct (request RelatedStatutes (RecordSeed (sample_statute_object "1") (u "10")) 1) as [r1|e] eqn:E1;
    [|vm_compute in E1; discriminate E1].
  destruct (request RelatedStatutes (RecordSeed (sample_statute_object "1") (u "11")) 1) as [r2|e] eqn:E2;
    [|vm_compute in E2; discriminate E2].
  exists r1, r2. split; [reflexivity|]. split; [reflexivity|].
  destruct (request_identity _ _ _ _ 1 1 r1 r2 ltac:(lia) ltac:(lia) E1 E2) as [Hiff _].
  apply Hiff. split; [reflexivity|]. split; vm_compute; reflexivity.
Defined.

(** * What a page seeds *)

(** A seed that its views accept. *)
Definition seed_ok (seed : SupplementSeed) : Prop :=
  match seed with
  | RecordSeed object number =>
    (oid_dataset object = NationalStatute \/ oid_dataset object = AdministrativeRule)
    /\ object = provided (oid_dataset object) (oid_id object)
    /\ bad_number (oid_id object) = false /\ bad_number number = false
  | LegalTermNamed name | EverydayTerm name => term_name name = Ok tt
  | _ => False
  end.

Definition seed_key (seed : SupplementSeed) : str :=
  match seed with
  | RecordSeed object number => as_str (oid_dataset object) ++ u ":" ++ oid_id object ++ u ":" ++ number
  | LegalTermNamed name | EverydayTerm name => name
  | _ => []
  end.

Record seeding_ok (s : Seeding) : Prop := {
  so_valid : Forall seed_ok (sg_seeds s);
  so_seen : Forall (fun seed => seed_key seed ∈ sg_seen s) (sg_seeds s);
  so_distinct : NoDup (sg_seeds s);
}.

Lemma add_seed_ok seed s : seed_ok seed -> seeding_ok s -> seeding_ok (add_seed (seed_key seed) seed s).
Proof.
  intros Hseed [Hv Hs Hd]. unfold add_seed. destruct (has_name (sg_seen s) (seed_key seed)) eqn:E; [done|].
  constructor; cbn.
  - apply Forall_app. split; [done|]. by constructor.
  - apply Forall_app. split; [|constructor; [left|constructor]].
    eapply Forall_impl; [exact Hs|]. intros x Hx. by right.
  - apply NoDup_app. split_and!; [done| |apply NoDup_singleton]. intros x Hx Hin.
    apply list_elem_of_singleton in Hin as ->. rewrite Forall_forall in Hs. apply Hs, has_name_elem in Hx. congruence.
Qed.

Lemma rejected_ok s : seeding_ok s -> seeding_ok (rejected s).
Proof. by intros [? ? ?]. Qed.

Lemma row_seeds_ok source s row : seeding_ok s -> seeding_ok (row_seeds source s row).
Proof.
  intros Hs. unfold row_seeds.
  assert (Ht : match row_term source row s with Some s => seeding_ok s | None => True end).
  { unfold row_term. destruct (term_field source) as [[field seed]|] eqn:Ef; [|done].
    destruct (direct_field row field) as [name|]; [|done]. destruct (term_name name) as [[]|] eqn:En; [|done]. cbn [is_ok].
    destruct source; try discriminate Ef; injection Ef as <- <-.
    - by apply (add_seed_ok (LegalTermNamed name)).
    - by apply (add_seed_ok (EverydayTerm name)). }
  destruct (row_term source row s) as [s'|]; [|by apply rejected_ok]. unfold row_record. cbn zeta.
  destruct (direct_field row _) as [id|]; [|done]. destruct (direct_field row _) as [number|]; [|done].
  destruct (bad_number id || bad_number number) eqn:E; [by apply rejected_ok|]. apply orb_false_iff in E as [Ei En].
  apply (add_seed_ok (RecordSeed (provided (row_dataset source) id) number)); [|done].
  unfold seed_ok. cbn. split_and!; try done. unfold row_dataset. destruct (bool_decide _); auto.
Qed.

Lemma seeds_fold_ok source rows : forall s, seeding_ok s -> seeding_ok (fold_left (row_seeds source) rows s).
Proof.
  induction rows as [|row rows IH]; intros s Hs; cbn [fold_left]; [done|]. by apply IH, row_seeds_ok.
Qed.

Lemma number_identifier id : bad_number id = false -> valid_identifier id 128 = true.
Proof.
  unfold bad_number, numeric_id, valid_identifier. intros [Hn _]%orb_false_iff. apply negb_false_iff in Hn.
  apply andb_true_iff in Hn as [Hn Hd]. apply andb_true_iff in Hn as [Hne Hl].
  rewrite Hl, andb_true_r. apply andb_true_iff. split.
  - apply negb_true_iff, bool_decide_eq_false. intros ->. done.
  - rewrite forallb_forall in *. intros b Hb. apply Hd in Hb. unfold is_ascii_alphanumeric. by rewrite Hb.
Qed.

Lemma provided_ok dataset id : bad_number id = false -> provider_object (provided dataset id) dataset = Ok tt.
Proof.
  intros Hn. pose proof (number_identifier id Hn) as Hi. unfold bad_number in Hn. apply orb_false_iff in Hn as [Hn Hz].
  unfold provider_object, object_validate. cbn [provided oid_jurisdiction oid_provider oid_dataset oid_id].
  rewrite (eq_refl : valid_identifier (u "kr") 32 = true), (eq_refl : valid_identifier (u "law_go_kr") 64 = true), Hi.
  cbn [negb orb]. rewrite !str_eqb_refl, bool_decide_true, Hn, Hz by done. done.
Qed.

(** The views of the kinds that a page seeds are verified. *)
Definition seeded_kind (kind : SeedKind) : bool :=
  match kind with NationalRecord | AdministrativeRuleRecord | LegalTermSeed | EverydayTermSeed => true | _ => false end.

Lemma seeded_kinds_verified source :
  seeded_kind (sc_seed_kind (contract source)) = true -> ge_kind (guide source) <> NeedsVerification.
Proof. destruct source; cbn; done. Qed.

Lemma seed_accepted source seed :
  seed_ok seed -> seed_kind seed = Some (sc_seed_kind (contract source)) ->
  seeded_kind (sc_seed_kind (contract source)) = true /\ is_ok (seed_parameters source seed) = true.
Proof.
  intros Hs. unfold seed_kind, seed_parameters. destruct seed as [|object number|object number|name|name|date|from to_];
    try done.
  - destruct Hs as (Hd & Ho & Hi & Hn). rewrite Ho. cbn [provided oid_dataset oid_id].
    destruct Hd as [-> | ->]; intros [= <-]; rewrite provided_ok, Hn by done; done.
  - intros [= <-]. cbn in Hs. by rewrite Hs.
  - intros [= <-]. cbn in Hs. by rewrite Hs.
Qed.

Lemma requests_for_ok contracts seed page :
  Forall (fun c => is_ok (request (sc_source c) seed page) = true) contracts ->
  exists rs, requests_for contracts seed page = Ok rs /\ sr_source <$> rs = sc_source <$> contracts.
Proof.
  induction 1 as [|c contracts Hc _ (rs & Hrs & Hsr)]; cbn [requests_for]; [by exists []|].
  apply is_ok_value in Hc as [r Hr]. rewrite Hr, Hrs. exists (r :: rs). split; [done|].
  apply request_Ok in Hr as (Hs & _). by rewrite !fmap_cons, Hs, Hsr.
Qed.

Lemma views_nonempty kind : length (views kind 1) <> O.
Proof. destruct kind; vm_compute; discriminate. Qed.

Lemma view_of_kind kind page c : c ∈ views kind page -> exists source, c = contract source /\ sc_seed_kind c = kind.
Proof.
  unfold views. intros [[Hc Hk]%filter_In _]%list_elem_of_In%filter_In. apply bool_decide_eq_true in Hk.
  apply list_elem_of_In, contract_of in Hc. by exists (sc_source c).
Qed.

Lemma first_request source seed :
  seed_ok seed -> seed_kind seed = Some (sc_seed_kind (contract source)) -> is_ok (request source seed 1) = true.
Proof.
  intros Hs Hk. destruct (seed_accepted source seed Hs Hk) as [Hkind Hm]. rewrite request_cases.
  change ((1 =? 0) || (1000000 <? 1)) with false. change (negb (1 =? 1)) with false.
  rewrite bool_decide_false by (by apply seeded_kinds_verified). rewrite andb_false_r.
  by destruct (seed_parameters source seed).
Qed.

Lemma seed_views seed :
  seed_ok seed -> exists kind rs, seed_kind seed = Some kind /\ seeded_requests seed 1 = Ok rs
    /\ sr_source <$> rs = sc_source <$> views kind 1 /\ rs <> [].
Proof.
  intros Hs. unfold seeded_requests. destruct (seed_kind seed) as [kind|] eqn:Ek.
  2: { destruct seed as [|o n|o n|t|t|d|f t]; cbn in Ek; try done. destruct Hs as ([Hd|Hd] & _); by rewrite Hd in Ek. }
  destruct (requests_for_ok (views kind 1) seed 1) as (rs & Hrs & Hsr).
  - apply Forall_forall. intros c (source & -> & <-)%view_of_kind. rewrite contract_source. by apply first_request.
  - exists kind, rs. split_and!; try done. intros ->. apply (views_nonempty kind).
    apply (f_equal length) in Hsr. by rewrite !length_fmap in Hsr.
Qed.

(** * Pages *)

Section pages.
Context `{LinkUrls} (set_https : Link -> option Link) (without_fragment : Link -> Link)
  (with_query : Link -> list (str * str) -> str).

Let inspect := inspect_page set_https without_fragment with_query.

Lemma fold_incomplete source rows : forall s,
  sg_incomplete s = true -> sg_incomplete (fold_left (row_seeds source) rows s) = true.
Proof.
  induction rows as [|row rows IH]; intros s Hs; cbn [fold_left]; [done|]. apply IH.
  assert (Hadd : forall key seed s, sg_incomplete (add_seed key seed s) = sg_incomplete s).
  { intros key seed s0. unfold add_seed. by destruct (has_name _ _). }
  unfold row_seeds.
  assert (Ht : match row_term source row s with Some s' => sg_incomplete s' = true | None => True end).
  { unfold row_term. destruct (term_field source) as [[field seed]|]; [|done].
    destruct (direct_field row field) as [name|]; [|done]. destruct (is_ok _); [|done]. by rewrite Hadd. }
  destruct (row_term source row s) as [s'|]; [|done]. unfold row_record. cbn zeta.
  destruct (direct_field row _) as [id|]; [|done]. destruct (direct_field row _) as [number|]; [|done].
  destruct (_ || _); [done|]. by rewrite Hadd.
Qed.

(** The parts of a page that was read. *)
Record inspected (r : SupplementRequest) (tree : DocumentNode) (before : Z) (p : SupplementPage) : Prop := {
  in_seeds : NoDup (sp_seeds p) /\ Forall seed_ok (sp_seeds p);
  in_total : sp_total p = page_total tree;
  in_complete : sp_incomplete p = false -> exists consumed,
    consumed_rows (sc_pagination (contract (sr_source r))) (sr_page r) (sp_observed_rows p) before = Ok consumed
    /\ page_incomplete (contract (sr_source r)) (sr_page r) (sp_observed_rows p) consumed (sp_total p) = false
    /\ sp_done p = page_done (sc_pagination (contract (sr_source r))) consumed (sp_total p);
  in_done : sp_done p <> None -> sp_incomplete p = false;
}.

Lemma inspect_page_Ok r tree before p : inspect r tree before = Ok p -> inspected r tree before p.
Proof.
  unfold inspect, inspect_page. cbn zeta. set (rows := match sc_row_identity_fields _ with [] => [] | _ => _ end).
  destruct (consumed_rows _ _ _ _) as [consumed|] eqn:Ec; [|done].
  set (incomplete := page_incomplete _ _ _ _ _). set (start := {| sg_seeds := [] |}).
  assert (Hs : seeding_ok (fold_left (row_seeds (sr_source r)) rows start)).
  { apply seeds_fold_ok. constructor; cbn; [by apply Forall_nil|by apply Forall_nil|by apply NoDup_nil]. }
  destruct (add_public_links _ _ _ _ _) as [links|]; [|done]. intros <-%result_inj. constructor; cbn.
  - by destruct Hs.
  - done.
  - intros Hi. exists consumed. split; [done|]. destruct incomplete eqn:Einc.
    { exfalso. pose proof (fold_incomplete (sr_source r) rows start eq_refl). congruence. }
    split; [done|]. by rewrite Hi.
  - by destruct (sg_incomplete _).
Qed.

(** What a page hands on can be asked for: its seeds are distinct, and each has
    a verified view of its own kind whose first page is a valid request. *)
Theorem page_seeds_requestable r tree before p :
  inspect r tree before = Ok p ->
  NoDup (sp_seeds p)
  /\ Forall (fun seed => exists kind rs, seed_kind seed = Some kind /\ seeded_requests seed 1 = Ok rs
       /\ sr_source <$> rs = sc_source <$> views kind 1 /\ rs <> []) (sp_seeds p).
Proof.
  intros [[Hd Hs] _ _ _]%inspect_page_Ok. split; [done|]. eapply Forall_impl; [exact Hs|]. apply seed_views.
Qed.

(** A view that was read page after page, up to the one that says it is the
    last. *)
Inductive traversed (source : SupplementSource) (seed : SupplementSeed) : Z -> Z -> list SupplementPage -> Prop :=
| Last_page page before r tree p :
    request source seed page = Ok r -> inspect r tree before = Ok p -> sp_done p = Some true ->
    traversed source seed page before [p]
| More_pages page before r tree p ps :
    request source seed page = Ok r -> inspect r tree before = Ok p -> sp_done p = Some false ->
    traversed source seed (page + 1) (before + sp_observed_rows p) ps ->
    traversed source seed page before (p :: ps).

Definition rows_read (ps : list SupplementPage) : Z := sum_Z (sp_observed_rows <$> ps).

Lemma traversed_rows source seed page before ps total :
  sc_pagination (contract source) <> Singleton -> traversed source seed page before ps ->
  (sc_pagination (contract source) = Numbered -> before = (page - 1) * 100) -> 0 <= before ->
  Forall (fun p => sp_total p = Some total) ps ->
  before + rows_read ps = total /\ Forall (fun p => sp_incomplete p = false) ps.
Proof.
  intros Hpag. assert (Hstep : forall page before r tree p,
    request source seed page = Ok r -> inspect r tree before = Ok p -> sp_total p = Some total ->
    (sc_pagination (contract source) = Numbered -> before = (page - 1) * 100) -> 0 <= before ->
    (sp_done p = Some true -> before + sp_observed_rows p = total /\ sp_incomplete p = false)
    /\ (sp_done p = Some false -> sp_incomplete p = false
        /\ (sc_pagination (contract source) = Numbered -> sp_observed_rows p = 100))).
  { intros pg bf r tree p (Hsrc & _ & Hpg & _)%request_Ok [_ _ Hc Hdone]%inspect_page_Ok Htot Hb Hb0.
    rewrite Hsrc, Hpg, Htot in Hc.
    assert (Hfin : forall b, sp_done p = Some b -> sp_incomplete p = false /\
      (b = true -> bf + sp_observed_rows p = total)
      /\ (b = false -> sc_pagination (contract source) = Numbered -> sp_observed_rows p = 100)).
    { intros b Hb'. assert (Hinc : sp_incomplete p = false) by (apply Hdone; congruence). split; [done|].
      destruct (Hc Hinc) as (consumed & Hcon & Hpi & Hd). rewrite Hb' in Hd. unfold page_incomplete in Hpi.
      destruct (sc_pagination (contract source)) eqn:Ep; [done|..]; cbn in Hcon, Hpi, Hd; injection Hd as Hd.
      - injection Hcon as Hcon. rewrite Hb in * by done. unfold saturating_sub in Hpi.
        repeat (apply orb_false_iff in Hpi as [? Hpi]). apply negb_false_iff in Hpi.
        split; [intros ->; lia|intros -> _; lia].
      - destruct (_ <=? u64_max); [|done]. injection Hcon as Hcon.
        repeat (apply orb_false_iff in Hpi as [? Hpi]). split; [intros ->; lia|done]. }
    split; intros Hd; destruct (Hfin _ Hd) as (? & ? & ?); auto. }
  intros Ht. induction Ht as [pg bf r tree p Hr Hi Hd|pg bf r tree p ps Hr Hi Hd Ht IH]; intros Hb Hb0 Htot.
  - apply Forall_cons in Htot as [Htot _]. destruct (Hstep pg bf r tree p Hr Hi Htot Hb Hb0) as [Hl _].
    destruct (Hl Hd) as [Hs Hinc]. unfold rows_read. cbn. split; [lia|]. by repeat constructor.
  - apply Forall_cons in Htot as [Htot Hrest]. destruct (Hstep pg bf r tree p Hr Hi Htot Hb Hb0) as [_ Hm].
    destruct (Hm Hd) as [Hinc Ho]. destruct IH as [Hs Hf].
    + intros Hn. rewrite (Ho Hn), (Hb Hn). lia.
    + assert (0 <= sp_observed_rows p); [|lia]. clear -Hi. unfold inspect, inspect_page in Hi. cbn zeta in Hi.
      destruct (consumed_rows _ _ _ _); [|done]. destruct (add_public_links _ _ _ _ _); [|done].
      apply result_inj in Hi as <-. cbn. apply zlen_nonneg.
    + done.
    + unfold rows_read in *. rewrite fmap_cons. cbn [sum_Z]. split; [lia|by constructor].
Qed.

(** C27. A traversal that ends has read every row: if every page of a paged view
    reports the same total, the rows observed on all of them are exactly that
    many, and no page was marked incomplete. *)
Theorem traversal_complete source seed ps total :
  sc_pagination (contract source) <> Singleton -> traversed source seed 1 0 ps ->
  Forall (fun p => sp_total p = Some total) ps ->
  rows_read ps = total /\ Forall (fun p => sp_incomplete p = false) ps.
Proof. intros Hp Ht Htot. by apply (traversed_rows source seed 1 0). Qed.

(** * Captures *)

Section capture.
Context `{FormLaws} `{Unicode} `{LegalCodecs}.
Context (url_text : Request -> str) (request_link : Request -> option Link) (sha256_hex : list byte -> str).
Context (client : LawClient) (attempt : FetchAttempt)
  (process : DocumentInput -> result DocumentError DocumentOutput).

(** Neither an end nor a total, rows, seeds or links are claimed. *)
Definition claims_nothing (p : SupplementPage) : Prop :=
  sp_incomplete p = true /\ sp_done p = None /\ sp_total p = None /\ sp_observed_rows p = 0
  /\ sp_seeds p = [] /\ sp_source_links p = [].

(** What a capture holds. *)
Record capture_ok (r : SupplementRequest) (before : Z) (c : SupplementCapture) : Prop := {
  cu_key : su_observation_key c = observation_key url_text sha256_hex r
    /\ su_source_url c = url_text (source_url r);
  cu_raw : exists marked, delivered client attempt (sr_format r) None (su_raw c) marked;
  cu_free : free_of (lc_credential client) (su_raw c);
  (** the page was read from these bytes, or nothing is claimed *)
  cu_page : match su_processing_error c with
    | Some error => claims_nothing (su_page c) /\ su_processor_version c = u "unprocessed" /\ error <> Legal.Cancelled
        /\ analyze_supplement set_https without_fragment with_query sha256_hex process r (su_raw c) before = Err error
    | None => exists output tree, process (document_input sha256_hex (sr_format r) (su_raw c) false) = Ok output
        /\ do_tree output = Some tree /\ su_processor_version c = do_processor_version output
        /\ inspect r tree before = Ok (su_page c)
    end;
}.

Lemma analyze_supplement_Ok r raw before page version :
  analyze_supplement set_https without_fragment with_query sha256_hex process r raw before = Ok (page, version) ->
  exists output tree, process (document_input sha256_hex (sr_format r) raw false) = Ok output
    /\ do_tree output = Some tree /\ version = do_processor_version output /\ inspect r tree before = Ok page.
Proof.
  unfold analyze_supplement. destruct (_ || _); [done|]. destruct (process _) as [output|]; [|done].
  destruct (do_tree output) as [tree|] eqn:Et; [|done]. cbn [ok_or].
  destruct (inspect_page _ _ _ r tree before) as [p|] eqn:Ep; [|done]. intros [= <- <-]. by exists output, tree.
Qed.

(** C28. A supplementary view always answers.  One whose content may not be reused is
    deferred without a request; for the others one request is made, under the
    canonical key; what is captured is the whole response without any form of the
    credential, with the page read from exactly these bytes, and where it cannot
    be read the bytes are kept and nothing is claimed of the page. *)
Theorem fetch_supplement_sound r before :
  exists outcome calls,
    fetch_supplement set_https without_fragment with_query url_text request_link sha256_hex client attempt process r
      before = Ok (outcome, calls)
    /\ (sr_metadata_only r = true -> cl_asked calls = []
         /\ outcome = Ok (Deferred (observation_key url_text sha256_hex r) (url_text (source_url r))
                            (sc_reason (contract (sr_source r)))))
    /\ (length (cl_asked calls) <= 1)%nat
    /\ match outcome with
       | Ok (Captured c) => sr_metadata_only r = false /\ capture_ok r before c
       | Ok (Deferred _ _ _) => sr_metadata_only r = true
       | Err _ => True
       end.
Proof.
  unfold fetch_supplement. cbn zeta. destruct (sr_metadata_only r) eqn:Em.
  { eexists _, _. split; [done|]. split; [done|]. split; [cbn; lia|done]. }
  destruct (let? r' := supplement_request client r in ok_or (request_link r') InvalidInput) as [link|e].
  2: { eexists _, _. split; [done|]. split; [done|]. split; [cbn; lia|done]. }
  unfold fetch_original.
  destruct (fetch_accounts with_query sha256_hex (T := unit) (fun (s : unit) (_ : DocumentOutput) (_ : list byte) (_ : Z) =>
    (@Ok DatabaseError unit tt, s)) client link (sr_format r) false None false attempt tt)
    as (f & Hf & [_ Hres _ _ _]); [done|]. rewrite Hf.
  destruct (ft_result f) as [[value|raw at_|raw html reason]|e].
  - by destruct Hres.
  - destruct Hres as (_ & _ & marked & Hdel & _). pose proof (delivered_free _ _ _ _ _ _ Hdel) as Hfree.
    destruct (analyze_supplement _ _ _ _ _ r raw before) as [[page version]|error] eqn:Ea.
    + eexists _, _. split; [done|]. split; [done|]. split; [done|]. split; [done|].
      apply analyze_supplement_Ok in Ea. by constructor; cbn; [|exists marked| |].
    + assert (Hcap : forall e, e <> Legal.Cancelled -> error = e ->
        capture_ok r before {| su_observation_key := observation_key url_text sha256_hex r;
          su_source_url := url_text (source_url r); su_raw := raw; su_credentials_redacted := has_credential_redaction raw;
          su_retrieved_at := at_; su_processor_version := u "unprocessed"; su_processing_error := Some e;
          su_page := unprocessed |}).
      { intros e He ->. by constructor; cbn; [|exists marked| |]. }
      destruct error; (eexists _, _; split; [done|]; split; [done|]; split; [done|]);
        first [done|split; [done|]; by apply Hcap].
  - by destruct Hres as (? & _).
  - eexists _, _. split; [done|]. split; [done|]. split; [done|done].
Qed.
End capture.
End pages.

(** * Coverage *)

(** No guide falls through: one without a family or a view of its own is an
    alias, a query function, or marked as unverified in the registry itself; and
    the views of a guide are those of its contracts. *)
Theorem coverage_closed entry :
  entry ∈ GUIDE_ENTRIES ->
  (forall reason, coverage_status entry = CoverageUnverified reason ->
     ge_kind entry = NeedsVerification /\ reason = ge_reason entry)
  /\ (forall sources, coverage_status entry = Supplemental sources ->
       sources <> [] /\ Forall (fun source => ge_guide (guide source) = ge_guide entry) sources).
Proof.
  assert (H : forallb (fun entry =>
    match coverage_status entry with
    | CoverageUnverified reason => bool_decide (ge_kind entry = NeedsVerification) && str_eqb reason (ge_reason entry)
    | Supplemental sources => negb (bool_decide (length sources = O))
        && forallb (fun source => str_eqb (ge_guide (guide source)) (ge_guide entry)) sources
    | _ => true
    end) GUIDE_ENTRIES = true) by (vm_compute; reflexivity).
  intros Hin. rewrite forallb_forall in H. specialize (H entry (proj1 (list_elem_of_In _ _) Hin)).
  split; intros x Hx; rewrite Hx in H; apply andb_true_iff in H as [Ha Hb].
  - apply bool_decide_eq_true in Ha. by apply str_eqb_eq in Hb.
  - apply negb_true_iff, bool_decide_eq_false in Ha. split; [by intros ->|].
    apply Forall_forall. intros source Hs. rewrite forallb_forall in Hb.
    by apply str_eqb_eq, Hb, list_elem_of_In.
Qed.

(** * Two pages of terms *)

Definition term_row (name : string) : DocumentNode := Element (u "row") [] [leaf "일상용어명" name].

Definition term_page (total : string) (rows : list DocumentNode) : DocumentNode :=
  Element (u "search") [] (leaf "totalCnt" total :: rows).

Definition first_terms : DocumentNode := term_page "101" (replicate 100 (term_row "lease")).
Definition last_terms : DocumentNode := term_page "101" [term_row "deposit"].

Definition inspect_terms (page : Z) (tree : DocumentNode) : result DatabaseError SupplementPage :=
  let? r := request EverydayTermInventory Global page in
  @inspect_page provider_links Some id (fun link _ => lk_text link) r tree 0.

Lemma page_seeds_requestable_witness :
  exists r p, request EverydayTermInventory Global 2 = Ok r
    /\ @inspect_page provider_links Some id (fun link _ => lk_text link) r last_terms 0 = Ok p
    /\ sp_seeds p = [EverydayTerm (u "deposit")]
    /\ Forall (fun seed => exists kind rs, seed_kind seed = Some kind /\ seeded_requests seed 1 = Ok rs
         /\ sr_source <$> rs = sc_source <$> views kind 1 /\ rs <> []) (sp_seeds p).
Proof.
  destruct (request EverydayTermInventory Global 2) as [r|e] eqn:Er; [|vm_compute in Er; discriminate Er].
  destruct (@inspect_page provider_links Some id (fun link _ => lk_text link) r last_terms 0) as [p|e] eqn:Ep;
    [|vm_compute in Er; injection Er as <-; vm_compute in Ep; discriminate Ep].
  exists r, p. split; [reflexivity|]. split; [exact Ep|].
  split; [vm_compute in Er; injection Er as <-; vm_compute in Ep; injection Ep as <-; vm_compute; reflexivity|].
  exact (proj2 (@page_seeds_requestable provider_links Some id (fun link _ => lk_text link) r last_terms 0 p Ep)).
Defined.

Lemma traversal_complete_witness :
  exists first_ last_, inspect_terms 1 first_terms = Ok first_ /\ inspect_terms 2 last_terms = Ok last_
    /\ rows_read [first_; last_] = 101.
Proof.
  destruct (request EverydayTermInventory Global 1) as [r1|e] eqn:E1; [|vm_compute in E1; discriminate E1].
  destruct (request EverydayTermInventory Global 2) as [r2|e] eqn:E2; [|vm_compute in E2; discriminate E2].
  destruct (@inspect_page provider_links Some id (fun link _ => lk_text link) r1 first_terms 0) as [p1|e] eqn:I1;
    [|vm_compute in E1; injection E1 as <-; vm_compute in I1; discriminate I1].
  destruct (@inspect_page provider_links Some id (fun link _ => lk_text link) r2 last_terms 100) as [p2|e] eqn:I2;
    [|vm_compute in E2; injection E2 as <-; vm_compute in I2; discriminate I2].
  assert (I2' : @inspect_page provider_links Some id (fun link _ => lk_text link) r2 last_terms 0 = Ok p2)
    by (vm_compute in E2; injection E2 as <-; vm_compute in I2; injection I2 as <-; vm_compute; reflexivity).
  exists p1, p2. unfold inspect_terms. rewrite E1, E2. split; [exact I1|]. split; [exact I2'|].
  assert (D1 : sp_done p1 = Some false /\ sp_total p1 = Some 101 /\ sp_observed_rows p1 = 100)
    by (vm_compute in E1; injection E1 as <-; vm_compute in I1; injection I1 as <-; vm_compute; auto).
  assert (D2 : sp_done p2 = Some true /\ sp_total p2 = Some 101)
    by (vm_compute in E2; injection E2 as <-; vm_compute in I2; injection I2 as <-; vm_compute; auto).
  destruct D1 as (D1 & T1 & O1), D2 as [D2 T2].
  apply (@traversal_complete provider_links Some id (fun link _ => lk_text link) EverydayTermInventory Global
    [p1; p2] 101).
  - vm_compute. discriminate.
  - eapply More_pages; [exact E1|exact I1|exact D1|]. rewrite O1.
    eapply Last_page; [exact E2|exact I2|exact D2].
  - repeat constructor; assumption.
Defined.

(** A page of terms is fetched; the overview of a law is deferred. *)
Definition sample_process (input : DocumentInput) : result DocumentError DocumentOutput :=
  Ok (sample_output last_terms).

Definition fetch_terms (r : SupplementRequest) : result (stop DatabaseError) (result DatabaseError SupplementOutcome * Calls) :=
  @fetch_supplement provider_links Some id (fun link _ => lk_text link) link_form sample_unicode sample_evidence
    rq_service (fun _ => Some sample_destination) (fun _ => u "00") sample_client (sample_attempt 200) sample_process r 0.

Lemma fetch_supplement_sound_witness :
  exists r c calls, request EverydayTermInventory Global 2 = Ok r
    /\ fetch_terms r = Ok (Ok (Captured c), calls) /\ sp_done (su_page c) = Some true
    /\ free_of (H := link_form) (u "key7") (su_raw c).
Proof.
  destruct (request EverydayTermInventory Global 2) as [r|e] eqn:Er; [|vm_compute in Er; discriminate Er].
  destruct (@fetch_supplement_sound provider_links Some id (fun link _ => lk_text link) link_form link_form_laws
    sample_unicode sample_evidence rq_service (fun _ => Some sample_destination) (fun _ => u "00") sample_client
    (sample_attempt 200) sample_process r 0) as (outcome & calls & Hrun & _ & _ & Hout).
  destruct outcome as [[c|key source reason]|e];
    [|exfalso; vm_compute in Er; injection Er as <-; vm_compute in Hrun; discriminate Hrun..].
  exists r, c, calls. split; [reflexivity|]. split; [exact Hrun|]. split.
  - vm_compute in Er. injection Er as <-. vm_compute in Hrun. injection Hrun as <- _. vm_compute. reflexivity.
  - destruct Hout as [_ Hcap]. exact (cu_free _ _ _ _ _ _ _ _ _ _ _ Hcap).
Defined.
