(* ===== verification/RateLimit.v ===== *)
(** The limits of serving, [Limits] of [apps/server/src/config.rs], and the
    limit on the rate of tool calls, [apps/server/src/rate_limit.rs]: a bucket of tokens that is filled as time
    passes.  A call is admitted exactly when no window of calls that ends with
    it would exceed what the burst and the rate allow.  Instants are counted in
    nanoseconds. *)
From S2P Require Import Prelude.

(** * The configuration *)

Record VerifiedTunnelRateLimitConfig := { vt_calls_per_second : Z; vt_burst : Z }.

Record RateLimitConfig := {
  rc_enabled : bool; rc_calls_per_second : Z; rc_burst : Z;
  rc_verified_tunnel : option VerifiedTunnelRateLimitConfig;
}.

Definition rate_out_of_range (n : Z) : bool := negb ((1 <=? n) && (n <=? 200000)).

Definition rate_limit_invalid (c : RateLimitConfig) : bool :=
  rate_out_of_range (rc_calls_per_second c) || rate_out_of_range (rc_burst c)
  || match rc_verified_tunnel c with
     | Some v => rate_out_of_range (vt_calls_per_second v) || rate_out_of_range (vt_burst v)
     | None => false
     end.

Record Limits := {
  lm_max_message_bytes : Z; lm_max_tool_result_bytes : option Z; lm_max_buffer_bytes : Z;
  lm_max_original_buffer_bytes : Z; lm_max_in_flight : Z; lm_max_connections : Z;
  lm_max_calls_per_connection : Z; lm_io_timeout_secs : Z; lm_call_timeout_secs : Z;
  lm_idle_timeout_secs : Z; lm_shutdown_timeout_secs : Z; lm_rate_limit : RateLimitConfig;
}.

Definition default_rate_limit : RateLimitConfig :=
  {| rc_enabled := true; rc_calls_per_second := 100; rc_burst := 100; rc_verified_tunnel := None |}.

Definition limits_default : Limits := {|
  lm_max_message_bytes := 1024 * 1024; lm_max_tool_result_bytes := None;
  lm_max_buffer_bytes := 64 * 1024 * 1024; lm_max_original_buffer_bytes := 768 * 1024 * 1024;
  lm_max_in_flight := 64; lm_max_connections := 128; lm_max_calls_per_connection := 8;
  lm_io_timeout_secs := 10; lm_call_timeout_secs := 30; lm_idle_timeout_secs := 60;
  lm_shutdown_timeout_secs := 15; lm_rate_limit := default_rate_limit;
|}.

Definition tool_result_limit (l : Limits) : Z :=
  match lm_max_tool_result_bytes l with Some value => value | None => lm_max_message_bytes l / 8 end.

(** [Limits::validate], true where it is an error. *)
Definition limits_invalid (l : Limits) : bool :=
  negb ((4096 <=? lm_max_message_bytes l) && (lm_max_message_bytes l <=? 16 * 1024 * 1024))
  || match lm_max_tool_result_bytes l with
     | Some value => (value =? 0) || (lm_max_message_bytes l / 8 <? value)
     | None => false
     end
  || (lm_max_buffer_bytes l <? lm_max_message_bytes l * 4)
  || (lm_max_original_buffer_bytes l <? 768 * 1024 * 1024)
  || (2 ^ 32 - 1 <? lm_max_original_buffer_bytes l)
  || (2 ^ 32 - 1 <? lm_max_buffer_bytes l)
  || (lm_max_in_flight l =? 0) || (128000 <? lm_max_in_flight l)
  || (lm_max_connections l =? 0) || (256000 <? lm_max_connections l)
  || (lm_max_calls_per_connection l =? 0) || (lm_max_in_flight l <? lm_max_calls_per_connection l)
  || rate_limit_invalid (lm_rate_limit l)
  || existsb (fun v => (v =? 0) || (86400 <? v))
       [lm_io_timeout_secs l; lm_call_timeout_secs l; lm_idle_timeout_secs l; lm_shutdown_timeout_secs l].

(** What the serving code relies on: a message, its answer and a read buffer
    fit the budget at once, the answer of a tool fits a message, and the counts
    of the budgets are 32-bit integers. *)
Lemma limits_valid l :
  limits_invalid l = false ->
  4096 <= lm_max_message_bytes l <= 2 ^ 24
  /\ 4 * lm_max_message_bytes l <= lm_max_buffer_bytes l < 2 ^ 32
  /\ tool_result_limit l <= lm_max_message_bytes l / 8
  /\ rate_limit_invalid (lm_rate_limit l) = false.
Proof.
  unfold limits_invalid, tool_result_limit. intros E. rewrite !orb_false_iff in E.
  destruct E as [[[[[[[[[[[[[Em Et] Eb] _] _] Ec] _] _] _] _] _] _] Er] _].
  apply negb_false_iff, andb_true_iff in Em as [Em1 Em2].
  split; [lia|]. split; [lia|]. split; [|done].
  destruct (lm_max_tool_result_bytes l); [apply orb_false_iff in Et as [_ Et]; lia|lia].
Qed.

(** * The bucket *)

Definition TOKEN : Z := 1000000000.

Definition u128_max : Z := 2 ^ 128 - 1.

Record Bucket := { bu_tokens : Z; bu_at : Z }.

Record RateLimiter := {
  rl_enabled : bool; rl_calls_per_second : Z; rl_burst : Z; rl_bucket : Bucket;
}.

Definition new (enabled : bool) (calls_per_second burst now : Z) : RateLimiter :=
  {| rl_enabled := enabled; rl_calls_per_second := calls_per_second; rl_burst := burst;
     rl_bucket := {| bu_tokens := burst * TOKEN; bu_at := now |} |}.

Definition verified_tunnel (config : VerifiedTunnelRateLimitConfig) (now : Z) : RateLimiter :=
  new true (vt_calls_per_second config) (vt_burst config) now.

(** The tokens of the bucket after it is refilled. *)
Definition refilled (l : RateLimiter) (now : Z) : Z :=
  let bucket := rl_bucket l in
  let refill := Z.min (saturating_sub now (bu_at bucket) * rl_calls_per_second l) u128_max in
  Z.min (Z.min (bu_tokens bucket + refill) u128_max) (rl_burst l * TOKEN).

Definition try_admit (l : RateLimiter) (now : Z) : bool * RateLimiter :=
  if negb (rl_enabled l) then (true, l)
  else
    let tokens := refilled l now in
    let '(admitted, tokens) := if tokens <? TOKEN then (false, tokens) else (true, tokens - TOKEN) in
    (admitted, {| rl_enabled := rl_enabled l; rl_calls_per_second := rl_calls_per_second l;
                  rl_burst := rl_burst l; rl_bucket := {| bu_tokens := tokens; bu_at := now |} |}).

(** The answers to calls in the order in which they take the lock, with the
    instant at which each one read the clock. *)
Fixpoint serve (times : list Z) (l : RateLimiter) : list (Z * bool) :=
  match times with
  | [] => []
  | now :: times => let '(admitted, l) := try_admit l now in (now, admitted) :: serve times l
  end.

(** * What is admitted *)

(** The clock does not go back, and its readings fit a [Duration]. *)
Definition instant_bound : Z := 2 ^ 64 * TOKEN.

Fixpoint in_order (last : Z) (times : list Z) : Prop :=
  match times with
  | [] => True
  | now :: times => last <= now < instant_bound /\ in_order now times
  end.

Definition admitted_in (calls : list (Z * bool)) : Z := countb snd calls.

(** One more call at [now] is within the allowance of every window that begins
    with an earlier call. *)
Definition within (rate burst : Z) (earlier : list (Z * bool)) (now : Z) : Prop :=
  forall h t0 a0 w, earlier = h ++ (t0, a0) :: w ->
    (admitted_in ((t0, a0) :: w) + 1) * TOKEN <= burst * TOKEN + rate * (now - t0).

Section bucket.
Variables rate burst : Z.
Hypothesis rate_u32 : 0 <= rate < 2 ^ 32.
Hypothesis burst_u32 : 1 <= burst < 2 ^ 32.

(** What a window that ends at [last] leaves of its allowance. *)
Definition left_over (last : Z) (w : list (Z * bool)) (t0 : Z) : Z :=
  burst * TOKEN + rate * (last - t0) - TOKEN * admitted_in w.

(** The tokens are the least that any window leaves. *)
Record accounted (l : RateLimiter) (history : list (Z * bool)) : Prop := {
  ac_config : rl_enabled l = true /\ rl_calls_per_second l = rate /\ rl_burst l = burst;
  ac_bounds : 0 <= bu_tokens (rl_bucket l) <= burst * TOKEN /\ 0 <= bu_at (rl_bucket l) < instant_bound;
  ac_least : forall h t0 a0 w, history = h ++ (t0, a0) :: w ->
    bu_tokens (rl_bucket l) <= left_over (bu_at (rl_bucket l)) ((t0, a0) :: w) t0;
  ac_met : exists h t0 a0 w, history = h ++ (t0, a0) :: w
    /\ bu_tokens (rl_bucket l) = left_over (bu_at (rl_bucket l)) ((t0, a0) :: w) t0;
}.

Lemma window_snoc (history : list (Z * bool)) x h y w :
  history ++ [x] = h ++ y :: w -> (w = [] /\ h = history /\ y = x) \/ exists w', w = w' ++ [x] /\ history = h ++ y :: w'.
Proof.
  destruct w as [|z w _] using rev_ind.
  - intros [-> [= ->]]%app_inj_tail. by left.
  - change (h ++ y :: w ++ [z]) with (h ++ (y :: w) ++ [z]). rewrite app_assoc.
    intros [-> ->]%app_inj_tail. right. by exists w.
Qed.

Lemma accounted_new created :
  0 <= created < instant_bound -> accounted (new true rate burst created) [(created, false)].
Proof.
  intros Hc. constructor; cbn [rl_enabled rl_calls_per_second rl_burst rl_bucket bu_tokens bu_at new].
  - done.
  - unfold TOKEN in *. lia.
  - intros [|? [|]] t0 a0 w [=]; subst. unfold left_over, admitted_in. cbn. lia.
  - exists [], created, false, []. split; [done|]. unfold left_over, admitted_in. cbn. lia.
Qed.

(** No saturation occurs. *)
Lemma refilled_exact l history now :
  accounted l history -> bu_at (rl_bucket l) <= now < instant_bound ->
  refilled l now = Z.min (bu_tokens (rl_bucket l) + rate * (now - bu_at (rl_bucket l))) (burst * TOKEN).
Proof.
  intros [(_ & Er & Eb) [Ht Ha] _ _] Hn. unfold refilled, saturating_sub. cbn zeta. rewrite Er, Eb.
  rewrite Z.max_l by lia. unfold instant_bound, TOKEN, u128_max in *.
  assert ((now - bu_at (rl_bucket l)) * rate <= 2 ^ 64 * 1000000000 * 2 ^ 32) by nia. lia.
Qed.

Lemma refilled_window l history now h t0 a0 w :
  accounted l history -> bu_at (rl_bucket l) <= now < instant_bound -> history = h ++ (t0, a0) :: w ->
  refilled l now <= left_over now ((t0, a0) :: w) t0.
Proof.
  intros Ha Hn Hw. rewrite (refilled_exact l history now) by done. pose proof (ac_least _ _ Ha _ _ _ _ Hw) as Hl.
  unfold left_over in *. lia.
Qed.

Lemma refilled_met l history now :
  accounted l history -> bu_at (rl_bucket l) <= now < instant_bound ->
  refilled l now = burst * TOKEN
  \/ exists h t0 a0 w, history = h ++ (t0, a0) :: w /\ refilled l now = left_over now ((t0, a0) :: w) t0.
Proof.
  intros Ha Hn. rewrite (refilled_exact l history now) by done. destruct (ac_met _ _ Ha) as (h & t0 & a0 & w & Hw & E).
  destruct (Z.le_gt_cases (burst * TOKEN) (bu_tokens (rl_bucket l) + rate * (now - bu_at (rl_bucket l)))).
  - left. lia.
  - right. exists h, t0, a0, w. split; [done|]. unfold left_over in *. lia.
Qed.

Lemma admitted_snoc w t a : admitted_in (w ++ [(t, a)]) = admitted_in w + Z.b2z a.
Proof. unfold admitted_in. rewrite countb_app. cbn. destruct a; cbn; lia. Qed.

(** A call takes its token, and is admitted exactly when every window leaves one. *)
Lemma try_admit_step l history now :
  accounted l history -> bu_at (rl_bucket l) <= now < instant_bound ->
  let '(admitted, l') := try_admit l now in
  (admitted = true <-> within rate burst history now)
  /\ bu_at (rl_bucket l') = now /\ accounted l' (history ++ [(now, admitted)]).
Proof.
  intros Ha Hn. pose proof (refilled_exact l history now Ha Hn) as Ex. pose proof (refilled_met l history now Ha Hn) as Hm.
  pose proof (fun h t0 a0 w => refilled_window l history now h t0 a0 w Ha Hn) as Hw.
  destruct (ac_config _ _ Ha) as (Ee & Er & Eb). destruct (ac_bounds _ _ Ha) as [Hb Hat].
  unfold try_admit. rewrite Ee. cbn [negb]. cbn zeta. set (tokens := refilled l now) in *.
  assert (Hpos : 0 <= tokens) by nia.
  destruct (if tokens <? TOKEN then (false, tokens) else (true, tokens - TOKEN)) as [a left] eqn:E.
  assert (Hleft : left = tokens - TOKEN * Z.b2z a /\ 0 <= left /\ (a = true <-> TOKEN <= tokens)).
  { destruct (Z.ltb_spec tokens TOKEN); injection E as <- <-; cbn; (split; [lia|]); (split; [lia|]); split; (done || lia). }
  destruct Hleft as (El & Hl0 & Hadm). split; [|split; [done|]].
  - rewrite Hadm. unfold within. split.
    + intros Ht h t0 a0 w Hh. specialize (Hw h t0 a0 w Hh). unfold left_over in Hw. lia.
    + intros Hall. destruct Hm as [->|(h & t0 & a0 & w & Hh & ->)]; [unfold TOKEN; lia|].
      specialize (Hall h t0 a0 w Hh). unfold left_over. lia.
  - constructor; cbn [rl_enabled rl_calls_per_second rl_burst rl_bucket bu_tokens bu_at].
    + done.
    + unfold TOKEN in *. destruct a; cbn in *; lia.
    + intros h t0 a0 w [(-> & -> & [= -> ->])|(w' & -> & Hh)]%window_snoc.
      * unfold left_over, admitted_in, TOKEN in *. cbn. destruct a; cbn in *; lia.
      * specialize (Hw h t0 a0 w' Hh). unfold left_over in *.
        change ((t0, a0) :: w' ++ [(now, a)]) with (((t0, a0) :: w') ++ [(now, a)]). rewrite admitted_snoc. lia.
    + destruct Hm as [Em|(h & t0 & a0 & w & Hh & Em)].
      * exists history, now, a, []. split; [done|]. unfold left_over, admitted_in, TOKEN in *. cbn. destruct a; cbn in *; lia.
      * exists h, t0, a0, (w ++ [(now, a)]). split; [by rewrite Hh, <- app_assoc|].
        change ((t0, a0) :: w ++ [(now, a)]) with (((t0, a0) :: w) ++ [(now, a)]).
        unfold left_over in *. rewrite admitted_snoc. lia.
Qed.

Lemma serve_exact times : forall l history before t a after,
  accounted l history -> in_order (bu_at (rl_bucket l)) times ->
  serve times l = before ++ (t, a) :: after -> (a = true <-> within rate burst (history ++ before) t).
Proof.
  induction times as [|now times IH]; intros l history before t a after Ha Ho Hs; [by destruct before|].
  destruct Ho as [Hn Ho]. cbn [serve] in Hs. pose proof (try_admit_step l history now Ha Hn) as Hstep.
  destruct (try_admit l now) as [admitted l']. destruct Hstep as (Hadm & Hat & Ha').
  destruct before as [|x before]; injection Hs as <- Hs.
  - subst a. by rewrite app_nil_r.
  - rewrite <- Hat in Ho. specialize (IH l' _ before t a after Ha' Ho Hs). by rewrite <- app_assoc in IH.
Qed.

Lemma serve_times times : forall l, (serve times l).*1 = times.
Proof.
  induction times as [|now times IH]; intros l; [done|]. cbn [serve]. destruct (try_admit l now). cbn. by rewrite IH.
Qed.
End bucket.

Lemma in_order_snoc l : forall t x, in_order t (l ++ [x]) -> in_order t l /\ default t (last l) <= x.
Proof.
  induction l as [|y l IH]; intros t x; cbn [app in_order]; [cbn; lia|]. intros [Hy Ho].
  destruct (IH y x Ho) as [H1 H2]. split; [done|]. rewrite last_cons. by destruct (last l).
Qed.

(** A window of answers, from its first call to its last. *)
Lemma window_within rate burst t0 a0 : forall w t1,
  0 <= rate -> 1 <= burst -> in_order t0 (w.*1) -> t1 = default t0 (last (w.*1)) ->
  (forall before t a after, (t0, a0) :: w = before ++ (t, a) :: after -> before <> [] -> a = true -> within rate burst before t) ->
  admitted_in ((t0, a0) :: w) * TOKEN <= burst * TOKEN + rate * (t1 - t0).
Proof.
  induction w as [|[t a] w IH] using rev_ind; intros t1 Hr Hb Ho -> Hall.
  - unfold admitted_in. cbn. destruct a0; cbn; unfold TOKEN; lia.
  - rewrite fmap_app in Ho |- *. cbn [fmap list_fmap fst] in *. rewrite last_snoc. cbn [default].
    apply in_order_snoc in Ho as [Ho' Hle].
    change ((t0, a0) :: w ++ [(t, a)]) with (((t0, a0) :: w) ++ [(t, a)]) in *. rewrite admitted_snoc.
    destruct a; cbn [Z.b2z].
    + apply (Hall ((t0, a0) :: w) t true [] eq_refl) with (h := []); done.
    + assert (IHw : admitted_in ((t0, a0) :: w) * TOKEN
        <= burst * TOKEN + rate * (default t0 (list.last w.*1) - t0)).
      { apply IH; try done. intros before t' a' after E. apply (Hall before t' a' (after ++ [(t, false)])). by rewrite E, <- app_assoc. }
      cbn in *. nia.
Qed.

Lemma within_suffix rate burst earlier before t : within rate burst (earlier ++ before) t -> within rate burst before t.
Proof. intros Hw h t0 a0 w ->. apply (Hw (earlier ++ h)). by rewrite app_assoc. Qed.

Lemma in_order_app l k : forall t, in_order t (l ++ k) -> in_order (default t (last l)) k /\ in_order t l.
Proof.
  induction l as [|y l IH]; intros t; cbn [app in_order]; [done|]. intros [Hy [Hk Hl]%IH]. split; [|done].
  rewrite last_cons. by destruct (last l).
Qed.

(** C10. Every call is answered.  A call is admitted exactly when it fits into the
    allowance of every window that begins with an earlier call or with the
    start of the limiter; so no window of calls admits more than the burst and
    what the rate gives in its time, and no call is refused without such a
    window. *)
Theorem admission_exact rate burst created times :
  0 <= rate < 2 ^ 32 -> 1 <= burst < 2 ^ 32 -> 0 <= created -> in_order created times ->
  let answers := serve times (new true rate burst created) in
  answers.*1 = times
  /\ (forall before t a after, answers = before ++ (t, a) :: after ->
        a = true <-> within rate burst ((created, false) :: before) t)
  /\ (forall before t0 a0 w after, answers = before ++ ((t0, a0) :: w) ++ after ->
        admitted_in ((t0, a0) :: w) * TOKEN <= burst * TOKEN + rate * (default t0 (last w.*1) - t0)).
Proof.
  intros Hr Hb Hc Ho answers. assert (Ht : answers.*1 = times) by apply serve_times.
  assert (Hexact : forall before t a after, answers = before ++ (t, a) :: after ->
    a = true <-> within rate burst ((created, false) :: before) t).
  { intros before t a after E. destruct times as [|now times]; [by destruct before|].
    refine (serve_exact rate burst Hr Hb _ _ [(created, false)] before t a after _ _ E); [|exact Ho].
    apply accounted_new; [done|]. destruct Ho. lia. }
  split; [done|]. split; [done|]. intros before t0 a0 w after E. apply window_within; try done; try lia.
  - rewrite <- Ht, E, !fmap_app in Ho. cbn [fmap list_fmap fst] in Ho. apply in_order_app in Ho as [Ho _].
    rewrite <- app_comm_cons in Ho. destruct Ho as [_ [_ Ho]%in_order_app]. exact Ho.
  - intros before' t a after' Ew _ ->. rewrite Ew in E. apply (within_suffix rate burst ((created, false) :: before)).
    apply (Hexact (before ++ before') t true (after' ++ after)); [|done].
    by rewrite E, <- !app_assoc.
Qed.

(** The unit test of the source: a burst of three, and two calls per second. *)
Definition test_times : list Z :=
  [0; 0; 0; 0; 499000000; 500000000; 500000000; 100500000000; 100500000000; 100500000000; 100500000000].

Example burst_and_fractional_refill_are_exact :
  (serve test_times (new true 2 3 0)).*2
  = [true; true; true; false; false; true; false; true; true; true; false].
Proof. reflexivity. Qed.

Example disabled_limiter_never_consumes_tokens :
  (serve [0; 0; 0] (new false 1 1 0)).*2 = [true; true; true].
Proof. reflexivity. Qed.

Lemma admission_exact_witness :
  in_order 0 test_times /\ serve test_times (new true 2 3 0) <> []
  /\ within 2 3 [(0, false); (0, true); (0, true); (0, true); (0, false); (499000000, false)] 500000000.
Proof.
  assert (Ho : in_order 0 test_times) by (cbn; unfold instant_bound, TOKEN; lia).
  split; [exact Ho|]. split; [discriminate|].
  destruct (admission_exact 2 3 0 test_times ltac:(lia) ltac:(lia) ltac:(lia) Ho) as (_ & Hexact & _).
  apply (Hexact [(0, true); (0, true); (0, true); (0, false); (499000000, false)] 500000000 true
    (drop 6 (serve test_times (new true 2 3 0)))); reflexivity.
Defined.
