(* ===== verification/Framing.v ===== *)
(** The framing of messages on a byte stream, [apps/server/src/framing.rs]:
    lines of JSON, read under a byte budget and two deadlines, and written under
    a byte budget.  A call of [read] may be dropped at any time; the reader then
    keeps what it has.  Instants are integers; the sum of an instant and a
    duration is taken not to overflow. *)
From S2P Require Import Prelude Utf8.

Inductive IoError := OutOfMemory | TimedOut | InvalidData | Broken.

#[export] Instance IoError_eq_dec : EqDecision IoError.
Proof. solve_decision. Defined.

Definition LF : byte := 10.
Definition CR : byte := 13.

(** A frame keeps the permits that it was charged. *)
Record Frame := { fm_bytes : list byte; fm_permit : Z }.

(** [rd_buffered] is what the buffered reader holds. *)
Record FrameReader := {
  rd_buffered : list byte; rd_bytes : list byte; rd_permit : option Z; rd_deadline : option Z;
  rd_max : Z; rd_idle : Z; rd_completion : Z; rd_read_buffer_permit : option Z;
}.

(** The permits that are left of the shared budget are passed along; a
    semaphore grants a request or refuses it at once. *)
Definition try_acquire (count budget : Z) : option Z :=
  if count <=? budget then Some (budget - count) else None.

Definition new (max budget idle completion : Z) : FrameReader * Z :=
  let capacity := Z.min 8192 (Z.max max 1) in
  let reader permit :=
    {| rd_buffered := []; rd_bytes := []; rd_permit := None; rd_deadline := None; rd_max := max;
       rd_idle := idle; rd_completion := completion; rd_read_buffer_permit := permit |} in
  match try_acquire capacity budget with
  | Some budget => (reader (Some capacity), budget)
  | None => (reader None, budget)
  end.

(** * Reading *)

(** What a poll of the stream finds at an instant: bytes, where none are the
    end of the stream; an error of the transport; or nothing yet. *)
Inductive Event :=
| Got (now : Z) (chunk : list byte)
| Failed
| Quiet (now : Z).

(** The bytes up to the first line feed, and those behind it. *)
Fixpoint split_line (l : list byte) : list byte * option (list byte) :=
  match l with
  | [] => ([], None)
  | b :: l =>
    if b =? LF then ([], Some l)
    else let '(line, rest) := split_line l in (b :: line, rest)
  end.

(** [bytes.last() == Some(&b'\r')] and [bytes.pop()] *)
Definition strip_cr (line : list byte) : list byte :=
  if bool_decide (last line = Some CR) then removelast line else line.

(** What a turn of the loop ends with; [None] goes on to the next turn. *)
Definition Answer : Type := option (result IoError (option Frame)).

Definition with_deadline (deadline : option Z) (s : FrameReader) : FrameReader :=
  {| rd_buffered := rd_buffered s; rd_bytes := rd_bytes s; rd_permit := rd_permit s; rd_deadline := deadline;
     rd_max := rd_max s; rd_idle := rd_idle s; rd_completion := rd_completion s;
     rd_read_buffer_permit := rd_read_buffer_permit s |}.

Definition with_data (bytes buffered : list byte) (s : FrameReader) : FrameReader :=
  {| rd_buffered := buffered; rd_bytes := bytes; rd_permit := rd_permit s; rd_deadline := rd_deadline s;
     rd_max := rd_max s; rd_idle := rd_idle s; rd_completion := rd_completion s;
     rd_read_buffer_permit := rd_read_buffer_permit s |}.

Definition with_permit (permit : option Z) (deadline : option Z) (s : FrameReader) : FrameReader :=
  {| rd_buffered := rd_buffered s; rd_bytes := rd_bytes s; rd_permit := permit; rd_deadline := deadline;
     rd_max := rd_max s; rd_idle := rd_idle s; rd_completion := rd_completion s;
     rd_read_buffer_permit := rd_read_buffer_permit s |}.

(** The first byte of a frame takes the permits of the largest frame and starts
    its deadline. *)
Definition charge (now : Z) (s : FrameReader) (budget : Z) : result IoError (FrameReader * Z) :=
  match rd_permit s with
  | Some _ => Ok (s, budget)
  | None =>
    if 2 ^ 32 - 1 <? rd_max s then Err InvalidData
    else
      match try_acquire (rd_max s) budget with
      | None => Err OutOfMemory
      | Some budget => Ok (with_permit (Some (rd_max s)) (Some (now + rd_completion s)) s, budget)
      end
  end.

(** A complete line: the permit goes to the frame, or back to the budget when
    the frame is refused. *)
Definition finish_line (line : list byte) (s : FrameReader) (budget : Z) : Answer * FrameReader * Z :=
  let bytes := strip_cr line in
  match rd_permit s with
  | None => (Some (Err InvalidData), with_deadline None s, budget)
  | Some permit =>
    let s := with_permit None None s in
    if bool_decide (bytes = []) then (Some (Err InvalidData), s, budget + permit)
    else (Some (Ok (Some {| fm_bytes := bytes; fm_permit := permit |})), s, budget)
  end.

(** The bytes that [fill_buf] has found, which are not empty. *)
Definition accept (now : Z) (s : FrameReader) (budget : Z) : Answer * FrameReader * Z :=
  match charge now s budget with
  | Err e => (Some (Err e), s, budget)
  | Ok (s, budget) =>
    let '(line, rest) := split_line (rd_buffered s) in
    if saturating_sub (rd_max s) (zlen (rd_bytes s)) <? zlen line then (Some (Err InvalidData), s, budget)
    else
      let bytes := rd_bytes s ++ line in
      match rest with
      | Some rest => finish_line bytes (with_data [] rest s) budget
      | None => (None, with_data bytes [] s, budget)
      end
  end.

(** The turns of the loop that wait for the stream, with the events that are
    left; a call that is still waiting when they run out has no answer. *)
Fixpoint wait (events : list Event) (s : FrameReader) (budget : Z) : Answer * FrameReader * Z * list Event :=
  match events with
  | [] => (None, s, budget, [])
  | Quiet now :: events =>
    match rd_deadline s with
    | Some deadline => if deadline <=? now then (Some (Err TimedOut), s, budget, events) else wait events s budget
    | None => wait events s budget
    end
  | Failed :: events => (Some (Err Broken), s, budget, events)
  | Got now chunk :: events =>
    if bool_decide (chunk = []) then
      (Some (if bool_decide (rd_bytes s = []) then Ok None else Err InvalidData), s, budget, events)
    else
      match accept now (with_data (rd_bytes s) chunk s) budget with
      | (None, s, budget) => wait events s budget
      | (Some answer, s, budget) => (Some answer, s, budget, events)
      end
  end.

Definition read (now : Z) (events : list Event) (s : FrameReader) (budget : Z)
  : Answer * FrameReader * Z * list Event :=
  match rd_read_buffer_permit s with
  | None => (Some (Err OutOfMemory), s, budget, events)
  | Some _ =>
    let s := with_deadline (Some (default (now + rd_idle s) (rd_deadline s))) s in
    if bool_decide (rd_buffered s = []) then wait events s budget
    else
      match accept now s budget with
      | (None, s, budget) => wait events s budget
      | (Some answer, s, budget) => (Some answer, s, budget, events)
      end
  end.

(** * Writing *)

(** [CappedBuffer]: each piece that the serializer writes fits or is refused. *)
Fixpoint capped (max : Z) (pieces : list (list byte)) (buffer : list byte) : result IoError (list byte) :=
  match pieces with
  | [] => Ok buffer
  | input :: pieces =>
    if saturating_sub max (zlen buffer) <? zlen input then Err InvalidData
    else capped max pieces (buffer ++ input)
  end.

(** What reaches the socket: [pieces] is what the serializer writes, [None] its
    error, and [sent] the outcome of the socket before the deadline. *)
Definition write_json (max : Z) (pieces : option (list (list byte))) (sent : result IoError unit) (budget : Z)
  : result IoError (list byte) :=
  if 2 ^ 32 - 1 <? max then Err InvalidData
  else
    match try_acquire max budget with
    | None => Err OutOfMemory
    | Some _ =>
      let? pieces := ok_or pieces InvalidData in
      let? buffer := capped max pieces [] in
      let? _ := sent in
      Ok (buffer ++ [LF])
    end.

(** * What a reader holds *)

Definition pending (s : FrameReader) : list byte := rd_bytes s ++ rd_buffered s.

Definition event_data (e : Event) : list byte := match e with Got _ chunk => chunk | _ => [] end.

Definition data (events : list Event) : list byte := concat (event_data <$> events).

(** The permits that a reader holds. *)
Definition charged (s : FrameReader) : Z := default 0 (rd_permit s) + default 0 (rd_read_buffer_permit s).

Definition line_ok (max : Z) (line : list byte) : Prop := (LF ∉ line) /\ zlen line <= max.

(** A reader has no bytes without a permit, and what it has is a beginning of a
    line that may still be a frame. *)
Record well_formed (s : FrameReader) : Prop := {
  wf_max : 0 <= rd_max s;
  wf_line : line_ok (rd_max s) (rd_bytes s);
  wf_permit : match rd_permit s with
              | Some permit => permit = rd_max s /\ rd_max s < 2 ^ 32 /\ is_some (rd_deadline s) = true
              | None => rd_bytes s = []
              end;
}.

Lemma split_line_spec l : let '(line, rest) := split_line l in
  (LF ∉ line) /\ match rest with Some rest => l = line ++ LF :: rest | None => l = line end.
Proof.
  induction l as [|b l IH]; cbn [split_line]; [split; [apply not_elem_of_nil|done]|].
  destruct (Z.eqb_spec b LF) as [->|Hb]; [split; [apply not_elem_of_nil|done]|].
  destruct (split_line l) as [line rest]. destruct IH as [Hn Hr].
  split; [apply not_elem_of_cons; split; congruence|]. destruct rest; by rewrite Hr at 1.
Qed.

(** A frame that was answered, and the line that ended with it. *)
Definition frame_of (max : Z) (line : list byte) (f : Frame) : Prop :=
  fm_bytes f = strip_cr line /\ fm_bytes f <> [] /\ fm_permit f = max.

(** The reasons of the answers. [raw] is what is used up. *)
Definition answer_ok (events : list Event) (s' : FrameReader) (budget' : Z) (raw : list byte) (answer : Answer) : Prop :=
  match answer with
  | None => raw = [] /\ rd_buffered s' = []
  | Some (Ok (Some f)) => (exists line, raw = line ++ [LF] /\ line_ok (rd_max s') line /\ frame_of (rd_max s') line f)
  | Some (Ok None) => raw = [] /\ pending s' = [] /\ (exists now, Got now [] ∈ events)
  | Some (Err TimedOut) => raw = [] /\ (exists deadline now,
      rd_deadline s' = Some deadline /\ Quiet now ∈ events /\ deadline <= now)
  | Some (Err OutOfMemory) => raw = []
      /\ (rd_read_buffer_permit s' = None
          \/ (rd_permit s' = None /\ budget' < rd_max s' /\ rd_buffered s' <> []))
  | Some (Err Broken) => raw = [] /\ Failed ∈ events
  | Some (Err InvalidData) =>
      (raw = [] /\ (2 ^ 32 <= rd_max s'
                    \/ rd_max s' < zlen (rd_bytes s' ++ (split_line (rd_buffered s')).1)
                    \/ (rd_bytes s' <> [] /\ (exists now, Got now [] ∈ events))))
      \/ (exists line, raw = line ++ [LF] /\ line_ok (rd_max s') line /\ strip_cr line = [])
  end.

Definition answer_permit (answer : Answer) : Z :=
  match answer with Some (Ok (Some f)) => fm_permit f | _ => 0 end.

(** What a call does, whatever it answers: no byte is lost or invented, permits
    are exact, and a frame in progress keeps its deadline. *)
Record moves (s : FrameReader) (budget : Z) (events : list Event)
  (answer : Answer) (s' : FrameReader) (budget' : Z) (rest : list Event) : Prop := {
  mv_well_formed : well_formed s';
  mv_config : rd_max s' = rd_max s /\ rd_read_buffer_permit s' = rd_read_buffer_permit s;
  mv_data : exists raw, pending s ++ data events = raw ++ pending s' ++ data rest
    /\ answer_ok events s' budget' raw answer;
  mv_budget : budget' + charged s' + answer_permit answer = budget + charged s;
  mv_nonneg : 0 <= budget -> 0 <= budget';
  mv_deadline : rd_permit s <> None -> rd_permit s' <> None -> rd_deadline s' = rd_deadline s;
  mv_rest : exists used, events = used ++ rest /\ (answer = None -> rest = []);
}.

Lemma charge_spec now s budget :
  well_formed s -> is_some (rd_deadline s) = true ->
  match charge now s budget with
  | Err InvalidData => rd_permit s = None /\ 2 ^ 32 <= rd_max s
  | Err OutOfMemory => rd_permit s = None /\ budget < rd_max s
  | Err _ => False
  | Ok (s1, budget1) =>
    well_formed s1 /\ rd_permit s1 = Some (rd_max s) /\ rd_max s < 2 ^ 32
    /\ rd_bytes s1 = rd_bytes s /\ rd_buffered s1 = rd_buffered s
    /\ rd_max s1 = rd_max s /\ rd_read_buffer_permit s1 = rd_read_buffer_permit s
    /\ budget1 + charged s1 = budget + charged s /\ (0 <= budget -> 0 <= budget1)
    /\ (rd_permit s <> None -> rd_deadline s1 = rd_deadline s)
  end.
Proof.
  intros Hw Hd. unfold charge. pose proof (wf_permit _ Hw) as Hp. destruct (rd_permit s) as [p|] eqn:Ep.
  - destruct Hp as (-> & Hm & _). split_and!; try done; lia.
  - destruct (Z.ltb_spec (2 ^ 32 - 1) (rd_max s)); [split; [done|lia]|].
    unfold try_acquire. destruct (Z.leb_spec (rd_max s) budget); [|done].
    unfold charged. cbn. rewrite Ep. cbn. destruct Hw as [Hm Hl _].
    split; [constructor; cbn; [done..|]; split_and!; [done|lia|done]|]. split_and!; try done; lia.
Qed.

Lemma finish_line_spec line rest s budget events :
  well_formed s -> rd_permit s = Some (rd_max s) -> rd_max s < 2 ^ 32 -> LF ∉ line -> zlen line <= rd_max s ->
  let '(answer, s', budget') := finish_line line (with_data [] rest s) budget in
  answer <> None /\ well_formed s' /\ rd_max s' = rd_max s /\ rd_read_buffer_permit s' = rd_read_buffer_permit s
  /\ rd_permit s' = None /\ pending s' = rest
  /\ answer_ok events s' budget' (line ++ [LF]) answer
  /\ budget' + charged s' + answer_permit answer = budget + charged s /\ (0 <= budget -> 0 <= budget').
Proof.
  intros Hw Hp Hm Hn Hl. unfold finish_line. cbn [rd_permit with_data]. rewrite Hp. cbn zeta.
  assert (Hwf : forall b, well_formed (with_permit None None (with_data [] b s))).
  { intros b. constructor; cbn; [apply Hw| |done]. split; [apply not_elem_of_nil|]. unfold zlen. cbn. apply Hw. }
  pose proof (wf_max _ Hw).
  destruct (bool_decide_reflect (strip_cr line = [])) as [E|E];
    (split; [done|]; split; [apply Hwf|]; do 4 (split; [done|]); unfold charged; cbn; rewrite Hp; cbn).
  - split; [|lia]. right. exists line. by split_and!.
  - split; [|lia]. exists line. by split_and!.
Qed.

(** A turn with bytes at hand. *)
Lemma accept_spec now s budget events :
  well_formed s -> is_some (rd_deadline s) = true -> rd_buffered s <> [] ->
  let '(answer, s', budget') := accept now s budget in
  (answer <> None /\ moves s budget events answer s' budget' events)
  \/ (answer = None /\ moves s budget [] None s' budget' [] /\ rd_permit s' <> None).
Proof.
  intros Hw Hd Hb. unfold accept. pose proof (charge_spec now s budget Hw Hd) as Hc.
  destruct (charge now s budget) as [[s1 budget1]|e].
  2: { left. split; [done|]. destruct e; try done; destruct Hc as [Hp Hm]; (constructor; try done; [|cbn; lia|exists []; done]);
       exists []; (split; [done|]); cbn; auto. }
  destruct Hc as (Hw1 & Hp1 & Hm32 & Eb & Ef & Em & Er & Hbud & Hnn & Hdl).
  pose proof (split_line_spec (rd_buffered s1)) as Hs. destruct (split_line (rd_buffered s1)) as [line rest] eqn:Esp.
  destruct Hs as [Hn Hs]. destruct (wf_line _ Hw1) as [Hln Hll]. rewrite Em in Hll.
  assert (Epend : pending s1 = pending s) by (unfold pending; by rewrite Eb, Ef).
  unfold saturating_sub. destruct (Z.ltb_spec (Z.max (rd_max s1 - zlen (rd_bytes s1)) 0) (zlen line)) as [Hlong|Hfit].
  { left. split; [done|]. constructor; try done; [|cbn; lia|auto|exists []; done]. exists []. rewrite Epend. split; [done|]. cbn. left.
    split; [done|]. right. left. rewrite Esp. cbn. rewrite zlen_app. lia. }
  assert (Hlen : zlen (rd_bytes s1 ++ line) <= rd_max s1) by (rewrite zlen_app; rewrite Em in *; pose proof (zlen_nonneg line); lia).
  assert (Hnl : LF ∉ rd_bytes s1 ++ line) by (rewrite elem_of_app; tauto).
  destruct rest as [rest|].
  - pose proof (finish_line_spec (rd_bytes s1 ++ line) rest s1 budget1 events Hw1) as Hf.
    rewrite Em in Hf. rewrite Em in Hlen. specialize (Hf Hp1 Hm32 Hnl Hlen).
    destruct (finish_line _ _ _) as [[answer s'] budget']. destruct Hf as (Ha & Hw' & Em' & Er' & Hp' & Epd & Hans & Hb' & Hnn').
    left. split; [done|]. constructor; try done.
    + by rewrite Em', Er', Er.
    + exists ((rd_bytes s1 ++ line) ++ [LF]). split; [|done]. rewrite <- Epend. unfold pending at 1.
      rewrite Hs, Epd. by rewrite <- !app_assoc.
    + lia.
    + auto.
    + exists []. by split.
  - right. split; [done|]. split; [|cbn; by rewrite Hp1]. constructor; cbn.
    + constructor; cbn; [apply Hw1|by split|]. rewrite Hp1. pose proof (wf_permit _ Hw1) as Hp. rewrite Hp1 in Hp.
      by rewrite Em in *.
    + by rewrite Em, Er.
    + exists []. cbn. split; [|done]. unfold pending, data. cbn. rewrite !app_nil_r, <- Eb, <- Ef, Hs. done.
    + unfold charged in *. cbn. lia.
    + done.
    + auto.
    + exists []. by split.
Qed.

Lemma answer_ok_more e events s' budget' raw answer :
  answer_ok events s' budget' raw answer -> answer_ok (e :: events) s' budget' raw answer.
Proof.
  assert (Hmore : forall e', e' ∈ events -> e' ∈ e :: events) by (intros; by apply list_elem_of_further).
  destruct answer as [[[f|]|[]]|]; cbn; try done.
  - intros (? & ? & now & Hin). eauto.
  - intros (? & deadline & now & ? & Hin & ?). eauto 8.
  - intros [[? [?|[?|[? [now Hin]]]]]|?]; eauto 10.
  - intros [? Hin]. auto.
Qed.

(** A turn that goes on, and the rest of the call. *)
Lemma moves_on s budget s1 budget1 events answer s' budget' rest :
  moves s budget [] None s1 budget1 [] -> rd_permit s1 <> None ->
  moves s1 budget1 events answer s' budget' rest -> moves s budget events answer s' budget' rest.
Proof.
  intros [_ [Em Er] (raw & Ed & [-> Hb]) Hbud Hnn Hdl _] Hp [Hw' [Em' Er'] (raw' & Ed' & Hans) Hbud' Hnn' Hdl' Hrest].
  cbn in Ed, Hbud. rewrite !app_nil_r in Ed. constructor; try done.
  - split; congruence.
  - exists raw'. split; [|done]. by rewrite Ed.
  - lia.
  - auto.
  - intros H1 H2. rewrite (Hdl' Hp H2). by apply Hdl.
Qed.

(** An event that brings no bytes. *)
Lemma moves_event e s budget events answer s' budget' rest :
  event_data e = [] -> moves s budget events answer s' budget' rest -> moves s budget (e :: events) answer s' budget' rest.
Proof.
  intros He [Hw' Hc (raw & Ed & Hans) Hbud Hnn Hdl (used & -> & Hn)]. constructor; try done.
  - exists raw. split; [|by apply answer_ok_more]. unfold data in *. cbn. by rewrite He.
  - by exists (e :: used).
Qed.

(** An event that brings bytes to an empty buffer. *)
Lemma moves_got now chunk s budget events answer s' budget' rest :
  rd_buffered s = [] -> moves (with_data (rd_bytes s) chunk s) budget events answer s' budget' rest ->
  moves s budget (Got now chunk :: events) answer s' budget' rest.
Proof.
  intros Hb [Hw' Hc (raw & Ed & Hans) Hbud Hnn Hdl (used & -> & Hn)]. constructor; try done.
  - exists raw. split; [|by apply answer_ok_more]. unfold pending, data in *. cbn in *.
    by rewrite Hb, app_nil_r, <- Ed, <- app_assoc.
  - by exists (Got now chunk :: used).
Qed.

Lemma well_formed_data s chunk : well_formed s -> well_formed (with_data (rd_bytes s) chunk s).
Proof. intros [? ? ?]. by constructor. Qed.

Lemma well_formed_deadline s deadline : well_formed s -> well_formed (with_deadline (Some deadline) s).
Proof. intros [? ? Hp]. constructor; [done..|]. cbn. destruct (rd_permit s); [|done]. split_and!; try apply Hp; done. Qed.

(** An event that is answered. *)
Lemma moves_end e s budget events answer :
  well_formed s -> event_data e = [] -> answer <> None -> answer_permit answer = 0 ->
  answer_ok (e :: events) s budget [] answer -> moves s budget (e :: events) answer s budget events.
Proof.
  intros Hw He Ha Hp Hans. constructor; try done; [|lia|by exists [e]].
  exists []. split; [|done]. unfold data. cbn. by rewrite He.
Qed.

Lemma wait_spec events : forall s budget,
  well_formed s -> is_some (rd_deadline s) = true -> rd_buffered s = [] ->
  let '(answer, s', budget', rest) := wait events s budget in moves s budget events answer s' budget' rest.
Proof.
  induction events as [|e events IH]; intros s budget Hw Hd Hb; cbn [wait].
  { constructor; try done; [by exists []|cbn; lia|by exists []]. }
  destruct e as [now chunk| |now].
  - destruct (bool_decide_reflect (chunk = [])) as [->|Hc].
    + assert (Hin : Got now [] ∈ Got now [] :: events) by apply list_elem_of_here.
      destruct (bool_decide_reflect (rd_bytes s = [])) as [E|E]; apply moves_end; cbn; try done.
      * unfold pending. rewrite E, Hb. eauto.
      * left. eauto 6.
    + pose proof (accept_spec now (with_data (rd_bytes s) chunk s) budget events (well_formed_data s chunk Hw) Hd Hc) as Ha.
      destruct (accept now _ budget) as [[answer s1] budget1].
      destruct Ha as [[Hn Ha]|(-> & Ha & Hp)].
      * destruct answer as [answer|]; [by apply moves_got|done].
      * specialize (IH s1 budget1). destruct (wait events s1 budget1) as [[[answer s'] budget'] rest].
        apply moves_got; [done|]. eapply moves_on; [exact Ha|done|]. destruct Ha as [Hw1 _ (raw & _ & -> & Hb1) _ _ _ _].
        apply IH; [done| |done]. pose proof (wf_permit _ Hw1) as Hp1. destruct (rd_permit s1); [apply Hp1|done].
  - apply moves_end; cbn; try done. split; [done|apply list_elem_of_here].
  - destruct (rd_deadline s) as [deadline|] eqn:Ed; [|done].
    destruct (Z.leb_spec deadline now).
    + apply moves_end; cbn; try done. split; [done|]. exists deadline, now. split_and!; [done|apply list_elem_of_here|done].
    + specialize (IH s budget Hw). destruct (wait events s budget) as [[[answer s'] budget'] rest].
      apply moves_event; [done|]. apply IH; [by rewrite Ed|done].
Qed.

Lemma moves_deadline s deadline budget events answer s' budget' rest :
  well_formed s -> (rd_permit s <> None -> rd_deadline s = Some deadline) ->
  moves (with_deadline (Some deadline) s) budget events answer s' budget' rest ->
  moves s budget events answer s' budget' rest.
Proof.
  intros Hw Hd [Hw' Hc Hdata Hbud Hnn Hdl Hrest]. constructor; try done.
  intros H1 H2. rewrite (Hdl H1 H2). symmetry. by apply Hd.
Qed.

(** A call of [read], whatever the stream does and wherever the call is dropped. *)
Lemma read_spec now events s budget :
  well_formed s -> rd_read_buffer_permit s <> None ->
  let '(answer, s', budget', rest) := read now events s budget in moves s budget events answer s' budget' rest.
Proof.
  intros Hw Hr. unfold read. destruct (rd_read_buffer_permit s) as [cap|] eqn:Ecap; [|done]. cbn zeta.
  set (deadline := default _ _). set (s0 := with_deadline (Some deadline) s).
  assert (Hdl : rd_permit s <> None -> rd_deadline s = Some deadline).
  { intros Hp. pose proof (wf_permit _ Hw) as Hwp. destruct (rd_permit s); [|done]. destruct Hwp as (_ & _ & Hd).
    unfold deadline. by destruct (rd_deadline s). }
  assert (Hw0 : well_formed s0) by by apply well_formed_deadline.
  change (rd_buffered s) with (rd_buffered s0). destruct (bool_decide_reflect (rd_buffered s0 = [])) as [E|E].
  - pose proof (wait_spec events s0 budget Hw0 eq_refl E) as Hs.
    destruct (wait events s0 budget) as [[[answer s'] budget'] rest]. by apply (moves_deadline s deadline).
  - pose proof (accept_spec now s0 budget events Hw0 eq_refl E) as Ha.
    destruct (accept now s0 budget) as [[answer s1] budget1].
    destruct Ha as [[Hn Ha]|(-> & Ha & Hp)].
    + destruct answer as [answer|]; [by apply (moves_deadline s deadline)|done].
    + pose proof (wait_spec events s1 budget1) as Hs. destruct (wait events s1 budget1) as [[[answer s'] budget'] rest].
      apply (moves_deadline s deadline); [done..|]. eapply moves_on; [exact Ha|done|].
      destruct Ha as [Hw1 _ (raw & _ & -> & Hb1) _ _ _ _].
      apply Hs; [done| |done]. pose proof (wf_permit _ Hw1) as Hp1. destruct (rd_permit s1); [apply Hp1|done].
Qed.

(** * Sessions *)

(** What happens to a reader and its budget: a call that sees the next polls of
    the stream before it answers or is dropped, the end of the oldest frame, and
    permits that others return or take. *)
Inductive Act :=
| Read (now : Z) (polls : nat)
| Release
| Elsewhere (permits : Z).

Record Session := {
  ss_reader : FrameReader; ss_budget : Z; ss_events : list Event;
  ss_answers : list (result IoError (option Frame)); ss_held : list Z; ss_elsewhere : Z;
}.

Definition frame_permit (answer : Answer) : list Z :=
  match answer with Some (Ok (Some f)) => [fm_permit f] | _ => [] end.

Definition act (st : Session) (a : Act) : Session :=
  match a with
  | Read now polls =>
    let '(answer, reader, budget, rest) := read now (take polls (ss_events st)) (ss_reader st) (ss_budget st) in
    {| ss_reader := reader; ss_budget := budget; ss_events := rest ++ drop polls (ss_events st);
       ss_answers := ss_answers st ++ option_list answer; ss_held := ss_held st ++ frame_permit answer;
       ss_elsewhere := ss_elsewhere st |}
  | Release =>
    match ss_held st with
    | [] => st
    | permit :: held =>
      {| ss_reader := ss_reader st; ss_budget := ss_budget st + permit; ss_events := ss_events st;
         ss_answers := ss_answers st; ss_held := held; ss_elsewhere := ss_elsewhere st |}
    end
  | Elsewhere permits =>
    if ss_budget st + permits <? 0 then st
    else {| ss_reader := ss_reader st; ss_budget := ss_budget st + permits; ss_events := ss_events st;
            ss_answers := ss_answers st; ss_held := ss_held st; ss_elsewhere := ss_elsewhere st - permits |}
  end.

Definition start (max total idle completion : Z) (events : list Event) : Session :=
  let '(reader, budget) := new max total idle completion in
  {| ss_reader := reader; ss_budget := budget; ss_events := events; ss_answers := []; ss_held := [];
     ss_elsewhere := 0 |}.

Definition session (acts : list Act) (st : Session) : Session := fold_left act acts st.

(** The messages that were handed out. *)
Definition delivered (answers : list (result IoError (option Frame))) : list (list byte) :=
  omap (fun answer => match answer with Ok (Some f) => Some (fm_bytes f) | _ => None end) answers.

(** The messages of lines: empty lines are refused. *)
Definition messages_of (lines : list (list byte)) : list (list byte) :=
  List.filter (fun bytes => negb (bool_decide (bytes = []))) (strip_cr <$> lines).

Definition terminated (line : list byte) : list byte := line ++ [LF].

Lemma data_app l k : data (l ++ k) = data l ++ data k.
Proof. unfold data. by rewrite fmap_app, concat_app. Qed.

Lemma delivered_app l k : delivered (l ++ k) = delivered l ++ delivered k.
Proof. unfold delivered. apply omap_app. Qed.

Lemma messages_app l k : messages_of (l ++ k) = messages_of l ++ messages_of k.
Proof. unfold messages_of. by rewrite fmap_app, List.filter_app. Qed.

Lemma well_formed_new max total idle completion :
  0 <= max -> well_formed (new max total idle completion).1.
Proof.
  intros Hm. unfold new. destruct (try_acquire _ _); (constructor; [done| |done]); (split; [apply not_elem_of_nil|done]).
Qed.

(** The account of a session from its beginning. *)
Record faithful (max total : Z) (events : list Event) (st : Session) (lines : list (list byte)) : Prop := {
  fa_data : data events = concat (terminated <$> lines) ++ pending (ss_reader st) ++ data (ss_events st);
  fa_lines : Forall (line_ok max) lines;
  fa_delivered : delivered (ss_answers st) = messages_of lines;
  fa_reader : well_formed (ss_reader st) /\ rd_max (ss_reader st) = max;
  fa_budget : ss_budget st + charged (ss_reader st) + sum_Z (ss_held st) + ss_elsewhere st = total;
  fa_nonneg : 0 <= ss_budget st /\ Forall (Z.le 0) (ss_held st);
}.

Lemma faithful_start max total idle completion events :
  0 <= max -> 0 <= total -> faithful max total events (start max total idle completion events) [].
Proof.
  intros Hm Ht. pose proof (well_formed_new max total idle completion Hm) as Hw.
  unfold start, new, try_acquire in *. destruct (Z.leb_spec (Z.min 8192 (Z.max max 1)) total);
    (constructor; cbn; [done|done|done|done|unfold charged; cbn; lia|]); (split; [cbn; lia|done]).
Qed.

(** What an answer adds to the lines. *)
Lemma answer_lines events s' budget' raw answer :
  answer_ok events s' budget' raw answer -> 0 <= rd_max s' ->
  exists lines, raw = concat (terminated <$> lines) /\ Forall (line_ok (rd_max s')) lines
    /\ delivered (option_list answer) = messages_of lines /\ Forall (Z.le 0) (frame_permit answer).
Proof.
  intros Ha Hm. assert (Hone : forall line, line ++ [LF] = concat (terminated <$> [line])).
  { intros line. cbn. by rewrite app_nil_r. }
  destruct answer as [[[f|]|e]|]; cbn in Ha.
  - destruct Ha as (line & -> & Hl & Hb & Hne & Hp). exists [line]. split; [apply Hone|]. split; [by apply Forall_singleton|].
    split; [|apply Forall_singleton; lia].
    unfold messages_of, delivered. cbn. rewrite <- Hb. by rewrite bool_decide_eq_false_2.
  - destruct Ha as [-> _]. by exists [].
  - assert (raw = [] \/ exists line, raw = line ++ [LF] /\ line_ok (rd_max s') line /\ strip_cr line = []) as [->|(line & -> & Hl & E)].
    { destruct e; [left; apply Ha|left; apply Ha| |left; apply Ha]. destruct Ha as [[-> _]|Ha]; auto. }
    + by exists [].
    + exists [line]. split; [apply Hone|]. split; [by apply Forall_singleton|]. split; [|done].
      unfold messages_of, delivered. cbn. by rewrite E.
  - destruct Ha as [-> _]. by exists [].
Qed.

Lemma frame_permit_sum answer : sum_Z (frame_permit answer) = answer_permit answer.
Proof. destruct answer as [[[f|]|]|]; cbn; lia. Qed.

Ltac session_cbn :=
  cbn [ss_reader ss_budget ss_events ss_answers ss_held ss_elsewhere frame_permit].

Lemma faithful_read max total events st lines now polls :
  faithful max total events st lines ->
  exists more, faithful max total events (act st (Read now polls)) (lines ++ more).
Proof.
  intros [Hd Hl Hdel [Hw Em] Hb [Hn Hh]]. cbn [act].
  destruct (rd_read_buffer_permit (ss_reader st)) as [cap|] eqn:Ecap.
  2: { unfold read. rewrite Ecap. exists []. rewrite app_nil_r.
       constructor; session_cbn; rewrite ?take_drop, ?app_nil_r; try done.
       by rewrite delivered_app, Hdel, app_nil_r. }
  pose proof (read_spec now (take polls (ss_events st)) (ss_reader st) (ss_budget st) Hw) as Hr.
  rewrite Ecap in Hr. specialize (Hr ltac:(done)).
  destruct (read now _ _ _) as [[[answer s'] budget'] rest].
  destruct Hr as [Hw' [Em' _] (raw & Ed & Hans) Hbud Hnn _ _].
  pose proof (wf_max _ Hw') as Hm'.
  apply answer_lines in Hans as (more & -> & Hmore & Hdm & Hfp); [|done]. rewrite Em', Em in Hmore.
  exists more. constructor; session_cbn.
  - rewrite Hd, fmap_app, concat_app, <- !app_assoc. f_equal.
    rewrite <- (take_drop polls (ss_events st)) at 1. rewrite !data_app, (app_assoc (pending _)), Ed. by rewrite <- !app_assoc.
  - by apply Forall_app.
  - by rewrite delivered_app, messages_app, Hdel, Hdm.
  - split; [done|congruence].
  - rewrite sum_Z_app, frame_permit_sum. lia.
  - split; [auto|]. by apply Forall_app.
Qed.

Lemma faithful_act max total events st lines a :
  faithful max total events st lines -> exists more, faithful max total events (act st a) (lines ++ more).
Proof.
  destruct a as [now polls| |permits]; [apply faithful_read|..]; intros Hf; exists []; rewrite app_nil_r;
    destruct Hf as [Hd Hl Hdel Hr Hb [Hn Hh]]; cbn [act].
  - destruct (ss_held st) as [|permit held] eqn:E; [by constructor; try rewrite E|].
    apply Forall_cons in Hh as [Hp Hh]. cbn in Hb.
    constructor; session_cbn; try done; [lia|split; [lia|done]].
  - destruct (Z.ltb_spec (ss_budget st + permits) 0); [by constructor|].
    constructor; session_cbn; try done; lia.
Qed.

(** C9. However the bytes arrive, wherever calls are dropped and whatever else uses
    the budget: what has arrived is the lines that were answered, in order and
    each once, then the line in progress and what is not read yet.  The messages
    handed out are exactly those lines without their end, except that empty ones
    are refused; every line is within the limit, no byte of a frame is held without
    permits for the largest frame, and no permit is lost or given twice. *)
Theorem framing_faithful max total idle completion events acts :
  0 <= max -> 0 <= total ->
  exists lines, faithful max total events (session acts (start max total idle completion events)) lines.
Proof.
  intros Hm Ht. induction acts as [|a acts [lines IH]] using rev_ind.
  - exists []. by apply faithful_start.
  - unfold session in *. rewrite fold_left_app. cbn [fold_left].
    destruct (faithful_act _ _ _ _ _ a IH) as [more Hf]. by exists (lines ++ more).
Qed.

(** * Messages there and back *)

(** What the documentation of the serializer says of compact JSON. *)
Definition json_text (m : list byte) : Prop := m <> [] /\ (LF ∉ m) /\ last m <> Some CR.

Lemma capped_buffer_spec max pieces : forall buffer out,
  capped max pieces buffer = Ok out -> zlen buffer <= max ->
  out = buffer ++ concat pieces /\ zlen out <= max.
Proof.
  induction pieces as [|input pieces IH]; intros buffer out; cbn [capped concat].
  - intros [= <-] Hl. by rewrite app_nil_r.
  - unfold saturating_sub. destruct (Z.ltb_spec (Z.max (max - zlen buffer) 0) (zlen input)); [done|].
    intros Hc Hl. apply IH in Hc as [-> Hl']; [|rewrite zlen_app; lia].
    by rewrite <- app_assoc in *.
Qed.

(** What is written is the whole message and its end, within the limit. *)
Lemma write_json_spec max pieces sent budget out :
  0 <= max -> write_json max (Some pieces) sent budget = Ok out ->
  out = terminated (concat pieces) /\ zlen (concat pieces) <= max < 2 ^ 32.
Proof.
  intros Hm. unfold write_json. destruct (Z.ltb_spec (2 ^ 32 - 1) max); [done|]. destruct (try_acquire _ _); [|done].
  cbn [ok_or]. destruct (capped max pieces []) as [buffer|] eqn:E; [|done]. destruct sent; [|done]. intros [= <-].
  apply capped_buffer_spec in E as [-> Hl]; [|unfold zlen; cbn; lia]. split; [done|]. cbn in Hl. lia.
Qed.

(** The event brings bytes. *)
Definition arrives (e : Event) : Prop := match e with Got _ chunk => chunk <> [] | _ => False end.

Definition framed (max : Z) (m : list byte) : result IoError (option Frame) :=
  Ok (Some {| fm_bytes := m; fm_permit := max |}).

(** The reads that are not dropped while [events] could still come. *)
Definition full_reads (events : nat) (acts : list Act) : nat :=
  length (List.filter (fun a => match a with Read _ polls => (events <=? polls)%nat | _ => false end) acts).

Definition on_its_own (a : Act) : Prop := match a with Elsewhere _ => False | _ => True end.

(** A line-feed-free beginning of a text that ends with a line feed. *)
Lemma prefix_of_line (l r t k : list byte) : l ++ r = t ++ LF :: k -> LF ∉ l -> (length l <= length t)%nat.
Proof.
  intros E Hl. destruct (Nat.le_gt_cases (length l) (length t)) as [|Hlt]; [done|]. exfalso. apply Hl.
  apply (list_elem_of_lookup_2 _ (length t)). rewrite <- (lookup_app_l l r) by lia.
  rewrite E, lookup_app_r by lia. by rewrite Nat.sub_diag.
Qed.

Lemma line_unique (l r t k : list byte) :
  l ++ [LF] ++ r = t ++ [LF] ++ k -> LF ∉ l -> LF ∉ t -> l = t /\ r = k.
Proof.
  intros E Hl Ht. pose proof (prefix_of_line l _ t k E Hl). pose proof (prefix_of_line t _ l r (eq_sym E) Ht).
  apply app_inj_1 in E as [-> [= ->]]; [done|lia].
Qed.

Lemma strip_text m : json_text m -> strip_cr m = m.
Proof. intros (_ & _ & Hc). unfold strip_cr. by rewrite bool_decide_eq_false_2. Qed.

Section roundtrip.
Variables (max total : Z) (texts : list (list byte)) (most : nat).
Hypothesis max_u32 : 0 <= max < 2 ^ 32.
Hypothesis texts_fit : Forall (fun m => json_text m /\ zlen m <= max) texts.
Hypothesis budget_fits : Z.min 8192 (Z.max max 1) + max * zlen texts <= total.

(** The first [n] messages are handed out; the others are on their way. *)
Record carried (st : Session) (n : nat) : Prop := {
  cr_answers : ss_answers st = framed max <$> take n texts;
  cr_data : pending (ss_reader st) ++ data (ss_events st) = concat (terminated <$> drop n texts);
  cr_reader : well_formed (ss_reader st) /\ rd_max (ss_reader st) = max
    /\ rd_read_buffer_permit (ss_reader st) = Some (Z.min 8192 (Z.max max 1));
  cr_events : Forall arrives (ss_events st) /\ (length (ss_events st) <= most)%nat;
  cr_budget : ss_budget st + charged (ss_reader st) + sum_Z (ss_held st) = total
    /\ sum_Z (ss_held st) <= max * Z.of_nat n /\ Forall (Z.le 0) (ss_held st);
  cr_count : (n <= length texts)%nat;
}.

(** The next message, if any byte is on its way. *)
Lemma next_text n l :
  l <> [] -> l = concat (terminated <$> drop n texts) -> (n <= length texts)%nat ->
  exists m, texts !! n = Some m /\ json_text m /\ zlen m <= max /\ take (S n) texts = take n texts ++ [m]
    /\ l = m ++ [LF] ++ concat (terminated <$> drop (S n) texts) /\ (S n <= length texts)%nat.
Proof.
  intros Hne -> Hn. destruct (texts !! n) as [m|] eqn:E.
  2: { apply lookup_ge_None in E. by rewrite drop_ge in Hne by lia. }
  exists m. pose proof texts_fit as Hall. rewrite Forall_forall in Hall. destruct (Hall m) as [Hj Hl]; [by eapply list_elem_of_lookup_2|].
  split_and!; try done.
  - by apply take_S_r.
  - rewrite (drop_S _ m) by done. cbn. unfold terminated at 1. by rewrite <- app_assoc.
  - apply lookup_lt_Some in E. lia.
Qed.

(** Nothing of what arrives is an error. *)
Lemma no_error n s' raw rest budget' e events held :
  (forall e, e ∈ events -> arrives e) -> (n <= length texts)%nat ->
  well_formed s' -> rd_max s' = max -> rd_read_buffer_permit s' = Some (Z.min 8192 (Z.max max 1)) ->
  concat (terminated <$> drop n texts) = raw ++ pending s' ++ data rest ->
  budget' + default 0 (rd_permit s') + Z.min 8192 (Z.max max 1) + held = total -> held <= max * Z.of_nat n ->
  answer_ok events s' budget' raw (Some (Err e)) -> False.
Proof.
  intros Harr Hn Hw' Em' Er' Hall Hbud Hheld Hans. pose proof (wf_line _ Hw') as [Hline Hlen].
  assert (Hend : forall t, Got t [] ∈ events -> False) by (intros t Hin; by apply Harr in Hin).
  destruct e; cbn in Hans; rewrite Em' in *.
  - destruct Hans as [-> [Hnone|(Hp & Hlt & Hbuf)]]; [congruence|].
    destruct (next_text n (concat (terminated <$> drop n texts)) ltac:(intros E; rewrite E in Hall; unfold pending in Hall; destruct (rd_bytes s'), (rd_buffered s'); done) eq_refl Hn)
      as (m & _ & _ & _ & _ & _ & Hn').
    rewrite Hp in Hbud. cbn in Hbud. unfold zlen in budget_fits. nia.
  - destruct Hans as (_ & d & t & _ & Hin & _). by apply Harr in Hin.
  - destruct Hans as [[-> [Hm|[Hlong|[_ [t Hin]]]]]|(line & -> & [Hl _] & Es)]; [lia| |by apply Hend in Hin|].
    + pose proof (split_line_spec (rd_buffered s')) as Hs. destruct (split_line (rd_buffered s')) as [line rest'] eqn:Esp.
      cbn [fst] in Hlong. destruct Hs as [Hnl Hs].
      destruct (decide (concat (terminated <$> drop n texts) = [])) as [E|E].
      { rewrite E in Hall. symmetry in Hall. unfold pending in Hall. cbn in Hall.
        apply app_nil in Hall as [Hall _]. apply app_nil in Hall as [E1 E2]. rewrite E2 in Esp. injection Esp as <- _.
        rewrite E1 in Hlong. unfold zlen in Hlong. cbn in Hlong. lia. }
      destruct (next_text n _ E eq_refl Hn) as (m & _ & Hj & Hml & _ & Eq & _).
      assert (Hpre : (length (rd_bytes s' ++ line) <= length m)%nat).
      { eapply (prefix_of_line _ (match rest' with Some r => LF :: r | None => [] end ++ data rest)).
        - rewrite Hall in Eq. cbn in Eq. rewrite <- Eq. unfold pending. rewrite <- !app_assoc. f_equal.
          destruct rest'; rewrite Hs at 1; by rewrite <- ?app_assoc.
        - rewrite elem_of_app. tauto. }
      unfold zlen in *. lia.
    + destruct (next_text n (concat (terminated <$> drop n texts)) ltac:(rewrite Hall; by destruct line) eq_refl Hn) as (m & _ & Hj & _ & _ & Eq & _).
      rewrite Hall, <- app_assoc in Eq. apply line_unique in Eq as [-> _]; [|done|apply Hj].
      rewrite (strip_text m Hj) in Es. by destruct Hj as [Hne _].
  - destruct Hans as [_ Hin]. by apply Harr in Hin.
Qed.

Lemma carried_read st n now polls :
  carried st n ->
  exists n', carried (act st (Read now polls)) n' /\ (n <= n')%nat
    /\ ((most <= polls)%nat -> (n < length texts)%nat -> n' = S n).
Proof.
  intros [Ha Hd (Hw & Em & Er) [Hev Hmost] (Hb & Hh & Hp0) Hn]. cbn [act].
  pose proof (read_spec now (take polls (ss_events st)) (ss_reader st) (ss_budget st) Hw) as Hr.
  rewrite Er in Hr. specialize (Hr ltac:(done)).
  destruct (read now _ _ _) as [[[answer s'] budget'] rest].
  destruct Hr as [Hw' [Em' Er'] (raw & Ed & Hans) Hbud _ _ (used & Htake & Hrest)].
  rewrite Em in Em'. rewrite Er in Er'.
  assert (Harr : forall e, e ∈ take polls (ss_events st) -> arrives e).
  { rewrite Forall_forall in Hev. intros e He. apply Hev. rewrite <- (take_drop polls (ss_events st)). apply elem_of_app. by left. }
  assert (Hev' : Forall arrives (rest ++ drop polls (ss_events st)) /\ (length (rest ++ drop polls (ss_events st)) <= most)%nat).
  { rewrite <- (take_drop polls (ss_events st)), Htake in Hev, Hmost. rewrite !length_app in *. rewrite <- app_assoc in Hev.
    apply Forall_app in Hev as [_ Hev]. split; [done|lia]. }
  assert (Hall : concat (terminated <$> drop n texts) = raw ++ pending s' ++ data (rest ++ drop polls (ss_events st))).
  { rewrite <- Hd. rewrite <- (take_drop polls (ss_events st)) at 1. rewrite !data_app, (app_assoc (pending _)), Ed.
    by rewrite <- !app_assoc. }
  pose proof (wf_line _ Hw') as [Hline Hlen]. rewrite Em' in Hlen.
  pose proof Hans as Hans'. destruct answer as [[[f|]|e]|]; cbn in Hans; rewrite ?Em' in Hans.
  - destruct Hans as (line & -> & [Hl _] & Ef & Hne & Ep). exists (S n). split; [|split; [lia|done]].
    destruct (next_text n (concat (terminated <$> drop n texts)) ltac:(rewrite Hall; by destruct line) eq_refl Hn)
      as (m & Hm & Hj & Hml & Htk & Eq & Hn').
    rewrite Hall, <- app_assoc in Eq. apply line_unique in Eq as [-> Eq]; [|done|apply Hj].
    rewrite (strip_text m Hj) in Ef.
    assert (Ef' : f = {| fm_bytes := m; fm_permit := max |}) by (destruct f; cbn in *; congruence).
    constructor; session_cbn; try done.
    + rewrite Ha, Htk, fmap_app. cbn. by rewrite Ef'.
    + rewrite sum_Z_app. cbn in *. split; [lia|]. split; [lia|]. apply Forall_app. split; [done|]. apply Forall_singleton. lia.
  - exfalso. destruct Hans as (_ & _ & t & Hin). by apply Harr in Hin.
  - exfalso. apply (no_error n s' raw (rest ++ drop polls (ss_events st)) budget' e (take polls (ss_events st)) (sum_Z (ss_held st))); try done.
    unfold charged in Hbud at 1. rewrite Er' in Hbud. cbn in Hbud. lia.
  - destruct Hans as [-> Hbuf]. specialize (Hrest eq_refl). subst rest. exists n. split; [|split; [lia|]].
    + constructor; session_cbn; rewrite ?app_nil_r; try done. cbn in Hbud.
      split; [lia|done].
    + intros Hfull Hlt. exfalso.
      rewrite (drop_ge (ss_events st)) in Hall by lia. unfold pending in Hall. rewrite Hbuf, !app_nil_r in Hall. cbn in Hall.
      destruct (lookup_lt_is_Some_2 texts n Hlt) as [m Hm].
      apply Hline. rewrite <- Hall, (drop_S _ m) by done. cbn. unfold terminated at 1.
      rewrite !elem_of_app. left. right. by apply list_elem_of_singleton.
Qed.

Lemma carried_act st n a :
  carried st n -> on_its_own a ->
  exists n', carried (act st a) n' /\ (Nat.min (length texts) (n + full_reads most [a]) <= n')%nat.
Proof.
  intros Hc Ho. destruct a as [now polls| |permits]; [..|done].
  - destruct (carried_read st n now polls Hc) as (n' & Hc' & Hle & Hfull). exists n'. split; [done|].
    unfold full_reads. cbn. destruct (Nat.leb_spec most polls); cbn; [|lia].
    destruct (Nat.lt_ge_cases n (length texts)); [rewrite Hfull by done|]; lia.
  - exists n. cbn. split; [|lia]. destruct Hc as [Ha Hd Hr He (Hb & Hh & Hp) Hn].
    destruct (ss_held st) as [|permit held] eqn:E; [by constructor; try rewrite E|].
    apply Forall_cons in Hp as [Hp1 Hp]. cbn in Hb, Hh. constructor; session_cbn; try done. split; [lia|]. split; [lia|done].
Qed.
End roundtrip.

(** C8. Messages that are written within the limit are read back.  However their
    bytes are cut into pieces and wherever calls are dropped, no call fails; the
    messages are handed out whole, once and in order, and every call that is not
    dropped hands one out until none is left. *)
Theorem framing_roundtrip max total idle completion messages outs events acts :
  0 <= max ->
  Forall2 (fun pieces out => json_text (concat pieces) /\
             exists sent budget, write_json max (Some pieces) sent budget = Ok out) messages outs ->
  max < 2 ^ 32 -> Z.min 8192 (Z.max max 1) + max * zlen messages <= total ->
  Forall arrives events -> data events = concat outs -> Forall on_its_own acts ->
  exists n,
    ss_answers (session acts (start max total idle completion events)) = framed max <$> take n (@concat byte <$> messages)
    /\ (Nat.min (length messages) (full_reads (length events) acts) <= n)%nat.
Proof.
  intros Hm Hall Hm32 Htotal Hev Hdata Hacts. set (texts := @concat byte <$> messages).
  assert (Hwire : concat outs = concat (terminated <$> texts) /\ Forall (fun m => json_text m /\ zlen m <= max) texts).
  { unfold texts. clear Htotal Hdata. induction Hall as [|pieces out messages outs [Hj (sent & budget & Hw)] _ [IH1 IH2]]; [done|].
    apply write_json_spec in Hw as [-> Hl]; [|done]. cbn. split; [by rewrite IH1|constructor; [split; [done|lia]|done]]. }
  destruct Hwire as [Hwire Hfit].
  assert (Elen : length texts = length messages) by apply length_fmap.
  assert (Htot : Z.min 8192 (Z.max max 1) + max * zlen texts <= total) by (unfold zlen in *; by rewrite Elen).
  assert (exists n, carried max total texts (length events) (session acts (start max total idle completion events)) n
    /\ (Nat.min (length texts) (full_reads (length events) acts) <= n)%nat) as (n & Hc & Hn).
  { induction acts as [|a acts IH] using rev_ind.
    - exists 0%nat. split; [|cbn; lia]. pose proof (well_formed_new max total idle completion Hm) as Hw.
      unfold session, start, new, try_acquire in *. cbn [fold_left].
      destruct (Z.leb_spec (Z.min 8192 (Z.max max 1)) total) as [|Hlt]; [|unfold zlen in *; nia].
      constructor; cbn -[data]; try done; [|unfold charged; cbn; split; [lia|split; [lia|done]]|lia].
      by rewrite Hdata, Hwire.
    - apply Forall_app in Hacts as [Hacts Ha]. apply Forall_cons in Ha as [Ha _]. destruct (IH Hacts) as (n & Hc & Hn).
      destruct (carried_act max total texts (length events) ltac:(lia) Hfit Htot _ n a Hc Ha) as (n' & Hc' & Hn').
      exists n'. unfold session in *. rewrite fold_left_app. split; [done|].
      unfold full_reads in *. rewrite List.filter_app, length_app. lia. }
  exists n. split; [apply Hc|]. by rewrite <- Elen.
Qed.

(** * A session *)

(** [{"a":1}] and [{}], in pieces, with a call that is dropped in between. *)
Definition sample_messages : list (list (list byte)) := [[[123; 34; 97; 34; 58]; [49; 125]]; [[123; 125]]].
Definition sample_outs : list (list byte) := [[123; 34; 97; 34; 58; 49; 125; 10]; [123; 125; 10]].
Definition sample_events : list Event := [Got 5 [123; 34; 97]; Got 6 [34; 58; 49; 125; 10; 123]; Got 7 [125; 10]].
Definition sample_acts : list Act := [Read 1 1; Read 6 3; Release; Read 7 3].

Lemma framing_roundtrip_witness :
  exists n, ss_answers (session sample_acts (start 32 96 1000 1000 sample_events))
    = framed 32 <$> take n (@concat byte <$> sample_messages) /\ (2 <= n)%nat.
Proof.
  apply (framing_roundtrip 32 96 1000 1000 sample_messages sample_outs); [lia| |lia|vm_compute; discriminate| |done|].
  - repeat constructor; try discriminate; try (apply (bool_decide_unpack _); vm_compute; exact I);
      exists (Ok tt), 64; reflexivity.
  - repeat constructor; discriminate.
  - repeat constructor.
Defined.

Lemma framing_faithful_witness :
  exists lines, faithful 32 96 sample_events (session sample_acts (start 32 96 1000 1000 sample_events)) lines
    /\ delivered (ss_answers (session sample_acts (start 32 96 1000 1000 sample_events))) <> [].
Proof.
  destruct (framing_faithful 32 96 1000 1000 sample_events sample_acts) as [lines Hf]; [lia|lia|].
  exists lines. split; [exact Hf|]. vm_compute. discriminate.
Defined.

(** The unit tests of the source: a frame that is too long, and one that does
    not end. *)
Example rejects_oversize_and_incomplete_eof :
  ss_answers (session [Read 0 2] (start 4 8 1000 1000 [Got 0 [49; 50; 51; 52; 53]; Got 0 []])) = [Err InvalidData]
  /\ ss_answers (session [Read 0 2] (start 4 8 1000 1000 [Got 0 [123; 125]; Got 0 []])) = [Err InvalidData].
Proof. split; reflexivity. Qed.

(** A partial frame keeps its deadline over dropped calls. *)
Example partial_frame_keeps_its_absolute_deadline :
  ss_answers (session [Read 0 1; Read 25 1] (start 32 96 1000 20 [Got 1 [123]; Quiet 30])) = [Err TimedOut].
Proof. reflexivity. Qed.
